(* ===== verification/_CoqProject ===== *)
-Q . S2P
Prelude.v
Text.v
Money.v
Domain.v
Ledger.v
Encoding.v
Matching.v
Automation.v
Commands.v
Store.v
StoreFacts.v
Service.v
Scanner.v
Rates.v
Custody.v
Refunds.v
Treasury.v
Numerals.v
Outbox.v
Wire.v
Auth.v
Webhook.v
Reconciliation.v
Migration.v
Sandbox.v
SandboxFacts.v
SandboxRuns.v
Workers.v
Retention.v
RetentionFacts.v
RetentionRuns.v
MerchantSettings.v
MerchantFacts.v
MerchantRuns.v
ProviderOps.v
ProviderOpsFacts.v
Chains.v
ChainsFacts.v
Providers.v
ProvidersFacts.v
Evm.v
EvmFacts.v
EvmReplay.v
EvmInternal.v
EvmInternalFacts.v
Legacy.v
LegacyGateway.v
LegacyFacts.v
LegacyRuns.v
LegacyLimits.v
Hosted.v
HostedFacts.v
HostedRuns.v
Management.v
ManagementFacts.v
ManagementEdges.v
ManagementRuns.v
Tron.v
TronFacts.v
Ton.v
TonFacts.v
