(* ===== verification/Prelude.v ===== *)
(** * A verification library for the ocrypt payment backend

    ocrypt takes crypto payments for merchants. A merchant creates a payment
    intent and a route for it: a chain, an asset, an address and an exact amount
    (internal/application over a store). A scanner follows each chain behind a
    quorum of providers and turns blocks into transfer events; a matcher assigns
    transfers to routes, by exact match or by a versioned policy; the ledger books
    what was credited; an outbox relays events and webhooks deliver them, signed.
    Rates price an intent in an asset. Custody moves money out: refunds to payers
    and treasury sweeps. Reconciliation compares books and chains, migration
    control moves a merchant in from an older system, and a sandbox plays whole
    payments for tests.

    ** Files and sources (all under src/backend/internal)

    - Prelude (this file): results, errors, machine integers, time, sorting, the
      tactics [bool_hyp], [step_in], [run_ok]. Text: byte strings, decimals,
      hexadecimal, [TrimSpace], [Split]. Numerals: [strconv] integers.
    - Money: money/amount.go. Domain: domain/ (records, status machines, event
      identity). Ledger: domain/ledger.go. Encoding: ids/uuidv7.go,
      checkout/token.go, base64 and the TON address of chains/ton.go.
    - Matching: application/settlement.go, policy.go, exceptions.go,
      same_customer_candidate.go, and the candidates of an unmatched transfer in
      adapters/postgres/settlement.go ([findPotentialCandidates], on the rows of its
      query). Automation: application/matching_automation.go.
    - Commands: application/commands.go. Store and StoreFacts:
      adapters/memory/store.go. Service: application/service.go, reads.go,
      store.go, over the class [PaymentStore], of which Store is an instance.
    - Workers: application/quote.go, settlement.go ([Process]), proof_worker.go,
      operator.go, and the queue workers of exceptions.go and
      matching_automation.go.
    - Scanner: scanner/worker.go, range_verifier.go. Rates: rates/ (rationals,
      configuration, collection, selection).
    - Custody: what refunds and sweeps share. Refunds: refunds/. Treasury:
      treasury/.
    - Outbox: outbox/worker.go, canonical.go. Wire: the wire form of a message, and
      an executable part of encoding/json to evaluate it with. Auth: auth/hmac.go.
      Webhook: webhook/. Reconciliation: reconciliation/. Migration: migrationcontrol/.
    - Sandbox, SandboxFacts, SandboxRuns: sandbox/ (model, memory repository,
      service over the class [SandboxRepository]).
    - Retention, RetentionFacts, RetentionRuns: retentionadmin/ (policies, legal
      holds and work items: the service over the class [Repository], the memory
      repository, the scheduler).
    - MerchantSettings, MerchantFacts, MerchantRuns: merchantsettings/ (settings,
      team and invitations: the service over the classes [SettingsRepository]
      and [TokenIssuer], the memory repository, the signed invitation token).
    - ProviderOps, ProviderOpsFacts: providerops/ (health probes, circuit breaker,
      quorum admission, certification of providers by operators).
    - Chains, ChainsFacts: the normalizers of chains/ (EVM, Solana, TON, TRON and
      Aptos): a provider's transaction as transfer events.
    - Providers, ProvidersFacts: providers/provider.go and the rate policy
      (error kinds, retries, JSON-RPC batches, failover and quorum groups).
    - Evm, EvmFacts, EvmReplay: providers/evm.go (heads, block ranges, log
      filters, transaction lookup). EvmInternal, EvmInternalFacts:
      providers/evm_internal_filter.go (traced value transfers behind two
      tracers and balance bisection).
    - Tron, TronFacts: providers/tron.go (Base58Check addresses, heads, ranges,
      native, direct and GasFree transfers, transaction lookup).
    - Ton, TonFacts: providers/ton.go (addresses, heads, masterchain ranges, the
      logical-time window over the shard frontier, pages of actions, lookup).
    - Legacy, LegacyGateway, LegacyFacts, LegacyRuns, LegacyLimits: legacycompat/
      (signed legacy orders as intents, their callbacks, the look-up limiter) over
      the classes of its repository and core.
    - Hosted, HostedFacts, HostedRuns: hostedproviders/ and
      domain/hosted_provider.go (the adapter to a hosted gateway, callbacks,
      planning behind a fence, the recovery worker).
    - Management, ManagementFacts, ManagementEdges, ManagementRuns: management/
      (payment links, checkout sessions, endpoints, API clients, receipts,
      four-eyes actions as a service over effects; admin assertions, sealed
      secrets, endpoint challenges, what a payer is shown).

    A struct is a [Record], a constant set an [Inductive] (a string where the code
    compares strings), a map a [gmap], a slice a list; a method that mutates takes
    and returns the state, a fallible one returns [result], a panic is a value of
    its own. What a call reads from outside (clock, random bytes, the answer of a
    store, provider or signer) is an argument; what it does to the outside is the
    list of calls it makes. SHA-256, HMAC, Ed25519, JSON and URL codecs are
    parameters of the sections that use them, with the documented laws a theorem
    needs as hypotheses; each such theorem has a witness with concrete functions.

    ** What is proved

    - Amounts: exact arithmetic within 256 bits, prices and quotes rounded up by
      less than a unit ([FiatMinorToAssetAtomic_exact], [Issue_exact]).
    - Store: for every sequence of operations, exclusive reservations, replays
      that return the first answer, isolation of tenants, versions, history that
      only grows, and failed operations that change nothing, with one exception
      that is shown. The service proves its guarantees against the store's laws.
    - Matching: an automatic decision credits what was received and no more, is
      the same for every order of its inputs; a transfer without an exact route is
      bound to a strictly best candidate or to the strictly closest of equivalent
      invoices of one customer ([automatic_candidate_safe]). Ledger: balanced entries, compensating reversals.
    - Scanner: what is committed is contiguous, linked, within a quorum of heads;
      range checks are exact. Rates: the selected window agrees and is the
      tightest, independently of the order of the sources.
    - Custody: refund and sweep refine one abstract custody machine (a simulation
      from the work items to phases); two people, bounded fees, books that
      balance, and termination of the workflow in at most its number of stages.
    - Messages: one canonical wire form per value, at-least-once relay, one end
      per delivery, requests bound to their signature, nonces and their gap.
    - Reconciliation and migration: exact classification, evidence for every item,
      manifests under two keys, the path to a cutover, authorized calls only, the
      quorum of verifiers.
    - Sandbox: the payment invariant in every reachable state, replays, isolation,
      reset, and the outcome of every named scenario.
    - Retention: the invariant of every reachable state, a released hold stays
      released, one activation per version, the scheduler completes what is due,
      every page of holds is found once, and who may ask and decide.
    - Merchant settings: a team never loses its last owner by a service call, a
      sensitive change takes a second person, an invitation is used once and
      its token opens it and nothing else; two interleaved calls can break it.
    - Providers: admission is the healthy quorum and nobody certifies what they
      entered; a failover or quorum group answers as its members do; a transfer
      is counted once whatever the spelling of its transaction.
    - EVM: a scanned range meets the contract the scanner validates; batching
      blocks changes nothing; looking a transaction up replays its scan; a traced
      transfer is confirmed by two tracers and two receipts, the balances of a
      watched address add up, and the bisection finds every block that moves one.
    - TRON: an account has one address, its Base58Check text, and the readers
      accept exactly its spellings (that of ABI words no Base58); GasFree payments
      are reported with their own listed fee, if there is one, or the transaction
      is refused; ranges meet the contract.
    - TON: a shard frontier is accepted exactly when it tiles the address space,
      so a watched window misses no payment; every payment is reported once.
    - Legacy: a signed text is one order, an order is created for its credential
      only and once, a callback reports what was charged and verifies, look-ups
      are bounded.
    - Hosted: a created payment keeps the admitted price, a callback is bound to
      its signature, a provider is called once behind a claimed fence, recovery
      admits each call and schedules each failure once.
    - Management: every effect is on behalf of the asker and one they are entitled
      to, or that of the action they approve; clients get no more than their creator may give, an approval makes the one change it
      approves, an assertion is bound to its request, a payer is asked for
      exactly what is missing.
    - Where the code does not do what it means to, a theorem shows it
      ([failed_route_event_leaks_reservation], [regressed_head_records_gap],
      [outlier_vetoes_quorum], [sweep_fee_understated], [future_timestamp_replayed],
      [run_not_atomic],
      [leading_zero_stops_gateway], [hosted_decimals_unchecked], [late_approval_fails],
      [refused_actions_grant_all], [odd_port_never_delivered], [base58_owner_skipped],
      [gasfree_without_listed_fee] and others).

    ** Bounds

    Recursion is structural, on lists, strings, JSON trees or a counter that the
    code bounds itself; where a loop counts (retry delays, decimal digits, batch
    building) the counter is a number the code compares with a limit, and the
    theorems say the result is reached. In EvmInternal the bisection has fuel
    S (log2_up range), each step halving the range; the trace pages have fuel 12,
    above the 10000 / 1000 pages after which the code gives up; the windows have
    the length of the range. A uint64 has at most 16 hexadecimal digits, the fuel
    of [hex_print]; padding to a scale takes at most scale + 1 rounds of
    [pad_zeros]. Base58 takes two digits a byte at most and a byte a digit, the
    fuel of [base58_digits] and [value_bytes] ([base58_roundtrip]). TON pages have
    fuel 100000 / page size + 2, above the offset at which the code gives up
    ([pages_complete]). The JSON reader of Wire has the length of its text plus one,
    and each call of it reads a byte. Integers keep their width: [int64] and
    [uint64] wrap where the code's arithmetic can. A [Time] is a number of
    nanoseconds since year 1; [Sub] saturates as in the library.

    ** Not modelled, and why

    SQL repositories (adapters/postgres and the postgres.go files, but for the
    ranking of candidates): their meaning is the database's. HTTP servers, clients, proxies, OIDC, object storage, the
    message bus, telemetry and the programs under cmd/: input and output around
    the modelled services. Of providers/, provider.go, the rate policy and the EVM,
    TRON and TON sources are modelled; the Solana and Aptos clients, the factory and
    the address watcher are not yet. The advisory ranking compares floating-point
    confidences. Still open to modelling: those clients and the
    admin rules. *)

From Stdlib Require Import ZArith Lia Ascii String Permutation Sorted.
From stdpp Require Import base gmap sets list strings sorting.

(** ** Scope and basic notations *)

Declare Scope go_scope.
Delimit Scope go_scope with go.

#[global] Open Scope string_scope.
#[global] Open Scope bool_scope.
#[global] Open Scope Z_scope.
#[global] Open Scope list_scope.
#[global] Open Scope go_scope.

(** Go strings are byte strings; [==] and [!=] are the language's string comparisons. *)
Notation "a == b" := (String.eqb a b) (at level 70, no associativity) : go_scope.
Notation "a != b" := (negb (String.eqb a b)) (at level 70, no associativity) : go_scope.

(** ** Results: a Go function returning (T, error) *)

Inductive result (E A : Type) : Type :=
| Ok (a : A)
| Err (e : E).
Arguments Ok {E A} a.
Arguments Err {E A} e.

#[export] Instance result_ret E : MRet (result E) := fun A a => Ok a.
#[export] Instance result_bind E : MBind (result E) :=
  fun A B f m => match m with Ok a => f a | Err e => Err e end.
#[export] Instance result_fmap E : FMap (result E) :=
  fun A B f m => match m with Ok a => Ok (f a) | Err e => Err e end.

Definition is_ok {E A} (r : result E A) : bool :=
  match r with Ok _ => true | Err _ => false end.

(** An error of a package with sentinel values [S]: the sentinel itself,
    [fmt.Errorf("%w: msg")], or an error that wraps no sentinel. *)
Inductive goerr (S : Type) : Type :=
| Sentinel (s : S)
| Wrapped (s : S) (msg : string)
| Plain (msg : string).
Arguments Sentinel {S} s.
Arguments Wrapped {S} s msg.
Arguments Plain {S} msg.

(** [errors.Is] against a sentinel of the package. *)
Definition errors_Is {S} `{EqDecision S} (e : goerr S) (s : S) : bool :=
  match e with
  | Sentinel s' | Wrapped s' _ => bool_decide (s' = s)
  | Plain _ => false
  end.

(** ** Machine integers *)

Definition max_int64 : Z := 2 ^ 63 - 1.
Definition min_int64 : Z := - 2 ^ 63.
Definition max_uint64 : Z := 2 ^ 64 - 1.

(** Wrap-around of [int64] and [uint64] arithmetic. *)
Definition int64 (x : Z) : Z := (x + 2 ^ 63) mod 2 ^ 64 - 2 ^ 63.
Definition uint64 (x : Z) : Z := x mod 2 ^ 64.

Definition is_int64 (x : Z) : Prop := min_int64 <= x <= max_int64.
Definition is_uint64 (x : Z) : Prop := 0 <= x <= max_uint64.

Lemma int64_id x : is_int64 x -> int64 x = x.
Proof.
  unfold is_int64, int64, min_int64, max_int64. intros Hx.
  rewrite Z.mod_small; lia.
Qed.

Lemma uint64_id x : is_uint64 x -> uint64 x = x.
Proof. unfold is_uint64, uint64, max_uint64. intros Hx. apply Z.mod_small. lia. Qed.

Lemma uint64_range x : is_uint64 (uint64 x).
Proof.
  unfold is_uint64, uint64, max_uint64.
  pose proof (Z.mod_pos_bound x (2 ^ 64) ltac:(lia)). lia.
Qed.

Lemma int64_range x : is_int64 (int64 x).
Proof.
  unfold is_int64, int64, min_int64, max_int64.
  pose proof (Z.mod_pos_bound (x + 2 ^ 63) (2 ^ 64) ltac:(lia)). lia.
Qed.

(** ** Time *)

(** A [time.Time] is its distance in nanoseconds from Go's zero time; [IsZero]
    is therefore the test against 0, and [UTC] is the identity. *)
Abbreviation Time := Z (only parsing).
Abbreviation Duration := Z (only parsing).

Definition Nanosecond : Duration := 1.
Definition Millisecond : Duration := 1000000.
Definition Second : Duration := 1000000000.
Definition Minute : Duration := 60 * Second.
Definition Hour : Duration := 60 * Minute.

Definition IsZeroTime (t : Time) : bool := t =? 0.
Definition After (t u : Time) : bool := u <? t.
Definition Before (t u : Time) : bool := t <? u.
Definition AddTime (t : Time) (d : Duration) : Time := t + d.

(** [Time.Sub] saturates at the extremal durations. *)
Definition SubTime (t u : Time) : Duration :=
  Z.max min_int64 (Z.min max_int64 (t - u)).

(** 1970-01-01T00:00:00Z as a [Time]: 62135596800 seconds after year 1. *)
Definition unix_epoch : Time := 62135596800 * Second.
Definition UnixTime (sec : Z) : Time := unix_epoch + sec * Second.

Create HintDb gotime.
#[export] Hint Unfold IsZeroTime After Before AddTime Second Minute Hour Millisecond : gotime.

Lemma SubTime_small t u : is_int64 (t - u) -> SubTime t u = t - u.
Proof. unfold SubTime, is_int64. lia. Qed.

(** ** Tactics *)

(** Turn boolean hypotheses into propositions. *)
Ltac bool_hyp :=
  repeat match goal with
  | H : _ && _ = true |- _ => apply andb_true_iff in H; destruct H
  | H : _ || _ = false |- _ => apply orb_false_iff in H; destruct H
  | H : negb _ = true |- _ => apply negb_true_iff in H
  | H : negb _ = false |- _ => apply negb_false_iff in H
  | H : String.eqb _ _ = true |- _ => apply String.eqb_eq in H
  | H : String.eqb _ _ = false |- _ => apply String.eqb_neq in H
  | H : (_ <? _) = true |- _ => apply Z.ltb_lt in H
  | H : (_ <? _) = false |- _ => apply Z.ltb_ge in H
  | H : (_ <=? _) = true |- _ => apply Z.leb_le in H
  | H : (_ <=? _) = false |- _ => apply Z.leb_gt in H
  | H : (_ =? _) = true |- _ => apply Z.eqb_eq in H
  | H : (_ =? _) = false |- _ => apply Z.eqb_neq in H
  | H : (_ >? _) = true |- _ => rewrite Z.gtb_ltb in H
  | H : (_ >? _) = false |- _ => rewrite Z.gtb_ltb in H
  | H : (_ >=? _) = true |- _ => rewrite Z.geb_leb in H
  | H : (_ >=? _) = false |- _ => rewrite Z.geb_leb in H
  | H : Nat.ltb _ _ = true |- _ => apply Nat.ltb_lt in H
  | H : Nat.ltb _ _ = false |- _ => apply Nat.ltb_ge in H
  | H : Nat.leb _ _ = true |- _ => apply Nat.leb_le in H
  | H : Nat.leb _ _ = false |- _ => apply Nat.leb_gt in H
  | H : bool_decide _ = true |- _ => apply bool_decide_eq_true in H
  | H : bool_decide _ = false |- _ => apply bool_decide_eq_false in H
  end.

(** Follow the successful path of a function written as a cascade of guards:
    split every [if] and [match] of hypothesis [H] and drop the branches that
    contradict its right-hand side. *)
Ltac step_in H :=
  match type of H with
  | context [match ?x with _ => _ end] =>
      let E := fresh "E" in destruct x eqn:E; try discriminate H
  end.
Ltac run_ok H := repeat (step_in H; cbn beta iota in H).

Ltac invc H := inversion H; subst; clear H.

(** ** Lists *)

Fixpoint sumZ (l : list Z) : Z :=
  match l with [] => 0 | x :: r => x + sumZ r end.

Lemma sumZ_app l1 l2 : sumZ (l1 ++ l2) = sumZ l1 + sumZ l2.
Proof. induction l1 as [|x l1 IH]; simpl; lia. Qed.

Lemma sumZ_nonneg l : Forall (fun x => 0 <= x) l -> 0 <= sumZ l.
Proof. induction 1; simpl; lia. Qed.

Lemma sumZ_perm l1 l2 : Permutation l1 l2 -> sumZ l1 = sumZ l2.
Proof. induction 1; simpl; lia. Qed.

Definition existsb_str (s : string) (l : list string) : bool :=
  existsb (fun x => x == s) l.

Lemma existsb_str_In s l : existsb_str s l = true <-> In s l.
Proof.
  unfold existsb_str. rewrite existsb_exists. split.
  - intros (x & Hin & Heq). apply String.eqb_eq in Heq. by subst.
  - intros Hin. exists s. split; [done | apply String.eqb_refl].
Qed.

Lemma NoDup_fmap_inj_on {A B} (f : A -> B) (l : list A) x y :
  NoDup (f <$> l) -> x ∈ l -> y ∈ l -> f x = f y -> x = y.
Proof.
  induction l as [|a l IH]; intros Hnd Hx Hy Hf; [by apply elem_of_nil in Hx|].
  rewrite fmap_cons in Hnd. apply NoDup_cons in Hnd as [Hn Hnd].
  apply elem_of_cons in Hx as [->|Hx]; apply elem_of_cons in Hy as [->|Hy]; [done|..].
  - destruct Hn. rewrite Hf. by apply list_elem_of_fmap_2.
  - destruct Hn. rewrite <- Hf. by apply list_elem_of_fmap_2.
  - by apply IH.
Qed.

(** *** Sorting by a boolean "less" function, as [sort.SliceStable] does *)
Section sort_by.
Context {A : Type} (less : A -> A -> bool).

Fixpoint insert_by (x : A) (l : list A) : list A :=
  match l with
  | [] => [x]
  | y :: r => if less y x then y :: insert_by x r else x :: y :: r
  end.

Fixpoint sort_by (l : list A) : list A :=
  match l with [] => [] | x :: r => insert_by x (sort_by r) end.

Lemma insert_by_perm x l : Permutation (x :: l) (insert_by x l).
Proof.
  induction l as [|y r IH]; simpl; [done|].
  destruct (less y x); [|done].
  rewrite perm_swap. by apply perm_skip.
Qed.

Lemma sort_by_perm l : Permutation l (sort_by l).
Proof.
  induction l as [|x r IH]; simpl; [done|].
  rewrite <- insert_by_perm. by apply perm_skip.
Qed.

Lemma sort_by_In x l : In x (sort_by l) <-> In x l.
Proof.
  split; apply Permutation_in; [symmetry|]; apply sort_by_perm.
Qed.

Lemma sort_by_length l : length (sort_by l) = length l.
Proof. symmetry. apply Permutation_length, sort_by_perm. Qed.

(** [x] may stand before [y]: the output order of the sort. *)
Definition not_after (x y : A) : Prop := less y x = false.

(** The order need only be lawful on the elements that are sorted. *)
Section ordered_on.
Context (P : A -> Prop).
Hypothesis less_asym_on : forall x y, P x -> P y -> less x y = true -> less y x = false.
Hypothesis less_cotrans_on : forall x y z, P x -> P y -> P z ->
  less x z = true -> less x y = true \/ less y z = true.

Lemma not_after_trans_on x y z : P x -> P y -> P z -> not_after x y -> not_after y z -> not_after x z.
Proof.
  unfold not_after. intros Hx Hy Hz H1 H2. destruct (less z x) eqn:E; [|done].
  destruct (less_cotrans_on z y x Hz Hy Hx E); congruence.
Qed.

Lemma insert_by_sorted_on x l : P x -> Forall P l ->
  StronglySorted not_after l -> StronglySorted not_after (insert_by x l).
Proof.
  intros Hx HP Hs. induction Hs as [|y r Hs IH Hall]; simpl; [by repeat constructor|].
  apply Forall_cons in HP as [Hy HP]. destruct (less y x) eqn:E.
  - constructor; [by apply IH|]. rewrite <- (insert_by_perm x r). constructor; [|done]. by apply less_asym_on.
  - constructor; [by constructor|]. constructor; [done|]. rewrite Forall_forall in Hall, HP |- *.
    intros z Hz. eapply (not_after_trans_on x y z); eauto.
Qed.

Lemma sort_by_sorted_on l : Forall P l -> StronglySorted not_after (sort_by l).
Proof.
  induction l as [|x r IH]; simpl; [constructor|]. intros [Hx HP]%Forall_cons.
  apply insert_by_sorted_on; [done| |by apply IH]. by rewrite <- sort_by_perm.
Qed.
End ordered_on.

Lemma sort_by_sorted l :
  (forall x y, less x y = true -> less y x = false) ->
  (forall x y z, less x z = true -> less x y = true \/ less y z = true) ->
  StronglySorted not_after (sort_by l).
Proof.
  intros Ha Hc. apply (sort_by_sorted_on (fun _ => True)); [auto..|]. by apply Forall_true.
Qed.

(** Two sorted arrangements of the same elements agree when distinct elements
    are never equivalent: what an unstable sort returns is then determined. *)
Lemma sorted_unique l1 l2 :
  (forall x y, In x l1 -> In y l1 -> less x y = true \/ less y x = true \/ x = y) ->
  StronglySorted not_after l1 -> StronglySorted not_after l2 ->
  Permutation l1 l2 -> l1 = l2.
Proof.
  intros Htot Hs. revert l2 Htot. induction Hs as [|x r Hs IH Hall]; intros l2 Htot Hs2 Hp.
  { by apply Permutation_nil in Hp. }
  destruct l2 as [|y r2]; [by apply Permutation_sym, Permutation_nil in Hp|].
  assert (x = y) as <-.
  { inversion Hs2 as [|? ? Hs2' Hall2]; subst.
    assert (In y (x :: r)) as [->|Hy] by
      (eapply Permutation_in; [by apply Permutation_sym|by left]); [done|].
    assert (In x (y :: r2)) as [->|Hx] by
      (eapply Permutation_in; [done|by left]); [done|].
    rewrite Forall_forall in Hall, Hall2.
    apply list_elem_of_In in Hy, Hx.
    pose proof (Hall y Hy) as H1. pose proof (Hall2 x Hx) as H2.
    unfold not_after in H1, H2.
    destruct (less x y) eqn:E1; [congruence|].
    destruct (less y x) eqn:E2; [congruence|].
    apply list_elem_of_In in Hy.
    destruct (Htot x y) as [?|[?|?]]; [by left|by right|congruence..]. }
  f_equal. apply IH.
  - intros a b Ha Hb. apply Htot; by right.
  - by inversion Hs2.
  - by apply Permutation_cons_inv in Hp.
Qed.

(** So the sort is a function of the elements, whatever order they come in. *)
Lemma sort_by_determined l l' :
  (forall x y, less x y = true -> less y x = false) ->
  (forall x y z, less x z = true -> less x y = true \/ less y z = true) ->
  (forall x y, In x l -> In y l -> less x y = true \/ less y x = true \/ x = y) ->
  Permutation l l' -> sort_by l = sort_by l'.
Proof.
  intros Ha Hc Ht Hp. apply sorted_unique.
  - intros x y Hx Hy. by apply Ht; apply sort_by_In.
  - by apply sort_by_sorted.
  - by apply sort_by_sorted.
  - by rewrite <- !sort_by_perm.
Qed.
End sort_by.
