(* ===== verification/Text.v ===== *)
(** * Text: the parts of Go's [strings], [strconv], [encoding/hex] and
    [math/big] text conversion that the backend uses, on byte strings. *)

From Stdlib Require Import ZArith Lia Ascii String.
From stdpp Require Import base list strings.
From S2P Require Import Prelude.

#[global] Arguments String.append : simpl nomatch.

(** ** Bytes *)

Definition code (c : ascii) : Z := Z.of_N (N_of_ascii c).

Lemma code_range c : 0 <= code c < 256.
Proof. unfold code. pose proof (N_ascii_bounded c). lia. Qed.

Definition chr (z : Z) : ascii := ascii_of_N (Z.to_N z).

Lemma code_chr z : 0 <= z < 256 -> code (chr z) = z.
Proof. intros Hz. unfold code, chr. rewrite N_ascii_embedding; lia. Qed.

Lemma chr_code c : chr (code c) = c.
Proof. unfold chr, code. rewrite N2Z.id. apply ascii_N_embedding. Qed.

Lemma code_inj c d : code c = code d -> c = d.
Proof. intros H. by rewrite <- (chr_code c), <- (chr_code d), H. Qed.

(** [len(s)] *)
Definition len (s : string) : Z := Z.of_nat (String.length s).

(** [s[i]], as a number; the callers check the length first. *)
Definition byte_at (s : string) (i : nat) : Z :=
  match String.get i s with Some c => code c | None => -1 end.

Fixpoint str_forall (p : ascii -> bool) (s : string) : bool :=
  match s with EmptyString => true | String c r => p c && str_forall p r end.

Definition is_digit (c : ascii) : bool := (48 <=? code c) && (code c <=? 57).

Lemma len_app s t : len (s +:+ t) = len s + len t.
Proof. unfold len. induction s as [|c s IH]; simpl; lia. Qed.

Lemma str_app_assoc s t u : (s +:+ t) +:+ u = s +:+ (t +:+ u).
Proof. induction s as [|c s IH]; simpl; congruence. Qed.

Lemma str_app_nil_r s : s +:+ "" = s.
Proof. induction s as [|c s IH]; simpl; congruence. Qed.

Lemma len_nonneg s : 0 <= len s.
Proof. unfold len. lia. Qed.

Lemma str_forall_app p s t : str_forall p (s +:+ t) = str_forall p s && str_forall p t.
Proof. induction s as [|c s IH]; simpl; [done|]. by rewrite IH, andb_assoc. Qed.

(** ** Comparison: Go orders strings bytewise *)

Fixpoint str_less (s t : string) : bool :=
  match s, t with
  | _, EmptyString => false
  | EmptyString, String _ _ => true
  | String c s', String d t' =>
      if code c <? code d then true
      else if code d <? code c then false else str_less s' t'
  end.

Lemma str_less_irrefl s : str_less s s = false.
Proof. induction s as [|c s IH]; simpl; [done|]. by rewrite Z.ltb_irrefl. Qed.

Lemma str_less_asym s t : str_less s t = true -> str_less t s = false.
Proof.
  revert t. induction s as [|c s IH]; intros [|d t]; simpl; try done.
  destruct (code c <? code d) eqn:E1, (code d <? code c) eqn:E2; bool_hyp; try done; [lia|].
  apply IH.
Qed.

Lemma str_less_trans s t u :
  str_less s t = true -> str_less t u = true -> str_less s u = true.
Proof.
  revert t u. induction s as [|c s IH]; intros [|d t] [|e u]; simpl; try done.
  destruct (code c <? code d) eqn:E1, (code d <? code c) eqn:E2,
    (code d <? code e) eqn:E3, (code e <? code d) eqn:E4,
    (code c <? code e) eqn:E5, (code e <? code c) eqn:E6; bool_hyp; try done; try lia.
  apply IH.
Qed.

Lemma str_less_total s t : str_less s t = true \/ str_less t s = true \/ s = t.
Proof.
  revert t. induction s as [|c s IH]; intros [|d t]; simpl; auto.
  destruct (code c <? code d) eqn:E1, (code d <? code c) eqn:E2; bool_hyp; auto.
  assert (c = d) as -> by (apply code_inj; lia).
  destruct (IH t) as [?|[?| ->]]; auto.
Qed.

Lemma str_less_cotrans s t u :
  str_less s u = true -> str_less s t = true \/ str_less t u = true.
Proof.
  intros H. destruct (str_less_total s t) as [?|[Hts| ->]]; auto.
  right. by eapply str_less_trans.
Qed.

(** ** Decimal numerals ([big.Int.SetString] base 10, [big.Int.String]) *)

(** Value of a string of digits, most significant first, with accumulator. *)
Fixpoint dec_value (acc : Z) (s : string) : Z :=
  match s with
  | EmptyString => acc
  | String c r => dec_value (10 * acc + (code c - 48)) r
  end.

Definition digit_char (d : Z) : ascii := chr (48 + d).

Fixpoint dec_print (fuel : nat) (n : Z) (acc : string) : string :=
  match fuel with
  | O => acc
  | S f =>
      let acc' := String (digit_char (n mod 10)) acc in
      if n / 10 =? 0 then acc' else dec_print f (n / 10) acc'
  end.

(** [big.Int.String] of a non-negative integer; the fuel is the bit length,
    which is at least the number of decimal digits. *)
Definition dec_string (n : Z) : string :=
  dec_print (S (Z.to_nat (Z.log2 n))) n "".

(** The anchored regular expression of canonical unsigned integers: "0", or a
    digit 1..9 followed by any digits. *)
Definition canonical_uint (s : string) : bool :=
  match s with
  | EmptyString => false
  | String c r =>
      if code c =? 48 then (r == "") else is_digit c && str_forall is_digit r
  end.

Lemma code_digit_char d : 0 <= d < 10 -> code (digit_char d) = 48 + d.
Proof. intros Hd. apply code_chr. lia. Qed.

Lemma is_digit_digit_char d : 0 <= d < 10 -> is_digit (digit_char d) = true.
Proof. intros Hd. unfold is_digit. rewrite code_digit_char by done. lia. Qed.

Lemma dec_value_shift s acc :
  dec_value acc s = acc * 10 ^ len s + dec_value 0 s.
Proof.
  revert acc. induction s as [|c s IH]; intros acc; [unfold len; simpl; lia|].
  cbn [dec_value]. rewrite IH, (IH (10 * 0 + (code c - 48))).
  replace (len (String c s)) with (len s + 1) by (unfold len; simpl; lia).
  rewrite Z.pow_add_r by (pose proof (len_nonneg s); lia). lia.
Qed.

Lemma dec_value_bound s :
  str_forall is_digit s = true -> 0 <= dec_value 0 s < 10 ^ len s.
Proof.
  induction s as [|c s IH]; intros H; [unfold len; simpl; lia|].
  cbn [str_forall] in H. apply andb_true_iff in H as [Hc Hs].
  unfold is_digit in Hc. bool_hyp. specialize (IH Hs).
  cbn [dec_value]. rewrite dec_value_shift.
  replace (len (String c s)) with (len s + 1) by (unfold len; simpl; lia).
  rewrite Z.pow_add_r by (pose proof (len_nonneg s); lia). nia.
Qed.

(** Numerals of equal length are determined by their value. *)
Lemma dec_value_inj s t :
  str_forall is_digit s = true -> str_forall is_digit t = true ->
  String.length s = String.length t -> dec_value 0 s = dec_value 0 t -> s = t.
Proof.
  revert t. induction s as [|c s IH]; intros [|d t] Hs Ht Hl Hv; try done.
  cbn [str_forall] in Hs, Ht.
  apply andb_true_iff in Hs as [Hc Hs], Ht as [Hd Ht].
  cbn [dec_value] in Hv. rewrite (dec_value_shift s), (dec_value_shift t) in Hv.
  pose proof (dec_value_bound s Hs). pose proof (dec_value_bound t Ht).
  injection Hl as Hl.
  assert (len s = len t) as Hlen by (unfold len; lia). rewrite <- Hlen in *.
  assert (code c = code d) as Hcd by nia.
  apply code_inj in Hcd as ->. f_equal. apply IH; [done..|nia].
Qed.

Lemma canonical_digits s : canonical_uint s = true -> str_forall is_digit s = true.
Proof.
  destruct s as [|c r]; [done|]. simpl. destruct (code c =? 48) eqn:E; intros H.
  - bool_hyp. subst. unfold is_digit. rewrite E. done.
  - done.
Qed.

(** A canonical numeral other than "0" has a leading non-zero digit, hence a
    value of at least 10^(len-1). *)
Lemma canonical_lower s :
  canonical_uint s = true -> 10 ^ (len s - 1) <= Z.max 1 (dec_value 0 s).
Proof.
  destruct s as [|c r]; [done|]. simpl. intros H.
  replace (len (String c r) - 1) with (len r) by (unfold len; simpl; lia).
  destruct (code c =? 48) eqn:E.
  - bool_hyp. subst. unfold len. simpl. lia.
  - apply andb_true_iff in H as [Hc Hr]. unfold is_digit in Hc. bool_hyp.
    rewrite dec_value_shift. pose proof (dec_value_bound r Hr). nia.
Qed.

Lemma canonical_nonempty s : canonical_uint s = true -> 1 <= len s.
Proof. destruct s; [done|]. unfold len. simpl. lia. Qed.

Lemma canonical_inj s t :
  canonical_uint s = true -> canonical_uint t = true ->
  dec_value 0 s = dec_value 0 t -> s = t.
Proof.
  intros Hs Ht Hv.
  assert (len s = len t) as Hl.
  { pose proof (canonical_lower s Hs). pose proof (canonical_lower t Ht).
    pose proof (dec_value_bound s (canonical_digits s Hs)).
    pose proof (dec_value_bound t (canonical_digits t Ht)).
    pose proof (canonical_nonempty s Hs). pose proof (canonical_nonempty t Ht).
    assert (10 ^ len s > 0) by (apply Z.lt_gt, Z.pow_pos_nonneg; lia).
    assert (10 ^ len t > 0) by (apply Z.lt_gt, Z.pow_pos_nonneg; lia).
    destruct (Z.lt_trichotomy (len s) (len t)) as [Hlt|[?|Hlt]]; [|done|]; exfalso.
    - assert (10 ^ len s <= 10 ^ (len t - 1)) by (apply Z.pow_le_mono_r; lia).
      assert (10 <= 10 ^ len s) by (change 10 with (10 ^ 1) at 1; apply Z.pow_le_mono_r; lia). lia.
    - assert (10 ^ len t <= 10 ^ (len s - 1)) by (apply Z.pow_le_mono_r; lia).
      assert (10 <= 10 ^ len t) by (change 10 with (10 ^ 1) at 1; apply Z.pow_le_mono_r; lia). lia. }
  apply dec_value_inj; auto using canonical_digits. unfold len in Hl. lia.
Qed.

Lemma dec_print_value fuel n acc :
  0 <= n < 10 ^ Z.of_nat fuel ->
  dec_value 0 (dec_print fuel n acc) = n * 10 ^ len acc + dec_value 0 acc.
Proof.
  revert n acc. induction fuel as [|f IH]; intros n acc Hn; simpl.
  - change (10 ^ Z.of_nat 0) with 1 in Hn. assert (n = 0) by lia. lia.
  - pose proof (Z.mod_pos_bound n 10 ltac:(lia)) as Hm.
    pose proof (Z.div_mod n 10 ltac:(lia)) as Hd.
    assert (Hval : dec_value 0 (String (digit_char (n mod 10)) acc)
                   = n mod 10 * 10 ^ len acc + dec_value 0 acc).
    { cbn [dec_value]. rewrite dec_value_shift, code_digit_char by done. lia. }
    destruct (n / 10 =? 0) eqn:E; bool_hyp; rewrite ?Hval.
    + nia.
    + rewrite IH, Hval.
      * replace (len (String _ acc)) with (len acc + 1) by (unfold len; simpl; lia).
        rewrite Z.pow_add_r by (pose proof (len_nonneg acc); lia). nia.
      * rewrite Nat2Z.inj_succ, Z.pow_succ_r in Hn by lia.
        split; [apply Z.div_pos; lia|apply Z.div_lt_upper_bound; lia].
Qed.

Lemma dec_print_canonical fuel n acc :
  0 < n < 10 ^ Z.of_nat fuel -> str_forall is_digit acc = true ->
  canonical_uint (dec_print fuel n acc) = true.
Proof.
  revert n acc. induction fuel as [|f IH]; intros n acc Hn Hacc; simpl.
  - change (10 ^ Z.of_nat 0) with 1 in Hn. lia.
  - pose proof (Z.mod_pos_bound n 10 ltac:(lia)) as Hm.
    pose proof (Z.div_mod n 10 ltac:(lia)) as Hd.
    destruct (n / 10 =? 0) eqn:E; bool_hyp.
    + simpl. rewrite code_digit_char by done.
      destruct (48 + n mod 10 =? 48) eqn:E2; bool_hyp; [lia|].
      by rewrite is_digit_digit_char, Hacc.
    + apply IH.
      * rewrite Nat2Z.inj_succ, Z.pow_succ_r in Hn by lia.
        assert (0 <= n / 10) by (apply Z.div_pos; lia).
        split; [lia|apply Z.div_lt_upper_bound; lia].
      * simpl. by rewrite is_digit_digit_char, Hacc.
Qed.

Lemma log2_fuel n : 0 <= n -> n < 10 ^ Z.of_nat (S (Z.to_nat (Z.log2 n))).
Proof.
  intros Hn. destruct (Z.eq_dec n 0) as [->|]; [done|].
  pose proof (Z.log2_spec n ltac:(lia)) as [_ H].
  pose proof (Z.log2_nonneg n).
  replace (Z.of_nat (S (Z.to_nat (Z.log2 n)))) with (Z.succ (Z.log2 n)) by lia.
  eapply Z.lt_le_trans; [exact H|]. apply Z.pow_le_mono_l. lia.
Qed.

Lemma dec_string_value n : 0 <= n -> dec_value 0 (dec_string n) = n.
Proof.
  intros Hn. unfold dec_string. rewrite dec_print_value by (split; [done|by apply log2_fuel]).
  unfold len. simpl. lia.
Qed.

Lemma dec_string_canonical n : 0 <= n -> canonical_uint (dec_string n) = true.
Proof.
  intros Hn. destruct (Z.eq_dec n 0) as [->|]; [done|].
  apply dec_print_canonical; [|done]. split; [lia|by apply log2_fuel].
Qed.

Lemma dec_string_inj n m : 0 <= n -> 0 <= m -> dec_string n = dec_string m -> n = m.
Proof. intros Hn Hm H. by rewrite <- (dec_string_value n), <- (dec_string_value m), H. Qed.

Lemma dec_string_of_value s : canonical_uint s = true -> dec_string (dec_value 0 s) = s.
Proof.
  intros Hs. pose proof (dec_value_bound s (canonical_digits s Hs)).
  apply canonical_inj; [by apply dec_string_canonical; lia|done|].
  apply dec_string_value. lia.
Qed.

(** ** Prefixes, joining and splitting *)

Fixpoint HasPrefix (s p : string) : bool :=
  match p, s with
  | EmptyString, _ => true
  | String _ _, EmptyString => false
  | String d p', String c s' => Ascii.eqb c d && HasPrefix s' p'
  end.

Fixpoint str_drop (n : nat) (s : string) : string :=
  match n, s with
  | O, _ => s
  | S n', String _ r => str_drop n' r
  | S _, EmptyString => EmptyString
  end.

Definition TrimPrefix (s p : string) : string :=
  if HasPrefix s p then str_drop (String.length p) s else s.

(** [s[:n]] for n at most the length *)
Fixpoint str_take (n : nat) (s : string) : string :=
  match n, s with
  | S n', String c r => String c (str_take n' r)
  | _, _ => EmptyString
  end.

Fixpoint Join (l : list string) (sep : string) : string :=
  match l with
  | [] => ""
  | [s] => s
  | s :: r => s +:+ sep +:+ Join r sep
  end.

(** [strings.Split] for a one-byte separator *)
Fixpoint Split (s : string) (sep : ascii) : list string :=
  match s with
  | EmptyString => [""]
  | String c r =>
      if Ascii.eqb c sep then "" :: Split r sep
      else match Split r sep with
           | [] => [String c ""]
           | p :: ps => String c p :: ps
           end
  end.

Fixpoint Repeat (s : string) (n : nat) : string :=
  match n with O => "" | S n' => s +:+ Repeat s n' end.

(** [strings.TrimLeft(s, "0")] *)
Fixpoint TrimLeftZeros (s : string) : string :=
  match s with
  | String c r => if code c =? 48 then TrimLeftZeros r else s
  | EmptyString => EmptyString
  end.

Definition str_no (c : ascii) (s : string) : bool := str_forall (fun d => negb (Ascii.eqb d c)) s.

Lemma str_app_sep_inj c s1 s2 t1 t2 :
  str_no c s1 = true -> str_no c s2 = true ->
  s1 +:+ String c t1 = s2 +:+ String c t2 -> s1 = s2 /\ t1 = t2.
Proof.
  unfold str_no. revert s2. induction s1 as [|d s1 IH]; intros [|e s2] H1 H2 Heq; simpl in *.
  - by injection Heq as ->.
  - injection Heq as -> _. by rewrite Ascii.eqb_refl in H2.
  - injection Heq as <- _. by rewrite Ascii.eqb_refl in H1.
  - injection Heq as -> Heq. apply andb_true_iff in H1 as [_ H1], H2 as [_ H2].
    by destruct (IH s2 H1 H2 Heq) as [-> ->].
Qed.

(** Joining lists of the same length with a separator that occurs in no
    element loses nothing. *)
Lemma Join_inj c l1 l2 :
  length l1 = length l2 ->
  Forall (fun s => str_no c s = true) l1 -> Forall (fun s => str_no c s = true) l2 ->
  Join l1 (String c "") = Join l2 (String c "") -> l1 = l2.
Proof.
  revert l2. induction l1 as [|s1 l1 IH]; intros [|s2 l2] Hl H1 H2 Heq; try done.
  invc H1. invc H2. injection Hl as Hl.
  destruct l1 as [|u1 l1], l2 as [|u2 l2]; try done.
  - simpl in Heq. by subst.
  - cbn [Join String.append] in Heq.
    apply str_app_sep_inj in Heq as [-> Heq]; [|done..].
    f_equal. by apply IH.
Qed.

Lemma Join_nonempty_split c l :
  l <> [] -> Forall (fun s => str_no c s = true) l -> Split (Join l (String c "")) c = l.
Proof.
  assert (Hbase : forall s t, str_no c s = true ->
            Split (s +:+ String c t) c = s :: Split t c).
  { unfold str_no. intros s t. induction s as [|d s IH]; simpl; intros H.
    - by rewrite Ascii.eqb_refl.
    - apply andb_true_iff in H as [Hd Hs]. apply negb_true_iff in Hd.
      by rewrite Hd, IH. }
  assert (Hone : forall s, str_no c s = true -> Split s c = [s]).
  { unfold str_no. intros s. induction s as [|d s IH]; simpl; intros H; [done|].
    apply andb_true_iff in H as [Hd Hs]. apply negb_true_iff in Hd.
    by rewrite Hd, IH. }
  induction l as [|s l IH]; intros Hne Hall; [done|]. invc Hall.
  destruct l as [|u l]; [by apply Hone|].
  cbn [Join String.append]. rewrite Hbase by done. f_equal. by apply IH.
Qed.

(** ** White space ([strings.TrimSpace]) *)

Fixpoint bytes (l : list Z) : string :=
  match l with [] => "" | z :: r => String (chr z) (bytes r) end.

(** The UTF-8 encodings of the runes [unicode.IsSpace] accepts. UTF-8 is
    self-synchronising, so a leading (trailing) space rune is one of these as
    a prefix (suffix). *)
Definition space_encodings : list string :=
  (bytes <$> [[9]; [10]; [11]; [12]; [13]; [32]; [0xC2; 0x85]; [0xC2; 0xA0];
    [0xE1; 0x9A; 0x80]; [0xE2; 0x80; 0x80]; [0xE2; 0x80; 0x81]; [0xE2; 0x80; 0x82];
    [0xE2; 0x80; 0x83]; [0xE2; 0x80; 0x84]; [0xE2; 0x80; 0x85]; [0xE2; 0x80; 0x86];
    [0xE2; 0x80; 0x87]; [0xE2; 0x80; 0x88]; [0xE2; 0x80; 0x89]; [0xE2; 0x80; 0x8A];
    [0xE2; 0x80; 0xA8]; [0xE2; 0x80; 0xA9]; [0xE2; 0x80; 0xAF]; [0xE2; 0x81; 0x9F];
    [0xE3; 0x80; 0x80]])%list.

Fixpoint str_rev (s acc : string) : string :=
  match s with EmptyString => acc | String c r => str_rev r (String c acc) end.

Definition reversed (s : string) : string := str_rev s "".

Fixpoint strip_prefixes (fuel : nat) (ps : list string) (s : string) : string :=
  match fuel with
  | O => s
  | S f =>
      match List.find (fun p => HasPrefix s p) ps with
      | Some p => strip_prefixes f ps (str_drop (String.length p) s)
      | None => s
      end
  end.

Definition TrimSpace (s : string) : string :=
  let left := strip_prefixes (String.length s) space_encodings s in
  reversed (strip_prefixes (String.length left) (reversed <$> space_encodings) (reversed left)).

(** ** Hexadecimal ([encoding/hex]) *)

Definition hex_digit (d : Z) : ascii := chr (if d <? 10 then 48 + d else 87 + d).

(** [hex.EncodeToString]: two lower-case digits per byte *)
Fixpoint hex_encode (s : string) : string :=
  match s with
  | EmptyString => ""
  | String c r => String (hex_digit (code c / 16)) (String (hex_digit (code c mod 16)) (hex_encode r))
  end.

Definition hex_value (c : ascii) : option Z :=
  let z := code c in
  if (48 <=? z) && (z <=? 57) then Some (z - 48)
  else if (97 <=? z) && (z <=? 102) then Some (z - 87)
  else if (65 <=? z) && (z <=? 70) then Some (z - 55)
  else None.

(** [hex.DecodeString] *)
Fixpoint hex_decode (s : string) : option string :=
  match s with
  | EmptyString => Some ""
  | String a (String b r) =>
      match hex_value a, hex_value b, hex_decode r with
      | Some x, Some y, Some t => Some (String (chr (16 * x + y)) t)
      | _, _, _ => None
      end
  | String _ EmptyString => None
  end.

Lemma hex_value_digit d : 0 <= d < 16 -> hex_value (hex_digit d) = Some d.
Proof.
  intros Hd. unfold hex_value, hex_digit.
  destruct (d <? 10) eqn:E; bool_hyp; rewrite code_chr by lia.
  - replace ((48 <=? 48 + d) && (48 + d <=? 57)) with true by lia. f_equal. lia.
  - replace ((48 <=? 87 + d) && (87 + d <=? 57)) with false by lia.
    replace ((97 <=? 87 + d) && (87 + d <=? 102)) with true by lia. f_equal. lia.
Qed.

Lemma hex_roundtrip s : hex_decode (hex_encode s) = Some s.
Proof.
  induction s as [|c s IH]; [done|]. cbn [hex_encode hex_decode].
  pose proof (code_range c).
  pose proof (Z.mod_pos_bound (code c) 16 ltac:(lia)).
  assert (0 <= code c / 16 < 16).
  { split; [apply Z.div_pos; lia|apply Z.div_lt_upper_bound; lia]. }
  rewrite !hex_value_digit, IH by done.
  rewrite <- (Z.div_mod (code c) 16) by lia. by rewrite chr_code.
Qed.

Lemma hex_encode_inj s t : hex_encode s = hex_encode t -> s = t.
Proof.
  intros H. pose proof (hex_roundtrip s) as Hs. rewrite H, hex_roundtrip in Hs. congruence.
Qed.

Lemma hex_encode_length s : String.length (hex_encode s) = (2 * String.length s)%nat.
Proof. induction s as [|c s IH]; [done|]. cbn [hex_encode String.length]. lia. Qed.

(** *** Strings without surrounding space are left alone *)

Definition plain_byte (c : ascii) : bool := (33 <=? code c) && (code c <=? 126).

(** The first and the last byte are printable ASCII. *)
Definition plain_ends (s : string) : bool :=
  match s, reversed s with
  | String c _, String d _ => plain_byte c && plain_byte d
  | _, _ => false
  end.

Lemma str_rev_app s acc : str_rev s acc = str_rev s "" +:+ acc.
Proof.
  revert acc. induction s as [|c s IH]; intros acc; [done|]. cbn [str_rev].
  rewrite IH, (IH (String c "")), str_app_assoc. done.
Qed.

Lemma reversed_involutive s : reversed (reversed s) = s.
Proof.
  unfold reversed.
  assert (forall a b, str_rev (str_rev a b) "" = str_rev b a) as H.
  { intros a. induction a as [|c a IH]; intros b; simpl; [done|]. by rewrite IH. }
  by rewrite H.
Qed.

Lemma strip_prefixes_none fuel ps s :
  List.find (fun p => HasPrefix s p) ps = None -> strip_prefixes fuel ps s = s.
Proof. destruct fuel; simpl; [done|]. by intros ->. Qed.

Lemma no_space_prefix c s ps :
  plain_byte c = true ->
  Forall (fun p => match p with String d _ => plain_byte d = false | EmptyString => False end) ps ->
  List.find (fun p => HasPrefix (String c s) p) ps = None.
Proof.
  intros Hc. induction 1 as [|p ps Hp _ IH]; [done|]. simpl.
  destruct p as [|d p]; [done|].
  destruct (Ascii.eqb_spec c d) as [->|]; [congruence|]. done.
Qed.

Lemma TrimSpace_id s : plain_ends s = true -> TrimSpace s = s.
Proof.
  unfold plain_ends. intros H.
  destruct s as [|c r]; [done|]. destruct (reversed (String c r)) as [|d q] eqn:Hq; [done|].
  apply andb_true_iff in H as [Hc Hd]. unfold TrimSpace. cbv zeta.
  rewrite (strip_prefixes_none _ space_encodings).
  - rewrite Hq, strip_prefixes_none.
    + rewrite <- Hq. apply reversed_involutive.
    + apply no_space_prefix; [done|]. repeat constructor.
  - apply no_space_prefix; [done|]. repeat constructor.
Qed.

(** Stripping ends where no prefix of the list is left, and takes a prefix off. *)
Lemma strip_prefixes_done fuel ps s :
  Forall (fun p => p <> "") ps -> (String.length s <= fuel)%nat ->
  List.find (fun p => HasPrefix (strip_prefixes fuel ps s) p) ps = None.
Proof.
  intros Hps. revert s. induction fuel as [|fuel IH]; intros s Hlen.
  - destruct s; [|simpl in Hlen; lia]. simpl. induction Hps as [|p ps Hp _ IHp]; [done|]. simpl. by destruct p.
  - cbn [strip_prefixes].
    destruct (List.find (fun p => HasPrefix s p) ps) as [p|] eqn:E; [|done].
    apply List.find_some in E as [Hin Hpre]. apply IH.
    rewrite List.Forall_forall in Hps. specialize (Hps p Hin). destruct p as [|c p]; [done|].
    destruct s as [|d s]; [done|]. cbn [String.length str_drop] in *.
    assert (forall n t, (String.length (str_drop n t) <= String.length t)%nat) as Hd.
    { intros n. induction n as [|n IHn]; intros [|e t]; simpl; try lia. specialize (IHn t). lia. }
    specialize (Hd (String.length p) s). lia.
Qed.

Lemma str_take_length n u : (n <= String.length u)%nat -> String.length (str_take n u) = n.
Proof.
  revert u. induction n as [|n IH]; intros u H; [by destruct u|]. destruct u as [|c u]; cbn in *; [lia|]. rewrite IH; lia.
Qed.

Lemma str_drop_suffix n s : exists u, s = u +:+ str_drop n s.
Proof.
  revert s. induction n as [|n IH]; intros [|c s]; simpl; try (by exists "").
  destruct (IH s) as [u Hu]. exists (String c u). simpl. by rewrite <- Hu.
Qed.

Lemma strip_prefixes_suffix fuel ps s : exists u, s = u +:+ strip_prefixes fuel ps s.
Proof.
  revert s. induction fuel as [|fuel IH]; intros s; cbn [strip_prefixes]; [by exists ""|].
  destruct (List.find _ ps) as [p|]; [|by exists ""].
  destruct (IH (str_drop (String.length p) s)) as [u Hu]. destruct (str_drop_suffix (String.length p) s) as [v Hv].
  exists (v +:+ u). by rewrite str_app_assoc, <- Hu.
Qed.

Lemma HasPrefix_mono s t p : HasPrefix s p = true -> HasPrefix (s +:+ t) p = true.
Proof.
  revert p. induction s as [|c s IH]; intros [|d p]; simpl; try done; [by destruct t|].
  destruct (Ascii.eqb c d); [apply IH|done].
Qed.

Lemma str_rev_concat a b acc : str_rev (a +:+ b) acc = str_rev b (str_rev a acc).
Proof. revert acc. induction a as [|d a IH]; intros acc; [done|]. simpl. apply IH. Qed.

Lemma reversed_app s t : reversed (s +:+ t) = reversed t +:+ reversed s.
Proof. unfold reversed. rewrite str_rev_concat. apply str_rev_app. Qed.

(** A second trim changes nothing. *)
Lemma TrimSpace_idem s : TrimSpace (TrimSpace s) = TrimSpace s.
Proof.
  set (t := TrimSpace s). unfold TrimSpace in t. set (left := strip_prefixes (String.length s) space_encodings s) in t.
  set (r := strip_prefixes (String.length left) (reversed <$> space_encodings) (reversed left)) in t.
  assert (Forall (fun p => p <> "") space_encodings) as Hne by (repeat constructor; done).
  assert (Forall (fun p => p <> "") (reversed <$> space_encodings)) as Hne' by (repeat constructor; done).
  assert (exists u, left = t +:+ u) as [u Hu].
  { destruct (strip_prefixes_suffix (String.length left) (reversed <$> space_encodings) (reversed left)) as [v Hv].
    exists (reversed v). fold r in Hv. rewrite <- (reversed_involutive left), Hv, reversed_app. done. }
  assert (List.find (fun p => HasPrefix t p) space_encodings = None) as Ht.
  { pose proof (strip_prefixes_done (String.length s) space_encodings s Hne (le_n _)) as Hd. fold left in Hd.
    destruct (List.find (fun p => HasPrefix t p) space_encodings) as [p|] eqn:E; [|done].
    apply List.find_some in E as [Hin Hp]. exfalso.
    pose proof (List.find_none _ _ Hd p Hin) as Hno. cbn beta in Hno. rewrite Hu, HasPrefix_mono in Hno; done. }
  unfold TrimSpace. rewrite (strip_prefixes_none _ space_encodings t Ht).
  rewrite strip_prefixes_none; [apply reversed_involutive|].
  assert (reversed t = r) as -> by apply reversed_involutive.
  apply strip_prefixes_done; [done|].
  assert (String.length (reversed left) = String.length left) as ->; [|done].
  unfold reversed. assert (forall a acc, String.length (str_rev a acc) = (String.length a + String.length acc)%nat) as Hl.
  { intros a. induction a as [|c a IH]; intros acc; [done|]. cbn [str_rev]. rewrite IH. simpl. lia. }
  rewrite Hl. simpl. lia.
Qed.

Lemma str_forall_reversed p s : str_forall p (reversed s) = str_forall p s.
Proof.
  induction s as [|c s IH]; [done|]. change (String c s) with (String c "" +:+ s).
  rewrite reversed_app, !str_forall_app, IH. apply andb_comm.
Qed.

(** What is left is a part of the text. *)
Lemma TrimSpace_split s : exists u v, s = u +:+ TrimSpace s +:+ v.
Proof.
  unfold TrimSpace. cbv zeta. set (left := strip_prefixes (String.length s) space_encodings s).
  destruct (strip_prefixes_suffix (String.length s) space_encodings s) as [u Hu]. fold left in Hu.
  destruct (strip_prefixes_suffix (String.length left) (reversed <$> space_encodings) (reversed left)) as [v Hv].
  exists u, (reversed v). rewrite <- reversed_app, <- Hv, reversed_involutive. done.
Qed.

(** Printable ASCII has nothing to trim. *)
Lemma TrimSpace_plain s : str_forall plain_byte s = true -> TrimSpace s = s.
Proof.
  intros H. destruct s as [|c r]; [done|]. apply TrimSpace_id. unfold plain_ends.
  pose proof H as Hc. apply andb_true_iff in Hc as [-> _].
  rewrite <- str_forall_reversed in H. destruct (reversed (String c r)) as [|d q] eqn:E.
  - apply (f_equal reversed) in E. by rewrite reversed_involutive in E.
  - by apply andb_true_iff in H as [-> _].
Qed.

Lemma reversed_last s c r : reversed (s +:+ String c r) = reversed r +:+ String c (reversed s).
Proof.
  unfold reversed.
  assert (forall a b acc, str_rev (a +:+ b) acc = str_rev b (str_rev a acc)) as H.
  { intros a. induction a as [|d a IH]; intros b acc; [done|]. simpl. apply IH. }
  rewrite H. cbn [str_rev]. by rewrite str_rev_app.
Qed.

Lemma str_last_case s : s = "" \/ exists t c, s = t +:+ String c "".
Proof.
  induction s as [|c s IH]; [by left|right].
  destruct IH as [->|(t & d & ->)]; [by exists "", c|]. by exists (String c t), d.
Qed.

Lemma digit_plain c : is_digit c = true -> plain_byte c = true.
Proof. unfold is_digit, plain_byte. lia. Qed.

Lemma plain_ends_intro v c r d q :
  v = String c r -> reversed v = String d q ->
  plain_byte c = true -> plain_byte d = true -> plain_ends v = true.
Proof. intros -> Hq Hc Hd. unfold plain_ends. rewrite Hq. by rewrite Hc, Hd. Qed.

(** Digits at both ends are enough. *)
Lemma plain_ends_digits c s t :
  is_digit c = true -> t <> "" -> str_forall is_digit t = true ->
  plain_ends (String c s +:+ t) = true.
Proof.
  intros Hc Hne Ht.
  destruct (str_last_case t) as [->|(u & d & ->)]; [done|].
  rewrite str_forall_app in Ht. simpl in Ht. bool_hyp.
  assert (exists q, reversed (String c s +:+ (u +:+ String d "")) = String d q) as [q Hq].
  { eexists. rewrite <- str_app_assoc, reversed_last. reflexivity. }
  eapply plain_ends_intro; [reflexivity|exact Hq|by apply digit_plain..].
Qed.

Lemma Split_Join c s : Join (Split s c) (String c "") = s.
Proof.
  induction s as [|d s IH]; [done|]. cbn [Split].
  destruct (Split s c) as [|p ps] eqn:E.
  { destruct s as [|e s]; [done|]. cbn [Split] in E.
    destruct (Ascii.eqb e c); [done|]. by destruct (Split s c). }
  destruct (Ascii.eqb_spec d c) as [->|].
  - by rewrite <- IH.
  - rewrite <- IH. by destruct ps.
Qed.

Lemma Split_nonempty c s : Split s c <> [].
Proof.
  destruct s as [|d s]; [done|]. cbn [Split].
  destruct (Ascii.eqb d c); [done|]. by destruct (Split s c).
Qed.

Lemma str_forall_impl (p q : ascii -> bool) s :
  (forall c, p c = true -> q c = true) -> str_forall p s = true -> str_forall q s = true.
Proof.
  intros Hpq. induction s as [|c s IH]; [done|]. simpl. intros H.
  apply andb_true_iff in H as [Hc Hs]. rewrite (Hpq c Hc). by apply IH.
Qed.

Lemma Repeat_zeros n :
  str_forall is_digit (Repeat "0" n) = true /\ dec_value 0 (Repeat "0" n) = 0 /\
  len (Repeat "0" n) = Z.of_nat n.
Proof.
  induction n as [|n (H1 & H2 & H3)]; [done|]. cbn [Repeat].
  rewrite str_forall_app, len_app, H1, H3. repeat split; [|unfold len; simpl; lia].
  change (dec_value (10 * 0 + (code "0"%char - 48)) (Repeat "0" n) = 0).
  by rewrite dec_value_shift, H2.
Qed.

Lemma dec_value_app s t : dec_value 0 (s +:+ t) = dec_value 0 s * 10 ^ len t + dec_value 0 t.
Proof.
  assert (forall acc, dec_value acc (s +:+ t) = dec_value (dec_value acc s) t) as H.
  { induction s as [|c s IH]; intros acc; [done|]. simpl. apply IH. }
  rewrite H. apply dec_value_shift.
Qed.

(** Dropping leading zeros of a string of digits keeps its value and leaves a
    canonical numeral or nothing. *)
Lemma TrimLeftZeros_spec s :
  str_forall is_digit s = true ->
  dec_value 0 (TrimLeftZeros s) = dec_value 0 s /\
  (TrimLeftZeros s = "" \/ canonical_uint (TrimLeftZeros s) = true).
Proof.
  induction s as [|c s IH]; [by auto|]. cbn [str_forall TrimLeftZeros]. intros H.
  apply andb_true_iff in H as [Hc Hs]. destruct (IH Hs) as [Hv Hcan].
  destruct (code c =? 48) eqn:E.
  - split; [|done]. rewrite Hv. cbn [dec_value]. bool_hyp. by rewrite E.
  - split; [done|]. right. simpl. by rewrite E, Hc, Hs.
Qed.

Example trim_space_ex : TrimSpace (String (chr 9) " a b ") = "a b".
Proof. vm_compute. reflexivity. Qed.

#[global] Opaque dec_string TrimSpace.
