(* ===== verification/Money.v ===== *)
(** * Money: internal/money/amount.go

    Exact non-negative integers of at most 256 bits: parsing, printing,
    checked arithmetic, rounding division and the fiat-to-asset conversion. *)

From Stdlib Require Import ZArith Lia Ascii String.
From stdpp Require Import base list strings.
From S2P Require Import Prelude Text.

(** [type Amount struct{ n big.Int }]: the unbounded integer itself; the zero
    value of the struct is 0. Errors of this package wrap no sentinel. *)
Abbreviation Amount := Z (only parsing).

Definition amount_limit : Z := 2 ^ 256.

(** What every [Amount] the package hands out satisfies. *)
Definition valid_amount (a : Amount) : Prop := 0 <= a < amount_limit.

(** [big.Int.BitLen]: the length of the absolute value in bits *)
Definition BitLen (x : Z) : Z := if x =? 0 then 0 else Z.log2 (Z.abs x) + 1.

Definition money_error := string.

Definition Parse (s : string) : result money_error Amount :=
  if negb (canonical_uint s) then Err "amount must be a canonical unsigned integer string"
  else
    let n := dec_value 0 s in
    if BitLen n >? 256 then Err "amount exceeds 256 bits" else Ok n.

(** [MustParse] panics on a bad literal; [None] is the panic. *)
Definition MustParse (s : string) : option Amount :=
  match Parse s with Ok a => Some a | Err _ => None end.

Definition Zero : Amount := 0.

Definition AmountString (a : Amount) : string := dec_string a.
Definition IsZero (a : Amount) : bool := a =? 0.

(** [Cmp] returns -1, 0 or 1. *)
Definition Cmp (a b : Amount) : Z :=
  match a ?= b with Lt => -1 | Eq => 0 | Gt => 1 end.

(** The common exit of the arithmetic operations. *)
Definition checked (n : Z) (msg : string) : result money_error Amount :=
  if BitLen n >? 256 then Err msg else Ok n.

Definition Add (a b : Amount) : result money_error Amount := checked (a + b) "amount overflow".

Definition Sub (a b : Amount) : result money_error Amount :=
  if Cmp a b <? 0 then Err "amount underflow" else Ok (a - b).

Definition MulPow10 (a : Amount) (power : Z) : result money_error Amount :=
  checked (a * 10 ^ power) "amount overflow".

Definition Mul (a b : Amount) : result money_error Amount := checked (a * b) "amount overflow".

Definition MulDivFloor (a multiplier divisor : Amount) : result money_error Amount :=
  if IsZero divisor then Err "division by zero"
  else checked (Z.quot (a * multiplier) divisor) "amount overflow".

(** [QuoRem] followed by the increment when the remainder is positive. *)
Definition quo_ceil (n d : Z) : Z :=
  if Z.rem n d >? 0 then Z.quot n d + 1 else Z.quot n d.

Definition MulDivCeil (a multiplier divisor : Amount) : result money_error Amount :=
  if IsZero divisor then Err "division by zero"
  else checked (quo_ceil (a * multiplier) divisor) "amount overflow".

Definition DivCeil (a divisor : Amount) : result money_error Amount :=
  if IsZero divisor then Err "division by zero" else Ok (quo_ceil a divisor).

Definition FiatMinorToAssetAtomic (fiatMinor : Amount) (fiatScale assetDecimals : Z)
    (priceNumerator priceDenominator : Amount) (spreadBPS : Z) : result money_error Amount :=
  if IsZero fiatMinor || IsZero priceNumerator || IsZero priceDenominator
     || (fiatScale >? 77) || (assetDecimals >? 77) || (spreadBPS >? 10000)
  then Err "invalid fiat-to-asset conversion"
  else
    let assetScale := 10 ^ assetDecimals in
    let fiatDivisor := 10 ^ fiatScale in
    let numerator := fiatMinor * priceDenominator * assetScale * (10000 + spreadBPS) in
    let denominator := priceNumerator * fiatDivisor * 10000 in
    let quotient := quo_ceil numerator denominator in
    if (quotient <=? 0) || (BitLen quotient >? 256)
    then Err "fiat-to-asset conversion outside uint256"
    else Ok quotient.

(** [strings.ContainsAny(value, "+-eE")] *)
Definition contains_sign_or_exp (s : string) : bool :=
  negb (str_forall (fun c => negb ((code c =? 43) || (code c =? 45) || (code c =? 101) || (code c =? 69))) s).

Definition dot : ascii := chr 46.

Definition ParseDecimal (value : string) (scale : Z) : result money_error Amount :=
  if (value == "") || (TrimSpace value != value) || contains_sign_or_exp value
  then Err "amount must be a canonical decimal string"
  else
    let parts := Split value dot in
    match parts with
    | [] => Err "amount must be a canonical decimal string"
    | whole :: rest =>
        if (2 <? length parts)%nat || negb (canonical_uint whole)
        then Err "amount must be a canonical decimal string"
        else
          let finish (fraction : string) :=
            let atomic := whole +:+ fraction +:+ Repeat "0" (Z.to_nat (scale - len fraction)) in
            let atomic := TrimLeftZeros atomic in
            let atomic := if atomic == "" then "0" else atomic in
            match Parse atomic with
            | Err _ => Err "amount must be positive and fit uint256"
            | Ok parsed =>
                if IsZero parsed then Err "amount must be positive and fit uint256" else Ok parsed
            end in
          match rest with
          | [] => finish ""
          | fraction :: _ =>
              if (fraction == "") || (len fraction >? scale)
              then Err "amount has more fractional digits than currency scale"
              else if negb (str_forall is_digit fraction)
              then Err "amount must contain only decimal digits"
              else if scale =? 0
              then Err "amount has a fraction for a zero-scale currency"
              else finish fraction
          end
    end.

(** JSON form: the amount as a string. [json_string] and [json_read] are
    [json.Marshal] and [json.Unmarshal] at type string. *)
Section json.
Context (json_string : string -> string) (json_read : string -> option string).

Definition MarshalJSON (a : Amount) : string := json_string (AmountString a).

Definition UnmarshalJSON (data : string) : result money_error Amount :=
  match json_read data with
  | None => Err "amount must be a JSON string"
  | Some s => match Parse s with Ok v => Ok v | Err _ => Err "invalid amount" end
  end.
End json.

(** ** Bit lengths and bounds *)

Lemma BitLen_gt_256 x : 0 <= x -> (BitLen x >? 256) = (amount_limit <=? x).
Proof.
  intros Hx. unfold BitLen, amount_limit. rewrite Z.gtb_ltb.
  destruct (Z.eqb_spec x 0) as [->|Hne]; [done|].
  rewrite Z.abs_eq by done. apply eq_true_iff_eq. rewrite Z.ltb_lt, Z.leb_le.
  pose proof (Z.log2_le_pow2 x 256 ltac:(lia)). lia.
Qed.

Lemma checked_spec n msg a : 0 <= n -> checked n msg = Ok a <-> a = n /\ valid_amount n.
Proof.
  intros Hn. unfold checked, valid_amount. rewrite BitLen_gt_256 by done.
  destruct (amount_limit <=? n) eqn:E; bool_hyp; split.
  - done.
  - lia.
  - intros [= ->]. lia.
  - by intros [-> _].
Qed.

Lemma quo_ceil_spec n d q :
  0 <= n -> 0 < d -> quo_ceil n d = q -> n <= q * d < n + d.
Proof.
  intros Hn Hd <-. unfold quo_ceil. rewrite Z.gtb_ltb.
  pose proof (Z.quot_rem' n d) as H. pose proof (Z.rem_bound_pos n d Hn Hd).
  destruct (0 <? Z.rem n d) eqn:E; bool_hyp; nia.
Qed.

Lemma quo_ceil_nonneg n d : 0 <= n -> 0 < d -> 0 <= quo_ceil n d.
Proof. intros Hn Hd. pose proof (quo_ceil_spec n d _ Hn Hd eq_refl). nia. Qed.

(** Rounding up is monotone and returns the least sufficient multiple. *)
Lemma quo_ceil_le n d q : 0 <= n -> 0 < d -> n <= q * d -> quo_ceil n d <= q.
Proof. intros Hn Hd H. pose proof (quo_ceil_spec n d _ Hn Hd eq_refl). nia. Qed.

Lemma Cmp_lt a b : (Cmp a b <? 0) = (a <? b).
Proof. unfold Cmp. destruct (Z.compare_spec a b); lia. Qed.

Lemma Cmp_gt a b : (Cmp a b >? 0) = (b <? a).
Proof. unfold Cmp. destruct (Z.compare_spec a b); lia. Qed.

Lemma Cmp_le a b : (Cmp a b <=? 0) = (a <=? b).
Proof. unfold Cmp. destruct (Z.compare_spec a b); lia. Qed.

Lemma Cmp_ge a b : (Cmp a b >=? 0) = (b <=? a).
Proof. unfold Cmp. destruct (Z.compare_spec a b); lia. Qed.

Lemma Cmp_eq a b : (Cmp a b =? 0) = (a =? b).
Proof. unfold Cmp. destruct (Z.compare_spec a b); lia. Qed.

Create Rewrite HintDb money.
#[export] Hint Rewrite Cmp_lt Cmp_gt Cmp_le Cmp_ge Cmp_eq : money.

Lemma Sub_spec a b c : Sub a b = Ok c <-> b <= a /\ c = a - b.
Proof.
  unfold Sub. rewrite Cmp_lt. destruct (a <? b) eqn:E; bool_hyp; split; try done; try lia.
  - by intros [= <-].
  - by intros [_ ->].
Qed.

Lemma Add_spec a b c :
  valid_amount a -> valid_amount b -> Add a b = Ok c <-> c = a + b /\ a + b < amount_limit.
Proof.
  unfold valid_amount. intros Ha Hb. unfold Add. rewrite checked_spec by lia.
  unfold valid_amount. intuition lia.
Qed.

Lemma Add_valid a b c : valid_amount a -> valid_amount b -> Add a b = Ok c -> valid_amount c.
Proof. intros Ha Hb H. apply Add_spec in H; [|done..]. unfold valid_amount in *. lia. Qed.

Lemma MulDivFloor_spec a m d c :
  valid_amount a -> valid_amount m -> valid_amount d ->
  MulDivFloor a m d = Ok c <-> d <> 0 /\ c = a * m / d /\ c < amount_limit.
Proof.
  unfold valid_amount. intros Ha Hm Hd. unfold MulDivFloor, IsZero.
  destruct (d =? 0) eqn:E; bool_hyp; [by split; [|intros [? _]]|].
  assert (0 <= a * m) by nia.
  assert (0 <= a * m / d) by (apply Z.div_pos; lia).
  rewrite Z.quot_div_nonneg by lia. rewrite checked_spec by done.
  unfold valid_amount. split; [intros [-> ?]; repeat split; lia|intros (_ & -> & ?)]. lia.
Qed.

Lemma IsZero_false a : IsZero a = false <-> a <> 0.
Proof. unfold IsZero. apply Z.eqb_neq. Qed.

Lemma Parse_canonical s a :
  Parse s = Ok a <-> canonical_uint s = true /\ a = dec_value 0 s /\ valid_amount a.
Proof.
  unfold Parse. destruct (canonical_uint s) eqn:E; simpl; [|by split; [|intros [? _]]].
  pose proof (dec_value_bound s (canonical_digits s E)).
  rewrite BitLen_gt_256 by lia. unfold valid_amount.
  destruct (amount_limit <=? dec_value 0 s) eqn:E2; bool_hyp; split; try done.
  - intros (_ & -> & ?). lia.
  - intros [= <-]. repeat split; lia.
  - by intros (_ & -> & _).
Qed.

Lemma Parse_AmountString a : valid_amount a -> Parse (AmountString a) = Ok a.
Proof.
  intros H. unfold valid_amount in H. apply Parse_canonical. unfold AmountString.
  rewrite dec_string_value by lia. split; [apply dec_string_canonical; lia|done].
Qed.

Lemma Sub_ok a b : b <= a -> Sub a b = Ok (a - b).
Proof. intros. by apply Sub_spec. Qed.

(** ** Properties *)

(** An amount and its decimal string determine each other: [Parse] accepts
    a string exactly when it is the canonical numeral [String] prints for an
    integer of at most 256 bits, and then returns that integer. *)
Theorem Parse_iff_String s a : Parse s = Ok a <-> valid_amount a /\ AmountString a = s.
Proof.
  rewrite Parse_canonical. unfold AmountString. split.
  - intros (Hc & -> & Hv). split; [done|]. by apply dec_string_of_value.
  - intros [Hv <-]. pose proof Hv as [Hlo Hhi].
    split; [by apply dec_string_canonical|]. split; [|done]. by rewrite dec_string_value.
Qed.

(** Checked operations on valid amounts: the mathematical result when it fits
    256 bits, an error otherwise; subtraction fails exactly below zero. *)
Definition arithmetic_exact (a b d : Amount) : Prop :=
  (forall c, Add a b = Ok c <-> c = a + b /\ c < amount_limit) /\
  (forall c, Sub a b = Ok c <-> c = a - b /\ 0 <= c) /\
  (forall c, Mul a b = Ok c <-> c = a * b /\ c < amount_limit) /\
  (forall c, MulDivFloor a b d = Ok c <-> d <> 0 /\ c = a * b / d /\ c < amount_limit) /\
  (forall c, MulDivCeil a b d = Ok c <-> d <> 0 /\ a * b <= c * d < a * b + d /\ c < amount_limit) /\
  (forall c, DivCeil a d = Ok c <-> d <> 0 /\ a <= c * d < a + d).

Lemma quo_ceil_unique n d c : 0 <= n -> 0 < d -> n <= c * d < n + d -> c = quo_ceil n d.
Proof. intros Hn Hd Hc. pose proof (quo_ceil_spec n d _ Hn Hd eq_refl). nia. Qed.

(** The checked operations of [Amount] compute the exact integer result
    (with floor or ceiling division) and report an error precisely when that
    result does not exist or does not fit 256 bits. *)
Theorem Amount_arithmetic_exact a b d :
  valid_amount a -> valid_amount b -> valid_amount d -> arithmetic_exact a b d.
Proof.
  intros Ha Hb Hd. pose proof Ha as [? ?]. pose proof Hb as [? ?]. pose proof Hd as [? ?].
  assert (0 <= a * b) by nia.
  split; [intros c; rewrite Add_spec by done; intuition lia|].
  split; [intros c; rewrite Sub_spec; intuition lia|].
  split; [intros c; unfold Mul; rewrite checked_spec by done; unfold valid_amount; intuition lia|].
  split; [intros c; by apply MulDivFloor_spec|].
  split; intros c; unfold MulDivCeil, DivCeil, IsZero;
    (destruct (d =? 0) eqn:E; bool_hyp; [by split; [|intros [? _]]|]).
  - rewrite checked_spec by (apply quo_ceil_nonneg; lia).
    pose proof (quo_ceil_nonneg (a * b) d ltac:(lia) ltac:(lia)).
    split.
    + intros [-> Hv]. unfold valid_amount in Hv. repeat split; [done| | |lia];
        apply (quo_ceil_spec (a * b) d); lia.
    + intros (_ & Hc & Hl). rewrite (quo_ceil_unique (a * b) d c) in * by lia.
      split; [done|]. unfold valid_amount. lia.
  - split.
    + intros [= <-]. split; [done|]. apply (quo_ceil_spec a d); lia.
    + intros [_ Hc]. by rewrite (quo_ceil_unique a d c) by lia.
Qed.

Lemma Amount_arithmetic_exact_witness : arithmetic_exact 7 9 2.
Proof. apply (Amount_arithmetic_exact 7 9 2); unfold valid_amount, amount_limit; lia. Defined.

(** The exact charge in atomic units, as a fraction: a quote of [q] atomic
    units covers the invoice when [q * denominator >= numerator]. *)
Definition charge_numerator fiatMinor assetDecimals priceDenominator spreadBPS : Z :=
  fiatMinor * priceDenominator * 10 ^ assetDecimals * (10000 + spreadBPS).
Definition charge_denominator fiatScale priceNumerator : Z :=
  priceNumerator * 10 ^ fiatScale * 10000.

(** C14: A quote never undercharges and never overcharges by a whole atomic
    unit: [FiatMinorToAssetAtomic] returns the least number of atomic units
    that covers the exact rational charge, and fails on admissible inputs only
    when that number exceeds 256 bits. *)
Theorem FiatMinorToAssetAtomic_exact fiat fs ad pn pd bps q :
  valid_amount fiat -> valid_amount pn -> valid_amount pd ->
  fiat <> 0 -> pn <> 0 -> pd <> 0 -> 0 <= fs <= 77 -> 0 <= ad <= 77 -> 0 <= bps <= 10000 ->
  let num := charge_numerator fiat ad pd bps in
  let den := charge_denominator fs pn in
  FiatMinorToAssetAtomic fiat fs ad pn pd bps = Ok q <->
  num <= q * den /\ (forall q', num <= q' * den -> q <= q') /\ q < amount_limit.
Proof.
  intros Hf Hpn Hpd Hf0 Hpn0 Hpd0 Hfs Had Hbps num den. unfold valid_amount in *.
  assert (0 < 10 ^ ad) by (apply Z.pow_pos_nonneg; lia).
  assert (0 < 10 ^ fs) by (apply Z.pow_pos_nonneg; lia).
  assert (Hnum : 0 < num).
  { subst num. unfold charge_numerator. repeat apply Z.mul_pos_pos; lia. }
  assert (Hden : 0 < den) by (subst den; unfold charge_denominator; repeat apply Z.mul_pos_pos; lia).
  unfold FiatMinorToAssetAtomic, IsZero.
  replace ((fiat =? 0) || (pn =? 0) || (pd =? 0) || (fs >? 77) || (ad >? 77) || (bps >? 10000))
    with false by lia.
  fold (charge_numerator fiat ad pd bps) (charge_denominator fs pn).
  fold num den. cbv zeta.
  pose proof (quo_ceil_spec num den _ ltac:(lia) Hden eq_refl) as Hq.
  assert (0 < quo_ceil num den) by nia.
  replace (quo_ceil num den <=? 0) with false by lia. simpl.
  rewrite BitLen_gt_256 by lia. destruct (amount_limit <=? quo_ceil num den) eqn:E; bool_hyp.
  - split; [done|]. intros (Hc & Hmin & Hl).
    pose proof (Hmin _ (proj1 Hq)). pose proof (quo_ceil_le num den q ltac:(lia) Hden Hc). lia.
  - split.
    + intros [= <-]. split; [lia|]. split; [|lia]. intros q' Hq'. apply quo_ceil_le; lia.
    + intros (Hc & Hmin & _). f_equal.
      pose proof (Hmin _ (proj1 Hq)). pose proof (quo_ceil_le num den q ltac:(lia) Hden Hc). lia.
Qed.

(** 100.00 in fiat at 2.5 fiat units per whole asset of 6 decimals with a 1%
    spread is 40.4 assets. *)
Lemma FiatMinorToAssetAtomic_exact_witness :
  FiatMinorToAssetAtomic 10000 2 6 5 2 100 = Ok 40400000 /\
  (charge_numerator 10000 6 2 100 <= 40400000 * charge_denominator 2 5 /\
   (forall q', charge_numerator 10000 6 2 100 <= q' * charge_denominator 2 5 -> 40400000 <= q') /\
   40400000 < amount_limit).
Proof.
  split; [vm_compute; reflexivity|].
  apply (FiatMinorToAssetAtomic_exact 10000 2 6 5 2 100 40400000);
    unfold valid_amount, amount_limit; try lia. vm_compute. reflexivity.
Defined.

(** *** Human-readable decimals *)

(** The text of a canonical decimal: digits, or digits, a dot and digits. *)
Definition decimal_text (whole fraction : string) : string :=
  if fraction == "" then whole else whole +:+ String dot fraction.

(** [text] is a canonical decimal at most [scale] places long whose value in
    atomic units is [a]. *)
Definition decimal_value (text : string) (scale : Z) (a : Amount) : Prop :=
  exists whole fraction,
    canonical_uint whole = true /\ str_forall is_digit fraction = true /\
    len fraction <= scale /\ text = decimal_text whole fraction /\
    a = dec_value 0 (whole +:+ fraction) * 10 ^ (scale - len fraction).

(** The tail of [ParseDecimal]: pad, strip leading zeros, parse. *)
Definition parse_atomic (whole fraction : string) (scale : Z) : result money_error Amount :=
  let atomic := TrimLeftZeros (whole +:+ fraction +:+ Repeat "0" (Z.to_nat (scale - len fraction))) in
  match Parse (if atomic == "" then "0" else atomic) with
  | Err _ => Err "amount must be positive and fit uint256"
  | Ok parsed =>
      if IsZero parsed then Err "amount must be positive and fit uint256" else Ok parsed
  end.

Lemma parse_atomic_spec whole fraction scale a :
  canonical_uint whole = true -> str_forall is_digit fraction = true -> len fraction <= scale ->
  parse_atomic whole fraction scale = Ok a <->
  a = dec_value 0 (whole +:+ fraction) * 10 ^ (scale - len fraction) /\ 0 < a < amount_limit.
Proof.
  intros Hw Hf Hl. unfold parse_atomic. cbv zeta.
  set (pad := Repeat "0" _).
  destruct (Repeat_zeros (Z.to_nat (scale - len fraction))) as (Hp1 & Hp2 & Hp3).
  fold pad in Hp1, Hp2, Hp3.
  assert (Hd : str_forall is_digit (whole +:+ fraction +:+ pad) = true).
  { by rewrite !str_forall_app, (canonical_digits _ Hw), Hf, Hp1. }
  destruct (TrimLeftZeros_spec _ Hd) as [Hv Hcan].
  rewrite <- str_app_assoc, dec_value_app, Hp2, Hp3, Z.add_0_r, Z2Nat.id, str_app_assoc in Hv by lia.
  set (atomic := TrimLeftZeros _) in *.
  assert (Hcan' : canonical_uint (if atomic == "" then "0" else atomic) = true /\
                  dec_value 0 (if atomic == "" then "0" else atomic) = dec_value 0 atomic).
  { destruct (String.eqb_spec atomic "") as [->|Hne]; [done|]. by destruct Hcan. }
  destruct Hcan' as [Hc1 Hc2]. rewrite <- Hv, <- Hc2.
  set (t := if atomic == "" then "0" else atomic) in *.
  pose proof (dec_value_bound t (canonical_digits t Hc1)) as Hb.
  unfold Parse. rewrite Hc1, BitLen_gt_256 by lia. simpl. unfold IsZero.
  destruct (amount_limit <=? dec_value 0 t) eqn:E1; bool_hyp.
  { split; [done|]. intros [-> ?]. lia. }
  destruct (dec_value 0 t =? 0) eqn:E2; bool_hyp; split; try done.
  - intros [-> ?]. lia.
  - intros [= <-]. lia.
  - by intros [-> _].
Qed.

Lemma digit_not_special c :
  is_digit c = true ->
  negb (Ascii.eqb c dot) = true /\
  negb ((code c =? 43) || (code c =? 45) || (code c =? 101) || (code c =? 69)) = true.
Proof.
  unfold is_digit. intros H. bool_hyp. split; [|lia].
  destruct (Ascii.eqb_spec c dot) as [->|]; [|done].
  change (code dot) with 46 in *. lia.
Qed.

Lemma digits_no_dot s : str_forall is_digit s = true -> str_no dot s = true.
Proof. apply str_forall_impl. intros c Hc. by apply digit_not_special. Qed.

Lemma digits_no_sign s :
  str_forall is_digit s = true ->
  str_forall (fun c => negb ((code c =? 43) || (code c =? 45) || (code c =? 101) || (code c =? 69))) s = true.
Proof. apply str_forall_impl. intros c Hc. by apply digit_not_special. Qed.

Lemma decimal_text_guards whole fraction :
  canonical_uint whole = true -> str_forall is_digit fraction = true ->
  let v := decimal_text whole fraction in
  ((v == "") || (TrimSpace v != v) || contains_sign_or_exp v) = false /\
  Split v dot = (if fraction == "" then [whole] else [whole; fraction]).
Proof.
  intros Hw Hf v. pose proof (canonical_digits _ Hw) as Hwd.
  assert (exists c r, whole = String c r /\ is_digit c = true) as (c & r & Hcr & Hc).
  { destruct whole as [|c r]; [done|]. exists c, r. simpl in Hwd. bool_hyp. done. }
  assert (Hne : v <> "").
  { subst v. unfold decimal_text. rewrite Hcr. by destruct (fraction == ""). }
  assert (Htrim : TrimSpace v = v).
  { apply TrimSpace_id. subst v. unfold decimal_text.
    destruct (String.eqb_spec fraction "") as [->|Hfne].
    - rewrite Hcr. destruct (String.eqb_spec r "") as [->|Hr].
      + eapply plain_ends_intro; [reflexivity|reflexivity|by apply digit_plain..].
      + change (String c r) with (String c "" +:+ r).
        apply plain_ends_digits; [done..|]. rewrite Hcr in Hwd. simpl in Hwd. by bool_hyp.
    - rewrite Hcr. change (String dot fraction) with (String dot "" +:+ fraction).
      rewrite <- str_app_assoc. by apply plain_ends_digits. }
  assert (Hsign : contains_sign_or_exp v = false).
  { unfold contains_sign_or_exp. apply negb_false_iff. subst v. unfold decimal_text.
    destruct (fraction == ""); [by apply digits_no_sign|].
    rewrite str_forall_app. cbn [str_forall]. by rewrite !digits_no_sign. }
  split.
  - rewrite Htrim, Hsign, String.eqb_refl. apply String.eqb_neq in Hne. by rewrite Hne.
  - subst v. unfold decimal_text. destruct (String.eqb_spec fraction "") as [->|Hfne].
    + change whole with (Join [whole] (String dot "")) at 1.
      apply Join_nonempty_split; [done|]. repeat constructor. by apply digits_no_dot.
    + change (whole +:+ String dot fraction) with (Join [whole; fraction] (String dot "")).
      apply Join_nonempty_split; [done|]. repeat constructor; by apply digits_no_dot.
Qed.

(** [ParseDecimal] accepts exactly the canonical decimals with at most
    [scale] fractional digits whose atomic value is positive and fits 256 bits,
    and returns that exact value: no rounding, no sign, no exponent. *)
Theorem ParseDecimal_iff v scale a :
  0 <= scale <= 255 ->
  ParseDecimal v scale = Ok a <-> decimal_value v scale a /\ 0 < a < amount_limit.
Proof.
  intros Hs. split.
  - unfold ParseDecimal. intros H.
    destruct ((v == "") || (TrimSpace v != v) || contains_sign_or_exp v); [done|].
    pose proof (Split_Join dot v) as Hv.
    destruct (Split v dot) as [|whole rest]; [done|].
    destruct ((2 <? length (whole :: rest))%nat || negb (canonical_uint whole)) eqn:E; [done|].
    bool_hyp. destruct rest as [|fraction [|? ?]]; [| |by simpl in *; lia].
    + change (parse_atomic whole "" scale = Ok a) in H.
      rewrite parse_atomic_spec in H by (done || (unfold len; simpl; lia)). destruct H as [-> ?].
      split; [|done]. exists whole, "". repeat split; try done. unfold len; simpl; lia.
    + step_in H. step_in H. step_in H.
      change (parse_atomic whole fraction scale = Ok a) in H. bool_hyp.
      rewrite parse_atomic_spec in H by (done || lia). destruct H as [-> ?].
      split; [|done]. exists whole, fraction. repeat split; try done.
      rewrite <- Hv. unfold decimal_text. by destruct (String.eqb_spec fraction "").
  - intros [(whole & fraction & Hw & Hf & Hl & -> & Ha) Hb].
    destruct (decimal_text_guards whole fraction Hw Hf) as [Hg Hsp].
    unfold ParseDecimal. rewrite Hg, Hsp.
    destruct (String.eqb_spec fraction "") as [->|Hne]; rewrite Hw; simpl.
    + change (parse_atomic whole "" scale = Ok a). by apply parse_atomic_spec.
    + replace (len fraction >? scale) with false by lia. rewrite Hf. simpl.
      replace (scale =? 0) with false.
      2: { symmetry. apply Z.eqb_neq. intros ->. destruct fraction; [done|].
           unfold len in Hl. simpl in Hl. lia. }
      apply String.eqb_neq in Hne as Hne'. rewrite Hne'. simpl.
      change (parse_atomic whole fraction scale = Ok a). by apply parse_atomic_spec.
Qed.

(** "12.5" with six decimals is 12500000 atomic units. *)
Lemma ParseDecimal_iff_witness :
  ParseDecimal "12.5" 6 = Ok 12500000 /\
  (decimal_value "12.5" 6 12500000 /\ 0 < 12500000 < amount_limit).
Proof.
  split; [vm_compute; reflexivity|].
  apply (ParseDecimal_iff "12.5" 6 12500000); [lia|]. vm_compute. reflexivity.
Defined.

(** JSON round trip: an amount written by [MarshalJSON] is read back by
    [UnmarshalJSON] unchanged, for any JSON codec that reads back the strings of
    digits it writes. *)
Theorem json_roundtrip json_string json_read a :
  (forall s, str_forall is_digit s = true -> json_read (json_string s) = Some s) ->
  valid_amount a ->
  UnmarshalJSON json_read (MarshalJSON json_string a) = Ok a.
Proof.
  intros Hcodec Hv. unfold UnmarshalJSON, MarshalJSON, AmountString.
  assert (Hp : Parse (dec_string a) = Ok a).
  { destruct Hv. apply Parse_canonical. split; [by apply dec_string_canonical|].
    by rewrite dec_string_value. }
  rewrite Hcodec; [by rewrite Hp|].
  apply canonical_digits, dec_string_canonical. apply Hv.
Qed.

(** A codec that quotes and unquotes. *)
Definition quote_string (s : string) : string := String (chr 34) (s +:+ String (chr 34) "").
Definition unquote_string (s : string) : option string :=
  match s with
  | String c r => if (code c =? 34) then Some (str_take (Nat.pred (String.length r)) r) else None
  | EmptyString => None
  end.

Lemma unquote_quote s : unquote_string (quote_string s) = Some s.
Proof.
  unfold unquote_string, quote_string. cbn [code]. f_equal.
  change (code (chr 34) =? 34) with true. cbn iota. f_equal.
  induction s as [|c s IH]; [done|]. simpl in *.
  destruct (String.length (s +:+ String (chr 34) "")) eqn:E.
  { by destruct s. }
  simpl in *. by rewrite IH.
Qed.

Lemma json_roundtrip_witness :
  UnmarshalJSON unquote_string (MarshalJSON quote_string 1500000) = Ok 1500000.
Proof.
  apply (json_roundtrip quote_string unquote_string 1500000).
  - intros s _. apply unquote_quote.
  - unfold valid_amount, amount_limit. lia.
Defined.
