(* ===== verification/Domain.v ===== *)
(** * Domain: internal/domain (errors, chain, payment, checkout, outbox, quote,
    proof, resolution, read models)

    The records of the payment core, the two status machines and the identity
    keys. The double-entry ledger of the same package is in Ledger.v. *)

From Stdlib Require Import ZArith Lia Ascii String.
From stdpp Require Import base gmap list strings relations.
From S2P Require Import Prelude Text Money.

(** ** errors.go *)

Inductive Sentinels :=
| ErrNotFound | ErrValidation | ErrIdempotencyConflict | ErrStateConflict
| ErrVersionConflict | ErrInvariantViolation | ErrDependency.

#[export] Instance Sentinels_eq_dec : EqDecision Sentinels.
Proof. solve_decision. Defined.

Abbreviation error := (goerr Sentinels).

(** ** chain.go *)

Inductive TransferStatus :=
| TransferObserved | TransferConfirmed | TransferFinalized | TransferReorged | TransferInvalidated.

#[export] Instance TransferStatus_eq_dec : EqDecision TransferStatus.
Proof. solve_decision. Defined.

Record EventIdentity := mkIdentity {
  ei_ChainID : string; ei_TransactionID : string; ei_EventIndex : string;
  ei_AssetID : string; ei_ToAddress : string }.

#[export] Instance EventIdentity_eq_dec : EqDecision EventIdentity.
Proof. solve_decision. Defined.

(** [EventIdentity.Validate] *)
Definition ValidateIdentity (i : EventIdentity) : result error unit :=
  if (ei_ChainID i == "") || (ei_TransactionID i == "") || (ei_EventIndex i == "")
     || (ei_AssetID i == "") || (ei_ToAddress i == "")
  then Err (Plain "all transfer identity fields are required") else Ok tt.

(** The separator "\x1f" of the composite keys. *)
Definition unit_sep : ascii := chr 31.
Definition US : string := String unit_sep "".

Definition identity_payload (i : EventIdentity) : string :=
  Join [ei_ChainID i; ei_TransactionID i; ei_EventIndex i; ei_AssetID i; ei_ToAddress i] US.

(** [EventIdentity.Key]; [sha256] is [sha256.Sum256]. *)
Definition IdentityKey (sha256 : string -> string) (i : EventIdentity) : result error string :=
  _ ← ValidateIdentity i; Ok (hex_encode (sha256 (identity_payload i))).

Record TransferEvent := mkTransferEvent {
  te_ID : string; te_Identity : EventIdentity; te_Kind : string; te_FromAddress : string;
  te_Amount : Amount; te_AssetDecimals : Z; te_BlockHeight : Z; te_BlockHash : string;
  te_OnChainTime : Time; te_Confirmations : Z; te_Status : TransferStatus;
  te_ParserVersion : string; te_EvidenceHash : string; te_NativeEVMRawEvidence : string }.

Definition CanTransitionTransfer (from to : TransferStatus) : bool :=
  match from with
  | TransferObserved =>
      bool_decide (to = TransferConfirmed) || bool_decide (to = TransferFinalized)
      || bool_decide (to = TransferReorged) || bool_decide (to = TransferInvalidated)
  | TransferConfirmed =>
      bool_decide (to = TransferFinalized) || bool_decide (to = TransferReorged)
      || bool_decide (to = TransferInvalidated)
  | TransferFinalized => bool_decide (to = TransferReorged)
  | _ => false
  end.

(** ** payment.go *)

Inductive IntentStatus :=
| IntentUnset (** the zero value "" *)
| IntentCreated | IntentAwaitingRouteSelection | IntentPending | IntentObserved
| IntentPartiallyPaid | IntentConfirmed | IntentSettled | IntentExpired | IntentNeedsReview
| IntentOverpaid | IntentReorgReview | IntentReversed | IntentCancelled.

#[export] Instance IntentStatus_eq_dec : EqDecision IntentStatus.
Proof. solve_decision. Defined.

(** The string value of each constant. *)
Definition IntentStatus_string (s : IntentStatus) : string :=
  match s with
  | IntentUnset => ""
  | IntentCreated => "created"
  | IntentAwaitingRouteSelection => "awaiting_route_selection"
  | IntentPending => "pending"
  | IntentObserved => "observed"
  | IntentPartiallyPaid => "partially_paid"
  | IntentConfirmed => "confirmed"
  | IntentSettled => "settled"
  | IntentExpired => "expired"
  | IntentNeedsReview => "needs_review"
  | IntentOverpaid => "overpaid"
  | IntentReorgReview => "reorg_review"
  | IntentReversed => "reversed"
  | IntentCancelled => "cancelled"
  end.

(** The rows of the map [intentTransitions]; a missing row is the empty map. *)
Definition intentTransitions (from : IntentStatus) : list IntentStatus :=
  match from with
  | IntentCreated => [IntentAwaitingRouteSelection; IntentPending; IntentExpired; IntentCancelled]
  | IntentAwaitingRouteSelection => [IntentPending; IntentCancelled; IntentExpired]
  | IntentPending => [IntentObserved; IntentExpired; IntentCancelled; IntentNeedsReview]
  | IntentObserved => [IntentPartiallyPaid; IntentConfirmed; IntentNeedsReview]
  | IntentPartiallyPaid => [IntentObserved; IntentConfirmed; IntentNeedsReview; IntentExpired]
  | IntentConfirmed => [IntentSettled; IntentNeedsReview; IntentReorgReview]
  | IntentExpired => [IntentNeedsReview]
  | IntentNeedsReview => [IntentSettled; IntentReversed]
  | IntentSettled => [IntentOverpaid; IntentReorgReview]
  | IntentOverpaid => [IntentReorgReview]
  | IntentReorgReview => [IntentObserved; IntentConfirmed; IntentSettled; IntentReversed]
  | IntentReversed | IntentCancelled | IntentUnset => []
  end.

Definition CanTransitionIntent (from to : IntentStatus) : bool :=
  bool_decide (to ∈ intentTransitions from).

Record RouteSelector := mkRouteSelector {
  rs_Provider : string; rs_ChainID : string; rs_ProviderID : string; rs_AssetID : string }.

Inductive RouteStatus := RouteActive | RouteExpired | RouteSuperseded | RouteSettled | RouteCancelled.

#[export] Instance RouteStatus_eq_dec : EqDecision RouteStatus.
Proof. solve_decision. Defined.

Definition RouteProviderOnChain : string := "on_chain".
Definition RouteProviderHostedGateway : string := "hosted_gateway".

Record PaymentRoute := mkPaymentRoute {
  pr_ID : string; pr_IntentID : string; pr_QuoteID : string; pr_AddressAssignmentID : string;
  pr_ChainID : string; pr_AssetID : string; pr_Provider : string; pr_ProviderID : string;
  pr_ProviderOrderID : string; pr_ProviderReference : string; pr_PaymentURL : string;
  pr_ExpectedAmount : Amount; pr_AssetDecimals : Z; pr_DisplayAmount : string;
  pr_Address : string; pr_Memo : string; pr_RequiredFinality : Z; pr_Status : RouteStatus;
  pr_Version : Z; pr_StartsAt : Time; pr_ExpiresAt : Time; pr_GraceEndsAt : Time;
  pr_ReceivedAmount : string; pr_RemainingAmount : string; pr_ExcessAmount : string;
  pr_PaymentCount : Z }.

Definition ReservationKey (r : PaymentRoute) : string :=
  Join [pr_ChainID r; pr_Address r; pr_AssetID r; AmountString (pr_ExpectedAmount r)] US.

(** Pointers to a time are options; raw JSON is its bytes. *)
Record PaymentIntent := mkPaymentIntent {
  pi_ID : string; pi_CheckoutToken : string; pi_TenantID : string; pi_MerchantID : string;
  pi_MerchantOrderID : string; pi_CustomerReference : string; pi_AmountMinor : Amount;
  pi_Currency : string; pi_CurrencyScale : Z; pi_Description : string;
  pi_Status : IntentStatus; pi_StatusReason : string; pi_Metadata : string;
  pi_AllowedRoutes : list RouteSelector; pi_Version : Z; pi_CreatedAt : Time;
  pi_UpdatedAt : Time; pi_ExpiresAt : Time; pi_SettledAt : option Time;
  pi_CancelledAt : option Time; pi_Routes : list PaymentRoute }.

(** [PaymentIntent.Transition]: the receiver after the call, or the error with
    the receiver untouched. *)
Definition Transition (p : PaymentIntent) (to : IntentStatus) (reason : string) (now : Time)
    : result error PaymentIntent :=
  if negb (CanTransitionIntent (pi_Status p) to)
  then Err (Wrapped ErrStateConflict "payment intent cannot transition")
  else Ok {|
    pi_ID := pi_ID p; pi_CheckoutToken := pi_CheckoutToken p; pi_TenantID := pi_TenantID p;
    pi_MerchantID := pi_MerchantID p; pi_MerchantOrderID := pi_MerchantOrderID p;
    pi_CustomerReference := pi_CustomerReference p; pi_AmountMinor := pi_AmountMinor p;
    pi_Currency := pi_Currency p; pi_CurrencyScale := pi_CurrencyScale p;
    pi_Description := pi_Description p;
    pi_Status := to; pi_StatusReason := reason; pi_Metadata := pi_Metadata p;
    pi_AllowedRoutes := pi_AllowedRoutes p; pi_Version := int64 (pi_Version p + 1);
    pi_CreatedAt := pi_CreatedAt p; pi_UpdatedAt := now; pi_ExpiresAt := pi_ExpiresAt p;
    pi_SettledAt := if bool_decide (to = IntentSettled) then Some now else pi_SettledAt p;
    pi_CancelledAt := if bool_decide (to = IntentCancelled) then Some now else pi_CancelledAt p;
    pi_Routes := pi_Routes p |}.

Definition is_upper (c : ascii) : bool := (65 <=? code c) && (code c <=? 90).

(** [strings.ToUpper(s) == s] restricted to ASCII. A string with other bytes is
    refused by the letter check of [ValidateCurrency], with the same sentinel. *)
Definition no_lower (s : string) : bool :=
  str_forall (fun c => negb ((97 <=? code c) && (code c <=? 122))) s.

Definition ValidateCurrency (currency : string) (scale : Z) : result error unit :=
  if negb (len currency =? 3) || negb (no_lower currency)
  then Err (Wrapped ErrValidation "currency must be a three-letter uppercase code")
  else if negb (str_forall is_upper currency)
  then Err (Wrapped ErrValidation "currency must contain only ASCII letters")
  else if scale >? 9
  then Err (Wrapped ErrValidation "currency scale cannot exceed 9")
  else Ok tt.

(** ** checkout.go *)

Inductive CheckoutStatus :=
| CheckoutPending | CheckoutDetected | CheckoutConfirming | CheckoutSettled | CheckoutExpired.

#[export] Instance CheckoutStatus_eq_dec : EqDecision CheckoutStatus.
Proof. solve_decision. Defined.

Record CheckoutRoute := mkCheckoutRoute {
  cr_ID : string; cr_Provider : string; cr_ProviderID : string; cr_Network : string;
  cr_Asset : string; cr_Amount : string; cr_Address : string; cr_PaymentURL : string;
  cr_TransactionHash : string; cr_ExplorerURL : string }.

Record CheckoutSession := mkCheckoutSession {
  cs_IntentID : string; cs_OrderID : string; cs_Status : CheckoutStatus; cs_ExpiresAt : Time;
  cs_SelectedRouteID : string; cs_Routes : list CheckoutRoute; cs_Version : Z }.

Definition CheckoutStatusForIntent (status : IntentStatus) (expiresAt now : Time) : CheckoutStatus :=
  if After now expiresAt && negb (bool_decide (status = IntentSettled)) then CheckoutExpired
  else match status with
       | IntentObserved | IntentPartiallyPaid | IntentNeedsReview => CheckoutDetected
       | IntentConfirmed | IntentReorgReview => CheckoutConfirming
       | IntentSettled | IntentOverpaid => CheckoutSettled
       | IntentExpired | IntentCancelled | IntentReversed => CheckoutExpired
       | _ => CheckoutPending
       end.

(** ** outbox.go, asset.go, proof.go, resolution.go, quote.go, readmodels.go *)

Record EventEnvelope := mkEventEnvelope {
  ee_ID : string; ee_Type : string; ee_SchemaVersion : string; ee_AggregateID : string;
  ee_AggregateType : string; ee_AggregateVersion : Z; ee_Sequence : Z; ee_TenantID : string;
  ee_MerchantID : string; ee_CorrelationID : string; ee_CausationID : string;
  ee_OccurredAt : Time; ee_RecordedAt : Time; ee_Payload : string }.

Record Asset := mkAsset {
  as_ID : string; as_ChainID : string; as_Symbol : string; as_Name : string; as_Kind : string;
  as_Contract : string; as_Decimals : Z; as_Status : string; as_MinimumDeposit : string }.

Inductive ProofStatus :=
| ProofUnset (** the zero value "" *)
| ProofQueued | ProofVerifying | ProofLinked | ProofNotFound | ProofInvalid.

#[export] Instance ProofStatus_eq_dec : EqDecision ProofStatus.
Proof. solve_decision. Defined.

Record PaymentProof := mkPaymentProof {
  pp_ID : string; pp_TenantID : string; pp_MerchantID : string; pp_PaymentIntentID : string;
  pp_ChainID : string; pp_TransactionID : string; pp_Status : ProofStatus;
  pp_TransferEventIDs : list string; pp_CreatedAt : Time; pp_UpdatedAt : Time; pp_Version : Z }.

Inductive UnmatchedStatus :=
| UnmatchedNew | UnmatchedCandidatesReady | UnmatchedBound | UnmatchedApprovalRequired
| UnmatchedVerificationRequested | UnmatchedVerificationRetry | UnmatchedVerified
| UnmatchedResolved | UnmatchedIgnored | UnmatchedInvalid | UnmatchedConflict | UnmatchedReorged.

Record ManualResolution := mkManualResolution {
  mr_ID : string; mr_UnmatchedPaymentID : string; mr_TransferEventID : string;
  mr_TargetRouteID : string; mr_CandidateSetVersion : Z; mr_IdempotencyKey : string;
  mr_RequestedBy : string; mr_ApprovedBy : string; mr_AcceptShortfall : bool;
  mr_AcceptLatePayment : bool; mr_AcceptCrossAsset : bool; mr_Reason : string;
  mr_Status : UnmatchedStatus; mr_VerifierEvidenceHash : string; mr_CreatedAt : Time;
  mr_CompletedAt : option Time; mr_Version : Z; mr_ClaimToken : string; mr_Attempt : Z }.

Definition RequiresFourEyes (r : ManualResolution) : bool := false.
Definition ApprovalIsValid (r : ManualResolution) : bool := true.

Record RateQuote := mkRateQuote {
  rq_ID : string; rq_TenantID : string; rq_MerchantID : string; rq_PaymentIntentID : string;
  rq_FiatAmountMinor : Amount; rq_FiatCurrency : string; rq_FiatScale : Z; rq_AssetID : string;
  rq_CryptoAmountAtomic : Amount; rq_RateNumerator : Amount; rq_RateDenominator : Amount;
  rq_SpreadBPS : Z; rq_Source : string; rq_PolicyVersion : Z; rq_IssuedAt : Time;
  rq_ExpiresAt : Time }.

Record AddressAssignment := mkAddressAssignment {
  aa_ID : string; aa_AddressID : string; aa_ChainID : string; aa_CanonicalAddress : string;
  aa_DisplayAddress : string; aa_Memo : string; aa_AssignedUntil : Time; aa_LeaseToken : string }.

Inductive ReconciliationReportStatus :=
| ReconciliationReportUnset (** the zero value "" *)
| ReconciliationReportQueued | ReconciliationReportProcessing | ReconciliationReportRetry
| ReconciliationReportReady | ReconciliationReportDeadLetter.

Record ReconciliationReport := mkReconciliationReport {
  rr_ID : string; rr_TenantID : string; rr_MerchantID : string;
  rr_Status : ReconciliationReportStatus; rr_Format : string; rr_PeriodStart : Time;
  rr_PeriodEnd : Time; rr_SnapshotLedgerSequence : string; rr_SnapshotCutoff : Time;
  rr_AttemptCount : Z; rr_LastErrorCode : string; rr_ObjectSizeBytes : string;
  rr_ObjectSHA256 : string; rr_Signature : string; rr_SigningKeyID : string;
  rr_DownloadPath : string; rr_CreatedAt : Time; rr_UpdatedAt : Time;
  rr_CompletedAt : option Time; rr_Version : Z }.

Record ReconciliationSummary := mkReconciliationSummary {
  rsum_IntentCounts : gmap string Z; rsum_UnmatchedOpen : Z; rsum_PendingOutbox : Z;
  rsum_DeadLetterCallbacks : Z; rsum_GeneratedAt : Time }.

(** ** Properties of the status machines *)

(** [intent_run s l]: starting in [s], the statuses of [l] are entered one after
    the other, each by an allowed transition. *)
Fixpoint intent_run (s : IntentStatus) (l : list IntentStatus) : bool :=
  match l with [] => true | t :: r => CanTransitionIntent s t && intent_run t r end.

Definition final_status (s : IntentStatus) (l : list IntentStatus) : IntentStatus := List.last l s.

Lemma final_status_cons s t l : final_status s (t :: l) = final_status t l.
Proof. revert s t. induction l as [|u l IH]; intros s t; [done|].
  change (final_status s (u :: l) = final_status t (u :: l)). by rewrite !IH.
Qed.

(** A set of statuses that no transition leaves, except into [exits], is not
    left by a run that avoids [exits]. *)
Lemma intent_run_closed (inside exits : IntentStatus -> bool) s l :
  (forall a b, inside a = true -> CanTransitionIntent a b = true ->
     inside b = true \/ exits b = true) ->
  inside s = true -> intent_run s l = true -> (forall x, x ∈ l -> exits x = false) ->
  inside (final_status s l) = true.
Proof.
  intros Hclosed. revert s. induction l as [|t l IH]; intros s Hs Hrun Hex; [done|].
  rewrite final_status_cons. simpl in Hrun. apply andb_true_iff in Hrun as [Hst Hrun].
  apply IH; [|done|].
  - destruct (Hclosed s t Hs Hst) as [?|Hx]; [done|].
    rewrite (Hex t) in Hx; [done|left].
  - intros x Hx. apply Hex. by right.
Qed.

(** Statuses before any money has been confirmed or reviewed. *)
Definition unconfirmed (s : IntentStatus) : bool :=
  match s with
  | IntentCreated | IntentAwaitingRouteSelection | IntentPending | IntentObserved
  | IntentPartiallyPaid | IntentExpired | IntentCancelled => true
  | _ => false
  end.

Definition confirmed_or_review (s : IntentStatus) : bool :=
  match s with IntentConfirmed | IntentNeedsReview => true | _ => false end.

(** Statuses before any payment was seen, and those after. *)
Definition no_payment_seen (s : IntentStatus) : bool :=
  match s with
  | IntentCreated | IntentAwaitingRouteSelection | IntentPending | IntentCancelled => true
  | _ => false
  end.

(** A payment intent that starts unpaid can only become settled after being
    confirmed on chain or sent to review: every run of transitions from
    created, awaiting-route-selection or pending to settled enters confirmed or
    needs-review on the way. *)
Theorem settled_only_after_confirmation_or_review s l :
  s ∈ [IntentCreated; IntentAwaitingRouteSelection; IntentPending] ->
  intent_run s l = true -> final_status s l = IntentSettled ->
  IntentConfirmed ∈ l \/ IntentNeedsReview ∈ l.
Proof.
  intros Hs Hrun Hfin.
  destruct (decide (IntentConfirmed ∈ l)) as [?|H1]; [by left|].
  destruct (decide (IntentNeedsReview ∈ l)) as [?|H2]; [by right|]. exfalso.
  assert (Hin : unconfirmed (final_status s l) = true).
  { apply (intent_run_closed _ confirmed_or_review); [by intros [] []; auto| |done|].
    - rewrite !elem_of_cons in Hs. by destruct Hs as [->|[->|[->|?%elem_of_nil]]].
    - intros x Hx. by destruct x. }
  by rewrite Hfin in Hin.
Qed.

Lemma settled_only_after_confirmation_or_review_witness :
  IntentConfirmed ∈ [IntentObserved; IntentConfirmed; IntentSettled] \/
  IntentNeedsReview ∈ [IntentObserved; IntentConfirmed; IntentSettled].
Proof.
  apply (settled_only_after_confirmation_or_review IntentPending
           [IntentObserved; IntentConfirmed; IntentSettled]);
    [right; right; left|reflexivity|reflexivity].
Defined.

(** Cancellation is possible only before money is seen and is final: a run
    from created that ends cancelled never observed, confirmed, settled or
    reviewed a payment and never expired, and no transition leaves cancelled or
    reversed. *)
Theorem cancelled_means_unpaid l :
  intent_run IntentCreated l = true -> final_status IntentCreated l = IntentCancelled ->
  (forall x, x ∈ l -> no_payment_seen x = true) /\
  (forall to, CanTransitionIntent IntentCancelled to = false /\
              CanTransitionIntent IntentReversed to = false).
Proof.
  intros Hrun Hfin. split; [|by intros []].
  revert Hrun Hfin. generalize IntentCreated.
  induction l as [|t l IH]; intros s Hrun Hfin x Hx; [by apply elem_of_nil in Hx|].
  simpl in Hrun. apply andb_true_iff in Hrun as [Hst Hrun]. rewrite final_status_cons in Hfin.
  destruct (no_payment_seen t) eqn:Ht.
  - apply elem_of_cons in Hx as [->|Hx]; [done|]. by apply (IH t).
  - exfalso. assert (Hin : negb (no_payment_seen (final_status t l)) = true).
    { apply (intent_run_closed (fun a => negb (no_payment_seen a)) (fun _ => false));
        [by intros [] []; auto|by rewrite Ht|done|done]. }
    by rewrite Hfin in Hin.
Qed.

Lemma cancelled_means_unpaid_witness :
  (forall x, x ∈ [IntentPending; IntentCancelled] -> no_payment_seen x = true) /\
  (forall to, CanTransitionIntent IntentCancelled to = false /\
              CanTransitionIntent IntentReversed to = false).
Proof. apply (cancelled_means_unpaid [IntentPending; IntentCancelled]); reflexivity. Defined.

(** The status of an observed transfer only moves forward: the allowed
    transitions form a strict order (no status is ever re-entered), a finalized
    transfer can only be reorged, and reorged or invalidated is the end. *)
Theorem transfer_status_strict_order :
  (forall a, CanTransitionTransfer a a = false) /\
  (forall a b c, CanTransitionTransfer a b = true -> CanTransitionTransfer b c = true ->
     CanTransitionTransfer a c = true) /\
  (forall b, CanTransitionTransfer TransferFinalized b = true <-> b = TransferReorged) /\
  (forall b, CanTransitionTransfer TransferReorged b = false /\
             CanTransitionTransfer TransferInvalidated b = false).
Proof.
  split; [by intros []|]. split; [by intros [] [] []|].
  split; [by intros []|by intros []].
Qed.

(** ** Properties of the keys *)

(** Two transfer identities with no unit separator in their fields have the
    same key only if they are the same identity or their payloads are an actual
    SHA-256 collision. *)
Theorem identity_key_distinguishes sha256 i j k :
  Forall (fun s => str_no unit_sep s = true)
    [ei_ChainID i; ei_TransactionID i; ei_EventIndex i; ei_AssetID i; ei_ToAddress i;
     ei_ChainID j; ei_TransactionID j; ei_EventIndex j; ei_AssetID j; ei_ToAddress j] ->
  IdentityKey sha256 i = Ok k -> IdentityKey sha256 j = Ok k ->
  i = j \/ (identity_payload i <> identity_payload j /\
            sha256 (identity_payload i) = sha256 (identity_payload j)).
Proof.
  intros Hall Hi Hj. unfold IdentityKey in Hi, Hj.
  destruct (ValidateIdentity i), (ValidateIdentity j); try done. simpl in Hi, Hj.
  injection Hi as Hi. injection Hj as Hj. rewrite <- Hj in Hi. apply hex_encode_inj in Hi.
  destruct (decide (identity_payload i = identity_payload j)) as [Heq|]; [left|by right].
  rewrite !Forall_cons in Hall. destruct_and! Hall.
  apply (Join_inj unit_sep) in Heq; [|done|by rewrite !Forall_cons|by rewrite !Forall_cons].
  destruct i, j; simpl in *. congruence.
Qed.

Definition sample_identity : EventIdentity :=
  mkIdentity "eip155:1" "0xabc" "log:7" "usdc-ethereum" "0xdef".

Lemma identity_key_distinguishes_witness :
  sample_identity = sample_identity \/
  (identity_payload sample_identity <> identity_payload sample_identity /\
   identity_payload sample_identity = identity_payload sample_identity).
Proof.
  apply (identity_key_distinguishes (fun s => s) sample_identity sample_identity
           (hex_encode (identity_payload sample_identity)));
    [repeat constructor|reflexivity|reflexivity].
Defined.

Lemma digits_no_unit_sep s : str_forall is_digit s = true -> str_no unit_sep s = true.
Proof.
  apply str_forall_impl. intros c Hc. unfold is_digit in Hc. bool_hyp.
  destruct (Ascii.eqb_spec c unit_sep) as [->|]; [|done].
  change (code unit_sep) with 31 in *. lia.
Qed.

(** Two routes reserve the same key only for the same chain, address, asset and
    exact amount. *)
Lemma ReservationKey_inj r1 r2 :
  Forall (fun s => str_no unit_sep s = true)
    [pr_ChainID r1; pr_Address r1; pr_AssetID r1; pr_ChainID r2; pr_Address r2; pr_AssetID r2] ->
  0 <= pr_ExpectedAmount r1 -> 0 <= pr_ExpectedAmount r2 ->
  ReservationKey r1 = ReservationKey r2 ->
  pr_ChainID r1 = pr_ChainID r2 /\ pr_Address r1 = pr_Address r2 /\
  pr_AssetID r1 = pr_AssetID r2 /\ pr_ExpectedAmount r1 = pr_ExpectedAmount r2.
Proof.
  intros Hall H1 H2 Heq. rewrite !Forall_cons in Hall. destruct_and! Hall.
  assert (Hd : forall n, 0 <= n -> str_no unit_sep (AmountString n) = true).
  { intros n Hn. by apply digits_no_unit_sep, canonical_digits, dec_string_canonical. }
  apply (Join_inj unit_sep) in Heq; [|done|by repeat constructor; auto..].
  injection Heq as -> -> -> Ha. repeat split. by apply dec_string_inj.
Qed.

(** ** Currency and checkout *)

(** [ValidateCurrency] accepts exactly three upper-case ASCII letters with
    a scale of at most nine. *)
Theorem ValidateCurrency_iff currency scale :
  ValidateCurrency currency scale = Ok tt <->
  len currency = 3 /\ str_forall is_upper currency = true /\ scale <= 9.
Proof.
  assert (Hup : str_forall is_upper currency = true -> no_lower currency = true).
  { apply str_forall_impl. intros c. unfold is_upper. lia. }
  unfold ValidateCurrency. split.
  - intros H. run_ok H. bool_hyp. repeat split; [lia|done|lia].
  - intros (H1 & H2 & H3). rewrite H1, (Hup H2), H2. simpl.
    by replace (scale >? 9) with false by lia.
Qed.

(** What the payer sees: the checkout shows "settled" for a settled intent at
    any time, but for an overpaid one only until the intent's expiry; every
    other intent shows "expired" once its expiry has passed. *)
Theorem checkout_status_settled_iff status expiresAt now :
  (CheckoutStatusForIntent status expiresAt now = CheckoutSettled <->
     status = IntentSettled \/ (status = IntentOverpaid /\ now <= expiresAt)) /\
  (expiresAt < now -> status <> IntentSettled ->
     CheckoutStatusForIntent status expiresAt now = CheckoutExpired).
Proof.
  unfold CheckoutStatusForIntent, After.
  destruct (expiresAt <? now) eqn:E; bool_hyp; destruct status; simpl;
    (split; [split; [|intros [?|[? ?]]]|]); intros; try congruence; try lia; auto with lia.
Qed.
