(* ===== verification/Ledger.v ===== *)
(** * Ledger: internal/domain/ledger.go

    Double-entry transactions: the balance check per asset and the construction
    of compensating reversals. *)

From Stdlib Require Import ZArith Lia String.
From stdpp Require Import base gmap list strings.
From S2P Require Import Prelude Text Money Domain.

(** A direction is any string; only two values are legal. *)
Inductive EntryDirection := Debit | Credit | OtherDirection (s : string).

#[export] Instance EntryDirection_eq_dec : EqDecision EntryDirection.
Proof. solve_decision. Defined.

Record LedgerEntry := mkLedgerEntry {
  le_AccountID : string; le_AssetID : string; le_Direction : EntryDirection;
  le_Amount : Amount; le_Sequence : Z }.

Record LedgerTransaction := mkLedgerTransaction {
  lt_ID : string; lt_BusinessType : string; lt_BusinessRef : string; lt_ReversalOf : string;
  lt_EffectiveAt : Time; lt_BookedAt : Time; lt_CorrelationID : string;
  lt_Entries : list LedgerEntry }.

Abbreviation totals := (gmap string (Amount * Amount)).

(** The Go map read: a missing asset has zero totals. *)
Definition totals_of (m : totals) (asset : string) : Amount * Amount := default (0, 0) (m !! asset).

(** The first loop of [ValidateBalanced]. *)
Fixpoint tally (byAsset : totals) (entries : list LedgerEntry) : result error totals :=
  match entries with
  | [] => Ok byAsset
  | entry :: rest =>
      if (le_AssetID entry == "") || (le_AccountID entry == "") || IsZero (le_Amount entry)
      then Err (Wrapped ErrInvariantViolation "invalid ledger entry")
      else
        let v := totals_of byAsset (le_AssetID entry) in
        match le_Direction entry with
        | Debit =>
            match Add (fst v) (le_Amount entry) with
            | Err e => Err (Wrapped ErrInvariantViolation e)
            | Ok d => tally (<[le_AssetID entry := (d, snd v)]> byAsset) rest
            end
        | Credit =>
            match Add (snd v) (le_Amount entry) with
            | Err e => Err (Wrapped ErrInvariantViolation e)
            | Ok c => tally (<[le_AssetID entry := (fst v, c)]> byAsset) rest
            end
        | OtherDirection _ => Err (Wrapped ErrInvariantViolation "invalid ledger direction")
        end
  end.

(** The second loop: every asset balances. *)
Definition all_balanced (byAsset : totals) : bool :=
  forallb (fun kv => Cmp (fst (snd kv)) (snd (snd kv)) =? 0) (map_to_list byAsset).

Definition ValidateBalanced (t : LedgerTransaction) : result error unit :=
  if (length (lt_Entries t) <? 2)%nat
  then Err (Wrapped ErrInvariantViolation "a ledger transaction requires at least two entries")
  else
    byAsset ← tally ∅ (lt_Entries t);
    if all_balanced byAsset then Ok tt
    else Err (Wrapped ErrInvariantViolation "debits and credits differ for asset").

Definition reverse_entry (entry : LedgerEntry) : LedgerEntry :=
  {| le_AccountID := le_AccountID entry; le_AssetID := le_AssetID entry;
     le_Direction := if bool_decide (le_Direction entry = Debit) then Credit else Debit;
     le_Amount := le_Amount entry; le_Sequence := le_Sequence entry |}.

Definition NewLedgerReversal (original : LedgerTransaction)
    (id businessReference correlationID : string) (now : Time) : result error LedgerTransaction :=
  _ ← ValidateBalanced original;
  if (lt_ID original == "") || (lt_ReversalOf original != "") || (id == "") || (businessReference == "")
  then Err (Wrapped ErrValidation "invalid ledger reversal request")
  else
    let entries := reverse_entry <$> lt_Entries original in
    let reversal := {|
      lt_ID := id; lt_BusinessType := lt_BusinessType original +:+ ".reversal";
      lt_BusinessRef := businessReference; lt_ReversalOf := lt_ID original;
      lt_EffectiveAt := now; lt_BookedAt := now; lt_CorrelationID := correlationID;
      lt_Entries := entries |} in
    _ ← ValidateBalanced reversal;
    Ok reversal.

(** ** Specification *)

(** Total of one asset on one side. *)
Definition side_total (d : EntryDirection) (asset : string) (es : list LedgerEntry) : Z :=
  sumZ ((fun e => if bool_decide (le_Direction e = d) && (le_AssetID e == asset)
                  then le_Amount e else 0) <$> es).

Definition entry_ok (e : LedgerEntry) : Prop :=
  le_AssetID e <> "" /\ le_AccountID e <> "" /\ le_Amount e <> 0 /\
  (le_Direction e = Debit \/ le_Direction e = Credit).

Definition entries_valid (es : list LedgerEntry) : Prop :=
  Forall (fun e => valid_amount (le_Amount e)) es.

(** What it means for a transaction to be balanced. *)
Definition balanced (es : list LedgerEntry) : Prop :=
  (2 <= length es)%nat /\ Forall entry_ok es /\
  forall asset, side_total Debit asset es = side_total Credit asset es /\
                side_total Debit asset es < amount_limit.

Lemma side_total_cons d asset e es :
  side_total d asset (e :: es) =
  (if bool_decide (le_Direction e = d) && (le_AssetID e == asset) then le_Amount e else 0)
  + side_total d asset es.
Proof. reflexivity. Qed.

Lemma side_total_nonneg d asset es : entries_valid es -> 0 <= side_total d asset es.
Proof.
  induction 1 as [|e es He _ IH]; [done|]. rewrite side_total_cons.
  unfold valid_amount in He. destruct (_ && _); lia.
Qed.

Lemma totals_of_insert m asset v asset' :
  totals_of (<[asset := v]> m) asset' = if asset == asset' then v else totals_of m asset'.
Proof.
  unfold totals_of. rewrite lookup_insert.
  destruct (String.eqb_spec asset asset') as [->|Hne]; case_decide; simplify_eq; done.
Qed.

Definition totals_valid (m : totals) : Prop :=
  forall asset, valid_amount (fst (totals_of m asset)) /\ valid_amount (snd (totals_of m asset)).

Lemma totals_valid_insert m asset d c :
  totals_valid m -> valid_amount d -> valid_amount c -> totals_valid (<[asset := (d, c)]> m).
Proof.
  intros Hm Hd Hc a. rewrite totals_of_insert. destruct (asset == a); [done|apply Hm].
Qed.

(** The loop accumulates exactly the totals of the entries it accepts. *)
Lemma tally_sound m es m' :
  totals_valid m -> entries_valid es -> tally m es = Ok m' ->
  totals_valid m' /\ Forall entry_ok es /\
  forall asset, totals_of m' asset =
    (fst (totals_of m asset) + side_total Debit asset es,
     snd (totals_of m asset) + side_total Credit asset es).
Proof.
  intros Hm Hes. revert m Hm. induction Hes as [|e es He _ IH]; intros m Hm H.
  { injection H as <-. split; [done|]. split; [constructor|]. intros asset.
    unfold side_total. simpl. by rewrite !Z.add_0_r, <- surjective_pairing. }
  cbn [tally] in H. cbv beta in He.
  destruct (_ || IsZero (le_Amount e)) eqn:Eg; [done|]. bool_hyp.
  match goal with Hz : IsZero _ = false |- _ => apply IsZero_false in Hz end. cbv zeta in H.
  destruct (Hm (le_AssetID e)) as [Hd Hc].
  destruct (le_Direction e) eqn:Edir; [| |done];
    (destruct (Add _ _) as [x|] eqn:E in H; [|done]);
    (assert (valid_amount x) as Hx by (eapply Add_valid; [| |exact E]; done));
    (apply Add_spec in E; [|done..]; destruct E as [-> _]);
    (apply IH in H as (Hv & Hok & Htot); [|by apply totals_valid_insert]);
    (split; [done|]; split; [constructor; [unfold entry_ok; by auto|done]|]);
    intros asset; rewrite Htot, !side_total_cons, totals_of_insert, Edir;
    destruct (String.eqb_spec (le_AssetID e) asset) as [<-|]; simpl; f_equal; lia.
Qed.

(** The loop succeeds when the entries are well formed and no total overflows. *)
Lemma tally_complete m es :
  totals_valid m -> entries_valid es -> Forall entry_ok es ->
  (forall asset, fst (totals_of m asset) + side_total Debit asset es < amount_limit /\
                 snd (totals_of m asset) + side_total Credit asset es < amount_limit) ->
  exists m', tally m es = Ok m'.
Proof.
  intros Hm Hes. revert m Hm. induction Hes as [|e es He Hes IH]; intros m Hm Hok Hlim; [by eexists|].
  inversion_clear Hok as [|? ? Hoke Hok']. destruct Hoke as (Ha & Hacc & Hamt & Hdir).
  apply String.eqb_neq in Ha, Hacc. pose proof (proj2 (IsZero_false _) Hamt) as Hz.
  cbn [tally]. rewrite Ha, Hacc, Hz. cbn [orb]. cbv zeta.
  destruct (Hm (le_AssetID e)) as [Hd Hc].
  pose proof (Hlim (le_AssetID e)) as [Hl1 Hl2].
  rewrite !side_total_cons, String.eqb_refl in Hl1, Hl2.
  pose proof (side_total_nonneg Debit (le_AssetID e) es Hes).
  pose proof (side_total_nonneg Credit (le_AssetID e) es Hes).
  unfold valid_amount in He.
  destruct Hdir as [Hdir|Hdir]; rewrite Hdir in *; simpl in Hl1, Hl2.
  - rewrite (proj2 (Add_spec _ _ (fst (totals_of m (le_AssetID e)) + le_Amount e) Hd He)) by lia.
    apply IH; [by apply totals_valid_insert; try done; unfold valid_amount in *; lia|done|].
    intros asset. specialize (Hlim asset). rewrite !side_total_cons, Hdir in Hlim. simpl in Hlim.
    rewrite totals_of_insert. destruct (String.eqb_spec (le_AssetID e) asset) as [Heq|];
      [rewrite <- Heq in *|]; simpl in *; lia.
  - rewrite (proj2 (Add_spec _ _ (snd (totals_of m (le_AssetID e)) + le_Amount e) Hc He)) by lia.
    apply IH; [by apply totals_valid_insert; try done; unfold valid_amount in *; lia|done|].
    intros asset. specialize (Hlim asset). rewrite !side_total_cons, Hdir in Hlim. simpl in Hlim.
    rewrite totals_of_insert. destruct (String.eqb_spec (le_AssetID e) asset) as [Heq|];
      [rewrite <- Heq in *|]; simpl in *; lia.
Qed.

Lemma all_balanced_iff m :
  all_balanced m = true <-> forall asset, fst (totals_of m asset) = snd (totals_of m asset).
Proof.
  unfold all_balanced. rewrite forallb_forall. split.
  - intros H asset. unfold totals_of. destruct (m !! asset) as [v|] eqn:E; [|done].
    specialize (H (asset, v)). rewrite Cmp_eq in H. simpl in *. apply Z.eqb_eq, H.
    by apply list_elem_of_In, elem_of_map_to_list.
  - intros H [asset v] Hin. apply list_elem_of_In, elem_of_map_to_list in Hin.
    specialize (H asset). unfold totals_of in H. rewrite Hin in H. simpl in *.
    rewrite Cmp_eq. by apply Z.eqb_eq.
Qed.

Lemma totals_valid_empty : totals_valid ∅.
Proof. intros a. unfold totals_of. rewrite lookup_empty. simpl. unfold valid_amount, amount_limit. lia. Qed.

Lemma ValidateBalanced_spec t :
  entries_valid (lt_Entries t) -> ValidateBalanced t = Ok tt <-> balanced (lt_Entries t).
Proof.
  intros Hv. unfold ValidateBalanced, balanced.
  destruct (length (lt_Entries t) <? 2)%nat eqn:El; bool_hyp.
  { split; [done|]. intros [? _]. lia. }
  assert (Hempty : forall a, totals_of ∅ a = (0, 0)) by (intros a; unfold totals_of; by rewrite lookup_empty).
  split.
  - intros H. destruct (tally ∅ (lt_Entries t)) as [m|] eqn:Et; [|done]. simpl in H. step_in H.
    destruct (tally_sound _ _ _ totals_valid_empty Hv Et) as (Hvm & Hok & Htot).
    split; [lia|]. split; [done|]. intros asset.
    apply (proj1 (all_balanced_iff m)) with (asset := asset) in E.
    pose proof (Hvm asset) as [[_ Hlim] _]. rewrite Htot, Hempty in E, Hlim. simpl in *. lia.
  - intros (_ & Hok & Hbal).
    destruct (tally_complete ∅ (lt_Entries t) totals_valid_empty Hv Hok) as [m Hm].
    { intros asset. rewrite Hempty. specialize (Hbal asset). simpl. lia. }
    rewrite Hm. simpl.
    destruct (tally_sound _ _ _ totals_valid_empty Hv Hm) as (_ & _ & Htot).
    rewrite (proj2 (all_balanced_iff m)); [done|].
    intros asset. rewrite Htot, Hempty. specialize (Hbal asset). simpl. lia.
Qed.

(** ** Properties *)

(** The ledger check is exact: [ValidateBalanced] accepts a transaction if
    and only if it has at least two well-formed entries and, for every asset,
    total debits equal total credits within 256 bits. *)
Theorem ValidateBalanced_iff t :
  entries_valid (lt_Entries t) -> ValidateBalanced t = Ok tt <-> balanced (lt_Entries t).
Proof. apply ValidateBalanced_spec. Qed.

Definition sample_entries : list LedgerEntry :=
  [mkLedgerEntry "custody" "usdt" Debit 70 0; mkLedgerEntry "merchant" "usdt" Credit 50 1;
   mkLedgerEntry "fees" "usdt" Credit 20 2].

Definition sample_transaction : LedgerTransaction :=
  mkLedgerTransaction "tx1" "settlement" "intent-1" "" 1 1 "corr" sample_entries.

Lemma sample_entries_valid : entries_valid sample_entries.
Proof. repeat constructor; simpl; unfold amount_limit; lia. Qed.

Lemma ValidateBalanced_iff_witness :
  ValidateBalanced sample_transaction = Ok tt /\ balanced (lt_Entries sample_transaction).
Proof.
  split; [vm_compute; reflexivity|].
  apply (ValidateBalanced_iff sample_transaction); [apply sample_entries_valid|].
  vm_compute. reflexivity.
Defined.

(** The net change of an account in an asset: debits minus credits. *)
Definition net_change (account asset : string) (es : list LedgerEntry) : Z :=
  sumZ ((fun e =>
    if (le_AccountID e == account) && (le_AssetID e == asset) then
      match le_Direction e with Debit => le_Amount e | Credit => - le_Amount e | OtherDirection _ => 0 end
    else 0) <$> es).

Lemma net_change_reverse account asset es :
  Forall entry_ok es -> net_change account asset (reverse_entry <$> es) = - net_change account asset es.
Proof.
  unfold net_change. induction 1 as [|e es (_ & _ & _ & Hdir) _ IH]; [done|].
  rewrite !fmap_cons. cbn [sumZ]. rewrite IH. simpl. destruct (_ && _); [|lia].
  destruct Hdir as [-> | ->]; simpl; lia.
Qed.

Lemma side_total_reverse asset es :
  Forall entry_ok es ->
  side_total Debit asset (reverse_entry <$> es) = side_total Credit asset es /\
  side_total Credit asset (reverse_entry <$> es) = side_total Debit asset es.
Proof.
  unfold side_total. induction 1 as [|e es (_ & _ & _ & Hdir) _ [IH1 IH2]]; [done|].
  rewrite !fmap_cons. cbn [sumZ]. rewrite IH1, IH2. simpl. destruct (le_AssetID e == asset), Hdir as [-> | ->]; simpl; lia.
Qed.

Lemma reverse_entry_ok e : entry_ok e -> entry_ok (reverse_entry e).
Proof.
  intros (Ha & Hacc & Hamt & Hdir). unfold entry_ok. simpl. repeat split; try done.
  case_bool_decide; auto.
Qed.

Lemma balanced_reverse es : balanced es -> balanced (reverse_entry <$> es).
Proof.
  intros (Hlen & Hok & Hbal). split; [by rewrite length_fmap|]. split.
  - apply Forall_fmap. eapply Forall_impl; [exact Hok|]. apply reverse_entry_ok.
  - intros asset. destruct (side_total_reverse asset es Hok) as [-> ->].
    destruct (Hbal asset). lia.
Qed.

Lemma entries_valid_reverse es : entries_valid es -> entries_valid (reverse_entry <$> es).
Proof. intros H. apply Forall_fmap. eapply Forall_impl; [exact H|]. done. Qed.

(** A reversal compensates exactly: it is granted if and only if the original
    is balanced, is not itself a reversal and the identifiers are given; the
    result is again balanced, names the original, and original plus reversal
    leave every account of every asset unchanged. *)
Theorem NewLedgerReversal_compensates o id ref corr now :
  entries_valid (lt_Entries o) ->
  ((exists r, NewLedgerReversal o id ref corr now = Ok r) <->
     balanced (lt_Entries o) /\ lt_ID o <> "" /\ lt_ReversalOf o = "" /\ id <> "" /\ ref <> "") /\
  (forall r, NewLedgerReversal o id ref corr now = Ok r ->
     ValidateBalanced r = Ok tt /\ lt_ReversalOf r = lt_ID o /\
     forall account asset, net_change account asset (lt_Entries o ++ lt_Entries r) = 0).
Proof.
  intros Hv. unfold NewLedgerReversal.
  set (r := {| lt_ID := id |}).
  pose proof (ValidateBalanced_spec o Hv) as Ho.
  pose proof (ValidateBalanced_spec r (entries_valid_reverse _ Hv)) as Hr.
  destruct (ValidateBalanced o) as [[]|] eqn:Eo; simpl.
  2: { split; [|done]. split; [by intros [? ?]|]. intros [Hb _]. by apply Ho in Hb. }
  assert (Hb : balanced (lt_Entries o)) by by apply Ho.
  rewrite (proj2 Hr) by by apply balanced_reverse. simpl.
  destruct ((lt_ID o == "") || (lt_ReversalOf o != "") || (id == "") || (ref == "")) eqn:Eg.
  - split; [|done]. split; [by intros [? ?]|]. intros (_ & H1 & H2 & H3 & H4). exfalso.
    apply String.eqb_neq in H1, H3, H4. by rewrite H1, H2, H3, H4 in Eg.
  - bool_hyp. split; [split; [by auto|by eauto]|].
    intros r' [= <-]. split; [by apply Hr, balanced_reverse|]. split; [done|].
    intros account asset. destruct Hb as (_ & Hok & _).
    pose proof (net_change_reverse account asset _ Hok) as Hn. unfold net_change in *.
    rewrite fmap_app, sumZ_app. cbn [lt_Entries r]. lia.
Qed.

Lemma NewLedgerReversal_compensates_witness :
  exists r, NewLedgerReversal sample_transaction "tx2" "reorg-1" "corr" 9 = Ok r /\
    net_change "merchant" "usdt" (sample_entries ++ lt_Entries r) = 0.
Proof.
  eexists. split; [vm_compute; reflexivity|].
  apply (NewLedgerReversal_compensates sample_transaction "tx2" "reorg-1" "corr" 9);
    [apply sample_entries_valid|vm_compute; reflexivity].
Defined.
