(* ===== verification/Encoding.v ===== *)
(** * Encoding: internal/ids/uuidv7.go, internal/checkout/token.go and the TON
    display address of internal/chains/ton.go

    The textual identifiers the system hands out: UUIDv7 keys, checkout bearer
    tokens and payer-facing TON addresses, on top of [encoding/base64]. *)

From Stdlib Require Import ZArith Lia Ascii String.
From stdpp Require Import base list strings.
From S2P Require Import Prelude Text.

(** ** base64.RawURLEncoding *)

Definition b64_alphabet : string :=
  "ABCDEFGHIJKLMNOPQRSTUVWXYZabcdefghijklmnopqrstuvwxyz0123456789-_".

Definition b64_char (v : Z) : ascii := default "A"%char (String.get (Z.to_nat v) b64_alphabet).

Definition b64_value (c : ascii) : option Z :=
  let z := code c in
  if (65 <=? z) && (z <=? 90) then Some (z - 65)
  else if (97 <=? z) && (z <=? 122) then Some (z - 71)
  else if (48 <=? z) && (z <=? 57) then Some (z + 4)
  else if z =? 45 then Some 62
  else if z =? 95 then Some 63
  else None.

(** [EncodeToString]: three bytes give four characters, the rest two or three. *)
Fixpoint b64_encode (s : string) : string :=
  match s with
  | EmptyString => ""
  | String a EmptyString =>
      let v := code a * 16 in String (b64_char (v / 64)) (String (b64_char (v mod 64)) "")
  | String a (String b EmptyString) =>
      let v := (code a * 256 + code b) * 4 in
      String (b64_char (v / 4096)) (String (b64_char (v / 64 mod 64)) (String (b64_char (v mod 64)) ""))
  | String a (String b (String c r)) =>
      let v := code a * 65536 + code b * 256 + code c in
      String (b64_char (v / 262144)) (String (b64_char (v / 4096 mod 64))
        (String (b64_char (v / 64 mod 64)) (String (b64_char (v mod 64)) (b64_encode r))))
  end.

(** The groups of [DecodeString]: a single left-over character is an error and
    the unused low bits of a short group are ignored. *)
Fixpoint b64_groups (s : string) : option string :=
  match s with
  | EmptyString => Some ""
  | String _ EmptyString => None
  | String a (String b EmptyString) =>
      match b64_value a, b64_value b with
      | Some x, Some y => Some (String (chr ((x * 64 + y) / 16)) "")
      | _, _ => None
      end
  | String a (String b (String c EmptyString)) =>
      match b64_value a, b64_value b, b64_value c with
      | Some x, Some y, Some z =>
          let v := (x * 4096 + y * 64 + z) / 4 in
          Some (String (chr (v / 256)) (String (chr (v mod 256)) ""))
      | _, _, _ => None
      end
  | String a (String b (String c (String d r))) =>
      match b64_value a, b64_value b, b64_value c, b64_value d, b64_groups r with
      | Some x, Some y, Some z, Some w, Some t =>
          let v := x * 262144 + y * 4096 + z * 64 + w in
          Some (String (chr (v / 65536)) (String (chr (v / 256 mod 256)) (String (chr (v mod 256)) t)))
      | _, _, _, _, _ => None
      end
  end.

(** [DecodeString] skips carriage returns and line feeds. *)
Fixpoint drop_newlines (s : string) : string :=
  match s with
  | EmptyString => ""
  | String c r => if (code c =? 10) || (code c =? 13) then drop_newlines r else String c (drop_newlines r)
  end.

Definition b64_decode (s : string) : option string := b64_groups (drop_newlines s).

Lemma b64_char_code v : 0 <= v < 64 ->
  code (b64_char v) =
  (if v <? 26 then v + 65 else if v <? 52 then v + 71 else if v <? 62 then v - 4
   else if v =? 62 then 45 else 95).
Proof.
  intros Hv.
  assert (Hall : forallb (fun n => let v := Z.of_nat n in
    code (b64_char v) =? (if v <? 26 then v + 65 else if v <? 52 then v + 71 else if v <? 62 then v - 4
      else if v =? 62 then 45 else 95)) (seq 0 64) = true) by (vm_compute; reflexivity).
  rewrite forallb_forall in Hall. specialize (Hall (Z.to_nat v)). cbv beta zeta in Hall.
  rewrite Z2Nat.id in Hall by lia. apply Z.eqb_eq, Hall, in_seq. lia.
Qed.

Lemma b64_value_char v : 0 <= v < 64 -> b64_value (b64_char v) = Some v.
Proof.
  intros Hv. unfold b64_value. rewrite b64_char_code by done.
  repeat case_match; bool_hyp; try lia; f_equal; lia.
Qed.

(** Induction three bytes at a time. *)
Lemma str_ind3 (P : string -> Prop) :
  P "" -> (forall a, P (String a "")) -> (forall a b, P (String a (String b ""))) ->
  (forall a b c r, P r -> P (String a (String b (String c r)))) -> forall s, P s.
Proof.
  intros H0 H1 H2 H3.
  fix IH 1. intros [|a [|b [|c r]]]; [exact H0|exact (H1 a)|exact (H2 a b)|].
  apply H3, IH.
Qed.

Lemma b64_char_no_newline v s :
  0 <= v < 64 -> drop_newlines (String (b64_char v) s) = String (b64_char v) (drop_newlines s).
Proof.
  intros Hv. simpl. rewrite b64_char_code by done.
  by replace (_ || _) with false by (repeat case_match; bool_hyp; lia).
Qed.

Ltac byte_ranges :=
  repeat match goal with
  | c : ascii |- _ =>
      lazymatch goal with
      | _ : 0 <= code c < 256 |- _ => fail
      | _ => pose proof (code_range c)
      end
  end.

Lemma chr_code_eq v c : v = code c -> chr v = c.
Proof. intros ->. apply chr_code. Qed.

Lemma b64_roundtrip s : b64_decode (b64_encode s) = Some s.
Proof.
  unfold b64_decode. induction s as [|a|a b|a b c r IH] using str_ind3; [done|..];
    byte_ranges; cbn [b64_encode]; cbv zeta;
    rewrite !b64_char_no_newline by (Z.to_euclidean_division_equations; lia);
    cbn [drop_newlines b64_groups];
    rewrite ?IH, !b64_value_char by (Z.to_euclidean_division_equations; lia); cbv zeta;
    repeat f_equal; try done; apply chr_code_eq;
    Z.to_euclidean_division_equations; lia.
Qed.

(** ** internal/checkout/token.go *)

Definition Prefix : string := "cs_".

(** [NewToken] on the 32 bytes [raw] of the random source ([None]: it failed);
    the result is the token and its hash. *)
Definition NewToken (sha256 : string -> string) (raw : option string) : option (string * string) :=
  match raw with
  | None => None
  | Some raw => let token := Prefix +:+ b64_encode raw in Some (token, sha256 token)
  end.

(** [Hash] *)
Definition HashToken (sha256 : string -> string) (token : string) : option string :=
  if negb (HasPrefix token Prefix) then None
  else
    let encoded := TrimPrefix token Prefix in
    match b64_decode encoded with
    | None => None
    | Some raw =>
        if negb (len raw =? 32) then None
        else if b64_encode raw != encoded then None
        else Some (sha256 token)
    end.

Lemma HasPrefix_app p s : HasPrefix (p +:+ s) p = true.
Proof. induction p as [|c p IH]; [by destruct s|]. simpl. by rewrite Ascii.eqb_refl, IH. Qed.

Lemma HasPrefix_split s p : HasPrefix s p = true -> s = p +:+ TrimPrefix s p.
Proof.
  intros H. unfold TrimPrefix. rewrite H. revert s H.
  induction p as [|c p IH]; intros s H; [by destruct s|].
  destruct s as [|d s]; [done|]. simpl in H |- *. apply andb_true_iff in H as [Hc H].
  apply Ascii.eqb_eq in Hc as ->. f_equal. by apply IH.
Qed.

Lemma str_drop_app p s : str_drop (String.length p) (p +:+ s) = s.
Proof. induction p as [|c p IH]; [by destruct s|]. done. Qed.

Lemma TrimPrefix_app p s : TrimPrefix (p +:+ s) p = s.
Proof. unfold TrimPrefix. by rewrite HasPrefix_app, str_drop_app. Qed.

(** A checkout token has one textual form: [Hash] accepts exactly the
    strings that [NewToken] produces for some 32 random bytes, and gives them
    the hash that [NewToken] stored. *)
Theorem checkout_token_canonical sha256 token h :
  HashToken sha256 token = Some h <->
  exists raw, len raw = 32 /\ NewToken sha256 (Some raw) = Some (token, h).
Proof.
  unfold HashToken, NewToken. split.
  - intros H. run_ok H. bool_hyp. injection H as <-.
    eexists. split; [done|]. do 2 f_equal; [|f_equal]; rewrite E2; symmetry; by apply HasPrefix_split.
  - intros (raw & Hlen & Heq). apply Some_inj, pair_equal_spec in Heq as [<- <-].
    rewrite HasPrefix_app, TrimPrefix_app, b64_roundtrip, Hlen. simpl.
    by rewrite String.eqb_refl.
Qed.

(** ** internal/ids/uuidv7.go *)

Definition byte_of (z : Z) : ascii := chr (Z.land z 255).

(** The 36 characters of a UUID with the bytes [b]. *)
Definition uuid_text (b : list ascii) : string :=
  let part l := hex_encode (string_of_list_ascii l) in
  part (take 4 b) +:+ "-" +:+ part (take 2 (drop 4 b)) +:+ "-" +:+ part (take 2 (drop 6 b))
  +:+ "-" +:+ part (take 2 (drop 8 b)) +:+ "-" +:+ part (take 6 (drop 10 b)).

(** [New]: [random] are the 16 bytes read ([None]: the read failed), [ms] the
    Unix time in milliseconds as [uint64]. *)
Definition NewID (random : option (list ascii)) (ms : Z) : option string :=
  match random with
  | Some [_; _; _; _; _; _; r6; r7; r8; r9; r10; r11; r12; r13; r14; r15] =>
      Some (uuid_text
        [byte_of (Z.shiftr ms 40); byte_of (Z.shiftr ms 32); byte_of (Z.shiftr ms 24);
         byte_of (Z.shiftr ms 16); byte_of (Z.shiftr ms 8); byte_of ms;
         chr (Z.lor (Z.land (code r6) 15) 112); r7;
         chr (Z.lor (Z.land (code r8) 63) 128); r9; r10; r11; r12; r13; r14; r15])
  | _ => None
  end.

Definition lower_hex (c : ascii) : bool :=
  ((48 <=? code c) && (code c <=? 57)) || ((97 <=? code c) && (code c <=? 102)).

Definition dash_at (i : nat) : bool :=
  (Nat.eqb i 8 || Nat.eqb i 13 || Nat.eqb i 18 || Nat.eqb i 23)%bool.

(** The loop over the characters from index [i]. *)
Fixpoint valid_chars (i : nat) (value : string) : bool :=
  match value with
  | EmptyString => true
  | String c r => (dash_at i || lower_hex c) && valid_chars (S i) r
  end.

(** [Valid] *)
Definition ValidID (value : string) : bool :=
  if negb (len value =? 36) || negb (byte_at value 8 =? 45) || negb (byte_at value 13 =? 45)
     || negb (byte_at value 18 =? 45) || negb (byte_at value 23 =? 45)
  then false
  else if negb (valid_chars 0 value) then false
  else if negb (byte_at value 19 =? 56) && negb (byte_at value 19 =? 57)
          && negb (byte_at value 19 =? 97) && negb (byte_at value 19 =? 98)
  then false
  else (49 <=? byte_at value 14) && (byte_at value 14 <=? 56).

Lemma hex_high_low c : lower_hex (hex_digit (code c / 16)) = true /\ lower_hex (hex_digit (code c mod 16)) = true.
Proof. by destruct c as [[] [] [] [] [] [] [] []]. Qed.

Lemma version_nibble c : hex_digit (code (chr (Z.lor (Z.land (code c) 15) 112)) / 16) = "7"%char.
Proof. by destruct c as [[] [] [] [] [] [] [] []]. Qed.

Lemma variant_nibble c :
  let d := hex_digit (code (chr (Z.lor (Z.land (code c) 63) 128)) / 16) in
  (code d =? 56) || (code d =? 57) || (code d =? 97) || (code d =? 98) = true.
Proof. by destruct c as [[] [] [] [] [] [] [] []]. Qed.

(** A byte is the two digits of its encoding; the order of the digits is the
    order of the bytes. *)
Lemma hex_byte_less x y s t :
  code x < code y ->
  str_less (String (hex_digit (code x / 16)) (String (hex_digit (code x mod 16)) s))
           (String (hex_digit (code y / 16)) (String (hex_digit (code y mod 16)) t)) = true.
Proof.
  intros H. byte_ranges.
  assert (Hd : forall d, 0 <= d < 16 -> code (hex_digit d) = if d <? 10 then 48 + d else 87 + d).
  { intros d Hd. unfold hex_digit. rewrite code_chr; [done|]. destruct (d <? 10); lia. }
  simpl. rewrite !Hd by (Z.to_euclidean_division_equations; lia).
  Z.to_euclidean_division_equations. repeat case_match; bool_hyp; try lia.
Qed.

Lemma code_byte_of z k : 0 <= k -> code (byte_of (Z.shiftr z k)) = z / 2 ^ k mod 256.
Proof.
  intros Hk. unfold byte_of. change 255 with (Z.ones 8).
  rewrite Z.land_ones, Z.shiftr_div_pow2 by lia. apply code_chr, Z.mod_pos_bound. lia.
Qed.

(** The two digits of a byte. *)
Definition hex2 (c : ascii) (rest : string) : string :=
  String (hex_digit (code c / 16)) (String (hex_digit (code c mod 16)) rest).

Lemma uuid_text_digits b0 b1 b2 b3 b4 b5 b6 b7 b8 b9 b10 b11 b12 b13 b14 b15 :
  uuid_text [b0; b1; b2; b3; b4; b5; b6; b7; b8; b9; b10; b11; b12; b13; b14; b15] =
  hex2 b0 (hex2 b1 (hex2 b2 (hex2 b3 (String "-" (hex2 b4 (hex2 b5 (String "-" (hex2 b6 (hex2 b7
    (String "-" (hex2 b8 (hex2 b9 (String "-" (hex2 b10 (hex2 b11 (hex2 b12 (hex2 b13 (hex2 b14
      (hex2 b15 ""))))))))))))))))))).
Proof. reflexivity. Qed.

Lemma uuid_text_valid b0 b1 b2 b3 b4 b5 b6 b7 b8 b9 b10 b11 b12 b13 b14 b15 :
  49 <= code (hex_digit (code b6 / 16)) <= 56 ->
  (let d := hex_digit (code b8 / 16) in
   (code d =? 56) || (code d =? 57) || (code d =? 97) || (code d =? 98) = true) ->
  ValidID (uuid_text [b0; b1; b2; b3; b4; b5; b6; b7; b8; b9; b10; b11; b12; b13; b14; b15]) = true.
Proof.
  cbv zeta. intros Hver Hvar. rewrite uuid_text_digits. unfold ValidID.
  assert (Hc : valid_chars 0 (hex2 b0 (hex2 b1 (hex2 b2 (hex2 b3 (String "-" (hex2 b4 (hex2 b5
    (String "-" (hex2 b6 (hex2 b7 (String "-" (hex2 b8 (hex2 b9 (String "-" (hex2 b10 (hex2 b11
    (hex2 b12 (hex2 b13 (hex2 b14 (hex2 b15 "")))))))))))))))))))) = true).
  { unfold hex2. cbn [valid_chars dash_at Nat.eqb orb andb].
    repeat (rewrite (proj1 (hex_high_low _)) || rewrite (proj2 (hex_high_low _))). done. }
  rewrite Hc. unfold hex2, len, byte_at. cbn [String.length String.get].
  cbn -[code Z.eqb Z.leb]. change (code "-"%char) with 45. rewrite (proj2 (Z.leb_le 49 _)), (proj2 (Z.leb_le _ 56)) by lia.
  destruct (code (hex_digit (code b8 / 16)) =? 56), (code (hex_digit (code b8 / 16)) =? 57),
    (code (hex_digit (code b8 / 16)) =? 97), (code (hex_digit (code b8 / 16)) =? 98); done.
Qed.

Lemma hex2_less x y s t : code x < code y -> str_less (hex2 x s) (hex2 y t) = true.
Proof. apply hex_byte_less. Qed.

Lemma hex2_same x y s t : code x = code y -> str_less (hex2 x s) (hex2 y t) = str_less s t.
Proof. intros H. apply code_inj in H as ->. unfold hex2. simpl. by rewrite !Z.ltb_irrefl. Qed.

(** One byte of the comparison of two times that agree above it. *)
Lemma time_byte_less ms1 ms2 k s t :
  0 <= k -> ms1 <= ms2 -> ms1 / 2 ^ (k + 8) = ms2 / 2 ^ (k + 8) ->
  (ms1 / 2 ^ k = ms2 / 2 ^ k -> str_less s t = true) ->
  str_less (hex2 (byte_of (Z.shiftr ms1 k)) s) (hex2 (byte_of (Z.shiftr ms2 k)) t) = true.
Proof.
  intros Hk Hle Heq Hrest.
  assert (Hd : ms1 / 2 ^ k <= ms2 / 2 ^ k) by (apply Z.div_le_mono; lia).
  rewrite Z.pow_add_r, <- !Z.div_div in Heq by lia. change (2 ^ 8) with 256 in Heq.
  destruct (Z.lt_trichotomy (ms1 / 2 ^ k) (ms2 / 2 ^ k)) as [?|[?|?]]; [| |lia].
  - apply hex2_less. rewrite !code_byte_of by done. Z.to_euclidean_division_equations. lia.
  - rewrite hex2_same; [auto|]. rewrite !code_byte_of by done. congruence.
Qed.

Lemma str_less_dash s t : str_less s t = true -> str_less (String "-" s) (String "-" t) = true.
Proof. done. Qed.

(** Every identifier that [New] returns passes [Valid] (canonical text,
    version 7, RFC variant), and identifiers are ordered by their creation time:
    an earlier millisecond gives a smaller string whatever the random bits. *)
Theorem NewID_valid_sortable r1 r2 ms1 ms2 id1 id2 :
  NewID r1 ms1 = Some id1 -> NewID r2 ms2 = Some id2 ->
  ValidID id1 = true /\ (0 <= ms1 < ms2 -> ms2 < 2 ^ 48 -> str_less id1 id2 = true).
Proof.
  unfold NewID. intros H1 H2. run_ok H1. injection H1 as <-. split.
  { apply uuid_text_valid; [rewrite version_nibble; vm_compute; split; discriminate|apply variant_nibble]. }
  intros Hms Hmax. run_ok H2. injection H2 as <-. rewrite !uuid_text_digits.
  rewrite <- (Z.shiftr_0_r ms1) at 6. rewrite <- (Z.shiftr_0_r ms2) at 6.
  apply time_byte_less; [lia|lia|by rewrite !Z.div_small by lia|intros ?].
  do 3 (apply time_byte_less; [lia|lia|done|intros ?]). apply str_less_dash.
  do 2 (apply time_byte_less; [lia|lia|done|intros ?]). rewrite !Z.div_1_r in *. lia.
Qed.

Lemma NewID_valid_sortable_witness :
  let bytes k := repeat (chr k) 16 in
  ValidID (default "" (NewID (Some (bytes 171)) 1700000000000)) = true /\
  (0 <= 1700000000000 < 1700000000001 -> 1700000000001 < 2 ^ 48 ->
   str_less (default "" (NewID (Some (bytes 171)) 1700000000000))
            (default "" (NewID (Some (bytes 0)) 1700000000001)) = true).
Proof.
  intros bytes.
  apply (NewID_valid_sortable (Some (bytes 171)) (Some (bytes 0)) 1700000000000 1700000000001);
    vm_compute; reflexivity.
Defined.

(** ** internal/chains/ton.go: display addresses *)

Definition tonMainnetChainID : string := "ton:mainnet".

(** One of the eight shifts of the inner loop, on 16 bits. *)
Definition crc_shift (crc : Z) : Z :=
  if negb (Z.land crc 32768 =? 0) then Z.lxor (Z.shiftl crc 1 mod 65536) 4129
  else Z.shiftl crc 1 mod 65536.

Definition crc_byte (crc : Z) (value : ascii) : Z :=
  Nat.iter 8 crc_shift (Z.lxor crc (Z.shiftl (code value) 8)).

Fixpoint crc_loop (crc : Z) (data : string) : Z :=
  match data with EmptyString => crc | String c r => crc_loop (crc_byte crc c) r end.

Definition tonCRC16XMODEM (data : string) : Z := crc_loop 0 data.

(** [strconv.ParseInt(s, 10, 8)] *)
Definition parse_int8 (s : string) : option Z :=
  let magnitude d := if (d == "") || negb (str_forall is_digit d) then None else Some (dec_value 0 d) in
  let value := match s with
               | String c r => if Ascii.eqb c "-" then Z.opp <$> magnitude r
                               else if Ascii.eqb c "+" then magnitude r else magnitude s
               | EmptyString => None
               end in
  match value with
  | Some v => if (-128 <=? v) && (v <=? 127) then Some v else None
  | None => None
  end.

Definition TONFriendlyAddress (raw : string) : option string :=
  match Split (TrimSpace raw) ":"%char with
  | [part0; part1] =>
      match parse_int8 part0 with
      | None => None
      | Some workchain =>
          match hex_decode part1 with
          | None => None
          | Some account =>
              if negb (len account =? 32) then None
              else
                let payload := String (chr 81) (String (byte_of workchain) account) in
                let checksum := tonCRC16XMODEM payload in
                Some (b64_encode (payload +:+ String (byte_of (Z.shiftr checksum 8))
                                                (String (byte_of checksum) "")))
          end
      end
  | _ => None
  end.

Definition DisplayAddress (chainID address : string) : string :=
  if chainID != tonMainnetChainID then address
  else match TONFriendlyAddress address with None => address | Some friendly => friendly end.

Lemma lxor16_range a b : 0 <= a < 65536 -> 0 <= b < 65536 -> 0 <= Z.lxor a b < 65536.
Proof.
  intros Ha Hb. split; [apply Z.lxor_nonneg; lia|].
  destruct (decide (Z.lxor a b = 0)) as [->|]; [lia|].
  assert (forall x, 0 <= x < 65536 -> Z.log2 x < 16) as Hlog.
  { intros x Hx. destruct (decide (x = 0)) as [->|]; [done|]. apply Z.log2_lt_pow2; lia. }
  change 65536 with (2 ^ 16). apply Z.log2_lt_cancel. change (Z.log2 (2 ^ 16)) with 16.
  eapply Z.le_lt_trans; [apply Z.log2_lxor; lia|]. apply Z.max_lub_lt; auto.
Qed.

Lemma crc_shift_range c : 0 <= crc_shift c < 65536.
Proof.
  unfold crc_shift. pose proof (Z.mod_pos_bound (Z.shiftl c 1) 65536 ltac:(lia)).
  destruct (negb _); [by apply lxor16_range|done].
Qed.

Lemma crc_byte_range crc c : 0 <= crc_byte crc c < 65536.
Proof. unfold crc_byte. simpl. apply crc_shift_range. Qed.

Lemma crc_loop_range data : forall crc, 0 <= crc < 65536 -> 0 <= crc_loop crc data < 65536.
Proof. induction data as [|c r IH]; intros crc Hc; [done|]. apply IH, crc_byte_range. Qed.

Lemma crc_loop_app s t : forall crc, crc_loop crc (s +:+ t) = crc_loop (crc_loop crc s) t.
Proof. induction s as [|c s IH]; intros crc; [done|]. apply IH. Qed.

(** A value below the top bit is only doubled. *)
Lemma crc_shift_small x : 0 <= x < 32768 -> crc_shift x = 2 * x.
Proof.
  intros Hx. unfold crc_shift.
  assert (Z.land x 32768 = 0) as ->.
  { change 32768 with (2 ^ 15). apply Z.bits_inj'. intros n Hn.
    rewrite Z.land_spec, Z.pow2_bits_eqb, Z.bits_0 by lia.
    destruct (15 =? n) eqn:E; [|apply andb_false_r]. bool_hyp. subst n.
    rewrite andb_true_r, Z.testbit_eqb by lia. by rewrite Z.div_small by lia. }
  simpl negb. cbv iota. rewrite Z.shiftl_mul_pow2 by lia. rewrite Z.mod_small; lia.
Qed.

(** Feeding the register its own high byte moves the low byte up. *)
Lemma crc_own_high c : 0 <= c < 65536 -> crc_byte c (byte_of (Z.shiftr c 8)) = c mod 256 * 256.
Proof.
  intros Hc. unfold crc_byte. rewrite code_byte_of by lia.
  assert (0 <= c / 2 ^ 8 < 256) by (change (2 ^ 8) with 256; Z.to_euclidean_division_equations; lia).
  rewrite (Z.mod_small (c / 2 ^ 8)) by done. rewrite <- Z.shiftr_div_pow2 by lia.
  assert (Z.lxor c (Z.shiftl (Z.shiftr c 8) 8) = c mod 2 ^ 8) as ->.
  { apply Z.bits_inj'. intros n Hn. rewrite Z.lxor_spec, Z.shiftl_spec by done.
    destruct (Z.lt_ge_cases n 8).
    - rewrite (Z.testbit_neg_r _ (n - 8)), Z.mod_pow2_bits_low by lia. by rewrite xorb_false_r.
    - rewrite Z.shiftr_spec, Z.mod_pow2_bits_high by lia.
      replace (n - 8 + 8) with n by lia. apply xorb_nilpotent. }
  change (2 ^ 8) with 256. pose proof (Z.mod_pos_bound c 256 ltac:(lia)).
  cbn [Nat.iter nat_rect]. rewrite (crc_shift_small (c mod 256)) by lia.
  do 7 (rewrite (crc_shift_small (2 * _)) by lia). lia.
Qed.

Lemma crc_own_bytes c :
  0 <= c < 65536 -> crc_byte (crc_byte c (byte_of (Z.shiftr c 8))) (byte_of c) = 0.
Proof.
  intros Hc. rewrite crc_own_high by done. unfold crc_byte.
  rewrite <- (Z.shiftr_0_r c) at 2. rewrite code_byte_of, Z.div_1_r by lia.
  rewrite Z.shiftl_mul_pow2, Z.lxor_nilpotent by lia. done.
Qed.

(** The address shown to a TON payer decodes to the mainnet tag, the
    workchain and the 32 account bytes of the raw address, and its checksum
    verifies: the CRC over all 36 bytes is zero. *)
Theorem TONFriendlyAddress_verifies raw friendly :
  TONFriendlyAddress raw = Some friendly ->
  exists part0 part1 workchain account payload,
    TrimSpace raw = part0 +:+ ":" +:+ part1 /\ parse_int8 part0 = Some workchain /\
    hex_decode part1 = Some account /\ len account = 32 /\
    b64_decode friendly = Some payload /\ len payload = 36 /\
    HasPrefix payload (String (chr 81) (String (byte_of workchain) account)) = true /\
    tonCRC16XMODEM payload = 0.
Proof.
  unfold TONFriendlyAddress. intros H.
  destruct (Split (TrimSpace raw) ":") as [|part0 [|part1 [|? ?]]] eqn:Es; try done.
  run_ok H. bool_hyp. apply Some_inj in H. subst friendly. cbv zeta.
  exists part0, part1, z, s. eexists. split.
  { rewrite <- (Split_Join ":"%char (TrimSpace raw)), Es. done. }
  split; [done|]. split; [done|]. split; [done|]. split; [apply b64_roundtrip|].
  set (payload := String (chr 81) (String (byte_of z) s)).
  split; [|split; [apply HasPrefix_app|]].
  - rewrite len_app. unfold payload, len in *. simpl. lia.
  - unfold tonCRC16XMODEM. rewrite crc_loop_app. cbn [crc_loop]. apply crc_own_bytes.
    by apply crc_loop_range.
Qed.

Definition sample_ton_address : string :=
  "0:" +:+ hex_encode (string_of_list_ascii (repeat (chr 171) 32)).

Lemma TONFriendlyAddress_verifies_witness :
  exists part0 part1 workchain account payload,
    TrimSpace sample_ton_address = part0 +:+ ":" +:+ part1 /\ parse_int8 part0 = Some workchain /\
    hex_decode part1 = Some account /\ len account = 32 /\
    b64_decode (default "" (TONFriendlyAddress sample_ton_address)) = Some payload /\ len payload = 36 /\
    HasPrefix payload (String (chr 81) (String (byte_of workchain) account)) = true /\
    tonCRC16XMODEM payload = 0.
Proof. apply (TONFriendlyAddress_verifies sample_ton_address). vm_compute. reflexivity. Defined.
