(* ===== verification/Matching.v ===== *)
(** * Matching: internal/application (settlement.go, policy.go, exceptions.go,
    same_customer_candidate.go) and the candidates of adapters/postgres/settlement.go

    Exact route selection, the exception policy, scored candidates for
    unmatched transfers and the automatic choice among them. *)

From Stdlib Require Import ZArith Lia Ascii String Permutation Sorted.
From stdpp Require Import base gmap list strings.
From S2P Require Import Prelude Text Money Domain.

(** ** settlement.go *)

Inductive MatchDecision := MatchNone | MatchExact | MatchAmbiguous.

(** The three [continue] conditions of the loop in [SelectExactRoute]. *)
Definition exact_match (event : TransferEvent) (r : PaymentRoute) : bool :=
  negb ((pr_ChainID r != ei_ChainID (te_Identity event)) || (pr_AssetID r != ei_AssetID (te_Identity event))
        || (pr_Address r != ei_ToAddress (te_Identity event))
        || negb (Cmp (pr_ExpectedAmount r) (te_Amount event) =? 0))
  && negb (Before (te_OnChainTime event) (pr_StartsAt r) || After (te_OnChainTime event) (pr_GraceEndsAt r))
  && bool_decide (pr_Status r = RouteActive).

Fixpoint select_loop (event : TransferEvent) (selected : option PaymentRoute)
    (routes : list PaymentRoute) : option PaymentRoute * MatchDecision :=
  match routes with
  | [] => match selected with None => (None, MatchNone) | Some r => (Some r, MatchExact) end
  | r :: rest =>
      if negb (exact_match event r) then select_loop event selected rest
      else match selected with
           | Some _ => (None, MatchAmbiguous)
           | None => select_loop event (Some r) rest
           end
  end.

Definition SelectExactRoute (event : TransferEvent) (routes : list PaymentRoute)
    : option PaymentRoute * MatchDecision := select_loop event None routes.

(** [TransferProcessor.Process] up to the store call: the checks a normalized
    event passes before it reaches [IngestAndSettle]. [now] is the wall clock. *)
Definition ProcessGuards (sha256 : string -> string) (now : Time) (event : TransferEvent)
    : result error unit :=
  match IdentityKey sha256 (te_Identity event) with
  | Err _ => Err (Wrapped ErrValidation "transfer identity")
  | Ok _ =>
      if (te_ID event == "") || (te_Kind event == "") || (te_FromAddress event == "")
         || IsZero (te_Amount event) || (te_BlockHash event == "") || (te_ParserVersion event == "")
         || (te_EvidenceHash event == "")
      then Err (Wrapped ErrValidation "normalized transfer event is incomplete")
      else
        match hex_decode (te_EvidenceHash event) with
        | None => Err (Wrapped ErrValidation "evidence_hash must be a 32-byte lowercase hexadecimal SHA-256 digest")
        | Some evidence =>
            if negb (len evidence =? 32) || (hex_encode evidence != te_EvidenceHash event)
            then Err (Wrapped ErrValidation "evidence_hash must be a 32-byte lowercase hexadecimal SHA-256 digest")
            else if IsZeroTime (te_OnChainTime event)
                    || After (te_OnChainTime event) (AddTime now (10 * Minute))
            then Err (Wrapped ErrValidation "invalid on-chain time")
            else Ok tt
        end
  end.

(** ** policy.go and the tolerances of exceptions.go *)

Inductive ExceptionClass :=
| ExceptionNone (** the zero value "" *)
| ExceptionExact | ExceptionPartial | ExceptionUnderpaid | ExceptionOverpaid | ExceptionLate
| ExceptionWrongAsset | ExceptionAmbiguous | ExceptionUnmatched.

#[export] Instance ExceptionClass_eq_dec : EqDecision ExceptionClass.
Proof. solve_decision. Defined.

Inductive ExceptionAction :=
| ActionSettle | ActionAccumulate | ActionManualReview | ActionSettleRefundExcess
| ActionSettleCreditExcess.

#[export] Instance ExceptionAction_eq_dec : EqDecision ExceptionAction.
Proof. solve_decision. Defined.

Inductive OverpaymentPolicy :=
| OverpaymentReview | OverpaymentRefundExcess | OverpaymentCreditExcess | OverpaymentOther (s : string).

Record ExceptionPolicy := mkExceptionPolicy {
  ep_Version : Z; ep_AccumulatePartial : bool; ep_AutoAcceptUnderpaymentBPS : Z;
  ep_AcceptExactWithinGrace : bool; ep_Overpayment : OverpaymentPolicy }.

Record ExceptionAssessment := mkExceptionAssessment {
  ea_Class : ExceptionClass; ea_Action : ExceptionAction; ea_PolicyVersion : Z;
  ea_AmountDelta : string; ea_ReasonCodes : list string }.

(** [money.MustParse(fmt.Sprintf("%d", bps))] *)
Definition bps_amount (bps : Z) : Amount := default 0 (MustParse (dec_string bps)).

(** [err == nil && x.Cmp(maximum) <= 0] with [maximum] the floor of the
    basis-point share of [expected]. *)
Definition within_bps (x expected : Amount) (bps : Z) : bool :=
  match MulDivFloor expected (bps_amount bps) 10000 with
  | Ok maximum => Cmp x maximum <=? 0
  | Err _ => false
  end.

Definition underpaymentWithinTolerance (received expected : Amount) (toleranceBPS : Z) : bool :=
  if toleranceBPS =? 0 then false
  else match Sub expected received with
       | Err _ => false
       | Ok shortfall => within_bps shortfall expected toleranceBPS
       end.

Definition overpaymentWithinTolerance (received expected : Amount) (toleranceBPS : Z) : bool :=
  if (toleranceBPS =? 0) || (Cmp received expected <=? 0) then false
  else match Sub received expected with
       | Err _ => false
       | Ok excess => within_bps excess expected toleranceBPS
       end.

(** [x, _ := a.Sub(b)]: the zero amount on error. *)
Definition sub_or_zero (a b : Amount) : Amount := match Sub a b with Ok c => c | Err _ => 0 end.

Definition AssessException (event : TransferEvent) (route : PaymentRoute) (now : Time)
    (policy : ExceptionPolicy) : result error ExceptionAssessment :=
  if (ep_Version policy <? 1) || (ep_AutoAcceptUnderpaymentBPS policy >? 10000)
  then Err (Wrapped ErrValidation "invalid exception policy")
  else
    let out class action delta reasons :=
      Ok (mkExceptionAssessment class action (ep_Version policy) delta reasons) in
    if (pr_ChainID route != ei_ChainID (te_Identity event))
       || (pr_Address route != ei_ToAddress (te_Identity event))
    then out ExceptionUnmatched ActionManualReview "" ["route_identity_mismatch"]
    else if pr_AssetID route != ei_AssetID (te_Identity event)
    then out ExceptionWrongAsset ActionManualReview ""
           ["wrong_asset"; "conversion_quote_required"; "operator_confirmation_required"]
    else
      let cmp := Cmp (te_Amount event) (pr_ExpectedAmount route) in
      let late := After (te_OnChainTime event) (pr_ExpiresAt route) in
      let withinGrace := negb (After (te_OnChainTime event) (pr_GraceEndsAt route)) in
      if cmp =? 0 then
        if late then
          if withinGrace && ep_AcceptExactWithinGrace policy
          then out ExceptionLate ActionSettle "" ["after_expiry"; "within_grace_policy"]
          else out ExceptionLate ActionManualReview "" ["after_expiry"]
        else out ExceptionExact ActionSettle "" ["exact_amount"; "within_payment_window"]
      else if cmp <? 0 then
        let delta := "-" +:+ AmountString (sub_or_zero (pr_ExpectedAmount route) (te_Amount event)) in
        if Before now (pr_ExpiresAt route) && ep_AccumulatePartial policy
        then out ExceptionPartial ActionAccumulate delta ["below_expected"; "route_still_open"]
        else if underpaymentWithinTolerance (te_Amount event) (pr_ExpectedAmount route)
                  (ep_AutoAcceptUnderpaymentBPS policy)
        then out ExceptionUnderpaid ActionSettle delta
               ["below_expected"; "shortfall_review"; "within_versioned_tolerance"]
        else out ExceptionUnderpaid ActionManualReview delta ["below_expected"; "shortfall_review"]
      else
        let delta := AmountString (sub_or_zero (te_Amount event) (pr_ExpectedAmount route)) in
        let action := match ep_Overpayment policy with
                      | OverpaymentRefundExcess => ActionSettleRefundExcess
                      | OverpaymentCreditExcess => ActionSettleCreditExcess
                      | _ => ActionManualReview
                      end in
        out ExceptionOverpaid action delta ["above_expected"].

(** ** exceptions.go: candidates *)

Record Candidate := mkCandidate {
  ca_RouteID : string; ca_IntentID : string; ca_Class : ExceptionClass; ca_Score : Z;
  ca_AmountDelta : string; ca_Reasons : list string }.

Definition no_candidate : Candidate := mkCandidate "" "" ExceptionNone 0 "" [].

Definition AutomaticCandidateScoreThreshold : Z := 75.
Definition automaticLateGraceReason : string := "within_automatic_30_minute_grace".
Definition candidateCloseAmountToleranceBPS : Z := 500.

(** matching_automation.go: the automatic late deadline of a route *)
Definition AutomaticLatePaymentGrace : Duration := 30 * Minute.

Definition automaticLatePaymentDeadline (route : PaymentRoute) : Time :=
  let deadline := AddTime (pr_ExpiresAt route) AutomaticLatePaymentGrace in
  if Before (pr_GraceEndsAt route) deadline then pr_GraceEndsAt route else deadline.

Definition candidateHasReason (candidate : Candidate) (expected : string) : bool :=
  existsb_str expected (ca_Reasons candidate).

Definition UniqueAutomaticCandidate (candidates : list Candidate) : Candidate * bool :=
  match candidates with
  | [] => (no_candidate, false)
  | c0 :: rest =>
      if (ca_Score c0 <? AutomaticCandidateScoreThreshold)
         || bool_decide (ca_Class c0 = ExceptionAmbiguous)
      then (no_candidate, false)
      else if negb (candidateHasReason c0 "within_payment_window")
              && negb (bool_decide (ca_Class c0 = ExceptionLate)
                       && candidateHasReason c0 automaticLateGraceReason)
      then (no_candidate, false)
      else if (bool_decide (ca_Class c0 = ExceptionPartial)
               || bool_decide (ca_Class c0 = ExceptionUnderpaid))
              && negb (candidateHasReason c0 "underpayment_within_five_percent")
      then (no_candidate, false)
      else match rest with
           | c1 :: _ => if ca_Score c1 =? ca_Score c0 then (no_candidate, false) else (c0, true)
           | [] => (c0, true)
           end
  end.

(** The points and the reason a candidate gets for the time of the transfer. *)
Definition window_score (t : Time) (route : PaymentRoute) : Z * string :=
  let inWindow := negb (Before t (pr_StartsAt route)) && negb (After t (pr_ExpiresAt route)) in
  let late := After t (pr_ExpiresAt route) in
  if inWindow then (70, "within_payment_window")
  else if late && negb (After t (automaticLatePaymentDeadline route))
  then (40, automaticLateGraceReason)
  else if late && negb (After t (pr_GraceEndsAt route)) then (35, "within_manual_late_grace")
  else if Before t (pr_StartsAt route) then (20, "before_route_start")
  else (20, "after_late_grace").

(** The class, the points and the reasons it gets for the amount; [open] is
    [now.Before(route.ExpiresAt)]. *)
Definition amount_score (amount expected : Amount) (open : bool) : ExceptionClass * Z * list string :=
  let cmp := Cmp amount expected in
  if cmp =? 0 then (ExceptionExact, 55, ["exact_amount"])
  else if (cmp <? 0) && underpaymentWithinTolerance amount expected candidateCloseAmountToleranceBPS
  then if open
       then (ExceptionPartial, 50, ["underpayment_within_five_percent"; "route_still_open"])
       else (ExceptionUnderpaid, 45, ["underpayment_within_five_percent"])
  else if (cmp <? 0) && open then (ExceptionPartial, 10, ["below_expected_before_expiry"])
  else if cmp <? 0 then (ExceptionUnderpaid, 5, ["below_expected"])
  else if (cmp >? 0) && overpaymentWithinTolerance amount expected candidateCloseAmountToleranceBPS
  then (ExceptionOverpaid, 30, ["overpayment_within_five_percent"])
  else (ExceptionOverpaid, 5, ["above_expected"]).

(** The body of the loop of [BuildCandidates]: [None] is the first [continue]. *)
Definition build_candidate (event : TransferEvent) (now : Time) (route : PaymentRoute)
    : option Candidate :=
  if (pr_ChainID route != ei_ChainID (te_Identity event))
     || (pr_Address route != ei_ToAddress (te_Identity event))
  then None
  else if pr_AssetID route != ei_AssetID (te_Identity event)
  then Some (mkCandidate (pr_ID route) (pr_IntentID route) ExceptionWrongAsset 35 ""
               ["same_chain"; "same_recipient"; "asset_mismatch"])
  else
    let late := After (te_OnChainTime event) (pr_ExpiresAt route) in
    let '(score1, reason1) := window_score (te_OnChainTime event) route in
    let '(class, score2, reasons2) :=
      amount_score (te_Amount event) (pr_ExpectedAmount route) (Before now (pr_ExpiresAt route)) in
    let delta := if Cmp (te_Amount event) (pr_ExpectedAmount route) >=? 0
                 then AmountString (sub_or_zero (te_Amount event) (pr_ExpectedAmount route))
                 else "-" +:+ AmountString (sub_or_zero (pr_ExpectedAmount route) (te_Amount event)) in
    Some (mkCandidate (pr_ID route) (pr_IntentID route) (if late then ExceptionLate else class)
            (score1 + score2) delta
            (["same_chain"; "same_recipient"; reason1] ++ (if late then ["after_expiry"] else []) ++ reasons2)).

(** The local [parse] of [compareCandidateAmountDistance]. *)
Definition parse_distance (value : string) : option Amount :=
  let value := TrimPrefix value "-" in
  if value == "" then None else match Parse value with Ok a => Some a | Err _ => None end.

Definition compareCandidateAmountDistance (left right : Candidate) : Z :=
  match parse_distance (ca_AmountDelta left), parse_distance (ca_AmountDelta right) with
  | Some l, Some r => Cmp l r
  | Some _, None => -1
  | None, Some _ => 1
  | None, None => 0
  end.

(** The order of the final sort: score descending, then distance, then route. *)
Definition candidate_less (i j : Candidate) : bool :=
  if ca_Score i =? ca_Score j then
    let distance := compareCandidateAmountDistance i j in
    if negb (distance =? 0) then distance <? 0 else str_less (ca_RouteID i) (ca_RouteID j)
  else ca_Score i >? ca_Score j.

Definition add_reason (c : Candidate) (bonus : Z) (class : ExceptionClass) (reason : string) : Candidate :=
  mkCandidate (ca_RouteID c) (ca_IntentID c) class (ca_Score c + bonus) (ca_AmountDelta c)
    (ca_Reasons c ++ [reason]).

(** A single large overpayment candidate gets ten points. *)
Definition unique_route_bonus (cs : list Candidate) : list Candidate :=
  match cs with
  | [c] => if bool_decide (ca_Class c = ExceptionOverpaid) && candidateHasReason c "above_expected"
           then [add_reason c 10 (ca_Class c) "unique_route_candidate"] else [c]
  | _ => cs
  end.

(** The loop that marks every candidate tied with the first as ambiguous. *)
Fixpoint mark_ties (top : Candidate) (cs : list Candidate) : list Candidate :=
  match cs with
  | [] => []
  | c :: rest =>
      if negb (ca_Score c =? ca_Score top) || negb (compareCandidateAmountDistance c top =? 0)
      then c :: rest
      else add_reason c 0 ExceptionAmbiguous "equal_top_score" :: mark_ties top rest
  end.

Definition mark_ambiguous (cs : list Candidate) : list Candidate :=
  match cs with
  | c0 :: c1 :: _ =>
      if (ca_Score c0 =? ca_Score c1) && (compareCandidateAmountDistance c0 c1 =? 0)
      then mark_ties c0 cs else cs
  | _ => cs
  end.

Definition BuildCandidates (event : TransferEvent) (routes : list PaymentRoute) (now : Time)
    : list Candidate :=
  mark_ambiguous (sort_by candidate_less (unique_route_bonus (omap (build_candidate event now) routes))).

(** ** same_customer_candidate.go *)

Record AutomaticCandidateContext := mkContext { cx_Route : PaymentRoute; cx_Intent : PaymentIntent }.

Definition candidate_guards_fail (event : TransferEvent) (candidate : Candidate)
    (context : AutomaticCandidateContext) : bool :=
  let route := cx_Route context in
  let intent := cx_Intent context in
  negb (bool_decide (ca_Class candidate = ExceptionOverpaid))
  || candidateHasReason candidate "candidate_context_truncated"
  || negb (candidateHasReason candidate "within_payment_window")
  || negb (candidateHasReason candidate "overpayment_within_five_percent")
  || (pr_ID route == "") || (pr_ID route != ca_RouteID candidate) || (pr_IntentID route == "")
  || (pr_IntentID route != ca_IntentID candidate) || (pi_ID intent != pr_IntentID route)
  || (pi_TenantID intent == "") || (pi_MerchantID intent == "")
  || (TrimSpace (pi_CustomerReference intent) == "")
  || IsZero (pi_AmountMinor intent)
  || negb (is_ok (ValidateCurrency (pi_Currency intent) (pi_CurrencyScale intent)))
  || (negb (bool_decide (pr_Status route = RouteActive)) && negb (bool_decide (pr_Status route = RouteExpired)))
  || (pr_ChainID route != ei_ChainID (te_Identity event))
  || (pr_AssetID route != ei_AssetID (te_Identity event))
  || (pr_Address route != ei_ToAddress (te_Identity event))
  || negb (pr_AssetDecimals route =? te_AssetDecimals event)
  || Before (te_OnChainTime event) (pr_StartsAt route)
  || After (te_OnChainTime event) (pr_ExpiresAt route)
  || IsZero (pr_ExpectedAmount route)
  || negb (overpaymentWithinTolerance (te_Amount event) (pr_ExpectedAmount route)
             candidateCloseAmountToleranceBPS).

(** The invoices of two contexts differ in something the payer could care about. *)
Definition invoice_differs (metadata : string) (context : AutomaticCandidateContext)
    (refMetadata : string) (reference : AutomaticCandidateContext) : bool :=
  let i := cx_Intent context in
  let r := cx_Intent reference in
  (pi_TenantID i != pi_TenantID r) || (pi_MerchantID i != pi_MerchantID r)
  || (pi_CustomerReference i != pi_CustomerReference r)
  || negb (Cmp (pi_AmountMinor i) (pi_AmountMinor r) =? 0)
  || (pi_Currency i != pi_Currency r) || negb (pi_CurrencyScale i =? pi_CurrencyScale r)
  || (metadata != refMetadata) || (pr_Memo (cx_Route context) != pr_Memo (cx_Route reference)).

Record selection := mkSelection {
  sel_reference : option (AutomaticCandidateContext * string); sel_winner : Candidate;
  sel_closest : Amount; sel_unique : bool; sel_seen : list string }.

Section same_customer.
(** [canonicalCandidateMetadata]: strict JSON object decoding and canonical
    re-encoding by [encoding/json]; [None] is "not valid". *)
Context (canonicalCandidateMetadata : string -> option string).
Context (event : TransferEvent) (contexts : gmap string AutomaticCandidateContext).

(** One iteration; [None] is [return Candidate{}, false]. *)
Definition select_step (st : selection) (candidate : Candidate) : option selection :=
  match contexts !! ca_RouteID candidate with
  | None => None
  | Some context =>
      if existsb_str (ca_RouteID candidate) (sel_seen st) || candidate_guards_fail event candidate context
      then None
      else
        match canonicalCandidateMetadata (pi_Metadata (cx_Intent context)) with
        | None => None
        | Some metadata =>
            let reference := match sel_reference st with
                             | None => (context, metadata)
                             | Some r => r
                             end in
            if match sel_reference st with
               | None => false
               | Some (rc, rm) => invoice_differs metadata context rm rc
               end
            then None
            else
              match Sub (te_Amount event) (pr_ExpectedAmount (cx_Route context)) with
              | Err _ => None
              | Ok distance =>
                  let seen := ca_RouteID candidate :: sel_seen st in
                  if (ca_RouteID (sel_winner st) == "") || (Cmp distance (sel_closest st) <? 0)
                  then Some (mkSelection (Some reference) candidate distance true seen)
                  else if Cmp distance (sel_closest st) =? 0
                  then Some (mkSelection (Some reference) (sel_winner st) (sel_closest st) false seen)
                  else Some (mkSelection (Some reference) (sel_winner st) (sel_closest st) (sel_unique st) seen)
              end
        end
  end.

(** The loop over the top-scored candidates. *)
Fixpoint tied_loop (top : Z) (st : selection) (ranked : list Candidate) : option selection :=
  match ranked with
  | [] => Some st
  | candidate :: rest =>
      if negb (ca_Score candidate =? top) then Some st
      else match select_step st candidate with
           | None => None
           | Some st' => tied_loop top st' rest
           end
  end.

Definition SelectAutomaticCandidate (candidates : list Candidate) : Candidate * bool :=
  let ranked := sort_by (fun i j => ca_Score i >? ca_Score j) candidates in
  let '(winner, ok) := UniqueAutomaticCandidate ranked in
  if ok then (winner, true)
  else match ranked with
       | r0 :: r1 :: _ =>
           if negb (ca_Score r0 =? 100) || negb (ca_Score r1 =? 100) then (no_candidate, false)
           else match tied_loop (ca_Score r0) (mkSelection None no_candidate 0 false []) ranked with
                | None => (no_candidate, false)
                | Some st => (sel_winner st, sel_unique st)
                end
       | _ => (no_candidate, false)
       end.
End same_customer.

(** ** adapters/postgres/settlement.go: the candidates of an unmatched transfer *)

Definition class_text (class : ExceptionClass) : string :=
  match class with
  | ExceptionNone => "" | ExceptionExact => "exact" | ExceptionPartial => "partial"
  | ExceptionUnderpaid => "underpaid" | ExceptionOverpaid => "overpaid" | ExceptionLate => "late"
  | ExceptionWrongAsset => "wrong_asset" | ExceptionAmbiguous => "ambiguous"
  | ExceptionUnmatched => "unmatched"
  end.

Record potentialRoute := mkPotentialRoute { po_TenantID : string; po_Route : PaymentRoute }.

Definition candidate_limit : nat := 100.

(** The mark every candidate gets when the query returned more routes than are ranked. *)
Definition mark_truncated (c : Candidate) : Candidate :=
  add_reason c 0 (ca_Class c) "candidate_context_truncated".

(** [findPotentialCandidates] on the [rows] its query returned, newest first:
    the ranked candidates, their tenant and the classification. *)
Definition findPotentialCandidates (event : TransferEvent) (rows : list potentialRoute) (now : Time)
    : list Candidate * string * string :=
  let first := take candidate_limit rows in
  let tenantSet : gset string := list_to_set (po_TenantID <$> first) in
  if (1 <? size tenantSet)%nat then ([], "", "cross_tenant_ambiguous")
  else match rows with
       | [] => ([], "", "no_candidate_route")
       | row :: _ =>
           let built := BuildCandidates event (po_Route <$> first) now in
           let candidates := if (candidate_limit <? length rows)%nat then mark_truncated <$> built else built in
           (candidates, po_TenantID row,
            match candidates with [] => "no_candidate_route" | c :: _ => class_text (ca_Class c) end)
       end.

(** ** Properties of the exact match *)

(** What the loop of [SelectExactRoute] asks of a route. *)
Definition pays_exactly (event : TransferEvent) (r : PaymentRoute) : Prop :=
  pr_ChainID r = ei_ChainID (te_Identity event) /\ pr_AssetID r = ei_AssetID (te_Identity event) /\
  pr_Address r = ei_ToAddress (te_Identity event) /\ pr_ExpectedAmount r = te_Amount event /\
  pr_StartsAt r <= te_OnChainTime event <= pr_GraceEndsAt r /\ pr_Status r = RouteActive.

Lemma exact_match_iff event r : exact_match event r = true <-> pays_exactly event r.
Proof.
  unfold exact_match, pays_exactly, Before, After. rewrite Cmp_eq.
  rewrite !andb_true_iff, !negb_true_iff, !orb_false_iff, !negb_false_iff, !String.eqb_eq,
    Z.eqb_eq, bool_decide_eq_true, !Z.ltb_ge. naive_solver.
Qed.

Lemma select_loop_spec event routes : forall selected,
  select_loop event selected routes =
  match selected, List.filter (exact_match event) routes with
  | None, [] => (None, MatchNone)
  | None, [r] => (Some r, MatchExact)
  | Some s, [] => (Some s, MatchExact)
  | _, _ => (None, MatchAmbiguous)
  end.
Proof.
  induction routes as [|r rest IH]; intros [s|]; simpl; try done;
    destruct (exact_match event r); simpl; rewrite ?IH; try done.
Qed.

(** Exact settlement picks a route if and only if it is the only one that
    the transfer pays exactly (chain, asset, recipient, amount, window up to
    the grace end, active); no such route gives "none", two or more give
    "ambiguous", and in neither of these cases is a route returned. *)
Theorem SelectExactRoute_unique event routes :
  let hits := List.filter (exact_match event) routes in
  (forall r, SelectExactRoute event routes = (Some r, MatchExact) <-> hits = [r]) /\
  (SelectExactRoute event routes = (None, MatchNone) <->
     forall r, In r routes -> ~ pays_exactly event r) /\
  (SelectExactRoute event routes = (None, MatchAmbiguous) <-> (2 <= length hits)%nat) /\
  (forall r, In r hits <-> In r routes /\ pays_exactly event r).
Proof.
  intros hits. unfold SelectExactRoute. rewrite select_loop_spec.
  change (List.filter (exact_match event) routes) with hits.
  assert (Hin : forall r, In r hits <-> In r routes /\ pays_exactly event r).
  { intros r. unfold hits. by rewrite filter_In, exact_match_iff. }
  split; [|split; [|split; [|exact Hin]]].
  - intros r. destruct hits as [|x [|y l]]; split; congruence.
  - split.
    + intros H r Hr Hp. assert (In r hits) as Hh by (by apply Hin).
      by destruct hits as [|x [|y l]].
    + intros H. destruct hits as [|x l]; [done|].
      destruct (proj1 (Hin x)) as [H1 H2]; [by left|]. by destruct (H x H1).
  - destruct hits as [|x [|y l]]; simpl; split; intros; try done; lia.
Qed.

(** ** Properties of the exception policy *)

Lemma bps_amount_id bps : 0 <= bps <= 10000 -> bps_amount bps = bps.
Proof.
  intros H. unfold bps_amount, MustParse.
  assert (E : Parse (dec_string bps) = Ok bps); [|by rewrite E].
  apply Parse_AmountString. unfold valid_amount, amount_limit. lia.
Qed.

(** The floor in the code does not matter: the test is the exact inequality. *)
Lemma within_bps_iff x expected bps :
  0 <= x -> valid_amount expected -> 0 <= bps <= 10000 ->
  within_bps x expected bps = true <-> x * 10000 <= expected * bps.
Proof.
  intros Hx He Hb. unfold within_bps. rewrite bps_amount_id by done.
  assert (Hvb : valid_amount bps) by (unfold valid_amount, amount_limit; lia).
  assert (Hvd : valid_amount 10000) by done.
  destruct (MulDivFloor expected bps 10000) as [m|] eqn:E.
  - apply MulDivFloor_spec in E as (_ & -> & _); [|done..].
    rewrite Cmp_le, Z.leb_le.
    pose proof (Z.div_mod (expected * bps) 10000 ltac:(lia)).
    pose proof (Z.mod_pos_bound (expected * bps) 10000 ltac:(lia)). split; intros; nia.
  - exfalso. unfold valid_amount in He.
    assert (MulDivFloor expected bps 10000 = Ok (expected * bps / 10000)); [|congruence].
    apply MulDivFloor_spec; [done..|]. split; [lia|]. split; [done|].
    apply Z.div_lt_upper_bound; nia.
Qed.

(** The shortfall (or excess) of a transfer is at most [bps] basis points. *)
Definition close_below (received expected bps : Z) : Prop :=
  received <= expected /\ 0 < bps /\ (expected - received) * 10000 <= expected * bps.
Definition close_above (received expected bps : Z) : Prop :=
  expected < received /\ 0 < bps /\ (received - expected) * 10000 <= expected * bps.

Lemma underpaymentWithinTolerance_iff received expected bps :
  valid_amount received -> valid_amount expected -> 0 <= bps <= 10000 ->
  underpaymentWithinTolerance received expected bps = true <-> close_below received expected bps.
Proof.
  intros Hr He Hb. unfold underpaymentWithinTolerance, close_below.
  destruct (bps =? 0) eqn:E0; bool_hyp; [split; [done|lia]|].
  destruct (Sub expected received) as [d|] eqn:E.
  - apply Sub_spec in E as [? ->]. rewrite within_bps_iff by (done || lia). lia.
  - split; [done|]. intros (H & _). by rewrite Sub_ok in E.
Qed.

Lemma overpaymentWithinTolerance_iff received expected bps :
  valid_amount received -> valid_amount expected -> 0 <= bps <= 10000 ->
  overpaymentWithinTolerance received expected bps = true <-> close_above received expected bps.
Proof.
  intros Hr He Hb. unfold overpaymentWithinTolerance, close_above. rewrite Cmp_le.
  destruct ((bps =? 0) || (received <=? expected)) eqn:E0.
  { split; [done|]. apply orb_true_iff in E0 as [?|?]; bool_hyp; lia. }
  bool_hyp. rewrite Sub_ok by lia. rewrite within_bps_iff by (done || lia). lia.
Qed.

(** When a transfer may complete a route without an operator. *)
Definition may_settle (event : TransferEvent) (route : PaymentRoute) (now : Time)
    (policy : ExceptionPolicy) : Prop :=
  let received := te_Amount event in
  let expected := pr_ExpectedAmount route in
  let t := te_OnChainTime event in
  pr_ChainID route = ei_ChainID (te_Identity event) /\
  pr_Address route = ei_ToAddress (te_Identity event) /\
  pr_AssetID route = ei_AssetID (te_Identity event) /\
  ( (received = expected /\
      (t <= pr_ExpiresAt route \/
       (t <= pr_GraceEndsAt route /\ ep_AcceptExactWithinGrace policy = true)))
  \/ (received < expected /\ ~ (now < pr_ExpiresAt route /\ ep_AccumulatePartial policy = true) /\
      close_below received expected (ep_AutoAcceptUnderpaymentBPS policy))
  \/ (expected < received /\
      (ep_Overpayment policy = OverpaymentRefundExcess \/
       ep_Overpayment policy = OverpaymentCreditExcess))).

Definition settles (a : ExceptionAction) : bool :=
  match a with
  | ActionSettle | ActionSettleRefundExcess | ActionSettleCreditExcess => true
  | _ => false
  end.

(** The exception policy settles a transfer without an operator exactly when
    it goes to the right chain, address and asset and is either exact and in
    time (or in the grace period the policy accepts), short by at most the
    policy's basis points after partial accumulation is over, or in excess with
    a policy for the excess; a wrong asset or address always needs review, and
    the assessment carries the policy version it was made under. *)
Theorem AssessException_settles_iff event route now policy a :
  valid_amount (te_Amount event) -> valid_amount (pr_ExpectedAmount route) ->
  0 <= ep_AutoAcceptUnderpaymentBPS policy ->
  AssessException event route now policy = Ok a ->
  (settles (ea_Action a) = true <-> may_settle event route now policy) /\
  ea_PolicyVersion a = ep_Version policy /\
  (ea_Class a = ExceptionWrongAsset \/ ea_Class a = ExceptionUnmatched ->
   ea_Action a = ActionManualReview).
Proof.
  intros Hr He Hb H. unfold AssessException in H.
  destruct ((ep_Version policy <? 1) || _) eqn:E0; [done|]. bool_hyp.
  pose proof (underpaymentWithinTolerance_iff _ _ (ep_AutoAcceptUnderpaymentBPS policy) Hr He
                ltac:(lia)) as Htol.
  unfold may_settle. autorewrite with money in H. unfold After, Before in H.
  repeat (step_in H; cbn beta iota in H); simplify_eq/=.
  all: bool_hyp.
  all: try match goal with H : (_ || _) = true |- _ => apply orb_true_iff in H; destruct H; bool_hyp end.
  all: try match goal with H : (_ && _) = false |- _ => apply andb_false_iff in H; destruct H; bool_hyp end.
  all: split; [|split; [done|naive_solver]].
  all: intuition (congruence || lia).
Qed.

Definition sample_event : TransferEvent :=
  mkTransferEvent "evt-1" sample_identity "erc20_transfer" "0xfrom" 1000000 6 100 "0xblock"
    (UnixTime 1700000100) 12 TransferFinalized "v1" "00" "".

Definition sample_route (id : string) (expected : Amount) : PaymentRoute :=
  mkPaymentRoute id ("intent-" +:+ id) "" "" "eip155:1" "usdc-ethereum" RouteProviderOnChain "" "" "" ""
    expected 6 "" "0xdef" "" 12 RouteActive 1 (UnixTime 1700000000) (UnixTime 1700000900)
    (UnixTime 1700086400) "" "" "" 0.

Definition sample_policy : ExceptionPolicy := mkExceptionPolicy 3 false 100 true OverpaymentReview.

Lemma AssessException_settles_iff_witness :
  (settles ActionSettle = true <->
   may_settle sample_event (sample_route "r1" 1005000) (UnixTime 1700000200) sample_policy) /\
  3 = 3 /\ (ExceptionUnderpaid = ExceptionWrongAsset \/ ExceptionUnderpaid = ExceptionUnmatched ->
           ActionSettle = ActionManualReview).
Proof.
  apply (AssessException_settles_iff sample_event (sample_route "r1" 1005000) (UnixTime 1700000200)
           sample_policy
           (mkExceptionAssessment ExceptionUnderpaid ActionSettle 3 "-5000"
              ["below_expected"; "shortfall_review"; "within_versioned_tolerance"]));
    [by vm_compute|by vm_compute|by vm_compute|vm_compute; reflexivity].
Defined.

(** ** Properties of the candidate ranking *)

(** The distance as a number; a delta that does not parse is farther than any amount. *)
Definition distance_key (c : Candidate) : Z := default amount_limit (parse_distance (ca_AmountDelta c)).

Lemma compareCandidateAmountDistance_key c d :
  compareCandidateAmountDistance c d = Cmp (distance_key c) (distance_key d).
Proof.
  assert (Hlt : forall v a, parse_distance v = Some a -> a < amount_limit).
  { intros v a. unfold parse_distance. intros H. run_ok H. injection H as <-.
    apply Parse_canonical in E0 as (_ & _ & ?). unfold valid_amount in *. lia. }
  unfold compareCandidateAmountDistance, distance_key.
  destruct (parse_distance (ca_AmountDelta c)) eqn:E1, (parse_distance (ca_AmountDelta d)) eqn:E2;
    simpl; try apply Hlt in E1; try apply Hlt in E2; try done;
    unfold Cmp; [by rewrite (proj2 (Z.compare_lt_iff _ _))|by rewrite (proj2 (Z.compare_gt_iff _ _))].
Qed.

(** The sort order, without the computation of distances. *)
Lemma candidate_less_iff c d :
  candidate_less c d = true <->
  ca_Score d < ca_Score c \/
  (ca_Score c = ca_Score d /\
   (distance_key c < distance_key d \/
    (distance_key c = distance_key d /\ str_less (ca_RouteID c) (ca_RouteID d) = true))).
Proof.
  unfold candidate_less. rewrite compareCandidateAmountDistance_key.
  destruct (ca_Score c =? ca_Score d) eqn:E; bool_hyp.
  - rewrite Cmp_eq, Cmp_lt.
    destruct (distance_key c =? distance_key d) eqn:E2; bool_hyp; simpl;
      rewrite ?Z.ltb_lt; intuition lia.
  - rewrite Z.gtb_ltb, Z.ltb_lt. intuition lia.
Qed.

Lemma candidate_less_asym c d : candidate_less c d = true -> candidate_less d c = false.
Proof.
  intros H. apply not_true_iff_false. rewrite candidate_less_iff in *. intros H2.
  destruct H as [?|(? & [?|[? Hs]])], H2 as [?|(? & [?|[? Hs2]])]; try lia.
  apply str_less_asym in Hs. congruence.
Qed.

Lemma candidate_less_cotrans c d e :
  candidate_less c e = true -> candidate_less c d = true \/ candidate_less d e = true.
Proof.
  rewrite !candidate_less_iff. intros H.
  destruct (Z.lt_trichotomy (ca_Score c) (ca_Score d)) as [?|[?|?]]; [right; left; lia| |left; left; lia].
  destruct H as [?|(? & H)]; [right; left; lia|].
  destruct (Z.lt_trichotomy (distance_key c) (distance_key d)) as [?|[?|?]];
    [left; right; lia| |right; right; intuition lia].
  destruct H as [?|[? Hs]]; [right; right; intuition lia|].
  apply (str_less_cotrans _ (ca_RouteID d)) in Hs as [?|?]; [left|right]; right; intuition lia.
Qed.

Lemma candidate_less_total c d :
  candidate_less c d = true \/ candidate_less d c = true \/ ca_RouteID c = ca_RouteID d.
Proof.
  rewrite !candidate_less_iff.
  destruct (Z.lt_trichotomy (ca_Score c) (ca_Score d)) as [?|[?|?]]; [intuition lia| |intuition lia].
  destruct (Z.lt_trichotomy (distance_key c) (distance_key d)) as [?|[?|?]]; [intuition lia| |intuition lia].
  destruct (str_less_total (ca_RouteID c) (ca_RouteID d)) as [?|[?|?]]; auto 10.
Qed.

Lemma candidates_sorted l : StronglySorted (not_after candidate_less) (sort_by candidate_less l).
Proof. apply sort_by_sorted; [exact candidate_less_asym|exact candidate_less_cotrans]. Qed.

Lemma build_candidate_ids event now r c :
  build_candidate event now r = Some c -> ca_RouteID c = pr_ID r /\ ca_IntentID c = pr_IntentID r.
Proof.
  unfold build_candidate. intros H. run_ok H; by injection H as <-.
Qed.

Lemma build_candidates_ids event now routes :
  sublist (ca_RouteID <$> omap (build_candidate event now) routes) (pr_ID <$> routes).
Proof.
  induction routes as [|r rest IH]; [done|]. simpl.
  destruct (build_candidate event now r) as [c|] eqn:E; simpl; [|by apply sublist_cons].
  apply build_candidate_ids in E as [-> _]. by apply sublist_skip.
Qed.

Lemma unique_route_bonus_ids cs : ca_RouteID <$> unique_route_bonus cs = ca_RouteID <$> cs.
Proof. destruct cs as [|c [|d l]]; [done| |done]. unfold unique_route_bonus. by destruct (_ && _). Qed.

(** The ranking of candidates depends on the set of open routes only, not on
    the order in which the store returns them, as long as route identifiers are
    distinct. *)
Theorem BuildCandidates_order_independent event now routes routes' :
  NoDup (pr_ID <$> routes) -> Permutation routes routes' ->
  BuildCandidates event routes now = BuildCandidates event routes' now.
Proof.
  intros Hnd Hp. unfold BuildCandidates. f_equal.
  set (cs := omap (build_candidate event now) routes).
  set (cs' := omap (build_candidate event now) routes').
  assert (Hpc : Permutation (unique_route_bonus cs) (unique_route_bonus cs')).
  { assert (Permutation cs cs') as Hcs by (unfold cs, cs'; by rewrite Hp).
    destruct cs as [|x [|y l]].
    - by apply Permutation_nil in Hcs as ->.
    - apply Permutation_length_1_inv in Hcs as ->. done.
    - destruct cs' as [|x' [|y' l']]; [|apply Permutation_length in Hcs; done|done].
      by apply Permutation_sym, Permutation_nil in Hcs. }
  apply (sorted_unique candidate_less).
  - intros x y Hx Hy. rewrite sort_by_In in Hx, Hy.
    destruct (candidate_less_total x y) as [?|[?|?]]; [by left|by right; left|right; right].
    apply (NoDup_fmap_inj_on ca_RouteID (unique_route_bonus cs)); [|by apply list_elem_of_In..|done].
    rewrite unique_route_bonus_ids. eapply sublist_NoDup; [exact Hnd|]. apply build_candidates_ids.
  - apply candidates_sorted.
  - apply candidates_sorted.
  - by rewrite <- !sort_by_perm.
Qed.

Lemma BuildCandidates_order_independent_witness :
  BuildCandidates sample_event [sample_route "r1" 1000000; sample_route "r2" 990000] (UnixTime 1700000200) =
  BuildCandidates sample_event [sample_route "r2" 990000; sample_route "r1" 1000000] (UnixTime 1700000200).
Proof.
  apply (BuildCandidates_order_independent sample_event (UnixTime 1700000200)
           [sample_route "r1" 1000000; sample_route "r2" 990000]
           [sample_route "r2" 990000; sample_route "r1" 1000000]).
  - apply (bool_decide_unpack _). reflexivity.
  - apply perm_swap.
Defined.

(** The guards that [UniqueAutomaticCandidate] puts on its result. *)
Lemma UniqueAutomaticCandidate_inv cs c :
  UniqueAutomaticCandidate cs = (c, true) ->
  exists rest, cs = c :: rest /\ AutomaticCandidateScoreThreshold <= ca_Score c /\
    ca_Class c <> ExceptionAmbiguous /\
    (candidateHasReason c "within_payment_window" = true \/
     (ca_Class c = ExceptionLate /\ candidateHasReason c automaticLateGraceReason = true)) /\
    (ca_Class c = ExceptionPartial \/ ca_Class c = ExceptionUnderpaid ->
     candidateHasReason c "underpayment_within_five_percent" = true) /\
    match rest with [] => True | d :: _ => ca_Score d <> ca_Score c end.
Proof.
  unfold UniqueAutomaticCandidate. intros H.
  destruct cs as [|c0 rest]; [done|]. exists rest.
  destruct ((ca_Score c0 <? _) || _) eqn:E1; [done|].
  destruct (negb _ && negb _) eqn:E2; [done|].
  destruct ((_ || _) && negb _) eqn:E3; [done|].
  assert (c0 = c /\ match rest with [] => True | d :: _ => ca_Score d <> ca_Score c end) as [-> Hr].
  { destruct rest as [|c1 rest]; [by injection H as ->|].
    destruct (ca_Score c1 =? ca_Score c0) eqn:E4; [done|]. bool_hyp. by injection H as ->. }
  bool_hyp. repeat split; [done..| |intros Hc|done].
  - apply andb_false_iff in E2 as [E2|E2]; bool_hyp; [by left|right]. by bool_hyp.
  - apply andb_false_iff in E3 as [E3|E3]; bool_hyp; [|done]. by destruct Hc.
Qed.

Lemma mark_ties_scores top cs : ca_Score <$> mark_ties top cs = ca_Score <$> cs.
Proof.
  induction cs as [|c cs IH]; [done|]. simpl. destruct (_ || _); [done|].
  rewrite !fmap_cons, IH. f_equal. simpl. lia.
Qed.

(** If the first candidate is not ambiguous the marking changed nothing. *)
Lemma mark_ambiguous_head c rest cs :
  mark_ambiguous cs = c :: rest -> ca_Class c <> ExceptionAmbiguous -> cs = c :: rest.
Proof.
  destruct cs as [|c0 [|c1 l]]; [done|done|]. unfold mark_ambiguous.
  destruct ((ca_Score c0 =? ca_Score c1) && _); [|done].
  simpl. rewrite Z.eqb_refl. unfold compareCandidateAmountDistance.
  destruct (parse_distance (ca_AmountDelta c0)); simpl; [rewrite Cmp_eq, Z.eqb_refl; simpl|];
    intros [= <- _]; intros Hne; by destruct Hne.
Qed.

(** A candidate of the ranked list that is not marked comes from a route. *)
Lemma bonus_origin event now routes c :
  c ∈ unique_route_bonus (omap (build_candidate event now) routes) ->
  exists route b, route ∈ routes /\ build_candidate event now route = Some b /\
    (c = b \/ (c = add_reason b 10 (ca_Class b) "unique_route_candidate" /\
               ca_Class b = ExceptionOverpaid)).
Proof.
  intros Hc.
  assert (exists b, b ∈ omap (build_candidate event now) routes /\
    (c = b \/ (c = add_reason b 10 (ca_Class b) "unique_route_candidate" /\
               ca_Class b = ExceptionOverpaid))) as (b & Hb & Hcb).
  { destruct (omap (build_candidate event now) routes) as [|b [|d l]]; eauto.
    unfold unique_route_bonus in Hc. destruct (_ && _) eqn:E; bool_hyp;
      apply list_elem_of_singleton in Hc as ->; exists b; (split; [by left|]); auto. }
  apply list_elem_of_omap in Hb as (route & Hr & Hb). eauto 10.
Qed.

(** What makes a route eligible for automatic settlement by a transfer. *)
Definition automatic_eligible (event : TransferEvent) (route : PaymentRoute) : Prop :=
  let t := te_OnChainTime event in
  pr_ChainID route = ei_ChainID (te_Identity event) /\
  pr_Address route = ei_ToAddress (te_Identity event) /\
  pr_AssetID route = ei_AssetID (te_Identity event) /\
  ( (pr_StartsAt route <= t <= pr_ExpiresAt route /\
      (pr_ExpectedAmount route <= te_Amount event \/
       close_below (te_Amount event) (pr_ExpectedAmount route) 500))
  \/ (pr_ExpiresAt route < t <= pr_ExpiresAt route + 30 * Minute /\ t <= pr_GraceEndsAt route /\
      close_below (te_Amount event) (pr_ExpectedAmount route) 500)).

Lemma automaticLatePaymentDeadline_le route t :
  t <= automaticLatePaymentDeadline route <->
  t <= pr_ExpiresAt route + 30 * Minute /\ t <= pr_GraceEndsAt route.
Proof.
  unfold automaticLatePaymentDeadline, AddTime, AutomaticLatePaymentGrace, Before.
  destruct (pr_GraceEndsAt route <? _) eqn:E; bool_hyp; lia.
Qed.

Lemma build_candidate_eligible event now route b c :
  valid_amount (te_Amount event) -> valid_amount (pr_ExpectedAmount route) ->
  build_candidate event now route = Some b ->
  (c = b \/ (c = add_reason b 10 (ca_Class b) "unique_route_candidate" /\
             ca_Class b = ExceptionOverpaid)) ->
  AutomaticCandidateScoreThreshold <= ca_Score c ->
  candidateHasReason c "within_payment_window" = true \/
    (ca_Class c = ExceptionLate /\ candidateHasReason c automaticLateGraceReason = true) ->
  (ca_Class c = ExceptionPartial \/ ca_Class c = ExceptionUnderpaid ->
     candidateHasReason c "underpayment_within_five_percent" = true) ->
  automatic_eligible event route.
Proof.
  intros Hr He Hb Hcb Hs Hw Hu. unfold automatic_eligible.
  pose proof (underpaymentWithinTolerance_iff _ _ 500 Hr He ltac:(lia)) as Htol.
  pose proof (automaticLatePaymentDeadline_le route (te_OnChainTime event)) as Hdead.
  unfold build_candidate in Hb. unfold AutomaticCandidateScoreThreshold in Hs.
  destruct ((pr_ChainID route != _) || _) eqn:E1; [done|].
  destruct (pr_AssetID route != _) eqn:E2.
  { injection Hb as <-. destruct Hcb as [->|[_ ?]]; [simpl in Hs; lia|done]. }
  bool_hyp. split; [done|]. split; [done|]. split; [done|].
  assert (Hexact : te_Amount event = pr_ExpectedAmount route ->
    close_below (te_Amount event) (pr_ExpectedAmount route) 500).
  { unfold close_below, valid_amount in *. lia. }
  destruct (window_score _ _) as [s1 r1] eqn:Ew.
  destruct (amount_score _ _ _) as [[cl s2] rs] eqn:Ea.
  unfold window_score in Ew. unfold amount_score in Ea. autorewrite with money in Ea.
  unfold After, Before in *.
  destruct (pr_ExpiresAt route <? te_OnChainTime event) eqn:El;
  run_ok Ew; injection Ew as <- <-; run_ok Ea; injection Ea as <- <- <-; injection Hb as <-;
    bool_hyp; try lia;
    (destruct Hcb as [->|[-> Hov]]; simpl in Hs; [|simpl in Hov; try discriminate Hov]);
    try lia; cbn in Hw, Hu; intuition (discriminate || lia).
Qed.

(** ** Properties of the choice among equal top scores *)

Section same_customer_facts.
Context (canonicalCandidateMetadata : string -> option string).
Context (event : TransferEvent) (contexts : gmap string AutomaticCandidateContext).

(** Everything two tied invoices must agree on. *)
Definition invoice_key (cx : AutomaticCandidateContext) :=
  let i := cx_Intent cx in
  (pi_TenantID i, pi_MerchantID i, pi_CustomerReference i, pi_AmountMinor i, pi_Currency i,
   pi_CurrencyScale i, canonicalCandidateMetadata (pi_Metadata i), pr_Memo (cx_Route cx)).

Lemma invoice_differs_key m cx rm rc :
  canonicalCandidateMetadata (pi_Metadata (cx_Intent cx)) = Some m ->
  canonicalCandidateMetadata (pi_Metadata (cx_Intent rc)) = Some rm ->
  invoice_differs m cx rm rc = false -> invoice_key cx = invoice_key rc.
Proof.
  intros Hm Hrm H. unfold invoice_differs in H. rewrite Cmp_eq in H. bool_hyp.
  unfold invoice_key. rewrite Hm, Hrm. congruence.
Qed.

(** The context that a tied candidate has passed the guards with. *)
Definition vetted (d : Candidate) (cx : AutomaticCandidateContext) : Prop :=
  contexts !! ca_RouteID d = Some cx /\ candidate_guards_fail event d cx = false /\
  is_Some (canonicalCandidateMetadata (pi_Metadata (cx_Intent cx))).

Definition distance_of (cx : AutomaticCandidateContext) : Z :=
  te_Amount event - pr_ExpectedAmount (cx_Route cx).

(** The state of the loop after the candidates of [l]. *)
Definition selection_inv (st : selection) (l : list Candidate) : Prop :=
  (forall d, d ∈ l -> In (ca_RouteID d) (sel_seen st)) /\
  match sel_reference st with
  | None => l = [] /\ sel_winner st = no_candidate
  | Some (rc, rm) =>
      canonicalCandidateMetadata (pi_Metadata (cx_Intent rc)) = Some rm /\
      (exists cx, sel_winner st ∈ l /\ vetted (sel_winner st) cx /\ sel_closest st = distance_of cx) /\
      forall d, d ∈ l -> exists cx, vetted d cx /\ invoice_key cx = invoice_key rc /\
        sel_closest st <= distance_of cx /\
        (sel_unique st = true -> d = sel_winner st \/
           (ca_RouteID d <> ca_RouteID (sel_winner st) /\ sel_closest st < distance_of cx))
  end.

Lemma guards_route_nonempty d cx :
  candidate_guards_fail event d cx = false -> ca_RouteID d <> "".
Proof. intros H. unfold candidate_guards_fail in H. bool_hyp. congruence. Qed.

(** What a successful iteration has checked. *)
Lemma select_step_vetted st d st' :
  select_step canonicalCandidateMetadata event contexts st d = Some st' ->
  exists cx m, vetted d cx /\ ~ In (ca_RouteID d) (sel_seen st) /\
    canonicalCandidateMetadata (pi_Metadata (cx_Intent cx)) = Some m /\
    0 <= distance_of cx /\
    match sel_reference st with
    | None => True
    | Some (rc, rm) => invoice_differs m cx rm rc = false
    end /\
    st' = let ref := Some (default (cx, m) (sel_reference st)) in
          let seen := ca_RouteID d :: sel_seen st in
          if (ca_RouteID (sel_winner st) == "") || (distance_of cx <? sel_closest st)
          then mkSelection ref d (distance_of cx) true seen
          else mkSelection ref (sel_winner st) (sel_closest st)
                 (if distance_of cx =? sel_closest st then false else sel_unique st) seen.
Proof.
  unfold select_step, vetted. intros H.
  destruct (contexts !! ca_RouteID d) as [cx|] eqn:Ecx; [|done].
  destruct (existsb_str _ _ || candidate_guards_fail event d cx) eqn:Eg; [done|]. bool_hyp.
  destruct (canonicalCandidateMetadata _) as [m|] eqn:Em; [|done].
  exists cx, m.
  destruct (match sel_reference st with None => false | Some (rc, rm) => _ end) eqn:Ed; [done|].
  destruct (Sub _ _) as [dist|] eqn:Es; [|done]. apply Sub_spec in Es as [Hle ->].
  rewrite Cmp_lt, Cmp_eq in H. unfold distance_of.
  split; [by rewrite Em|]. split.
  { rewrite <- existsb_str_In. congruence. }
  split; [done|]. split; [lia|].
  split; [by destruct (sel_reference st) as [[rc rm]|]|].
  assert (default (cx, m) (sel_reference st) =
          match sel_reference st with None => (cx, m) | Some r => r end) as -> by
    (by destruct (sel_reference st)).
  run_ok H; by injection H as <-.
Qed.

Lemma select_step_inv st l d st' :
  selection_inv st l -> select_step canonicalCandidateMetadata event contexts st d = Some st' ->
  selection_inv st' (d :: l).
Proof.
  intros [Hseen Hinv] H.
  apply select_step_vetted in H as (cx & m & Hv & Hfresh & Hm & Hd & Href & Hst').
  assert (Hnew : forall x, x ∈ l -> ca_RouteID x <> ca_RouteID d).
  { intros x Hx Heq. apply Hfresh. rewrite <- Heq. by apply Hseen. }
  assert (Hids : sel_seen st' = ca_RouteID d :: sel_seen st).
  { rewrite Hst'. simpl. by destruct (_ || _). }
  split.
  { rewrite Hids. intros x [->|Hx]%elem_of_cons; [by left|right; by apply Hseen]. }
  destruct (sel_reference st) as [[rc rm]|] eqn:Er; simpl in Hst'.
  - destruct Hinv as (Hrm & (wcx & Hwin & Hwv & Hwd) & Hall).
    pose proof (invoice_differs_key _ _ _ _ Hm Hrm Href) as Hkey.
    assert (ca_RouteID (sel_winner st) <> "") as Hne%String.eqb_neq.
    { eapply guards_route_nonempty. by destruct Hwv as (_ & ? & _). }
    rewrite Hne in Hst'. simpl in Hst'.
    destruct (distance_of cx <? sel_closest st) eqn:El; bool_hyp; subst st'; simpl;
      (split; [done|]); split.
    + exists cx. split; [by left|done].
    + intros x [->|Hx]%elem_of_cons.
      * exists cx. split; [done|]. split; [done|]. split; [lia|]. by left.
      * destruct (Hall x Hx) as (xcx & Hxv & Hxk & Hxd & _). exists xcx.
        repeat split; [by destruct Hxv as (? & ? & ?)..|done|lia|]. intros _. right.
        split; [by apply Hnew|lia].
    + exists wcx. split; [by right|done].
    + intros x [->|Hx]%elem_of_cons.
      * exists cx. split; [done|]. split; [done|]. split; [done|].
        destruct (distance_of cx =? sel_closest st) eqn:Eq; [done|]. bool_hyp. intros _. right.
        split; [by apply not_eq_sym, Hnew|lia].
      * destruct (Hall x Hx) as (xcx & Hxv & Hxk & Hxd & Hxu). exists xcx.
        split; [done|]. split; [done|]. split; [done|].
        destruct (distance_of cx =? sel_closest st); [done|exact Hxu].
  - destruct Hinv as [-> Hw]. rewrite Hw in Hst'. simpl in Hst'. subst st'. simpl.
    split; [done|]. split; [exists cx; split; [by left|done]|].
    intros x [->|Hx]%elem_of_cons; [|by apply elem_of_nil in Hx].
    exists cx. split; [done|]. split; [done|]. split; [lia|]. by left.
Qed.

(** The loop visits exactly the candidates with the top score. *)
Lemma tied_loop_inv top ranked : forall st l st',
  StronglySorted (fun x y => ca_Score y <= ca_Score x) ranked ->
  Forall (fun x => ca_Score x <= top) ranked ->
  selection_inv st l ->
  tied_loop canonicalCandidateMetadata event contexts top st ranked = Some st' ->
  exists l', selection_inv st' l' /\
    forall x, x ∈ l' <-> x ∈ l \/ (x ∈ ranked /\ ca_Score x = top).
Proof.
  induction ranked as [|d ranked IH]; intros st l st' Hsort Htop Hinv H; simpl in H.
  { injection H as <-. exists l. split; [done|]. intros x. rewrite elem_of_nil. naive_solver. }
  apply StronglySorted_inv in Hsort as [Hsort Hge]. apply Forall_cons in Htop as [Hdt Htop].
  destruct (negb (ca_Score d =? top)) eqn:E; bool_hyp.
  - injection H as <-. exists l. split; [done|]. intros x.
    rewrite Forall_forall in Hge. split; [by left|]. intros [?|[Hx Hxt]]; [done|].
    apply elem_of_cons in Hx as [->|Hx]; [done|]. specialize (Hge x Hx). lia.
  - destruct (select_step _ _ _ st d) as [st1|] eqn:Est; [|done].
    apply select_step_inv with (l := l) in Est; [|done].
    destruct (IH st1 (d :: l) st' Hsort Htop Est H) as (l' & Hinv' & Hl').
    exists l'. split; [done|]. intros x. rewrite Hl', !elem_of_cons. naive_solver.
Qed.
End same_customer_facts.

(** The stable sort by score of [SelectAutomaticCandidate]. *)
Lemma score_sort_sorted l :
  StronglySorted (fun x y => ca_Score y <= ca_Score x)
    (sort_by (fun i j : Candidate => ca_Score i >? ca_Score j) l).
Proof.
  set (less := fun i j : Candidate => ca_Score i >? ca_Score j).
  assert (Hs : StronglySorted (not_after less) (sort_by less l)).
  { apply sort_by_sorted; unfold less; intros; lia. }
  induction Hs as [|x r Hs IH Hall]; constructor; [done|].
  eapply Forall_impl; [exact Hall|]. intros y Hy. unfold not_after, less in Hy. simpl. lia.
Qed.

(** When several routes share the top score of 100, one is chosen only if
    all of them are slight overpayments (at most 5%, in the window) of the same
    customer's equivalent invoices (tenant, merchant, customer, amount, currency,
    canonical metadata and memo), and the chosen route is the one whose expected
    amount is strictly the closest to what was received. *)
Lemma SelectAutomaticCandidate_tie_closest canon event contexts candidates c :
  SelectAutomaticCandidate canon event contexts candidates = (c, true) ->
  snd (UniqueAutomaticCandidate (sort_by (fun i j => ca_Score i >? ca_Score j) candidates)) = false ->
  c ∈ candidates /\ ca_Score c = 100 /\
  exists cx, vetted canon event contexts c cx /\
    forall d, d ∈ candidates -> ca_Score d < 100 \/ d = c \/
      (ca_RouteID d <> ca_RouteID c /\ ca_Score d = 100 /\
       exists dx, vetted canon event contexts d dx /\ invoice_key canon dx = invoice_key canon cx /\
         distance_of event cx < distance_of event dx).
Proof.
  unfold SelectAutomaticCandidate. intros H Hu.
  set (ranked := sort_by _ candidates) in *.
  assert (Hmem : forall d, d ∈ candidates <-> d ∈ ranked).
  { intros d. unfold ranked. by rewrite !list_elem_of_In, sort_by_In. }
  pose proof (score_sort_sorted candidates) as Hsort. fold ranked in Hsort.
  destruct (UniqueAutomaticCandidate ranked) as [w ok]. simpl in Hu. subst ok.
  destruct ranked as [|r0 [|r1 rest]] eqn:Er; [done|done|].
  destruct (negb _ || negb _) eqn:E100; [done|]. bool_hyp.
  destruct (tied_loop _ _ _ _ _ _) as [st|] eqn:El; [|done]. injection H as Hw Huniq.
  assert (Htop : Forall (fun x => ca_Score x <= ca_Score r0) (r0 :: r1 :: rest)).
  { apply StronglySorted_inv in Hsort as [_ Hall]. constructor; [lia|done]. }
  apply (tied_loop_inv canon event contexts) with (l := []) in El as (l & [_ Hinv] & Hl);
    [|done|done|].
  2:{ split; [intros d Hd; by apply elem_of_nil in Hd|done]. }
  assert (r0 ∈ l) as Hr0 by (apply Hl; right; split; [left|done]).
  destruct (sel_reference st) as [[rc rm]|]; [|destruct Hinv as [-> _]; by apply elem_of_nil in Hr0].
  destruct Hinv as (_ & (cx & Hwl & Hwv & Hwd) & Hall). rewrite Hw in Hwl, Hwv.
  pose proof (proj1 (Hl c) Hwl) as [Hc|[Hc Hct]]; [by apply elem_of_nil in Hc|].
  split; [by apply Hmem|]. split; [congruence|]. exists cx. split; [done|].
  intros d Hd. apply Hmem in Hd. rewrite Forall_forall in Htop.
  destruct (decide (ca_Score d = 100)) as [Hd100|]; [right|left; specialize (Htop d Hd); lia].
  destruct (Hall d) as (dx & Hdv & Hdk & Hdd & Hdu); [apply Hl; right; split; [done|congruence]|].
  destruct (Hall c Hwl) as (cx' & Hcv & Hck & _).
  assert (cx' = cx) as -> by (destruct Hcv as [? _], Hwv as [? _]; congruence).
  rewrite Hw in Hdu. destruct (Hdu Huniq) as [?|[? ?]]; [by left|right].
  split; [done|]. split; [done|]. exists dx. split; [done|]. split; [congruence|lia].
Qed.

Definition sample_intent (id : string) : PaymentIntent :=
  mkPaymentIntent id "tok" "tenant" "merchant" ("order-" +:+ id) "customer-1" 1000 "USD" 2 ""
    IntentPending "" "{}" [] 1 (UnixTime 1700000000) (UnixTime 1700000000) (UnixTime 1700000900)
    None None [].

Definition sample_contexts : gmap string AutomaticCandidateContext :=
  <["r1" := mkContext (sample_route "r1" 990000) (sample_intent "intent-r1")]>
  (<["r2" := mkContext (sample_route "r2" 980000) (sample_intent "intent-r2")]> ∅).

(** ** Properties of the automatic binding *)

Lemma mark_ties_origin top cs c :
  c ∈ mark_ties top cs -> ca_Class c <> ExceptionAmbiguous -> c ∈ cs.
Proof.
  induction cs as [|d cs IH]; [done|]. simpl. destruct (_ || _); [done|].
  intros [->|H]%elem_of_cons Hc; [by destruct Hc|]. right. by apply IH.
Qed.

Lemma mark_ambiguous_origin cs c :
  c ∈ mark_ambiguous cs -> ca_Class c <> ExceptionAmbiguous -> c ∈ cs.
Proof.
  destruct cs as [|c0 [|c1 l]]; [done..|]. unfold mark_ambiguous.
  destruct (_ && _); [apply mark_ties_origin|done].
Qed.

(** The mark for a truncated list changes only the reasons. *)
Lemma mark_truncated_reason c r :
  r <> "candidate_context_truncated" ->
  candidateHasReason (mark_truncated c) r = candidateHasReason c r.
Proof.
  intros Hr. apply eq_bool_prop_intro. unfold candidateHasReason.
  rewrite !Is_true_true, !existsb_str_In. simpl. rewrite in_app_iff. simpl. intuition congruence.
Qed.

(** What the loop over tied candidates asks of a candidate and of the locked
    route and intent it was loaded with: a payment in the window of the same
    chain, asset and address that exceeds the expected amount by at most 5%. *)
Definition small_overpayment (event : TransferEvent) (d : Candidate) (cx : AutomaticCandidateContext) : Prop :=
  let route := cx_Route cx in
  let intent := cx_Intent cx in
  ca_Class d = ExceptionOverpaid /\
  pr_ID route = ca_RouteID d /\ pr_IntentID route = ca_IntentID d /\ pi_ID intent = ca_IntentID d /\
  pi_TenantID intent <> "" /\ pi_MerchantID intent <> "" /\ TrimSpace (pi_CustomerReference intent) <> "" /\
  (pr_Status route = RouteActive \/ pr_Status route = RouteExpired) /\
  pr_ChainID route = ei_ChainID (te_Identity event) /\ pr_AssetID route = ei_AssetID (te_Identity event) /\
  pr_Address route = ei_ToAddress (te_Identity event) /\ pr_AssetDecimals route = te_AssetDecimals event /\
  pr_StartsAt route <= te_OnChainTime event <= pr_ExpiresAt route /\
  close_above (te_Amount event) (pr_ExpectedAmount route) 500.

Lemma candidate_guards_pass event d cx :
  valid_amount (te_Amount event) -> valid_amount (pr_ExpectedAmount (cx_Route cx)) ->
  candidate_guards_fail event d cx = false ->
  small_overpayment event d cx /\ candidateHasReason d "candidate_context_truncated" = false /\
  candidateHasReason d "within_payment_window" = true.
Proof.
  intros Hr He H. unfold candidate_guards_fail, Before, After in H. bool_hyp.
  pose proof (overpaymentWithinTolerance_iff _ _ 500 Hr He ltac:(lia)) as Htol.
  assert (Hst : pr_Status (cx_Route cx) = RouteActive \/ pr_Status (cx_Route cx) = RouteExpired).
  { destruct (pr_Status (cx_Route cx)); (by left) || (by right) || discriminate. }
  unfold small_overpayment, candidateCloseAmountToleranceBPS in *. intuition (congruence || lia || auto).
Qed.

Lemma top_score_strict c rest :
  StronglySorted (fun x y => ca_Score y <= ca_Score x) (c :: rest) ->
  match rest with [] => True | d :: _ => ca_Score d <> ca_Score c end ->
  Forall (fun d => ca_Score d < ca_Score c) rest.
Proof.
  intros [Hs Hall]%StronglySorted_inv Hne. destruct rest as [|d rest]; [done|].
  apply StronglySorted_inv in Hs as [_ Hd]. apply Forall_cons in Hall as [Hdc _].
  constructor; [lia|]. eapply Forall_impl; [exact Hd|]. simpl. intros. lia.
Qed.

(** Both ways of choosing: the strict winner, or the closest of a tie. *)
Lemma SelectAutomaticCandidate_cases canon event contexts candidates c :
  SelectAutomaticCandidate canon event contexts candidates = (c, true) ->
  (exists others, Permutation candidates (c :: others) /\
     Forall (fun d => ca_Score d < ca_Score c) others /\
     UniqueAutomaticCandidate (c :: others) = (c, true)) \/
  snd (UniqueAutomaticCandidate (sort_by (fun i j => ca_Score i >? ca_Score j) candidates)) = false.
Proof.
  intros H. destruct (UniqueAutomaticCandidate (sort_by (fun i j => ca_Score i >? ca_Score j) candidates))
    as [w ok] eqn:E; simpl.
  destruct ok; [left|by right].
  assert (w = c) as ->.
  { unfold SelectAutomaticCandidate in H. rewrite E in H. by injection H. }
  pose proof E as E'. apply UniqueAutomaticCandidate_inv in E' as (rest & Heq & _ & _ & _ & _ & Hne).
  pose proof (score_sort_sorted candidates) as Hs. rewrite Heq in Hs, E.
  exists rest. split; [|split; [by apply top_score_strict|done]].
  rewrite <- Heq. apply sort_by_perm.
Qed.

(** Where a potential candidate comes from. *)
Lemma potential_origin event rows now potential tenant class c :
  findPotentialCandidates event rows now = (potential, tenant, class) -> c ∈ potential ->
  exists b, b ∈ BuildCandidates event (po_Route <$> take candidate_limit rows) now /\
    c = (if (candidate_limit <? length rows)%nat then mark_truncated b else b).
Proof.
  unfold findPotentialCandidates. intros H Hc.
  destruct (1 <? _)%nat; [injection H as <- _ _; by apply elem_of_nil in Hc|].
  destruct rows as [|row rest] eqn:Erows; [injection H as <- _ _; by apply elem_of_nil in Hc|].
  rewrite <- Erows in H |- *. clear Erows.
  set (built := BuildCandidates _ _ _) in *. injection H as H _ _. subst potential.
  destruct (candidate_limit <? length rows)%nat; [|eauto].
  apply list_elem_of_fmap in Hc as (b & -> & Hb). eauto.
Qed.

(** A candidate that passes the guards of either way comes from an eligible route. *)
Lemma potential_eligible event rows now potential tenant class c :
  valid_amount (te_Amount event) ->
  Forall (fun r => valid_amount (pr_ExpectedAmount (po_Route r))) rows ->
  findPotentialCandidates event rows now = (potential, tenant, class) -> c ∈ potential ->
  AutomaticCandidateScoreThreshold <= ca_Score c -> ca_Class c <> ExceptionAmbiguous ->
  candidateHasReason c "within_payment_window" = true \/
    (ca_Class c = ExceptionLate /\ candidateHasReason c automaticLateGraceReason = true) ->
  (ca_Class c = ExceptionPartial \/ ca_Class c = ExceptionUnderpaid ->
     candidateHasReason c "underpayment_within_five_percent" = true) ->
  exists r, r ∈ take candidate_limit rows /\ ca_RouteID c = pr_ID (po_Route r) /\
    ca_IntentID c = pr_IntentID (po_Route r) /\ automatic_eligible event (po_Route r).
Proof.
  intros Hr Hall Hf Hc Hs Hna Hw Hu.
  destruct (potential_origin _ _ _ _ _ _ _ Hf Hc) as (b & Hb & Hcb).
  assert (Hsame : ca_Score c = ca_Score b /\ ca_Class c = ca_Class b /\ ca_RouteID c = ca_RouteID b /\
    ca_IntentID c = ca_IntentID b /\ forall r, r <> "candidate_context_truncated" ->
    candidateHasReason c r = candidateHasReason b r).
  { rewrite Hcb. destruct (_ <? _)%nat; [|done]. simpl. repeat split; [lia|].
    intros r. apply mark_truncated_reason. }
  destruct Hsame as (Hsc & Hcl & -> & -> & Hre).
  rewrite Hsc in Hs. rewrite Hcl in Hna, Hw, Hu. rewrite !Hre in Hw by done. rewrite Hre in Hu by done.
  unfold BuildCandidates in Hb. apply mark_ambiguous_origin in Hb; [|done].
  rewrite list_elem_of_In, sort_by_In, <- list_elem_of_In in Hb.
  apply bonus_origin in Hb as (route & b0 & Hroute & Hb0 & Hbb).
  apply list_elem_of_fmap in Hroute as (r & -> & Hrow).
  exists r. pose proof (build_candidate_ids _ _ _ _ Hb0) as [H1 H2].
  split; [done|]. split; [by destruct Hbb as [->|[-> _]]|]. split; [by destruct Hbb as [->|[-> _]]|].
  rewrite Forall_forall in Hall.
  eapply build_candidate_eligible; eauto. apply Hall. by eapply subseteq_take.
Qed.

(** Candidates are only ranked among the routes of one tenant. *)
Lemma potential_tenant event rows now potential tenant class c r :
  findPotentialCandidates event rows now = (potential, tenant, class) -> c ∈ potential ->
  r ∈ take candidate_limit rows -> po_TenantID r = tenant.
Proof.
  unfold findPotentialCandidates. intros H Hc Hr.
  destruct (1 <? _)%nat eqn:E; [injection H as <- _ _; by apply elem_of_nil in Hc|]. bool_hyp.
  destruct rows as [|row rows]; [by apply elem_of_nil in Hr|]. injection H as _ <- _.
  set (X := list_to_set (po_TenantID <$> take candidate_limit (row :: rows)) : gset string) in E.
  assert (H1 : po_TenantID r ∈ X) by (apply elem_of_list_to_set, list_elem_of_fmap_2, Hr).
  assert (H2 : po_TenantID row ∈ X) by (apply elem_of_list_to_set; by left).
  apply (size_singleton_inv X); [|done..].
  assert (size X <> 0)%nat; [|lia]. intros H0%size_empty_inv. set_solver.
Qed.

(** An unmarked candidate was ranked against every route. *)
Lemma potential_complete event rows now potential tenant class c :
  findPotentialCandidates event rows now = (potential, tenant, class) -> c ∈ potential ->
  candidateHasReason c "candidate_context_truncated" = false -> (length rows <= 100)%nat.
Proof.
  intros Hf Hc Ht. destruct (potential_origin _ _ _ _ _ _ _ Hf Hc) as (b & _ & Hcb).
  unfold candidate_limit in Hcb. destruct (100 <? length rows)%nat eqn:E; bool_hyp; [|lia].
  exfalso. apply not_true_iff_false in Ht. apply Ht. rewrite Hcb. unfold candidateHasReason.
  apply existsb_str_In. simpl. apply in_app_iff. right. by left.
Qed.

(** C13: A transfer that no single route matches exactly is bound to a route
    without an operator only if all the ranked routes (the newest hundred) are of
    one tenant, and the route is for the same chain, recipient and asset, with the
    transfer in the payment window with at least 95% of the expected amount, or at
    most 30 minutes late (and within the route's grace) with between 95% and 100%
    of it. Either every other ranked route scores strictly lower; or no route
    was left out of the ranking, the top score is 100, every route with that score
    is a small overpayment (at most 5%, in the window) of an equivalent invoice of
    the same customer (tenant, merchant, customer, amount, currency, canonical
    metadata and memo), and the chosen one is strictly the closest in amount. *)
Theorem automatic_candidate_safe canon event contexts rows now potential tenant class c :
  valid_amount (te_Amount event) ->
  Forall (fun r => valid_amount (pr_ExpectedAmount (po_Route r))) rows ->
  map_Forall (fun _ cx => valid_amount (pr_ExpectedAmount (cx_Route cx))) contexts ->
  findPotentialCandidates event rows now = (potential, tenant, class) ->
  SelectAutomaticCandidate canon event contexts potential = (c, true) ->
  (forall r, r ∈ take 100 rows -> po_TenantID r = tenant) /\
  (exists r, r ∈ take 100 rows /\ ca_RouteID c = pr_ID (po_Route r) /\
     ca_IntentID c = pr_IntentID (po_Route r) /\ automatic_eligible event (po_Route r)) /\
  ((exists others, Permutation potential (c :: others) /\
      Forall (fun d => ca_Score d < ca_Score c) others) \/
   ((length rows <= 100)%nat /\ c ∈ potential /\ ca_Score c = 100 /\
    exists cx, contexts !! ca_RouteID c = Some cx /\ small_overpayment event c cx /\
      forall d, d ∈ potential -> ca_Score d < 100 \/ d = c \/
        (ca_RouteID d <> ca_RouteID c /\ ca_Score d = 100 /\
         exists dx, contexts !! ca_RouteID d = Some dx /\ small_overpayment event d dx /\
           invoice_key canon dx = invoice_key canon cx /\
           distance_of event cx < distance_of event dx))).
Proof.
  intros Hr Hall Hctx Hf H.
  assert (Hvet : forall d dx, vetted canon event contexts d dx ->
    contexts !! ca_RouteID d = Some dx /\ small_overpayment event d dx /\
    candidateHasReason d "candidate_context_truncated" = false /\
    candidateHasReason d "within_payment_window" = true).
  { intros d dx (Hl & Hg & _). split; [done|]. apply candidate_guards_pass; [done|exact (Hctx _ _ Hl)|done]. }
  destruct (SelectAutomaticCandidate_cases _ _ _ _ _ H) as [(others & Hperm & Hlt & Hu)|Hu].
  - apply UniqueAutomaticCandidate_inv in Hu as (rest & Heq & Hs & Hna & Hw & Hun & _).
    assert (Hc : c ∈ potential) by (rewrite Hperm; by left).
    split; [intros r; by eapply potential_tenant|].
    split; [by eapply potential_eligible|]. left. by exists others.
  - destruct (SelectAutomaticCandidate_tie_closest _ _ _ _ _ H Hu) as (Hc & Hs & cx & Hv & Hothers).
    destruct (Hvet _ _ Hv) as (Hl & Hsm & Htr & Hw). pose proof (proj1 Hsm) as Hover.
    split; [intros r; by eapply potential_tenant|]. split.
    { eapply potential_eligible; eauto; rewrite ?Hover; [|done|intros [?|?]; done].
      unfold AutomaticCandidateScoreThreshold. lia. }
    right. split; [by eapply potential_complete|]. split; [done|]. split; [done|].
    exists cx. split; [done|]. split; [done|]. intros d Hd.
    destruct (Hothers d Hd) as [?|[?|(? & ? & dx & Hdv & Hk & Hdist)]]; [by left|by right; left|].
    right; right. split; [done|]. split; [done|]. exists dx.
    by destruct (Hvet _ _ Hdv) as (? & ? & _).
Qed.

Definition sample_tied (id delta : string) : Candidate :=
  mkCandidate id ("intent-" +:+ id) ExceptionOverpaid 100 delta
    ["same_chain"; "same_recipient"; "within_payment_window"; "overpayment_within_five_percent"].

(** Two invoices of one customer, 1% and 2% below what was received. *)
Definition sample_rows : list potentialRoute :=
  [mkPotentialRoute "tenant" (sample_route "r2" 980000); mkPotentialRoute "tenant" (sample_route "r1" 990000)].

Lemma automatic_candidate_safe_witness :
  let potential := [sample_tied "r1" "10000"; sample_tied "r2" "20000"] in
  let c := sample_tied "r1" "10000" in
  (forall r, r ∈ take 100 sample_rows -> po_TenantID r = "tenant") /\
  (exists r, r ∈ take 100 sample_rows /\ ca_RouteID c = pr_ID (po_Route r) /\
     ca_IntentID c = pr_IntentID (po_Route r) /\ automatic_eligible sample_event (po_Route r)) /\
  ((exists others, Permutation potential (c :: others) /\
      Forall (fun d => ca_Score d < ca_Score c) others) \/
   ((length sample_rows <= 100)%nat /\ c ∈ potential /\ ca_Score c = 100 /\
    exists cx, sample_contexts !! ca_RouteID c = Some cx /\ small_overpayment sample_event c cx /\
      forall d, d ∈ potential -> ca_Score d < 100 \/ d = c \/
        (ca_RouteID d <> ca_RouteID c /\ ca_Score d = 100 /\
         exists dx, sample_contexts !! ca_RouteID d = Some dx /\ small_overpayment sample_event d dx /\
           invoice_key Some dx = invoice_key Some cx /\
           distance_of sample_event cx < distance_of sample_event dx))).
Proof.
  intros potential c.
  apply (automatic_candidate_safe Some sample_event sample_contexts sample_rows (UnixTime 1700000200)
           potential "tenant" "overpaid" c).
  - by vm_compute.
  - by repeat constructor.
  - unfold sample_contexts. apply map_Forall_insert_2; [by vm_compute|].
    apply map_Forall_insert_2; [by vm_compute|]. apply map_Forall_empty.
  - vm_compute. reflexivity.
  - vm_compute. reflexivity.
Defined.

(** A strict winner needs no context. *)
Example automatic_candidate_strict :
  SelectAutomaticCandidate Some sample_event ∅
    (findPotentialCandidates sample_event
       [mkPotentialRoute "tenant" (sample_route "r2" 2000000); mkPotentialRoute "tenant" (sample_route "r1" 1000000)]
       (UnixTime 1700000200)).1.1 =
  (mkCandidate "r1" "intent-r1" ExceptionExact 125 "0"
     ["same_chain"; "same_recipient"; "within_payment_window"; "exact_amount"], true).
Proof. vm_compute. reflexivity. Qed.
