(* ===== verification/Automation.v ===== *)
(** * Automation: internal/application/matching_automation.go

    The deterministic reducer that turns the finalized transfers of a route into
    a settle, collect or review decision, with the credit of each transfer. *)

From Stdlib Require Import ZArith Lia Ascii String Permutation Sorted.
From stdpp Require Import base gmap list strings.
From S2P Require Import Prelude Text Money Domain Matching.

(** ** Policy and decision *)

Record AutomatedMatchingPolicy := mkAutomatedPolicy {
  amp_ID : string; amp_Version : Z; amp_AccumulatePartials : bool;
  amp_UnderpaymentToleranceBPS : Z; amp_OverpaymentMode : string;
  amp_AcceptLateWithinGrace : bool; amp_RequireSameSender : bool; amp_GasFreeEnabled : bool;
  amp_GasFreeFeeCollectors : list string }.

Definition OverpaymentManual : string := "manual_review".
Definition OverpaymentCreditAll : string := "credit_all".
Definition OverpaymentCreditExpected : string := "credit_expected_hold_excess".

(** The loop over the collectors; the result is the map [seen]. *)
Fixpoint check_collectors (seen : list string) (collectors : list string) : option (list string) :=
  match collectors with
  | [] => Some seen
  | collector :: rest =>
      if (TrimSpace collector != collector) || (collector == "") || existsb_str collector seen
      then None else check_collectors (collector :: seen) rest
  end.

(** [AutomatedMatchingPolicy.Validate] *)
Definition ValidateAutomatedPolicy (p : AutomatedMatchingPolicy) : result error unit :=
  if (amp_ID p == "") || (amp_Version p <? 1) || (amp_UnderpaymentToleranceBPS p >? 10000)
  then Err (Wrapped ErrValidation "invalid automated matching policy identity or tolerance")
  else if (amp_OverpaymentMode p != OverpaymentManual)
          && (amp_OverpaymentMode p != OverpaymentCreditAll)
          && (amp_OverpaymentMode p != OverpaymentCreditExpected)
  then Err (Wrapped ErrValidation "invalid overpayment mode")
  else match check_collectors [] (amp_GasFreeFeeCollectors p) with
       | None => Err (Wrapped ErrValidation "gasfree collectors must be unique canonical addresses")
       | Some seen =>
           if amp_GasFreeEnabled p && (Z.of_nat (length seen) =? 0)
           then Err (Wrapped ErrValidation "gasfree requires at least one trusted fee collector")
           else Ok tt
       end.

Inductive AutomatedMatchOutcome := AutomatedCollect | AutomatedSettle | AutomatedReview.

#[export] Instance AutomatedMatchOutcome_eq_dec : EqDecision AutomatedMatchOutcome.
Proof. solve_decision. Defined.

Record MatchAllocation := mkAllocation {
  ma_EventID : string; ma_Role : string; ma_MatchKind : string; ma_Received : Amount;
  ma_Effective : Amount; ma_Credited : Amount; ma_TransactionID : string; ma_EventIndex : string;
  ma_Sender : string; ma_OnChainTime : Time; ma_BlockHeight : Z; ma_BlockHash : string;
  ma_ParserVersion : string; ma_EvidenceHash : string; ma_GasFreePaymentID : string }.

Record AutomatedMatchDecision := mkDecision {
  ad_Outcome : AutomatedMatchOutcome; ad_Class : ExceptionClass; ad_PolicyID : string;
  ad_PolicyVersion : Z; ad_Expected : Amount; ad_Received : Amount; ad_Credited : Amount;
  ad_TreasuryReceived : Amount; ad_GasFreeFees : Amount; ad_ReasonCodes : list string;
  ad_Allocations : list MatchAllocation; ad_EvidenceHash : string }.

(** ** Helpers of the reducer *)

Definition sameCanonicalTransfer (left right : TransferEvent) : bool :=
  (te_Kind left == te_Kind right) && (te_FromAddress left == te_FromAddress right)
  && (Cmp (te_Amount left) (te_Amount right) =? 0)
  && (te_AssetDecimals left =? te_AssetDecimals right)
  && (te_BlockHeight left =? te_BlockHeight right) && (te_BlockHash left == te_BlockHash right)
  && (te_OnChainTime left =? te_OnChainTime right)
  && (te_Confirmations left =? te_Confirmations right)
  && bool_decide (te_Status left = te_Status right)
  && (te_ParserVersion left == te_ParserVersion right)
  && (te_EvidenceHash left == te_EvidenceHash right).

(** The [continue] condition of the loop in [correlateGasFreeFee], negated. *)
Definition is_fee_of (payment : TransferEvent) (route : PaymentRoute) (collectors : list string)
    (wantIndex : string) (fee : TransferEvent) : bool :=
  negb ((te_Kind fee != "gasfree_fee") || negb (bool_decide (te_Status fee = TransferFinalized))
        || (te_Confirmations fee <? pr_RequiredFinality route)
        || (te_ParserVersion fee != te_ParserVersion payment)
        || (ei_EventIndex (te_Identity fee) != wantIndex)
        || (ei_ChainID (te_Identity fee) != ei_ChainID (te_Identity payment))
        || (ei_AssetID (te_Identity fee) != ei_AssetID (te_Identity payment))
        || (te_FromAddress fee != te_FromAddress payment)
        || (te_BlockHash fee != te_BlockHash payment)
        || negb (te_OnChainTime fee =? te_OnChainTime payment)
        || negb (existsb_str (ei_ToAddress (te_Identity fee)) collectors)
        || (te_EvidenceHash fee != te_EvidenceHash payment)).

Fixpoint find_only (p : TransferEvent -> bool) (found : option TransferEvent)
    (siblings : list TransferEvent) : option TransferEvent :=
  match siblings with
  | [] => found
  | fee :: rest =>
      if negb (p fee) then find_only p found rest
      else match found with Some _ => None | None => find_only p (Some fee) rest end
  end.

Definition correlateGasFreeFee (payment : TransferEvent) (siblings : list TransferEvent)
    (route : PaymentRoute) (collectors : list string) (policy : AutomatedMatchingPolicy)
    : option TransferEvent :=
  if negb (amp_GasFreeEnabled policy) || negb (HasPrefix (pr_ChainID route) "tron:")
     || (te_ParserVersion payment != "tron-v1")
     || negb (HasPrefix (ei_EventIndex (te_Identity payment)) "transfer:")
  then None
  else let wantIndex := "gasfree-fee:" +:+ TrimPrefix (ei_EventIndex (te_Identity payment)) "transfer:" in
       find_only (is_fee_of payment route collectors wantIndex) None siblings.

Definition amountWithinUnderpaymentTolerance (received expected : Amount) (bps : Z) : bool :=
  if (bps =? 0) || (Cmp received expected >=? 0) then false
  else match Sub expected received with
       | Err _ => false
       | Ok shortfall => within_bps shortfall expected bps
       end.

(** The setters that the code writes as assignments to fields. *)
Definition set_ma_Credited (a : MatchAllocation) (v : Amount) : MatchAllocation :=
  mkAllocation (ma_EventID a) (ma_Role a) (ma_MatchKind a) (ma_Received a) (ma_Effective a) v
    (ma_TransactionID a) (ma_EventIndex a) (ma_Sender a) (ma_OnChainTime a) (ma_BlockHeight a)
    (ma_BlockHash a) (ma_ParserVersion a) (ma_EvidenceHash a) (ma_GasFreePaymentID a).

(** The loop of [allocateCredit] over the allocations with [remaining] credit. *)
Fixpoint allocate_loop (remaining : Amount) (allocations : list MatchAllocation)
    : list MatchAllocation :=
  match allocations with
  | [] => []
  | allocation :: rest =>
      if IsZero remaining then set_ma_Credited allocation Zero :: allocate_loop remaining rest
      else if Cmp (ma_Effective allocation) remaining <=? 0
      then set_ma_Credited allocation (ma_Effective allocation)
             :: allocate_loop (sub_or_zero remaining (ma_Effective allocation)) rest
      else set_ma_Credited allocation remaining :: allocate_loop Zero rest
  end.

Definition with_allocations (d : AutomatedMatchDecision) (l : list MatchAllocation) :=
  mkDecision (ad_Outcome d) (ad_Class d) (ad_PolicyID d) (ad_PolicyVersion d) (ad_Expected d)
    (ad_Received d) (ad_Credited d) (ad_TreasuryReceived d) (ad_GasFreeFees d) (ad_ReasonCodes d)
    l (ad_EvidenceHash d).

Definition allocateCredit (d : AutomatedMatchDecision) : AutomatedMatchDecision :=
  with_allocations d (allocate_loop (ad_Credited d) (ad_Allocations d)).

(** The struct whose JSON is hashed by [sealAutomatedDecision]. *)
Record evidence := mkEvidence {
  ev_Outcome : AutomatedMatchOutcome; ev_Class : ExceptionClass; ev_PolicyID : string;
  ev_PolicyVersion : Z; ev_Expected : string; ev_Received : string; ev_Credited : string;
  ev_Reasons : list string; ev_Allocations : list MatchAllocation }.

(** The comparison of the sort: on-chain time, then event identifier. *)
Definition event_less (i j : TransferEvent) : bool :=
  if te_OnChainTime i =? te_OnChainTime j then str_less (te_ID i) (te_ID j)
  else Before (te_OnChainTime i) (te_OnChainTime j).

Definition payment_allocation (event : TransferEvent) (kind : string) : MatchAllocation :=
  mkAllocation (te_ID event) "payment" kind (te_Amount event) (te_Amount event) (te_Amount event)
    (ei_TransactionID (te_Identity event)) (ei_EventIndex (te_Identity event))
    (te_FromAddress event) (te_OnChainTime event) (te_BlockHeight event) (te_BlockHash event)
    (te_ParserVersion event) (te_EvidenceHash event) "".

Definition fee_allocation (fee : TransferEvent) (paymentID : string) : MatchAllocation :=
  mkAllocation (te_ID fee) "gasfree_fee" "gasfree_policy" (te_Amount fee) Zero Zero
    (ei_TransactionID (te_Identity fee)) (ei_EventIndex (te_Identity fee))
    (te_FromAddress fee) (te_OnChainTime fee) (te_BlockHeight fee) (te_BlockHash fee)
    (te_ParserVersion fee) (te_EvidenceHash fee) paymentID.

(** The local variables of the main loop. *)
Record reducer := mkReducer {
  rd_Received : Amount; rd_TreasuryReceived : Amount; rd_GasFreeFees : Amount;
  rd_Allocations : list MatchAllocation; rd_used : list string; rd_sender : string;
  rd_anyLate : bool; rd_lateOutside : bool }.

(** An iteration of the loop goes on, or the function returns. *)
Inductive iteration := Continue (st : reducer) | ReviewNow (st : reducer) (reason : string).

(** The second [continue] condition, negated: what the reducer counts. *)
Definition eligible (route : PaymentRoute) (event : TransferEvent) : bool :=
  negb (negb (bool_decide (te_Status event = TransferFinalized))
        || (te_Confirmations event <? pr_RequiredFinality route)
        || (ei_ChainID (te_Identity event) != pr_ChainID route)
        || (ei_AssetID (te_Identity event) != pr_AssetID route)
        || (ei_ToAddress (te_Identity event) != pr_Address route)
        || Before (te_OnChainTime event) (pr_StartsAt route)
        || After (te_OnChainTime event) (pr_GraceEndsAt route)).

Section reducer_steps.
Context (route : PaymentRoute) (policy : AutomatedMatchingPolicy) (all : list TransferEvent).

(** [byTx[event.Identity.TransactionID]] *)
Definition siblings_of (event : TransferEvent) : list TransferEvent :=
  List.filter (fun e => ei_TransactionID (te_Identity e) == ei_TransactionID (te_Identity event)) all.

(** One iteration of the main loop of [EvaluateAutomatedMatch]. *)
Definition reduce_step (st : reducer) (event : TransferEvent) : result error iteration :=
  if (te_Kind event == "gasfree_fee") || existsb_str (te_ID event) (rd_used st) then Ok (Continue st)
  else if negb (eligible route event) then Ok (Continue st)
  else if amp_RequireSameSender policy && (rd_sender st != "") && (rd_sender st != te_FromAddress event)
  then Ok (ReviewNow st "multiple_senders_require_manual_review")
  else
    let sender := if rd_sender st == "" then te_FromAddress event else rd_sender st in
    let late := After (te_OnChainTime event) (pr_ExpiresAt route) in
    let anyLate := rd_anyLate st || late in
    let outside := rd_lateOutside st
                   || (late && After (te_OnChainTime event) (automaticLatePaymentDeadline route)) in
    match Add (rd_Received st) (te_Amount event) with
    | Err _ => Err (Wrapped ErrInvariantViolation "payment aggregate overflow")
    | Ok received =>
        match Add (rd_TreasuryReceived st) (te_Amount event) with
        | Err _ => Err (Wrapped ErrInvariantViolation "treasury aggregate overflow")
        | Ok treasury =>
            if te_Kind event == "gasfree_permit_transfer" then
              match correlateGasFreeFee event (siblings_of event) route
                      (amp_GasFreeFeeCollectors policy) policy with
              | None =>
                  Ok (ReviewNow (mkReducer received treasury (rd_GasFreeFees st) (rd_Allocations st)
                                   (rd_used st) sender anyLate outside)
                        "gasfree_sibling_missing_or_untrusted")
              | Some fee =>
                  match Add (rd_GasFreeFees st) (te_Amount fee) with
                  | Err _ => Err (Wrapped ErrInvariantViolation "gas-free fee aggregate overflow")
                  | Ok fees =>
                      Ok (Continue (mkReducer received treasury fees
                            (rd_Allocations st ++ [payment_allocation event "gasfree_policy";
                                                   fee_allocation fee (te_ID event)])
                            (te_ID fee :: rd_used st) sender anyLate outside))
                  end
              end
            else
              Ok (Continue (mkReducer received treasury (rd_GasFreeFees st)
                    (rd_Allocations st ++ [payment_allocation event "partial"])
                    (rd_used st) sender anyLate outside))
        end
    end.

Fixpoint reduce_loop (st : reducer) (events : list TransferEvent) : result error iteration :=
  match events with
  | [] => Ok (Continue st)
  | event :: rest =>
      match reduce_step st event with
      | Err e => Err e
      | Ok (ReviewNow st' reason) => Ok (ReviewNow st' reason)
      | Ok (Continue st') => reduce_loop st' rest
      end
  end.
End reducer_steps.

Section evaluate.
(** [sha256.Sum256] and [json.Marshal] of the evidence struct. *)
Context (sha256 : string -> string) (marshal : evidence -> string).

(** The loop that drops repeated identities; [identities] is the map. *)
Fixpoint canonical_loop (identities : gmap string TransferEvent) (sorted : list TransferEvent)
    : result error (list TransferEvent) :=
  match sorted with
  | [] => Ok []
  | event :: rest =>
      match IdentityKey sha256 (te_Identity event) with
      | Err _ => Err (Wrapped ErrValidation "invalid transfer identity")
      | Ok key =>
          match identities !! key with
          | Some existing =>
              if negb (sameCanonicalTransfer existing event)
              then Err (Wrapped ErrInvariantViolation "duplicate transfer identity has conflicting facts")
              else canonical_loop identities rest
          | None => tail ← canonical_loop (<[key := event]> identities) rest; Ok (event :: tail)
          end
      end
  end.

Definition sealAutomatedDecision (d : AutomatedMatchDecision) : AutomatedMatchDecision :=
  let body := marshal (mkEvidence (ad_Outcome d) (ad_Class d) (ad_PolicyID d) (ad_PolicyVersion d)
                         (AmountString (ad_Expected d)) (AmountString (ad_Received d))
                         (AmountString (ad_Credited d)) (ad_ReasonCodes d) (ad_Allocations d)) in
  mkDecision (ad_Outcome d) (ad_Class d) (ad_PolicyID d) (ad_PolicyVersion d) (ad_Expected d)
    (ad_Received d) (ad_Credited d) (ad_TreasuryReceived d) (ad_GasFreeFees d) (ad_ReasonCodes d)
    (ad_Allocations d) (hex_encode (sha256 body)).

(** The decision with the accumulated totals. *)
Definition decision_of (route : PaymentRoute) (policy : AutomatedMatchingPolicy) (st : reducer)
    (outcome : AutomatedMatchOutcome) (class : ExceptionClass) (credited : Amount)
    (reasons : list string) : AutomatedMatchDecision :=
  mkDecision outcome class (amp_ID policy) (amp_Version policy) (pr_ExpectedAmount route)
    (rd_Received st) credited (rd_TreasuryReceived st) (rd_GasFreeFees st) reasons
    (rd_Allocations st) "".

(** The part of the function after the loop. *)
Definition decide_match (route : PaymentRoute) (policy : AutomatedMatchingPolicy) (now : Time)
    (st : reducer) : AutomatedMatchDecision :=
  let mk := decision_of route policy st in
  let expected := pr_ExpectedAmount route in
  let received := rd_Received st in
  let settle class credited reason :=
    let d := allocateCredit (mk AutomatedSettle class credited [reason]) in
    sealAutomatedDecision
      (if rd_anyLate st
       then mkDecision (ad_Outcome d) ExceptionLate (ad_PolicyID d) (ad_PolicyVersion d)
              (ad_Expected d) (ad_Received d) (ad_Credited d) (ad_TreasuryReceived d)
              (ad_GasFreeFees d) (ad_ReasonCodes d ++ ["late_within_automatic_30_minute_grace"])
              (ad_Allocations d) (ad_EvidenceHash d)
       else d) in
  let review class reason := sealAutomatedDecision (mk AutomatedReview class Zero [reason]) in
  match rd_Allocations st with
  | [] => review ExceptionUnmatched "no_eligible_finalized_transfers"
  | _ =>
      if rd_anyLate st && rd_lateOutside st
      then review ExceptionLate "late_payment_outside_automatic_30_minute_grace"
      else
        let cmp := Cmp received expected in
        if cmp <? 0 then
          if amountWithinUnderpaymentTolerance received expected (amp_UnderpaymentToleranceBPS policy)
          then settle ExceptionUnderpaid received "underpayment_within_versioned_tolerance"
          else if amp_AccumulatePartials policy && Before now (automaticLatePaymentDeadline route)
          then sealAutomatedDecision (mk AutomatedCollect ExceptionPartial received
                 ["canonical_partial_total"; "collection_window_open"])
          else review ExceptionUnderpaid "underpayment_outside_policy_tolerance"
        else if cmp =? 0 then settle ExceptionExact expected "aggregate_exact_amount"
        else if amp_OverpaymentMode policy == OverpaymentCreditAll
        then settle ExceptionOverpaid received "overpayment_credit_all_policy"
        else if amp_OverpaymentMode policy == OverpaymentCreditExpected
        then settle ExceptionOverpaid expected "overpayment_credit_expected_hold_excess"
        else review ExceptionOverpaid "overpayment_requires_manual_review"
  end.

Definition EvaluateAutomatedMatch (route : PaymentRoute) (events : list TransferEvent) (now : Time)
    (policy : AutomatedMatchingPolicy) : result error AutomatedMatchDecision :=
  _ ← ValidateAutomatedPolicy policy;
  if (pr_ID route == "") || (pr_IntentID route == "") || IsZero (pr_ExpectedAmount route)
     || IsZeroTime (pr_StartsAt route) || IsZeroTime (pr_ExpiresAt route)
     || Before (pr_GraceEndsAt route) (pr_ExpiresAt route)
  then Err (Wrapped ErrValidation "invalid matching route")
  else
    sorted ← canonical_loop ∅ (sort_by event_less events);
    result ← reduce_loop route policy sorted (mkReducer Zero Zero Zero [] [] "" false false) sorted;
    match result with
    | ReviewNow st reason =>
        Ok (sealAutomatedDecision
              (decision_of route policy st AutomatedReview ExceptionUnmatched Zero [reason]))
    | Continue st => Ok (decide_match route policy now st)
    end.
End evaluate.

(** ** The order of the events does not matter *)

Lemma event_less_iff x y :
  event_less x y = true <->
  te_OnChainTime x < te_OnChainTime y \/
  (te_OnChainTime x = te_OnChainTime y /\ str_less (te_ID x) (te_ID y) = true).
Proof.
  unfold event_less, Before. destruct (te_OnChainTime x =? te_OnChainTime y) eqn:E; bool_hyp.
  - rewrite E. intuition lia.
  - rewrite Z.ltb_lt. intuition lia.
Qed.

Lemma event_less_asym x y : event_less x y = true -> event_less y x = false.
Proof.
  intros H. apply not_true_iff_false. rewrite event_less_iff in *.
  intros H2. destruct H as [?|[? Hs]], H2 as [?|[? Hs2]]; try lia.
  apply str_less_asym in Hs. congruence.
Qed.

Lemma event_less_cotrans x y z :
  event_less x z = true -> event_less x y = true \/ event_less y z = true.
Proof.
  rewrite !event_less_iff. intros H.
  destruct (Z.lt_trichotomy (te_OnChainTime x) (te_OnChainTime y)) as [?|[?|?]];
    [left; lia| |right; intuition lia].
  destruct H as [?|[? Hs]]; [right; intuition lia|].
  apply (str_less_cotrans _ (te_ID y)) in Hs as [?|?]; [left|right]; intuition lia.
Qed.

Lemma events_sorted l : StronglySorted (not_after event_less) (sort_by event_less l).
Proof. apply sort_by_sorted; [exact event_less_asym|exact event_less_cotrans]. Qed.

Lemma sort_events_perm l l' :
  (forall x y, x ∈ l -> y ∈ l -> te_OnChainTime x = te_OnChainTime y -> te_ID x = te_ID y -> x = y) ->
  Permutation l l' -> sort_by event_less l = sort_by event_less l'.
Proof.
  intros Hid Hp. apply (sorted_unique event_less).
  - intros x y Hx Hy. rewrite sort_by_In, <- list_elem_of_In in Hx, Hy.
    rewrite !event_less_iff.
    destruct (Z.lt_trichotomy (te_OnChainTime x) (te_OnChainTime y)) as [?|[?|?]]; auto.
    destruct (str_less_total (te_ID x) (te_ID y)) as [?|[?|?]]; auto 6.
  - apply events_sorted.
  - apply events_sorted.
  - by rewrite <- !sort_by_perm.
Qed.

(** The reducer is deterministic in the set of transfers: when events with
    the same time and identifier are the same event, any order in which the
    store returns them gives the same decision, evidence hash included, or the
    same error. *)
Theorem EvaluateAutomatedMatch_order_independent sha256 marshal route events events' now policy :
  (forall x y, x ∈ events -> y ∈ events ->
     te_OnChainTime x = te_OnChainTime y -> te_ID x = te_ID y -> x = y) ->
  Permutation events events' ->
  EvaluateAutomatedMatch sha256 marshal route events now policy =
  EvaluateAutomatedMatch sha256 marshal route events' now policy.
Proof.
  intros Hid Hp. unfold EvaluateAutomatedMatch. by rewrite (sort_events_perm events events').
Qed.

(** ** Accounting *)

(** A transfer that the reducer counts as a payment of the route. *)
Definition counts (route : PaymentRoute) (e : TransferEvent) : bool :=
  (te_Kind e != "gasfree_fee") && eligible route e.

Definition allocation_ok (a : MatchAllocation) : Prop :=
  0 <= ma_Credited a <= ma_Effective a /\ ma_Effective a <= ma_Received a.

Definition payments (l : list MatchAllocation) : list MatchAllocation :=
  List.filter (fun a => ma_Role a == "payment") l.

Definition too_late (route : PaymentRoute) (e : TransferEvent) : bool :=
  After (te_OnChainTime e) (pr_ExpiresAt route)
  && After (te_OnChainTime e) (automaticLatePaymentDeadline route).

Section accounting.
Context (route : PaymentRoute) (policy : AutomatedMatchingPolicy) (all : list TransferEvent).
Hypothesis amounts_valid : forall e, e ∈ all -> valid_amount (te_Amount e).
Hypothesis fee_ids : forall e f, e ∈ all -> f ∈ all ->
  te_Kind f = "gasfree_fee" -> te_ID e = te_ID f -> te_Kind e = "gasfree_fee".

(** The state of the loop after counting the transfers [facts]. *)
Record reducer_inv (st : reducer) (facts : list TransferEvent) : Prop := {
  inv_received : rd_Received st = sumZ (te_Amount <$> facts);
  inv_valid : valid_amount (rd_Received st);
  inv_treasury : rd_TreasuryReceived st = rd_Received st;
  inv_fees : valid_amount (rd_GasFreeFees st);
  inv_effective : sumZ (ma_Effective <$> rd_Allocations st) = rd_Received st;
  inv_credited : ma_Credited <$> rd_Allocations st = ma_Effective <$> rd_Allocations st;
  inv_alloc : Forall allocation_ok (rd_Allocations st);
  inv_ids : ma_EventID <$> payments (rd_Allocations st) = te_ID <$> facts;
  inv_used : forall id, In id (rd_used st) -> exists f, f ∈ all /\ te_Kind f = "gasfree_fee" /\ te_ID f = id;
  inv_late : rd_anyLate st = existsb (fun e => After (te_OnChainTime e) (pr_ExpiresAt route)) facts;
  inv_outside : rd_lateOutside st = existsb (too_late route) facts;
  inv_sender : amp_RequireSameSender policy = true ->
    forall e, e ∈ facts -> te_FromAddress e = "" \/ te_FromAddress e = rd_sender st }.

Lemma find_only_sound p l : forall found f,
  find_only p found l = Some f -> (found = Some f \/ (f ∈ l /\ p f = true)).
Proof.
  induction l as [|x l IH]; intros found f H; simpl in H; [by left|].
  destruct (p x) eqn:E; simpl in H.
  - destruct found; [done|]. destruct (IH _ _ H) as [[= <-]|[? ?]]; right;
      (split; [|done]); [left|by right].
  - destruct (IH _ _ H) as [?|[? ?]]; [by left|right]. split; [by right|done].
Qed.

Lemma correlateGasFreeFee_sound event collectors fee :
  correlateGasFreeFee event (siblings_of all event) route collectors policy = Some fee ->
  fee ∈ all /\ te_Kind fee = "gasfree_fee".
Proof.
  unfold correlateGasFreeFee. intros H. step_in H.
  apply find_only_sound in H as [?|[Hin Hp]]; [done|].
  unfold siblings_of in Hin. apply list_elem_of_In, filter_In in Hin as [Hin _].
  split; [by apply list_elem_of_In|]. unfold is_fee_of in Hp. bool_hyp. done.
Qed.

Lemma sumZ_fmap_snoc {A} (f : A -> Z) l x : sumZ (f <$> (l ++ [x])) = sumZ (f <$> l) + f x.
Proof. rewrite fmap_app, sumZ_app, fmap_cons, fmap_nil. cbn [sumZ]. lia. Qed.

Lemma payments_app l l' : payments (l ++ l') = payments l ++ payments l'.
Proof. apply List.filter_app. Qed.

(** A counted transfer extends the facts; its allocation is the last. *)
Lemma reducer_inv_extend st facts e kind fees extra used :
  reducer_inv st facts -> e ∈ all -> valid_amount (rd_Received st + te_Amount e) ->
  valid_amount fees -> (extra = [] \/ exists f p, extra = [fee_allocation f p] /\ valid_amount (te_Amount f)) ->
  (forall id, In id used -> exists f, f ∈ all /\ te_Kind f = "gasfree_fee" /\ te_ID f = id) ->
  (amp_RequireSameSender policy && (rd_sender st != "") && (rd_sender st != te_FromAddress e)) = false ->
  reducer_inv
    (mkReducer (rd_Received st + te_Amount e) (rd_Received st + te_Amount e) fees
       (rd_Allocations st ++ payment_allocation e kind :: extra) used
       (if rd_sender st == "" then te_FromAddress e else rd_sender st)
       (rd_anyLate st || After (te_OnChainTime e) (pr_ExpiresAt route))
       (rd_lateOutside st || too_late route e))
    (facts ++ [e]).
Proof.
  intros [] He Hv Hf Hx Hu Hs.
  assert (Hva := amounts_valid e He). unfold valid_amount in Hva.
  constructor; simpl; try done.
  - rewrite sumZ_fmap_snoc. lia.
  - rewrite fmap_app, sumZ_app, fmap_cons.
    destruct Hx as [->|(f & p & -> & _)]; rewrite ?fmap_cons, fmap_nil;
      cbn [sumZ ma_Effective payment_allocation fee_allocation]; unfold Zero; lia.
  - rewrite !fmap_app, inv_credited0. f_equal.
    destruct Hx as [->|(f & p & -> & _)]; done.
  - apply Forall_app. split; [done|]. constructor; [unfold allocation_ok; simpl; lia|].
    destruct Hx as [->|(f & p & -> & Hvf)]; [done|]. constructor; [|done].
    unfold allocation_ok, fee_allocation, valid_amount, Zero in *. simpl. lia.
  - rewrite payments_app, !fmap_app, inv_ids0. f_equal.
    destruct Hx as [->|(f & p & -> & _)]; done.
  - rewrite existsb_app, inv_late0. simpl. by rewrite orb_false_r.
  - rewrite existsb_app, inv_outside0. simpl. by rewrite orb_false_r.
  - intros Hsame x. rewrite Hsame in Hs. simpl in Hs. specialize (inv_sender0 Hsame).
    rewrite elem_of_app, list_elem_of_singleton.
    destruct (rd_sender st == "") eqn:E; simpl in Hs; bool_hyp.
    + intros [Hin| ->]; [|by right]. rewrite E in inv_sender0. left.
      by destruct (inv_sender0 x Hin).
    + intros [Hin| ->]; [auto|by right].
Qed.

Lemma reduce_step_inv st facts e st' :
  reducer_inv st facts -> e ∈ all -> reduce_step route policy all st e = Ok (Continue st') ->
  reducer_inv st' (if counts route e then facts ++ [e] else facts).
Proof.
  intros Hinv He H. unfold reduce_step in H. unfold counts.
  assert (Hva := amounts_valid e He).
  assert (Hused : te_Kind e <> "gasfree_fee" -> existsb_str (te_ID e) (rd_used st) = false).
  { intros Hk. apply not_true_iff_false. rewrite existsb_str_In. intros Hin.
    apply (inv_used st facts Hinv) in Hin as (f & Hf & Hfk & Hid). by apply Hk, (fee_ids e f). }
  destruct (te_Kind e == "gasfree_fee") eqn:Ek; simpl in H |- *; [by injection H as <-|].
  bool_hyp. rewrite (Hused Ek) in H.
  destruct (eligible route e); simpl in H; [|by injection H as <-].
  destruct (amp_RequireSameSender policy && _ && _) eqn:Es; [done|].
  rewrite (inv_treasury st facts Hinv) in H.
  destruct (Add (rd_Received st) (te_Amount e)) as [received|] eqn:Ea; [|done].
  pose proof (Add_valid _ _ _ (inv_valid st facts Hinv) Hva Ea) as Hvr.
  apply Add_spec in Ea as [-> _]; [|exact (inv_valid st facts Hinv)|done].
  pose proof (fun kind fees extra used Hf Hx Hu =>
    reducer_inv_extend st facts e kind fees extra used Hinv He Hvr Hf Hx Hu Es) as Hext.
  unfold too_late in Hext.
  destruct (te_Kind e == "gasfree_permit_transfer").
  - destruct (correlateGasFreeFee _ _ _ _ _) as [fee|] eqn:Ec; [|done].
    apply correlateGasFreeFee_sound in Ec as [Hfin Hfk].
    assert (Hvf := amounts_valid fee Hfin).
    destruct (Add (rd_GasFreeFees st) (te_Amount fee)) as [fees|] eqn:Ef; [|done].
    pose proof (Add_valid _ _ _ (inv_fees st facts Hinv) Hvf Ef) as Hvfees.
    injection H as <-. apply Hext; [done|right; eauto|].
    intros id [<-|Hid]; [eauto|by apply (inv_used st facts Hinv)].
  - injection H as <-. apply Hext; [exact (inv_fees st facts Hinv)|by left|
      exact (inv_used st facts Hinv)].
Qed.

Lemma reduce_loop_inv events : forall st facts st',
  (forall e, e ∈ events -> e ∈ all) -> reducer_inv st facts ->
  reduce_loop route policy all st events = Ok (Continue st') ->
  reducer_inv st' (facts ++ List.filter (counts route) events).
Proof.
  induction events as [|e events IH]; intros st facts st' Hall Hinv H; simpl in H.
  - injection H as <-. simpl. by rewrite app_nil_r.
  - destruct (reduce_step _ _ _ st e) as [[st1|st1 reason]|] eqn:E; [|done..].
    assert (He : e ∈ all) by (apply Hall; left).
    apply (reduce_step_inv _ _ _ _ Hinv He) in E.
    apply (IH _ _ _ (fun x Hx => Hall x (list_elem_of_further _ _ _ Hx)) E) in H. simpl.
    destruct (counts route e); [by rewrite <- app_assoc in H|done].
Qed.

(** The loop goes through when the payments are plain transfers of one sender
    whose total fits an amount. *)
Lemma reduce_loop_succeeds sender events : forall st facts,
  (forall e, e ∈ events -> e ∈ all) -> reducer_inv st facts ->
  (forall e, e ∈ events -> counts route e = true ->
     te_Kind e <> "gasfree_permit_transfer" /\ te_FromAddress e = sender) ->
  (rd_sender st = "" \/ rd_sender st = sender) ->
  rd_Received st + sumZ (te_Amount <$> List.filter (counts route) events) < amount_limit ->
  exists st', reduce_loop route policy all st events = Ok (Continue st').
Proof.
  induction events as [|e events IH]; intros st facts Hall Hinv Hplain Hsend Hsum; [by eexists|].
  assert (He : e ∈ all) by (apply Hall; left).
  assert (Hstep : exists st1, reduce_step route policy all st e = Ok (Continue st1) /\
    (rd_sender st1 = "" \/ rd_sender st1 = sender)).
  { unfold reduce_step. destruct ((te_Kind e == "gasfree_fee") || _) eqn:Ek; [by eexists|].
    destruct (eligible route e) eqn:Ee; simpl; [|by eexists]. bool_hyp.
    assert (Hc : counts route e = true).
    { unfold counts. rewrite Ee, andb_true_r. by apply negb_true_iff, String.eqb_neq. }
    destruct (Hplain e) as [Hk Hs]; [left|done|]. rewrite Hs.
    assert (amp_RequireSameSender policy && (rd_sender st != "") && (rd_sender st != sender) = false) as ->.
    { destruct Hsend as [-> | ->]; rewrite String.eqb_refl, ?andb_false_r; done. }
    rewrite (inv_treasury _ _ Hinv).
    simpl in Hsum. rewrite Hc, fmap_cons in Hsum. cbn [sumZ] in Hsum.
    assert (0 <= sumZ (te_Amount <$> List.filter (counts route) events)).
    { apply sumZ_nonneg, Forall_fmap, Forall_forall. intros x Hx.
      apply list_elem_of_In, filter_In in Hx as [Hx _].
      destruct (amounts_valid x); [apply Hall; right; by apply list_elem_of_In|done]. }
    assert (Add (rd_Received st) (te_Amount e) = Ok (rd_Received st + te_Amount e)) as ->.
    { apply Add_spec; [exact (inv_valid _ _ Hinv)|by apply amounts_valid|]. split; [done|lia]. }
    apply String.eqb_neq in Hk. rewrite Hk. eexists. split; [done|]. simpl.
    destruct (rd_sender st == "") eqn:Es; bool_hyp; [by right|]. by destruct Hsend; [|right]. }
  destruct Hstep as (st1 & Hst1 & Hsend1). simpl. rewrite Hst1.
  pose proof (reduce_step_inv _ _ _ _ Hinv He Hst1) as Hinv1.
  apply (IH st1 _ (fun x Hx => Hall x (list_elem_of_further _ _ _ Hx)) Hinv1); [|done|].
  - intros x Hx. apply Hplain. by right.
  - simpl in Hsum. rewrite (inv_received _ _ Hinv1). rewrite (inv_received _ _ Hinv) in Hsum.
    destruct (counts route e); [|done].
    rewrite sumZ_fmap_snoc. rewrite fmap_cons in Hsum. cbn [sumZ] in Hsum. lia.
Qed.

Lemma reducer_inv_init : reducer_inv (mkReducer Zero Zero Zero [] [] "" false false) [].
Proof.
  assert (valid_amount Zero) by done.
  constructor; try done; intros; by match goal with H : _ ∈ [] |- _ => apply elem_of_nil in H end.
Qed.
End accounting.

(** *** Duplicates *)

Section duplicates.
Context (sha256 : string -> string).

Lemma canonical_loop_sublist sorted : forall ids l,
  canonical_loop sha256 ids sorted = Ok l -> sublist l sorted.
Proof.
  induction sorted as [|e sorted IH]; intros ids l H; simpl in H; [by injection H as <-|].
  destruct (IdentityKey _ _) as [key|]; [|done].
  destruct (ids !! key) as [x|].
  - destruct (negb _); [done|]. apply sublist_cons. by eapply IH.
  - destruct (canonical_loop _ _ sorted) as [t|] eqn:E; [|done]. injection H as <-.
    apply sublist_skip. by eapply IH.
Qed.

Definition keyed (ids : gmap string TransferEvent) : Prop :=
  forall k e, ids !! k = Some e -> IdentityKey sha256 (te_Identity e) = Ok k.

Lemma keyed_insert ids k e :
  keyed ids -> IdentityKey sha256 (te_Identity e) = Ok k -> keyed (<[k := e]> ids).
Proof.
  intros Hk He k' e'. destruct (decide (k = k')) as [<-|Hne].
  - rewrite lookup_insert_eq. by intros [= <-].
  - rewrite lookup_insert_ne by done. apply Hk.
Qed.

Lemma keyed_empty : keyed ∅.
Proof. intros k e. by rewrite lookup_empty. Qed.

(** The kept events have distinct keys, fresh for the map. *)
Lemma canonical_loop_keys sorted : forall ids l,
  canonical_loop sha256 ids sorted = Ok l ->
  NoDup ((fun e => IdentityKey sha256 (te_Identity e)) <$> l) /\
  forall e k, e ∈ l -> IdentityKey sha256 (te_Identity e) = Ok k -> ids !! k = None.
Proof.
  induction sorted as [|e sorted IH]; intros ids l H; simpl in H.
  { injection H as <-. split; [constructor|]. intros e k He. by apply elem_of_nil in He. }
  destruct (IdentityKey _ _) as [key|] eqn:Ek; [|done].
  destruct (ids !! key) as [x|] eqn:El.
  - destruct (negb _); [done|]. by apply IH.
  - destruct (canonical_loop _ _ sorted) as [t|] eqn:E; [|done]. injection H as <-.
    apply IH in E as [Hnd Hfresh]. split.
    + rewrite fmap_cons. constructor; [|done]. rewrite Ek.
      intros (e' & He' & Hin)%list_elem_of_fmap. specialize (Hfresh e' key Hin (eq_sym He')).
      by rewrite lookup_insert_eq in Hfresh.
    + intros e' k [->|Hin]%elem_of_cons Hk; [congruence|].
      specialize (Hfresh e' k Hin Hk). destruct (decide (key = k)) as [<-|Hne]; [done|].
      by rewrite lookup_insert_ne in Hfresh.
Qed.

(** Every event is kept or repeats the facts of a kept one. *)
Lemma canonical_loop_covers sorted : forall ids l,
  keyed ids -> canonical_loop sha256 ids sorted = Ok l ->
  forall e, e ∈ sorted -> exists f, (f ∈ l \/ exists k, ids !! k = Some f) /\
    IdentityKey sha256 (te_Identity f) = IdentityKey sha256 (te_Identity e) /\
    (f = e \/ sameCanonicalTransfer f e = true).
Proof.
  induction sorted as [|e sorted IH]; intros ids l Hk H x Hx; simpl in H; [by apply elem_of_nil in Hx|].
  destruct (IdentityKey _ (te_Identity e)) as [key|] eqn:Ek; [|done].
  destruct (ids !! key) as [y|] eqn:El.
  - destruct (negb _) eqn:Es; [done|]. bool_hyp.
    apply elem_of_cons in Hx as [->|Hx]; [|by apply (IH ids)].
    exists y. split; [eauto|]. split; [|by right]. rewrite Ek. by apply Hk.
  - destruct (canonical_loop _ _ sorted) as [t|] eqn:E; [|done]. injection H as <-.
    apply elem_of_cons in Hx as [->|Hx].
    { exists e. split; [left; left|auto]. }
    destruct (IH _ _ (keyed_insert ids key e Hk Ek) E x Hx) as (f & Hf & Hkey & Hsame).
    exists f. split; [|done]. destruct Hf as [Hf|(k & Hf)]; [left; by right|].
    destruct (decide (key = k)) as [<-|Hne].
    + rewrite lookup_insert_eq in Hf. injection Hf as <-. left; left.
    + rewrite lookup_insert_ne in Hf by done. eauto.
Qed.
End duplicates.

(** *** Distribution of the credit *)

Lemma allocate_loop_spec l : forall remaining,
  0 <= remaining <= sumZ (ma_Effective <$> l) ->
  Forall allocation_ok l ->
  sumZ (ma_Credited <$> allocate_loop remaining l) = remaining /\
  Forall allocation_ok (allocate_loop remaining l) /\
  ma_EventID <$> payments (allocate_loop remaining l) = ma_EventID <$> payments l.
Proof.
  induction l as [|a l IH]; intros r Hr Hok; [simpl in Hr |- *; split; [lia|done]|].
  apply Forall_cons in Hok as [Ha Hok]. unfold allocation_ok in Ha.
  rewrite fmap_cons in Hr. cbn [sumZ] in Hr.
  assert (Hnn : 0 <= sumZ (ma_Effective <$> l)).
  { apply sumZ_nonneg, Forall_fmap. eapply Forall_impl; [exact Hok|].
    intros x Hx. unfold allocation_ok in Hx. simpl. lia. }
  assert (Hhead : forall v rest, 0 <= v <= ma_Effective a ->
    sumZ (ma_Credited <$> rest) = r - v -> Forall allocation_ok rest ->
    ma_EventID <$> payments rest = ma_EventID <$> payments l ->
    sumZ (ma_Credited <$> (set_ma_Credited a v :: rest)) = r /\
    Forall allocation_ok (set_ma_Credited a v :: rest) /\
    ma_EventID <$> payments (set_ma_Credited a v :: rest) = ma_EventID <$> payments (a :: l)).
  { intros v rest Hv Hs Hf Hp. rewrite fmap_cons. cbn [sumZ ma_Credited set_ma_Credited].
    split; [lia|]. split; [constructor; [unfold allocation_ok; simpl; lia|done]|].
    unfold payments in *. simpl. destruct (ma_Role a == "payment"); [|done].
    by rewrite !fmap_cons, Hp. }
  simpl. unfold IsZero, Zero. rewrite Cmp_le.
  destruct (r =? 0) eqn:E0; bool_hyp; [|destruct (ma_Effective a <=? r) eqn:E1; bool_hyp].
  - destruct (IH r ltac:(lia) Hok) as (? & ? & ?). apply Hhead; [lia|lia|done|done].
  - unfold sub_or_zero. rewrite Sub_ok by lia.
    destruct (IH (r - ma_Effective a) ltac:(lia) Hok) as (? & ? & ?). apply Hhead; [lia|lia|done|done].
  - destruct (IH 0 ltac:(lia) Hok) as (? & ? & ?). apply Hhead; [lia|lia|done|done].
Qed.

Lemma amountWithinUnderpaymentTolerance_iff received expected bps :
  0 <= received -> valid_amount expected -> 0 <= bps <= 10000 ->
  amountWithinUnderpaymentTolerance received expected bps = true <->
  received < expected /\ close_below received expected bps.
Proof.
  intros Hr He Hb. unfold amountWithinUnderpaymentTolerance, close_below. rewrite Cmp_ge.
  destruct ((bps =? 0) || (expected <=? received)) eqn:E.
  { split; [done|]. apply orb_true_iff in E as [?|?]; bool_hyp; lia. }
  bool_hyp. rewrite Sub_ok by lia. rewrite within_bps_iff by (done || lia). lia.
Qed.

(** What a decision credits, by outcome. *)
Definition credit_rule (route : PaymentRoute) (policy : AutomatedMatchingPolicy) (now : Time)
    (d : AutomatedMatchDecision) : Prop :=
  let received := ad_Received d in
  let expected := pr_ExpectedAmount route in
  let bps := amp_UnderpaymentToleranceBPS policy in
  match ad_Outcome d with
  | AutomatedSettle =>
      (received = expected /\ ad_Credited d = expected) \/
      (received < expected /\ close_below received expected bps /\ ad_Credited d = received) \/
      (expected < received /\ amp_OverpaymentMode policy = OverpaymentCreditAll /\
       ad_Credited d = received) \/
      (expected < received /\ amp_OverpaymentMode policy = OverpaymentCreditExpected /\
       ad_Credited d = expected)
  | AutomatedCollect =>
      received < expected /\ ~ close_below received expected bps /\
      amp_AccumulatePartials policy = true /\ now < automaticLatePaymentDeadline route /\
      ad_Credited d = received
  | AutomatedReview => ad_Credited d = 0
  end.

Lemma decide_match_rule sha256 marshal route policy now st :
  0 <= rd_Received st -> valid_amount (pr_ExpectedAmount route) ->
  0 <= amp_UnderpaymentToleranceBPS policy <= 10000 ->
  credit_rule route policy now (decide_match sha256 marshal route policy now st).
Proof.
  intros Hr He Hb. unfold decide_match, credit_rule.
  pose proof (amountWithinUnderpaymentTolerance_iff _ _ _ Hr He Hb) as Htol.
  destruct (rd_Allocations st); [done|].
  destruct (rd_anyLate st && rd_lateOutside st); [done|].
  rewrite Cmp_lt, Cmp_eq. unfold Before.
  destruct (rd_Received st <? pr_ExpectedAmount route) eqn:E1; bool_hyp.
  - destruct (amountWithinUnderpaymentTolerance _ _ _) eqn:E2.
    + destruct (rd_anyLate st); simpl; right; left; intuition.
    + destruct (amp_AccumulatePartials policy && _) eqn:E3; simpl; [|done]. bool_hyp.
      repeat split; try done. intros Hc. assert (false = true) by intuition. done.
  - destruct (rd_Received st =? pr_ExpectedAmount route) eqn:E2; bool_hyp.
    + destruct (rd_anyLate st); simpl; by left.
    + destruct (amp_OverpaymentMode policy == OverpaymentCreditAll) eqn:E3; bool_hyp.
      { destruct (rd_anyLate st); simpl; right; right; left; repeat split; try done; lia. }
      destruct (amp_OverpaymentMode policy == OverpaymentCreditExpected) eqn:E4; bool_hyp; [|done].
      destruct (rd_anyLate st); simpl; right; right; right; repeat split; try done; lia.
Qed.

(** The decision accounts for the transfers [facts] and nothing else. *)
Record accounted (route : PaymentRoute) (events facts : list TransferEvent)
    (d : AutomatedMatchDecision) : Prop := {
  acc_each : forall e, e ∈ facts -> e ∈ events /\ counts route e = true;
  acc_once : NoDup (te_Identity <$> facts);
  acc_all : forall e, e ∈ events -> counts route e = true -> te_Identity e ∈ te_Identity <$> facts;
  acc_received : ad_Received d = sumZ (te_Amount <$> facts);
  acc_ids : ma_EventID <$> payments (ad_Allocations d) = te_ID <$> facts;
  acc_in_time : forall e, e ∈ facts -> too_late route e = false;
  acc_credit : sumZ (ma_Credited <$> ad_Allocations d) = ad_Credited d;
  acc_bounds : 0 <= ad_Credited d <= ad_Received d;
  acc_alloc : Forall allocation_ok (ad_Allocations d) }.

(** What the decision after the loop keeps of the loop's totals. *)
Lemma decide_match_accounts sha256 marshal route policy now st facts all :
  reducer_inv route policy all st facts -> valid_amount (pr_ExpectedAmount route) ->
  0 <= amp_UnderpaymentToleranceBPS policy <= 10000 ->
  let d := decide_match sha256 marshal route policy now st in
  ad_Outcome d <> AutomatedReview ->
  ad_Received d = rd_Received st /\ ma_EventID <$> payments (ad_Allocations d) = te_ID <$> facts /\
  (forall e, e ∈ facts -> too_late route e = false) /\
  sumZ (ma_Credited <$> ad_Allocations d) = ad_Credited d /\
  0 <= ad_Credited d <= ad_Received d /\ Forall allocation_ok (ad_Allocations d).
Proof.
  intros Hinv He Hb d Hout.
  pose proof (inv_valid _ _ _ _ _ Hinv) as Hv. unfold valid_amount in Hv, He.
  assert (Hrule := decide_match_rule sha256 marshal route policy now st ltac:(lia) He Hb).
  fold d in Hrule.
  assert (Hrec : ad_Received d = rd_Received st).
  { unfold d, decide_match. repeat case_match; done. }
  assert (Hcb : 0 <= ad_Credited d <= ad_Received d).
  { unfold credit_rule in Hrule. rewrite Hrec in *. destruct (ad_Outcome d); [..|done];
      destruct Hrule; intuition lia. }
  assert (Hlate : rd_lateOutside st = false /\
    ad_Allocations d = match ad_Outcome d with
                       | AutomatedSettle => allocate_loop (ad_Credited d) (rd_Allocations st)
                       | _ => rd_Allocations st
                       end).
  { assert (rd_lateOutside st = true -> rd_anyLate st = true) as Himp.
    { rewrite (inv_outside _ _ _ _ _ Hinv), (inv_late _ _ _ _ _ Hinv), !existsb_exists.
      intros (e & Hin & Ht). exists e. split; [done|]. unfold too_late in Ht. by bool_hyp. }
    revert Hout. unfold d, decide_match.
    destruct (rd_Allocations st) as [|m l] eqn:Ea; [done|]. rewrite <- Ea.
    destruct (rd_anyLate st && rd_lateOutside st) eqn:E; [done|].
    assert (rd_lateOutside st = false) as Hlo.
    { destruct (rd_lateOutside st); [|done]. rewrite Himp in E by done. done. }
    repeat case_match; intros; try done. }
  destruct Hlate as [Hlo Halloc]. rewrite Halloc.
  destruct (allocate_loop_spec (rd_Allocations st) (ad_Credited d)) as (Hs & Hf & Hp).
  { rewrite (inv_effective _ _ _ _ _ Hinv). lia. }
  { exact (inv_alloc _ _ _ _ _ Hinv). }
  split; [done|]. split; [|split; [|split; [|split; [done|]]]].
  - rewrite <- (inv_ids _ _ _ _ _ Hinv). by destruct (ad_Outcome d).
  - intros e Hin. rewrite (inv_outside _ _ _ _ _ Hinv) in Hlo.
    apply not_true_iff_false. intros Ht. apply not_true_iff_false in Hlo. apply Hlo.
    apply existsb_exists. exists e. split; [by apply list_elem_of_In|done].
  - unfold credit_rule in Hrule. destruct (ad_Outcome d); [|done|done].
    rewrite (inv_credited _ _ _ _ _ Hinv), (inv_effective _ _ _ _ _ Hinv), <- Hrec.
    symmetry. by destruct_and! Hrule.
  - destruct (ad_Outcome d); [exact (inv_alloc _ _ _ _ _ Hinv)|done|done].
Qed.

Lemma ValidateAutomatedPolicy_bps policy :
  ValidateAutomatedPolicy policy = Ok tt -> amp_UnderpaymentToleranceBPS policy <= 10000.
Proof. unfold ValidateAutomatedPolicy. intros H. run_ok H; bool_hyp; lia. Qed.

(** A decision other than review comes from the part after the loop. *)
Lemma EvaluateAutomatedMatch_inv sha256 marshal route events now policy d :
  EvaluateAutomatedMatch sha256 marshal route events now policy = Ok d ->
  ValidateAutomatedPolicy policy = Ok tt /\ pr_ExpectedAmount route <> 0 /\
  exists sorted, canonical_loop sha256 ∅ (sort_by event_less events) = Ok sorted /\
    ((exists st reason, d = sealAutomatedDecision sha256 marshal
        (decision_of route policy st AutomatedReview ExceptionUnmatched Zero [reason])) \/
     (exists st, reduce_loop route policy sorted (mkReducer Zero Zero Zero [] [] "" false false) sorted
                 = Ok (Continue st) /\ d = decide_match sha256 marshal route policy now st)).
Proof.
  unfold EvaluateAutomatedMatch. intros H.
  destruct (ValidateAutomatedPolicy policy) as [[]|]; [|done]. simpl in H.
  destruct ((pr_ID route == "") || _ || _ || _ || _ || _) eqn:Eg; [done|]. bool_hyp.
  split; [done|]. split; [by apply IsZero_false|].
  destruct (canonical_loop _ _ _) as [sorted|]; [|done]. simpl in H. exists sorted. split; [done|].
  destruct (reduce_loop _ _ _ _ _) as [[st|st reason]|]; [| |done]; simpl in H; injection H as <-;
    [right|left]; eauto.
Qed.

Section evaluate_facts.
Context (sha256 : string -> string) (marshal : evidence -> string).
Context (route : PaymentRoute) (events : list TransferEvent).
Hypothesis amounts_valid : forall e, e ∈ events -> valid_amount (te_Amount e).
Hypothesis expected_valid : valid_amount (pr_ExpectedAmount route).
(** Distinct events have distinct identifiers. *)
Hypothesis ids_unique : forall e f, e ∈ events -> f ∈ events -> te_ID e = te_ID f -> e = f.
(** No SHA-256 collision among the identities of the events. *)
Hypothesis keys_faithful : forall e f, e ∈ events -> f ∈ events ->
  IdentityKey sha256 (te_Identity e) = IdentityKey sha256 (te_Identity f) ->
  te_Identity e = te_Identity f.

Lemma canonical_events sorted :
  canonical_loop sha256 ∅ (sort_by event_less events) = Ok sorted ->
  (forall e, e ∈ sorted -> e ∈ events) /\ NoDup (te_Identity <$> sorted) /\
  (forall e, e ∈ events -> exists f, f ∈ sorted /\ te_Identity f = te_Identity e /\
     (f = e \/ sameCanonicalTransfer f e = true)).
Proof.
  intros H.
  assert (Hin : forall e, e ∈ sorted -> e ∈ events).
  { intros e He. apply canonical_loop_sublist in H. apply list_elem_of_In.
    apply (sort_by_In event_less), list_elem_of_In. by eapply elem_of_submseteq, sublist_submseteq. }
  split; [done|]. split.
  - apply canonical_loop_keys in H as [Hnd _].
    eapply (NoDup_fmap_1 (IdentityKey sha256)). by rewrite <- list_fmap_compose.
  - intros e He.
    assert (He' : e ∈ sort_by event_less events) by (rewrite list_elem_of_In, sort_by_In; by apply list_elem_of_In).
    destruct (canonical_loop_covers sha256 _ ∅ sorted (keyed_empty sha256) H e He')
      as (f & [Hf|(k & Hf)] & Hk & Hs); [|by rewrite lookup_empty in Hf].
    exists f. split; [done|]. split; [|done]. by apply keys_faithful; auto.
Qed.

(** Whether an event counts depends on its identity and canonical facts only. *)
Lemma counts_same e f :
  te_Identity f = te_Identity e -> (f = e \/ sameCanonicalTransfer f e = true) ->
  counts route f = counts route e.
Proof.
  intros Hid [->|Hs]; [done|]. unfold sameCanonicalTransfer in Hs. bool_hyp.
  unfold counts, eligible. by repeat match goal with H : _ = _ |- _ => rewrite H end.
Qed.

(** C1: Every decision to settle or collect is an exact account of the finalized
    transfers of the route: each eligible transfer of the input is counted once
    whatever the number of copies of it, nothing else is counted, none is later
    than the automatic grace, the received total is their sum, and the credit of
    the allocations adds up to the credited amount without any allocation
    exceeding its transfer. *)
Theorem EvaluateAutomatedMatch_accounts now policy d :
  0 <= amp_UnderpaymentToleranceBPS policy ->
  EvaluateAutomatedMatch sha256 marshal route events now policy = Ok d ->
  ad_Outcome d <> AutomatedReview ->
  exists facts, accounted route events facts d.
Proof.
  intros Hb H Hout. apply EvaluateAutomatedMatch_inv in H as (Hpol & _ & sorted & Hc & Hd).
  apply ValidateAutomatedPolicy_bps in Hpol.
  destruct Hd as [(st & reason & ->)|(st & Hloop & ->)]; [done|].
  destruct (canonical_events sorted Hc) as (Hsub & Hnd & Hcov).
  apply reduce_loop_inv with (facts := []) in Hloop; [|eauto|..|apply reducer_inv_init].
  2:{ intros e f He Hf Hk Hid. by rewrite (ids_unique e f) by eauto. }
  2:{ done. }
  simpl in Hloop. set (facts := List.filter (counts route) sorted) in *.
  destruct (decide_match_accounts sha256 marshal route policy now st facts sorted Hloop
              expected_valid ltac:(lia) Hout) as (H1 & H2 & H3 & H4 & H5 & H6).
  exists facts. constructor; try done.
  - intros e He. apply list_elem_of_In, filter_In in He as [He Hce].
    split; [by apply Hsub, list_elem_of_In|done].
  - eapply sublist_NoDup; [exact Hnd|]. unfold facts. clear.
    induction sorted as [|e l IH]; [done|]. simpl. destruct (counts route e);
      rewrite ?fmap_cons; by constructor.
  - intros e He Hce. destruct (Hcov e He) as (f & Hf & Hid & Hs). rewrite <- Hid.
    apply list_elem_of_fmap_2, list_elem_of_In, filter_In.
    split; [by apply list_elem_of_In|]. by rewrite (counts_same e f).
  - by rewrite H1, (inv_received _ _ _ _ _ Hloop).
Qed.

(** What the reducer credits: it settles only when the received total is
    exact (crediting the expected amount), short by at most the policy's
    tolerance (crediting what was received), or in excess under a crediting
    policy; it collects only partial totals below the tolerance before the
    automatic deadline; a review credits nothing. *)
Theorem EvaluateAutomatedMatch_credit_rule now policy d :
  0 <= amp_UnderpaymentToleranceBPS policy ->
  EvaluateAutomatedMatch sha256 marshal route events now policy = Ok d ->
  credit_rule route policy now d /\ ad_PolicyID d = amp_ID policy /\
  ad_PolicyVersion d = amp_Version policy /\ ad_Expected d = pr_ExpectedAmount route.
Proof.
  intros Hb H. apply EvaluateAutomatedMatch_inv in H as (Hpol & _ & sorted & Hc & Hd).
  apply ValidateAutomatedPolicy_bps in Hpol.
  destruct Hd as [(st & reason & ->)|(st & Hloop & ->)]; [done|].
  destruct (canonical_events sorted Hc) as (Hsub & _ & _).
  apply reduce_loop_inv with (facts := []) in Hloop; [|eauto|..|apply reducer_inv_init].
  2:{ intros e f He Hf Hk Hid. by rewrite (ids_unique e f) by eauto. }
  2:{ done. }
  split.
  - apply decide_match_rule; [|done|lia].
    pose proof (inv_valid _ _ _ _ _ Hloop) as Hv. unfold valid_amount in Hv. lia.
  - unfold decide_match. repeat case_match; done.
Qed.

(** A route that is paid exactly settles: under any valid policy, when the
    identities are well formed, the eligible transfers are plain ones of one
    sender within the automatic grace and their total is the expected amount,
    the reducer returns a settlement that credits exactly that amount. *)
Theorem EvaluateAutomatedMatch_exact_settles now policy sender sorted :
  ValidateAutomatedPolicy policy = Ok tt -> 0 <= amp_UnderpaymentToleranceBPS policy ->
  pr_ID route <> "" -> pr_IntentID route <> "" -> pr_ExpectedAmount route <> 0 ->
  pr_StartsAt route <> 0 -> pr_ExpiresAt route <> 0 -> pr_ExpiresAt route <= pr_GraceEndsAt route ->
  canonical_loop sha256 ∅ (sort_by event_less events) = Ok sorted ->
  (forall e, e ∈ sorted -> counts route e = true ->
     te_Kind e <> "gasfree_permit_transfer" /\ te_FromAddress e = sender /\ too_late route e = false) ->
  sumZ (te_Amount <$> List.filter (counts route) sorted) = pr_ExpectedAmount route ->
  exists d, EvaluateAutomatedMatch sha256 marshal route events now policy = Ok d /\
    ad_Outcome d = AutomatedSettle /\ ad_Credited d = pr_ExpectedAmount route.
Proof.
  intros Hpol Hb Hid Hint Hexp Hst Hex Hgr Hc Hplain Hsum.
  destruct (canonical_events sorted Hc) as (Hsub & _ & _).
  assert (Hav : forall e, e ∈ sorted -> valid_amount (te_Amount e)) by eauto.
  assert (Hfee : forall e f, e ∈ sorted -> f ∈ sorted -> te_Kind f = "gasfree_fee" ->
            te_ID e = te_ID f -> te_Kind e = "gasfree_fee").
  { intros e f He Hf Hk Heq. by rewrite (ids_unique e f) by eauto. }
  destruct (reduce_loop_succeeds route policy sorted Hav Hfee sender sorted
    (mkReducer Zero Zero Zero [] [] "" false false) []) as [st Hloop];
    [done|apply reducer_inv_init| |by left| |].
  { intros e He Hce. by destruct (Hplain e He Hce) as (? & ? & _). }
  { rewrite Hsum. unfold valid_amount in expected_valid. simpl. unfold Zero. lia. }
  pose proof (reduce_loop_inv route policy sorted Hav Hfee sorted _ [] st (fun _ H => H)
                (reducer_inv_init route policy sorted) Hloop) as Hinv. simpl in Hinv.
  exists (decide_match sha256 marshal route policy now st). split.
  - unfold EvaluateAutomatedMatch. rewrite Hpol. simpl.
    apply String.eqb_neq in Hid, Hint. apply IsZero_false in Hexp.
    unfold IsZeroTime, Before. rewrite Hid, Hint, Hexp, !(proj2 (Z.eqb_neq _ _)) by done.
    rewrite (proj2 (Z.ltb_ge _ _)) by done. simpl. by rewrite Hc; simpl; rewrite Hloop.
  - assert (Hrec : rd_Received st = pr_ExpectedAmount route) by (by rewrite (inv_received _ _ _ _ _ Hinv)).
    assert (Hlo : rd_lateOutside st = false).
    { rewrite (inv_outside _ _ _ _ _ Hinv). apply not_true_iff_false. rewrite existsb_exists.
      intros (e & He & Ht). apply filter_In in He as [He Hce].
      destruct (Hplain e) as (_ & _ & Hn); [by apply list_elem_of_In|done|congruence]. }
    pose proof (inv_effective _ _ _ _ _ Hinv) as Heff. rewrite Hrec in Heff.
    unfold decide_match. destruct (rd_Allocations st) as [|m l]; [by simpl in Heff; lia|].
    rewrite Hlo, andb_false_r, Hrec, Cmp_lt, Cmp_eq, Z.ltb_irrefl, Z.eqb_refl.
    by destruct (rd_anyLate st).
Qed.
End evaluate_facts.

(** *** Examples *)

Definition sample_automated_policy : AutomatedMatchingPolicy :=
  mkAutomatedPolicy "policy-1" 4 true 100 OverpaymentCreditExpected true true false [].

Definition sample_transfer (id tx : string) (amount : Amount) (t : Time) : TransferEvent :=
  mkTransferEvent id (mkIdentity "eip155:1" tx "log:7" "usdc-ethereum" "0xdef") "erc20_transfer"
    "0xfrom" amount 6 100 "0xblock" t 12 TransferFinalized "v1" "00" "".

(** Two partial transfers, the second reported twice. *)
Definition sample_transfers : list TransferEvent :=
  [sample_transfer "e2" "0x2" 600000 (UnixTime 1700000200);
   sample_transfer "e1" "0x1" 450000 (UnixTime 1700000100);
   sample_transfer "e2" "0x2" 600000 (UnixTime 1700000200)].

Definition no_hash (s : string) : string := s.
Definition no_json (e : evidence) : string := "".

(** The decision on the sample: 1.05 received, 1.00 expected and credited. *)
Definition sample_decision : AutomatedMatchDecision :=
  match EvaluateAutomatedMatch no_hash no_json (sample_route "r1" 1000000) sample_transfers
          (UnixTime 1700000300) sample_automated_policy with
  | Ok d => d
  | Err _ => decision_of (sample_route "r1" 0) sample_automated_policy
               (mkReducer 0 0 0 [] [] "" false false) AutomatedReview ExceptionNone 0 []
  end.

Lemma sample_transfers_forall (P : TransferEvent -> Prop) :
  Forall P sample_transfers -> forall e, e ∈ sample_transfers -> P e.
Proof. intros H. by rewrite Forall_forall in H. Qed.

Lemma sample_transfers_forall2 (P : TransferEvent -> TransferEvent -> Prop) :
  Forall (fun e => Forall (P e) sample_transfers) sample_transfers ->
  forall e f, e ∈ sample_transfers -> f ∈ sample_transfers -> P e f.
Proof.
  intros H e f He Hf. rewrite Forall_forall in H. specialize (H e He).
  by rewrite Forall_forall in H; apply H.
Qed.

Lemma EvaluateAutomatedMatch_accounts_witness :
  exists facts, accounted (sample_route "r1" 1000000) sample_transfers facts sample_decision.
Proof.
  apply (EvaluateAutomatedMatch_accounts no_hash no_json (sample_route "r1" 1000000) sample_transfers)
    with (now := UnixTime 1700000300) (policy := sample_automated_policy).
  - apply sample_transfers_forall. by repeat constructor.
  - done.
  - apply (sample_transfers_forall2 (fun e f => te_ID e = te_ID f -> e = f)).
    repeat constructor; intros; (reflexivity || discriminate).
  - apply (sample_transfers_forall2 (fun e f => IdentityKey no_hash (te_Identity e) =
      IdentityKey no_hash (te_Identity f) -> te_Identity e = te_Identity f)).
    repeat constructor; intros Hk; (reflexivity || (vm_compute in Hk; discriminate Hk)).
  - by vm_compute.
  - vm_compute. reflexivity.
  - vm_compute. discriminate.
Defined.

Lemma EvaluateAutomatedMatch_credit_rule_witness :
  credit_rule (sample_route "r1" 1000000) sample_automated_policy (UnixTime 1700000300) sample_decision /\
  ad_PolicyID sample_decision = "policy-1" /\ ad_PolicyVersion sample_decision = 4 /\
  ad_Expected sample_decision = 1000000.
Proof.
  apply (EvaluateAutomatedMatch_credit_rule no_hash no_json (sample_route "r1" 1000000) sample_transfers)
    with (now := UnixTime 1700000300) (policy := sample_automated_policy).
  - apply sample_transfers_forall. by repeat constructor.
  - done.
  - apply (sample_transfers_forall2 (fun e f => te_ID e = te_ID f -> e = f)).
    repeat constructor; intros; (reflexivity || discriminate).
  - apply (sample_transfers_forall2 (fun e f => IdentityKey no_hash (te_Identity e) =
      IdentityKey no_hash (te_Identity f) -> te_Identity e = te_Identity f)).
    repeat constructor; intros Hk; (reflexivity || (vm_compute in Hk; discriminate Hk)).
  - by vm_compute.
  - vm_compute. reflexivity.
Defined.

Lemma EvaluateAutomatedMatch_order_independent_witness :
  EvaluateAutomatedMatch no_hash no_json (sample_route "r1" 1000000) sample_transfers
    (UnixTime 1700000300) sample_automated_policy =
  EvaluateAutomatedMatch no_hash no_json (sample_route "r1" 1000000) (rev sample_transfers)
    (UnixTime 1700000300) sample_automated_policy.
Proof.
  apply (EvaluateAutomatedMatch_order_independent no_hash no_json (sample_route "r1" 1000000)
           sample_transfers (rev sample_transfers)).
  - apply (sample_transfers_forall2 (fun e f => te_OnChainTime e = te_OnChainTime f ->
      te_ID e = te_ID f -> e = f)). repeat constructor; intros _; intros; (reflexivity || discriminate).
  - apply Permutation_rev.
Defined.

(** The sample settles the expected amount; the copy is not counted twice. *)
Example sample_decision_values :
  (ad_Outcome sample_decision, ad_Received sample_decision, ad_Credited sample_decision,
   ma_Credited <$> ad_Allocations sample_decision) =
  (AutomatedSettle, 1050000, 1000000, [450000; 550000]).
Proof. vm_compute. reflexivity. Qed.

Definition exact_transfers : list TransferEvent :=
  [sample_transfer "e2" "0x2" 550000 (UnixTime 1700000200);
   sample_transfer "e1" "0x1" 450000 (UnixTime 1700000100)].

Lemma EvaluateAutomatedMatch_exact_settles_witness :
  exists d, EvaluateAutomatedMatch no_hash no_json (sample_route "r1" 1000000) exact_transfers
    (UnixTime 1700000300) sample_automated_policy = Ok d /\
    ad_Outcome d = AutomatedSettle /\ ad_Credited d = 1000000.
Proof.
  apply (EvaluateAutomatedMatch_exact_settles no_hash no_json (sample_route "r1" 1000000)
    exact_transfers) with (now := UnixTime 1700000300) (policy := sample_automated_policy)
    (sender := "0xfrom") (sorted := rev exact_transfers).
  - intros e He. unfold exact_transfers in He. by rewrite !elem_of_cons, elem_of_nil in He; destruct He as [->|[->|[]]].
  - done.
  - intros e f He Hf. unfold exact_transfers in He, Hf. rewrite !elem_of_cons, elem_of_nil in He, Hf.
    destruct He as [->|[->|[]]], Hf as [->|[->|[]]]; (reflexivity || discriminate).
  - intros e f He Hf. unfold exact_transfers in He, Hf. rewrite !elem_of_cons, elem_of_nil in He, Hf.
    destruct He as [->|[->|[]]], Hf as [->|[->|[]]]; intros Hk;
      (reflexivity || (vm_compute in Hk; discriminate Hk)).
  - vm_compute. reflexivity.
  - by vm_compute.
  - discriminate.
  - discriminate.
  - discriminate.
  - by vm_compute.
  - by vm_compute.
  - by vm_compute.
  - vm_compute. reflexivity.
  - intros e He Hc. unfold exact_transfers in He. cbn [rev app] in He. rewrite !elem_of_cons, elem_of_nil in He.
    destruct He as [->|[->|[]]]; repeat split; (discriminate || reflexivity).
  - vm_compute. reflexivity.
Defined.
