(* ===== verification/Commands.v ===== *)
(** * Commands: internal/application/commands.go

    The caller and the commands it sends to the payment service, and the record
    updates the handlers write as assignments. *)

From Stdlib Require Import ZArith Lia Ascii String.
From stdpp Require Import base gmap list strings.
From S2P Require Import Prelude Text Money Domain.

Record Principal := mkPrincipal {
  p_TenantID : string; p_MerchantID : string; p_ActorID : string; p_KeyID : string;
  p_Scopes : gmap string bool }.

(** [Principal.Allows]: a missing key of the map is false. *)
Definition Allows (p : Principal) (scope : string) : bool := default false (p_Scopes p !! scope).

Record CreateIntentCmd := mkCreateIntent {
  ci_Principal : Principal; ci_IdempotencyKey : string; ci_MerchantOrderID : string;
  ci_CustomerReference : string; ci_AmountMinor : Amount; ci_Currency : string;
  ci_CurrencyScale : Z; ci_Description : string; ci_Metadata : string;
  ci_AllowedRoutes : list RouteSelector; ci_ExpiresAt : Time; ci_CorrelationID : string;
  ci_RequestHash : string }.

Record CreateRouteCmd := mkCreateRoute {
  crt_Principal : Principal; crt_IntentID : string; crt_IdempotencyKey : string;
  crt_Provider : string; crt_ProviderID : string; crt_ProviderOrderID : string;
  crt_ProviderReference : string; crt_PaymentURL : string; crt_QuoteID : string;
  crt_AddressAssignmentID : string; crt_AllowNativeETHFallback : bool; crt_ChainID : string;
  crt_AssetID : string; crt_ExpectedAmount : Amount; crt_AssetDecimals : Z;
  crt_DisplayAmount : string; crt_Address : string; crt_Memo : string; crt_RequiredFinality : Z;
  crt_ExpiresAt : Time; crt_GraceEndsAt : Time; crt_CorrelationID : string;
  crt_RequestHash : string }.

(** [CancelIntent] and [ExpireIntent] have the same fields. *)
Record CloseIntentCmd := mkCloseIntent {
  cl_Principal : Principal; cl_IntentID : string; cl_IdempotencyKey : string; cl_Reason : string;
  cl_ExpectedVersion : Z; cl_CorrelationID : string; cl_RequestHash : string }.

Record UpdateIntentMetadataCmd := mkUpdateMetadata {
  um_Principal : Principal; um_IntentID : string; um_IdempotencyKey : string;
  um_Metadata : string; um_ExpectedVersion : Z; um_CorrelationID : string;
  um_RequestHash : string }.

Record CreateReportCmd := mkCreateReport {
  cp_Principal : Principal; cp_IdempotencyKey : string; cp_Format : string;
  cp_PeriodStart : Time; cp_PeriodEnd : Time; cp_CorrelationID : string; cp_RequestHash : string }.

Record SubmitPaymentProofCmd := mkSubmitProof {
  sp_Principal : Principal; sp_IdempotencyKey : string; sp_PaymentIntentID : string;
  sp_ChainID : string; sp_TransactionID : string; sp_CorrelationID : string;
  sp_RequestHash : string }.

(** ** Zero values and record updates *)

Definition zero_intent : PaymentIntent :=
  mkPaymentIntent "" "" "" "" "" "" 0 "" 0 "" IntentUnset "" "" [] 0 0 0 0 None None [].

Definition zero_proof : PaymentProof := mkPaymentProof "" "" "" "" "" "" ProofUnset [] 0 0 0.

Definition zero_report : ReconciliationReport :=
  mkReconciliationReport "" "" "" ReconciliationReportUnset "" 0 0 "" 0 0 "" "" "" "" "" "" 0 0 None 0.

Definition with_routes (p : PaymentIntent) (routes : list PaymentRoute) : PaymentIntent :=
  mkPaymentIntent (pi_ID p) (pi_CheckoutToken p) (pi_TenantID p) (pi_MerchantID p)
    (pi_MerchantOrderID p) (pi_CustomerReference p) (pi_AmountMinor p) (pi_Currency p)
    (pi_CurrencyScale p) (pi_Description p) (pi_Status p) (pi_StatusReason p) (pi_Metadata p)
    (pi_AllowedRoutes p) (pi_Version p) (pi_CreatedAt p) (pi_UpdatedAt p) (pi_ExpiresAt p)
    (pi_SettledAt p) (pi_CancelledAt p) routes.

Definition with_expiry (p : PaymentIntent) (t : Time) : PaymentIntent :=
  mkPaymentIntent (pi_ID p) (pi_CheckoutToken p) (pi_TenantID p) (pi_MerchantID p)
    (pi_MerchantOrderID p) (pi_CustomerReference p) (pi_AmountMinor p) (pi_Currency p)
    (pi_CurrencyScale p) (pi_Description p) (pi_Status p) (pi_StatusReason p) (pi_Metadata p)
    (pi_AllowedRoutes p) (pi_Version p) (pi_CreatedAt p) (pi_UpdatedAt p) t
    (pi_SettledAt p) (pi_CancelledAt p) (pi_Routes p).

Definition with_token (p : PaymentIntent) (token : string) : PaymentIntent :=
  mkPaymentIntent (pi_ID p) token (pi_TenantID p) (pi_MerchantID p)
    (pi_MerchantOrderID p) (pi_CustomerReference p) (pi_AmountMinor p) (pi_Currency p)
    (pi_CurrencyScale p) (pi_Description p) (pi_Status p) (pi_StatusReason p) (pi_Metadata p)
    (pi_AllowedRoutes p) (pi_Version p) (pi_CreatedAt p) (pi_UpdatedAt p) (pi_ExpiresAt p)
    (pi_SettledAt p) (pi_CancelledAt p) (pi_Routes p).

(** [p.Metadata = m; p.Version++; p.UpdatedAt = t] *)
Definition with_metadata (p : PaymentIntent) (m : string) (t : Time) : PaymentIntent :=
  mkPaymentIntent (pi_ID p) (pi_CheckoutToken p) (pi_TenantID p) (pi_MerchantID p)
    (pi_MerchantOrderID p) (pi_CustomerReference p) (pi_AmountMinor p) (pi_Currency p)
    (pi_CurrencyScale p) (pi_Description p) (pi_Status p) (pi_StatusReason p) m
    (pi_AllowedRoutes p) (int64 (pi_Version p + 1)) (pi_CreatedAt p) t (pi_ExpiresAt p)
    (pi_SettledAt p) (pi_CancelledAt p) (pi_Routes p).

(** [route.Status = s; route.ExpiresAt = e; route.Version++] *)
Definition close_route (r : PaymentRoute) (s : RouteStatus) (e : Time) : PaymentRoute :=
  mkPaymentRoute (pr_ID r) (pr_IntentID r) (pr_QuoteID r) (pr_AddressAssignmentID r) (pr_ChainID r)
    (pr_AssetID r) (pr_Provider r) (pr_ProviderID r) (pr_ProviderOrderID r)
    (pr_ProviderReference r) (pr_PaymentURL r) (pr_ExpectedAmount r) (pr_AssetDecimals r)
    (pr_DisplayAmount r) (pr_Address r) (pr_Memo r) (pr_RequiredFinality r) s
    (int64 (pr_Version r + 1)) (pr_StartsAt r) e (pr_GraceEndsAt r) (pr_ReceivedAmount r)
    (pr_RemainingAmount r) (pr_ExcessAmount r) (pr_PaymentCount r).
