(* ===== verification/Store.v ===== *)
(** * Store: internal/adapters/memory/store.go

    The deterministic store: its state, every operation that changes it and
    every read. The clock, the identifiers of [ids.New] and the checkout token
    of a call are the fields of an environment, so that a failing source of
    randomness is an ordinary input. *)

From Stdlib Require Import ZArith Lia Ascii String.
From stdpp Require Import base gmap list strings.
From S2P Require Import Prelude Text Money Domain Encoding Commands.

Record idempotencyRecord := mkIdem { idem_Hash : string; idem_Kind : string; idem_ID : string }.

Record Store := mkStore {
  st_intents : gmap string PaymentIntent; st_merchantOrders : gmap string string;
  st_idempotency : gmap string idempotencyRecord; st_reservations : gmap string string;
  st_reservationGrace : gmap string Time; st_outbox : list EventEnvelope;
  st_assets : list Asset; st_proofs : gmap string PaymentProof;
  st_checkoutByHash : gmap string string; st_checkoutTokens : gmap string string;
  st_reports : gmap string ReconciliationReport }.

(** What a call reads from outside: [s.now()] at its two uses, the results of
    [ids.New] for the new aggregate ([env_id1]) and for the event ([env_id2]),
    and of [checkout.NewToken]. *)
Record env := mkEnv {
  env_now : Time; env_now2 : Time; env_id1 : option string; env_id2 : option string;
  env_token : option (string * string) }.

Definition NewStore : Store :=
  mkStore ∅ ∅ ∅ ∅ ∅ []
    [mkAsset "usdt-tron" "tron:mainnet" "USDT" "Tether USD" "fungible_token" "" 6 "active" "1000000";
     mkAsset "usdc-ethereum" "eip155:1" "USDC" "USD Coin" "fungible_token" "" 6 "active" "1000000"]
    ∅ ∅ ∅ ∅.

Definition scopeKey (p : Principal) (kind value : string) : string :=
  p_TenantID p +:+ US +:+ p_MerchantID p +:+ US +:+ kind +:+ US +:+ value.

Definition owned_by (tenant merchant : string) (p : Principal) : bool :=
  (tenant == p_TenantID p) && (merchant == p_MerchantID p).

Definition owns_intent (p : Principal) (i : PaymentIntent) : bool :=
  owned_by (pi_TenantID i) (pi_MerchantID i) p.

(** The failure of the random source, and the sentinels returned bare. *)
Definition id_error : error := Plain "generate UUID randomness".

Definition set_intents (s : Store) (m : gmap string PaymentIntent) : Store :=
  mkStore m (st_merchantOrders s) (st_idempotency s) (st_reservations s) (st_reservationGrace s)
    (st_outbox s) (st_assets s) (st_proofs s) (st_checkoutByHash s) (st_checkoutTokens s) (st_reports s).

Definition put_intent (s : Store) (p : PaymentIntent) : Store :=
  set_intents s (<[pi_ID p := p]> (st_intents s)).

Definition put_idem (s : Store) (key : string) (r : idempotencyRecord) : Store :=
  mkStore (st_intents s) (st_merchantOrders s) (<[key := r]> (st_idempotency s)) (st_reservations s)
    (st_reservationGrace s) (st_outbox s) (st_assets s) (st_proofs s) (st_checkoutByHash s)
    (st_checkoutTokens s) (st_reports s).

Definition set_reservations (s : Store) (m : gmap string string) (g : gmap string Time) : Store :=
  mkStore (st_intents s) (st_merchantOrders s) (st_idempotency s) m g
    (st_outbox s) (st_assets s) (st_proofs s) (st_checkoutByHash s) (st_checkoutTokens s) (st_reports s).

Definition emit (s : Store) (e : EventEnvelope) : Store :=
  mkStore (st_intents s) (st_merchantOrders s) (st_idempotency s) (st_reservations s)
    (st_reservationGrace s) (st_outbox s ++ [e]) (st_assets s) (st_proofs s) (st_checkoutByHash s)
    (st_checkoutTokens s) (st_reports s).

Definition put_proof (s : Store) (p : PaymentProof) : Store :=
  mkStore (st_intents s) (st_merchantOrders s) (st_idempotency s) (st_reservations s)
    (st_reservationGrace s) (st_outbox s) (st_assets s) (<[pp_ID p := p]> (st_proofs s))
    (st_checkoutByHash s) (st_checkoutTokens s) (st_reports s).

Definition put_report (s : Store) (r : ReconciliationReport) : Store :=
  mkStore (st_intents s) (st_merchantOrders s) (st_idempotency s) (st_reservations s)
    (st_reservationGrace s) (st_outbox s) (st_assets s) (st_proofs s)
    (st_checkoutByHash s) (st_checkoutTokens s) (<[rr_ID r := r]> (st_reports s)).

Definition put_checkout (s : Store) (hash id token orderKey : string) : Store :=
  mkStore (st_intents s) (<[orderKey := id]> (st_merchantOrders s)) (st_idempotency s)
    (st_reservations s) (st_reservationGrace s) (st_outbox s) (st_assets s) (st_proofs s)
    (<[hash := id]> (st_checkoutByHash s)) (<[id := token]> (st_checkoutTokens s)) (st_reports s).

(** [s.intents[id]] with the zero value for a missing key; [cloneIntent] copies
    the slices and is the identity on values. *)
Definition intent_at (s : Store) (id : string) : PaymentIntent := default zero_intent (st_intents s !! id).

(** Close every active route of an intent; the in-place loops of [ExpireIntent]
    (with a new expiry) and [CancelIntent] (which keeps it). *)
Definition expire_routes (now : Time) (routes : list PaymentRoute) : list PaymentRoute :=
  (fun r => if bool_decide (pr_Status r = RouteActive) then close_route r RouteExpired now else r) <$> routes.

Definition cancel_routes (routes : list PaymentRoute) : list PaymentRoute :=
  (fun r => if bool_decide (pr_Status r = RouteActive)
            then close_route r RouteCancelled (pr_ExpiresAt r) else r) <$> routes.

Section operations.
(** [json.Marshal] of a map of strings: the event payloads. *)
Context (marshal : list (string * string) -> string).

Definition ExpireIntent (e : env) (cmd : CloseIntentCmd) (requestHash : string) (s : Store)
    : Store * result error (PaymentIntent * bool) :=
  let key := scopeKey (cl_Principal cmd) "expire_intent" (cl_IdempotencyKey cmd) in
  match st_idempotency s !! key with
  | Some previous =>
      if idem_Hash previous != requestHash then (s, Err (Sentinel ErrIdempotencyConflict))
      else (s, Ok (intent_at s (idem_ID previous), true))
  | None =>
      match st_intents s !! cl_IntentID cmd with
      | None => (s, Err (Sentinel ErrNotFound))
      | Some intent =>
          if negb (owns_intent (cl_Principal cmd) intent) then (s, Err (Sentinel ErrNotFound))
          else if negb (pi_Version intent =? cl_ExpectedVersion cmd)
          then (s, Err (Sentinel ErrVersionConflict))
          else
            match Transition intent IntentExpired (cl_Reason cmd) (env_now e) with
            | Err err => (s, Err err)
            | Ok moved =>
                let intent := with_routes (with_expiry moved (env_now e))
                                (expire_routes (env_now e) (pi_Routes moved)) in
                (put_idem (put_intent s intent) key (mkIdem requestHash "intent" (pi_ID intent)),
                 Ok (intent, false))
            end
      end
  end.

Definition UpdateIntentMetadata (e : env) (cmd : UpdateIntentMetadataCmd) (requestHash : string)
    (s : Store) : Store * result error (PaymentIntent * bool) :=
  let key := scopeKey (um_Principal cmd) "update_intent_metadata" (um_IdempotencyKey cmd) in
  match st_idempotency s !! key with
  | Some previous =>
      if idem_Hash previous != requestHash then (s, Err (Sentinel ErrIdempotencyConflict))
      else (s, Ok (intent_at s (idem_ID previous), true))
  | None =>
      match st_intents s !! um_IntentID cmd with
      | None => (s, Err (Sentinel ErrNotFound))
      | Some intent =>
          if negb (owns_intent (um_Principal cmd) intent) then (s, Err (Sentinel ErrNotFound))
          else if negb (pi_Version intent =? um_ExpectedVersion cmd)
                  || bool_decide (pi_Status intent = IntentReversed)
          then (s, Err (Sentinel ErrVersionConflict))
          else
            let intent := with_metadata intent (um_Metadata cmd) (env_now e) in
            (put_idem (put_intent s intent) key (mkIdem requestHash "intent" (pi_ID intent)),
             Ok (intent, false))
      end
  end.

Definition CreatePaymentProof (e : env) (cmd : SubmitPaymentProofCmd) (requestHash : string)
    (s : Store) : Store * result error (PaymentProof * bool) :=
  let p := sp_Principal cmd in
  let key := scopeKey p "create_payment_proof" (sp_IdempotencyKey cmd) in
  match st_idempotency s !! key with
  | Some old =>
      if idem_Hash old != requestHash then (s, Err (Sentinel ErrIdempotencyConflict))
      else (s, Ok (default zero_proof (st_proofs s !! idem_ID old), true))
  | None =>
      match st_intents s !! sp_PaymentIntentID cmd with
      | None => (s, Err (Sentinel ErrNotFound))
      | Some intent =>
          if negb (owns_intent p intent) then (s, Err (Sentinel ErrNotFound))
          else
            match env_id1 e, env_id2 e with
            | Some id, Some eventID =>
                let now := env_now e in
                let proof := mkPaymentProof id (p_TenantID p) (p_MerchantID p) (sp_PaymentIntentID cmd)
                               (sp_ChainID cmd) (sp_TransactionID cmd) ProofQueued [] now now 1 in
                let payload := marshal [("payment_proof_id", id); ("payment_intent_id", sp_PaymentIntentID cmd);
                                        ("chain_id", sp_ChainID cmd); ("transaction_id", sp_TransactionID cmd)] in
                (emit (put_idem (put_proof s proof) key (mkIdem requestHash "payment_proof" id))
                   (mkEventEnvelope eventID "payment.proof.submitted" "1" id "payment_proof" 1 1
                      (p_TenantID p) (p_MerchantID p) (sp_CorrelationID cmd) "" now now payload),
                 Ok (proof, false))
            | _, _ => (s, Err id_error)
            end
      end
  end.

Definition CreateIntent (e : env) (cmd : CreateIntentCmd) (requestHash : string) (s : Store)
    : Store * result error (PaymentIntent * bool) :=
  let p := ci_Principal cmd in
  let key := scopeKey p "create_intent" (ci_IdempotencyKey cmd) in
  match st_idempotency s !! key with
  | Some old =>
      if idem_Hash old != requestHash then (s, Err (Sentinel ErrIdempotencyConflict))
      else (s, Ok (with_token (intent_at s (idem_ID old))
                     (default "" (st_checkoutTokens s !! idem_ID old)), true))
  | None =>
      let orderKey := scopeKey p "merchant_order" (ci_MerchantOrderID cmd) in
      match st_merchantOrders s !! orderKey with
      | Some _ => (s, Err (Wrapped ErrStateConflict "merchant_order_id already exists"))
      | None =>
          match env_id1 e, env_token e, env_id2 e with
          | Some id, Some (checkoutToken, checkoutHash), Some eventID =>
              let now := env_now e in
              let intent := mkPaymentIntent id "" (p_TenantID p) (p_MerchantID p) (ci_MerchantOrderID cmd)
                  (ci_CustomerReference cmd) (ci_AmountMinor cmd) (ci_Currency cmd) (ci_CurrencyScale cmd)
                  (ci_Description cmd) IntentAwaitingRouteSelection "" (ci_Metadata cmd)
                  (ci_AllowedRoutes cmd) 1 now now (ci_ExpiresAt cmd) None None [] in
              let payload := marshal [("payment_intent_id", id); ("merchant_order_id", ci_MerchantOrderID cmd);
                                      ("status", IntentStatus_string (pi_Status intent))] in
              let event := mkEventEnvelope eventID "payment.intent.created" "2026-08-01" id "payment_intent"
                  1 1 (p_TenantID p) (p_MerchantID p) (ci_CorrelationID cmd) "" now now payload in
              (emit (put_idem (put_checkout (put_intent s intent) checkoutHash id checkoutToken orderKey)
                       key (mkIdem requestHash "intent" id)) event,
               Ok (with_token intent checkoutToken, false))
          | _, _, _ => (s, Err id_error)
          end
      end
  end.

(** The linear search of a route among the routes of an intent. *)
Definition find_route (id : string) (routes : list PaymentRoute) : option PaymentRoute :=
  List.find (fun r => pr_ID r == id) routes.

Definition new_route (e : env) (cmd : CreateRouteCmd) (id intentID : string) : PaymentRoute :=
  let provider := if crt_Provider cmd == "" then RouteProviderOnChain else crt_Provider cmd in
  mkPaymentRoute id intentID (crt_QuoteID cmd) (crt_AddressAssignmentID cmd) (crt_ChainID cmd)
    (crt_AssetID cmd) provider (crt_ProviderID cmd) (crt_ProviderOrderID cmd)
    (crt_ProviderReference cmd) (crt_PaymentURL cmd) (crt_ExpectedAmount cmd) (crt_AssetDecimals cmd)
    (crt_DisplayAmount cmd) (crt_Address cmd) (crt_Memo cmd) (crt_RequiredFinality cmd) RouteActive 1
    (env_now e) (crt_ExpiresAt cmd) (crt_GraceEndsAt cmd) "" "" "" 0.

(** [p.Routes = append(p.Routes, r)] and the version step of [CreateRoute]. *)
Definition attach_route (now : Time) (p : PaymentIntent) (r : PaymentRoute) : PaymentIntent :=
  let p := with_routes p (pi_Routes p ++ [r]) in
  if bool_decide (pi_Status p = IntentAwaitingRouteSelection)
  then match Transition p IntentPending "route_created" now with Ok moved => moved | Err _ => p end
  else with_metadata p (pi_Metadata p) now.

Definition CreateRoute (e : env) (cmd : CreateRouteCmd) (requestHash : string) (s : Store)
    : Store * result error (PaymentRoute * bool) :=
  let principal := crt_Principal cmd in
  let key := scopeKey principal "create_route" (crt_IdempotencyKey cmd) in
  match st_idempotency s !! key with
  | Some old =>
      if idem_Hash old != requestHash then (s, Err (Sentinel ErrIdempotencyConflict))
      else match find_route (idem_ID old) (pi_Routes (intent_at s (crt_IntentID cmd))) with
           | Some r => (s, Ok (r, true))
           | None => (s, Err (Sentinel ErrInvariantViolation))
           end
  | None =>
      match st_intents s !! crt_IntentID cmd with
      | None => (s, Err (Sentinel ErrNotFound))
      | Some p =>
          if negb (owns_intent principal p) then (s, Err (Sentinel ErrNotFound))
          else if negb (bool_decide (pi_Status p = IntentAwaitingRouteSelection))
                  && negb (bool_decide (pi_Status p = IntentPending))
          then (s, Err (Sentinel ErrStateConflict))
          else
            match env_id1 e with
            | None => (s, Err id_error)
            | Some id =>
                let r := new_route e cmd id (pi_ID p) in
                let onChain := pr_Provider r == RouteProviderOnChain in
                let reservation := ReservationKey r in
                if onChain && match st_reservations s !! reservation with
                              | Some existing => existing != id
                              | None => false
                              end
                then (s, Err (Wrapped ErrStateConflict "exact amount is already reserved"))
                else
                  let s := if onChain
                           then set_reservations s (<[reservation := id]> (st_reservations s))
                                  (<[reservation := pr_GraceEndsAt r]> (st_reservationGrace s))
                           else s in
                  let p := attach_route (env_now e) p r in
                  match env_id2 e with
                  | None => (s, Err id_error)
                  | Some eventID =>
                      let payload := marshal [("payment_intent_id", pi_ID p); ("route_id", id);
                          ("provider", pr_Provider r); ("chain_id", pr_ChainID r);
                          ("provider_id", pr_ProviderID r); ("asset_id", pr_AssetID r)] in
                      (emit (put_idem (put_intent s p) key (mkIdem requestHash "route" id))
                         (mkEventEnvelope eventID "payment.route.created" "2026-08-01" (pi_ID p)
                            "payment_intent" (pi_Version p) (pi_Version p) (pi_TenantID p)
                            (pi_MerchantID p) (crt_CorrelationID cmd) "" (env_now e) (env_now e) payload),
                       Ok (r, false))
                  end
            end
      end
  end.

(** The routes are cancelled in the slice that the stored intent shares, so that
    they stay cancelled when the event identifier cannot be generated. *)
Definition CancelIntent (e : env) (cmd : CloseIntentCmd) (requestHash : string) (s : Store)
    : Store * result error (PaymentIntent * bool) :=
  let key := scopeKey (cl_Principal cmd) "cancel_intent" (cl_IdempotencyKey cmd) in
  match st_idempotency s !! key with
  | Some old =>
      if idem_Hash old != requestHash then (s, Err (Sentinel ErrIdempotencyConflict))
      else (s, Ok (intent_at s (idem_ID old), true))
  | None =>
      match st_intents s !! cl_IntentID cmd with
      | None => (s, Err (Sentinel ErrNotFound))
      | Some stored =>
          if negb (owns_intent (cl_Principal cmd) stored) then (s, Err (Sentinel ErrNotFound))
          else if (cl_ExpectedVersion cmd >? 0) && negb (cl_ExpectedVersion cmd =? pi_Version stored)
          then (s, Err (Sentinel ErrVersionConflict))
          else
            match Transition stored IntentCancelled (cl_Reason cmd) (env_now e) with
            | Err err => (s, Err err)
            | Ok moved =>
                let routes := cancel_routes (pi_Routes moved) in
                let p := with_routes moved routes in
                match env_id2 e with
                | None =>
                    (set_intents s (<[cl_IntentID cmd := with_routes stored routes]> (st_intents s)),
                     Err id_error)
                | Some eventID =>
                    let payload := marshal [("payment_intent_id", pi_ID p);
                        ("merchant_order_id", pi_MerchantOrderID p);
                        ("status", IntentStatus_string (pi_Status p)); ("reason", cl_Reason cmd)] in
                    (emit (put_idem (put_intent s p) key (mkIdem requestHash "intent" (pi_ID p)))
                       (mkEventEnvelope eventID "payment.cancelled" "2026-08-01" (pi_ID p)
                          "payment_intent" (pi_Version p) (pi_Version p) (pi_TenantID p)
                          (pi_MerchantID p) (cl_CorrelationID cmd) "" (env_now2 e) (env_now2 e) payload),
                     Ok (p, false))
                end
            end
      end
  end.

Definition CreateReconciliationReport (e : env) (cmd : CreateReportCmd) (requestHash : string)
    (s : Store) : Store * result error (ReconciliationReport * bool) :=
  let p := cp_Principal cmd in
  let key := scopeKey p "reconciliation_report.create" (cp_IdempotencyKey cmd) in
  match st_idempotency s !! key with
  | Some previous =>
      if idem_Hash previous != requestHash then (s, Err (Sentinel ErrIdempotencyConflict))
      else (s, Ok (default zero_report (st_reports s !! idem_ID previous), true))
  | None =>
      match env_id1 e with
      | None => (s, Err id_error)
      | Some id =>
          let now := env_now e in
          if After (cp_PeriodEnd cmd) now
          then (s, Err (Wrapped ErrValidation "period_end must not exceed snapshot_cutoff"))
          else
            let report := mkReconciliationReport id (p_TenantID p) (p_MerchantID p)
                ReconciliationReportQueued (cp_Format cmd) (cp_PeriodStart cmd) (cp_PeriodEnd cmd) "0" now
                0 "" "" "" "" "" "" now now None 1 in
            (put_idem (put_report s report) key (mkIdem requestHash "reconciliation_report" id),
             Ok (report, false))
      end
  end.
End operations.

(** [terminal] of the grace sweep: some stored route has the identifier and a
    terminal status. *)
Definition route_terminal (r : PaymentRoute) : bool :=
  bool_decide (pr_Status r = RouteExpired) || bool_decide (pr_Status r = RouteCancelled)
  || bool_decide (pr_Status r = RouteSettled).

Definition some_terminal (s : Store) (routeID : string) : bool :=
  existsb (fun kp => existsb (fun r => (pr_ID r == routeID) && route_terminal r) (pi_Routes (snd kp)))
    (map_to_list (st_intents s)).

(** The sweep over the keys of [reservationGrace] in the order of the map
    iteration, which Go leaves open: [order] lists the keys. *)
Fixpoint sweep (now : Time) (limit released : Z) (order : list string) (s : Store) : Store * Z :=
  match order with
  | [] => (s, released)
  | reservation :: rest =>
      match st_reservationGrace s !! reservation with
      | None => sweep now limit released rest s
      | Some grace =>
          if (released >=? limit) || After grace now then sweep now limit released rest s
          else if negb (some_terminal s (default "" (st_reservations s !! reservation)))
          then sweep now limit released rest s
          else sweep now limit (released + 1) rest
                 (set_reservations s (delete reservation (st_reservations s))
                    (delete reservation (st_reservationGrace s)))
      end
  end.

Definition ReleaseElapsedRouteGrace (now : Time) (limit : Z) (order : list string) (s : Store)
    : Store * result error Z :=
  if IsZeroTime now || (limit <? 1) || (limit >? 500)
  then (s, Err (Wrapped ErrValidation "invalid route grace sweep"))
  else let '(s', released) := sweep now limit 0 order s in (s', Ok released).

(** ** Reads *)

Definition GetIntent (p : Principal) (id : string) (s : Store) : result error PaymentIntent :=
  match st_intents s !! id with
  | None => Err (Sentinel ErrNotFound)
  | Some i => if negb (owns_intent p i) then Err (Sentinel ErrNotFound) else Ok i
  end.

Definition GetPaymentProof (p : Principal) (id : string) (s : Store) : result error PaymentProof :=
  match st_proofs s !! id with
  | None => Err (Sentinel ErrNotFound)
  | Some proof => if negb (owned_by (pp_TenantID proof) (pp_MerchantID proof) p)
                  then Err (Sentinel ErrNotFound) else Ok proof
  end.

Definition GetReconciliationReport (p : Principal) (id : string) (s : Store)
    : result error ReconciliationReport :=
  match st_reports s !! id with
  | None => Err (Sentinel ErrNotFound)
  | Some r => if negb (owned_by (rr_TenantID r) (rr_MerchantID r) p)
              then Err (Sentinel ErrNotFound) else Ok r
  end.

(** The filter of [ListIntents]. *)
Definition listed (p : Principal) (status after : string) (i : PaymentIntent) : bool :=
  owns_intent p i
  && negb ((status != "") && (IntentStatus_string (pi_Status i) != status))
  && negb ((after != "") && negb (str_less (pi_ID i) after)).

Definition ListIntents (p : Principal) (status after : string) (limit : Z) (s : Store)
    : list PaymentIntent :=
  take (Z.to_nat limit)
    (sort_by (fun i j => str_less (pi_ID j) (pi_ID i))
       (List.filter (listed p status after) (snd <$> map_to_list (st_intents s)))).

Definition GetReconciliation (p : Principal) (now : Time) (s : Store) : ReconciliationSummary :=
  mkReconciliationSummary
    (map_fold (fun _ i counts =>
       if owns_intent p i
       then let k := IntentStatus_string (pi_Status i) in
            <[k := int64 (default 0 (counts !! k) + 1)]> counts
       else counts) ∅ (st_intents s))
    0 0 0 now.

(** The search of [FindRouteReplay] over the merchant's intents; an identifier
    is on at most one route, so the order of the map does not matter. *)
Definition FindRouteReplay (p : Principal) (key requestHash : string) (s : Store)
    : result error (option PaymentRoute) :=
  match st_idempotency s !! scopeKey p "create_route" key with
  | None => Ok None
  | Some record =>
      if idem_Hash record != requestHash then Err (Sentinel ErrIdempotencyConflict)
      else
        match find_route (idem_ID record)
                (mjoin ((fun i => pi_Routes i) <$>
                   List.filter (owns_intent p) (snd <$> map_to_list (st_intents s)))) with
        | Some r => Ok (Some r)
        | None => Err (Sentinel ErrInvariantViolation)
        end
  end.

Definition checkout_route (r : PaymentRoute) : CheckoutRoute :=
  mkCheckoutRoute (pr_ID r) "" "" (pr_ChainID r) (pr_AssetID r) (pr_DisplayAmount r)
    (DisplayAddress (pr_ChainID r) (pr_Address r)) "" "" "".

(** The last settled route wins, as in the loop. *)
Definition selected_route (routes : list PaymentRoute) : string :=
  fold_left (fun acc r => if bool_decide (pr_Status r = RouteSettled) then pr_ID r else acc) routes "".

Definition GetCheckoutSession (tokenHash : string) (now : Time) (s : Store) : result error CheckoutSession :=
  match st_checkoutByHash s !! tokenHash with
  | None => Err (Sentinel ErrNotFound)
  | Some intentID =>
      match st_intents s !! intentID with
      | None => Err (Sentinel ErrInvariantViolation)
      | Some i =>
          Ok (mkCheckoutSession (pi_ID i) (pi_MerchantOrderID i)
                (CheckoutStatusForIntent (pi_Status i) (pi_ExpiresAt i) now) (pi_ExpiresAt i)
                (selected_route (pi_Routes i)) (checkout_route <$> pi_Routes i) (pi_Version i))
      end
  end.

Definition ListAssets (s : Store) : list Asset := st_assets s.
Definition Outbox (s : Store) : list EventEnvelope := st_outbox s.
