(* ===== verification/StoreFacts.v ===== *)
(** * StoreFacts: the invariant of the store and what follows from it

    The store as a state machine: every operation is a step, the invariant holds
    in every reachable store, and reservations, idempotency records, tenancy and
    the life of an intent are read off it. *)

From Stdlib Require Import ZArith Lia Ascii String.
From stdpp Require Import base gmap list strings relations.
From S2P Require Import Prelude Text Money Domain Encoding Commands Store.

(** ** Scope keys *)

Definition plain_principal (p : Principal) : Prop :=
  str_no unit_sep (p_TenantID p) = true /\ str_no unit_sep (p_MerchantID p) = true.

Lemma scopeKey_inj p q k l v w :
  plain_principal p -> plain_principal q ->
  str_no unit_sep k = true -> str_no unit_sep l = true ->
  scopeKey p k v = scopeKey q l w ->
  p_TenantID p = p_TenantID q /\ p_MerchantID p = p_MerchantID q /\ k = l /\ v = w.
Proof.
  intros [Hp1 Hp2] [Hq1 Hq2] Hk Hl H. unfold scopeKey, US in H.
  change (String unit_sep "" +:+ ?x) with (String unit_sep x) in H.
  apply str_app_sep_inj in H as [H1 H]; [|done..].
  apply str_app_sep_inj in H as [H2 H]; [|done..].
  by apply str_app_sep_inj in H as [H3 H4].
Qed.

(** Ownership by a pair of tenant and merchant. *)
Definition same_owner (p q : Principal) : Prop :=
  p_TenantID p = p_TenantID q /\ p_MerchantID p = p_MerchantID q.

Lemma owned_by_iff t m p : owned_by t m p = true <-> t = p_TenantID p /\ m = p_MerchantID p.
Proof. unfold owned_by. by rewrite andb_true_iff, !String.eqb_eq. Qed.

Lemma owned_by_same t m p q : same_owner p q -> owned_by t m p = owned_by t m q.
Proof. intros [H1 H2]. unfold owned_by. by rewrite H1, H2. Qed.

(** ** The invariant *)

Definition on_chain_active (r : PaymentRoute) : Prop :=
  pr_Status r = RouteActive /\ pr_Provider r = RouteProviderOnChain.

Definition route_in (s : Store) (k : string) (r : PaymentRoute) : Prop :=
  exists p, st_intents s !! k = Some p /\ r ∈ pi_Routes p.

(** What an idempotency record of principal [p] refers to. *)
Definition idem_target (s : Store) (p : Principal) (kind : string) (rec : idempotencyRecord) : Prop :=
  if (kind == "create_payment_proof") then
    exists x, st_proofs s !! idem_ID rec = Some x /\ owned_by (pp_TenantID x) (pp_MerchantID x) p = true
  else if (kind == "reconciliation_report.create") then
    exists x, st_reports s !! idem_ID rec = Some x /\ owned_by (rr_TenantID x) (rr_MerchantID x) p = true
  else if (kind == "create_route") then
    exists k i r, st_intents s !! k = Some i /\ owns_intent p i = true /\ r ∈ pi_Routes i /\
      pr_ID r = idem_ID rec
  else
    exists i, st_intents s !! idem_ID rec = Some i /\ owns_intent p i = true.

Record store_inv (s : Store) : Prop := {
  si_keyed : forall k p, st_intents s !! k = Some p -> pi_ID p = k;
  si_route_owner : forall k r, route_in s k r -> pr_IntentID r = k;
  si_route_nodup : forall k p, st_intents s !! k = Some p -> NoDup (pr_ID <$> pi_Routes p);
  si_route_cross : forall k1 k2 r1 r2, route_in s k1 r1 -> route_in s k2 r2 ->
    pr_ID r1 = pr_ID r2 -> k1 = k2;
  si_reserved : forall k r, route_in s k r -> on_chain_active r ->
    st_reservations s !! ReservationKey r = Some (pr_ID r);
  si_idem : forall key rec, st_idempotency s !! key = Some rec ->
    exists p kind value, plain_principal p /\ str_no unit_sep kind = true /\
      key = scopeKey p kind value /\ idem_target s p kind rec;
  si_checkout : forall h id, st_checkoutByHash s !! h = Some id -> is_Some (st_intents s !! id);
  si_tokens : forall id, is_Some (st_checkoutTokens s !! id) -> is_Some (st_intents s !! id) }.

(** A closed route keeps its identity and is never reopened. *)
Definition route_evolves (r r' : PaymentRoute) : Prop :=
  pr_ID r' = pr_ID r /\ pr_IntentID r' = pr_IntentID r /\ ReservationKey r' = ReservationKey r /\
  pr_Provider r' = pr_Provider r /\ (pr_Status r' = RouteActive -> r' = r).

(** The facts about an intent that no operation changes. *)
Definition same_terms (p p' : PaymentIntent) : Prop :=
  pi_ID p' = pi_ID p /\ pi_TenantID p' = pi_TenantID p /\ pi_MerchantID p' = pi_MerchantID p /\
  pi_MerchantOrderID p' = pi_MerchantOrderID p /\ pi_AmountMinor p' = pi_AmountMinor p /\
  pi_Currency p' = pi_Currency p /\ pi_CurrencyScale p' = pi_CurrencyScale p /\
  pi_CreatedAt p' = pi_CreatedAt p.

Lemma same_terms_refl p : same_terms p p.
Proof. by unfold same_terms. Qed.

Lemma same_terms_trans p q r : same_terms p q -> same_terms q r -> same_terms p r.
Proof. unfold same_terms. intuition congruence. Qed.

Lemma owns_same_terms q p p' : same_terms p p' -> owns_intent q p' = owns_intent q p.
Proof. intros (_ & H1 & H2 & _). unfold owns_intent. by rewrite H1, H2. Qed.

(** ** Building blocks of the operations *)

Lemma Transition_spec p to reason now p' :
  Transition p to reason now = Ok p' ->
  CanTransitionIntent (pi_Status p) to = true /\ pi_Status p' = to /\ same_terms p p' /\
  pi_Routes p' = pi_Routes p /\ pi_Version p' = int64 (pi_Version p + 1).
Proof.
  unfold Transition. intros H. step_in H. injection H as <-. bool_hyp. simpl.
  by unfold same_terms.
Qed.

Lemma expire_routes_evolve now routes : Forall2 route_evolves routes (expire_routes now routes).
Proof.
  unfold expire_routes. rewrite Forall2_fmap_r. apply Forall_Forall2_diag, Forall_forall.
  intros r _. unfold route_evolves, compose. by case_bool_decide.
Qed.

Lemma cancel_routes_evolve routes : Forall2 route_evolves routes (cancel_routes routes).
Proof.
  unfold cancel_routes. rewrite Forall2_fmap_r. apply Forall_Forall2_diag, Forall_forall.
  intros r _. unfold route_evolves, compose. by case_bool_decide.
Qed.

Lemma routes_evolve_refl routes : Forall2 route_evolves routes routes.
Proof. apply Forall_Forall2_diag, Forall_forall. by unfold route_evolves. Qed.

(** The routes of a store after an intent is replaced. *)
Lemma route_in_insert s k p r k' :
  route_in (set_intents s (<[k := p]> (st_intents s))) k' r <->
  (k' = k /\ r ∈ pi_Routes p) \/ (k' <> k /\ route_in s k' r).
Proof.
  unfold route_in. simpl. destruct (decide (k' = k)) as [->|Hne].
  - rewrite lookup_insert_eq. naive_solver.
  - rewrite lookup_insert_ne by done. naive_solver.
Qed.

Lemma idem_target_insert s k p p' q kind rec :
  st_intents s !! k = Some p -> same_terms p p' ->
  (forall r, r ∈ pi_Routes p -> exists r', r' ∈ pi_Routes p' /\ pr_ID r' = pr_ID r) ->
  idem_target s q kind rec ->
  idem_target (set_intents s (<[k := p']> (st_intents s))) q kind rec.
Proof.
  intros Hp Hsame Hr. unfold idem_target. simpl.
  destruct (kind == "create_payment_proof"); [done|].
  destruct (kind == "reconciliation_report.create"); [done|].
  destruct (kind == "create_route").
  - intros (k0 & i & r & Hi & Ho & Hin & Hid).
    destruct (decide (k0 = k)) as [->|Hne].
    + assert (i = p) as -> by congruence. destruct (Hr r Hin) as (r' & Hin' & Hid').
      exists k, p', r'. rewrite lookup_insert_eq. split; [done|].
      rewrite (owns_same_terms _ _ _ Hsame). split; [done|]. split; [done|congruence].
    + exists k0, i, r. by rewrite lookup_insert_ne.
  - intros (i & Hi & Ho). destruct (decide (idem_ID rec = k)) as [<-|Hne].
    + assert (i = p) as -> by congruence. exists p'. rewrite lookup_insert_eq. split; [done|].
      by rewrite (owns_same_terms _ _ _ Hsame).
    + exists i. by rewrite lookup_insert_ne.
Qed.

Lemma is_Some_insert {A} (m : gmap string A) k v id :
  is_Some (m !! id) -> is_Some (<[k := v]> m !! id).
Proof.
  intros H. destruct (decide (k = id)) as [<-|Hne]; [rewrite lookup_insert_eq; by eexists|].
  by rewrite lookup_insert_ne.
Qed.

(** Replacing an intent by an evolved one keeps the invariant. *)
Lemma inv_update_intent s k p p' :
  store_inv s -> st_intents s !! k = Some p -> same_terms p p' ->
  Forall2 route_evolves (pi_Routes p) (pi_Routes p') ->
  store_inv (set_intents s (<[k := p']> (st_intents s))).
Proof.
  intros Hinv Hp Hsame Hev.
  assert (Hback : forall r', r' ∈ pi_Routes p' -> exists r, r ∈ pi_Routes p /\ route_evolves r r').
  { intros r' Hr'. apply list_elem_of_lookup in Hr' as [i Hi].
    destruct (Forall2_lookup_r _ _ _ _ _ Hev Hi) as (r & Hr & He).
    exists r. split; [by eapply list_elem_of_lookup_2|done]. }
  assert (Hfwd : forall r, r ∈ pi_Routes p -> exists r', r' ∈ pi_Routes p' /\ pr_ID r' = pr_ID r).
  { intros r Hr. apply list_elem_of_lookup in Hr as [i Hi].
    destruct (Forall2_lookup_l _ _ _ _ _ Hev Hi) as (r' & Hr' & He).
    exists r'. split; [by eapply list_elem_of_lookup_2|apply He]. }
  assert (Hids : pr_ID <$> pi_Routes p' = pr_ID <$> pi_Routes p).
  { clear -Hev. induction Hev as [|r r' l l' Hr Hl IH]; [done|].
    rewrite !fmap_cons, IH. f_equal. apply Hr. }
  assert (Hold : forall k' r', route_in (set_intents s (<[k := p']> (st_intents s))) k' r' ->
    exists r, route_in s k' r /\ route_evolves r r').
  { intros k' r' Hr'. apply route_in_insert in Hr' as [[-> Hr']|[Hne Hr']].
    - destruct (Hback r' Hr') as (r & Hr & He). exists r. split; [by exists p|done].
    - exists r'. split; [done|by unfold route_evolves]. }
  constructor.
  - intros k' q. simpl. destruct (decide (k' = k)) as [->|Hne].
    + rewrite lookup_insert_eq. intros [= <-]. destruct Hsame as [-> _]. by apply (si_keyed s Hinv).
    + rewrite lookup_insert_ne by done. apply (si_keyed s Hinv).
  - intros k' r' Hr'. destruct (Hold _ _ Hr') as (r & Hr & _ & -> & _). by apply (si_route_owner s Hinv).
  - intros k' q. simpl. destruct (decide (k' = k)) as [->|Hne].
    + rewrite lookup_insert_eq. intros [= <-]. rewrite Hids. by eapply (si_route_nodup s Hinv).
    + rewrite lookup_insert_ne by done. apply (si_route_nodup s Hinv).
  - intros k1 k2 r1 r2 H1 H2 Heq. destruct (Hold _ _ H1) as (q1 & Hq1 & Hi1 & _).
    destruct (Hold _ _ H2) as (q2 & Hq2 & Hi2 & _).
    eapply (si_route_cross s Hinv); [exact Hq1|exact Hq2|congruence].
  - intros k' r' Hr' [Hact Hprov]. destruct (Hold _ _ Hr') as (r & Hr & He).
    destruct He as (_ & _ & _ & _ & Heq). specialize (Heq Hact) as ->.
    by apply (si_reserved s Hinv k').
  - intros key rec Hk. destruct (si_idem s Hinv key rec Hk) as (q & kind & v & Hq & Hkind & -> & Ht).
    exists q, kind, v. split; [done|]. split; [done|]. split; [done|].
    by eapply idem_target_insert.
  - intros h id Hh. by apply is_Some_insert, (si_checkout s Hinv h id).
  - intros id Hid. by apply is_Some_insert, (si_tokens s Hinv).
Qed.

(** Two routes with the same identifier are the same route. *)
Lemma route_unique s k1 k2 r1 r2 :
  store_inv s -> route_in s k1 r1 -> route_in s k2 r2 -> pr_ID r1 = pr_ID r2 -> r1 = r2.
Proof.
  intros Hinv H1 H2 Heq. assert (k1 = k2) as <- by (by eapply (si_route_cross s Hinv)).
  destruct H1 as (p & Hp & H1), H2 as (q & Hq & H2). assert (q = p) as -> by congruence.
  eapply (NoDup_fmap_inj_on pr_ID); eauto. by eapply (si_route_nodup s Hinv).
Qed.

(** Recording an idempotency key for an existing target keeps the invariant. *)
Lemma inv_put_idem s p kind value rec :
  store_inv s -> plain_principal p -> str_no unit_sep kind = true ->
  idem_target s p kind rec -> store_inv (put_idem s (scopeKey p kind value) rec).
Proof.
  intros [] Hp Hkind Ht. constructor; try done.
  intros key rec'. simpl. destruct (decide (key = scopeKey p kind value)) as [->|Hne].
  - rewrite lookup_insert_eq. intros [= <-]. exists p, kind, value. done.
  - rewrite lookup_insert_ne by done. intros H. by apply si_idem0.
Qed.

Lemma inv_emit s ev : store_inv s -> store_inv (emit s ev).
Proof. intros []. by constructor. Qed.

(** ** The state machine *)

(** Identifiers that [ids.New] has not returned before. *)
Definition fresh_id (s : Store) (id : string) : Prop :=
  st_intents s !! id = None /\ st_proofs s !! id = None /\ st_reports s !! id = None /\
  (forall k r, route_in s k r -> pr_ID r <> id) /\ (forall key, st_reservations s !! key <> Some id).

Definition fresh_env (s : Store) (e : env) : Prop :=
  (forall id, env_id1 e = Some id -> fresh_id s id) /\
  (forall token h, env_token e = Some (token, h) -> st_checkoutByHash s !! h = None).

Section machine.
Context (marshal : list (string * string) -> string).

(** One operation, successful or not, of the caller [actor] ([None]: the grace
    sweeper). *)
Inductive acts (s : Store) : option Principal -> Store -> Prop :=
  | act_expire e cmd h : plain_principal (cl_Principal cmd) ->
    acts s (Some (cl_Principal cmd)) (fst (ExpireIntent e cmd h s))
  | act_metadata e cmd h : plain_principal (um_Principal cmd) ->
    acts s (Some (um_Principal cmd)) (fst (UpdateIntentMetadata e cmd h s))
  | act_proof e cmd h : plain_principal (sp_Principal cmd) -> fresh_env s e ->
    acts s (Some (sp_Principal cmd)) (fst (CreatePaymentProof marshal e cmd h s))
  | act_create e cmd h : plain_principal (ci_Principal cmd) -> fresh_env s e ->
    acts s (Some (ci_Principal cmd)) (fst (CreateIntent marshal e cmd h s))
  | act_route e cmd h : plain_principal (crt_Principal cmd) -> fresh_env s e ->
    acts s (Some (crt_Principal cmd)) (fst (CreateRoute marshal e cmd h s))
  | act_cancel e cmd h : plain_principal (cl_Principal cmd) ->
    acts s (Some (cl_Principal cmd)) (fst (CancelIntent marshal e cmd h s))
  | act_report e cmd h : plain_principal (cp_Principal cmd) -> fresh_env s e ->
    acts s (Some (cp_Principal cmd)) (fst (CreateReconciliationReport e cmd h s))
  | act_release now limit order : acts s None (fst (ReleaseElapsedRouteGrace now limit order s)).

Definition step (s s' : Store) : Prop := exists actor, acts s actor s'.

Definition reachable (s : Store) : Prop := rtc step NewStore s.

Lemma inv_new : store_inv NewStore.
Proof.
  constructor; simpl; try (intros *; by rewrite lookup_empty); intros *;
    unfold route_in; simpl; (intros (p & Hp & _) || intros (p & Hp & _) _); by rewrite lookup_empty in Hp.
Qed.

(** A new, empty intent under a fresh identifier. *)
Lemma inv_new_intent s p :
  store_inv s -> fresh_id s (pi_ID p) -> pi_Routes p = [] -> store_inv (put_intent s p).
Proof.
  intros Hinv (Hf & _) Hr.
  assert (Hin : forall k r, route_in (put_intent s p) k r -> route_in s k r).
  { intros k r H. apply route_in_insert in H as [[_ H]|[_ H]]; [|done].
    rewrite Hr in H. by apply elem_of_nil in H. }
  assert (Hkeep : forall k i, st_intents s !! k = Some i -> st_intents (put_intent s p) !! k = Some i).
  { intros k i Hi. simpl. rewrite lookup_insert_ne; congruence. }
  destruct Hinv. constructor; simpl.
  - intros k q. destruct (decide (pi_ID p = k)) as [<-|Hne].
    + rewrite lookup_insert_eq. by intros [= <-].
    + rewrite lookup_insert_ne by done. apply si_keyed0.
  - intros k r H. apply (si_route_owner0 k), Hin, H.
  - intros k q. destruct (decide (pi_ID p = k)) as [<-|Hne].
    + rewrite lookup_insert_eq. intros [= <-]. rewrite Hr. constructor.
    + rewrite lookup_insert_ne by done. apply si_route_nodup0.
  - intros k1 k2 r1 r2 H1 H2. apply si_route_cross0; by apply Hin.
  - intros k r H. apply (si_reserved0 k), Hin, H.
  - intros key rec H. destruct (si_idem0 key rec H) as (q & kind & v & Hq & Hk & -> & Ht).
    exists q, kind, v. split; [done|]. split; [done|]. split; [done|]. revert Ht. unfold idem_target.
    destruct (kind == "create_payment_proof"); [done|].
    destruct (kind == "reconciliation_report.create"); [done|].
    destruct (kind == "create_route").
    + intros (k & i & r & Hi & H'). exists k, i, r. split; [by apply Hkeep|done].
    + intros (i & Hi & H'). exists i. split; [by apply Hkeep|done].
  - intros h id H. destruct (si_checkout0 h id H) as [i Hi]. exists i. by apply Hkeep.
  - intros id H. destruct (si_tokens0 id H) as [i Hi]. exists i. by apply Hkeep.
Qed.

(** A new route on an intent, with its reservation when it is on chain. *)
Lemma inv_new_route s k p p' r g :
  store_inv s -> st_intents s !! k = Some p -> same_terms p p' ->
  pi_Routes p' = pi_Routes p ++ [r] -> fresh_id s (pr_ID r) -> pr_IntentID r = k ->
  (pr_Provider r = RouteProviderOnChain -> st_reservations s !! ReservationKey r = None) ->
  let s1 := if pr_Provider r == RouteProviderOnChain
            then set_reservations s (<[ReservationKey r := pr_ID r]> (st_reservations s)) g else s in
  store_inv (set_intents s1 (<[k := p']> (st_intents s1))).
Proof.
  intros Hinv Hp Hsame Hroutes (Hf & _ & _ & Hfr & _) Hk Hres s1.
  assert (Hint : st_intents s1 = st_intents s) by (unfold s1; by destruct (_ == _)).
  assert (Hother : st_idempotency s1 = st_idempotency s /\ st_checkoutByHash s1 = st_checkoutByHash s /\
    st_proofs s1 = st_proofs s /\ st_reports s1 = st_reports s /\
    st_checkoutTokens s1 = st_checkoutTokens s) by (unfold s1; by destruct (_ == _)).
  destruct Hother as (Hidem & Hco & Hpr & Hrep & Htok).
  assert (Hin : forall k' x, route_in (set_intents s1 (<[k := p']> (st_intents s1))) k' x ->
    route_in s k' x \/ (k' = k /\ x = r)).
  { intros k' x H. apply route_in_insert in H as [[-> H]|[Hne H]].
    - rewrite Hroutes, elem_of_app, list_elem_of_singleton in H.
      destruct H as [H| ->]; [left; by exists p|by right].
    - left. unfold route_in in *. by rewrite Hint in H. }
  constructor.
  - intros k' q. simpl. rewrite Hint. destruct (decide (k' = k)) as [->|Hne].
    + rewrite lookup_insert_eq. intros [= <-]. destruct Hsame as [-> _]. by apply (si_keyed s Hinv).
    + rewrite lookup_insert_ne by done. apply (si_keyed s Hinv).
  - intros k' x Hx. destruct (Hin _ _ Hx) as [H|[-> ->]]; [by apply (si_route_owner s Hinv)|done].
  - intros k' q. simpl. rewrite Hint. destruct (decide (k' = k)) as [->|Hne].
    + rewrite lookup_insert_eq. intros [= <-]. rewrite Hroutes, fmap_app.
      change (pr_ID <$> [r]) with [pr_ID r]. apply NoDup_app. split; [by eapply (si_route_nodup s Hinv)|]. split; [|apply NoDup_singleton].
      intros x (x' & -> & Hx')%list_elem_of_fmap. rewrite list_elem_of_singleton.
      apply (Hfr k). by exists p.
    + rewrite lookup_insert_ne by done. apply (si_route_nodup s Hinv).
  - intros k1 k2 r1 r2 H1 H2 Heq.
    destruct (Hin _ _ H1) as [H1'|[-> ->]], (Hin _ _ H2) as [H2'|[-> ->]]; [|..|done].
    + by eapply (si_route_cross s Hinv).
    + by destruct (Hfr _ _ H1').
    + by destruct (Hfr _ _ H2').
  - intros k' x Hx Hact. simpl. unfold s1. destruct (Hin _ _ Hx) as [H|[-> ->]].
    + pose proof (si_reserved s Hinv _ _ H Hact) as Hr.
      destruct (pr_Provider r == RouteProviderOnChain) eqn:E; [|done]. bool_hyp. simpl.
      rewrite lookup_insert_ne; [done|]. intros Heq. rewrite <- Heq, Hres in Hr by done. done.
    + destruct Hact as [_ Hprov]. rewrite (proj2 (String.eqb_eq _ _) Hprov). simpl.
      by rewrite lookup_insert_eq.
  - intros key rec H. simpl in H. rewrite Hidem in H.
    destruct (si_idem s Hinv key rec H) as (q & kind & v & Hq & Hkind & -> & Ht).
    exists q, kind, v. split; [done|]. split; [done|]. split; [done|].
    apply (idem_target_insert s k p p') in Ht; [|done|done|].
    + revert Ht. unfold idem_target. simpl. by rewrite Hint, Hpr, Hrep.
    + intros x Hx. exists x. split; [rewrite Hroutes; apply elem_of_app; by left|done].
  - intros h id H. simpl in H |- *. rewrite Hco in H. rewrite Hint.
    by apply is_Some_insert, (si_checkout s Hinv h id).
  - intros id H. simpl in H |- *. rewrite Htok in H. rewrite Hint.
    by apply is_Some_insert, (si_tokens s Hinv).
Qed.

(** Releasing a reservation whose route is terminal keeps the invariant. *)
Lemma inv_release s key g :
  store_inv s -> some_terminal s (default "" (st_reservations s !! key)) = true ->
  store_inv (set_reservations s (delete key (st_reservations s)) g).
Proof.
  intros Hinv Hterm. assert (Hinv' := Hinv). destruct Hinv'. constructor; simpl; try done.
  intros k r Hr Hact. change (route_in s k r) in Hr.
  pose proof (si_reserved0 k r Hr Hact) as Hres.
  rewrite lookup_delete_ne; [done|]. intros ->. rewrite Hres in Hterm. simpl in Hterm.
  unfold some_terminal in Hterm. apply existsb_exists in Hterm as ([k' p] & Hin & Ht).
  apply existsb_exists in Ht as (r' & Hr' & Ht). bool_hyp. simpl in Hr'.
  apply list_elem_of_In, elem_of_map_to_list in Hin.
  assert (r' = r) as ->.
  { apply (route_unique s k' k); [done| |done|done]. exists p. split; [done|by apply list_elem_of_In]. }
  destruct Hact as [Hact _]. unfold route_terminal in *. by rewrite Hact in *.
Qed.

Lemma inv_sweep now limit order : forall released s,
  store_inv s -> store_inv (fst (sweep now limit released order s)).
Proof.
  induction order as [|key order IH]; intros released s Hinv; simpl; [done|].
  repeat case_match; bool_hyp; auto. apply IH, inv_release; auto.
Qed.

Lemma attach_route_spec now p r :
  let p' := attach_route now p r in
  same_terms p p' /\ pi_Routes p' = pi_Routes p ++ [r] /\
  (pi_Status p' = pi_Status p \/ CanTransitionIntent (pi_Status p) (pi_Status p') = true) /\
  pi_Version p' = int64 (pi_Version p + 1).
Proof.
  unfold attach_route. simpl. case_bool_decide as Hs; simpl;
    [|split; [by unfold same_terms|auto]].
  destruct (Transition _ _ _ _) as [q|] eqn:E.
  - apply Transition_spec in E as (Hc & Hq & Hsame & Hr & Hv). simpl in Hc, Hr, Hv.
    split; [by unfold same_terms in *; simpl in Hsame|]. split; [done|].
    split; [right; congruence|done].
  - exfalso. unfold Transition in E. simpl in E. by rewrite Hs in E.
Qed.

Lemma owner_self p i : pi_TenantID i = p_TenantID p -> pi_MerchantID i = p_MerchantID p ->
  owns_intent p i = true.
Proof. intros H1 H2. apply owned_by_iff. done. Qed.

(** The idempotency kinds that refer to an intent. *)
Lemma intent_target s p kind rec i :
  kind ∈ ["expire_intent"; "update_intent_metadata"; "create_intent"; "cancel_intent"] ->
  st_intents s !! idem_ID rec = Some i -> owns_intent p i = true -> idem_target s p kind rec.
Proof.
  intros Hk Hi Ho. unfold idem_target.
  assert (kind == "create_payment_proof" = false /\ kind == "reconciliation_report.create" = false /\
          kind == "create_route" = false) as (-> & -> & ->).
  { rewrite !elem_of_cons in Hk. by destruct Hk as [->|[->|[->|[->|?%elem_of_nil]]]]. }
  eauto.
Qed.

(** Replacing an owned intent by an evolved one and recording the request. *)
Lemma inv_update_and_record s p i i' kind value h :
  kind ∈ ["expire_intent"; "update_intent_metadata"; "create_intent"; "cancel_intent"] ->
  store_inv s -> plain_principal p -> st_intents s !! pi_ID i = Some i -> owns_intent p i = true ->
  same_terms i i' -> Forall2 route_evolves (pi_Routes i) (pi_Routes i') ->
  store_inv (put_idem (put_intent s i') (scopeKey p kind value) (mkIdem h "intent" (pi_ID i'))).
Proof.
  intros Hk Hinv Hp Hi Ho Hsame Hev.
  assert (pi_ID i' = pi_ID i) as Hid by apply Hsame.
  apply inv_put_idem; [|done| |].
  - unfold put_intent. rewrite Hid. by apply (inv_update_intent s _ i).
  - rewrite !elem_of_cons in Hk. by destruct Hk as [->|[->|[->|[->|?%elem_of_nil]]]].
  - eapply (intent_target _ _ _ _ i'); [done| |by rewrite (owns_same_terms _ i)].
    simpl. apply lookup_insert_eq.
Qed.

Ltac branches := repeat (case_match; cbn [fst]; try done); bool_hyp.

(** Use the stored intent of the goal under its own identifier. *)
Ltac stored_intent Hinv :=
  match goal with
  | H : st_intents ?s !! _ = Some ?i |- _ =>
      let Hid := fresh "Hid" in
      pose proof (si_keyed s Hinv _ _ H) as Hid; rewrite <- Hid in H
  end.

Ltac transition_facts :=
  match goal with
  | H : Transition _ _ _ _ = Ok _ |- _ =>
      let Hc := fresh "Hcan" in let Hs := fresh "Hstatus" in let Ht := fresh "Hsame" in
      let Hr := fresh "Hroutes" in let Hv := fresh "Hversion" in
      apply Transition_spec in H as (Hc & Hs & Ht & Hr & Hv)
  end.

Lemma intent_kind_In kind :
  In kind ["expire_intent"; "update_intent_metadata"; "create_intent"; "cancel_intent"] ->
  kind ∈ ["expire_intent"; "update_intent_metadata"; "create_intent"; "cancel_intent"].
Proof. apply list_elem_of_In. Qed.

Lemma inv_ExpireIntent e cmd h s :
  store_inv s -> plain_principal (cl_Principal cmd) -> store_inv (fst (ExpireIntent e cmd h s)).
Proof.
  intros Hinv Hp. unfold ExpireIntent. branches. transition_facts. stored_intent Hinv.
  eapply inv_update_and_record; try done; [apply intent_kind_In; simpl; auto|].
  simpl. rewrite Hroutes. apply expire_routes_evolve.
Qed.

Lemma inv_UpdateIntentMetadata e cmd h s :
  store_inv s -> plain_principal (um_Principal cmd) ->
  store_inv (fst (UpdateIntentMetadata e cmd h s)).
Proof.
  intros Hinv Hp. unfold UpdateIntentMetadata. branches. stored_intent Hinv.
  eapply inv_update_and_record; try done; [apply intent_kind_In; simpl; auto|].
  apply routes_evolve_refl.
Qed.

Lemma inv_CancelIntent e cmd h s :
  store_inv s -> plain_principal (cl_Principal cmd) -> store_inv (fst (CancelIntent marshal e cmd h s)).
Proof.
  intros Hinv Hp. unfold CancelIntent. branches; transition_facts.
  - apply inv_emit. stored_intent Hinv.
    eapply inv_update_and_record; try done; [apply intent_kind_In; simpl; auto|].
    simpl. rewrite Hroutes. apply cancel_routes_evolve.
  - eapply inv_update_intent; try done. simpl. rewrite Hroutes. apply cancel_routes_evolve.
Qed.

(** Proofs and reports do not touch the intents. *)
Lemma inv_put_proof s x : store_inv s -> st_proofs s !! pp_ID x = None -> store_inv (put_proof s x).
Proof.
  intros [] Hf. constructor; try done. intros key rec H.
  destruct (si_idem0 key rec H) as (q & kind & v & Hq & Hk & -> & Ht).
  exists q, kind, v. split; [done|]. split; [done|]. split; [done|]. revert Ht. unfold idem_target. simpl.
  destruct (kind == "create_payment_proof"); [|done].
  intros (y & Hy & Ho). exists y. rewrite lookup_insert_ne; [done|]. congruence.
Qed.

Lemma inv_put_report s x : store_inv s -> st_reports s !! rr_ID x = None -> store_inv (put_report s x).
Proof.
  intros [] Hf. constructor; try done. intros key rec H.
  destruct (si_idem0 key rec H) as (q & kind & v & Hq & Hk & -> & Ht).
  exists q, kind, v. split; [done|]. split; [done|]. split; [done|]. revert Ht. unfold idem_target. simpl.
  destruct (kind == "create_payment_proof"); [done|].
  destruct (kind == "reconciliation_report.create"); [|done].
  intros (y & Hy & Ho). exists y. rewrite lookup_insert_ne; [done|]. congruence.
Qed.

Lemma inv_CreatePaymentProof e cmd h s :
  store_inv s -> plain_principal (sp_Principal cmd) -> fresh_env s e ->
  store_inv (fst (CreatePaymentProof marshal e cmd h s)).
Proof.
  intros Hinv Hp [Hf _]. unfold CreatePaymentProof. branches. apply inv_emit, inv_put_idem; try done.
  - apply inv_put_proof; [done|]. simpl. by apply Hf.
  - unfold idem_target. simpl. eexists. rewrite lookup_insert_eq. split; [done|]. by apply owned_by_iff.
Qed.

Lemma inv_CreateReconciliationReport e cmd h s :
  store_inv s -> plain_principal (cp_Principal cmd) -> fresh_env s e ->
  store_inv (fst (CreateReconciliationReport e cmd h s)).
Proof.
  intros Hinv Hp [Hf _]. unfold CreateReconciliationReport. branches. apply inv_put_idem; try done.
  - apply inv_put_report; [done|]. simpl. by apply Hf.
  - unfold idem_target. simpl. eexists. rewrite lookup_insert_eq. split; [done|]. by apply owned_by_iff.
Qed.

Lemma inv_put_checkout s hash id token orderKey :
  store_inv s -> is_Some (st_intents s !! id) -> store_inv (put_checkout s hash id token orderKey).
Proof.
  intros [] Hid. constructor; try done.
  - intros h' id'. simpl. destruct (decide (hash = h')) as [<-|Hne].
    + rewrite lookup_insert_eq. by intros [= <-].
    + rewrite lookup_insert_ne by done. apply si_checkout0.
  - intros id'. simpl. destruct (decide (id = id')) as [<-|Hne]; [done|].
    rewrite lookup_insert_ne by done. apply si_tokens0.
Qed.

Lemma inv_CreateIntent e cmd h s :
  store_inv s -> plain_principal (ci_Principal cmd) -> fresh_env s e ->
  store_inv (fst (CreateIntent marshal e cmd h s)).
Proof.
  intros Hinv Hp [Hf _]. unfold CreateIntent. branches. apply inv_emit, inv_put_idem; try done.
  - apply inv_put_checkout.
    + apply inv_new_intent; [done| |done]. simpl. by apply Hf.
    + simpl. rewrite lookup_insert_eq. by eexists.
  - eapply intent_target; [apply intent_kind_In; simpl; auto|simpl; apply lookup_insert_eq|].
    by apply owned_by_iff.
Qed.

Lemma inv_CreateRoute e cmd h s :
  store_inv s -> plain_principal (crt_Principal cmd) -> fresh_env s e ->
  store_inv (fst (CreateRoute marshal e cmd h s)).
Proof.
  intros Hinv Hp [Hf _]. unfold CreateRoute.
  destruct (st_idempotency s !! _); [branches|].
  destruct (st_intents s !! crt_IntentID cmd) as [p|] eqn:Ep; [|done].
  destruct (negb (owns_intent _ p)) eqn:Eo; [done|].
  destruct (negb _ && negb _); [done|].
  destruct (env_id1 e) as [id|] eqn:Eid; [|done]. specialize (Hf id eq_refl).
  set (r := new_route e cmd id (pi_ID p)).
  pose proof (si_keyed s Hinv _ _ Ep) as Hid.
  assert (Hnone : forall b, b && match st_reservations s !! ReservationKey r with
    | Some existing => existing != id | None => false end = false ->
    b = true -> st_reservations s !! ReservationKey r = None).
  { intros b Hb ->. destruct (st_reservations s !! ReservationKey r) as [x|] eqn:Ex; [|done].
    simpl in Hb. bool_hyp. subst x. by destruct Hf as (_ & _ & _ & _ & Hres); destruct (Hres (ReservationKey r)). }
  destruct (_ && _) eqn:Eres; [done|]. specialize (Hnone _ Eres).
  destruct (attach_route_spec (env_now e) p r) as (Hsame & Hroutes & _ & _).
  set (p' := attach_route (env_now e) p r) in *.
  assert (Hid' : pi_ID p' = crt_IntentID cmd) by (destruct Hsame as [-> _]; done).
  destruct (env_id2 e) as [eventID|]; cbn [fst].
  - apply inv_emit, inv_put_idem; [|done|done|].
    + unfold put_intent. rewrite Hid'. apply (inv_new_route s _ p p' r); try done.
      intros Hpv. apply Hnone. by apply String.eqb_eq.
    + unfold idem_target. simpl. exists (crt_IntentID cmd), p', r. rewrite Hid', lookup_insert_eq.
      split; [done|]. rewrite (owns_same_terms _ p) by done. bool_hyp. split; [done|].
      split; [|done]. rewrite Hroutes. apply elem_of_app. right. by apply list_elem_of_singleton.
  - destruct (pr_Provider r == RouteProviderOnChain) eqn:Eon; [|done].
    assert (Hinv' := Hinv). destruct Hinv'. constructor; try done.
    intros k x Hx Hact. simpl. rewrite lookup_insert_ne; [by apply (si_reserved0 k)|].
    intros Heq. pose proof (si_reserved0 k x Hx Hact) as Hx'. rewrite <- Heq, Hnone in Hx'; done.
Qed.

(** Every operation keeps the invariant. *)
Lemma step_inv s s' : store_inv s -> step s s' -> store_inv s'.
Proof.
  intros Hinv [actor Hstep]. destruct Hstep;
    auto using inv_ExpireIntent, inv_UpdateIntentMetadata, inv_CreatePaymentProof, inv_CreateIntent,
      inv_CreateRoute, inv_CancelIntent, inv_CreateReconciliationReport.
  unfold ReleaseElapsedRouteGrace. case_match; [done|].
  destruct (sweep now limit 0 order s) as [s1 n] eqn:E. simpl.
  change s1 with (fst (s1, n)). rewrite <- E. by apply inv_sweep.
Qed.

Lemma run_inv s s' : store_inv s -> rtc step s s' -> store_inv s'.
Proof. intros Hinv Hrun. induction Hrun; eauto using step_inv. Qed.

Lemma reachable_inv s : reachable s -> store_inv s.
Proof. apply run_inv, inv_new. Qed.

(** ** How a store evolves *)

Definition status_step (a b : IntentStatus) : Prop := CanTransitionIntent a b = true.

(** The later form of an intent: same terms, a status reached by allowed
    transitions, and all its routes still there. *)
Definition intent_later (p p' : PaymentIntent) : Prop :=
  same_terms p p' /\ rtc status_step (pi_Status p) (pi_Status p') /\
  sublist (pr_ID <$> pi_Routes p) (pr_ID <$> pi_Routes p').

Record evolves (s s' : Store) : Prop := {
  ev_intents : forall k p, st_intents s !! k = Some p ->
    exists p', st_intents s' !! k = Some p' /\ intent_later p p';
  ev_idem : st_idempotency s ⊆ st_idempotency s';
  ev_orders : st_merchantOrders s ⊆ st_merchantOrders s';
  ev_tokens : st_checkoutTokens s ⊆ st_checkoutTokens s';
  ev_outbox : st_outbox s `prefix_of` st_outbox s' }.

Lemma intent_later_refl p : intent_later p p.
Proof. split; [apply same_terms_refl|]. split; [apply rtc_refl|done]. Qed.

Lemma intent_later_trans p q r : intent_later p q -> intent_later q r -> intent_later p r.
Proof.
  intros (H1 & H2 & H3) (H4 & H5 & H6). split; [by eapply same_terms_trans|].
  split; [by etrans|by etrans].
Qed.

Lemma evolves_refl s : evolves s s.
Proof. constructor; try done. intros k p Hp. exists p. split; [done|apply intent_later_refl]. Qed.

Lemma evolves_trans s1 s2 s3 : evolves s1 s2 -> evolves s2 s3 -> evolves s1 s3.
Proof.
  intros [] []. constructor; try (by etrans).
  intros k p Hp. destruct (ev_intents0 k p Hp) as (q & Hq & Hpq).
  destruct (ev_intents1 k q Hq) as (r & Hr & Hqr). eauto using intent_later_trans.
Qed.

Lemma evolve_ids l l' : Forall2 route_evolves l l' -> pr_ID <$> l' = pr_ID <$> l.
Proof. induction 1 as [|r r' l l' Hr _ IH]; [done|]. rewrite !fmap_cons, IH. f_equal. apply Hr. Qed.

Lemma evolves_put_idem s key rec : st_idempotency s !! key = None -> evolves s (put_idem s key rec).
Proof.
  intros H. destruct (evolves_refl s). constructor; try done. simpl. by apply insert_subseteq.
Qed.

Lemma evolves_emit s e : evolves s (emit s e).
Proof. destruct (evolves_refl s). constructor; try done. simpl. by apply prefix_app_r. Qed.

Lemma evolves_set_intent s k p p' :
  st_intents s !! k = Some p -> intent_later p p' ->
  evolves s (set_intents s (<[k := p']> (st_intents s))).
Proof.
  intros Hp Hl. destruct (evolves_refl s). constructor; try done. intros k' q Hq. simpl.
  destruct (decide (k = k')) as [<-|Hne].
  - rewrite lookup_insert_eq. exists p'. split; [done|]. by replace q with p by congruence.
  - rewrite lookup_insert_ne by done. exists q. split; [done|apply intent_later_refl].
Qed.

(** An operation that replaces an intent and records the request. *)
Lemma evolves_update s k p p' key rec :
  st_intents s !! k = Some p -> pi_ID p' = k -> intent_later p p' ->
  st_idempotency s !! key = None -> evolves s (put_idem (put_intent s p') key rec).
Proof.
  intros Hp Hid Hl Hkey. eapply evolves_trans; [|by apply evolves_put_idem].
  unfold put_intent. rewrite Hid. by apply (evolves_set_intent s k p).
Qed.

Lemma later_transition p p' q to :
  same_terms p p' -> CanTransitionIntent (pi_Status p) to = true -> pi_Status p' = to ->
  pr_ID <$> pi_Routes q = pr_ID <$> pi_Routes p -> same_terms p' q -> pi_Status q = pi_Status p' ->
  intent_later p q.
Proof.
  intros Hs Hc Hto Hr Hq Hst. split; [by eapply same_terms_trans|]. split; [|by rewrite Hr].
  apply rtc_once. unfold status_step. congruence.
Qed.

Lemma evolves_CreateRoute e cmd h s :
  store_inv s -> fresh_env s e -> evolves s (fst (CreateRoute marshal e cmd h s)).
Proof.
  intros Hinv _. pose proof (evolves_refl s) as Hrefl. unfold CreateRoute.
  destruct (st_idempotency s !! _) eqn:Ek; [branches|].
  destruct (st_intents s !! crt_IntentID cmd) as [p|] eqn:Ep; [|done].
  destruct (negb (owns_intent _ p)); [done|]. destruct (negb _ && negb _); [done|].
  destruct (env_id1 e) as [id|]; [|done]. set (r := new_route e cmd id (pi_ID p)).
  destruct (_ && _); [done|].
  destruct (attach_route_spec (env_now e) p r) as (Hsame & Hroutes & Hst & _).
  set (p' := attach_route (env_now e) p r) in *.
  set (s1 := if pr_Provider r == RouteProviderOnChain then _ else s).
  assert (Hs1 : evolves s s1) by (unfold s1; destruct (_ == _); [by destruct Hrefl|done]).
  destruct (env_id2 e) as [eventID|]; [|done].
  eapply evolves_trans; [exact Hs1|]. cbn [fst].
  eapply evolves_trans; [|apply evolves_emit].
  apply (evolves_update s1 (crt_IntentID cmd) p); [unfold s1; by destruct (_ == _)| | |
    unfold s1; by destruct (_ == _)].
  - destruct Hsame as [-> _]. by apply (si_keyed s Hinv).
  - split; [done|]. split; [destruct Hst as [->|?]; [apply rtc_refl|by apply rtc_once]|].
    rewrite Hroutes, fmap_app. apply sublist_inserts_r. done.
Qed.

Lemma evolves_sweep now limit order : forall released s, evolves s (fst (sweep now limit released order s)).
Proof.
  induction order as [|key order IH]; intros released s; simpl; [apply evolves_refl|].
  repeat case_match; auto. eapply evolves_trans; [|apply IH]. by destruct (evolves_refl s).
Qed.

Lemma evolves_ExpireIntent e cmd h s : store_inv s -> evolves s (fst (ExpireIntent e cmd h s)).
Proof.
  intros Hinv. pose proof (evolves_refl s) as Hrefl. unfold ExpireIntent. branches. transition_facts.
  eapply evolves_update; [done| | |done].
  - simpl. destruct Hsame as [-> _]. by apply (si_keyed s Hinv).
  - eapply (later_transition _ _ _ IntentExpired); try done.
    simpl. rewrite Hroutes. apply evolve_ids, expire_routes_evolve.
Qed.

Lemma evolves_CancelIntent e cmd h s : store_inv s -> evolves s (fst (CancelIntent marshal e cmd h s)).
Proof.
  intros Hinv. pose proof (evolves_refl s) as Hrefl. unfold CancelIntent. branches; transition_facts.
  - eapply evolves_trans; [|apply evolves_emit]. eapply evolves_update; [done| | |done].
    + simpl. destruct Hsame as [-> _]. by apply (si_keyed s Hinv).
    + eapply (later_transition _ _ _ IntentCancelled); try done.
      simpl. rewrite Hroutes. apply evolve_ids, cancel_routes_evolve.
  - eapply evolves_set_intent; [done|]. split; [done|]. split; [apply rtc_refl|].
    simpl. by rewrite Hroutes, (evolve_ids _ _ (cancel_routes_evolve _)).
Qed.

Lemma evolves_UpdateIntentMetadata e cmd h s :
  store_inv s -> evolves s (fst (UpdateIntentMetadata e cmd h s)).
Proof.
  intros Hinv. pose proof (evolves_refl s) as Hrefl. unfold UpdateIntentMetadata. branches.
  eapply evolves_update; [done|simpl; by apply (si_keyed s Hinv)| |done].
  split; [done|]. split; [apply rtc_refl|done].
Qed.

Lemma evolves_CreateIntent e cmd h s :
  store_inv s -> fresh_env s e -> evolves s (fst (CreateIntent marshal e cmd h s)).
Proof.
  intros Hinv [Hf _]. pose proof (evolves_refl s) as Hrefl. unfold CreateIntent. branches.
  destruct (Hf _ eq_refl) as (Hnone & _).
  eapply evolves_trans; [|apply evolves_emit]. eapply evolves_trans; [|by apply evolves_put_idem].
  constructor; simpl; try done.
  - intros k q Hq. exists q. rewrite lookup_insert_ne by congruence.
    split; [done|apply intent_later_refl].
  - by apply insert_subseteq.
  - apply insert_subseteq, eq_None_not_Some. intros Hs.
    apply (si_tokens s Hinv) in Hs as [? ?]. congruence.
Qed.

Lemma evolves_proof_report s s' key rec :
  evolves s s' -> st_idempotency s' !! key = None -> evolves s (put_idem s' key rec).
Proof. intros H1 H2. eapply evolves_trans; [exact H1|by apply evolves_put_idem]. Qed.

Lemma step_evolves s s' : store_inv s -> step s s' -> evolves s s'.
Proof.
  intros Hinv [actor Hstep]. pose proof (evolves_refl s) as Hrefl.
  destruct Hstep; auto using evolves_ExpireIntent, evolves_UpdateIntentMetadata, evolves_CreateIntent,
    evolves_CreateRoute, evolves_CancelIntent.
  - unfold CreatePaymentProof. branches. eapply evolves_trans; [|apply evolves_emit].
    apply evolves_proof_report; [by destruct Hrefl|done].
  - unfold CreateReconciliationReport. branches.
    apply evolves_proof_report; [by destruct Hrefl|done].
  - unfold ReleaseElapsedRouteGrace. case_match; [done|].
    destruct (sweep now limit 0 order s) as [s1 n] eqn:E. simpl.
    change s1 with (fst (s1, n)). rewrite <- E. apply evolves_sweep.
Qed.

Lemma run_evolves s s' : store_inv s -> rtc step s s' -> evolves s s'.
Proof.
  intros Hinv Hrun. induction Hrun as [s|s s1 s' Hs Hrun IH]; [apply evolves_refl|].
  eapply evolves_trans; [by apply step_evolves|]. apply IH. by eapply step_inv.
Qed.

(** ** Tenancy *)

Lemma idem_target_same s p q kind rec :
  same_owner p q -> idem_target s p kind rec -> idem_target s q kind rec.
Proof.
  intros Hpq. unfold idem_target, owns_intent.
  repeat case_match; naive_solver (by rewrite <- (owned_by_same _ _ p q)).
Qed.

(** A recorded request of [p] refers to something of [p]. *)
Lemma replay_target s p kind value rec :
  store_inv s -> plain_principal p -> str_no unit_sep kind = true ->
  st_idempotency s !! scopeKey p kind value = Some rec -> idem_target s p kind rec.
Proof.
  intros Hinv Hp Hk H.
  destruct (si_idem s Hinv _ _ H) as (q & kind' & v & Hq & Hk' & Heq & Ht).
  apply scopeKey_inj in Heq as (H1 & H2 & -> & _); [|done..].
  eapply idem_target_same; [|exact Ht]. done.
Qed.

Lemma replay_intent s p kind value rec :
  store_inv s -> plain_principal p ->
  kind ∈ ["expire_intent"; "update_intent_metadata"; "create_intent"; "cancel_intent"] ->
  st_idempotency s !! scopeKey p kind value = Some rec ->
  owns_intent p (intent_at s (idem_ID rec)) = true.
Proof.
  intros Hinv Hp Hk H.
  assert (Hns : str_no unit_sep kind = true /\ kind == "create_payment_proof" = false /\
    kind == "reconciliation_report.create" = false /\ kind == "create_route" = false).
  { rewrite !elem_of_cons in Hk. by destruct Hk as [->|[->|[->|[->|?%elem_of_nil]]]]. }
  destruct Hns as (Hns & E1 & E2 & E3).
  apply replay_target in H; [|done..]. unfold idem_target in H. rewrite E1, E2, E3 in H.
  destruct H as (i & Hi & Ho). unfold intent_at. by rewrite Hi.
Qed.

Lemma put_intent_frame s p k i :
  st_intents s !! k = Some i -> pi_ID p <> k -> st_intents (put_intent s p) !! k = Some i.
Proof. intros Hi Hne. simpl. by rewrite lookup_insert_ne. Qed.

(** The intents that the caller does not own stay as they are. *)
Lemma acts_frame s actor s' k i :
  store_inv s -> acts s actor s' -> st_intents s !! k = Some i ->
  (forall p, actor = Some p -> owns_intent p i = false) -> st_intents s' !! k = Some i.
Proof.
  intros Hinv Hact Hi Hno.
  assert (Hother : forall p j id, actor = Some p -> st_intents s !! id = Some j ->
    owns_intent p j = true -> id <> k).
  { intros p j id Ha Hj Ho ->. assert (j = i) as -> by congruence. rewrite (Hno p Ha) in Ho. done. }
  destruct Hact as [e cmd h Hp|e cmd h Hp|e cmd h Hp Hf|e cmd h Hp [Hf _]|e cmd h Hp Hf|e cmd h Hp|
    e cmd h Hp Hf|now limit order].
  - unfold ExpireIntent. branches. transition_facts. apply put_intent_frame; [done|].
    simpl. destruct Hsame as [-> _]. stored_intent Hinv. by eapply Hother.
  - unfold UpdateIntentMetadata. branches. apply put_intent_frame; [done|]. simpl.
    stored_intent Hinv. by eapply Hother.
  - unfold CreatePaymentProof. branches.
  - unfold CreateIntent. branches. apply put_intent_frame; [done|]. simpl.
    destruct (Hf _ eq_refl) as (Hn & _). congruence.
  - unfold CreateRoute. destruct (st_idempotency s !! _); [branches|].
    destruct (st_intents s !! crt_IntentID cmd) as [p|] eqn:Ep; [|done].
    destruct (owns_intent _ p) eqn:Eo; simpl; [|done]. destruct (negb _ && negb _); [done|].
    destruct (env_id1 e) as [id|]; [|done]. destruct (_ && _); [done|].
    set (r := new_route e cmd id (pi_ID p)).
    destruct (attach_route_spec (env_now e) p r) as ([Hid _] & _).
    destruct (env_id2 e); cbn [fst]; [|by destruct (_ == _)].
    apply put_intent_frame; [by destruct (_ == _)|]. rewrite Hid.
    rewrite (si_keyed s Hinv _ _ Ep). by eapply Hother.
  - unfold CancelIntent. branches; transition_facts.
    + apply put_intent_frame; [done|]. simpl. destruct Hsame as [-> _]. stored_intent Hinv. by eapply Hother.
    + simpl. rewrite lookup_insert_ne; [done|]. by eapply Hother.
  - unfold CreateReconciliationReport. branches.
  - unfold ReleaseElapsedRouteGrace. case_match; [done|].
    destruct (sweep now limit 0 order s) as [s1 n] eqn:E. simpl.
    assert (Hsweep : forall released s, st_intents (fst (sweep now limit released order s)) = st_intents s).
    { clear. induction order as [|key order IH]; intros released s; simpl; [done|].
      repeat case_match; rewrite ?IH; done. }
    specialize (Hsweep 0 s). rewrite E in Hsweep. simpl in Hsweep. by rewrite Hsweep.
Qed.

(** ** Properties *)

(** C3: An exact payment address-and-amount is reserved for at most one open
    route: in every store reachable by the operations, two active on-chain
    routes with the same chain, address, asset and expected amount are the same
    route, and its reservation is held under its own identifier. *)
Theorem active_reservations_exclusive s k1 k2 r1 r2 :
  reachable s -> route_in s k1 r1 -> route_in s k2 r2 ->
  on_chain_active r1 -> on_chain_active r2 ->
  pr_ChainID r1 = pr_ChainID r2 -> pr_Address r1 = pr_Address r2 ->
  pr_AssetID r1 = pr_AssetID r2 -> pr_ExpectedAmount r1 = pr_ExpectedAmount r2 ->
  r1 = r2 /\ k1 = k2 /\ st_reservations s !! ReservationKey r1 = Some (pr_ID r1).
Proof.
  intros Hs H1 H2 Ha1 Ha2 E1 E2 E3 E4. apply reachable_inv in Hs.
  assert (Hkey : ReservationKey r1 = ReservationKey r2) by (unfold ReservationKey; congruence).
  pose proof (si_reserved s Hs _ _ H1 Ha1) as Hr1. pose proof (si_reserved s Hs _ _ H2 Ha2) as Hr2.
  assert (Hid : pr_ID r1 = pr_ID r2) by congruence.
  split; [by eapply route_unique|]. split; [by eapply (si_route_cross s Hs)|done].
Qed.

(** C11: A payment intent never leaves the store, keeps its tenant, merchant,
    order, amount and currency, keeps every route it was given, and changes
    status only along the allowed transitions; requests once recorded, merchant
    orders and published events are never removed. *)
Theorem store_history_is_kept s s' :
  reachable s -> rtc step s s' ->
  (forall k p, st_intents s !! k = Some p ->
     exists p', st_intents s' !! k = Some p' /\ same_terms p p' /\
       rtc status_step (pi_Status p) (pi_Status p') /\
       sublist (pr_ID <$> pi_Routes p) (pr_ID <$> pi_Routes p')) /\
  st_idempotency s ⊆ st_idempotency s' /\ st_merchantOrders s ⊆ st_merchantOrders s' /\
  st_outbox s `prefix_of` st_outbox s'.
Proof.
  intros Hs Hrun. apply reachable_inv in Hs. destruct (run_evolves s s' Hs Hrun).
  split; [|done]. intros k p Hp. destruct (ev_intents0 k p Hp) as (p' & Hp' & Hl). eauto.
Qed.

(** What a successful creation leaves in the store. *)
Lemma CreateIntent_recorded e cmd h s s1 i :
  CreateIntent marshal e cmd h s = (s1, Ok (i, false)) ->
  st_idempotency s1 !! scopeKey (ci_Principal cmd) "create_intent" (ci_IdempotencyKey cmd)
    = Some (mkIdem h "intent" (pi_ID i)) /\
  st_checkoutTokens s1 !! pi_ID i = Some (pi_CheckoutToken i) /\
  exists p, st_intents s1 !! pi_ID i = Some p /\ pi_ID p = pi_ID i /\
    owns_intent (ci_Principal cmd) p = true.
Proof.
  intros Hc. unfold CreateIntent in Hc. run_ok Hc. injection Hc as <- <-. simpl.
  rewrite !lookup_insert_eq. split; [done|]. split; [done|]. eexists. split; [done|].
  split; [done|]. by apply owned_by_iff.
Qed.

(** C6: Creating an intent is idempotent for ever: after a creation, and after
    any further operations of any callers, repeating the request changes
    nothing and returns the same intent with the same checkout token, marked as
    a replay; the same key with another request is refused. *)
Theorem CreateIntent_replay s e cmd h s1 i s2 e' h' :
  reachable s -> plain_principal (ci_Principal cmd) -> fresh_env s e ->
  CreateIntent marshal e cmd h s = (s1, Ok (i, false)) -> rtc step s1 s2 -> h' <> h ->
  (exists i', CreateIntent marshal e' cmd h s2 = (s2, Ok (i', true)) /\
     pi_ID i' = pi_ID i /\ pi_CheckoutToken i' = pi_CheckoutToken i /\
     owns_intent (ci_Principal cmd) i' = true) /\
  CreateIntent marshal e' cmd h' s2 = (s2, Err (Sentinel ErrIdempotencyConflict)).
Proof.
  intros Hs Hp Hf Hc Hrun Hh. apply reachable_inv in Hs.
  assert (Hinv1 : store_inv s1).
  { change s1 with (fst (s1, Ok (E := error) (i, false))). rewrite <- Hc. by apply inv_CreateIntent. }
  destruct (run_evolves s1 s2 Hinv1 Hrun).
  destruct (CreateIntent_recorded _ _ _ _ _ _ Hc) as (Hidem & Htok & p & Hp1 & Hpid & Hown).
  eapply lookup_weaken in Hidem, Htok; [|done|done].
  destruct (ev_intents0 _ _ Hp1) as (p2 & Hp2 & Hsame & _).
  unfold CreateIntent. rewrite Hidem. simpl. rewrite String.eqb_refl. split.
  - eexists. split; [done|]. unfold intent_at. rewrite Hp2, Htok. simpl.
    split; [destruct Hsame; congruence|]. split; [done|].
    change (owns_intent (ci_Principal cmd) p2 = true). by rewrite (owns_same_terms _ p).
  - by rewrite (proj2 (String.eqb_neq _ _) (not_eq_sym Hh)).
Qed.

(** The principal of an update keeps owning the updated intent. *)
Lemma owns_later q p p' : same_terms p p' -> owns_intent q p = true -> owns_intent q p' = true.
Proof. intros H. by rewrite (owns_same_terms q p p' H). Qed.

(** What the four intent operations return belongs to the caller. *)
Lemma intent_results_owned s :
  store_inv s ->
  (forall e cmd h s' i b, plain_principal (ci_Principal cmd) ->
     CreateIntent marshal e cmd h s = (s', Ok (i, b)) -> owns_intent (ci_Principal cmd) i = true) /\
  (forall e cmd h s' i b, plain_principal (cl_Principal cmd) ->
     ExpireIntent e cmd h s = (s', Ok (i, b)) -> owns_intent (cl_Principal cmd) i = true) /\
  (forall e cmd h s' i b, plain_principal (cl_Principal cmd) ->
     CancelIntent marshal e cmd h s = (s', Ok (i, b)) -> owns_intent (cl_Principal cmd) i = true) /\
  (forall e cmd h s' i b, plain_principal (um_Principal cmd) ->
     UpdateIntentMetadata e cmd h s = (s', Ok (i, b)) -> owns_intent (um_Principal cmd) i = true).
Proof.
  intros Hinv. repeat split; intros e cmd h s' i b Hp H.
  - unfold CreateIntent in H. run_ok H; injection H as <- <- <-; bool_hyp.
    + change (owns_intent (ci_Principal cmd) (intent_at s (idem_ID i0)) = true).
      eapply replay_intent; try done. apply intent_kind_In. simpl. auto.
    + by apply owned_by_iff.
  - unfold ExpireIntent in H. run_ok H; injection H as <- <- <-; bool_hyp.
    + eapply replay_intent; try done. apply intent_kind_In. simpl. auto.
    + transition_facts. eapply owns_later; [|eassumption]. done.
  - unfold CancelIntent in H. run_ok H; injection H as <- <- <-; bool_hyp.
    + eapply replay_intent; try done. apply intent_kind_In. simpl. auto.
    + transition_facts. eapply owns_later; [|eassumption]. done.
  - unfold UpdateIntentMetadata in H. run_ok H; injection H as <- <- <-; bool_hyp.
    + eapply replay_intent; try done. apply intent_kind_In. simpl. auto.
    + eapply owns_later; [|eassumption]. done.
Qed.

(** C7: Tenants are isolated: in every reachable store an operation of one
    merchant leaves the intents of every other merchant as they are, and what
    the reads and the four intent operations return, replays included, belongs
    to the caller. *)
Theorem tenant_isolation s :
  reachable s ->
  (forall actor s' k i, acts s actor s' -> st_intents s !! k = Some i ->
     (forall p, actor = Some p -> owns_intent p i = false) -> st_intents s' !! k = Some i) /\
  (forall p id i, GetIntent p id s = Ok i -> owns_intent p i = true) /\
  (forall p status after limit i, i ∈ ListIntents p status after limit s -> owns_intent p i = true) /\
  (forall e cmd h s' i b, plain_principal (ci_Principal cmd) ->
     CreateIntent marshal e cmd h s = (s', Ok (i, b)) -> owns_intent (ci_Principal cmd) i = true) /\
  (forall e cmd h s' i b, plain_principal (cl_Principal cmd) ->
     ExpireIntent e cmd h s = (s', Ok (i, b)) -> owns_intent (cl_Principal cmd) i = true) /\
  (forall e cmd h s' i b, plain_principal (cl_Principal cmd) ->
     CancelIntent marshal e cmd h s = (s', Ok (i, b)) -> owns_intent (cl_Principal cmd) i = true) /\
  (forall e cmd h s' i b, plain_principal (um_Principal cmd) ->
     UpdateIntentMetadata e cmd h s = (s', Ok (i, b)) -> owns_intent (um_Principal cmd) i = true).
Proof.
  intros Hs. apply reachable_inv in Hs. destruct (intent_results_owned s Hs) as (H1 & H2 & H3 & H4).
  split; [intros; by eapply acts_frame|]. split; [|split; [|done]].
  - intros p id i H. unfold GetIntent in H. run_ok H. bool_hyp. by injection H as <-.
  - intros p status after limit i Hi. unfold ListIntents in Hi.
    assert (Hi' : i ∈ List.filter (listed p status after) (snd <$> map_to_list (st_intents s))).
    { apply list_elem_of_In, (sort_by_In (fun i j => str_less (pi_ID j) (pi_ID i))), list_elem_of_In.
      by eapply elem_of_submseteq, sublist_submseteq, sublist_take. }
    apply list_elem_of_In, filter_In in Hi' as [_ Hl]. unfold listed in Hl. by bool_hyp.
Qed.

(** A route request is idempotent for ever: after a route was created, and
    after any further operations, repeating the request returns a route with
    the same identifier without changing the store. *)
Theorem CreateRoute_replay s e cmd h s1 r s2 e' :
  reachable s -> plain_principal (crt_Principal cmd) -> fresh_env s e ->
  CreateRoute marshal e cmd h s = (s1, Ok (r, false)) -> rtc step s1 s2 ->
  exists r', CreateRoute marshal e' cmd h s2 = (s2, Ok (r', true)) /\ pr_ID r' = pr_ID r.
Proof.
  intros Hs Hp Hf Hc Hrun. apply reachable_inv in Hs.
  assert (Hinv1 : store_inv s1).
  { change s1 with (fst (s1, Ok (E := error) (r, false))). rewrite <- Hc. by apply inv_CreateRoute. }
  destruct (run_evolves s1 s2 Hinv1 Hrun).
  assert (Hfacts : st_idempotency s1 !! scopeKey (crt_Principal cmd) "create_route" (crt_IdempotencyKey cmd)
      = Some (mkIdem h "route" (pr_ID r)) /\
    exists p, st_intents s1 !! crt_IntentID cmd = Some p /\ r ∈ pi_Routes p).
  { unfold CreateRoute in Hc.
    destruct (st_idempotency s !! _); [run_ok Hc; injection Hc; done|].
    destruct (st_intents s !! crt_IntentID cmd) as [p|] eqn:Ep; [|done].
    destruct (negb (owns_intent _ p)); [done|]. destruct (negb _ && negb _); [done|].
    destruct (env_id1 e) as [id|]; [|done].
    destruct (attach_route_spec (env_now e) p (new_route e cmd id (pi_ID p))) as ([Hid _] & Hr & _).
    set (p' := attach_route _ _ _) in *. clearbody p'.
    destruct (_ && _); [done|]. destruct (env_id2 e); [|done]. injection Hc as <- <-. simpl.
    rewrite lookup_insert_eq. split; [done|].
    rewrite Hid, (si_keyed s Hs _ _ Ep), lookup_insert_eq. eexists. split; [done|].
    rewrite Hr, (si_keyed s Hs _ _ Ep). apply elem_of_app. right. by apply list_elem_of_singleton. }
  destruct Hfacts as (Hidem & p & Hp1 & Hin).
  eapply lookup_weaken in Hidem; [|done].
  destruct (ev_intents0 _ _ Hp1) as (p2 & Hp2 & _ & _ & Hsub).
  assert (Hid : pr_ID r ∈ pr_ID <$> pi_Routes p2).
  { eapply elem_of_submseteq; [by apply list_elem_of_fmap_2|by apply sublist_submseteq]. }
  unfold CreateRoute. rewrite Hidem. simpl. rewrite String.eqb_refl. simpl.
  unfold intent_at. rewrite Hp2. simpl. unfold find_route.
  destruct (List.find _ (pi_Routes p2)) as [r'|] eqn:Ef.
  - apply find_some in Ef as [_ Ef]. bool_hyp. eauto.
  - apply list_elem_of_fmap in Hid as (x & Hx & Hxin).
    apply list_elem_of_In in Hxin. pose proof (find_none _ _ Ef x Hxin) as Hn. simpl in Hn.
    bool_hyp. congruence.
Qed.

(** C12: An operation that fails changes nothing, as long as the event identifier
    could be generated: for every error return of every operation the store is
    the one before the call. *)
Theorem failed_operation_changes_nothing e s :
  is_Some (env_id2 e) ->
  (forall cmd h s' err, CreateIntent marshal e cmd h s = (s', Err err) -> s' = s) /\
  (forall cmd h s' err, CreateRoute marshal e cmd h s = (s', Err err) -> s' = s) /\
  (forall cmd h s' err, CancelIntent marshal e cmd h s = (s', Err err) -> s' = s) /\
  (forall cmd h s' err, ExpireIntent e cmd h s = (s', Err err) -> s' = s) /\
  (forall cmd h s' err, UpdateIntentMetadata e cmd h s = (s', Err err) -> s' = s) /\
  (forall cmd h s' err, CreatePaymentProof marshal e cmd h s = (s', Err err) -> s' = s) /\
  (forall cmd h s' err, CreateReconciliationReport e cmd h s = (s', Err err) -> s' = s) /\
  (forall now limit order s' err, ReleaseElapsedRouteGrace now limit order s = (s', Err err) -> s' = s).
Proof.
  intros [ev Hev].
  repeat split; intros *; [unfold CreateIntent|unfold CreateRoute|unfold CancelIntent|unfold ExpireIntent|
    unfold UpdateIntentMetadata|unfold CreatePaymentProof|unfold CreateReconciliationReport|
    unfold ReleaseElapsedRouteGrace]; rewrite ?Hev; intros H;
    repeat (case_match; try (by injection H); try discriminate H).
Qed.

(** No lost updates: once an update against a version has succeeded, every
    further metadata update or expiry of the intent against that version is
    refused with a version conflict and leaves the store alone. *)
Theorem stale_version_refused e cmd h s s1 i e' :
  store_inv s -> UpdateIntentMetadata e cmd h s = (s1, Ok (i, false)) ->
  is_int64 (um_ExpectedVersion cmd) -> is_int64 (um_ExpectedVersion cmd + 1) ->
  pi_Version i = um_ExpectedVersion cmd + 1 /\
  (forall cmd' h', um_Principal cmd' = um_Principal cmd -> um_IntentID cmd' = um_IntentID cmd ->
     um_ExpectedVersion cmd' = um_ExpectedVersion cmd ->
     st_idempotency s1 !! scopeKey (um_Principal cmd') "update_intent_metadata" (um_IdempotencyKey cmd') = None ->
     UpdateIntentMetadata e' cmd' h' s1 = (s1, Err (Sentinel ErrVersionConflict))) /\
  (forall cmd' h', cl_Principal cmd' = um_Principal cmd -> cl_IntentID cmd' = um_IntentID cmd ->
     cl_ExpectedVersion cmd' = um_ExpectedVersion cmd ->
     st_idempotency s1 !! scopeKey (cl_Principal cmd') "expire_intent" (cl_IdempotencyKey cmd') = None ->
     ExpireIntent e' cmd' h' s1 = (s1, Err (Sentinel ErrVersionConflict))).
Proof.
  intros Hinv H Hv Hv1.
  assert (Hfacts : st_intents s1 !! um_IntentID cmd = Some i /\ owns_intent (um_Principal cmd) i = true /\
    pi_Version i = um_ExpectedVersion cmd + 1).
  { unfold UpdateIntentMetadata in H. run_ok H. bool_hyp. injection H as <- <-.
    simpl. rewrite (si_keyed s Hinv _ _ E0), lookup_insert_eq. split; [done|]. split; [done|].
    replace (pi_Version p) with (um_ExpectedVersion cmd) by done. by apply int64_id. }
  destruct Hfacts as (Hi & Ho & Hver). split; [done|].
  assert (Hne : (pi_Version i =? um_ExpectedVersion cmd) = false) by lia.
  split; intros cmd' h' Hp Hid Hev Hkey.
  - unfold UpdateIntentMetadata. rewrite Hkey, Hid, Hi, Hp, Ho, Hev, Hne. done.
  - unfold ExpireIntent. rewrite Hkey, Hid, Hi, Hp, Ho, Hev, Hne. done.
Qed.
End machine.

(** ** Examples *)

Definition sample_principal : Principal :=
  mkPrincipal "tenant-1" "merchant-1" "actor" "key" {[ "payments:write" := true ]}.

Definition sample_env (id event token : string) (now : Time) : env :=
  mkEnv now now (Some id) (Some event) (Some (token, "hash-" +:+ token)).

Definition sample_create (key order : string) : CreateIntentCmd :=
  mkCreateIntent sample_principal key order "customer" 1000 "USD" 2 "" "{}" []
    (UnixTime 1700000900) "corr" "".

Definition sample_create_route (key intent address : string) : CreateRouteCmd :=
  mkCreateRoute sample_principal intent key "" "" "" "" "" "" "" false "eip155:1" "usdc-ethereum"
    1000000 6 "1.0" address "" 12 (UnixTime 1700000900) (UnixTime 1700087300) "corr" "".

Definition no_payload (l : list (string * string)) : string := "".

Definition run_create (s : Store) := CreateIntent no_payload
  (sample_env "intent-1" "event-1" "cs_token" (UnixTime 1700000000)) (sample_create "idem-0001" "order-1") "h1" s.
Definition run_route (s : Store) := CreateRoute no_payload
  (sample_env "route-1" "event-2" "cs_other" (UnixTime 1700000010))
  (sample_create_route "idem-0002" "intent-1" "0xabc") "h2" s.

Definition store1 : Store := fst (run_create NewStore).
Definition store2 : Store := fst (run_route store1).

(** Freshness, by computation. *)
Definition fresh_idb (s : Store) (id : string) : bool :=
  match st_intents s !! id, st_proofs s !! id, st_reports s !! id with
  | None, None, None =>
      forallb (fun kp => forallb (fun r => pr_ID r != id) (pi_Routes (snd kp))) (map_to_list (st_intents s))
      && forallb (fun kv => snd kv != id) (map_to_list (st_reservations s))
  | _, _, _ => false
  end.

Lemma fresh_idb_sound s id : fresh_idb s id = true -> fresh_id s id.
Proof.
  unfold fresh_idb, fresh_id. intros H. run_ok H. bool_hyp. rewrite forallb_forall in H, H0.
  repeat split; try done.
  - intros k r (p & Hp & Hr) Heq. apply elem_of_map_to_list, list_elem_of_In in Hp.
    specialize (H _ Hp). rewrite forallb_forall in H. apply list_elem_of_In in Hr.
    specialize (H _ Hr). cbv beta in H. bool_hyp. done.
  - intros key Hk. apply elem_of_map_to_list, list_elem_of_In in Hk.
    specialize (H0 _ Hk). cbv beta in H0. by bool_hyp.
Qed.

Lemma fresh_envb_sound s e id token h :
  env_id1 e = Some id -> env_token e = Some (token, h) -> fresh_idb s id = true ->
  st_checkoutByHash s !! h = None -> fresh_env s e.
Proof.
  intros H1 H2 H3 H4. split; [|congruence]. intros id'. rewrite H1. intros [= <-].
  by apply fresh_idb_sound.
Qed.

Lemma sample_principal_plain : plain_principal sample_principal.
Proof. done. Qed.

Lemma step_store1 : step no_payload NewStore store1.
Proof.
  eexists. apply act_create; [done|]. by eapply fresh_envb_sound; vm_compute.
Qed.

Lemma step_store2 : step no_payload store1 store2.
Proof.
  eexists. apply act_route; [done|]. by eapply fresh_envb_sound; vm_compute.
Qed.

Lemma reachable_store2 : reachable no_payload store2.
Proof. eapply rtc_l; [exact step_store1|]. apply rtc_once, step_store2. Qed.

Definition sample_r1 : PaymentRoute :=
  new_route (sample_env "route-1" "event-2" "cs_other" (UnixTime 1700000010))
    (sample_create_route "idem-0002" "intent-1" "0xabc") "route-1" "intent-1".

Lemma active_reservations_exclusive_witness :
  sample_r1 = sample_r1 /\ "intent-1" = "intent-1" /\
  st_reservations store2 !! ReservationKey sample_r1 = Some (pr_ID sample_r1).
Proof.
  apply (active_reservations_exclusive no_payload store2 "intent-1" "intent-1" sample_r1 sample_r1);
    try reflexivity; try (split; reflexivity).
  - exact reachable_store2.
  - eexists. split; [vm_compute; reflexivity|]. apply list_elem_of_In. by left.
  - eexists. split; [vm_compute; reflexivity|]. apply list_elem_of_In. by left.
Defined.

Lemma store_history_is_kept_witness :
  (forall k p, st_intents NewStore !! k = Some p ->
     exists p', st_intents store2 !! k = Some p' /\ same_terms p p' /\
       rtc status_step (pi_Status p) (pi_Status p') /\
       sublist (pr_ID <$> pi_Routes p) (pr_ID <$> pi_Routes p')) /\
  st_idempotency NewStore ⊆ st_idempotency store2 /\
  st_merchantOrders NewStore ⊆ st_merchantOrders store2 /\ st_outbox NewStore `prefix_of` st_outbox store2.
Proof.
  apply (store_history_is_kept no_payload NewStore store2); [apply rtc_refl|exact reachable_store2].
Defined.

Definition created_intent : PaymentIntent := with_token (intent_at store1 "intent-1") "cs_token".

Lemma CreateIntent_replay_witness :
  (exists i', CreateIntent no_payload (mkEnv 0 0 None None None) (sample_create "idem-0001" "order-1") "h1" store2
                = (store2, Ok (i', true)) /\
     pi_ID i' = "intent-1" /\ pi_CheckoutToken i' = "cs_token" /\ owns_intent sample_principal i' = true) /\
  CreateIntent no_payload (mkEnv 0 0 None None None) (sample_create "idem-0001" "order-1") "h2" store2
    = (store2, Err (Sentinel ErrIdempotencyConflict)).
Proof.
  apply (CreateIntent_replay no_payload NewStore
    (sample_env "intent-1" "event-1" "cs_token" (UnixTime 1700000000)) (sample_create "idem-0001" "order-1") "h1"
    store1 created_intent store2 (mkEnv 0 0 None None None) "h2").
  - apply rtc_refl.
  - exact sample_principal_plain.
  - by eapply fresh_envb_sound; vm_compute.
  - vm_compute. reflexivity.
  - apply rtc_once, step_store2.
  - discriminate.
Defined.

Lemma CreateRoute_replay_witness :
  exists r', CreateRoute no_payload (mkEnv 0 0 None None None)
    (sample_create_route "idem-0002" "intent-1" "0xabc") "h2" store2 = (store2, Ok (r', true)) /\
    pr_ID r' = "route-1".
Proof.
  eapply (CreateRoute_replay no_payload store1
    (sample_env "route-1" "event-2" "cs_other" (UnixTime 1700000010))
    (sample_create_route "idem-0002" "intent-1" "0xabc") "h2" store2 sample_r1 store2).
  - apply rtc_once, step_store1.
  - exact sample_principal_plain.
  - by eapply fresh_envb_sound; vm_compute.
  - vm_compute. reflexivity.
  - apply rtc_refl.
Defined.

Lemma tenant_isolation_witness :
  (forall actor s' k i, acts no_payload store2 actor s' -> st_intents store2 !! k = Some i ->
     (forall p, actor = Some p -> owns_intent p i = false) -> st_intents s' !! k = Some i) /\
  (forall p id i, GetIntent p id store2 = Ok i -> owns_intent p i = true).
Proof.
  destruct (tenant_isolation no_payload store2) as (H1 & H2 & _); [exact reachable_store2|].
  split; [exact H1|exact H2].
Defined.

Lemma failed_operation_changes_nothing_witness :
  exists s', CreateRoute no_payload (sample_env "route-2" "event-3" "cs_x" 1)
    (sample_create_route "idem-0005" "intent-9" "0xabc") "h5" store2 = (s', Err (Sentinel ErrNotFound)) /\
    s' = store2.
Proof.
  destruct (failed_operation_changes_nothing no_payload (sample_env "route-2" "event-3" "cs_x" 1) store2)
    as (_ & H & _); [by eexists|].
  eexists. split; [vm_compute; reflexivity|].
  apply (H (sample_create_route "idem-0005" "intent-9" "0xabc") "h5" _ (Sentinel ErrNotFound)).
  vm_compute. reflexivity.
Defined.

Definition sample_update : UpdateIntentMetadataCmd :=
  mkUpdateMetadata sample_principal "intent-1" "idem-0003" "{}" 2 "corr" "".

Definition store3 : Store := fst (UpdateIntentMetadata (mkEnv 5 5 None None None) sample_update "h3" store2).

Definition updated_intent : PaymentIntent := intent_at store3 "intent-1".

Lemma stale_version_refused_witness :
  pi_Version updated_intent = 2 + 1 /\
  ExpireIntent (mkEnv 6 6 None None None)
    (mkCloseIntent sample_principal "intent-1" "idem-0004" "late" 2 "corr" "") "h4" store3
    = (store3, Err (Sentinel ErrVersionConflict)).
Proof.
  destruct (stale_version_refused (mkEnv 5 5 None None None) sample_update "h3" store2 store3 updated_intent
    (mkEnv 6 6 None None None)) as (H1 & _ & H3).
  - apply (reachable_inv no_payload), reachable_store2.
  - vm_compute. reflexivity.
  - by vm_compute.
  - by vm_compute.
  - split; [exact H1|]. apply H3; vm_compute; reflexivity.
Defined.

Definition leak_cmd : CreateRouteCmd := sample_create_route "idem-0002" "intent-1" "0xabc".

(** A route creation whose event identifier could not be generated. *)
Definition leak_run : Store * result error (PaymentRoute * bool) :=
  CreateRoute no_payload (mkEnv (UnixTime 1700000010) 0 (Some "route-1") None None) leak_cmd "h2" store1.

(** The exception to the previous property: when the second identifier of a
    route creation cannot be generated, the exact amount stays reserved for a
    route that was never stored; the request cannot be retried, because the
    amount is then refused as already reserved, and the sweep never releases it. *)
Theorem failed_route_event_leaks_reservation :
  snd leak_run = Err id_error /\ pi_Routes (intent_at (fst leak_run) "intent-1") = [] /\
  st_reservations store1 !! ReservationKey sample_r1 = None /\
  st_reservations (fst leak_run) !! ReservationKey sample_r1 = Some "route-1" /\
  snd (CreateRoute no_payload (sample_env "route-2" "event-3" "cs_x" (UnixTime 1700000020)) leak_cmd "h2"
         (fst leak_run)) = Err (Wrapped ErrStateConflict "exact amount is already reserved") /\
  snd (ReleaseElapsedRouteGrace (UnixTime 1900000000) 500 [ReservationKey sample_r1] (fst leak_run)) = Ok 0.
Proof. repeat split; vm_compute; reflexivity. Qed.
