(* ===== verification/Service.v ===== *)
(** * Service: internal/application/service.go and the report operations of reads.go

    The application service: authorization, validation and normalization of a
    command before the store is called. The store is an interface ([Class]),
    with the laws the service's guarantees rest on; Store.v is an instance. *)

From Stdlib Require Import ZArith Lia Ascii String.
From stdpp Require Import base gmap list strings relations.
From S2P Require Import Prelude Text Money Domain Encoding Commands Store StoreFacts.

(** ** The store interface (store.go) *)

Class PaymentStore (S : Type) := {
  ps_CreateIntent : env -> CreateIntentCmd -> string -> S -> S * result error (PaymentIntent * bool);
  ps_CreateRoute : env -> CreateRouteCmd -> string -> S -> S * result error (PaymentRoute * bool);
  ps_CancelIntent : env -> CloseIntentCmd -> string -> S -> S * result error (PaymentIntent * bool);
  ps_ExpireIntent : env -> CloseIntentCmd -> string -> S -> S * result error (PaymentIntent * bool);
  ps_UpdateIntentMetadata : env -> UpdateIntentMetadataCmd -> string -> S ->
    S * result error (PaymentIntent * bool);
  ps_CreatePaymentProof : env -> SubmitPaymentProofCmd -> string -> S ->
    S * result error (PaymentProof * bool);
  ps_CreateReconciliationReport : env -> CreateReportCmd -> string -> S ->
    S * result error (ReconciliationReport * bool);
  ps_GetIntent : Principal -> string -> S -> result error PaymentIntent;
  ps_ListIntents : Principal -> string -> string -> Z -> S -> list PaymentIntent;
  ps_FindRouteReplay : Principal -> string -> string -> S -> result error (option PaymentRoute);
  ps_GetPaymentProof : Principal -> string -> S -> result error PaymentProof;
  ps_GetReconciliationReport : Principal -> string -> S -> result error ReconciliationReport;
  ps_GetCheckoutSession : string -> Time -> S -> result error CheckoutSession;
  ps_ListAssets : S -> list Asset }.

(** What a store promises to the service about its admissible states. *)
Class PaymentStoreLaws (S : Type) `{PaymentStore S} := {
  ps_ok : S -> Prop;
  ps_fresh : S -> env -> Prop;
  law_created_owned : forall e cmd h s s' i b, ps_ok s -> plain_principal (ci_Principal cmd) ->
    ps_CreateIntent e cmd h s = (s', Ok (i, b)) -> owns_intent (ci_Principal cmd) i = true;
  law_get_owned : forall p id s i, ps_GetIntent p id s = Ok i -> owns_intent p i = true;
  law_create_ok : forall e cmd h s, ps_ok s -> plain_principal (ci_Principal cmd) -> ps_fresh s e ->
    ps_ok (fst (ps_CreateIntent e cmd h s));
  law_create_replay : forall e cmd h s s' i e' cmd', ps_ok s -> plain_principal (ci_Principal cmd) ->
    ps_fresh s e -> ps_CreateIntent e cmd h s = (s', Ok (i, false)) ->
    ci_Principal cmd' = ci_Principal cmd -> ci_IdempotencyKey cmd' = ci_IdempotencyKey cmd ->
    (exists i', ps_CreateIntent e' cmd' h s' = (s', Ok (i', true)) /\ pi_ID i' = pi_ID i) /\
    (forall h', h' <> h -> ps_CreateIntent e' cmd' h' s' = (s', Err (Sentinel ErrIdempotencyConflict))) }.

(** ** The standard library as the service uses it *)

Inductive json_value := JNull | JBool | JString (s : string) | JOther.

(** [encoding/json] and [net/url]: an object as its members with their raw
    values, a string value, the dynamic members of an object, the canonical
    encoding of an object, and the parts of a URL. *)
Record codec := mkCodec {
  json_object : string -> option (list (string * string));
  json_text : string -> option string;
  json_dynamic : string -> option (list (string * json_value));
  json_marshal : list (string * string) -> result error string;
  url_parts : string -> option (string * string * bool * string) (** scheme, host, has user, fragment *) }.

(** The structs whose JSON [commandHash] hashes. *)
Inductive hashed :=
| HashCreateIntent (order customer amount currency : string) (scale : Z) (description metadata : string)
    (routes : list RouteSelector) (expiresAt : Time)
| HashCreateRoute (cmd : CreateRouteCmd)
| HashClose (id reason : string) (version : Z)
| HashMetadata (id : string) (version : Z) (metadata : string)
| HashProof (intent chain transaction : string)
| HashReport (format : string) (start finish : Time).

Definition forbidden (scope : string) : error := Plain ("forbidden: " +:+ scope +:+ " scope is required").
Definition invalid (msg : string) : error := Wrapped ErrValidation msg.

Definition payments_write : string := "payments:write".
Definition payments_read : string := "payments:read".

(** The default of [cmd.ExpiresAt] in [CreateIntent] and [CreateRoute]. *)
Definition default_expiry (now expiresAt : Time) : Time :=
  if IsZeroTime expiresAt then AddTime now (30 * Minute) else expiresAt.

Definition set_ci_ExpiresAt (c : CreateIntentCmd) (t : Time) : CreateIntentCmd :=
  mkCreateIntent (ci_Principal c) (ci_IdempotencyKey c) (ci_MerchantOrderID c) (ci_CustomerReference c)
    (ci_AmountMinor c) (ci_Currency c) (ci_CurrencyScale c) (ci_Description c) (ci_Metadata c)
    (ci_AllowedRoutes c) t (ci_CorrelationID c) (ci_RequestHash c).

(** The key and the validity of one allowed route. *)
Definition selector_provider (r : RouteSelector) : string :=
  if rs_Provider r == "" then RouteProviderOnChain else rs_Provider r.

Definition selector_key (r : RouteSelector) : string :=
  selector_provider r +:+ US +:+ rs_ChainID r +:+ US +:+ rs_ProviderID r +:+ US +:+ rs_AssetID r.

Definition selector_valid (r : RouteSelector) : bool :=
  let validOnChain := (selector_provider r == RouteProviderOnChain) && (rs_ChainID r != "") && (rs_ProviderID r == "") in
  let validHosted := (selector_provider r == RouteProviderHostedGateway) && (rs_ChainID r == "") && (rs_ProviderID r != "") in
  negb ((rs_AssetID r == "") || (negb validOnChain && negb validHosted)).

Fixpoint selectors_ok (seen : list string) (routes : list RouteSelector) : bool :=
  match routes with
  | [] => true
  | r :: rest =>
      if negb (selector_valid r) || existsb_str (selector_key r) seen then false
      else selectors_ok (selector_key r :: seen) rest
  end.

Section service.
Context {S : Type} `{PaymentStore S}.
Context (json : codec) (commandHash : hashed -> result error string).

(** [cmd.RequestHash], or the hash of the command when it is empty. *)
Definition request_hash (given : string) (h : hashed) : result error string :=
  if given == "" then commandHash h else Ok given.

(** [hash, _ = commandHash(...)]: the error is dropped. *)
Definition request_hash_or_empty (given : string) (h : hashed) : string :=
  if given == "" then match commandHash h with Ok x => x | Err _ => "" end else given.

(** The guards of [Service.CreateIntent] on a command with its expiry set. *)
Definition create_intent_guards (now : Time) (cmd : CreateIntentCmd) : result error unit :=
  if (p_TenantID (ci_Principal cmd) == "") || (p_MerchantID (ci_Principal cmd) == "")
  then Err (invalid "tenant and merchant identity are required")
  else if negb (Allows (ci_Principal cmd) payments_write) then Err (forbidden payments_write)
  else if (len (ci_IdempotencyKey cmd) <? 8) || (len (ci_IdempotencyKey cmd) >? 255)
  then Err (invalid "idempotency key length must be 8..255")
  else if (TrimSpace (ci_MerchantOrderID cmd) == "") || (len (ci_MerchantOrderID cmd) >? 128)
  then Err (invalid "merchant_order_id is required and cannot exceed 128 characters")
  else if IsZero (ci_AmountMinor cmd) then Err (invalid "amount_minor must be positive")
  else
    _ ← ValidateCurrency (ci_Currency cmd) (ci_CurrencyScale cmd);
    let expiresAt := default_expiry now (ci_ExpiresAt cmd) in
    if Before expiresAt (AddTime now Minute) || After expiresAt (AddTime now (7 * 24 * Hour))
    then Err (invalid "expires_at must be between 1 minute and 7 days from now")
    else if len (ci_Metadata cmd) >? 16 * 1024 then Err (invalid "metadata exceeds 16 KiB")
    else if (len (ci_Description cmd) >? 2048) || (len (ci_CustomerReference cmd) >? 256)
    then Err (invalid "description or customer_reference exceeds its size limit")
    else if (len (ci_Metadata cmd) >? 0)
            && match json_object json (ci_Metadata cmd) with
               | None => true
               | Some object => Z.of_nat (length object) >? 64
               end
    then Err (invalid "metadata must be a JSON object with at most 64 properties")
    else if Z.of_nat (length (ci_AllowedRoutes cmd)) >? 64
    then Err (invalid "allowed_routes cannot exceed 64 entries")
    else if negb (selectors_ok [] (ci_AllowedRoutes cmd))
    then Err (invalid "allowed_routes must be unique provider-discriminated routes")
    else Ok tt.

Definition create_intent_hash (cmd : CreateIntentCmd) : hashed :=
  HashCreateIntent (ci_MerchantOrderID cmd) (ci_CustomerReference cmd) (AmountString (ci_AmountMinor cmd))
    (ci_Currency cmd) (ci_CurrencyScale cmd) (ci_Description cmd) (ci_Metadata cmd)
    (ci_AllowedRoutes cmd) (ci_ExpiresAt cmd).

Definition Service_CreateIntent (now : Time) (e : env) (cmd : CreateIntentCmd) (s : S)
    : S * result error (PaymentIntent * bool) :=
  match create_intent_guards now cmd with
  | Err err => (s, Err err)
  | Ok _ =>
      let cmd := set_ci_ExpiresAt cmd (default_expiry now (ci_ExpiresAt cmd)) in
      match request_hash (ci_RequestHash cmd) (create_intent_hash cmd) with
      | Err err => (s, Err err)
      | Ok hash => ps_CreateIntent e cmd hash s
      end
  end.

Definition Service_GetIntent (p : Principal) (id : string) (s : S) : result error PaymentIntent :=
  if negb (Allows p payments_read) then Err (forbidden payments_read)
  else if negb (ValidID id) then Err (invalid "payment intent id must be a canonical UUID")
  else ps_GetIntent p id s.

Definition intent_statuses : list IntentStatus :=
  [IntentCreated; IntentAwaitingRouteSelection; IntentPending; IntentObserved; IntentPartiallyPaid;
   IntentConfirmed; IntentSettled; IntentExpired; IntentNeedsReview; IntentOverpaid; IntentReorgReview;
   IntentReversed; IntentCancelled].

Definition Service_ListIntents (p : Principal) (status after : string) (limit : Z) (s : S)
    : result error (list PaymentIntent) :=
  if negb (Allows p payments_read) then Err (forbidden payments_read)
  else
    let limit := if limit =? 0 then 50 else limit in
    if (limit <? 1) || (limit >? 100) then Err (invalid "limit must be 1..100")
    else if (after != "") && negb (ValidID after) then Err (invalid "after cursor must be a canonical UUID")
    else if (status != "") && negb (existsb (fun c => status == IntentStatus_string c) intent_statuses)
    then Err (invalid "invalid payment intent status")
    else Ok (ps_ListIntents p status after limit s).

Definition set_crt_defaults (c : CreateRouteCmd) (provider : string) (expires grace : Time) : CreateRouteCmd :=
  mkCreateRoute (crt_Principal c) (crt_IntentID c) (crt_IdempotencyKey c) provider (crt_ProviderID c)
    (crt_ProviderOrderID c) (crt_ProviderReference c) (crt_PaymentURL c) (crt_QuoteID c)
    (crt_AddressAssignmentID c) (crt_AllowNativeETHFallback c) (crt_ChainID c) (crt_AssetID c)
    (crt_ExpectedAmount c) (crt_AssetDecimals c) (crt_DisplayAmount c) (crt_Address c) (crt_Memo c)
    (crt_RequiredFinality c) expires grace (crt_CorrelationID c) (crt_RequestHash c).

Definition route_on_chain (c : CreateRouteCmd) : bool :=
  (crt_Provider c == RouteProviderOnChain) && (crt_ChainID c != "") && (crt_Address c != "")
  && (crt_ProviderID c == "") && (crt_ProviderOrderID c == "") && (crt_ProviderReference c == "")
  && (crt_PaymentURL c == "").

Definition route_hosted (c : CreateRouteCmd) : bool :=
  (crt_Provider c == RouteProviderHostedGateway) && (crt_ChainID c == "") && (crt_Address c == "")
  && (crt_QuoteID c == "") && (crt_AddressAssignmentID c == "") && (crt_RequiredFinality c =? 0)
  && (crt_ProviderID c != "") && ValidID (crt_ProviderOrderID c) && (crt_ProviderReference c != "")
  && (crt_PaymentURL c != "").

(** The URL test of a hosted route, negated. *)
Definition payment_url_ok (u : string) : bool :=
  match url_parts json u with
  | None => false
  | Some (scheme, host, user, fragment) =>
      negb ((scheme != "https") || (host == "") || user || (fragment != ""))
  end.

(** The guards of [Service.CreateRoute] on a command with its defaults set. *)
Definition create_route_guards (now : Time) (cmd : CreateRouteCmd) : result error unit :=
  if (p_TenantID (crt_Principal cmd) == "") || (p_MerchantID (crt_Principal cmd) == "")
  then Err (invalid "tenant and merchant identity are required")
  else if negb (Allows (crt_Principal cmd) payments_write) then Err (forbidden payments_write)
  else if (len (crt_IdempotencyKey cmd) <? 8) || (crt_AssetID cmd == "") || IsZero (crt_ExpectedAmount cmd)
          || (negb (route_on_chain cmd) && negb (route_hosted cmd))
  then Err (invalid "route must be exactly one complete on_chain or hosted_gateway variant")
  else if negb (ValidID (crt_IntentID cmd)) || ((crt_QuoteID cmd != "") && negb (ValidID (crt_QuoteID cmd)))
          || ((crt_AddressAssignmentID cmd != "") && negb (ValidID (crt_AddressAssignmentID cmd)))
  then Err (invalid "route identifiers must be canonical UUIDs")
  else if (len (crt_IdempotencyKey cmd) >? 255) || (len (crt_ChainID cmd) >? 128)
          || (len (crt_AssetID cmd) >? 128) || (len (crt_Address cmd) >? 512) || (len (crt_Memo cmd) >? 256)
          || (len (crt_ProviderID cmd) >? 128) || (len (crt_ProviderReference cmd) >? 255)
          || (len (crt_PaymentURL cmd) >? 2048)
  then Err (invalid "route field exceeds its size limit")
  else if route_hosted cmd && negb (payment_url_ok (crt_PaymentURL cmd))
  then Err (invalid "hosted payment_url must be an admitted HTTPS URL")
  else if negb (After (crt_ExpiresAt cmd) now) || Before (crt_GraceEndsAt cmd) (crt_ExpiresAt cmd)
  then Err (invalid "invalid route validity window")
  else Ok tt.

Definition route_defaults (now : Time) (cmd : CreateRouteCmd) : CreateRouteCmd :=
  let expires := default_expiry now (crt_ExpiresAt cmd) in
  set_crt_defaults cmd (if crt_Provider cmd == "" then RouteProviderOnChain else crt_Provider cmd) expires
    (if IsZeroTime (crt_GraceEndsAt cmd) then AddTime expires (24 * Hour) else crt_GraceEndsAt cmd).

Definition Service_CreateRoute (now : Time) (e : env) (cmd : CreateRouteCmd) (s : S)
    : S * result error (PaymentRoute * bool) :=
  let cmd := route_defaults now cmd in
  match create_route_guards now cmd with
  | Err err => (s, Err err)
  | Ok _ =>
      match request_hash (crt_RequestHash cmd) (HashCreateRoute cmd) with
      | Err err => (s, Err err)
      | Ok hash => ps_CreateRoute e cmd hash s
      end
  end.

Definition Service_FindRouteReplay (p : Principal) (key requestHash : string) (s : S)
    : result error (option PaymentRoute) :=
  if (p_TenantID p == "") || (p_MerchantID p == "") || negb (Allows p payments_write)
  then Err (forbidden payments_write)
  else if (len key <? 8) || (len key >? 255) || negb (len requestHash =? 64)
  then Err (invalid "valid idempotency key and request hash are required")
  else ps_FindRouteReplay p key requestHash s.

Definition Service_CancelIntent (e : env) (cmd : CloseIntentCmd) (s : S)
    : S * result error (PaymentIntent * bool) :=
  if negb (Allows (cl_Principal cmd) payments_write) then (s, Err (forbidden payments_write))
  else if len (cl_IdempotencyKey cmd) <? 8 then (s, Err (invalid "idempotency key is required"))
  else if negb (ValidID (cl_IntentID cmd))
  then (s, Err (invalid "payment intent id must be a canonical UUID"))
  else if (TrimSpace (cl_Reason cmd) == "") || (len (cl_Reason cmd) >? 512)
  then (s, Err (invalid "cancellation reason is required and cannot exceed 512 characters"))
  else ps_CancelIntent e cmd
         (request_hash_or_empty (cl_RequestHash cmd)
            (HashClose (cl_IntentID cmd) (cl_Reason cmd) (cl_ExpectedVersion cmd))) s.

Definition Service_ExpireIntent (e : env) (cmd : CloseIntentCmd) (s : S)
    : S * result error (PaymentIntent * bool) :=
  if negb (Allows (cl_Principal cmd) payments_write) then (s, Err (forbidden payments_write))
  else if (len (cl_IdempotencyKey cmd) <? 8) || (len (cl_IdempotencyKey cmd) >? 255)
          || negb (ValidID (cl_IntentID cmd)) || (cl_ExpectedVersion cmd <? 1)
  then (s, Err (invalid "intent, expected_version, and valid idempotency key are required"))
  else
    let reason := TrimSpace (cl_Reason cmd) in
    if (reason == "") || (len reason >? 512)
    then (s, Err (invalid "expiration reason is required and cannot exceed 512 characters"))
    else
      let cmd := mkCloseIntent (cl_Principal cmd) (cl_IntentID cmd) (cl_IdempotencyKey cmd) reason
                   (cl_ExpectedVersion cmd) (cl_CorrelationID cmd) (cl_RequestHash cmd) in
      ps_ExpireIntent e cmd
        (request_hash_or_empty (cl_RequestHash cmd) (HashClose (cl_IntentID cmd) reason (cl_ExpectedVersion cmd))) s.

Definition is_alnum (c : ascii) : bool :=
  is_digit c || is_upper c || ((97 <=? code c) && (code c <=? 122)).

Definition validMetadataLocale (value : string) : bool :=
  if (len value <? 2) || (len value >? 35) || (byte_at value 0 =? 45)
     || (byte_at value (Nat.pred (String.length value)) =? 45)
  then false
  else forallb (fun part => negb ((len part <? 2) || (len part >? 8)) && str_forall is_alnum part)
         (Split value "-"%char).

(** One member of [custom_data]. *)
Definition custom_ok (kv : string * json_value) : bool :=
  negb ((kv.1 == "") || (len kv.1 >? 64))
  && match kv.2 with
     | JNull | JBool => true
     | JString text => negb (len text >? 1024)
     | JOther => false
     end.

(** One member of the metadata object: the allowlist of mutable fields. *)
Definition member_ok (kv : string * string) : bool :=
  let '(key, value) := kv in
  if key == "display_note" then
    match json_text json value with None => false | Some text => negb (len text >? 1024) end
  else if key == "locale" then
    match json_text json value with None => false | Some locale => validMetadataLocale locale end
  else if key == "return_reference" then
    match json_text json value with
    | None => false
    | Some ref => negb ((TrimSpace ref != ref) || (len ref >? 512))
    end
  else if key == "custom_data" then
    match json_dynamic json value with
    | None => false
    | Some custom =>
        negb ((Z.of_nat (length custom) >? 32) || (len value >? 4096)) && forallb custom_ok custom
    end
  else false.

Definition validateMutableMetadata (raw : string) : result error string :=
  if (len raw =? 0) || (len raw >? 8 * 1024)
  then Err (invalid "metadata must be a JSON object no larger than 8 KiB")
  else match json_object json raw with
       | None => Err (invalid "metadata must contain only allowlisted non-financial fields")
       | Some object =>
           if Z.of_nat (length object) >? 4
           then Err (invalid "metadata must contain only allowlisted non-financial fields")
           else if negb (forallb member_ok object) then Err (invalid "metadata field is invalid")
           else json_marshal json object
       end.

Definition Service_UpdateIntentMetadata (e : env) (cmd : UpdateIntentMetadataCmd) (s : S)
    : S * result error (PaymentIntent * bool) :=
  if negb (Allows (um_Principal cmd) payments_write) then (s, Err (forbidden payments_write))
  else if (len (um_IdempotencyKey cmd) <? 8) || (len (um_IdempotencyKey cmd) >? 255)
          || negb (ValidID (um_IntentID cmd)) || (um_ExpectedVersion cmd <? 1)
  then (s, Err (invalid "intent, expected_version, and valid idempotency key are required"))
  else match validateMutableMetadata (um_Metadata cmd) with
       | Err err => (s, Err err)
       | Ok canonical =>
           let cmd := mkUpdateMetadata (um_Principal cmd) (um_IntentID cmd) (um_IdempotencyKey cmd) canonical
                        (um_ExpectedVersion cmd) (um_CorrelationID cmd) (um_RequestHash cmd) in
           ps_UpdateIntentMetadata e cmd
             (request_hash_or_empty (um_RequestHash cmd)
                (HashMetadata (um_IntentID cmd) (um_ExpectedVersion cmd) canonical)) s
       end.

Definition Service_ListAssets (p : Principal) (s : S) : result error (list Asset) :=
  if negb (Allows p payments_read) then Err (forbidden payments_read) else Ok (ps_ListAssets s).

Definition Service_SubmitPaymentProof (e : env) (cmd : SubmitPaymentProofCmd) (s : S)
    : S * result error (PaymentProof * bool) :=
  if negb (Allows (sp_Principal cmd) payments_write) then (s, Err (forbidden payments_write))
  else if (len (sp_IdempotencyKey cmd) <? 8) || (len (sp_IdempotencyKey cmd) >? 255)
          || (sp_PaymentIntentID cmd == "") || (sp_ChainID cmd == "") || (sp_TransactionID cmd == "")
          || (len (sp_TransactionID cmd) >? 256)
  then (s, Err (invalid "valid idempotency key, intent, chain, and transaction are required"))
  else if negb (ValidID (sp_PaymentIntentID cmd))
  then (s, Err (invalid "payment_intent_id must be a canonical UUID"))
  else ps_CreatePaymentProof e cmd
         (request_hash_or_empty (sp_RequestHash cmd)
            (HashProof (sp_PaymentIntentID cmd) (sp_ChainID cmd) (sp_TransactionID cmd))) s.

Definition Service_GetPaymentProof (p : Principal) (id : string) (s : S) : result error PaymentProof :=
  if negb (Allows p payments_read) then Err (forbidden payments_read)
  else if negb (ValidID id) then Err (invalid "payment proof id must be a canonical UUID")
  else ps_GetPaymentProof p id s.

(** The token is hashed with the real [Hash]; a malformed one is "not found". *)
Definition Service_GetCheckoutSession (sha256 : string -> string) (token : string) (now : Time) (s : S)
    : result error CheckoutSession :=
  match HashToken sha256 token with
  | None => Err (Sentinel ErrNotFound)
  | Some hash => ps_GetCheckoutSession hash now s
  end.

Definition reconciliation_read : string := "reconciliation:read".

(** reads.go *)
Definition Service_CreateReconciliationReport (now : Time) (e : env) (cmd : CreateReportCmd) (s : S)
    : S * result error (ReconciliationReport * bool) :=
  if negb (Allows (cp_Principal cmd) reconciliation_read) then (s, Err (forbidden reconciliation_read))
  else if (len (cp_IdempotencyKey cmd) <? 8) || (len (cp_IdempotencyKey cmd) >? 255)
  then (s, Err (invalid "a valid idempotency key is required"))
  else
    let format := if cp_Format cmd == "" then "jsonl_v1" else cp_Format cmd in
    if (format != "jsonl_v1") || IsZeroTime (cp_PeriodStart cmd) || IsZeroTime (cp_PeriodEnd cmd)
       || negb (After (cp_PeriodEnd cmd) (cp_PeriodStart cmd))
       || (SubTime (cp_PeriodEnd cmd) (cp_PeriodStart cmd) >? 366 * 24 * Hour)
       || After (cp_PeriodEnd cmd) now
    then (s, Err (invalid "report format or period is invalid"))
    else
      let cmd := mkCreateReport (cp_Principal cmd) (cp_IdempotencyKey cmd) format (cp_PeriodStart cmd)
                   (cp_PeriodEnd cmd) (cp_CorrelationID cmd) (cp_RequestHash cmd) in
      ps_CreateReconciliationReport e cmd
        (request_hash_or_empty (cp_RequestHash cmd) (HashReport format (cp_PeriodStart cmd) (cp_PeriodEnd cmd))) s.

Definition Service_GetReconciliationReport (p : Principal) (id : string) (s : S)
    : result error ReconciliationReport :=
  if negb (Allows p reconciliation_read) then Err (forbidden reconciliation_read)
  else if negb (ValidID id) then Err (invalid "report id must be a canonical UUID")
  else ps_GetReconciliationReport p id s.
End service.

(** ** The memory store implements the interface *)

Section memory.
Context (marshal : list (string * string) -> string).

#[export] Instance MemoryStore : PaymentStore Store := {
  ps_CreateIntent := CreateIntent marshal; ps_CreateRoute := CreateRoute marshal;
  ps_CancelIntent := CancelIntent marshal; ps_ExpireIntent := ExpireIntent;
  ps_UpdateIntentMetadata := UpdateIntentMetadata; ps_CreatePaymentProof := CreatePaymentProof marshal;
  ps_CreateReconciliationReport := CreateReconciliationReport; ps_GetIntent := GetIntent;
  ps_ListIntents := ListIntents; ps_FindRouteReplay := FindRouteReplay;
  ps_GetPaymentProof := GetPaymentProof; ps_GetReconciliationReport := GetReconciliationReport;
  ps_GetCheckoutSession := GetCheckoutSession; ps_ListAssets := ListAssets }.

#[export] Instance MemoryStoreLaws : PaymentStoreLaws Store.
Proof.
  refine (Build_PaymentStoreLaws Store _ store_inv fresh_env _ _ _ _); cbn.
  - intros e cmd h s s' i b Hok Hp Hc. by eapply (intent_results_owned marshal s Hok).
  - intros p id s i Hg. unfold GetIntent in Hg. run_ok Hg. bool_hyp. by injection Hg as <-.
  - intros e cmd h s Hok Hp Hf. by apply inv_CreateIntent.
  - intros e cmd h s s' i e' cmd' Hok Hp Hf Hc Hp' Hk'.
    destruct (CreateIntent_recorded _ _ _ _ _ _ _ Hc) as (Hidem & _ & p & Hi & Hid & _).
    unfold CreateIntent. rewrite Hp', Hk', Hidem. simpl. rewrite String.eqb_refl. split.
    + eexists. split; [done|]. unfold intent_at. by rewrite Hi.
    + intros h' Hh. by rewrite (proj2 (String.eqb_neq _ _) (not_eq_sym Hh)).
Defined.
End memory.

(** ** Properties, for every store that keeps the laws *)

Section service_facts.
Context {S : Type} `{PaymentStoreLaws S}.
Context (json : codec) (commandHash : hashed -> result error string).

(** Nothing happens without the scope: for a caller without the write scope
    every writing operation returns an error and leaves the store alone, and
    without the read scopes no read returns data. *)
Theorem service_requires_scope now e s p :
  (Allows p payments_write = false ->
    (forall cmd, ci_Principal cmd = p -> exists err, Service_CreateIntent json commandHash now e cmd s = (s, Err err)) /\
    (forall cmd, crt_Principal cmd = p -> exists err, Service_CreateRoute json commandHash now e cmd s = (s, Err err)) /\
    (forall cmd, cl_Principal cmd = p -> Service_CancelIntent commandHash e cmd s = (s, Err (forbidden payments_write))) /\
    (forall cmd, cl_Principal cmd = p -> Service_ExpireIntent commandHash e cmd s = (s, Err (forbidden payments_write))) /\
    (forall cmd, um_Principal cmd = p ->
       Service_UpdateIntentMetadata json commandHash e cmd s = (s, Err (forbidden payments_write))) /\
    (forall cmd, sp_Principal cmd = p -> Service_SubmitPaymentProof commandHash e cmd s = (s, Err (forbidden payments_write))) /\
    (forall key h, Service_FindRouteReplay p key h s = Err (forbidden payments_write))) /\
  (Allows p payments_read = false ->
    (forall id, Service_GetIntent p id s = Err (forbidden payments_read)) /\
    (forall status after limit, Service_ListIntents p status after limit s = Err (forbidden payments_read)) /\
    Service_ListAssets p s = Err (forbidden payments_read) /\
    (forall id, Service_GetPaymentProof p id s = Err (forbidden payments_read))) /\
  (Allows p reconciliation_read = false ->
    (forall cmd, cp_Principal cmd = p ->
       Service_CreateReconciliationReport commandHash now e cmd s = (s, Err (forbidden reconciliation_read))) /\
    (forall id, Service_GetReconciliationReport p id s = Err (forbidden reconciliation_read))).
Proof.
  split; [|split]; intros Hno.
  - split; [|split].
    + intros cmd Hp. unfold Service_CreateIntent, create_intent_guards. rewrite Hp, Hno.
      destruct (_ || _); simpl; eauto.
    + intros cmd Hp. unfold Service_CreateRoute, create_route_guards.
      change (crt_Principal (route_defaults now cmd)) with (crt_Principal cmd).
      rewrite Hp, Hno. destruct (_ || _); simpl; eauto.
    + repeat split; [intros cmd Hp|intros cmd Hp|intros cmd Hp|intros cmd Hp|intros key h];
        [unfold Service_CancelIntent|unfold Service_ExpireIntent|unfold Service_UpdateIntentMetadata|
         unfold Service_SubmitPaymentProof|unfold Service_FindRouteReplay]; rewrite ?Hp, Hno;
        rewrite ?orb_true_r; done.
  - repeat split; intros; unfold Service_GetIntent, Service_ListIntents, Service_ListAssets,
      Service_GetPaymentProof; by rewrite Hno.
  - split; intros; [unfold Service_CreateReconciliationReport|unfold Service_GetReconciliationReport];
      [match goal with Hp : cp_Principal _ = p |- _ => rewrite Hp end|]; by rewrite Hno.
Qed.

Lemma selectors_ok_spec routes : forall seen,
  selectors_ok seen routes = true ->
  Forall (fun r => selector_valid r = true) routes /\ NoDup (selector_key <$> routes) /\
  (forall r, r ∈ routes -> ~ In (selector_key r) seen).
Proof.
  induction routes as [|r routes IH]; intros seen Hok; simpl in Hok.
  { split; [done|]. split; [constructor|]. intros r Hr. by apply elem_of_nil in Hr. }
  destruct (negb (selector_valid r) || _) eqn:E; [done|]. bool_hyp.
  destruct (IH _ Hok) as (Hv & Hnd & Hfresh). split; [by constructor|]. split.
  - rewrite fmap_cons. constructor; [|done]. intros (r' & Heq & Hin)%list_elem_of_fmap.
    apply (Hfresh r' Hin). left. done.
  - intros r' [->|Hin]%elem_of_cons.
    + rewrite <- existsb_str_In. congruence.
    + intros Hin'. apply (Hfresh r' Hin). by right.
Qed.

(** What [Service.CreateIntent] requires of a command at time [now]. *)
Definition admissible (now : Time) (cmd : CreateIntentCmd) : Prop :=
  let expiresAt := default_expiry now (ci_ExpiresAt cmd) in
  Allows (ci_Principal cmd) payments_write = true /\
  p_TenantID (ci_Principal cmd) <> "" /\ p_MerchantID (ci_Principal cmd) <> "" /\
  8 <= len (ci_IdempotencyKey cmd) <= 255 /\ TrimSpace (ci_MerchantOrderID cmd) <> "" /\
  ci_AmountMinor cmd <> 0 /\
  ValidateCurrency (ci_Currency cmd) (ci_CurrencyScale cmd) = Ok tt /\
  now + Minute <= expiresAt <= now + 7 * 24 * Hour /\
  Forall (fun r => selector_valid r = true) (ci_AllowedRoutes cmd) /\
  NoDup (selector_key <$> ci_AllowedRoutes cmd).

Lemma create_intent_guards_spec now cmd :
  create_intent_guards json now cmd = Ok tt -> admissible now cmd.
Proof.
  unfold create_intent_guards, admissible. intros Hg.
  destruct (_ || _) eqn:E1 in Hg; [done|]. destruct (negb _) eqn:E2 in Hg; [done|].
  destruct (_ || _) eqn:E3 in Hg; [done|]. destruct (_ || _) eqn:E4 in Hg; [done|].
  destruct (IsZero _) eqn:E5; [done|].
  destruct (ValidateCurrency _ _) as [[]|] eqn:E6; [|done]. cbn in Hg.
  destruct (Before _ _ || After _ _) eqn:E7; [done|].
  run_ok Hg. bool_hyp. unfold Before, After, AddTime in *. bool_hyp.
  match goal with Hs : selectors_ok _ _ = true |- _ => apply selectors_ok_spec in Hs as (? & ? & _) end.
  apply IsZero_false in E5. repeat split; try done; lia.
Qed.

(** The service passes on only admissible creations: if creating an intent
    succeeds, the caller has the write scope and an identity, the key, order,
    amount, currency and allowed routes are well formed and the expiry is
    between one minute and seven days ahead, and the intent belongs to the caller. *)
Theorem Service_CreateIntent_admits now e cmd s s' i b :
  ps_ok s -> plain_principal (ci_Principal cmd) ->
  Service_CreateIntent json commandHash now e cmd s = (s', Ok (i, b)) ->
  admissible now cmd /\ owns_intent (ci_Principal cmd) i = true.
Proof.
  intros Hok Hp Hc. unfold Service_CreateIntent in Hc.
  destruct (create_intent_guards json now cmd) as [[]|] eqn:Eg; [|done].
  split; [by apply create_intent_guards_spec|].
  destruct (request_hash _ _ _) as [hash|]; [|done].
  by eapply (law_created_owned _ (set_ci_ExpiresAt cmd (default_expiry now (ci_ExpiresAt cmd)))) in Hc.
Qed.

(** Retries through the service: with the fingerprint of the request, an
    admissible retry at any later time replays the recorded intent and leaves
    the store alone; without it, a retry that relies on the default expiry is
    refused as a conflict when the clock (and so the hash of the command) has
    moved. *)
Theorem Service_CreateIntent_retry now1 now2 e e' cmd s s' i :
  ps_ok s -> ps_fresh s e -> plain_principal (ci_Principal cmd) ->
  Service_CreateIntent json commandHash now1 e cmd s = (s', Ok (i, false)) ->
  create_intent_guards json now2 cmd = Ok tt ->
  (ci_RequestHash cmd <> "" ->
     exists i', Service_CreateIntent json commandHash now2 e' cmd s' = (s', Ok (i', true)) /\ pi_ID i' = pi_ID i) /\
  (ci_RequestHash cmd = "" ->
   forall h1 h2,
     commandHash (create_intent_hash (set_ci_ExpiresAt cmd (default_expiry now1 (ci_ExpiresAt cmd)))) = Ok h1 ->
     commandHash (create_intent_hash (set_ci_ExpiresAt cmd (default_expiry now2 (ci_ExpiresAt cmd)))) = Ok h2 ->
     h2 <> h1 ->
     Service_CreateIntent json commandHash now2 e' cmd s' = (s', Err (Sentinel ErrIdempotencyConflict))).
Proof.
  intros Hok Hf Hp Hc Hg2. unfold Service_CreateIntent in Hc |- *. rewrite Hg2.
  destruct (create_intent_guards json now1 cmd) as [[]|]; [|done].
  set (cmd1 := set_ci_ExpiresAt cmd (default_expiry now1 (ci_ExpiresAt cmd))) in *.
  set (cmd2 := set_ci_ExpiresAt cmd (default_expiry now2 (ci_ExpiresAt cmd))).
  destruct (request_hash commandHash (ci_RequestHash cmd1) (create_intent_hash cmd1)) as [h|] eqn:Eh; [|done].
  destruct (law_create_replay e cmd1 h s s' i e' cmd2 Hok Hp Hf Hc eq_refl eq_refl) as (Hreplay & Hconf).
  unfold request_hash in Eh |- *. change (ci_RequestHash cmd1) with (ci_RequestHash cmd) in Eh.
  change (ci_RequestHash cmd2) with (ci_RequestHash cmd). split.
  - intros Hne. apply String.eqb_neq in Hne. rewrite Hne in Eh |- *. by injection Eh as ->.
  - intros Heq h1 h2 Hh1 Hh2 Hne. rewrite Heq in Eh |- *. simpl in Eh |- *. rewrite Hh2.
    apply Hconf. congruence.
Qed.
End service_facts.

(** ** Examples: the service over the memory store *)

Definition sample_codec : codec :=
  mkCodec (fun _ => Some []) (fun s => Some s) (fun _ => Some []) (fun _ => Ok "{}")
    (fun _ => Some ("https", "pay.example", false, "")).

(** A command hash that depends on the expiry, as the JSON of the command does. *)
Definition sample_hash (h : hashed) : result error string :=
  match h with
  | HashCreateIntent _ _ _ _ _ _ _ _ expiresAt => Ok (dec_string expiresAt)
  | _ => Ok "h"
  end.


Definition retry_cmd : CreateIntentCmd := set_ci_ExpiresAt (sample_create "idem-0001" "order-1") 0.

Definition created_env : env := sample_env "intent-1" "event-1" "cs_token" (UnixTime 1700000000).

Definition created : Store * result error (PaymentIntent * bool) :=
  Service_CreateIntent (H := MemoryStore no_payload) sample_codec sample_hash (UnixTime 1700000000)
    created_env retry_cmd NewStore.

Definition created_value : PaymentIntent :=
  match snd created with Ok (i, _) => i | Err _ => zero_intent end.

Lemma Service_CreateIntent_admits_witness :
  admissible (UnixTime 1700000000) retry_cmd /\ owns_intent sample_principal created_value = true.
Proof.
  apply (Service_CreateIntent_admits (H0 := MemoryStoreLaws no_payload) sample_codec sample_hash
    (UnixTime 1700000000) created_env retry_cmd NewStore (fst created) created_value false).
  - apply inv_new.
  - exact sample_principal_plain.
  - vm_compute. reflexivity.
Defined.

Lemma Service_CreateIntent_retry_witness :
  Service_CreateIntent (H := MemoryStore no_payload) sample_codec sample_hash (UnixTime 1700000005)
    created_env retry_cmd (fst created) = (fst created, Err (Sentinel ErrIdempotencyConflict)).
Proof.
  destruct (Service_CreateIntent_retry (H0 := MemoryStoreLaws no_payload) sample_codec sample_hash
    (UnixTime 1700000000) (UnixTime 1700000005) created_env created_env retry_cmd NewStore (fst created)
    created_value) as (_ & Hconf).
  - apply inv_new.
  - by eapply fresh_envb_sound; vm_compute.
  - exact sample_principal_plain.
  - vm_compute. reflexivity.
  - vm_compute. reflexivity.
  - eapply Hconf; [reflexivity|vm_compute; reflexivity|vm_compute; reflexivity|discriminate].
Defined.
