(* ===== verification/Scanner.v ===== *)
(** * Scanner: internal/scanner (worker.go, range_verifier.go)

    The chain scanner: the quorum height of the providers, the validation of a
    scanned range against the committed cursor, one run of the worker as the
    sequence of its store calls, and the independent range verifier. *)

From Stdlib Require Import ZArith Lia Ascii String Permutation Sorted.
From stdpp Require Import base gmap list strings.
From S2P Require Import Prelude Text Money Domain Matching.

Record ProviderHead := mkHead {
  ph_Provider : string; ph_ChainID : string; ph_GenesisHash : string; ph_SafeHeight : Z;
  ph_ObservedAt : Time }.

Record Block := mkBlock { bl_Height : Z; bl_Hash : string; bl_ParentHash : string; bl_Time : Time }.

Record ConfigEvidence := mkConfigEvidence {
  ce_Kind : string; ce_LogicalKey : string; ce_SnapshotID : string; ce_PayloadHash : string;
  ce_Version : Z; ce_FenceToken : Z }.

Record RangeBatch := mkBatch {
  rb_From : Z; rb_To : Z; rb_Blocks : list Block; rb_Events : list TransferEvent;
  rb_RuntimeEvidence : list ConfigEvidence; rb_SparseBlocks : bool; rb_IndexedCheckpoint : bool;
  rb_IdleCheckpoint : bool }.

Record Lease := mkLease {
  ls_ChainID : string; ls_Shard : string; ls_Owner : string; ls_Height : Z; ls_Hash : string;
  ls_Version : Z; ls_Until : Time }.

(** An error of the source or of the worker; [retryable] is what [Retryable]
    reports for it. *)
Inductive scan_error :=
| ScanErr (msg : string) (retryable : bool)
| ReorgError (height : Z) (committed new : string).

Definition Retryable (e : scan_error) : bool :=
  match e with ScanErr _ r => r | ReorgError _ _ _ => false end.

Definition plain (msg : string) : scan_error := ScanErr msg false.

(** ** quorumSafeHeightAt *)

(** A head that passes the two filters of the loop, the provider test apart. *)
Definition head_ok (chainID genesis : string) (now : Time) (maxAge : Duration) (h : ProviderHead) : bool :=
  negb ((ph_ChainID h != chainID) || (ph_GenesisHash h != genesis) || (ph_Provider h == ""))
  && negb (IsZeroTime (ph_ObservedAt h) || (SubTime now (ph_ObservedAt h) >? maxAge)
           || After (ph_ObservedAt h) (AddTime now (30 * Second))).

(** The heads that count: the first acceptable one of each provider. *)
Fixpoint counted_heads (chainID genesis : string) (now : Time) (maxAge : Duration)
    (providers : list string) (heads : list ProviderHead) : list ProviderHead :=
  match heads with
  | [] => []
  | h :: rest =>
      if existsb_str (ph_Provider h) providers || negb (head_ok chainID genesis now maxAge h)
      then counted_heads chainID genesis now maxAge providers rest
      else h :: counted_heads chainID genesis now maxAge (ph_Provider h :: providers) rest
  end.

Definition quorumSafeHeightAt (heads : list ProviderHead) (chainID genesis : string) (quorum : Z)
    (now : Time) (maxAge : Duration) : result scan_error Z :=
  let heights := ph_SafeHeight <$> counted_heads chainID genesis now maxAge [] heads in
  if Z.of_nat (length heights) <? quorum then Err (plain "provider quorum unavailable")
  else match sort_by (fun i j => i >? j) heights !! Z.to_nat (quorum - 1) with
       | Some h => Ok h
       | None => Err (plain "index out of range")
       end.

(** ** validateRange *)

(** The body of the loop at offset [i]; [prev] is the block before. *)
Definition block_error (batch : RangeBatch) (from : Z) (i : nat) (prev : option Block) (block : Block)
    : option string :=
  let expectedHeight := if rb_SparseBlocks batch then bl_Height block else uint64 (from + Z.of_nat i) in
  if negb (bl_Height block =? expectedHeight) || (bl_Height block <? from)
     || (bl_Height block >? rb_To batch) || (bl_Hash block == "") || IsZeroTime (bl_Time block)
  then Some "block gap"
  else match prev with
       | None => None
       | Some p =>
           if bl_Height block <=? bl_Height p then Some "block order mismatch"
           else
             let gapAllowed := (rb_IdleCheckpoint batch || rb_IndexedCheckpoint batch)
                               && (bl_Height block >? uint64 (bl_Height p + 1)) in
             if (bl_ParentHash block != bl_Hash p) && negb gapAllowed then Some "parent hash mismatch"
             else None
       end.

Fixpoint blocks_error (batch : RangeBatch) (from : Z) (i : nat) (prev : option Block) (blocks : list Block)
    : option string :=
  match blocks with
  | [] => None
  | block :: rest =>
      match block_error batch from i prev block with
      | Some e => Some e
      | None => blocks_error batch from (S i) (Some block) rest
      end
  end.

(** The loop over the overlap: a reorg, or whether the cursor was found. *)
Fixpoint cursor_check (lease : Lease) (found : bool) (blocks : list Block) : result scan_error bool :=
  match blocks with
  | [] => Ok found
  | block :: rest =>
      if bl_Height block =? ls_Height lease then
        if bl_Hash block != ls_Hash lease
        then Err (ReorgError (bl_Height block) (ls_Hash lease) (bl_Hash block))
        else cursor_check lease true rest
      else cursor_check lease found rest
  end.

(** The map from height to hash: the last block of a height wins. *)
Definition block_hashes (blocks : list Block) : gmap Z string :=
  fold_left (fun m b => <[bl_Height b := bl_Hash b]> m) blocks ∅.

Definition event_bound (hashes : gmap Z string) (event : TransferEvent) : bool :=
  match hashes !! te_BlockHeight event with Some hash => hash == te_BlockHash event | None => false end.

Definition validateRange (batch : RangeBatch) (from to : Z) (lease : Lease) (overlap : Z)
    : result scan_error unit :=
  if rb_IdleCheckpoint batch && (negb (rb_SparseBlocks batch) || negb (Z.of_nat (length (rb_Events batch)) =? 0)
                                 || (Z.of_nat (length (rb_Blocks batch)) >? 3))
  then Err (plain "invalid idle checkpoint range")
  else if rb_IndexedCheckpoint batch && (negb (rb_SparseBlocks batch) || rb_IdleCheckpoint batch)
  then Err (plain "invalid indexed checkpoint range")
  else if negb (rb_From batch =? from) || (rb_To batch >? to) || (rb_To batch <? from)
          || (Z.of_nat (length (rb_Blocks batch)) =? 0)
  then Err (plain "range coverage mismatch")
  else if negb (rb_SparseBlocks batch)
          && (negb (rb_To batch =? to) || negb (Z.of_nat (length (rb_Blocks batch)) =? int64 (uint64 (to - from + 1))))
  then Err (plain "range coverage mismatch")
  else match blocks_error batch from 0 None (rb_Blocks batch) with
       | Some e => Err (plain e)
       | None =>
           if negb (match List.last (Some <$> rb_Blocks batch) None with
                    | Some b => bl_Height b =? rb_To batch
                    | None => false
                    end)
           then Err (plain "range cursor is not bound to the final block")
           else if negb (forallb (event_bound (block_hashes (rb_Blocks batch))) (rb_Events batch))
           then Err (plain "event is not bound to a covered block")
           else if (overlap >? 0) && (ls_Hash lease != "") then
             match cursor_check lease false (rb_Blocks batch) with
             | Err e => Err e
             | Ok true => Ok tt
             | Ok false => Err (plain "overlap does not include committed cursor")
             end
           else Ok tt
       end.

(** ** Worker.RunOnce *)

Record Worker := mkWorker {
  w_ChainID : string; w_GenesisHash : string; w_Shard : string; w_Owner : string; w_Quorum : Z;
  w_Overlap : Z; w_RangeSize : Z; w_LeaseDuration : Duration; w_MaxHeadAge : Duration;
  w_FinalityDepth : Z; w_RuntimeEvidence : list ConfigEvidence }.

(** The calls of the run to its cursor store, in order. *)
Inductive scan_call :=
| CallRelease (lease : Lease)
| CallRecordGap (chain : string) (from to : Z) (reason : string)
| CallRewindReorg (lease : Lease) (batch : RangeBatch) (height : Z) (committed new : string)
| CallCommit (lease : Lease) (batch : RangeBatch).

(** What the source and the store answer during the run; [sc_renew] is the
    failure of the lease renewal that [stopRenewal] reports, if any. *)
Record scan_env := mkScanEnv {
  sc_now : Time; sc_acquire : result scan_error Lease; sc_heads : result scan_error (list ProviderHead);
  sc_scan : Z -> Z -> result scan_error RangeBatch; sc_renew : option scan_error;
  sc_rewind : option scan_error; sc_commit : option scan_error }.

Definition with_evidence (b : RangeBatch) (ev : list ConfigEvidence) : RangeBatch :=
  mkBatch (rb_From b) (rb_To b) (rb_Blocks b) (rb_Events b) ev (rb_SparseBlocks b)
    (rb_IndexedCheckpoint b) (rb_IdleCheckpoint b).

(** The first height of the range: the overlap before the cursor. *)
Definition scan_from (w : Worker) (lease : Lease) : Z :=
  if (w_Overlap w >? 0) && (ls_Hash lease != "") then
    if uint64 (ls_Height lease + 1) >? w_Overlap w then uint64 (ls_Height lease - w_Overlap w + 1) else 0
  else uint64 (ls_Height lease + 1).

Definition safe_height (w : Worker) (quorum : Z) : Z :=
  if quorum <? w_FinalityDepth w then 0 else quorum - w_FinalityDepth w.

Definition max_head_age (w : Worker) : Duration :=
  if w_MaxHeadAge w =? 0 then 2 * Minute else w_MaxHeadAge w.

(** The calls made, and the result: [Ok None] is the empty batch of an idle run.
    The deferred [Release] is the last call of the runs that did not commit. *)
Definition RunOnce (w : Worker) (e : scan_env)
    : list scan_call * result scan_error (option RangeBatch) :=
  if (w_Quorum w <? 1) || (w_Overlap w <? 1) || (w_RangeSize w <=? w_Overlap w)
  then ([], Err (plain "invalid scanner configuration"))
  else if max_head_age w <? Second then ([], Err (plain "invalid scanner head freshness policy"))
  else
    match sc_acquire e with
    | Err err => ([], Err err)
    | Ok lease =>
        let fail calls err := (calls ++ [CallRelease lease], Err err) in
        match sc_heads e with
        | Err err => fail [] err
        | Ok heads =>
            match quorumSafeHeightAt heads (w_ChainID w) (w_GenesisHash w) (w_Quorum w) (sc_now e) (max_head_age w) with
            | Err err => fail [] err
            | Ok quorum =>
                let safe := safe_height w quorum in
                let from := scan_from w lease in
                if safe <? from then
                  match sc_renew e with
                  | Some err => fail [] err
                  | None => ([CallRelease lease], Ok None)
                  end
                else
                  let to := let t := uint64 (from + w_RangeSize w - 1) in if t >? safe then safe else t in
                  match sc_renew e with
                  | Some err => fail [] err
                  | None =>
                      match sc_scan e from to with
                      | Err err =>
                          fail (if Retryable err then []
                                else [CallRecordGap (w_ChainID w) from to "provider_error"]) err
                      | Ok scanned =>
                          let batch := with_evidence scanned (w_RuntimeEvidence w) in
                          if negb (forallb (fun ev => ei_ChainID (te_Identity ev) == w_ChainID w) (rb_Events batch))
                          then fail [CallRecordGap (w_ChainID w) from to "cross_chain_event"]
                                 (plain "normalized event belongs to another chain")
                          else
                            match validateRange batch from to lease (w_Overlap w) with
                            | Err (ReorgError height committed new) =>
                                let call := CallRewindReorg lease batch height committed new in
                                match sc_rewind e with
                                | Some err => fail [call] err
                                | None => ([call], Err (ReorgError height committed new))
                                end
                            | Err err => fail [CallRecordGap (w_ChainID w) from to "non_contiguous_range"] err
                            | Ok _ =>
                                match sc_commit e with
                                | Some err => fail [CallCommit lease batch] err
                                | None => ([CallCommit lease batch], Ok (Some batch))
                                end
                            end
                      end
                  end
            end
        end
    end.

(** ** RangeVerifier.VerifyExpectedTransfer *)

Fixpoint find_transfer (sha256 : string -> string) (wanted : string) (found : option TransferEvent)
    (events : list TransferEvent) : result string TransferEvent :=
  match events with
  | [] => match found with
          | None => Err "provider range did not contain expected transfer"
          | Some e => Ok e
          end
  | candidate :: rest =>
      match IdentityKey sha256 (te_Identity candidate) with
      | Ok key =>
          if key != wanted then find_transfer sha256 wanted found rest
          else match found with
               | Some _ => Err "provider range returned duplicate transfer identity"
               | None => find_transfer sha256 wanted (Some candidate) rest
               end
      | Err _ => find_transfer sha256 wanted found rest
      end
  end.

Definition VerifyExpectedTransfer (sha256 : string -> string) (scan : Z -> Z -> result string RangeBatch)
    (expected : TransferEvent) : result string TransferEvent :=
  match IdentityKey sha256 (te_Identity expected) with
  | Err _ => Err "invalid expected transfer block evidence"
  | Ok wanted =>
      if te_BlockHeight expected =? 0 then Err "invalid expected transfer block evidence"
      else match scan (te_BlockHeight expected) (te_BlockHeight expected) with
           | Err e => Err e
           | Ok batch => find_transfer sha256 wanted None (rb_Events batch)
           end
  end.

(** ** Properties of the quorum height *)

Lemma counted_heads_spec chainID genesis now maxAge heads : forall providers,
  let l := counted_heads chainID genesis now maxAge providers heads in
  NoDup (ph_Provider <$> l) /\
  forall h, h ∈ l -> h ∈ heads /\ head_ok chainID genesis now maxAge h = true /\ ~ In (ph_Provider h) providers.
Proof.
  induction heads as [|x heads IH]; intros providers; simpl.
  { split; [constructor|]. intros h Hh. by apply elem_of_nil in Hh. }
  destruct (existsb_str (ph_Provider x) providers || _) eqn:E.
  - destruct (IH providers) as [Hnd Hin]. split; [done|]. intros h Hh.
    destruct (Hin h Hh) as (? & ? & ?). split; [by right|done].
  - bool_hyp. destruct (IH (ph_Provider x :: providers)) as [Hnd Hin]. split.
    + rewrite fmap_cons. constructor; [|done]. intros (y & Heq & Hy)%list_elem_of_fmap.
      destruct (Hin y Hy) as (_ & _ & Hni). apply Hni. by left.
    + intros h [->|Hh]%elem_of_cons.
      * split; [left|]. split; [done|]. rewrite <- existsb_str_In. congruence.
      * destruct (Hin h Hh) as (? & ? & Hni). split; [by right|]. split; [done|].
        intros Hp. apply Hni. by right.
Qed.

(** In a descending list, the element at [n] has [n + 1] elements at or above
    it and at most [n] strictly above. *)
Lemma descending_rank (l : list Z) : forall (n : nat) (h : Z),
  StronglySorted (fun x y : Z => (y <= x)%Z) l -> l !! n = Some h ->
  (S n <= length (List.filter (fun x => (h <=? x)%Z) l))%nat /\
  (length (List.filter (fun x => (h <? x)%Z) l) <= n)%nat.
Proof.
  induction l as [|x l IH]; intros n h Hs Hn; [by rewrite lookup_nil in Hn|].
  apply StronglySorted_inv in Hs as [Hs Hall]. rewrite Forall_forall in Hall.
  destruct n as [|n]; simpl in Hn.
  - injection Hn as ->. simpl. rewrite Z.leb_refl, Z.ltb_irrefl. simpl. split; [lia|].
    assert (List.filter (fun x => h <? x) l = []) as ->; [|done].
    destruct (List.filter (fun x => h <? x) l) as [|y r] eqn:E; [done|].
    assert (In y (y :: r)) as Hy by (by left). rewrite <- E in Hy. apply filter_In in Hy as [Hy Hlt].
    apply list_elem_of_In, Hall in Hy. bool_hyp. lia.
  - destruct (IH n h Hs Hn) as [H1 H2].
    assert (h <= x) by (apply Hall; by eapply list_elem_of_lookup_2).
    simpl. replace (h <=? x) with true by lia. simpl.
    split; [lia|]. destruct (h <? x); simpl; lia.
Qed.

Lemma height_sort_sorted l : StronglySorted (fun x y => y <= x) (sort_by (fun i j => i >? j) l).
Proof.
  assert (Hs : StronglySorted (not_after (fun i j => i >? j)) (sort_by (fun i j => i >? j) l)).
  { apply sort_by_sorted; intros; lia. }
  induction Hs as [|x r Hs IH Hall]; constructor; [done|].
  eapply Forall_impl; [exact Hall|]. intros y Hy. unfold not_after in Hy. simpl. lia.
Qed.

Lemma filter_length_perm {A} (f : A -> bool) l l' :
  Permutation l l' -> length (List.filter f l) = length (List.filter f l').
Proof.
  induction 1 as [|x l l' Hp IH|x y l|l1 l2 l3 H1 IH1 H2 IH2]; simpl; [done|..|congruence].
  - destruct (f x); simpl; congruence.
  - by destruct (f x), (f y).
Qed.

Lemma filter_map_length {A B} (f : A -> B) (p : B -> bool) l :
  length (List.filter p (f <$> l)) = length (List.filter (fun x => p (f x)) l).
Proof.
  induction l as [|x l IH]; [done|]. rewrite fmap_cons. simpl. destruct (p (f x)); simpl; congruence.
Qed.

Lemma filter_pigeon {A} (p q : A -> bool) l :
  (length (List.filter q l) < length (List.filter p l))%nat ->
  exists x, x ∈ l /\ p x = true /\ q x = false.
Proof.
  induction l as [|x l IH]; simpl; [lia|].
  destruct (p x) eqn:Ep, (q x) eqn:Eq; simpl; intros Hlt;
    try (exists x; split; [left|done]);
    (destruct IH as (y & Hy & ? & ?); [lia|]; exists y; split; [by right|done]).
Qed.

(** The height the scanner trusts is backed by a quorum: it is available
    exactly when enough distinct, fresh providers of the right chain answered,
    at least a quorum of them report this height or more, less than a quorum
    report a higher one, and whatever fewer than a quorum of faulty providers
    claim, some provider that is not faulty has reached it. *)
Theorem quorumSafeHeightAt_backed heads chainID genesis quorum now maxAge :
  1 <= quorum ->
  let counted := counted_heads chainID genesis now maxAge [] heads in
  (is_ok (quorumSafeHeightAt heads chainID genesis quorum now maxAge) = true <->
     quorum <= Z.of_nat (length counted)) /\
  NoDup (ph_Provider <$> counted) /\
  (forall x, x ∈ counted -> x ∈ heads /\ head_ok chainID genesis now maxAge x = true) /\
  forall h, quorumSafeHeightAt heads chainID genesis quorum now maxAge = Ok h ->
    quorum <= Z.of_nat (length (List.filter (fun x => h <=? ph_SafeHeight x) counted)) /\
    Z.of_nat (length (List.filter (fun x => h <? ph_SafeHeight x) counted)) < quorum /\
    forall faulty : ProviderHead -> bool,
      Z.of_nat (length (List.filter faulty counted)) < quorum ->
      exists x, x ∈ counted /\ faulty x = false /\ h <= ph_SafeHeight x.
Proof.
  intros Hq counted. destruct (counted_heads_spec chainID genesis now maxAge heads []) as [Hnd Hin].
  fold counted in Hnd, Hin. unfold quorumSafeHeightAt. fold counted.
  set (heights := ph_SafeHeight <$> counted). set (l := sort_by _ heights).
  assert (Hlen : length heights = length counted) by apply length_fmap.
  assert (Hll : length l = length heights) by apply sort_by_length.
  split; [|split; [done|split]].
  - rewrite Hlen. destruct (Z.of_nat (length counted) <? quorum) eqn:E; bool_hyp; [split; [done|lia]|].
    destruct (l !! Z.to_nat (quorum - 1)) eqn:El; [done|]. apply lookup_ge_None in El. lia.
  - intros x Hx. destruct (Hin x Hx) as (? & ? & _). done.
  - intros h H. destruct (Z.of_nat (length heights) <? quorum); [done|].
    destruct (l !! Z.to_nat (quorum - 1)) as [h'|] eqn:El; [|done]. injection H as ->.
    apply descending_rank in El as [H1 H2]; [|apply height_sort_sorted].
    rewrite (filter_length_perm _ l heights) in H1 by (symmetry; apply sort_by_perm).
    rewrite (filter_length_perm _ l heights) in H2 by (symmetry; apply sort_by_perm).
    unfold heights in H1, H2. rewrite filter_map_length in H1. rewrite filter_map_length in H2. split; [lia|]. split; [lia|].
    intros faulty Hf. destruct (filter_pigeon (fun x => h <=? ph_SafeHeight x) faulty counted)
      as (x & Hx & Hp & Hn); [lia|]. bool_hyp. eauto.
Qed.

Definition sample_head (provider : string) (height : Z) : ProviderHead :=
  mkHead provider "eip155:1" "0xgenesis" height (UnixTime 1700000000).

Definition sample_heads : list ProviderHead :=
  [sample_head "a" 105; sample_head "a" 999; sample_head "b" 100; sample_head "c" 5000].

Lemma quorumSafeHeightAt_backed_witness :
  exists x, x ∈ counted_heads "eip155:1" "0xgenesis" (UnixTime 1700000000) (2 * Minute) [] sample_heads /\
            (ph_Provider x == "c") = false /\ 105 <= ph_SafeHeight x.
Proof.
  destruct (quorumSafeHeightAt_backed sample_heads "eip155:1" "0xgenesis" 2 (UnixTime 1700000000)
              (2 * Minute)) as (_ & _ & _ & H); [lia|].
  destruct (H 105) as (_ & _ & F); [vm_compute; reflexivity|].
  apply (F (fun x => ph_Provider x == "c")). vm_compute; reflexivity.
Defined.

(** ** What a validated range is *)

(** The relation of a block to the one after it: strictly higher, and its
    parent unless a checkpoint range skips blocks between them. *)
Definition links (batch : RangeBatch) (p b : Block) : Prop :=
  bl_Height p < bl_Height b /\
  (bl_ParentHash b = bl_Hash p \/
   (rb_IdleCheckpoint batch || rb_IndexedCheckpoint batch) = true /\ bl_Height p + 1 < bl_Height b).

Definition block_ok (batch : RangeBatch) (from : Z) (b : Block) : Prop :=
  from <= bl_Height b <= rb_To batch /\ bl_Hash b <> "" /\ IsZeroTime (bl_Time b) = false.

(** The contract of the scanned range [from .. to], apart from the cursor. *)
Record covers (batch : RangeBatch) (from to : Z) : Prop := mk_covers {
  cv_from : rb_From batch = from;
  cv_to : from <= rb_To batch <= to;
  cv_idle : rb_IdleCheckpoint batch = true ->
    rb_SparseBlocks batch = true /\ rb_Events batch = [] /\ (length (rb_Blocks batch) <= 3)%nat;
  cv_indexed : rb_IndexedCheckpoint batch = true ->
    rb_SparseBlocks batch = true /\ rb_IdleCheckpoint batch = false;
  cv_dense : rb_SparseBlocks batch = false ->
    rb_To batch = to /\ bl_Height <$> rb_Blocks batch = seqZ from (to - from + 1);
  cv_blocks : Forall (block_ok batch from) (rb_Blocks batch);
  cv_chain : Sorted (links batch) (rb_Blocks batch);
  cv_last : exists b, last (rb_Blocks batch) = Some b /\ bl_Height b = rb_To batch;
  cv_events : forall ev, ev ∈ rb_Events batch ->
    exists b, b ∈ rb_Blocks batch /\ bl_Height b = te_BlockHeight ev /\ bl_Hash b = te_BlockHash ev }.

(** The committed cursor is in the overlap with the hash the range has there. *)
Definition has_cursor (batch : RangeBatch) (lease : Lease) (hash : string) : Prop :=
  exists b, b ∈ rb_Blocks batch /\ bl_Height b = ls_Height lease /\ bl_Hash b = hash.

Lemma block_error_none batch from i prev b :
  is_uint64 (bl_Height b) -> (forall p, prev = Some p -> is_uint64 (bl_Height p)) ->
  (rb_SparseBlocks batch = false -> is_uint64 (from + Z.of_nat i)) ->
  block_error batch from i prev b = None <->
  block_ok batch from b /\ (rb_SparseBlocks batch = false -> bl_Height b = from + Z.of_nat i) /\
  (forall p, prev = Some p -> links batch p b).
Proof.
  intros Hb Hp Hi. unfold block_error, block_ok.
  destruct (_ || _ || _ || _ || _) eqn:E.
  - split; [done|]. intros ((Hr & Hh & Ht) & Hs & _). exfalso. apply String.eqb_neq in Hh.
    rewrite Hh, Ht in E. destruct (rb_SparseBlocks batch); [lia|].
    rewrite uint64_id, <- (Hs eq_refl) in E by auto. lia.
  - bool_hyp. assert (Hs : rb_SparseBlocks batch = false -> bl_Height b = from + Z.of_nat i).
    { intros Hs. rewrite Hs in *. rewrite uint64_id in * by auto. lia. }
    destruct prev as [p|]; [|naive_solver lia].
    specialize (Hp p eq_refl).
    assert (Hu : bl_Height p < bl_Height b -> uint64 (bl_Height p + 1) = bl_Height p + 1).
    { unfold is_uint64 in *. intros ?. apply uint64_id. unfold is_uint64. lia. }
    unfold links. destruct (bl_Height b <=? bl_Height p) eqn:E1; bool_hyp.
    { split; [done|]. intros (_ & _ & HL). destruct (HL p eq_refl). lia. }
    rewrite Hu by lia.
    destruct ((bl_ParentHash b != bl_Hash p) && _) eqn:E2.
    + split; [done|]. intros (_ & _ & HL). destruct (HL p eq_refl) as [_ [Hl|[Hl Hg]]]; exfalso.
      * rewrite Hl, String.eqb_refl in E2. done.
      * rewrite Hl in E2. bool_hyp. lia.
    + split; [intros _|done]. split; [naive_solver lia|]. split; [done|]. intros ? [= <-]. split; [lia|].
      destruct (bl_ParentHash b == bl_Hash p) eqn:E3; bool_hyp; [by left|right].
      simpl in E2. bool_hyp. split; [|lia]. destruct (rb_IdleCheckpoint batch || rb_IndexedCheckpoint batch); done.
Qed.

Lemma blocks_error_none batch from blocks : forall i prev,
  Forall (fun b => is_uint64 (bl_Height b)) blocks -> (forall p, prev = Some p -> is_uint64 (bl_Height p)) ->
  0 <= from -> (rb_SparseBlocks batch = false -> from + Z.of_nat i + Z.of_nat (length blocks) <= 2 ^ 64) ->
  blocks_error batch from i prev blocks = None <->
  Forall (block_ok batch from) blocks /\
  (rb_SparseBlocks batch = false ->
     bl_Height <$> blocks = seqZ (from + Z.of_nat i) (Z.of_nat (length blocks))) /\
  (forall p, prev = Some p -> HdRel (links batch) p blocks) /\ Sorted (links batch) blocks.
Proof.
  induction blocks as [|b blocks IH]; intros i prev Hu Hp Hf Hd; cbn [blocks_error].
  { split; [|done]. intros _. repeat split; by constructor. }
  apply Forall_cons in Hu as [Hb Hu]. cbn [length] in Hd.
  assert (Hi : rb_SparseBlocks batch = false -> is_uint64 (from + Z.of_nat i)).
  { intros Hs. specialize (Hd Hs). unfold is_uint64, max_uint64. lia. }
  pose proof (block_error_none batch from i prev b Hb Hp Hi) as HE.
  assert (Hseq : seqZ (from + Z.of_nat i) (Z.of_nat (S (length blocks))) =
                 (from + Z.of_nat i) :: seqZ (from + Z.of_nat (S i)) (Z.of_nat (length blocks))).
  { rewrite seqZ_cons by lia. f_equal; f_equal; lia. }
  destruct (block_error batch from i prev b) eqn:E.
  - split; [done|]. intros (Hok & Hs & Hh & Hso). exfalso. apply Forall_cons in Hok as [Hok _].
    destruct HE as [_ HE]. enough (Some s = None) by done. apply HE. split; [done|]. split.
    + intros Hsp. specialize (Hs Hsp). cbn [length] in Hs. rewrite Hseq, fmap_cons in Hs. by injection Hs.
    + intros p Hpp. specialize (Hh p Hpp). by inversion Hh.
  - destruct HE as [HE _]. specialize (HE eq_refl) as (Hok & Hs & Hh).
    rewrite IH; [|done|by intros ? [= <-]|done|intros Hsp; specialize (Hd Hsp); lia].
    cbn [length]. rewrite Hseq, fmap_cons, Forall_cons. split.
    + intros (H1 & H2 & H3 & H4). split; [done|]. split; [intros Hsp; f_equal; auto|].
      split; [intros p Hpp; constructor; auto|]. constructor; auto.
    + intros ((_ & H1) & H2 & H3 & H4). apply Sorted_inv in H4 as [H4 H5].
      split; [done|]. split; [intros Hsp; specialize (H2 Hsp); by injection H2|].
      split; [by intros ? [= <-]|done].
Qed.

Lemma links_heights_NoDup batch blocks : Sorted (links batch) blocks -> NoDup (bl_Height <$> blocks).
Proof.
  intros Hs. assert (HS : StronglySorted (fun p b => bl_Height p < bl_Height b) blocks).
  { apply Sorted_StronglySorted; [intros x y z; lia|]. induction Hs as [|b l Hs IH Hh]; constructor; [done|].
    destruct Hh as [|c l [Hc _]]; by constructor. }
  clear Hs. induction HS as [|b l HS IH Hall]; [constructor|]. rewrite fmap_cons. constructor; [|done].
  intros (c & Hc & Hin)%list_elem_of_fmap. rewrite Forall_forall in Hall. specialize (Hall c Hin). lia.
Qed.

Lemma block_hashes_acc blocks : forall m h x, NoDup (bl_Height <$> blocks) ->
  fold_left (fun (m : gmap Z string) b => <[bl_Height b := bl_Hash b]> m) blocks m !! h = Some x <->
  (exists b, b ∈ blocks /\ bl_Height b = h /\ bl_Hash b = x) \/
  (h ∉ bl_Height <$> blocks /\ m !! h = Some x).
Proof.
  induction blocks as [|b blocks IH]; intros m h x Hnd; cbn [fold_left].
  { split; [intros H; right; split; [apply not_elem_of_nil|done]|].
    intros [(b & Hb & _)|[_ H]]; [by apply elem_of_nil in Hb|done]. }
  rewrite fmap_cons in Hnd |- *. apply NoDup_cons in Hnd as [Hn Hnd]. rewrite IH by done.
  destruct (decide (bl_Height b = h)) as [<-|Hne].
  - rewrite lookup_insert_eq. split.
    + intros [(c & Hc & Hh & Hx)|[_ H]].
      * exfalso. apply Hn. apply list_elem_of_fmap. eauto.
      * injection H as <-. left. exists b. split; [left|done].
    + intros [(c & Hc & Hh & <-)|[H _]]; [|exfalso; apply H; left].
      apply elem_of_cons in Hc as [->|Hc]; [by right|].
      exfalso. apply Hn. apply list_elem_of_fmap. eauto.
  - rewrite lookup_insert_ne by done. split.
    + intros [(c & Hc & Hh & Hx)|[H Hm]]; [left; exists c; split; [by right|done]|right].
      split; [|done]. intros [->|?]%elem_of_cons; done.
    + intros [(c & Hc & Hh & Hx)|[H Hm]].
      * apply elem_of_cons in Hc as [->|Hc]; [done|]. left. eauto.
      * right. split; [|done]. intros ?. apply H. by right.
Qed.

Lemma event_bound_spec blocks ev : NoDup (bl_Height <$> blocks) ->
  event_bound (block_hashes blocks) ev = true <->
  exists b, b ∈ blocks /\ bl_Height b = te_BlockHeight ev /\ bl_Hash b = te_BlockHash ev.
Proof.
  intros Hnd. unfold event_bound, block_hashes.
  pose proof (block_hashes_acc blocks ∅ (te_BlockHeight ev)) as H.
  destruct (fold_left _ blocks ∅ !! te_BlockHeight ev) as [x|] eqn:E.
  - rewrite String.eqb_eq. destruct (H x Hnd) as [Hx' _].
    destruct (Hx' eq_refl) as [(b & Hb & Hh & Hx)|[_ E']]; [|by rewrite lookup_empty in E'].
    split; [intros <-; eauto|]. intros (c & Hc & Hch & <-).
    rewrite <- Hx. f_equal. eapply (NoDup_fmap_inj_on bl_Height blocks); eauto. congruence.
  - split; [done|]. intros (b & Hb & Hh & Hx). enough (None = Some (te_BlockHash ev)) by done.
    apply H; [done|]. left. eauto.
Qed.

Lemma cursor_check_absent lease found blocks :
  (forall b, b ∈ blocks -> bl_Height b <> ls_Height lease) -> cursor_check lease found blocks = Ok found.
Proof.
  induction blocks as [|b blocks IH]; intros H; [done|]. simpl.
  replace (bl_Height b =? ls_Height lease) with false; [apply IH; intros; apply H; by right|].
  specialize (H b ltac:(left)). lia.
Qed.

Lemma cursor_check_at lease b blocks : forall found,
  NoDup (bl_Height <$> blocks) -> b ∈ blocks -> bl_Height b = ls_Height lease ->
  cursor_check lease found blocks =
  if bl_Hash b == ls_Hash lease then Ok true else Err (ReorgError (ls_Height lease) (ls_Hash lease) (bl_Hash b)).
Proof.
  induction blocks as [|c blocks IH]; intros found Hnd Hb Hh; [by apply elem_of_nil in Hb|].
  rewrite fmap_cons in Hnd. apply NoDup_cons in Hnd as [Hn Hnd]. simpl.
  apply elem_of_cons in Hb as [<-|Hb].
  - rewrite Hh, Z.eqb_refl. destruct (bl_Hash b == ls_Hash lease); [|done]. apply cursor_check_absent.
    intros d Hd Hdh. apply Hn, list_elem_of_fmap. exists d. split; [congruence|done].
  - destruct (bl_Height c =? ls_Height lease) eqn:E; bool_hyp; [|by apply IH].
    exfalso. apply Hn, list_elem_of_fmap. exists b. split; [congruence|done].
Qed.

Section validate_range.
Context (batch : RangeBatch) (from to : Z) (lease : Lease) (overlap : Z).
Context (Hfrom : is_uint64 from) (Hto : is_uint64 to) (Hsize : to - from + 1 <= max_int64).
Context (Hheights : Forall (fun b => is_uint64 (bl_Height b)) (rb_Blocks batch)).

Lemma covers_first : covers batch from to -> rb_Blocks batch <> [].
Proof. intros Hc Hn. destruct (cv_last _ _ _ Hc) as (b & Hl & _). by rewrite Hn in Hl. Qed.

Lemma range_count : from <= to -> int64 (uint64 (to - from + 1)) = to - from + 1.
Proof.
  unfold is_uint64, max_uint64, max_int64 in *. intros Hle.
  rewrite uint64_id by (unfold is_uint64, max_uint64; lia).
  apply int64_id. unfold is_int64, min_int64, max_int64. lia.
Qed.

Lemma last_block_ok (blocks : list Block) (h : Z) :
  match List.last (Some <$> blocks) None with Some b => bl_Height b =? h | None => false end = true <->
  exists b, last blocks = Some b /\ bl_Height b = h.
Proof.
  assert (E : List.last (Some <$> blocks) None = last blocks).
  { induction blocks as [|b [|c l] IH]; [done..|]. rewrite last_cons_cons, <- IH. done. }
  rewrite E. destruct (last blocks) as [b|]; [rewrite Z.eqb_eq|]; naive_solver.
Qed.

Lemma dense_length :
  from <= to -> (rb_SparseBlocks batch = false -> Z.of_nat (length (rb_Blocks batch)) = to - from + 1) ->
  blocks_error batch from 0 None (rb_Blocks batch) = None <->
  Forall (block_ok batch from) (rb_Blocks batch) /\
  (rb_SparseBlocks batch = false -> bl_Height <$> rb_Blocks batch = seqZ from (to - from + 1)) /\
  Sorted (links batch) (rb_Blocks batch).
Proof.
  intros Hle Hlen. unfold is_uint64, max_uint64 in *.
  rewrite blocks_error_none; [|done|done|lia|intros Hs; specialize (Hlen Hs); lia].
  rewrite Z.add_0_r. split.
  - intros (? & H & _ & ?). split; [done|]. split; [|done]. intros Hs. by rewrite <- (Hlen Hs), H.
  - intros (? & H & ?). split; [done|]. split; [|done]. intros Hs. by rewrite (Hlen Hs), H.
Qed.

(** Whether the range is covered decides between the cursor check and an error
    that is not a reorg. *)
Lemma validateRange_covers :
  (covers batch from to /\
   validateRange batch from to lease overlap =
   if (overlap >? 0) && (ls_Hash lease != "") then
     match cursor_check lease false (rb_Blocks batch) with
     | Err e => Err e
     | Ok true => Ok tt
     | Ok false => Err (plain "overlap does not include committed cursor")
     end
   else Ok tt) \/
  (~ covers batch from to /\ exists msg, validateRange batch from to lease overlap = Err (plain msg)).
Proof.
  unfold validateRange.
  destruct (rb_IdleCheckpoint batch && _) eqn:E1.
  { right. split; [|eauto]. intros Hc. bool_hyp. destruct (cv_idle _ _ _ Hc) as (Hs & He & Hl); [done|].
    rewrite Hs, He in *. simpl in *. lia. }
  destruct (rb_IndexedCheckpoint batch && _) eqn:E2.
  { right. split; [|eauto]. intros Hc. bool_hyp. destruct (cv_indexed _ _ _ Hc) as (Hs & He); [done|].
    rewrite Hs, He in *. done. }
  destruct (negb (rb_From batch =? from) || _ || _ || _) eqn:E3.
  { right. split; [|eauto]. intros Hc. pose proof (cv_from _ _ _ Hc). pose proof (cv_to _ _ _ Hc).
    pose proof (covers_first Hc). destruct (rb_Blocks batch); [done|]. simpl in E3. lia. }
  bool_hyp. destruct (negb (rb_SparseBlocks batch) && _) eqn:E4.
  { right. split; [|eauto]. intros Hc. bool_hyp. destruct (cv_dense _ _ _ Hc) as (Ht & Hs); [done|].
    assert (Hl : length (bl_Height <$> rb_Blocks batch) = Z.to_nat (to - from + 1)) by (rewrite Hs; apply length_seqZ).
    rewrite length_fmap in Hl. pose proof (range_count ltac:(lia)). lia. }
  assert (Hle : from <= rb_To batch <= to) by lia.
  assert (Hd : rb_SparseBlocks batch = false ->
               rb_To batch = to /\ Z.of_nat (length (rb_Blocks batch)) = to - from + 1).
  { intros Hs. rewrite Hs in E4. simpl in E4. bool_hyp. pose proof (range_count ltac:(lia)). lia. }
  pose proof (dense_length ltac:(lia) ltac:(intros Hs; by apply Hd)) as HB.
  destruct (blocks_error batch from 0 None (rb_Blocks batch)) as [e|] eqn:E5.
  { right. split; [|eauto]. intros Hc. enough (Some e = None) by done. apply HB.
    split; [apply Hc|]. split; [|apply Hc]. intros Hs. by apply (cv_dense _ _ _ Hc). }
  destruct HB as [HB _]. specialize (HB eq_refl) as (Hok & Hdense & Hsorted).
  pose proof (last_block_ok (rb_Blocks batch) (rb_To batch)) as HL.
  destruct (match List.last _ None with Some _ => _ | None => _ end) eqn:E6; simpl.
  2:{ right. split; [|eauto]. intros Hc. enough (false = true) by done. apply HL, Hc. }
  destruct HL as [HL _]. specialize (HL eq_refl). pose proof (links_heights_NoDup _ _ Hsorted) as Hnd.
  destruct (forallb _ (rb_Events batch)) eqn:E7; simpl.
  2:{ right. split; [|eauto]. intros Hc. enough (false = true) by done. rewrite <- E7. apply forallb_forall.
      intros ev Hev. apply event_bound_spec; [done|]. apply (cv_events _ _ _ Hc). by apply list_elem_of_In. }
  left. split; [|done]. rewrite forallb_forall in E7. constructor; try done.
  - intros Hi. rewrite Hi in E1. simpl in E1. bool_hyp. split; [done|].
    split; [destruct (rb_Events batch); [done|simpl in *; lia]|lia].
  - intros Hi. rewrite Hi in E2. simpl in E2. by bool_hyp.
  - intros Hs. split; [by apply Hd|auto].
  - intros ev Hev. apply event_bound_spec; [done|]. apply E7. by apply list_elem_of_In.
Qed.
End validate_range.

(** The cursor part of the validation, on a range that is covered. *)
Lemma cursor_result batch from to lease : covers batch from to ->
  (forall b, b ∈ rb_Blocks batch -> bl_Height b = ls_Height lease ->
     (forall x, has_cursor batch lease x <-> x = bl_Hash b) /\
     cursor_check lease false (rb_Blocks batch) =
     if bl_Hash b == ls_Hash lease then Ok true
     else Err (ReorgError (ls_Height lease) (ls_Hash lease) (bl_Hash b))) /\
  ((forall b, b ∈ rb_Blocks batch -> bl_Height b <> ls_Height lease) ->
     (forall x, ~ has_cursor batch lease x) /\ cursor_check lease false (rb_Blocks batch) = Ok false).
Proof.
  intros Hc. pose proof (links_heights_NoDup _ _ (cv_chain _ _ _ Hc)) as Hnd. split.
  - intros b Hb Hbh. split; [|by apply cursor_check_at]. intros x. split; [|intros ->; by exists b].
    intros (c & Hcin & Hch & <-). f_equal.
    eapply (NoDup_fmap_inj_on bl_Height (rb_Blocks batch)); eauto; congruence.
  - intros Habs. split; [|by apply cursor_check_absent]. intros x (b & Hb & Hbh & _). by apply (Habs b).
Qed.

Lemma block_at_dec (blocks : list Block) (h : Z) :
  (exists b, b ∈ blocks /\ bl_Height b = h) \/ (forall b, b ∈ blocks -> bl_Height b <> h).
Proof.
  destruct (decide (h ∈ bl_Height <$> blocks)) as [(b & -> & Hb)%list_elem_of_fmap|Hn]; [left; eauto|right].
  intros b Hb <-. apply Hn, list_elem_of_fmap. eauto.
Qed.

Section validate_outcomes.
Context (batch : RangeBatch) (from to : Z) (lease : Lease) (overlap : Z).
Context (Hfrom : is_uint64 from) (Hto : is_uint64 to) (Hsize : to - from + 1 <= max_int64).
Context (Hheights : Forall (fun b => is_uint64 (bl_Height b)) (rb_Blocks batch)).

Lemma cursor_wanted :
  (overlap >? 0) && (ls_Hash lease != "") = true <-> 0 < overlap /\ ls_Hash lease <> "".
Proof. rewrite andb_true_iff, negb_true_iff, String.eqb_neq. split; (intros [? ?]; split; [lia|done]). Qed.

Lemma validateRange_ok_iff :
  validateRange batch from to lease overlap = Ok tt <->
  covers batch from to /\ (0 < overlap -> ls_Hash lease <> "" -> has_cursor batch lease (ls_Hash lease)).
Proof.
  destruct (validateRange_covers batch from to lease overlap Hfrom Hto Hsize Hheights)
    as [[Hc ->]|[Hn [msg ->]]]; [|by split; [|intros [? _]]].
  pose proof cursor_wanted as Hw. destruct ((overlap >? 0) && _).
  - destruct (cursor_result _ _ _ lease Hc) as [Hat Habs].
    destruct (block_at_dec (rb_Blocks batch) (ls_Height lease)) as [(b & Hb & Hbh)|Hno].
    + destruct (Hat b Hb Hbh) as [Hx ->]. destruct (bl_Hash b == ls_Hash lease) eqn:Eb; bool_hyp.
      * split; [|done]. intros _. split; [done|]. intros _ _. by apply Hx.
      * split; [done|]. intros [_ H]. exfalso. destruct Hw as [Hw _]. destruct (Hw eq_refl).
        specialize (H ltac:(done) ltac:(done)). apply Hx in H. congruence.
    + destruct (Habs Hno) as [Hx ->]. split; [done|]. intros [_ H]. exfalso.
      destruct Hw as [Hw _]. destruct (Hw eq_refl). by eapply Hx, H.
  - split; [|done]. intros _. split; [done|]. intros Ho Hl. by destruct Hw as [_ Hw]; discriminate Hw.
Qed.

Lemma validateRange_reorg_iff height committed new :
  validateRange batch from to lease overlap = Err (ReorgError height committed new) <->
  covers batch from to /\ 0 < overlap /\ committed <> "" /\ new <> committed /\
  height = ls_Height lease /\ committed = ls_Hash lease /\ has_cursor batch lease new.
Proof.
  destruct (validateRange_covers batch from to lease overlap Hfrom Hto Hsize Hheights)
    as [[Hc ->]|[Hn [msg ->]]]; [|by split; [|intros [? _]]].
  pose proof cursor_wanted as Hw. destruct ((overlap >? 0) && _).
  - destruct Hw as [Hw _]. destruct (Hw eq_refl) as [Ho Hl].
    destruct (cursor_result _ _ _ lease Hc) as [Hat Habs].
    destruct (block_at_dec (rb_Blocks batch) (ls_Height lease)) as [(b & Hb & Hbh)|Hno].
    + destruct (Hat b Hb Hbh) as [Hx ->]. destruct (bl_Hash b == ls_Hash lease) eqn:Eb; bool_hyp.
      * split; [done|]. intros (_ & _ & _ & Hne & _ & -> & H). apply Hx in H. congruence.
      * split.
        -- intros [= <- <- <-]. do 6 (split; [done|]). by apply Hx.
        -- intros (_ & _ & _ & _ & -> & -> & H). apply Hx in H as ->. done.
    + destruct (Habs Hno) as [Hx ->]. split; [done|]. intros (_ & _ & _ & _ & _ & _ & H). by apply Hx in H.
  - split; [done|]. intros (_ & Ho & Hl & _ & _ & -> & _). by destruct Hw as [_ Hw]; discriminate Hw.
Qed.
End validate_outcomes.

(** C9: [validateRange] accepts exactly the ranges that meet the contract: the
    blocks cover the range, are strictly increasing and parent-linked (gaps only
    in a checkpoint range), end at the new cursor, bind every event to a block,
    and contain the committed cursor with its hash. It reports a reorg exactly
    when the range meets the contract but has another hash at the cursor. *)
Theorem validateRange_exact batch from to lease overlap :
  is_uint64 from -> is_uint64 to -> to - from + 1 <= max_int64 ->
  Forall (fun b => is_uint64 (bl_Height b)) (rb_Blocks batch) ->
  (validateRange batch from to lease overlap = Ok tt <->
   covers batch from to /\ (0 < overlap -> ls_Hash lease <> "" -> has_cursor batch lease (ls_Hash lease))) /\
  (forall height committed new,
   validateRange batch from to lease overlap = Err (ReorgError height committed new) <->
   covers batch from to /\ 0 < overlap /\ committed <> "" /\ new <> committed /\
   height = ls_Height lease /\ committed = ls_Hash lease /\ has_cursor batch lease new).
Proof.
  intros Hf Ht Hsz Hh. split; [by apply validateRange_ok_iff|]. intros. by apply validateRange_reorg_iff.
Qed.

Definition sample_block (height : Z) (hash parent : string) : Block :=
  mkBlock height hash parent (UnixTime 1700000000).

Definition sample_batch : RangeBatch :=
  mkBatch 9 11 [sample_block 9 "h9" "h8"; sample_block 10 "h10" "h9"; sample_block 11 "h11" "h10"] [] [] false
    false false.

Definition sample_lease (hash : string) : Lease :=
  mkLease "eip155:1" "0" "worker" 10 hash 1 (UnixTime 1700000060).

Lemma validateRange_exact_witness :
  has_cursor sample_batch (sample_lease "h10") "h10" /\
  has_cursor sample_batch (sample_lease "old") "h10".
Proof.
  split.
  - apply (validateRange_exact sample_batch 9 11 (sample_lease "h10") 2);
      try (unfold is_uint64, max_uint64, max_int64; lia); [|vm_compute; reflexivity|done].
    repeat constructor; simpl; unfold max_uint64; lia.
  - apply (validateRange_exact sample_batch 9 11 (sample_lease "old") 2) with (height := 10) (committed := "old");
      try (unfold is_uint64, max_uint64, max_int64; lia); [|vm_compute; reflexivity].
    repeat constructor; simpl; unfold max_uint64; lia.
Defined.

(** ** One run of the worker *)

Definition scan_to (w : Worker) (from safe : Z) : Z :=
  let t := uint64 (from + w_RangeSize w - 1) in if t >? safe then safe else t.

(** The numbers of the run fit their types; a range is never longer than an
    [int] can count. *)
Record scan_typed (w : Worker) (e : scan_env) : Prop := mk_scan_typed {
  sy_range : 0 <= w_RangeSize w <= max_int64;
  sy_overlap : is_uint64 (w_Overlap w);
  sy_depth : is_uint64 (w_FinalityDepth w);
  sy_lease : forall lease, sc_acquire e = Ok lease -> is_uint64 (ls_Height lease);
  sy_heads : forall heads, sc_heads e = Ok heads -> Forall (fun h => is_uint64 (ph_SafeHeight h)) heads;
  sy_scan : forall f t b, sc_scan e f t = Ok b -> Forall (fun x => is_uint64 (bl_Height x)) (rb_Blocks b) }.

Lemma quorum_typed heads chainID genesis quorum now maxAge h :
  Forall (fun x => is_uint64 (ph_SafeHeight x)) heads ->
  quorumSafeHeightAt heads chainID genesis quorum now maxAge = Ok h -> is_uint64 h.
Proof.
  intros Hh. unfold quorumSafeHeightAt. destruct (_ <? _); [done|].
  destruct (_ !! _) as [h'|] eqn:E; [|done]. intros [= <-].
  apply list_elem_of_lookup_2, list_elem_of_In, sort_by_In, list_elem_of_In in E.
  apply list_elem_of_fmap in E as (x & -> & Hx). rewrite Forall_forall in Hh. apply Hh.
  by apply (counted_heads_spec chainID genesis now maxAge heads []).
Qed.

Lemma scan_bounds w lease q :
  is_uint64 (w_Overlap w) -> is_uint64 (w_FinalityDepth w) -> is_uint64 (ls_Height lease) -> is_uint64 q ->
  0 < w_Overlap w < w_RangeSize w -> w_RangeSize w <= max_int64 ->
  let from := scan_from w lease in let to := scan_to w from (safe_height w q) in
  is_uint64 from /\ is_uint64 to /\ to - from + 1 <= max_int64 /\ to <= safe_height w q <= q.
Proof.
  intros Ho Hd Hl Hq Hov Hr from to.
  assert (Hf : is_uint64 from).
  { unfold from, scan_from. destruct (_ && _); [|apply uint64_range].
    destruct (_ >? _); [apply uint64_range|unfold is_uint64, max_uint64; lia]. }
  assert (Hs : 0 <= safe_height w q <= q).
  { unfold safe_height, is_uint64 in *. destruct (_ <? _) eqn:E; bool_hyp; lia. }
  assert (Hw : uint64 (from + w_RangeSize w - 1) <= from + w_RangeSize w - 1).
  { unfold uint64, is_uint64 in *. apply Z.mod_le; lia. }
  pose proof (uint64_range (from + w_RangeSize w - 1)).
  unfold to, scan_to, is_uint64 in *. destruct (_ >? _) eqn:E; bool_hyp; lia.
Qed.

(** What a run that reaches [Commit] went through. *)
Lemma RunOnce_commit_path w e lease batch :
  CallCommit lease batch ∈ fst (RunOnce w e) ->
  exists heads q scanned,
    0 < w_Overlap w < w_RangeSize w /\ sc_acquire e = Ok lease /\ sc_heads e = Ok heads /\
    quorumSafeHeightAt heads (w_ChainID w) (w_GenesisHash w) (w_Quorum w) (sc_now e) (max_head_age w) = Ok q /\
    let from := scan_from w lease in let to := scan_to w from (safe_height w q) in
    from <= safe_height w q /\ sc_renew e = None /\ sc_scan e from to = Ok scanned /\
    batch = with_evidence scanned (w_RuntimeEvidence w) /\
    forallb (fun ev => ei_ChainID (te_Identity ev) == w_ChainID w) (rb_Events batch) = true /\
    validateRange batch from to lease (w_Overlap w) = Ok tt /\
    fst (RunOnce w e) = CallCommit lease batch :: match sc_commit e with Some _ => [CallRelease lease] | None => [] end /\
    snd (RunOnce w e) = match sc_commit e with Some err => Err err | None => Ok (Some batch) end.
Proof.
  unfold RunOnce.
  assert (Hrel : forall l, CallCommit lease batch ∈ [CallRelease l] -> False).
  { intros l H%list_elem_of_singleton. done. }
  assert (Hnone : CallCommit lease batch ∈ @nil scan_call -> False) by (intros H; by apply elem_of_nil in H).
  destruct (_ || _ || _) eqn:E0; [intros H; by exfalso|]. bool_hyp.
  destruct (_ <? Second); [intros H'; by exfalso|].
  destruct (sc_acquire e) as [l|err]; [|intros H'; by exfalso].
  destruct (sc_heads e) as [heads|err]; [|intros H'; exfalso; by eapply Hrel].
  destruct (quorumSafeHeightAt _ _ _ _ _ _) as [q|err] eqn:Eq; [|intros H'; exfalso; by eapply Hrel].
  destruct (safe_height w q <? scan_from w l) eqn:Es.
  { destruct (sc_renew e); intros H'; exfalso; by eapply Hrel. }
  destruct (sc_renew e); [intros H'; exfalso; by eapply Hrel|]. cbn zeta. fold (scan_to w (scan_from w l) (safe_height w q)).
  destruct (sc_scan e _ _) as [scanned|err] eqn:Esc.
  2:{ destruct (Retryable err); intros H'; exfalso; [by eapply Hrel|]. set_solver. }
  destruct (forallb _ _) eqn:Ef; cbn [negb]; [|intros H'; exfalso; set_solver].
  destruct (validateRange _ _ _ _ _) as [[]|[msg r|h c n]] eqn:Ev.
  - intros H'. assert (Heq : l = lease /\ with_evidence scanned (w_RuntimeEvidence w) = batch).
    { destruct (sc_commit e); simpl in H'; set_solver. }
    destruct Heq as [-> <-]. bool_hyp. exists heads, q, scanned. split; [lia|]. do 3 (split; [done|]).
    split; [lia|]. do 2 (split; [done|]). split; [done|]. split; [done|]. split; [done|].
    destruct (sc_commit e); done.
  - intros H'. exfalso. set_solver.
  - destruct (sc_rewind e); intros H'; exfalso; set_solver.
Qed.

(** The overlap starts at most the overlap before the cursor, and a range that
    is not cut by the safe height ends after it. *)
Lemma scan_reaches w lease q :
  is_uint64 (w_Overlap w) -> is_uint64 (ls_Height lease) -> is_uint64 q -> is_uint64 (w_FinalityDepth w) ->
  0 < w_Overlap w < w_RangeSize w -> w_RangeSize w <= max_int64 -> ls_Hash lease <> "" ->
  let from := scan_from w lease in let to := scan_to w from (safe_height w q) in
  from <= to -> from <= ls_Height lease /\ (ls_Height lease < safe_height w q -> ls_Height lease < to).
Proof.
  intros Ho Hl Hq Hd Hov Hr Hne from to Hft.
  assert (Hs : 0 <= safe_height w q <= q).
  { unfold safe_height, is_uint64 in *. destruct (_ <? _) eqn:E; bool_hyp; lia. }
  assert (Hfw : from <= ls_Height lease /\
                (ls_Height lease < 2 ^ 64 - 1 -> ls_Height lease - w_Overlap w + 1 <= from)).
  { unfold from, scan_from. destruct (cursor_wanted lease (w_Overlap w)) as [_ ->]; [|split; [lia|done]].
    unfold uint64, is_uint64, max_uint64 in *.
    destruct (_ >? _) eqn:E; bool_hyp; Z.to_euclidean_division_equations; lia. }
  split; [lia|]. intros Hlt. unfold to, scan_to in *. unfold uint64, is_uint64, max_uint64, max_int64 in *.
  destruct (_ >? _) eqn:E; bool_hyp; [lia|]. Z.to_euclidean_division_equations; lia.
Qed.

(** C4: A run commits only what it has proved: the lease it holds was renewed,
    the quorum of the providers backs the new cursor after the finality depth,
    the range meets its contract from the overlap on and contains the committed
    cursor, every event is of the worker's chain, the cursor never moves back,
    and it moves forward on a full range as soon as a new safe block exists. *)
Theorem RunOnce_commits_validated w e lease batch :
  scan_typed w e -> CallCommit lease batch ∈ fst (RunOnce w e) ->
  exists heads q,
    sc_acquire e = Ok lease /\ sc_heads e = Ok heads /\ sc_renew e = None /\
    quorumSafeHeightAt heads (w_ChainID w) (w_GenesisHash w) (w_Quorum w) (sc_now e) (max_head_age w) = Ok q /\
    let from := scan_from w lease in let to := scan_to w from (safe_height w q) in
    rb_To batch <= safe_height w q <= q /\ covers batch from to /\
    (forall ev, ev ∈ rb_Events batch -> ei_ChainID (te_Identity ev) = w_ChainID w) /\
    (ls_Hash lease <> "" ->
       has_cursor batch lease (ls_Hash lease) /\ ls_Height lease <= rb_To batch /\
       (rb_SparseBlocks batch = false -> ls_Height lease < safe_height w q -> ls_Height lease < rb_To batch)).
Proof.
  intros Hty Hc. destruct (RunOnce_commit_path _ _ _ _ Hc) as
    (heads & q & scanned & Hov & Ha & Hh & Hq & Hfs & Hr & Hs & Hb & Hev & Hv & _).
  pose proof (sy_lease _ _ Hty _ Ha) as Hl. pose proof (sy_range _ _ Hty) as Hrs.
  pose proof (quorum_typed _ _ _ _ _ _ _ (sy_heads _ _ Hty _ Hh) Hq) as Hqt.
  pose proof (scan_bounds w lease q (sy_overlap _ _ Hty) (sy_depth _ _ Hty) Hl Hqt Hov ltac:(lia)) as (Hf & Ht & Hsz & Hsafe).
  pose proof (scan_reaches w lease q (sy_overlap _ _ Hty) Hl Hqt (sy_depth _ _ Hty) Hov ltac:(lia)) as Hreach.
  assert (Hbl : Forall (fun x => is_uint64 (bl_Height x)) (rb_Blocks batch))
    by (rewrite Hb; exact (sy_scan _ _ Hty _ _ _ Hs)).
  apply validateRange_ok_iff in Hv as [Hcov Hcur]; [|done..].
  exists heads, q. do 4 (split; [done|]). pose proof (cv_to _ _ _ Hcov) as Hto. split; [lia|]. split; [done|]. split.
  { intros ev Hin. rewrite forallb_forall in Hev. apply list_elem_of_In, Hev in Hin. by bool_hyp. }
  intros Hne. specialize (Hcur ltac:(lia) Hne). specialize (Hreach Hne ltac:(lia)) as [Hr1 Hr2]. split; [done|]. split.
  - destruct Hcur as (b & Hbin & Hbh & _). pose proof (cv_blocks _ _ _ Hcov) as HB. rewrite Forall_forall in HB.
    destruct (HB b Hbin) as [? _]. lia.
  - intros Hsp Hlt. destruct (cv_dense _ _ _ Hcov Hsp) as [-> _]. auto.
Qed.

Definition sample_worker : Worker :=
  mkWorker "eip155:1" "0xgenesis" "0" "worker" 2 2 10 (30 * Second) 0 94 [].

Definition sample_scan (height : Z) (batch : RangeBatch) : scan_env :=
  mkScanEnv (UnixTime 1700000000) (Ok (mkLease "eip155:1" "0" "worker" height "h10" 1 (UnixTime 1700000060)))
    (Ok sample_heads) (fun _ _ => Ok batch) None None None.

Lemma sample_typed height batch :
  is_uint64 height -> Forall (fun x => is_uint64 (bl_Height x)) (rb_Blocks batch) ->
  scan_typed sample_worker (sample_scan height batch).
Proof.
  intros Hh Hb. constructor; try (cbn; unfold is_uint64, max_uint64, max_int64; lia).
  - by intros lease [= <-].
  - intros heads [= <-]. repeat constructor; cbn; unfold max_uint64; lia.
  - by intros f t b [= <-].
Qed.

Lemma RunOnce_commits_validated_witness :
  covers sample_batch 9 11 /\ rb_To sample_batch <= 11.
Proof.
  destruct (RunOnce_commits_validated sample_worker (sample_scan 10 sample_batch)
              (mkLease "eip155:1" "0" "worker" 10 "h10" 1 (UnixTime 1700000060)) sample_batch)
    as (heads & q & Ha & Hh & _ & Hq & Hto & Hc & _).
  - apply sample_typed; repeat constructor; cbn; unfold max_uint64; lia.
  - vm_compute. left.
  - injection Hh as <-. vm_compute in Hq. injection Hq as <-. split; [exact Hc|]. vm_compute in Hto |- *. apply Hto.
Defined.

(** The lease a run acquired, when its configuration is valid. *)
Definition run_lease (w : Worker) (e : scan_env) : option Lease :=
  if (w_Quorum w <? 1) || (w_Overlap w <? 1) || (w_RangeSize w <=? w_Overlap w) then None
  else if max_head_age w <? Second then None
  else match sc_acquire e with Ok lease => Some lease | Err _ => None end.

(** The call gives the lease up, or consumes it by succeeding. *)
Definition ends_lease (e : scan_env) (lease : Lease) (c : scan_call) : Prop :=
  match c with
  | CallRelease l => l = lease
  | CallCommit l _ => l = lease /\ sc_commit e = None
  | CallRewindReorg l _ _ _ _ => l = lease /\ sc_rewind e = None
  | CallRecordGap _ _ _ _ => False
  end.

(** A run that acquires the lease ends it exactly once and as its last
    store call, whatever fails on the way; it reports a batch only when the
    commit of that batch is what ended the lease; and a run that does not
    acquire the lease calls the store no further and reports an error. *)
Theorem RunOnce_lease_ends_once w e :
  match run_lease w e with
  | None => fst (RunOnce w e) = [] /\ is_ok (snd (RunOnce w e)) = false
  | Some lease =>
      exists before final, fst (RunOnce w e) = before ++ [final] /\ ends_lease e lease final /\
        Forall (fun c => ~ ends_lease e lease c) before /\
        forall batch, snd (RunOnce w e) = Ok (Some batch) <-> final = CallCommit lease batch
  end.
Proof.
  unfold run_lease, RunOnce. destruct (_ || _ || _); simpl; [done|].
  destruct (_ <? Second); simpl; [done|].
  destruct (sc_acquire e) as [lease|err]; [|done].
  assert (Hfail : forall before (err : scan_error), Forall (fun c => ~ ends_lease e lease c) before ->
    exists before' final, fst (before ++ [CallRelease lease], @Err scan_error (option RangeBatch) err) = before' ++ [final] /\
      ends_lease e lease final /\ Forall (fun c => ~ ends_lease e lease c) before' /\
      forall batch, snd (before ++ [CallRelease lease], @Err scan_error (option RangeBatch) err) = Ok (Some batch) <->
                    final = CallCommit lease batch).
  { intros before err Hb. exists before, (CallRelease lease). by repeat split. }
  assert (Hgap : forall c f t r, Forall (fun c => ~ ends_lease e lease c) [CallRecordGap c f t r])
    by (intros; repeat constructor; intros []).
  destruct (sc_heads e) as [heads|err]; [|apply (Hfail []); constructor].
  destruct (quorumSafeHeightAt _ _ _ _ _ _) as [q|err]; [|apply (Hfail []); constructor].
  destruct (_ <? _).
  { destruct (sc_renew e); [apply (Hfail []); constructor|]. exists [], (CallRelease lease). by repeat split. }
  destruct (sc_renew e); [apply (Hfail []); constructor|].
  destruct (sc_scan e _ _) as [scanned|err]; [|destruct (Retryable err); [apply (Hfail []); constructor|apply (Hfail [_]), Hgap]].
  destruct (forallb _ _); cbn [negb]; [|apply (Hfail [_]), Hgap].
  destruct (validateRange _ _ _ _ _) as [[]|[msg r|h c n]] eqn:Ev; [|apply (Hfail [_]), Hgap|].
  - destruct (sc_commit e) eqn:Ec.
    + apply (Hfail [_]). repeat constructor. intros [_ ?]. congruence.
    + eexists [], _. split; [reflexivity|]. split; [done|]. split; [constructor|]. simpl.
      intros batch. split; [intros [= <-]|intros [= <-]]; reflexivity.
  - destruct (sc_rewind e) eqn:Ec.
    + apply (Hfail [_]). repeat constructor. intros [_ ?]. congruence.
    + eexists [], _. split; [reflexivity|]. split; [done|]. split; [constructor|]. by simpl.
Qed.

(** When the quorum's safe height falls back below the committed cursor but
    not below the start of the overlap, no answer of the source can be
    committed: a range that covers exactly what was asked for is recorded as
    the gap [non_contiguous_range], although no provider returned a broken one. *)
Theorem regressed_head_records_gap w e lease heads q scanned :
  scan_typed w e -> run_lease w e = Some lease -> sc_heads e = Ok heads -> sc_renew e = None ->
  quorumSafeHeightAt heads (w_ChainID w) (w_GenesisHash w) (w_Quorum w) (sc_now e) (max_head_age w) = Ok q ->
  ls_Hash lease <> "" ->
  let from := scan_from w lease in let to := scan_to w from (safe_height w q) in
  from <= safe_height w q < ls_Height lease ->
  sc_scan e from to = Ok scanned -> covers scanned from to -> rb_Events scanned = [] ->
  fst (RunOnce w e) = [CallRecordGap (w_ChainID w) from to "non_contiguous_range"; CallRelease lease].
Proof.
  intros Hty Hl Hh Hr Hq Hne from to Hsafe Hs Hcov Hev. unfold run_lease in Hl.
  destruct (_ || _ || _) eqn:E0; [done|]. destruct (max_head_age w <? Second) eqn:E1; [done|].
  destruct (sc_acquire e) as [l|] eqn:Ea; [|done]. injection Hl as ->.
  pose proof (sy_lease _ _ Hty _ Ea) as Hlt. pose proof (sy_range _ _ Hty) as Hrs.
  pose proof (quorum_typed _ _ _ _ _ _ _ (sy_heads _ _ Hty _ Hh) Hq) as Hqt.
  assert (Hov : 0 < w_Overlap w < w_RangeSize w) by (bool_hyp; lia).
  pose proof (scan_bounds w lease q (sy_overlap _ _ Hty) (sy_depth _ _ Hty) Hlt Hqt Hov ltac:(lia)) as (Hf & Ht & Hsz & Hb).
  fold from in Hf, Ht, Hsz, Hb. fold to in Ht, Hsz, Hb.
  set (batch := with_evidence scanned (w_RuntimeEvidence w)).
  assert (Hval : validateRange batch from to lease (w_Overlap w) = Err (plain "overlap does not include committed cursor")).
  { destruct (validateRange_covers batch from to lease (w_Overlap w) Hf Ht Hsz (sy_scan _ _ Hty _ _ _ Hs))
      as [[Hc ->]|[Hn _]]; [|exfalso; apply Hn; by destruct Hcov].
    destruct (cursor_wanted lease (w_Overlap w)) as [_ ->]; [|split; [lia|done]].
    rewrite cursor_check_absent; [done|]. intros b Hb'. pose proof (cv_blocks _ _ _ Hc) as HB.
    rewrite Forall_forall in HB. destruct (HB b Hb') as [? _]. pose proof (cv_to _ _ _ Hc). lia. }
  unfold RunOnce. rewrite E0, E1, Ea, Hh, Hq, Hr. fold from.
  replace (safe_height w q <? from) with false by lia. cbn zeta. fold (scan_to w from (safe_height w q)). fold to.
  rewrite Hs. fold batch. replace (rb_Events batch) with (@nil TransferEvent) by (symmetry; exact Hev).
  cbn [forallb negb]. by rewrite Hval.
Qed.

Lemma regressed_head_records_gap_witness :
  let batch := mkBatch 11 11 [sample_block 11 "h11" "h10"] [] [] false false false in
  fst (RunOnce sample_worker (sample_scan 12 batch)) =
  [CallRecordGap "eip155:1" 11 11 "non_contiguous_range";
   CallRelease (mkLease "eip155:1" "0" "worker" 12 "h10" 1 (UnixTime 1700000060))].
Proof.
  apply (regressed_head_records_gap sample_worker (sample_scan 12 _)
           (mkLease "eip155:1" "0" "worker" 12 "h10" 1 (UnixTime 1700000060)) sample_heads 105
           (mkBatch 11 11 [sample_block 11 "h11" "h10"] [] [] false false false));
    try reflexivity; try (vm_compute; congruence); try (vm_compute; reflexivity).
  - apply sample_typed; repeat constructor; cbn; unfold max_uint64; lia.
  - change (11 <= 11 < 12). lia.
  - change (covers (mkBatch 11 11 [sample_block 11 "h11" "h10"] [] [] false false false) 11 11).
    constructor; try done; try (cbn; lia).
    + by repeat constructor.
    + by repeat constructor.
    + by eexists.
    + intros ev Hev. by apply elem_of_nil in Hev.
Defined.

(** ** The independent verifier *)

Section verifier.
Context (sha256 : string -> string).

Definition has_key (wanted : string) (ev : TransferEvent) : bool :=
  match IdentityKey sha256 (te_Identity ev) with Ok key => key == wanted | Err _ => false end.

Lemma find_transfer_spec wanted events : forall found,
  find_transfer sha256 wanted found events =
  match found, List.filter (has_key wanted) events with
  | None, [] => Err "provider range did not contain expected transfer"
  | None, [e] => Ok e
  | Some e, [] => Ok e
  | _, _ => Err "provider range returned duplicate transfer identity"
  end.
Proof.
  induction events as [|ev events IH]; intros found; [by destruct found|].
  cbn [find_transfer List.filter]. change (has_key wanted ev) with
    (match IdentityKey sha256 (te_Identity ev) with Ok key => key == wanted | Err _ => false end).
  destruct (IdentityKey sha256 (te_Identity ev)) as [key|]; [|apply IH].
  destruct (key == wanted); cbn [negb]; [|apply IH].
  destruct found; [done|]. rewrite IH. by destruct (List.filter _ events).
Qed.

(** The range verifier confirms a transfer only from what the provider
    itself returns for the block of the transfer: it answers the one event with
    the expected identity, and refuses when the identity is invalid, the block
    unknown, or the event absent or duplicated in that block. *)
Theorem VerifyExpectedTransfer_unique scan expected t :
  VerifyExpectedTransfer sha256 scan expected = Ok t <->
  exists wanted batch,
    IdentityKey sha256 (te_Identity expected) = Ok wanted /\ te_BlockHeight expected <> 0 /\
    scan (te_BlockHeight expected) (te_BlockHeight expected) = Ok batch /\
    List.filter (has_key wanted) (rb_Events batch) = [t].
Proof.
  unfold VerifyExpectedTransfer. destruct (IdentityKey sha256 (te_Identity expected)) as [wanted|]; cycle 1.
  { split; [done|]. by intros (? & ? & ? & _). }
  destruct (te_BlockHeight expected =? 0) eqn:E0; bool_hyp.
  { split; [done|]. by intros (? & ? & _ & ? & _). }
  destruct (scan _ _) as [batch|]; cycle 1.
  { split; [done|]. by intros (? & ? & _ & _ & ? & _). }
  rewrite find_transfer_spec. split.
  - intros H. exists wanted, batch. do 3 (split; [done|]).
    destruct (List.filter _ _) as [|x [|y l]]; [done| |done]. by injection H as ->.
  - intros (w' & b' & [= <-] & _ & [= <-] & ->). done.
Qed.
End verifier.
