(* ===== verification/Rates.v ===== *)
(** * Rates: internal/rates (rational.go, model.go, config.go, worker.go, provider.go)

    The price feed: exact rationals, the lower median and the spread of the
    providers' prices in basis points, the choice of the agreeing observations,
    the admission of a tick, the loading of the configuration and one run of the
    collection worker as the sequence of its store calls. *)

From Stdlib Require Import ZArith Lia Ascii String Permutation Sorted.
From stdpp Require Import base list strings.
From S2P Require Import Prelude Text Money Encoding.

Inductive rate_sentinel :=
| ErrInvalidConfig | ErrUnavailable | ErrNoQuorum | ErrStale | ErrFuture | ErrDivergent | ErrLeaseLost
| ErrDisabled.

#[export] Instance rate_sentinel_eq_dec : EqDecision rate_sentinel.
Proof. solve_decision. Defined.

Definition rate_error := goerr rate_sentinel.

(** ** rational.go *)

(** A price; the nil integers of an unset one are zero here, and as invalid. *)
Record Rational := mkRational { Numerator : Z; Denominator : Z }.

Definition maxIntegerDigits : Z := 78.

Definition canonicalPositiveInteger (value : string) : bool :=
  negb ((value == "") || (len value >? maxIntegerDigits) || (byte_at value 0 =? 48)) && str_forall is_digit value.

Definition normalizeBig (n d : Z) : result rate_error Rational :=
  if (n <=? 0) || (d <=? 0) then Err (Sentinel ErrInvalidConfig)
  else let gcd := Z.gcd n d in Ok (mkRational (Z.quot n gcd) (Z.quot d gcd)).

Definition NewRational (numerator denominator : string) : result rate_error Rational :=
  if negb (canonicalPositiveInteger numerator) || negb (canonicalPositiveInteger denominator)
  then Err (Sentinel ErrInvalidConfig)
  else
    let n := dec_value 0 numerator in
    let d := dec_value 0 denominator in
    if (n <=? 0) || (d <=? 0) then Err (Sentinel ErrInvalidConfig)
    else match normalizeBig n d with
         | Err _ => Err (Sentinel ErrInvalidConfig)
         | Ok value =>
             if (BitLen (Numerator value) >? 256) || (BitLen (Denominator value) >? 256)
             then Err (Sentinel ErrInvalidConfig)
             else Ok value
         end.

Definition valid (r : Rational) : bool := (0 <? Numerator r) && (0 <? Denominator r).

Definition RationalCmp (r other : Rational) : Z :=
  Money.Cmp (Numerator r * Denominator other) (Numerator other * Denominator r).

Definition median (values : list Rational) : result rate_error Rational :=
  if Z.of_nat (length values) =? 0 then Err (Plain "empty median")
  else if negb (forallb valid values) then Err (Sentinel ErrInvalidConfig)
  else
    let ordered := sort_by (fun i j => RationalCmp i j <? 0) values in
    let middle := (length ordered / 2)%nat in
    let pick := if Nat.eqb (length ordered mod 2) 1 then middle else (middle - 1)%nat in
    match ordered !! pick with
    | Some value => Ok value
    | None => Err (Plain "index out of range")
    end.

(** The smallest and the largest value of the loop, the first of equals. *)
Definition min_max (first : Rational) (rest : list Rational) : Rational * Rational :=
  fold_left (fun acc value =>
    (if RationalCmp value (fst acc) <? 0 then value else fst acc,
     if RationalCmp value (snd acc) >? 0 then value else snd acc)) rest (first, first).

Definition spreadBPS (values : list Rational) (center : Rational) (maximum : Z)
    : result rate_error (Z * bool) :=
  match values with
  | [] => Err (Sentinel ErrInvalidConfig)
  | first :: rest =>
      if negb (valid center) || (maximum <? 0) || (maximum >? 10000) then Err (Sentinel ErrInvalidConfig)
      else
        let '(minimum, maximumValue) := min_max first rest in
        let diffN := Numerator maximumValue * Denominator minimum - Numerator minimum * Denominator maximumValue in
        let diffD := Denominator maximumValue * Denominator minimum in
        let left := diffN * 10000 * Denominator center in
        let right := diffD * Numerator center * maximum in
        let allowed := left <=? right in
        let denominator := diffD * Numerator center in
        let quotient := Z.quot left denominator + (if Z.rem left denominator >? 0 then 1 else 0) in
        if (quotient <? min_int64) || (quotient >? max_int64) then Err (Sentinel ErrDivergent)
        else Ok (quotient, allowed)
  end.

(** ** model.go *)

Record Target := mkTarget { tg_TenantID : string; tg_PolicyKey : string }.

Record SourceConfig := mkSource {
  sr_Key : string; sr_ProviderRef : string; sr_Endpoint : string; sr_BaseAsset : string; sr_QuoteAsset : string;
  sr_CredentialRef : string; sr_MaxAge : Duration; sr_Timeout : Duration; sr_MaxResponseBytes : Z;
  sr_SnapshotID : string; sr_FenceToken : Z }.

Record PolicyConfig := mkPolicy {
  pl_Key : string; pl_BaseAsset : string; pl_QuoteAsset : string; pl_SourceKeys : list string; pl_Quorum : Z;
  pl_MaxAge : Duration; pl_MaxSpreadBPS : Z; pl_FutureTolerance : Duration; pl_PollInterval : Duration;
  pl_SnapshotID : string; pl_SnapshotVersion : Z; pl_FenceToken : Z }.

Record RuntimeConfig := mkConfig { rc_TenantID : string; rc_Policy : PolicyConfig; rc_Sources : list SourceConfig }.

Record ProviderResult := mkResult {
  pr_BaseAsset : string; pr_QuoteAsset : string; pr_PriceNumerator : string; pr_PriceDenominator : string;
  pr_ObservedAt : Time; pr_ProviderObservationID : string; pr_Raw : string }.

Record Observation := mkObservation {
  ob_ID : string; ob_TenantID : string; ob_PolicyKey : string; ob_SourceKey : string; ob_ProviderRef : string;
  ob_ProviderObservationID : string; ob_BaseAsset : string; ob_QuoteAsset : string; ob_Price : Rational;
  ob_ProviderObservedAt : Time; ob_ReceivedAt : Time; ob_RawResponseHash : string; ob_SourceSnapshotID : string;
  ob_SourceFenceToken : Z }.

Record Tick := mkTick {
  tk_ID : string; tk_TenantID : string; tk_PolicyKey : string; tk_BaseAsset : string; tk_QuoteAsset : string;
  tk_Price : Rational; tk_ObservedAt : Time; tk_AdmittedAt : Time; tk_ExpiresAt : Time; tk_SpreadBPS : Z;
  tk_Quorum : Z; tk_SourceCount : Z; tk_PolicySnapshotID : string; tk_PolicyFenceToken : Z;
  tk_SourcesDigest : string }.

Record Claim := mkClaim { cm_Target : Target; cm_ClaimToken : Z; cm_Attempts : Z }.

Record Collection := mkCollection {
  cn_Claim : Claim; cn_Config : RuntimeConfig; cn_Observations : list Observation; cn_Tick : Tick }.

(** ** worker.go: the selection of the observations *)

Definition price_less (i j : Observation) : bool :=
  let comparison := RationalCmp (ob_Price i) (ob_Price j) in
  if negb (comparison =? 0) then comparison <? 0 else str_less (ob_SourceKey i) (ob_SourceKey j).

(** The median of the prices and the spread around it. *)
Definition price_spread (obs : list Observation) (maxSpreadBPS : Z) : result rate_error (Z * bool) :=
  match median (ob_Price <$> obs) with
  | Err e => Err e
  | Ok center => spreadBPS (ob_Price <$> obs) center maxSpreadBPS
  end.

Definition window (ordered : list Observation) (start quorum : nat) : list Observation :=
  take quorum (drop start ordered).

(** The loop over the windows: [starts] are the ones left, [best] the
    [bestStart] and [bestSpread] so far. *)
Fixpoint best_window (ordered : list Observation) (quorum : nat) (maxSpreadBPS : Z) (starts : list nat)
    (best : option (nat * Z)) : result rate_error (option (nat * Z)) :=
  match starts with
  | [] => Ok best
  | start :: rest =>
      match price_spread (window ordered start quorum) maxSpreadBPS with
      | Err e => Err e
      | Ok (spread, candidateAllowed) =>
          let better := match best with None => true | Some (_, bestSpread) => spread <? bestSpread end in
          best_window ordered quorum maxSpreadBPS rest (if candidateAllowed && better then Some (start, spread) else best)
      end
  end.

Definition selectAgreeingObservations (observations : list Observation) (quorum maxSpreadBPS : Z)
    : result rate_error (list Observation) :=
  if (Z.of_nat (length observations) <? quorum) || (quorum <? 2) then Err (Sentinel ErrNoQuorum)
  else
    match price_spread observations maxSpreadBPS with
    | Err e => Err e
    | Ok (_, true) => Ok observations
    | Ok (_, false) =>
        let ordered := sort_by price_less observations in
        let q := Z.to_nat quorum in
        match best_window ordered q maxSpreadBPS (seq 0 (length ordered + 1 - q)) None with
        | Err e => Err e
        | Ok None => Err (Sentinel ErrDivergent)
        | Ok (Some (bestStart, _)) => Ok (window ordered bestStart q)
        end
    end.

(** ** provider.go: the order and the digest of the observations *)

Definition source_less (i j : Observation) : bool :=
  str_less (ob_SourceKey i) (ob_SourceKey j)
  || (ob_SourceKey i == ob_SourceKey j) && str_less (ob_ID i) (ob_ID j).

(** The inner loop: [x] moves left past the larger elements of the sorted
    prefix, kept here in reverse. *)
Fixpoint sink (x : Observation) (prefix : list Observation) : list Observation :=
  match prefix with
  | [] => [x]
  | y :: rest => if source_less x y then y :: sink x rest else x :: y :: rest
  end.

Definition sortObservations (values : list Observation) : list Observation :=
  rev (fold_left (fun prefix x => sink x prefix) values []).

Section collection.
Context (sha256 : string -> string).

Definition responseHash (raw : string) : string := sha256 raw.
Definition RawResponseHashString (o : Observation) : string := hex_encode (ob_RawResponseHash o).

Definition digest_part (o : Observation) : string :=
  dec_string (len (ob_SourceKey o)) +:+ ":" +:+ ob_SourceKey o +:+
  dec_string (len (ob_ID o)) +:+ ":" +:+ ob_ID o +:+ RawResponseHashString o.

Definition canonicalSourceDigest (observations : list Observation) : string :=
  sha256 (foldr (fun o acc => digest_part o +:+ acc) "" (sortObservations observations)).

(** ** worker.go: collect *)

(** What a fetch sent on the channel; the channel's order is the list's. *)
Record outcome := mkOutcome { oc_config : SourceConfig; oc_result : result string ProviderResult }.

Definition sourceMaxAge (config : RuntimeConfig) (key : string) : Duration :=
  match List.find (fun source => sr_Key source == key) (rc_Sources config) with
  | Some source => sr_MaxAge source
  | None => 0
  end.

(** The price of an outcome that passes the age tests. *)
Definition admitted_price (config : RuntimeConfig) (now : Time) (oc : outcome) : option (ProviderResult * Rational) :=
  match oc_result oc with
  | Err _ => None
  | Ok r =>
      let ageLimit := Z.min (pl_MaxAge (rc_Policy config)) (sr_MaxAge (oc_config oc)) in
      if After (pr_ObservedAt r) (AddTime now (pl_FutureTolerance (rc_Policy config))) then None
      else if Before (pr_ObservedAt r) (AddTime now (- ageLimit)) then None
      else match NewRational (pr_PriceNumerator r) (pr_PriceDenominator r) with
           | Err _ => None
           | Ok price => Some (r, price)
           end
  end.

Definition observation (config : RuntimeConfig) (now : Time) (id : string) (src : SourceConfig)
    (r : ProviderResult) (price : Rational) : Observation :=
  mkObservation id (rc_TenantID config) (pl_Key (rc_Policy config)) (sr_Key src) (sr_ProviderRef src)
    (pr_ProviderObservationID r) (pl_BaseAsset (rc_Policy config)) (pl_QuoteAsset (rc_Policy config)) price
    (pr_ObservedAt r) now (responseHash (pr_Raw r)) (sr_SnapshotID src) (sr_FenceToken src).

(** The loop over the results; [newID n] is the answer of the [n]-th call of [NewID]. *)
Fixpoint gather (config : RuntimeConfig) (now : Time) (newID : nat -> result string string) (n : nat)
    (outcomes : list outcome) : result rate_error (nat * list Observation) :=
  match outcomes with
  | [] => Ok (n, [])
  | oc :: rest =>
      match admitted_price config now oc with
      | None => gather config now newID n rest
      | Some (r, price) =>
          match newID n with
          | Err e => Err (Wrapped ErrUnavailable e)
          | Ok id =>
              match gather config now newID (S n) rest with
              | Err e => Err e
              | Ok (m, obs) => Ok (m, observation config now id (oc_config oc) r price :: obs)
              end
          end
      end
  end.

Definition expiry (config : RuntimeConfig) (o : Observation) : Time :=
  AddTime (ob_ProviderObservedAt o) (Z.min (pl_MaxAge (rc_Policy config)) (sourceMaxAge config (ob_SourceKey o))).

(** The oldest observation and the first expiry. *)
Definition tick_times (config : RuntimeConfig) (first : Observation) (obs : list Observation) : Time * Time :=
  fold_left (fun acc o =>
    (if Before (ob_ProviderObservedAt o) (fst acc) then ob_ProviderObservedAt o else fst acc,
     if Before (expiry config o) (snd acc) then expiry config o else snd acc))
    obs (ob_ProviderObservedAt first, expiry config first).

Definition collect (now : Time) (newID : nat -> result string string) (claim : Claim) (config : RuntimeConfig)
    (outcomes : list outcome) : result rate_error Collection :=
  let policy := rc_Policy config in
  match gather config now newID 0 outcomes with
  | Err e => Err e
  | Ok (n, gathered) =>
      if Z.of_nat (length gathered) <? pl_Quorum policy then Err (Sentinel ErrNoQuorum)
      else
        match selectAgreeingObservations gathered (pl_Quorum policy) (pl_MaxSpreadBPS policy) with
        | Err e => Err e
        | Ok selected =>
            let observations := sortObservations selected in
            match observations with
            | [] => Err (Plain "index out of range")
            | first :: _ =>
                let '(oldestObserved, expiresAt) := tick_times config first observations in
                let prices := ob_Price <$> observations in
                match median prices with
                | Err e => Err e
                | Ok center =>
                    match spreadBPS prices center (pl_MaxSpreadBPS policy) with
                    | Err e => Err e
                    | Ok (spread, allowed) =>
                        if negb allowed then Err (Sentinel ErrDivergent)
                        else
                          match newID n with
                          | Err e => Err (Wrapped ErrUnavailable e)
                          | Ok tickID =>
                              Ok (mkCollection claim config observations
                                    (mkTick tickID (rc_TenantID config) (pl_Key policy) (pl_BaseAsset policy)
                                       (pl_QuoteAsset policy) center oldestObserved now expiresAt spread
                                       (pl_Quorum policy) (Z.of_nat (length observations)) (pl_SnapshotID policy)
                                       (pl_FenceToken policy) (canonicalSourceDigest observations)))
                          end
                    end
                end
            end
        end
  end.
End collection.

(** ** worker.go: RunTarget *)

Definition errorCode (err : rate_error) : string :=
  if errors_Is err ErrInvalidConfig then "invalid_config"
  else if errors_Is err ErrNoQuorum then "no_quorum"
  else if errors_Is err ErrStale then "stale"
  else if errors_Is err ErrFuture then "future_timestamp"
  else if errors_Is err ErrDivergent then "divergent"
  else if errors_Is err ErrDisabled then "identity_disabled"
  else "dependency_unavailable".

(** The worker's configuration; its dependencies are set. *)
Record RateWorker := mkRateWorker { rw_Owner : string; rw_LeaseDuration : Duration; rw_MaxAttempts : Z }.

Definition RateWorker_Validate (w : RateWorker) : bool :=
  negb ((rw_Owner w == "") || (rw_LeaseDuration w <? Second) || (rw_LeaseDuration w >? 5 * Minute)
        || (rw_MaxAttempts w <? 1) || (rw_MaxAttempts w >? 100)).

(** The class [[a-z0-9]] and the patterns of config.go. *)
Definition is_lower (c : ascii) : bool := (97 <=? code c) && (code c <=? 122).
Definition is_upper (c : ascii) : bool := (65 <=? code c) && (code c <=? 90).
Definition lower_digit (c : ascii) : bool := is_lower c || is_digit c.
Definition alnum (c : ascii) : bool := lower_digit c || is_upper c.
Definition one_of (set : list Z) (c : ascii) : bool := existsb (Z.eqb (code c)) set.

Definition first_is (p : ascii -> bool) (s : string) : bool :=
  match s with EmptyString => false | String c _ => p c end.

Definition keyPattern (s : string) : bool :=
  first_is lower_digit s && first_is lower_digit (reversed s)
  && str_forall (fun c => lower_digit c || one_of [46; 95; 58; 47; 45] c) s && (len s <=? 128).

Definition assetPattern (s : string) : bool :=
  first_is alnum s && str_forall (fun c => alnum c || one_of [46; 95; 58; 47; 45] c) s && (len s <=? 128).

Definition fiatPattern (s : string) : bool := str_forall is_upper s && (len s =? 3).

Definition refPattern (s : string) : bool :=
  first_is alnum s && str_forall (fun c => alnum c || one_of [46; 95; 47; 45] c) s
  && (3 <=? len s) && (len s <=? 256).

Definition validTarget (target : Target) : bool :=
  keyPattern (tg_PolicyKey target) && (tg_TenantID target == "").

(** The calls of the run to its store, after [Claim]. *)
Inductive rate_call :=
| CallCommitTick (owner : string) (c : Collection) (next : Time)
| CallFail (owner : string) (claim : Claim) (code : string) (next : Time) (maxAttempts : Z).

(** What the clock, the loader, the fetchers and the store answer: the three
    readings of the clock are those of [collect], of the commit and of the failure. *)
Record rate_env := mkRateEnv {
  re_claim : result rate_error (option Claim);
  re_load : Target -> result rate_error RuntimeConfig;
  re_outcomes : RuntimeConfig -> list outcome;
  re_newID : nat -> result string string;
  re_commit : Collection -> option rate_error;
  re_fail : result rate_error bool;
  re_now_collect : Time; re_now_commit : Time; re_now_fail : Time }.

Definition recordFailure (w : RateWorker) (e : rate_env) (claim : Claim) (code : string)
    : list rate_call * rate_error :=
  let exponent := Z.min (cm_Attempts claim) 10 in
  let nextAttempt := AddTime (re_now_fail e) (Z.shiftl 1 exponent * Second) in
  ([CallFail (rw_Owner w) claim code nextAttempt (rw_MaxAttempts w)],
   match re_fail e with
   | Err err => err
   | Ok true => Plain "rate target moved to dead letter"
   | Ok false => Plain "rate collection failed"
   end).

Definition failed (r : list rate_call * rate_error) : list rate_call * result rate_error bool :=
  (fst r, Err (snd r)).

(** The calls made and the result; [Ok false] is a target another worker holds. *)
Definition RunTarget (sha256 : string -> string) (w : RateWorker) (e : rate_env) (target : Target)
    : list rate_call * result rate_error bool :=
  if negb (RateWorker_Validate w) || negb (validTarget target) then ([], Err (Sentinel ErrInvalidConfig))
  else
    match re_claim e with
    | Err err => ([], Err err)
    | Ok None => ([], Ok false)
    | Ok (Some claim) =>
        match re_load e target with
        | Err err => failed (recordFailure w e claim (errorCode err))
        | Ok config =>
            match collect sha256 (re_now_collect e) (re_newID e) claim config (re_outcomes e config) with
            | Err err => failed (recordFailure w e claim (errorCode err))
            | Ok collection =>
                let next := AddTime (re_now_commit e) (pl_PollInterval (rc_Policy config)) in
                let calls := [CallCommitTick (rw_Owner w) collection next] in
                match re_commit e collection with
                | Some err =>
                    if errors_Is err ErrStale || errors_Is err ErrFuture || errors_Is err ErrDivergent
                    then let r := recordFailure w e claim (errorCode err) in (calls ++ fst r, Err (snd r))
                    else (calls, Err err)
                | None => (calls, Ok true)
                end
            end
        end
    end.

Definition target_less (i j : Target) : bool :=
  if tg_TenantID i == tg_TenantID j then str_less (tg_PolicyKey i) (tg_PolicyKey j)
  else str_less (tg_TenantID i) (tg_TenantID j).

Definition SortedTargets (targets : list Target) : list Target := sort_by target_less targets.

(** ** config.go: ConfigLoader.Load *)

Record Snapshot := mkSnapshot { sn_ID : string; sn_Version : Z; sn_Payload : string; sn_FenceToken : Z }.

Inductive snapshot_kind := KindRatePolicy | KindRateSource.

Record sourcePayload := mkSourcePayload {
  sp_ProviderRef : string; sp_Endpoint : string; sp_BaseAsset : string; sp_QuoteAsset : string;
  sp_CredentialRef : string; sp_MaxAgeSeconds : Z; sp_TimeoutMS : Z; sp_MaxResponseBytes : Z }.

Record policyPayload := mkPolicyPayload {
  pp_BaseAsset : string; pp_QuoteAsset : string; pp_Sources : list string; pp_Quorum : Z;
  pp_MaxAgeSeconds : Z; pp_MaxSpreadBPS : Z; pp_FutureToleranceSeconds : option Z; pp_PollIntervalSeconds : option Z }.

Definition out_of (lo hi : Z) (x : Z) : bool := (x <? lo) || (x >? hi).
Definition opt_out_of (lo hi : Z) (x : option Z) : bool := match x with Some v => out_of lo hi v | None => false end.

Definition policy_refused (snapshot : Snapshot) (payload : policyPayload) : bool :=
  let n := Z.of_nat (length (pp_Sources payload)) in
  negb (ValidID (sn_ID snapshot)) || (sn_Version snapshot <? 1) || (sn_FenceToken snapshot <? 1)
  || negb (assetPattern (pp_BaseAsset payload)) || negb (fiatPattern (pp_QuoteAsset payload))
  || (pp_BaseAsset payload == pp_QuoteAsset payload)
  || out_of 2 32 n || out_of 2 n (pp_Quorum payload)
  || out_of 1 3600 (pp_MaxAgeSeconds payload) || out_of 0 10000 (pp_MaxSpreadBPS payload)
  || opt_out_of 0 60 (pp_FutureToleranceSeconds payload) || opt_out_of 1 3600 (pp_PollIntervalSeconds payload).

(** The loop over the source keys of the policy. *)
Fixpoint keys_ok (seen : list string) (keys : list string) : bool :=
  match keys with
  | [] => true
  | key :: rest => keyPattern key && negb (existsb_str key seen) && keys_ok (key :: seen) rest
  end.

Section loader.
Context (reader : snapshot_kind -> string -> result string Snapshot).
Context (decode_policy : string -> option policyPayload) (decode_source : string -> option sourcePayload).
Context (safeEndpoint : string -> bool).

Definition source_refused (snapshot : Snapshot) (payload : policyPayload) (source : sourcePayload) : bool :=
  negb (ValidID (sn_ID snapshot)) || (sn_FenceToken snapshot <? 1)
  || negb (refPattern (sp_ProviderRef source)) || (len (sp_ProviderRef source) >? 128)
  || (sp_BaseAsset source != pp_BaseAsset payload) || (sp_QuoteAsset source != pp_QuoteAsset payload)
  || out_of 1 3600 (sp_MaxAgeSeconds source)
  || (sp_CredentialRef source != "") && negb (refPattern (sp_CredentialRef source))
  || negb (safeEndpoint (sp_Endpoint source)).

(** One iteration of the loop over the sources. *)
Definition load_source (payload : policyPayload) (seenProviders : list string) (key : string)
    : result rate_error SourceConfig :=
  match reader KindRateSource key with
  | Err e => Err (Wrapped ErrUnavailable e)
  | Ok snapshot =>
      match decode_source (sn_Payload snapshot) with
      | None => Err (Sentinel ErrInvalidConfig)
      | Some source =>
          if source_refused snapshot payload source then Err (Sentinel ErrInvalidConfig)
          else
            let timeoutMS := if sp_TimeoutMS source =? 0 then 5000 else sp_TimeoutMS source in
            let maxBytes := if sp_MaxResponseBytes source =? 0 then Z.shiftl 64 10 else sp_MaxResponseBytes source in
            if out_of 100 20000 timeoutMS || out_of 256 (Z.shiftl 1 20) maxBytes then Err (Sentinel ErrInvalidConfig)
            else if existsb_str (sp_ProviderRef source) seenProviders then Err (Sentinel ErrInvalidConfig)
            else Ok (mkSource key (sp_ProviderRef source) (sp_Endpoint source) (sp_BaseAsset source)
                       (sp_QuoteAsset source) (sp_CredentialRef source) (sp_MaxAgeSeconds source * Second)
                       (timeoutMS * Millisecond) maxBytes (sn_ID snapshot) (sn_FenceToken snapshot))
      end
  end.

Fixpoint load_sources (payload : policyPayload) (seenProviders : list string) (keys : list string)
    : result rate_error (list SourceConfig) :=
  match keys with
  | [] => Ok []
  | key :: rest =>
      match load_source payload seenProviders key with
      | Err e => Err e
      | Ok source =>
          match load_sources payload (sr_ProviderRef source :: seenProviders) rest with
          | Err e => Err e
          | Ok sources => Ok (source :: sources)
          end
      end
  end.

Definition Load (target : Target) : result rate_error RuntimeConfig :=
  if negb (validTarget target) then Err (Sentinel ErrInvalidConfig)
  else
    match reader KindRatePolicy (tg_PolicyKey target) with
    | Err e => Err (Wrapped ErrUnavailable e)
    | Ok snapshot =>
        match decode_policy (sn_Payload snapshot) with
        | None => Err (Sentinel ErrInvalidConfig)
        | Some payload =>
            if policy_refused snapshot payload then Err (Sentinel ErrInvalidConfig)
            else if negb (keys_ok [] (pp_Sources payload)) then Err (Sentinel ErrInvalidConfig)
            else
              match load_sources payload [] (pp_Sources payload) with
              | Err e => Err e
              | Ok sources =>
                  Ok (mkConfig (tg_TenantID target)
                        (mkPolicy (tg_PolicyKey target) (pp_BaseAsset payload) (pp_QuoteAsset payload)
                           (pp_Sources payload) (pp_Quorum payload) (pp_MaxAgeSeconds payload * Second)
                           (pp_MaxSpreadBPS payload) (default 5 (pp_FutureToleranceSeconds payload) * Second)
                           (default 15 (pp_PollIntervalSeconds payload) * Second) (sn_ID snapshot)
                           (sn_Version snapshot) (sn_FenceToken snapshot))
                        sources)
              end
        end
    end.
End loader.

(** ** The order of prices *)

(** The value of a price, compared by cross multiplication. *)
Definition rle (a b : Rational) : Prop := Numerator a * Denominator b <= Numerator b * Denominator a.

Definition positive (r : Rational) : Prop := 0 < Numerator r /\ 0 < Denominator r.

Lemma valid_positive r : valid r = true <-> positive r.
Proof. unfold valid, positive. rewrite andb_true_iff, !Z.ltb_lt. done. Qed.

Lemma cmp_lt a b : (RationalCmp a b <? 0) = true <-> ~ rle b a.
Proof. unfold RationalCmp, Money.Cmp, rle. destruct (Z.compare_spec (Numerator a * Denominator b) (Numerator b * Denominator a)); split; lia. Qed.

Lemma cmp_gt a b : (RationalCmp a b >? 0) = true <-> ~ rle a b.
Proof. unfold RationalCmp, Money.Cmp, rle. destruct (Z.compare_spec (Numerator a * Denominator b) (Numerator b * Denominator a)); split; lia. Qed.

Lemma cmp_zero a b : RationalCmp a b = 0 <-> rle a b /\ rle b a.
Proof. unfold RationalCmp, Money.Cmp, rle. destruct (Z.compare_spec (Numerator a * Denominator b) (Numerator b * Denominator a)); split; lia. Qed.

Lemma rle_refl a : rle a a.
Proof. unfold rle. lia. Qed.

Lemma rle_total a b : rle a b \/ rle b a.
Proof. unfold rle. lia. Qed.

Lemma rle_trans a b c : positive a -> positive b -> positive c -> rle a b -> rle b c -> rle a c.
Proof. unfold rle, positive. intros. nia. Qed.

Definition rat_less (i j : Rational) : bool := RationalCmp i j <? 0.

Lemma rat_less_not_after a b : not_after rat_less a b <-> rle a b.
Proof.
  unfold not_after, rat_less. rewrite <- not_true_iff_false, cmp_lt. unfold rle. lia.
Qed.

Lemma price_sort_sorted l : Forall positive l -> StronglySorted rle (sort_by rat_less l).
Proof.
  intros Hl. assert (Hs : StronglySorted (not_after rat_less) (sort_by rat_less l)).
  { apply (sort_by_sorted_on _ positive); [| |done].
    - intros x y _ _ H. apply cmp_lt in H. apply rat_less_not_after. unfold rle in *. lia.
    - intros x y z Hx Hy Hz H. apply cmp_lt in H. unfold rat_less. rewrite !cmp_lt.
      destruct (Z.le_gt_cases (Numerator y * Denominator x) (Numerator x * Denominator y)) as [Hyx|Hyx].
      + right. intros Hzy. apply H. by eapply (rle_trans z y x).
      + left. unfold rle. lia. }
  induction Hs as [|x r Hs IH Hall]; constructor; [done|].
  eapply Forall_impl; [exact Hall|]. intros y. apply rat_less_not_after.
Qed.

Lemma StronglySorted_lookup {A} (R : A -> A -> Prop) (l : list A) i j x y :
  StronglySorted R l -> (i < j)%nat -> l !! i = Some x -> l !! j = Some y -> R x y.
Proof.
  intros Hs. revert i j. induction Hs as [|z r Hs IH Hall]; intros i j Hij Hi Hj; [by rewrite lookup_nil in Hi|].
  destruct j as [|j]; [lia|]. simpl in Hj. destruct i as [|i]; simpl in Hi.
  - injection Hi as ->. rewrite Forall_forall in Hall. apply Hall. by eapply list_elem_of_lookup_2.
  - eapply (IH i j); [lia|done|done].
Qed.

Lemma sorted_lookup_le (l : list Rational) i j x y :
  StronglySorted rle l -> (i <= j)%nat -> l !! i = Some x -> l !! j = Some y -> rle x y.
Proof.
  intros Hs Hij Hi Hj. destruct (decide (i = j)) as [->|Hne].
  - rewrite Hi in Hj. injection Hj as ->. apply rle_refl.
  - eapply (StronglySorted_lookup rle l i j); eauto. lia.
Qed.

(** The index both branches of the median pick. *)
Lemma median_index n : (n <> 0)%nat ->
  (if Nat.eqb (n mod 2) 1 then (n / 2)%nat else (n / 2 - 1)%nat) = ((n - 1) / 2)%nat.
Proof.
  intros Hn. pose proof (Nat.div_mod_eq n 2). pose proof (Nat.mod_upper_bound n 2).
  destruct (Nat.eqb_spec (n mod 2) 1); [apply (Nat.div_unique _ _ _ 0)|apply (Nat.div_unique _ _ _ 1)]; lia.
Qed.

Lemma median_eq values : values <> [] -> Forall positive values ->
  exists m, median values = Ok m /\ sort_by rat_less values !! ((length values - 1) / 2)%nat = Some m.
Proof.
  intros Hne Hp. unfold median.
  destruct (Z.of_nat (length values) =? 0) eqn:E; [destruct values; [done|simpl in E; lia]|].
  replace (forallb valid values) with true; cycle 1.
  { symmetry. apply forallb_forall. intros x Hx. rewrite Forall_forall in Hp. apply valid_positive, Hp.
    by apply list_elem_of_In. }
  cbn [negb]. change (fun i j : Rational => RationalCmp i j <? 0) with rat_less.
  rewrite sort_by_length, median_index by lia.
  destruct (sort_by rat_less values !! ((length values - 1) / 2)%nat) as [m|] eqn:El.
  - by exists m.
  - exfalso. apply lookup_ge_None in El. rewrite sort_by_length in El.
    pose proof (Nat.div_lt_upper_bound (length values - 1) 2 (length values)). lia.
Qed.

Lemma median_in values m : median values = Ok m -> m ∈ values.
Proof.
  unfold median. destruct (_ =? 0); [done|]. destruct (negb _); [done|].
  destruct (_ !! _) as [x|] eqn:E; [|done]. intros [= <-].
  apply list_elem_of_lookup_2, list_elem_of_In, sort_by_In, list_elem_of_In in E. done.
Qed.

Lemma median_positive values m : median values = Ok m -> Forall positive values.
Proof.
  unfold median. destruct (_ =? 0); [done|]. destruct (forallb valid values) eqn:E; [|done]. intros _.
  rewrite forallb_forall in E. apply Forall_forall. intros x Hx. apply valid_positive, E. by apply list_elem_of_In.
Qed.

(** ** Spread in basis points *)

(** [x] exceeds [y] by at most [k] basis points of [c]. *)
Definition within (c : Rational) (k : Z) (x y : Rational) : Prop :=
  (Numerator x * Denominator y - Numerator y * Denominator x) * 10000 * Denominator c
  <= Denominator x * Denominator y * Numerator c * k.

Definition spread_within (values : list Rational) (c : Rational) (k : Z) : Prop :=
  forall x y, x ∈ values -> y ∈ values -> within c k x y.

Section within.
Context (c : Rational) (Hc : positive c).

Lemma within_left k x x' y : positive x -> positive x' -> positive y ->
  rle x x' -> within c k x' y -> within c k x y.
Proof.
  unfold positive, rle, within in *. destruct c as [cn cd], x as [xn xd], x' as [un ud], y as [yn yd]; simpl in *.
  intros Hx Hu Hy Hle Hw. apply (Z.mul_le_mono_pos_r _ _ ud); [lia|].
  assert (xn * ud * (yd * 10000 * cd) <= un * xd * (yd * 10000 * cd)) by (apply Z.mul_le_mono_nonneg_r; nia).
  assert ((un * yd - yn * ud) * 10000 * cd * xd <= ud * yd * cn * k * xd) by (apply Z.mul_le_mono_nonneg_r; [lia|exact Hw]).
  nia.
Qed.

Lemma within_right k x y y' : positive x -> positive y -> positive y' ->
  rle y' y -> within c k x y' -> within c k x y.
Proof.
  unfold positive, rle, within in *. destruct c as [cn cd], x as [xn xd], y' as [un ud], y as [yn yd]; simpl in *.
  intros Hx Hy Hu Hle Hw. apply (Z.mul_le_mono_pos_r _ _ ud); [lia|].
  assert (un * yd * (xd * 10000 * cd) <= yn * ud * (xd * 10000 * cd)) by (apply Z.mul_le_mono_nonneg_r; nia).
  assert ((xn * ud - un * xd) * 10000 * cd * yd <= xd * ud * cn * k * yd) by (apply Z.mul_le_mono_nonneg_r; [lia|exact Hw]).
  nia.
Qed.

Lemma within_mono k k' x y : positive x -> positive y -> k <= k' -> within c k x y -> within c k' x y.
Proof.
  unfold positive, within in *. intros Hx Hy Hk Hw. etrans; [exact Hw|]. apply Z.mul_le_mono_nonneg_l; nia.
Qed.
End within.

Lemma within_center c c' k x y : positive c -> positive c' -> positive x -> positive y -> 0 <= k ->
  rle c c' -> within c k x y -> within c' k x y.
Proof.
  unfold positive, rle, within in *. destruct c as [cn cd], c' as [dn dd], x as [xn xd], y as [yn yd]; simpl in *.
  intros Hc Hd Hx Hy Hk Hle Hw. apply (Z.mul_le_mono_pos_r _ _ cd); [lia|].
  assert ((xn * yd - yn * xd) * 10000 * cd * dd <= xd * yd * cn * k * dd) by (apply Z.mul_le_mono_nonneg_r; [lia|exact Hw]).
  assert (cn * dd * (xd * yd * k) <= dn * cd * (xd * yd * k)) by (apply Z.mul_le_mono_nonneg_r; nia).
  nia.
Qed.

Lemma min_max_spec rest : forall a b,
  Forall positive rest -> positive a -> positive b ->
  let r := fold_left (fun acc value =>
    (if RationalCmp value (fst acc) <? 0 then value else fst acc,
     if RationalCmp value (snd acc) >? 0 then value else snd acc)) rest (a, b) in
  (fst r = a \/ fst r ∈ rest) /\ (snd r = b \/ snd r ∈ rest) /\
  rle (fst r) a /\ rle b (snd r) /\
  forall x, x ∈ rest -> rle (fst r) x /\ rle x (snd r).
Proof.
  induction rest as [|v rest IH]; intros a b Hp Ha Hb; cbn [fold_left].
  { split; [by left|]. split; [by left|]. split; [apply rle_refl|]. split; [apply rle_refl|].
    intros x Hx. by apply elem_of_nil in Hx. }
  apply Forall_cons in Hp as [Hv Hp]. cbn [fst snd].
  set (a' := if _ <? 0 then v else a). set (b' := if _ >? 0 then v else b).
  assert (HA : positive a' /\ (a' = a \/ a' = v) /\ rle a' a /\ rle a' v).
  { unfold a'. destruct (RationalCmp v a <? 0) eqn:E.
    - apply cmp_lt in E. split; [done|]. split; [by right|]. split; [|apply rle_refl]. unfold rle in *. lia.
    - split; [done|]. split; [by left|]. split; [apply rle_refl|].
      apply rat_less_not_after. exact E. }
  assert (HB : positive b' /\ (b' = b \/ b' = v) /\ rle b b' /\ rle v b').
  { unfold b'. destruct (RationalCmp v b >? 0) eqn:E.
    - apply cmp_gt in E. split; [done|]. split; [by right|]. split; [|apply rle_refl]. unfold rle in *. lia.
    - split; [done|]. split; [by left|]. split; [apply rle_refl|].
      apply not_true_iff_false in E. rewrite cmp_gt in E. unfold rle in *. lia. }
  destruct HA as (Ha' & HAi & HAa & HAv), HB as (Hb' & HBi & HBb & HBv).
  destruct (IH a' b' Hp Ha' Hb') as (H1 & H2 & H3 & H4 & H5).
  set (r := fold_left _ rest (a', b')) in *.
  assert (Hpos : positive (fst r) /\ positive (snd r)).
  { rewrite Forall_forall in Hp. split; [destruct H1 as [->|]|destruct H2 as [->|]]; auto. }
  destruct Hpos as [Hr1 Hr2].
  split; [destruct H1 as [->|]; [destruct HAi as [->| ->]; [by left|right; left]|right; by right]|].
  split; [destruct H2 as [->|]; [destruct HBi as [->| ->]; [by left|right; left]|right; by right]|].
  split; [by eapply (rle_trans _ a')|]. split; [by eapply (rle_trans _ b')|].
  intros x [->|Hx]%elem_of_cons; [|auto]. split; [by eapply (rle_trans _ a')|by eapply (rle_trans _ b')].
Qed.

(** The quotient of [spreadBPS] is the ceiling. *)
Lemma quot_ceil n d k : 0 <= n -> 0 < d ->
  Z.quot n d + (if Z.rem n d >? 0 then 1 else 0) <= k <-> n <= d * k.
Proof.
  intros Hn Hd. pose proof (Z.quot_rem' n d). pose proof (Z.rem_bound_pos n d Hn Hd).
  destruct (Z.rem n d >? 0) eqn:E; bool_hyp; split; intros; nia.
Qed.

(** What [spreadBPS] computes: the least spread in basis points, refused when
    it does not fit an [int64]. *)
Lemma spreadBPS_least values c maximum :
  values <> [] -> Forall positive values -> positive c -> 0 <= maximum <= 10000 ->
  exists s, 0 <= s /\ (forall k, s <= k <-> spread_within values c k) /\
    spreadBPS values c maximum =
    if s <=? max_int64 then Ok (s, s <=? maximum) else Err (Sentinel ErrDivergent).
Proof.
  intros Hne Hp Hc Hm. destruct values as [|first rest]; [done|]. apply Forall_cons in Hp as [Hf Hp].
  unfold spreadBPS. assert (valid c = true) as -> by by apply valid_positive.
  replace (maximum <? 0) with false by lia. replace (maximum >? 10000) with false by lia. cbn [negb orb].
  pose proof (min_max_spec rest first first Hp Hf Hf) as Hmm. fold (min_max first rest) in Hmm.
  destruct (min_max first rest) as [mn mx]. cbn [fst snd] in Hmm. destruct Hmm as (H1 & H2 & H3 & H4 & H5).
  assert (Hall : forall x, x ∈ first :: rest -> positive x /\ rle mn x /\ rle x mx).
  { rewrite Forall_forall in Hp. intros x [->|Hx]%elem_of_cons; [auto|]. destruct (H5 x Hx). auto. }
  assert (Hmn : mn ∈ first :: rest) by (destruct H1 as [->|]; [left|by right]).
  assert (Hmx : mx ∈ first :: rest) by (destruct H2 as [->|]; [left|by right]).
  destruct (Hall mn Hmn) as (Hpn & _ & Hle). destruct (Hall mx Hmx) as (Hpx & _ & _).
  set (left := (_ - _) * 10000 * _). set (den := Denominator mx * Denominator mn * Numerator c).
  set (s := Z.quot left den + _).
  assert (Hden : 0 < den) by (unfold den, positive in *; nia).
  assert (Hleft : 0 <= left) by (unfold left, positive, rle in *; nia).
  pose proof (fun k => quot_ceil left den k Hleft Hden) as Hq. fold s in Hq.
  assert (Hs : 0 <= s).
  { unfold s. pose proof (Z.quot_pos left den Hleft Hden). destruct (_ >? 0); lia. }
  exists s. split; [done|]. split.
  - intros k. rewrite Hq. unfold left, den. fold (within c k mx mn). split; [|intros H; by apply H].
    intros Hw x y Hx Hy. destruct (Hall x Hx) as (? & ? & ?), (Hall y Hy) as (? & ? & ?).
    apply (within_right c Hc k x y mn); [done..|]. by apply (within_left c Hc k x mx mn).
  - replace (s <? min_int64) with false by (unfold min_int64; lia). cbn [orb].
    rewrite Z.gtb_ltb, Z.ltb_antisym. destruct (s <=? max_int64); cbn [negb]; [|done].
    do 2 f_equal. destruct (s <=? maximum) eqn:E; bool_hyp; [apply Hq in E; lia|].
    enough (~ left <= den * maximum) by (unfold den in *; lia). rewrite <- Hq. lia.
Qed.

(** ** The selection *)

Definition prices (obs : list Observation) : list Rational := ob_Price <$> obs.

Lemma price_spread_least obs maximum :
  obs <> [] -> Forall positive (prices obs) -> 0 <= maximum <= 10000 ->
  exists c s, median (prices obs) = Ok c /\ 0 <= s /\ (forall k, s <= k <-> spread_within (prices obs) c k) /\
    price_spread obs maximum = if s <=? max_int64 then Ok (s, s <=? maximum) else Err (Sentinel ErrDivergent).
Proof.
  intros Hne Hp Hm. assert (Hne' : prices obs <> []) by (by destruct obs).
  destruct (median_eq _ Hne' Hp) as (c & Hc & _). pose proof (median_in _ _ Hc) as Hin.
  assert (Hpc : positive c) by (rewrite Forall_forall in Hp; auto).
  destruct (spreadBPS_least (prices obs) c maximum Hne' Hp Hpc Hm) as (s & Hs & Hk & Heq).
  exists c, s. unfold price_spread. fold (prices obs). rewrite Hc. auto.
Qed.

(** An accepted spread, read back. *)
Lemma price_spread_ok obs maximum s allowed : price_spread obs maximum = Ok (s, allowed) ->
  exists c, median (prices obs) = Ok c /\ Forall positive (prices obs) /\ 0 <= maximum <= 10000 /\
    allowed = (s <=? maximum) /\ forall k, s <= k <-> spread_within (prices obs) c k.
Proof.
  intros H. assert (Hm : exists c, median (prices obs) = Ok c /\ spreadBPS (prices obs) c maximum = Ok (s, allowed)).
  { unfold price_spread in H. fold (prices obs) in H. destruct (median (prices obs)) as [c|]; [|done]. by exists c. }
  destruct Hm as (c & Hc & Hb). pose proof (median_positive _ _ Hc) as Hp. exists c. split; [done|]. split; [done|].
  assert (Hr : 0 <= maximum <= 10000).
  { unfold spreadBPS in Hb. destruct (prices obs); [done|]. destruct (_ || _) eqn:E; [done|]. bool_hyp. lia. }
  split; [done|]. destruct (price_spread_least obs maximum) as (c' & s' & Hc' & _ & Hk & Heq); [|done|done|].
  { intros ->. done. }
  rewrite H in Heq. destruct (s' <=? max_int64); [|done]. injection Heq as -> ->.
  rewrite Hc in Hc'. by injection Hc' as <-.
Qed.

Section best_window.
Context (ordered : list Observation) (q : nat) (maximum : Z).

Definition window_spread (start : nat) : result rate_error (Z * bool) :=
  price_spread (window ordered start q) maximum.

Lemma best_window_spec starts : forall best r, best_window ordered q maximum starts best = Ok r ->
  (r = best \/ exists start s, start ∈ starts /\ window_spread start = Ok (s, true) /\ r = Some (start, s)) /\
  (forall b t, best = Some (b, t) -> exists b' t', r = Some (b', t') /\ t' <= t) /\
  (forall start s, start ∈ starts -> window_spread start = Ok (s, true) -> exists b' t', r = Some (b', t') /\ t' <= s).
Proof.
  induction starts as [|st starts IH]; intros best r H; cbn [best_window] in H.
  { injection H as <-. split; [by left|]. split; [eauto with lia|]. intros ? ? Hin. by apply elem_of_nil in Hin. }
  fold (window_spread st) in H. destruct (window_spread st) as [[s ok]|] eqn:E; [|done]. cbn zeta in H.
  set (best' := if ok && _ then _ else best) in *. destruct (IH best' r H) as (H1 & H2 & H3).
  assert (Hb : (best' = best \/ best' = Some (st, s) /\ ok = true) /\
               (forall b t, best = Some (b, t) -> exists b' t', best' = Some (b', t') /\ t' <= t) /\
               (ok = true -> exists b' t', best' = Some (b', t') /\ t' <= s)).
  { unfold best'. destruct ok; cbn [andb]; [|split; [by left|]; split; [eauto with lia|done]].
    destruct best as [[b t]|]; [destruct (s <? t) eqn:Es; bool_hyp|].
    - split; [by right|]. split; [intros ? ? [= <- <-]; exists st, s; split; [done|lia]|]. intros _. exists st, s. done.
    - split; [by left|]. split; [intros ? ? [= <- <-]; exists b, t; done|]. intros _. exists b, t. done.
    - split; [by right|]. split; [done|]. intros _. exists st, s. done. }
  destruct Hb as (Hb1 & Hb2 & Hb3). split; [|split].
  - destruct H1 as [->|(start & s' & Hin & Hw & ->)]; [|right; exists start, s'; split; [by right|done]].
    destruct Hb1 as [->|[-> ->]]; [by left|]. right. exists st, s. split; [left|done].
  - intros b t Hbt. destruct (Hb2 b t Hbt) as (b1 & t1 & He & Hle). destruct (H2 b1 t1 He) as (b2 & t2 & -> & ?).
    exists b2, t2. split; [done|lia].
  - intros start s' [->|Hin]%elem_of_cons Hw; [|eauto]. rewrite E in Hw. injection Hw as <- ->.
    destruct (Hb3 eq_refl) as (b1 & t1 & He & Hle). destruct (H2 b1 t1 He) as (b2 & t2 & -> & ?).
    exists b2, t2. split; [done|lia].
Qed.

Lemma best_window_total starts : forall best,
  (forall start, start ∈ starts -> is_ok (window_spread start) = true) ->
  is_ok (best_window ordered q maximum starts best) = true.
Proof.
  induction starts as [|st starts IH]; intros best H; [done|]. cbn [best_window]. fold (window_spread st).
  pose proof (H st ltac:(left)) as Hst. destruct (window_spread st) as [[s ok]|]; [|done].
  apply IH. intros start Hin. apply H. by right.
Qed.
End best_window.

(** The size and the origin of the selection. *)
Lemma selected_facts obs quorum maximum selected :
  selectAgreeingObservations obs quorum maximum = Ok selected ->
  2 <= quorum <= Z.of_nat (length selected) /\ selected ⊆+ obs.
Proof.
  unfold selectAgreeingObservations. destruct (_ || _) eqn:Eq; [done|]. bool_hyp.
  destruct (price_spread obs maximum) as [[s []]|] eqn:E; [|  |done].
  - intros [= <-]. split; [lia|done].
  - set (ordered := sort_by price_less obs). set (q := Z.to_nat quorum).
    destruct (best_window ordered q maximum _ None) as [[[st t]|]|] eqn:Eb; [|done|done]. intros [= <-].
    apply best_window_spec in Eb as ([Hn|(start & s' & Hin & Hw & [= <- <-])] & _); [done|].
    apply elem_of_seq in Hin. split.
    + unfold window. rewrite length_take, length_drop. unfold ordered in *. rewrite sort_by_length in *. lia.
    + unfold window. etrans; [apply sublist_submseteq, sublist_take|].
      etrans; [apply sublist_submseteq, sublist_drop|]. apply Permutation_submseteq. symmetry. apply sort_by_perm.
Qed.

(** C5: Whatever the providers sent, the observations that are kept agree: they
    are among the ones received, at least the quorum, and all of their prices
    lie within the policy's spread of their median, which is one of them. *)
Theorem selectAgreeingObservations_agree obs quorum maximum selected :
  selectAgreeingObservations obs quorum maximum = Ok selected ->
  2 <= quorum <= Z.of_nat (length selected) /\ selected ⊆+ obs /\
  (selected = obs \/ Z.of_nat (length selected) = quorum) /\
  exists c, median (prices selected) = Ok c /\ c ∈ prices selected /\ spread_within (prices selected) c maximum.
Proof.
  intros H. pose proof (selected_facts _ _ _ _ H) as [Hq Hsub]. split; [done|]. split; [done|].
  unfold selectAgreeingObservations in H. destruct (_ || _); [done|].
  destruct (price_spread obs maximum) as [[s []]|] eqn:E; [| |done].
  - injection H as <-. apply price_spread_ok in E as (c & Hc & _ & _ & Ha & Hk).
    split; [by left|]. exists c. split; [done|]. split; [by apply median_in|]. apply Hk. lia.
  - destruct (best_window _ _ maximum _ None) as [[[st t]|]|] eqn:Eb; [|done|done]. injection H as <-.
    apply best_window_spec in Eb as ([Hn|(start & s' & Hin & Hw & [= <- <-])] & _); [done|].
    apply price_spread_ok in Hw as (c & Hc & _ & _ & Ha & Hk). split; [right; unfold window in *; rewrite length_take in *; lia|].
    exists c. split; [done|]. split; [by apply median_in|]. apply Hk. lia.
Qed.

(** Prices in lowest terms, as [NewRational] makes them: equal values are equal. *)
Definition lowest (r : Rational) : Prop := positive r /\ Z.gcd (Numerator r) (Denominator r) = 1.

Lemma lowest_antisym a b : lowest a -> lowest b -> rle a b -> rle b a -> a = b.
Proof.
  destruct a as [n d], b as [n' d']. unfold lowest, positive, rle; simpl. intros [Ha Hga] [Hb Hgb] H1 H2.
  assert (Heq : n * d' = n' * d) by lia.
  assert (Hd1 : (d | d')).
  { apply Z.gauss with n; [exists n'; lia|]. by rewrite Z.gcd_comm. }
  assert (Hd2 : (d' | d)).
  { apply Z.gauss with n'; [exists n; lia|]. by rewrite Z.gcd_comm. }
  assert (d = d') as -> by (apply Z.divide_antisym_nonneg; lia || done).
  f_equal. nia.
Qed.

Definition priced (o : Observation) : Prop := positive (ob_Price o).

Lemma price_less_spec a b : price_less a b = true <->
  ~ rle (ob_Price b) (ob_Price a) \/
  (rle (ob_Price a) (ob_Price b) /\ rle (ob_Price b) (ob_Price a) /\
   str_less (ob_SourceKey a) (ob_SourceKey b) = true).
Proof.
  unfold price_less. pose proof (cmp_zero (ob_Price a) (ob_Price b)) as Hz.
  pose proof (cmp_lt (ob_Price a) (ob_Price b)) as Hl.
  destruct (RationalCmp (ob_Price a) (ob_Price b) =? 0) eqn:E; bool_hyp; cbn [negb].
  - apply Hz in E as [E1 E2]. split; [auto|]. intros [?|(_ & _ & ?)]; done.
  - rewrite Hl. split; [auto|]. intros [?|(H1 & H2 & _)]; [done|]. exfalso. apply E, Hz. done.
Qed.

Lemma price_less_asym a b : priced a -> priced b -> price_less a b = true -> price_less b a = false.
Proof.
  intros _ _ H. apply not_true_iff_false. intros H'. apply price_less_spec in H, H'.
  destruct H as [H|(H1 & H2 & Hs)], H' as [H'|(H1' & H2' & Hs')]; unfold rle in *; try lia.
  apply str_less_asym in Hs. congruence.
Qed.

Lemma rle_dec a b : rle a b \/ ~ rle a b.
Proof. unfold rle. lia. Qed.

Lemma price_less_cotrans a b c : priced a -> priced b -> priced c ->
  price_less a c = true -> price_less a b = true \/ price_less b c = true.
Proof.
  intros Ha Hb Hc. rewrite !price_less_spec. unfold priced in *.
  destruct (rle_dec (ob_Price b) (ob_Price a)) as [Hba|]; [|by left; left].
  destruct (rle_dec (ob_Price c) (ob_Price b)) as [Hcb|]; [|by right; left].
  intros [H|(H1 & H2 & Hs)]; [exfalso; apply H; by eapply (rle_trans _ (ob_Price b))|].
  assert (rle (ob_Price a) (ob_Price b)) by by eapply (rle_trans _ (ob_Price c)).
  assert (rle (ob_Price b) (ob_Price c)) by by eapply (rle_trans _ (ob_Price a)).
  destruct (str_less_cotrans _ (ob_SourceKey b) _ Hs); [left; right|right; right]; done.
Qed.

Lemma observation_sort_sorted obs : Forall priced obs ->
  StronglySorted (not_after price_less) (sort_by price_less obs).
Proof.
  intros H. apply (sort_by_sorted_on _ priced); [exact price_less_asym|exact price_less_cotrans|done].
Qed.

Lemma not_after_price a b : not_after price_less a b -> rle (ob_Price a) (ob_Price b).
Proof.
  unfold not_after. intros H. apply not_true_iff_false in H. rewrite price_less_spec in H.
  destruct (rle_dec (ob_Price a) (ob_Price b)); [done|]. exfalso. apply H. by left.
Qed.

(** A sorted list sorts to itself. *)
Lemma sort_by_id {A} (less : A -> A -> bool) l : StronglySorted (not_after less) l -> sort_by less l = l.
Proof.
  induction 1 as [|x r Hs IH Hall]; simpl; [done|]. rewrite IH. destruct r as [|y r]; simpl; [done|].
  apply Forall_cons in Hall as [Hxy _]. unfold not_after in Hxy. by rewrite Hxy.
Qed.

Lemma StronglySorted_sublist {A} (R : A -> A -> Prop) (l k : list A) :
  l `sublist_of` k -> StronglySorted R k -> StronglySorted R l.
Proof.
  induction 1 as [|x l k Hs IH|x l k Hs IH]; intros HS; [constructor|..];
    apply StronglySorted_inv in HS as [HS Hall]; [|auto].
  constructor; [auto|]. rewrite Forall_forall in Hall |- *. intros y Hy. apply Hall.
  eapply elem_of_submseteq; [done|by apply sublist_submseteq].
Qed.

Lemma sorted_prices (l : list Observation) : StronglySorted (not_after price_less) l -> StronglySorted rle (prices l).
Proof.
  induction 1 as [|x r Hs IH Hall]; [constructor|]. unfold prices. rewrite fmap_cons. constructor; [done|].
  apply Forall_fmap. eapply Forall_impl; [exact Hall|]. intros y. apply not_after_price.
Qed.

Lemma rat_sort_id l : StronglySorted rle l -> sort_by rat_less l = l.
Proof.
  intros Hs. apply sort_by_id. induction Hs as [|x r Hs IH Hall]; constructor; [done|].
  eapply Forall_impl; [exact Hall|]. intros y. apply rat_less_not_after.
Qed.

(** The median of a sorted list is its middle. *)
Lemma median_sorted l c : StronglySorted rle l -> median l = Ok c -> l !! ((length l - 1) / 2)%nat = Some c.
Proof.
  intros Hs Hc. pose proof (median_positive _ _ Hc) as Hp.
  destruct (median_eq l) as (m & Hm & Hl); [by intros ->|done|].
  rewrite rat_sort_id in Hl by done. rewrite Hc in Hm. by injection Hm as <-.
Qed.

Lemma median_perm l l' : Permutation l l' -> Forall lowest l -> median l = median l'.
Proof.
  intros Hp Hl. assert (Hpos : Forall positive l) by (eapply Forall_impl; [exact Hl|by intros ? []]).
  destruct (decide (l = [])) as [->|Hne]; [by apply Permutation_nil in Hp as ->|].
  assert (Hne' : l' <> []) by (intros ->; by apply Permutation_sym, Permutation_nil in Hp).
  destruct (median_eq l Hne Hpos) as (m & -> & Hm). destruct (median_eq l' Hne') as (m' & -> & Hm'); [by rewrite <- Hp|].
  f_equal. assert (Heq : sort_by rat_less l = sort_by rat_less l').
  { assert (HS : forall k, Forall positive k -> StronglySorted (not_after rat_less) (sort_by rat_less k)).
    { intros k Hk. pose proof (price_sort_sorted k Hk) as HS. induction HS as [|x r HS IH Hall]; constructor; [done|].
      eapply Forall_impl; [exact Hall|]. intros y. apply rat_less_not_after. }
    apply (sorted_unique rat_less); [|by apply HS|apply HS; by rewrite <- Hp|by rewrite <- !sort_by_perm].
    intros x y Hx%sort_by_In%list_elem_of_In Hy%sort_by_In%list_elem_of_In. rewrite Forall_forall in Hl.
    unfold rat_less. rewrite !cmp_lt. destruct (rle_dec y x); [|auto]. destruct (rle_dec x y); [|auto].
    right; right. apply lowest_antisym; auto. }
  rewrite Heq, Hp in Hm. congruence.
Qed.

Lemma sublist_position {A} (l k : list A) i x : l `sublist_of` k -> l !! i = Some x ->
  exists p, k !! p = Some x /\ (p + length l <= length k + i)%nat.
Proof.
  intros Hs. revert i. induction Hs as [|y l k Hs IH|y l k Hs IH]; intros i Hi.
  - by rewrite lookup_nil in Hi.
  - pose proof (sublist_length _ _ Hs). destruct i as [|i]; simpl in Hi.
    + injection Hi as ->. exists 0%nat. simpl. split; [done|lia].
    + destruct (IH i Hi) as (p & Hp & Hle). exists (S p). simpl. split; [done|lia].
  - destruct (IH i Hi) as (p & Hp & Hle). exists (S p). simpl. split; [done|lia].
Qed.

Lemma window_lookup ordered start q i : (i < q)%nat -> window ordered start q !! i = ordered !! (start + i)%nat.
Proof. intros Hi. unfold window. rewrite lookup_take_lt by done. apply lookup_drop. Qed.

(** Among the windows of a sorted list there is one that ends where a given
    sub-list ends and lies pointwise above it. *)
Lemma dominating_window ordered T u :
  StronglySorted (not_after price_less) ordered -> T ++ [u] `sublist_of` ordered ->
  let q := length (T ++ [u]) in
  exists start, (start + q <= length ordered)%nat /\ window ordered start q !! length T = Some u /\
    forall i x y, (T ++ [u]) !! i = Some x -> window ordered start q !! i = Some y -> rle (ob_Price x) (ob_Price y).
Proof.
  intros Hs Hsub q. apply sublist_app_l in Hsub as (k1 & k2 & -> & Hs1 & Hs2).
  apply sublist_cons_l in Hs2 as (k3 & k4 & -> & _). set (P := k1 ++ k3 ++ [u]).
  assert (Hq : q = S (length T)) by (unfold q; rewrite length_app; simpl; lia).
  assert (HP : T ++ [u] `sublist_of` P).
  { unfold P. apply sublist_app; [done|]. by apply sublist_inserts_l. }
  assert (Hlen : length P = (length k1 + length k3 + 1)%nat) by (unfold P; rewrite !length_app; simpl; lia).
  pose proof (sublist_length _ _ HP) as Hlp. fold q in Hlp.
  assert (Hpre : forall p, (p < length P)%nat -> (k1 ++ k3 ++ u :: k4) !! p = P !! p).
  { intros p Hp. replace (k1 ++ k3 ++ u :: k4) with (P ++ k4) by (unfold P; by rewrite <- !app_assoc).
    by apply lookup_app_l. }
  exists (length P - q)%nat. split; [rewrite !length_app; simpl; lia|]. split.
  { rewrite window_lookup, Hpre by lia.
    replace (length P - q + length T)%nat with (length (k1 ++ k3)) by (rewrite length_app; lia).
    unfold P. rewrite app_assoc. by apply list_lookup_middle. }
  intros i x y Hx Hy. assert (Hi : (i < q)%nat) by (by apply lookup_lt_Some in Hx).
  destruct (sublist_position _ _ i x HP Hx) as (p & Hp & Hle). fold q in Hle.
  rewrite window_lookup in Hy by lia. rewrite <- Hpre in Hp by (by apply lookup_lt_Some in Hp).
  apply (sorted_lookup_le (prices (k1 ++ k3 ++ u :: k4)) p (length P - q + i)); [by apply sorted_prices|lia|..];
    unfold prices; rewrite list_lookup_fmap; [by rewrite Hp|by rewrite Hy].
Qed.

(** In a sorted list the spread is that of its ends. *)
Lemma spread_of_ends l c k lo hi : StronglySorted rle l -> Forall positive l -> positive c ->
  l !! 0%nat = Some lo -> l !! (length l - 1)%nat = Some hi -> within c k hi lo -> spread_within l c k.
Proof.
  intros Hs Hp Hc Hlo Hhi Hw x y Hx Hy. rewrite Forall_forall in Hp.
  pose proof (Hp x Hx). pose proof (Hp y Hy).
  assert (positive lo) by (apply Hp; by eapply list_elem_of_lookup_2).
  assert (positive hi) by (apply Hp; by eapply list_elem_of_lookup_2).
  apply list_elem_of_lookup in Hx as [i Hi], Hy as [j Hj].
  apply (within_right c Hc k x y lo); [done..|eapply (sorted_lookup_le l 0 j); [done|lia|done|done]|].
  apply (within_left c Hc k x hi lo); [done..| |done].
  eapply (sorted_lookup_le l i (length l - 1)); [done| |done|done]. apply lookup_lt_Some in Hi. lia.
Qed.

Lemma price_lookup (l : list Observation) i o : l !! i = Some o -> prices l !! i = Some (ob_Price o).
Proof. intros H. unfold prices. by rewrite list_lookup_fmap, H. Qed.

Lemma price_lookup_inv (l : list Observation) i x : prices l !! i = Some x -> exists o, l !! i = Some o /\ x = ob_Price o.
Proof. unfold prices. rewrite list_lookup_fmap. destruct (l !! i); [|done]. intros [= <-]. eauto. Qed.

Lemma length_prices (l : list Observation) : length (prices l) = length l.
Proof. apply length_fmap. Qed.

Lemma priced_prices (l : list Observation) : Forall priced l <-> Forall positive (prices l).
Proof. unfold prices. by rewrite Forall_fmap. Qed.

Lemma positive_prices l k : l `sublist_of` k -> Forall priced k -> Forall positive (prices l).
Proof.
  intros Hs Hk. apply Forall_fmap, Forall_forall. intros x Hx. rewrite Forall_forall in Hk. apply Hk.
  eapply elem_of_submseteq; [exact Hx|by apply sublist_submseteq].
Qed.

(** So a sub-list that agrees within [k] makes that window agree within [k]. *)
Lemma dominating_spread ordered T c k :
  StronglySorted (not_after price_less) ordered -> Forall priced ordered -> T <> [] -> 0 <= k ->
  T `sublist_of` ordered -> median (prices T) = Ok c -> spread_within (prices T) c k ->
  exists start c', (start + length T <= length ordered)%nat /\
    median (prices (window ordered start (length T))) = Ok c' /\
    spread_within (prices (window ordered start (length T))) c' k.
Proof.
  intros Hs Hp Hne Hk Hsub Hc Hw. destruct (exists_last Hne) as (T' & u & ->).
  destruct (dominating_window ordered T' u Hs Hsub) as (start & Hlen & Hlast & Hdom).
  remember (length (T' ++ [u])) as q eqn:Hq. remember (window ordered start q) as W eqn:HW.
  assert (HqT : length T' = (q - 1)%nat /\ (0 < q)%nat) by (rewrite Hq, length_app; simpl; lia).
  assert (HWs : W `sublist_of` ordered) by (subst W; etrans; [apply sublist_take|apply sublist_drop]).
  assert (HWl : length W = q) by (subst W; unfold window; rewrite length_take, length_drop; lia).
  pose proof (positive_prices _ _ HWs Hp) as HpW. pose proof (positive_prices _ _ Hsub Hp) as HpT.
  pose proof (sorted_prices _ (StronglySorted_sublist _ _ _ HWs Hs)) as HsW.
  pose proof (sorted_prices _ (StronglySorted_sublist _ _ _ Hsub Hs)) as HsT.
  destruct (median_eq (prices W)) as (c' & Hc' & _); [intros H%(f_equal length); rewrite length_prices in H; simpl in H; lia|done|].
  exists start, c'. rewrite <- HW. split; [done|]. split; [done|].
  pose proof (median_sorted _ _ HsT Hc) as HmT. pose proof (median_sorted _ _ HsW Hc') as HmW.
  rewrite length_prices in HmT, HmW. rewrite <- Hq in HmT. rewrite HWl in HmW.
  apply price_lookup_inv in HmT as (x & Hx & ->), HmW as (y & Hy & ->).
  pose proof (Hdom _ _ _ Hx Hy) as Hcc.
  destruct (lookup_lt_is_Some_2 (T' ++ [u]) 0) as [t0 Ht0]; [lia|].
  destruct (lookup_lt_is_Some_2 W 0) as [w0 Hw0]; [lia|].
  pose proof (Hdom _ _ _ Ht0 Hw0) as H0.
  assert (Hu : ob_Price u ∈ prices (T' ++ [u])) by (apply list_elem_of_fmap_2, elem_of_app; right; left).
  assert (Ht : ob_Price t0 ∈ prices (T' ++ [u])) by (eapply list_elem_of_lookup_2, price_lookup; done).
  assert (HwW : ob_Price w0 ∈ prices W) by (eapply list_elem_of_lookup_2, price_lookup; done).
  rewrite Forall_forall in HpT. pose proof (median_in _ _ Hc) as Hcin. pose proof (median_in _ _ Hc') as Hcin'.
  assert (HpW' : forall z, z ∈ prices W -> positive z) by (by apply Forall_forall).
  apply (spread_of_ends _ _ _ (ob_Price w0) (ob_Price u)); auto.
  - by apply price_lookup.
  - rewrite length_prices, HWl. apply price_lookup. destruct HqT as [<- _]. done.
  - apply (within_right _ (HpW' _ Hcin') k _ _ (ob_Price t0)); auto.
    apply (within_center (ob_Price x)); auto.
Qed.

(** Every spread among these observations fits an [int64]. *)
Definition comparable (obs : list Observation) : Prop :=
  forall c x y, c ∈ prices obs -> x ∈ prices obs -> y ∈ prices obs -> within c max_int64 x y.

Lemma comparable_ok obs sub maximum : comparable obs -> Forall positive (prices obs) -> 0 <= maximum <= 10000 ->
  sub <> [] -> sub ⊆+ obs ->
  exists c s, median (prices sub) = Ok c /\ price_spread sub maximum = Ok (s, s <=? maximum) /\
    forall k, s <= k <-> spread_within (prices sub) c k.
Proof.
  intros Hcmp Hp Hm Hne Hsub.
  assert (Hin : forall x, x ∈ prices sub -> x ∈ prices obs).
  { intros x (o & -> & Ho)%list_elem_of_fmap. apply list_elem_of_fmap_2. by eapply elem_of_submseteq. }
  assert (Hps : Forall positive (prices sub)).
  { rewrite Forall_forall in Hp |- *. auto. }
  destruct (price_spread_least sub maximum Hne Hps Hm) as (c & s & Hc & _ & Hk & Heq).
  exists c, s. split; [done|]. split; [|done]. rewrite Heq.
  assert (s <= max_int64) as Hs; [|apply Z.leb_le in Hs; by rewrite Hs].
  apply Hk. intros x y Hx Hy. apply Hcmp; [|auto..]. by apply Hin, median_in.
Qed.

Lemma windows_comparable obs q maximum :
  let ordered := sort_by price_less obs in
  comparable obs -> Forall positive (prices obs) -> 0 <= maximum <= 10000 -> (0 < q)%nat ->
  forall start, start ∈ seq 0 (length ordered + 1 - q) -> exists c s,
    median (prices (window ordered start q)) = Ok c /\
    window_spread ordered q maximum start = Ok (s, s <=? maximum) /\
    length (window ordered start q) = q /\ forall k, s <= k <-> spread_within (prices (window ordered start q)) c k.
Proof.
  intros ordered Hcmp Hpos Hm Hq start Hin%elem_of_seq.
  assert (Hlw : length (window ordered start q) = q) by (unfold window; rewrite length_take, length_drop; lia).
  destruct (comparable_ok obs (window ordered start q) maximum Hcmp Hpos) as (c2 & s2 & ? & ? & ?);
    [lia|intros H; rewrite H in Hlw; simpl in Hlw; lia| |by exists c2, s2].
  rewrite (sort_by_perm price_less obs). fold ordered. unfold window.
  etrans; apply sublist_submseteq; [apply sublist_take|apply sublist_drop].
Qed.

(** A divergent provider cannot veto agreeing ones: when every spread can be
    expressed, any quorum of received observations that agrees within [k] basis
    points of its median (no more than the policy's) makes the selection
    succeed, with all observations if they all agree, and otherwise with a
    quorum that agrees at least as tightly as the given one. *)
Theorem selectAgreeingObservations_tightest obs quorum maximum sub c k :
  comparable obs -> Forall lowest (prices obs) -> 2 <= quorum ->
  sub ⊆+ obs -> Z.of_nat (length sub) = quorum -> median (prices sub) = Ok c ->
  spread_within (prices sub) c k -> 0 <= k <= maximum -> maximum <= 10000 ->
  exists selected c', selectAgreeingObservations obs quorum maximum = Ok selected /\
    median (prices selected) = Ok c' /\
    ((selected = obs /\ spread_within (prices obs) c' maximum) \/
     (Z.of_nat (length selected) = quorum /\ spread_within (prices selected) c' k)).
Proof.
  intros Hcmp Hlow Hq Hsub Hlen Hc Hw Hk Hm.
  assert (Hpos : Forall positive (prices obs)) by (eapply Forall_impl; [exact Hlow|by intros ? []]).
  pose proof (submseteq_length _ _ Hsub) as Hll. unfold selectAgreeingObservations.
  replace (_ || _) with false by lia.
  destruct (comparable_ok obs obs maximum Hcmp Hpos) as (c0 & s0 & Hc0 & Hs0 & Hk0);
    [lia|destruct obs; simpl in *; [lia|done]|done|].
  rewrite Hs0. destruct (s0 <=? maximum) eqn:E0; bool_hyp.
  { exists obs, c0. split; [done|]. split; [done|]. left. split; [done|]. by apply Hk0. }
  set (ordered := sort_by price_less obs). assert (Hperm : Permutation obs ordered) by apply sort_by_perm.
  assert (Hpo : Forall priced obs) by by apply priced_prices.
  pose proof (observation_sort_sorted obs Hpo) as Hsorted. rewrite Hperm in Hpo. fold ordered in Hsorted.
  rewrite Hperm in Hsub. apply submseteq_sublist_r in Hsub as (T & HpT & HsT).
  assert (HcT : median (prices T) = Ok c).
  { rewrite <- Hc. symmetry. apply median_perm; [unfold prices; by rewrite HpT|]. rewrite Forall_forall in Hlow |- *.
    intros x (o & -> & Ho)%list_elem_of_fmap. apply Hlow, list_elem_of_fmap_2. rewrite HpT, Hperm in *.
    eapply elem_of_submseteq; [done|by apply sublist_submseteq]. }
  assert (HwT : spread_within (prices T) c k).
  { intros x y (o & -> & Ho)%list_elem_of_fmap (o' & -> & Ho')%list_elem_of_fmap.
    rewrite <- HpT in Ho, Ho'. apply Hw; by apply list_elem_of_fmap_2. }
  assert (HlT : length T = Z.to_nat quorum) by (rewrite <- HpT; lia).
  destruct (dominating_spread ordered T c k Hsorted Hpo) as (st & c1 & Hst & Hc1 & Hw1);
    [intros ->; simpl in HlT; lia|lia|done..|].
  rewrite HlT in Hst, Hc1, Hw1. set (q := Z.to_nat quorum) in *.
  pose proof (windows_comparable obs q maximum Hcmp Hpos ltac:(lia) ltac:(lia)) as Hwin. fold ordered in Hwin.
  pose proof (best_window_total ordered q maximum (seq 0 (length ordered + 1 - q)) None) as Htot.
  destruct (best_window ordered q maximum (seq 0 (length ordered + 1 - q)) None) as [r|] eqn:Eb; cycle 1.
  { exfalso. discriminate Htot. intros start Hin. destruct (Hwin start Hin) as (? & ? & _ & -> & _). done. }
  apply best_window_spec in Eb as (H1 & _ & H3).
  destruct (Hwin st) as (c2 & s2 & Hc2 & Hs2 & _ & Hk2); [apply elem_of_seq; lia|].
  rewrite Hc1 in Hc2. injection Hc2 as <-. apply Hk2 in Hw1. replace (s2 <=? maximum) with true in Hs2 by lia.
  destruct (H3 st s2) as (b & t & -> & Ht); [apply elem_of_seq; lia|done|].
  destruct H1 as [H1|(start & s & Hin & Hsp & [= -> ->])]; [done|].
  destruct (Hwin start Hin) as (c3 & s3 & Hc3 & Hs3 & Hl3 & Hk3). rewrite Hsp in Hs3. injection Hs3 as -> _.
  exists (window ordered start q), c3. split; [done|]. split; [done|]. right. split; [lia|]. apply Hk3. lia.
Qed.

Definition sample_observation (key : string) (price : Rational) (observed : Time) : Observation :=
  mkObservation ("id-" +:+ key) "" "btc-usd" key key "" "BTC" "USD" price observed observed "" "" 1.

Definition sample_prices : list Observation :=
  [sample_observation "a" (mkRational 100 1) 0; sample_observation "b" (mkRational 200 1) 0;
   sample_observation "c" (mkRational 101 1) 0].

Ltac split_elem := repeat match goal with
  | H : _ ∈ _ :: _ |- _ => apply elem_of_cons in H as [H|H]
  | H : _ ∈ [] |- _ => by apply elem_of_nil in H
  end.

Lemma selectAgreeingObservations_agree_witness :
  exists c, median [mkRational 100 1; mkRational 101 1] = Ok c /\
            spread_within [mkRational 100 1; mkRational 101 1] c 200.
Proof.
  destruct (selectAgreeingObservations_agree sample_prices 2 200
    [sample_observation "a" (mkRational 100 1) 0; sample_observation "c" (mkRational 101 1) 0])
    as (_ & _ & _ & c & Hc & _ & Hw); [vm_compute; reflexivity|]. by exists c.
Defined.

Lemma selectAgreeingObservations_tightest_witness :
  exists selected c', selectAgreeingObservations sample_prices 2 200 = Ok selected /\
    median (prices selected) = Ok c' /\
    ((selected = sample_prices /\ spread_within (prices sample_prices) c' 200) \/
     (Z.of_nat (length selected) = 2 /\ spread_within (prices selected) c' 100)).
Proof.
  apply (selectAgreeingObservations_tightest sample_prices 2 200
    [sample_observation "a" (mkRational 100 1) 0; sample_observation "c" (mkRational 101 1) 0]
    (mkRational 100 1) 100); try lia.
  - intros c x y Hc Hx Hy. cbn in Hc, Hx, Hy. split_elem; subst; vm_compute; congruence.
  - cbn. repeat constructor; vm_compute; congruence.
  - do 2 constructor. by constructor.
  - reflexivity.
  - vm_compute. reflexivity.
  - intros x y Hx Hy. cbn in Hx, Hy. split_elem; subst; vm_compute; congruence.
Defined.

(** The limit of that guarantee: when the spread of all the observations
    exceeds an [int64] of basis points, the selection stops at the first check
    with the divergence error and no quorum is looked for, so one provider that
    is off by a large enough factor does veto the ones that agree. *)
Theorem outlier_vetoes_quorum obs quorum maximum c :
  2 <= quorum <= Z.of_nat (length obs) -> 0 <= maximum <= 10000 -> median (prices obs) = Ok c ->
  ~ spread_within (prices obs) c max_int64 ->
  selectAgreeingObservations obs quorum maximum = Err (Sentinel ErrDivergent).
Proof.
  intros Hq Hm Hc Hw. unfold selectAgreeingObservations. replace (_ || _) with false by lia.
  destruct (price_spread_least obs maximum) as (c' & s & Hc' & _ & Hk & ->);
    [destruct obs; simpl in *; [lia|done]|by eapply median_positive|done|].
  rewrite Hc in Hc'. injection Hc' as <-.
  destruct (s <=? max_int64) eqn:E; [|done]. bool_hyp. apply Hk in E. done.
Qed.

Definition vetoed_prices : list Observation :=
  [sample_observation "a" (mkRational 100 1) 0; sample_observation "b" (mkRational 100 1) 0;
   sample_observation "c" (mkRational (10 ^ 18) 1) 0].

Lemma outlier_vetoes_quorum_witness :
  price_spread (take 2 vetoed_prices) 50 = Ok (0, true) /\
  selectAgreeingObservations vetoed_prices 2 50 = Err (Sentinel ErrDivergent).
Proof.
  split; [vm_compute; reflexivity|].
  apply (outlier_vetoes_quorum vetoed_prices 2 50 (mkRational 100 1)); [cbn; lia|lia|vm_compute; reflexivity|].
  intros H. specialize (H (mkRational (10 ^ 18) 1) (mkRational 100 1)).
  vm_compute in H. apply H; [right; right; left|left|done].
Defined.

(** ** The order of arrival does not matter *)

Lemma source_less_spec a b : source_less a b = true <->
  str_less (ob_SourceKey a) (ob_SourceKey b) = true \/
  (ob_SourceKey a = ob_SourceKey b /\ str_less (ob_ID a) (ob_ID b) = true).
Proof. unfold source_less. rewrite orb_true_iff, andb_true_iff, String.eqb_eq. done. Qed.

Lemma source_less_asym a b : source_less a b = true -> source_less b a = false.
Proof.
  intros H. apply not_true_iff_false. intros H'. apply source_less_spec in H, H'.
  destruct H as [H|[He H]], H' as [H'|[He' H']].
  - apply str_less_asym in H. congruence.
  - rewrite He', str_less_irrefl in H. done.
  - rewrite He, str_less_irrefl in H'. done.
  - apply str_less_asym in H. congruence.
Qed.

Lemma source_less_cotrans a b c : source_less a c = true -> source_less a b = true \/ source_less b c = true.
Proof.
  rewrite !source_less_spec. intros [H|[He H]].
  - destruct (str_less_cotrans _ (ob_SourceKey b) _ H); auto.
  - destruct (str_less_total (ob_SourceKey a) (ob_SourceKey b)) as [?|[?|Hab]]; [auto|right; left; congruence|].
    destruct (str_less_cotrans _ (ob_ID b) _ H); [auto|]. right; right. split; [congruence|done].
Qed.

Lemma sink_perm x prefix : Permutation (sink x prefix) (x :: prefix).
Proof.
  induction prefix as [|y r IH]; simpl; [done|]. destruct (source_less x y); [|done].
  rewrite IH. apply perm_swap.
Qed.

Lemma sink_sorted x prefix : StronglySorted (fun a b => not_after source_less b a) prefix ->
  StronglySorted (fun a b => not_after source_less b a) (sink x prefix).
Proof.
  induction 1 as [|y r Hs IH Hall]; simpl; [by repeat constructor|]. destruct (source_less x y) eqn:E.
  - constructor; [done|]. rewrite sink_perm. constructor; [by apply source_less_asym|done].
  - constructor; [by constructor|]. constructor; [done|]. eapply Forall_impl; [exact Hall|].
    intros z Hz. unfold not_after in *. destruct (source_less x z) eqn:Ez; [|done].
    destruct (source_less_cotrans x y z Ez); congruence.
Qed.

Lemma StronglySorted_rev {A} (R : A -> A -> Prop) (l : list A) :
  StronglySorted (fun a b => R b a) l -> StronglySorted R (rev l).
Proof.
  induction 1 as [|x r Hs IH Hall]; simpl; [constructor|].
  assert (Happ : forall k : list A, StronglySorted R k -> Forall (fun y => R y x) k -> StronglySorted R (k ++ [x])).
  { intros k Hk. induction Hk as [|y k Hk IHk Hy]; intros Hf; simpl; [by repeat constructor|].
    apply Forall_cons in Hf as [Hyx Hf]. constructor; [auto|]. apply Forall_app. split; [done|by repeat constructor]. }
  apply Happ; [done|]. rewrite <- Permutation_rev. done.
Qed.

Lemma sortObservations_spec values :
  Permutation (sortObservations values) values /\ StronglySorted (not_after source_less) (sortObservations values).
Proof.
  unfold sortObservations.
  assert (H : forall prefix, StronglySorted (fun a b => not_after source_less b a) prefix ->
    let r := fold_left (fun prefix x => sink x prefix) values prefix in
    Permutation r (values ++ prefix) /\ StronglySorted (fun a b => not_after source_less b a) r).
  { induction values as [|x values IH]; intros prefix Hs; simpl; [done|].
    destruct (IH (sink x prefix) (sink_sorted _ _ Hs)) as [Hp HS]. split; [|done].
    rewrite Hp, sink_perm. symmetry. apply Permutation_middle. }
  destruct (H [] ltac:(constructor)) as [Hp Hs]. rewrite app_nil_r in Hp. split.
  - by rewrite <- Permutation_rev.
  - by apply StronglySorted_rev.
Qed.

Section permuted.
Context (obs obs' : list Observation) (Hperm : Permutation obs obs').
Context (Hkeys : NoDup (ob_SourceKey <$> obs)) (Hlow : Forall lowest (prices obs)).

Lemma permuted_positive : Forall positive (prices obs).
Proof. eapply Forall_impl; [exact Hlow|by intros ? []]. Qed.

Lemma key_apart x y : x ∈ obs -> y ∈ obs -> ob_SourceKey x = ob_SourceKey y -> x = y.
Proof. apply NoDup_fmap_inj_on, Hkeys. Qed.

Lemma price_spread_perm maximum : price_spread obs maximum = price_spread obs' maximum.
Proof.
  assert (Hpp : Permutation (prices obs) (prices obs')) by (unfold prices; by rewrite Hperm).
  pose proof (median_perm _ _ Hpp Hlow) as Hmed. pose proof permuted_positive as Hpos.
  destruct (decide (0 <= maximum <= 10000)) as [Hm|Hm].
  - destruct (decide (obs = [])) as [He|He].
    { rewrite He in Hperm. apply Permutation_nil in Hperm. by rewrite He, Hperm. }
    destruct (price_spread_least obs maximum He Hpos Hm) as (c & s & Hc & _ & Hk & ->).
    destruct (price_spread_least obs' maximum) as (c' & s' & Hc' & _ & Hk' & ->); [|by rewrite <- Hpp|done|].
    { intros He'. rewrite He' in Hperm. by apply Permutation_sym, Permutation_nil in Hperm. }
    rewrite <- Hmed, Hc in Hc'. injection Hc' as <-.
    assert (Hiff : forall k, spread_within (prices obs) c k <-> spread_within (prices obs') c k).
    { intros k. unfold spread_within. by setoid_rewrite Hpp. }
    assert (s = s') as ->; [|done].
    apply Z.le_antisymm; [apply Hk, Hiff, Hk'; lia|apply Hk', Hiff, Hk; lia].
  - assert (Hbad : forall o, price_spread o maximum = match median (prices o) with Ok _ => Err (Sentinel ErrInvalidConfig) | Err e => Err e end).
    { intros o. unfold price_spread. fold (prices o). destruct (median (prices o)) as [c|]; [|done].
      unfold spreadBPS. destruct (prices o); [done|]. by replace (_ || _) with true by lia. }
    by rewrite !Hbad, Hmed.
Qed.

Lemma price_order_perm : sort_by price_less obs = sort_by price_less obs'.
Proof.
  assert (Hp : Forall priced obs) by (apply priced_prices, permuted_positive).
  apply (sorted_unique price_less); [|by apply observation_sort_sorted| |by rewrite <- !sort_by_perm].
  - intros x y Hx%sort_by_In%list_elem_of_In Hy%sort_by_In%list_elem_of_In. rewrite !price_less_spec.
    destruct (rle_dec (ob_Price y) (ob_Price x)); [|auto]. destruct (rle_dec (ob_Price x) (ob_Price y)); [|auto].
    destruct (str_less_total (ob_SourceKey x) (ob_SourceKey y)) as [?|[?|Heq]]; [tauto..|].
    right; right. by apply key_apart.
  - apply observation_sort_sorted. by rewrite <- Hperm.
Qed.

Lemma source_order_perm : sortObservations obs = sortObservations obs'.
Proof.
  destruct (sortObservations_spec obs) as [Hp1 Hs1], (sortObservations_spec obs') as [Hp2 Hs2].
  apply (sorted_unique source_less); [|done|done|by rewrite Hp1, Hp2].
  intros x y Hx%list_elem_of_In Hy%list_elem_of_In. rewrite Hp1 in Hx, Hy. rewrite !source_less_spec.
  destruct (str_less_total (ob_SourceKey x) (ob_SourceKey y)) as [?|[?|Heq]]; [auto..|].
  right; right. by apply key_apart.
Qed.
End permuted.

(** The observations that are kept, in their canonical order, do not depend
    on the order in which the providers answered. *)
Theorem selectAgreeingObservations_order_independent obs obs' quorum maximum :
  Permutation obs obs' -> NoDup (ob_SourceKey <$> obs) -> Forall lowest (prices obs) ->
  sortObservations <$> selectAgreeingObservations obs quorum maximum =
  sortObservations <$> selectAgreeingObservations obs' quorum maximum.
Proof.
  intros Hp Hk Hl. unfold selectAgreeingObservations.
  rewrite <- (price_spread_perm obs obs' Hp Hl), <- (price_order_perm obs obs' Hp Hk Hl), <- Hp.
  destruct (_ || _); [done|]. destruct (price_spread obs maximum) as [[s []]|]; [|done|done].
  cbn. f_equal. by apply source_order_perm.
Qed.

Lemma selectAgreeingObservations_order_independent_witness :
  sortObservations <$> selectAgreeingObservations sample_prices 2 200 =
  sortObservations <$> selectAgreeingObservations (rev sample_prices) 2 200.
Proof.
  apply selectAgreeingObservations_order_independent.
  - apply Permutation_rev.
  - apply (bool_decide_unpack _). vm_compute. exact I.
  - cbn. repeat constructor; vm_compute; congruence.
Defined.

(** ** Reading prices *)

Lemma canonicalPositiveInteger_value s :
  canonicalPositiveInteger s = true -> canonical_uint s = true /\ 0 < dec_value 0 s.
Proof.
  destruct s as [|c r]; [done|]. unfold canonicalPositiveInteger, byte_at. intros H. bool_hyp.
  simpl in *. bool_hyp. replace (code c =? 48) with false by lia. split; [by apply andb_true_iff|].
  rewrite dec_value_shift. pose proof (dec_value_bound r ltac:(done)).
  pose proof (Z.pow_pos_nonneg 10 (len r) ltac:(lia) ltac:(unfold len; lia)).
  match goal with Hd : is_digit c = true |- _ => unfold is_digit in Hd end. bool_hyp. nia.
Qed.

(** A price is read exactly or not at all: it is accepted iff both parts are
    canonical positive decimals and the reduced fraction fits 256 bits, and it
    is then the fraction in lowest terms with the value that was written. *)
Theorem NewRational_exact numerator denominator r :
  NewRational numerator denominator = Ok r <->
  canonicalPositiveInteger numerator = true /\ canonicalPositiveInteger denominator = true /\ lowest r /\
  Numerator r * dec_value 0 denominator = dec_value 0 numerator * Denominator r /\
  Numerator r < amount_limit /\ Denominator r < amount_limit.
Proof.
  unfold NewRational. destruct (canonicalPositiveInteger numerator) eqn:En; [|by split; [|intros (? & _)]].
  destruct (canonicalPositiveInteger denominator) eqn:Ed; [|by split; [|intros (_ & ? & _)]]. cbn [negb orb].
  apply canonicalPositiveInteger_value in En as [_ Hn], Ed as [_ Hd].
  set (n := dec_value 0 numerator) in *. set (d := dec_value 0 denominator) in *.
  replace ((n <=? 0) || (d <=? 0)) with false by lia. unfold normalizeBig.
  replace ((n <=? 0) || (d <=? 0)) with false by lia. cbn zeta.
  set (g := Z.gcd n d).
  assert (Hg : 0 < g) by (pose proof (Z.gcd_nonneg n d); assert (g <> 0) by (unfold g; intros ?%Z.gcd_eq_0; lia); unfold g in *; lia).
  destruct (Z.gcd_divide_l n d) as [n' Hn'], (Z.gcd_divide_r n d) as [d' Hd']. fold g in Hn', Hd'.
  replace (Z.quot n g) with n' by (rewrite Hn', Z.quot_mul; lia).
  replace (Z.quot d g) with d' by (rewrite Hd', Z.quot_mul; lia).
  assert (Hpos : 0 < n' /\ 0 < d') by nia.
  assert (Hlow : lowest (mkRational n' d')).
  { split; [done|]. simpl. pose proof (Z.gcd_div_gcd n d g ltac:(lia) eq_refl) as Hdiv.
    replace (n / g) with n' in Hdiv by (rewrite Hn' at 1; rewrite Z.div_mul; lia).
    by replace (d / g) with d' in Hdiv by (rewrite Hd' at 1; rewrite Z.div_mul; lia). }
  cbn [Numerator Denominator]. rewrite !BitLen_gt_256 by lia. split.
  - destruct (_ || _) eqn:E; [done|]. bool_hyp. intros [= <-]. cbn. do 3 (split; [done|]). split; [nia|lia].
  - intros (_ & _ & Hr & Heq & Hb1 & Hb2). assert (r = mkRational n' d') as ->.
    { apply lowest_antisym; [done|done|..]; unfold rle; cbn; destruct Hr as [[? ?] _]; nia. }
    cbn in *. by replace (_ || _) with false by lia.
Qed.

(** ** The admission of a tick *)

Section admission.
Context (sha256 : string -> string).

(** What an observation was made from. *)
Definition observed_from (config : RuntimeConfig) (now : Time) (oc : outcome) (o : Observation) : Prop :=
  exists r, oc_result oc = Ok r /\ ob_SourceKey o = sr_Key (oc_config oc) /\
    ob_ProviderObservedAt o = pr_ObservedAt r /\
    NewRational (pr_PriceNumerator r) (pr_PriceDenominator r) = Ok (ob_Price o) /\
    now - Z.min (pl_MaxAge (rc_Policy config)) (sr_MaxAge (oc_config oc)) <= ob_ProviderObservedAt o
      <= now + pl_FutureTolerance (rc_Policy config).

Lemma gather_spec config now newID outcomes : forall n m obs,
  gather sha256 config now newID n outcomes = Ok (m, obs) ->
  (ob_SourceKey <$> obs) `sublist_of` ((fun oc => sr_Key (oc_config oc)) <$> outcomes) /\
  forall o, o ∈ obs -> exists oc, oc ∈ outcomes /\ observed_from config now oc o.
Proof.
  induction outcomes as [|oc outcomes IH]; intros n m obs H; cbn [gather] in H.
  { injection H as <- <-. split; [done|]. intros o Ho. by apply elem_of_nil in Ho. }
  destruct (admitted_price config now oc) as [[r price]|] eqn:Ea.
  - destruct (newID n) as [id|]; [|done]. destruct (gather _ _ _ _ _ _) as [[m' obs']|] eqn:Eg; [|done].
    injection H as -> <-. destruct (IH _ _ _ Eg) as [Hs Ho]. split; [rewrite !fmap_cons; by apply sublist_skip|].
    intros o [->|Hin]%elem_of_cons.
    + exists oc. split; [left|]. unfold admitted_price in Ea. destruct (oc_result oc) as [r'|] eqn:Er; [|done].
      unfold After, Before, AddTime in Ea. cbn zeta in Ea. run_ok Ea. injection Ea as -> ->. bool_hyp.
      exists r. split; [done|]. cbn. split; [done|]. split; [done|]. split; [done|]. lia.
    + destruct (Ho o Hin) as (oc' & Hoc & ?). exists oc'. split; [by right|done].
  - destruct (IH _ _ _ H) as [Hs Ho]. split; [rewrite !fmap_cons; by apply sublist_cons|].
    intros o Hin. destruct (Ho o Hin) as (oc' & Hoc & ?). exists oc'. split; [by right|done].
Qed.

Lemma tick_times_spec config obs : forall a b,
  let r := fold_left (fun acc o =>
    (if Before (ob_ProviderObservedAt o) (fst acc) then ob_ProviderObservedAt o else fst acc,
     if Before (expiry config o) (snd acc) then expiry config o else snd acc)) obs (a, b) in
  fst r <= a /\ snd r <= b /\ (fst r = a \/ fst r ∈ ob_ProviderObservedAt <$> obs) /\
  (snd r = b \/ snd r ∈ expiry config <$> obs) /\
  forall o, o ∈ obs -> fst r <= ob_ProviderObservedAt o /\ snd r <= expiry config o.
Proof.
  induction obs as [|o obs IH]; intros a b; cbn [fold_left fst snd].
  { do 2 (split; [lia|]). do 2 (split; [by left|]). intros o Ho. by apply elem_of_nil in Ho. }
  unfold Before. set (a' := if _ <? a then _ else a). set (b' := if _ <? b then _ else b).
  assert (Ha : a' <= a /\ a' <= ob_ProviderObservedAt o /\ (a' = a \/ a' = ob_ProviderObservedAt o))
    by (unfold a'; destruct (Z.ltb_spec (ob_ProviderObservedAt o) a); lia).
  assert (Hb : b' <= b /\ b' <= expiry config o /\ (b' = b \/ b' = expiry config o))
    by (unfold b'; destruct (Z.ltb_spec (expiry config o) b); lia).
  specialize (IH a' b'). unfold Before in IH. cbn [fst snd] in IH. destruct IH as (H1 & H2 & H3 & H4 & H5).
  rewrite !fmap_cons. split; [lia|]. split; [lia|].
  split; [destruct H3 as [->|]; [destruct Ha as (_ & _ & [->| ->]); [by left|right; left]|right; by right]|].
  split; [destruct H4 as [->|]; [destruct Hb as (_ & _ & [->| ->]); [by left|right; left]|right; by right]|].
  intros x [->|Hx]%elem_of_cons; [lia|auto].
Qed.

Lemma sourceMaxAge_of config src :
  NoDup (sr_Key <$> rc_Sources config) -> src ∈ rc_Sources config -> sourceMaxAge config (sr_Key src) = sr_MaxAge src.
Proof.
  intros Hnd Hin. unfold sourceMaxAge.
  destruct (List.find _ (rc_Sources config)) as [src'|] eqn:E.
  - apply find_some in E as [Hin'%list_elem_of_In Heq]. bool_hyp. f_equal.
    by eapply (NoDup_fmap_inj_on sr_Key (rc_Sources config)).
  - exfalso. eapply find_none in E; [|by apply list_elem_of_In]. by rewrite String.eqb_refl in E.
Qed.

(** The successful path of [collect], up to the selection of the observations. *)
Lemma collect_path now newID claim config outcomes col :
  collect sha256 now newID claim config outcomes = Ok col ->
  exists n gathered selected first rest spread tickID,
    gather sha256 config now newID 0 outcomes = Ok (n, gathered) /\
    selectAgreeingObservations gathered (pl_Quorum (rc_Policy config)) (pl_MaxSpreadBPS (rc_Policy config)) = Ok selected /\
    sortObservations selected = first :: rest /\ newID n = Ok tickID /\
    cn_Claim col = claim /\ cn_Config col = config /\ cn_Observations col = sortObservations selected /\
    median (prices (cn_Observations col)) = Ok (tk_Price (cn_Tick col)) /\
    spreadBPS (prices (cn_Observations col)) (tk_Price (cn_Tick col)) (pl_MaxSpreadBPS (rc_Policy config)) = Ok (spread, true) /\
    tk_SpreadBPS (cn_Tick col) = spread /\ tk_AdmittedAt (cn_Tick col) = now /\
    (tk_ObservedAt (cn_Tick col), tk_ExpiresAt (cn_Tick col)) = tick_times config first (cn_Observations col) /\
    tk_SourceCount (cn_Tick col) = Z.of_nat (length (cn_Observations col)).
Proof.
  unfold collect. destruct (gather _ _ _ _ _ _) as [[n gathered]|]; [|done].
  destruct (_ <? _); [done|].
  destruct (selectAgreeingObservations _ _ _) as [selected|] eqn:Es; [|done]. cbn zeta.
  destruct (sortObservations selected) as [|first rest] eqn:Eo; [done|].
  destruct (tick_times config first (first :: rest)) as [old ex] eqn:Et. fold (prices (first :: rest)).
  destruct (median (prices (first :: rest))) as [center|] eqn:Em; [|done].
  destruct (spreadBPS _ center _) as [[spread []]|] eqn:Eb; [| done|done]. cbn [negb].
  destruct (newID n) as [tickID|] eqn:Ei; [|done]. intros [= <-]. cbn [cn_Claim cn_Config cn_Observations cn_Tick].
  exists n, gathered, selected, first, rest, spread, tickID. cbn. by rewrite Eo.
Qed.

(** A price is admitted only from a quorum of distinct sources: every
    observation of the tick came from a configured source, was fresh and not
    from the future when received, the tick's price is one of the observed
    prices and all of them lie within the policy's spread of it, the tick is as
    old as its oldest observation, and it expires when the first of its
    observations goes stale, which is never before it was admitted. *)
Theorem collect_admits now newID claim config outcomes col :
  Permutation (oc_config <$> outcomes) (rc_Sources config) -> NoDup (sr_Key <$> rc_Sources config) ->
  collect sha256 now newID claim config outcomes = Ok col ->
  let obs := cn_Observations col in let tick := cn_Tick col in
  2 <= pl_Quorum (rc_Policy config) <= Z.of_nat (length obs) /\ NoDup (ob_SourceKey <$> obs) /\
  (forall o, o ∈ obs -> exists oc, oc ∈ outcomes /\ observed_from config now oc o) /\
  tk_Price tick ∈ prices obs /\
  spread_within (prices obs) (tk_Price tick) (pl_MaxSpreadBPS (rc_Policy config)) /\
  tk_ObservedAt tick ∈ ob_ProviderObservedAt <$> obs /\ tk_ExpiresAt tick ∈ expiry config <$> obs /\
  (forall o, o ∈ obs -> tk_ObservedAt tick <= ob_ProviderObservedAt o /\ tk_ExpiresAt tick <= expiry config o) /\
  now <= tk_ExpiresAt tick.
Proof.
  intros Hsrc Hnd H obs tick.
  destruct (collect_path _ _ _ _ _ _ H)
    as (n & gathered & selected & first & rest & spread & tickID & Hg & Hs & Ho & _ & _ & _ & Hobs & Hm & Hb & _ & _ & Ht & _).
  fold obs in Hobs, Hm, Hb, Ht. fold tick in Hm, Hb, Ht. destruct (gather_spec _ _ _ _ _ _ _ Hg) as [Hkeys Hfrom].
  destruct (sortObservations_spec selected) as [Hperm _]. rewrite <- Hobs in Hperm.
  assert (Hsel : 2 <= pl_Quorum (rc_Policy config) <= Z.of_nat (length selected) /\ selected ⊆+ gathered)
    by (by apply selected_facts in Hs).
  destruct Hsel as [Hq Hsub].
  assert (Hin : forall o, o ∈ obs -> exists oc, oc ∈ outcomes /\ observed_from config now oc o).
  { intros o Hin. apply Hfrom. rewrite Hperm in Hin. by eapply elem_of_submseteq. }
  assert (Hkeyperm : Permutation ((fun oc => sr_Key (oc_config oc)) <$> outcomes) (sr_Key <$> rc_Sources config)).
  { rewrite <- Hsrc, <- list_fmap_compose. done. }
  assert (Hps : price_spread obs (pl_MaxSpreadBPS (rc_Policy config)) = Ok (spread, true)).
  { unfold price_spread. fold (prices obs). by rewrite Hm. }
  apply price_spread_ok in Hps as (c & Hc & _ & _ & Ha & Hk). rewrite Hm in Hc. injection Hc as <-.
  destruct (tick_times_spec config obs (ob_ProviderObservedAt first) (expiry config first)) as (_ & _ & Ht1 & Ht2 & Ht3).
  fold (tick_times config first obs) in Ht1, Ht2, Ht3. rewrite <- Ht in Ht1, Ht2, Ht3. cbn [fst snd] in Ht1, Ht2, Ht3.
  assert (Hfirst : first ∈ obs) by (rewrite Hobs, Ho; left).
  assert (Hexp : tk_ExpiresAt tick ∈ expiry config <$> obs) by (destruct Ht2 as [->|]; [by apply list_elem_of_fmap_2|done]).
  split; [rewrite Hperm; lia|]. split.
  { rewrite Hperm. apply submseteq_sublist_r in Hsub as (T & -> & HT).
    eapply sublist_NoDup; [|exact (fmap_sublist _ _ _ HT)].
    eapply sublist_NoDup; [|exact Hkeys]. by rewrite Hkeyperm. }
  split; [done|]. split; [by apply median_in|]. split; [apply Hk; lia|].
  split; [destruct Ht1 as [->|]; [by apply list_elem_of_fmap_2|done]|]. split; [done|]. split; [done|].
  apply list_elem_of_fmap in Hexp as (o & -> & Hoin). destruct (Hin o Hoin) as (oc & Hoc & r & _ & Hkey & _ & _ & Hage).
  unfold expiry, AddTime. rewrite Hkey, sourceMaxAge_of; [lia|done|].
  rewrite <- Hsrc. by apply list_elem_of_fmap_2.
Qed.
End admission.

Definition sample_source (key ref : string) : SourceConfig :=
  mkSource key ref "https://rates.example/v1" "BTC" "USD" "" (60 * Second) (5 * Second) 65536 "snap" 1.

Definition sample_config : RuntimeConfig :=
  mkConfig "" (mkPolicy "btc-usd" "BTC" "USD" ["a"; "b"; "c"] 2 (60 * Second) 100 (5 * Second) (15 * Second) "snap" 1 1)
    [sample_source "a" "provider/a"; sample_source "b" "provider/b"; sample_source "c" "provider/c"].

Definition sample_outcome (key ref price : string) (observed : Time) : outcome :=
  mkOutcome (sample_source key ref) (Ok (mkResult "BTC" "USD" price "1" observed "" "raw")).

Definition sample_outcomes (now : Time) : list outcome :=
  [sample_outcome "a" "provider/a" "65000" (now - 10 * Second); sample_outcome "b" "provider/b" "99000" now;
   sample_outcome "c" "provider/c" "65100" (now - 20 * Second)].

Definition sample_claim : Claim := mkClaim (mkTarget "" "btc-usd") 1 0.

Definition sample_id (n : nat) : result string string := Ok (dec_string (Z.of_nat n)).

Lemma collect_admits_witness :
  exists col, collect id (1000 * Second) sample_id sample_claim sample_config (sample_outcomes (1000 * Second)) = Ok col /\
    tk_Price (cn_Tick col) = mkRational 65000 1 /\ 1000 * Second <= tk_ExpiresAt (cn_Tick col).
Proof.
  destruct (collect id (1000 * Second) sample_id sample_claim sample_config (sample_outcomes (1000 * Second)))
    as [col|] eqn:E; [|vm_compute in E; discriminate E].
  exists col. split; [done|].
  destruct (collect_admits id (1000 * Second) sample_id sample_claim sample_config (sample_outcomes (1000 * Second)) col)
    as (_ & _ & _ & _ & _ & _ & _ & _ & Hx); [done|apply (bool_decide_unpack _); vm_compute; exact I|done|].
  split; [|done]. vm_compute in E. injection E as <-. reflexivity.
Defined.

(** ** The run of a target *)

Definition backoff (attempts : Z) : Duration := 2 ^ Z.min attempts 10 * Second.

(** What a run does to the store: it reports success exactly when it
    collected a tick under the loaded configuration and the store accepted its
    commit; whenever the claimed target produced no tick, the failure is recorded
    once, for that claim, with the code of the error, and the next attempt is
    due after a back-off of two to the number of attempts, at least one second
    and at most 1024. *)
Theorem RunTarget_effects sha256 w e target :
  let calls := fst (RunTarget sha256 w e target) in let r := snd (RunTarget sha256 w e target) in
  (r = Ok true <->
   exists claim config col, (RateWorker_Validate w && validTarget target) = true /\
     re_claim e = Ok (Some claim) /\ re_load e target = Ok config /\
     collect sha256 (re_now_collect e) (re_newID e) claim config (re_outcomes e config) = Ok col /\
     re_commit e col = None) /\
  (forall claim, (RateWorker_Validate w && validTarget target) = true -> re_claim e = Ok (Some claim) ->
     (forall config, re_load e target = Ok config ->
        is_ok (collect sha256 (re_now_collect e) (re_newID e) claim config (re_outcomes e config)) = false) ->
     exists err, calls = [CallFail (rw_Owner w) claim (errorCode err)
                            (re_now_fail e + backoff (cm_Attempts claim)) (rw_MaxAttempts w)] /\ is_ok r = false) /\
  forall attempts, 0 <= attempts -> Second <= backoff attempts <= 1024 * Second.
Proof.
  unfold RunTarget. split; [|split].
  - destruct (RateWorker_Validate w && validTarget target) eqn:Ev; cycle 1.
    { rewrite <- negb_andb, Ev. split; [done|]. by intros (? & ? & ? & ? & _). }
    rewrite <- negb_andb, Ev. cbn [negb].
    destruct (re_claim e) as [[claim|]|]; [|by split; [|intros (? & ? & ? & _ & ? & _)]..].
    destruct (re_load e target) as [config|]; [|by split; [|intros (? & ? & ? & _ & _ & ? & _)]].
    destruct (collect _ _ _ _ _ _) as [col|] eqn:Ec; cycle 1.
    { split; [done|]. intros (cl & cf & col & _ & [= <-] & [= <-] & Hc & _). congruence. }
    cbn zeta. destruct (re_commit e col) as [err|] eqn:Em; cycle 1.
    { split; [|done]. intros _. by exists claim, config, col. }
    split; [by destruct (_ || _)|]. intros (cl & cf & col' & _ & [= <-] & [= <-] & Hc & Hm). congruence.
  - intros claim Hv Hclaim Hno. rewrite <- negb_andb, Hv, Hclaim. cbn [negb].
    assert (Hback : AddTime (re_now_fail e) (Z.shiftl 1 (Z.min (cm_Attempts claim) 10) * Second)
                    = re_now_fail e + backoff (cm_Attempts claim)).
    { unfold AddTime, backoff. by rewrite Z.shiftl_1_l. }
    destruct (re_load e target) as [config|err]; [|exists err; cbn; by rewrite Hback].
    specialize (Hno config eq_refl). destruct (collect _ _ _ _ _ _) as [|err]; [done|]. exists err. cbn. by rewrite Hback.
  - intros attempts Ha. unfold backoff, Second.
    assert (1 <= 2 ^ Z.min attempts 10 <= 2 ^ 10); [|lia]. split; [|apply Z.pow_le_mono_r; lia].
    change 1 with (2 ^ 0). apply Z.pow_le_mono_r; lia.
Qed.

(** ** The loaded configuration *)

Section load.
Context (reader : snapshot_kind -> string -> result string Snapshot).
Context (decode_policy : string -> option policyPayload) (decode_source : string -> option sourcePayload).
Context (safeEndpoint : string -> bool).

Lemma keys_ok_NoDup keys : forall seen, keys_ok seen keys = true ->
  NoDup keys /\ (forall k, k ∈ keys -> ~ In k seen) /\ Forall (fun k => keyPattern k = true) keys.
Proof.
  induction keys as [|k keys IH]; intros seen H; cbn [keys_ok] in H.
  { split; [constructor|]. split; [|constructor]. intros k Hk. by apply elem_of_nil in Hk. }
  bool_hyp. destruct (IH (k :: seen)) as (Hnd & Hns & Hpat); [done|].
  assert (Hk : ~ In k seen) by (rewrite <- existsb_str_In; congruence). split; [|split].
  - constructor; [|done]. intros Hin. apply (Hns k Hin). by left.
  - intros x [->|Hx]%elem_of_cons; [done|]. intros Hs. apply (Hns x Hx). by right.
  - by constructor.
Qed.

(** The source of a key, as the policy requires it. *)
Definition source_ok (policy : PolicyConfig) (s : SourceConfig) : Prop :=
  sr_BaseAsset s = pl_BaseAsset policy /\ sr_QuoteAsset s = pl_QuoteAsset policy /\
  safeEndpoint (sr_Endpoint s) = true /\ Second <= sr_MaxAge s <= 3600 * Second /\
  100 * Millisecond <= sr_Timeout s <= 20 * Second /\ 256 <= sr_MaxResponseBytes s <= 1048576 /\ 1 <= sr_FenceToken s.

Lemma load_source_ok payload seen key src :
  load_source reader decode_source safeEndpoint payload seen key = Ok src ->
  sr_Key src = key /\ ~ In (sr_ProviderRef src) seen /\
  forall policy, pl_BaseAsset policy = pp_BaseAsset payload -> pl_QuoteAsset policy = pp_QuoteAsset payload ->
    source_ok policy src.
Proof.
  unfold load_source. cbn zeta. intros E. run_ok E; injection E as <-;
    unfold source_refused, out_of in *; bool_hyp;
    (split; [done|]); (split; [cbn; rewrite <- existsb_str_In; congruence|]);
    intros policy Hb Hq; unfold source_ok, Millisecond, Second in *;
    cbn [sr_BaseAsset sr_QuoteAsset sr_Endpoint sr_MaxAge sr_Timeout sr_MaxResponseBytes sr_FenceToken];
    change (Z.shiftl 1 20) with 1048576 in *; change (Z.shiftl 64 10) with 65536 in *;
    (split; [congruence|]); (split; [congruence|]); (split; [done|]); lia.
Qed.

Lemma load_sources_spec payload keys : forall seen sources,
  load_sources reader decode_source safeEndpoint payload seen keys = Ok sources ->
  sr_Key <$> sources = keys /\ NoDup (sr_ProviderRef <$> sources) /\
  (forall r, r ∈ sr_ProviderRef <$> sources -> ~ In r seen) /\
  forall policy, pl_BaseAsset policy = pp_BaseAsset payload -> pl_QuoteAsset policy = pp_QuoteAsset payload ->
    Forall (source_ok policy) sources.
Proof.
  induction keys as [|key keys IH]; intros seen sources H; cbn [load_sources] in H.
  { injection H as <-. split; [done|]. split; [constructor|]. split; [|by constructor].
    intros r Hr. by apply elem_of_nil in Hr. }
  destruct (load_source _ _ _ _ _ _) as [src|] eqn:E; [|done].
  destruct (load_sources _ _ _ _ _ _) as [srcs|] eqn:Es; [|done]. injection H as <-.
  destruct (IH _ _ Es) as (Hkeys & Hnd & Hns & Hok). destruct (load_source_ok _ _ _ _ E) as (Hk & Hp & Hs).
  rewrite !fmap_cons. split; [by rewrite Hkeys, Hk|]. split; [|split].
  - constructor; [|done]. intros Hin. apply (Hns _ Hin). by left.
  - intros r [->|Hr]%elem_of_cons; [done|]. intros Hin. apply (Hns r Hr). by right.
  - intros policy Hb Hq. constructor; [by apply Hs|by apply Hok].
Qed.

(** A configuration that is loaded is one the collector can rely on: at least
    two sources, all of the policy's pair, with distinct keys and distinct
    providers, a quorum between two and their number, and ages, time-outs,
    sizes, spread and polling interval inside their bounds. *)
Theorem Load_sound target config :
  Load reader decode_policy decode_source safeEndpoint target = Ok config ->
  let policy := rc_Policy config in
  rc_TenantID config = "" /\ pl_Key policy = tg_PolicyKey target /\
  2 <= pl_Quorum policy <= Z.of_nat (length (rc_Sources config)) /\ Z.of_nat (length (rc_Sources config)) <= 32 /\
  sr_Key <$> rc_Sources config = pl_SourceKeys policy /\ NoDup (pl_SourceKeys policy) /\
  NoDup (sr_ProviderRef <$> rc_Sources config) /\ Forall (source_ok policy) (rc_Sources config) /\
  pl_BaseAsset policy <> pl_QuoteAsset policy /\ Second <= pl_MaxAge policy <= 3600 * Second /\
  0 <= pl_MaxSpreadBPS policy <= 10000 /\ 0 <= pl_FutureTolerance policy <= 60 * Second /\
  Second <= pl_PollInterval policy <= 3600 * Second.
Proof.
  unfold Load. intros H. run_ok H. injection H as <-. cbn [rc_TenantID rc_Policy rc_Sources].
  match goal with Hs : load_sources _ _ _ _ _ _ = Ok _ |- _ => apply load_sources_spec in Hs as (Hk & Hnd & _ & Hok) end.
  match goal with Hv : negb (validTarget _) = false |- _ => unfold validTarget in Hv end.
  match goal with Hv : negb (keys_ok _ _) = false |- _ => apply negb_false_iff, keys_ok_NoDup in Hv as (Hkn & _ & _) end.
  unfold policy_refused, opt_out_of, out_of in *. bool_hyp.
  match goal with Hs : sr_Key <$> ?l = _ |- _ => assert (Hl : length l = length (pp_Sources p)) by (by rewrite <- Hs, length_fmap) end.
  split; [done|]. split; [done|]. cbn. rewrite Hl. unfold Second.
  split; [lia|]. split; [lia|]. split; [done|]. split; [done|]. split; [done|]. split; [by apply Hok|].
  split; [done|]. split; [lia|]. split; [lia|].
  split; [destruct (pp_FutureToleranceSeconds p); bool_hyp; cbn; lia|].
  destruct (pp_PollIntervalSeconds p); bool_hyp; cbn; lia.
Qed.
End load.

(** A loader over two snapshots, with a decoder that reads the fields off. *)
Definition sample_snapshot (payload : string) : Snapshot :=
  mkSnapshot "018f0000-0000-7000-8000-000000000001" 1 payload 1.

Definition sample_reader (kind : snapshot_kind) (key : string) : result string Snapshot :=
  Ok (sample_snapshot key).

Definition sample_decode_policy (payload : string) : option policyPayload :=
  Some (mkPolicyPayload "BTC" "USD" ["a"; "b"] 2 60 100 None None).

Definition sample_decode_source (payload : string) : option sourcePayload :=
  Some (mkSourcePayload ("provider/" +:+ payload) "https://rates.example/v1" "BTC" "USD" "" 60 0 0).

Lemma Load_sound_witness :
  exists config, Load sample_reader sample_decode_policy sample_decode_source (fun _ => true) (mkTarget "" "btc-usd") = Ok config /\
    NoDup (sr_ProviderRef <$> rc_Sources config) /\ 2 <= pl_Quorum (rc_Policy config).
Proof.
  destruct (Load sample_reader sample_decode_policy sample_decode_source (fun _ => true) (mkTarget "" "btc-usd"))
    as [config|] eqn:E; [|vm_compute in E; discriminate E].
  exists config. split; [done|].
  destruct (Load_sound sample_reader sample_decode_policy sample_decode_source (fun _ => true) (mkTarget "" "btc-usd") config E)
    as (_ & _ & Hq & _ & _ & _ & Hnd & _).
  split; [done|lia].
Defined.
