(* ===== verification/Custody.v ===== *)
(** * Custody: what internal/treasury and internal/refunds share

    The two custody workflows (treasury/model.go, refunds/model.go) declare the
    same addresses, statuses, approvals, authorization contexts and append-only
    commands; they are given once here, with the state of an aggregate as its
    repository keeps it and the balances its ledger postings add up to. *)

From Stdlib Require Import ZArith Lia Ascii String.
From stdpp Require Import base list strings.
From S2P Require Import Prelude Text Money.

Inductive custody_sentinel :=
| CuErrValidation | CuErrForbidden | CuErrStateConflict | CuErrVersionConflict | CuErrIdempotencyConflict
| CuErrPolicyLimit | CuErrDestinationDenied | CuErrDestinationUnverified | CuErrInsufficientRefundable.

#[export] Instance custody_sentinel_eq_dec : EqDecision custody_sentinel.
Proof. solve_decision. Defined.

Definition custody_error := goerr custody_sentinel.

Record Address := mkAddress { ad_Chain : string; ad_Value : string }.

Definition address_eqb (a b : Address) : bool := (ad_Chain a == ad_Chain b) && (ad_Value a == ad_Value b).

Lemma address_eqb_eq a b : address_eqb a b = true <-> a = b.
Proof.
  unfold address_eqb. rewrite andb_true_iff, !String.eqb_eq. destruct a, b; simpl.
  split; [intros [-> ->]; done|by intros [= -> ->]].
Qed.

Definition Address_Validate (a : Address) : bool :=
  negb ((TrimSpace (ad_Chain a) == "") || (TrimSpace (ad_Value a) == "") || (len (ad_Value a) >? 512))
  && (ad_Value a == TrimSpace (ad_Value a)).

Inductive Status :=
| StatusApprovalRequired | StatusApproved | StatusBuilding | StatusAwaitingSignature | StatusSigned
| StatusBroadcast | StatusConfirmed | StatusFinalized | StatusRejected | StatusCancelled | StatusFailed
| StatusReorged.

#[export] Instance Status_eq_dec : EqDecision Status.
Proof. solve_decision. Defined.

Definition Status_string (s : Status) : string :=
  match s with
  | StatusApprovalRequired => "approval_required" | StatusApproved => "approved" | StatusBuilding => "building"
  | StatusAwaitingSignature => "awaiting_signature" | StatusSigned => "signed" | StatusBroadcast => "broadcast"
  | StatusConfirmed => "confirmed" | StatusFinalized => "finalized" | StatusRejected => "rejected"
  | StatusCancelled => "cancelled" | StatusFailed => "failed" | StatusReorged => "reorged"
  end.

Record Approval := mkApproval { ap_ActorID : string; ap_At : Time; ap_Reason : string }.

Record AuthContext := mkAuth { au_ActorID : string; au_Permissions : string -> bool; au_StepUpValidUntil : Time }.

Record WorkloadContext := mkWorkload { wl_ActorID : string; wl_Permissions : string -> bool }.

Definition Workload_Authorize (w : WorkloadContext) (permission : string) : bool :=
  negb ((wl_ActorID w == "") || negb (wl_Permissions w permission)).

(** [AuthContext.Authorize]: the actor holds the permission and a step-up
    authentication that is still valid. *)
Definition Auth_Authorize (a : AuthContext) (permission : string) (now : Time) : bool :=
  negb ((au_ActorID a == "") || negb (au_Permissions a permission)) && After (au_StepUpValidUntil a) now.

Record AuditCommand := mkAudit {
  ac_ID : string; ac_TenantID : string; ac_AggregateID : string; ac_ActorID : string; ac_Action : string;
  ac_Reason : string; ac_OccurredAt : Time }.

Record OutboxCommand := mkOutbox {
  ob_CmdID : string; ob_CmdTenantID : string; ob_AggregateID : string; ob_EventType : string; ob_Payload : string;
  ob_OccurredAt : Time }.

Record LedgerCommand := mkLedgerCmd {
  lc_ID : string; lc_EntryType : string; lc_AggregateID : string; lc_Debit : string; lc_Credit : string;
  lc_TenantID : string; lc_AssetID : string; lc_Amount : Amount; lc_OccurredAt : Time }.

(** The command carried by an idempotent decision; the zero fingerprint is the
    empty string. *)
Record MutationIdentity := mkIdentity { mi_Key : string; mi_Fingerprint : string }.

(** How an operation ends: with a recorded result, or with the mutation it hands
    to the repository as its last act. *)
Inductive effect (R M : Type) :=
| Reply (r : R)
| Mutate (m : M).
Arguments Reply {R M} r.
Arguments Mutate {R M} m.

(** Midnight UTC of the day of [t]. *)
Definition startUTC (t : Time) : Time := t - t mod (24 * Hour).

Lemma startUTC_window t : startUTC t <= t < startUTC t + 24 * Hour.
Proof.
  unfold startUTC. pose proof (Z.mod_pos_bound t (24 * Hour) ltac:(unfold Hour, Minute, Second; lia)). lia.
Qed.

(** ** Ledger postings *)

(** A posting moves its amount from the debited to the credited account. *)
Definition posting_delta (account : string) (c : LedgerCommand) : Z :=
  (if lc_Credit c == account then lc_Amount c else 0) - (if lc_Debit c == account then lc_Amount c else 0).

Definition balance (account : string) (postings : list LedgerCommand) : Z :=
  sumZ (posting_delta account <$> postings).

Lemma balance_app account p q : balance account (p ++ q) = balance account p + balance account q.
Proof. unfold balance. by rewrite fmap_app, sumZ_app. Qed.

Lemma balance_nil account : balance account [] = 0.
Proof. done. Qed.

Lemma balance_one account c : balance account [c] = posting_delta account c.
Proof. unfold balance. cbn. lia. Qed.

Lemma balance_cons account c p : balance account (c :: p) = posting_delta account c + balance account p.
Proof. done. Qed.

(** A statement of accounts: the position it gives an account. *)
Definition position (account : string) (books : list (string * Z)) : Z :=
  sumZ ((fun b => if fst b == account then snd b else 0) <$> books).

Lemma position_nil account : position account [] = 0.
Proof. done. Qed.

Lemma position_cons account a n books :
  position account ((a, n) :: books) = (if a == account then n else 0) + position account books.
Proof. done. Qed.

Create Rewrite HintDb books.
#[export] Hint Rewrite balance_app balance_cons balance_nil position_cons position_nil : books.

(** Compare postings with a statement of accounts, account by account. *)
Ltac balance_books :=
  autorewrite with books; unfold posting_delta; cbn [lc_Credit lc_Debit lc_Amount];
  repeat match goal with |- context [String.eqb ?a ?b] => destruct (String.eqb a b) end; lia.

(** ** The abstract custody machine *)

(** Where the money of a custody operation is. *)
Inductive phase := Held | InFlight | Settled | Released | UnderReview.

(** It is held until it is released or leaves custody; a departure settles or
    goes to review, and a settlement may be sent to review by a
    reorganisation. [ps_stay] is the stuttering step. *)
Inductive phase_step : phase -> phase -> Prop :=
| ps_stay p : phase_step p p
| ps_release : phase_step Held Released
| ps_depart : phase_step Held InFlight
| ps_settle : phase_step InFlight Settled
| ps_fail : phase_step InFlight UnderReview
| ps_revert : phase_step Settled UnderReview.

Definition phase_of (s : Status) : phase :=
  match s with
  | StatusApprovalRequired | StatusApproved | StatusBuilding | StatusAwaitingSignature | StatusSigned => Held
  | StatusBroadcast | StatusConfirmed => InFlight
  | StatusFinalized => Settled
  | StatusRejected | StatusCancelled => Released
  | StatusFailed | StatusReorged => UnderReview
  end.

(** How many status changes a status may still go through. *)
Definition status_rank (s : Status) : Z :=
  match s with
  | StatusApprovalRequired => 7 | StatusApproved => 6 | StatusBuilding => 6 | StatusAwaitingSignature => 5
  | StatusSigned => 4 | StatusBroadcast => 3 | StatusConfirmed => 2 | StatusFinalized => 1 | _ => 0
  end.

(** Whether the money has left custody. *)
Definition departed (p : phase) : bool := match p with InFlight | Settled | UnderReview => true | _ => false end.

Lemma phase_step_departed p q : phase_step p q -> departed p = true -> departed q = true.
Proof. by destruct 1. Qed.

Lemma released_final p : phase_step Released p -> p = Released.
Proof. by inversion 1. Qed.
