(* ===== verification/Refunds.v ===== *)
(** * Refunds: internal/refunds (model.go, ports.go, service.go)

    The custodial refund workflow: request under a policy, approval by a second
    person, build, sign, broadcast and chain result. Every operation ends by
    handing one mutation to its repository; the workflow is the sequence of the
    mutations the repository applies. *)

From Stdlib Require Import ZArith Lia Ascii String.
From stdpp Require Import base list strings.
From S2P Require Import Prelude Text Money Custody.

Inductive VerificationMethod :=
| VerificationWalletSignature | VerificationCustodianInstruction | VerificationMerchantEvidence
| VerificationObservedSender | VerificationUnset.

#[export] Instance VerificationMethod_eq_dec : EqDecision VerificationMethod.
Proof. solve_decision. Defined.

Record VerifiedDestination := mkDestination {
  vd_ID : string; vd_TenantID : string; vd_SettlementID : string; vd_AssetID : string; vd_Address : Address;
  vd_Method : VerificationMethod; vd_EvidenceDigest : string; vd_VerifiedAt : Time; vd_ExpiresAt : Time;
  vd_RevokedAt : Time }.

Definition IsUsable (d : VerifiedDestination) (now : Time) : bool :=
  if (vd_ID d == "") || (vd_TenantID d == "") || (vd_SettlementID d == "") || (vd_AssetID d == "")
     || (vd_EvidenceDigest d == "") || IsZeroTime (vd_VerifiedAt d) || After (vd_VerifiedAt d) now
     || negb (IsZeroTime (vd_RevokedAt d))
     || negb (IsZeroTime (vd_ExpiresAt d)) && negb (Before now (vd_ExpiresAt d))
  then false
  else if bool_decide (vd_Method d = VerificationObservedSender) || negb (Address_Validate (vd_Address d)) then false
  else true.

Record Settlement := mkSettlement {
  se_ID : string; se_TenantID : string; se_AssetID : string; se_ChainID : string; se_IntentID : string;
  se_ChainEventID : string; se_ObservedSender : Address; se_ReceivedAmount : Amount; se_AlreadyRefunded : Amount;
  se_Finalized : bool; se_RiskHold : bool }.

Definition AvailableRefundable (s : Settlement) : result custody_error Amount :=
  if negb (se_Finalized s) || se_RiskHold s
  then Err (Wrapped CuErrStateConflict "settlement is not finalized or is on risk hold")
  else match Sub (se_ReceivedAmount s) (se_AlreadyRefunded s) with
       | Err _ => Err (Sentinel CuErrInsufficientRefundable)
       | Ok remaining => Ok remaining
       end.

Inductive FeeBearer := FeeBearerMerchant | FeeBearerCustomer | FeeBearerOther (text : string).

Record RefundPolicy := mkRefundPolicy {
  rp_ID : string; rp_VersionTag : string; rp_Version : Z; rp_TenantID : string; rp_AssetID : string;
  rp_ChainID : string; rp_Enabled : bool; rp_EmergencyPaused : bool; rp_RefundToOriginOnly : bool;
  rp_AllowVerifiedAlternate : bool; rp_RequireApprovalAlways : bool; rp_MaximumRefundAmount : Amount;
  rp_DailyRefundLimit : Amount; rp_ApprovalThreshold : Amount; rp_MaximumNetworkFee : Amount;
  rp_FeeBearer : FeeBearer; rp_AllowedVerificationMethods : list VerificationMethod }.

Definition refused (msg : string) : custody_error := Wrapped CuErrValidation msg.

Definition RefundPolicy_Validate (p : RefundPolicy) : result custody_error unit :=
  if (rp_ID p == "") || (rp_Version p <? 1) || (rp_TenantID p == "") || (rp_AssetID p == "") || (rp_ChainID p == "")
     || IsZero (rp_MaximumRefundAmount p) || IsZero (rp_DailyRefundLimit p)
  then Err (refused "complete versioned refund policy is required")
  else if (Cmp (rp_MaximumRefundAmount p) (rp_DailyRefundLimit p) >? 0)
          || (Cmp (rp_ApprovalThreshold p) (rp_MaximumRefundAmount p) >? 0)
  then Err (refused "inconsistent refund limits")
  else if match rp_FeeBearer p with FeeBearerOther _ => true | _ => false end
  then Err (refused "invalid network fee bearer")
  else if Z.of_nat (length (rp_AllowedVerificationMethods p)) =? 0
  then Err (refused "at least one destination verification method is required")
  else if existsb (fun m => bool_decide (m = VerificationObservedSender) || bool_decide (m = VerificationUnset))
            (rp_AllowedVerificationMethods p)
  then Err (refused "observed sender cannot verify refund ownership")
  else Ok tt.

Definition AllowsMethod (p : RefundPolicy) (method : VerificationMethod) : bool :=
  existsb (fun allowed => bool_decide (method = allowed)) (rp_AllowedVerificationMethods p).

Record Refund := mkRefund {
  rf_ID : string; rf_TenantID : string; rf_SettlementID : string; rf_AssetID : string; rf_ChainID : string;
  rf_PolicyID : string; rf_PolicyVersion : Z; rf_CreatorID : string; rf_IdempotencyKey : string;
  rf_RequestHash : string; rf_DestinationVerificationID : string; rf_Destination : Address;
  rf_GrossAmount : Amount; rf_RefundAmount : Amount; rf_NetworkFee : Amount; rf_FeeBearer : FeeBearer;
  rf_Status : Status; rf_Approvals : list Approval; rf_UnsignedDigest : string; rf_UnsignedReference : string;
  rf_SignedDigest : string; rf_SignedReference : string; rf_TransactionHash : string; rf_Version : Z;
  rf_CreatedAt : Time; rf_UpdatedAt : Time }.

(** ** ports.go *)

Record RefundCreate := mkRefundCreate {
  rm_Refund : Refund; rm_MaximumRefundable : Amount; rm_LimitWindowStart : Time; rm_LimitWindowEnd : Time;
  rm_DailyLimit : Amount; rm_Audit : AuditCommand; rm_Ledger : list LedgerCommand; rm_Outbox : list OutboxCommand }.

Record RefundUpdate := mkRefundUpdate {
  ru_TenantID : string; ru_RefundID : string; ru_ExpectedVersion : Z; ru_Next : Refund; ru_Audit : AuditCommand;
  ru_Ledger : list LedgerCommand; ru_ReleaseRefundable : Amount; ru_Outbox : list OutboxCommand;
  ru_DecisionOperation : string; ru_Decision : MutationIdentity; ru_DecisionActor : string }.

Record RefundUnsigned := mkRefundUnsigned {
  un_RefundID : string; un_TenantID : string; un_SettlementID : string; un_AssetID : string; un_ChainID : string;
  un_Destination : Address; un_Amount : Amount; un_Fee : Amount; un_Digest : string; un_OpaqueReference : string }.

Record RefundSigned := mkRefundSigned {
  sg_RefundID : string; sg_UnsignedDigest : string; sg_SignedDigest : string; sg_OpaqueReference : string }.

Record RefundReceipt := mkRefundReceipt { rr_SignedDigest : string; rr_TransactionHash : string }.

(** ** The commands *)

Record RequestCommand := mkRequest {
  rq_TenantID : string; rq_SettlementID : string; rq_DestinationVerificationID : string; rq_RefundAmount : Amount;
  rq_NetworkFee : Amount; rq_IdempotencyKey : string; rq_Auth : AuthContext }.

(** [ApproveCommand]; [Cancel] takes a [TransitionCommand] and its reason. *)
Record DecisionCommand := mkDecision {
  dc_TenantID : string; dc_RefundID : string; dc_ExpectedVersion : Z; dc_Reason : string; dc_Auth : AuthContext }.

Record TransitionCommand := mkTransition {
  tr_TenantID : string; tr_RefundID : string; tr_ExpectedVersion : Z; tr_Auth : AuthContext }.

Record ChainResultCommand := mkChainResult {
  cr_TenantID : string; cr_RefundID : string; cr_ExpectedVersion : Z; cr_TransactionHash : string;
  cr_Status : Status; cr_EvidenceDigest : string; cr_Workload : WorkloadContext }.

(** ** The ports of the service: clock, identifiers in the order of their
    calls, the request's identity in the context, and the answers of the
    repositories and of the custody backend *)
Record refund_env := mkRefundEnv {
  en_now : Time; en_ids : nat -> string; en_identity : MutationIdentity;
  en_settlement : string -> string -> result custody_error Settlement;
  en_destination : string -> string -> result custody_error VerifiedDestination;
  en_policy : string -> string -> result custody_error RefundPolicy;
  en_get : string -> string -> result custody_error Refund;
  en_replay : option (string -> string -> string -> MutationIdentity -> result custody_error (option Refund));
  en_build : Refund -> result string RefundUnsigned;
  en_sign : RefundUnsigned -> result string RefundSigned;
  en_broadcast : RefundSigned -> result string RefundReceipt;
  en_hash : RefundPolicy -> Settlement -> VerifiedDestination -> Amount -> Amount -> Amount -> result custody_error string;
  en_encode : Refund -> string }.

(** ** service.go *)

(** [next := current] with its status, version and time set. *)
Definition advance (r : Refund) (status : Status) (now : Time) : Refund :=
  mkRefund (rf_ID r) (rf_TenantID r) (rf_SettlementID r) (rf_AssetID r) (rf_ChainID r) (rf_PolicyID r)
    (rf_PolicyVersion r) (rf_CreatorID r) (rf_IdempotencyKey r) (rf_RequestHash r) (rf_DestinationVerificationID r)
    (rf_Destination r) (rf_GrossAmount r) (rf_RefundAmount r) (rf_NetworkFee r) (rf_FeeBearer r) status
    (rf_Approvals r) (rf_UnsignedDigest r) (rf_UnsignedReference r) (rf_SignedDigest r) (rf_SignedReference r)
    (rf_TransactionHash r) (int64 (rf_Version r + 1)) (rf_CreatedAt r) now.

(** The fields an operation fills in. *)
Definition with_work (r : Refund) (approvals : list Approval) (ud ur sd sr tx : string) : Refund :=
  mkRefund (rf_ID r) (rf_TenantID r) (rf_SettlementID r) (rf_AssetID r) (rf_ChainID r) (rf_PolicyID r)
    (rf_PolicyVersion r) (rf_CreatorID r) (rf_IdempotencyKey r) (rf_RequestHash r) (rf_DestinationVerificationID r)
    (rf_Destination r) (rf_GrossAmount r) (rf_RefundAmount r) (rf_NetworkFee r) (rf_FeeBearer r) (rf_Status r)
    approvals ud ur sd sr tx (rf_Version r) (rf_CreatedAt r) (rf_UpdatedAt r).

Section operations.
Context (e : refund_env).

Definition audit (n : nat) (tenant aggregate actor action reason : string) : AuditCommand :=
  mkAudit (en_ids e n) tenant aggregate actor action reason (en_now e).

Definition event (n : nat) (tenant aggregate typ : string) (p : Refund) : OutboxCommand :=
  mkOutbox (en_ids e n) tenant aggregate typ (en_encode e p) (en_now e).

Definition ledger (n : nat) (entryType debit credit : string) (r : Refund) (amount : Amount) : LedgerCommand :=
  mkLedgerCmd (en_ids e n) entryType (rf_ID r) debit credit (rf_TenantID r) (rf_AssetID r) amount (en_now e).

Definition update (c n : Refund) (actor action reason : string) : RefundUpdate :=
  mkRefundUpdate (rf_TenantID c) (rf_ID c) (rf_Version c) n (audit 0 (rf_TenantID c) (rf_ID c) actor action reason)
    [] Zero [event 1 (rf_TenantID c) (rf_ID c) action n] "" (mkIdentity "" "") "".

Definition with_ledger (m : RefundUpdate) (l : list LedgerCommand) (release : Amount) : RefundUpdate :=
  mkRefundUpdate (ru_TenantID m) (ru_RefundID m) (ru_ExpectedVersion m) (ru_Next m) (ru_Audit m) l release
    (ru_Outbox m) (ru_DecisionOperation m) (ru_Decision m) (ru_DecisionActor m).

Definition with_decision (m : RefundUpdate) (operation : string) (actor : string) : RefundUpdate :=
  mkRefundUpdate (ru_TenantID m) (ru_RefundID m) (ru_ExpectedVersion m) (ru_Next m) (ru_Audit m) (ru_Ledger m)
    (ru_ReleaseRefundable m) (ru_Outbox m) operation (en_identity e) actor.

Definition reserved (id : string) : string := "refund_reserved:" +:+ id.
Definition refundable (settlement : string) : string := "settlement_refundable:" +:+ settlement.

(** The amount taken from the settlement: the customer's fee included. *)
Definition gross_amount (command : RequestCommand) (policy : RefundPolicy) (available : Amount)
    : result custody_error Amount :=
  match rp_FeeBearer policy with
  | FeeBearerCustomer =>
      match Add (rq_RefundAmount command) (rq_NetworkFee command) with
      | Err _ => Err (Sentinel CuErrInsufficientRefundable)
      | Ok gross =>
          if (Cmp gross available >? 0) || (Cmp gross (rp_MaximumRefundAmount policy) >? 0)
          then Err (Sentinel CuErrInsufficientRefundable) else Ok gross
      end
  | _ => Ok (rq_RefundAmount command)
  end.

(** The mutation [Request] builds once its guards are passed. *)
Definition request_mutation (command : RequestCommand) (policy : RefundPolicy) (settlement : Settlement)
    (verified : VerifiedDestination) (available gross : Amount) (hash : string) : RefundCreate :=
  let now := en_now e in
  let status := if rp_RequireApprovalAlways policy || (Cmp gross (rp_ApprovalThreshold policy) >? 0)
                then StatusApprovalRequired else StatusApproved in
  let id := en_ids e 0 in
  let refund :=
    mkRefund id (rq_TenantID command) (se_ID settlement) (se_AssetID settlement) (se_ChainID settlement)
      (rp_ID policy) (rp_Version policy) (au_ActorID (rq_Auth command)) (rq_IdempotencyKey command) hash
      (vd_ID verified) (vd_Address verified) gross (rq_RefundAmount command) (rq_NetworkFee command)
      (rp_FeeBearer policy) status [] "" "" "" "" "" 1 now now in
  let eventType := if bool_decide (status = StatusApprovalRequired) then "refund.approval_required" else "refund.requested" in
  mkRefundCreate refund available (startUTC now) (AddTime (startUTC now) (24 * Hour)) (rp_DailyRefundLimit policy)
    (audit 1 (rq_TenantID command) id (au_ActorID (rq_Auth command)) "refund.requested"
       "verified destination and policy evaluated")
    [ledger 2 "refund.reserve" (refundable (se_ID settlement)) (reserved id) refund gross]
    [event 3 (rq_TenantID command) id eventType refund].

Definition Request (command : RequestCommand) : result custody_error RefundCreate :=
  let now := en_now e in
  if negb (Auth_Authorize (rq_Auth command) "treasury:refunds:create" now) then Err (Sentinel CuErrForbidden)
  else if (rq_TenantID command == "") || (rq_SettlementID command == "") || (rq_DestinationVerificationID command == "")
          || (len (rq_IdempotencyKey command) <? 8) || (len (rq_IdempotencyKey command) >? 255)
          || IsZero (rq_RefundAmount command)
  then Err (refused "refund identity, positive amount, and idempotency key are required")
  else
    match en_settlement e (rq_TenantID command) (rq_SettlementID command) with
    | Err err => Err err
    | Ok settlement =>
        if (se_TenantID settlement != rq_TenantID command) || (se_ID settlement != rq_SettlementID command)
        then Err (refused "settlement tenant mismatch")
        else
          match AvailableRefundable settlement with
          | Err err => Err err
          | Ok available =>
              match en_policy e (rq_TenantID command) (se_AssetID settlement) with
              | Err err => Err err
              | Ok policy =>
                  match RefundPolicy_Validate policy with
                  | Err err => Err err
                  | Ok _ =>
                      if (rp_TenantID policy != se_TenantID settlement) || (rp_AssetID policy != se_AssetID settlement)
                         || (rp_ChainID policy != se_ChainID settlement) || negb (rp_Enabled policy)
                         || rp_EmergencyPaused policy
                      then Err (Wrapped CuErrPolicyLimit "policy is unavailable, paused, or crosses settlement boundary")
                      else
                        match en_destination e (rq_TenantID command) (rq_DestinationVerificationID command) with
                        | Err err => Err err
                        | Ok verified =>
                            let isOrigin := address_eqb (vd_Address verified) (se_ObservedSender settlement) in
                            if negb (IsUsable verified now) || (vd_TenantID verified != se_TenantID settlement)
                               || (vd_SettlementID verified != se_ID settlement)
                               || (vd_AssetID verified != se_AssetID settlement)
                               || (ad_Chain (vd_Address verified) != se_ChainID settlement)
                               || negb (AllowsMethod policy (vd_Method verified))
                            then Err (Sentinel CuErrDestinationUnverified)
                            else if rp_RefundToOriginOnly policy && negb isOrigin
                            then Err (Sentinel CuErrDestinationUnverified)
                            else if negb isOrigin && negb (rp_AllowVerifiedAlternate policy)
                            then Err (Sentinel CuErrDestinationUnverified)
                            else if (Cmp (rq_RefundAmount command) available >? 0)
                                    || (Cmp (rq_RefundAmount command) (rp_MaximumRefundAmount policy) >? 0)
                                    || (Cmp (rq_NetworkFee command) (rp_MaximumNetworkFee policy) >? 0)
                            then Err (Sentinel CuErrPolicyLimit)
                            else
                              match gross_amount command policy available with
                              | Err err => Err err
                              | Ok gross =>
                                  match en_hash e policy settlement verified (rq_RefundAmount command)
                                          (rq_NetworkFee command) gross with
                                  | Err err => Err err
                                  | Ok computed =>
                                      let fingerprint := mi_Fingerprint (en_identity e) in
                                      let hash := if fingerprint != "" then hex_encode fingerprint else computed in
                                      Ok (request_mutation command policy settlement verified available gross hash)
                                  end
                              end
                        end
                  end
              end
          end
    end.

Definition replayDecision (tenant actor operation : string) : result custody_error (option Refund) :=
  let key := mi_Key (en_identity e) in
  let fingerprint := mi_Fingerprint (en_identity e) in
  if (key == "") && (fingerprint == "") then Ok None
  else if (len key <? 8) || (len key >? 255) || (key != TrimSpace key) || (fingerprint == "")
  then Err (Sentinel CuErrValidation)
  else match en_replay e with
       | None => Err (Sentinel CuErrValidation)
       | Some replay => replay tenant actor operation (en_identity e)
       end.

Definition bad_reason (reason : string) : bool := (TrimSpace reason == "") || (len reason >? 2048).

Definition Approve (command : DecisionCommand) : result custody_error (effect Refund RefundUpdate) :=
  let actor := au_ActorID (dc_Auth command) in
  if negb (Auth_Authorize (dc_Auth command) "treasury:refunds:approve" (en_now e)) then Err (Sentinel CuErrForbidden)
  else if (dc_TenantID command == "") || (dc_RefundID command == "") || (dc_ExpectedVersion command <? 1)
          || bad_reason (dc_Reason command)
  then Err (Sentinel CuErrValidation)
  else
    match replayDecision (dc_TenantID command) actor "refund.approve" with
    | Err err => Err err
    | Ok (Some r) => Ok (Reply r)
    | Ok None =>
        match en_get e (dc_TenantID command) (dc_RefundID command) with
        | Err err => Err err
        | Ok current =>
            if negb (rf_Version current =? dc_ExpectedVersion command) then Err (Sentinel CuErrVersionConflict)
            else if bool_decide (rf_Status current <> StatusApprovalRequired) then Err (Sentinel CuErrStateConflict)
            else if rf_CreatorID current == actor then Err (Sentinel CuErrForbidden)
            else
              let approvals := rf_Approvals current ++ [mkApproval actor (en_now e) (TrimSpace (dc_Reason command))] in
              let next := with_work (advance current StatusApproved (en_now e)) approvals (rf_UnsignedDigest current)
                            (rf_UnsignedReference current) (rf_SignedDigest current) (rf_SignedReference current)
                            (rf_TransactionHash current) in
              Ok (Mutate (with_decision (update current next actor "refund.approved" (dc_Reason command))
                            "refund.approve" actor))
        end
    end.

Definition load (c : TransitionCommand) (want : Status) : result custody_error Refund :=
  if (tr_TenantID c == "") || (tr_RefundID c == "") || (tr_ExpectedVersion c <? 1) then Err (Sentinel CuErrValidation)
  else match en_get e (tr_TenantID c) (tr_RefundID c) with
       | Err err => Err err
       | Ok r =>
           if negb (rf_Version r =? tr_ExpectedVersion c) then Err (Sentinel CuErrVersionConflict)
           else if bool_decide (rf_Status r <> want) then Err (Sentinel CuErrStateConflict)
           else Ok r
       end.

Definition unsigned_differs (u : RefundUnsigned) (r : Refund) : bool :=
  (un_RefundID u != rf_ID r) || (un_TenantID u != rf_TenantID r) || (un_SettlementID u != rf_SettlementID r)
  || (un_AssetID u != rf_AssetID r) || (un_ChainID u != rf_ChainID r)
  || negb (address_eqb (un_Destination u) (rf_Destination r))
  || negb (Cmp (un_Amount u) (rf_RefundAmount r) =? 0) || (Cmp (un_Fee u) (rf_NetworkFee r) >? 0)
  || (TrimSpace (un_Digest u) == "") || (TrimSpace (un_OpaqueReference u) == "").

Definition Prepare (command : TransitionCommand) : result custody_error (effect Refund RefundUpdate) :=
  if negb (Auth_Authorize (tr_Auth command) "treasury:refunds:execute" (en_now e)) then Err (Sentinel CuErrForbidden)
  else match load command StatusApproved with
       | Err err => Err err
       | Ok current =>
           match en_build e current with
           | Err msg => Err (Plain ("build unsigned refund: " +:+ msg))
           | Ok u =>
               if unsigned_differs u current then Err (refused "builder changed approved refund or fee")
               else
                 let next := with_work (advance current StatusAwaitingSignature (en_now e)) (rf_Approvals current)
                               (un_Digest u) (un_OpaqueReference u) (rf_SignedDigest current)
                               (rf_SignedReference current) (rf_TransactionHash current) in
                 Ok (Mutate (update current next (au_ActorID (tr_Auth command)) "refund.awaiting_signature"
                               "unsigned transaction verified"))
           end
       end.

(** The transaction the signer is asked to sign. *)
Definition unsigned_of (r : Refund) : RefundUnsigned :=
  mkRefundUnsigned (rf_ID r) (rf_TenantID r) (rf_SettlementID r) (rf_AssetID r) (rf_ChainID r) (rf_Destination r)
    (rf_RefundAmount r) (rf_NetworkFee r) (rf_UnsignedDigest r) (rf_UnsignedReference r).

Definition Sign (command : TransitionCommand) : result custody_error (effect Refund RefundUpdate) :=
  if negb (Auth_Authorize (tr_Auth command) "treasury:refunds:sign" (en_now e)) then Err (Sentinel CuErrForbidden)
  else match load command StatusAwaitingSignature with
       | Err err => Err err
       | Ok current =>
           match en_sign e (unsigned_of current) with
           | Err msg => Err (Plain ("sign refund: " +:+ msg))
           | Ok signed =>
               if (sg_RefundID signed != rf_ID current) || (sg_UnsignedDigest signed != rf_UnsignedDigest current)
                  || (TrimSpace (sg_SignedDigest signed) == "") || (TrimSpace (sg_OpaqueReference signed) == "")
               then Err (refused "signer response is not bound to unsigned refund")
               else
                 let next := with_work (advance current StatusSigned (en_now e)) (rf_Approvals current)
                               (rf_UnsignedDigest current) (rf_UnsignedReference current) (sg_SignedDigest signed)
                               (sg_OpaqueReference signed) (rf_TransactionHash current) in
                 Ok (Mutate (update current next (au_ActorID (tr_Auth command)) "refund.signed"
                               "isolated signer response verified"))
           end
       end.

(** The postings of a broadcast: the refund leaves the reserve, and so does the
    network fee, unless it is the merchant's. *)
Definition broadcast_ledger (r : Refund) : list LedgerCommand :=
  ledger 2 "refund.broadcast" (reserved (rf_ID r)) "refund_in_transit" r (rf_RefundAmount r) ::
  if IsZero (rf_NetworkFee r) then []
  else
    let debit := match rf_FeeBearer r with FeeBearerCustomer => reserved (rf_ID r) | _ => "network_fee_expense" end in
    [ledger 3 "refund.network_fee" debit "network_fee_spent" r (rf_NetworkFee r)].

Definition Broadcast (command : TransitionCommand) : result custody_error (effect Refund RefundUpdate) :=
  if negb (Auth_Authorize (tr_Auth command) "treasury:refunds:broadcast" (en_now e)) then Err (Sentinel CuErrForbidden)
  else match load command StatusSigned with
       | Err err => Err err
       | Ok current =>
           match en_broadcast e (mkRefundSigned (rf_ID current) (rf_UnsignedDigest current) (rf_SignedDigest current)
                                   (rf_SignedReference current)) with
           | Err msg => Err (Plain ("broadcast refund: " +:+ msg))
           | Ok receipt =>
               if (rr_SignedDigest receipt != rf_SignedDigest current) || (TrimSpace (rr_TransactionHash receipt) == "")
               then Err (refused "broadcaster response is not bound to signed refund")
               else
                 let next := with_work (advance current StatusBroadcast (en_now e)) (rf_Approvals current)
                               (rf_UnsignedDigest current) (rf_UnsignedReference current) (rf_SignedDigest current)
                               (rf_SignedReference current) (rr_TransactionHash receipt) in
                 Ok (Mutate (with_ledger (update current next (au_ActorID (tr_Auth command)) "refund.broadcast"
                                            "signed refund broadcast") (broadcast_ledger current) Zero))
           end
       end.

Definition chain_allowed (current new : Status) : bool :=
  match new with
  | StatusConfirmed => bool_decide (current = StatusBroadcast)
  | StatusFinalized => bool_decide (current = StatusConfirmed)
  | StatusReorged => bool_decide (current = StatusBroadcast) || bool_decide (current = StatusConfirmed)
                     || bool_decide (current = StatusFinalized)
  | StatusFailed => bool_decide (current = StatusBroadcast)
  | _ => false
  end.

Definition chain_ledger (current : Refund) (new : Status) : list LedgerCommand :=
  match new with
  | StatusFinalized =>
      [ledger 2 "refund.finalize" "refund_in_transit" "refund_completed" current (rf_RefundAmount current)]
  | StatusReorged =>
      let source := if bool_decide (rf_Status current = StatusFinalized) then "refund_completed" else "refund_in_transit" in
      [ledger 2 "refund.reorg_reversal" source "refund_reorg_review" current (rf_RefundAmount current)]
  | StatusFailed =>
      [ledger 2 "refund.failed_review" "refund_in_transit" "refund_failed_review" current (rf_RefundAmount current)]
  | _ => []
  end.

Definition RecordChainResult (c : ChainResultCommand) : result custody_error (effect Refund RefundUpdate) :=
  if negb (Workload_Authorize (cr_Workload c) "treasury:refunds:observe") then Err (Sentinel CuErrForbidden)
  else if (TrimSpace (cr_TransactionHash c) == "") || (TrimSpace (cr_EvidenceDigest c) == "")
  then Err (Sentinel CuErrValidation)
  else match en_get e (cr_TenantID c) (cr_RefundID c) with
       | Err err => Err err
       | Ok current =>
           if negb (rf_Version current =? cr_ExpectedVersion c) then Err (Sentinel CuErrVersionConflict)
           else if rf_TransactionHash current != cr_TransactionHash c then Err (Sentinel CuErrValidation)
           else if negb (chain_allowed (rf_Status current) (cr_Status c)) then Err (Sentinel CuErrStateConflict)
           else
             let next := advance current (cr_Status c) (en_now e) in
             Ok (Mutate (with_ledger (update current next (wl_ActorID (cr_Workload c))
                                        ("refund." +:+ Status_string (cr_Status c)) (cr_EvidenceDigest c))
                           (chain_ledger current (cr_Status c)) Zero))
       end.

Definition Cancel (command : DecisionCommand) : result custody_error (effect Refund RefundUpdate) :=
  let actor := au_ActorID (dc_Auth command) in
  if negb (Auth_Authorize (dc_Auth command) "treasury:refunds:cancel" (en_now e)) then Err (Sentinel CuErrForbidden)
  else if bad_reason (dc_Reason command) then Err (Sentinel CuErrValidation)
  else
    match replayDecision (dc_TenantID command) actor "refund.cancel" with
    | Err err => Err err
    | Ok (Some r) => Ok (Reply r)
    | Ok None =>
        match en_get e (dc_TenantID command) (dc_RefundID command) with
        | Err err => Err err
        | Ok current =>
            if negb (rf_Version current =? dc_ExpectedVersion command) then Err (Sentinel CuErrVersionConflict)
            else
              match rf_Status current with
              | StatusApprovalRequired | StatusApproved | StatusAwaitingSignature =>
                  let next := advance current StatusCancelled (en_now e) in
                  let m := update current next actor "refund.cancelled" (dc_Reason command) in
                  let m := with_ledger m [ledger 2 "refund.release_reserve" (reserved (rf_ID current))
                                            (refundable (rf_SettlementID current)) current (rf_GrossAmount current)]
                             (rf_GrossAmount current) in
                  Ok (Mutate (with_decision m "refund.cancel" actor))
              | _ => Err (Sentinel CuErrStateConflict)
              end
        end
    end.
End operations.

(** ** The workflow *)

Inductive refund_op :=
| OpApprove (c : DecisionCommand) | OpPrepare (c : TransitionCommand) | OpSign (c : TransitionCommand)
| OpBroadcast (c : TransitionCommand) | OpChainResult (c : ChainResultCommand) | OpCancel (c : DecisionCommand).

Definition run_op (e : refund_env) (op : refund_op) : result custody_error (effect Refund RefundUpdate) :=
  match op with
  | OpApprove c => Approve e c | OpPrepare c => Prepare e c | OpSign c => Sign e c
  | OpBroadcast c => Broadcast e c | OpChainResult c => RecordChainResult e c | OpCancel c => Cancel e c
  end.

(** A refund as its repository keeps it: as created, as it is now, and the
    ledger postings that were persisted with its mutations. *)
Record refund_case := mkCase { ca_created : Refund; ca_now : Refund; ca_postings : list LedgerCommand }.

(** The contract of the repository: [Get] answers the stored refund, and an
    applied mutation replaces the refund and appends its postings. *)
Definition serves (e : refund_env) (r : Refund) : Prop :=
  forall tenant id current, en_get e tenant id = Ok current -> current = r.

Inductive workflow : refund_case -> Prop :=
| wf_request e command m : Request e command = Ok m ->
    workflow (mkCase (rm_Refund m) (rm_Refund m) (rm_Ledger m))
| wf_update c e op m : workflow c -> serves e (ca_now c) -> run_op e op = Ok (Mutate m) ->
    workflow (mkCase (ca_created c) (ru_Next m) (ca_postings c ++ ru_Ledger m)).

(** What an operation asks the repository to do with the refund it read. *)
Inductive mutates (e : refund_env) (r : Refund) : RefundUpdate -> Prop :=
| mu_approve m actor reason : rf_Status r = StatusApprovalRequired -> actor <> rf_CreatorID r ->
    rf_Status (ru_Next m) = StatusApproved -> ru_Ledger m = [] ->
    rf_Approvals (ru_Next m) = rf_Approvals r ++ [mkApproval actor (en_now e) reason] -> mutates e r m
| mu_prepare m u : rf_Status r = StatusApproved -> en_build e r = Ok u -> unsigned_differs u r = false ->
    rf_Status (ru_Next m) = StatusAwaitingSignature -> ru_Ledger m = [] ->
    rf_Approvals (ru_Next m) = rf_Approvals r -> mutates e r m
| mu_sign m s : rf_Status r = StatusAwaitingSignature -> en_sign e (unsigned_of r) = Ok s ->
    rf_Status (ru_Next m) = StatusSigned -> ru_Ledger m = [] ->
    rf_Approvals (ru_Next m) = rf_Approvals r -> mutates e r m
| mu_broadcast m : rf_Status r = StatusSigned -> rf_Status (ru_Next m) = StatusBroadcast ->
    ru_Ledger m = broadcast_ledger e r -> rf_Approvals (ru_Next m) = rf_Approvals r -> mutates e r m
| mu_chain m new : chain_allowed (rf_Status r) new = true -> rf_Status (ru_Next m) = new ->
    ru_Ledger m = chain_ledger e r new -> rf_Approvals (ru_Next m) = rf_Approvals r -> mutates e r m
| mu_cancel m : rf_Status r = StatusApprovalRequired \/ rf_Status r = StatusApproved \/ rf_Status r = StatusAwaitingSignature ->
    rf_Status (ru_Next m) = StatusCancelled ->
    ru_Ledger m = [ledger e 2 "refund.release_reserve" (reserved (rf_ID r)) (refundable (rf_SettlementID r)) r (rf_GrossAmount r)] ->
    ru_ReleaseRefundable m = rf_GrossAmount r -> rf_Approvals (ru_Next m) = rf_Approvals r -> mutates e r m.

(** The terms of a refund, which no operation may change. *)
Definition same_refund_terms (r n : Refund) : Prop :=
  rf_ID n = rf_ID r /\ rf_TenantID n = rf_TenantID r /\ rf_SettlementID n = rf_SettlementID r /\
  rf_AssetID n = rf_AssetID r /\ rf_ChainID n = rf_ChainID r /\ rf_CreatorID n = rf_CreatorID r /\
  rf_Destination n = rf_Destination r /\ rf_GrossAmount n = rf_GrossAmount r /\
  rf_RefundAmount n = rf_RefundAmount r /\ rf_NetworkFee n = rf_NetworkFee r /\ rf_FeeBearer n = rf_FeeBearer r.

Lemma load_ok e c want r : load e c want = Ok r ->
  en_get e (tr_TenantID c) (tr_RefundID c) = Ok r /\ rf_Status r = want /\ rf_Version r = tr_ExpectedVersion c.
Proof.
  unfold load. intros H. run_ok H. injection H as ->. bool_hyp. split; [done|]. split; [|done].
  destruct (decide (rf_Status r = want)); [done|]. exfalso. auto.
Qed.

Lemma op_mutates e op m : run_op e op = Ok (Mutate m) ->
  exists r tenant id, en_get e tenant id = Ok r /\ ru_ExpectedVersion m = rf_Version r /\
    ru_TenantID m = rf_TenantID r /\ ru_RefundID m = rf_ID r /\ same_refund_terms r (ru_Next m) /\
    rf_Version (ru_Next m) = int64 (rf_Version r + 1) /\ mutates e r m.
Proof.
  assert (Hterms : forall r s t, same_refund_terms r (advance r s t)) by (intros; done).
  destruct op as [c|c|c|c|c|c]; cbn [run_op].
  - unfold Approve. intros H. run_ok H. injection H as <-. bool_hyp. eexists _, _, _. split; [eassumption|].
    do 5 (split; [done|]). eapply mu_approve; try done.
    destruct (decide (rf_Status a0 = StatusApprovalRequired)); [done|]. exfalso. auto.
  - unfold Prepare. intros H. run_ok H. injection H as <-.
    match goal with Hl : load _ _ _ = Ok _ |- _ => apply load_ok in Hl as (Hg & Hs & _) end.
    eexists _, _, _. split; [eassumption|]. do 5 (split; [done|]). by eapply mu_prepare.
  - unfold Sign. intros H. run_ok H. injection H as <-.
    match goal with Hl : load _ _ _ = Ok _ |- _ => apply load_ok in Hl as (Hg & Hs & _) end.
    eexists _, _, _. split; [eassumption|]. do 5 (split; [done|]). by eapply mu_sign.
  - unfold Broadcast. intros H. run_ok H. injection H as <-.
    match goal with Hl : load _ _ _ = Ok _ |- _ => apply load_ok in Hl as (Hg & Hs & _) end.
    eexists _, _, _. split; [eassumption|]. do 5 (split; [done|]). by eapply mu_broadcast.
  - unfold RecordChainResult. intros H. run_ok H. injection H as <-. bool_hyp.
    eexists _, _, _. split; [eassumption|]. do 5 (split; [done|]). by eapply mu_chain.
  - unfold Cancel. intros H. run_ok H; injection H as <-; (eexists _, _, _; split; [eassumption|]);
      do 5 (split; [done|]); eapply mu_cancel; auto.
Qed.

(** ** A request *)

Definition customer_fee (r : Refund) : Amount :=
  match rf_FeeBearer r with FeeBearerCustomer => rf_NetworkFee r | _ => 0 end.

Lemma Add_value a b c : Add a b = Ok c -> c = a + b.
Proof. unfold Add, checked. destruct (_ >? 256); [done|]. by intros [= <-]. Qed.

Lemma gross_amount_ok command policy available gross :
  gross_amount command policy available = Ok gross -> RefundPolicy_Validate policy = Ok tt ->
  rq_RefundAmount command <= available -> rq_RefundAmount command <= rp_MaximumRefundAmount policy ->
  gross <= available /\ gross <= rp_MaximumRefundAmount policy /\
  gross = rq_RefundAmount command + match rp_FeeBearer policy with FeeBearerCustomer => rq_NetworkFee command | _ => 0 end /\
  (rp_FeeBearer policy = FeeBearerMerchant \/ rp_FeeBearer policy = FeeBearerCustomer).
Proof.
  unfold gross_amount. intros H Hv Ha Hm.
  assert (Hb : rp_FeeBearer policy = FeeBearerMerchant \/ rp_FeeBearer policy = FeeBearerCustomer).
  { unfold RefundPolicy_Validate in Hv. run_ok Hv. destruct (rp_FeeBearer policy); [by left|by right|done]. }
  destruct Hb as [Hb|Hb]; rewrite Hb in H |- *.
  - injection H as <-. split; [done|]. split; [done|]. split; [lia|by left].
  - destruct (Add _ _) as [g|] eqn:E; [|done]. apply Add_value in E. rewrite !Cmp_gt in H. run_ok H.
    injection H as <-. bool_hyp. split; [done|]. split; [done|]. split; [lia|by right].
Qed.

Lemma AvailableRefundable_ok s available : AvailableRefundable s = Ok available ->
  se_Finalized s = true /\ se_RiskHold s = false /\ available = se_ReceivedAmount s - se_AlreadyRefunded s /\
  se_AlreadyRefunded s <= se_ReceivedAmount s.
Proof.
  unfold AvailableRefundable. destruct (negb (se_Finalized s) || se_RiskHold s) eqn:E; [done|]. bool_hyp.
  destruct (Sub _ _) as [r|] eqn:Es; [|done]. intros [= <-]. do 2 (split; [done|]).
  unfold Sub, Cmp in Es. destruct (Z.compare_spec (se_ReceivedAmount s) (se_AlreadyRefunded s)); cbn in Es; [| done|];
    injection Es as <-; lia.
Qed.

Lemma RefundPolicy_limits p : RefundPolicy_Validate p = Ok tt -> rp_MaximumRefundAmount p <= rp_DailyRefundLimit p.
Proof.
  unfold RefundPolicy_Validate. rewrite !Cmp_gt. intros H. run_ok H. bool_hyp. lia.
Qed.

Lemma IsUsable_method d now : IsUsable d now = true -> vd_Method d <> VerificationObservedSender.
Proof.
  unfold IsUsable. destruct (_ || _ || _ || _ || _ || _ || _ || _ || _); [done|]. intros H Hm.
  by rewrite bool_decide_true in H.
Qed.

(** A refund enters the workflow only when everything about it was checked:
    the caller holds the permission and a current step-up, the settlement is
    final, not on hold and of the same tenant, the destination was verified
    independently of the observed sender by a method the policy allows and
    belongs to this settlement, asset and chain, the amount with the customer's
    fee is within what is left of the settlement and within the policy's
    maximum, exactly that amount is reserved, and approval is skipped only at or
    below the threshold. *)
Theorem Request_safe e command m : Request e command = Ok m ->
  Auth_Authorize (rq_Auth command) "treasury:refunds:create" (en_now e) = true /\
  exists settlement policy verified,
    let r := rm_Refund m in
    en_settlement e (rq_TenantID command) (rq_SettlementID command) = Ok settlement /\
    en_policy e (rq_TenantID command) (se_AssetID settlement) = Ok policy /\
    en_destination e (rq_TenantID command) (rq_DestinationVerificationID command) = Ok verified /\
    se_TenantID settlement = rq_TenantID command /\ se_Finalized settlement = true /\ se_RiskHold settlement = false /\
    rp_Enabled policy = true /\ rp_EmergencyPaused policy = false /\
    IsUsable verified (en_now e) = true /\ vd_Method verified <> VerificationObservedSender /\
    AllowsMethod policy (vd_Method verified) = true /\ vd_TenantID verified = se_TenantID settlement /\
    vd_SettlementID verified = se_ID settlement /\ vd_AssetID verified = se_AssetID settlement /\
    ad_Chain (vd_Address verified) = se_ChainID settlement /\
    (vd_Address verified = se_ObservedSender settlement \/
     rp_AllowVerifiedAlternate policy = true /\ rp_RefundToOriginOnly policy = false) /\
    rf_Destination r = vd_Address verified /\
    rf_GrossAmount r = rf_RefundAmount r + customer_fee r /\
    rf_GrossAmount r <= se_ReceivedAmount settlement - se_AlreadyRefunded settlement /\
    rf_GrossAmount r <= rp_MaximumRefundAmount policy <= rp_DailyRefundLimit policy /\
    rf_NetworkFee r <= rp_MaximumNetworkFee policy /\
    (rf_Status r = StatusApprovalRequired \/
     rf_Status r = StatusApproved /\ rf_GrossAmount r <= rp_ApprovalThreshold policy /\
     rp_RequireApprovalAlways policy = false) /\
    forall account, balance account (rm_Ledger m) =
      position account [(refundable (rf_SettlementID r), - rf_GrossAmount r); (reserved (rf_ID r), rf_GrossAmount r)].
Proof.
  intros H. unfold Request in H. cbn zeta in H. destruct (negb (Auth_Authorize _ _ _)) eqn:Ea; [done|].
  apply negb_false_iff in Ea. split; [done|]. destruct (_ || _) eqn:Eid; [done|].
  destruct (en_settlement _ _ _) as [se|] eqn:Hse; [|done]. destruct (_ || _) eqn:Ese in H; [done|].
  destruct (AvailableRefundable se) as [av|] eqn:Eav; [|done]. destruct (en_policy _ _ _) as [po|] eqn:Hpo; [|done].
  destruct (RefundPolicy_Validate po) as [[]|] eqn:Epv; [|done]. destruct (_ || _) eqn:Epo in H; [done|].
  destruct (en_destination _ _ _) as [vd|] eqn:Hvd; [|done]. destruct (_ || _) eqn:Evd in H; [done|].
  destruct (_ && _) eqn:Eo1 in H; [done|]. destruct (_ && _) eqn:Eo2 in H; [done|].
  destruct (_ || _) eqn:Eli in H; [done|]. destruct (gross_amount _ _ _) as [gr|] eqn:Egr; [|done].
  destruct (en_hash _ _ _ _ _ _ _) as [hash|]; [|done]. injection H as <-.
  exists se, po, vd. cbn zeta. unfold request_mutation. cbn [rm_Refund rf_Destination rf_GrossAmount rf_RefundAmount
    rf_NetworkFee rf_Status rf_ID rf_SettlementID rm_Ledger customer_fee rf_FeeBearer].
  rewrite !Cmp_gt in Eli. bool_hyp. apply AvailableRefundable_ok in Eav as (Hf & Hr & Hav & _).
  destruct (gross_amount_ok _ _ _ _ Egr Epv) as (Hg1 & Hg2 & Hg3 & _); [done|done|].
  do 9 (split; [done|]). split; [by eapply IsUsable_method|]. do 5 (split; [done|]). split.
  { destruct (address_eqb (vd_Address vd) (se_ObservedSender se)) eqn:Eq; [left; by apply address_eqb_eq|right].
    cbn in Eo1, Eo2. rewrite andb_true_r in Eo1. by apply negb_false_iff in Eo2. }
  split; [done|]. split; [exact Hg3|]. split; [lia|]. split.
  { split; [lia|]. by apply RefundPolicy_limits. }
  split; [done|]. split.
  { rewrite Cmp_gt. destruct (rp_RequireApprovalAlways po); [by left|].
    destruct (_ <? gr) eqn:E; [by left|]. bool_hyp. right. done. }
  intros account. unfold ledger. balance_books.
Qed.

(** ** Invariants of the workflow *)

(** The statement of accounts of a refund: the settlement gave the gross amount,
    which is in the reserve until the broadcast moves the refund to transit and
    a customer's fee to the network; a merchant's fee is an expense. *)
Definition books (r : Refund) : list (string * Z) :=
  let taken := (refundable (rf_SettlementID r), - rf_GrossAmount r) in
  let fees := match rf_FeeBearer r with
              | FeeBearerCustomer => [("network_fee_spent", rf_NetworkFee r)]
              | _ => [("network_fee_spent", rf_NetworkFee r); ("network_fee_expense", - rf_NetworkFee r)]
              end in
  match rf_Status r with
  | StatusApprovalRequired | StatusApproved | StatusBuilding | StatusAwaitingSignature | StatusSigned =>
      [taken; (reserved (rf_ID r), rf_GrossAmount r)]
  | StatusBroadcast | StatusConfirmed => taken :: ("refund_in_transit", rf_RefundAmount r) :: fees
  | StatusFinalized => taken :: ("refund_completed", rf_RefundAmount r) :: fees
  | StatusReorged => taken :: ("refund_reorg_review", rf_RefundAmount r) :: fees
  | StatusFailed => taken :: ("refund_failed_review", rf_RefundAmount r) :: fees
  | StatusRejected | StatusCancelled => []
  end.

Definition second_person (r : Refund) : Prop :=
  exists a, a ∈ rf_Approvals r /\ ap_ActorID a <> rf_CreatorID r.

Definition gross_ok (r : Refund) : Prop := rf_GrossAmount r = rf_RefundAmount r + customer_fee r.

(** What [Request] hands to the repository. *)
Lemma Request_created e command m : Request e command = Ok m ->
  let r := rm_Refund m in
  gross_ok r /\ rf_Version r = 1 /\ rf_Approvals r = [] /\
  (rf_Status r = StatusApprovalRequired \/ rf_Status r = StatusApproved) /\
  rm_Ledger m = [ledger e 2 "refund.reserve" (refundable (rf_SettlementID r)) (reserved (rf_ID r)) r (rf_GrossAmount r)].
Proof.
  intros H. unfold Request in H. cbn zeta in H. run_ok H; injection H as <-;
    (match goal with Hg : gross_amount _ _ _ = Ok _, Hv : RefundPolicy_Validate _ = Ok ?u |- _ =>
       destruct u; apply gross_amount_ok in Hg as (_ & _ & Hgross & _) end; [|done|rewrite !Cmp_gt in *; bool_hyp; lia..]);
    unfold request_mutation; cbn [rm_Refund rm_Ledger rf_Version rf_Approvals rf_Status];
    (split; [exact Hgross|]); do 2 (split; [done|]); (split; [|done]);
    destruct (rp_RequireApprovalAlways _ || _); auto.
Qed.

Record case_ok (c : refund_case) : Prop := mk_case_ok {
  co_terms : same_refund_terms (ca_created c) (ca_now c);
  co_gross : gross_ok (ca_now c);
  co_start : rf_Status (ca_created c) = StatusApprovalRequired \/ rf_Status (ca_created c) = StatusApproved;
  co_version : 1 <= rf_Version (ca_now c) /\ rf_Version (ca_now c) + status_rank (rf_Status (ca_now c)) <= 8;
  co_eyes : rf_Status (ca_created c) = StatusApprovalRequired ->
    rf_Status (ca_now c) = StatusApprovalRequired \/ rf_Status (ca_now c) = StatusCancelled \/ second_person (ca_now c);
  co_books : forall account, balance account (ca_postings c) = position account (books (ca_now c)) }.

Lemma gross_ok_terms r n : same_refund_terms r n -> gross_ok r -> gross_ok n.
Proof.
  unfold same_refund_terms, gross_ok, customer_fee. intros (_ & _ & _ & _ & _ & _ & _ & -> & -> & -> & ->). done.
Qed.

(** The postings of a mutation turn the books before it into the books after it. *)
Lemma mutates_books e r m account : mutates e r m -> same_refund_terms r (ru_Next m) -> gross_ok r ->
  position account (books r) + balance account (ru_Ledger m) = position account (books (ru_Next m)).
Proof.
  unfold same_refund_terms, gross_ok, customer_fee, books.
  intros Hm (-> & _ & -> & _ & _ & _ & _ & -> & -> & -> & ->) Hg.
  inversion Hm as [? ? ? Hs _ Hn Hl _|? ? Hs _ _ Hn Hl _|? ? Hs _ Hn Hl _|? Hs Hn Hl _|? new Hs Hn Hl _|? Hs Hn Hl _ _]; subst.
  - rewrite Hs, Hn, Hl. balance_books.
  - rewrite Hs, Hn, Hl. balance_books.
  - rewrite Hs, Hn, Hl. balance_books.
  - rewrite Hs, Hn, Hl. unfold broadcast_ledger, ledger, IsZero.
    destruct (rf_FeeBearer r), (rf_NetworkFee r =? 0) eqn:E; bool_hyp; balance_books.
  - rewrite Hl. unfold chain_ledger, ledger.
    destruct (rf_Status (ru_Next m)) eqn:En; cbn in Hs; try discriminate Hs;
      destruct (rf_Status r); try discriminate Hs; destruct (rf_FeeBearer r); cbn zeta;
      repeat case_bool_decide; try congruence; balance_books.
  - rewrite Hn, Hl. unfold ledger. destruct Hs as [->|[->| ->]]; balance_books.
Qed.

Lemma mutates_rank e r m : mutates e r m -> status_rank (rf_Status (ru_Next m)) < status_rank (rf_Status r).
Proof.
  inversion 1 as [? ? ? Hs _ Hn|? ? Hs _ _ Hn|? ? Hs _ Hn|? Hs Hn|? new Hs Hn|? Hs Hn]; subst;
    try (rewrite Hs, Hn; cbn; lia).
  - destruct (rf_Status (ru_Next m)), (rf_Status r); cbn in *; try discriminate; lia.
  - rewrite Hn. destruct Hs as [->|[->| ->]]; cbn; lia.
Qed.

Lemma mutates_phase e r m : mutates e r m -> phase_step (phase_of (rf_Status r)) (phase_of (rf_Status (ru_Next m))).
Proof.
  inversion 1 as [? ? ? Hs _ Hn|? ? Hs _ _ Hn|? ? Hs _ Hn|? Hs Hn|? new Hs Hn|? Hs Hn]; subst;
    try (rewrite Hs, Hn; cbn; constructor).
  - destruct (rf_Status (ru_Next m)), (rf_Status r); cbn in *; try discriminate; constructor.
  - rewrite Hn. destruct Hs as [->|[->| ->]]; cbn; constructor.
Qed.

Lemma mutates_eyes e r m : mutates e r m -> rf_CreatorID (ru_Next m) = rf_CreatorID r ->
  rf_Status r = StatusApprovalRequired \/ rf_Status r = StatusCancelled \/ second_person r ->
  rf_Status (ru_Next m) = StatusApprovalRequired \/ rf_Status (ru_Next m) = StatusCancelled \/ second_person (ru_Next m).
Proof.
  unfold second_person. intros Hm Hc Hr. rewrite Hc.
  inversion Hm as [? actor ? Hs Ha Hn _ Hap|? ? Hs _ _ Hn _ Hap|? ? Hs _ Hn _ Hap|? Hs Hn _ Hap|? new Hs Hn _ Hap|? Hs Hn _ _ Hap]; subst;
    [|try rewrite Hs in Hr..].
  - right; right. rewrite Hap. eexists. split; [apply elem_of_app; right; left|done].
  - destruct Hr as [?|[?|Hr]]; [done..|]. right; right. by rewrite Hap.
  - destruct Hr as [?|[?|Hr]]; [done..|]. right; right. by rewrite Hap.
  - destruct Hr as [?|[?|Hr]]; [done..|]. right; right. by rewrite Hap.
  - right; right. rewrite Hap. destruct Hr as [Hr|[Hr|Hr]]; [|  |done]; rewrite Hr in Hs; destruct (rf_Status (ru_Next m)); done.
  - by right; left.
Qed.

Lemma same_refund_terms_trans a b c : same_refund_terms a b -> same_refund_terms b c -> same_refund_terms a c.
Proof. unfold same_refund_terms. intuition congruence. Qed.

Lemma workflow_ok c : workflow c -> case_ok c.
Proof.
  induction 1 as [e command m Hm|c e op m Hc IH Hserve Hop].
  - apply Request_created in Hm as (Hg & Hv & Ha & Hs & Hl). constructor; cbn [ca_created ca_now ca_postings].
    + done.
    + done.
    + done.
    + rewrite Hv. destruct Hs as [->| ->]; cbn; lia.
    + auto.
    + intros account. rewrite Hl. unfold books, ledger. destruct Hs as [->| ->]; balance_books.
  - destruct IH as [Ht Hg Hst Hv He Hb]. apply op_mutates in Hop as (r & tenant & id & Hget & _ & _ & _ & Htr & Hvr & Hmut).
    apply Hserve in Hget as ->. constructor; cbn [ca_created ca_now ca_postings].
    + by eapply same_refund_terms_trans.
    + by eapply gross_ok_terms.
    + done.
    + pose proof (mutates_rank _ _ _ Hmut). rewrite Hvr, int64_id; [lia|].
      assert (0 <= status_rank (rf_Status (ru_Next m))) by (destruct (rf_Status (ru_Next m)); cbn; lia).
      unfold is_int64, min_int64, max_int64. lia.
    + intros Hcr. eapply mutates_eyes; [done| |by apply He]. apply Htr.
    + intros account. rewrite balance_app, Hb. by apply (mutates_books e).
Qed.

(** C2: The ledger always explains the refund: after any sequence of operations
    the persisted postings give every account exactly the position the status
    calls for, so the reserve holds the gross amount until the broadcast, is
    empty after it or after a cancellation, and the refund is at any time in
    exactly one of reserve, transit, completed and review. *)
Theorem refund_books_balance c account :
  workflow c -> balance account (ca_postings c) = position account (books (ca_now c)).
Proof. intros H. by apply workflow_ok. Qed.

(** C8: What leaves custody is what was requested and approved: the destination,
    amounts, asset, chain and creator never change after the request, and a
    refund that needed approval leaves custody only after someone other than its
    creator approved it. *)
Theorem refund_second_person_approved c :
  workflow c ->
  same_refund_terms (ca_created c) (ca_now c) /\
  (rf_Status (ca_created c) = StatusApprovalRequired -> departed (phase_of (rf_Status (ca_now c))) = true ->
   second_person (ca_now c)).
Proof.
  intros [Ht _ _ _ He _]%workflow_ok. split; [done|]. intros Hs Hd.
  destruct (He Hs) as [H|[H|H]]; [rewrite H in Hd; done|rewrite H in Hd; done|done].
Qed.

(** C10: The refund workflow refines the abstract custody machine: a request
    starts with the money held, and every mutation an operation hands to the
    repository is a step of the machine or leaves the phase as it is. *)
Theorem refund_refines_custody :
  (forall e command m, Request e command = Ok m -> phase_of (rf_Status (rm_Refund m)) = Held) /\
  (forall c e op m, workflow c -> serves e (ca_now c) -> run_op e op = Ok (Mutate m) ->
     phase_step (phase_of (rf_Status (ca_now c))) (phase_of (rf_Status (ru_Next m)))).
Proof.
  split.
  - intros e command m H. apply Request_created in H as (_ & _ & _ & [-> | ->] & _); done.
  - intros c e op m Hc Hserve Hop. apply op_mutates in Hop as (r & tenant & id & Hget & _ & _ & _ & _ & _ & Hmut).
    apply Hserve in Hget as ->. by eapply mutates_phase.
Qed.

(** C15: A refund goes through at most seven mutations: each raises the version by
    one, without overflow, and lowers the number of status changes left, so no
    sequence of operations keeps a refund busy for ever. *)
Theorem refund_workflow_bounded c :
  workflow c ->
  1 <= rf_Version (ca_now c) <= 8 - status_rank (rf_Status (ca_now c)) /\
  forall e op m, serves e (ca_now c) -> run_op e op = Ok (Mutate m) ->
    rf_Version (ru_Next m) = rf_Version (ca_now c) + 1 /\ ru_ExpectedVersion m = rf_Version (ca_now c) /\
    0 <= status_rank (rf_Status (ru_Next m)) < status_rank (rf_Status (ca_now c)).
Proof.
  intros [_ _ _ Hv _ _]%workflow_ok. split; [lia|]. intros e op m Hserve Hop.
  apply op_mutates in Hop as (r & tenant & id & Hget & Hev & _ & _ & _ & Hvr & Hmut). apply Hserve in Hget as ->.
  pose proof (mutates_rank _ _ _ Hmut).
  assert (0 <= status_rank (rf_Status (ru_Next m))) by (destruct (rf_Status (ru_Next m)); cbn; lia).
  rewrite Hvr, int64_id by (unfold is_int64, min_int64, max_int64; lia). done.
Qed.

(** ** Running a workflow *)

(** The workflow as a function: an environment that answers [Get] with the
    refund it is built from, and operations that choose their command by it. *)
Section runner.
Context (env_of : Refund -> refund_env) (Henv : forall r, serves (env_of r) r).

Definition start_case (e : refund_env) (command : RequestCommand) : option refund_case :=
  match Request e command with
  | Ok m => Some (mkCase (rm_Refund m) (rm_Refund m) (rm_Ledger m))
  | Err _ => None
  end.

Definition apply_op (c : refund_case) (op : Refund -> refund_op) : option refund_case :=
  match run_op (env_of (ca_now c)) (op (ca_now c)) with
  | Ok (Mutate m) => Some (mkCase (ca_created c) (ru_Next m) (ca_postings c ++ ru_Ledger m))
  | _ => None
  end.

Fixpoint run_ops (ops : list (Refund -> refund_op)) (c : refund_case) : option refund_case :=
  match ops with
  | [] => Some c
  | op :: rest => match apply_op c op with Some c' => run_ops rest c' | None => None end
  end.

Lemma run_ops_workflow ops : forall c c', workflow c -> run_ops ops c = Some c' -> workflow c'.
Proof using Henv.
  induction ops as [|op ops IH]; intros c c' Hc H; cbn [run_ops] in H; [by injection H as <-|].
  unfold apply_op in H. destruct (run_op _ _) as [[r|m]|] eqn:E; [done| |done].
  eapply IH; [|exact H]. eapply wf_update; [done|apply Henv|exact E].
Qed.
End runner.

Lemma start_case_workflow e command c : start_case e command = Some c -> workflow c.
Proof.
  unfold start_case. destruct (Request e command) as [m|] eqn:E; [|done]. intros [= <-]. by eapply wf_request.
Qed.

Definition sample_auth (actor : string) : AuthContext := mkAuth actor (fun _ => true) (UnixTime 2000000000).

Definition sample_settlement : Settlement :=
  mkSettlement "settlement-1" "tenant" "usdt" "eip155:1" "intent-1" "event-1" (mkAddress "eip155:1" "0xsender") 1000 100
    true false.

Definition sample_destination : VerifiedDestination :=
  mkDestination "dest-1" "tenant" "settlement-1" "usdt" (mkAddress "eip155:1" "0xsender") VerificationWalletSignature
    "evidence" (UnixTime 1600000000) 0 0.

Definition sample_refund_policy : RefundPolicy :=
  mkRefundPolicy "policy-1" "" 1 "tenant" "usdt" "eip155:1" true false true false true 900 5000 500 20
    FeeBearerCustomer [VerificationWalletSignature].

Definition sample_refund_env (r : Refund) : refund_env :=
  mkRefundEnv (UnixTime 1700000000) (fun n => dec_string (Z.of_nat n)) (mkIdentity "" "")
    (fun _ _ => Ok sample_settlement) (fun _ _ => Ok sample_destination) (fun _ _ => Ok sample_refund_policy)
    (fun _ _ => Ok r) None
    (fun r => Ok (mkRefundUnsigned (rf_ID r) (rf_TenantID r) (rf_SettlementID r) (rf_AssetID r) (rf_ChainID r)
                    (rf_Destination r) (rf_RefundAmount r) (rf_NetworkFee r) "digest" "reference"))
    (fun u => Ok (mkRefundSigned (un_RefundID u) (un_Digest u) "signed" "signed-reference"))
    (fun s => Ok (mkRefundReceipt (sg_SignedDigest s) "0xhash")) (fun _ _ _ _ _ _ => Ok "hash") (fun _ => "payload").

Definition zero_refund : Refund :=
  mkRefund "" "" "" "" "" "" 0 "" "" "" "" (mkAddress "" "") 0 0 0 FeeBearerMerchant StatusApprovalRequired [] "" "" "" ""
    "" 0 0 0.

Definition sample_request : RequestCommand :=
  mkRequest "tenant" "settlement-1" "dest-1" 600 10 "refund-key-1" (sample_auth "alice").

Definition sample_transition (r : Refund) : TransitionCommand :=
  mkTransition (rf_TenantID r) (rf_ID r) (rf_Version r) (sample_auth "carol").

Definition sample_ops : list (Refund -> refund_op) :=
  [fun r => OpApprove (mkDecision (rf_TenantID r) (rf_ID r) (rf_Version r) "checked" (sample_auth "bob"));
   fun r => OpPrepare (sample_transition r); fun r => OpSign (sample_transition r);
   fun r => OpBroadcast (sample_transition r);
   fun r => OpChainResult (mkChainResult (rf_TenantID r) (rf_ID r) (rf_Version r) "0xhash" StatusConfirmed "proof"
                             (mkWorkload "scanner" (fun _ => true)))].

(** The refund of 600 with a fee of 10, after [n] of the operations above. *)
Definition sample_case (n : nat) : refund_case :=
  match start_case (sample_refund_env zero_refund) sample_request with
  | Some c => default c (run_ops sample_refund_env (take n sample_ops) c)
  | None => mkCase zero_refund zero_refund []
  end.

Lemma sample_case_workflow n : workflow (sample_case n).
Proof.
  unfold sample_case. destruct (start_case _ _) as [c|] eqn:E; [|vm_compute in E; discriminate E].
  pose proof (start_case_workflow _ _ _ E) as Hc.
  destruct (run_ops _ _ _) as [c'|] eqn:Er; cbn; [|done]. eapply run_ops_workflow; [|exact Hc|exact Er].
  by intros r tenant id current [= <-].
Qed.

Lemma Request_safe_witness :
  exists m, Request (sample_refund_env zero_refund) sample_request = Ok m /\
    rf_GrossAmount (rm_Refund m) = rf_RefundAmount (rm_Refund m) + customer_fee (rm_Refund m).
Proof.
  destruct (Request (sample_refund_env zero_refund) sample_request) as [m|] eqn:E; [|vm_compute in E; discriminate E].
  exists m. split; [done|].
  destruct (Request_safe (sample_refund_env zero_refund) sample_request m E) as (_ & se & po & vd & Hs).
  apply Hs.
Defined.

Lemma refund_books_balance_witness :
  balance "refund_in_transit" (ca_postings (sample_case 5)) = 600 /\
  balance "refund_reserved:0" (ca_postings (sample_case 5)) = 0 /\
  balance "refund_reserved:0" (ca_postings (sample_case 3)) = 610.
Proof.
  split; [|split]; (rewrite refund_books_balance; [vm_compute; reflexivity|apply sample_case_workflow]).
Defined.

Lemma refund_second_person_approved_witness : second_person (ca_now (sample_case 4)).
Proof.
  apply (refund_second_person_approved (sample_case 4)); [apply sample_case_workflow|vm_compute; reflexivity..].
Defined.

Lemma refund_workflow_bounded_witness : 1 <= rf_Version (ca_now (sample_case 5)) <= 6.
Proof.
  destruct (refund_workflow_bounded (sample_case 5) (sample_case_workflow 5)) as [H _]. exact H.
Defined.
