(* ===== verification/Treasury.v ===== *)
(** * Treasury: internal/treasury (model.go, ports.go, service.go)

    The sweep workflow: a batch of custody addresses is swept to an allowlisted
    destination under a policy, with the same approval, build, sign, broadcast
    and chain-result steps as a refund. *)

From Stdlib Require Import ZArith Lia Ascii String Permutation Sorted.
From stdpp Require Import base sets list strings.
From S2P Require Import Prelude Text Money Custody.

(** ** model.go *)

Record AllowlistEntry := mkEntry {
  al_TenantID : string; al_AssetID : string; al_Address : Address; al_ValidFrom : Time; al_ValidTo : Time }.

Definition Entry_Allows (e : AllowlistEntry) (tenant asset : string) (address : Address) (at_ : Time) : bool :=
  (al_TenantID e == tenant) && (al_AssetID e == asset) && address_eqb (al_Address e) address
  && negb (Before at_ (al_ValidFrom e)) && (IsZeroTime (al_ValidTo e) || Before at_ (al_ValidTo e)).

Record SweepPolicy := mkSweepPolicy {
  tp_ID : string; tp_Version : Z; tp_TenantID : string; tp_AssetID : string; tp_ChainID : string;
  tp_Enabled : bool; tp_EmergencyPaused : bool; tp_SweepThreshold : Amount; tp_ReserveAmount : Amount;
  tp_MaximumRequestAmount : Amount; tp_DailyAmountLimit : Amount; tp_ApprovalThreshold : Amount;
  tp_MaximumNetworkFee : Amount; tp_MaximumBatchSize : Z; tp_RequireApprovalAlways : bool;
  tp_Destinations : list AllowlistEntry }.

Definition invalid_sweep (msg : string) : custody_error := Wrapped CuErrValidation msg.

(** The loop over the destinations of the policy. *)
Fixpoint destinations_error (p : SweepPolicy) (entries : list AllowlistEntry) : option custody_error :=
  match entries with
  | [] => None
  | entry :: rest =>
      if (al_TenantID entry != tp_TenantID p) || (al_AssetID entry != tp_AssetID p)
         || (ad_Chain (al_Address entry) != tp_ChainID p)
      then Some (invalid_sweep "destination crosses policy tenant, asset, or chain")
      else if negb (Address_Validate (al_Address entry)) then Some (invalid_sweep "address must be canonical")
      else if negb (IsZeroTime (al_ValidTo entry)) && negb (After (al_ValidTo entry) (al_ValidFrom entry))
      then Some (invalid_sweep "invalid allowlist validity interval")
      else destinations_error p rest
  end.

Definition SweepPolicy_Validate (p : SweepPolicy) : result custody_error unit :=
  if (tp_ID p == "") || (tp_Version p <? 1) || (tp_TenantID p == "") || (tp_AssetID p == "") || (tp_ChainID p == "")
  then Err (invalid_sweep "policy identity and version are required")
  else if (tp_MaximumBatchSize p <? 1) || (tp_MaximumBatchSize p >? 1000)
  then Err (invalid_sweep "maximum batch size must be in [1,1000]")
  else if IsZero (tp_SweepThreshold p) || IsZero (tp_MaximumRequestAmount p) || IsZero (tp_DailyAmountLimit p)
  then Err (invalid_sweep "positive threshold and limits are required")
  else if Cmp (tp_ReserveAmount p) (tp_SweepThreshold p) >=? 0
  then Err (invalid_sweep "reserve must be below sweep threshold")
  else if Cmp (tp_ApprovalThreshold p) (tp_MaximumRequestAmount p) >? 0
  then Err (invalid_sweep "approval threshold exceeds request limit")
  else if Cmp (tp_MaximumRequestAmount p) (tp_DailyAmountLimit p) >? 0
  then Err (invalid_sweep "request limit exceeds daily limit")
  else match destinations_error p (tp_Destinations p) with
       | Some err => Err err
       | None => Ok tt
       end.

Definition AllowsDestination (p : SweepPolicy) (destination : Address) (at_ : Time) : bool :=
  existsb (fun entry => Entry_Allows entry (tp_TenantID p) (tp_AssetID p) destination at_) (tp_Destinations p).

Record Source := mkSweepSource { so_Address : Address; so_Available : Amount; so_NonceRef : string }.
Record BatchItem := mkItem { bi_Source : Address; bi_Amount : Amount; bi_NonceRef : string }.

Record SweepRequest := mkSweep {
  sw_ID : string; sw_TenantID : string; sw_AssetID : string; sw_ChainID : string; sw_PolicyID : string;
  sw_PolicyVersion : Z; sw_IdempotencyKey : string; sw_RequestHash : string; sw_CreatorID : string;
  sw_Destination : Address; sw_Items : list BatchItem; sw_Amount : Amount; sw_FeeCap : Amount; sw_QuotedFee : Amount;
  sw_Status : Status; sw_Approvals : list Approval; sw_UnsignedDigest : string; sw_UnsignedTransactionRef : string;
  sw_SignedDigest : string; sw_SignedTransactionRef : string; sw_TransactionHash : string; sw_FailureCode : string;
  sw_Version : Z; sw_CreatedAt : Time; sw_UpdatedAt : Time }.

Definition Terminal (r : SweepRequest) : bool :=
  match sw_Status r with
  | StatusFinalized | StatusRejected | StatusCancelled | StatusFailed => true
  | _ => false
  end.

(** ** ports.go *)

Record Limits := mkLimits { li_WindowStart : Time; li_WindowEnd : Time; li_Maximum : Amount }.
Record SourceReservation := mkReservation { sv_Address : Address; sv_NonceRef : string }.

Record SweepCreate := mkSweepCreate {
  sm_Request : SweepRequest; sm_Limits : Limits; sm_Sources : list SourceReservation; sm_Audit : AuditCommand;
  sm_Ledger : list LedgerCommand; sm_Outbox : list OutboxCommand }.

Record SweepUpdate := mkSweepUpdate {
  su_TenantID : string; su_RequestID : string; su_ExpectedVersion : Z; su_Next : SweepRequest; su_Audit : AuditCommand;
  su_Ledger : list LedgerCommand; su_ReleaseSources : list SourceReservation; su_Outbox : list OutboxCommand;
  su_DecisionOperation : string; su_Decision : MutationIdentity; su_DecisionActor : string }.

Record SweepUnsigned := mkSweepUnsigned {
  ut_RequestID : string; ut_TenantID : string; ut_AssetID : string; ut_ChainID : string; ut_Destination : Address;
  ut_Amount : Amount; ut_Fee : Amount; ut_Digest : string; ut_OpaqueReference : string }.

Record SweepSigned := mkSweepSigned {
  st_RequestID : string; st_UnsignedDigest : string; st_SignedDigest : string; st_OpaqueReference : string }.

Record SweepReceipt := mkSweepReceipt { br_SignedDigest : string; br_TransactionHash : string }.

(** ** service.go *)

Record RequestSweepCommand := mkRequestSweep {
  rs_TenantID : string; rs_AssetID : string; rs_IdempotencyKey : string; rs_Destination : Address;
  rs_Sources : list Source; rs_FeeQuote : Amount; rs_Auth : AuthContext }.

(** [ApproveCommand]; [Cancel] takes a [TransitionCommand] and its reason. *)
Record SweepDecision := mkSweepDecision {
  sd_TenantID : string; sd_RequestID : string; sd_ExpectedVersion : Z; sd_Reason : string; sd_Auth : AuthContext }.

Record SweepTransition := mkSweepTransition {
  sx_TenantID : string; sx_RequestID : string; sx_ExpectedVersion : Z; sx_Auth : AuthContext }.

Record SweepChainResult := mkSweepChainResult {
  sc_TenantID : string; sc_RequestID : string; sc_ExpectedVersion : Z; sc_TransactionHash : string; sc_Status : Status;
  sc_EvidenceDigest : string; sc_Workload : WorkloadContext }.

(** The ports: clock, identifiers in the order of their calls, the identity in
    the context, the repositories and the custody backend. *)
Record sweep_env := mkSweepEnv {
  ts_now : Time; ts_ids : nat -> string; ts_identity : MutationIdentity;
  ts_policy : string -> string -> result custody_error SweepPolicy;
  ts_get : string -> string -> result custody_error SweepRequest;
  ts_replay : option (string -> string -> string -> MutationIdentity -> result custody_error (option SweepRequest));
  ts_build : SweepRequest -> result string SweepUnsigned;
  ts_sign : SweepUnsigned -> result string SweepSigned;
  ts_broadcast : SweepSigned -> result string SweepReceipt;
  ts_hash : SweepPolicy -> Address -> list BatchItem -> Amount -> Amount -> result custody_error string;
  ts_encode : SweepRequest -> string }.

Definition source_before (i j : Source) : bool := str_less (ad_Value (so_Address i)) (ad_Value (so_Address j)).

(** The loop of [buildBatch]: the items so far are kept in order, and the loop
    stops when the batch is full. *)
Fixpoint batch_loop (policy : SweepPolicy) (seen : list Address) (items : list BatchItem) (total : Amount)
    (sources : list Source) : result custody_error (list BatchItem * Amount) :=
  match sources with
  | [] => Ok (items, total)
  | source :: rest =>
      let address := so_Address source in
      if negb (Address_Validate address) || (ad_Chain address != tp_ChainID policy) || (TrimSpace (so_NonceRef source) == "")
      then Err (invalid_sweep "invalid source")
      else if existsb (address_eqb address) seen then Err (invalid_sweep "duplicate source address")
      else
        let seen := address :: seen in
        if Cmp (so_Available source) (tp_SweepThreshold policy) <? 0 then batch_loop policy seen items total rest
        else
          match Sub (so_Available source) (tp_ReserveAmount policy) with
          | Err _ => batch_loop policy seen items total rest
          | Ok amount =>
              if IsZero amount then batch_loop policy seen items total rest
              else
                match Add total amount with
                | Err _ => Err (Wrapped CuErrPolicyLimit "batch amount overflow")
                | Ok next =>
                    if Cmp next (tp_MaximumRequestAmount policy) >? 0 then batch_loop policy seen items total rest
                    else
                      let items := items ++ [mkItem address amount (so_NonceRef source)] in
                      if Z.of_nat (length items) =? tp_MaximumBatchSize policy then Ok (items, next)
                      else batch_loop policy seen items next rest
                end
          end
  end.

Definition buildBatch (policy : SweepPolicy) (sources : list Source) : result custody_error (list BatchItem * Amount) :=
  if Z.of_nat (length sources) =? 0 then Err (invalid_sweep "at least one source is required")
  else
    match batch_loop policy [] [] Zero (sort_by source_before sources) with
    | Err err => Err err
    | Ok (items, total) =>
        if (Z.of_nat (length items) =? 0) || IsZero total
        then Err (Wrapped CuErrPolicyLimit "no source meets sweep policy")
        else Ok (items, total)
    end.

(** [next := current] with its status, version and time set, and the fields an
    operation fills in. *)
Definition sweep_next (r : SweepRequest) (status : Status) (approvals : list Approval) (ud ur sd sr tx : string)
    (now : Time) : SweepRequest :=
  mkSweep (sw_ID r) (sw_TenantID r) (sw_AssetID r) (sw_ChainID r) (sw_PolicyID r) (sw_PolicyVersion r)
    (sw_IdempotencyKey r) (sw_RequestHash r) (sw_CreatorID r) (sw_Destination r) (sw_Items r) (sw_Amount r)
    (sw_FeeCap r) (sw_QuotedFee r) status approvals ud ur sd sr tx (sw_FailureCode r) (int64 (sw_Version r + 1))
    (sw_CreatedAt r) now.

Definition sourceReservations (items : list BatchItem) : list SourceReservation :=
  (fun item => mkReservation (bi_Source item) (bi_NonceRef item)) <$> items.

Definition validateUnsigned (request : SweepRequest) (t : SweepUnsigned) : result custody_error unit :=
  if (ut_RequestID t != sw_ID request) || (ut_TenantID t != sw_TenantID request) || (ut_AssetID t != sw_AssetID request)
     || (ut_ChainID t != sw_ChainID request) || negb (address_eqb (ut_Destination t) (sw_Destination request))
     || negb (Cmp (ut_Amount t) (sw_Amount request) =? 0)
  then Err (invalid_sweep "builder changed approved sweep fields")
  else if (Cmp (ut_Fee t) (sw_FeeCap request) >? 0) || (TrimSpace (ut_Digest t) == "")
          || (TrimSpace (ut_OpaqueReference t) == "")
  then Err (Wrapped CuErrPolicyLimit "invalid unsigned transaction or fee cap exceeded")
  else Ok tt.

Section operations.
Context (e : sweep_env).

Definition authorize (a : AuthContext) (permission : string) : result custody_error unit :=
  if (au_ActorID a == "") || negb (au_Permissions a permission) then Err (Sentinel CuErrForbidden)
  else if negb (After (au_StepUpValidUntil a) (ts_now e))
  then Err (Wrapped CuErrForbidden "active step-up authentication is required")
  else Ok tt.

Definition sweep_audit (n : nat) (tenant aggregate actor action reason : string) : AuditCommand :=
  mkAudit (ts_ids e n) tenant aggregate actor action reason (ts_now e).

Definition sweep_event (n : nat) (tenant aggregate eventType : string) (payload : SweepRequest) : OutboxCommand :=
  mkOutbox (ts_ids e n) tenant aggregate eventType (ts_encode e payload) (ts_now e).

Definition updateMutation (current next : SweepRequest) (actor action reason : string) (ledger : list LedgerCommand)
    (release : list SourceReservation) (operation : string) (decision : MutationIdentity) (decider : string) : SweepUpdate :=
  mkSweepUpdate (sw_TenantID current) (sw_ID current) (sw_Version current) next
    (sweep_audit 0 (sw_TenantID current) (sw_ID current) actor action reason) ledger release
    [sweep_event 1 (sw_TenantID current) (sw_ID current) action next] operation decision decider.

Definition plain_update (current next : SweepRequest) (actor action reason : string) : SweepUpdate :=
  updateMutation current next actor action reason [] [] "" (mkIdentity "" "") "".

Definition sweep_mutation (command : RequestSweepCommand) (policy : SweepPolicy) (items : list BatchItem)
    (total : Amount) (requestHash : string) : SweepCreate :=
  let now := ts_now e in
  let status := if tp_RequireApprovalAlways policy || (Cmp total (tp_ApprovalThreshold policy) >? 0)
                then StatusApprovalRequired else StatusApproved in
  let id := ts_ids e 0 in
  let request :=
    mkSweep id (rs_TenantID command) (rs_AssetID command) (tp_ChainID policy) (tp_ID policy) (tp_Version policy)
      (rs_IdempotencyKey command) requestHash (au_ActorID (rs_Auth command)) (rs_Destination command) items total
      (tp_MaximumNetworkFee policy) (rs_FeeQuote command) status [] "" "" "" "" "" "" 1 now now in
  let eventType := if bool_decide (status = StatusApprovalRequired) then "sweep.approval_required" else "sweep.approved" in
  mkSweepCreate request (mkLimits (startUTC now) (AddTime (startUTC now) (24 * Hour)) (tp_DailyAmountLimit policy))
    (sourceReservations items)
    (sweep_audit 1 (rs_TenantID command) id (au_ActorID (rs_Auth command)) "sweep.requested" "policy evaluated") []
    [sweep_event 2 (rs_TenantID command) id eventType request].

Definition RequestSweep (command : RequestSweepCommand) : result custody_error SweepCreate :=
  match authorize (rs_Auth command) "treasury:sweeps:create" with
  | Err err => Err err
  | Ok _ =>
      if (rs_TenantID command == "") || (rs_AssetID command == "") || (len (rs_IdempotencyKey command) <? 8)
         || (len (rs_IdempotencyKey command) >? 255)
      then Err (invalid_sweep "tenant, asset, and idempotency key are required")
      else
        match ts_policy e (rs_TenantID command) (rs_AssetID command) with
        | Err err => Err err
        | Ok policy =>
            match SweepPolicy_Validate policy with
            | Err err => Err err
            | Ok _ =>
                if (tp_TenantID policy != rs_TenantID command) || (tp_AssetID policy != rs_AssetID command)
                then Err (invalid_sweep "policy tenant or asset mismatch")
                else if negb (tp_Enabled policy) || tp_EmergencyPaused policy
                then Err (Wrapped CuErrPolicyLimit "treasury is disabled or paused")
                else if negb (Address_Validate (rs_Destination command))
                        || (ad_Chain (rs_Destination command) != tp_ChainID policy)
                then Err (invalid_sweep "invalid destination chain")
                else if negb (AllowsDestination policy (rs_Destination command) (ts_now e))
                then Err (Sentinel CuErrDestinationDenied)
                else if Cmp (rs_FeeQuote command) (tp_MaximumNetworkFee policy) >? 0
                then Err (Wrapped CuErrPolicyLimit "network fee exceeds cap")
                else
                  match buildBatch policy (rs_Sources command) with
                  | Err err => Err err
                  | Ok (items, total) =>
                      match ts_hash e policy (rs_Destination command) items total (rs_FeeQuote command) with
                      | Err err => Err err
                      | Ok computed =>
                          let fingerprint := mi_Fingerprint (ts_identity e) in
                          let requestHash := if fingerprint != "" then hex_encode fingerprint else computed in
                          Ok (sweep_mutation command policy items total requestHash)
                      end
                  end
            end
        end
  end.

Definition sweep_replay (tenant actor operation : string) : result custody_error (option SweepRequest) :=
  let key := mi_Key (ts_identity e) in
  let fingerprint := mi_Fingerprint (ts_identity e) in
  if (key == "") && (fingerprint == "") then Ok None
  else if (len key <? 8) || (len key >? 255) || (key != TrimSpace key) || (fingerprint == "")
  then Err (Sentinel CuErrValidation)
  else match ts_replay e with
       | None => Err (Sentinel CuErrValidation)
       | Some replay => replay tenant actor operation (ts_identity e)
       end.

Definition SweepApprove (command : SweepDecision) : result custody_error (effect SweepRequest SweepUpdate) :=
  let actor := au_ActorID (sd_Auth command) in
  match authorize (sd_Auth command) "treasury:sweeps:approve" with
  | Err err => Err err
  | Ok _ =>
      if (sd_TenantID command == "") || (sd_RequestID command == "") || (sd_ExpectedVersion command <? 1)
         || (TrimSpace (sd_Reason command) == "") || (len (sd_Reason command) >? 2048)
      then Err (invalid_sweep "approval identity, version, and reason are required")
      else
        match sweep_replay (sd_TenantID command) actor "sweep.approve" with
        | Err err => Err err
        | Ok (Some r) => Ok (Reply r)
        | Ok None =>
            match ts_get e (sd_TenantID command) (sd_RequestID command) with
            | Err err => Err err
            | Ok current =>
                if negb (sw_Version current =? sd_ExpectedVersion command) then Err (Sentinel CuErrVersionConflict)
                else if bool_decide (sw_Status current <> StatusApprovalRequired) then Err (Sentinel CuErrStateConflict)
                else if sw_CreatorID current == actor then Err (Wrapped CuErrForbidden "creator cannot approve own sweep")
                else
                  let approvals := sw_Approvals current ++ [mkApproval actor (ts_now e) (TrimSpace (sd_Reason command))] in
                  let next := sweep_next current StatusApproved approvals (sw_UnsignedDigest current)
                                (sw_UnsignedTransactionRef current) (sw_SignedDigest current)
                                (sw_SignedTransactionRef current) (sw_TransactionHash current) (ts_now e) in
                  Ok (Mutate (updateMutation current next actor "sweep.approved" (sd_Reason command) [] []
                                "sweep.approve" (ts_identity e) actor))
            end
        end
  end.

(** [next := current] with a new status only. *)
Definition moved (current : SweepRequest) (status : Status) : SweepRequest :=
  sweep_next current status (sw_Approvals current) (sw_UnsignedDigest current) (sw_UnsignedTransactionRef current)
    (sw_SignedDigest current) (sw_SignedTransactionRef current) (sw_TransactionHash current) (ts_now e).

Definition SweepCancel (command : SweepDecision) : result custody_error (effect SweepRequest SweepUpdate) :=
  let actor := au_ActorID (sd_Auth command) in
  match authorize (sd_Auth command) "treasury:sweeps:cancel" with
  | Err err => Err err
  | Ok _ =>
      if (TrimSpace (sd_Reason command) == "") || (len (sd_Reason command) >? 2048) then Err (Sentinel CuErrValidation)
      else
        match sweep_replay (sd_TenantID command) actor "sweep.cancel" with
        | Err err => Err err
        | Ok (Some r) => Ok (Reply r)
        | Ok None =>
            match ts_get e (sd_TenantID command) (sd_RequestID command) with
            | Err err => Err err
            | Ok current =>
                if negb (sw_Version current =? sd_ExpectedVersion command) then Err (Sentinel CuErrVersionConflict)
                else
                  match sw_Status current with
                  | StatusApprovalRequired | StatusApproved | StatusAwaitingSignature =>
                      Ok (Mutate (updateMutation current (moved current StatusCancelled) actor "sweep.cancelled"
                                    (sd_Reason command) [] (sourceReservations (sw_Items current)) "sweep.cancel"
                                    (ts_identity e) actor))
                  | _ => Err (Sentinel CuErrStateConflict)
                  end
            end
        end
  end.

Definition loadForTransition (command : SweepTransition) (expected : Status) : result custody_error SweepRequest :=
  if (sx_TenantID command == "") || (sx_RequestID command == "") || (sx_ExpectedVersion command <? 1)
  then Err (invalid_sweep "transition identity and version are required")
  else match ts_get e (sx_TenantID command) (sx_RequestID command) with
       | Err err => Err err
       | Ok current =>
           if negb (sw_Version current =? sx_ExpectedVersion command) then Err (Sentinel CuErrVersionConflict)
           else if bool_decide (sw_Status current <> expected) then Err (Sentinel CuErrStateConflict)
           else Ok current
       end.

Definition SweepPrepare (command : SweepTransition) : result custody_error (effect SweepRequest SweepUpdate) :=
  match authorize (sx_Auth command) "treasury:sweeps:execute" with
  | Err err => Err err
  | Ok _ =>
      match loadForTransition command StatusApproved with
      | Err err => Err err
      | Ok current =>
          match ts_build e current with
          | Err msg => Err (Plain ("build unsigned sweep: " +:+ msg))
          | Ok unsigned =>
              match validateUnsigned current unsigned with
              | Err err => Err err
              | Ok _ =>
                  let next := sweep_next current StatusAwaitingSignature (sw_Approvals current) (ut_Digest unsigned)
                                (ut_OpaqueReference unsigned) (sw_SignedDigest current)
                                (sw_SignedTransactionRef current) (sw_TransactionHash current) (ts_now e) in
                  Ok (Mutate (plain_update current next (au_ActorID (sx_Auth command)) "sweep.awaiting_signature"
                                "unsigned transaction verified"))
              end
          end
      end
  end.

(** The transaction the signer is asked to sign. *)
Definition sweep_unsigned (r : SweepRequest) : SweepUnsigned :=
  mkSweepUnsigned (sw_ID r) (sw_TenantID r) (sw_AssetID r) (sw_ChainID r) (sw_Destination r) (sw_Amount r)
    (sw_QuotedFee r) (sw_UnsignedDigest r) (sw_UnsignedTransactionRef r).

Definition SweepSign (command : SweepTransition) : result custody_error (effect SweepRequest SweepUpdate) :=
  match authorize (sx_Auth command) "treasury:sweeps:sign" with
  | Err err => Err err
  | Ok _ =>
      match loadForTransition command StatusAwaitingSignature with
      | Err err => Err err
      | Ok current =>
          match ts_sign e (sweep_unsigned current) with
          | Err msg => Err (Plain ("sign sweep: " +:+ msg))
          | Ok signed =>
              if (st_RequestID signed != sw_ID current) || (st_UnsignedDigest signed != sw_UnsignedDigest current)
                 || (TrimSpace (st_SignedDigest signed) == "") || (TrimSpace (st_OpaqueReference signed) == "")
              then Err (invalid_sweep "signer response does not bind the approved unsigned digest")
              else
                let next := sweep_next current StatusSigned (sw_Approvals current) (sw_UnsignedDigest current)
                              (sw_UnsignedTransactionRef current) (st_SignedDigest signed) (st_OpaqueReference signed)
                              (sw_TransactionHash current) (ts_now e) in
                Ok (Mutate (plain_update current next (au_ActorID (sx_Auth command)) "sweep.signed"
                              "isolated signer response verified"))
          end
      end
  end.

Definition sweep_fee_ledger (current : SweepRequest) : list LedgerCommand :=
  if IsZero (sw_QuotedFee current) then []
  else [mkLedgerCmd (ts_ids e 2) "sweep.network_fee" (sw_ID current) "network_fee_expense" "custody_asset"
          (sw_TenantID current) (sw_AssetID current) (sw_QuotedFee current) (ts_now e)].

Definition SweepBroadcast (command : SweepTransition) : result custody_error (effect SweepRequest SweepUpdate) :=
  match authorize (sx_Auth command) "treasury:sweeps:broadcast" with
  | Err err => Err err
  | Ok _ =>
      match loadForTransition command StatusSigned with
      | Err err => Err err
      | Ok current =>
          match ts_broadcast e (mkSweepSigned (sw_ID current) (sw_UnsignedDigest current) (sw_SignedDigest current)
                                  (sw_SignedTransactionRef current)) with
          | Err msg => Err (Plain ("broadcast sweep: " +:+ msg))
          | Ok receipt =>
              if (br_SignedDigest receipt != sw_SignedDigest current) || (TrimSpace (br_TransactionHash receipt) == "")
              then Err (invalid_sweep "broadcaster receipt does not bind signed digest")
              else
                let next := sweep_next current StatusBroadcast (sw_Approvals current) (sw_UnsignedDigest current)
                              (sw_UnsignedTransactionRef current) (sw_SignedDigest current)
                              (sw_SignedTransactionRef current) (br_TransactionHash receipt) (ts_now e) in
                Ok (Mutate (updateMutation current next (au_ActorID (sx_Auth command)) "sweep.broadcast"
                              "signed transaction broadcast" (sweep_fee_ledger current) [] "" (mkIdentity "" "") ""))
          end
      end
  end.

Definition sweep_allowed (current new : Status) : bool :=
  match new with
  | StatusConfirmed => bool_decide (current = StatusBroadcast)
  | StatusFinalized => bool_decide (current = StatusConfirmed)
  | StatusReorged => bool_decide (current = StatusBroadcast) || bool_decide (current = StatusConfirmed)
                     || bool_decide (current = StatusFinalized)
  | StatusFailed => bool_decide (current = StatusBroadcast)
  | _ => false
  end.

Definition SweepRecordChainResult (c : SweepChainResult) : result custody_error (effect SweepRequest SweepUpdate) :=
  if negb (Workload_Authorize (sc_Workload c) "treasury:sweeps:observe") then Err (Sentinel CuErrForbidden)
  else if (TrimSpace (sc_TransactionHash c) == "") || (TrimSpace (sc_EvidenceDigest c) == "")
  then Err (Sentinel CuErrValidation)
  else match ts_get e (sc_TenantID c) (sc_RequestID c) with
       | Err err => Err err
       | Ok current =>
           if negb (sw_Version current =? sc_ExpectedVersion c) then Err (Sentinel CuErrVersionConflict)
           else if sw_TransactionHash current != sc_TransactionHash c
           then Err (invalid_sweep "transaction hash mismatch")
           else if negb (sweep_allowed (sw_Status current) (sc_Status c)) then Err (Sentinel CuErrStateConflict)
           else Ok (Mutate (plain_update current (moved current (sc_Status c)) (wl_ActorID (sc_Workload c))
                              ("sweep." +:+ Status_string (sc_Status c)) (sc_EvidenceDigest c)))
       end.
End operations.

(** ** The batch *)

Definition item_of (policy : SweepPolicy) (s : Source) (i : BatchItem) : Prop :=
  bi_Source i = so_Address s /\ bi_NonceRef i = so_NonceRef s /\ tp_SweepThreshold policy <= so_Available s /\
  bi_Amount i + tp_ReserveAmount policy = so_Available s /\ bi_Amount i <> 0 /\ ad_Chain (so_Address s) = tp_ChainID policy.

(** The state of the loop: the items are distinct sources taken from the ones
    already visited, and the total is their sum within the request limit. *)
Record batch_ok (policy : SweepPolicy) (visited : list Source) (seen : list Address) (items : list BatchItem)
    (total : Amount) : Prop := mk_batch_ok {
  bk_from : forall i, i ∈ items -> exists s, s ∈ visited /\ item_of policy s i /\ bi_Source i ∈ seen;
  bk_distinct : NoDup (bi_Source <$> items);
  bk_total : total = sumZ (bi_Amount <$> items);
  bk_limit : items <> [] -> total <= tp_MaximumRequestAmount policy;
  bk_size : Z.of_nat (length items) <= tp_MaximumBatchSize policy }.

Lemma Sub_value a b c : Sub a b = Ok c -> c = a - b /\ b <= a.
Proof.
  unfold Sub, Cmp. destruct (Z.compare_spec a b); cbn; [| done|]; intros [= <-]; lia.
Qed.

Lemma Cmp_lt_zero a b : (Cmp a b <? 0) = (a <? b).
Proof. unfold Cmp. destruct (Z.compare_spec a b); symmetry; [apply Z.ltb_ge|apply Z.ltb_lt|apply Z.ltb_ge]; lia. Qed.

Lemma Cmp_gt_zero a b : (Cmp a b >? 0) = (b <? a).
Proof. unfold Cmp. destruct (Z.compare_spec a b); symmetry; [apply Z.ltb_ge|apply Z.ltb_ge|apply Z.ltb_lt]; lia. Qed.

Lemma batch_ok_weaken policy visited seen items total s a :
  batch_ok policy visited seen items total -> batch_ok policy (s :: visited) (a :: seen) items total.
Proof.
  intros [H1 H2 H3 H4 H5]. constructor; [|done..]. intros i Hi.
  destruct (H1 i Hi) as (x & Hx & Hit & Hin). exists x. split; [by right|]. split; [done|by right].
Qed.

Lemma batch_loop_ok policy sources : forall visited seen items total items' total',
  Z.of_nat (length items) < tp_MaximumBatchSize policy ->
  batch_ok policy visited seen items total -> batch_loop policy seen items total sources = Ok (items', total') ->
  exists visited' seen', (forall s, s ∈ visited' -> s ∈ visited \/ s ∈ sources) /\
    batch_ok policy visited' seen' items' total'.
Proof.
  induction sources as [|s sources IH]; intros visited seen items total items' total' Hlen Hok H; cbn [batch_loop] in H.
  { injection H as <- <-. exists visited, seen. auto. }
  destruct (negb (Address_Validate _) || _ || _) eqn:Ev; [done|]. bool_hyp.
  destruct (existsb _ seen) eqn:Es; [done|].
  assert (Hseen : so_Address s ∉ seen).
  { intros Hin. apply not_true_iff_false in Es. apply Es, existsb_exists. exists (so_Address s).
    split; [by apply list_elem_of_In|by apply address_eqb_eq]. }
  cbn zeta in H. rewrite Cmp_lt_zero in H.
  assert (Hskip : forall items'' total'', batch_loop policy (so_Address s :: seen) items total sources = Ok (items'', total'') ->
    exists visited' seen', (forall x, x ∈ visited' -> x ∈ visited \/ x ∈ s :: sources) /\
      batch_ok policy visited' seen' items'' total'').
  { intros i t Hl. destruct (IH (s :: visited) _ _ _ _ _ Hlen (batch_ok_weaken _ _ _ _ _ s (so_Address s) Hok) Hl)
      as (v & sn & Hv & Hb). exists v, sn. split; [|done]. intros x Hx. destruct (Hv x Hx); set_solver. }
  destruct (so_Available s <? tp_SweepThreshold policy) eqn:Et; [auto|]. bool_hyp.
  destruct (Sub _ _) as [amount|] eqn:Esub; [|auto]. apply Sub_value in Esub as [-> _].
  destruct (IsZero _) eqn:Ez; [auto|]. unfold IsZero in Ez. bool_hyp.
  destruct (Add total _) as [next|] eqn:Ea; [|done]. rewrite Cmp_gt_zero in H.
  assert (Hnext : next = total + (so_Available s - tp_ReserveAmount policy)).
  { unfold Add, checked in Ea. destruct (_ >? 256); [done|]. by injection Ea as <-. }
  destruct (tp_MaximumRequestAmount policy <? next) eqn:Em; [auto|]. bool_hyp.
  set (item := mkItem (so_Address s) (so_Available s - tp_ReserveAmount policy) (so_NonceRef s)) in *.
  assert (Hnew : batch_ok policy (s :: visited) (so_Address s :: seen) (items ++ [item]) next).
  { destruct Hok as [Hfr Hnd Htot Hlim Hsz]. constructor.
    - intros i [Hi|Hi%list_elem_of_singleton]%elem_of_app.
      + destruct (Hfr i Hi) as (x & Hx & Hit & Hin). exists x. split; [by right|]. split; [done|by right].
      + subst i. exists s. split; [left|]. split; [|left]. unfold item_of, item; cbn. repeat split; lia || done.
    - rewrite fmap_app. apply NoDup_app. split; [done|]. split; [|by repeat constructor; set_solver].
      intros a (i & -> & Hi)%list_elem_of_fmap [Ha|Ha]%elem_of_cons; [|by apply elem_of_nil in Ha].
      destruct (Hfr i Hi) as (_ & _ & _ & Hin). cbn in Ha. rewrite Ha in Hin. done.
    - rewrite fmap_app, sumZ_app. cbn. lia.
    - intros _. done.
    - rewrite length_app. cbn. lia. }
  destruct (_ =? tp_MaximumBatchSize policy) eqn:El; bool_hyp.
  - injection H as <- <-. exists (s :: visited), (so_Address s :: seen). split; [|done]. set_solver.
  - rewrite length_app in El. cbn in El.
    destruct (IH (s :: visited) (so_Address s :: seen) (items ++ [item]) next items' total')
      as (v & sn & Hv & Hb); [rewrite length_app; cbn; lia|done|done|].
    exists v, sn. split; [|done]. intros x Hx. destruct (Hv x Hx); set_solver.
Qed.

(** A sweep moves only what the policy allows: every item of the batch is one
    of the given sources, on the policy's chain and at or above the threshold,
    gives exactly what it has beyond the reserve, no source is used twice, the
    batch is not empty and not larger than the policy's size, and its total is
    the sum of its items, within the request limit. *)
Theorem buildBatch_within_policy policy sources items total :
  1 <= tp_MaximumBatchSize policy -> buildBatch policy sources = Ok (items, total) ->
  (forall i, i ∈ items -> exists s, s ∈ sources /\ item_of policy s i) /\ NoDup (bi_Source <$> items) /\
  items <> [] /\ Z.of_nat (length items) <= tp_MaximumBatchSize policy /\
  total = sumZ (bi_Amount <$> items) /\ total <= tp_MaximumRequestAmount policy.
Proof.
  intros Hsize. unfold buildBatch. destruct (_ =? 0); [done|].
  destruct (batch_loop _ _ _ _ _) as [[is' t']|] eqn:E; [|done].
  destruct ((_ =? 0) || _) eqn:En; [done|]. intros [= -> ->]. bool_hyp.
  assert (Hinit : batch_ok policy [] [] [] Zero).
  { constructor; cbn; try done; [|constructor|lia]. intros i Hi. by apply elem_of_nil in Hi. }
  destruct (batch_loop_ok policy _ [] [] [] Zero items total ltac:(cbn; lia) Hinit E) as (v & sn & Hv & [Hfr Hnd Htot Hlim Hsz]).
  assert (Hne : items <> []) by (intros ->; cbn in *; lia).
  split; [|auto 6]. intros i Hi. destruct (Hfr i Hi) as (s & Hs & Hit & _). exists s. split; [|done].
  destruct (Hv s Hs) as [Hn|Hn]; [by apply elem_of_nil in Hn|].
  apply list_elem_of_In, sort_by_In, list_elem_of_In in Hn. done.
Qed.

(** The order of the sources does not matter either, when their addresses have
    different texts. *)
Lemma buildBatch_order_independent policy sources sources' :
  Permutation sources sources' -> NoDup ((fun s => ad_Value (so_Address s)) <$> sources) ->
  buildBatch policy sources = buildBatch policy sources'.
Proof.
  intros Hp Hnd. unfold buildBatch. rewrite <- Hp.
  assert (Heq : sort_by source_before sources = sort_by source_before sources'); [|by rewrite Heq].
  assert (Hs : forall l, StronglySorted (not_after source_before) (sort_by source_before l)).
  { intros l. apply sort_by_sorted; unfold source_before; intros *; [apply str_less_asym|apply str_less_cotrans]. }
  apply (sorted_unique source_before); [|apply Hs|apply Hs|by rewrite <- !sort_by_perm].
  intros x y Hx%sort_by_In%list_elem_of_In Hy%sort_by_In%list_elem_of_In. unfold source_before.
  destruct (str_less_total (ad_Value (so_Address x)) (ad_Value (so_Address y))) as [?|[?|He]]; [tauto..|].
  right; right. exact (NoDup_fmap_inj_on _ sources x y Hnd Hx Hy He).
Qed.

(** ** The workflow *)

Inductive sweep_op :=
| SwApprove (c : SweepDecision) | SwPrepare (c : SweepTransition) | SwSign (c : SweepTransition)
| SwBroadcast (c : SweepTransition) | SwChainResult (c : SweepChainResult) | SwCancel (c : SweepDecision).

Definition run_sweep (e : sweep_env) (op : sweep_op) : result custody_error (effect SweepRequest SweepUpdate) :=
  match op with
  | SwApprove c => SweepApprove e c | SwPrepare c => SweepPrepare e c | SwSign c => SweepSign e c
  | SwBroadcast c => SweepBroadcast e c | SwChainResult c => SweepRecordChainResult e c | SwCancel c => SweepCancel e c
  end.

(** A sweep as its repository keeps it; [sk_held] are the source reservations. *)
Record sweep_case := mkSweepCase {
  sk_created : SweepRequest; sk_now : SweepRequest; sk_held : list SourceReservation; sk_postings : list LedgerCommand }.

Definition sweep_serves (e : sweep_env) (r : SweepRequest) : Prop :=
  forall tenant id current, ts_get e tenant id = Ok current -> current = r.

(** Releasing removes the reservations that are named. *)
Definition reservation_eqb (a b : SourceReservation) : bool :=
  address_eqb (sv_Address a) (sv_Address b) && (sv_NonceRef a == sv_NonceRef b).

Definition release (held released : list SourceReservation) : list SourceReservation :=
  List.filter (fun h => negb (existsb (reservation_eqb h) released)) held.

Inductive sweep_workflow : sweep_case -> Prop :=
| sf_request e command m : RequestSweep e command = Ok m ->
    sweep_workflow (mkSweepCase (sm_Request m) (sm_Request m) (sm_Sources m) (sm_Ledger m))
| sf_update c e op m : sweep_workflow c -> sweep_serves e (sk_now c) -> run_sweep e op = Ok (Mutate m) ->
    sweep_workflow (mkSweepCase (sk_created c) (su_Next m) (release (sk_held c) (su_ReleaseSources m))
                      (sk_postings c ++ su_Ledger m)).

Definition same_sweep_terms (r n : SweepRequest) : Prop :=
  sw_ID n = sw_ID r /\ sw_TenantID n = sw_TenantID r /\ sw_AssetID n = sw_AssetID r /\ sw_ChainID n = sw_ChainID r /\
  sw_CreatorID n = sw_CreatorID r /\ sw_Destination n = sw_Destination r /\ sw_Items n = sw_Items r /\
  sw_Amount n = sw_Amount r /\ sw_FeeCap n = sw_FeeCap r /\ sw_QuotedFee n = sw_QuotedFee r.

(** What an operation asks the repository to do with the sweep it read. *)
Inductive sweep_mutates (e : sweep_env) (r : SweepRequest) : SweepUpdate -> Prop :=
| sn_approve m actor reason : sw_Status r = StatusApprovalRequired -> actor <> sw_CreatorID r ->
    sw_Status (su_Next m) = StatusApproved -> su_Ledger m = [] -> su_ReleaseSources m = [] ->
    sw_Approvals (su_Next m) = sw_Approvals r ++ [mkApproval actor (ts_now e) reason] -> sweep_mutates e r m
| sn_work m from to : (from, to) ∈ [(StatusApproved, StatusAwaitingSignature); (StatusAwaitingSignature, StatusSigned)] ->
    sw_Status r = from -> sw_Status (su_Next m) = to -> su_Ledger m = [] -> su_ReleaseSources m = [] ->
    sw_Approvals (su_Next m) = sw_Approvals r -> sweep_mutates e r m
| sn_broadcast m : sw_Status r = StatusSigned -> sw_Status (su_Next m) = StatusBroadcast ->
    su_Ledger m = sweep_fee_ledger e r -> su_ReleaseSources m = [] ->
    sw_Approvals (su_Next m) = sw_Approvals r -> sweep_mutates e r m
| sn_chain m : sweep_allowed (sw_Status r) (sw_Status (su_Next m)) = true -> su_Ledger m = [] -> su_ReleaseSources m = [] ->
    sw_Approvals (su_Next m) = sw_Approvals r -> sweep_mutates e r m
| sn_cancel m : sw_Status r ∈ [StatusApprovalRequired; StatusApproved; StatusAwaitingSignature] ->
    sw_Status (su_Next m) = StatusCancelled -> su_Ledger m = [] ->
    su_ReleaseSources m = sourceReservations (sw_Items r) -> sw_Approvals (su_Next m) = sw_Approvals r -> sweep_mutates e r m.

Lemma loadForTransition_ok e c expected r : loadForTransition e c expected = Ok r ->
  ts_get e (sx_TenantID c) (sx_RequestID c) = Ok r /\ sw_Status r = expected.
Proof.
  unfold loadForTransition. intros H. run_ok H. injection H as ->. bool_hyp. split; [done|].
  destruct (decide (sw_Status r = expected)); [done|]. exfalso. auto.
Qed.

Lemma sweep_op_mutates e op m : run_sweep e op = Ok (Mutate m) ->
  exists r tenant id, ts_get e tenant id = Ok r /\ su_ExpectedVersion m = sw_Version r /\ su_RequestID m = sw_ID r /\
    su_TenantID m = sw_TenantID r /\ same_sweep_terms r (su_Next m) /\
    sw_Version (su_Next m) = int64 (sw_Version r + 1) /\ sweep_mutates e r m.
Proof.
  destruct op as [c|c|c|c|c|c]; cbn [run_sweep].
  - unfold SweepApprove. intros H. run_ok H. injection H as <-. bool_hyp. eexists _, _, _. split; [eassumption|].
    do 5 (split; [done|]). eapply sn_approve; try done.
    destruct (decide (sw_Status a1 = StatusApprovalRequired)); [done|]. exfalso. auto.
  - unfold SweepPrepare. intros H. run_ok H. injection H as <-.
    match goal with Hl : loadForTransition _ _ _ = Ok _ |- _ => apply loadForTransition_ok in Hl as (Hg & Hs) end.
    eexists _, _, _. split; [eassumption|]. do 5 (split; [done|]). eapply sn_work; [left|done..].
  - unfold SweepSign. intros H. run_ok H. injection H as <-.
    match goal with Hl : loadForTransition _ _ _ = Ok _ |- _ => apply loadForTransition_ok in Hl as (Hg & Hs) end.
    eexists _, _, _. split; [eassumption|]. do 5 (split; [done|]). eapply sn_work; [right; left|done..].
  - unfold SweepBroadcast. intros H. run_ok H. injection H as <-.
    match goal with Hl : loadForTransition _ _ _ = Ok _ |- _ => apply loadForTransition_ok in Hl as (Hg & Hs) end.
    eexists _, _, _. split; [eassumption|]. do 5 (split; [done|]). by eapply sn_broadcast.
  - unfold SweepRecordChainResult. intros H. run_ok H. injection H as <-. bool_hyp.
    eexists _, _, _. split; [eassumption|]. do 5 (split; [done|]). by eapply sn_chain.
  - unfold SweepCancel. intros H. run_ok H; injection H as <-; (eexists _, _, _; split; [eassumption|]);
      do 5 (split; [done|]); (eapply sn_cancel; [|done..]);
      match goal with Hs : sw_Status ?r = _ |- _ => rewrite Hs end; set_solver.
Qed.

(** ** Invariants of the workflow *)

Definition sweep_second_person (r : SweepRequest) : Prop :=
  exists a, a ∈ sw_Approvals r /\ ap_ActorID a <> sw_CreatorID r.

Definition sweep_books (r : SweepRequest) : list (string * Z) :=
  if departed (phase_of (sw_Status r))
  then [("custody_asset", sw_QuotedFee r); ("network_fee_expense", - sw_QuotedFee r)] else [].

Definition held_for (r : SweepRequest) : list SourceReservation :=
  if bool_decide (sw_Status r = StatusCancelled) then [] else sourceReservations (sw_Items r).

Record sweep_case_ok (c : sweep_case) : Prop := mk_sweep_case_ok {
  sj_terms : same_sweep_terms (sk_created c) (sk_now c);
  sj_version : 1 <= sw_Version (sk_now c) /\ sw_Version (sk_now c) + status_rank (sw_Status (sk_now c)) <= 8;
  sj_eyes : sw_Status (sk_created c) = StatusApprovalRequired ->
    sw_Status (sk_now c) = StatusApprovalRequired \/ sw_Status (sk_now c) = StatusCancelled \/ sweep_second_person (sk_now c);
  sj_held : sk_held c = held_for (sk_now c);
  sj_books : forall account, balance account (sk_postings c) = position account (sweep_books (sk_now c)) }.

Lemma release_all l : release l l = [].
Proof.
  unfold release. assert (H : forall k, (forall x, x ∈ k -> x ∈ l) ->
    List.filter (fun h => negb (existsb (reservation_eqb h) l)) k = []).
  { induction k as [|x k IH]; intros Hk; [done|]. cbn [List.filter].
    replace (existsb (reservation_eqb x) l) with true; [apply IH; intros y Hy; apply Hk; by right|].
    symmetry. apply existsb_exists. exists x. split; [apply list_elem_of_In, Hk; left|].
    unfold reservation_eqb. rewrite String.eqb_refl, andb_true_r. by apply address_eqb_eq. }
  by apply H.
Qed.

Lemma release_none l : release l [] = l.
Proof. unfold release. induction l as [|x l IH]; [done|]. cbn. by f_equal. Qed.

Lemma sweep_mutates_rank e r m : sweep_mutates e r m -> status_rank (sw_Status (su_Next m)) < status_rank (sw_Status r).
Proof.
  inversion 1 as [? ? ? Hs _ Hn|? from to Hft Hs Hn|? Hs Hn|? Hs|? Hs Hn]; subst; try (rewrite Hs, Hn; cbn; lia).
  - apply elem_of_cons in Hft as [[= -> ->]|Hft]; [cbn; lia|].
    apply list_elem_of_singleton in Hft as [= -> ->]. cbn; lia.
  - destruct (sw_Status (su_Next m)), (sw_Status r); cbn in *; try discriminate; lia.
  - rewrite Hn. repeat (apply elem_of_cons in Hs as [->|Hs]; [cbn; lia|]). by apply elem_of_nil in Hs.
Qed.

Lemma sweep_mutates_phase e r m :
  sweep_mutates e r m -> phase_step (phase_of (sw_Status r)) (phase_of (sw_Status (su_Next m))).
Proof.
  inversion 1 as [? ? ? Hs _ Hn|? from to Hft Hs Hn|? Hs Hn|? Hs|? Hs Hn]; subst; try (rewrite Hs, Hn; cbn; constructor).
  - apply elem_of_cons in Hft as [[= -> ->]|Hft]; [constructor|].
    apply list_elem_of_singleton in Hft as [= -> ->]. constructor.
  - destruct (sw_Status (su_Next m)), (sw_Status r); cbn in *; try discriminate; constructor.
  - rewrite Hn. repeat (apply elem_of_cons in Hs as [->|Hs]; [constructor|]). by apply elem_of_nil in Hs.
Qed.

Lemma sweep_mutates_eyes e r m : sweep_mutates e r m -> sw_CreatorID (su_Next m) = sw_CreatorID r ->
  sw_Status r = StatusApprovalRequired \/ sw_Status r = StatusCancelled \/ sweep_second_person r ->
  sw_Status (su_Next m) = StatusApprovalRequired \/ sw_Status (su_Next m) = StatusCancelled \/ sweep_second_person (su_Next m).
Proof.
  unfold sweep_second_person. intros Hm Hc Hr. rewrite Hc.
  inversion Hm as [? actor ? Hs Ha Hn _ _ Hap|? from to Hft Hs Hn _ _ Hap|? Hs Hn _ _ Hap|? Hs _ _ Hap|? Hs Hn _ _ Hap]; subst.
  - right; right. rewrite Hap. eexists. split; [apply elem_of_app; right; left|done].
  - right; right. rewrite Hap. destruct Hr as [Hr|[Hr|Hr]]; [| |done]; rewrite Hr in Hft; set_solver.
  - right; right. rewrite Hap. destruct Hr as [Hr|[Hr|Hr]]; [congruence|congruence|done].
  - right; right. rewrite Hap. destruct Hr as [Hr|[Hr|Hr]]; [| |done]; rewrite Hr in Hs; destruct (sw_Status (su_Next m)); done.
  - by right; left.
Qed.

Lemma sweep_mutates_held e r m : sweep_mutates e r m -> sw_Items (su_Next m) = sw_Items r ->
  release (held_for r) (su_ReleaseSources m) = held_for (su_Next m).
Proof.
  unfold held_for. intros Hm Hi. rewrite Hi.
  inversion Hm as [? actor ? Hs Ha Hn _ Hrel _|? from to Hft Hs Hn _ Hrel _|? Hs Hn _ Hrel _|? Hs _ Hrel _|? Hs Hn _ Hrel _]; subst;
    rewrite Hrel, ?release_none.
  - by rewrite Hs, Hn.
  - apply elem_of_cons in Hft as [[= -> ->]|Hft]; [done|]. by apply list_elem_of_singleton in Hft as [= -> ->].
  - by rewrite Hs, Hn.
  - destruct (sw_Status (su_Next m)), (sw_Status r); cbn in *; done.
  - rewrite Hn. rewrite bool_decide_false by (intros Heq; rewrite Heq in Hs; set_solver). by rewrite release_all.
Qed.

Lemma sweep_mutates_books e r m account : sweep_mutates e r m -> sw_QuotedFee (su_Next m) = sw_QuotedFee r ->
  position account (sweep_books r) + balance account (su_Ledger m) = position account (sweep_books (su_Next m)).
Proof.
  unfold sweep_books. intros Hm Hq. rewrite Hq.
  inversion Hm as [? actor ? Hs Ha Hn Hl _ _|? from to Hft Hs Hn Hl _ _|? Hs Hn Hl _ _|? Hs Hl _ _|? Hs Hn Hl _ _]; subst; rewrite Hl.
  - rewrite Hs, Hn. cbn [phase_of departed]. balance_books.
  - apply elem_of_cons in Hft as [[= -> ->]|Hft]; [cbn [phase_of departed]; balance_books|].
    apply list_elem_of_singleton in Hft as [= -> ->]. cbn [phase_of departed]. balance_books.
  - rewrite Hs, Hn. cbn [phase_of departed]. unfold sweep_fee_ledger, IsZero.
    destruct (sw_QuotedFee r =? 0) eqn:E; bool_hyp; balance_books.
  - destruct (sw_Status (su_Next m)), (sw_Status r); cbn in Hs; try discriminate Hs; cbn [phase_of departed]; balance_books.
  - rewrite Hn. repeat (apply elem_of_cons in Hs as [->|Hs]; [cbn [phase_of departed]; balance_books|]). by apply elem_of_nil in Hs.
Qed.

Lemma RequestSweep_created e command m : RequestSweep e command = Ok m ->
  let r := sm_Request m in
  sw_Version r = 1 /\ sw_Approvals r = [] /\ sm_Ledger m = [] /\ sm_Sources m = sourceReservations (sw_Items r) /\
  (sw_Status r = StatusApprovalRequired \/ sw_Status r = StatusApproved).
Proof.
  intros H. unfold RequestSweep in H. cbn zeta in H. run_ok H; injection H as <-;
    unfold sweep_mutation; cbn [sm_Request sm_Ledger sm_Sources sw_Version sw_Approvals sw_Items sw_Status];
    do 4 (split; [done|]); destruct (tp_RequireApprovalAlways _ || _); auto.
Qed.

Lemma sweep_workflow_ok c : sweep_workflow c -> sweep_case_ok c.
Proof.
  induction 1 as [e command m Hm|c e op m Hc IH Hserve Hop].
  - apply RequestSweep_created in Hm as (Hv & Ha & Hl & Hsrc & Hs). constructor; cbn [sk_created sk_now sk_held sk_postings].
    + done.
    + rewrite Hv. destruct Hs as [->| ->]; cbn; lia.
    + auto.
    + rewrite Hsrc. unfold held_for. by destruct Hs as [->| ->].
    + intros account. rewrite Hl. unfold sweep_books. by destruct Hs as [->| ->].
  - destruct IH as [Ht Hv He Hh Hb]. apply sweep_op_mutates in Hop as (r & tenant & id & Hget & _ & _ & _ & Htr & Hvr & Hmut).
    apply Hserve in Hget as ->. constructor; cbn [sk_created sk_now sk_held sk_postings].
    + unfold same_sweep_terms in *. intuition congruence.
    + pose proof (sweep_mutates_rank _ _ _ Hmut). rewrite Hvr, int64_id; [lia|].
      assert (0 <= status_rank (sw_Status (su_Next m))) by (destruct (sw_Status (su_Next m)); cbn; lia).
      unfold is_int64, min_int64, max_int64. lia.
    + intros Hcr. eapply sweep_mutates_eyes; [done| |by apply He]. apply Htr.
    + rewrite Hh. eapply sweep_mutates_held; [done|]. apply Htr.
    + intros account. rewrite balance_app, Hb. apply (sweep_mutates_books e); [done|]. apply Htr.
Qed.

(** A sweep enters the workflow only under its policy: the caller holds the
    permission and a current step-up, the policy is valid, enabled, not paused
    and of the caller's tenant and asset, the destination is on the policy's
    allowlist at that time, the fee is within the cap, the batch was built from
    the given sources, its sources are reserved, and approval is skipped only at
    or below the threshold. *)
Theorem RequestSweep_safe e command m : RequestSweep e command = Ok m ->
  authorize e (rs_Auth command) "treasury:sweeps:create" = Ok tt /\
  exists policy, let r := sm_Request m in
    ts_policy e (rs_TenantID command) (rs_AssetID command) = Ok policy /\ SweepPolicy_Validate policy = Ok tt /\
    tp_TenantID policy = sw_TenantID r /\ tp_AssetID policy = sw_AssetID r /\ tp_ChainID policy = sw_ChainID r /\
    tp_Enabled policy = true /\ tp_EmergencyPaused policy = false /\
    sw_Destination r = rs_Destination command /\ AllowsDestination policy (sw_Destination r) (ts_now e) = true /\
    sw_QuotedFee r <= sw_FeeCap r /\ sw_FeeCap r = tp_MaximumNetworkFee policy /\
    buildBatch policy (rs_Sources command) = Ok (sw_Items r, sw_Amount r) /\
    sm_Sources m = sourceReservations (sw_Items r) /\
    li_Maximum (sm_Limits m) = tp_DailyAmountLimit policy /\
    li_WindowStart (sm_Limits m) <= ts_now e < li_WindowEnd (sm_Limits m) /\
    (sw_Status r = StatusApprovalRequired \/
     sw_Status r = StatusApproved /\ sw_Amount r <= tp_ApprovalThreshold policy /\ tp_RequireApprovalAlways policy = false).
Proof.
  intros H. unfold RequestSweep in H. cbn zeta in H.
  destruct (authorize e _ _) as [[]|]; [|done]. split; [done|].
  destruct (_ || _ || _ || _) in H; [done|]. destruct (ts_policy _ _ _) as [po|] eqn:Hpo; [|done].
  destruct (SweepPolicy_Validate po) as [[]|] eqn:Ev; [|done]. rewrite Cmp_gt_zero in H. run_ok H; injection H as <-;
    bool_hyp; exists po; unfold sweep_mutation; cbn zeta;
    cbn [sm_Request sm_Sources sm_Limits sw_TenantID sw_AssetID sw_ChainID sw_Destination sw_QuotedFee sw_FeeCap sw_Items
         sw_Amount sw_Status li_Maximum li_WindowStart li_WindowEnd];
    do 9 (split; [done|]); (split; [lia|]); do 4 (split; [done|]); (split; [apply startUTC_window|]);
    rewrite Cmp_gt_zero; (destruct (tp_RequireApprovalAlways po); [by left|]);
    match goal with |- context [_ || ?b] => destruct b eqn:Ele end; [by left|bool_hyp; by right | by left|bool_hyp; by right].
Qed.

(** C16: The sweep workflow refines the same abstract custody machine as refunds,
    one step per mutation, in at most seven mutations: each raises the version by
    one and lowers the number of status changes left. *)
Theorem sweep_refines_custody :
  (forall e command m, RequestSweep e command = Ok m -> phase_of (sw_Status (sm_Request m)) = Held) /\
  (forall c, sweep_workflow c -> 1 <= sw_Version (sk_now c) <= 8 - status_rank (sw_Status (sk_now c))) /\
  (forall c e op m, sweep_workflow c -> sweep_serves e (sk_now c) -> run_sweep e op = Ok (Mutate m) ->
     phase_step (phase_of (sw_Status (sk_now c))) (phase_of (sw_Status (su_Next m))) /\
     su_ExpectedVersion m = sw_Version (sk_now c) /\
     status_rank (sw_Status (su_Next m)) < status_rank (sw_Status (sk_now c))).
Proof.
  split; [|split].
  - intros e command m H. apply RequestSweep_created in H as (_ & _ & _ & _ & [-> | ->]); done.
  - intros c [_ Hv _ _ _]%sweep_workflow_ok. lia.
  - intros c e op m Hc Hserve Hop. apply sweep_op_mutates in Hop as (r & tenant & id & Hget & Hev & _ & _ & _ & _ & Hmut).
    apply Hserve in Hget as ->. split; [by eapply sweep_mutates_phase|]. split; [done|by eapply sweep_mutates_rank].
Qed.

(** Over any sequence of operations a sweep keeps the destination, sources,
    amounts and fee it was created with, holds exactly the reservations of its
    sources until it is cancelled and none afterwards, posts its quoted fee once
    and only when it leaves custody, and when it needed approval leaves custody
    only after someone other than its creator approved it. *)
Theorem sweep_keeps_terms_and_sources c :
  sweep_workflow c ->
  same_sweep_terms (sk_created c) (sk_now c) /\ sk_held c = held_for (sk_now c) /\
  (forall account, balance account (sk_postings c) = position account (sweep_books (sk_now c))) /\
  (sw_Status (sk_created c) = StatusApprovalRequired -> departed (phase_of (sw_Status (sk_now c))) = true ->
   sweep_second_person (sk_now c)).
Proof.
  intros [Ht _ He Hh Hb]%sweep_workflow_ok. do 3 (split; [done|]). intros Hs Hd.
  destruct (He Hs) as [H|[H|H]]; [rewrite H in Hd; done|rewrite H in Hd; done|done].
Qed.

(** The network fee of a sweep may exceed what the signer and the ledger are
    told: a built transaction with a fee above the quote and within the cap is
    accepted, while the transaction handed to the signer and the fee posted at
    the broadcast carry the quote. *)
Theorem sweep_fee_understated e r u :
  validateUnsigned r u = Ok tt -> sw_QuotedFee r < ut_Fee u -> sw_QuotedFee r <> 0 ->
  ut_Fee u <= sw_FeeCap r /\ ut_Fee (sweep_unsigned r) < ut_Fee u /\
  - balance "network_fee_expense" (sweep_fee_ledger e r) < ut_Fee u.
Proof.
  unfold validateUnsigned. rewrite Cmp_gt_zero. intros H Hlt Hz. run_ok H. bool_hyp. split; [lia|]. split; [done|].
  unfold sweep_fee_ledger, IsZero. replace (sw_QuotedFee r =? 0) with false by lia.
  rewrite balance_one. unfold posting_delta. cbn. lia.
Qed.

(** ** Running a workflow *)

Section runner.
Context (env_of : SweepRequest -> sweep_env) (Henv : forall r, sweep_serves (env_of r) r).

Fixpoint run_sweeps (ops : list (SweepRequest -> sweep_op)) (c : sweep_case) : option sweep_case :=
  match ops with
  | [] => Some c
  | op :: rest =>
      match run_sweep (env_of (sk_now c)) (op (sk_now c)) with
      | Ok (Mutate m) =>
          run_sweeps rest (mkSweepCase (sk_created c) (su_Next m) (release (sk_held c) (su_ReleaseSources m))
                             (sk_postings c ++ su_Ledger m))
      | _ => None
      end
  end.

Lemma run_sweeps_workflow ops : forall c c', sweep_workflow c -> run_sweeps ops c = Some c' -> sweep_workflow c'.
Proof using Henv.
  induction ops as [|op ops IH]; intros c c' Hc H; cbn [run_sweeps] in H; [by injection H as <-|].
  destruct (run_sweep _ _) as [[r|m]|] eqn:E; [done| |done].
  eapply IH; [|exact H]. eapply sf_update; [done|apply Henv|exact E].
Qed.
End runner.

Definition sweep_sample_policy : SweepPolicy :=
  mkSweepPolicy "policy-1" 1 "tenant" "usdt" "eip155:1" true false 100 10 1000 5000 200 50 2 false
    [mkEntry "tenant" "usdt" (mkAddress "eip155:1" "0xcold") (UnixTime 1600000000) 0].

Definition sweep_sample_source (value : string) (available : Amount) : Source :=
  mkSweepSource (mkAddress "eip155:1" value) available "nonce-1".

Definition sweep_sample_sources : list Source :=
  [sweep_sample_source "0xc" 300; sweep_sample_source "0xa" 400; sweep_sample_source "0xb" 50; sweep_sample_source "0xd" 500].

Definition sweep_sample_auth (actor : string) : AuthContext := mkAuth actor (fun _ => true) (UnixTime 2000000000).

Definition sweep_sample_env (r : SweepRequest) : sweep_env :=
  mkSweepEnv (UnixTime 1700000000) (fun n => dec_string (Z.of_nat n)) (mkIdentity "" "") (fun _ _ => Ok sweep_sample_policy)
    (fun _ _ => Ok r) None
    (fun r => Ok (mkSweepUnsigned (sw_ID r) (sw_TenantID r) (sw_AssetID r) (sw_ChainID r) (sw_Destination r) (sw_Amount r)
                    40 "digest" "reference"))
    (fun u => Ok (mkSweepSigned (ut_RequestID u) (ut_Digest u) "signed" "signed-reference"))
    (fun s => Ok (mkSweepReceipt (st_SignedDigest s) "0xhash")) (fun _ _ _ _ _ => Ok "hash") (fun _ => "payload").

Definition zero_sweep : SweepRequest :=
  mkSweep "" "" "" "" "" 0 "" "" "" (mkAddress "" "") [] 0 0 0 StatusApprovalRequired [] "" "" "" "" "" "" 0 0 0.

Definition sweep_sample_request : RequestSweepCommand :=
  mkRequestSweep "tenant" "usdt" "sweep-key-1" (mkAddress "eip155:1" "0xcold") sweep_sample_sources 30
    (sweep_sample_auth "alice").

Definition sweep_sample_transition (r : SweepRequest) : SweepTransition :=
  mkSweepTransition (sw_TenantID r) (sw_ID r) (sw_Version r) (sweep_sample_auth "carol").

Definition sweep_sample_ops : list (SweepRequest -> sweep_op) :=
  [fun r => SwApprove (mkSweepDecision (sw_TenantID r) (sw_ID r) (sw_Version r) "checked" (sweep_sample_auth "bob"));
   fun r => SwPrepare (sweep_sample_transition r); fun r => SwSign (sweep_sample_transition r);
   fun r => SwBroadcast (sweep_sample_transition r)].

Definition sweep_sample_case (n : nat) : sweep_case :=
  match RequestSweep (sweep_sample_env zero_sweep) sweep_sample_request with
  | Ok m =>
      let c := mkSweepCase (sm_Request m) (sm_Request m) (sm_Sources m) (sm_Ledger m) in
      default c (run_sweeps sweep_sample_env (take n sweep_sample_ops) c)
  | Err _ => mkSweepCase zero_sweep zero_sweep [] []
  end.

Lemma sweep_sample_workflow n : sweep_workflow (sweep_sample_case n).
Proof.
  unfold sweep_sample_case. destruct (RequestSweep _ _) as [m|] eqn:E; [|vm_compute in E; discriminate E].
  pose proof (sf_request _ _ _ E) as Hc.
  destruct (run_sweeps _ _ _) as [c'|] eqn:Er; cbn; [|done]. eapply run_sweeps_workflow; [|exact Hc|exact Er].
  by intros r tenant id current [= <-].
Qed.

Lemma buildBatch_within_policy_witness :
  let items := [mkItem (mkAddress "eip155:1" "0xa") 390 "nonce-1"; mkItem (mkAddress "eip155:1" "0xc") 290 "nonce-1"] in
  680 = sumZ (bi_Amount <$> items) /\ NoDup (bi_Source <$> items).
Proof.
  destruct (buildBatch_within_policy sweep_sample_policy sweep_sample_sources
    [mkItem (mkAddress "eip155:1" "0xa") 390 "nonce-1"; mkItem (mkAddress "eip155:1" "0xc") 290 "nonce-1"] 680)
    as (_ & Hnd & _ & _ & Ht & _); [cbn; lia|vm_compute; reflexivity|]. done.
Defined.

Lemma RequestSweep_safe_witness :
  exists m, RequestSweep (sweep_sample_env zero_sweep) sweep_sample_request = Ok m /\
    sw_QuotedFee (sm_Request m) <= sw_FeeCap (sm_Request m).
Proof.
  destruct (RequestSweep (sweep_sample_env zero_sweep) sweep_sample_request) as [m|] eqn:E; [|vm_compute in E; discriminate E].
  exists m. split; [done|].
  destruct (RequestSweep_safe (sweep_sample_env zero_sweep) sweep_sample_request m E) as (_ & po & Hs). apply Hs.
Defined.

Lemma sweep_keeps_terms_and_sources_witness :
  length (sk_held (sweep_sample_case 4)) = 2%nat /\ sweep_second_person (sk_now (sweep_sample_case 4)) /\
  balance "network_fee_expense" (sk_postings (sweep_sample_case 4)) = -30.
Proof.
  destruct (sweep_keeps_terms_and_sources (sweep_sample_case 4) (sweep_sample_workflow 4)) as (_ & Hh & Hb & He).
  split; [rewrite Hh; vm_compute; reflexivity|]. split; [apply He; vm_compute; reflexivity|].
  rewrite Hb. vm_compute. reflexivity.
Defined.

Lemma sweep_fee_understated_witness :
  ut_Fee (sweep_unsigned (sk_now (sweep_sample_case 2))) < 40.
Proof.
  destruct (sweep_fee_understated (sweep_sample_env zero_sweep) (sk_now (sweep_sample_case 1))
    (mkSweepUnsigned (sw_ID (sk_now (sweep_sample_case 1))) "tenant" "usdt" "eip155:1" (mkAddress "eip155:1" "0xcold") 680 40
       "digest" "reference")) as (_ & H & _); [vm_compute; reflexivity|vm_compute; reflexivity|vm_compute; discriminate|].
  exact H.
Defined.
