(* ===== verification/Numerals.v ===== *)
(** * Numerals: signed decimal text and the trimming and cutting of strings

    [strconv.Atoi], [ParseInt] and [FormatInt] in base 10, [strings.IndexByte]
    and [IndexAny] as the cut they are used for, and [TrimRight] and
    [TrimSuffix], with the lemmas the message formats share. *)

From Stdlib Require Import ZArith Lia Ascii String.
From stdpp Require Import base list strings.
From S2P Require Import Prelude Text.

(** ** strconv *)

Definition minus_sign : ascii := chr 45.
Definition plus_sign : ascii := chr 43.
Definition zero_char : ascii := chr 48.

(** [strconv.ParseInt(s, 10, 64)] and [strconv.Atoi] on a 64-bit machine: an
    optional sign, at least one digit, nothing else, and the value in range. *)
Definition ParseInt64 (s : string) : option Z :=
  let '(negative, digits) :=
    match s with
    | String c r => if Ascii.eqb c minus_sign then (true, r)
                    else if Ascii.eqb c plus_sign then (false, r) else (false, s)
    | EmptyString => (false, s)
    end in
  if (digits == "") || negb (str_forall is_digit digits) then None
  else
    let v := if negative : bool then - dec_value 0 digits else dec_value 0 digits in
    if (v <? min_int64) || (v >? max_int64) then None else Some v.

(** [big.Int.SetString(s, 10)]: an optional sign and digits. *)
Definition big_SetString10 (s : string) : option Z :=
  let digits_of r := if (r == "") || negb (str_forall is_digit r) then None else Some (dec_value 0 r) in
  match s with
  | String c r =>
      if Ascii.eqb c minus_sign then Z.opp <$> digits_of r
      else if Ascii.eqb c plus_sign then digits_of r
      else digits_of s
  | EmptyString => None
  end.

Definition FormatInt (n : Z) : string :=
  if n <? 0 then String minus_sign (dec_string (- n)) else dec_string n.

(** ** strings *)

(** The text before the first byte that satisfies [p] and, when there is one,
    the text after it: [s[:i]] and [s[i+1:]] for [i] the index found. *)
Fixpoint cut_at (p : ascii -> bool) (s : string) : string * option string :=
  match s with
  | EmptyString => ("", None)
  | String c r =>
      if p c then ("", Some r)
      else let '(before, after) := cut_at p r in (String c before, after)
  end.

(** [strings.TrimRight(s, "0")] *)
Fixpoint TrimRightZeros (s : string) : string :=
  match s with
  | EmptyString => ""
  | String c r =>
      let t := TrimRightZeros r in
      if Ascii.eqb c zero_char && (t == "") then "" else String c t
  end.

(** [strings.TrimSuffix(s, ".")] and the like, for a one-byte suffix. *)
Fixpoint TrimSuffixByte (suffix : ascii) (s : string) : string :=
  match s with
  | EmptyString => ""
  | String c EmptyString => if Ascii.eqb c suffix then "" else s
  | String c r => String c (TrimSuffixByte suffix r)
  end.

Definition zeros (n : Z) : string := Repeat "0" (Z.to_nat n).

(** ** Lemmas *)

Lemma digit_not_sign c : is_digit c = true -> Ascii.eqb c minus_sign = false /\ Ascii.eqb c plus_sign = false.
Proof.
  intros Hc. split; apply Ascii.eqb_neq; intros ->; by vm_compute in Hc.
Qed.

Lemma ParseInt64_digits s :
  str_forall is_digit s = true -> s <> "" -> dec_value 0 s <= max_int64 -> ParseInt64 s = Some (dec_value 0 s).
Proof.
  intros Hd Hne Hv. destruct s as [|c r]; [done|]. unfold ParseInt64.
  pose proof Hd as Hd'. cbn [str_forall] in Hd'. apply andb_true_iff in Hd' as [Hc _].
  destruct (digit_not_sign c Hc) as [-> ->]. rewrite Hd. cbn [String.eqb orb negb].
  pose proof (dec_value_bound _ Hd) as Hb.
  destruct (_ <? min_int64) eqn:E1; bool_hyp; [unfold min_int64 in *; lia|].
  destruct (_ >? max_int64) eqn:E2; bool_hyp; [lia|done].
Qed.

Lemma ParseInt64_minus s :
  str_forall is_digit s = true -> s <> "" -> dec_value 0 s <= 2 ^ 63 ->
  ParseInt64 (String minus_sign s) = Some (- dec_value 0 s).
Proof.
  intros Hd Hne Hv. unfold ParseInt64. rewrite Ascii.eqb_refl, Hd.
  pose proof (dec_value_bound _ Hd) as Hb.
  destruct (s == "") eqn:E; bool_hyp; [done|]. cbn [orb negb].
  destruct (_ <? min_int64) eqn:E1; bool_hyp; [unfold min_int64 in *; lia|].
  destruct (_ >? max_int64) eqn:E2; bool_hyp; [unfold max_int64 in *; lia|done].
Qed.

(** What [FormatInt] prints, [ParseInt] reads back. *)
Lemma ParseInt64_FormatInt n : is_int64 n -> ParseInt64 (FormatInt n) = Some n.
Proof.
  unfold is_int64, min_int64, max_int64, FormatInt. intros Hn.
  assert (forall m, 0 <= m -> dec_string m <> "") as Hne.
  { intros m Hm H. pose proof (dec_string_canonical m Hm) as Hc. by rewrite H in Hc. }
  destruct (n <? 0) eqn:E; bool_hyp.
  - rewrite ParseInt64_minus; rewrite ?dec_string_value by lia; [f_equal; lia| |apply Hne; lia|lia].
    apply canonical_digits, dec_string_canonical. lia.
  - rewrite ParseInt64_digits; rewrite ?dec_string_value by lia; [done| |apply Hne; lia|unfold max_int64; lia].
    apply canonical_digits, dec_string_canonical. lia.
Qed.

Lemma cut_at_none p s : str_forall (fun c => negb (p c)) s = true -> cut_at p s = (s, None).
Proof.
  induction s as [|c s IH]; [done|]. cbn. intros H. bool_hyp. rewrite H. by rewrite IH.
Qed.

Lemma cut_at_app p s c t :
  str_forall (fun c => negb (p c)) s = true -> p c = true -> cut_at p (s +:+ String c t) = (s, Some t).
Proof.
  intros Hs Hc. induction s as [|d s IH]; cbn; [by rewrite Hc|].
  cbn in Hs. bool_hyp. rewrite H. by rewrite IH.
Qed.

Lemma zeros_nil n : n <= 0 -> zeros n = "".
Proof. intros Hn. unfold zeros. by replace (Z.to_nat n) with O by lia. Qed.

Lemma len_zeros n : 0 <= n -> len (zeros n) = n.
Proof. intros Hn. unfold zeros. destruct (Repeat_zeros (Z.to_nat n)) as (_ & _ & ->). lia. Qed.

Lemma zeros_digits n : str_forall is_digit (zeros n) = true.
Proof. apply Repeat_zeros. Qed.

Lemma zeros_value n : dec_value 0 (zeros n) = 0.
Proof. apply Repeat_zeros. Qed.

Lemma Repeat_add s n m : Repeat s (n + m) = Repeat s n +:+ Repeat s m.
Proof. induction n as [|n IH]; [done|]. cbn [Repeat Nat.add]. by rewrite IH, str_app_assoc. Qed.

Lemma zeros_add n m : 0 <= n -> 0 <= m -> zeros (n + m) = zeros n +:+ zeros m.
Proof. intros Hn Hm. unfold zeros. rewrite Z2Nat.inj_add by lia. apply Repeat_add. Qed.

(** Every string is what [TrimRight] leaves, followed by zeros. *)
Lemma TrimRightZeros_split s : exists n, 0 <= n /\ s = TrimRightZeros s +:+ zeros n.
Proof.
  induction s as [|c s (n & Hn & IH)]; [by exists 0|]. cbn [TrimRightZeros].
  destruct (Ascii.eqb c zero_char && (TrimRightZeros s == "")) eqn:E; [|by exists n; cbn; rewrite <- IH].
  bool_hyp. apply Ascii.eqb_eq in H as ->. exists (1 + n). split; [lia|].
  rewrite zeros_add by lia. rewrite H0 in IH. cbn in IH. rewrite IH at 1. done.
Qed.

Lemma TrimRightZeros_app_zeros s n : TrimRightZeros (s +:+ zeros n) = TrimRightZeros s.
Proof.
  unfold zeros. induction s as [|c s IH].
  - cbn [String.append]. induction (Z.to_nat n) as [|k IH]; [done|].
    change (Repeat "0" (S k)) with (String zero_char (Repeat "0" k)). cbn [TrimRightZeros]. by rewrite IH.
  - cbn [String.append TrimRightZeros]. by rewrite IH.
Qed.

(** Nothing is trimmed before a part that keeps something. *)
Lemma TrimRightZeros_app s t : TrimRightZeros t <> "" -> TrimRightZeros (s +:+ t) = s +:+ TrimRightZeros t.
Proof.
  intros Ht. induction s as [|c s IH]; [done|]. cbn [String.append TrimRightZeros]. rewrite IH.
  destruct (s +:+ TrimRightZeros t == "") eqn:E; [|by rewrite andb_false_r].
  bool_hyp. destruct s; [done|discriminate].
Qed.

Lemma TrimRightZeros_byte c s : c <> zero_char -> TrimRightZeros (String c s) <> "".
Proof. intros Hc. cbn [TrimRightZeros]. by rewrite (proj2 (Ascii.eqb_neq _ _) Hc). Qed.

Lemma TrimSuffixByte_app c s : TrimSuffixByte c (s +:+ String c "") = s.
Proof.
  induction s as [|d s IH]; [cbn [String.append TrimSuffixByte]; by rewrite Ascii.eqb_refl|]. cbn [String.append].
  destruct s as [|e s]; [cbn [String.append TrimSuffixByte]; by rewrite Ascii.eqb_refl|]. cbn [String.append] in *.
  change (String d (TrimSuffixByte c (String e (s +:+ String c ""))) = String d (String e s)). by rewrite IH.
Qed.

Lemma TrimSuffixByte_other c s d : d <> c -> TrimSuffixByte c (s +:+ String d "") = s +:+ String d "".
Proof.
  intros Hd. induction s as [|e s IH]; [cbn [String.append TrimSuffixByte]; by rewrite (proj2 (Ascii.eqb_neq _ _) Hd)|].
  cbn [String.append]. destruct s as [|f s]; [cbn [String.append TrimSuffixByte]; by rewrite (proj2 (Ascii.eqb_neq _ _) Hd)|].
  cbn [String.append] in *.
  change (String e (TrimSuffixByte c (String f (s +:+ String d ""))) = String e (String f (s +:+ String d ""))).
  by rewrite IH.
Qed.

Lemma str_take_app s t : str_take (String.length s) (s +:+ t) = s.
Proof. induction s as [|c s IH]; [by destruct t|]. cbn. by rewrite IH. Qed.

Lemma str_take_drop n s : str_take n s +:+ str_drop n s = s.
Proof. revert s. induction n as [|n IH]; intros [|c s]; [done..|]. cbn. by rewrite IH. Qed.

Lemma str_forall_take p n s : str_forall p s = true -> str_forall p (str_take n s) = true.
Proof. intros H. rewrite <- (str_take_drop n s), str_forall_app in H. by bool_hyp. Qed.

Lemma str_forall_drop p n s : str_forall p s = true -> str_forall p (str_drop n s) = true.
Proof. intros H. rewrite <- (str_take_drop n s), str_forall_app in H. by bool_hyp. Qed.

Lemma length_str_take n s : (n <= String.length s)%nat -> String.length (str_take n s) = n.
Proof. revert s. induction n as [|n IH]; intros [|c s] H; cbn in *; try lia. rewrite IH; lia. Qed.

Lemma str_drop_exact s t : str_drop (String.length s) (s +:+ t) = t.
Proof. induction s as [|c s IH]; [done|]. cbn. by rewrite IH. Qed.

(** Splitting a concatenation at the length of its first part. *)
Lemma str_split_app n s t : Z.of_nat n = len s -> str_take n (s +:+ t) = s /\ str_drop n (s +:+ t) = t.
Proof.
  unfold len. intros Hn. apply Nat2Z.inj in Hn as ->. split; [apply str_take_app|apply str_drop_exact].
Qed.

(** What [TrimRight] leaves ends in a byte that is not a zero. *)
Lemma TrimRightZeros_last s :
  TrimRightZeros s <> "" -> exists t c, TrimRightZeros s = t +:+ String c "" /\ c <> zero_char.
Proof.
  induction s as [|c s IH]; cbn [TrimRightZeros]; [done|].
  destruct (Ascii.eqb c zero_char && (TrimRightZeros s == "")) eqn:E; [done|]. intros _.
  destruct (TrimRightZeros s) as [|d r] eqn:Er.
  - exists "", c. split; [done|]. rewrite andb_true_r in E. by apply Ascii.eqb_neq.
  - destruct (IH ltac:(done)) as (t & x & Ht & Hx). exists (String c t), x. by rewrite Ht.
Qed.

Lemma ParseInt64_signed sign s :
  sign = "" \/ sign = "+" \/ sign = "-" -> str_forall is_digit s = true -> s <> "" ->
  let v := if sign == "-" then - dec_value 0 s else dec_value 0 s in
  ParseInt64 (sign +:+ s) = if (v <? min_int64) || (v >? max_int64) then None else Some v.
Proof.
  intros Hs Hd Hne.
  assert ((s == "") || negb (str_forall is_digit s) = false) as Hg.
  { rewrite Hd, orb_false_r. by apply String.eqb_neq. }
  destruct Hs as [->|[->| ->]]; cbn [String.append]; [|by unfold ParseInt64; cbn -[str_forall]; rewrite Hg..].
  destruct s as [|c r]; [done|]. unfold ParseInt64.
  pose proof Hd as Hc. cbn [str_forall] in Hc. apply andb_true_iff in Hc as [Hc _].
  destruct (digit_not_sign c Hc) as [-> ->]. by rewrite Hg.
Qed.

Lemma TrimRightZeros_kept s t : TrimRightZeros t <> "" -> TrimRightZeros (s +:+ t) <> "".
Proof. intros Ht. rewrite TrimRightZeros_app by done. by destruct s. Qed.

Lemma str_drop_app_le n s t : (n <= String.length s)%nat -> str_drop n (s +:+ t) = str_drop n s +:+ t.
Proof. revert s. induction n as [|n IH]; intros [|c s] H; cbn in *; [done..|lia|]. apply IH. lia. Qed.
