(* ===== verification/Outbox.v ===== *)
(** * Outbox: internal/outbox (worker.go, canonical.go)

    The relay of committed events: one batch of the worker as the sequence of
    its publisher and store calls, and the canonical wire form of a message,
    whose payload numbers are rewritten to one spelling per value; Wire shows
    that publishers and consumers agree on it. *)

From Stdlib Require Import ZArith Lia Ascii String QArith Qpower.
From stdpp Require Import base sets list strings.
From S2P Require Import Prelude Text Numerals.
Local Open Scope Z_scope.
Local Open Scope go_scope.

(** ** Canonical numbers (canonical.go) *)

Definition full_stop : ascii := chr 46.
Definition is_stop (c : ascii) : bool := Ascii.eqb c full_stop.
Definition is_exponent_mark (c : ascii) : bool := Ascii.eqb c (chr 101) || Ascii.eqb c (chr 69).

Definition number_error : string := "outbox payload number is outside the canonical range".

(** The exponent a literal is written with, and the text before it. *)
Definition split_exponent (unsigned : string) : result string (string * Z) :=
  match cut_at is_exponent_mark unsigned with
  | (_, None) => Ok (unsigned, 0)
  | (mantissa, Some text) =>
      match ParseInt64 text with
      | Some parsed =>
          if (parsed <? -10000) || (parsed >? 10000) then Err number_error else Ok (mantissa, parsed)
      | None => Err number_error
      end
  end.

(** The digits, which start with a non-zero one, with the point put at [position]. *)
Definition place_point (digits : string) (position : Z) : string :=
  if position <=? 0 then "0." +:+ zeros (- position) +:+ digits
  else if len digits <=? position then digits +:+ zeros (position - len digits)
  else str_take (Z.to_nat position) digits +:+ String full_stop (str_drop (Z.to_nat position) digits).

Definition normalizeJSONNumber (raw : string) : result string string :=
  let negative := HasPrefix raw "-" in
  match split_exponent (TrimPrefix raw "-") with
  | Err e => Err e
  | Ok (unsigned, exponent) =>
      let '(integer, fraction) :=
        match cut_at is_stop unsigned with
        | (_, None) => (unsigned, "")
        | (integer, Some fraction) => (integer, fraction)
        end in
      let digits := TrimLeftZeros (integer +:+ fraction) in
      let leading := len (integer +:+ fraction) - len digits in
      if digits == "" then Ok "0"
      else
        let normalized := place_point digits (len integer + exponent - leading) in
        let normalized := if str_no full_stop normalized then normalized
                          else TrimSuffixByte full_stop (TrimRightZeros normalized) in
        Ok (if negative then String minus_sign normalized else normalized)
  end.

(** ** The numbers of JSON *)

(** A number literal: sign, integer part, digits after the point, exponent. *)
Record number := mkNumber {
  n_neg : bool; n_int : string; n_frac : option string; n_exp : option (ascii * string * string) }.

Definition number_text (n : number) : string :=
  (if n_neg n then "-" else "") +:+ n_int n +:+
  match n_frac n with None => "" | Some f => String full_stop f end +:+
  match n_exp n with None => "" | Some (mark, sign, digits) => String mark (sign +:+ digits) end.

(** The grammar of RFC 8259, which the decoder enforces. *)
Definition wf_number (n : number) : Prop :=
  canonical_uint (n_int n) = true /\
  match n_frac n with None => True | Some f => f <> "" /\ str_forall is_digit f = true end /\
  match n_exp n with
  | None => True
  | Some (mark, sign, digits) =>
      is_exponent_mark mark = true /\ (sign = "" \/ sign = "+" \/ sign = "-") /\
      digits <> "" /\ str_forall is_digit digits = true
  end.

Definition fraction_of (n : number) : string := default "" (n_frac n).

Definition exponent_of (n : number) : Z :=
  match n_exp n with
  | None => 0
  | Some (_, sign, digits) => if sign == "-" then - dec_value 0 digits else dec_value 0 digits
  end.

Definition magnitude (n : number) : Z := dec_value 0 (n_int n +:+ fraction_of n).
Definition mantissa (n : number) : Z := if n_neg n then - magnitude n else magnitude n.

(** [m * 10^k] as a rational. *)
Definition scaled10 (m k : Z) : Q := (inject_Z m * Qpower (inject_Z 10) k)%Q.

(** The number a literal denotes. *)
Definition number_value (n : number) : Q := scaled10 (mantissa n) (exponent_of n - len (fraction_of n)).

(** ** Uniqueness of the scaled form *)

Lemma ten_not_zero : ~ Qeq (inject_Z 10) 0.
Proof. discriminate. Qed.

Lemma scaled10_shift m k j : 0 <= j -> Qeq (scaled10 m (k + j)) (scaled10 (m * 10 ^ j) k).
Proof.
  intros Hj. unfold scaled10. rewrite (Qpower_plus _ _ _ ten_not_zero), inject_Z_mult, (Zpower_Qpower 10 j Hj).
  ring.
Qed.

Lemma scaled10_inj a b k : Qeq (scaled10 a k) (scaled10 b k) -> a = b.
Proof.
  unfold scaled10. intros H. apply Qmult_inj_r in H; [by apply inject_Z_injective|].
  apply Qpower_not_0, ten_not_zero.
Qed.

Lemma scaled10_zero k : Qeq (scaled10 0 k) 0.
Proof. unfold scaled10. apply Qmult_0_l. Qed.

Lemma scaled10_unique a i b j :
  ~ (10 | a) -> ~ (10 | b) -> Qeq (scaled10 a i) (scaled10 b j) -> a = b /\ i = j.
Proof.
  assert (forall a i b j, i <= j -> ~ (10 | a) -> Qeq (scaled10 a i) (scaled10 b j) -> a = b /\ i = j) as Hle.
  { clear. intros a i b j Hij Ha H.
    replace j with (i + (j - i)) in H by lia. rewrite scaled10_shift in H by lia. apply scaled10_inj in H.
    destruct (Z.eq_dec i j) as [->|Hne]; [replace (j - j) with 0 in H by lia; lia|]. exfalso. apply Ha.
    rewrite H. apply Z.divide_mul_r. exists (10 ^ (j - i - 1)).
    replace (j - i) with ((j - i - 1) + 1) at 1 by lia. rewrite Z.pow_add_r by lia. lia. }
  intros Ha Hb H. destruct (Z.le_ge_cases i j) as [Hij|Hij]; [by apply Hle|].
  symmetry in H. destruct (Hle _ _ _ _ Hij Hb H). done.
Qed.

(** ** What the normalization computes *)

Definition all_digits (n : number) : string := n_int n +:+ fraction_of n.
Definition core_digits (n : number) : string := TrimRightZeros (TrimLeftZeros (all_digits n)).
Definition point_of (n : number) : Z :=
  len (n_int n) + exponent_of n - (len (all_digits n) - len (TrimLeftZeros (all_digits n))).

(** The canonical spelling: no exponent, no superfluous zero. *)
Definition canonical_text (n : number) : string :=
  if TrimLeftZeros (all_digits n) == "" then "0"
  else (if n_neg n then "-" else "") +:+ place_point (core_digits n) (point_of n).

Definition exponent_allowed (n : number) : bool := (-10000 <=? exponent_of n) && (exponent_of n <=? 10000).

Lemma digit_not_mark c : is_digit c = true ->
  is_exponent_mark c = false /\ is_stop c = false /\ c <> minus_sign /\ c <> full_stop.
Proof.
  intros Hc. unfold is_exponent_mark, is_stop. rewrite orb_false_iff, !Ascii.eqb_neq.
  repeat split; intros ->; by vm_compute in Hc.
Qed.

Lemma digits_avoid (p : ascii -> bool) s :
  (forall c, is_digit c = true -> p c = false) -> str_forall is_digit s = true ->
  str_forall (fun c => negb (p c)) s = true.
Proof. intros Hp. apply str_forall_impl. intros c Hc. by rewrite Hp. Qed.

Lemma wf_digits n : wf_number n -> str_forall is_digit (n_int n) = true /\ str_forall is_digit (fraction_of n) = true.
Proof.
  intros (Hi & Hf & _). split; [by apply canonical_digits|]. unfold fraction_of.
  destruct (n_frac n); [by destruct Hf|done].
Qed.

Definition mantissa_text (n : number) : string :=
  n_int n +:+ match n_frac n with None => "" | Some f => String full_stop f end.

Lemma text_sign n : wf_number n ->
  let rest := mantissa_text n +:+ match n_exp n with None => "" | Some (m, s, d) => String m (s +:+ d) end in
  HasPrefix (number_text n) "-" = n_neg n /\ TrimPrefix (number_text n) "-" = rest.
Proof.
  intros (Hi & _) rest.
  assert (number_text n = (if n_neg n then "-" else "") +:+ rest) as ->.
  { unfold number_text, rest, mantissa_text. by rewrite !str_app_assoc. }
  destruct (n_neg n); [split; [|unfold TrimPrefix]; by destruct rest|]. cbn [String.append].
  destruct (n_int n) as [|c r] eqn:Ei; [done|].
  assert (is_digit c = true) as Hc by (by apply canonical_digits in Hi; cbn in Hi; bool_hyp).
  destruct (digit_not_mark c Hc) as (_ & _ & Hm & _).
  assert (exists t, rest = String c t) as (t & ->) by (unfold rest, mantissa_text; rewrite Ei; by eexists).
  assert (HasPrefix (String c t) "-" = false) as Hp.
  { cbn [HasPrefix]. apply andb_false_iff. left. by apply Ascii.eqb_neq. }
  unfold TrimPrefix. by rewrite Hp.
Qed.

Lemma mantissa_avoids_marks n : wf_number n -> str_forall (fun c => negb (is_exponent_mark c)) (mantissa_text n) = true.
Proof.
  intros Hn. destruct (wf_digits n Hn) as [Hi Hf]. unfold mantissa_text, fraction_of in *.
  assert (forall c, is_digit c = true -> is_exponent_mark c = false) as Hm by (intros; by apply digit_not_mark).
  rewrite str_forall_app, (digits_avoid _ _ Hm Hi). destruct (n_frac n) as [f|]; [|done].
  exact (digits_avoid _ _ Hm Hf).
Qed.

Lemma split_literal n : wf_number n ->
  split_exponent (TrimPrefix (number_text n) "-") =
  if exponent_allowed n then Ok (mantissa_text n, exponent_of n) else Err number_error.
Proof.
  intros Hn. destruct (text_sign n Hn) as [_ ->]. pose proof (mantissa_avoids_marks n Hn) as Hm.
  unfold split_exponent, exponent_allowed, exponent_of. destruct Hn as (_ & _ & Hx).
  destruct (n_exp n) as [[[mark sign] digits]|].
  - destruct Hx as (Hmark & Hs & Hne & Hd). rewrite (cut_at_app _ _ _ _ Hm Hmark), ParseInt64_signed by done.
    cbv zeta. remember (if sign == "-" then - dec_value 0 digits else dec_value 0 digits) as v eqn:Hv. clear Hv.
    destruct (v <? min_int64) eqn:E1; destruct (v >? max_int64) eqn:E2; cbn [orb]; destruct (-10000 <=? v) eqn:E3;
      destruct (v <=? 10000) eqn:E4; destruct (v <? -10000) eqn:E5; destruct (v >? 10000) eqn:E6; cbn [orb andb];
      try done; bool_hyp; unfold min_int64, max_int64 in *; lia.
  - rewrite str_app_nil_r. by rewrite cut_at_none.
Qed.

Lemma cut_literal n : wf_number n ->
  match cut_at is_stop (mantissa_text n) with
  | (_, None) => (mantissa_text n, "")
  | (integer, Some fraction) => (integer, fraction)
  end = (n_int n, fraction_of n).
Proof.
  intros Hn. destruct (wf_digits n Hn) as [Hi _]. unfold mantissa_text, fraction_of.
  assert (str_forall (fun c => negb (is_stop c)) (n_int n) = true) as Ha.
  { apply digits_avoid; [|done]. intros c Hc. by apply digit_not_mark. }
  destruct (n_frac n) as [f|]; [by rewrite (cut_at_app _ _ full_stop f Ha)|].
  rewrite str_app_nil_r. by rewrite cut_at_none.
Qed.

(** ** The superfluous zeros *)

Lemma TrimLeftZeros_digits s : str_forall is_digit s = true -> str_forall is_digit (TrimLeftZeros s) = true.
Proof.
  induction s as [|c s IH]; [done|]. cbn [str_forall TrimLeftZeros]. intros H.
  destruct (code c =? 48); [|done]. apply IH. by bool_hyp.
Qed.

Lemma TrimLeftZeros_kept s : TrimLeftZeros s <> "" -> TrimRightZeros (TrimLeftZeros s) <> "".
Proof.
  induction s as [|c s IH]; [done|]. cbn [TrimLeftZeros]. destruct (code c =? 48) eqn:E; [done|]. intros _.
  apply TrimRightZeros_byte. intros ->. by vm_compute in E.
Qed.

Lemma no_stop_digits s : str_forall is_digit s = true -> str_no full_stop s = true.
Proof. apply digits_avoid. intros c Hc. by apply digit_not_mark. Qed.

Lemma stop_inside s t : str_no full_stop (s +:+ String full_stop t) = false.
Proof. unfold str_no. rewrite str_forall_app. cbn [str_forall]. by rewrite Ascii.eqb_refl, andb_false_r. Qed.

(** The digits after the point, without the zeros they end in. *)
Lemma trim_inside c n c' x p :
  c = c' +:+ String x "" -> x <> zero_char -> x <> full_stop -> 0 <= p < len c ->
  TrimSuffixByte full_stop (TrimRightZeros
    (str_take (Z.to_nat p) (c +:+ zeros n) +:+ String full_stop (str_drop (Z.to_nat p) (c +:+ zeros n)))) =
  str_take (Z.to_nat p) c +:+ String full_stop (str_drop (Z.to_nat p) c).
Proof.
  intros Hlast Hx Hstop Hp.
  assert (len (str_take (Z.to_nat p) c) = p) as Htake.
  { unfold len. rewrite length_str_take; [lia|]. unfold len in Hp. lia. }
  destruct (str_split_app (Z.to_nat p) (str_take (Z.to_nat p) c) (str_drop (Z.to_nat p) c +:+ zeros n))
    as [Ht Hr]; [lia|].
  rewrite <- str_app_assoc, str_take_drop in Ht, Hr. rewrite Ht, Hr.
  assert (str_drop (Z.to_nat p) c = str_drop (Z.to_nat p) c' +:+ String x "") as Hdrop.
  { rewrite Hlast. apply str_drop_app_le. apply (f_equal len) in Hlast. rewrite len_app in Hlast.
    unfold len in *. cbn in Hlast. lia. }
  replace (str_take (Z.to_nat p) c +:+ String full_stop (str_drop (Z.to_nat p) c +:+ zeros n)) with
    ((str_take (Z.to_nat p) c +:+ String full_stop (str_drop (Z.to_nat p) c)) +:+ zeros n)
    by (by rewrite str_app_assoc).
  rewrite TrimRightZeros_app_zeros, Hdrop.
  change (String full_stop (str_drop (Z.to_nat p) c' +:+ String x ""))
    with (String full_stop (str_drop (Z.to_nat p) c') +:+ String x "").
  rewrite <- str_app_assoc, TrimRightZeros_app by (by apply TrimRightZeros_byte).
  replace (TrimRightZeros (String x "")) with (String x ""); [by apply TrimSuffixByte_other|].
  cbn [TrimRightZeros]. by rewrite (proj2 (Ascii.eqb_neq _ _) Hx).
Qed.

(** Trimming the placed digits is placing the trimmed digits. *)
Lemma place_point_trim d p :
  str_forall is_digit d = true -> TrimRightZeros d <> "" ->
  (if str_no full_stop (place_point d p) then place_point d p
   else TrimSuffixByte full_stop (TrimRightZeros (place_point d p))) = place_point (TrimRightZeros d) p.
Proof.
  intros Hd Hc. destruct (TrimRightZeros_split d) as (n & Hn & Hsplit).
  destruct (TrimRightZeros_last d Hc) as (c' & x & Hlast & Hx).
  assert (x <> full_stop) as Hstop.
  { rewrite Hsplit, Hlast, !str_forall_app in Hd. cbn [str_forall] in Hd. rewrite andb_true_r in Hd.
    apply andb_true_iff in Hd as [Hd _]. apply andb_true_iff in Hd as [_ Hd]. by apply digit_not_mark. }
  assert (len d = len (TrimRightZeros d) + n) as Hlen.
  { rewrite Hsplit at 1. by rewrite len_app, len_zeros. }
  unfold place_point. destruct (p <=? 0) eqn:E1.
  - change ("0." +:+ zeros (- p) +:+ d) with ("0" +:+ String full_stop (zeros (- p) +:+ d)) at 1.
    rewrite stop_inside, TrimRightZeros_app by (by apply TrimRightZeros_kept).
    rewrite TrimRightZeros_app by done. rewrite Hlast, <- !str_app_assoc. by apply TrimSuffixByte_other.
  - destruct (len d <=? p) eqn:E2; bool_hyp.
    + destruct (len (TrimRightZeros d) <=? p) eqn:E3; bool_hyp; [|lia].
      rewrite (no_stop_digits (d +:+ _)) by (by rewrite str_forall_app, Hd, zeros_digits).
      rewrite Hsplit at 1. rewrite str_app_assoc, <- zeros_add by lia. f_equal. f_equal. lia.
    + rewrite stop_inside. destruct (len (TrimRightZeros d) <=? p) eqn:E3; bool_hyp.
      * pose proof (len_nonneg (TrimRightZeros d)).
        assert (d = (TrimRightZeros d +:+ zeros (p - len (TrimRightZeros d))) +:+ zeros (len d - p)) as Hd'.
        { rewrite str_app_assoc, <- zeros_add by lia. rewrite Hsplit at 1. do 2 f_equal. lia. }
        destruct (str_split_app (Z.to_nat p) (TrimRightZeros d +:+ zeros (p - len (TrimRightZeros d)))
                    (zeros (len d - p))) as [Ht Hr]; [rewrite len_app, len_zeros; lia|].
        rewrite <- Hd' in Ht, Hr. rewrite Ht, Hr.
        change (String full_stop (zeros (len d - p))) with (String full_stop "" +:+ zeros (len d - p)).
        rewrite <- str_app_assoc, TrimRightZeros_app_zeros, TrimRightZeros_app by done. apply TrimSuffixByte_app.
      * rewrite Hsplit at 1 2. apply (trim_inside _ _ c' x); [done..|lia].
Qed.

Lemma normalize_literal n : wf_number n ->
  normalizeJSONNumber (number_text n) = if exponent_allowed n then Ok (canonical_text n) else Err number_error.
Proof.
  intros Hn. unfold normalizeJSONNumber. rewrite (split_literal n Hn), (proj1 (text_sign n Hn)).
  destruct (exponent_allowed n); [|done]. rewrite (cut_literal n Hn). fold (all_digits n). unfold canonical_text.
  destruct (TrimLeftZeros (all_digits n) == "") eqn:E; [done|]. bool_hyp. fold (point_of n).
  rewrite place_point_trim; [by destruct (n_neg n)| |by apply TrimLeftZeros_kept].
  apply TrimLeftZeros_digits. unfold all_digits. destruct (wf_digits n Hn) as [Hi Hf].
  by rewrite str_forall_app, Hi, Hf.
Qed.

(** ** The value of the canonical spelling *)

Definition place_int (d : string) (p : Z) : string :=
  if p <=? 0 then "0" else if len d <=? p then d +:+ zeros (p - len d) else str_take (Z.to_nat p) d.
Definition place_frac (d : string) (p : Z) : option string :=
  if p <=? 0 then Some (zeros (- p) +:+ d) else if len d <=? p then None else Some (str_drop (Z.to_nat p) d).

(** The literal the normalization writes. *)
Definition canonical_number (n : number) : number :=
  if TrimLeftZeros (all_digits n) == "" then mkNumber false "0" None None
  else mkNumber (n_neg n) (place_int (core_digits n) (point_of n)) (place_frac (core_digits n) (point_of n)) None.

Lemma place_text neg d p :
  number_text (mkNumber neg (place_int d p) (place_frac d p) None) = (if neg then "-" else "") +:+ place_point d p.
Proof.
  unfold number_text, place_int, place_frac, place_point. cbn [n_neg n_int n_frac n_exp]. f_equal.
  rewrite str_app_nil_r. destruct (p <=? 0); [done|]. destruct (len d <=? p); [by rewrite str_app_nil_r|done].
Qed.

Lemma canonical_number_text n : number_text (canonical_number n) = canonical_text n.
Proof. unfold canonical_number, canonical_text. destruct (_ == ""); [done|]. apply place_text. Qed.

Lemma place_value d p :
  0 < len d ->
  Qeq (scaled10 (dec_value 0 (place_int d p +:+ default "" (place_frac d p))) (0 - len (default "" (place_frac d p))))
      (scaled10 (dec_value 0 d) (p - len d)).
Proof.
  intros Hd. unfold place_int, place_frac. destruct (p <=? 0) eqn:E1; bool_hyp; cbn [from_option id].
  - rewrite !dec_value_app, len_app, zeros_value, len_zeros by lia.
    replace (0 - (- p + len d)) with (p - len d) by lia. by vm_compute (dec_value 0 "0").
  - destruct (len d <=? p) eqn:E2; bool_hyp; cbn [from_option id].
    + rewrite str_app_nil_r, dec_value_app, zeros_value, len_zeros, Z.add_0_r by lia.
      change (len "") with 0. rewrite <- scaled10_shift by lia. by replace (0 - 0 + (p - len d)) with (p - len d) by lia.
    + rewrite str_take_drop. replace (0 - len (str_drop (Z.to_nat p) d)) with (p - len d); [done|].
      pose proof (f_equal len (str_take_drop (Z.to_nat p) d)) as H. rewrite len_app in H.
      assert (len (str_take (Z.to_nat p) d) = p) by (unfold len in *; rewrite length_str_take; lia). lia.
Qed.

(** Digits that start and end with a non-zero one. *)
Definition core_ok (s : string) : Prop :=
  str_forall is_digit s = true /\ (exists c r, s = String c r /\ code c <> 48) /\ ~ (10 | dec_value 0 s).

Lemma nonzero_head_canonical c r :
  str_forall is_digit (String c r) = true -> code c <> 48 -> canonical_uint (String c r) = true.
Proof. cbn. intros Hd Hc. by rewrite (proj2 (Z.eqb_neq _ _) Hc). Qed.

Lemma core_digits_ok n :
  wf_number n -> TrimLeftZeros (all_digits n) <> "" -> core_ok (core_digits n).
Proof.
  intros Hn Hne. destruct (wf_digits n Hn) as [Hi Hf].
  assert (str_forall is_digit (all_digits n) = true) as Ha by (unfold all_digits; by rewrite str_forall_app, Hi, Hf).
  apply TrimLeftZeros_digits in Ha as Hd.
  pose proof (TrimLeftZeros_kept _ Hne) as Hk. fold (core_digits n) in Hk.
  destruct (TrimRightZeros_split (TrimLeftZeros (all_digits n))) as (t & Ht & Hs). fold (core_digits n) in Hs.
  assert (str_forall is_digit (core_digits n) = true) as Hcd.
  { rewrite Hs, str_forall_app in Hd. by bool_hyp. }
  split_and!; [done| |].
  - destruct (core_digits n) as [|c r] eqn:Ec; [done|]. exists c, r. split; [done|]. intros H48.
    clear - Hs H48. revert Hs. cbn [String.append]. generalize (r +:+ zeros t). intros q.
    induction (all_digits n) as [|d s IH]; [done|]. cbn [TrimLeftZeros].
    destruct (code d =? 48) eqn:E; [done|]. bool_hyp. intros [= -> _]. done.
  - destruct (TrimRightZeros_last _ (TrimLeftZeros_kept _ Hne)) as (c' & x & Hx & Hx0).
    fold (core_digits n) in Hx. rewrite Hx in Hcd |- *. rewrite str_forall_app in Hcd.
    apply andb_true_iff in Hcd as [_ Hxd]. cbn [str_forall] in Hxd. rewrite andb_true_r in Hxd.
    rewrite dec_value_app. change (len (String x "")) with 1. cbn [dec_value].
    assert (code x <> 48) as H48 by (intros H; apply Hx0, code_inj; by rewrite H).
    unfold is_digit in Hxd. bool_hyp. intros [q Hq]. lia.
Qed.

Definition signed (neg : bool) (m : Z) : Z := if neg then - m else m.

Lemma signed_not_divisible neg m : ~ (10 | m) -> ~ (10 | signed neg m).
Proof. intros Hm. destruct neg; [|done]. cbn. by rewrite Z.divide_opp_r. Qed.

Lemma number_core n : wf_number n -> TrimLeftZeros (all_digits n) <> "" ->
  Qeq (number_value n)
      (scaled10 (signed (n_neg n) (dec_value 0 (core_digits n))) (point_of n - len (core_digits n))).
Proof.
  intros Hn Hne. destruct (wf_digits n Hn) as [Hi Hf].
  assert (str_forall is_digit (all_digits n) = true) as Ha by (unfold all_digits; by rewrite str_forall_app, Hi, Hf).
  destruct (TrimLeftZeros_spec _ Ha) as [Hv _].
  destruct (TrimRightZeros_split (TrimLeftZeros (all_digits n))) as (t & Ht & Hs). fold (core_digits n) in Hs.
  unfold number_value, mantissa, magnitude. fold (all_digits n). rewrite <- Hv.
  assert (len (TrimLeftZeros (all_digits n)) = len (core_digits n) + t) as Hl.
  { rewrite Hs at 1. by rewrite len_app, len_zeros. }
  replace (point_of n - len (core_digits n)) with (exponent_of n - len (fraction_of n) + t).
  - assert (dec_value 0 (TrimLeftZeros (all_digits n)) = dec_value 0 (core_digits n) * 10 ^ t) as ->.
    { rewrite Hs. rewrite dec_value_app, zeros_value, len_zeros by done. lia. }
    rewrite scaled10_shift by done. destruct (n_neg n); cbn [signed]; by rewrite ?Z.mul_opp_l.
  - unfold point_of. rewrite Hl. unfold all_digits. rewrite len_app. lia.
Qed.

Lemma number_zero n : wf_number n -> TrimLeftZeros (all_digits n) = "" -> Qeq (number_value n) 0.
Proof.
  intros Hn H0. destruct (wf_digits n Hn) as [Hi Hf].
  assert (str_forall is_digit (all_digits n) = true) as Ha by (unfold all_digits; by rewrite str_forall_app, Hi, Hf).
  destruct (TrimLeftZeros_spec _ Ha) as [Hv _]. rewrite H0 in Hv.
  unfold number_value, mantissa, magnitude. fold (all_digits n). rewrite <- Hv.
  destruct (n_neg n); apply scaled10_zero.
Qed.

(** Literals of one value have one canonical spelling. *)
Lemma canonical_text_of_value n1 n2 : wf_number n1 -> wf_number n2 ->
  Qeq (number_value n1) (number_value n2) -> canonical_text n1 = canonical_text n2.
Proof.
  assert (forall n, wf_number n -> TrimLeftZeros (all_digits n) <> "" -> ~ Qeq (number_value n) 0) as Hnz.
  { clear. intros n Hn Hne H. rewrite (number_core n Hn Hne), <- (scaled10_zero (point_of n - len (core_digits n))) in H.
    apply scaled10_inj in H. destruct (core_digits_ok n Hn Hne) as (_ & _ & Hd).
    apply (signed_not_divisible (n_neg n) _ Hd). rewrite H. by exists 0. }
  intros H1 H2 Hv. unfold canonical_text.
  destruct (TrimLeftZeros (all_digits n1) == "") eqn:E1, (TrimLeftZeros (all_digits n2) == "") eqn:E2; bool_hyp; [done|..].
  - destruct (Hnz n2 H2 E2). by rewrite <- Hv, number_zero.
  - destruct (Hnz n1 H1 E1). by rewrite Hv, number_zero.
  - rewrite (number_core n1 H1 E1), (number_core n2 H2 E2) in Hv.
    destruct (core_digits_ok n1 H1 E1) as (Hd1 & (c1 & r1 & Hc1 & Hz1) & Hn1).
    destruct (core_digits_ok n2 H2 E2) as (Hd2 & (c2 & r2 & Hc2 & Hz2) & Hn2).
    apply scaled10_unique in Hv as [Hm Hp]; [|by apply signed_not_divisible..].
    pose proof (dec_value_bound _ Hd1). pose proof (dec_value_bound _ Hd2).
    assert (dec_value 0 (core_digits n1) <> 0) by (intros Heq; apply Hn1; rewrite Heq; by exists 0).
    assert (dec_value 0 (core_digits n2) <> 0) by (intros Heq; apply Hn2; rewrite Heq; by exists 0).
    assert (n_neg n1 = n_neg n2) as Hneg by (destruct (n_neg n1), (n_neg n2); cbn in Hm; done || lia).
    rewrite Hneg in *. assert (core_digits n1 = core_digits n2) as Hcore.
    { apply canonical_inj; [rewrite Hc1 in *|rewrite Hc2 in *|destruct (n_neg n2); cbn in Hm; lia];
        by apply nonzero_head_canonical. }
    rewrite Hcore in *. replace (point_of n1) with (point_of n2) by lia. done.
Qed.

Lemma canonical_number_wf n : wf_number n -> wf_number (canonical_number n).
Proof.
  intros Hn. unfold canonical_number. destruct (_ == "") eqn:E; [done|]. bool_hyp.
  destruct (core_digits_ok n Hn E) as (Hd & (c & r & Hc & Hz) & _). generalize (point_of n) as p. intros p.
  unfold wf_number. cbn [n_int n_frac n_exp]. unfold place_int, place_frac. rewrite Hc in *.
  destruct (p <=? 0) eqn:E1; bool_hyp.
  - split_and!; [done| |by rewrite str_forall_app, zeros_digits|done]. by destruct (zeros (- p)).
  - destruct (len (String c r) <=? p) eqn:E2; bool_hyp; split_and!; try done.
    + change (String c r +:+ zeros ?z) with (String c (r +:+ zeros z)). apply nonzero_head_canonical; [|done].
      change (String c (r +:+ zeros ?z)) with (String c r +:+ zeros z). by rewrite str_forall_app, Hd, zeros_digits.
    + pose proof (str_forall_take _ (Z.to_nat p) _ Hd) as Hk. destruct (Z.to_nat p) as [|k] eqn:Ek; [lia|].
      cbn [str_take] in Hk |- *. by apply nonzero_head_canonical.
    + intros H0. pose proof (f_equal len (str_take_drop (Z.to_nat p) (String c r))) as H.
      rewrite len_app, H0 in H. unfold len in *. rewrite length_str_take in H by lia. cbn [String.length] in *. lia.
    + by apply str_forall_drop.
Qed.

Lemma canonical_number_value n : wf_number n -> exponent_allowed n = true ->
  Qeq (number_value (canonical_number n)) (number_value n).
Proof.
  intros Hn Hx. unfold canonical_number. destruct (_ == "") eqn:E; bool_hyp.
  { rewrite (number_zero n Hn E). by apply number_zero. }
  rewrite (number_core n Hn E). destruct (core_digits_ok n Hn E) as (_ & (c & r & Hc & _) & _).
  assert (0 < len (core_digits n)) as Hl by (rewrite Hc; unfold len; cbn; lia).
  pose proof (place_value (core_digits n) (point_of n) Hl) as Hp.
  unfold number_value, mantissa, magnitude, exponent_of, fraction_of. cbn [n_neg n_int n_frac n_exp].
  destruct (n_neg n); cbn [signed]; [|exact Hp].
  assert (forall m k, Qeq (scaled10 (- m) k) (- scaled10 m k)%Q) as Hopp.
  { intros m k. unfold scaled10. rewrite inject_Z_opp. ring. }
  by rewrite !Hopp, Hp.
Qed.

(** The text of a literal determines its value. *)
Lemma number_text_value n1 n2 : wf_number n1 -> wf_number n2 -> n_exp n1 = None -> n_exp n2 = None ->
  number_text n1 = number_text n2 -> number_value n1 = number_value n2.
Proof.
  intros H1 H2 X1 X2 Ht. destruct (text_sign n1 H1) as [S1 T1], (text_sign n2 H2) as [S2 T2].
  pose proof (cut_literal n1 H1) as C1. pose proof (cut_literal n2 H2) as C2.
  rewrite X1, str_app_nil_r in T1. rewrite X2, str_app_nil_r in T2.
  rewrite <- T1, Ht in C1. rewrite <- T2, C1 in C2. injection C2 as Hi Hf.
  unfold number_value, mantissa, magnitude, exponent_of. rewrite X1, X2, Hi, Hf, <- S1, <- S2, Ht. done.
Qed.

(** The numbers of a payload have one canonical spelling per value: two JSON
    literals whose exponents are in range are both accepted, and are rewritten
    to the same text exactly when they denote the same rational number; the
    text is again a literal of that value and is left as it is when normalized
    again. A literal whose exponent is outside the range is refused. *)
Theorem normalizeJSONNumber_canonical n1 n2 :
  wf_number n1 -> wf_number n2 -> exponent_allowed n1 = true ->
  exists s1,
    normalizeJSONNumber (number_text n1) = Ok s1 /\
    normalizeJSONNumber s1 = Ok s1 /\
    (exists m, wf_number m /\ number_text m = s1 /\ Qeq (number_value m) (number_value n1)) /\
    match normalizeJSONNumber (number_text n2) with
    | Ok s2 => exponent_allowed n2 = true /\ (s1 = s2 <-> Qeq (number_value n1) (number_value n2))
    | Err e => exponent_allowed n2 = false /\ e = number_error
    end.
Proof.
  intros H1 H2 X1. exists (canonical_text n1). rewrite !normalize_literal, X1 by done.
  pose proof (canonical_number_value n1 H1 X1) as V1. pose proof (canonical_number_wf n1 H1) as W1.
  pose proof (canonical_number_wf n2 H2) as W2.
  assert (forall n, n_exp (canonical_number n) = None) as Hnx.
  { intros n. unfold canonical_number. by destruct (_ == ""). }
  split_and!; [done| | |].
  - rewrite <- (canonical_number_text n1) at 1. rewrite normalize_literal by done.
    unfold exponent_allowed at 1, exponent_of at 1 2. rewrite Hnx. cbn [andb]. f_equal.
    by apply canonical_text_of_value.
  - exists (canonical_number n1). by rewrite canonical_number_text.
  - destruct (exponent_allowed n2) eqn:X2; [|done]. split; [done|]. split; [|by apply canonical_text_of_value].
    intros Ht. rewrite <- (canonical_number_text n1), <- (canonical_number_text n2) in Ht.
    rewrite <- V1, <- (canonical_number_value n2 H2 X2).
    by rewrite (number_text_value (canonical_number n1) (canonical_number n2)).
Qed.

Definition sample_number : number := mkNumber true "12" (Some "300") (Some (chr 101, "+", "1")).
Definition sample_same : number := mkNumber true "123" None None.

Lemma normalizeJSONNumber_canonical_witness :
  exists s, normalizeJSONNumber "-12.300e+1" = Ok s /\ s = "-123" /\
            (s = "-123" <-> Qeq (number_value sample_number) (number_value sample_same)).
Proof.
  destruct (normalizeJSONNumber_canonical sample_number sample_same) as (s & Hs & _ & _ & Heq);
    [vm_compute; intuition done..|].
  assert (s = "-123") as -> by (vm_compute in Hs; congruence).
  exists "-123". split; [exact Hs|]. split; [reflexivity|].
  change (match normalizeJSONNumber "-123" with Ok s2 => exponent_allowed sample_same = true /\
    ("-123" = s2 <-> Qeq (number_value sample_number) (number_value sample_same)) | Err e => exponent_allowed sample_same = false /\ e = number_error end) in Heq.
  vm_compute (normalizeJSONNumber "-123") in Heq. exact (proj2 Heq).
Defined.

(** ** Payloads *)

(** A decoded payload; the fields of an object are the map's, in key order. *)
Inductive JSON :=
| JNull
| JBool (b : bool)
| JNumber (text : string)
| JString (s : string)
| JArray (items : list JSON)
| JObject (fields : list (string * JSON)).

Section JSON_induction.
Context (P : JSON -> Prop).
Hypothesis case_null : P JNull.
Hypothesis case_bool : forall b, P (JBool b).
Hypothesis case_number : forall t, P (JNumber t).
Hypothesis case_string : forall s, P (JString s).
Hypothesis case_array : forall l, Forall P l -> P (JArray l).
Hypothesis case_object : forall l, Forall (fun f => P (snd f)) l -> P (JObject l).

Fixpoint JSON_nested_ind (v : JSON) : P v :=
  match v with
  | JNull => case_null
  | JBool b => case_bool b
  | JNumber t => case_number t
  | JString s => case_string s
  | JArray l =>
      case_array l ((fix go l : Forall P l :=
        match l with [] => Forall_nil_2 _ | x :: r => Forall_cons_2 _ _ _ (JSON_nested_ind x) (go r) end) l)
  | JObject l =>
      case_object l ((fix go l : Forall (fun f => P (snd f)) l :=
        match l with [] => Forall_nil_2 _ | f :: r => Forall_cons_2 _ _ _ (JSON_nested_ind (snd f)) (go r) end) l)
  end.
End JSON_induction.

(** Every failure is the one of [normalizeJSONNumber], so the order in which the
    map of an object is walked does not show. *)
Fixpoint canonicalizeJSONValue (v : JSON) : result string JSON :=
  match v with
  | JNumber t => match normalizeJSONNumber t with Ok s => Ok (JNumber s) | Err e => Err e end
  | JArray l =>
      let fix walk l :=
        match l with
        | [] => Ok []
        | x :: r => x' ← canonicalizeJSONValue x; r' ← walk r; Ok (x' :: r')
        end in
      l' ← walk l; Ok (JArray l')
  | JObject l =>
      let fix walk l :=
        match l with
        | [] => Ok []
        | (k, x) :: r => x' ← canonicalizeJSONValue x; r' ← walk r; Ok ((k, x') :: r')
        end in
      l' ← walk l; Ok (JObject l')
  | _ => Ok v
  end.

(** The numbers of a decoded payload are literals. *)
Fixpoint wf_json (v : JSON) : Prop :=
  match v with
  | JNumber t => exists n, wf_number n /\ number_text n = t
  | JArray l => (fix go l := match l with [] => True | x :: r => wf_json x /\ go r end) l
  | JObject l => (fix go l := match l with [] => True | (_, x) :: r => wf_json x /\ go r end) l
  | _ => True
  end.

(** Payloads that differ at most in how their numbers are spelled. *)
Inductive same_json : JSON -> JSON -> Prop :=
| same_null : same_json JNull JNull
| same_bool b : same_json (JBool b) (JBool b)
| same_string s : same_json (JString s) (JString s)
| same_number n1 n2 : wf_number n1 -> wf_number n2 -> exponent_allowed n1 = true -> exponent_allowed n2 = true ->
    Qeq (number_value n1) (number_value n2) ->
    same_json (JNumber (number_text n1)) (JNumber (number_text n2))
| same_array_nil : same_json (JArray []) (JArray [])
| same_array_cons x y l r : same_json x y -> same_json (JArray l) (JArray r) -> same_json (JArray (x :: l)) (JArray (y :: r))
| same_object_nil : same_json (JObject []) (JObject [])
| same_object_cons k x y l r : same_json x y -> same_json (JObject l) (JObject r) ->
    same_json (JObject ((k, x) :: l)) (JObject ((k, y) :: r)).

Lemma canonicalize_array_cons x l :
  canonicalizeJSONValue (JArray (x :: l)) =
  (x' ← canonicalizeJSONValue x;
   match canonicalizeJSONValue (JArray l) with Ok (JArray l') => Ok (JArray (x' :: l')) | Ok _ => Err "" | Err e => Err e end).
Proof.
  cbn. unfold mbind, result_bind. by repeat case_match; simplify_eq.
Qed.

Lemma canonicalize_object_cons k x l :
  canonicalizeJSONValue (JObject ((k, x) :: l)) =
  (x' ← canonicalizeJSONValue x;
   match canonicalizeJSONValue (JObject l) with Ok (JObject l') => Ok (JObject ((k, x') :: l')) | Ok _ => Err "" | Err e => Err e end).
Proof.
  cbn. unfold mbind, result_bind. by repeat case_match; simplify_eq.
Qed.

Lemma normalize_same n1 n2 : wf_number n1 -> wf_number n2 -> exponent_allowed n1 = true -> exponent_allowed n2 = true ->
  Qeq (number_value n1) (number_value n2) ->
  normalizeJSONNumber (number_text n1) = normalizeJSONNumber (number_text n2).
Proof.
  intros H1 H2 X1 X2 Hv. rewrite !normalize_literal, X1, X2 by done. f_equal. by apply canonical_text_of_value.
Qed.

Lemma canonicalize_same v1 v2 : same_json v1 v2 -> canonicalizeJSONValue v1 = canonicalizeJSONValue v2.
Proof.
  induction 1 as [| | |n1 n2 H1 H2 X1 X2 Hv| |x y l r Hx IHx Hl IHl| |k x y l r Hx IHx Hl IHl]; [done..| | | | |].
  - cbn [canonicalizeJSONValue]. by rewrite (normalize_same n1 n2).
  - done.
  - by rewrite !canonicalize_array_cons, IHx, IHl.
  - done.
  - by rewrite !canonicalize_object_cons, IHx, IHl.
Qed.

Lemma normalize_idem n s : wf_number n -> normalizeJSONNumber (number_text n) = Ok s ->
  normalizeJSONNumber s = Ok s.
Proof.
  intros Hn Hs. rewrite normalize_literal in Hs by done. destruct (exponent_allowed n) eqn:X; [|done].
  injection Hs as <-. rewrite <- (canonical_number_text n) at 1.
  rewrite normalize_literal by (by apply canonical_number_wf).
  assert (exponent_allowed (canonical_number n) = true) as ->.
  { unfold exponent_allowed, exponent_of, canonical_number. by destruct (_ == ""). }
  f_equal. apply canonical_text_of_value; [by apply canonical_number_wf|done|by apply canonical_number_value].
Qed.

Lemma canonicalize_idem v v' : wf_json v -> canonicalizeJSONValue v = Ok v' -> canonicalizeJSONValue v' = Ok v'.
Proof.
  revert v'. induction v as [|b|t|s|l IH|l IH] using JSON_nested_ind; intros v' Hw Hc;
    [by injection Hc as <-|by injection Hc as <-| |by injection Hc as <-| |].
  - destruct Hw as (n & Hn & <-). cbn [canonicalizeJSONValue] in Hc.
    destruct (normalizeJSONNumber (number_text n)) as [s|] eqn:E; [|done]. injection Hc as <-.
    cbn [canonicalizeJSONValue]. by rewrite (normalize_idem n s).
  - revert v' Hc. induction IH as [|x l Hx IH IHl]; intros v' Hc; [cbn in Hc; by injection Hc as <-|].
    destruct Hw as [Hwx Hwl]. rewrite canonicalize_array_cons in Hc.
    destruct (canonicalizeJSONValue x) as [x'|] eqn:Ex; [|done]. unfold mbind, result_bind in Hc.
    destruct (canonicalizeJSONValue (JArray l)) as [[]|] eqn:El; try done. injection Hc as <-.
    rewrite canonicalize_array_cons, (Hx x' Hwx eq_refl). unfold mbind, result_bind. by rewrite (IHl Hwl _ eq_refl).
  - revert v' Hc. induction IH as [|[k x] l Hx IH IHl]; intros v' Hc; [cbn in Hc; by injection Hc as <-|].
    destruct Hw as [Hwx Hwl]. rewrite canonicalize_object_cons in Hc.
    destruct (canonicalizeJSONValue x) as [x'|] eqn:Ex; [|done]. unfold mbind, result_bind in Hc.
    destruct (canonicalizeJSONValue (JObject l)) as [[]|] eqn:El; try done. injection Hc as <-.
    rewrite canonicalize_object_cons, (Hx x' Hwx Ex). unfold mbind, result_bind. by rewrite (IHl Hwl _ eq_refl).
Qed.

(** ** Messages *)

Record Message := mkMessage {
  m_EventID : string; m_TenantID : string; m_MerchantID : string; m_AggregateType : string;
  m_AggregateID : string; m_AggregateVersion : Z; m_Sequence : Z; m_EventType : string;
  m_SchemaVersion : string; m_Payload : string; m_CorrelationID : string; m_CausationID : string;
  m_OccurredAt : Time; m_RecordedAt : Time }.

Definition with_payload (m : Message) (payload : string) : Message :=
  mkMessage (m_EventID m) (m_TenantID m) (m_MerchantID m) (m_AggregateType m) (m_AggregateID m)
    (m_AggregateVersion m) (m_Sequence m) (m_EventType m) (m_SchemaVersion m) payload (m_CorrelationID m)
    (m_CausationID m) (m_OccurredAt m) (m_RecordedAt m).

Definition message_id_byte (c : ascii) : bool :=
  let z := code c in
  (97 <=? z) && (z <=? 122) || (65 <=? z) && (z <=? 90) || (48 <=? z) && (z <=? 57)
  || (z =? 45) || (z =? 95) || (z =? 46) || (z =? 58).

Definition validMessageID (value : string) : bool :=
  if (value == "") || (len value >? 128) then false else str_forall message_id_byte value.

Definition message_incomplete (m : Message) : bool :=
  negb (validMessageID (m_EventID m)) || (m_TenantID m == "") || (m_MerchantID m == "")
  || (m_AggregateType m == "") || (m_AggregateID m == "") || (m_AggregateVersion m <? 1)
  || (m_Sequence m <? 1) || (m_EventType m == "") || (m_SchemaVersion m == "")
  || IsZeroTime (m_OccurredAt m) || IsZeroTime (m_RecordedAt m) || (len (m_Payload m) =? 0).

(** How a strict decode of one JSON document ends. *)
Inductive decoded (A : Type) :=
| Decoded (a : A)
| BadJSON
| TrailingData.
Arguments Decoded {A} a.
Arguments BadJSON {A}.
Arguments TrailingData {A}.

Section canonical.
(** [encoding/json]: the decoders of a payload (with [UseNumber]) and of an
    envelope (with [DisallowUnknownFields]), each followed by the check for
    trailing data, and [json.Marshal] of the two. *)
Context (decode_payload : string -> decoded JSON) (encode_payload : JSON -> option string)
        (decode_message : string -> decoded Message) (encode_message : Message -> option string).

Definition CanonicalJSON (message : Message) : result string string :=
  if message_incomplete message then Err "outbox message is incomplete"
  else match decode_payload (m_Payload message) with
       | BadJSON => Err "outbox payload is not valid JSON"
       | TrailingData => Err "JSON value has trailing data"
       | Decoded payload =>
           match canonicalizeJSONValue payload with
           | Err e => Err e
           | Ok payload =>
               match encode_payload payload with
               | None => Err "outbox payload cannot be canonicalized"
               | Some canonicalPayload =>
                   match encode_message (with_payload message canonicalPayload) with
                   | None => Err "json: unsupported value"
                   | Some text => Ok text
                   end
               end
           end
       end.

Definition ParseCanonicalJSON (data : string) : result string Message :=
  match decode_message data with
  | BadJSON => Err "event envelope is invalid"
  | TrailingData => Err "JSON value has trailing data"
  | Decoded message =>
      match CanonicalJSON message with
      | Err e => Err e
      | Ok canonical => if canonical != data then Err "event envelope is not canonical" else Ok message
      end
  end.
End canonical.

Definition sample_message (payload : string) : Message :=
  mkMessage "evt-1" "t1" "m1" "payment_intent" "pi-1" 1 1 "payment.settled" "1" payload "" "" 1 1.
#[export] Instance Message_eq_dec : EqDecision Message.
Proof. solve_decision. Defined.

(** ** The relay worker (worker.go) *)

Record Job := mkJob { job_EventID : string; job_ClaimToken : string; job_Attempt : Z; job_Message : Message }.

Inductive outbox_call :=
| CallClaim (workerID : string) (at_ : Time) (lease : Duration) (limit : Z)
| CallPublish (m : Message)
| CallMarkPublished (j : Job) (at_ : Time)
| CallRetry (j : Job) (at_ : Time) (reason : string).

(** What the store and the publisher answer to the [i]-th job of the batch:
    [None] is success. *)
Record outbox_env := mkOutboxEnv {
  ob_now : Time; ob_claim : result string (list Job);
  ob_publish : nat -> option string; ob_mark : nat -> option string; ob_retry : nat -> option string }.

Record OutboxWorker := mkOutboxWorker { ow_Lease : Duration; ow_MaxRetryDelay : Duration }.

Definition with_event_id (m : Message) (id : string) : Message :=
  mkMessage id (m_TenantID m) (m_MerchantID m) (m_AggregateType m) (m_AggregateID m)
    (m_AggregateVersion m) (m_Sequence m) (m_EventType m) (m_SchemaVersion m) (m_Payload m) (m_CorrelationID m)
    (m_CausationID m) (m_OccurredAt m) (m_RecordedAt m).

(** The job as the loop sees it, with the event identifier filled in. *)
Definition named_job (j : Job) : Job :=
  if m_EventID (job_Message j) == ""
  then mkJob (job_EventID j) (job_ClaimToken j) (job_Attempt j) (with_event_id (job_Message j) (job_EventID j))
  else j.

(** [time.Duration(job.Attempt*job.Attempt) * time.Second], capped. *)
Definition retry_delay (w : OutboxWorker) (attempt : Z) : Duration :=
  let delay := int64 (int64 (attempt * attempt) * Second) in
  let maximum := if ow_MaxRetryDelay w <=? 0 then 15 * Minute else ow_MaxRetryDelay w in
  if delay >? maximum then maximum else delay.

Definition relay_job (w : OutboxWorker) (e : outbox_env) (i : nat) (job : Job) : list outbox_call * option string :=
  let job := named_job job in
  let attempt_mark := match ob_publish e i with None => ob_mark e i | Some err => Some err end in
  let calls := CallPublish (job_Message job)
               :: match ob_publish e i with None => [CallMarkPublished job (ob_now e)] | Some _ => [] end in
  match attempt_mark with
  | None => (calls, None)
  | Some err =>
      let reason := str_take 512 err in
      (calls ++ [CallRetry job (AddTime (ob_now e) (retry_delay w (job_Attempt job))) reason],
       Some (match ob_retry e i with
             | Some retryErr => "publish " +:+ job_EventID job +:+ ": " +:+ err +:+ "; retry: " +:+ retryErr
             | None => "publish " +:+ job_EventID job +:+ ": " +:+ err
             end))
  end.

Fixpoint relay_jobs (w : OutboxWorker) (e : outbox_env) (i : nat) (jobs : list Job) : list outbox_call * list string :=
  match jobs with
  | [] => ([], [])
  | job :: rest =>
      let '(calls, failure) := relay_job w e i job in
      let '(more, failures) := relay_jobs w e (S i) rest in
      (calls ++ more, option_list failure ++ failures)
  end.

(** The number of claimed jobs, and the failures [errors.Join] reports. *)
Definition RunBatch (w : OutboxWorker) (e : outbox_env) (workerID : string) (limit : Z)
    : list outbox_call * result string (nat * list string) :=
  if (workerID == "") || (limit <? 1) || (limit >? 500) then ([], Err "invalid outbox worker configuration")
  else
    let lease := if ow_Lease w <=? 0 then 30 * Second else ow_Lease w in
    let claim := CallClaim workerID (ob_now e) lease limit in
    match ob_claim e with
    | Err err => ([claim], Err err)
    | Ok jobs => let '(calls, failures) := relay_jobs w e 0 jobs in (claim :: calls, Ok (length jobs, failures))
    end.

Definition maximum_delay (w : OutboxWorker) : Duration :=
  if ow_MaxRetryDelay w <=? 0 then 15 * Minute else ow_MaxRetryDelay w.

(** The delay is the square of the attempt in seconds, capped, for as long as
    the square fits a [time.Duration]: up to 96038 attempts. *)
Lemma retry_delay_exact w attempt : 0 <= attempt <= 96038 ->
  retry_delay w attempt = Z.min (attempt * attempt * Second) (maximum_delay w).
Proof.
  intros Ha. unfold retry_delay, maximum_delay, Second in *.
  assert (0 <= attempt * attempt <= 96038 * 96038) as Hsq by nia.
  rewrite (int64_id (attempt * attempt)) by (unfold is_int64, min_int64, max_int64; lia).
  rewrite int64_id by (unfold is_int64, min_int64, max_int64; lia).
  generalize (if ow_MaxRetryDelay w <=? 0 then 15 * Minute else ow_MaxRetryDelay w) as m. intros m.
  destruct (_ >? m) eqn:E; bool_hyp; lia.
Qed.

Lemma retry_delay_cap w attempt : retry_delay w attempt <= maximum_delay w.
Proof. unfold retry_delay. fold (maximum_delay w). destruct (_ >? maximum_delay w) eqn:E; bool_hyp; lia. Qed.

Lemma maximum_delay_pos w : 0 < maximum_delay w.
Proof. unfold maximum_delay, Minute, Second. destruct (_ <=? 0) eqn:E; bool_hyp; lia. Qed.

(** What becomes of the [i]-th job. *)
Definition relayed (w : OutboxWorker) (e : outbox_env) (i : nat) (job : Job) (calls : list outbox_call) : Prop :=
  let failed := match ob_publish e i with None => is_Some (ob_mark e i) | Some _ => True end in
  CallPublish (job_Message (named_job job)) ∈ calls /\
  (ob_publish e i = None -> CallMarkPublished (named_job job) (ob_now e) ∈ calls) /\
  (failed -> exists at_ reason, CallRetry (named_job job) at_ reason ∈ calls /\ len reason <= 512 /\
     at_ <= ob_now e + maximum_delay w /\ (0 <= job_Attempt job <= 96038 -> ob_now e <= at_)).

Lemma str_take_len n s : len (str_take n s) <= Z.of_nat n.
Proof. revert s. induction n as [|n IH]; intros [|c s]; unfold len in *; cbn; try lia. specialize (IH s). lia. Qed.

Lemma named_job_attempt j : job_Attempt (named_job j) = job_Attempt j.
Proof. unfold named_job. by destruct (_ == ""). Qed.

Lemma relay_job_relayed w e i job : relayed w e i job (fst (relay_job w e i job)).
Proof.
  unfold relayed, relay_job. rewrite <- (named_job_attempt job). set (j := named_job job).
  pose proof (retry_delay_cap w (job_Attempt j)) as Hcap. pose proof (maximum_delay_pos w) as Hmax.
  assert (0 <= job_Attempt j <= 96038 -> ob_now e <= AddTime (ob_now e) (retry_delay w (job_Attempt j))) as Hlow.
  { intros Ha. unfold AddTime. rewrite retry_delay_exact by done. unfold Second. nia. }
  assert (forall err, len (str_take 512 err) <= 512) as Hreason by (intros; apply (str_take_len 512)).
  revert Hreason. generalize (str_take 512). intros cut Hreason.
  destruct (ob_publish e i) as [err|]; [|destruct (ob_mark e i) as [err|]]; cbn [fst]; split_and!.
  all: try (intros; discriminate). all: try (by set_solver).
  all: try (intros [? ?]; discriminate).
  all: intros _; exists (AddTime (ob_now e) (retry_delay w (job_Attempt j))), (cut err).
  all: (split; [set_solver|]); split_and!; [apply Hreason|unfold AddTime; lia|done].
Qed.

Lemma relayed_mono w e i job calls more : relayed w e i job calls -> calls ⊆ more -> relayed w e i job more.
Proof.
  intros (Hp & Hm & Hr) Hsub. split_and!; [by apply Hsub|intros; by apply Hsub, Hm|].
  intros Hf. destruct (Hr Hf) as (t & r & Hc & Hrest). exists t, r. split; [by apply Hsub|done].
Qed.

Lemma relay_jobs_cons w e i job rest :
  fst (relay_jobs w e i (job :: rest)) = fst (relay_job w e i job) ++ fst (relay_jobs w e (S i) rest).
Proof. cbn [relay_jobs]. destruct (relay_job w e i job), (relay_jobs w e (S i) rest). done. Qed.

Lemma relay_jobs_relayed w e jobs : forall i k job,
  jobs !! k = Some job -> relayed w e (i + k) job (fst (relay_jobs w e i jobs)).
Proof.
  induction jobs as [|j jobs IH]; intros i [|k] job Hk; [done|done| |].
  - injection Hk as ->. rewrite relay_jobs_cons, Nat.add_0_r.
    eapply relayed_mono; [apply relay_job_relayed|set_solver].
  - rewrite relay_jobs_cons, Nat.add_succ_r, <- Nat.add_succ_l.
    eapply relayed_mono; [apply IH, Hk|set_solver].
Qed.

Lemma relay_jobs_marks w e jobs : forall i job t,
  CallMarkPublished job t ∈ fst (relay_jobs w e i jobs) ->
  exists k job0, jobs !! k = Some job0 /\ job = named_job job0 /\ ob_publish e (i + k) = None.
Proof.
  induction jobs as [|j jobs IH]; intros i job t; [by intros ?%elem_of_nil|].
  rewrite relay_jobs_cons, elem_of_app. intros [Hin|Hin].
  - exists O, j. rewrite Nat.add_0_r. unfold relay_job in Hin.
    destruct (ob_publish e i); [|destruct (ob_mark e i)]; set_solver.
  - destruct (IH _ _ _ Hin) as (k & job0 & Hk & Hj & Hp). exists (S k), job0.
    by rewrite Nat.add_succ_r.
Qed.

(** C18: The relay delivers at least once. Every claimed event is published under
    its event identifier; it is marked as published only after its own publish
    succeeded; and when the publish or the mark failed it is handed back for a
    retry, at most the maximum delay later and, for up to 96038 attempts, not
    in the past. From attempt 96039 on the square overflows and the retry is
    due at once. *)
Theorem relay_at_least_once w e workerID limit jobs calls n failures :
  RunBatch w e workerID limit = (calls, Ok (n, failures)) -> ob_claim e = Ok jobs ->
  n = length jobs /\
  (forall i job, jobs !! i = Some job -> relayed w e i job calls) /\
  (forall job t, CallMarkPublished job t ∈ calls ->
     exists i job0, jobs !! i = Some job0 /\ job = named_job job0 /\ ob_publish e i = None) /\
  retry_delay w 96039 < 0.
Proof.
  unfold RunBatch. intros H Hj. rewrite Hj in H.
  destruct (_ || _ || _); [done|].
  destruct (relay_jobs w e 0 jobs) as [cs fs] eqn:E. injection H as <- <- <-.
  pose proof (relay_jobs_relayed w e jobs 0) as Hr. pose proof (relay_jobs_marks w e jobs 0) as Hm.
  rewrite E in Hr, Hm. cbn [fst Nat.add] in Hr, Hm. split_and!; [done| | |].
  - intros i job Hi. eapply relayed_mono; [by apply Hr|set_solver].
  - intros job t [?|Ht]%elem_of_cons; [done|]. by apply (Hm job t).
  - unfold retry_delay. fold (maximum_delay w). pose proof (maximum_delay_pos w).
    replace (int64 (int64 (96039 * 96039) * Second)) with (-9223254552709551616) by (vm_compute; reflexivity).
    destruct (_ >? _) eqn:Eg; bool_hyp; lia.
Qed.

Definition sample_job (attempt : Z) : Job := mkJob "evt-1" "claim" attempt (with_event_id (sample_message "{}") "").
Definition sample_outbox_env : outbox_env :=
  mkOutboxEnv (1000 * Second) (Ok [sample_job 1; sample_job 40]) (fun i => if (i =? 1)%nat then Some "down" else None)
    (fun _ => None) (fun _ => None).

Lemma relay_at_least_once_witness :
  relayed (mkOutboxWorker 0 0) sample_outbox_env 1 (sample_job 40)
    (fst (RunBatch (mkOutboxWorker 0 0) sample_outbox_env "w" 10)) /\
  In (CallRetry (named_job (sample_job 40)) (1900 * Second) "down")
     (fst (RunBatch (mkOutboxWorker 0 0) sample_outbox_env "w" 10)).
Proof.
  split; [|vm_compute; intuition].
  apply (relay_at_least_once (mkOutboxWorker 0 0) sample_outbox_env "w" 10 [sample_job 1; sample_job 40]
           (fst (RunBatch (mkOutboxWorker 0 0) sample_outbox_env "w" 10)) 2 ["publish evt-1: down"]);
    [vm_compute; reflexivity|reflexivity|reflexivity].
Defined.
