(* ===== verification/Wire.v ===== *)
(** * Wire: the JSON text of a message

    An executable part of encoding/json: what [json.Marshal] and a strict
    [json.Decoder] do with payloads and envelopes whose texts need no escape,
    and with UTC timestamps. The theorem on the wire form of a message takes the
    codec as a parameter; this one is an instance to evaluate it with. *)

From Stdlib Require Import ZArith Lia Ascii String QArith.
From stdpp Require Import base list strings.
From S2P Require Import Prelude Text Numerals Outbox.
Local Open Scope Z_scope.
Local Open Scope go_scope.

(** ** Payloads *)

Definition json_quote : ascii := chr 34.
Definition quoted (s : string) : string := String json_quote s +:+ String json_quote "".

(** Printable ASCII that [json.Marshal] writes as it is. *)
Definition plain_char (c : ascii) : bool :=
  let z := code c in
  (32 <=? z) && (z <=? 126) && negb (existsb (Z.eqb z) [34; 92; 60; 62; 38]).

Definition encode_text (s : string) : option string :=
  if str_forall plain_char s then Some (quoted s) else None.

Fixpoint encode_json (v : JSON) : option string :=
  match v with
  | JNull => Some "null"
  | JBool b => Some (if b then "true" else "false")
  | JNumber t => Some t
  | JString s => encode_text s
  | JArray l =>
      let fix items l :=
        match l with
        | [] => Some ""
        | [x] => encode_json x
        | x :: r => t ← encode_json x; rest ← items r; Some (t +:+ "," +:+ rest)
        end in
      t ← items l; Some ("[" +:+ t +:+ "]")
  | JObject l =>
      let fix fields l :=
        match l with
        | [] => Some ""
        | [(k, x)] => name ← encode_text k; t ← encode_json x; Some (name +:+ ":" +:+ t)
        | (k, x) :: r =>
            name ← encode_text k; t ← encode_json x; rest ← fields r;
            Some (name +:+ ":" +:+ t +:+ "," +:+ rest)
        end in
      t ← fields l; Some ("{" +:+ t +:+ "}")
  end.

Definition is_space (c : ascii) : bool := existsb (Z.eqb (code c)) [9; 10; 13; 32].

Fixpoint skip_space (s : string) : string :=
  match s with
  | String c r => if is_space c then skip_space r else s
  | EmptyString => ""
  end.

(** A text up to its closing quote mark; one with an escape is not read. *)
Fixpoint parse_text (s : string) : option (string * string) :=
  match s with
  | EmptyString => None
  | String c r =>
      if Ascii.eqb c json_quote then Some ("", r)
      else if (code c <? 32) || (code c =? 92) then None
      else '(t, rest) ← parse_text r; Some (String c t, rest)
  end.

(** The bytes of a number or of a keyword. *)
Definition word_char (c : ascii) : bool :=
  let z := code c in
  is_digit c || (97 <=? z) && (z <=? 122) || existsb (Z.eqb z) [43; 45; 46; 69].

Fixpoint span_word (s : string) : string * string :=
  match s with
  | String c r => if word_char c then let '(w, rest) := span_word r in (String c w, rest) else ("", s)
  | EmptyString => ("", "")
  end.

Definition digits1 (s : string) : bool := negb (s == "") && str_forall is_digit s.

(** The grammar of a number literal. *)
Definition number_literal (t : string) : bool :=
  let '(mantissa, exponent) := cut_at is_exponent_mark (TrimPrefix t "-") in
  let '(integer, fraction) := cut_at is_stop mantissa in
  canonical_uint integer
  && match fraction with None => true | Some f => digits1 f end
  && match exponent with
     | None => true
     | Some e => digits1 (if HasPrefix e "-" then TrimPrefix e "-" else TrimPrefix e "+")
     end.

Definition parse_word (s : string) : option (JSON * string) :=
  let '(w, rest) := span_word s in
  if w == "null" then Some (JNull, rest)
  else if w == "true" then Some (JBool true, rest)
  else if w == "false" then Some (JBool false, rest)
  else if number_literal w then Some (JNumber w, rest) else None.

(** A Go map as its fields in key order; a repeated key replaces the earlier one. *)
Fixpoint put_field {A} (k : string) (x : A) (l : list (string * A)) : list (string * A) :=
  match l with
  | [] => [(k, x)]
  | (k', y) :: r =>
      if k == k' then (k, x) :: r else if str_less k k' then (k, x) :: l else (k', y) :: put_field k x r
  end.

Definition starts (n : Z) (s : string) : option string :=
  match skip_space s with String c r => if code c =? n then Some r else None | EmptyString => None end.

(** A value at the start of a text, and the rest; every call reads a byte, so
    the length of the text is enough fuel. *)
Fixpoint parse_value (fuel : nat) (s : string) : option (JSON * string) :=
  match fuel with
  | O => None
  | S f =>
      let fix items n s :=
        match n with
        | O => None
        | S n' =>
            '(x, rest) ← parse_value f s;
            match starts 44 rest with
            | Some rest => '(l, rest) ← items n' rest; Some (x :: l, rest)
            | None => rest ← starts 93 rest; Some ([x], rest)
            end
        end in
      let fix fields n acc s :=
        match n with
        | O => None
        | S n' =>
            rest ← starts 34 s; '(k, rest) ← parse_text rest; rest ← starts 58 rest;
            '(x, rest) ← parse_value f rest;
            let acc := put_field k x acc in
            match starts 44 rest with
            | Some rest => fields n' acc rest
            | None => rest ← starts 125 rest; Some (acc, rest)
            end
        end in
      match starts 34 s, starts 91 s, starts 123 s with
      | Some r, _, _ => '(t, rest) ← parse_text r; Some (JString t, rest)
      | _, Some r, _ =>
          match starts 93 r with
          | Some rest => Some (JArray [], rest)
          | None => '(l, rest) ← items f r; Some (JArray l, rest)
          end
      | _, _, Some r =>
          match starts 125 r with
          | Some rest => Some (JObject [], rest)
          | None => '(l, rest) ← fields f [] r; Some (JObject l, rest)
          end
      | None, None, None => parse_word (skip_space s)
      end
  end.

(** A value and nothing but space after it. *)
Definition strict {A} (r : option (A * string)) : decoded A :=
  match r with
  | None => BadJSON
  | Some (v, rest) => if skip_space rest == "" then Decoded v else TrailingData
  end.

Definition decode_json (s : string) : decoded JSON := strict (parse_value (S (String.length s)) s).

(** ** Timestamps (RFC 3339 in UTC, as [time.Time.MarshalJSON] writes them) *)

(** [%04d] and the like *)
Definition fixed (n : nat) (v : Z) : string :=
  let s := dec_string v in Repeat "0" (n - String.length s) +:+ s.

(** Year, month and day of a day counted from 0001-01-01. *)
Definition civil (day : Z) : Z * Z * Z :=
  let z := day + 306 in
  let era := z / 146097 in
  let doe := z mod 146097 in
  let yoe := (doe - doe / 1460 + doe / 36524 - doe / 146096) / 365 in
  let doy := doe - (365 * yoe + yoe / 4 - yoe / 100) in
  let mp := (5 * doy + 2) / 153 in
  let month := if mp <? 10 then mp + 3 else mp - 9 in
  (yoe + era * 400 + (if month <=? 2 then 1 else 0), month, doy - (153 * mp + 2) / 5 + 1).

Definition day_of (year month day : Z) : Z :=
  let y := if month <=? 2 then year - 1 else year in
  let yoe := y mod 400 in
  let doy := (153 * (if month >? 2 then month - 3 else month + 9) + 2) / 5 + day - 1 in
  y / 400 * 146097 + (yoe * 365 + yoe / 4 - yoe / 100 + doy) - 306.

Definition format_time (t : Time) : string :=
  let sec := t / Second in
  let '(year, month, day) := civil (sec / 86400) in
  let ns := t mod Second in
  fixed 4 year +:+ "-" +:+ fixed 2 month +:+ "-" +:+ fixed 2 day +:+ "T" +:+
  fixed 2 (sec mod 86400 / 3600) +:+ ":" +:+ fixed 2 (sec mod 3600 / 60) +:+ ":" +:+ fixed 2 (sec mod 60) +:+
  (if ns =? 0 then "" else "." +:+ TrimRightZeros (fixed 9 ns)) +:+ "Z".

(** The time a text in exactly that form denotes. *)
Definition parse_time (s : string) : option Time :=
  let at_ i n := dec_value 0 (str_take n (str_drop i s)) in
  let fraction := TrimSuffixByte (chr 90) (str_drop 20 s) in
  let ns := dec_value 0 (str_take 9 (fraction +:+ "000000000")) in
  let t := (day_of (at_ 0%nat 4%nat) (at_ 5%nat 2%nat) (at_ 8%nat 2%nat) * 86400 + at_ 11%nat 2%nat * 3600
            + at_ 14%nat 2%nat * 60 + at_ 17%nat 2%nat) * Second + ns in
  if format_time t == s then Some t else None.

(** ** Envelopes *)

(** [json.Compact], which [json.Marshal] applies to a raw message. *)
Fixpoint compact (inside : bool) (s : string) : string :=
  match s with
  | EmptyString => ""
  | String c r =>
      if Ascii.eqb c json_quote then String c (compact (negb inside) r)
      else if negb inside && is_space c then compact inside r else String c (compact inside r)
  end.

Definition text_member (omit : bool) (name value : string) : option string :=
  if omit && (value == "") then Some ""
  else t ← encode_text value; Some (quoted name +:+ ":" +:+ t +:+ ",").

(** [json.Marshal] of a [Message]: its fields in their order. *)
Definition encode_envelope (m : Message) : option string :=
  event ← text_member false "event_id" (m_EventID m);
  tenant ← text_member false "tenant_id" (m_TenantID m);
  merchant ← text_member false "merchant_id" (m_MerchantID m);
  kind ← text_member false "aggregate_type" (m_AggregateType m);
  aggregate ← text_member false "aggregate_id" (m_AggregateID m);
  type ← text_member false "event_type" (m_EventType m);
  schema ← text_member false "schema_version" (m_SchemaVersion m);
  correlation ← text_member true "correlation_id" (m_CorrelationID m);
  causation ← text_member true "causation_id" (m_CausationID m);
  match decode_json (m_Payload m) with
  | Decoded _ =>
      Some ("{" +:+ event +:+ tenant +:+ merchant +:+ kind +:+ aggregate +:+
            quoted "aggregate_version" +:+ ":" +:+ FormatInt (m_AggregateVersion m) +:+ "," +:+
            quoted "sequence" +:+ ":" +:+ FormatInt (m_Sequence m) +:+ "," +:+ type +:+ schema +:+
            quoted "payload" +:+ ":" +:+ compact false (m_Payload m) +:+ "," +:+ correlation +:+ causation +:+
            quoted "occurred_at" +:+ ":" +:+ quoted (format_time (m_OccurredAt m)) +:+ "," +:+
            quoted "recorded_at" +:+ ":" +:+ quoted (format_time (m_RecordedAt m)) +:+ "}")
  | _ => None
  end.

(** The members of an object with the bytes of their values. *)
Fixpoint parse_members (fuel : nat) (acc : list (string * (JSON * string))) (s : string)
    : option (list (string * (JSON * string)) * string) :=
  match fuel with
  | O => None
  | S f =>
      rest ← starts 34 s; '(k, rest) ← parse_text rest; rest ← starts 58 rest;
      let text := skip_space rest in
      '(x, rest) ← parse_value fuel text;
      let acc := put_field k (x, str_take (String.length text - String.length rest) text) acc in
      match starts 44 rest with
      | Some rest => parse_members f acc rest
      | None => rest ← starts 125 rest; Some (acc, rest)
      end
  end.

Definition member (k : string) (l : list (string * (JSON * string))) : option (JSON * string) :=
  snd <$> head (filter (fun f => fst f = k) l).

Definition text_of (k : string) (l : list (string * (JSON * string))) : option string :=
  match member k l with None => Some "" | Some (JString s, _) => Some s | Some _ => None end.
Definition int_of (k : string) (l : list (string * (JSON * string))) : option Z :=
  match member k l with None => Some 0 | Some (JNumber t, _) => ParseInt64 t | Some _ => None end.
Definition time_of (k : string) (l : list (string * (JSON * string))) : option Time :=
  match member k l with None => Some 0 | Some (JString s, _) => parse_time s | Some _ => None end.

Definition envelope_fields : list string :=
  ["event_id"; "tenant_id"; "merchant_id"; "aggregate_type"; "aggregate_id"; "aggregate_version"; "sequence";
   "event_type"; "schema_version"; "payload"; "correlation_id"; "causation_id"; "occurred_at"; "recorded_at"].

(** Decoding into a [Message] with [DisallowUnknownFields]. *)
Definition message_of (l : list (string * (JSON * string))) : option Message :=
  if forallb (fun f => existsb_str (fst f) envelope_fields) l then
    event ← text_of "event_id" l; tenant ← text_of "tenant_id" l; merchant ← text_of "merchant_id" l;
    kind ← text_of "aggregate_type" l; aggregate ← text_of "aggregate_id" l;
    version ← int_of "aggregate_version" l; sequence ← int_of "sequence" l;
    type ← text_of "event_type" l; schema ← text_of "schema_version" l;
    correlation ← text_of "correlation_id" l; causation ← text_of "causation_id" l;
    occurred ← time_of "occurred_at" l; recorded ← time_of "recorded_at" l;
    Some (mkMessage event tenant merchant kind aggregate version sequence type schema
            (default "" (snd <$> member "payload" l)) correlation causation occurred recorded)
  else None.

Definition decode_envelope (s : string) : decoded Message :=
  strict (rest ← starts 123 s; '(l, rest) ← parse_members (S (String.length s)) [] rest;
          m ← message_of l; Some (m, rest)).

(** ** One wire form *)

Section canonical_form.
Context (decode_payload : string -> decoded JSON) (encode_payload : JSON -> option string)
        (decode_message : string -> decoded Message) (encode_message : Message -> option string).

Abbreviation WireForm := (CanonicalJSON decode_payload encode_payload encode_message).
Abbreviation ParseWireForm := (ParseCanonicalJSON decode_payload encode_payload decode_message encode_message).

Lemma complete_payload message q :
  message_incomplete message = false -> q <> "" -> message_incomplete (with_payload message q) = false.
Proof using Type.
  unfold message_incomplete. intros Hi Hq.
  cbn [m_EventID m_TenantID m_MerchantID m_AggregateType m_AggregateID
    m_AggregateVersion m_Sequence m_EventType m_SchemaVersion m_Payload m_OccurredAt m_RecordedAt with_payload].
  apply orb_false_iff in Hi as [-> _]. cbn [orb]. destruct q; [done|]. apply Z.eqb_neq.
  unfold len. cbn [String.length]. lia.
Qed.

(** What a wire form consists of. *)
Lemma CanonicalJSON_inv message data :
  WireForm message = Ok data ->
  message_incomplete message = false /\
  exists v v' p, decode_payload (m_Payload message) = Decoded v /\ canonicalizeJSONValue v = Ok v' /\
    encode_payload v' = Some p /\ encode_message (with_payload message p) = Some data.
Proof using Type.
  unfold CanonicalJSON. destruct (message_incomplete message); [done|]. intros H.
  destruct (decode_payload (m_Payload message)) as [v| |] eqn:E1; [|done..].
  destruct (canonicalizeJSONValue v) as [v'|] eqn:E2; [|done].
  destruct (encode_payload v') as [p|] eqn:E3; [|done].
  destruct (encode_message (with_payload message p)) as [t|] eqn:E4; [|done].
  injection H as ->. split; [done|]. by exists v, v', p.
Qed.

Lemma CanonicalJSON_payload message q w v' p :
  message_incomplete message = false -> q <> "" ->
  decode_payload q = Decoded w -> canonicalizeJSONValue w = Ok v' -> encode_payload v' = Some p ->
  WireForm (with_payload message q) =
    match encode_message (with_payload message p) with None => Err "json: unsupported value" | Some t => Ok t end.
Proof using Type.
  intros Hi Hq Hd Hc He. unfold CanonicalJSON. rewrite complete_payload by done.
  cbn [m_Payload with_payload]. by rewrite Hd, Hc, He.
Qed.

Lemma ParseCanonicalJSON_inv data m :
  ParseWireForm data = Ok m -> decode_message data = Decoded m /\ WireForm m = Ok data.
Proof using Type.
  unfold ParseCanonicalJSON. intros H. destruct (decode_message data) as [m'| |]; [|done..].
  destruct (WireForm m') as [canonical|] eqn:E; [|done].
  destruct (canonical != data) eqn:Ed; [done|]. bool_hyp. injection H as ->. by subst.
Qed.

(** C17: Publishers and consumers agree on one wire form. If the two texts written
    for a message, its payload and its envelope, are read back as what they were
    written from, the consumer accepts the publisher's text, as the message with its
    payload in canonical form. Messages that differ only in how the numbers of
    their payloads are spelled have the same wire form, and it is the only text a
    consumer accepts for any of them. *)
Theorem canonical_wire_form message data v :
  WireForm message = Ok data ->
  decode_payload (m_Payload message) = Decoded v -> wf_json v ->
  (forall v' p, canonicalizeJSONValue v = Ok v' -> encode_payload v' = Some p ->
     decode_payload p = Decoded v' /\ p <> "" /\
     (encode_message (with_payload message p) = Some data ->
      decode_message data = Decoded (with_payload message p))) ->
  (exists canonical v', ParseWireForm data = Ok (with_payload message canonical) /\
     canonicalizeJSONValue v = Ok v' /\ encode_payload v' = Some canonical) /\
  (forall payload w, decode_payload payload = Decoded w -> payload <> "" -> same_json v w ->
     WireForm (with_payload message payload) = Ok data /\
     forall other, ParseWireForm other = Ok (with_payload message payload) -> other = data).
Proof using Type.
  intros Hc Hv Hw Hback. apply CanonicalJSON_inv in Hc as (Hi & v0 & v' & p & Hv0 & Ec & Ep & Em).
  assert (v0 = v) as -> by congruence. destruct (Hback v' p Ec Ep) as (Hdp & Hne & Hdm).
  assert (forall q w, decode_payload q = Decoded w -> q <> "" -> canonicalizeJSONValue w = Ok v' ->
    WireForm (with_payload message q) = Ok data) as Hsame.
  { intros q w Hq Hqne Hcw. by rewrite (CanonicalJSON_payload message q w v' p), Em. }
  split.
  - exists p, v'. split; [|done]. unfold ParseCanonicalJSON.
    rewrite (Hdm Em), (Hsame p v' Hdp Hne (canonicalize_idem v v' Hw Ec)).
    by rewrite String.eqb_refl.
  - intros q w Hq Hqne Hs.
    assert (WireForm (with_payload message q) = Ok data) as Hcq.
    { apply (Hsame q w); [done..|]. by rewrite <- (canonicalize_same v w Hs). }
    split; [done|]. intros other [_ Ho]%ParseCanonicalJSON_inv. congruence.
Qed.
End canonical_form.

(** A text with quote marks for apostrophes. *)
Fixpoint json_text (s : string) : string :=
  match s with
  | EmptyString => ""
  | String c r => String (if code c =? 39 then json_quote else c) (json_text r)
  end.

Definition wire_message (payload : string) : Message :=
  mkMessage "event-1" "tenant-1" "merchant-1" "payment" "intent-1" 1 1 "payment.settled" "1" (json_text payload)
    "" "" (UnixTime 1785132000) (UnixTime 1785132001 + 250 * Millisecond).

Definition wire_payload (n1 n2 n3 : string) : string :=
  "{ 'z':" +:+ n3 +:+ ", 'fraction': " +:+ n1 +:+ ", 'list':[true,null," +:+ n2 +:+ "] }".

Definition wire_text : string :=
  json_text ("{'event_id':'event-1','tenant_id':'tenant-1','merchant_id':'merchant-1','aggregate_type':'payment'," +:+
    "'aggregate_id':'intent-1','aggregate_version':1,'sequence':1,'event_type':'payment.settled'," +:+
    "'schema_version':'1','payload':{'fraction':1.23,'list':[true,null,100],'z':0}," +:+
    "'occurred_at':'2026-07-27T06:00:00Z','recorded_at':'2026-07-27T06:00:01.25Z'}").

Definition wire_value (n1 n2 n3 : number) : JSON :=
  JObject [("fraction", JNumber (number_text n1)); ("list", JArray [JBool true; JNull; JNumber (number_text n2)]);
           ("z", JNumber (number_text n3))].

Lemma canonical_wire_form_witness :
  let message := wire_message (wire_payload "1.2300" "1e2" "-0") in
  CanonicalJSON decode_json encode_json encode_envelope message = Ok wire_text /\
  (exists canonical v', ParseCanonicalJSON decode_json encode_json decode_envelope encode_envelope wire_text
       = Ok (with_payload message canonical) /\
     canonicalizeJSONValue (wire_value (mkNumber false "1" (Some "2300") None)
       (mkNumber false "1" None (Some (chr 101, "", "2"))) (mkNumber true "0" None None)) = Ok v' /\
     encode_json v' = Some canonical) /\
  CanonicalJSON decode_json encode_json encode_envelope (wire_message (wire_payload "123E-2" "100.0" "0e7"))
    = Ok wire_text.
Proof.
  intros message.
  set (n1 := mkNumber false "1" (Some "2300") None). set (n2 := mkNumber false "1" None (Some (chr 101, "", "2"))).
  set (n3 := mkNumber true "0" None None).
  set (k1 := mkNumber false "123" None (Some (chr 69, "-", "2"))). set (k2 := mkNumber false "100" (Some "0") None).
  set (k3 := mkNumber false "0" None (Some (chr 101, "", "7"))).
  assert (wf_number n1) as H1 by (vm_compute; intuition done).
  assert (wf_number n2) as H2 by (vm_compute; intuition done).
  assert (wf_number n3) as H3 by (vm_compute; intuition done).
  assert (wf_number k1) as K1 by (vm_compute; intuition done).
  assert (wf_number k2) as K2 by (vm_compute; intuition done).
  assert (wf_number k3) as K3 by (vm_compute; intuition done).
  assert (CanonicalJSON decode_json encode_json encode_envelope message = Ok wire_text) as Hc
    by (vm_compute; reflexivity).
  assert (wf_json (wire_value n1 n2 n3)) as Hw.
  { split; [exact (ex_intro _ n1 (conj H1 eq_refl))|]. split; [split; [exact I|split; [exact I|split; [exact (ex_intro _ n2 (conj H2 eq_refl))|exact I]]]|].
    split; [exact (ex_intro _ n3 (conj H3 eq_refl))|exact I]. }
  destruct (canonical_wire_form decode_json encode_json decode_envelope encode_envelope message wire_text
              (wire_value n1 n2 n3) Hc) as [Hp Hs].
  - vm_compute. reflexivity.
  - exact Hw.
  - intros v' p Hv' Hp. vm_compute in Hv'. injection Hv' as <-. vm_compute in Hp. injection Hp as <-.
    split_and!; [vm_compute; reflexivity|discriminate|]. intros _. vm_compute. reflexivity.
  - split; [exact Hc|]. split; [exact Hp|].
    refine (proj1 (Hs (json_text (wire_payload "123E-2" "100.0" "0e7")) (wire_value k1 k2 k3) _ _ _));
      [vm_compute; reflexivity|discriminate|].
    apply same_object_cons; [refine (same_number n1 k1 H1 K1 _ _ _); vm_compute; reflexivity|].
    apply same_object_cons.
    { do 2 (apply same_array_cons; [constructor|]). apply same_array_cons; [|constructor].
      refine (same_number n2 k2 H2 K2 _ _ _); vm_compute; reflexivity. }
    apply same_object_cons; [|constructor].
    refine (same_number n3 k3 H3 K3 _ _ _); vm_compute; reflexivity.
Defined.
