(* ===== verification/Auth.v ===== *)
(** * Auth: internal/auth/hmac.go

    Authentication of merchant requests: headers, clock window, content digest,
    HMAC over the canonical request and a nonce that may be used once. *)

From Stdlib Require Import ZArith Lia Ascii String.
From stdpp Require Import base gmap list strings.
From S2P Require Import Prelude Text Numerals Encoding Money Domain Commands.

(** ** base64.StdEncoding *)

Definition std_char (c : ascii) : ascii :=
  if Ascii.eqb c (chr 45) then chr 43 else if Ascii.eqb c (chr 95) then chr 47 else c.

Fixpoint str_map (f : ascii -> ascii) (s : string) : string :=
  match s with EmptyString => "" | String c r => String (f c) (str_map f r) end.

(** The alphabet ends in "+/" and the text is padded to a multiple of four. *)
Definition b64_std_encode (s : string) : string :=
  let t := str_map std_char (b64_encode s) in
  t +:+ Repeat "=" (Z.to_nat (- len t mod 4)).

(** ** Time *)

(** [time.Unix(sec, 0)]: the seconds since year 1 are an [int64]. *)
Definition time_Unix (sec : Z) : Time := int64 (62135596800 + sec) * Second.

(** [t.Unix()], rounded down to the second. *)
Definition unix_of (t : Time) : Z := t / Second - 62135596800.

(** [delta := now.Sub(t); if delta < 0 { delta = -delta }] *)
Definition abs_delta (now t : Time) : Duration :=
  let delta := SubTime now t in if delta <? 0 then int64 (- delta) else delta.

(** ** The authenticator *)

Record Credential := mkCredential {
  cd_KeyID : string; cd_Version : Z; cd_Secret : string; cd_Principal : Principal; cd_ValidUntil : Time }.

(** The request as the authenticator reads it: its headers, the method, the
    escaped path and the raw query. *)
Record Request := mkRequest {
  rq_KeyID : string; rq_Timestamp : string; rq_Nonce : string; rq_Signature : string; rq_ContentDigest : string;
  rq_Method : string; rq_EscapedPath : string; rq_RawQuery : string }.

Definition newline : string := String (chr 10) "".
Definition unit_separator : string := String (chr 31) "".

(** The nonce store as the authenticator sees it. *)
Class NonceStore (S : Type) :=
  Consume : S -> string -> string -> Time -> S * result string bool.

Section auth.
(** [sha256.Sum256], [hmac.New(sha256.New, secret)] and [url.Values.Encode] of
    the parsed query. *)
Context (sha256 : string -> string) (hmac : string -> string -> string) (encode_query : string -> string).

Definition querySuffix (r : Request) : string :=
  if rq_RawQuery r == "" then "" else "?" +:+ encode_query (rq_RawQuery r).

Definition digest_header (body : string) : string := "sha-256=:" +:+ b64_std_encode (sha256 body) +:+ ":".

Definition canonical_request (method path timestamp nonce body : string) : string :=
  Join [method; path; timestamp; nonce; hex_encode (sha256 body)] newline.

(** [now] is the authenticator's clock, [find] its credential store. *)
Definition Authenticate {S} `{!NonceStore S} (now : Time) (Tolerance : Duration)
    (find : string -> option Credential) (r : Request) (body : string) (nonces : S) : S * result string Principal :=
  let fail msg := (nonces, Err msg) in
  if (rq_KeyID r == "") || (rq_Timestamp r == "") || (rq_Nonce r == "") || (rq_Signature r == "")
  then fail "missing merchant authentication headers"
  else if (len (rq_Nonce r) <? 16) || (len (rq_Nonce r) >? 128) then fail "merchant nonce must be 16..128 characters"
  else match ParseInt64 (rq_Timestamp r) with
  | None => fail "invalid merchant timestamp"
  | Some unix =>
      let tolerance := if Tolerance =? 0 then 5 * Minute else Tolerance in
      if abs_delta now (time_Unix unix) >? tolerance then fail "merchant timestamp is outside the allowed window"
      else if rq_ContentDigest r != digest_header body then fail "content digest mismatch"
      else match find (rq_KeyID r) with
      | None => fail "unknown or revoked merchant key"
      | Some credential =>
          if negb (IsZeroTime (cd_ValidUntil credential)) && After now (cd_ValidUntil credential)
          then fail "merchant key has expired"
          else
            let canonical := canonical_request (rq_Method r) (rq_EscapedPath r +:+ querySuffix r)
                               (rq_Timestamp r) (rq_Nonce r) body in
            match b64_decode (rq_Signature r) with
            | None => fail "merchant signature mismatch"
            | Some got =>
                if got != hmac (cd_Secret credential) canonical then fail "merchant signature mismatch"
                else match Consume nonces (rq_KeyID r) (rq_Nonce r) (AddTime now tolerance) with
                     | (nonces', Err msg) => (nonces', Err ("consume nonce: " +:+ msg))
                     | (nonces', Ok consumed) =>
                         if negb consumed then (nonces', Err "merchant nonce has already been used")
                         else (nonces', Ok (cd_Principal credential))
                     end
            end
      end
  end.

(** [SignRequest]: the headers it sets on a request. *)
Definition SignRequest (r : Request) (body secret keyID nonce : string) (now : Time) : Request :=
  let timestamp := FormatInt (unix_of now) in
  let canonical := canonical_request (rq_Method r) (rq_EscapedPath r +:+ querySuffix r) timestamp nonce body in
  mkRequest keyID timestamp nonce (b64_encode (hmac secret canonical)) (digest_header body)
    (rq_Method r) (rq_EscapedPath r) (rq_RawQuery r).
End auth.

(** [MemoryNonces]: the map, and the wall clock at the call. *)
Record MemoryNonces := mkMemoryNonces { mn_values : gmap string Time; mn_now : Time }.

Definition nonce_key (keyID nonce : string) : string := keyID +:+ unit_separator +:+ nonce.

Definition live (now : Time) (values : gmap string Time) : gmap string Time :=
  filter (fun kv => Before (snd kv) now = false) values.

#[export] Instance MemoryNonces_Consume : NonceStore MemoryNonces := fun s keyID nonce until =>
  let values := live (mn_now s) (mn_values s) in
  let key := nonce_key keyID nonce in
  match values !! key with
  | Some _ => (mkMemoryNonces values (mn_now s), Ok false)
  | None => (mkMemoryNonces (<[key := until]> values) (mn_now s), Ok true)
  end.

(** ** What an accepted request satisfies *)

Section facts.
Context (sha256 : string -> string) (hmac : string -> string -> string) (encode_query : string -> string).
Context (find : string -> option Credential) (tolerance : Duration).
Hypothesis tolerance_set : tolerance <> 0.

Abbreviation auth_at := (Authenticate sha256 hmac encode_query).
Abbreviation canonical_of := (fun r body => canonical_request sha256 (rq_Method r)
  (rq_EscapedPath r +:+ querySuffix encode_query r) (rq_Timestamp r) (rq_Nonce r) body).

(** The checks before the nonce is consumed. *)
Definition admitted (now : Time) (r : Request) (body : string) (c : Credential) (unix : Z) : Prop :=
  rq_KeyID r <> "" /\ 16 <= len (rq_Nonce r) <= 128 /\
  ParseInt64 (rq_Timestamp r) = Some unix /\ abs_delta now (time_Unix unix) <= tolerance /\
  rq_ContentDigest r = digest_header sha256 body /\ find (rq_KeyID r) = Some c /\
  (cd_ValidUntil c = 0 \/ now <= cd_ValidUntil c) /\
  b64_decode (rq_Signature r) = Some (hmac (cd_Secret c) (canonical_of r body)).

Lemma empty_timestamp : ParseInt64 "" = None.
Proof. reflexivity. Qed.

Lemma Authenticate_spec {S} `{!NonceStore S} now r body (s s' : S) p :
  auth_at now tolerance find r body s = (s', Ok p) <->
  exists c unix, admitted now r body c unix /\ rq_Signature r <> "" /\ p = cd_Principal c /\
                 Consume s (rq_KeyID r) (rq_Nonce r) (now + tolerance) = (s', Ok true).
Proof.
  unfold Authenticate, admitted, AddTime. rewrite (proj2 (Z.eqb_neq _ _) tolerance_set).
  destruct (rq_KeyID r == "") eqn:E1; bool_hyp; [split; [done|naive_solver]|].
  destruct (rq_Timestamp r == "") eqn:E2; bool_hyp.
  { cbn [orb]. split; [done|]. rewrite E2, empty_timestamp. naive_solver. }
  destruct (rq_Nonce r == "") eqn:E3; bool_hyp.
  { cbn [orb]. split; [done|]. rewrite E3. intros (c & u & (_ & Hl & _) & _). unfold len in Hl. cbn in Hl. lia. }
  destruct (rq_Signature r == "") eqn:E4; bool_hyp; [split; [done|naive_solver]|]. cbn [orb].
  destruct (len (rq_Nonce r) <? 16) eqn:E5; bool_hyp; [split; [done|naive_solver lia]|].
  destruct (len (rq_Nonce r) >? 128) eqn:E6; bool_hyp; [split; [done|naive_solver lia]|]. cbn [orb].
  destruct (ParseInt64 (rq_Timestamp r)) as [u|]; [|split; [done|naive_solver]].
  destruct (abs_delta now (time_Unix u) >? tolerance) eqn:E7; bool_hyp; [split; [done|naive_solver lia]|].
  destruct (rq_ContentDigest r == digest_header sha256 body) eqn:E8; bool_hyp; cbn [negb]; [|split; [done|naive_solver]].
  destruct (find (rq_KeyID r)) as [c|]; [|split; [done|naive_solver]].
  destruct (negb (IsZeroTime (cd_ValidUntil c)) && After now (cd_ValidUntil c)) eqn:E9.
  { split; [done|]. unfold IsZeroTime, After in E9. bool_hyp. intros (c' & u' & (_ & _ & _ & _ & _ & Hc & Hv & _) & _).
    injection Hc as <-. lia. }
  assert (cd_ValidUntil c = 0 \/ now <= cd_ValidUntil c) as Hv.
  { unfold IsZeroTime, After in E9. apply andb_false_iff in E9 as [E9|E9]; bool_hyp; lia. }
  destruct (b64_decode (rq_Signature r)) as [got|]; [|split; [done|naive_solver]].
  destruct (got == _) eqn:E10; bool_hyp; cbn [negb]; [|split; [done|naive_solver]].
  destruct (Consume _ _ _ _) as [n' [[]|msg]] eqn:E11; cbn [negb]; (split; [|naive_solver]); [|done..].
  intros [= <- <-]. exists c, u. split_and!; done || lia || congruence.
Qed.

Lemma abs_delta_small now t : is_int64 (now - t) -> now - t <> min_int64 -> abs_delta now t = Z.abs (now - t).
Proof.
  intros Hd Hm. unfold abs_delta. rewrite SubTime_small by done.
  destruct (now - t <? 0) eqn:E; bool_hyp; [|lia].
  rewrite int64_id; [lia|]. unfold is_int64, min_int64, max_int64 in *. lia.
Qed.

Lemma time_Unix_floor t : 0 <= t < 2 ^ 63 * Second -> time_Unix (unix_of t) = t / Second * Second.
Proof.
  intros Ht. unfold time_Unix, unix_of. replace (62135596800 + (t / Second - 62135596800)) with (t / Second) by lia.
  rewrite int64_id; [done|]. assert (0 <= t / Second < 2 ^ 63).
  { split; [apply Z.div_pos; unfold Second; lia|apply Z.div_lt_upper_bound; unfold Second in *; lia]. }
  unfold is_int64, min_int64, max_int64. lia.
Qed.

(** A request signed with the key's secret is accepted, on any nonce store
    that has not seen the nonce, by an authenticator whose clock is within the
    tolerance of the second it was signed in. *)
Theorem SignRequest_authenticates {S} `{!NonceStore S} now signed r body nonce keyID c (s s' : S) :
  find keyID = Some c -> cd_ValidUntil c = 0 \/ now <= cd_ValidUntil c ->
  keyID <> "" -> 16 <= len nonce <= 128 ->
  (forall m, hmac (cd_Secret c) m <> "") ->
  0 <= signed < 2 ^ 62 * Second -> tolerance < 2 ^ 62 ->
  Z.abs (now - signed / Second * Second) <= tolerance ->
  Consume s keyID nonce (now + tolerance) = (s', Ok true) ->
  auth_at now tolerance find (SignRequest sha256 hmac encode_query r body (cd_Secret c) keyID nonce signed) body s
    = (s', Ok (cd_Principal c)).
Proof.
  intros Hf Hv Hk Hl Hmac Hs Ht Hd Hc. apply Authenticate_spec. exists c, (unix_of signed).
  assert (0 <= signed / Second < 2 ^ 62) as Hq.
  { split; [apply Z.div_pos; unfold Second; lia|apply Z.div_lt_upper_bound; unfold Second in *; lia]. }
  unfold admitted. cbn [SignRequest rq_KeyID rq_Timestamp rq_Nonce rq_Signature rq_ContentDigest rq_Method
    rq_EscapedPath rq_RawQuery]. split_and!; try done; try lia.
  - apply ParseInt64_FormatInt. unfold is_int64, min_int64, max_int64, unix_of. lia.
  - rewrite time_Unix_floor by lia.
    rewrite abs_delta_small; [done|unfold is_int64, min_int64, max_int64; lia|unfold min_int64; lia].
  - apply b64_roundtrip.
  - intros H. apply (f_equal b64_decode) in H. rewrite b64_roundtrip in H. injection H as H. by apply (Hmac _) in H.
Qed.

(** ** Replays against the in-memory nonces *)

(** A request that arrives at [t], by the one clock of the process. *)
Definition serve (t : Time) (r : Request) (body : string) (values : gmap string Time)
    : gmap string Time * result string Principal :=
  let '(s, answer) := auth_at t tolerance find r body (mkMemoryNonces values t) in (mn_values s, answer).

Fixpoint serve_all (calls : list (Time * Request * string)) (values : gmap string Time) : gmap string Time :=
  match calls with
  | [] => values
  | (t, r, body) :: rest => serve_all rest (fst (serve t r body values))
  end.

Lemma Consume_cases t values keyID nonce until s' b :
  Consume (mkMemoryNonces values t) keyID nonce until = (s', Ok b) ->
  let key := nonce_key keyID nonce in
  (b = false /\ is_Some (live t values !! key) /\ mn_values s' = live t values) \/
  (b = true /\ live t values !! key = None /\ mn_values s' = <[key := until]> (live t values)).
Proof.
  unfold Consume, MemoryNonces_Consume. cbn [mn_values mn_now].
  destruct (live t values !! _) eqn:E; intros [= <- <-]; [left|right]; by rewrite ?E.
Qed.

Lemma live_keeps t values key until : values !! key = Some until -> t <= until -> live t values !! key = Some until.
Proof.
  intros Hk Ht. unfold live. apply map_lookup_filter_Some. split; [done|]. cbn. unfold Before. by apply Z.ltb_ge.
Qed.

Lemma Authenticate_store {S} `{!NonceStore S} now r body (s : S) :
  let s' := fst (auth_at now tolerance find r body s) in
  s' = s \/ s' = fst (Consume s (rq_KeyID r) (rq_Nonce r) (now + tolerance)).
Proof.
  unfold Authenticate, AddTime. rewrite (proj2 (Z.eqb_neq _ _) tolerance_set). cbv zeta.
  repeat case_match; cbn [fst]; simplify_eq; auto.
Qed.

Lemma serve_keeps t r body values key until :
  values !! key = Some until -> t <= until -> fst (serve t r body values) !! key = Some until.
Proof.
  intros Hk Ht. pose proof (live_keeps t values key until Hk Ht) as Hl.
  assert (fst (serve t r body values) = mn_values (fst (auth_at t tolerance find r body (mkMemoryNonces values t)))) as ->.
  { unfold serve. by destruct (auth_at _ _ _ _ _ _). }
  destruct (Authenticate_store t r body (mkMemoryNonces values t)) as [->| ->]; [done|].
  destruct (Consume _ _ _ _) as [s' [b|]] eqn:E; [|by destruct (live t values !! nonce_key (rq_KeyID r) (rq_Nonce r)) eqn:El;
    unfold Consume, MemoryNonces_Consume in E; cbn [mn_values mn_now] in E; rewrite El in E].
  apply Consume_cases in E as [(_ & _ & Hv)|(_ & Hn & Hv)]; cbn [fst]; rewrite Hv; [done|].
  rewrite lookup_insert_ne; [done|]. congruence.
Qed.

Lemma serve_all_keeps calls key until : forall values,
  values !! key = Some until -> Forall (fun call => fst (fst call) <= until) calls ->
  serve_all calls values !! key = Some until.
Proof.
  induction calls as [|[[t r] body] calls IH]; intros values Hk Hall; [done|]. inversion_clear Hall.
  cbn [serve_all]. apply IH; [|done]. by apply serve_keeps.
Qed.

Lemma serve_accepted t r body values values' p :
  serve t r body values = (values', Ok p) <->
  exists c unix, admitted t r body c unix /\ rq_Signature r <> "" /\ p = cd_Principal c /\
    live t values !! nonce_key (rq_KeyID r) (rq_Nonce r) = None /\
    values' = <[nonce_key (rq_KeyID r) (rq_Nonce r) := t + tolerance]> (live t values).
Proof.
  unfold serve. destruct (auth_at _ _ _ _ _ _) as [s' a] eqn:E. split.
  - intros [= <- ->]. apply Authenticate_spec in E as (c & u & Ha & Hs & Hp & Hc). exists c, u. split_and!; try done;
      by apply Consume_cases in Hc as [(? & _)|(_ & ? & ?)].
  - intros (c & u & Ha & Hs & -> & Hn & ->).
    assert (auth_at t tolerance find r body (mkMemoryNonces values t) =
      (mkMemoryNonces (<[nonce_key (rq_KeyID r) (rq_Nonce r) := t + tolerance]> (live t values)) t, Ok (cd_Principal c))) as E'.
    { apply Authenticate_spec. exists c, u. split_and!; try done.
      unfold Consume, MemoryNonces_Consume. cbn [mn_values mn_now]. by rewrite Hn. }
    rewrite E' in E. by injection E as <- <-.
Qed.

(** A nonce works once while it is remembered: after a request was accepted,
    whatever else is served, no request with its key and nonce is accepted
    again until the tolerance has passed. *)
Theorem accepted_nonce_not_replayed t0 r0 body0 values values' p0 calls t r body :
  serve t0 r0 body0 values = (values', Ok p0) ->
  Forall (fun call => fst (fst call) <= t0 + tolerance) calls -> t <= t0 + tolerance ->
  rq_KeyID r = rq_KeyID r0 -> rq_Nonce r = rq_Nonce r0 ->
  forall values'' p, serve t r body (serve_all calls values') <> (values'', Ok p).
Proof.
  intros Ha Hcalls Ht Hk Hn values'' p Hb.
  apply serve_accepted in Ha as (c0 & u0 & _ & _ & _ & _ & ->).
  apply serve_accepted in Hb as (c & u & _ & _ & _ & Hnone & _). rewrite Hk, Hn in Hnone.
  rewrite (live_keeps t _ _ (t0 + tolerance)) in Hnone; [done| |done].
  apply serve_all_keeps; [by rewrite lookup_insert_eq|done].
Qed.

(** The nonce is forgotten before the timestamp is. A request accepted at
    [t0] whose timestamp lies ahead of the clock is accepted a second time once
    the tolerance has passed, for as long as its timestamp is still in the
    window; and a timestamp more than 2^63 nanoseconds ahead is in the window
    at every time, because the negated difference wraps around. *)
Theorem future_timestamp_replayed t0 r body values values' p unix c :
  serve t0 r body values = (values', Ok p) -> 0 < tolerance < 2 ^ 61 ->
  ParseInt64 (rq_Timestamp r) = Some unix -> find (rq_KeyID r) = Some c -> cd_ValidUntil c = 0 ->
  (forall t1, t0 < time_Unix unix <= t0 + tolerance -> t0 + tolerance < t1 <= time_Unix unix + tolerance ->
     exists values'', serve t1 r body values' = (values'', Ok p)) /\
  (forall now, time_Unix unix - now > 2 ^ 63 -> abs_delta now (time_Unix unix) <= tolerance).
Proof.
  intros Ha Ht Hu Hf Hv. apply serve_accepted in Ha as (c0 & u0 & Had & Hs & -> & Hl & ->).
  destruct Had as (Hk & Hn & Hu0 & Hd & Hdig & Hf0 & _ & Hsig).
  rewrite Hu in Hu0. injection Hu0 as <-. rewrite Hf in Hf0. injection Hf0 as <-. split.
  - intros t1 H1 H2. eexists. apply serve_accepted. exists c, unix. split_and!; try done; [|].
    + unfold admitted. split_and!; try done; try lia.
      rewrite abs_delta_small; [lia|unfold is_int64, min_int64, max_int64; lia|unfold min_int64; lia].
    + unfold live at 1. apply map_lookup_filter_None. right. intros expiry. rewrite lookup_insert_eq. intros [= <-].
      cbn. unfold Before. intros H. bool_hyp. lia.
  - intros now Hfar. unfold abs_delta, SubTime. replace (Z.max _ _) with min_int64 by (unfold min_int64, max_int64; lia).
    change (int64 (- min_int64) <= tolerance). replace (int64 (- min_int64)) with (- 2 ^ 63) by reflexivity. lia.
Qed.

(** A signature is bound to one request. When one signature is accepted for
    two requests under the same key, whose texts contain no line break, and the
    MAC and the digest do not collide on them, the requests have the same
    method, path, query, timestamp, nonce and body. *)
Theorem signature_binds_request {S1 S2} `{!NonceStore S1} `{!NonceStore S2} now1 now2 r1 r2 body1 body2
    (s1 s1' : S1) (s2 s2' : S2) p1 p2 c :
  auth_at now1 tolerance find r1 body1 s1 = (s1', Ok p1) ->
  auth_at now2 tolerance find r2 body2 s2 = (s2', Ok p2) ->
  find (rq_KeyID r1) = Some c -> rq_KeyID r2 = rq_KeyID r1 -> rq_Signature r2 = rq_Signature r1 ->
  (forall m1 m2, hmac (cd_Secret c) m1 = hmac (cd_Secret c) m2 -> m1 = m2) ->
  (sha256 body1 = sha256 body2 -> body1 = body2) ->
  (forall r, r = r1 \/ r = r2 -> Forall (fun s => str_no (chr 10) s = true)
     [rq_Method r; rq_EscapedPath r +:+ querySuffix encode_query r; rq_Timestamp r; rq_Nonce r]) ->
  rq_Method r1 = rq_Method r2 /\
  rq_EscapedPath r1 +:+ querySuffix encode_query r1 = rq_EscapedPath r2 +:+ querySuffix encode_query r2 /\
  rq_Timestamp r1 = rq_Timestamp r2 /\ rq_Nonce r1 = rq_Nonce r2 /\ body1 = body2.
Proof.
  intros H1 H2 Hf Hk Hs Hmac Hsha Hno.
  apply Authenticate_spec in H1 as (c1 & u1 & (_ & _ & _ & _ & _ & Hc1 & _ & Hg1) & _).
  apply Authenticate_spec in H2 as (c2 & u2 & (_ & _ & _ & _ & _ & Hc2 & _ & Hg2) & _).
  rewrite Hk, Hf in Hc2. rewrite Hf in Hc1. injection Hc1 as <-. injection Hc2 as <-.
  rewrite Hs, Hg1 in Hg2. injection Hg2 as Hm. apply Hmac in Hm. unfold canonical_request in Hm.
  assert (forall s, str_no (chr 10) (hex_encode s) = true) as Hhex.
  { clear. intros s. induction s as [|x s IH]; [done|]. unfold str_no in *. cbn [hex_encode str_forall]. rewrite IH.
    assert (forall d, 0 <= d < 16 -> negb (Ascii.eqb (hex_digit d) (chr 10)) = true) as Hd.
    { intros d Hd. apply negb_true_iff, Ascii.eqb_neq. intros H. apply (f_equal hex_value) in H.
      by rewrite hex_value_digit in H. }
    pose proof (code_range x). by rewrite !Hd by (Z.to_euclidean_division_equations; lia). }
  apply Join_inj in Hm; [|done|..].
  - injection Hm as -> -> -> -> Hh. apply hex_encode_inj in Hh. by rewrite (Hsha Hh).
  - apply (Forall_app_2 _ [_; _; _; _] [_]); [by apply Hno; left|by repeat constructor].
  - apply (Forall_app_2 _ [_; _; _; _] [_]); [by apply Hno; right|by repeat constructor].
Qed.
End facts.

(** ** Evaluation on one key *)

Definition sample_sha256 (s : string) : string := s.
Definition sample_hmac (secret m : string) : string := secret +:+ m.
Definition sample_owner : Principal := mkPrincipal "t1" "m1" "actor" "key-1" ∅.
Definition sample_find (id : string) : option Credential :=
  if id == "key-1" then Some (mkCredential "key-1" 1 "secret" sample_owner 0) else None.
Definition sample_base : Request := mkRequest "" "" "" "" "" "POST" "/v1/intents" "".
Definition sample_clock : Time := unix_epoch + 1800000000 * Second.
Definition ahead_request : Request :=
  SignRequest sample_sha256 sample_hmac (fun q => q) sample_base "{}" "secret" "key-1" "nonce-0123456789"
    (sample_clock + 5 * Minute).
Abbreviation sample_serve := (serve sample_sha256 sample_hmac (fun q => q) sample_find (5 * Minute)).

Lemma SignRequest_authenticates_witness :
  Authenticate sample_sha256 sample_hmac (fun q => q) sample_clock (5 * Minute) sample_find ahead_request "{}"
    (mkMemoryNonces ∅ sample_clock) =
  (mkMemoryNonces {[ nonce_key "key-1" "nonce-0123456789" := sample_clock + 5 * Minute ]} sample_clock, Ok sample_owner).
Proof.
  apply (SignRequest_authenticates sample_sha256 sample_hmac (fun q => q) sample_find (5 * Minute) ltac:(discriminate)
    sample_clock (sample_clock + 5 * Minute) sample_base "{}" "nonce-0123456789" "key-1"
    (mkCredential "key-1" 1 "secret" sample_owner 0));
    try reflexivity; try (vm_compute; intuition discriminate).
Defined.

Definition ahead_values : gmap string Time := {[ nonce_key "key-1" "nonce-0123456789" := sample_clock + 5 * Minute ]}.

Lemma ahead_served : sample_serve sample_clock ahead_request "{}" ∅ = (ahead_values, Ok sample_owner).
Proof. vm_compute. reflexivity. Qed.

Lemma accepted_nonce_not_replayed_witness :
  sample_serve sample_clock ahead_request "{}" ∅ = (ahead_values, Ok sample_owner) /\
  forall values'' p, sample_serve (sample_clock + 5 * Minute) ahead_request "{}" ahead_values <> (values'', Ok p).
Proof.
  split; [exact ahead_served|].
  apply (accepted_nonce_not_replayed sample_sha256 sample_hmac (fun q => q) sample_find (5 * Minute) ltac:(discriminate)
    sample_clock ahead_request "{}" ∅ ahead_values sample_owner []);
    [exact ahead_served|constructor|vm_compute; discriminate|reflexivity|reflexivity].
Defined.

Lemma future_timestamp_replayed_witness :
  exists values'', sample_serve sample_clock ahead_request "{}" ∅ = (ahead_values, Ok sample_owner) /\
    sample_serve (sample_clock + 5 * Minute + Second) ahead_request "{}" ahead_values = (values'', Ok sample_owner).
Proof.
  destruct (future_timestamp_replayed sample_sha256 sample_hmac (fun q => q) sample_find (5 * Minute) ltac:(discriminate)
    sample_clock ahead_request "{}" ∅ ahead_values sample_owner (1800000000 + 300)
    (mkCredential "key-1" 1 "secret" sample_owner 0)) as [H _];
    [exact ahead_served|vm_compute; intuition discriminate|vm_compute; reflexivity|reflexivity|reflexivity|].
  destruct (H (sample_clock + 5 * Minute + Second)) as (v & Hv);
    [vm_compute; intuition discriminate|vm_compute; intuition discriminate|].
  exists v. split; [exact ahead_served|exact Hv].
Defined.

Lemma sample_hmac_inj secret m1 m2 : sample_hmac secret m1 = sample_hmac secret m2 -> m1 = m2.
Proof. unfold sample_hmac. induction secret as [|c secret IH]; cbn; [done|]. intros [= H]. by apply IH. Qed.

Lemma signature_binds_request_witness :
  rq_Method ahead_request = "POST" /\ rq_Nonce ahead_request = "nonce-0123456789".
Proof.
  pose (s0 := mkMemoryNonces ∅ sample_clock).
  destruct (signature_binds_request sample_sha256 sample_hmac (fun q => q) sample_find (5 * Minute) ltac:(discriminate)
    sample_clock sample_clock ahead_request ahead_request "{}" "{}" s0
    (fst (Authenticate sample_sha256 sample_hmac (fun q => q) sample_clock (5 * Minute) sample_find ahead_request "{}" s0))
    s0
    (fst (Authenticate sample_sha256 sample_hmac (fun q => q) sample_clock (5 * Minute) sample_find ahead_request "{}" s0))
    sample_owner sample_owner (mkCredential "key-1" 1 "secret" sample_owner 0)) as (Hm & _ & _ & Hn & _);
    [vm_compute; reflexivity|vm_compute; reflexivity|reflexivity|reflexivity|reflexivity|apply sample_hmac_inj|done| |].
  - intros r [->| ->]; repeat constructor.
  - by split.
Defined.
