(* ===== verification/Webhook.v ===== *)
(** * Webhook: internal/webhook (signature.go, delivery.go, event.go, endpoint.go, worker.go)

    Signed callbacks to merchants: the signature and its header, the retry
    policy, the shape of an event, the acknowledgement, the addresses a callback
    may be sent to, and one batch of the delivery worker. *)

From Stdlib Require Import ZArith Lia Ascii String.
From stdpp Require Import base gmap sets list strings.
From S2P Require Import Prelude Text Numerals Encoding Money Domain Commands Auth.

(** ** Signatures (signature.go) *)

Record Signature := mkSignature { sg_EventID : string; sg_KeyID : string; sg_UnixTime : Z; sg_Digest : string }.

Definition comma : ascii := chr 44.
Definition equals_sign : ascii := chr 61.

Definition signingInput (eventID : string) (unix : Z) (body : string) : string :=
  eventID +:+ "." +:+ FormatInt unix +:+ "." +:+ body.

(** [fmt.Sprintf("t=%d,key=%s,event=%s,v1=%s", ...)] *)
Definition Header (s : Signature) : string :=
  "t=" +:+ FormatInt (sg_UnixTime s) +:+ ",key=" +:+ sg_KeyID s +:+ ",event=" +:+ sg_EventID s
  +:+ ",v1=" +:+ sg_Digest s.

(** One part of the header, as the entry it adds to the map. *)
Definition header_part (part : string) (parts : gmap string string) : gmap string string :=
  match cut_at (fun c => Ascii.eqb c equals_sign) (TrimSpace part) with
  | (key, Some value) => <[key := value]> parts
  | (_, None) => parts
  end.

Definition ParseHeader (value : string) : result string Signature :=
  let parts := fold_left (fun parts part => header_part part parts) (Split value comma) ∅ in
  match ParseInt64 (default "" (parts !! "t")) with
  | None => Err "invalid webhook timestamp"
  | Some unix =>
      Ok (mkSignature (default "" (parts !! "event")) (default "" (parts !! "key")) unix (default "" (parts !! "v1")))
  end.

Section signing.
Context (sha256 : string -> string) (hmac : string -> string -> string).

Definition Sign (secret keyID eventID : string) (timestamp : Time) (canonicalBody : string) : Signature :=
  let unix := unix_of timestamp in
  mkSignature eventID keyID unix (b64_encode (hmac secret (signingInput eventID unix canonicalBody))).

Definition Verify (secret : string) (sig : Signature) (canonicalBody : string) (now : Time) (tolerance : Duration)
    : option string :=
  if (sg_EventID sig == "") || (sg_KeyID sig == "") || (sg_Digest sig == "") then Some "incomplete signature"
  else
    let when := time_Unix (sg_UnixTime sig) in
    if abs_delta now when >? tolerance then Some "signature timestamp is outside tolerance"
    else
      let want := Sign secret (sg_KeyID sig) (sg_EventID sig) when canonicalBody in
      match b64_decode (sg_Digest sig) with
      | None => Some "invalid signature encoding"
      | Some gotBytes =>
          let wantBytes := default "" (b64_decode (sg_Digest want)) in
          if gotBytes != wantBytes then Some "signature mismatch" else None
      end.

Definition DeliveryHeaders (signature : Signature) (deliveryID canonicalBody : string) : list (string * string) :=
  [("Merchant-Webhook-Signature", Header signature); ("Merchant-Delivery-Id", deliveryID);
   ("Content-Digest", digest_header sha256 canonicalBody)].
End signing.

(** ** Retries (delivery.go) *)

Record RetryPolicy := mkRetryPolicy { rp_Initial : Duration; rp_Maximum : Duration; rp_Limit : Z }.

(** The loop of [Delay], for [n] more rounds. *)
Fixpoint delay_loop (n : nat) (maximum d : Duration) : Duration :=
  match n with
  | O => d
  | S n' =>
      if d <? maximum then
        let d := int64 (d * 2) in
        if d >? maximum then maximum else delay_loop n' maximum d
      else d
  end.

Definition Delay (p : RetryPolicy) (attempt : Z) : Duration :=
  let initial := if rp_Initial p <=? 0 then Second else rp_Initial p in
  let maximum := if rp_Maximum p <=? 0 then 15 * Minute else rp_Maximum p in
  delay_loop (Z.to_nat (attempt - 1)) maximum initial.

(** ** Acknowledgements (event.go) *)

(** The tokens of a response body as [json.Decoder] yields them; a value that is
    neither a string nor null is one token here, and so is a syntax error. The
    end of the list is the end of the input. *)
Inductive token := TOpen | TClose | TStr (s : string) | TNull | TValue | TBad.

Definition bad_ack : string := "invalid webhook acknowledgement".

Fixpoint ack_loop (tokens : list token) (acknowledged : string) (seen : bool) (expected : string) : option string :=
  match tokens with
  | TClose :: rest =>
      match rest with
      | [] => if negb seen || (acknowledged != expected) then Some "webhook acknowledgement event ID mismatch" else None
      | _ :: _ => Some bad_ack
      end
  | TStr key :: rest =>
      if (key != "acknowledged_event_id") || seen then Some bad_ack
      else match rest with
           | TStr v :: rest' => ack_loop rest' v true expected
           | TNull :: rest' => ack_loop rest' acknowledged true expected
           | _ => Some bad_ack
           end
  | _ => Some bad_ack
  end.

Definition ValidateAcknowledgement (tokens : list token) (expectedEventID : string) : option string :=
  match tokens with
  | TOpen :: rest => ack_loop rest "" false expectedEventID
  | _ => Some bad_ack
  end.

(** ** The delivery worker (worker.go) *)

Record Job := mkJob {
  wj_DeliveryID : string; wj_ClaimToken : string; wj_EventID : string; wj_EndpointURL : string;
  wj_SigningKeyID : string; wj_SigningSecret : string; wj_CanonicalBody : string; wj_Attempt : Z;
  wj_PreparationError : string }.

Record SendResult := mkSendResult { sr_StatusCode : Z; sr_ResponseBody : string }.

Inductive webhook_call :=
| CallClaim (workerID : string) (at_ : Time) (lease : Duration) (limit : Z)
| CallSend (j : Job) (headers : list (string * string))
| CallAcknowledge (deliveryID claimToken : string) (status : Z) (body : string)
| CallScheduleRetry (deliveryID claimToken : string) (at_ : Time) (reason : string)
| CallMoveToDeadLetter (deliveryID claimToken reason : string).

(** The answers of the store and the sender; for the [i]-th job of the batch the
    sender's answer and the store's to the call that ends the job. *)
Record webhook_env := mkWebhookEnv {
  we_now : Time; we_claim : result string (list Job);
  we_send : nat -> result string SendResult; we_store : nat -> option string }.

Section worker.
Context (sha256 : string -> string) (hmac : string -> string -> string).
(** The token stream of [json.NewDecoder]. *)
Context (tokenize : string -> list token).

(** Dead letter once the attempts are used up, otherwise another attempt. *)
Definition give_up_or_retry (p : RetryPolicy) (now : Time) (job : Job) (reason : string) : webhook_call :=
  if (rp_Limit p >? 0) && (wj_Attempt job >=? rp_Limit p)
  then CallMoveToDeadLetter (wj_DeliveryID job) (wj_ClaimToken job) reason
  else CallScheduleRetry (wj_DeliveryID job) (wj_ClaimToken job) (AddTime now (Delay p (wj_Attempt job))) reason.

Definition process (p : RetryPolicy) (e : webhook_env) (i : nat) (job : Job) : list webhook_call * option string :=
  if wj_PreparationError job != "" then ([give_up_or_retry p (we_now e) job (wj_PreparationError job)], we_store e i)
  else
    let signature := Sign hmac (wj_SigningSecret job) (wj_SigningKeyID job) (wj_EventID job) (we_now e)
                       (wj_CanonicalBody job) in
    let send := CallSend job (DeliveryHeaders sha256 signature (wj_DeliveryID job) (wj_CanonicalBody job)) in
    let failed reason := ([send; give_up_or_retry p (we_now e) job reason], we_store e i) in
    match we_send e i with
    | Err _ => failed "transport_or_acknowledgement_error"
    | Ok result =>
        if (sr_StatusCode result >=? 200) && (sr_StatusCode result <? 300) then
          match ValidateAcknowledgement (tokenize (sr_ResponseBody result)) (wj_EventID job) with
          | Some _ => failed "transport_or_acknowledgement_error"
          | None => ([send; CallAcknowledge (wj_DeliveryID job) (wj_ClaimToken job) (sr_StatusCode result)
                              (sr_ResponseBody result)], we_store e i)
          end
        else failed ("http_status_" +:+ FormatInt (sr_StatusCode result))
    end.

Fixpoint process_all (p : RetryPolicy) (e : webhook_env) (i : nat) (jobs : list Job)
    : list webhook_call * list string :=
  match jobs with
  | [] => ([], [])
  | job :: rest =>
      let '(calls, failure) := process p e i job in
      let '(more, failures) := process_all p e (S i) rest in
      (calls ++ more,
       option_list ((fun err => "callback delivery " +:+ wj_DeliveryID job +:+ ": " +:+ err) <$> failure) ++ failures)
  end.

Definition RunBatch (p : RetryPolicy) (Lease : Duration) (e : webhook_env) (workerID : string) (limit : Z)
    : list webhook_call * result string (nat * list string) :=
  let lease := if Lease <=? 0 then 30 * Second else Lease in
  let claim := CallClaim workerID (we_now e) lease limit in
  match we_claim e with
  | Err err => ([claim], Err err)
  | Ok jobs => let '(calls, failures) := process_all p e 0 jobs in (claim :: calls, Ok (length jobs, failures))
  end.
End worker.

(** ** Events (event.go) *)

Record PaymentIntentSnapshot := mkSnapshot {
  ps_ID : string; ps_MerchantOrderID : string; ps_Status : string; ps_AmountMinor : Amount; ps_Currency : string }.

Record SettlementContribution := mkContribution {
  sc_TransactionHash : string; sc_EventIndex : string; sc_Role : string; sc_ReceivedRaw : Amount;
  sc_CreditedRaw : Amount; sc_BlockHeight : string; sc_BlockHash : string; sc_BlockTime : Time;
  sc_EvidenceHash : string }.

Record EventSettlement := mkEventSettlement {
  es_SettlementID : string; es_AssetID : string; es_Network : string; es_ExpectedRaw : Amount;
  es_ReceivedRaw : Amount; es_CreditedRaw : Amount; es_TransactionHash : string; es_EventIndex : string;
  es_BlockHeight : string; es_BlockTime : Time; es_ProviderID : string; es_ProviderReference : string;
  es_ProviderEventID : string; es_ProviderEvidence : string; es_Finality : string; es_ManualResolution : bool;
  es_PolicyVersion : Z; es_EvidenceHash : string; es_GasFreeFeesRaw : option Amount;
  es_Contributions : list SettlementContribution }.

Record EventObservation := mkEventObservation {
  eo_ObservationID : string; eo_PaymentRouteID : string; eo_Network : string; eo_AssetID : string;
  eo_TransactionHash : string; eo_EventIndex : string; eo_FromAddress : string; eo_ToAddress : string;
  eo_AmountRaw : Amount; eo_AssetDecimals : Z; eo_BlockHeight : string; eo_BlockHash : string; eo_BlockTime : Time;
  eo_Confirmations : Z; eo_RequiredConfirmations : Z; eo_Finality : string; eo_EvidenceHash : string }.

Record EventResolution := mkEventResolution {
  er_ResolutionID : string; er_UnmatchedPaymentID : string; er_TransferEventID : string; er_PaymentRouteID : string;
  er_Status : string; er_Version : Z; er_ApprovalRequired : bool; er_Approved : bool; er_AcceptShortfall : bool;
  er_AcceptLatePayment : bool; er_AcceptCrossAsset : bool; er_EvidenceVerified : bool }.

Record Event := mkEvent {
  ev_EventID : string; ev_EventType : string; ev_SchemaVersion : string; ev_Sequence : Z; ev_OccurredAt : Time;
  ev_MerchantID : string; ev_Livemode : bool; ev_PaymentIntent : PaymentIntentSnapshot;
  ev_Settlement : option EventSettlement; ev_Observation : option EventObservation;
  ev_Resolution : option EventResolution }.

Definition SupportedEventTypes : list string :=
  ["payment.intent.created"; "payment.route.created"; "payment.observed"; "payment.confirming";
   "payment.partially_paid"; "payment.needs_review"; "payment.settled"; "payment.overpaid"; "payment.expired";
   "payment.cancelled"; "payment.reorged"; "payment.resolution.updated"].

Definition is_nil {A} (o : option A) : bool := match o with None => true | Some _ => false end.

Definition observation_incomplete (o : EventObservation) : bool :=
  (eo_ObservationID o == "") || (eo_PaymentRouteID o == "") || (eo_Network o == "") || (eo_AssetID o == "")
  || (eo_TransactionHash o == "") || (eo_EventIndex o == "") || (eo_FromAddress o == "") || (eo_ToAddress o == "")
  || IsZero (eo_AmountRaw o) || (eo_BlockHeight o == "") || (eo_BlockHash o == "") || IsZeroTime (eo_BlockTime o)
  || (eo_RequiredConfirmations o <? 1)
  || match hex_decode (eo_EvidenceHash o) with
     | None => true
     | Some evidence => negb (len evidence =? 32) || (hex_encode evidence != eo_EvidenceHash o)
     end
  || (eo_Finality o != "observed") && (eo_Finality o != "confirmed") && (eo_Finality o != "finalized")
     && (eo_Finality o != "reorged").

Definition resolution_incomplete (r : EventResolution) : bool :=
  (er_ResolutionID r == "") || (er_UnmatchedPaymentID r == "") || (er_TransferEventID r == "")
  || (er_PaymentRouteID r == "") || (er_Status r == "") || (er_Version r <? 1).

(** [marshal] is [json.Marshal] of the event. *)
Definition CanonicalBody (marshal : Event -> result string string) (event : Event) : result string string :=
  let type := ev_EventType event in
  let observation := ev_Observation event in
  let settlement := ev_Settlement event in
  let resolution := ev_Resolution event in
  if (ev_EventID event == "") || (type == "") || (ev_SchemaVersion event == "") || (ev_Sequence event <? 1)
     || (ev_MerchantID event == "") || (ps_ID (ev_PaymentIntent event) == "")
  then Err "webhook event is incomplete"
  else if negb (existsb_str type SupportedEventTypes) || (ev_SchemaVersion event != "1")
  then Err "unsupported webhook event type or schema version"
  else if ((type == "payment.observed") || (type == "payment.confirming"))
          && (is_nil observation || negb (is_nil settlement) || negb (is_nil resolution))
  then Err "on-chain lifecycle webhook requires observation or settlement"
  else if (type == "payment.reorged")
          && (Bool.eqb (is_nil observation) (is_nil settlement) || negb (is_nil resolution))
  then Err "reorg webhook requires exactly one observation or settlement"
  else if (type == "payment.settled")
          && (is_nil settlement || negb (is_nil observation) || negb (is_nil resolution))
  then Err "settled webhook requires settlement"
  else if (type == "payment.resolution.updated")
          && (is_nil resolution || negb (is_nil observation) || negb (is_nil settlement))
  then Err "resolution webhook requires resolution"
  else if match observation with Some o => observation_incomplete o | None => false end
  then Err "observation webhook is incomplete"
  else if match resolution with Some r => resolution_incomplete r | None => false end
  then Err "resolution webhook is incomplete"
  else marshal event.

(** ** Endpoints (endpoint.go) *)

(** A [net.IP]: nil, four bytes or sixteen, as one number. *)
Inductive IP := IPNil | IP4 (a : Z) | IP16 (a : Z).

#[export] Instance IP_eq_dec : EqDecision IP.
Proof. solve_decision. Defined.

(** [ip.To4()] where there is one: an IPv4-mapped address is its IPv4 address. *)
Definition To4 (ip : IP) : IP :=
  match ip with
  | IP16 a => if Z.shiftr a 32 =? 65535 then IP4 (Z.land a (2 ^ 32 - 1)) else ip
  | _ => ip
  end.

(** [n] bits at the front of an address of [width] bits. *)
Definition front (width n a : Z) : Z := Z.shiftr a (width - n).

Definition IsLoopback (ip : IP) : bool :=
  match To4 ip with IP4 a => front 32 8 a =? 127 | IP16 a => a =? 1 | IPNil => false end.
Definition IsPrivate (ip : IP) : bool :=
  match To4 ip with
  | IP4 a => (front 32 8 a =? 10) || (front 32 12 a =? 172 * 16 + 1) || (front 32 16 a =? 192 * 256 + 168)
  | IP16 a => front 128 7 a =? 126
  | IPNil => false
  end.
Definition IsUnspecified (ip : IP) : bool :=
  match To4 ip with IP4 a => a =? 0 | IP16 a => a =? 0 | IPNil => false end.
Definition IsLinkLocalUnicast (ip : IP) : bool :=
  match To4 ip with IP4 a => front 32 16 a =? 169 * 256 + 254 | IP16 a => front 128 10 a =? 1018 | IPNil => false end.
Definition IsLinkLocalMulticast (ip : IP) : bool :=
  match To4 ip with
  | IP4 a => front 32 24 a =? 224 * 65536
  | IP16 a => (front 128 8 a =? 255) && (Z.land (front 128 16 a) 15 =? 2)
  | IPNil => false
  end.
Definition IsMulticast (ip : IP) : bool :=
  match To4 ip with IP4 a => front 32 4 a =? 14 | IP16 a => front 128 8 a =? 255 | IPNil => false end.
Definition IsGlobalUnicast (ip : IP) : bool :=
  match To4 ip with
  | IPNil => false
  | a => negb (bool_decide (a = IP4 (2 ^ 32 - 1))) && negb (IsUnspecified ip) && negb (IsLoopback ip)
         && negb (IsMulticast ip) && negb (IsLinkLocalUnicast ip)
  end.

(** The networks of the table, as [net.ParseCIDR] reads them. *)
Definition forbiddenWebhookNetworks : list (IP * Z) :=
  [(IP4 0x0, 8) (* 0.0.0.0/8 *);
   (IP4 0xa000000, 8) (* 10.0.0.0/8 *);
   (IP4 0x64400000, 10) (* 100.64.0.0/10 *);
   (IP4 0x7f000000, 8) (* 127.0.0.0/8 *);
   (IP4 0xa9fe0000, 16) (* 169.254.0.0/16 *);
   (IP4 0xac100000, 12) (* 172.16.0.0/12 *);
   (IP4 0xc0000000, 24) (* 192.0.0.0/24 *);
   (IP4 0xc0000200, 24) (* 192.0.2.0/24 *);
   (IP4 0xc0a80000, 16) (* 192.168.0.0/16 *);
   (IP4 0xc6120000, 15) (* 198.18.0.0/15 *);
   (IP4 0xc6336400, 24) (* 198.51.100.0/24 *);
   (IP4 0xcb007100, 24) (* 203.0.113.0/24 *);
   (IP4 0xe0000000, 4) (* 224.0.0.0/4 *);
   (IP4 0xf0000000, 4) (* 240.0.0.0/4 *);
   (IP16 0x0, 128) (* ::/128 *);
   (IP16 0x1, 128) (* ::1/128 *);
   (IP16 0x64ff9b000100000000000000000000, 48) (* 64:ff9b:1::/48 *);
   (IP16 0x1000000000000000000000000000000, 64) (* 100::/64 *);
   (IP16 0x20010db8000000000000000000000000, 32) (* 2001:db8::/32 *);
   (IP16 0xfc000000000000000000000000000000, 7) (* fc00::/7 *);
   (IP16 0xfe800000000000000000000000000000, 10) (* fe80::/10 *);
   (IP16 0xff000000000000000000000000000000, 8) (* ff00::/8 *)].

(** [network.Contains(ip)]: an address of the other family is not contained. *)
Definition Contains (network : IP * Z) (ip : IP) : bool :=
  let '(base, n) := network in
  match base, To4 ip with
  | IP4 b, IP4 a => front 32 n a =? front 32 n b
  | IP16 b, IP16 a => front 128 n a =? front 128 n b
  | _, _ => false
  end.

Definition safePublicIP (ip : IP) : bool :=
  if bool_decide (ip = IPNil) || IsLoopback ip || IsPrivate ip || IsUnspecified ip || IsLinkLocalUnicast ip
     || IsLinkLocalMulticast ip || IsMulticast ip
  then false
  else if existsb (fun network => Contains network ip) forbiddenWebhookNetworks then false
  else IsGlobalUnicast ip.

(** What [url.Parse] says of a URL. *)
Record URL := mkURL {
  u_Scheme : string; u_Host : string; u_Hostname : string; u_Port : string; u_HasUser : bool; u_Fragment : string;
  u_Opaque : string }.

Definition HasSuffix (s p : string) : bool := HasPrefix (reversed s) (reversed p).

Record ValidatedEndpoint := mkValidatedEndpoint {
  ve_URL : URL; ve_Host : string; ve_Port : string; ve_AllowedIPs : list IP }.

Section endpoint.
(** [url.Parse], [strings.ToLower] and the resolver. *)
Context (parse : string -> option URL) (ToLower : string -> string) (LookupIP : string -> result string (list IP)).

Definition ValidateEndpoint (rawURL : string) : result string ValidatedEndpoint :=
  match parse rawURL with
  | None => Err "invalid endpoint URL"
  | Some parsed =>
      if (u_Scheme parsed != "https") || (u_Hostname parsed == "") || u_HasUser parsed || (u_Fragment parsed != "")
         || (u_Opaque parsed != "") || negb (str_no (chr 37) (u_Host parsed))
      then Err "webhook endpoint must be an HTTPS origin without credentials or fragment"
      else
        let port := if u_Port parsed == "" then "443" else u_Port parsed in
        if port != "443" then Err "webhook endpoint must use port 443"
        else
          let host := TrimSuffixByte (chr 46) (ToLower (u_Hostname parsed)) in
          if (host == "localhost") || HasSuffix host ".localhost" || HasSuffix host ".local"
             || HasSuffix host ".internal" || HasSuffix host ".home.arpa"
          then Err "local webhook hostname is forbidden"
          else match LookupIP host with
               | Err _ => Err "webhook hostname did not resolve"
               | Ok [] => Err "webhook hostname did not resolve"
               | Ok ips =>
                   if forallb safePublicIP ips then Ok (mkValidatedEndpoint parsed host port ips)
                   else Err "webhook hostname resolves to a forbidden address"
               end
  end.
End endpoint.

(** ** The signature header *)

(** Texts a header field may carry: visible characters other than the comma. *)
Definition header_text (s : string) : bool := str_forall (fun c => plain_byte c && negb (Ascii.eqb c comma)) s.

Lemma header_text_no_comma s : header_text s = true -> str_no comma s = true.
Proof. apply str_forall_impl. intros c Hc. by apply andb_true_iff in Hc as [? ?]. Qed.

Lemma header_text_plain s : header_text s = true -> str_forall plain_byte s = true.
Proof. apply str_forall_impl. intros c Hc. by apply andb_true_iff in Hc as [? ?]. Qed.

Lemma plain_text_ends c s : plain_byte c = true -> str_forall plain_byte s = true -> plain_ends (String c s) = true.
Proof.
  intros Hc Hs. destruct (str_last_case s) as [->|(t & d & ->)]; [by cbn; rewrite Hc|].
  rewrite str_forall_app in Hs. cbn [str_forall] in Hs. bool_hyp.
  apply (plain_ends_intro _ c (t +:+ String d "") d (reversed (String c t))); [done| |done|done].
  change (String c (t +:+ String d "")) with (String c t +:+ String d ""). by rewrite reversed_last.
Qed.

Lemma header_part_entry key c rest value parts :
  key = String c rest -> str_forall plain_byte key = true ->
  str_forall (fun c => negb (Ascii.eqb c equals_sign)) key = true -> header_text value = true ->
  header_part (key +:+ String equals_sign value) parts = <[key := value]> parts.
Proof.
  intros Hkey Hp He Hv. unfold header_part. rewrite TrimSpace_id.
  - by rewrite cut_at_app.
  - subst key. cbn [String.append]. cbn [str_forall] in Hp. bool_hyp. apply plain_text_ends; [done|].
    rewrite str_forall_app, H0. cbn [str_forall andb]. rewrite (header_text_plain _ Hv). reflexivity.
Qed.

Lemma FormatInt_text n : header_text (FormatInt n) = true.
Proof.
  assert (forall s, str_forall is_digit s = true -> header_text s = true) as Hd.
  { intros s. apply str_forall_impl. intros c Hc. rewrite digit_plain by done. apply negb_true_iff, Ascii.eqb_neq.
    intros ->. by vm_compute in Hc. }
  assert (forall m, 0 <= m -> header_text (dec_string m) = true) as Hdec.
  { intros m Hm. by apply Hd, canonical_digits, dec_string_canonical. }
  unfold FormatInt. destruct (n <? 0) eqn:E; bool_hyp; [|by apply Hdec].
  unfold header_text. cbn [str_forall]. apply andb_true_iff. split; [reflexivity|apply Hdec; lia].
Qed.

Lemma b64_header_text s : header_text (b64_encode s) = true.
Proof.
  assert (forall v, 0 <= v < 64 -> plain_byte (b64_char v) && negb (Ascii.eqb (b64_char v) comma) = true) as Hc.
  { intros v Hv. unfold plain_byte. rewrite b64_char_code by done. apply andb_true_iff. split.
    - repeat case_match; bool_hyp; lia.
    - apply negb_true_iff, Ascii.eqb_neq. intros H. apply (f_equal code) in H. rewrite b64_char_code in H by done.
      change (code comma) with 44 in H. repeat case_match; bool_hyp; lia. }
  unfold header_text. induction s as [|a|a b|a b c r IH] using str_ind3; [done|..]; byte_ranges;
    cbn [b64_encode str_forall]; cbv zeta; rewrite !Hc by (Z.to_euclidean_division_equations; lia); [done..|].
  exact IH.
Qed.

(** A signature survives its header: whatever is signed, at any time of the
    64-bit range, the parser reads back the signature it was printed from,
    provided the identifiers are visible ASCII without a comma. *)
Theorem ParseHeader_Header hmac secret keyID eventID timestamp body :
  header_text keyID = true -> header_text eventID = true -> is_int64 (unix_of timestamp) ->
  ParseHeader (Header (Sign hmac secret keyID eventID timestamp body)) =
  Ok (Sign hmac secret keyID eventID timestamp body).
Proof.
  intros Hk He Ht. unfold Sign. cbv zeta. set (digest := b64_encode _).
  assert (header_text digest = true) as Hd by apply b64_header_text.
  unfold Header, ParseHeader. cbn [sg_UnixTime sg_KeyID sg_EventID sg_Digest].
  pose proof (FormatInt_text (unix_of timestamp)) as Hu. set (u := FormatInt (unix_of timestamp)) in *.
  replace ("t=" +:+ u +:+ ",key=" +:+ keyID +:+ ",event=" +:+ eventID +:+ ",v1=" +:+ digest) with
    (Join ["t" +:+ String equals_sign u; "key" +:+ String equals_sign keyID; "event" +:+ String equals_sign eventID;
           "v1" +:+ String equals_sign digest] (String comma ""))
    by (cbn [Join]; rewrite !str_app_assoc; reflexivity).
  rewrite Join_nonempty_split; [|done|].
  - cbn [fold_left]. erewrite !header_part_entry by (reflexivity || assumption).
    rewrite !lookup_insert_ne, !lookup_insert_eq by done. cbn [from_option id].
    unfold u. by rewrite ParseInt64_FormatInt.
  - assert (forall key value, str_no comma key = true -> header_text value = true ->
              str_no comma (key +:+ String equals_sign value) = true) as Hno.
    { intros key value Hkey Hval. unfold str_no in *. rewrite str_forall_app, Hkey. cbn [str_forall].
      apply header_text_no_comma in Hval. unfold str_no in Hval. by rewrite Hval. }
    repeat constructor; by apply Hno.
Qed.

Lemma ParseHeader_Header_witness :
  ParseHeader (Header (Sign sample_hmac "secret" "key-1" "evt-1" sample_clock "{}")) =
  Ok (Sign sample_hmac "secret" "key-1" "evt-1" sample_clock "{}").
Proof.
  apply (ParseHeader_Header sample_hmac "secret" "key-1" "evt-1" sample_clock "{}"); [reflexivity|reflexivity|].
  vm_compute. intuition discriminate.
Defined.

Lemma unix_of_time_Unix u : is_int64 (62135596800 + u) -> unix_of (time_Unix u) = u.
Proof.
  intros Hu. unfold unix_of, time_Unix. rewrite int64_id by done. rewrite Z.div_mul by (unfold Second; lia). lia.
Qed.

(** The receiver's check is exact. Inside the clock window a signature is
    accepted if and only if its digest decodes to the MAC of the event
    identifier, the time and the body; in particular what [Sign] makes is
    accepted, and when the MAC does not collide one signature fits one body of
    one event, for identifiers without a full stop. *)
Theorem Verify_exact hmac secret sig body now tolerance :
  sg_EventID sig <> "" -> sg_KeyID sig <> "" -> sg_Digest sig <> "" ->
  is_int64 (62135596800 + sg_UnixTime sig) -> abs_delta now (time_Unix (sg_UnixTime sig)) <= tolerance ->
  (Verify hmac secret sig body now tolerance = None <->
   b64_decode (sg_Digest sig) = Some (hmac secret (signingInput (sg_EventID sig) (sg_UnixTime sig) body))) /\
  ((forall m1 m2, hmac secret m1 = hmac secret m2 -> m1 = m2) ->
   forall sig' body', sg_Digest sig' = sg_Digest sig -> is_int64 (sg_UnixTime sig') -> is_int64 (sg_UnixTime sig) ->
     is_int64 (62135596800 + sg_UnixTime sig') ->
     str_no (chr 46) (sg_EventID sig) = true -> str_no (chr 46) (sg_EventID sig') = true ->
     Verify hmac secret sig body now tolerance = None -> Verify hmac secret sig' body' now tolerance = None ->
     sg_EventID sig' = sg_EventID sig /\ sg_UnixTime sig' = sg_UnixTime sig /\ body' = body).
Proof.
  assert (forall sig body, is_int64 (62135596800 + sg_UnixTime sig) ->
    Verify hmac secret sig body now tolerance = None ->
    b64_decode (sg_Digest sig) = Some (hmac secret (signingInput (sg_EventID sig) (sg_UnixTime sig) body))) as Hsound.
  { clear. intros sig body Hu H. unfold Verify in H. destruct (_ || _); [done|]. destruct (_ >? tolerance); [done|].
    cbn [Sign sg_Digest] in H. rewrite b64_roundtrip, (unix_of_time_Unix _ Hu) in H. cbn [from_option id] in H.
    destruct (b64_decode (sg_Digest sig)); [|done]. destruct (_ == _) eqn:E; [|done]. by bool_hyp; subst. }
  intros He Hk Hd Hu Hw. split; [split; [by apply Hsound|]|].
  - intros Hdec. unfold Verify. rewrite (proj2 (String.eqb_neq _ _) He), (proj2 (String.eqb_neq _ _) Hk),
      (proj2 (String.eqb_neq _ _) Hd). cbn [orb]. destruct (_ >? tolerance) eqn:E; bool_hyp; [lia|].
    cbn [Sign sg_Digest]. rewrite b64_roundtrip, (unix_of_time_Unix _ Hu), Hdec. cbn [from_option id].
    by rewrite String.eqb_refl.
  - intros Hmac sig' body' Hdig Hi' Hi Hu' Hn Hn' Hv Hv'.
    apply Hsound in Hv; [|done]. apply Hsound in Hv'; [|done]. rewrite Hdig, Hv in Hv'. injection Hv' as Hm.
    apply Hmac in Hm. unfold signingInput in Hm. cbn [String.append] in Hm.
    apply str_app_sep_inj in Hm as [Hev Hm]; [|done..].
    assert (forall n, str_no (chr 46) (FormatInt n) = true) as Hdot.
    { intros n. pose proof (dec_string_canonical (Z.abs n) ltac:(lia)) as Hc. apply canonical_digits in Hc.
      assert (str_no (chr 46) (dec_string (Z.abs n)) = true) as Hno.
      { revert Hc. apply str_forall_impl. intros c Hc. apply negb_true_iff, Ascii.eqb_neq. intros ->. by vm_compute in Hc. }
      unfold FormatInt. destruct (n <? 0) eqn:E; bool_hyp.
      - rewrite Z.abs_neq in Hno by lia. unfold str_no in *. cbn [str_forall]. by rewrite Hno.
      - by rewrite Z.abs_eq in Hno by lia. }
    apply str_app_sep_inj in Hm as [Hun Hb]; [|by apply Hdot..].
    apply (f_equal ParseInt64) in Hun. rewrite !ParseInt64_FormatInt in Hun by done. injection Hun as Hun. done.
Qed.

Lemma Verify_exact_witness :
  Verify sample_hmac "secret" (Sign sample_hmac "secret" "key-1" "evt-1" sample_clock "{}") "{}" sample_clock Second = None.
Proof.
  apply (Verify_exact sample_hmac "secret" (Sign sample_hmac "secret" "key-1" "evt-1" sample_clock "{}") "{}"
           sample_clock Second); [discriminate..|vm_compute; intuition discriminate|vm_compute; discriminate|].
  vm_compute. reflexivity.
Defined.

(** ** The retry policy *)

Lemma delay_loop_exact n : forall maximum d, 0 < d <= maximum -> maximum <= 2 ^ 62 ->
  delay_loop n maximum d = Z.min (d * 2 ^ Z.of_nat n) maximum.
Proof.
  induction n as [|n IH]; intros maximum d Hd Hm; [cbn; lia|].
  cbn [delay_loop]. rewrite Nat2Z.inj_succ, Z.pow_succ_r by lia.
  pose proof (Z.pow_pos_nonneg 2 (Z.of_nat n) ltac:(lia) ltac:(lia)).
  destruct (d <? maximum) eqn:E; bool_hyp; [|nia].
  rewrite int64_id by (unfold is_int64, min_int64, max_int64; lia).
  destruct (d * 2 >? maximum) eqn:E2; bool_hyp; [nia|]. rewrite IH by lia. f_equal. lia.
Qed.

(** The delay before an attempt is the initial delay doubled for every
    attempt after the first and capped at the maximum, without overflow up to
    2^62 nanoseconds, so it never shrinks from one attempt to the next. An
    initial delay above the maximum is not capped. *)
Theorem Delay_exact p attempt :
  0 < rp_Initial p -> 0 < rp_Maximum p <= 2 ^ 62 ->
  (rp_Initial p <= rp_Maximum p -> 1 <= attempt ->
   Delay p attempt = Z.min (rp_Initial p * 2 ^ (attempt - 1)) (rp_Maximum p) /\
   Delay p attempt <= Delay p (attempt + 1) <= rp_Maximum p) /\
  (rp_Maximum p < rp_Initial p -> Delay p attempt = rp_Initial p).
Proof.
  intros Hi Hm.
  assert (forall a, Delay p a = delay_loop (Z.to_nat (a - 1)) (rp_Maximum p) (rp_Initial p)) as HD.
  { intros a. unfold Delay. destruct (rp_Initial p <=? 0) eqn:E1, (rp_Maximum p <=? 0) eqn:E2; bool_hyp; lia || done. }
  split.
  - intros Hle Ha. rewrite !HD, !delay_loop_exact by lia. rewrite !Z2Nat.id by lia. split; [done|].
    replace (attempt + 1 - 1) with (Z.succ (attempt - 1)) by lia. rewrite Z.pow_succ_r by lia.
    pose proof (Z.pow_pos_nonneg 2 (attempt - 1) ltac:(lia) ltac:(lia)). nia.
  - intros Hgt. rewrite HD. destruct (Z.to_nat (attempt - 1)); [done|]. cbn [delay_loop].
    destruct (_ <? _) eqn:E; bool_hyp; [lia|done].
Qed.

Definition sample_policy : RetryPolicy := mkRetryPolicy (2 * Second) (10 * Minute) 5.

Lemma Delay_exact_witness : Delay sample_policy 4 = 16 * Second /\ Delay sample_policy 4 <= Delay sample_policy 5.
Proof.
  destruct (Delay_exact sample_policy 4) as [[H1 H2] _]; [reflexivity|split; [reflexivity|discriminate]|discriminate|discriminate|].
  split; [rewrite H1; reflexivity|exact (proj1 H2)].
Defined.

(** ** Acknowledgements and outcomes *)

Lemma ValidateAcknowledgement_iff tokens expected :
  ValidateAcknowledgement tokens expected = None <->
  tokens = [TOpen; TStr "acknowledged_event_id"; TStr expected; TClose] \/
  expected = "" /\ tokens = [TOpen; TStr "acknowledged_event_id"; TNull; TClose].
Proof.
  split.
  - destruct tokens as [|[] tokens]; try done. cbn [ValidateAcknowledgement].
    destruct tokens as [|[| |key| | |] [|[| |v| | |] rest]]; try done; cbn [ack_loop].
    + by destruct ((key != _) || false).
    + by destruct ((key != _) || false).
    + by destruct ((key != _) || false).
    + destruct (key == "acknowledged_event_id") eqn:E; [|done]. bool_hyp. subst key. cbn [negb orb].
      destruct rest as [|[| |k2| | |] [|x rest]]; try done; cbn [ack_loop];
        try by rewrite orb_true_r.
      * destruct (v == expected) eqn:E2; [|done]. bool_hyp. subst. by left.
    + destruct (key == "acknowledged_event_id") eqn:E; [|done]. bool_hyp. subst key. cbn [negb orb].
      destruct rest as [|[| |k2| | |] [|x rest]]; try done; cbn [ack_loop];
        try by rewrite orb_true_r.
      * destruct ("" == expected) eqn:E2; [|done]. bool_hyp. subst. by right.
    + by destruct ((key != _) || false).
    + by destruct ((key != _) || false).
  - intros [->|[-> ->]]; [|reflexivity]. cbn. by rewrite String.eqb_refl.
Qed.

Section outcomes.
Context (sha256 : string -> string) (hmac : string -> string -> string) (tokenize : string -> list token).

(** The merchant accepted the delivery: a success status, and a body that is an
    object with the one field that names the event. *)
Definition acknowledged (e : webhook_env) (i : nat) (job : Job) (status : Z) (body : string) : Prop :=
  wj_PreparationError job = "" /\ we_send e i = Ok (mkSendResult status body) /\ 200 <= status < 300 /\
  (tokenize body = [TOpen; TStr "acknowledged_event_id"; TStr (wj_EventID job); TClose] \/
   wj_EventID job = "" /\ tokenize body = [TOpen; TStr "acknowledged_event_id"; TNull; TClose]).

Definition final_ok (p : RetryPolicy) (e : webhook_env) (i : nat) (job : Job) (f : webhook_call) : Prop :=
  match f with
  | CallAcknowledge d c status body =>
      d = wj_DeliveryID job /\ c = wj_ClaimToken job /\ acknowledged e i job status body
  | CallMoveToDeadLetter d c _ =>
      d = wj_DeliveryID job /\ c = wj_ClaimToken job /\ 0 < rp_Limit p <= wj_Attempt job /\
      forall status body, ~ acknowledged e i job status body
  | CallScheduleRetry d c at_ _ =>
      d = wj_DeliveryID job /\ c = wj_ClaimToken job /\ (rp_Limit p <= 0 \/ wj_Attempt job < rp_Limit p) /\
      at_ = we_now e + Delay p (wj_Attempt job) /\ forall status body, ~ acknowledged e i job status body
  | _ => False
  end.

Definition is_final (c : webhook_call) : bool :=
  match c with CallAcknowledge _ _ _ _ | CallScheduleRetry _ _ _ _ | CallMoveToDeadLetter _ _ _ => true | _ => false end.

Lemma give_up_final p e i job reason :
  (forall status body, ~ acknowledged e i job status body) ->
  is_final (give_up_or_retry p (we_now e) job reason) = true /\
  final_ok p e i job (give_up_or_retry p (we_now e) job reason).
Proof.
  intros Hn. unfold give_up_or_retry. destruct (rp_Limit p >? 0) eqn:E1; cbn [andb].
  - destruct (wj_Attempt job >=? rp_Limit p) eqn:E2; bool_hyp; (split; [done|]); split_and!; done || lia.
  - bool_hyp. split; [done|]. split_and!; done || lia.
Qed.

Lemma process_final p e i job : exists f,
  List.filter is_final (fst (process sha256 hmac tokenize p e i job)) = [f] /\ final_ok p e i job f.
Proof.
  unfold process.
  assert (forall reason, (forall s b, ~ acknowledged e i job s b) -> forall before, List.filter is_final before = [] ->
    exists f, List.filter is_final (before ++ [give_up_or_retry p (we_now e) job reason]) = [f] /\ final_ok p e i job f)
    as Hfail.
  { intros reason Hn before Hb. destruct (give_up_final p e i job reason Hn) as [Hf Hok]. eexists.
    rewrite List.filter_app, Hb. cbn [List.filter app]. by rewrite Hf. }
  destruct (wj_PreparationError job == "") eqn:E1; bool_hyp; cbn [negb fst].
  2:{ apply (Hfail _ ltac:(intros st bd (H & _); done) []). done. }
  destruct (we_send e i) as [result|msg] eqn:E2; cbn [fst].
  2:{ apply (Hfail _ ltac:(intros st bd (_ & H & _); congruence) [CallSend _ _]). done. }
  destruct (sr_StatusCode result >=? 200) eqn:E3; cbn [andb fst].
  2:{ apply (Hfail _ ltac:(intros st bd (_ & H & H2 & _); rewrite E2 in H; injection H as ->; cbn in E3; bool_hyp; lia)
               [CallSend _ _]). done. }
  destruct (sr_StatusCode result <? 300) eqn:E4; cbn [fst].
  2:{ apply (Hfail _ ltac:(intros st bd (_ & H & H2 & _); rewrite E2 in H; injection H as ->; cbn in E4; bool_hyp; lia)
               [CallSend _ _]). done. }
  pose proof (ValidateAcknowledgement_iff (tokenize (sr_ResponseBody result)) (wj_EventID job)) as Hack.
  destruct (ValidateAcknowledgement _ _); cbn [fst].
  - apply (Hfail _ ltac:(intros st bd (_ & H & _ & H2); rewrite E2 in H; injection H as ->; apply Hack in H2; done)
             [CallSend _ _]). done.
  - eexists. split; [reflexivity|]. split_and!; [done|done|]. destruct result as [status body]. cbn in *. bool_hyp.
    split_and!; [done|done|lia|lia|by apply Hack].
Qed.

Lemma process_all_final p e jobs : forall i k job, jobs !! k = Some job ->
  exists f, List.filter is_final (fst (process_all sha256 hmac tokenize p e i jobs)) !! k = Some f /\
            final_ok p e (i + k) job f.
Proof.
  assert (forall j jobs i, exists f,
    List.filter is_final (fst (process_all sha256 hmac tokenize p e i (j :: jobs))) =
    f :: List.filter is_final (fst (process_all sha256 hmac tokenize p e (S i) jobs)) /\ final_ok p e i j f) as Hcons.
  { clear. intros j jobs i. destruct (process_final p e i j) as (f & Hf & Hok). exists f. split; [|done].
    cbn [process_all]. destruct (process sha256 hmac tokenize p e i j), (process_all sha256 hmac tokenize p e (S i) jobs).
    cbn [fst] in *. by rewrite List.filter_app, Hf. }
  induction jobs as [|j jobs IH]; intros i [|k] job Hk; [done|done| |].
  - injection Hk as ->. destruct (Hcons job jobs i) as (f & -> & Hok). exists f. by rewrite Nat.add_0_r.
  - destruct (Hcons j jobs i) as (f & -> & _). destruct (IH (S i) k job Hk) as (g & Hg & Hok). exists g.
    by rewrite Nat.add_succ_r.
Qed.

Lemma process_all_length p e jobs : forall i,
  length (List.filter is_final (fst (process_all sha256 hmac tokenize p e i jobs))) = length jobs.
Proof.
  induction jobs as [|j jobs IH]; intros i; [done|]. destruct (process_final p e i j) as (f & Hf & _).
  cbn [process_all length]. rewrite <- (IH (S i)).
  destruct (process sha256 hmac tokenize p e i j), (process_all sha256 hmac tokenize p e (S i) jobs).
  cbn [fst] in *. by rewrite List.filter_app, length_app, Hf.
Qed.

(** Every claimed delivery ends in exactly one store call, in the order of
    the batch: it is acknowledged only on a success status with a body that
    names its event, moved to the dead letters only when it was not
    acknowledged and its attempts are used up, and otherwise scheduled again
    after the delay of the policy. *)
Theorem every_delivery_ends_once p Lease e workerID limit jobs calls n failures :
  RunBatch sha256 hmac tokenize p Lease e workerID limit = (calls, Ok (n, failures)) -> we_claim e = Ok jobs ->
  n = length jobs /\ length (List.filter is_final calls) = length jobs /\
  forall i job, jobs !! i = Some job ->
    exists f, List.filter is_final calls !! i = Some f /\ final_ok p e i job f.
Proof.
  unfold RunBatch. intros H Hj. rewrite Hj in H.
  pose proof (process_all_length p e jobs 0) as Hl. pose proof (process_all_final p e jobs 0) as Hf.
  destruct (process_all sha256 hmac tokenize p e 0 jobs) as [cs fs]. cbn [fst] in *. injection H as <- <- <-.
  split_and!; [done|done|]. intros i job Hi. exact (Hf i job Hi).
Qed.
End outcomes.

Definition sample_delivery (attempt : Z) : Job :=
  mkJob "d-1" "claim" "evt-1" "https://shop.example/hook" "key-1" "secret" "{}" attempt "".
Definition sample_tokens (body : string) : list token :=
  if body == "ok" then [TOpen; TStr "acknowledged_event_id"; TStr "evt-1"; TClose] else [TBad].
Definition sample_webhook_env : webhook_env :=
  mkWebhookEnv sample_clock (Ok [sample_delivery 1; sample_delivery 5; sample_delivery 2])
    (fun i => if (i =? 0)%nat then Ok (mkSendResult 200 "ok") else Ok (mkSendResult 200 "no")) (fun _ => None).
Definition sample_batch : list webhook_call * result string (nat * list string) :=
  RunBatch sample_sha256 sample_hmac sample_tokens sample_policy 0 sample_webhook_env "w" 10.

Lemma every_delivery_ends_once_witness :
  List.filter is_final (fst sample_batch) =
    [CallAcknowledge "d-1" "claim" 200 "ok";
     CallMoveToDeadLetter "d-1" "claim" "transport_or_acknowledgement_error";
     CallScheduleRetry "d-1" "claim" (sample_clock + 4 * Second) "transport_or_acknowledgement_error"] /\
  length (List.filter is_final (fst sample_batch)) = 3%nat.
Proof.
  split; [vm_compute; reflexivity|].
  apply (every_delivery_ends_once sample_sha256 sample_hmac sample_tokens sample_policy 0 sample_webhook_env "w" 10
           [sample_delivery 1; sample_delivery 5; sample_delivery 2] (fst sample_batch) 3 []);
    [vm_compute; reflexivity|reflexivity].
Defined.

(** ** Addresses a callback may be sent to *)

Definition wf_ip (ip : IP) : Prop :=
  match ip with IPNil => True | IP4 a => 0 <= a < 2 ^ 32 | IP16 a => 0 <= a < 2 ^ 128 end.

(** The addresses of a block, by their numbers. *)
Definition in_block (network : IP * Z) (ip : IP) : Prop :=
  match network, To4 ip with
  | (IP4 b, n), IP4 a => b <= a < b + 2 ^ (32 - n)
  | (IP16 b, n), IP16 a => b <= a < b + 2 ^ (128 - n)
  | _, _ => False
  end.

Definition width (ip : IP) : Z := match ip with IP4 _ => 32 | _ => 128 end.

(** Blocks are aligned. *)
Definition aligned (network : IP * Z) : bool :=
  let '(base, n) := network in
  match base with
  | IP4 b | IP16 b => (0 <=? n) && (n <=? width base) && (b mod 2 ^ (width base - n) =? 0)
  | IPNil => false
  end.

Lemma front_block w n b a : 0 <= n <= w -> b mod 2 ^ (w - n) = 0 ->
  front w n a = front w n b <-> b <= a < b + 2 ^ (w - n).
Proof.
  intros Hn Hb. unfold front. rewrite !Z.shiftr_div_pow2 by lia.
  pose proof (Z.pow_pos_nonneg 2 (w - n) ltac:(lia) ltac:(lia)) as Hp. remember (2 ^ (w - n)) as k. clear Heqk.
  Z.to_euclidean_division_equations. split; intros; nia.
Qed.

Lemma Contains_iff network ip : aligned network = true -> Contains network ip = true <-> in_block network ip.
Proof.
  destruct network as [base n]. unfold aligned, Contains, in_block. destruct base as [|b|b]; [done|..];
    cbn [width]; intros Ha; apply andb_true_iff in Ha as [[H1 H2]%andb_true_iff H3]; bool_hyp;
    destruct (To4 ip) as [|a|a]; try (split; [discriminate|contradiction]);
    rewrite Z.eqb_eq; apply front_block; lia.
Qed.

Lemma networks_aligned : Forall (fun n => aligned n = true) forbiddenWebhookNetworks.
Proof. repeat constructor. Qed.

Lemma table_iff ip :
  existsb (fun n => Contains n ip) forbiddenWebhookNetworks = true <-> Exists (fun n => in_block n ip) forbiddenWebhookNetworks.
Proof.
  rewrite existsb_exists, Exists_exists. pose proof networks_aligned as Hal. rewrite Forall_forall in Hal.
  split; intros (n & Hin & Hn); exists n.
  - apply list_elem_of_In in Hin. split; [done|]. by apply Contains_iff; [apply Hal|].
  - split; [by apply list_elem_of_In|]. by apply Contains_iff; [apply Hal|].
Qed.

Lemma front_front w n m a : 0 <= m <= n -> n <= w -> front w m a = Z.shiftr (front w n a) (n - m).
Proof. intros Hm Hn. unfold front. rewrite Z.shiftr_shiftr by lia. f_equal. lia. Qed.

(** Evaluate the fronts of the addresses of the table. *)
Ltac eval_fronts H :=
  repeat match type of H with
  | context [front ?w ?n (Zpos ?p)] =>
      let v := eval vm_compute in (front w n (Zpos p)) in change (front w n (Zpos p)) with v in H
  | context [front ?w ?n 0] =>
      let v := eval vm_compute in (front w n 0) in change (front w n 0) with v in H
  end.

(** The tests of the standard library say nothing that the table does not. *)
Lemma table_covers ip :
  existsb (fun n => Contains n ip) forbiddenWebhookNetworks = false ->
  IsLoopback ip = false /\ IsPrivate ip = false /\ IsUnspecified ip = false /\ IsLinkLocalUnicast ip = false /\
  IsLinkLocalMulticast ip = false /\ IsMulticast ip = false /\ To4 ip <> IP4 (2 ^ 32 - 1).
Proof.
  unfold IsLoopback, IsPrivate, IsUnspecified, IsLinkLocalUnicast, IsLinkLocalMulticast, IsMulticast.
  intros H. cbn [existsb forbiddenWebhookNetworks Contains] in H. destruct (To4 ip) as [|a|a]; [done|..];
    eval_fronts H; cbn [orb] in H; repeat (apply orb_false_iff in H as [? H]); clear H.
  - split_and!; try assumption.
    + by rewrite !orb_false_iff.
    + apply Z.eqb_neq. intros ->. discriminate.
    + apply Z.eqb_neq. intros Hm. revert H12. rewrite (front_front 32 24 4), Hm by lia. discriminate.
    + intros [= ->]. discriminate.
  - split_and!; try assumption; try (apply Z.eqb_neq; intros ->; discriminate); [by rewrite H7|discriminate].
Qed.

Lemma safePublicIP_public ip :
  safePublicIP ip = true <-> ip <> IPNil /\ Forall (fun n => ~ in_block n ip) forbiddenWebhookNetworks.
Proof.
  unfold safePublicIP. rewrite Forall_Exists_neg, <- table_iff.
  destruct (existsb (fun n => Contains n ip) forbiddenWebhookNetworks) eqn:E.
  - split; [|intros [_ H]; by destruct H]. destruct (_ || IsMulticast ip); discriminate.
  - destruct (table_covers ip E) as (Hl & Hp & Hu & Hll & Hlm & Hmc & Hb).
    rewrite Hl, Hp, Hu, Hll, Hlm, Hmc, !orb_false_r. clear E.
    case_bool_decide as Hnil; [split; [discriminate|by intros [? _]]|]. split; [done|]. intros _.
    unfold IsGlobalUnicast. rewrite Hl, Hu, Hll, Hmc.
    assert (To4 ip <> IPNil) as Hne.
    { unfold To4. destruct ip as [|a|a]; [done..|]. by destruct (_ =? _). }
    destruct (To4 ip); [done|..]; by rewrite bool_decide_eq_false_2.
Qed.

(** A callback can reach exactly the addresses outside the forbidden blocks:
    the test accepts an address if and only if it lies in none of the blocks of
    the table, an IPv4-mapped address being the IPv4 address it carries. The
    blocks do not cover the translation prefix 64:ff9b::/96, so an address that
    carries 127.0.0.1 behind it is accepted. *)
Theorem safePublicIP_iff ip :
  (safePublicIP ip = true <-> ip <> IPNil /\ Forall (fun n => ~ in_block n ip) forbiddenWebhookNetworks) /\
  safePublicIP (IP16 (0x64ff9b * 2 ^ 96 + 0x7f000001)) = true.
Proof. split; [apply safePublicIP_public|reflexivity]. Qed.

(** An endpoint is used only when it is an HTTPS origin on port 443 without
    credentials whose name resolves, and every address the name resolves to is
    outside the forbidden blocks; those addresses are the ones the client is
    pinned to. *)
Theorem ValidateEndpoint_pins parse ToLower LookupIP rawURL ep :
  ValidateEndpoint parse ToLower LookupIP rawURL = Ok ep ->
  parse rawURL = Some (ve_URL ep) /\ u_Scheme (ve_URL ep) = "https" /\ u_HasUser (ve_URL ep) = false /\
  ve_Port ep = "443" /\ (u_Port (ve_URL ep) = "" \/ u_Port (ve_URL ep) = "443") /\
  LookupIP (ve_Host ep) = Ok (ve_AllowedIPs ep) /\ ve_AllowedIPs ep <> [] /\
  Forall (fun ip => ip <> IPNil /\ Forall (fun n => ~ in_block n ip) forbiddenWebhookNetworks) (ve_AllowedIPs ep).
Proof.
  unfold ValidateEndpoint. intros H. destruct (parse rawURL) as [u|]; [|done].
  destruct (_ || negb (str_no _ _)) eqn:E1; [done|]. cbv zeta in H.
  destruct ((if u_Port u == "" then "443" else u_Port u) == "443") eqn:E2; cbn [negb] in H; [|done].
  destruct (_ || HasSuffix _ ".home.arpa"); [done|].
  destruct (LookupIP _) as [[|x ips]|] eqn:E3; [done| |done].
  destruct (forallb safePublicIP (x :: ips)) eqn:E4; [|done]. injection H as <-.
  cbn [ve_URL ve_Port ve_Host ve_AllowedIPs]. bool_hyp. split_and!; try done.
  - destruct (u_Port u == "") eqn:E5; bool_hyp; [by left|by right].
  - apply Forall_forall. intros ip Hin. apply safePublicIP_public. apply list_elem_of_In in Hin.
    by apply (proj1 (forallb_forall _ _) E4).
Qed.

Definition sample_url : URL := mkURL "https" "Shop.example" "Shop.example" "" false "" "".

Lemma ValidateEndpoint_pins_witness :
  exists ep, ValidateEndpoint (fun _ => Some sample_url) (fun s => s) (fun _ => Ok [IP4 0x01010101]) "https://Shop.example" = Ok ep /\
    ve_Port ep = "443" /\ ve_AllowedIPs ep = [IP4 0x01010101].
Proof.
  eexists. split; [vm_compute; reflexivity|].
  destruct (ValidateEndpoint_pins (fun _ => Some sample_url) (fun s => s) (fun _ => Ok [IP4 0x01010101])
    "https://Shop.example" (mkValidatedEndpoint sample_url "Shop.example" "443" [IP4 0x01010101]))
    as (_ & _ & _ & Hp & _ & Hl & _); [vm_compute; reflexivity|].
  split; [exact Hp|reflexivity].
Defined.

(** ** The shape of an event *)

(** Which of the three parts an event of a type carries. *)
Definition event_shape (type : string) (observation settlement resolution : bool) : Prop :=
  (type = "payment.observed" \/ type = "payment.confirming" -> observation = true /\ settlement = false /\ resolution = false) /\
  (type = "payment.reorged" -> observation = negb settlement /\ resolution = false) /\
  (type = "payment.settled" -> observation = false /\ settlement = true /\ resolution = false) /\
  (type = "payment.resolution.updated" -> observation = false /\ settlement = false /\ resolution = true).

Definition is_some {A} (o : option A) : bool := match o with Some _ => true | None => false end.

(** C19: Every body the platform signs has the shape of its event type: a supported
    type of schema version 1, with a positive sequence number and exactly the
    parts the type calls for; an observation carries a positive amount and the
    lower-case hexadecimal text of a 32-byte evidence hash. *)
Theorem CanonicalBody_typed marshal event body :
  CanonicalBody marshal event = Ok body ->
  marshal event = Ok body /\ In (ev_EventType event) SupportedEventTypes /\ ev_SchemaVersion event = "1" /\
  1 <= ev_Sequence event /\
  event_shape (ev_EventType event) (is_some (ev_Observation event)) (is_some (ev_Settlement event))
    (is_some (ev_Resolution event)) /\
  (forall o, ev_Observation event = Some o ->
     eo_AmountRaw o <> 0 /\ 1 <= eo_RequiredConfirmations o /\
     exists hash, len hash = 32 /\ eo_EvidenceHash o = hex_encode hash) /\
  (forall r, ev_Resolution event = Some r -> er_ResolutionID r <> "" /\ 1 <= er_Version r).
Proof.
  unfold CanonicalBody. cbv zeta. intros H.
  destruct (_ || (ps_ID _ == "")) eqn:E1; [done|]. destruct (_ || (ev_SchemaVersion _ != "1")) eqn:E2; [done|].
  destruct (_ && _) eqn:E3; [done|]. destruct ((_ == "payment.reorged") && _) eqn:E4; [done|].
  destruct ((_ == "payment.settled") && _) eqn:E5; [done|].
  destruct ((_ == "payment.resolution.updated") && _) eqn:E6; [done|].
  destruct (match ev_Observation event with Some o => _ | None => _ end) eqn:E7; [done|].
  destruct (match ev_Resolution event with Some r => _ | None => _ end) eqn:E8; [done|].
  bool_hyp. split_and!; try done; [by apply existsb_str_In|..].
  - split_and!; intros Ht.
    + assert (E : (ev_EventType event == "payment.observed") || (ev_EventType event == "payment.confirming") = true)
        by (destruct Ht as [-> | ->]; reflexivity).
      rewrite E in E3. destruct (ev_Observation event), (ev_Settlement event), (ev_Resolution event); done.
    + rewrite Ht in E4. destruct (ev_Observation event), (ev_Settlement event), (ev_Resolution event); done.
    + rewrite Ht in E5. destruct (ev_Observation event), (ev_Settlement event), (ev_Resolution event); done.
    + rewrite Ht in E6. destruct (ev_Observation event), (ev_Settlement event), (ev_Resolution event); done.
  - intros o Ho. rewrite Ho in E7. unfold observation_incomplete in E7.
    apply orb_false_iff in E7 as [E7 _]. apply orb_false_iff in E7 as [E7 Ehash]. bool_hyp.
    unfold IsZero in *. bool_hyp. split_and!; [done|lia|].
    destruct (hex_decode (eo_EvidenceHash o)) as [hash|]; [|done]. bool_hyp. by exists hash.
  - intros r Hr. rewrite Hr in E8. unfold resolution_incomplete in E8. bool_hyp. split; [done|lia].
Qed.

Definition sample_event : Event :=
  mkEvent "evt-1" "payment.observed" "1" 1 1 "m1" true (mkSnapshot "pi-1" "o-1" "observed" 1 "USD") None
    (Some (mkEventObservation "o" "r" "n" "a" "t" "0" "f" "to" 5 6 "1" "h" 1 0 1 "observed"
             (hex_encode (Repeat "x" 32)))) None.

Lemma CanonicalBody_typed_witness :
  is_some (ev_Observation sample_event) = true /\ is_some (ev_Settlement sample_event) = false.
Proof.
  destruct (CanonicalBody_typed (fun _ => Ok "{}") sample_event "{}") as (_ & _ & _ & _ & (Hs & _) & _);
    [vm_compute; reflexivity|].
  destruct (Hs (or_introl eq_refl)) as (Ho & Hset & _). split; [exact Ho|exact Hset].
Defined.
