(* ===== verification/Reconciliation.v ===== *)
(** * Reconciliation: internal/reconciliation (model.go, ports.go, service.go)

    Deterministic comparison of chain and ledger snapshots: the balance and
    integrity classifications, the request of a run and its execution, as the
    mutation each hands to the repository. *)

From Stdlib Require Import ZArith Lia Ascii String Permutation Sorted.
From stdpp Require Import base list strings.
From S2P Require Import Prelude Text Numerals Money Custody.

Inductive recon_sentinel := RcErrValidation | RcErrForbidden | RcErrVersionConflict | RcErrIdempotencyConflict.
#[export] Instance recon_sentinel_eq_dec : EqDecision recon_sentinel.
Proof. solve_decision. Defined.

Definition recon_error := goerr recon_sentinel.

(** ** Balances (model.go) *)

Record SignedAmount := mkSigned { sa_Negative : bool; sa_Magnitude : Amount }.

Definition SignedAmount_String (s : SignedAmount) : string :=
  if IsZero (sa_Magnitude s) then "0"
  else if sa_Negative s then "-" +:+ AmountString (sa_Magnitude s) else AmountString (sa_Magnitude s).

Inductive Classification :=
| ClassificationBalanced | ClassificationBalancedWithPending | ClassificationDustSurplus
| ClassificationDustShortfall | ClassificationUnexplainedSurplus | ClassificationUnexplainedShortfall.

Inductive Severity := SeverityInfo | SeverityWarning | SeverityCritical.

Record BalanceSnapshot := mkBalanceSnapshot {
  bs_TenantID : string; bs_AssetID : string; bs_ChainID : string; bs_ChainHeight : Z; bs_ChainBlockHash : string;
  bs_CutoffAt : Time; bs_OnChainBalance : Amount; bs_LedgerBalance : Amount; bs_PendingSweepAmount : Amount;
  bs_PendingRefundAmount : Amount; bs_PendingInboundAmount : Amount; bs_DustThreshold : Amount;
  bs_EvidenceDigest : string }.

Definition Snapshot_Validate (s : BalanceSnapshot) (tenant : string) : result recon_error unit :=
  if (bs_TenantID s == "") || (bs_TenantID s != tenant) || (bs_AssetID s == "") || (bs_ChainID s == "")
     || (bs_ChainBlockHash s == "") || IsZeroTime (bs_CutoffAt s) || (TrimSpace (bs_EvidenceDigest s) == "")
  then Err (Wrapped RcErrValidation "complete tenant-scoped snapshot evidence is required")
  else match Add (bs_PendingSweepAmount s) (bs_PendingRefundAmount s) with
       | Err _ => Err (Wrapped RcErrValidation "pending outbound overflow")
       | Ok outbound =>
           if Cmp outbound (bs_LedgerBalance s) >? 0
           then Err (Wrapped RcErrValidation "pending outbound exceeds ledger balance") else Ok tt
       end.

Record Item := mkItem {
  it_TenantID : string; it_RunID : string; it_AssetID : string; it_ChainID : string; it_ChainHeight : Z;
  it_ChainBlockHash : string; it_CutoffAt : Time; it_OnChainBalance : Amount; it_LedgerBalance : Amount;
  it_PendingSweepAmount : Amount; it_PendingRefundAmount : Amount; it_PendingInboundAmount : Amount;
  it_ExpectedOnChain : Amount; it_Delta : SignedAmount; it_Classification : Classification;
  it_Severity : Severity; it_EvidenceDigest : string }.

Definition item_of (s : BalanceSnapshot) (runID : string) (expected : Amount) (delta : SignedAmount)
    (classification : Classification) (severity : Severity) : Item :=
  mkItem (bs_TenantID s) runID (bs_AssetID s) (bs_ChainID s) (bs_ChainHeight s) (bs_ChainBlockHash s)
    (bs_CutoffAt s) (bs_OnChainBalance s) (bs_LedgerBalance s) (bs_PendingSweepAmount s) (bs_PendingRefundAmount s)
    (bs_PendingInboundAmount s) expected delta classification severity (bs_EvidenceDigest s).

(** [_, _ = a.Sub(b)]: the zero amount when it fails. *)
Definition sub_or_zero (a b : Amount) : Amount := match Sub a b with Ok d => d | Err _ => Zero end.

(** The comparison of the chain's balance with the expected one. *)
Definition compare_balance (s : BalanceSnapshot) (expected outbound : Amount) : Item :=
  let cmp := Cmp (bs_OnChainBalance s) expected in
  if negb (cmp =? 0) then
    let delta := if cmp <? 0 then mkSigned true (sub_or_zero expected (bs_OnChainBalance s))
                 else mkSigned false (sub_or_zero (bs_OnChainBalance s) expected) in
    if Cmp (sa_Magnitude delta) (bs_DustThreshold s) <=? 0
    then item_of s "" expected delta
           (if sa_Negative delta then ClassificationDustShortfall else ClassificationDustSurplus) SeverityWarning
    else item_of s "" expected delta
           (if sa_Negative delta then ClassificationUnexplainedShortfall else ClassificationUnexplainedSurplus)
           SeverityCritical
  else item_of s "" expected (mkSigned false Zero)
         (if negb (IsZero outbound) || negb (IsZero (bs_PendingInboundAmount s))
          then ClassificationBalancedWithPending else ClassificationBalanced) SeverityInfo.

Definition Classify (s : BalanceSnapshot) : result recon_error Item :=
  match Add (bs_PendingSweepAmount s) (bs_PendingRefundAmount s) with
  | Err _ => Err (Wrapped RcErrValidation "outbound overflow")
  | Ok outbound =>
      match Sub (bs_LedgerBalance s) outbound with
      | Err _ => Err (Wrapped RcErrValidation "outbound exceeds ledger")
      | Ok expected =>
          match Add expected (bs_PendingInboundAmount s) with
          | Err _ => Err (Wrapped RcErrValidation "adjusted balance overflow")
          | Ok expected => Ok (compare_balance s expected outbound)
          end
      end
  end.

(** ** Integrity (model.go) *)

Inductive IntegrityClassification :=
| IntegrityProviderGap | IntegrityOrphanEvent | IntegrityDuplicateMatch | IntegrityMissingLedgerLeg
| IntegrityAmountMismatch | IntegrityStaleCallback | IntegrityReorgReversalMismatch.

#[export] Instance IntegrityClassification_eq_dec : EqDecision IntegrityClassification.
Proof. solve_decision. Defined.

Record IntegritySnapshot := mkIntegritySnapshot {
  is_TenantID : string; is_AssetID : string; is_ChainID : string; is_SubjectID : string; is_EvidenceDigest : string;
  is_EventPresent : bool; is_MatchCount : Z; is_ExpectedLedgerLegs : Z; is_ActualLedgerLegs : Z;
  is_EventAmount : Amount; is_MatchedAmount : Amount; is_CallbackRequired : bool; is_CallbackDelivered : bool;
  is_CallbackDeadline : Time; is_Reorged : bool; is_RequiredReversal : Amount; is_ActualReversal : Amount;
  is_ProviderRangeComplete : bool }.

Record IntegrityItem := mkIntegrityItem {
  ii_TenantID : string; ii_RunID : string; ii_AssetID : string; ii_ChainID : string; ii_SubjectID : string;
  ii_EvidenceDigest : string; ii_Classifications : list IntegrityClassification; ii_Severity : Severity }.

(** The [append]s of [ClassifyIntegrity], in their order. *)
Definition integrity_classes (s : IntegritySnapshot) (cutoff : Time) : list IntegrityClassification :=
  (if negb (is_ProviderRangeComplete s) then [IntegrityProviderGap] else []) ++
  (if is_EventPresent s && (is_MatchCount s =? 0) then [IntegrityOrphanEvent] else []) ++
  (if is_MatchCount s >? 1 then [IntegrityDuplicateMatch] else []) ++
  (if is_ExpectedLedgerLegs s >? is_ActualLedgerLegs s then [IntegrityMissingLedgerLeg] else []) ++
  (if is_EventPresent s && (is_MatchCount s >? 0) && negb (Cmp (is_EventAmount s) (is_MatchedAmount s) =? 0)
   then [IntegrityAmountMismatch] else []) ++
  (if is_CallbackRequired s && negb (is_CallbackDelivered s) && negb (IsZeroTime (is_CallbackDeadline s))
      && negb (Before cutoff (is_CallbackDeadline s)) then [IntegrityStaleCallback] else []) ++
  (if is_Reorged s && negb (Cmp (is_RequiredReversal s) (is_ActualReversal s) =? 0)
   then [IntegrityReorgReversalMismatch] else []).

Definition ClassifyIntegrity (s : IntegritySnapshot) (cutoff : Time) : result recon_error IntegrityItem :=
  if (is_TenantID s == "") || (is_AssetID s == "") || (is_ChainID s == "") || (TrimSpace (is_SubjectID s) == "")
     || (TrimSpace (is_EvidenceDigest s) == "") || IsZeroTime cutoff
  then Err (Wrapped RcErrValidation "complete integrity evidence is required")
  else
    let classes := integrity_classes s cutoff in
    Ok (mkIntegrityItem (is_TenantID s) "" (is_AssetID s) (is_ChainID s) (is_SubjectID s) (is_EvidenceDigest s) classes
          (if (0 <? length classes)%nat then SeverityCritical else SeverityInfo)).

(** ** Runs (model.go, service.go) *)

Inductive RunStatus := RunRequested | RunRunning | RunCompleted | RunFailed.

#[export] Instance RunStatus_eq_dec : EqDecision RunStatus.
Proof. solve_decision. Defined.

Record Run := mkRun {
  rn_ID : string; rn_TenantID : string; rn_AssetIDs : list string; rn_IdempotencyKey : string;
  rn_RequestHash : string; rn_Status : RunStatus; rn_Items : list Item; rn_IntegrityItems : list IntegrityItem;
  rn_ReportDigest : string; rn_FailureCode : string; rn_Version : Z; rn_CreatedAt : Time; rn_UpdatedAt : Time }.

(** The check of the sorted identifiers; [prev] is the one before. *)
Fixpoint assets_ok (prev : option string) (sorted : list string) : bool :=
  match sorted with
  | [] => true
  | id :: rest =>
      negb ((TrimSpace id == "") || match prev with Some p => id == p | None => false end) && assets_ok (Some id) rest
  end.

Definition canonicalAssetIDs (ids : list string) : result recon_error (list string) :=
  match ids with
  | [] => Err (Wrapped RcErrValidation "at least one asset is required")
  | _ :: _ =>
      let out := sort_by str_less ids in
      if assets_ok None out then Ok out
      else Err (Wrapped RcErrValidation "asset ids must be non-empty and unique")
  end.

Record ReconRequest := mkReconRequest {
  rc_TenantID : string; rc_AssetIDs : list string; rc_IdempotencyKey : string; rc_Auth : AuthContext }.
Record ReconExecute := mkReconExecute {
  re_TenantID : string; re_RunID : string; re_ExpectedVersion : Z; re_CutoffAt : Time; re_Auth : AuthContext }.

Record RunCreate := mkRunCreate { rcm_Run : Run; rcm_Audit : AuditCommand; rcm_Outbox : list OutboxCommand }.
Record RunUpdate := mkRunUpdate {
  rum_TenantID : string; rum_RunID : string; rum_ExpectedVersion : Z; rum_Next : Run; rum_Audit : AuditCommand;
  rum_Outbox : list OutboxCommand; rum_DecisionOperation : string; rum_Decision : MutationIdentity;
  rum_DecisionActor : string }.

(** The context of a call: the clock, the identity of the mutation with its
    reason (absent when the context carries none; the zero fingerprint is the
    empty string), three fresh identifiers, the answers of the repository and of
    the snapshot provider, and the hashes and encodings of the package. *)
Record recon_env := mkReconEnv {
  en_now : Time; en_identity : option (MutationIdentity * string); en_ids : nat -> string;
  en_get : result recon_error Run;
  en_replay : option (string -> string -> string -> MutationIdentity -> result recon_error (option Run));
  en_snapshot : string -> result recon_error BalanceSnapshot;
  en_integrity : string -> result recon_error (list IntegritySnapshot);
  en_request_hash : string -> list string -> string;
  en_digest : list Item -> list IntegrityItem -> string;
  en_payload : Run -> string }.

Section service.
Context (e : recon_env).

Definition identity : MutationIdentity := match en_identity e with Some (i, _) => i | None => mkIdentity "" "" end.

Definition recon_audit (i : nat) (tenant aggregate actor action reason : string) : AuditCommand :=
  mkAudit (en_ids e i) tenant aggregate actor action reason (en_now e).
Definition recon_event (i : nat) (tenant aggregate typ : string) (run : Run) : OutboxCommand :=
  mkOutbox (en_ids e i) tenant aggregate typ (en_payload e run) (en_now e).

Definition RequestRun (c : ReconRequest) : result recon_error RunCreate :=
  if negb (Auth_Authorize (rc_Auth c) "reconciliation:run" (en_now e)) then Err (Sentinel RcErrForbidden)
  else match canonicalAssetIDs (rc_AssetIDs c) with
       | Err err => Err err
       | Ok assets =>
           if (rc_TenantID c == "") || (len (rc_IdempotencyKey c) <? 8) || (len (rc_IdempotencyKey c) >? 255)
           then Err (Sentinel RcErrValidation)
           else
             let h := if mi_Fingerprint identity != "" then hex_encode (mi_Fingerprint identity)
                      else en_request_hash e (rc_TenantID c) assets in
             let id := en_ids e 0 in
             let run := mkRun id (rc_TenantID c) assets (rc_IdempotencyKey c) h RunRequested [] [] "" "" 1
                          (en_now e) (en_now e) in
             Ok (mkRunCreate run
                   (recon_audit 1 (rc_TenantID c) id (au_ActorID (rc_Auth c)) "reconciliation.requested" "snapshot run requested")
                   [recon_event 2 (rc_TenantID c) id "reconciliation.requested" run])
       end.

Definition recon_replay (tenant actor operation : string) : result recon_error (option Run) :=
  let key := mi_Key identity in
  let fingerprint := mi_Fingerprint identity in
  if (key == "") && (fingerprint == "") then Ok None
  else if (len key <? 8) || (len key >? 255) || (key != TrimSpace key) || (fingerprint == "")
  then Err (Sentinel RcErrValidation)
  else match en_replay e with
       | None => Err (Sentinel RcErrValidation)
       | Some replay => replay tenant actor operation identity
       end.

Definition set_run (runID : string) (i : Item) : Item :=
  mkItem (it_TenantID i) runID (it_AssetID i) (it_ChainID i) (it_ChainHeight i) (it_ChainBlockHash i) (it_CutoffAt i)
    (it_OnChainBalance i) (it_LedgerBalance i) (it_PendingSweepAmount i) (it_PendingRefundAmount i)
    (it_PendingInboundAmount i) (it_ExpectedOnChain i) (it_Delta i) (it_Classification i) (it_Severity i)
    (it_EvidenceDigest i).
Definition set_check_run (runID : string) (i : IntegrityItem) : IntegrityItem :=
  mkIntegrityItem (ii_TenantID i) runID (ii_AssetID i) (ii_ChainID i) (ii_SubjectID i) (ii_EvidenceDigest i)
    (ii_Classifications i) (ii_Severity i).

Fixpoint classify_checks (tenant asset runID : string) (cutoff : Time) (evidence : list IntegritySnapshot)
    : result recon_error (list IntegrityItem) :=
  match evidence with
  | [] => Ok []
  | s :: rest =>
      if (is_TenantID s != tenant) || (is_AssetID s != asset)
      then Err (Wrapped RcErrValidation "integrity provider crossed tenant or asset")
      else classified ← ClassifyIntegrity s cutoff;
           more ← classify_checks tenant asset runID cutoff rest;
           Ok (set_check_run runID classified :: more)
  end.

Definition check_asset (tenant runID asset : string) (cutoff : Time) : result recon_error (Item * list IntegrityItem) :=
  snapshot ← en_snapshot e asset;
  _ ← Snapshot_Validate snapshot tenant;
  if (bs_AssetID snapshot != asset) || negb (bs_CutoffAt snapshot =? cutoff)
  then Err (Wrapped RcErrValidation "provider returned wrong asset or cutoff")
  else item ← Classify snapshot;
       evidence ← en_integrity e asset;
       checks ← classify_checks tenant asset runID cutoff evidence;
       Ok (set_run runID item, checks).

Fixpoint check_assets (tenant runID : string) (cutoff : Time) (assets : list string)
    : result recon_error (list Item * list IntegrityItem) :=
  match assets with
  | [] => Ok ([], [])
  | asset :: rest =>
      first ← check_asset tenant runID asset cutoff;
      more ← check_assets tenant runID cutoff rest;
      Ok (fst first :: fst more, snd first ++ snd more)
  end.

Definition item_less (a b : Item) : bool := str_less (it_AssetID a) (it_AssetID b).
Definition check_less (a b : IntegrityItem) : bool :=
  if ii_AssetID a == ii_AssetID b then str_less (ii_SubjectID a) (ii_SubjectID b)
  else str_less (ii_AssetID a) (ii_AssetID b).

Definition reportDigest (items : list Item) (integrity : list IntegrityItem) : string :=
  en_digest e (set_run "" <$> items) (set_check_run "" <$> integrity).

Definition Execute (c : ReconExecute) : result recon_error (effect Run RunUpdate) :=
  let now := en_now e in
  let actor := au_ActorID (re_Auth c) in
  if negb (Auth_Authorize (re_Auth c) "reconciliation:execute" now) then Err (Sentinel RcErrForbidden)
  else if (re_TenantID c == "") || (re_RunID c == "") || (re_ExpectedVersion c <? 1) || IsZeroTime (re_CutoffAt c)
          || After (re_CutoffAt c) now
          || match en_identity e with
             | Some (_, reason) => (TrimSpace reason == "") || (len reason >? 2048)
             | None => false
             end
  then Err (Sentinel RcErrValidation)
  else match recon_replay (re_TenantID c) actor "reconciliation.execute" with
       | Err err => Err err
       | Ok (Some run) => Ok (Reply run)
       | Ok None =>
           match en_get e with
           | Err err => Err err
           | Ok current =>
               if negb (rn_Version current =? re_ExpectedVersion c) then Err (Sentinel RcErrVersionConflict)
               else if negb (bool_decide (rn_Status current = RunRequested))
                       && negb (bool_decide (rn_Status current = RunFailed))
               then Err (Sentinel RcErrValidation)
               else match check_assets (re_TenantID c) (rn_ID current) (re_CutoffAt c) (rn_AssetIDs current) with
                    | Err err => Err err
                    | Ok (items, checks) =>
                        let items := sort_by item_less items in
                        let checks := sort_by check_less checks in
                        let next := mkRun (rn_ID current) (rn_TenantID current) (rn_AssetIDs current)
                                      (rn_IdempotencyKey current) (rn_RequestHash current) RunCompleted items checks
                                      (reportDigest items checks) "" (rn_Version current + 1) (rn_CreatedAt current) now in
                        let reason := match en_identity e with
                                      | Some (_, reason) => TrimSpace reason
                                      | None => "deterministic snapshot comparison completed"
                                      end in
                        Ok (Mutate (mkRunUpdate (rn_TenantID current) (rn_ID current) (rn_Version current) next
                              (recon_audit 0 (rn_TenantID current) (rn_ID current) actor "reconciliation.completed" reason)
                              [recon_event 1 (rn_TenantID current) (rn_ID current) "reconciliation.report.ready" next]
                              "reconciliation.execute" identity actor))
                    end
           end
       end.
End service.

(** ** What a classification means *)

Definition signed_value (s : SignedAmount) : Z := if sa_Negative s then - sa_Magnitude s else sa_Magnitude s.

(** The class of a difference [d] under a dust threshold. *)
Definition class_of (d dust : Z) (pending : bool) : Classification * Severity :=
  if d =? 0 then ((if pending then ClassificationBalancedWithPending else ClassificationBalanced), SeverityInfo)
  else if Z.abs d <=? dust
  then ((if d <? 0 then ClassificationDustShortfall else ClassificationDustSurplus), SeverityWarning)
  else ((if d <? 0 then ClassificationUnexplainedShortfall else ClassificationUnexplainedSurplus), SeverityCritical).

Definition valid_snapshot (s : BalanceSnapshot) : Prop :=
  valid_amount (bs_OnChainBalance s) /\ valid_amount (bs_LedgerBalance s) /\ valid_amount (bs_PendingSweepAmount s) /\
  valid_amount (bs_PendingRefundAmount s) /\ valid_amount (bs_PendingInboundAmount s) /\ valid_amount (bs_DustThreshold s).

Definition expected_balance (s : BalanceSnapshot) : Z :=
  bs_LedgerBalance s - (bs_PendingSweepAmount s + bs_PendingRefundAmount s) + bs_PendingInboundAmount s.

Lemma SignedAmount_String_value s : 0 <= sa_Magnitude s -> SignedAmount_String s = FormatInt (signed_value s).
Proof.
  intros Hm. unfold SignedAmount_String, signed_value, FormatInt, IsZero, AmountString.
  destruct (sa_Magnitude s =? 0) eqn:E; bool_hyp.
  - rewrite E. destruct (sa_Negative s); reflexivity.
  - destruct (sa_Negative s).
    + rewrite (proj2 (Z.ltb_lt _ _)) by lia. by rewrite Z.opp_involutive.
    + by rewrite (proj2 (Z.ltb_ge _ _)) by lia.
Qed.

Lemma sub_or_zero_le a b : b <= a -> sub_or_zero a b = a - b.
Proof. intros H. unfold sub_or_zero. by rewrite (proj2 (Sub_spec a b (a - b))). Qed.

Lemma compare_balance_exact s expected outbound :
  0 <= expected < amount_limit -> 0 <= outbound -> 0 <= bs_OnChainBalance s -> 0 <= bs_PendingInboundAmount s ->
  let item := compare_balance s expected outbound in
  let d := bs_OnChainBalance s - expected in
  it_ExpectedOnChain item = expected /\ valid_amount expected /\
  signed_value (it_Delta item) = d /\ SignedAmount_String (it_Delta item) = FormatInt d /\
  (it_Classification item, it_Severity item) =
    class_of d (bs_DustThreshold s) (negb (outbound + bs_PendingInboundAmount s =? 0)).
Proof.
  intros He Ho Hx Hi. cbv zeta. unfold class_of, compare_balance. rewrite Cmp_eq, Cmp_lt.
  destruct (bs_OnChainBalance s =? expected) eqn:E; bool_hyp; cbn [negb].
  - rewrite E, Z.sub_diag. cbn [item_of it_ExpectedOnChain it_Delta it_Classification it_Severity].
    split_and!; [done|done|done|reflexivity|]. cbn [Z.eqb]. unfold IsZero.
    destruct (outbound =? 0) eqn:E1, (bs_PendingInboundAmount s =? 0) eqn:E2,
      (outbound + bs_PendingInboundAmount s =? 0) eqn:E3; bool_hyp; cbn [negb orb]; done || lia.
  - rewrite (proj2 (Z.eqb_neq (_ - _) 0)) by lia. cbv zeta.
    assert (forall m neg, m = Z.abs (bs_OnChainBalance s - expected) -> neg = (bs_OnChainBalance s - expected <? 0) ->
      signed_value (mkSigned neg m) = bs_OnChainBalance s - expected /\
      SignedAmount_String (mkSigned neg m) = FormatInt (bs_OnChainBalance s - expected)) as Hsig.
    { intros m neg -> ->. assert (signed_value (mkSigned (bs_OnChainBalance s - expected <? 0)
        (Z.abs (bs_OnChainBalance s - expected))) = bs_OnChainBalance s - expected) as Hv.
      { unfold signed_value. cbn. destruct (_ <? 0) eqn:E0; bool_hyp; lia. }
      split; [done|]. rewrite SignedAmount_String_value by (cbn; lia). by rewrite Hv. }
    destruct (bs_OnChainBalance s <? expected) eqn:E1; bool_hyp; rewrite sub_or_zero_le by lia;
      cbn [sa_Magnitude sa_Negative]; rewrite Cmp_le; destruct (_ <=? bs_DustThreshold s) eqn:E2;
      cbn [item_of it_ExpectedOnChain it_Delta it_Classification it_Severity]; bool_hyp;
      (split_and!; [done|done|apply Hsig; [lia|]|apply Hsig; [lia|]|]).
    all: try (symmetry; first [apply Z.ltb_lt|apply Z.ltb_ge]; lia).
    all: first [rewrite (proj2 (Z.leb_le (Z.abs _) _)) by lia|rewrite (proj2 (Z.leb_gt (Z.abs _) _)) by lia].
    all: first [rewrite (proj2 (Z.ltb_lt (_ - _) 0)) by lia|rewrite (proj2 (Z.ltb_ge (_ - _) 0)) by lia]; done.
Qed.

(** The report states the true difference: a snapshot with valid amounts is
    classified exactly when the adjusted ledger balance exists as an amount;
    then the expected balance is the ledger's less the pending outbound plus the
    pending inbound, the signed delta is the chain's balance less that, printed
    as a signed decimal, and class and severity are those of its size against
    the dust threshold. *)
Theorem Classify_exact s :
  valid_snapshot s ->
  match Classify s with
  | Ok item =>
      let d := bs_OnChainBalance s - expected_balance s in
      it_ExpectedOnChain item = expected_balance s /\ valid_amount (expected_balance s) /\
      signed_value (it_Delta item) = d /\ SignedAmount_String (it_Delta item) = FormatInt d /\
      (it_Classification item, it_Severity item) =
        class_of d (bs_DustThreshold s)
          (negb (bs_PendingSweepAmount s + bs_PendingRefundAmount s + bs_PendingInboundAmount s =? 0))
  | Err err =>
      errors_Is err RcErrValidation = true /\
      (amount_limit <= bs_PendingSweepAmount s + bs_PendingRefundAmount s \/
       bs_LedgerBalance s < bs_PendingSweepAmount s + bs_PendingRefundAmount s \/ amount_limit <= expected_balance s)
  end.
Proof.
  intros (Ho & Hl & Hs & Hr & Hi & Hd).
  assert (forall a b, 0 <= a -> 0 <= b -> match Add a b with Ok c => c = a + b /\ a + b < amount_limit | Err _ => amount_limit <= a + b end)
    as Hadd.
  { intros a b Ha Hb. unfold Add, checked. rewrite BitLen_gt_256 by lia. destruct (_ <=? _) eqn:E; bool_hyp; lia. }
  unfold valid_amount in *. unfold Classify.
  pose proof (Hadd (bs_PendingSweepAmount s) (bs_PendingRefundAmount s) ltac:(lia) ltac:(lia)) as H1.
  destruct (Add (bs_PendingSweepAmount s) _) as [outbound|]; [|by split; [|left]]. destruct H1 as [-> H1].
  destruct (Sub (bs_LedgerBalance s) _) as [rest|] eqn:E2.
  2:{ split; [done|]. right; left. unfold Sub in E2. rewrite Cmp_lt in E2. destruct (_ <? _) eqn:E; [by bool_hyp|done]. }
  apply Sub_spec in E2 as [Hle ->].
  pose proof (Hadd (bs_LedgerBalance s - (bs_PendingSweepAmount s + bs_PendingRefundAmount s))
                (bs_PendingInboundAmount s) ltac:(lia) ltac:(lia)) as H2.
  destruct (Add (_ - _) _) as [expected|]; [|split; [done|]; right; right; exact H2]. destruct H2 as [-> H2].
  fold (expected_balance s) in *.
  assert (0 <= expected_balance s) as Hpos by (unfold expected_balance; lia).
  apply compare_balance_exact; lia.
Qed.

Definition sample_snapshot : BalanceSnapshot :=
  mkBalanceSnapshot "t1" "usdt" "tron" 10 "0xb" 100 995 1000 100 50 150 4 "digest".

Lemma Classify_exact_witness :
  exists item, Classify sample_snapshot = Ok item /\ signed_value (it_Delta item) = -5 /\
    it_Classification item = ClassificationUnexplainedShortfall.
Proof.
  pose proof (Classify_exact sample_snapshot) as H. eexists. split; [vm_compute; reflexivity|].
  assert (valid_snapshot sample_snapshot) as Hv by (repeat split; vm_compute; intuition discriminate).
  specialize (H Hv). vm_compute (Classify sample_snapshot) in H. destruct H as (_ & _ & Hd & _ & Hc).
  split; [exact Hd|]. exact (f_equal fst Hc).
Defined.

(** ** Integrity *)

(** What each class says of a snapshot. *)
Definition violates (s : IntegritySnapshot) (cutoff : Time) (c : IntegrityClassification) : Prop :=
  match c with
  | IntegrityProviderGap => is_ProviderRangeComplete s = false
  | IntegrityOrphanEvent => is_EventPresent s = true /\ is_MatchCount s = 0
  | IntegrityDuplicateMatch => 1 < is_MatchCount s
  | IntegrityMissingLedgerLeg => is_ActualLedgerLegs s < is_ExpectedLedgerLegs s
  | IntegrityAmountMismatch =>
      is_EventPresent s = true /\ 0 < is_MatchCount s /\ is_EventAmount s <> is_MatchedAmount s
  | IntegrityStaleCallback =>
      is_CallbackRequired s = true /\ is_CallbackDelivered s = false /\ is_CallbackDeadline s <> 0 /\
      is_CallbackDeadline s <= cutoff
  | IntegrityReorgReversalMismatch => is_Reorged s = true /\ is_RequiredReversal s <> is_ActualReversal s
  end.

Definition class_rank (c : IntegrityClassification) : Z :=
  match c with
  | IntegrityProviderGap => 0 | IntegrityOrphanEvent => 1 | IntegrityDuplicateMatch => 2
  | IntegrityMissingLedgerLeg => 3 | IntegrityAmountMismatch => 4 | IntegrityStaleCallback => 5
  | IntegrityReorgReversalMismatch => 6
  end.

Lemma In_when (b : bool) (x c : IntegrityClassification) : In c (if b then [x] else []) <-> b = true /\ c = x.
Proof. destruct b; cbn; intuition congruence. Qed.

Lemma classes_exact s cutoff c : In c (integrity_classes s cutoff) <-> violates s cutoff c.
Proof.
  unfold integrity_classes. rewrite !in_app_iff, !In_when, !Cmp_eq, !andb_true_iff, !negb_true_iff, !Z.gtb_lt, !Z.eqb_eq,
    !Z.eqb_neq. unfold IsZeroTime, Before. rewrite Z.eqb_neq, Z.ltb_ge.
  destruct c; cbn [violates]; intuition congruence.
Qed.

Lemma classes_sorted s cutoff : StronglySorted (fun a b => class_rank a < class_rank b) (integrity_classes s cutoff).
Proof.
  unfold integrity_classes.
  repeat match goal with |- context [if ?b then [_] else []] => destruct b end; cbn [app];
    repeat constructor; cbn; lia.
Qed.

(** The integrity report is exact and stable: complete evidence is always
    classified, the classes are precisely the violated conditions, each once and
    in one fixed order, and the item is critical if and only if there is one. *)
Theorem ClassifyIntegrity_exact s cutoff :
  match ClassifyIntegrity s cutoff with
  | Ok item =>
      (forall c, In c (ii_Classifications item) <-> violates s cutoff c) /\
      StronglySorted (fun a b => class_rank a < class_rank b) (ii_Classifications item) /\
      (ii_Severity item = SeverityCritical <-> exists c, violates s cutoff c) /\
      ii_SubjectID item = is_SubjectID s
  | Err err =>
      errors_Is err RcErrValidation = true /\
      (is_TenantID s = "" \/ is_AssetID s = "" \/ is_ChainID s = "" \/ TrimSpace (is_SubjectID s) = "" \/
       TrimSpace (is_EvidenceDigest s) = "" \/ cutoff = 0)
  end.
Proof.
  unfold ClassifyIntegrity, IsZeroTime. destruct (_ || (cutoff =? 0)) eqn:E.
  - rewrite !orb_true_iff, !String.eqb_eq, Z.eqb_eq in E. split; [done|]. tauto.
  - cbn [ii_Classifications ii_Severity ii_SubjectID]. split_and!; [apply classes_exact|apply classes_sorted| |done].
    destruct (integrity_classes s cutoff) as [|c l] eqn:Ec; cbn [length].
    + split; [done|]. intros (c & Hc). apply classes_exact in Hc. by rewrite Ec in Hc.
    + split; [|done]. intros _. exists c. apply classes_exact. rewrite Ec. by left.
Qed.

(** ** Requests and executions *)

Lemma str_sort_sorted l : StronglySorted (not_after str_less) (sort_by str_less l).
Proof. apply sort_by_sorted; [apply str_less_asym|apply str_less_cotrans]. Qed.

Lemma assets_ok_spec l : forall prev,
  assets_ok prev l = true -> StronglySorted (not_after str_less) l ->
  match prev with Some p => Forall (not_after str_less p) l | None => True end ->
  NoDup l /\ Forall (fun id => TrimSpace id <> "") l /\ match prev with Some p => p ∉ l | None => True end.
Proof.
  induction l as [|x l IH]; intros prev Hok Hs Hp.
  { split_and!; [constructor|constructor|]. destruct prev; [apply not_elem_of_nil|done]. }
  cbn [assets_ok] in Hok. bool_hyp. inversion Hs as [|? ? Hs' Hall]; subst.
  destruct (IH (Some x) H0 Hs' Hall) as (Hnd & Htrim & Hx).
  split_and!; [by constructor|by constructor|]. destruct prev as [p|]; [|done].
  bool_hyp. intros [->|Hin]%elem_of_cons; [done|].
  inversion Hp as [|? ? Hpx Hpl]; subst. rewrite Forall_forall in Hall. pose proof (Hall p Hin) as Hxp.
  unfold not_after in *. destruct (str_less_total p x) as [?|[?|?]]; congruence.
Qed.

(** The set of assets is what counts: identifiers are accepted exactly when
    they are non-blank and pairwise distinct, the accepted list is their sorted
    arrangement, and any order of the same identifiers gives the same list, so
    the same request hash. *)
Theorem canonicalAssetIDs_set ids :
  (forall out, canonicalAssetIDs ids = Ok out ->
     Permutation ids out /\ NoDup out /\ Forall (fun id => TrimSpace id <> "") out /\
     StronglySorted (not_after str_less) out) /\
  (forall ids', Permutation ids ids' -> canonicalAssetIDs ids = canonicalAssetIDs ids') /\
  (ids <> [] -> NoDup ids -> Forall (fun id => TrimSpace id <> "") ids -> is_ok (canonicalAssetIDs ids) = true).
Proof.
  assert (forall l l', Permutation l l' -> sort_by str_less l = sort_by str_less l') as Hsort.
  { intros l l' Hp. apply sort_by_determined; [apply str_less_asym|apply str_less_cotrans| |done].
    intros x y _ _. apply str_less_total. }
  split_and!.
  - intros out H. unfold canonicalAssetIDs in H. destruct ids as [|i ids]; [done|].
    destruct (assets_ok None (sort_by str_less (i :: ids))) eqn:E; [|done]. injection H as <-.
    destruct (assets_ok_spec _ None E (str_sort_sorted _) I) as (Hnd & Ht & _).
    split_and!; [exact (sort_by_perm str_less (i :: ids))|done|done|exact (str_sort_sorted (i :: ids))].
  - intros ids' Hp. unfold canonicalAssetIDs. rewrite (Hsort _ _ Hp).
    destruct ids, ids'; [done|by apply Permutation_nil_cons in Hp|by apply Permutation_sym, Permutation_nil_cons in Hp|done].
  - intros Hne Hnd Ht. unfold canonicalAssetIDs. destruct ids as [|i ids]; [done|].
    assert (assets_ok None (sort_by str_less (i :: ids)) = true) as ->; [|done].
    rewrite (sort_by_perm str_less) in Hnd, Ht. revert Hnd Ht. generalize (sort_by str_less (i :: ids)). clear.
    intros l. assert (forall prev, match prev with Some p => p ∉ l | None => True end -> NoDup l ->
      Forall (fun id => TrimSpace id <> "") l -> assets_ok prev l = true) as H; [|by apply (H None)].
    induction l as [|x l IH]; intros prev Hp Hnd Ht; [done|]. inversion Hnd; subst. inversion Ht; subst.
    cbn [assets_ok]. rewrite (IH (Some x)) by done. rewrite (proj2 (String.eqb_neq (TrimSpace x) "")) by done.
    destruct prev as [p|]; [|done]. rewrite not_elem_of_cons in Hp. destruct (x == p) eqn:E; [|done].
    bool_hyp. by destruct Hp.
Qed.

(** The evidence behind one item of a report. *)
Definition item_backed (e : recon_env) (tenant runID : string) (cutoff : Time) (item : Item) : Prop :=
  exists snapshot classified,
    en_snapshot e (it_AssetID item) = Ok snapshot /\ Snapshot_Validate snapshot tenant = Ok tt /\
    bs_CutoffAt snapshot = cutoff /\ Classify snapshot = Ok classified /\ item = set_run runID classified.

Definition check_backed (e : recon_env) (tenant runID : string) (cutoff : Time) (check : IntegrityItem) : Prop :=
  exists evidence snapshot classified,
    en_integrity e (ii_AssetID check) = Ok evidence /\ In snapshot evidence /\ is_TenantID snapshot = tenant /\
    ClassifyIntegrity snapshot cutoff = Ok classified /\ check = set_check_run runID classified.

Lemma Classify_asset s item : Classify s = Ok item -> it_AssetID item = bs_AssetID s.
Proof.
  unfold Classify, compare_balance. intros H. repeat case_match; simplify_eq; reflexivity.
Qed.

Lemma classify_checks_backed e tenant asset runID cutoff all evidence : forall checks,
  en_integrity e asset = Ok all -> incl evidence all ->
  classify_checks tenant asset runID cutoff evidence = Ok checks ->
  length checks = length evidence /\ Forall (check_backed e tenant runID cutoff) checks.
Proof.
  induction evidence as [|s evidence IH]; intros checks Hall Hincl H; [by injection H as <-|].
  cbn [classify_checks] in H. destruct (_ || _) eqn:E; [done|]. bool_hyp.
  destruct (ClassifyIntegrity s cutoff) as [item|] eqn:Ei; [|done].
  destruct (classify_checks tenant asset runID cutoff evidence) as [more|] eqn:Em; [|done].
  injection H as <-. destruct (IH more Hall) as [Hl Hf]; [by apply incl_cons_inv in Hincl as [_ ?]|done|].
  split; [cbn; by rewrite Hl|]. constructor; [|done]. exists all, s, item.
  assert (ii_AssetID item = asset) as Ha.
  { unfold ClassifyIntegrity in Ei. destruct (_ || _); [done|]. injection Ei as <-. done. }
  cbn [set_check_run ii_AssetID]. rewrite Ha. split_and!; try done. apply Hincl. by left.
Qed.

Lemma check_asset_backed e tenant runID asset cutoff item checks :
  check_asset e tenant runID asset cutoff = Ok (item, checks) ->
  it_AssetID item = asset /\ item_backed e tenant runID cutoff item /\
  (exists evidence, en_integrity e asset = Ok evidence /\ length checks = length evidence) /\
  Forall (check_backed e tenant runID cutoff) checks.
Proof.
  unfold check_asset. intros H. destruct (en_snapshot e asset) as [s|] eqn:Es; [|done]. cbn in H.
  destruct (Snapshot_Validate s tenant) as [[]|] eqn:Ev; [|done]. cbn in H.
  destruct (_ || _) eqn:E; [done|]. bool_hyp.
  destruct (Classify s) as [c|] eqn:Ec; [|done]. cbn in H.
  destruct (en_integrity e asset) as [evidence|] eqn:Ei; [|done]. cbn in H.
  destruct (classify_checks tenant asset runID cutoff evidence) as [cs|] eqn:Ek; [|done]. cbn in H.
  injection H as <- <-. apply Classify_asset in Ec as Ha.
  destruct (classify_checks_backed e tenant asset runID cutoff evidence evidence cs Ei (incl_refl _) Ek) as [Hl Hf].
  split_and!; [by cbn; rewrite Ha| |by exists evidence|done].
  exists s, c. cbn [set_run it_AssetID]. rewrite Ha, H0. done.
Qed.

Lemma check_assets_backed e tenant runID cutoff assets : forall items checks,
  check_assets e tenant runID cutoff assets = Ok (items, checks) ->
  it_AssetID <$> items = assets /\ Forall (item_backed e tenant runID cutoff) items /\
  Forall (check_backed e tenant runID cutoff) checks.
Proof.
  induction assets as [|a assets IH]; intros items checks H; [by injection H as <- <-|].
  cbn [check_assets] in H. destruct (check_asset e tenant runID a cutoff) as [[i cs]|] eqn:Ea; [|done]. cbn in H.
  destruct (check_assets e tenant runID cutoff assets) as [[is' cs']|] eqn:Es; [|done]. cbn in H.
  injection H as <- <-. apply check_asset_backed in Ea as (Ha & Hb & _ & Hc).
  destruct (IH _ _ eq_refl) as (H1 & H2 & H3). split_and!; [by rewrite fmap_cons, Ha, H1|by constructor|by apply Forall_app].
Qed.

(** A completed report is complete and backed by evidence: it is written only
    for an authorized actor, on the expected version of a run that was not yet
    completed and for a cutoff that has passed; it has exactly one item for
    every asset of the run, in order of the asset; every item is the
    classification of a snapshot of the run's tenant at the cutoff, and every
    integrity item that of evidence of the tenant; and the repository is asked
    for the next version. *)
Theorem Execute_reports e c m current :
  Execute e c = Ok (Mutate m) -> en_get e = Ok current -> rn_TenantID current = re_TenantID c ->
  let next := rum_Next m in
  Auth_Authorize (re_Auth c) "reconciliation:execute" (en_now e) = true /\
  re_CutoffAt c <= en_now e /\ rn_Version current = re_ExpectedVersion c /\
  (rn_Status current = RunRequested \/ rn_Status current = RunFailed) /\
  rn_Status next = RunCompleted /\ rn_Version next = rn_Version current + 1 /\ rum_ExpectedVersion m = rn_Version current /\
  Permutation (it_AssetID <$> rn_Items next) (rn_AssetIDs current) /\
  StronglySorted (not_after item_less) (rn_Items next) /\
  Forall (item_backed e (rn_TenantID next) (rn_ID next) (re_CutoffAt c)) (rn_Items next) /\
  Forall (check_backed e (rn_TenantID next) (rn_ID next) (re_CutoffAt c)) (rn_IntegrityItems next).
Proof.
  intros H Hget Hten. unfold Execute in H. destruct (negb _) eqn:Ea; [done|]. bool_hyp.
  destruct (_ || _) eqn:Eg; [done|]. destruct (recon_replay e _ _ _) as [[r|]|]; [done| |done].
  rewrite Hget in H. destruct (rn_Version current =? re_ExpectedVersion c) eqn:Ev; [|done]. cbn [negb] in H. bool_hyp.
  destruct (_ && _) eqn:Est; [done|].
  destruct (check_assets e _ _ _ _) as [[items checks]|] eqn:Ec; [|done]. injection H as <-.
  apply check_assets_backed in Ec as (Hassets & Hitems & Hchecks). cbn [rum_Next rum_ExpectedVersion rn_Status rn_Version
    rn_Items rn_IntegrityItems rn_TenantID rn_ID]. rewrite <- Hten in Hitems, Hchecks. unfold After in *. bool_hyp.
  split_and!; try done.
  - apply andb_false_iff in Est as [Est|Est]; apply negb_false_iff, bool_decide_eq_true in Est; [by left|by right].
  - by rewrite <- (sort_by_perm item_less), Hassets.
  - apply sort_by_sorted; unfold item_less; intros *; [apply str_less_asym|apply str_less_cotrans].
  - by rewrite <- sort_by_perm.
  - by rewrite <- sort_by_perm.
Qed.

Definition sample_run : Run := mkRun "run-1" "t1" ["usdt"] "idem-0001" "h" RunRequested [] [] "" "" 1 50 50.
Definition sample_operator : AuthContext := mkAuth "op" (fun _ => true) 1000.
Definition sample_recon_env : recon_env :=
  mkReconEnv 200 None (fun i => "id") (Ok sample_run) None
    (fun asset => Ok sample_snapshot) (fun asset => Ok []) (fun _ _ => "h") (fun _ _ => "digest") (fun _ => "{}").
Definition sample_execute : ReconExecute := mkReconExecute "t1" "run-1" 1 100 sample_operator.

Lemma Execute_reports_witness :
  exists m, Execute sample_recon_env sample_execute = Ok (Mutate m) /\ rn_Version (rum_Next m) = 2 /\
    Permutation (it_AssetID <$> rn_Items (rum_Next m)) ["usdt"].
Proof.
  destruct (Execute sample_recon_env sample_execute) as [[r|m]|] eqn:E; [vm_compute in E; discriminate| |vm_compute in E; discriminate].
  exists m. split; [reflexivity|].
  destruct (Execute_reports sample_recon_env sample_execute m sample_run E eq_refl eq_refl)
    as (_ & _ & _ & _ & _ & Hv & _ & Hp & _).
  split; [exact Hv|exact Hp].
Defined.
