(* ===== verification/Migration.v ===== *)
(** * Migration: internal/migrationcontrol (model.go, canonical.go, service.go, verifier.go)

    The control plane of a migration: the states and their edges, signed
    manifests and their canonical form, the authorization and validation of
    every operation before the repository is called, and the quorum verifier of
    chain facts. *)

From Stdlib Require Import ZArith Lia Ascii String Permutation Sorted.
From stdpp Require Import base gmap sets list strings.
From S2P Require Import Prelude Text Numerals Encoding Outbox.

(** ** States (model.go) *)

Inductive migration_error :=
| MgUnauthenticated | MgForbidden | MgStepUpRequired | MgInvalid | MgNotFound | MgConflict
| MgIdempotencyConflict | MgDependency | MgSignature.

Definition StateInventory : string := "inventory".
Definition StateValidated : string := "validated".
Definition StateApproved : string := "two_person_approved".
Definition StateImporting : string := "importing".
Definition StateShadow : string := "shadow".
Definition StateCanary : string := "canary".
Definition StateCutoverReady : string := "cutover_ready".
Definition StateCutover : string := "cutover".
Definition StateRollbackWindow : string := "rollback_window".
Definition StateRollbackPending : string := "rollback_pending".
Definition StateRolledBack : string := "rolled_back".
Definition StateDecommissioned : string := "decommissioned".

Definition transitionOrder : list (string * string) :=
  [(StateInventory, StateValidated); (StateValidated, StateApproved); (StateApproved, StateImporting);
   (StateImporting, StateShadow); (StateShadow, StateCanary); (StateCanary, StateCutoverReady);
   (StateCutoverReady, StateCutover); (StateCutover, StateRollbackWindow);
   (StateRollbackWindow, StateDecommissioned); (StateRolledBack, StateShadow)].

(** A lookup in a Go map: the zero value when the key is missing. *)
Definition map_get (m : list (string * string)) (k : string) : string :=
  match List.find (fun e => fst e == k) m with Some e => snd e | None => "" end.

Definition validTransition (from to : string) : bool :=
  if map_get transitionOrder from == to then true
  else (to == StateRollbackPending) && ((from == StateCanary) || (from == StateCutoverReady) || (from == StateCutover)
                                        || (from == StateRollbackWindow)).

(** ** Regular expressions *)

Definition is_letter (c : ascii) : bool :=
  (65 <=? code c) && (code c <=? 90) || (97 <=? code c) && (code c <=? 122).
Definition is_word (c : ascii) : bool := is_letter c || is_digit c.

(** A first letter or digit, then at most [n] bytes that are letters, digits or
    one of [extra]. *)
Definition reference_like (extra : list Z) (n : Z) (s : string) : bool :=
  match s with
  | String c r => is_word c && (len r <=? n) && str_forall (fun d => is_word d || existsb (Z.eqb (code d)) extra) r
  | EmptyString => false
  end.

(** [^[A-Za-z0-9][A-Za-z0-9._:/@+-]{0,254}$] *)
Definition safeReference : string -> bool := reference_like [46; 95; 58; 47; 64; 43; 45] 254.
(** [^[A-Za-z0-9][A-Za-z0-9._:/-]{0,127}$] *)
Definition sourceIDPattern : string -> bool := reference_like [46; 95; 58; 47; 45] 127.
(** [^[a-f0-9]{64}$] *)
Definition hexDigest (s : string) : bool :=
  (len s =? 64) && str_forall (fun c => is_digit c || (97 <=? code c) && (code c <=? 102)) s.

(** ** Canonical JSON (canonical.go) *)

Definition MaxManifestBytes : Z := 512 * 1024.
Definition MaxInventoryItems : Z := 500000.
Definition manifestDomain : string := "merchant-platform/migration-manifest/v1" +:+ String (chr 10) "".

(** [decodeUnique] on the tree of a document, whose objects list their fields as
    written: depth, key lengths, duplicate keys, array and text sizes. *)
Fixpoint decodeUnique (depth : nat) (v : JSON) : bool :=
  (depth <=? 64)%nat &&
  match v with
  | JObject fields =>
      let fix walk (seen : list string) fields :=
        match fields with
        | [] => true
        | (key, item) :: rest =>
            negb ((len key =? 0) || (len key >? 128)) && negb (existsb_str key seen)
            && decodeUnique (S depth) item && walk (key :: seen) rest
        end in
      walk [] fields
  | JArray items =>
      (Z.of_nat (length items) <=? MaxInventoryItems) &&
      (let fix walk items := match items with [] => true | x :: r => decodeUnique (S depth) x && walk r end in walk items)
  | JString s => negb ((len s >? 1024 * 1024) || negb (str_no (chr 0) s))
  | JNumber t => negb (len t >? 128)
  | JBool _ | JNull => true
  end.

Definition field_less (a b : string * JSON) : bool := str_less (fst a) (fst b).

(** The value as [json.Marshal] writes it: every object in key order. *)
Fixpoint ordered (v : JSON) : JSON :=
  match v with
  | JObject fields =>
      let fix walk fields := match fields with [] => [] | (k, x) :: r => (k, ordered x) :: walk r end in
      JObject (sort_by field_less (walk fields))
  | JArray items => JArray ((fix walk l := match l with [] => [] | x :: r => ordered x :: walk r end) items)
  | _ => v
  end.

Definition forbiddenKeys : list string :=
  ["secret"; "secrets"; "password"; "private_key"; "private_key_pem"; "token"; "access_token"; "refresh_token";
   "api_key"; "api_secret"; "credential"; "credentials"; "mnemonic"; "seed"].

(** [strings.ReplaceAll(key, "-", "_")] *)
Fixpoint underscored (s : string) : string :=
  match s with
  | EmptyString => ""
  | String c r => String (if Ascii.eqb c (chr 45) then chr 95 else c) (underscored r)
  end.

Definition has_suffix (s p : string) : bool := HasPrefix (reversed s) (reversed p).

Section forbidden.
(** [strings.ToLower] *)
Context (ToLower : string -> string).

Definition forbidden_key (key : string) : bool :=
  let normalized := ToLower (underscored key) in
  existsb_str normalized forbiddenKeys || has_suffix normalized "_secret" || has_suffix normalized "_token"
  || has_suffix normalized "_private_key".

Fixpoint hasForbiddenKey (v : JSON) : bool :=
  match v with
  | JObject fields =>
      (fix walk fields :=
         match fields with [] => false | (k, x) :: r => forbidden_key k || hasForbiddenKey x || walk r end) fields
  | JArray items => (fix walk l := match l with [] => false | x :: r => hasForbiddenKey x || walk r end) items
  | _ => false
  end.
End forbidden.

(** ** Manifests (model.go, canonical.go) *)

Record InventoryItem := mkInventoryItem { iv_SourceID : string; iv_Digest : string; iv_Data : string }.

(** The sixteen groups in the order of the struct; an absent group is nil. *)
Definition Inventory := list (option (list InventoryItem)).

Record CanaryEvidence := mkCanary { cn_Percentage : Z; cn_MerchantIDs : list string; cn_AssetIDs : list string }.
Record CutoverEvidence := mkCutover {
  cv_BalancesDigest : string; cv_OpenOrdersDigest : string; cv_PaidOrdersDigest : string; cv_UnmatchedDigest : string;
  cv_CallbackBacklogDigest : string; cv_ScannerCursorsDigest : string; cv_RollbackDeadline : Time }.
Record DecommissionEvidence := mkDecommission {
  dc_BacklogCount : Z; dc_BacklogExceptionRef : string; dc_ArchiveDigest : string; dc_RestoreTestReference : string;
  dc_KeyRevocationReference : string }.
Record SourceDescriptor := mkSource {
  sd_SystemID : string; sd_BuildID : string; sd_SchemaVersion : string; sd_ExportedAt : Time; sd_WindowStart : Time;
  sd_WindowEnd : Time }.

Record Manifest := mkManifest {
  mf_SchemaVersion : string; mf_ManifestID : string; mf_MigrationID : string; mf_TenantID : string; mf_Kind : string;
  mf_Profile : string; mf_Source : SourceDescriptor; mf_Inventory : option Inventory; mf_Canary : option CanaryEvidence;
  mf_Cutover : option CutoverEvidence; mf_Decommission : option DecommissionEvidence; mf_UnexplainedDiffCount : Z;
  mf_Warnings : list string }.

Record ManifestSignature := mkManifestSignature { ms_KeyID : string; ms_Signature : string }.
Record SignedManifest := mkSignedManifest { sm_Manifest : string; sm_Signatures : list ManifestSignature }.

Definition validProfile (p : string) : bool :=
  (p == "generic") || (p == "wallet_ledger") || (p == "json_md5") || (p == "form_md5").

Definition absent {A} (o : option A) : bool := match o with None => true | Some _ => false end.

(** Every element satisfies [p] and none is repeated. *)
Fixpoint all_distinct (p : string -> bool) (seen l : list string) : bool :=
  match l with
  | [] => true
  | x :: r => negb (negb (p x) || existsb_str x seen) && all_distinct p (x :: seen) r
  end.

Definition validCanary (c : CanaryEvidence) : bool :=
  let merchants := Z.of_nat (length (cn_MerchantIDs c)) in
  let assets := Z.of_nat (length (cn_AssetIDs c)) in
  if (cn_Percentage c <? 1) || (cn_Percentage c >? 100) || (merchants <? 1) || (merchants >? 10000) || (assets <? 1)
     || (assets >? 1000)
  then false
  else all_distinct ValidID [] (cn_MerchantIDs c) && all_distinct safeReference [] (cn_AssetIDs c).

Definition inventoryComplete (i : Inventory) : bool := forallb (fun g => negb (absent g)) i.
Definition countInventory (i : Inventory) : Z := sumZ ((fun g => Z.of_nat (length (default [] g))) <$> i).

Definition validCutover (c : CutoverEvidence) (now : Time) : bool :=
  hexDigest (cv_BalancesDigest c) && hexDigest (cv_OpenOrdersDigest c) && hexDigest (cv_PaidOrdersDigest c)
  && hexDigest (cv_UnmatchedDigest c) && hexDigest (cv_CallbackBacklogDigest c) && hexDigest (cv_ScannerCursorsDigest c)
  && After (cv_RollbackDeadline c) (AddTime now (30 * Minute))
  && Before (cv_RollbackDeadline c) (AddTime now (90 * 24 * Hour)).

Definition validDecommission (d : DecommissionEvidence) : bool :=
  (dc_BacklogCount d =? 0) && ((dc_BacklogExceptionRef d == "") || safeReference (dc_BacklogExceptionRef d))
  && hexDigest (dc_ArchiveDigest d) && safeReference (dc_RestoreTestReference d)
  && safeReference (dc_KeyRevocationReference d).

(** [base64.RawStdEncoding.DecodeString] *)
Definition url_char (c : ascii) : ascii :=
  if Ascii.eqb c (chr 43) then chr 45 else if Ascii.eqb c (chr 47) then chr 95 else c.
Fixpoint map_bytes (f : ascii -> ascii) (s : string) : string :=
  match s with EmptyString => "" | String c r => String (f c) (map_bytes f r) end.
Definition rawstd_decode (s : string) : option string :=
  if negb (str_no (chr 45) s) || negb (str_no (chr 95) s) then None else b64_decode (map_bytes url_char s).

Section manifests.
(** [encoding/json] (the parse of one document into its tree, [json.Marshal] of
    a tree, the strict decode of a manifest), [strings.ToLower], SHA-256 and
    [ed25519.Verify] of key, message and signature. *)
Context (parse_json : string -> option JSON) (encode_json : JSON -> string)
        (decode_manifest : string -> option Manifest)
        (ToLower : string -> string) (sha256 : string -> string)
        (ed25519_Verify : string -> string -> string -> bool).

Definition canonicalJSON (raw : string) (limit : Z) : option (string * JSON) :=
  if (len raw =? 0) || (len raw >? limit) then None
  else match parse_json raw with
       | Some v => if decodeUnique 0 v then Some (encode_json (ordered v), v) else None
       | None => None
       end.

Fixpoint items_ok (seen : list string) (items : list InventoryItem) : bool :=
  match items with
  | [] => true
  | item :: rest =>
      negb (negb (safeReference (iv_SourceID item)) || negb (hexDigest (iv_Digest item)) || existsb_str (iv_SourceID item) seen
            || (len (iv_Data item) >? 64 * 1024))
      && (if len (iv_Data item) >? 0 then
            match canonicalJSON (iv_Data item) (64 * 1024) with
            | Some (_, JObject fields) => negb (hasForbiddenKey ToLower (JObject fields))
            | _ => false
            end
          else true)
      && items_ok (iv_SourceID item :: seen) rest
  end.

Definition validateInventoryItems (i : option Inventory) : bool :=
  match i with None => true | Some groups => forallb (fun g => items_ok [] (default [] g)) groups end.

Definition validateManifest (m : Manifest) (now : Time) : bool :=
  let source := mf_Source m in
  let inventory := mf_Inventory m in
  let canary := mf_Canary m in
  let cutover := mf_Cutover m in
  let decommission := mf_Decommission m in
  if (mf_SchemaVersion m != "migration-manifest-v1") || negb (ValidID (mf_ManifestID m)) || negb (ValidID (mf_MigrationID m))
     || negb (ValidID (mf_TenantID m)) || negb (safeReference (sd_SystemID source)) || negb (safeReference (sd_BuildID source))
     || negb (safeReference (sd_SchemaVersion source)) || IsZeroTime (sd_ExportedAt source) || IsZeroTime (sd_WindowStart source)
     || IsZeroTime (sd_WindowEnd source) || After (sd_WindowStart source) (sd_WindowEnd source)
     || Before (sd_ExportedAt source) (sd_WindowEnd source) || After (sd_ExportedAt source) (AddTime now (10 * Minute))
     || (mf_UnexplainedDiffCount m <? 0) || (Z.of_nat (length (mf_Warnings m)) >? 1000)
  then false
  else if negb (validProfile (mf_Profile m)) then false
  else
    (if (mf_Kind m == "inventory") || (mf_Kind m == "dry_run") then
       match inventory with
       | Some i => absent canary && absent cutover && absent decommission && inventoryComplete i
                   && (countInventory i <=? MaxInventoryItems)
       | None => false
       end
     else if mf_Kind m == "canary" then
       match canary with
       | Some c => absent inventory && absent cutover && absent decommission && validCanary c
       | None => false
       end
     else if mf_Kind m == "cutover" then
       match cutover with
       | Some c => absent inventory && absent canary && absent decommission && validCutover c now
       | None => false
       end
     else if mf_Kind m == "decommission" then
       match decommission with
       | Some d => absent inventory && absent canary && absent cutover && validDecommission d
       | None => false
       end
     else false)
    && validateInventoryItems inventory.

(** The key ring: identifiers and public keys. *)
Definition PublicKeyRing := gmap string string.

Definition signature_ok (keys : PublicKeyRing) (message : string) (keyID signature : string) : bool :=
  match keys !! keyID, rawstd_decode signature with
  | Some key, Some raw => (len raw =? 64) && ed25519_Verify key message raw
  | _, _ => false
  end.

Fixpoint verify_signatures (keys : PublicKeyRing) (message : string) (seen : list string) (l : list ManifestSignature)
    : option (list string) :=
  match l with
  | [] => Some []
  | s :: rest =>
      if existsb_str (ms_KeyID s) seen || negb (safeReference (ms_KeyID s)) then None
      else if negb (signature_ok keys message (ms_KeyID s) (ms_Signature s)) then None
      else match verify_signatures keys message (ms_KeyID s :: seen) rest with
           | Some signers => Some (ms_KeyID s :: signers)
           | None => None
           end
  end.

Record verified_manifest := mkVerified {
  vm_Manifest : Manifest; vm_Canonical : string; vm_Digest : string; vm_Signers : list string }.

Definition ParseAndVerify (document : SignedManifest) (keys : PublicKeyRing) (now : Time)
    : result migration_error verified_manifest :=
  if (len (sm_Manifest document) =? 0) || (len (sm_Manifest document) >? MaxManifestBytes)
     || (Z.of_nat (size keys) <? 2) || negb (length (sm_Signatures document) =? 2)%nat
  then Err MgSignature
  else match canonicalJSON (sm_Manifest document) MaxManifestBytes with
       | None => Err MgInvalid
       | Some (canonical, generic) =>
           if hasForbiddenKey ToLower generic then Err MgInvalid
           else match decode_manifest (sm_Manifest document) with
                | None => Err MgInvalid
                | Some manifest =>
                    if negb (validateManifest manifest now) then Err MgInvalid
                    else match verify_signatures keys (manifestDomain +:+ canonical) [] (sm_Signatures document) with
                         | None => Err MgSignature
                         | Some signers => Ok (mkVerified manifest canonical (hex_encode (sha256 canonical)) signers)
                         end
                end
       end.

Definition CanonicalForSigning (raw : string) : option string :=
  match canonicalJSON raw MaxManifestBytes with
  | Some (canonical, generic) => if hasForbiddenKey ToLower generic then None else Some (manifestDomain +:+ canonical)
  | None => None
  end.
End manifests.

(** ** The quorum verifier (verifier.go) *)

Definition verificationDomain : string := "merchant-platform/migration-verification-fact/v1" +:+ String (chr 10) "".

Record VerificationFact := mkFact {
  vf_SchemaVersion : string; vf_EventIdentity : string; vf_TransactionID : string; vf_ChainID : string;
  vf_AssetID : string; vf_ReceivingAddress : string; vf_AmountAtomic : string; vf_Confirmations : Z;
  vf_BlockHash : string; vf_ObservedAt : Time }.

Record ProviderObservation := mkProviderObservation { po_Fact : string; po_KeyID : string; po_Signature : string }.

Record VerifiedFact := mkVerifiedFact {
  vd_Fact : VerificationFact; vd_CanonicalBody : string; vd_Digest : string; vd_VerifierKeyIDs : list string;
  vd_VerifierVersion : Z }.

Definition validVerificationFact (f : VerificationFact) (now : Time) : bool :=
  if (vf_SchemaVersion f != "migration-verification-fact-v1") || negb (sourceIDPattern (vf_EventIdentity f))
     || negb (sourceIDPattern (vf_TransactionID f)) || negb (sourceIDPattern (vf_ChainID f))
     || negb (sourceIDPattern (vf_AssetID f)) || (TrimSpace (vf_ReceivingAddress f) == "")
     || (len (vf_ReceivingAddress f) >? 256) || (vf_Confirmations f <? 1) || (vf_Confirmations f >? 1000000000)
     || IsZeroTime (vf_ObservedAt f) || After (vf_ObservedAt f) (AddTime now (10 * Minute))
     || Before (vf_ObservedAt f) (AddTime now (- (30 * 24 * Hour)))
  then false
  else if (len (vf_AmountAtomic f) <? 1) || (len (vf_AmountAtomic f) >? 78)
          || negb (str_forall is_digit (vf_AmountAtomic f)) || HasPrefix (vf_AmountAtomic f) "0"
          || (len (vf_BlockHash f) <? 16) || (len (vf_BlockHash f) >? 256)
  then false
  else true.

Section quorum.
Context (parse_json : string -> option JSON) (encode_json : JSON -> string)
        (decode_fact : string -> option VerificationFact)
        (ToLower : string -> string) (sha256 : string -> string)
        (ed25519_Verify : string -> string -> string -> bool).

(** What one provider's answer contributes: its canonical text, its fact and the
    key that signed it. *)
Definition vote (keys : PublicKeyRing) (now : Time) (o : option ProviderObservation)
    : option (string * VerificationFact * string) :=
  match o with
  | None => None
  | Some observation =>
      match canonicalJSON parse_json encode_json (po_Fact observation) (64 * 1024) with
      | None => None
      | Some (canonical, generic) =>
          if hasForbiddenKey ToLower generic then None
          else match decode_fact (po_Fact observation) with
               | None => None
               | Some fact =>
                   if negb (validVerificationFact fact now) then None
                   else if negb (signature_ok ed25519_Verify keys (verificationDomain +:+ canonical) (po_KeyID observation)
                                   (po_Signature observation)) then None
                   else Some (canonical, fact, po_KeyID observation)
               end
      end
  end.

Record agreement := mkAgreement { ag_fact : VerificationFact; ag_canonical : string; ag_keys : gset string }.

Fixpoint collect_votes (keys : PublicKeyRing) (quorum version : Z) (now : Time) (agreements : gmap string agreement)
    (answers : list (option ProviderObservation)) : result migration_error VerifiedFact :=
  match answers with
  | [] => Err MgDependency
  | answer :: rest =>
      match vote keys now answer with
      | None => collect_votes keys quorum version now agreements rest
      | Some (canonical, fact, keyID) =>
          let digest := sha256 canonical in
          let item := match agreements !! digest with
                      | Some item => mkAgreement (ag_fact item) (ag_canonical item) ({[keyID]} ∪ ag_keys item)
                      | None => mkAgreement fact canonical {[keyID]}
                      end in
          if quorum <=? Z.of_nat (size (ag_keys item))
          then Ok (mkVerifiedFact (ag_fact item) (ag_canonical item) digest (sort_by str_less (elements (ag_keys item))) version)
          else collect_votes keys quorum version now (<[digest := item]> agreements) rest
      end
  end.

(** [answers] are what the providers return, in their order ([None] for an error). *)
Definition QuorumVerify (keys : PublicKeyRing) (quorum version : Z) (now : Time) (migrationID sourceID : string)
    (answers : list (option ProviderObservation)) : result migration_error VerifiedFact :=
  if negb (ValidID migrationID) || negb (sourceIDPattern sourceID) || (quorum <? 2)
     || (quorum >? Z.of_nat (length answers)) || (version <? 1) || (Z.of_nat (size keys) <? quorum)
  then Err MgInvalid
  else collect_votes keys quorum version now ∅ answers.
End quorum.

(** ** The service (service.go) *)

Record Grant := mkGrant { gr_Permission : string; gr_TenantID : string }.
Record MigrationPrincipal := mkMigrationPrincipal {
  mp_ActorID : string; mp_SessionID : string; mp_StepUpAt : Time; mp_Grants : list Grant }.
Record Idempotency := mkIdempotency { id_Key : string; id_Fingerprint : string }.

Definition PermissionRead : string := "migration:read".
Definition PermissionRequest : string := "migration:request".
Definition PermissionApprove : string := "migration:approve".
Definition PermissionExecute : string := "migration:execute".

Definition authorize_grants (p : MigrationPrincipal) (permission tenant : string) : bool :=
  existsb (fun g => (gr_Permission g == permission) && ((gr_TenantID g == "") || (gr_TenantID g == tenant))) (mp_Grants p).

Definition require (now : Time) (p : MigrationPrincipal) (tenant permission : string) (stepUp : bool)
    : option migration_error :=
  if negb (ValidID (mp_ActorID p)) || (mp_SessionID p == "") then Some MgUnauthenticated
  else if negb (authorize_grants p permission tenant) then Some MgForbidden
  else if stepUp && (IsZeroTime (mp_StepUpAt p) || After (mp_StepUpAt p) (AddTime now (10 * Second))
                     || Before (mp_StepUpAt p) (AddTime now (- (5 * Minute))))
  then Some MgStepUpRequired
  else None.

Definition validReason (reason : string) : bool :=
  let trimmed := TrimSpace reason in
  (len trimmed >=? 12) && (len trimmed <=? 1000) && (trimmed == reason) && str_no (chr 0) reason.

Definition validIdempotency (i : Idempotency) : bool :=
  (len (id_Key i) >=? 8) && (len (id_Key i) <=? 255) && (TrimSpace (id_Key i) == id_Key i).

(** [DryRun] is true unless the request says otherwise. *)
Definition IsDryRun (dry : option bool) : bool := default true dry.

Record MigrationRun := mkMigrationRun {
  mr_ID : string; mr_TenantID : string; mr_SourceSystemID : string; mr_Profile : string; mr_State : string;
  mr_CreateTrafficOwner : string; mr_CallbackOwner : string; mr_DesiredActionVersion : Z; mr_ActuatorAckVersion : Z;
  mr_FenceToken : Z; mr_RowVersion : Z; mr_RollbackDeadline : option Time; mr_PendingAction : string;
  mr_PendingTargetState : string; mr_CreatedAt : Time; mr_UpdatedAt : Time }.

Record CreateRunInput := mkCreateRun {
  cr_TenantID : string; cr_SourceSystemID : string; cr_Profile : string; cr_Reason : string; cr_DryRun : option bool }.
Record AttachManifestInput := mkAttach {
  am_ExpectedRowVersion : Z; am_Document : SignedManifest; am_Reason : string; am_DryRun : option bool }.
Record TransitionInput := mkTransition {
  ti_TargetState : string; ti_ExpectedRowVersion : Z; ti_ExpectedFenceToken : Z; ti_ManifestID : string;
  ti_Reason : string; ti_DryRun : option bool }.
Record DecisionInput := mkDecision { di_ExpectedRequestVersion : Z; di_Reason : string; di_DryRun : option bool }.
Record ExecuteInput := mkExecute {
  xi_ExpectedRequestVersion : Z; xi_ExpectedRowVersion : Z; xi_ExpectedFenceToken : Z; xi_Reason : string;
  xi_DryRun : option bool }.
Record ActuatorAckInput := mkAck {
  aa_ActionVersion : Z; aa_FenceToken : Z; aa_Action : string; aa_EvidenceHash : string; aa_KeyID : string;
  aa_Signature : string }.
Record WorkloadLease := mkLease { wl_WorkerID : string; wl_LeaseToken : string; wl_FenceToken : Z; wl_LeaseUntil : Time }.
Record ShadowComparisonInput := mkShadow {
  sh_SourceSequence : Z; sh_EntityType : string; sh_SourceID : string; sh_SourceDigest : string;
  sh_PlatformDigest : string; sh_Classification : string; sh_ExplanationRef : string; sh_Observation : string }.
Record ImportItem := mkImport {
  im_SourceSequence : Z; im_EntityType : string; im_SourceID : string; im_Payload : string }.

Record DryRunReport := mkReport {
  dr_DryRun : bool; dr_Admissible : bool; dr_Checks : list string; dr_Blockers : list string; dr_PayloadHash : string;
  dr_TargetState : string }.

(** The call an operation hands to the repository as its last act. *)
Inductive repository_call :=
| CallCreateRun (p : MigrationPrincipal) (i : CreateRunInput) (idem : Idempotency)
| CallAttachManifest (p : MigrationPrincipal) (id : string) (v : verified_manifest) (i : AttachManifestInput) (idem : Idempotency)
| CallRequestTransition (p : MigrationPrincipal) (tenant id : string) (i : TransitionInput) (idem : Idempotency)
| CallDecideTransition (p : MigrationPrincipal) (tenant id : string) (approve : bool) (i : DecisionInput) (idem : Idempotency)
| CallExecuteTransition (p : MigrationPrincipal) (tenant id : string) (i : ExecuteInput) (idem : Idempotency)
| CallAcknowledgeActuator (id : string) (i : ActuatorAckInput)
| CallClaimWorkload (id worker : string) (seconds : Z)
| CallRecordShadowComparison (id : string) (lease : WorkloadLease) (i : ShadowComparisonInput)
| CallStageImportItem (id : string) (lease : WorkloadLease) (i : ImportItem).

Definition entityTypes : list string :=
  ["merchant"; "configuration"; "asset"; "chain"; "rpc_provider"; "wallet"; "open_order"; "paid_order"; "expired_order";
   "amount_reservation"; "incoming_transfer"; "unmatched_transfer"; "callback_backlog"; "scanner_cursor";
   "provider_order"; "balance_observation"].
Definition ShadowExplained : string := "explained".
Definition shadowClassifications : list string :=
  ["equal"; ShadowExplained; "missing_platform"; "missing_source"; "value_mismatch"; "identity_conflict"].
Definition BlocksCutover (c : string) : bool := (c != "equal") && (c != ShadowExplained).

Section operations.
Context (parse_json : string -> option JSON) (encode_json : JSON -> string)
        (decode_manifest : string -> option Manifest)
        (ToLower : string -> string) (sha256 : string -> string)
        (ed25519_Verify : string -> string -> string -> bool).
Context (keys actuatorKeys : PublicKeyRing) (now : Time).

(** A report and, unless it is a dry run or inadmissible, a repository call. *)
Definition outcome : Type := result migration_error (DryRunReport * option repository_call).

Definition MigrationCreateRun (p : MigrationPrincipal) (i : CreateRunInput) (idem : Idempotency) : outcome :=
  match require now p (cr_TenantID i) PermissionRequest true with
  | Some err => Err err
  | None =>
      if negb (ValidID (cr_TenantID i)) || negb (sourceIDPattern (cr_SourceSystemID i)) || negb (validProfile (cr_Profile i))
         || negb (validReason (cr_Reason i)) || negb (validIdempotency idem)
      then Err MgInvalid
      else
        let report := mkReport (IsDryRun (cr_DryRun i)) true
          ["scope"; "profile"; "source_identifier"; "idempotency"; "mfa"] [] "" "" in
        Ok (report, if IsDryRun (cr_DryRun i) then None else Some (CallCreateRun p i idem))
  end.

Definition AttachManifest (p : MigrationPrincipal) (tenant id : string) (i : AttachManifestInput) (idem : Idempotency) : outcome :=
  match require now p tenant PermissionRequest true with
  | Some err => Err err
  | None =>
      if negb (ValidID tenant) || negb (ValidID id) || (am_ExpectedRowVersion i <? 1) || negb (validReason (am_Reason i))
         || negb (validIdempotency idem)
      then Err MgInvalid
      else match ParseAndVerify parse_json encode_json decode_manifest ToLower sha256 ed25519_Verify (am_Document i) keys now with
           | Err err => Err err
           | Ok v =>
               let manifest := vm_Manifest v in
               if (mf_MigrationID manifest != id) || (mf_TenantID manifest != tenant) then Err MgInvalid
               else
                 let blocked := negb (mf_UnexplainedDiffCount manifest =? 0)
                                && ((mf_Kind manifest == "cutover") || (mf_Kind manifest == "decommission")) in
                 let report := mkReport (IsDryRun (am_DryRun i)) (negb blocked)
                   ["canonical_json"; "bounded_inventory"; "secret_free"; "two_signatures"; "source_window"]
                   (if blocked then ["unexplained_differences"] else []) (vm_Digest v) "" in
                 Ok (report, if IsDryRun (am_DryRun i) || blocked then None else Some (CallAttachManifest p id v i idem))
           end
  end.

(** [run] is the repository's answer to [GetRun]. *)
Definition RequestTransition (p : MigrationPrincipal) (tenant id : string) (run : result migration_error MigrationRun)
    (i : TransitionInput) (idem : Idempotency) : outcome :=
  match require now p tenant PermissionRequest true with
  | Some err => Err err
  | None =>
      if negb (ValidID tenant) || negb (ValidID id) || (ti_ExpectedRowVersion i <? 1) || (ti_ExpectedFenceToken i <? 1)
         || negb (ValidID (ti_ManifestID i)) || negb (validReason (ti_Reason i)) || negb (validIdempotency idem)
      then Err MgInvalid
      else match run with
           | Err err => Err err
           | Ok run =>
               let admissible := validTransition (mr_State run) (ti_TargetState i) in
               let report := mkReport (IsDryRun (ti_DryRun i)) admissible
                 ["exact_state_edge"; "row_version"; "fence"; "signed_manifest"; "mfa"]
                 (if admissible then [] else ["invalid_state_transition"]) "" (ti_TargetState i) in
               Ok (report, if IsDryRun (ti_DryRun i) || negb admissible then None
                           else Some (CallRequestTransition p tenant id i idem))
           end
  end.

Definition DecideTransition (p : MigrationPrincipal) (tenant requestID : string) (approve : bool) (i : DecisionInput)
    (idem : Idempotency) : outcome :=
  match require now p tenant PermissionApprove true with
  | Some err => Err err
  | None =>
      if negb (ValidID tenant) || negb (ValidID requestID) || (di_ExpectedRequestVersion i <? 1)
         || negb (validReason (di_Reason i)) || negb (validIdempotency idem)
      then Err MgInvalid
      else Ok (mkReport (IsDryRun (di_DryRun i)) true ["distinct_approver"; "request_ttl"; "mfa"; "expected_version"] [] "" "",
               if IsDryRun (di_DryRun i) then None else Some (CallDecideTransition p tenant requestID approve i idem))
  end.

Definition ExecuteTransition (p : MigrationPrincipal) (tenant requestID : string) (i : ExecuteInput) (idem : Idempotency)
    : outcome :=
  match require now p tenant PermissionExecute true with
  | Some err => Err err
  | None =>
      if negb (ValidID tenant) || negb (ValidID requestID) || (xi_ExpectedRequestVersion i <? 1)
         || (xi_ExpectedRowVersion i <? 1) || (xi_ExpectedFenceToken i <? 1) || negb (validReason (xi_Reason i))
         || negb (validIdempotency idem)
      then Err MgInvalid
      else Ok (mkReport (IsDryRun (xi_DryRun i)) true
                 ["approved_request"; "distinct_executor"; "fresh_mfa"; "row_version"; "fence"; "runtime_blockers";
                  "actuator_boundary"] [] "" "",
               if IsDryRun (xi_DryRun i) then None else Some (CallExecuteTransition p tenant requestID i idem))
  end.

(** The text an actuator signs. *)
Definition ack_message (migrationID : string) (i : ActuatorAckInput) : string :=
  Join ["merchant-platform/migration-actuator-ack/v1"; migrationID; FormatInt (aa_ActionVersion i);
        FormatInt (aa_FenceToken i); aa_Action i; aa_EvidenceHash i] (String (chr 10) "").

Definition VerifyActuatorAck (migrationID : string) (i : ActuatorAckInput) (ring : PublicKeyRing) : bool :=
  if negb (ValidID migrationID) || (aa_ActionVersion i <? 1) || (aa_FenceToken i <? 1)
     || (aa_Action i != "activate_platform") && (aa_Action i != "restore_legacy") || negb (hexDigest (aa_EvidenceHash i))
     || negb (safeReference (aa_KeyID i))
  then false
  else match hex_decode (aa_EvidenceHash i) with
       | Some raw => (len raw =? 32) && signature_ok ed25519_Verify ring (ack_message migrationID i) (aa_KeyID i) (aa_Signature i)
       | None => false
       end.

Definition AcknowledgeActuator (migrationID : string) (i : ActuatorAckInput) : result migration_error repository_call :=
  if VerifyActuatorAck migrationID i actuatorKeys then Ok (CallAcknowledgeActuator migrationID i) else Err MgInvalid.

Definition ClaimWorkload (migrationID workerID : string) (leaseSeconds : Z) : result migration_error repository_call :=
  if negb (ValidID migrationID) || negb (sourceIDPattern workerID) || (leaseSeconds <? 5) || (leaseSeconds >? 60)
  then Err MgInvalid else Ok (CallClaimWorkload migrationID workerID leaseSeconds).

Definition validLease (l : WorkloadLease) : bool :=
  sourceIDPattern (wl_WorkerID l) && ValidID (wl_LeaseToken l) && (wl_FenceToken l >? 0) && negb (IsZeroTime (wl_LeaseUntil l)).

(** A bounded, canonicalizable document without secrets. *)
Definition secret_free (raw : string) : bool :=
  match canonicalJSON parse_json encode_json raw (64 * 1024) with
  | Some (_, generic) => negb (hasForbiddenKey ToLower generic)
  | None => false
  end.

Definition RecordShadowComparison (migrationID : string) (lease : WorkloadLease) (i : ShadowComparisonInput)
    : result migration_error repository_call :=
  if negb (ValidID migrationID) || negb (validLease lease) || (sh_SourceSequence i <? 1)
     || negb (existsb_str (sh_EntityType i) entityTypes) || negb (sourceIDPattern (sh_SourceID i))
     || negb (hexDigest (sh_SourceDigest i)) || negb (hexDigest (sh_PlatformDigest i))
     || negb (existsb_str (sh_Classification i) shadowClassifications) || (len (sh_Observation i) =? 0)
     || (len (sh_Observation i) >? 64 * 1024)
  then Err MgInvalid
  else if (sh_Classification i == ShadowExplained) && negb (safeReference (sh_ExplanationRef i))
          || (sh_Classification i != ShadowExplained) && (sh_ExplanationRef i != "")
  then Err MgInvalid
  else if negb (secret_free (sh_Observation i)) then Err MgInvalid
  else Ok (CallRecordShadowComparison migrationID lease i).

Definition StageImportItem (migrationID : string) (lease : WorkloadLease) (i : ImportItem)
    : result migration_error repository_call :=
  if negb (ValidID migrationID) || negb (validLease lease) || (im_SourceSequence i <? 1)
     || negb (existsb_str (im_EntityType i) entityTypes) || negb (sourceIDPattern (im_SourceID i))
     || (len (im_Payload i) =? 0) || (len (im_Payload i) >? 64 * 1024)
  then Err MgInvalid
  else if negb (secret_free (im_Payload i)) then Err MgInvalid
  else Ok (CallStageImportItem migrationID lease i).
End operations.

(** ** The path of a migration *)

(** Where a run can go: an admissible transition, or the actuator's report that
    the pending rollback is done. *)
Inductive migration_step : string -> string -> Prop :=
| step_transition from to : validTransition from to = true -> migration_step from to
| step_rolled_back : migration_step StateRollbackPending StateRolledBack.

(** The states a run has been in, the latest first. *)
Inductive migration_trace : list string -> Prop :=
| trace_start : migration_trace [StateInventory]
| trace_step l s s' : migration_trace (s :: l) -> migration_step s s' -> migration_trace (s' :: s :: l).

Lemma map_get_cases from :
  (exists to, In (from, to) transitionOrder /\ map_get transitionOrder from = to) \/ map_get transitionOrder from = "".
Proof.
  unfold map_get. destruct (List.find _ _) as [[k v]|] eqn:E; [|by right].
  apply List.find_some in E as [Hin Heq]. cbn [fst] in Heq. bool_hyp. subst. left. eauto.
Qed.

(** The edges of the machine; a state without a successor also "reaches" the
    empty name, which is what the map answers for it. *)
Lemma migration_step_edge from to : migration_step from to ->
  In (from, to) (transitionOrder ++
    [(StateCanary, StateRollbackPending); (StateCutoverReady, StateRollbackPending); (StateCutover, StateRollbackPending);
     (StateRollbackWindow, StateRollbackPending); (StateRollbackPending, StateRolledBack)]) \/
  to = "" /\ map_get transitionOrder from = "".
Proof.
  intros [from' to' Hv|]; [|left; apply in_app_iff; right; simpl; tauto].
  unfold validTransition in Hv. destruct (map_get transitionOrder from' == to') eqn:E; bool_hyp.
  - destruct (map_get_cases from') as [(t & Hin & Ht)|Ht]; [left; apply in_app_iff; left; congruence|].
    right. split; congruence.
  - left. apply in_app_iff. right. subst to'.
    repeat match goal with H : (_ || _) = true |- _ => apply orb_true_iff in H; destruct H end; bool_hyp; subst; simpl; tauto.
Qed.

Lemma migration_step_from from to : migration_step from to -> to <> "" -> to <> StateShadow -> to <> StateRollbackPending ->
  (from, to) ∈ [(StateInventory, StateValidated); (StateValidated, StateApproved); (StateApproved, StateImporting);
   (StateShadow, StateCanary); (StateCanary, StateCutoverReady); (StateCutoverReady, StateCutover);
   (StateCutover, StateRollbackWindow); (StateRollbackWindow, StateDecommissioned); (StateRollbackPending, StateRolledBack)].
Proof.
  intros Hs H1 H2 H3. destruct (migration_step_edge _ _ Hs) as [Hin|[? _]]; [|done]. apply list_elem_of_In. simpl in Hin.
  repeat (destruct Hin as [[= <- <-]|Hin]; [simpl; tauto || done|]). done.
Qed.

(** Every state past the first ones has the approval and the import behind it. *)
Lemma trace_history s l : migration_trace (s :: l) ->
  (~ In s [StateInventory; StateValidated; StateApproved] -> In StateApproved l) /\
  (~ In s [StateInventory; StateValidated; StateApproved; StateImporting] -> In StateImporting l).
Proof.
  intros H. remember (s :: l) as t eqn:Et. revert s l Et.
  induction H as [|l0 s0 s' Ht IH Hs]; intros s l [= <- <-]; [split; intros []; simpl; tauto|].
  destruct (IH _ _ eq_refl) as [IH1 IH2].
  assert (Hb : In s0 [StateInventory; StateValidated; StateApproved; StateImporting] \/
               ~ In s0 [StateInventory; StateValidated; StateApproved; StateImporting])
    by (destruct (in_dec string_dec s0 [StateInventory; StateValidated; StateApproved; StateImporting]); auto).
  destruct Hb as [Hin|Hout].
  - apply migration_step_edge in Hs. simpl in Hin.
    destruct Hin as [<-|[<-|[<-|[<-|[]]]]]; destruct Hs as [Hs|[_ Hs]]; try discriminate Hs; simpl in Hs;
      split; intros Hn; simpl in *; repeat (destruct Hs as [Hs|Hs]; [inversion Hs; subst;
        first [tauto | right; apply IH1; clear; intros Hx; repeat (destruct Hx as [Hx|Hx]; [discriminate Hx|]); done]|]); done.
  - split; intros _; right; [apply IH1|by apply IH2]. simpl in *. tauto.
Qed.

(** C20: A migration reaches the cutover only through the whole sequence: the run
    has been approved by two people and imported before, and its last states were
    shadow, canary and cutover-ready, also when an earlier attempt was rolled
    back; it is decommissioned only after the cutover and its rollback window. *)
Theorem cutover_path l :
  (migration_trace (StateCutover :: l) ->
   exists l', l = StateCutoverReady :: StateCanary :: StateShadow :: l' /\ In StateApproved l' /\ In StateImporting l') /\
  (migration_trace (StateDecommissioned :: l) ->
   exists l', l = StateRollbackWindow :: StateCutover :: l').
Proof.
  assert (Hpred : forall s s' r, migration_trace (s' :: r) -> s' <> StateInventory ->
    (forall s0, migration_step s0 s' -> s0 = s) -> exists r', r = s :: r' /\ migration_trace (s :: r')).
  { intros s s' r H Hne Hu. inversion H; subst; [done|]. rewrite (Hu _ H3) in *. eauto. }
  assert (Hfrom : forall s0 s s', (s', s) ∈ [(StateCanary, StateShadow); (StateCutoverReady, StateCanary);
      (StateCutover, StateCutoverReady); (StateRollbackWindow, StateCutover); (StateDecommissioned, StateRollbackWindow)] ->
      migration_step s0 s' -> s0 = s).
  { intros s0 s s' Hin Hs. pose proof (migration_step_from s0 s' Hs) as Hf. rewrite list_elem_of_In in Hin, Hf. simpl in Hin.
    repeat (destruct Hin as [[= <- <-]|Hin]; [specialize (Hf ltac:(done) ltac:(done) ltac:(done)); simpl in Hf;
      repeat (destruct Hf as [Hf|Hf]; [first [discriminate Hf | by injection Hf as <-]|]); done|]). done. }
  assert (Hback : forall s s' r, (s', s) ∈ [(StateCanary, StateShadow); (StateCutoverReady, StateCanary);
      (StateCutover, StateCutoverReady); (StateRollbackWindow, StateCutover); (StateDecommissioned, StateRollbackWindow)] ->
      migration_trace (s' :: r) -> exists r', r = s :: r' /\ migration_trace (s :: r')).
  { intros s s' r Hin H. apply (Hpred s s' r H); [|intros; by eapply Hfrom].
    rewrite list_elem_of_In in Hin. simpl in Hin. by repeat (destruct Hin as [[= <- <-]|Hin]; [done|]). }
  split; intros H.
  - apply (Hback StateCutoverReady) in H as (r1 & -> & H); [|set_solver].
    apply (Hback StateCanary) in H as (r2 & -> & H); [|set_solver].
    apply (Hback StateShadow) in H as (r3 & -> & H); [|set_solver].
    exists r3. split; [done|]. by destruct (trace_history _ _ H) as [H1 H2]; split; [apply H1|apply H2]; simpl;
      intros Hs; repeat (destruct Hs as [Hs|Hs]; [discriminate Hs|]).
  - apply (Hback StateRollbackWindow) in H as (r1 & -> & H); [|set_solver].
    apply (Hback StateCutover) in H as (r2 & -> & _); [|set_solver]. eauto.
Qed.

(** The hole in the machine: a state without a successor "may" go to the empty
    name, so such a request is admissible in a finished run. *)
Lemma empty_target_admissible :
  validTransition StateDecommissioned "" = true /\ validTransition StateRollbackPending "" = true /\
  validTransition StateDecommissioned StateRollbackPending = false.
Proof. repeat split. Qed.

(** ** Signed manifests *)

Lemma two_members (keys : PublicKeyRing) k1 k2 :
  k1 <> k2 -> is_Some (keys !! k1) -> is_Some (keys !! k2) -> (2 <= size keys)%nat.
Proof.
  intros Hne H1%elem_of_dom H2%elem_of_dom. rewrite <- (size_dom keys).
  replace 2%nat with (size ({[k1; k2]} : gset string)).
  - apply subseteq_size. set_solver.
  - rewrite size_union by set_solver. by rewrite !size_singleton.
Qed.

Section manifest_facts.
Context (parse_json : string -> option JSON) (encode_json : JSON -> string)
        (decode_manifest : string -> option Manifest)
        (ToLower : string -> string) (sha256 : string -> string)
        (ed25519_Verify : string -> string -> string -> bool).

Lemma verify_two keys message signatures signers : length signatures = 2%nat ->
  verify_signatures ed25519_Verify keys message [] signatures = Some signers <->
  exists k1 s1 k2 s2, signatures = [mkManifestSignature k1 s1; mkManifestSignature k2 s2] /\ signers = [k1; k2] /\
    k1 <> k2 /\ safeReference k1 = true /\ safeReference k2 = true /\
    signature_ok ed25519_Verify keys message k1 s1 = true /\ signature_ok ed25519_Verify keys message k2 s2 = true.
Proof.
  intros Hl. destruct signatures as [|[k1 s1] [|[k2 s2] [|? ?]]]; try done.
  cbn [verify_signatures ms_KeyID ms_Signature existsb_str existsb orb]. split.
  - intros H. run_ok H. injection H as <-. run_ok E1. injection E1 as <-. bool_hyp.
    by exists k1, s1, k2, s2.
  - intros (? & ? & ? & ? & [= <- <- <- <-] & -> & Hne & -> & -> & -> & ->).
    replace (k1 == k2) with false by (symmetry; by apply String.eqb_neq). done.
Qed.

Lemma signature_ok_key keys message k s : signature_ok ed25519_Verify keys message k s = true -> is_Some (keys !! k).
Proof. unfold signature_ok. by destruct (keys !! k). Qed.

(** A signed manifest is accepted exactly when it carries two signatures of
    two different keys of the ring over its canonical text under the manifest
    domain, the text holds no secret-bearing key, decodes strictly and passes the
    validation of its kind; the accepted digest and signers are those of that text. *)
Theorem ParseAndVerify_iff document keys now v :
  ParseAndVerify parse_json encode_json decode_manifest ToLower sha256 ed25519_Verify document keys now = Ok v <->
  exists k1 s1 k2 s2,
    sm_Signatures document = [mkManifestSignature k1 s1; mkManifestSignature k2 s2] /\ k1 <> k2 /\
    safeReference k1 = true /\ safeReference k2 = true /\
    CanonicalForSigning parse_json encode_json ToLower (sm_Manifest document) = Some (manifestDomain +:+ vm_Canonical v) /\
    signature_ok ed25519_Verify keys (manifestDomain +:+ vm_Canonical v) k1 s1 = true /\
    signature_ok ed25519_Verify keys (manifestDomain +:+ vm_Canonical v) k2 s2 = true /\
    decode_manifest (sm_Manifest document) = Some (vm_Manifest v) /\
    validateManifest parse_json encode_json ToLower (vm_Manifest v) now = true /\
    vm_Digest v = hex_encode (sha256 (vm_Canonical v)) /\ vm_Signers v = [k1; k2].
Proof.
  unfold ParseAndVerify, CanonicalForSigning. split.
  - intros H. destruct (_ || negb (length _ =? 2)%nat) eqn:Eg; [done|].
    apply orb_false_iff in Eg as [_ El]. apply negb_false_iff, Nat.eqb_eq in El.
    destruct (canonicalJSON _ _ _ _) as [[canonical generic]|]; [|done].
    destruct (hasForbiddenKey ToLower generic); [done|]. destruct (decode_manifest _) as [m|]; [|done].
    destruct (validateManifest _ _ _ m now) eqn:Ev; cbn [negb] in H; [|done].
    destruct (verify_signatures _ _ _ _ _) as [signers|] eqn:Es; [|done]. injection H as <-.
    apply verify_two in Es as (k1 & s1 & k2 & s2 & ? & ? & ? & ? & ? & ? & ?); [|done].
    exists k1, s1, k2, s2. by repeat split.
  - intros (k1 & s1 & k2 & s2 & Hs & Hne & Hk1 & Hk2 & Hc & Hv1 & Hv2 & Hd & Hv & Hg & Hn).
    destruct (canonicalJSON _ _ _ _) as [[canonical generic]|] eqn:Ec; [|done].
    destruct (hasForbiddenKey ToLower generic) eqn:Ef; [done|]. injection Hc as ->.
    unfold canonicalJSON in Ec. destruct ((_ =? 0) || _) eqn:El; [done|]. rewrite Hd, Hv. cbn [orb negb].
    rewrite (proj2 (Z.ltb_ge _ _)).
    2:{ pose proof (two_members keys k1 k2 Hne (signature_ok_key _ _ _ _ Hv1) (signature_ok_key _ _ _ _ Hv2)). lia. }
    rewrite Hs. cbn [length orb Nat.eqb negb].
    rewrite (proj2 (verify_two keys _ [mkManifestSignature k1 s1; mkManifestSignature k2 s2] [k1; k2] eq_refl)).
    2:{ by exists k1, s1, k2, s2. }
    by destruct v; cbn in *; subst.
Qed.
End manifest_facts.

(** ** Authorization of the operators *)

(** The operations of an operator, with what the repository answers to the read
    of the run. *)
Inductive operator_request :=
| OpCreateRun (i : CreateRunInput)
| OpAttachManifest (tenant id : string) (i : AttachManifestInput)
| OpRequestTransition (tenant id : string) (run : result migration_error MigrationRun) (i : TransitionInput)
| OpDecideTransition (tenant requestID : string) (approve : bool) (i : DecisionInput)
| OpExecuteTransition (tenant requestID : string) (i : ExecuteInput).

Definition op_tenant (r : operator_request) : string :=
  match r with
  | OpCreateRun i => cr_TenantID i
  | OpAttachManifest t _ _ | OpRequestTransition t _ _ _ | OpDecideTransition t _ _ _ | OpExecuteTransition t _ _ => t
  end.
Definition op_permission (r : operator_request) : string :=
  match r with
  | OpCreateRun _ | OpAttachManifest _ _ _ | OpRequestTransition _ _ _ _ => PermissionRequest
  | OpDecideTransition _ _ _ _ => PermissionApprove
  | OpExecuteTransition _ _ _ => PermissionExecute
  end.
Definition op_reason (r : operator_request) : string :=
  match r with
  | OpCreateRun i => cr_Reason i | OpAttachManifest _ _ i => am_Reason i | OpRequestTransition _ _ _ i => ti_Reason i
  | OpDecideTransition _ _ _ i => di_Reason i | OpExecuteTransition _ _ i => xi_Reason i
  end.
Definition op_dry (r : operator_request) : option bool :=
  match r with
  | OpCreateRun i => cr_DryRun i | OpAttachManifest _ _ i => am_DryRun i | OpRequestTransition _ _ _ i => ti_DryRun i
  | OpDecideTransition _ _ _ i => di_DryRun i | OpExecuteTransition _ _ i => xi_DryRun i
  end.

(** The principal in whose name the repository is called. *)
Definition call_principal (c : repository_call) : option MigrationPrincipal :=
  match c with
  | CallCreateRun p _ _ | CallAttachManifest p _ _ _ _ | CallRequestTransition p _ _ _ _ | CallDecideTransition p _ _ _ _ _
  | CallExecuteTransition p _ _ _ _ => Some p
  | _ => None
  end.

Lemma require_passed now p tenant permission :
  require now p tenant permission true = None ->
  ValidID (mp_ActorID p) = true /\ mp_SessionID p <> "" /\
  (exists g, In g (mp_Grants p) /\ gr_Permission g = permission /\ (gr_TenantID g = "" \/ gr_TenantID g = tenant)) /\
  now - 5 * Minute <= mp_StepUpAt p <= now + 10 * Second.
Proof.
  unfold require, authorize_grants. intros H. run_ok H. bool_hyp. repeat split; try done.
  - apply existsb_exists in E0 as (g & Hg & Hp). apply andb_true_iff in Hp as [Hp Ht].
    apply orb_true_iff in Ht. exists g. repeat split; [done|by apply String.eqb_eq|].
    destruct Ht; [left|right]; by apply String.eqb_eq.
  - cbn [andb] in E1. bool_hyp. autounfold with gotime in *. bool_hyp. lia.
  - cbn [andb] in E1. bool_hyp. autounfold with gotime in *. bool_hyp. lia.
Qed.

Lemma IsDryRun_false d : IsDryRun d = false -> d = Some false.
Proof. by destruct d as [[]|]. Qed.

Section operator_facts.
Context (parse_json : string -> option JSON) (encode_json : JSON -> string)
        (decode_manifest : string -> option Manifest)
        (ToLower : string -> string) (sha256 : string -> string)
        (ed25519_Verify : string -> string -> string -> bool).

Definition operate (keys : PublicKeyRing) (now : Time) (p : MigrationPrincipal) (r : operator_request) (idem : Idempotency)
    : outcome :=
  match r with
  | OpCreateRun i => MigrationCreateRun now p i idem
  | OpAttachManifest t id i =>
      AttachManifest parse_json encode_json decode_manifest ToLower sha256 ed25519_Verify keys now p t id i idem
  | OpRequestTransition t id run i => RequestTransition now p t id run i idem
  | OpDecideTransition t id a i => DecideTransition now p t id a i idem
  | OpExecuteTransition t id i => ExecuteTransition now p t id i idem
  end.

(** The repository is called for an operator only when the request says it is
    no dry run, and only for a principal with a valid identity and a session,
    who holds the operation's permission for that tenant and confirmed a second
    factor in the last five minutes, with a reason and an idempotency key; a
    manifest that is handed on was accepted for that run and tenant and has no
    unexplained difference at a cutover or decommission, a transition that is
    handed on is an edge of the machine. *)
Theorem operator_calls_authorized keys now p r idem report call :
  operate keys now p r idem = Ok (report, Some call) ->
  ValidID (mp_ActorID p) = true /\ mp_SessionID p <> "" /\
  (exists g, In g (mp_Grants p) /\ gr_Permission g = op_permission r /\
     (gr_TenantID g = "" \/ gr_TenantID g = op_tenant r)) /\
  now - 5 * Minute <= mp_StepUpAt p <= now + 10 * Second /\
  op_dry r = Some false /\ validReason (op_reason r) = true /\ validIdempotency idem = true /\
  ValidID (op_tenant r) = true /\ call_principal call = Some p /\ dr_Admissible report = true /\
  match call with
  | CallAttachManifest _ id v _ _ =>
      mf_MigrationID (vm_Manifest v) = id /\ mf_TenantID (vm_Manifest v) = op_tenant r /\
      (mf_UnexplainedDiffCount (vm_Manifest v) = 0 \/
       mf_Kind (vm_Manifest v) <> "cutover" /\ mf_Kind (vm_Manifest v) <> "decommission")
  | CallRequestTransition _ t id i _ =>
      exists run, r = OpRequestTransition t id (Ok run) i /\ validTransition (mr_State run) (ti_TargetState i) = true
  | _ => True
  end.
Proof.
  intros H. destruct r as [i|t id i|t id run i|t id a i|t id i]; cbn [operate op_tenant op_permission op_reason op_dry] in *.
  - unfold MigrationCreateRun in H. destruct (require _ _ _ _ _) eqn:Er; [done|]. apply require_passed in Er.
    destruct (_ || negb (validIdempotency idem)) eqn:Eg; [done|]. bool_hyp.
    injection H as <- Hc. destruct (IsDryRun _) eqn:Ed; [done|]. injection Hc as <-. apply IsDryRun_false in Ed. naive_solver.
  - unfold AttachManifest in H. destruct (require _ _ _ _ _) eqn:Er; [done|]. apply require_passed in Er.
    destruct (_ || negb (validIdempotency idem)) eqn:Eg; [done|]. bool_hyp.
    destruct (ParseAndVerify _ _ _ _ _ _ _ _ _) as [v|]; [|done]. destruct ((_ != _) || _) eqn:Em; [done|]. bool_hyp.
    injection H as <- Hc. destruct (IsDryRun _) eqn:Ed; [done|]. cbn [orb] in Hc. apply IsDryRun_false in Ed.
    destruct (negb (_ =? 0) && _) eqn:Eb; [done|]. injection Hc as <-. cbn [call_principal dr_Admissible negb].
    assert (Hdiff : mf_UnexplainedDiffCount (vm_Manifest v) = 0 \/
       mf_Kind (vm_Manifest v) <> "cutover" /\ mf_Kind (vm_Manifest v) <> "decommission").
    { apply andb_false_iff in Eb as [Eb|Eb]; bool_hyp; auto. }
    naive_solver.
  - unfold RequestTransition in H. destruct (require _ _ _ _ _) eqn:Er; [done|]. apply require_passed in Er.
    destruct (_ || negb (validIdempotency idem)) eqn:Eg; [done|]. bool_hyp. destruct run as [run|]; [|done].
    injection H as <- Hc. destruct (IsDryRun _) eqn:Ed; [done|]. cbn [orb] in Hc. apply IsDryRun_false in Ed.
    destruct (validTransition _ _) eqn:Ev; [|done]. injection Hc as <-. cbn [call_principal dr_Admissible negb].
    destruct Er as (? & ? & ? & ?). repeat split; eauto; lia.
  - unfold DecideTransition in H. destruct (require _ _ _ _ _) eqn:Er; [done|]. apply require_passed in Er.
    destruct (_ || negb (validIdempotency idem)) eqn:Eg; [done|]. bool_hyp.
    injection H as <- Hc. destruct (IsDryRun _) eqn:Ed; [done|]. injection Hc as <-. apply IsDryRun_false in Ed. naive_solver.
  - unfold ExecuteTransition in H. destruct (require _ _ _ _ _) eqn:Er; [done|]. apply require_passed in Er.
    destruct (_ || negb (validIdempotency idem)) eqn:Eg; [done|]. bool_hyp.
    injection H as <- Hc. destruct (IsDryRun _) eqn:Ed; [done|]. injection Hc as <-. apply IsDryRun_false in Ed. naive_solver.
Qed.
End operator_facts.

Definition sample_principal : MigrationPrincipal :=
  mkMigrationPrincipal "123e4567-e89b-12d3-a456-426614174000" "session" 1000 [mkGrant PermissionExecute "123e4567-e89b-12d3-a456-426614174001"].
Definition sample_execute : ExecuteInput := mkExecute 1 1 1 "execute the approved cutover" (Some false).

Lemma operator_calls_authorized_witness :
  let never3 := fun _ _ _ : string => false in
  operate (fun _ => None) (fun _ => "") (fun _ => None) id id never3 ∅ 1000 sample_principal
    (OpExecuteTransition "123e4567-e89b-12d3-a456-426614174001" "123e4567-e89b-12d3-a456-426614174002" sample_execute)
    (mkIdempotency "key-0001" "") =
  Ok (mkReport false true ["approved_request"; "distinct_executor"; "fresh_mfa"; "row_version"; "fence"; "runtime_blockers";
        "actuator_boundary"] [] "" "",
      Some (CallExecuteTransition sample_principal "123e4567-e89b-12d3-a456-426614174001"
        "123e4567-e89b-12d3-a456-426614174002" sample_execute (mkIdempotency "key-0001" ""))) /\
  op_dry (OpExecuteTransition "" "" sample_execute) = Some false /\ mp_SessionID sample_principal <> "".
Proof.
  intros never3. split; [vm_compute; reflexivity|].
  pose proof (operator_calls_authorized (fun _ => None) (fun _ => "") (fun _ => None) id id never3 ∅ 1000 sample_principal
    (OpExecuteTransition "123e4567-e89b-12d3-a456-426614174001" "123e4567-e89b-12d3-a456-426614174002" sample_execute)
    (mkIdempotency "key-0001" "") _ _ ltac:(vm_compute; reflexivity)) as (_ & Hs & _ & _ & Hd & _).
  exact (conj Hd Hs).
Defined.

(** ** The quorum of verifiers *)

Section quorum_facts.
Context (parse_json : string -> option JSON) (encode_json : JSON -> string)
        (decode_fact : string -> option VerificationFact)
        (ToLower : string -> string) (sha256 : string -> string)
        (ed25519_Verify : string -> string -> string -> bool).
Context (keys : PublicKeyRing) (now : Time).

Notation ballot := (vote parse_json encode_json decode_fact ToLower ed25519_Verify keys now).

(** The keys that signed a fact with digest [d] among the answers. *)
Fixpoint voters (d : string) (answers : list (option ProviderObservation)) : gset string :=
  match answers with
  | [] => ∅
  | a :: rest =>
      match ballot a with
      | Some (c, _, k) => if sha256 c == d then {[k]} ∪ voters d rest else voters d rest
      | None => voters d rest
      end
  end.

Lemma voters_spec d answers k :
  k ∈ voters d answers <-> exists a c f, a ∈ answers /\ ballot a = Some (c, f, k) /\ sha256 c = d.
Proof.
  induction answers as [|a answers IH]; cbn [voters]; [set_solver|].
  destruct (ballot a) as [[[c f] k']|] eqn:Ea; [destruct (sha256 c == d) eqn:Ed; bool_hyp|].
  - rewrite elem_of_union, elem_of_singleton, IH. split.
    + intros [->|(a' & c' & f' & ? & ? & ?)]; [exists a, c, f; set_solver|exists a', c', f'; set_solver].
    + intros (a' & c' & f' & Hin & Hb & Hd). apply elem_of_cons in Hin as [->|Hin]; [left; congruence|right; by exists a', c', f'].
  - rewrite IH. split; intros (a' & c' & f' & Hin & Hb & Hd); exists a', c', f'; [set_solver|].
    apply elem_of_cons in Hin as [->|Hin]; [congruence|done].
  - rewrite IH. split; intros (a' & c' & f' & Hin & Hb & Hd); exists a', c', f'; [set_solver|].
    apply elem_of_cons in Hin as [->|Hin]; [congruence|done].
Qed.

(** What the table of agreements holds after the answers [done]. *)
Definition tallied (agreements : gmap string agreement) (past : list (option ProviderObservation)) : Prop :=
  forall d, match agreements !! d with
            | Some item => ag_keys item = voters d past /\ sha256 (ag_canonical item) = d /\
                exists a k, a ∈ past /\ ballot a = Some (ag_canonical item, ag_fact item, k)
            | None => voters d past = ∅
            end.

Lemma voters_snoc d past a : voters d (past ++ [a]) =
  match ballot a with
  | Some (c, _, k) => if sha256 c == d then {[k]} ∪ voters d past else voters d past
  | None => voters d past
  end.
Proof.
  induction past as [|b past IH]; cbn [voters app].
  - by destruct (ballot a) as [[[c f] k]|].
  - rewrite IH. destruct (ballot a) as [[[c f] k]|], (ballot b) as [[[c' f'] k']|]; try done;
      repeat case_match; set_solver.
Qed.

Lemma tallied_snoc agreements past a c f k : tallied agreements past -> ballot a = Some (c, f, k) ->
  tallied (<[sha256 c := match agreements !! sha256 c with
                         | Some item => mkAgreement (ag_fact item) (ag_canonical item) ({[k]} ∪ ag_keys item)
                         | None => mkAgreement f c {[k]}
                         end]> agreements) (past ++ [a]).
Proof.
  intros Ht Ha d. specialize (Ht d). rewrite voters_snoc, Ha. destruct (sha256 c == d) eqn:Ed; bool_hyp.
  - subst d. rewrite lookup_insert_eq. destruct (agreements !! sha256 c) as [item|]; cbn.
    + destruct Ht as (-> & Hc & a' & k' & Hin & Hb). split; [done|split; [done|]].
      exists a', k'. set_solver.
    + rewrite Ht. split; [set_solver|split; [done|]]. exists a, k. set_solver.
  - rewrite lookup_insert_ne by done. destruct (agreements !! d) as [item|]; [|done].
    destruct Ht as (? & ? & a' & k' & ? & ?). repeat split; try done. exists a', k'. set_solver.
Qed.

Lemma tallied_skip agreements past a : tallied agreements past -> ballot a = None -> tallied agreements (past ++ [a]).
Proof.
  intros Ht Ha d. specialize (Ht d). rewrite voters_snoc, Ha. destruct (agreements !! d); [|done].
  destruct Ht as (? & ? & a' & k' & ? & ?). repeat split; try done. exists a', k'. set_solver.
Qed.

Lemma voters_mono d past rest : voters d past ⊆ voters d (past ++ rest).
Proof. intros k. rewrite !voters_spec. intros (a & c & f & ? & ? & ?). exists a, c, f. set_solver. Qed.

Lemma collect_votes_sound quorum version answers : forall agreements past v, tallied agreements past ->
  collect_votes parse_json encode_json decode_fact ToLower sha256 ed25519_Verify keys quorum version now agreements answers = Ok v ->
  quorum <= Z.of_nat (length (vd_VerifierKeyIDs v)) /\ NoDup (vd_VerifierKeyIDs v) /\
  (forall k, k ∈ vd_VerifierKeyIDs v -> k ∈ voters (vd_Digest v) (past ++ answers)) /\
  vd_Digest v = sha256 (vd_CanonicalBody v) /\ vd_VerifierVersion v = version /\
  exists a k, a ∈ past ++ answers /\ ballot a = Some (vd_CanonicalBody v, vd_Fact v, k).
Proof.
  induction answers as [|a answers IH]; intros agreements past v Ht H; cbn [collect_votes] in H; [done|].
  rewrite (cons_middle a past answers), (assoc_L app). destruct (ballot a) as [[[c f] k]|] eqn:Ea.
  2:{ eapply IH; [|exact H]. by apply tallied_skip. }
  pose proof (tallied_snoc _ _ _ _ _ _ Ht Ea) as Ht'. destruct (quorum <=? _) eqn:Eq; bool_hyp.
  2:{ eapply IH; [|exact H]. done. }
  pose proof (Ht' (sha256 c)) as Hd. rewrite lookup_insert_eq in Hd.
  set (item := match agreements !! sha256 c with Some _ => _ | None => _ end) in *.
  destruct Hd as (Hk & Hc & a' & k' & Hin & Hb). injection H as <-.
  cbn [vd_VerifierKeyIDs vd_Digest vd_CanonicalBody vd_VerifierVersion vd_Fact]. repeat split; try done.
  - rewrite sort_by_length. exact Eq.
  - rewrite <- sort_by_perm. apply NoDup_elements.
  - intros x Hx. rewrite <- sort_by_perm, elem_of_elements, Hk in Hx. by apply voters_mono.
  - exists a', k'. set_solver.
Qed.

Lemma collect_votes_complete quorum version answers : forall agreements past, tallied agreements past ->
  (exists d, quorum <= Z.of_nat (size (voters d (past ++ answers)))) -> (forall d, Z.of_nat (size (voters d past)) < quorum) ->
  exists v, collect_votes parse_json encode_json decode_fact ToLower sha256 ed25519_Verify keys quorum version now agreements
    answers = Ok v.
Proof.
  induction answers as [|a answers IH]; intros agreements past Ht [d Hd] Hlt; cbn [collect_votes].
  { rewrite app_nil_r in Hd. specialize (Hlt d). lia. }
  rewrite (cons_middle a past answers), (assoc_L app) in Hd. destruct (ballot a) as [[[c f] k]|] eqn:Ea.
  2:{ apply (IH _ (past ++ [a])); [by apply tallied_skip|eauto|]. intros d'. rewrite voters_snoc, Ea. apply Hlt. }
  pose proof (tallied_snoc _ _ _ _ _ _ Ht Ea) as Ht'. destruct (quorum <=? _) eqn:Eq; bool_hyp; [eauto|].
  apply (IH _ (past ++ [a])); [done|eauto|].
  pose proof (Ht' (sha256 c)) as Hc. rewrite lookup_insert_eq in Hc. destruct Hc as (Hk & _).
  intros d'. destruct (String.eqb_spec (sha256 c) d') as [<-|Hne]; [by rewrite <- Hk|].
  rewrite voters_snoc, Ea. apply String.eqb_neq in Hne. rewrite Hne. apply Hlt.
Qed.

(** The verifier returns a fact exactly when enough different keys of the
    ring signed answers with one digest: every verifier it names signed, under
    the verification domain, a valid and secret-free fact with the digest of the
    returned canonical text, no key is counted twice however many providers
    relay its signature, and when such a quorum exists among the answers a fact
    is returned whatever the other providers answer. *)
Theorem QuorumVerify_quorum quorum version migrationID sourceID answers :
  let verify := QuorumVerify parse_json encode_json decode_fact ToLower sha256 ed25519_Verify keys quorum version now
                  migrationID sourceID answers in
  (forall v, verify = Ok v ->
     2 <= quorum <= Z.of_nat (length (vd_VerifierKeyIDs v)) /\ NoDup (vd_VerifierKeyIDs v) /\
     vd_Digest v = sha256 (vd_CanonicalBody v) /\ vd_VerifierVersion v = version /\
     (forall k, k ∈ vd_VerifierKeyIDs v -> exists o c f,
        Some o ∈ answers /\ ballot (Some o) = Some (c, f, k) /\ sha256 c = vd_Digest v /\
        validVerificationFact f now = true /\ po_KeyID o = k /\
        signature_ok ed25519_Verify keys (verificationDomain +:+ c) k (po_Signature o) = true) /\
     exists a k, a ∈ answers /\ ballot a = Some (vd_CanonicalBody v, vd_Fact v, k)) /\
  ((exists v, verify = Ok v) <->
   ValidID migrationID = true /\ sourceIDPattern sourceID = true /\ 1 <= version /\
   2 <= quorum <= Z.of_nat (length answers) /\ quorum <= Z.of_nat (size keys) /\
   exists d, quorum <= Z.of_nat (size (voters d answers))).
Proof.
  intros verify. unfold verify, QuorumVerify.
  assert (H0 : tallied ∅ []) by (intros d; by rewrite lookup_empty).
  destruct (_ || _) eqn:Eg.
  - split; [done|]. split; [by intros [v ?]|]. intros (Ha & Hb & H1 & H2 & H3 & _).
    rewrite Ha, Hb in Eg. cbn [negb orb] in Eg.
    repeat match goal with H : (_ || _) = true |- _ => apply orb_true_iff in H; destruct H end; bool_hyp; lia.
  - bool_hyp. split.
    + intros v Hv. destruct (collect_votes_sound _ _ _ _ _ _ H0 Hv) as (Hq & Hnd & Hk & Hd & Hver & Hf).
      split; [lia|]. do 3 (split; [done|]). split; [|done]. intros k Hin. apply Hk, voters_spec in Hin as (a & c & f & Ha & Hb & Hc).
      destruct a as [o|]; [|done]. exists o, c, f. split; [done|]. split; [done|]. split; [done|].
      unfold vote in Hb. run_ok Hb. injection Hb as <- <- <-. by bool_hyp.
    + split.
      * intros [v Hv]. destruct (collect_votes_sound _ _ _ _ _ _ H0 Hv) as (Hq & Hnd & Hk & _).
        repeat split; try done; try lia. exists (vd_Digest v). cbn [app] in Hk.
        assert (length (vd_VerifierKeyIDs v) <= size (voters (vd_Digest v) answers))%nat; [|lia].
        rewrite <- (size_list_to_set (C := gset string)) by done. apply subseteq_size.
        intros k. rewrite elem_of_list_to_set. apply Hk.
      * intros (_ & _ & _ & Hq & _ & Hd). apply (collect_votes_complete _ _ _ _ []); [done|done|].
        intros d. cbn [voters]. rewrite size_empty. lia.
Qed.
End quorum_facts.

(** ** One canonical text per document *)

(** The same document with the fields of its objects in another order. *)
Inductive reordered : JSON -> JSON -> Prop :=
| reordered_refl v : reordered v v
| reordered_array l l' : Forall2 reordered l l' -> reordered (JArray l) (JArray l')
| reordered_object f g f' :
    Forall2 (fun a b => fst a = fst b /\ reordered (snd a) (snd b)) f g -> Permutation g f' ->
    reordered (JObject f) (JObject f').

Definition key_ok (key : string) : bool := negb ((len key =? 0) || (len key >? 128)).

Lemma decodeUnique_object depth fields :
  decodeUnique depth (JObject fields) = true <->
  (depth <= 64)%nat /\ NoDup (fst <$> fields) /\
  Forall (fun f => key_ok (fst f) = true /\ decodeUnique (S depth) (snd f) = true) fields.
Proof.
  cbn [decodeUnique]. rewrite andb_true_iff, Nat.leb_le. apply and_iff_compat_l.
  match goal with |- ?f [] fields = true <-> _ => set (walk := f) end.
  enough (H : forall seen, walk seen fields = true <->
    (NoDup (fst <$> fields) /\ (forall k, k ∈ fst <$> fields -> k ∉ seen)) /\
    Forall (fun f => key_ok (fst f) = true /\ decodeUnique (S depth) (snd f) = true) fields).
  { rewrite H. split; intros [? ?]; repeat split; try done; set_solver. }
  induction fields as [|[k x] fields IH]; intros seen; [simpl; split; [|done]; repeat split; [constructor|set_solver|constructor]|].
  assert (Hex : negb (existsb_str k seen) = true <-> k ∉ seen)
    by by rewrite negb_true_iff, <- not_true_iff_false, existsb_str_In, list_elem_of_In.
  cbn [walk]. rewrite !andb_true_iff, Hex, IH, fmap_cons, NoDup_cons, Forall_cons. cbn [fst snd]. unfold key_ok. split.
  - intros [[[Hk Hs] Hd] [[Hn Hi] Hf]]. repeat split; try done; [intros Hx; by destruct (Hi _ Hx); left|].
    intros k' [->|Hk']%elem_of_cons; [done|]. specialize (Hi _ Hk'). set_solver.
  - intros [[[Hn Hnd] Hi] [[Hk Hd] Hf]]. repeat split; try done; [apply Hi; set_solver|].
    intros k' Hk' [->|Hk'']%elem_of_cons; [done|]. by apply (Hi k'); [set_solver|].
Qed.

Lemma decodeUnique_array depth items :
  decodeUnique depth (JArray items) = true <->
  (depth <= 64)%nat /\ Z.of_nat (length items) <= MaxInventoryItems /\ Forall (fun x => decodeUnique (S depth) x = true) items.
Proof.
  cbn [decodeUnique]. rewrite !andb_true_iff, Nat.leb_le, Z.leb_le. do 2 apply and_iff_compat_l.
  induction items as [|x items IH]; [done|]. by rewrite andb_true_iff, IH, Forall_cons.
Qed.

Definition ordered_field (f : string * JSON) : string * JSON := (fst f, ordered (snd f)).

Lemma ordered_object fields : ordered (JObject fields) = JObject (sort_by field_less (ordered_field <$> fields)).
Proof. cbn [ordered]. do 2 f_equal. induction fields as [|[k x] fields IH]; [done|]. by rewrite IH. Qed.

Lemma ordered_array items : ordered (JArray items) = JArray (ordered <$> items).
Proof. done. Qed.

Lemma Forall2_fst {R : JSON -> JSON -> Prop} f g :
  Forall2 (fun a b : string * JSON => fst a = fst b /\ R (snd a) (snd b)) f g -> fst <$> f = fst <$> g.
Proof. induction 1 as [|x y f g [Hk _] _ IH]; [done|]. by rewrite !fmap_cons, Hk, IH. Qed.

(** Admission and canonical order do not see the order of the fields. *)
Lemma reordered_same v w depth : reordered v w ->
  decodeUnique depth v = decodeUnique depth w /\ (decodeUnique depth v = true -> ordered v = ordered w).
Proof.
  revert w depth. induction v as [|b|t|s|l IH|f IH] using JSON_nested_ind; intros w depth Hr;
    inversion Hr as [|? l' Hl|? g f' Hg Hp]; subst; try done.
  - assert (Hd : Forall2 (fun x y => decodeUnique (S depth) x = decodeUnique (S depth) y /\
      (decodeUnique (S depth) x = true -> ordered x = ordered y)) l l').
    { clear Hr. induction Hl as [|x y l l' Hx Hl IHl]; [constructor|]. apply Forall_cons in IH as [IHx IH].
      constructor; [by apply IHx|by apply IHl]. }
    split.
    + apply eq_true_iff_eq. rewrite !decodeUnique_array, (Forall2_length _ _ _ Hl). do 2 apply and_iff_compat_l.
      clear Hr Hl IH. induction Hd as [|x y l l' [Hx _] Hd IHd]; [done|]. by rewrite !Forall_cons, IHd, Hx.
    + rewrite decodeUnique_array, !ordered_array. intros (_ & _ & Hf). f_equal. clear Hr Hl IH.
      induction Hd as [|x y l l' [_ Hx] Hd IHd]; [done|]. apply Forall_cons in Hf as [Hfx Hf].
      by rewrite !fmap_cons, Hx, IHd.
  - assert (Hd : Forall2 (fun a b => fst a = fst b /\ decodeUnique (S depth) (snd a) = decodeUnique (S depth) (snd b) /\
      (decodeUnique (S depth) (snd a) = true -> ordered (snd a) = ordered (snd b))) f g).
    { clear Hr Hp. induction Hg as [|x y f g [Hk Hx] Hg IHg]; [constructor|]. apply Forall_cons in IH as [IHx IH].
      constructor; [split; [done|by apply IHx]|by apply IHg]. }
    split.
    + apply eq_true_iff_eq. rewrite !decodeUnique_object. apply and_iff_compat_l. rewrite (Forall2_fst f g Hg), <- Hp.
      apply and_iff_compat_l. clear Hr Hg Hp IH. induction Hd as [|x y f g (Hk & Hx & _) Hd IHd]; [done|].
      by rewrite !Forall_cons, IHd, Hx, Hk.
    + rewrite decodeUnique_object, !ordered_object. intros (_ & Hnd & Hf). f_equal.
      assert (Heq : ordered_field <$> f = ordered_field <$> g).
      { clear Hr Hg Hp IH Hnd. induction Hd as [|x y f g (Hk & _ & Hx) Hd IHd]; [done|].
        apply Forall_cons in Hf as [[_ Hfx] Hf]. rewrite !fmap_cons, IHd by done. unfold ordered_field. by rewrite Hk, Hx. }
      rewrite Heq. apply sort_by_determined.
      * intros x y. apply str_less_asym.
      * intros x y z. apply str_less_cotrans.
      * intros x y Hx Hy. destruct (str_less_total (fst x) (fst y)) as [?|[?|Hk]]; [by left|by right; left|right; right].
        rewrite <- Heq in Hx, Hy. apply list_elem_of_In in Hx, Hy.
        apply (NoDup_fmap_inj_on fst (ordered_field <$> f)); [|done..].
        by replace (fst <$> (ordered_field <$> f)) with (fst <$> f) by (rewrite <- list_fmap_compose; by apply list_fmap_ext).
      * by rewrite Hp.
Qed.

(** Some object of the document, at whatever depth, repeats a key. *)
Inductive repeats_key : JSON -> Prop :=
| repeats_here f : ~ NoDup (fst <$> f) -> repeats_key (JObject f)
| repeats_field f k x : (k, x) ∈ f -> repeats_key x -> repeats_key (JObject f)
| repeats_item l x : x ∈ l -> repeats_key x -> repeats_key (JArray l).

Lemma repeats_key_refused v : repeats_key v -> forall depth, decodeUnique depth v = false.
Proof.
  induction 1 as [f Hn|f k x Hin _ IH|l x Hin _ IH]; intros depth; apply not_true_iff_false.
  - by intros (_ & ? & _)%decodeUnique_object.
  - intros (_ & _ & Hf)%decodeUnique_object. rewrite Forall_forall in Hf. apply Hf in Hin as [_ Hx].
    cbn [snd] in Hx. by rewrite IH in Hx.
  - intros (_ & _ & Hf)%decodeUnique_array. rewrite Forall_forall in Hf. apply Hf in Hin. by rewrite IH in Hin.
Qed.

(** Signers and verifiers agree on the text that is signed: two spellings of
    one document that differ only in layout and in the order of object fields
    have the same canonical text, and an object that repeats a key, at any
    depth, has none. *)
Theorem canonicalJSON_canonical parse_json encode_json raw1 raw2 limit v w :
  parse_json raw1 = Some v -> parse_json raw2 = Some w -> reordered v w ->
  0 < len raw1 <= limit -> 0 < len raw2 <= limit ->
  fst <$> canonicalJSON parse_json encode_json raw1 limit = fst <$> canonicalJSON parse_json encode_json raw2 limit /\
  (repeats_key v ->
     canonicalJSON parse_json encode_json raw1 limit = None /\ canonicalJSON parse_json encode_json raw2 limit = None).
Proof.
  intros Hv Hw Hr H1 H2. destruct (reordered_same v w 0 Hr) as [Hd Ho]. unfold canonicalJSON.
  replace ((len raw1 =? 0) || (len raw1 >? limit)) with false
    by (symmetry; apply orb_false_iff; rewrite Z.eqb_neq, Z.gtb_ltb, Z.ltb_ge; lia).
  replace ((len raw2 =? 0) || (len raw2 >? limit)) with false
    by (symmetry; apply orb_false_iff; rewrite Z.eqb_neq, Z.gtb_ltb, Z.ltb_ge; lia).
  rewrite Hv, Hw, <- Hd. split.
  - destruct (decodeUnique 0 v); [|done]. cbn. by rewrite Ho.
  - intros Hn. by rewrite (repeats_key_refused v Hn).
Qed.

Definition sample_ab : JSON := JObject [("a", JNull); ("b", JArray [JBool true])].
Definition sample_ba : JSON := JObject [("b", JArray [JBool true]); ("a", JNull)].
Definition parse_ab (s : string) : option JSON :=
  if s == "{a,b}" then Some sample_ab else if s == "{b, a}" then Some sample_ba else None.

Lemma canonicalJSON_canonical_witness :
  fst <$> canonicalJSON parse_ab (fun _ => "x") "{a,b}" 64 = Some "x" /\
  fst <$> canonicalJSON parse_ab (fun _ => "x") "{a,b}" 64 = fst <$> canonicalJSON parse_ab (fun _ => "x") "{b, a}" 64 /\
  ordered sample_ab = ordered sample_ba.
Proof.
  split; [reflexivity|]. split; [|reflexivity].
  apply (canonicalJSON_canonical parse_ab (fun _ => "x") "{a,b}" "{b, a}" 64 sample_ab sample_ba);
    [reflexivity|reflexivity| |vm_compute; split; congruence|vm_compute; split; congruence].
  apply (reordered_object _ [("a", JNull); ("b", JArray [JBool true])]); [|apply perm_swap].
  repeat constructor.
Defined.
