(* ===== verification/Sandbox.v ===== *)
(** * Sandbox: internal/sandbox (model.go, memory.go, service.go)

    The merchant test environment: scenarios that are driven action by action
    through the life of a payment, the callbacks they emit, the deterministic
    in-memory repository and the service in front of it. *)

From Stdlib Require Import ZArith Lia Ascii String Permutation.
From stdpp Require Import base gmap list strings.
From S2P Require Import Prelude Text Money Domain Encoding Commands Numerals Outbox Webhook.

(** ** Data (model.go) *)

Definition MaxPageSize : Z := 100.
(** [DefaultClock], 2026-08-01T00:00:00Z. *)
Definition DefaultClock : Time := UnixTime 1785542400.

Definition ScenarioExact : string := "exact_payment".
Definition ScenarioPartial : string := "partial_payment".
Definition ScenarioUnder : string := "underpayment".
Definition ScenarioOver : string := "overpayment".
Definition ScenarioLate : string := "late_payment".
Definition ScenarioWrongAsset : string := "wrong_asset".
Definition ScenarioDuplicateCallback : string := "duplicate_callback".
Definition ScenarioOutOfOrder : string := "out_of_order_callback".
Definition ScenarioTimeout : string := "timeout".
Definition ScenarioDeadLetter : string := "dead_letter".
Definition ScenarioReorg : string := "reorg".
Definition ScenarioReorgRecovery : string := "reorg_recovery".

Definition ActionObserve : string := "observe".
Definition ActionConfirm : string := "confirm".
Definition ActionFinalize : string := "finalize".
Definition ActionCallbackDeliver : string := "callback_deliver".
Definition ActionCallbackOutOfOrder : string := "callback_deliver_out_of_order".
Definition ActionCallbackFail : string := "callback_fail".
Definition ActionCallbackTimeout : string := "callback_timeout".
Definition ActionDeadLetter : string := "dead_letter".
Definition ActionReorg : string := "reorg".
Definition ActionRecover : string := "recover".

Record TestCredential := mkTestCredential {
  tc_KeyID : string; tc_Environment : string; tc_Scopes : list string; tc_Secret : string; tc_SecretStatus : string }.
Record TestAddress := mkTestAddress {
  ta_ID : string; ta_ChainID : string; ta_AssetID : string; ta_Address : string; ta_Memo : string }.
Record Workspace := mkWorkspace {
  ws_Mode : string; ws_MerchantID : string; ws_Clock : Time; ws_Version : Z; ws_Credential : TestCredential;
  ws_Addresses : list TestAddress; ws_ResetConfirmationToken : string }.

Record SandboxIntent := mkSandboxIntent {
  si_ID : string; si_AmountMinor : string; si_Currency : string; si_CurrencyScale : Z; si_Status : string;
  si_StatusReason : string; si_ExpiresAt : Time; si_SettledAt : option Time; si_Version : Z }.
Record SandboxRoute := mkSandboxRoute {
  sr_ID : string; sr_IntentID : string; sr_ChainID : string; sr_AssetID : string; sr_ExpectedAmountAtomic : string;
  sr_AssetDecimals : Z; sr_Address : string; sr_Memo : string; sr_RequiredConfirmations : Z; sr_Status : string;
  sr_ExpiresAt : Time; sr_Version : Z }.
Record SandboxEvent := mkSandboxEvent {
  sv_ID : string; sv_Sequence : Z; sv_Type : string; sv_OccurredAt : Time; sv_Payload : string }.

Record Scenario := mkScenario {
  sn_ID : string; sn_TenantID : string; sn_MerchantID : string; sn_Kind : string; sn_MerchantOrderID : string;
  sn_Intent : SandboxIntent; sn_Route : SandboxRoute; sn_ObservedAmount : string; sn_ObservedAssetID : string;
  sn_Confirmations : Z; sn_Finalized : bool; sn_LastEventSequence : Z; sn_Version : Z; sn_CreatedAt : Time;
  sn_UpdatedAt : Time; sn_Events : list SandboxEvent }.

Record CallbackAttempt := mkAttempt {
  at_Number : Z; at_Outcome : string; at_HTTPStatus : Z; at_ErrorCategory : string; at_ResponseBytes : Z;
  at_AttemptedAt : Time }.
Record Callback := mkCallback {
  cb_ID : string; cb_ScenarioID : string; cb_EventID : string; cb_EventSequence : Z; cb_Status : string;
  cb_CanonicalBody : string; cb_BodySHA256 : string; cb_AttemptCount : Z; cb_Attempts : list CallbackAttempt;
  cb_CreatedAt : Time; cb_UpdatedAt : Time; cb_Version : Z }.

Record CreateScenarioCmd := mkCreateScenario {
  cs_Kind : string; cs_MerchantOrderID : string; cs_AmountMinor : string; cs_Currency : string; cs_CurrencyScale : Z;
  cs_ChainID : string; cs_AssetID : string; cs_ExpectedAmountAtomic : string; cs_AssetDecimals : Z;
  cs_RequiredConfirmations : Z }.
Record Action := mkAction {
  ac_Type : string; ac_AmountAtomic : string; ac_AssetID : string; ac_Confirmations : Z; ac_CallbackID : string;
  ac_HTTPStatus : Z; ac_ResponseBody : string; ac_ErrorText : string; ac_ReorgDepth : Z; ac_ExpectedVersion : Z }.
Record ResetResult := mkResetResult {
  rr_DeletedScenarios : Z; rr_DeletedCallbacks : Z; rr_WorkspaceVersion : Z; rr_Clock : Time }.

(** ** Record updates *)

Definition with_status (i : SandboxIntent) (status reason : string) : SandboxIntent :=
  mkSandboxIntent (si_ID i) (si_AmountMinor i) (si_Currency i) (si_CurrencyScale i) status reason (si_ExpiresAt i)
    (si_SettledAt i) (si_Version i).
Definition with_settled (i : SandboxIntent) (at_ : option Time) : SandboxIntent :=
  mkSandboxIntent (si_ID i) (si_AmountMinor i) (si_Currency i) (si_CurrencyScale i) (si_Status i) (si_StatusReason i)
    (si_ExpiresAt i) at_ (si_Version i).
Definition next_intent (i : SandboxIntent) : SandboxIntent :=
  mkSandboxIntent (si_ID i) (si_AmountMinor i) (si_Currency i) (si_CurrencyScale i) (si_Status i) (si_StatusReason i)
    (si_ExpiresAt i) (si_SettledAt i) (int64 (si_Version i + 1)).
Definition next_route (r : SandboxRoute) (status : string) : SandboxRoute :=
  mkSandboxRoute (sr_ID r) (sr_IntentID r) (sr_ChainID r) (sr_AssetID r) (sr_ExpectedAmountAtomic r) (sr_AssetDecimals r)
    (sr_Address r) (sr_Memo r) (sr_RequiredConfirmations r) status (sr_ExpiresAt r) (int64 (sr_Version r + 1)).

Definition set_intent (s : Scenario) (i : SandboxIntent) : Scenario :=
  mkScenario (sn_ID s) (sn_TenantID s) (sn_MerchantID s) (sn_Kind s) (sn_MerchantOrderID s) i (sn_Route s)
    (sn_ObservedAmount s) (sn_ObservedAssetID s) (sn_Confirmations s) (sn_Finalized s) (sn_LastEventSequence s)
    (sn_Version s) (sn_CreatedAt s) (sn_UpdatedAt s) (sn_Events s).
Definition set_sroute (s : Scenario) (r : SandboxRoute) : Scenario :=
  mkScenario (sn_ID s) (sn_TenantID s) (sn_MerchantID s) (sn_Kind s) (sn_MerchantOrderID s) (sn_Intent s) r
    (sn_ObservedAmount s) (sn_ObservedAssetID s) (sn_Confirmations s) (sn_Finalized s) (sn_LastEventSequence s)
    (sn_Version s) (sn_CreatedAt s) (sn_UpdatedAt s) (sn_Events s).
Definition set_observed (s : Scenario) (amount asset : string) : Scenario :=
  mkScenario (sn_ID s) (sn_TenantID s) (sn_MerchantID s) (sn_Kind s) (sn_MerchantOrderID s) (sn_Intent s) (sn_Route s)
    amount asset (sn_Confirmations s) (sn_Finalized s) (sn_LastEventSequence s) (sn_Version s) (sn_CreatedAt s)
    (sn_UpdatedAt s) (sn_Events s).
Definition set_chain (s : Scenario) (confirmations : Z) (finalized : bool) : Scenario :=
  mkScenario (sn_ID s) (sn_TenantID s) (sn_MerchantID s) (sn_Kind s) (sn_MerchantOrderID s) (sn_Intent s) (sn_Route s)
    (sn_ObservedAmount s) (sn_ObservedAssetID s) confirmations finalized (sn_LastEventSequence s) (sn_Version s)
    (sn_CreatedAt s) (sn_UpdatedAt s) (sn_Events s).
Definition set_updated (s : Scenario) (t : Time) : Scenario :=
  mkScenario (sn_ID s) (sn_TenantID s) (sn_MerchantID s) (sn_Kind s) (sn_MerchantOrderID s) (sn_Intent s) (sn_Route s)
    (sn_ObservedAmount s) (sn_ObservedAssetID s) (sn_Confirmations s) (sn_Finalized s) (sn_LastEventSequence s)
    (sn_Version s) (sn_CreatedAt s) t (sn_Events s).
(** [scenario.Version++], [scenario.PaymentIntent.Version++]. *)
Definition next_scenario (s : Scenario) : Scenario :=
  mkScenario (sn_ID s) (sn_TenantID s) (sn_MerchantID s) (sn_Kind s) (sn_MerchantOrderID s) (next_intent (sn_Intent s))
    (sn_Route s) (sn_ObservedAmount s) (sn_ObservedAssetID s) (sn_Confirmations s) (sn_Finalized s)
    (sn_LastEventSequence s) (int64 (sn_Version s + 1)) (sn_CreatedAt s) (sn_UpdatedAt s) (sn_Events s).
Definition push_event (s : Scenario) (e : SandboxEvent) : Scenario :=
  mkScenario (sn_ID s) (sn_TenantID s) (sn_MerchantID s) (sn_Kind s) (sn_MerchantOrderID s) (sn_Intent s) (sn_Route s)
    (sn_ObservedAmount s) (sn_ObservedAssetID s) (sn_Confirmations s) (sn_Finalized s) (sv_Sequence e) (sn_Version s)
    (sn_CreatedAt s) (sn_UpdatedAt s) (sn_Events s ++ [e]).

Definition with_clock (w : Workspace) (t : Time) : Workspace :=
  mkWorkspace (ws_Mode w) (ws_MerchantID w) t (ws_Version w) (ws_Credential w) (ws_Addresses w)
    (ws_ResetConfirmationToken w).
Definition next_workspace (w : Workspace) : Workspace :=
  mkWorkspace (ws_Mode w) (ws_MerchantID w) (ws_Clock w) (int64 (ws_Version w + 1)) (ws_Credential w) (ws_Addresses w)
    (ws_ResetConfirmationToken w).

(** [clone] goes through JSON: the tenant and the merchant have no JSON field. *)
Definition clone (s : Scenario) : Scenario :=
  mkScenario (sn_ID s) "" "" (sn_Kind s) (sn_MerchantOrderID s) (sn_Intent s) (sn_Route s)
    (sn_ObservedAmount s) (sn_ObservedAssetID s) (sn_Confirmations s) (sn_Finalized s) (sn_LastEventSequence s)
    (sn_Version s) (sn_CreatedAt s) (sn_UpdatedAt s) (sn_Events s).

(** ** The state of the repository (memory.go) *)

Inductive replay_value :=
| ReplayScenario (s : Scenario)
| ReplayWorkspace (w : Workspace)
| ReplayReset (r : ResetResult).

Record memoryReplay := mkReplay { mr_hash : string; mr_value : replay_value }.

Record MemoryRepository := mkMemoryRepository {
  sb_workspaces : gmap string Workspace; sb_scenarios : gmap string Scenario; sb_intentIndex : gmap string string;
  sb_callbacks : gmap string Callback; sb_replays : gmap string memoryReplay; sb_trustedTestPrincipal : bool }.

Definition NewMemoryRepository : MemoryRepository := mkMemoryRepository ∅ ∅ ∅ ∅ ∅ false.

(** How a call ends other than with a value: an error, or a panic. *)
Inductive fault :=
| Failed (e : error)
| Panicked (msg : string).

Definition set_callbacks (r : MemoryRepository) (m : gmap string Callback) : MemoryRepository :=
  mkMemoryRepository (sb_workspaces r) (sb_scenarios r) (sb_intentIndex r) m (sb_replays r) (sb_trustedTestPrincipal r).
Definition set_workspace (r : MemoryRepository) (key : string) (w : Workspace) : MemoryRepository :=
  mkMemoryRepository (<[key := w]> (sb_workspaces r)) (sb_scenarios r) (sb_intentIndex r) (sb_callbacks r) (sb_replays r)
    (sb_trustedTestPrincipal r).
(** The writes that end a mutation of one scenario. *)
Definition commit_scenario (r : MemoryRepository) (scope replayKey hash : string) (w : Workspace) (s : Scenario)
    : MemoryRepository :=
  mkMemoryRepository (<[scope := w]> (sb_workspaces r)) (<[sn_ID s := s]> (sb_scenarios r)) (sb_intentIndex r)
    (sb_callbacks r) (<[replayKey := mkReplay hash (ReplayScenario (clone s))]> (sb_replays r)) (sb_trustedTestPrincipal r).
Definition index_intent (r : MemoryRepository) (key id : string) : MemoryRepository :=
  mkMemoryRepository (sb_workspaces r) (sb_scenarios r) (<[key := id]> (sb_intentIndex r)) (sb_callbacks r) (sb_replays r)
    (sb_trustedTestPrincipal r).

Definition merchantScope (p : Principal) : string := p_TenantID p +:+ US +:+ p_MerchantID p.
Definition scoped (p : Principal) (operation key : string) : string :=
  merchantScope p +:+ US +:+ operation +:+ US +:+ key.
Definition sameMerchant (p : Principal) (s : Scenario) : bool :=
  (sn_TenantID s == p_TenantID p) && (sn_MerchantID s == p_MerchantID p).

Definition validatePrincipal (r : MemoryRepository) (p : Principal) : option fault :=
  if sb_trustedTestPrincipal r then None
  else
    let validTenant := HasPrefix (p_TenantID p) "sandbox-" || HasPrefix (p_TenantID p) "test-" in
    let validMerchant := HasPrefix (p_MerchantID p) "sandbox-" || HasPrefix (p_MerchantID p) "test-" in
    if negb validTenant || negb validMerchant || negb (HasPrefix (p_KeyID p) "mk_test_")
    then Some (Failed (Plain "forbidden: live tenant, merchant, or credential rejected by sandbox repository"))
    else None.

Definition replayScenario (r : MemoryRepository) (key hash : string) : result fault (option Scenario) :=
  match sb_replays r !! key with
  | None => Ok None
  | Some old =>
      if mr_hash old != hash then Err (Failed (Sentinel ErrIdempotencyConflict))
      else match mr_value old with
           | ReplayScenario s => Ok (Some (clone s))
           | _ => Err (Panicked "interface conversion")
           end
  end.

Definition httpCategory (status : Z) : string :=
  if status >=? 500 then "http_5xx" else if status >=? 400 then "http_4xx" else if status >=? 300 then "http_3xx"
  else "http_error".

Definition attemptLocked (c : Callback) (outcome : string) (status : Z) (category : string) (responseBytes : Z)
    (now : Time) (final : string) : Callback :=
  let number := cb_AttemptCount c + 1 in
  mkCallback (cb_ID c) (cb_ScenarioID c) (cb_EventID c) (cb_EventSequence c) final (cb_CanonicalBody c) (cb_BodySHA256 c)
    number (cb_Attempts c ++ [mkAttempt number outcome status category responseBytes now]) (cb_CreatedAt c) now
    (int64 (cb_Version c + 1)).
Definition dead_lettered (c : Callback) (now : Time) : Callback :=
  mkCallback (cb_ID c) (cb_ScenarioID c) (cb_EventID c) (cb_EventSequence c) "dead_letter" (cb_CanonicalBody c)
    (cb_BodySHA256 c) (cb_AttemptCount c) (cb_Attempts c) (cb_CreatedAt c) now (int64 (cb_Version c + 1)).

(** The callbacks of a scenario, the latest event first. *)
Definition scenarioCallbacksLocked (r : MemoryRepository) (scenarioID : string) : list Callback :=
  sort_by (fun a b => cb_EventSequence a >? cb_EventSequence b)
    (List.filter (fun c => cb_ScenarioID c == scenarioID) (snd <$> map_to_list (sb_callbacks r))).

Definition open_callback (c : Callback) : bool := (cb_Status c == "pending") || (cb_Status c == "retry").

Definition callbackForActionLocked (r : MemoryRepository) (s : Scenario) (action : Action) : result fault Callback :=
  if ac_CallbackID action != "" then
    match sb_callbacks r !! ac_CallbackID action with
    | Some c => if cb_ScenarioID c == sn_ID s then Ok c else Err (Failed (Sentinel ErrNotFound))
    | None => Err (Failed (Sentinel ErrNotFound))
    end
  else
    let items := scenarioCallbacksLocked r (sn_ID s) in
    match items with
    | [] => Err (Failed (Sentinel ErrNotFound))
    | first :: _ =>
        if (sn_Kind s == ScenarioDuplicateCallback) && (ac_Type action == ActionCallbackDeliver) then Ok first
        else if ac_Type action == ActionCallbackOutOfOrder then
          match List.find open_callback items with Some c => Ok c | None => Err (Failed (Sentinel ErrStateConflict)) end
        else match List.find open_callback items with Some c => Ok c | None => Ok first end
    end.

Definition callbackForRecoveryLocked (r : MemoryRepository) (s : Scenario) : result fault Callback :=
  match List.find (fun c => (cb_Status c == "retry") || (cb_Status c == "dead_letter")) (scenarioCallbacksLocked r (sn_ID s)) with
  | Some c => Ok c
  | None => Err (Failed (Sentinel ErrStateConflict))
  end.

(** ** Amounts and identifiers (service.go) *)

(** [new(big.Int).SetString(value, 10)] of an unsigned numeral. *)
Definition bigint_of (value : string) : Z := if str_forall is_digit value then dec_value 0 value else 0.

Definition fraction (value : string) (numerator denominator : Z) : string :=
  let n := bigint_of value * numerator / denominator in
  if n =? 0 then "0" else dec_string n.
Definition increment (value : string) : string := dec_string (bigint_of value + 1).
Definition decrement (value : string) : string :=
  let n := bigint_of value in
  if n <=? 1 then "0" else dec_string (n - 1).

Definition plain_action (type : string) : Action := mkAction type "" "" 0 "" 0 "" "" 0 0.
Definition observe_action (amount asset : string) : Action := mkAction ActionObserve amount asset 0 "" 0 "" "" 0 0.
Definition reorg_action : Action := mkAction ActionReorg "" "" 0 "" 0 "" "" 21 0.

Definition templateActions (s : Scenario) : list Action :=
  let expected := sr_ExpectedAmountAtomic (sn_Route s) in
  let asset := sr_AssetID (sn_Route s) in
  let baseObserve := observe_action expected asset in
  let confirm := mkAction ActionConfirm "" "" (sr_RequiredConfirmations (sn_Route s)) "" 0 "" "" 0 0 in
  let finalize := plain_action ActionFinalize in
  let kind := sn_Kind s in
  if kind == ScenarioPartial then [observe_action (fraction expected 1 2) asset]
  else if kind == ScenarioUnder then [observe_action (decrement expected) asset; confirm; finalize]
  else if kind == ScenarioOver then [observe_action (increment expected) asset; confirm; finalize]
  else if kind == ScenarioLate then [baseObserve]
  else if kind == ScenarioWrongAsset then [observe_action expected (asset +:+ "-wrong")]
  else if kind == ScenarioDuplicateCallback then
    [baseObserve; confirm; finalize; plain_action ActionCallbackDeliver; plain_action ActionCallbackDeliver]
  else if kind == ScenarioOutOfOrder then
    [baseObserve; confirm; finalize; plain_action ActionCallbackOutOfOrder; plain_action ActionCallbackOutOfOrder]
  else if kind == ScenarioTimeout then
    [baseObserve; confirm; finalize; mkAction ActionCallbackTimeout "" "" 0 "" 0 "" "fixture timeout" 0 0;
     plain_action ActionRecover]
  else if kind == ScenarioDeadLetter then
    [baseObserve; confirm; finalize; mkAction ActionCallbackFail "" "" 0 "" 503 "fixture unavailable" "" 0 0;
     plain_action ActionDeadLetter]
  else if kind == ScenarioReorg then [baseObserve; confirm; finalize; reorg_action]
  else if kind == ScenarioReorgRecovery then
    [baseObserve; confirm; finalize; reorg_action; plain_action ActionRecover; confirm; finalize]
  else [baseObserve; confirm; finalize; mkAction ActionCallbackDeliver "" "" 0 "" 204 "" "" 0 0].

Section repository.
(** SHA-256, [json.Marshal] of a payload and of a webhook event, and the RFC 3339
    form of a time. *)
Context (sha256 : string -> string) (encode_json : JSON -> string) (marshal_event : Event -> result string string)
        (format_time : Time -> string) (time_parses : string -> bool).

Definition deterministicID (parts : list string) : string :=
  match list_ascii_of_string (sha256 (Join parts US)) with
  | b0 :: b1 :: b2 :: b3 :: b4 :: b5 :: b6 :: b7 :: b8 :: b9 :: b10 :: b11 :: b12 :: b13 :: b14 :: b15 :: _ =>
      uuid_text [b0; b1; b2; b3; b4; b5; chr (Z.lor (Z.land (code b6) 15) 80); b7;
                 chr (Z.lor (Z.land (code b8) 63) 128); b9; b10; b11; b12; b13; b14; b15]
  | _ => ""
  end.

Definition workspaceLocked (r : MemoryRepository) (p : Principal) : MemoryRepository * Workspace :=
  let key := merchantScope p in
  match sb_workspaces r !! key with
  | Some existing => (r, existing)
  | None =>
      let suffix := hex_encode (str_take 20 (sha256 key)) in
      let scopes := fst <$> List.filter snd (map_to_list (p_Scopes p)) in
      let workspace := mkWorkspace "sandbox" (p_MerchantID p) DefaultClock 1
        (mkTestCredential (p_KeyID p) "test" scopes "[REDACTED]" "configured")
        [mkTestAddress (deterministicID [key; "address"; "tron"]) "tron:testnet" "usdt-tron-test"
           ("TTest" +:+ str_take 29 suffix) "";
         mkTestAddress (deterministicID [key; "address"; "evm"]) "eip155:11155111" "usdc-sepolia-test" ("0x" +:+ suffix) ""]
        "" in
      (set_workspace r key workspace, workspace)
  end.

(** *** Events *)

Definition must_parse (text : string) : result fault Amount :=
  match Parse text with Ok a => Ok a | Err e => Err (Panicked e) end.

Definition evidence_asset (s : Scenario) : string :=
  if sn_ObservedAssetID s == "" then sr_AssetID (sn_Route s) else sn_ObservedAssetID s.

Definition sandbox_finality (s : Scenario) (type : string) : string :=
  if (type == "payment.confirming") && (sn_Confirmations s >=? sr_RequiredConfirmations (sn_Route s)) then "confirmed"
  else if type == "payment.reorged" then "reorged" else "observed".

Definition attachSandboxLifecycleEvidence (p : Principal) (s : Scenario) (event : SandboxEvent)
    : result fault (option EventSettlement * option EventObservation) :=
  let route := sn_Route s in
  let assetID := evidence_asset s in
  let transactionDigest := sha256 (Join [p_TenantID p; p_MerchantID p; sn_ID s; "sandbox-transfer"] US) in
  let blockDigest := sha256 (Join [sn_ID s; "sandbox-block"] US) in
  let evidenceDigest := sha256 (Join [sn_ID s; sr_ID route; assetID; sn_ObservedAmount s; "sandbox-evidence-v1"] US) in
  let transactionHash := "0x" +:+ hex_encode transactionDigest in
  let type := sv_Type event in
  if (type == "payment.observed") || (type == "payment.confirming") || (type == "payment.reorged") then
    amount ← must_parse (sn_ObservedAmount s);
    Ok (None, Some (mkEventObservation
      (deterministicID [p_TenantID p; p_MerchantID p; sn_ID s; "observation"]) (sr_ID route) (sr_ChainID route) assetID
      transactionHash "sandbox:0" ("sandbox-sender-" +:+ hex_encode (str_take 8 transactionDigest)) (sr_Address route) amount
      (sr_AssetDecimals route) "1000000" ("0x" +:+ hex_encode blockDigest) (sv_OccurredAt event) (sn_Confirmations s)
      (sr_RequiredConfirmations route) (sandbox_finality s type) (hex_encode evidenceDigest)))
  else if type == "payment.settled" then
    expected ← must_parse (sr_ExpectedAmountAtomic route);
    received ← must_parse (sn_ObservedAmount s);
    Ok (Some (mkEventSettlement
      (deterministicID [p_TenantID p; p_MerchantID p; sn_ID s; "settlement"; FormatInt (sv_Sequence event)]) assetID
      (sr_ChainID route) expected received expected transactionHash "sandbox:0" "1000000" (sv_OccurredAt event) "" "" "" ""
      "finalized" false 0 (hex_encode evidenceDigest) None []), None)
  else Ok (None, None).

(** A new event and its pending callback; the event carries the clock of the
    stored workspace. *)
Definition emitLocked (r : MemoryRepository) (p : Principal) (s : Scenario) (type : string) (payload : list (string * JSON))
    : result fault (MemoryRepository * Scenario) :=
  let sequence := int64 (sn_LastEventSequence s + 1) in
  let eventID := deterministicID [p_TenantID p; p_MerchantID p; sn_ID s; "event"; FormatInt sequence; type] in
  let at_ := match sb_workspaces r !! merchantScope p with Some w => ws_Clock w | None => sn_UpdatedAt s end in
  let event := mkSandboxEvent eventID sequence type at_ (encode_json (JObject payload)) in
  let s := push_event s event in
  amount ← must_parse (si_AmountMinor (sn_Intent s));
  evidence ← attachSandboxLifecycleEvidence p s event;
  let publicEvent := mkEvent eventID type "1" sequence at_ (p_MerchantID p) false
    (mkSnapshot (si_ID (sn_Intent s)) (sn_MerchantOrderID s) (si_Status (sn_Intent s)) amount (si_Currency (sn_Intent s)))
    (fst evidence) (snd evidence) None in
  match CanonicalBody marshal_event publicEvent with
  | Err e => Err (Panicked e)
  | Ok canonical =>
      let callbackID := deterministicID [p_TenantID p; p_MerchantID p; sn_ID s; "callback"; FormatInt sequence] in
      let callback := mkCallback callbackID (sn_ID s) eventID sequence "pending" canonical (hex_encode (sha256 canonical)) 0 []
                        at_ at_ 1 in
      Ok (set_callbacks r (<[callbackID := callback]> (sb_callbacks r)), s)
  end.

Definition appendAuditEventLocked (p : Principal) (s : Scenario) (now : Time) (type : string) (payload : list (string * JSON))
    : Scenario :=
  let sequence := int64 (sn_LastEventSequence s + 1) in
  push_event s (mkSandboxEvent
    (deterministicID [p_TenantID p; p_MerchantID p; sn_ID s; "audit"; FormatInt sequence; type]) sequence type now
    (encode_json (JObject payload))).

(** *** Actions *)

(** The repository, the workspace and the scenario after an action. Every error
    precedes the first write, so an error leaves the three as they were. *)
Definition progress : Type := MemoryRepository * Workspace * Scenario.

Definition state_conflict {A} : result fault A := Err (Failed (Sentinel ErrStateConflict)).

Definition emitting (r : MemoryRepository) (p : Principal) (w : Workspace) (s : Scenario) (type : string)
    (payload : list (string * JSON)) : result fault progress :=
  out ← emitLocked r p s type payload;
  Ok (fst out, w, snd out).

Definition with_text (text default : string) : string := if text == "" then default else text.

Definition observe (r : MemoryRepository) (p : Principal) (w : Workspace) (s : Scenario) (action : Action)
    : result fault progress :=
  let status := si_Status (sn_Intent s) in
  if (status != "pending") && (status != "partially_paid") then state_conflict
  else
    let amount := with_text (ac_AmountAtomic action) (sr_ExpectedAmountAtomic (sn_Route s)) in
    let assetID := with_text (ac_AssetID action) (sr_AssetID (sn_Route s)) in
    let s := set_observed s amount assetID in
    if sn_Kind s == ScenarioLate then
      let clock := AddTime (si_ExpiresAt (sn_Intent s)) Second in
      let s := set_intent (set_updated s clock) (with_status (sn_Intent s) "needs_review" "sandbox_late_payment") in
      emitting r p (with_clock w clock) s "payment.needs_review"
        [("amount_atomic", JString amount); ("reason", JString "late_payment")]
    else if assetID != sr_AssetID (sn_Route s) then
      emitting r p w (set_intent s (with_status (sn_Intent s) "needs_review" "sandbox_wrong_asset"))
        "payment.needs_review" [("asset_id", JString assetID); ("reason", JString "wrong_asset")]
    else
      expected ← must_parse (sr_ExpectedAmountAtomic (sn_Route s));
      observed ← must_parse amount;
      if Cmp observed expected <? 0 then
        emitting r p w (set_intent s (with_status (sn_Intent s) "partially_paid" "sandbox_underpayment"))
          "payment.partially_paid" [("amount_atomic", JString amount)]
      else
        emitting r p w (set_intent s (with_status (sn_Intent s) "observed" "sandbox_transfer_observed"))
          "payment.observed" [("amount_atomic", JString amount); ("asset_id", JString assetID)].

Definition confirm (r : MemoryRepository) (p : Principal) (w : Workspace) (s : Scenario) (action : Action)
    : result fault progress :=
  let status := si_Status (sn_Intent s) in
  let required := sr_RequiredConfirmations (sn_Route s) in
  if (status != "observed") && (status != "partially_paid") then state_conflict
  else
    let confirmations := if ac_Confirmations action =? 0 then required else ac_Confirmations action in
    if confirmations <? sn_Confirmations s then Err (Failed (Wrapped ErrStateConflict "confirmations cannot decrease"))
    else
      let s := set_chain s confirmations (sn_Finalized s) in
      let s := if (status == "observed") && (confirmations >=? required)
               then set_intent s (with_status (sn_Intent s) "confirmed" "sandbox_required_confirmations") else s in
      emitting r p w s "payment.confirming"
        [("confirmations", JNumber (FormatInt confirmations)); ("required", JNumber (FormatInt required))].

Definition finalize (r : MemoryRepository) (p : Principal) (w : Workspace) (s : Scenario) : result fault progress :=
  let status := si_Status (sn_Intent s) in
  let enough := negb (sn_Confirmations s <? sr_RequiredConfirmations (sn_Route s)) in
  if status == "partially_paid" then
    if negb enough then state_conflict
    else emitting r p w (set_chain s (sn_Confirmations s) true) "payment.partially_paid"
           [("amount_atomic", JString (sn_ObservedAmount s)); ("finalized", JBool true)]
  else if (status != "confirmed") || negb enough then state_conflict
  else
    let s := set_chain s (sn_Confirmations s) true in
    expected ← must_parse (sr_ExpectedAmountAtomic (sn_Route s));
    observed ← must_parse (sn_ObservedAmount s);
    out ← (if Cmp observed expected >? 0 then
             emitting r p w (set_intent s (with_status (sn_Intent s) "overpaid" "sandbox_overpayment"))
               "payment.overpaid" [("amount_atomic", JString (sn_ObservedAmount s))]
           else
             emitting r p w (set_intent s (with_status (sn_Intent s) "settled" "sandbox_finalized"))
               "payment.settled" [("amount_atomic", JString (sn_ObservedAmount s))]);
    let '(r, w, s) := out in
    let s := set_intent s (with_settled (sn_Intent s) (Some (ws_Clock w))) in
    Ok (r, w, set_sroute s (next_route (sn_Route s) "settled")).

Definition attempt_of (w : Workspace) (action : Action) (c : Callback) : result fault Callback :=
  let type := ac_Type action in
  let body := len (ac_ResponseBody action) in
  if (type == ActionCallbackDeliver) || (type == ActionCallbackOutOfOrder) then
    Ok (attemptLocked c "delivered" (if ac_HTTPStatus action =? 0 then 204 else ac_HTTPStatus action) "" body (ws_Clock w)
          "acknowledged")
  else if type == ActionCallbackFail then
    let status := if ac_HTTPStatus action =? 0 then 503 else ac_HTTPStatus action in
    Ok (attemptLocked c "failed" status (httpCategory status) body (ws_Clock w) "retry")
  else if type == ActionCallbackTimeout then Ok (attemptLocked c "timeout" 0 "timeout" 0 (ws_Clock w) "retry")
  else if negb (open_callback c) then state_conflict else Ok (dead_lettered c (ws_Clock w)).

Definition callback_action (r : MemoryRepository) (p : Principal) (w : Workspace) (s : Scenario) (action : Action)
    : result fault progress :=
  c ← callbackForActionLocked r s action;
  c ← attempt_of w action c;
  Ok (set_callbacks r (<[cb_ID c := c]> (sb_callbacks r)), w,
      appendAuditEventLocked p s (ws_Clock w) "sandbox.callback.attempted"
        [("attempt_count", JNumber (FormatInt (cb_AttemptCount c))); ("callback_id", JString (cb_ID c));
         ("status", JString (cb_Status c)); ("target_event_sequence", JNumber (FormatInt (cb_EventSequence c)))]).

(** Back on an active route without a settlement. *)
Definition reopened (s : Scenario) (status reason : string) : Scenario :=
  let s := set_chain (set_intent s (with_settled (with_status (sn_Intent s) status reason) None)) 0 false in
  set_sroute s (next_route (sn_Route s) "active").

Definition reorg (r : MemoryRepository) (p : Principal) (w : Workspace) (s : Scenario) (action : Action)
    : result fault progress :=
  let status := si_Status (sn_Intent s) in
  if negb (sn_Finalized s) || (status != "settled") && (status != "overpaid") then state_conflict
  else emitting r p w (reopened s "reorg_review" "sandbox_reorg") "payment.reorged"
         [("depth", JNumber (FormatInt (ac_ReorgDepth action)))].

Definition recover (r : MemoryRepository) (p : Principal) (w : Workspace) (s : Scenario) : result fault progress :=
  if si_Status (sn_Intent s) == "reorg_review" then
    emitting r p w (reopened s "observed" "sandbox_reincluded") "payment.observed"
      [("confirmations", JNumber "0"); ("reincluded", JBool true)]
  else
    c ← callbackForRecoveryLocked r s;
    let c := attemptLocked c "delivered" 204 "" 0 (ws_Clock w) "acknowledged" in
    Ok (set_callbacks r (<[cb_ID c := c]> (sb_callbacks r)), w, s).

Definition applyActionLocked (r : MemoryRepository) (p : Principal) (w : Workspace) (s : Scenario) (action : Action)
    : result fault progress :=
  let type := ac_Type action in
  if type == ActionObserve then observe r p w s action
  else if type == ActionConfirm then confirm r p w s action
  else if type == ActionFinalize then finalize r p w s
  else if existsb_str type [ActionCallbackDeliver; ActionCallbackOutOfOrder; ActionCallbackFail; ActionCallbackTimeout;
                            ActionDeadLetter]
  then callback_action r p w s action
  else if type == ActionReorg then reorg r p w s action
  else if type == ActionRecover then recover r p w s
  else Err (Failed (Wrapped ErrValidation "unsupported sandbox action")).

(** One action as both mutations wrap it: the update time before, the versions
    and the update time after. *)
Definition advance_action (r : MemoryRepository) (p : Principal) (w : Workspace) (s : Scenario) (action : Action)
    : result fault progress :=
  out ← applyActionLocked r p w (set_updated s (ws_Clock w)) action;
  let '(r, w, s) := out in
  Ok (r, next_workspace w, set_updated (next_scenario s) (ws_Clock w)).

(** *** Operations *)

Definition Workspace_get (r : MemoryRepository) (p : Principal) : MemoryRepository * result fault Workspace :=
  match validatePrincipal r p with
  | Some e => (r, Err e)
  | None => let '(r, w) := workspaceLocked r p in (r, Ok w)
  end.

Definition pick_address (addresses : list TestAddress) (chain asset : string) : option TestAddress :=
  match List.find (fun a => (ta_ChainID a == chain) && (ta_AssetID a == asset)) addresses with
  | Some a => Some a
  | None => head addresses
  end.

Definition order_taken (r : MemoryRepository) (p : Principal) (order : string) : bool :=
  existsb (fun e => sameMerchant p (snd e) && (sn_MerchantOrderID (snd e) == order)) (map_to_list (sb_scenarios r)).

Definition new_scenario (p : Principal) (key : string) (cmd : CreateScenarioCmd) (address : TestAddress) (now : Time) : Scenario :=
  let id kind := deterministicID [p_TenantID p; p_MerchantID p; kind; key] in
  let intentID := id "sandbox-intent" in
  let expires := AddTime now (30 * Minute) in
  mkScenario (id "scenario") (p_TenantID p) (p_MerchantID p) (cs_Kind cmd) (cs_MerchantOrderID cmd)
    (mkSandboxIntent intentID (cs_AmountMinor cmd) (cs_Currency cmd) (cs_CurrencyScale cmd) "pending" "sandbox_route_active"
       expires None 1)
    (mkSandboxRoute (id "sandbox-route") intentID (cs_ChainID cmd) (cs_AssetID cmd) (cs_ExpectedAmountAtomic cmd)
       (cs_AssetDecimals cmd) (ta_Address address) (ta_Memo address) (cs_RequiredConfirmations cmd) "active" expires 1)
    "0" "" 0 false 0 1 now now [].

Definition CreateScenario (r : MemoryRepository) (p : Principal) (cmd : CreateScenarioCmd) (key requestHash : string)
    : MemoryRepository * result fault (Scenario * bool) :=
  match validatePrincipal r p with
  | Some e => (r, Err e)
  | None =>
      let replayKey := scoped p "scenario:create" key in
      match replayScenario r replayKey requestHash with
      | Err e => (r, Err e)
      | Ok (Some s) => (r, Ok (s, true))
      | Ok None =>
          if order_taken r p (cs_MerchantOrderID cmd)
          then (r, Err (Failed (Wrapped ErrStateConflict "sandbox merchant_order_id already exists")))
          else
            let '(r, w) := workspaceLocked r p in
            match pick_address (ws_Addresses w) (cs_ChainID cmd) (cs_AssetID cmd) with
            | None => (r, Err (Panicked "index out of range"))
            | Some address =>
                let s := new_scenario p key cmd address (ws_Clock w) in
                match emitLocked r p s "payment.intent.created" [("status", JString (si_Status (sn_Intent s)))] with
                | Err e => (r, Err e)
                | Ok (r, s) =>
                    match emitLocked r p s "payment.route.created" [("route_id", JString (sr_ID (sn_Route s)))] with
                    | Err e => (r, Err e)
                    | Ok (r, s) =>
                        let r := commit_scenario r (merchantScope p) replayKey requestHash (next_workspace w) s in
                        (index_intent r (merchantScope p +:+ US +:+ si_ID (sn_Intent s)) (sn_ID s), Ok (clone s, false))
                    end
                end
            end
      end
  end.

Definition GetScenario (r : MemoryRepository) (p : Principal) (id : string) : result fault Scenario :=
  match validatePrincipal r p with
  | Some e => Err e
  | None =>
      match sb_scenarios r !! id with
      | Some s => if sameMerchant p s then Ok (clone s) else Err (Failed (Sentinel ErrNotFound))
      | None => Err (Failed (Sentinel ErrNotFound))
      end
  end.

Definition zero_scenario : Scenario :=
  mkScenario "" "" "" "" "" (mkSandboxIntent "" "" "" 0 "" "" 0 None 0) (mkSandboxRoute "" "" "" "" "" 0 "" "" 0 "" 0 0)
    "" "" 0 false 0 0 0 0 [].

Definition FindScenarioByIntent (r : MemoryRepository) (p : Principal) (intentID : string) : result fault Scenario :=
  match validatePrincipal r p with
  | Some e => Err e
  | None =>
      match sb_intentIndex r !! (merchantScope p +:+ US +:+ intentID) with
      | Some id => Ok (clone (default zero_scenario (sb_scenarios r !! id)))
      | None => Err (Failed (Sentinel ErrNotFound))
      end
  end.

(** A lookup, as [ApplyAction] and [RunScenario] start. *)
Definition own_scenario (r : MemoryRepository) (p : Principal) (id : string) : result fault Scenario :=
  match sb_scenarios r !! id with
  | Some s => if sameMerchant p s then Ok s else Err (Failed (Sentinel ErrNotFound))
  | None => Err (Failed (Sentinel ErrNotFound))
  end.

Definition ApplyAction (r : MemoryRepository) (p : Principal) (scenarioID : string) (action : Action) (key requestHash : string)
    : MemoryRepository * result fault (Scenario * bool) :=
  match validatePrincipal r p with
  | Some e => (r, Err e)
  | None =>
      let replayKey := scoped p "scenario:action" key in
      match replayScenario r replayKey requestHash with
      | Err e => (r, Err e)
      | Ok (Some s) => (r, Ok (s, true))
      | Ok None =>
          match own_scenario r p scenarioID with
          | Err e => (r, Err e)
          | Ok s =>
              if negb (sn_Version s =? ac_ExpectedVersion action) then (r, Err (Failed (Sentinel ErrVersionConflict)))
              else
                let '(r, w) := workspaceLocked r p in
                match advance_action r p w s action with
                | Err e => (r, Err e)
                | Ok (r, w, s) => (commit_scenario r (merchantScope p) replayKey requestHash w s, Ok (clone s, false))
                end
          end
      end
  end.

(** The actions of a run; what an earlier action wrote stays written when a
    later one fails. *)
Fixpoint run_actions (r : MemoryRepository) (p : Principal) (w : Workspace) (s : Scenario) (actions : list Action)
    : MemoryRepository * result fault (Workspace * Scenario) :=
  match actions with
  | [] => (r, Ok (w, s))
  | action :: rest =>
      match advance_action r p w s action with
      | Err e => (r, Err e)
      | Ok (r, w, s) => run_actions r p w s rest
      end
  end.

Definition RunScenario (r : MemoryRepository) (p : Principal) (scenarioID key requestHash : string)
    : MemoryRepository * result fault (Scenario * bool) :=
  match validatePrincipal r p with
  | Some e => (r, Err e)
  | None =>
      let replayKey := scoped p "scenario:run" key in
      match replayScenario r replayKey requestHash with
      | Err e => (r, Err e)
      | Ok (Some s) => (r, Ok (s, true))
      | Ok None =>
          match own_scenario r p scenarioID with
          | Err e => (r, Err e)
          | Ok s =>
              let '(r, w) := workspaceLocked r p in
              match run_actions r p w s (templateActions s) with
              | (r, Err e) => (r, Err e)
              | (r, Ok (w, s)) => (commit_scenario r (merchantScope p) replayKey requestHash w s, Ok (clone s, false))
              end
          end
      end
  end.

(** *** Pages *)

Definition cursorFor (createdAt id : string) : string := b64_encode (createdAt +:+ US +:+ id).

Definition decodeCursor (cursor : string) : option (string * string) :=
  match b64_decode cursor with
  | None => None
  | Some decoded =>
      if len decoded >? 256 then None
      else match Split decoded unit_sep with
           | [created; id] => if time_parses created && ValidID id then Some (created, id) else None
           | _ => None
           end
  end.

Fixpoint after_item {A} (at_ : A -> bool) (items : list A) : list A :=
  match items with [] => [] | x :: r => if at_ x then r else after_item at_ r end.

(** [afterScenarioCursor] and [afterCallbackCursor]: nothing when the cursor names no item. *)
Definition after_cursor {A} (id : A -> string) (created : A -> Time) (items : list A) (after : string) : list A :=
  if after == "" then items
  else
    let '(at_, key) := default ("", "") (decodeCursor after) in
    after_item (fun x => (id x == key) && (format_time (created x) == at_)) items.

Definition newest_first {A} (id : A -> string) (created : A -> Time) (a b : A) : bool :=
  if created a =? created b then str_less (id b) (id a) else After (created a) (created b).

Definition page_of {A} (id : A -> string) (created : A -> Time) (items : list A) (after : string) (limit : Z)
    : list A * string :=
  let items := after_cursor id created (sort_by (newest_first id created) items) after in
  if Z.of_nat (length items) >? limit then
    let shown := take (Z.to_nat limit) items in
    (shown, match last shown with Some x => cursorFor (format_time (created x)) (id x) | None => "" end)
  else (items, "").

Definition ListScenarios (r : MemoryRepository) (p : Principal) (after : string) (limit : Z)
    : result fault (list Scenario * string) :=
  match validatePrincipal r p with
  | Some e => Err e
  | None =>
      Ok (page_of sn_ID sn_CreatedAt (clone <$> List.filter (sameMerchant p) (snd <$> map_to_list (sb_scenarios r))) after limit)
  end.

Definition ListCallbacks (r : MemoryRepository) (p : Principal) (scenarioID after : string) (limit : Z)
    : result fault (list Callback * string) :=
  match validatePrincipal r p with
  | Some e => Err e
  | None =>
      let visible c := match sb_scenarios r !! cb_ScenarioID c with
                       | Some s => sameMerchant p s && ((scenarioID == "") || (scenarioID == cb_ScenarioID c))
                       | None => false
                       end in
      Ok (page_of cb_ID cb_CreatedAt (List.filter visible (snd <$> map_to_list (sb_callbacks r))) after limit)
  end.

(** *** The clock and the reset *)

Definition AdvanceClock (r : MemoryRepository) (p : Principal) (seconds expectedVersion : Z) (key requestHash : string)
    : MemoryRepository * result fault (Workspace * bool) :=
  match validatePrincipal r p with
  | Some e => (r, Err e)
  | None =>
      let replayKey := scoped p "clock:advance" key in
      match sb_replays r !! replayKey with
      | Some old =>
          (r, if mr_hash old != requestHash then Err (Failed (Sentinel ErrIdempotencyConflict))
              else match mr_value old with ReplayWorkspace w => Ok (w, true) | _ => Err (Panicked "interface conversion") end)
      | None =>
          let '(r, w) := workspaceLocked r p in
          if negb (ws_Version w =? expectedVersion) then (r, Err (Failed (Sentinel ErrVersionConflict)))
          else
            let w := next_workspace (with_clock w (AddTime (ws_Clock w) (int64 (seconds * Second)))) in
            (mkMemoryRepository (<[merchantScope p := w]> (sb_workspaces r)) (sb_scenarios r) (sb_intentIndex r) (sb_callbacks r)
               (<[replayKey := mkReplay requestHash (ReplayWorkspace w)]> (sb_replays r)) (sb_trustedTestPrincipal r),
             Ok (w, false))
      end
  end.

Definition Reset (r : MemoryRepository) (p : Principal) (expectedVersion : Z) (key requestHash : string)
    : MemoryRepository * result fault (ResetResult * bool) :=
  match validatePrincipal r p with
  | Some e => (r, Err e)
  | None =>
      let replayKey := scoped p "workspace:reset" key in
      match sb_replays r !! replayKey with
      | Some old =>
          (r, if mr_hash old != requestHash then Err (Failed (Sentinel ErrIdempotencyConflict))
              else match mr_value old with ReplayReset x => Ok (x, true) | _ => Err (Panicked "interface conversion") end)
      | None =>
          let '(r, w) := workspaceLocked r p in
          if negb (ws_Version w =? expectedVersion) then (r, Err (Failed (Sentinel ErrVersionConflict)))
          else
            let mine e := sameMerchant p (snd e) in
            let deleted := List.filter mine (map_to_list (sb_scenarios r)) in
            let gone (c : Callback) := existsb_str (cb_ScenarioID c) (fst <$> deleted) in
            let w := next_workspace (with_clock w DefaultClock) in
            let kept : gmap string Callback := filter (fun e => gone (snd e) = false) (sb_callbacks r) in
            let result := mkResetResult (Z.of_nat (length deleted))
              (Z.of_nat (length (List.filter (fun e => gone (snd e)) (map_to_list (sb_callbacks r)))))
              (ws_Version w) (ws_Clock w) in
            (mkMemoryRepository (<[merchantScope p := w]> (sb_workspaces r))
               (filter (fun e => sameMerchant p (snd e) = false) (sb_scenarios r))
               (foldr (fun e m => delete (merchantScope p +:+ US +:+ si_ID (sn_Intent (snd e))) m) (sb_intentIndex r) deleted)
               kept
               (<[replayKey := mkReplay requestHash (ReplayReset result)]>
                  (filter (fun e => HasPrefix (fst e) (merchantScope p +:+ US) && (fst e != replayKey) = false) (sb_replays r)))
               (sb_trustedTestPrincipal r),
             Ok (result, false))
      end
  end.
End repository.

(** ** The service (service.go) over its repository (repository.go) *)

Class SandboxRepository (R : Type) := {
  repo_Workspace : R -> Principal -> R * result fault Workspace;
  repo_CreateScenario : R -> Principal -> CreateScenarioCmd -> string -> string -> R * result fault (Scenario * bool);
  repo_GetScenario : R -> Principal -> string -> result fault Scenario;
  repo_FindScenarioByIntent : R -> Principal -> string -> result fault Scenario;
  repo_ListScenarios : R -> Principal -> string -> Z -> result fault (list Scenario * string);
  repo_ApplyAction : R -> Principal -> string -> Action -> string -> string -> R * result fault (Scenario * bool);
  repo_RunScenario : R -> Principal -> string -> string -> string -> R * result fault (Scenario * bool);
  repo_ListCallbacks : R -> Principal -> string -> string -> Z -> result fault (list Callback * string);
  repo_AdvanceClock : R -> Principal -> Z -> Z -> string -> string -> R * result fault (Workspace * bool);
  repo_Reset : R -> Principal -> Z -> string -> string -> string -> R * result fault (ResetResult * bool) }.

(** What [digest] hashes. *)
Inductive hashed_request :=
| HashScenario (cmd : CreateScenarioCmd)
| HashAction (scenarioID : string) (action : Action)
| HashRun (scenarioID : string)
| HashClock (seconds expectedVersion : Z)
| HashReset (expectedVersion : Z) (confirmation : string).

Definition validation (msg : string) : fault := Failed (Wrapped ErrValidation msg).

Definition requirePrincipal (p : Principal) (scope : string) : option fault :=
  if (p_TenantID p == "") || (p_MerchantID p == "") || negb (HasPrefix (p_KeyID p) "mk_test_")
  then Some (Failed (Plain "forbidden: a test-only merchant credential is required"))
  else if negb (Allows p scope) then Some (Failed (Plain ("forbidden: " +:+ scope +:+ " scope is required")))
  else None.

Definition validateKey (key : string) : option fault :=
  if (len key <? 8) || (len key >? 255) then Some (validation "idempotency key length must be 8..255") else None.

Definition validScenario (kind : string) : bool :=
  existsb_str kind [ScenarioExact; ScenarioPartial; ScenarioUnder; ScenarioOver; ScenarioLate; ScenarioWrongAsset;
    ScenarioDuplicateCallback; ScenarioOutOfOrder; ScenarioTimeout; ScenarioDeadLetter; ScenarioReorg; ScenarioReorgRecovery].
Definition validAction (kind : string) : bool :=
  existsb_str kind [ActionObserve; ActionConfirm; ActionFinalize; ActionCallbackDeliver; ActionCallbackOutOfOrder;
    ActionCallbackFail; ActionCallbackTimeout; ActionDeadLetter; ActionReorg; ActionRecover].

(** [^[A-Za-z0-9][A-Za-z0-9._:-]*$] *)
Definition name_byte (c : ascii) : bool :=
  is_digit c || (65 <=? code c) && (code c <=? 90) || (97 <=? code c) && (code c <=? 122).
Definition safeName (s : string) : bool :=
  match s with
  | String c r => name_byte c && str_forall (fun d => name_byte d || existsb (Z.eqb (code d)) [46; 95; 58; 45]) r
  | EmptyString => false
  end.

Definition positive_amount (s : string) : bool := match Parse s with Ok a => negb (IsZero a) | Err _ => false end.
Definition parses (s : string) : bool := match Parse s with Ok _ => true | Err _ => false end.

(** The command with its defaults. *)
Definition scenario_defaults (c : CreateScenarioCmd) : CreateScenarioCmd :=
  mkCreateScenario (cs_Kind c) (cs_MerchantOrderID c) (cs_AmountMinor c) (cs_Currency c) (cs_CurrencyScale c)
    (with_text (cs_ChainID c) "tron:testnet") (with_text (cs_AssetID c) "usdt-tron-test")
    (with_text (cs_ExpectedAmountAtomic c) (cs_AmountMinor c))
    (if cs_AssetDecimals c =? 0 then 6 else cs_AssetDecimals c)
    (if cs_RequiredConfirmations c =? 0 then 20 else cs_RequiredConfirmations c).

Definition redactWorkspace (w : Workspace) (token : string) : Workspace :=
  let c := ws_Credential w in
  mkWorkspace (ws_Mode w) (ws_MerchantID w) (ws_Clock w) (ws_Version w)
    (mkTestCredential (tc_KeyID c) (tc_Environment c) (sort_by str_less (tc_Scopes c)) "[REDACTED]" "configured")
    (ws_Addresses w) token.

Section service.
Context {R : Type} `{SandboxRepository R}.
(** HMAC-SHA-256 of key and message, and [digest]. *)
Context (hmac : string -> string -> string) (digest : hashed_request -> result error string) (resetKey : string).

Definition resetToken (p : Principal) (version : Z) : string :=
  b64_encode (hmac resetKey (Join ["sandbox-reset"; p_TenantID p; p_MerchantID p; FormatInt version] (String (chr 10) ""))).

Definition Service_Workspace (r : R) (p : Principal) : R * result fault Workspace :=
  match requirePrincipal p "payments:read" with
  | Some e => (r, Err e)
  | None =>
      match repo_Workspace r p with
      | (r, Err e) => (r, Err e)
      | (r, Ok w) => (r, Ok (redactWorkspace w (resetToken p (ws_Version w))))
      end
  end.

Definition Service_CreateScenario (r : R) (p : Principal) (key : string) (cmd : CreateScenarioCmd) (requestHash : string)
    : R * result fault (Scenario * bool) :=
  match requirePrincipal p "payments:write", validateKey key with
  | Some e, _ | None, Some e => (r, Err e)
  | None, None =>
      if negb (validScenario (cs_Kind cmd)) then (r, Err (validation "unsupported sandbox scenario"))
      else if (len (cs_MerchantOrderID cmd) <? 1) || (len (cs_MerchantOrderID cmd) >? 128) || negb (safeName (cs_MerchantOrderID cmd))
      then (r, Err (validation "merchant_order_id must be a safe 1..128 character test identifier"))
      else if negb (positive_amount (cs_AmountMinor cmd))
      then (r, Err (validation "amount_minor must be a positive exact integer string"))
      else match ValidateCurrency (cs_Currency cmd) (cs_CurrencyScale cmd) with
           | Err e => (r, Err (Failed e))
           | Ok _ =>
               let cmd := scenario_defaults cmd in
               if negb (positive_amount (cs_ExpectedAmountAtomic cmd))
               then (r, Err (validation "expected_amount_atomic must be a positive exact integer string"))
               else if (cs_AssetDecimals cmd >? 77) || negb (safeName (cs_ChainID cmd)) || negb (safeName (cs_AssetID cmd))
               then (r, Err (validation "invalid test route"))
               else if cs_RequiredConfirmations cmd >? 1000000
               then (r, Err (validation "required_confirmations is too large"))
               else match (if requestHash == "" then digest (HashScenario cmd) else Ok requestHash) with
                    | Err e => (r, Err (Failed e))
                    | Ok hash => repo_CreateScenario r p cmd key hash
                    end
           end
  end.

Definition Service_GetScenario (r : R) (p : Principal) (id : string) : result fault Scenario :=
  match requirePrincipal p "payments:read" with
  | Some e => Err e
  | None => if negb (ValidID id) then Err (validation "scenario id must be a canonical UUID") else repo_GetScenario r p id
  end.

Definition Service_ListScenarios (time_parses : string -> bool) (r : R) (p : Principal) (after : string) (limit : Z)
    : result fault (list Scenario * string) :=
  match requirePrincipal p "payments:read" with
  | Some e => Err e
  | None =>
      let limit := if limit =? 0 then 50 else limit in
      if (limit <? 1) || (limit >? MaxPageSize) then Err (validation "limit must be 1..100")
      else if (after != "") && negb (match decodeCursor time_parses after with Some _ => true | None => false end)
      then Err (validation "invalid cursor")
      else repo_ListScenarios r p after limit
  end.

Definition action_refused (action : Action) : option string :=
  if negb (validAction (ac_Type action)) || (ac_ExpectedVersion action <? 1)
  then Some "valid action and expected_version are required"
  else if (ac_AmountAtomic action != "") && negb (parses (ac_AmountAtomic action))
  then Some "amount_atomic must be an exact integer string"
  else if (ac_CallbackID action != "") && negb (ValidID (ac_CallbackID action))
  then Some "callback_id must be a canonical UUID"
  else if negb (ac_HTTPStatus action =? 0) && ((ac_HTTPStatus action <? 100) || (ac_HTTPStatus action >? 599))
          || (len (ac_ResponseBody action) >? 4096) || (len (ac_ErrorText action) >? 1024)
  then Some "callback fixture exceeds its bounded limits"
  else if (ac_Confirmations action >? 1000000) || (ac_ReorgDepth action >? 1000000)
  then Some "simulated chain depth is too large"
  else if (ac_Type action == ActionReorg) && (ac_ReorgDepth action =? 0) then Some "reorg_depth must be at least 1"
  else None.

Definition Service_ApplyAction (r : R) (p : Principal) (scenarioID key : string) (action : Action) (requestHash : string)
    : R * result fault (Scenario * bool) :=
  match requirePrincipal p "payments:write" with
  | Some e => (r, Err e)
  | None =>
      if negb (ValidID scenarioID) then (r, Err (validation "scenario id must be a canonical UUID"))
      else match validateKey key, action_refused action with
           | Some e, _ => (r, Err e)
           | None, Some msg => (r, Err (validation msg))
           | None, None =>
               match (if requestHash == "" then digest (HashAction scenarioID action) else Ok requestHash) with
               | Err e => (r, Err (Failed e))
               | Ok hash => repo_ApplyAction r p scenarioID action key hash
               end
           end
  end.

(** [hash, _ := digest(...)] *)
Definition digest_or_empty (h : hashed_request) : string := match digest h with Ok hash => hash | Err _ => "" end.

Definition Service_RunScenario (r : R) (p : Principal) (scenarioID key : string) : R * result fault (Scenario * bool) :=
  match requirePrincipal p "payments:write", validateKey key with
  | Some e, _ | None, Some e => (r, Err e)
  | None, None =>
      if negb (ValidID scenarioID) then (r, Err (validation "scenario id must be a canonical UUID"))
      else repo_RunScenario r p scenarioID key (digest_or_empty (HashRun scenarioID))
  end.

Definition SimulateCompatibility (r : R) (p : Principal) (intentID expectedKind key : string) : R * result fault (Scenario * bool) :=
  match requirePrincipal p "payments:write" with
  | Some e => (r, Err e)
  | None =>
      if negb (ValidID intentID) then (r, Err (validation "sandbox payment_intent_id must be a canonical UUID"))
      else match repo_FindScenarioByIntent r p intentID with
           | Err e => (r, Err e)
           | Ok s =>
               if negb (validScenario expectedKind) || (sn_Kind s != expectedKind)
               then (r, Err (validation "scenario does not match sandbox payment intent"))
               else Service_RunScenario r p (sn_ID s) key
           end
  end.

Definition Service_ListCallbacks (time_parses : string -> bool) (r : R) (p : Principal) (scenarioID after : string) (limit : Z)
    : result fault (list Callback * string) :=
  match requirePrincipal p "payments:read" with
  | Some e => Err e
  | None =>
      if (scenarioID != "") && negb (ValidID scenarioID) then Err (validation "scenario_id must be a canonical UUID")
      else
        let limit := if limit =? 0 then 50 else limit in
        if (limit <? 1) || (limit >? MaxPageSize)
           || (after != "") && negb (match decodeCursor time_parses after with Some _ => true | None => false end)
        then Err (validation "invalid pagination")
        else repo_ListCallbacks r p scenarioID after limit
  end.

Definition Service_AdvanceClock (r : R) (p : Principal) (seconds expectedVersion : Z) (key requestHash : string)
    : R * result fault (Workspace * bool) :=
  match requirePrincipal p "payments:write", validateKey key with
  | Some e, _ | None, Some e => (r, Err e)
  | None, None =>
      if (seconds <? 1) || (seconds >? 30 * 24 * 60 * 60) || (expectedVersion <? 1)
      then (r, Err (validation "seconds must be 1..2592000 and expected_version is required"))
      else
        let hash := if requestHash == "" then digest_or_empty (HashClock seconds expectedVersion) else requestHash in
        match repo_AdvanceClock r p seconds expectedVersion key hash with
        | (r, Err e) => (r, Err e)
        | (r, Ok (w, replay)) => (r, Ok (redactWorkspace w (resetToken p (ws_Version w)), replay))
        end
  end.

Definition Service_Reset (r : R) (p : Principal) (expectedVersion : Z) (confirmation key requestHash : string)
    : R * result fault (ResetResult * bool) :=
  match requirePrincipal p "payments:write", validateKey key with
  | Some e, _ | None, Some e => (r, Err e)
  | None, None =>
      let want := default "" (b64_decode (resetToken p expectedVersion)) in
      if (expectedVersion <? 1) || match b64_decode confirmation with Some provided => provided != want | None => true end
      then (r, Err (validation "reset confirmation or workspace version is invalid"))
      else
        let hash := if requestHash == "" then digest_or_empty (HashReset expectedVersion confirmation) else requestHash in
        repo_Reset r p expectedVersion confirmation key hash
  end.
End service.

Section memory_instance.
Context (sha256 : string -> string) (encode_json : JSON -> string) (marshal_event : Event -> result string string)
        (format_time : Time -> string) (time_parses : string -> bool).

Definition memory_repository : SandboxRepository MemoryRepository := {|
  repo_Workspace := Workspace_get sha256;
  repo_CreateScenario := CreateScenario sha256 encode_json marshal_event;
  repo_GetScenario := GetScenario;
  repo_FindScenarioByIntent := FindScenarioByIntent;
  repo_ListScenarios := ListScenarios format_time time_parses;
  repo_ApplyAction := ApplyAction sha256 encode_json marshal_event;
  repo_RunScenario := RunScenario sha256 encode_json marshal_event;
  repo_ListCallbacks := ListCallbacks format_time time_parses;
  repo_AdvanceClock := AdvanceClock sha256;
  repo_Reset := fun r p v _ key hash => Reset sha256 r p v key hash |}.
End memory_instance.
