(* ===== verification/SandboxFacts.v ===== *)
(** * SandboxFacts: what the test environment guarantees

    The payment invariant of every scenario through every operation, replays,
    the reset, and the outcome of the named scenarios. *)

From Stdlib Require Import ZArith Lia Ascii String Permutation.
From stdpp Require Import base gmap list strings.
From S2P Require Import Prelude Text Money Domain Encoding Commands Numerals Outbox Webhook Sandbox.

(** ** The invariant of a scenario *)

Definition sandbox_statuses : list string :=
  ["pending"; "partially_paid"; "needs_review"; "observed"; "confirmed"; "settled"; "overpaid"; "reorg_review"].

(** The amounts of a scenario as numbers. *)
Definition amounts (s : Scenario) (observed expected : Amount) : Prop :=
  Parse (sn_ObservedAmount s) = Ok observed /\ Parse (sr_ExpectedAmountAtomic (sn_Route s)) = Ok expected.

(** The intent counts as paid: enough of the right asset was seen. *)
Definition counts_as_paid (s : Scenario) : Prop :=
  sn_ObservedAssetID s = sr_AssetID (sn_Route s) /\ exists o x, amounts s o x /\ x <= o.

Definition closed (status : string) : bool := (status == "settled") || (status == "overpaid").

Definition payment_ok (s : Scenario) : Prop :=
  let status := si_Status (sn_Intent s) in
  In status sandbox_statuses /\
  (In status ["observed"; "confirmed"; "settled"; "overpaid"; "reorg_review"] -> counts_as_paid s) /\
  (status = "confirmed" \/ closed status = true -> sr_RequiredConfirmations (sn_Route s) <= sn_Confirmations s) /\
  (closed status = true -> sn_Finalized s = true /\ sr_Status (sn_Route s) = "settled" /\ is_Some (si_SettledAt (sn_Intent s))) /\
  (closed status = false -> sr_Status (sn_Route s) = "active" /\ si_SettledAt (sn_Intent s) = None) /\
  (status = "settled" -> exists a, amounts s a a) /\
  (status = "overpaid" -> exists o x, amounts s o x /\ x < o).

(** The events are numbered in order, the last number is kept. *)
Definition events_ok (s : Scenario) : Prop :=
  sn_LastEventSequence s = int64 (Z.of_nat (length (sn_Events s))) /\
  forall i e, sn_Events s !! i = Some e -> sv_Sequence e = int64 (Z.of_nat i + 1).

Definition scenario_ok (s : Scenario) : Prop := payment_ok s /\ events_ok s.

(** What no action changes. *)
Definition same_scenario (s s' : Scenario) : Prop :=
  sn_ID s' = sn_ID s /\ sn_TenantID s' = sn_TenantID s /\ sn_MerchantID s' = sn_MerchantID s /\ sn_Kind s' = sn_Kind s /\
  sn_MerchantOrderID s' = sn_MerchantOrderID s /\ si_ID (sn_Intent s') = si_ID (sn_Intent s) /\
  si_AmountMinor (sn_Intent s') = si_AmountMinor (sn_Intent s) /\
  sr_AssetID (sn_Route s') = sr_AssetID (sn_Route s) /\
  sr_ExpectedAmountAtomic (sn_Route s') = sr_ExpectedAmountAtomic (sn_Route s) /\
  sr_RequiredConfirmations (sn_Route s') = sr_RequiredConfirmations (sn_Route s).

Lemma same_scenario_refl s : same_scenario s s.
Proof. done. Qed.
Lemma same_scenario_trans s1 s2 s3 : same_scenario s1 s2 -> same_scenario s2 s3 -> same_scenario s1 s3.
Proof. unfold same_scenario. naive_solver congruence. Qed.

Lemma int64_succ x : int64 (int64 x + 1) = int64 (x + 1).
Proof.
  unfold int64. replace ((x + 2 ^ 63) mod 2 ^ 64 - 2 ^ 63 + 1 + 2 ^ 63) with ((x + 2 ^ 63) mod 2 ^ 64 + 1) by lia.
  rewrite Zplus_mod_idemp_l. f_equal. f_equal. lia.
Qed.

Lemma push_event_ok s e : events_ok s -> sv_Sequence e = int64 (sn_LastEventSequence s + 1) -> events_ok (push_event s e).
Proof.
  intros [Hl He] Hs. rewrite Hl, int64_succ in Hs. unfold events_ok. cbn. split.
  - rewrite Hs, length_app. cbn. f_equal. lia.
  - intros i x Hi. apply lookup_app_Some in Hi as [Hi|[Hi1 Hi2]]; [by apply He|].
    apply list_lookup_singleton_Some in Hi2 as [Hi2 ->]. rewrite Hs. f_equal. lia.
Qed.

Lemma push_event_payment s e : payment_ok (push_event s e) <-> payment_ok s.
Proof. done. Qed.

Section facts.
Context (sha256 : string -> string) (encode_json : JSON -> string) (marshal_event : Event -> result string string).

Notation emit := (emitLocked sha256 encode_json marshal_event).
Notation advance := (advance_action sha256 encode_json marshal_event).
Notation apply_action := (applyActionLocked sha256 encode_json marshal_event).

(** ** Emission *)

Lemma emit_inv r p s type payload r' s' : emit r p s type payload = Ok (r', s') ->
  exists e c, s' = push_event s e /\ sv_Sequence e = int64 (sn_LastEventSequence s + 1) /\ sv_Type e = type /\
    r' = set_callbacks r (<[cb_ID c := c]> (sb_callbacks r)) /\ cb_ScenarioID c = sn_ID s /\ cb_Status c = "pending" /\
    cb_EventSequence c = sv_Sequence e.
Proof.
  unfold emitLocked. cbv zeta. intros H. destruct (must_parse _) as [amount|]; [|done]. unfold mbind, result_bind in H; cbn beta iota in H.
  destruct (attachSandboxLifecycleEvidence _ _ _ _) as [evidence|]; [|done]. unfold mbind, result_bind in H; cbn beta iota in H.
  destruct (CanonicalBody _ _) as [canonical|]; [|done]. injection H as <- <-.
  match goal with |- context [set_callbacks r (<[_ := ?c]> _)] => eexists _, c end. by repeat split.
Qed.

Lemma emitting_inv r p w s type payload r' w' s' :
  emitting sha256 encode_json marshal_event r p w s type payload = Ok (r', w', s') ->
  w' = w /\ emit r p s type payload = Ok (r', s').
Proof.
  unfold emitting. destruct (emit _ _ _ _ _) as [[r1 s1]|]; [|done]. cbn. by intros [= <- <- <-].
Qed.

(** An action writes one callback, of its own scenario. *)
Definition writes_callback (r r' : MemoryRepository) (s : Scenario) : Prop :=
  exists c, r' = set_callbacks r (<[cb_ID c := c]> (sb_callbacks r)) /\ cb_ScenarioID c = sn_ID s.

Definition action_effect (r : MemoryRepository) (s : Scenario) (r' : MemoryRepository) (s' : Scenario) : Prop :=
  scenario_ok s' /\ same_scenario s s' /\ writes_callback r r' s.

Lemma emit_effect r p s type payload r' s' :
  emit r p s type payload = Ok (r', s') -> scenario_ok s -> action_effect r s r' s'.
Proof.
  intros (e & c & -> & He & _ & -> & Hc & _)%emit_inv [Hp Hv].
  split; [split; [done|by apply push_event_ok]|]. split; [done|]. by exists c.
Qed.

(** The scenario an action emits from: the old one up to its payment fields. *)
Lemma emitting_effect r p w s s1 type payload r' w' s' :
  emitting sha256 encode_json marshal_event r p w s1 type payload = Ok (r', w', s') ->
  payment_ok s1 -> events_ok s -> same_scenario s s1 ->
  sn_LastEventSequence s1 = sn_LastEventSequence s -> sn_Events s1 = sn_Events s ->
  action_effect r s r' s'.
Proof.
  intros [_ He]%emitting_inv Hp Hv Hs Hl Hvs.
  destruct (emit_effect _ _ _ _ _ _ _ He) as (Hok & Hs' & c & -> & Hc).
  { split; [done|]. unfold events_ok. by rewrite Hl, Hvs. }
  split; [done|]. split; [by eapply same_scenario_trans|]. exists c. split; [done|]. rewrite Hc. apply Hs.
Qed.

Ltac status_cases :=
  repeat split; cbn in *; intros; repeat match goal with H : _ \/ _ |- _ => destruct H | H : False |- _ => destruct H end;
  try discriminate; try done; auto 10.

Lemma observe_effect r p w s a r' w' s' :
  observe sha256 encode_json marshal_event r p w s a = Ok (r', w', s') -> scenario_ok s -> action_effect r s r' s'.
Proof.
  intros H [Hp Hv]. unfold observe in H. cbv zeta in H. destruct (_ && _) eqn:Es in H; [done|].
  assert (Hopen : closed (si_Status (sn_Intent s)) = false).
  { apply andb_false_iff in Es. unfold closed. by destruct Es as [Es|Es]; bool_hyp; rewrite Es. }
  destruct Hp as (Hin & _ & _ & _ & Hact & _ & _). destruct (Hact Hopen) as [Hroute Hset].
  set (amount := with_text (ac_AmountAtomic a) _) in H. set (asset := with_text (ac_AssetID a) _) in H.
  destruct (sn_Kind (set_observed s amount asset) == ScenarioLate).
  { eapply emitting_effect; [exact H| |done|done|done|done]. status_cases. }
  destruct (asset != _) eqn:Ea; cbn in Ea.
  { eapply emitting_effect; [exact H| |done|done|done|done]. status_cases. }
  apply negb_false_iff, String.eqb_eq in Ea.
  unfold must_parse in H. destruct (Parse (sr_ExpectedAmountAtomic _)) as [x|] eqn:Ex; [|done].
  destruct (Parse amount) as [o|] eqn:Eo; [|done]. unfold mbind, result_bind in H. rewrite Cmp_lt in H.
  destruct (o <? x) eqn:Ecmp; (eapply emitting_effect; [exact H| |done|done|done|done]); bool_hyp; status_cases.
  all: by exists o, x.
Qed.

Lemma confirm_effect r p w s a r' w' s' :
  confirm sha256 encode_json marshal_event r p w s a = Ok (r', w', s') -> scenario_ok s -> action_effect r s r' s'.
Proof.
  intros H [Hp Hv]. unfold confirm in H. cbv zeta in H. destruct (_ && _) eqn:Es in H; [done|].
  set (n := if ac_Confirmations a =? 0 then _ else _) in H. destruct (n <? _); [done|].
  destruct Hp as (Hin & Hpaid & _ & _ & Hact & _ & _).
  apply andb_false_iff in Es. destruct Es as [Es|Es]; bool_hyp; rewrite Es in *; cbn [String.eqb Ascii.eqb Bool.eqb andb] in H.
  - destruct Hact as [Hroute Hset]; [done|]. destruct Hpaid as [Ha (o & x & Hx & Hle)]; [simpl; tauto|].
    destruct (n >=? _) eqn:En; (eapply emitting_effect; [exact H| |done|done|done|done]); bool_hyp; status_cases.
    all: try (rewrite Es in *; first [discriminate|simpl; tauto|done]). all: try (by exists o, x).
  - destruct Hact as [Hroute Hset]; [done|].
    (eapply emitting_effect; [exact H| |done|done|done|done]); status_cases; rewrite Es in *; simpl in *; intuition discriminate.
Qed.

Lemma finalize_effect r p w s r' w' s' :
  finalize sha256 encode_json marshal_event r p w s = Ok (r', w', s') -> scenario_ok s -> action_effect r s r' s'.
Proof.
  intros H [Hp Hv]. unfold finalize in H. cbv zeta in H.
  destruct Hp as (Hin & Hpaid & Hconf & _ & Hact & _ & _).
  destruct (si_Status (sn_Intent s) == "partially_paid") eqn:Es; bool_hyp.
  { destruct (negb _) in H; [done|]. rewrite Es in *. destruct Hact as [Hroute Hset]; [done|].
    (eapply emitting_effect; [exact H| |done|done|done|done]); status_cases; rewrite Es in *; simpl in *; intuition discriminate. }
  destruct (_ || _) eqn:Ec in H; [done|]. bool_hyp.
  assert (Es' : si_Status (sn_Intent s) = "confirmed") by done. rewrite Es' in *.
  destruct Hact as [Hroute Hset]; [done|]. destruct Hpaid as [Ha (o & x & [Ho Hx] & Hle)]; [simpl; tauto|].
  unfold must_parse in H. cbn [sn_Route set_chain sn_ObservedAmount] in H. rewrite Ho, Hx in H.
  unfold mbind, result_bind in H. rewrite Cmp_gt in H.
  destruct (x <? o) eqn:Ecmp; bool_hyp;
    (destruct (emitting _ _ _ _ _ _ _ _) as [[[r1 w1] s1]|] eqn:Ee; [|done]; injection H as <- <- <-;
     apply emitting_inv in Ee as [-> Ee]; apply emit_inv in Ee as (e & c & -> & He & _ & -> & Hc & _);
     split; [split|split; [done|by exists c]]); [|by apply push_event_ok| |by apply push_event_ok].
  - status_cases. all: try (by exists o, x); try lia; by eexists.
  - status_cases. all: try (by exists o, x); try lia; try by eexists. exists o. split; cbn; [done|]. rewrite Hx. f_equal. lia.
Qed.

Lemma reorg_effect r p w s a r' w' s' :
  reorg sha256 encode_json marshal_event r p w s a = Ok (r', w', s') -> scenario_ok s -> action_effect r s r' s'.
Proof.
  intros H [Hp Hv]. unfold reorg in H. cbv zeta in H. destruct (_ || _) eqn:Es in H; [done|]. bool_hyp.
  destruct Hp as (Hin & Hpaid & _). eapply emitting_effect; [exact H| |done|done|done|done]. status_cases.
  all: apply Hpaid; apply andb_false_iff in H1; destruct H1 as [E|E]; bool_hyp; rewrite E; simpl; tauto.
Qed.

Lemma attempt_of_scenario w a c c' : attempt_of w a c = Ok c' -> cb_ScenarioID c' = cb_ScenarioID c.
Proof. unfold attempt_of. intros H. repeat case_match; try done; by injection H as <-. Qed.

Lemma callbacks_of_scenario r id c : In c (scenarioCallbacksLocked r id) -> cb_ScenarioID c = id.
Proof. intros [_ H]%sort_by_In%filter_In. by apply String.eqb_eq. Qed.

Lemma callbackForAction_scenario r s a c : callbackForActionLocked r s a = Ok c -> cb_ScenarioID c = sn_ID s.
Proof.
  unfold callbackForActionLocked. cbv zeta. destruct (_ != _).
  { destruct (sb_callbacks r !! _) as [d|]; [|done]. destruct (_ == _) eqn:E; [|done]. bool_hyp. by intros [= <-]. }
  destruct (scenarioCallbacksLocked r (sn_ID s)) as [|d l] eqn:El; [done|].
  assert (Hin : forall x, In x (d :: l) -> cb_ScenarioID x = sn_ID s) by (rewrite <- El; apply callbacks_of_scenario).
  intros H. destruct (_ && _); [injection H as <-; apply Hin; by left|].
  destruct (ac_Type a == _); (destruct (List.find _ _) as [x|] eqn:Ef;
    [injection H as <-; apply List.find_some in Ef as [Ef _]; by apply Hin|]); [done|].
  injection H as <-. apply Hin. by left.
Qed.

Lemma callback_action_effect r p w s a r' w' s' :
  callback_action sha256 encode_json r p w s a = Ok (r', w', s') -> scenario_ok s -> action_effect r s r' s'.
Proof.
  unfold callback_action. destruct (callbackForActionLocked r s a) as [c|] eqn:Ec; [|done].
  unfold mbind, result_bind. destruct (attempt_of w a c) as [c'|] eqn:Ea; [|done]. intros [= <- <- <-] [Hp Hv].
  split; [split; [done|by apply push_event_ok]|]. split; [done|]. exists c'. split; [done|].
  rewrite (attempt_of_scenario _ _ _ _ Ea). by eapply callbackForAction_scenario.
Qed.

Lemma recover_effect r p w s r' w' s' :
  recover sha256 encode_json marshal_event r p w s = Ok (r', w', s') -> scenario_ok s -> action_effect r s r' s'.
Proof.
  intros H [Hp Hv]. unfold recover in H. destruct (_ == _) eqn:Es; bool_hyp.
  - destruct Hp as (Hin & Hpaid & _). rewrite Es in Hpaid.
    eapply emitting_effect; [exact H| |done|done|done|done]. status_cases. all: apply Hpaid; simpl; tauto.
  - destruct (callbackForRecoveryLocked r s) as [c|] eqn:Ec; [|done]. unfold mbind, result_bind in H.
    injection H as <- <- <-. split; [done|]. split; [done|]. exists (attemptLocked c "delivered" 204 "" 0 (ws_Clock w) "acknowledged"). split; [done|]. cbn.
    unfold callbackForRecoveryLocked in Ec. destruct (List.find _ _) as [x|] eqn:Ef; [|done]. injection Ec as <-.
    apply List.find_some in Ef as [Ef _]. by eapply callbacks_of_scenario.
Qed.

Lemma apply_action_effect r p w s a r' w' s' :
  apply_action r p w s a = Ok (r', w', s') -> scenario_ok s -> action_effect r s r' s'.
Proof.
  unfold applyActionLocked. cbv zeta. intros H.
  destruct (ac_Type a == ActionObserve); [by eapply observe_effect|].
  destruct (ac_Type a == ActionConfirm); [by eapply confirm_effect|].
  destruct (ac_Type a == ActionFinalize); [by eapply finalize_effect|].
  destruct (existsb_str _ _); [by eapply callback_action_effect|].
  destruct (ac_Type a == ActionReorg); [by eapply reorg_effect|].
  destruct (ac_Type a == ActionRecover); [by eapply recover_effect|done].
Qed.

Lemma advance_effect r p w s a r' w' s' :
  advance r p w s a = Ok (r', w', s') -> scenario_ok s -> action_effect r s r' s'.
Proof.
  unfold advance_action. destruct (apply_action _ _ _ _ _) as [[[r1 w1] s1]|] eqn:Ea; [|done].
  unfold mbind, result_bind. intros [= <- <- <-] Hok.
  by destruct (apply_action_effect _ _ _ _ _ _ _ _ Ea Hok) as (? & ? & ?).
Qed.

(** ** The repository *)

Notation create := (CreateScenario sha256 encode_json marshal_event).
Notation act := (ApplyAction sha256 encode_json marshal_event).
Notation run := (RunScenario sha256 encode_json marshal_event).

Definition repo_ok (r : MemoryRepository) : Prop :=
  map_Forall (fun id s => sn_ID s = id /\ scenario_ok s) (sb_scenarios r).

(** The mutations of the repository. *)
Inductive sandbox_op :=
| OpWorkspace
| OpCreate (cmd : CreateScenarioCmd) (key hash : string)
| OpAction (id : string) (action : Action) (key hash : string)
| OpRun (id key hash : string)
| OpClock (seconds version : Z) (key hash : string)
| OpReset (version : Z) (key hash : string).

Definition sandbox_step (r : MemoryRepository) (call : Principal * sandbox_op) : MemoryRepository :=
  let p := fst call in
  match snd call with
  | OpWorkspace => fst (Workspace_get sha256 r p)
  | OpCreate cmd key hash => fst (create r p cmd key hash)
  | OpAction id action key hash => fst (act r p id action key hash)
  | OpRun id key hash => fst (run r p id key hash)
  | OpClock seconds version key hash => fst (AdvanceClock sha256 r p seconds version key hash)
  | OpReset version key hash => fst (Reset sha256 r p version key hash)
  end.

Lemma workspaceLocked_same r p r' w : workspaceLocked sha256 r p = (r', w) ->
  sb_scenarios r' = sb_scenarios r /\ sb_callbacks r' = sb_callbacks r /\ sb_replays r' = sb_replays r /\
  sb_intentIndex r' = sb_intentIndex r /\ sb_trustedTestPrincipal r' = sb_trustedTestPrincipal r /\
  sb_workspaces r' !! merchantScope p = Some w /\
  (forall k, k <> merchantScope p -> sb_workspaces r' !! k = sb_workspaces r !! k) /\
  (forall w0, sb_workspaces r !! merchantScope p = Some w0 -> r' = r /\ w = w0).
Proof.
  unfold workspaceLocked. cbv zeta. destruct (sb_workspaces r !! merchantScope p) as [w0|] eqn:Ew; intros [= <- <-].
  - repeat split; try done. congruence.
  - repeat split; try done; cbn; [by rewrite lookup_insert_eq|]. intros k Hk. by rewrite lookup_insert_ne.
Qed.

(** Writes of callbacks only. *)
Definition same_but_callbacks (r r' : MemoryRepository) : Prop := exists cs, r' = set_callbacks r cs.

Lemma same_but_callbacks_trans r1 r2 r3 :
  same_but_callbacks r1 r2 -> same_but_callbacks r2 r3 -> same_but_callbacks r1 r3.
Proof. intros [c1 ->] [c2 ->]. by exists c2. Qed.

Lemma apply_action_frame r p w s a r' w' s' :
  apply_action r p w s a = Ok (r', w', s') -> same_but_callbacks r r' /\ same_scenario s s'.
Proof.
  assert (Hemit : forall r p w s t l r' w' s', emitting sha256 encode_json marshal_event r p w s t l = Ok (r', w', s') ->
    same_but_callbacks r r' /\ same_scenario s s').
  { intros ? ? ? ? ? ? ? ? ? [_ (e & c & -> & _ & _ & -> & _)%emit_inv]%emitting_inv. split; [by eexists|done]. }
  unfold applyActionLocked, observe, confirm, finalize, callback_action, reorg, recover, state_conflict, mbind, result_bind.
  cbv zeta. intros H. repeat case_match; try done; simplify_eq/=;
    try (match goal with He : emitting _ _ _ _ _ _ _ _ _ = Ok _ |- _ => apply Hemit in He as [? He]; split; [done|exact He] end);
    (split; [by eexists|done]).
Qed.

Lemma advance_frame r p w s a r' w' s' :
  advance r p w s a = Ok (r', w', s') -> same_but_callbacks r r' /\ same_scenario s s'.
Proof.
  unfold advance_action. destruct (apply_action _ _ _ _ _) as [[[r1 w1] s1]|] eqn:Ea; [|done].
  unfold mbind, result_bind. intros [= <- <- <-]. exact (apply_action_frame _ _ _ _ _ _ _ _ Ea).
Qed.

Lemma run_actions_effect actions : forall r p w s r' o, run_actions sha256 encode_json marshal_event r p w s actions = (r', o) ->
  same_but_callbacks r r' /\
  (forall w' s', o = Ok (w', s') -> same_scenario s s' /\ (scenario_ok s -> scenario_ok s')).
Proof.
  induction actions as [|a actions IH]; intros r p w s r' o H; cbn [run_actions] in H.
  { injection H as <- <-. split; [by exists (sb_callbacks r); destruct r|]. by intros w' s' [= <- <-]. }
  destruct (advance r p w s a) as [[[r1 w1] s1]|] eqn:Ea.
  2:{ injection H as <- <-. split; [by exists (sb_callbacks r); destruct r|done]. }
  destruct (advance_frame _ _ _ _ _ _ _ _ Ea) as [Hcb Hsame].
  destruct (IH _ _ _ _ _ _ H) as [Hcb' Hok]. split; [by eapply same_but_callbacks_trans|].
  intros w' s' Ho. destruct (Hok _ _ Ho) as [Hs' Hi]. split; [by eapply same_scenario_trans|].
  intros Hs. apply Hi. by destruct (advance_effect _ _ _ _ _ _ _ _ Ea Hs).
Qed.

(** What a mutation of scenarios does, in whatever way it ends: at most one
    scenario of the caller is written, with its replay; the workspaces of others
    and, when no identifier collides ([Q]), their scenarios stay. *)
Definition at_most_one_written (Q : Prop) (r : MemoryRepository) (p : Principal) (r' : MemoryRepository) : Prop :=
  (forall k, k <> merchantScope p -> sb_workspaces r' !! k = sb_workspaces r !! k) /\
  sb_trustedTestPrincipal r' = sb_trustedTestPrincipal r /\
  (sb_scenarios r' = sb_scenarios r \/
   exists s, sb_scenarios r' = <[sn_ID s := s]> (sb_scenarios r) /\ sameMerchant p s = true /\ (repo_ok r -> scenario_ok s) /\
     (repo_ok r -> Q -> forall s0, sb_scenarios r !! sn_ID s = Some s0 -> sameMerchant p s0 = true)).

Lemma own_scenario_inv r p id s : own_scenario r p id = Ok s -> sb_scenarios r !! id = Some s /\ sameMerchant p s = true.
Proof. unfold own_scenario. intros H. repeat case_match; try done. by injection H as <-. Qed.

Lemma sameMerchant_same p s s' : same_scenario s s' -> sameMerchant p s' = sameMerchant p s.
Proof. intros (_ & Ht & Hm & _). unfold sameMerchant. by rewrite Ht, Hm. Qed.

Lemma repo_ok_lookup r id s : repo_ok r -> sb_scenarios r !! id = Some s -> sn_ID s = id /\ scenario_ok s.
Proof. intros H Hs. by apply H in Hs. Qed.

Lemma fail_writes Q r p : at_most_one_written Q r p r.
Proof. repeat split; auto. Qed.

Lemma workspace_writes Q r p r1 w : workspaceLocked sha256 r p = (r1, w) -> at_most_one_written Q r p r1.
Proof. intros (Hs & _ & _ & _ & Ht & _ & Hk & _)%workspaceLocked_same. repeat split; auto. Qed.

Lemma callbacks_writes Q r p r1 r2 : at_most_one_written Q r p r1 -> same_but_callbacks r1 r2 -> at_most_one_written Q r p r2.
Proof. by intros Hw [cs ->]. Qed.

(** Committing a scenario over a state that differs from [r] in callbacks and in
    the caller's workspace only. *)
Lemma commit_writes (Q : Prop) r p r1 w0 r2 k h w s : workspaceLocked sha256 r p = (r1, w0) -> same_but_callbacks r1 r2 ->
  sameMerchant p s = true -> (repo_ok r -> scenario_ok s) ->
  (repo_ok r -> Q -> forall s0, sb_scenarios r !! sn_ID s = Some s0 -> sameMerchant p s0 = true) ->
  at_most_one_written Q r p (commit_scenario r2 (merchantScope p) k h w s).
Proof.
  intros (Hs & _ & _ & _ & Ht & _ & Hk & _)%workspaceLocked_same [cs ->] Hm Hok HQ. cbn.
  split; [intros x Hx; cbn; rewrite lookup_insert_ne by done; by apply Hk|]. split; [done|].
  right. exists s. cbn. by rewrite Hs.
Qed.

Lemma new_scenario_ok p key cmd a now : scenario_ok (new_scenario sha256 p key cmd a now).
Proof. unfold new_scenario. split; [|by split]. status_cases. Qed.

(** The identifier derived for a new scenario is not that of another merchant's. *)
Definition id_free (r : MemoryRepository) (p : Principal) (key : string) : Prop :=
  forall s, sb_scenarios r !! deterministicID sha256 [p_TenantID p; p_MerchantID p; "scenario"; key] = Some s ->
    sameMerchant p s = true.

Lemma create_writes r p cmd key h : at_most_one_written (id_free r p key) r p (fst (create r p cmd key h)).
Proof.
  unfold CreateScenario. destruct (validatePrincipal r p); [apply fail_writes|]. cbv zeta.
  destruct (replayScenario _ _ _) as [[x|]|]; [apply fail_writes| |apply fail_writes].
  destruct (order_taken _ _ _); [apply fail_writes|]. destruct (workspaceLocked sha256 r p) as [r1 w] eqn:Ew.
  destruct (pick_address _ _ _) as [a|]; [|by eapply workspace_writes].
  pose proof (new_scenario_ok p key cmd a (ws_Clock w)) as Hok. set (s := new_scenario _ _ _ _ _ _) in *.
  destruct (emit r1 p s _ _) as [[r2 s2]|] eqn:E2; [|by eapply workspace_writes].
  pose proof (emit_effect _ _ _ _ _ _ _ E2 Hok) as (Hok2 & Hs2 & c2 & Hr2 & _).
  destruct (emit r2 p s2 _ _) as [[r3 s3]|] eqn:E3.
  2:{ eapply callbacks_writes; [by eapply workspace_writes|]. rewrite Hr2. by eexists. }
  pose proof (emit_effect _ _ _ _ _ _ _ E3 Hok2) as (Hok3 & Hs3 & c3 & Hr3 & _).
  assert (Hw : at_most_one_written (id_free r p key) r p (commit_scenario r3 (merchantScope p) (scoped p "scenario:create" key) h (next_workspace w) s3)).
  { eapply (commit_writes _ r p r1 w r3); [done| | |done|].
    - rewrite Hr3, Hr2. by eexists.
    - rewrite (sameMerchant_same p _ _ Hs3), (sameMerchant_same p _ _ Hs2). unfold sameMerchant. cbn. by rewrite !String.eqb_refl.
    - intros _ HQ s0. rewrite (proj1 Hs3), (proj1 Hs2). apply HQ. }
  exact Hw.
Qed.

Lemma own_entry r p id s s' : sb_scenarios r !! id = Some s -> sameMerchant p s = true -> same_scenario s s' ->
  repo_ok r -> True -> forall s0, sb_scenarios r !! sn_ID s' = Some s0 -> sameMerchant p s0 = true.
Proof.
  intros Hs Hm Hsame Hr _ s0. rewrite (proj1 Hsame). destruct (repo_ok_lookup _ _ _ Hr Hs) as [-> _]. congruence.
Qed.

Lemma act_writes r p id a key h : at_most_one_written True r p (fst (act r p id a key h)).
Proof.
  unfold ApplyAction. destruct (validatePrincipal r p); [apply fail_writes|]. cbv zeta.
  destruct (replayScenario _ _ _) as [[x|]|]; [apply fail_writes| |apply fail_writes].
  destruct (own_scenario r p id) as [s|] eqn:Es; [|apply fail_writes]. apply own_scenario_inv in Es as [Hs Hm].
  destruct (negb _); [apply fail_writes|]. destruct (workspaceLocked sha256 r p) as [r1 w] eqn:Ew.
  destruct (advance r1 p w s a) as [[[r2 w2] s2]|] eqn:Ea; [|by eapply workspace_writes]. cbn [fst].
  destruct (advance_frame _ _ _ _ _ _ _ _ Ea) as [Hcb Hsame].
  eapply (commit_writes _ r p r1 w r2); [done|done|by rewrite (sameMerchant_same p _ _ Hsame)| |by eapply own_entry].
  intros Hr. destruct (repo_ok_lookup _ _ _ Hr Hs) as [_ Hok]. by destruct (advance_effect _ _ _ _ _ _ _ _ Ea Hok).
Qed.

Lemma run_writes r p id key h : at_most_one_written True r p (fst (run r p id key h)).
Proof.
  unfold RunScenario. destruct (validatePrincipal r p); [apply fail_writes|]. cbv zeta.
  destruct (replayScenario _ _ _) as [[x|]|]; [apply fail_writes| |apply fail_writes].
  destruct (own_scenario r p id) as [s|] eqn:Es; [|apply fail_writes]. apply own_scenario_inv in Es as [Hs Hm].
  destruct (workspaceLocked sha256 r p) as [r1 w] eqn:Ew.
  destruct (run_actions _ _ _ r1 p w s _) as [r2 [[w2 s2]|e]] eqn:Er; destruct (run_actions_effect _ _ _ _ _ _ _ Er) as [Hcb Hok];
    cbn [fst].
  - destruct (Hok _ _ eq_refl) as [Hsame Hi].
    eapply (commit_writes _ r p r1 w r2); [done|done|by rewrite (sameMerchant_same p _ _ Hsame)| |by eapply own_entry].
    intros Hr. apply Hi. by destruct (repo_ok_lookup _ _ _ Hr Hs).
  - eapply callbacks_writes; [by eapply workspace_writes|done].
Qed.

Lemma clock_writes r p secs v key h : at_most_one_written True r p (fst (AdvanceClock sha256 r p secs v key h)).
Proof.
  unfold AdvanceClock. destruct (validatePrincipal r p); [apply fail_writes|]. cbv zeta.
  destruct (sb_replays r !! _); [apply fail_writes|]. destruct (workspaceLocked sha256 r p) as [r1 w] eqn:Ew.
  destruct (negb _); [by eapply workspace_writes|].
  apply workspaceLocked_same in Ew as (Hs & _ & _ & _ & Ht & _ & Hk & _). cbn [fst].
  split; [intros k Hne; cbn; rewrite lookup_insert_ne by done; by apply Hk|]. split; [done|by left].
Qed.

(** *** The reset *)

Lemma reset_inv r p v key h r' out : Reset sha256 r p v key h = (r', out) ->
  (sb_scenarios r' = sb_scenarios r /\ sb_callbacks r' = sb_callbacks r /\ (forall x, out <> Ok (x, false)) \/
   exists x, out = Ok (x, false) /\
     sb_scenarios r' = filter (fun e => sameMerchant p (snd e) = false) (sb_scenarios r) /\
     (forall c id, sb_callbacks r' !! id = Some c <-> sb_callbacks r !! id = Some c /\
        ~ exists s, sb_scenarios r !! cb_ScenarioID c = Some s /\ sameMerchant p s = true) /\
     rr_DeletedScenarios x = Z.of_nat (length (List.filter (fun e => sameMerchant p (snd e)) (map_to_list (sb_scenarios r)))) /\
     (exists w, sb_workspaces r' !! merchantScope p = Some w /\ ws_Clock w = DefaultClock /\ ws_Version w = int64 (v + 1) /\
        rr_WorkspaceVersion x = ws_Version w) /\
     (forall k rep, sb_replays r' !! k = Some rep -> k <> scoped p "workspace:reset" key ->
        sb_replays r !! k = Some rep /\ HasPrefix k (merchantScope p +:+ US) = false)) /\
  (forall k, k <> merchantScope p -> sb_workspaces r' !! k = sb_workspaces r !! k).
Proof.
  unfold Reset. destruct (validatePrincipal r p); [intros [= <- <-]; split; [by left|done]|]. cbv zeta.
  destruct (sb_replays r !! _) as [old|].
  { intros [= <- <-]. split; [left; repeat split; intros x; by repeat case_match|done]. }
  destruct (workspaceLocked sha256 r p) as [r1 w] eqn:Ew.
  apply workspaceLocked_same in Ew as (Hs & Hc & Hrep & _ & Ht & Hw & Hk & _).
  destruct (negb (_ =? v)) eqn:Ev; intros [= <- <-]; [split; [left; by rewrite Hs, Hc|done]|]. bool_hyp.
  split; [right|intros k Hne; cbn; rewrite lookup_insert_ne by done; by apply Hk].
  eexists. split; [reflexivity|]. cbn [sb_scenarios sb_callbacks sb_replays sb_workspaces rr_DeletedScenarios rr_WorkspaceVersion].
  rewrite Hs. split; [done|]. split; [|split; [done|split]].
  - intros c id. rewrite map_lookup_filter_Some, Hc. cbn [snd]. rewrite <- not_true_iff_false, existsb_str_In, <- list_elem_of_In.
    apply and_iff_compat_l, not_iff_compat. rewrite list_elem_of_fmap. split.
    + intros ([k s0] & Hk0 & Hin). cbn in Hk0. subst k. apply list_elem_of_In, filter_In in Hin as [Hin Hm].
      apply list_elem_of_In, elem_of_map_to_list in Hin. eauto.
    + intros (s0 & Hs0 & Hm). exists (cb_ScenarioID c, s0). split; [done|]. apply list_elem_of_In, filter_In.
      split; [by apply list_elem_of_In, elem_of_map_to_list|done].
  - eexists. rewrite lookup_insert_eq. split; [reflexivity|]. cbn. by rewrite Ev.
  - intros k rep. destruct (decide (k = scoped p "workspace:reset" key)) as [|Hne]; [done|].
    rewrite lookup_insert_ne by done. rewrite map_lookup_filter_Some, Hrep. cbn [fst]. intros [Hl Hf] _. split; [done|].
    apply andb_false_iff in Hf as [?|Hf]; [done|]. by apply negb_false_iff, String.eqb_eq in Hf.
Qed.

Lemma step_ok r call : repo_ok r -> repo_ok (sandbox_step r call).
Proof.
  assert (Hw : forall Q p r', at_most_one_written Q r p r' -> repo_ok r -> repo_ok r').
  { intros Q p r' (_ & _ & [Hs|(s & Hs & _ & Hok & _)]) Hr; unfold repo_ok; rewrite Hs; [done|].
    apply map_Forall_insert_2; [auto|done]. }
  destruct call as [p op]. unfold sandbox_step. cbn [fst snd]. intros Hr. destruct op.
  - unfold Workspace_get. destruct (validatePrincipal r p); [done|]. destruct (workspaceLocked sha256 r p) as [r1 w] eqn:Ew.
    cbn. eapply Hw; [by eapply (workspace_writes True)|done].
  - eapply Hw; [apply create_writes|done].
  - eapply Hw; [apply act_writes|done].
  - eapply Hw; [apply run_writes|done].
  - eapply Hw; [apply clock_writes|done].
  - destruct (Reset sha256 r p version key hash) as [r' out] eqn:Er. cbn [fst].
    destruct (reset_inv _ _ _ _ _ _ _ Er) as [[(Hs & _)|(x & _ & Hs & _)] _]; unfold repo_ok; rewrite Hs; [done|].
    intros id s [Hl _]%map_lookup_filter_Some. by apply Hr.
Qed.

(** C21: In every state the repository can reach, whatever the callers did and
    whichever of their calls failed, a scenario counts as settled only when the
    exact expected amount of the route's asset was observed with enough
    confirmations and finalized, as overpaid only when more was; such a scenario
    has a settlement time and a settled route, every other one neither; and its
    events are numbered without a gap. *)
Theorem sandbox_payments_sound calls :
  map_Forall (fun id s => sn_ID s = id /\ scenario_ok s)
    (sb_scenarios (foldl sandbox_step NewMemoryRepository calls)).
Proof.
  assert (H : forall calls r, repo_ok r -> repo_ok (foldl sandbox_step r calls)).
  { clear calls. induction calls as [|c calls IH]; intros r Hr; [done|]. apply IH. by apply step_ok. }
  apply H. by intros ? ?.
Qed.

(** A merchant's operations leave the scenarios and the workspace of every
    other merchant as they were, the reset included, unless the identifier
    derived for a new scenario collides with one of theirs. *)
Theorem sandbox_isolation r p op :
  repo_ok r -> (forall cmd key hash, op = OpCreate cmd key hash -> id_free r p key) ->
  (forall id s, sb_scenarios r !! id = Some s -> sameMerchant p s = false -> sb_scenarios (sandbox_step r (p, op)) !! id = Some s) /\
  (forall k, k <> merchantScope p -> sb_workspaces (sandbox_step r (p, op)) !! k = sb_workspaces r !! k).
Proof.
  intros Hr Hfree.
  assert (Hw : forall (Q : Prop) r', at_most_one_written Q r p r' -> Q ->
    (forall id s, sb_scenarios r !! id = Some s -> sameMerchant p s = false -> sb_scenarios r' !! id = Some s) /\
    (forall k, k <> merchantScope p -> sb_workspaces r' !! k = sb_workspaces r !! k)).
  { intros Q r' (Hk & _ & Hs) HQ. split; [|done]. intros id s Hl Hm. destruct Hs as [->|(s1 & -> & _ & _ & Ho)]; [done|].
    rewrite lookup_insert_ne; [done|]. intros <-. specialize (Ho Hr HQ s Hl). congruence. }
  unfold sandbox_step. cbn [fst snd]. destruct op.
  - unfold Workspace_get. destruct (validatePrincipal r p); [done|]. destruct (workspaceLocked sha256 r p) as [r1 w] eqn:Ew.
    cbn. by eapply (Hw True); [by eapply workspace_writes|].
  - eapply Hw; [apply create_writes|by eapply Hfree].
  - by eapply Hw; [apply act_writes|].
  - by eapply Hw; [apply run_writes|].
  - by eapply Hw; [apply clock_writes|].
  - destruct (Reset sha256 r p version key hash) as [r' out] eqn:Er. cbn [fst].
    destruct (reset_inv _ _ _ _ _ _ _ Er) as [[(Hs & _)|(x & _ & Hs & _)] Hk]; split; try done; rewrite Hs; [done|].
    intros id s Hl Hm. by apply map_lookup_filter_Some.
Qed.

(** A reset that is carried out leaves no scenario of the merchant and no
    callback of one, frees the merchant's order numbers, forgets the merchant's
    replays and starts the workspace again at the default clock under the next
    version; the answer counts the scenarios that were there. *)
Theorem Reset_clears r p v key h r' x :
  Reset sha256 r p v key h = (r', Ok (x, false)) ->
  (forall id s, sb_scenarios r' !! id = Some s -> sameMerchant p s = false) /\
  (forall id c s, sb_callbacks r' !! id = Some c -> sb_scenarios r !! cb_ScenarioID c = Some s -> sameMerchant p s = false) /\
  (forall order, order_taken r' p order = false) /\
  (forall k rep, sb_replays r' !! k = Some rep -> HasPrefix k (merchantScope p +:+ US) = true ->
     k = scoped p "workspace:reset" key) /\
  (exists w, sb_workspaces r' !! merchantScope p = Some w /\ ws_Clock w = DefaultClock /\ ws_Version w = int64 (v + 1) /\
     rr_WorkspaceVersion x = ws_Version w) /\
  rr_DeletedScenarios x = Z.of_nat (length (List.filter (fun e => sameMerchant p (snd e)) (map_to_list (sb_scenarios r)))).
Proof.
  intros H. destruct (reset_inv _ _ _ _ _ _ _ H) as [[(_ & _ & Hn)|(y & [= <-] & Hs & Hc & Hd & Hw & Hrep)] _].
  { by destruct (Hn x). }
  assert (Hmine : forall id s, sb_scenarios r' !! id = Some s -> sameMerchant p s = false).
  { intros id s. rewrite Hs. by intros [_ ?]%map_lookup_filter_Some. }
  repeat split; try done.
  - intros id c s [_ Hno]%Hc Hl. destruct (sameMerchant p s) eqn:E; [|done]. destruct Hno. eauto.
  - intros order. unfold order_taken. destruct (existsb _ _) eqn:E; [|done].
    apply existsb_exists in E as ([id s] & Hin & Hb). apply list_elem_of_In, elem_of_map_to_list in Hin. bool_hyp.
    cbn in *. by rewrite (Hmine _ _ Hin) in *.
  - intros k rep Hk Hp. destruct (decide (k = scoped p "workspace:reset" key)) as [|Hne]; [done|].
    destruct (Hrep _ _ Hk Hne) as [_ ?]. congruence.
Qed.

(** *** Replays *)

Lemma clone_clone s : clone (clone s) = clone s.
Proof. done. Qed.

(** After a mutation that was carried out, its answer is stored under its key. *)
Definition remembered (r' : MemoryRepository) (key h : string) (s : Scenario) : Prop :=
  sb_replays r' !! key = Some (mkReplay h (ReplayScenario s)) /\ clone s = s.

Lemma replay_remembered r' key h s h' : remembered r' key h s ->
  replayScenario r' key h' = if h == h' then Ok (Some s) else Err (Failed (Sentinel ErrIdempotencyConflict)).
Proof. intros [Hk Hc]. unfold replayScenario. rewrite Hk. cbn. destruct (h == h'); [by rewrite Hc|done]. Qed.

Lemma validate_same r p r' : sb_trustedTestPrincipal r' = sb_trustedTestPrincipal r -> validatePrincipal r' p = validatePrincipal r p.
Proof. unfold validatePrincipal. by intros ->. Qed.

Lemma create_remembers r p cmd key h r' s : create r p cmd key h = (r', Ok (s, false)) ->
  validatePrincipal r' p = None /\ remembered r' (scoped p "scenario:create" key) h s.
Proof.
  intros H. pose proof (create_writes r p cmd key h) as (_ & Ht & _). rewrite H in Ht. rewrite (validate_same _ _ _ Ht).
  unfold CreateScenario in H. destruct (validatePrincipal r p); [done|]. split; [done|]. cbv zeta in H.
  repeat case_match; simplify_eq/=. split; [apply lookup_insert_eq|done].
Qed.

Lemma act_remembers r p id a key h r' s : act r p id a key h = (r', Ok (s, false)) ->
  validatePrincipal r' p = None /\ remembered r' (scoped p "scenario:action" key) h s.
Proof.
  intros H. pose proof (act_writes r p id a key h) as (_ & Ht & _). rewrite H in Ht. rewrite (validate_same _ _ _ Ht).
  unfold ApplyAction in H. destruct (validatePrincipal r p); [done|]. split; [done|]. cbv zeta in H.
  repeat case_match; simplify_eq/=. split; [apply lookup_insert_eq|done].
Qed.

Lemma run_remembers r p id key h r' s : run r p id key h = (r', Ok (s, false)) ->
  validatePrincipal r' p = None /\ remembered r' (scoped p "scenario:run" key) h s.
Proof.
  intros H. pose proof (run_writes r p id key h) as (_ & Ht & _). rewrite H in Ht. rewrite (validate_same _ _ _ Ht).
  unfold RunScenario in H. destruct (validatePrincipal r p); [done|]. split; [done|]. cbv zeta in H.
  repeat case_match; simplify_eq/=. split; [apply lookup_insert_eq|done].
Qed.

(** Creating, driving and running a scenario are idempotent: once such a call
    was carried out, every call under its key with its request hash returns the
    same answer, marked as a replay, and changes nothing, and a call with another
    hash is refused as a conflict and changes nothing either. *)
Theorem sandbox_replays r p key h r' s :
  (forall cmd cmd' h', CreateScenario sha256 encode_json marshal_event r p cmd key h = (r', Ok (s, false)) ->
     CreateScenario sha256 encode_json marshal_event r' p cmd' key h' =
       (r', if h == h' then Ok (s, true) else Err (Failed (Sentinel ErrIdempotencyConflict)))) /\
  (forall id a id' a' h', ApplyAction sha256 encode_json marshal_event r p id a key h = (r', Ok (s, false)) ->
     ApplyAction sha256 encode_json marshal_event r' p id' a' key h' =
       (r', if h == h' then Ok (s, true) else Err (Failed (Sentinel ErrIdempotencyConflict)))) /\
  (forall id id' h', RunScenario sha256 encode_json marshal_event r p id key h = (r', Ok (s, false)) ->
     RunScenario sha256 encode_json marshal_event r' p id' key h' =
       (r', if h == h' then Ok (s, true) else Err (Failed (Sentinel ErrIdempotencyConflict)))).
Proof.
  repeat split.
  - intros cmd cmd' h' [Hv Hr]%create_remembers. unfold CreateScenario. rewrite Hv, (replay_remembered _ _ _ _ h' Hr).
    by destruct (h == h').
  - intros id a id' a' h' [Hv Hr]%act_remembers. unfold ApplyAction. rewrite Hv, (replay_remembered _ _ _ _ h' Hr).
    by destruct (h == h').
  - intros id id' h' [Hv Hr]%run_remembers. unfold RunScenario. rewrite Hv, (replay_remembered _ _ _ _ h' Hr).
    by destruct (h == h').
Qed.
End facts.
