(* ===== verification/SandboxRuns.v ===== *)
(** * SandboxRuns: the named scenarios of internal/sandbox run to their end

    That every event a run emits can be published, where each scenario ends, and
    the inputs on which a run panics or fails half-way. *)

From Stdlib Require Import ZArith Lia Ascii String Permutation.
From stdpp Require Import base gmap list strings.
From S2P Require Import Prelude Text Money Domain Encoding Commands Numerals Outbox Webhook Sandbox SandboxFacts.

(** ** The outcome of the named scenarios *)

Section outcomes.
Context (sha256 : string -> string) (encode_json : JSON -> string) (marshal_event : Event -> result string string).
Hypothesis sha256_len : forall s, len (sha256 s) = 32.
Hypothesis marshal_total : forall e, exists body, marshal_event e = Ok body.

Notation emit := (emitLocked sha256 encode_json marshal_event).
Notation emitting' := (emitting sha256 encode_json marshal_event).
Notation advance := (advance_action sha256 encode_json marshal_event).

(** What every event of a scenario needs to be publishable, for [n] more events. *)
Record alive (n : Z) (r : MemoryRepository) (p : Principal) (s : Scenario) : Prop := {
  al_merchant : p_MerchantID p <> "";
  al_intent : si_ID (sn_Intent s) <> "";
  al_minor : exists a, Parse (si_AmountMinor (sn_Intent s)) = Ok a;
  al_route : sr_ID (sn_Route s) <> "";
  al_chain : sr_ChainID (sn_Route s) <> "";
  al_asset : sr_AssetID (sn_Route s) <> "";
  al_address : sr_Address (sn_Route s) <> "";
  al_required : 1 <= sr_RequiredConfirmations (sn_Route s);
  al_sequence : 0 <= sn_LastEventSequence s /\ sn_LastEventSequence s + n < 2 ^ 63;
  al_clock : exists w, sb_workspaces r !! merchantScope p = Some w /\ ws_Clock w <> 0 }.

Lemma deterministicID_nonempty parts : deterministicID sha256 parts <> "".
Proof.
  unfold deterministicID. pose proof (sha256_len (Join parts US)) as H. set (h := sha256 _) in *. clearbody h.
  do 16 (destruct h as [|? h]; [by unfold len in H; cbn in H|]). done.
Qed.

Definition plain_types : list string :=
  ["payment.intent.created"; "payment.route.created"; "payment.partially_paid"; "payment.needs_review"; "payment.overpaid"].

(** The evidence an event type calls for can be built. *)
Definition has_evidence (s : Scenario) (type : string) : Prop :=
  In type plain_types \/
  In type ["payment.observed"; "payment.confirming"; "payment.reorged"] /\ (exists o, Parse (sn_ObservedAmount s) = Ok o /\ o <> 0) \/
  type = "payment.settled" /\ (exists o x, amounts s o x).

Lemma eqb_false s t : s <> t -> (s == t) = false.
Proof. by intros ?%String.eqb_neq. Qed.

(** The shapes of event the repository builds are accepted. *)
Lemma canonical_total id type seq at_ merchant live snapshot settlement observation :
  id <> "" -> 1 <= seq -> merchant <> "" -> ps_ID snapshot <> "" ->
  (In type plain_types /\ settlement = None /\ observation = None \/
   (exists o, In type ["payment.observed"; "payment.confirming"; "payment.reorged"] /\ settlement = None /\
      observation = Some o /\ observation_incomplete o = false) \/
   type = "payment.settled" /\ observation = None /\ is_Some settlement) ->
  exists body, CanonicalBody marshal_event (mkEvent id type "1" seq at_ merchant live snapshot settlement observation None) = Ok body.
Proof.
  intros Hid Hseq Hm Hps Hshape. unfold CanonicalBody. cbv zeta.
  cbn [ev_EventID ev_EventType ev_SchemaVersion ev_Sequence ev_MerchantID ev_PaymentIntent ev_Observation ev_Settlement ev_Resolution].
  rewrite (eqb_false _ _ Hid), (eqb_false _ _ Hm), (eqb_false _ _ Hps), (proj2 (Z.ltb_ge seq 1) Hseq).
  destruct Hshape as [(Ht & -> & ->)|[(o & Ht & -> & -> & Ho)|(-> & -> & [x ->])]].
  - cbn in Ht. repeat (destruct Ht as [<-|Ht]; [apply marshal_total|]). done.
  - rewrite Ho. cbn in Ht. repeat (destruct Ht as [<-|Ht]; [apply marshal_total|]). done.
  - apply marshal_total.
Qed.

Lemma emit_total n r p s type payload : alive (n + 1) r p s -> 0 <= n -> has_evidence s type ->
  exists r' s', emit r p s type payload = Ok (r', s') /\ alive n r' p s'.
Proof.
  intros [Hm Hi [a Ha] Hro Hch Has Had Hre [Hs0 Hs1] (w & Hw & Hc)] Hn Hev.
  assert (Hseq : int64 (sn_LastEventSequence s + 1) = sn_LastEventSequence s + 1).
  { apply int64_id. unfold is_int64, min_int64, max_int64. lia. }
  enough (Hok : exists r' s', emit r p s type payload = Ok (r', s')).
  { destruct Hok as (r' & s' & He). exists r', s'. split; [done|].
    destruct (emit_inv _ _ _ _ _ _ _ _ _ _ He) as (e & c & -> & Hse & _ & -> & _).
    constructor; cbn; try done; [by exists a| |by exists w]. rewrite Hse, Hseq. lia. }
  unfold emitLocked, must_parse. cbv zeta. cbn [sn_Intent push_event si_AmountMinor]. rewrite Ha, Hw, Hseq.
  unfold attachSandboxLifecycleEvidence, must_parse, mbind, result_bind. cbv zeta.
  cbn [sv_Type sn_Route sn_ObservedAmount sn_ID push_event sv_OccurredAt sv_Sequence sn_MerchantOrderID sn_Intent].
  destruct Hev as [Hev|[[Hev (o & Ho & Hnz)]|[-> (o & x & Ho & Hx)]]].
  - replace (_ || (type == "payment.reorged")) with false by (cbn in Hev; repeat (destruct Hev as [<-|Hev]; [done|]); done).
    replace (type == "payment.settled") with false by (cbn in Hev; repeat (destruct Hev as [<-|Hev]; [done|]); done).
    destruct (canonical_total (deterministicID sha256 [p_TenantID p; p_MerchantID p; sn_ID s; "event";
      FormatInt (sn_LastEventSequence s + 1); type]) type (sn_LastEventSequence s + 1) (ws_Clock w) (p_MerchantID p) false
      (mkSnapshot (si_ID (sn_Intent s)) (sn_MerchantOrderID s) (si_Status (sn_Intent s)) a (si_Currency (sn_Intent s))) None None)
      as [body Hb]; [apply deterministicID_nonempty|lia|done|done|by left|].
    cbn [fst snd]. rewrite Hb. eauto.
  - replace (_ || (type == "payment.reorged")) with true by (cbn in Hev; repeat (destruct Hev as [<-|Hev]; [done|]); done).
    rewrite Ho. cbn [fst snd].
    match goal with |- context [CanonicalBody marshal_event (mkEvent ?i ?t ?v ?q ?c ?m ?l ?sn ?st ?ob None)] =>
      destruct (canonical_total i t q c m l sn st ob) as [body Hb] end; [apply deterministicID_nonempty|lia|done|done| |].
    { right; left. eexists. split; [done|]. split; [done|]. split; [done|]. unfold observation_incomplete.
      cbn [eo_ObservationID eo_PaymentRouteID eo_Network eo_AssetID eo_TransactionHash eo_EventIndex eo_FromAddress eo_ToAddress
           eo_AmountRaw eo_BlockHeight eo_BlockHash eo_BlockTime eo_RequiredConfirmations eo_EvidenceHash eo_Finality].
      rewrite hex_roundtrip, sha256_len, String.eqb_refl.
      rewrite !(eqb_false (deterministicID _ _) _) by apply deterministicID_nonempty.
      rewrite (eqb_false _ _ Hro), (eqb_false _ _ Hch), (eqb_false _ _ Had), (proj2 (IsZero_false o) Hnz).
      rewrite (proj2 (Z.ltb_ge _ 1) Hre). unfold IsZeroTime. rewrite (proj2 (Z.eqb_neq _ 0) Hc).
      replace (evidence_asset _ == "") with false.
      2:{ unfold evidence_asset. cbn [sn_ObservedAssetID push_event sn_Route]. destruct (sn_ObservedAssetID s == "") eqn:E; [|done].
          symmetry. by apply eqb_false. }
      unfold sandbox_finality. by repeat case_match. }
    rewrite Hb. eauto.
  - cbn [String.eqb Ascii.eqb Bool.eqb orb]. rewrite Ho, Hx. cbn [fst snd].
    match goal with |- context [CanonicalBody marshal_event (mkEvent ?i ?t ?v ?q ?c ?m ?l ?sn ?st ?ob None)] =>
      destruct (canonical_total i t q c m l sn st ob) as [body Hb] end; [apply deterministicID_nonempty|lia|done|done| |].
    { right; right. split; [done|]. split; [done|]. by eexists. }
    rewrite Hb. eauto.
Qed.

(** A callback of the scenario in a status that [q] accepts is stored. *)
Definition has_callback (q : Callback -> bool) (r : MemoryRepository) (s : Scenario) : Prop :=
  exists id c, sb_callbacks r !! id = Some c /\ cb_ScenarioID c = sn_ID s /\ q c = true.

(** A scenario during a run: alive, in a status, with what was observed. *)
Record stage (n : Z) (r : MemoryRepository) (p : Principal) (s : Scenario) (status amount : string) (conf : Z) (final : bool)
    : Prop := {
  sg_alive : alive n r p s;
  sg_status : si_Status (sn_Intent s) = status;
  sg_amount : sn_ObservedAmount s = amount;
  sg_conf : sn_Confirmations s = conf;
  sg_final : sn_Finalized s = final;
  sg_open : has_callback open_callback r s }.

Lemma emitted_open r p s type payload r' s' : emit r p s type payload = Ok (r', s') -> has_callback open_callback r' s'.
Proof.
  intros (e & c & -> & _ & _ & -> & Hc & Hst & _)%emit_inv. exists (cb_ID c), c. cbn.
  split; [apply lookup_insert_eq|]. split; [done|]. unfold open_callback. by rewrite Hst.
Qed.

(** One emitting action, from the scenario [s1] it emits. *)
Lemma emitting_stage n r p w s1 type payload : alive (n + 1) r p s1 -> 0 <= n -> has_evidence s1 type ->
  exists r' s', emitting' r p w s1 type payload = Ok (r', w, s') /\
    stage n r' p s' (si_Status (sn_Intent s1)) (sn_ObservedAmount s1) (sn_Confirmations s1) (sn_Finalized s1).
Proof.
  intros Ha Hn He. destruct (emit_total n r p s1 type payload Ha Hn He) as (r' & s' & Hem & Ha').
  exists r', s'. unfold emitting. rewrite Hem. split; [done|].
  pose proof (emitted_open _ _ _ _ _ _ _ Hem) as Ho.
  apply emit_inv in Hem as (e & c & -> & _). by constructor.
Qed.

(** What an action that ends at a stage looks like after [advance]. *)
Definition reaches (n : Z) (r : MemoryRepository) (p : Principal) (w : Workspace) (s : Scenario) (a : Action)
    (status amount : string) (conf : Z) (final : bool) : Prop :=
  exists r' w' s', advance r p w s a = Ok (r', w', s') /\ same_scenario s s' /\ stage n r' p s' status amount conf final.

Lemma reaches_intro n r p w s a r' w' s' status amount conf final :
  applyActionLocked sha256 encode_json marshal_event r p w (set_updated s (ws_Clock w)) a = Ok (r', w', s') ->
  stage n r' p s' status amount conf final -> reaches n r p w s a status amount conf final.
Proof.
  intros Ha [[] ? ? ? ? Ho]. unfold reaches, advance_action. rewrite Ha. eexists _, _, _. split; [reflexivity|].
  split; [exact (proj2 (apply_action_frame _ _ _ _ _ _ _ _ _ _ _ Ha))|].
  constructor; [by constructor|done..].
Qed.

Lemma action_reaches n r p w w1 s a s1 type payload status amount conf final :
  applyActionLocked sha256 encode_json marshal_event r p w (set_updated s (ws_Clock w)) a = emitting' r p w1 s1 type payload ->
  alive (n + 1) r p s1 -> 0 <= n -> has_evidence s1 type ->
  si_Status (sn_Intent s1) = status -> sn_ObservedAmount s1 = amount -> sn_Confirmations s1 = conf -> sn_Finalized s1 = final ->
  reaches n r p w s a status amount conf final.
Proof.
  intros He Ha Hn Hev <- <- <- <-. destruct (emitting_stage n r p w1 s1 type payload Ha Hn Hev) as (r' & s' & Hem & Hst).
  rewrite Hem in He. by eapply reaches_intro.
Qed.

Lemma alive_mono n m r p s : alive n r p s -> m <= n -> alive m r p s.
Proof. intros [] Hm. constructor; try done. lia. Qed.

Lemma observe_reaches n r p w s amount o x : alive (n + 1) r p s -> 0 <= n ->
  si_Status (sn_Intent s) = "pending" -> sn_Kind s <> ScenarioLate -> amount <> "" ->
  Parse amount = Ok o -> Parse (sr_ExpectedAmountAtomic (sn_Route s)) = Ok x -> x <> 0 -> 0 <= x ->
  reaches n r p w s (observe_action amount (sr_AssetID (sn_Route s)))
    (if o <? x then "partially_paid" else "observed") amount (sn_Confirmations s) (sn_Finalized s).
Proof.
  intros Ha Hn Hst Hk Hne Ho Hx Hx0 Hxn.
  assert (Hobs : observe sha256 encode_json marshal_event r p w (set_updated s (ws_Clock w))
                   (observe_action amount (sr_AssetID (sn_Route s))) =
    if o <? x then emitting' r p w (set_intent (set_observed (set_updated s (ws_Clock w)) amount (sr_AssetID (sn_Route s)))
                      (with_status (sn_Intent s) "partially_paid" "sandbox_underpayment"))
                      "payment.partially_paid" [("amount_atomic", JString amount)]
    else emitting' r p w (set_intent (set_observed (set_updated s (ws_Clock w)) amount (sr_AssetID (sn_Route s)))
                      (with_status (sn_Intent s) "observed" "sandbox_transfer_observed"))
                      "payment.observed" [("amount_atomic", JString amount); ("asset_id", JString (sr_AssetID (sn_Route s)))]).
  { unfold observe, observe_action, with_text, must_parse. cbv zeta.
    cbn [sn_Intent set_updated ac_AmountAtomic ac_AssetID sn_Route sn_Kind set_observed si_Status].
    rewrite Hst, (eqb_false amount "") by done. rewrite (eqb_false (sr_AssetID _) "") by apply Ha.
    rewrite (eqb_false (sn_Kind s)) by done. rewrite !String.eqb_refl, Hx, Ho.
    cbn [String.eqb Ascii.eqb Bool.eqb negb andb]. unfold mbind, result_bind. by rewrite Cmp_lt. }
  assert (Happ : forall y, observe sha256 encode_json marshal_event r p w (set_updated s (ws_Clock w))
      (observe_action amount (sr_AssetID (sn_Route s))) = y ->
    applyActionLocked sha256 encode_json marshal_event r p w (set_updated s (ws_Clock w))
      (observe_action amount (sr_AssetID (sn_Route s))) = y) by done.
  destruct (o <? x) eqn:Elt; (eapply action_reaches; [exact (Happ _ Hobs)|by destruct Ha; constructor|done| |done..]).
  - left. cbn. tauto.
  - right; left. split; [by left|]. exists o. cbn. split; [done|]. bool_hyp. lia.
Qed.

Definition confirm_action (s : Scenario) : Action :=
  mkAction ActionConfirm "" "" (sr_RequiredConfirmations (sn_Route s)) "" 0 "" "" 0 0.

Lemma confirm_reaches n r p w s status amount conf final : stage (n + 1) r p s status amount conf final -> 0 <= n ->
  status = "observed" \/ status = "partially_paid" -> conf <= sr_RequiredConfirmations (sn_Route s) ->
  (exists o, Parse amount = Ok o /\ o <> 0) ->
  reaches n r p w s (confirm_action s) (if status == "observed" then "confirmed" else status) amount
    (sr_RequiredConfirmations (sn_Route s)) final.
Proof.
  intros [Ha Hst <- <- <- Ho] Hn Hs Hle Hev. pose proof (al_required _ _ _ _ Ha) as Hreq.
  assert (Happ : applyActionLocked sha256 encode_json marshal_event r p w (set_updated s (ws_Clock w)) (confirm_action s) =
    let s0 := set_chain (set_updated s (ws_Clock w)) (sr_RequiredConfirmations (sn_Route s)) (sn_Finalized s) in
    emitting' r p w (if status == "observed" then set_intent s0 (with_status (sn_Intent s) "confirmed" "sandbox_required_confirmations")
                     else s0) "payment.confirming"
      [("confirmations", JNumber (FormatInt (sr_RequiredConfirmations (sn_Route s))));
       ("required", JNumber (FormatInt (sr_RequiredConfirmations (sn_Route s))))]).
  { change (applyActionLocked _ _ _ _ _ _ _ (confirm_action s))
      with (confirm sha256 encode_json marshal_event r p w (set_updated s (ws_Clock w)) (confirm_action s)).
    unfold confirm, confirm_action. cbv zeta. cbn [sn_Intent set_updated sn_Route ac_Confirmations sn_Confirmations sn_Finalized].
    rewrite Hst, (proj2 (Z.eqb_neq _ 0)), (proj2 (Z.ltb_ge _ (sn_Confirmations s))) by lia.
    rewrite (Z.geb_leb _ _), Z.leb_refl. by destruct Hs as [->| ->]. }
  eapply action_reaches; [exact Happ| |done| |..].
  - by destruct Ha, (status == "observed"); constructor.
  - right; left. split; [cbn; tauto|]. by destruct (status == "observed").
  - by destruct (status == "observed").
  - by destruct (status == "observed").
  - by destruct (status == "observed").
  - by destruct (status == "observed").
Qed.

Lemma finalize_reaches n r p w s status amount conf final o x : stage (n + 1) r p s status amount conf final -> 0 <= n ->
  sr_RequiredConfirmations (sn_Route s) <= conf -> Parse amount = Ok o ->
  Parse (sr_ExpectedAmountAtomic (sn_Route s)) = Ok x -> status = "confirmed" \/ status = "partially_paid" ->
  reaches n r p w s (plain_action ActionFinalize)
    (if status == "confirmed" then (if x <? o then "overpaid" else "settled") else status) amount conf true.
Proof.
  intros [Ha Hst Ham Hco Hfi Hop] Hn Hle Ho Hx Hs.
  assert (Hdef : applyActionLocked sha256 encode_json marshal_event r p w (set_updated s (ws_Clock w)) (plain_action ActionFinalize) =
    finalize sha256 encode_json marshal_event r p w (set_updated s (ws_Clock w))) by done.
  destruct Hs as [->| ->]; cbn [String.eqb Ascii.eqb Bool.eqb].
  - unfold finalize in Hdef. cbv zeta in Hdef. cbn [sn_Intent set_updated sn_Confirmations sn_Route set_chain sn_ObservedAmount] in Hdef.
    rewrite Hst, Ham, Hco in Hdef. unfold must_parse, mbind, result_bind in Hdef. rewrite Ho, Hx in Hdef.
    rewrite (proj2 (Z.ltb_ge _ _) Hle), Cmp_gt in Hdef. cbn [String.eqb Ascii.eqb Bool.eqb negb orb] in Hdef.
    set (s0 := set_chain (set_updated s (ws_Clock w)) conf true) in Hdef.
    destruct (x <? o).
    + destruct (emitting_stage n r p w (set_intent s0 (with_status (sn_Intent s) "overpaid" "sandbox_overpayment")) "payment.overpaid"
        [("amount_atomic", JString amount)]) as (r' & s' & He & [Ha' ? ? ? ? ?]);
        [by destruct Ha; constructor|done|left; cbn; tauto|].
      rewrite He in Hdef. eapply reaches_intro; [exact Hdef|]. constructor; [by destruct Ha'; constructor|(cbn in *; first [done|congruence])..].
    + destruct (emitting_stage n r p w (set_intent s0 (with_status (sn_Intent s) "settled" "sandbox_finalized")) "payment.settled"
        [("amount_atomic", JString amount)]) as (r' & s' & He & [Ha' ? ? ? ? ?]);
        [by destruct Ha; constructor|done|right; right; split; [done|]; exists o, x; split; cbn; congruence|].
      rewrite He in Hdef. eapply reaches_intro; [exact Hdef|]. constructor; [by destruct Ha'; constructor|(cbn in *; first [done|congruence])..].
  - eapply (action_reaches n r p w w s _ (set_chain (set_updated s (ws_Clock w)) conf true) "payment.partially_paid"
      [("amount_atomic", JString amount); ("finalized", JBool true)]);
      [|by destruct Ha; constructor|done|left; cbn; tauto|done..].
    rewrite Hdef. unfold finalize. cbv zeta. cbn [sn_Intent set_updated sn_Confirmations sn_Route set_chain sn_ObservedAmount].
    rewrite Hst, Hco, Ham, (proj2 (Z.ltb_ge _ _) Hle). done.
Qed.

Lemma reorg_reaches n r p w s status amount conf o : stage (n + 1) r p s status amount conf true -> 0 <= n ->
  status = "settled" \/ status = "overpaid" -> Parse amount = Ok o -> o <> 0 ->
  reaches n r p w s reorg_action "reorg_review" amount 0 false.
Proof.
  intros [Ha Hst <- Hco Hfi Hop] Hn Hs Ho Hnz.
  eapply (action_reaches n r p w w s _ (reopened (set_updated s (ws_Clock w)) "reorg_review" "sandbox_reorg") "payment.reorged"
    [("depth", JNumber (FormatInt 21))]); [|by destruct Ha; constructor|done| |done..].
  - change (applyActionLocked _ _ _ _ _ _ _ reorg_action) with (reorg sha256 encode_json marshal_event r p w (set_updated s (ws_Clock w)) reorg_action).
    unfold reorg. cbv zeta. cbn [sn_Intent set_updated sn_Finalized]. rewrite Hst, Hfi. by destruct Hs as [->| ->].
  - right; left. split; [cbn; tauto|]. by exists o.
Qed.

Lemma recover_reaches n r p w s amount conf final o : stage (n + 1) r p s "reorg_review" amount conf final -> 0 <= n ->
  Parse amount = Ok o -> o <> 0 -> reaches n r p w s (plain_action ActionRecover) "observed" amount 0 false.
Proof.
  intros [Ha Hst <- Hco Hfi Hop] Hn Ho Hnz.
  eapply (action_reaches n r p w w s _ (reopened (set_updated s (ws_Clock w)) "observed" "sandbox_reincluded") "payment.observed"
    [("confirmations", JNumber "0"); ("reincluded", JBool true)]); [|by destruct Ha; constructor|done| |done..].
  - change (applyActionLocked _ _ _ _ _ _ _ (plain_action ActionRecover)) with (recover sha256 encode_json marshal_event r p w (set_updated s (ws_Clock w))).
    unfold recover. cbn [sn_Intent set_updated]. by rewrite Hst.
  - right; left. split; [cbn; tauto|]. by exists o.
Qed.

(** A payment that is late or in another asset goes to review. *)
Lemma review_reaches n r p w s amount asset : alive (n + 1) r p s -> 0 <= n ->
  si_Status (sn_Intent s) = "pending" -> amount <> "" -> asset <> "" ->
  sn_Kind s = ScenarioLate \/ sn_Kind s <> ScenarioLate /\ asset <> sr_AssetID (sn_Route s) ->
  reaches n r p w s (observe_action amount asset) "needs_review" amount (sn_Confirmations s) (sn_Finalized s).
Proof.
  intros Ha Hn Hst Hne Hna Hk.
  assert (Hdef : applyActionLocked sha256 encode_json marshal_event r p w (set_updated s (ws_Clock w)) (observe_action amount asset) =
    observe sha256 encode_json marshal_event r p w (set_updated s (ws_Clock w)) (observe_action amount asset)) by done.
  unfold observe, observe_action, with_text in Hdef. cbv zeta in Hdef.
  cbn [sn_Intent set_updated ac_AmountAtomic ac_AssetID sn_Route sn_Kind set_observed si_Status] in Hdef.
  rewrite Hst, (eqb_false amount ""), (eqb_false asset "") in Hdef by done. cbn [String.eqb Ascii.eqb Bool.eqb negb andb] in Hdef.
  destruct Hk as [Hk|[Hk Has]].
  - rewrite Hk, String.eqb_refl in Hdef. eapply action_reaches; [exact Hdef|by destruct Ha; constructor|done|left; cbn; tauto|done..].
  - rewrite (eqb_false (sn_Kind s)), (eqb_false asset) in Hdef by done.
    eapply action_reaches; [exact Hdef|by destruct Ha; constructor|done|left; cbn; tauto|done..].
Qed.

(** *** Callbacks *)

Lemma scenarioCallbacks_spec r id c : In c (scenarioCallbacksLocked r id) <->
  cb_ScenarioID c = id /\ exists k, sb_callbacks r !! k = Some c.
Proof.
  unfold scenarioCallbacksLocked. rewrite sort_by_In, filter_In, String.eqb_eq, <- list_elem_of_In, list_elem_of_fmap.
  split.
  - intros [([k c'] & -> & Hin) Hid]. apply elem_of_map_to_list in Hin. eauto.
  - intros [Hid [k Hk]]. split; [|done]. exists (k, c). split; [done|]. by apply elem_of_map_to_list.
Qed.

Lemma find_has_callback q r s : has_callback q r s -> exists c, List.find q (scenarioCallbacksLocked r (sn_ID s)) = Some c /\ q c = true /\
  cb_ScenarioID c = sn_ID s.
Proof.
  intros (k & c & Hk & Hid & Hq).
  destruct (List.find q (scenarioCallbacksLocked r (sn_ID s))) as [c'|] eqn:E.
  - apply List.find_some in E as [Hin Hq']. apply scenarioCallbacks_spec in Hin as [? _]. eauto.
  - assert (Hin : In c (scenarioCallbacksLocked r (sn_ID s))) by (apply scenarioCallbacks_spec; eauto).
    apply (List.find_none _ _ E) in Hin. congruence.
Qed.

(** A scenario after its payment: closed business, callbacks only. *)
Definition delivering (q : Callback -> bool) (r : MemoryRepository) (s : Scenario) (status : string) : Prop :=
  si_Status (sn_Intent s) = status /\ has_callback q r s.

(** What the next delivery needs: for the duplicate scenario any callback will do. *)
Definition deliverable (s : Scenario) (c : Callback) : bool := (sn_Kind s == ScenarioDuplicateCallback) || open_callback c.

Lemma callback_delivers r p w s a status q :
  delivering (deliverable s) r s status -> ac_CallbackID a = "" -> ac_Type a <> ActionCallbackOutOfOrder ->
  existsb_str (ac_Type a) [ActionCallbackDeliver; ActionCallbackFail; ActionCallbackTimeout; ActionDeadLetter] = true ->
  (sn_Kind s = ScenarioDuplicateCallback -> ac_Type a = ActionCallbackDeliver) ->
  (forall c c', attempt_of w a c = Ok c' -> q c' = true) ->
  exists r' w' s', advance r p w s a = Ok (r', w', s') /\ same_scenario s s' /\ delivering q r' s' status.
Proof.
  intros [Hst Hcb] Hid Hoo Hty Hk Hq. destruct (find_has_callback _ _ _ Hcb) as (c0 & Hf & Ho & Hs0).
  assert (Hc : exists c, callbackForActionLocked r (set_updated s (ws_Clock w)) a = Ok c /\
    (ac_Type a = ActionDeadLetter -> open_callback c = true)).
  { unfold callbackForActionLocked. cbn [sn_ID sn_Kind set_updated]. rewrite Hid. cbn [String.eqb negb]. cbv zeta.
    destruct (scenarioCallbacksLocked r (sn_ID s)) as [|d l] eqn:El; [done|].
    unfold deliverable in Hf, Ho. destruct (sn_Kind s == ScenarioDuplicateCallback) eqn:Ed; cbn [orb andb] in *.
    { apply String.eqb_eq in Ed. rewrite (Hk Ed), String.eqb_refl. by exists d. }
    rewrite (eqb_false _ _ Hoo). exists c0. split; [|done].
    assert (Hf' : List.find open_callback (d :: l) = Some c0) by exact Hf. by rewrite Hf'. }
  destruct Hc as (c & Hc & Hdead).
  assert (Hat : exists c', attempt_of w a c = Ok c').
  { unfold attempt_of. cbv zeta. destruct (_ || _) eqn:E0; [eauto|]. destruct (ac_Type a == ActionCallbackFail) eqn:E1; [eauto|].
    destruct (ac_Type a == ActionCallbackTimeout) eqn:E2; [eauto|]. bool_hyp.
    rewrite Hdead; [eauto|]. apply existsb_str_In in Hty. cbn in Hty. naive_solver. }
  destruct Hat as [c' Hat].
  assert (Happ : applyActionLocked sha256 encode_json marshal_event r p w (set_updated s (ws_Clock w)) a =
    callback_action sha256 encode_json r p w (set_updated s (ws_Clock w)) a).
  { unfold applyActionLocked. cbv zeta. apply existsb_str_In in Hty. cbn in Hty.
    destruct Hty as [<-|[<-|[<-|[<-|[]]]]]; done. }
  unfold advance_action. rewrite Happ. unfold callback_action. rewrite Hc. unfold mbind, result_bind. rewrite Hat.
  eexists _, _, _. split; [reflexivity|]. split; [done|]. split; [done|].
  exists (cb_ID c'), c'. cbn. split; [apply lookup_insert_eq|]. split; [|by eapply Hq].
  rewrite (attempt_of_scenario _ _ _ _ Hat), (callbackForAction_scenario _ _ _ _ Hc). done.
Qed.

Definition failed_callback (c : Callback) : bool := (cb_Status c == "retry") || (cb_Status c == "dead_letter").

Lemma recover_delivers r p w s status : delivering failed_callback r s status -> status <> "reorg_review" ->
  exists r' w' s', advance r p w s (plain_action ActionRecover) = Ok (r', w', s') /\ same_scenario s s' /\
    si_Status (sn_Intent s') = status.
Proof.
  intros [Hst Hcb] Hne. destruct (find_has_callback _ _ _ Hcb) as (c & Hf & _).
  unfold advance_action.
  change (applyActionLocked _ _ _ _ _ _ _ (plain_action ActionRecover)) with (recover sha256 encode_json marshal_event r p w (set_updated s (ws_Clock w))).
  unfold recover, callbackForRecoveryLocked. cbn [sn_Intent set_updated sn_ID]. rewrite Hst, (eqb_false _ _ Hne).
  unfold failed_callback in Hf. rewrite Hf. eexists _, _, _. split; [reflexivity|]. done.
Qed.

(** *** Runs *)

Definition run_ends (r : MemoryRepository) (p : Principal) (w : Workspace) (s : Scenario) (actions : list Action) (status : string)
    : Prop :=
  exists r' w' s', run_actions sha256 encode_json marshal_event r p w s actions = (r', Ok (w', s')) /\
    si_Status (sn_Intent s') = status /\ same_scenario s s'.

Lemma run_ends_nil r p w s status : si_Status (sn_Intent s) = status -> run_ends r p w s [] status.
Proof. intros H. by exists r, w, s. Qed.

Lemma run_ends_step r p w s a rest status (P : MemoryRepository -> Scenario -> Prop) :
  (exists r' w' s', advance r p w s a = Ok (r', w', s') /\ same_scenario s s' /\ P r' s') ->
  (forall r' w' s', same_scenario s s' -> P r' s' -> run_ends r' p w' s' rest status) ->
  run_ends r p w s (a :: rest) status.
Proof.
  intros (r1 & w1 & s1 & Ha & Hs & HP) Hrest. destruct (Hrest r1 w1 s1 Hs HP) as (r' & w' & s' & Hr & Hst & Hs').
  exists r', w', s'. cbn [run_actions]. rewrite Ha. split; [done|]. split; [done|]. by eapply same_scenario_trans.
Qed.

Lemma run_ends_reaches n r p w s a rest status st am c f : reaches n r p w s a st am c f ->
  (forall r' w' s', same_scenario s s' -> stage n r' p s' st am c f -> run_ends r' p w' s' rest status) ->
  run_ends r p w s (a :: rest) status.
Proof. intros H Hrest. by eapply (run_ends_step _ _ _ _ _ _ _ (fun r' s' => stage n r' p s' st am c f)). Qed.

Lemma confirm_action_same s s' : same_scenario s s' -> confirm_action s = confirm_action s'.
Proof. intros (_ & _ & _ & _ & _ & _ & _ & _ & _ & Hr). unfold confirm_action. by rewrite Hr. Qed.

(** Observing, confirming and finalizing an amount that is enough. *)
Lemma run_paid n r p w s amount o x rest status : alive (n + 3) r p s -> 0 <= n ->
  si_Status (sn_Intent s) = "pending" -> sn_Confirmations s = 0 -> sn_Kind s <> ScenarioLate -> amount <> "" ->
  Parse amount = Ok o -> Parse (sr_ExpectedAmountAtomic (sn_Route s)) = Ok x -> 0 < x -> o <> 0 ->
  (forall r' w' s', same_scenario s s' ->
     stage n r' p s' (if o <? x then "partially_paid" else if x <? o then "overpaid" else "settled") amount
       (sr_RequiredConfirmations (sn_Route s)) true -> run_ends r' p w' s' rest status) ->
  run_ends r p w s (observe_action amount (sr_AssetID (sn_Route s)) :: confirm_action s :: plain_action ActionFinalize :: rest) status.
Proof.
  intros Ha Hn Hst Hc Hk Hne Ho Hx Hx0 Hnz Hrest.
  replace (n + 3) with (n + 2 + 1) in Ha by lia.
  eapply run_ends_reaches; [apply (observe_reaches (n + 2) r p w s amount o x); [done|lia|done|done|done|done|done|lia|lia]|].
  intros r1 w1 s1 Hs1 Hg1. rewrite Hc in Hg1. replace (n + 2) with (n + 1 + 1) in Hg1 by lia.
  assert (Hreq : sr_RequiredConfirmations (sn_Route s1) = sr_RequiredConfirmations (sn_Route s)) by apply Hs1.
  assert (Hexp : sr_ExpectedAmountAtomic (sn_Route s1) = sr_ExpectedAmountAtomic (sn_Route s)) by apply Hs1.
  rewrite (confirm_action_same _ _ Hs1).
  eapply run_ends_reaches; [eapply (confirm_reaches (n + 1)); [exact Hg1|lia| | |by exists o]|].
  { destruct (o <? x); auto. }
  { pose proof (al_required _ _ _ _ Ha). lia. }
  intros r2 w2 s2 Hs2 Hg2. rewrite Hreq in Hg2.
  assert (Hexp2 : sr_ExpectedAmountAtomic (sn_Route s2) = sr_ExpectedAmountAtomic (sn_Route s1)) by apply Hs2.
  assert (Hreq2 : sr_RequiredConfirmations (sn_Route s2) = sr_RequiredConfirmations (sn_Route s1)) by apply Hs2.
  eapply run_ends_reaches; [eapply (finalize_reaches n); [exact Hg2|done|lia|done|rewrite Hexp2, Hexp; exact Hx|]|].
  { destruct (o <? x); cbn; auto. }
  intros r3 w3 s3 Hs3 Hg3. apply Hrest; [eapply same_scenario_trans; [done|]; by eapply same_scenario_trans|].
  by destruct (o <? x).
Qed.

Lemma parsed_text e x : Parse e = Ok x -> 0 <= x < amount_limit /\ bigint_of e = x /\ e <> "".
Proof.
  intros (Hc & -> & Hv)%Parse_canonical. split; [done|]. unfold bigint_of. rewrite (canonical_digits e Hc).
  split; [done|]. by intros ->.
Qed.

Lemma dec_text n : 0 <= n < amount_limit -> Parse (dec_string n) = Ok n /\ dec_string n <> "".
Proof.
  intros Hn. pose proof (Parse_AmountString n Hn) as H. unfold AmountString in H. split; [done|].
  by apply parsed_text in H as (_ & _ & ?).
Qed.

(** Where each named scenario ends. *)
Definition template_status (kind : string) : string :=
  if (kind == ScenarioPartial) || (kind == ScenarioUnder) then "partially_paid"
  else if kind == ScenarioOver then "overpaid"
  else if (kind == ScenarioLate) || (kind == ScenarioWrongAsset) then "needs_review"
  else if kind == ScenarioReorg then "reorg_review"
  else "settled".

Lemma delivering_of_stage n r p s status am c f : stage n r p s status am c f -> delivering (deliverable s) r s status.
Proof.
  intros [_ Hst _ _ _ (k & cb & Hk & Hid & Ho)]. split; [done|]. exists k, cb. unfold deliverable. by rewrite Ho, orb_true_r.
Qed.

Lemma kind_same s s' : same_scenario s s' -> sn_Kind s' = sn_Kind s.
Proof. intros H. apply H. Qed.

(** A scenario as it is created, and its run. *)
Section templates.
Context (r : MemoryRepository) (p : Principal) (w : Workspace) (s : Scenario) (x : Amount).
Hypothesis Ha : alive 8 r p s.
Hypothesis Hst : si_Status (sn_Intent s) = "pending".
Hypothesis Hc : sn_Confirmations s = 0.
Hypothesis Hx : Parse (sr_ExpectedAmountAtomic (sn_Route s)) = Ok x.
Hypothesis Hx0 : x <> 0.

Lemma template_pay amount o rest status : sn_Kind s <> ScenarioLate -> Parse amount = Ok o -> o <> 0 ->
  (forall r' w' s', same_scenario s s' ->
     stage 5 r' p s' (if o <? x then "partially_paid" else if x <? o then "overpaid" else "settled") amount
       (sr_RequiredConfirmations (sn_Route s)) true -> run_ends r' p w' s' rest status) ->
  run_ends r p w s (observe_action amount (sr_AssetID (sn_Route s)) :: confirm_action s :: plain_action ActionFinalize :: rest) status.
Proof.
  intros Hk Ho Hnz Hrest. destruct (parsed_text _ _ Ho) as (_ & _ & Hna). destruct (parsed_text _ _ Hx) as ([Hxn _] & _ & _).
  apply (run_paid 5 r p w s amount o x); try done; lia.
Qed.

Lemma template_settle rest status : sn_Kind s <> ScenarioLate ->
  (forall r' w' s', same_scenario s s' -> stage 5 r' p s' "settled" (sr_ExpectedAmountAtomic (sn_Route s))
       (sr_RequiredConfirmations (sn_Route s)) true -> run_ends r' p w' s' rest status) ->
  run_ends r p w s (observe_action (sr_ExpectedAmountAtomic (sn_Route s)) (sr_AssetID (sn_Route s)) :: confirm_action s ::
    plain_action ActionFinalize :: rest) status.
Proof. intros Hk Hrest. apply (template_pay _ x); [done..|]. by rewrite Z.ltb_irrefl. Qed.

Lemma template_exact : sn_Kind s = ScenarioExact -> run_ends r p w s (templateActions s) (template_status (sn_Kind s)).
Proof.
  intros Hk. unfold templateActions, template_status. cbv zeta. fold (confirm_action s). rewrite Hk. 
  change (run_ends r p w s (observe_action (sr_ExpectedAmountAtomic (sn_Route s)) (sr_AssetID (sn_Route s)) :: confirm_action s ::
    plain_action ActionFinalize :: [mkAction ActionCallbackDeliver "" "" 0 "" 204 "" "" 0 0]) "settled").
  apply template_settle; [by rewrite Hk|]. intros r1 w1 s1 Hs1 Hg1.
  eapply run_ends_step; [eapply (callback_delivers _ _ _ _ _ "settled" (fun _ => true)); [by eapply delivering_of_stage|done..]|].
  intros r2 w2 s2 _ [Hst2 _]. by apply run_ends_nil.
Qed.

Lemma template_partial : sn_Kind s = ScenarioPartial -> run_ends r p w s (templateActions s) (template_status (sn_Kind s)).
Proof.
  intros Hk. unfold templateActions, template_status. cbv zeta. fold (confirm_action s). rewrite Hk. destruct (parsed_text _ _ Hx) as ([Hxn Hxl] & Hbig & Hne).
  change (run_ends r p w s [observe_action (fraction (sr_ExpectedAmountAtomic (sn_Route s)) 1 2) (sr_AssetID (sn_Route s))] "partially_paid").
  assert (Hh : 0 <= x / 2 < x) by (split; [apply Z.div_pos|apply Z.div_lt]; lia).
  assert (Hp : Parse (fraction (sr_ExpectedAmountAtomic (sn_Route s)) 1 2) = Ok (x / 2)).
  { unfold fraction. rewrite Hbig, Z.mul_1_r. cbv zeta. destruct (x / 2 =? 0) eqn:E; bool_hyp; [by rewrite E|].
    apply dec_text. lia. }
  eapply run_ends_reaches; [apply (observe_reaches 0 r p w s _ (x / 2) x); try done; try lia|].
  + by apply (alive_mono 8).
  + by rewrite Hk.
  + by apply parsed_text in Hp as (_ & _ & ?).
  + intros r1 w1 s1 _ Hg1. rewrite (proj2 (Z.ltb_lt (x / 2) x)) in Hg1 by lia. by apply run_ends_nil, Hg1.
Qed.

Lemma template_under : sn_Kind s = ScenarioUnder -> x <> 1 -> run_ends r p w s (templateActions s) (template_status (sn_Kind s)).
Proof.
  intros Hk Hunder. unfold templateActions, template_status. cbv zeta. fold (confirm_action s). rewrite Hk. destruct (parsed_text _ _ Hx) as ([Hxn Hxl] & Hbig & Hne).
  change (run_ends r p w s (observe_action (decrement (sr_ExpectedAmountAtomic (sn_Route s))) (sr_AssetID (sn_Route s)) ::
    confirm_action s :: plain_action ActionFinalize :: []) "partially_paid").
  assert (Hp : Parse (decrement (sr_ExpectedAmountAtomic (sn_Route s))) = Ok (x - 1)).
  { unfold decrement. rewrite Hbig. cbv zeta. rewrite (proj2 (Z.leb_gt x 1)) by lia. apply dec_text. lia. }
  apply (template_pay _ (x - 1)); [by rewrite Hk|done|lia|]. intros r1 w1 s1 _ Hg1.
  rewrite (proj2 (Z.ltb_lt (x - 1) x)) in Hg1 by lia. by apply run_ends_nil, Hg1.
Qed.

Lemma template_over : sn_Kind s = ScenarioOver -> x + 1 < amount_limit -> run_ends r p w s (templateActions s) (template_status (sn_Kind s)).
Proof.
  intros Hk Hover. unfold templateActions, template_status. cbv zeta. fold (confirm_action s). rewrite Hk. destruct (parsed_text _ _ Hx) as ([Hxn Hxl] & Hbig & Hne).
  change (run_ends r p w s (observe_action (increment (sr_ExpectedAmountAtomic (sn_Route s))) (sr_AssetID (sn_Route s)) ::
    confirm_action s :: plain_action ActionFinalize :: []) "overpaid").
  assert (Hp : Parse (increment (sr_ExpectedAmountAtomic (sn_Route s))) = Ok (x + 1)).
  { unfold increment. rewrite Hbig. apply dec_text. lia. }
  apply (template_pay _ (x + 1)); [by rewrite Hk|done|lia|]. intros r1 w1 s1 _ Hg1.
  rewrite (proj2 (Z.ltb_ge (x + 1) x)), (proj2 (Z.ltb_lt x (x + 1))) in Hg1 by lia. by apply run_ends_nil, Hg1.
Qed.

Lemma template_late : sn_Kind s = ScenarioLate -> run_ends r p w s (templateActions s) (template_status (sn_Kind s)).
Proof.
  intros Hk. unfold templateActions, template_status. cbv zeta. fold (confirm_action s). rewrite Hk. destruct (parsed_text _ _ Hx) as ([Hxn Hxl] & Hbig & Hne).
  change (run_ends r p w s [observe_action (sr_ExpectedAmountAtomic (sn_Route s)) (sr_AssetID (sn_Route s))] "needs_review").
  eapply run_ends_reaches; [apply (review_reaches 0); [by apply (alive_mono 8)|done|done|done|by apply Ha|by left]|].
  intros r1 w1 s1 _ Hg1. by apply run_ends_nil, Hg1.
Qed.

Lemma template_wrong_asset : sn_Kind s = ScenarioWrongAsset -> run_ends r p w s (templateActions s) (template_status (sn_Kind s)).
Proof.
  intros Hk. unfold templateActions, template_status. cbv zeta. fold (confirm_action s). rewrite Hk. destruct (parsed_text _ _ Hx) as ([Hxn Hxl] & Hbig & Hne).
  change (run_ends r p w s [observe_action (sr_ExpectedAmountAtomic (sn_Route s)) (sr_AssetID (sn_Route s) +:+ "-wrong")] "needs_review").
  eapply run_ends_reaches; [apply (review_reaches 0); [by apply (alive_mono 8)|done|done|done| |right; split; [by rewrite Hk|]]|].
  + by destruct (sr_AssetID (sn_Route s)).
  + intros Heq. apply (f_equal len) in Heq. rewrite len_app in Heq. cbn in Heq. unfold len in Heq. cbn in Heq. lia.
  + intros r1 w1 s1 _ Hg1. by apply run_ends_nil, Hg1.
Qed.

Lemma template_duplicate : sn_Kind s = ScenarioDuplicateCallback -> run_ends r p w s (templateActions s) (template_status (sn_Kind s)).
Proof.
  intros Hk. unfold templateActions, template_status. cbv zeta. fold (confirm_action s). rewrite Hk. 
  change (run_ends r p w s (observe_action (sr_ExpectedAmountAtomic (sn_Route s)) (sr_AssetID (sn_Route s)) :: confirm_action s ::
    plain_action ActionFinalize :: [plain_action ActionCallbackDeliver; plain_action ActionCallbackDeliver]) "settled").
  apply template_settle; [by rewrite Hk|]. intros r1 w1 s1 Hs1 Hg1.
  eapply run_ends_step; [eapply (callback_delivers _ _ _ _ _ "settled" (fun _ => true)); [by eapply delivering_of_stage|done..]|].
  intros r2 w2 s2 Hs2 [Hst2 (k & c & Hcb & Hid & _)].
  eapply run_ends_step; [eapply (callback_delivers _ _ _ _ _ "settled" (fun _ => true)); [|done..]|].
  { split; [done|]. exists k, c. split; [done|]. split; [done|]. unfold deliverable. by rewrite (kind_same s s2), Hk by (by eapply same_scenario_trans). }
  intros r3 w3 s3 _ [Hst3 _]. by apply run_ends_nil.
Qed.

Lemma template_timeout : sn_Kind s = ScenarioTimeout -> run_ends r p w s (templateActions s) (template_status (sn_Kind s)).
Proof.
  intros Hk. unfold templateActions, template_status. cbv zeta. fold (confirm_action s). rewrite Hk. 
  change (run_ends r p w s (observe_action (sr_ExpectedAmountAtomic (sn_Route s)) (sr_AssetID (sn_Route s)) :: confirm_action s ::
    plain_action ActionFinalize :: [mkAction ActionCallbackTimeout "" "" 0 "" 0 "" "fixture timeout" 0 0; plain_action ActionRecover]) "settled").
  apply template_settle; [by rewrite Hk|]. intros r1 w1 s1 Hs1 Hg1.
  eapply run_ends_step; [eapply (callback_delivers _ _ _ _ _ "settled" failed_callback); [by eapply delivering_of_stage|done|done|done| |]|].
  { by rewrite (kind_same s s1), Hk. }
  { intros c c' [= <-]. done. }
  intros r2 w2 s2 _ Hd2. eapply run_ends_step; [by apply (recover_delivers r2 p w2 s2 "settled")|].
  intros r3 w3 s3 _ Hst3. by apply run_ends_nil.
Qed.

Lemma template_dead_letter : sn_Kind s = ScenarioDeadLetter -> run_ends r p w s (templateActions s) (template_status (sn_Kind s)).
Proof.
  intros Hk. unfold templateActions, template_status. cbv zeta. fold (confirm_action s). rewrite Hk. 
  change (run_ends r p w s (observe_action (sr_ExpectedAmountAtomic (sn_Route s)) (sr_AssetID (sn_Route s)) :: confirm_action s ::
    plain_action ActionFinalize :: [mkAction ActionCallbackFail "" "" 0 "" 503 "fixture unavailable" "" 0 0;
    plain_action ActionDeadLetter]) "settled").
  apply template_settle; [by rewrite Hk|]. intros r1 w1 s1 Hs1 Hg1.
  eapply run_ends_step; [eapply (callback_delivers _ _ _ _ _ "settled" open_callback); [by eapply delivering_of_stage|done|done|done| |]|].
  { by rewrite (kind_same s s1), Hk. }
  { intros c c' [= <-]. done. }
  intros r2 w2 s2 Hs2 [Hst2 (k & c & Hcb & Hid & Ho)].
  assert (Hk2 : sn_Kind s2 = ScenarioDeadLetter) by (rewrite (kind_same s s2); [done|by eapply same_scenario_trans]).
  eapply run_ends_step; [eapply (callback_delivers _ _ _ _ _ "settled" (fun _ => true)); [|done|done|done|by rewrite Hk2|done]|].
  { split; [done|]. exists k, c. split; [done|]. split; [done|]. unfold deliverable. by rewrite Ho, orb_true_r. }
  intros r3 w3 s3 _ [Hst3 _]. by apply run_ends_nil.
Qed.

Lemma template_reorg : sn_Kind s = ScenarioReorg -> run_ends r p w s (templateActions s) (template_status (sn_Kind s)).
Proof.
  intros Hk. unfold templateActions, template_status. cbv zeta. fold (confirm_action s). rewrite Hk. 
  change (run_ends r p w s (observe_action (sr_ExpectedAmountAtomic (sn_Route s)) (sr_AssetID (sn_Route s)) :: confirm_action s ::
    plain_action ActionFinalize :: [reorg_action]) "reorg_review").
  apply template_settle; [by rewrite Hk|]. intros r1 w1 s1 Hs1 Hg1.
  eapply run_ends_reaches; [eapply (reorg_reaches 4); [exact Hg1|done|by left|exact Hx|done]|].
  intros r2 w2 s2 _ Hg2. by apply run_ends_nil, Hg2.
Qed.

Lemma template_reorg_and_recovery : sn_Kind s = ScenarioReorgRecovery -> run_ends r p w s (templateActions s) (template_status (sn_Kind s)).
Proof.
  intros Hk. unfold templateActions, template_status. cbv zeta. fold (confirm_action s). rewrite Hk. 
  change (run_ends r p w s (observe_action (sr_ExpectedAmountAtomic (sn_Route s)) (sr_AssetID (sn_Route s)) :: confirm_action s ::
    plain_action ActionFinalize :: [reorg_action; plain_action ActionRecover; confirm_action s; plain_action ActionFinalize]) "settled").
  apply template_settle; [by rewrite Hk|]. intros r1 w1 s1 Hs1 Hg1.
  eapply run_ends_reaches; [eapply (reorg_reaches 4); [exact Hg1|done|by left|exact Hx|done]|]. intros r2 w2 s2 Hs2 Hg2.
  eapply run_ends_reaches; [eapply (recover_reaches 3); [exact Hg2|done|exact Hx|done]|]. intros r3 w3 s3 Hs3 Hg3.
  assert (Hs : same_scenario s s3) by (eapply same_scenario_trans; [exact Hs1|]; by eapply same_scenario_trans).
  rewrite (confirm_action_same _ _ Hs).
  eapply run_ends_reaches; [eapply (confirm_reaches 2); [exact Hg3|done|by left| |by exists x]|].
  { pose proof (al_required _ _ _ _ (sg_alive _ _ _ _ _ _ _ _ Hg3)). lia. }
  intros r4 w4 s4 Hs4 Hg4. cbn [String.eqb Ascii.eqb Bool.eqb] in Hg4.
  eapply run_ends_reaches; [eapply (finalize_reaches 1); [exact Hg4|done| |exact Hx| |by left]|].
  { destruct Hs4 as (_ & _ & _ & _ & _ & _ & _ & _ & _ & ->). done. }
  { destruct Hs4 as (_ & _ & _ & _ & _ & _ & _ & _ & -> & _). destruct Hs as (_ & _ & _ & _ & _ & _ & _ & _ & -> & _). exact Hx. }
  intros r5 w5 s5 _ Hg5. rewrite Z.ltb_irrefl in Hg5. by apply run_ends_nil, Hg5.
Qed.

End templates.

Lemma run_template r p w s x : alive 8 r p s -> si_Status (sn_Intent s) = "pending" -> sn_Confirmations s = 0 ->
  validScenario (sn_Kind s) = true -> sn_Kind s <> ScenarioOutOfOrder ->
  Parse (sr_ExpectedAmountAtomic (sn_Route s)) = Ok x -> x <> 0 ->
  (sn_Kind s = ScenarioUnder -> x <> 1) -> (sn_Kind s = ScenarioOver -> x + 1 < amount_limit) ->
  run_ends r p w s (templateActions s) (template_status (sn_Kind s)).
Proof.
  intros Ha Hst Hc Hv Hoo Hx Hx0 Hunder Hover. apply existsb_str_In in Hv. simpl in Hv.
  repeat match type of Hv with _ \/ _ => destruct Hv as [Hk|Hv] end; [..|done]; symmetry in Hk; eauto using
    template_exact, template_partial, template_under, template_over, template_late, template_wrong_asset, template_duplicate,
    template_timeout, template_dead_letter, template_reorg, template_reorg_and_recovery.
  by destruct Hoo.
Qed.

(** The workspace of a principal, if it exists, is usable. *)
Definition workspace_ok (r : MemoryRepository) (p : Principal) : Prop :=
  forall w, sb_workspaces r !! merchantScope p = Some w ->
    ws_Clock w <> 0 /\ ws_Addresses w <> [] /\ Forall (fun a => ta_Address a <> "") (ws_Addresses w).

Lemma workspaceLocked_ok r p r' w : workspace_ok r p -> workspaceLocked sha256 r p = (r', w) -> workspace_ok r' p.
Proof.
  intros Hok Hw. unfold workspaceLocked in Hw. cbv zeta in Hw. destruct (sb_workspaces r !! merchantScope p) as [w0|] eqn:E.
  { by injection Hw as <- <-. }
  injection Hw as <- <-. intros w'. cbn. rewrite lookup_insert_eq. intros [= <-]. split; [done|]. split; [done|].
  constructor; [done|]. constructor; [|done]. done.
Qed.

Lemma pick_address_In l chain asset a : pick_address l chain asset = Some a -> In a l.
Proof.
  unfold pick_address. destruct (List.find _ l) as [b|] eqn:E.
  - intros [= <-]. by apply List.find_some in E as [? _].
  - destruct l as [|b l]; [done|]. intros [= <-]. by left.
Qed.

Lemma safeName_nonempty n : safeName n = true -> n <> "".
Proof. by destruct n. Qed.

Lemma positive_amount_parse t : positive_amount t = true -> exists a, Parse t = Ok a /\ a <> 0.
Proof.
  unfold positive_amount. destruct (Parse t) as [a|]; [|done]. intros H%negb_true_iff%IsZero_false. by exists a.
Qed.

(** What the service checked of the command it hands to the repository. *)
Definition command_ok (cmd : CreateScenarioCmd) (x : Amount) : Prop :=
  validScenario (cs_Kind cmd) = true /\ positive_amount (cs_AmountMinor cmd) = true /\
  Parse (cs_ExpectedAmountAtomic cmd) = Ok x /\ x <> 0 /\ cs_ChainID cmd <> "" /\ cs_AssetID cmd <> "" /\
  1 <= cs_RequiredConfirmations cmd.

Lemma created_alive r p cmd key h r' s x : CreateScenario sha256 encode_json marshal_event r p cmd key h = (r', Ok (s, false)) ->
  workspace_ok r p -> p_MerchantID p <> "" -> command_ok cmd x ->
  exists s0, s = clone s0 /\ sb_scenarios r' !! sn_ID s = Some s0 /\ sameMerchant p s0 = true /\ alive 8 r' p s0 /\
    si_Status (sn_Intent s0) = "pending" /\ sn_Confirmations s0 = 0 /\ sn_Kind s0 = cs_Kind cmd /\
    sr_ExpectedAmountAtomic (sn_Route s0) = cs_ExpectedAmountAtomic cmd.
Proof.
  intros H Hws Hm (_ & Hpos & _ & _ & Hch & Has & Hreq). unfold CreateScenario in H. cbv zeta in H.
  destruct (validatePrincipal r p); [done|]. destruct (replayScenario _ _ _) as [[?|]|]; [done| |done].
  destruct (order_taken _ _ _); [done|]. destruct (workspaceLocked sha256 r p) as [r1 w] eqn:Ew.
  pose proof (workspaceLocked_ok _ _ _ _ Hws Ew) as Hw1. apply workspaceLocked_same in Ew as (_ & _ & _ & _ & _ & Hw & _).
  destruct (Hw1 _ Hw) as (Hclock & _ & Haddr).
  destruct (pick_address _ _ _) as [a|] eqn:Ea; [|done]. apply pick_address_In in Ea.
  rewrite Forall_forall in Haddr. specialize (Haddr a (proj2 (list_elem_of_In _ _) Ea)).
  destruct (positive_amount_parse _ Hpos) as (m & Hpm & _).
  destruct (emit r1 p _ _ _) as [[r2 s2]|] eqn:E2; [|done]. apply emit_inv in E2 as (e2 & c2 & -> & Hq2 & _ & -> & _).
  destruct (emit _ p _ _ _) as [[r3 s3]|] eqn:E3; [|done]. apply emit_inv in E3 as (e3 & c3 & -> & Hq3 & _ & -> & _).
  injection H as <- <-. eexists. split; [reflexivity|]. split; [apply lookup_insert_eq|].
  split; [unfold sameMerchant; cbn; by rewrite !String.eqb_refl|]. split; [|done].
  cbn in Hq2, Hq3. rewrite Hq2 in Hq3. change (int64 (int64 (0 + 1) + 1)) with 2 in Hq3.
  constructor; cbn; try done; try apply deterministicID_nonempty; [by exists m|by rewrite Hq3|].
  exists (next_workspace w). split; [apply lookup_insert_eq|done].
Qed.

Lemma prefix_app_inj a b c : a +:+ b = a +:+ c -> b = c.
Proof. induction a as [|ch a IH]; [done|]. intros [= H]. by apply IH. Qed.

Lemma create_keeps_run_key r p cmd key h r' out key' :
  CreateScenario sha256 encode_json marshal_event r p cmd key h = (r', out) ->
  sb_replays r' !! scoped p "scenario:run" key' = sb_replays r !! scoped p "scenario:run" key'.
Proof.
  assert (Hne : scoped p "scenario:create" key <> scoped p "scenario:run" key').
  { unfold scoped. intros Heq%prefix_app_inj%prefix_app_inj. discriminate Heq. }
  intros H. unfold CreateScenario in H. cbv zeta in H.
  destruct (validatePrincipal r p); [by injection H as <- _|]. destruct (replayScenario _ _ _) as [[?|]|]; [by injection H as <- _| |by injection H as <- _].
  destruct (order_taken _ _ _); [by injection H as <- _|]. destruct (workspaceLocked sha256 r p) as [r1 w] eqn:Ew.
  apply workspaceLocked_same in Ew as (_ & _ & Hrep & _). rewrite <- Hrep.
  destruct (pick_address _ _ _) as [a|]; [|by injection H as <- _].
  destruct (emit r1 p _ _ _) as [[r2 s2]|] eqn:E2; [|by injection H as <- _]. apply emit_inv in E2 as (e2 & c2 & _ & _ & _ & -> & _).
  destruct (emit _ p _ _ _) as [[r3 s3]|] eqn:E3; [|by injection H as <- _]. apply emit_inv in E3 as (e3 & c3 & _ & _ & _ & -> & _).
  injection H as <- _. cbn. by rewrite lookup_insert_ne.
Qed.

(** Every named scenario but the out-of-order delivery reaches the end it is
    named for: run right after it was created, it ends settled, overpaid,
    partially paid, in review or reorganized as the name says, without a panic,
    provided an underpayment can be below the expected amount without being
    nothing and an overpayment still is an amount. *)
Theorem scenario_reaches_outcome r p cmd key h r1 s key' h' x :
  CreateScenario sha256 encode_json marshal_event r p cmd key h = (r1, Ok (s, false)) ->
  workspace_ok r p -> p_MerchantID p <> "" -> command_ok cmd x -> cs_Kind cmd <> ScenarioOutOfOrder ->
  (cs_Kind cmd = ScenarioUnder -> x <> 1) -> (cs_Kind cmd = ScenarioOver -> x + 1 < amount_limit) ->
  sb_replays r !! scoped p "scenario:run" key' = None ->
  exists r2 s', RunScenario sha256 encode_json marshal_event r1 p (sn_ID s) key' h' = (r2, Ok (s', false)) /\
    si_Status (sn_Intent s') = template_status (cs_Kind cmd) /\ sn_ID s' = sn_ID s.
Proof.
  intros Hcr Hws Hm Hcmd Hoo Hun Hov Hrep. pose proof Hcmd as (Hv & _ & Hx & Hx0 & _).
  destruct (created_alive _ _ _ _ _ _ _ _ Hcr Hws Hm Hcmd) as (s0 & -> & Hl & Hmine & Ha & Hst & Hc & Hk & He).
  pose proof (create_keeps_run_key _ _ _ _ _ _ _ key' Hcr) as Hkey. rewrite Hrep in Hkey.
  apply create_remembers in Hcr as [Hval _].
  rewrite <- Hk in *. rewrite <- He in Hx.
  unfold RunScenario. rewrite Hval. unfold replayScenario, own_scenario. rewrite Hkey, Hl, Hmine. cbv zeta.
  destruct (al_clock _ _ _ _ Ha) as (w & Hw & _). unfold workspaceLocked. cbv zeta. rewrite Hw.
  destruct (run_template r1 p w s0 x Ha Hst Hc Hv Hoo Hx Hx0 Hun Hov) as (r2 & w2 & s2 & Hrun & Hst2 & Hs2).
  rewrite Hrun. eexists _, _. split; [reflexivity|]. split; [done|]. cbn. apply Hs2.
Qed.
End outcomes.

(** ** Samples, and where runs go wrong *)

(** A stand-in for SHA-256 with 32 bytes of output. *)
Fixpoint mix (acc : Z) (s : string) : Z :=
  match s with EmptyString => acc | String c r => mix ((acc * 16777619 + code c + 7) mod 2 ^ 127) r end.
Fixpoint spread (n : nat) (z : Z) : string :=
  match n with O => "" | S m => String (chr (z mod 256)) (spread m (z / 256)) end.
Definition sample_digest (s : string) : string := let z := mix 14695981039346656037 s in spread 32 (z * (z + 1)).

Lemma sample_digest_len s : len (sample_digest s) = 32.
Proof. reflexivity. Qed.

Definition sample_body (e : Event) : result string string := Ok (ev_EventType e).
Definition no_payload (_ : JSON) : string := "".
Definition test_principal : Principal := mkPrincipal "test-tenant" "test-merchant" "" "mk_test_1" ∅.
Definition other_principal : Principal := mkPrincipal "test-tenant" "test-other" "" "mk_test_2" ∅.
Definition sample_command (kind amount : string) : CreateScenarioCmd :=
  mkCreateScenario kind "order-1" amount "USD" 2 "tron:testnet" "usdt-tron-test" amount 6 20.

Definition sample_created (kind amount : string) : MemoryRepository * result fault (Scenario * bool) :=
  CreateScenario sample_digest no_payload sample_body NewMemoryRepository test_principal (sample_command kind amount)
    "key-00001" "hash-1".
Definition scenario_of (out : MemoryRepository * result fault (Scenario * bool)) : Scenario :=
  match snd out with Ok (s, _) => s | Err _ => zero_scenario end.
Definition sample_run (out : MemoryRepository * result fault (Scenario * bool)) : MemoryRepository * result fault (Scenario * bool) :=
  RunScenario sample_digest no_payload sample_body (fst out) test_principal (sn_ID (scenario_of out)) "key-00002" "hash-2".

Definition is_new (out : MemoryRepository * result fault (Scenario * bool)) : bool :=
  match snd out with Ok (_, false) => true | _ => false end.

Lemma is_new_inv out : is_new out = true -> out = (fst out, Ok (scenario_of out, false)).
Proof. unfold is_new, scenario_of. by destruct out as [r [[s []]|]]. Qed.

Lemma sample_created_new : is_new (sample_created ScenarioReorgRecovery "1000") = true.
Proof. vm_compute. reflexivity. Qed.

Lemma scenario_reaches_outcome_witness :
  exists r2 s', sample_run (sample_created ScenarioReorgRecovery "1000") = (r2, Ok (s', false)) /\
    si_Status (sn_Intent s') = "settled".
Proof.
  destruct (scenario_reaches_outcome sample_digest no_payload sample_body sample_digest_len
    (fun e => ex_intro _ (ev_EventType e) eq_refl) NewMemoryRepository test_principal (sample_command ScenarioReorgRecovery "1000")
    "key-00001" "hash-1" (fst (sample_created ScenarioReorgRecovery "1000")) (scenario_of (sample_created ScenarioReorgRecovery "1000"))
    "key-00002" "hash-2" 1000) as (r2 & s' & Hr & Hs & _).
  - exact (is_new_inv _ sample_created_new).
  - intros w Hw. discriminate Hw.
  - discriminate.
  - repeat split; discriminate.
  - discriminate.
  - discriminate.
  - discriminate.
  - reflexivity.
  - exists r2, s'. split; [exact Hr|exact Hs].
Defined.

(** A state in which a run fails half-way: a part was observed, with more
    confirmations than the run will report. *)
Definition half_paid : MemoryRepository * result fault (Scenario * bool) :=
  let created := sample_created ScenarioExact "1000" in
  let id := sn_ID (scenario_of created) in
  let act r version a := ApplyAction sample_digest no_payload sample_body r test_principal id a ("key-action" +:+ FormatInt version) "h" in
  let observed := act (fst created) 1 (mkAction ActionObserve "1" "" 0 "" 0 "" "" 0 1) in
  act (fst observed) 2 (mkAction ActionConfirm "" "" 1000 "" 0 "" "" 0 2).

(** Running a scenario is not the transaction it is meant to be on the edges of
    its inputs: an underpayment of an expected amount of one unit and an
    overpayment of the largest amount panic, because nothing and more than 256
    bits cannot be published; and a run that is refused half-way leaves the
    callback of an event that no scenario has. *)
Theorem run_not_atomic :
  snd (sample_run (sample_created ScenarioUnder "1")) = Err (Panicked "observation webhook is incomplete") /\
  snd (sample_run (sample_created ScenarioOver (dec_string (2 ^ 256 - 1)))) = Err (Panicked "amount exceeds 256 bits") /\
  snd (sample_run half_paid) = Err (Failed (Wrapped ErrStateConflict "confirmations cannot decrease")) /\
  sb_scenarios (fst (sample_run half_paid)) !! sn_ID (scenario_of half_paid) =
    sb_scenarios (fst half_paid) !! sn_ID (scenario_of half_paid) /\
  length (sn_Events (scenario_of half_paid)) = 4%nat /\
  (cb_EventSequence <$> scenarioCallbacksLocked (fst (sample_run half_paid)) (sn_ID (scenario_of half_paid))) = [5; 4; 3; 2; 1].
Proof. do 5 (split; [vm_compute; reflexivity|]). vm_compute. reflexivity. Qed.

Definition sample_repository : MemoryRepository := fst (sample_created ScenarioExact "1000").

Lemma sample_repository_ok : repo_ok sample_repository.
Proof.
  apply (step_ok sample_digest no_payload sample_body NewMemoryRepository
    (test_principal, OpCreate (sample_command ScenarioExact "1000") "key-00001" "hash-1")).
  by intros ? ?.
Qed.

Lemma sample_stored :
  sb_scenarios sample_repository !! sn_ID (scenario_of (sample_created ScenarioExact "1000")) <> None /\
  forall s, sb_scenarios sample_repository !! sn_ID (scenario_of (sample_created ScenarioExact "1000")) = Some s ->
    sameMerchant other_principal s = false /\ sameMerchant test_principal s = true.
Proof. vm_compute. split; [done|]. intros s [= <-]. done. Qed.

Lemma sandbox_isolation_witness : forall s,
  sb_scenarios sample_repository !! sn_ID (scenario_of (sample_created ScenarioExact "1000")) = Some s ->
  sb_scenarios (sandbox_step sample_digest no_payload sample_body sample_repository (other_principal, OpReset 1 "key-00003" "hash"))
    !! sn_ID (scenario_of (sample_created ScenarioExact "1000")) = Some s.
Proof.
  intros s Hs.
  apply (sandbox_isolation sample_digest no_payload sample_body sample_repository other_principal (OpReset 1 "key-00003" "hash")).
  - exact sample_repository_ok.
  - intros cmd key hash Hop. discriminate Hop.
  - exact Hs.
  - exact (proj1 (proj2 sample_stored s Hs)).
Defined.

Definition sample_reset : MemoryRepository * result fault (ResetResult * bool) :=
  Reset sample_digest sample_repository test_principal 2 "key-00004" "hash".

Lemma sample_reset_done : sample_reset = (fst sample_reset, Ok (mkResetResult 1 2 3 DefaultClock, false)).
Proof. unfold sample_reset. vm_compute. reflexivity. Qed.

Lemma Reset_clears_witness : forall order, order_taken (fst sample_reset) test_principal order = false.
Proof.
  exact (proj1 (proj2 (proj2 (Reset_clears sample_digest sample_repository test_principal 2 "key-00004" "hash"
    (fst sample_reset) (mkResetResult 1 2 3 DefaultClock) sample_reset_done)))).
Defined.
