(* ===== verification/Workers.v ===== *)
(** * Workers: quotes, transfers, operators and the queue workers of internal/application

    quote.go, settlement.go (Process), proof_worker.go, operator.go, the
    resolution worker of exceptions.go and the matching worker of
    matching_automation.go. A worker is a function from what its collaborators
    answer to the calls it makes, in order. *)

From Stdlib Require Import ZArith Lia Ascii String.
From stdpp Require Import base gmap list strings.
From S2P Require Import Prelude Text Money Domain Encoding Commands Matching.

(** ** Quotes (quote.go) *)

Record AtomicRate := mkAtomicRate {
  ar_Numerator : Amount; ar_Denominator : Amount; ar_SpreadBPS : Z; ar_Source : string; ar_PolicyVersion : Z;
  ar_ObservedAt : Time; ar_MaxAge : Duration }.

Definition money_step {A} (r : result money_error A) : result error A :=
  match r with Ok a => Ok a | Err e => Err (Plain e) end.

(** The amount with the spread, rounded up. *)
Definition quote_atomic (intent : PaymentIntent) (rate : AtomicRate) : result error Amount :=
  base ← money_step (Mul (pi_AmountMinor intent) (ar_Numerator rate));
  base ← money_step (Mul base (10000 + ar_SpreadBPS rate));
  denominator ← money_step (Mul (ar_Denominator rate) 10000);
  money_step (DivCeil base denominator).

(** [rate] is the provider's answer, [id] the result of [ids.New], [save] that of
    [SaveQuote] ([None]: saved). *)
Definition Issue (p : Principal) (intent : PaymentIntent) (assetID : string) (ttl : Duration) (rate : result error AtomicRate)
    (now : Time) (id : option string) (save : RateQuote -> option error) : result error RateQuote :=
  if (ttl <? Minute) || (ttl >? Hour)
  then Err (Wrapped ErrValidation "quote TTL must be between one minute and one hour")
  else
    rate ← rate;
    if IsZero (ar_Denominator rate) || IsZero (ar_Numerator rate) || (ar_Source rate == "") || (ar_PolicyVersion rate <? 1)
    then Err (Wrapped ErrInvariantViolation "invalid rate")
    else if ar_SpreadBPS rate >? 10000
    then Err (Wrapped ErrInvariantViolation "spread exceeds 10000 basis points")
    else if (ar_MaxAge rate <=? 0) || (SubTime now (ar_ObservedAt rate) >? ar_MaxAge rate)
            || After (ar_ObservedAt rate) (AddTime now (30 * Second))
    then Err (Wrapped ErrStateConflict "rate is stale")
    else
      atomic ← quote_atomic intent rate;
      match id with
      | None => Err (Plain "generate UUID randomness")
      | Some id =>
          let quote := mkRateQuote id (p_TenantID p) (p_MerchantID p) (pi_ID intent) (pi_AmountMinor intent)
            (pi_Currency intent) (pi_CurrencyScale intent) assetID atomic (ar_Numerator rate) (ar_Denominator rate)
            (ar_SpreadBPS rate) (ar_Source rate) (ar_PolicyVersion rate) now (AddTime now ttl) in
          match save quote with Some err => Err err | None => Ok quote end
      end.

Definition Assign (now : Time) (intentID chainID : string) (until : Time)
    (lease : string -> string -> Time -> result error AddressAssignment) : result error AddressAssignment :=
  if (intentID == "") || (chainID == "") || negb (After until now)
  then Err (Wrapped ErrValidation "intent, chain, and future assignment expiry are required")
  else lease intentID chainID until.

(** ** Transfers (settlement.go) *)

Inductive SettlementOutcome :=
| SettlementObserved | SettlementDuplicate | SettlementSettled | SettlementUnmatched | SettlementAmbiguous
| SettlementIgnored.

Record SettlementResult := mkSettlementResult {
  se_Outcome : SettlementOutcome; se_TransferEventID : string; se_PaymentIntentID : string; se_PaymentRouteID : string;
  se_SettlementID : string; se_WebhookEventID : string }.

(** ** The errors as the workers report them (domain/errors.go) *)

Definition sentinel_text (s : Sentinels) : string :=
  match s with
  | ErrNotFound => "resource not found"
  | ErrValidation => "validation failed"
  | ErrIdempotencyConflict => "idempotency key was used with a different request"
  | ErrStateConflict => "operation is not valid in the current state"
  | ErrVersionConflict => "resource version is stale"
  | ErrInvariantViolation => "financial invariant violated"
  | ErrDependency => "required dependency is unavailable"
  end.

Definition error_text (e : error) : string :=
  match e with
  | Sentinel s => sentinel_text s
  | Wrapped s msg => sentinel_text s +:+ ": " +:+ msg
  | Plain msg => msg
  end.

(** The first 512 bytes of the text. *)
Definition reason_of (e : error) : string := str_take 512 (error_text e).

(** [time.Duration(attempt*attempt) * time.Second] *)
Definition square_delay (attempt : Z) : Duration := int64 (int64 (attempt * attempt) * Second).

Definition lease_of (lease : Duration) : Duration := if lease <=? 0 then 30 * Second else lease.
Definition attempts_of (limit : Z) : Z := if limit <? 1 then 20 else limit.

(** ** The proof worker (proof_worker.go) *)

Record ProofJob := mkProofJob { pj_Proof : PaymentProof; pj_ClaimToken : string; pj_Attempt : Z }.

Inductive proof_call :=
| ProofClaim (workerID chainID : string) (now : Time) (lease : Duration) (limit : Z)
| ProofLookup (chainID transactionID : string)
| ProofIngest (event : TransferEvent)
| ProofComplete (job : ProofJob) (eventIDs : list string) (now : Time)
| ProofRetry (job : ProofJob) (next : Time) (reason : string) (status : ProofStatus).

(** What the collaborators answer to one job: the lookup, the settlement of each
    event, the completion and the retry ([None]: done). *)
Record proof_answers := mkProofAnswers {
  pa_lookup : result error (list TransferEvent); pa_ingest : TransferEvent -> result error SettlementResult;
  pa_complete : option error; pa_retry : option error }.

Section transfers.
(** SHA-256, and the clock [Process] reads. *)
Context (sha256 : string -> string) (clock : Time).

(** [Process] and whether the store was called. *)
Definition Process (ingest : TransferEvent -> result error SettlementResult) (event : TransferEvent)
    : bool * result error SettlementResult :=
  match ProcessGuards sha256 clock event with
  | Err e => (false, Err e)
  | Ok _ => (true, ingest event)
  end.

(** The events in order, up to the first that fails; the calls and the
    identifiers of those that were processed. *)
Fixpoint process_events (ingest : TransferEvent -> result error SettlementResult) (events : list TransferEvent)
    : list proof_call * result error (list string) :=
  match events with
  | [] => ([], Ok [])
  | event :: rest =>
      let '(called, out) := Process ingest event in
      let calls := if called then [ProofIngest event] else [] in
      match out with
      | Err e => (calls, Err e)
      | Ok _ =>
          let '(more, ids) := process_events ingest rest in
          (calls ++ more, match ids with Ok ids => Ok (te_ID event :: ids) | Err e => Err e end)
      end
  end.

Definition proof_job (now : Time) (maxAttempts : Z) (job : ProofJob) (a : proof_answers) : list proof_call * option string :=
  let name := "proof " +:+ pp_ID (pj_Proof job) in
  let next := AddTime now (square_delay (pj_Attempt job)) in
  let look := ProofLookup (pp_ChainID (pj_Proof job)) (pp_TransactionID (pj_Proof job)) in
  let give_back calls (err : error) :=
    let terminal := if pj_Attempt job >=? maxAttempts then ProofInvalid else ProofQueued in
    (calls ++ [ProofRetry job next (reason_of err) terminal],
     Some (match pa_retry a with
           | Some retryErr => name +:+ ": " +:+ error_text err +:+ "; retry: " +:+ error_text retryErr
           | None => name +:+ ": " +:+ error_text err
           end)) in
  match pa_lookup a with
  | Ok [] =>
      let status := if pj_Attempt job >=? maxAttempts then ProofNotFound else ProofQueued in
      ([look; ProofRetry job next "transaction contains no supported transfer events" status],
       match pa_retry a with
       | Some retryErr => Some (name +:+ " not-found acknowledgement: " +:+ error_text retryErr)
       | None => None
       end)
  | Err e => give_back [look] e
  | Ok events =>
      let '(calls, ids) := process_events (pa_ingest a) events in
      match ids with
      | Err e => give_back (look :: calls) e
      | Ok ids =>
          let calls := look :: calls ++ [ProofComplete job ids now] in
          match pa_complete a with None => (calls, None) | Some e => give_back calls e end
      end
  end.

Definition Proof_RunBatch (workerID chainID : string) (limit : Z) (lease : Duration) (maxAttempts : Z) (now : Time)
    (claim : result error (list ProofJob)) (answer : nat -> proof_answers)
    : list proof_call * result error (nat * list string) :=
  if (workerID == "") || (chainID == "") || (limit <? 1) || (limit >? 100)
  then ([], Err (Plain "invalid proof worker configuration"))
  else match claim with
       | Err e => ([ProofClaim workerID chainID now (lease_of lease) limit], Err e)
       | Ok jobs =>
           let runs := imap (fun i job => proof_job now (attempts_of maxAttempts) job (answer i)) jobs in
           (ProofClaim workerID chainID now (lease_of lease) limit :: concat (fst <$> runs), Ok (length jobs, concat (option_list ∘ snd <$> runs)))
       end.
End transfers.

(** ** The resolution worker (exceptions.go) *)

Record ResolutionJob := mkResolutionJob { rj_Resolution : ManualResolution; rj_Expected : TransferEvent }.

Inductive resolution_call :=
| ResolutionClaim (workerID chainID : string) (now : Time) (lease : Duration) (limit : Z)
| ResolutionApply (r : ManualResolution) (expected : TransferEvent)
| ResolutionReject (r : ManualResolution) (reason : string)
| ResolutionRetry (r : ManualResolution) (next : Time) (reason : string) (dead : bool).

Record resolution_answers := mkResolutionAnswers {
  ra_apply : option error; ra_reject : option error; ra_retry : option error }.

Section resolutions.
Context (sha256 : string -> string).

Definition Resolve (resolution : ManualResolution) (expected : TransferEvent) (apply : option error)
    : list resolution_call * option error :=
  if mr_Reason resolution == "" then ([], Some (Wrapped ErrValidation "a valid operator reason is required"))
  else if match IdentityKey sha256 (te_Identity expected) with Ok _ => false | Err _ => true end
          || (te_ID expected == "") || IsZero (te_Amount expected) || negb (bool_decide (te_Status expected = TransferFinalized))
  then ([], Some (Wrapped ErrInvariantViolation "a canonical finalized scanner event is required"))
  else ([ResolutionApply resolution expected], apply).

Definition resolution_job (now : Time) (maxAttempts : Z) (job : ResolutionJob) (a : resolution_answers)
    : list resolution_call * option string :=
  let r := rj_Resolution job in
  let name := "resolution " +:+ mr_ID r +:+ ": " in
  let '(calls, out) := Resolve r (rj_Expected job) (ra_apply a) in
  match out with
  | None => (calls, None)
  | Some err =>
      if errors_Is err ErrValidation then
        (calls ++ [ResolutionReject r (reason_of err)],
         match ra_reject a with
         | Some rejectErr => Some (name +:+ error_text err +:+ "; reject: " +:+ error_text rejectErr)
         | None => None
         end)
      else
        (calls ++ [ResolutionRetry r (AddTime now (square_delay (mr_Attempt r))) (reason_of err) (mr_Attempt r >=? maxAttempts)],
         Some (match ra_retry a with
               | Some retryErr => name +:+ error_text err +:+ "; retry: " +:+ error_text retryErr
               | None => name +:+ error_text err
               end))
  end.

Definition Resolution_RunBatch (workerID chainID : string) (limit : Z) (lease : Duration) (maxAttempts : Z) (now : Time)
    (claim : result error (list ResolutionJob)) (answer : nat -> resolution_answers)
    : list resolution_call * result error (nat * list string) :=
  if (workerID == "") || (chainID == "") || (limit <? 1) || (limit >? 100)
  then ([], Err (Plain "invalid resolution worker configuration"))
  else match claim with
       | Err e => ([ResolutionClaim workerID chainID now (lease_of lease) limit], Err e)
       | Ok jobs =>
           let runs := imap (fun i job => resolution_job now (attempts_of maxAttempts) job (answer i)) jobs in
           (ResolutionClaim workerID chainID now (lease_of lease) limit :: concat (fst <$> runs), Ok (length jobs, concat (option_list ∘ snd <$> runs)))
       end.
End resolutions.

(** ** The matching worker (matching_automation.go) *)

Record AutomatedMatchingJob := mkMatchingJob { mj_RouteID : string; mj_LeaseToken : string; mj_Attempt : Z }.

Inductive matching_call :=
| MatchingClaim (workerID : string) (now : Time) (lease : Duration) (limit : Z)
| MatchingReconcile (job : AutomatedMatchingJob) (now : Time)
| MatchingRetry (job : AutomatedMatchingJob) (next : Time) (reason : string) (dead : bool).

(** The answers to the reconciliation and to the retry. *)
Definition matching_job (now : Time) (maxAttempts : Z) (job : AutomatedMatchingJob) (reconcile retry : option error)
    : list matching_call * option string :=
  let name := "matching route " +:+ mj_RouteID job +:+ ": " in
  match reconcile with
  | None => ([MatchingReconcile job now], None)
  | Some err =>
      ([MatchingReconcile job now;
        MatchingRetry job (AddTime now (square_delay (mj_Attempt job))) (reason_of err) (mj_Attempt job >=? maxAttempts)],
       Some (match retry with
             | Some retryErr => name +:+ error_text err +:+ "; retry: " +:+ error_text retryErr
             | None => name +:+ error_text err
             end))
  end.

Definition Matching_RunBatch (workerID : string) (limit : Z) (lease : Duration) (maxAttempts : Z) (now : Time)
    (claim : result error (list AutomatedMatchingJob)) (answer : nat -> option error * option error)
    : list matching_call * result error (nat * list string) :=
  if (workerID == "") || (limit <? 1) || (limit >? 500)
  then ([], Err (Plain "invalid automated matching worker configuration"))
  else match claim with
       | Err e => ([MatchingClaim workerID now (lease_of lease) limit], Err e)
       | Ok jobs =>
           let runs := imap (fun i job => matching_job now (attempts_of maxAttempts) job (fst (answer i)) (snd (answer i))) jobs in
           (MatchingClaim workerID now (lease_of lease) limit :: concat (fst <$> runs), Ok (length jobs, concat (option_list ∘ snd <$> runs)))
       end.

(** ** The operator's decisions (operator.go) *)

Record RequestManualResolutionCmd := mkRequestResolution {
  rm_Principal : Principal; rm_UnmatchedID : string; rm_TargetRouteID : string; rm_IdempotencyKey : string;
  rm_AcceptShortfall : bool; rm_AcceptLatePayment : bool; rm_AcceptCrossAsset : bool; rm_Reason : string;
  rm_RequestHash : string }.
Record ApproveManualResolutionCmd := mkApproveResolution {
  am_Principal : Principal; am_ResolutionID : string; am_ExpectedVersion : Z }.

Section operators.
(** [commandHash] of the fields of the request, and the store. *)
Context (commandHash : string -> string -> bool -> bool -> bool -> string -> result error string)
        (store_request : RequestManualResolutionCmd -> string -> result error (ManualResolution * bool))
        (store_approve : ApproveManualResolutionCmd -> result error ManualResolution).

Definition RequestManualResolution (cmd : RequestManualResolutionCmd) : result error (ManualResolution * bool) :=
  if negb (Allows (rm_Principal cmd) "operations:write") then Err (Plain "forbidden: operations:write scope is required")
  else if negb (ValidID (p_ActorID (rm_Principal cmd))) || negb (ValidID (rm_UnmatchedID cmd)) || negb (ValidID (rm_TargetRouteID cmd))
  then Err (Wrapped ErrValidation "actor and resolution targets must be canonical UUIDs")
  else if (len (rm_IdempotencyKey cmd) <? 8) || (len (rm_IdempotencyKey cmd) >? 255) || (TrimSpace (rm_Reason cmd) == "")
          || (len (rm_Reason cmd) >? 2048)
  then Err (Wrapped ErrValidation "idempotency key and human reason are required")
  else
    hash ← (if rm_RequestHash cmd == ""
            then commandHash (rm_UnmatchedID cmd) (rm_TargetRouteID cmd) (rm_AcceptShortfall cmd) (rm_AcceptLatePayment cmd)
                   (rm_AcceptCrossAsset cmd) (rm_Reason cmd)
            else Ok (rm_RequestHash cmd));
    store_request cmd hash.

Definition ApproveManualResolution (cmd : ApproveManualResolutionCmd) : result error ManualResolution :=
  if negb (Allows (am_Principal cmd) "operations:approve") then Err (Plain "forbidden: operations:approve scope is required")
  else if negb (ValidID (p_ActorID (am_Principal cmd))) || negb (ValidID (am_ResolutionID cmd)) || (am_ExpectedVersion cmd <? 1)
  then Err (Wrapped ErrValidation "actor, resolution, and expected_version are required")
  else store_approve cmd.

Definition ListUnmatched {A} (p : Principal) (after : string) (limit : Z) (store : string -> Z -> result error A) : result error A :=
  if negb (Allows p "operations:read") then Err (Plain "forbidden: operations:read scope is required")
  else
    let limit := if limit =? 0 then 50 else limit in
    if (limit <? 1) || (limit >? 100) || (after != "") && negb (ValidID after)
    then Err (Wrapped ErrValidation "invalid unmatched cursor or limit")
    else store after limit.

Definition GetCandidates {A} (p : Principal) (unmatchedID : string) (store : string -> result error A) : result error A :=
  if negb (Allows p "operations:read") then Err (Plain "forbidden: operations:read scope is required")
  else if negb (ValidID unmatchedID) then Err (Wrapped ErrValidation "unmatched id must be a canonical UUID")
  else store unmatchedID.
End operators.

(** ** What the quote promises *)

Definition quote_numerator (intent : PaymentIntent) (rate : AtomicRate) : Z :=
  pi_AmountMinor intent * ar_Numerator rate * (10000 + ar_SpreadBPS rate).
Definition quote_denominator (rate : AtomicRate) : Z := ar_Denominator rate * 10000.

Definition rate_usable (now : Time) (rate : AtomicRate) : Prop :=
  ar_Denominator rate <> 0 /\ ar_Numerator rate <> 0 /\ ar_Source rate <> "" /\ 1 <= ar_PolicyVersion rate /\
  ar_SpreadBPS rate <= 10000 /\ 0 < ar_MaxAge rate /\ SubTime now (ar_ObservedAt rate) <= ar_MaxAge rate /\
  ar_ObservedAt rate <= now + 30 * Second.

Lemma Mul_eval a b : 0 <= a -> 0 <= b -> Mul a b = if a * b <? amount_limit then Ok (a * b) else Err "amount overflow".
Proof.
  intros Ha Hb. unfold Mul, checked. rewrite BitLen_gt_256 by nia.
  destruct (a * b <? amount_limit) eqn:E, (amount_limit <=? a * b) eqn:E'; bool_hyp; done || lia.
Qed.

(** The amount of a quote: the rounded-up quotient, if the products fit. *)
Lemma quote_amount intent rate : 0 <= pi_AmountMinor intent -> 0 <= ar_Numerator rate -> 0 < ar_Denominator rate ->
  0 <= ar_SpreadBPS rate ->
  quote_atomic intent rate =
  if (quote_numerator intent rate <? amount_limit) && (quote_denominator rate <? amount_limit)
  then Ok (quo_ceil (quote_numerator intent rate) (quote_denominator rate)) else Err (Plain "amount overflow").
Proof.
  intros Ha Hn Hd Hb. unfold quote_atomic. rewrite (Mul_eval (pi_AmountMinor intent)) by done. unfold quote_numerator, quote_denominator.
  set (b1 := pi_AmountMinor intent * ar_Numerator rate). assert (0 <= b1) by (unfold b1; nia).
  unfold money_step, mbind, result_bind. destruct (b1 <? amount_limit) eqn:E1; bool_hyp.
  - rewrite Mul_eval by lia. destruct (b1 * (10000 + ar_SpreadBPS rate) <? amount_limit); [|done].
    rewrite Mul_eval by lia. cbn [andb]. destruct (ar_Denominator rate * 10000 <? amount_limit); [|done].
    unfold DivCeil, IsZero. rewrite (proj2 (Z.eqb_neq _ 0)) by lia. done.
  - assert (amount_limit <= b1 * (10000 + ar_SpreadBPS rate)) by nia.
    by rewrite (proj2 (Z.ltb_ge (b1 * _) amount_limit)).
Qed.

(** The guards of [Issue] are [rate_usable]. *)
Lemma rate_guards now rate :
  (IsZero (ar_Denominator rate) || IsZero (ar_Numerator rate) || (ar_Source rate == "") || (ar_PolicyVersion rate <? 1) = false /\
   (ar_SpreadBPS rate >? 10000) = false /\
   (ar_MaxAge rate <=? 0) || (SubTime now (ar_ObservedAt rate) >? ar_MaxAge rate)
     || After (ar_ObservedAt rate) (AddTime now (30 * Second)) = false) <-> rate_usable now rate.
Proof.
  unfold rate_usable, IsZero, After, AddTime. rewrite !orb_false_iff, !Z.eqb_neq, String.eqb_neq, !Z.gtb_ltb, !Z.ltb_ge, Z.leb_gt.
  tauto.
Qed.

Lemma quo_ceil_least N D q : 0 <= N -> 0 < D -> N <= q * D -> (forall a, N <= a * D -> q <= a) -> q = quo_ceil N D.
Proof.
  intros HN HD Hle Hmin. apply Z.le_antisymm; [|by apply quo_ceil_le].
  apply Hmin. pose proof (quo_ceil_spec N D _ HN HD eq_refl). lia.
Qed.

(** A quote asks for the least atomic amount that is worth the invoice at the
    rate with its spread: it is issued exactly for a lifetime of one minute to one
    hour from a usable rate, fresh and from a named source, whose products fit
    256 bits; the merchant is never short by rounding and the customer never
    pays a unit too much. *)
Theorem Issue_exact p intent assetID ttl rate now id save q :
  valid_amount (pi_AmountMinor intent) -> valid_amount (ar_Numerator rate) -> valid_amount (ar_Denominator rate) ->
  0 <= ar_SpreadBPS rate ->
  Issue p intent assetID ttl (Ok rate) now id save = Ok q <->
  Minute <= ttl <= Hour /\ rate_usable now rate /\
  quote_numerator intent rate < amount_limit /\ quote_denominator rate < amount_limit /\
  (exists i, id = Some i /\ q = mkRateQuote i (p_TenantID p) (p_MerchantID p) (pi_ID intent) (pi_AmountMinor intent)
     (pi_Currency intent) (pi_CurrencyScale intent) assetID (rq_CryptoAmountAtomic q) (ar_Numerator rate) (ar_Denominator rate)
     (ar_SpreadBPS rate) (ar_Source rate) (ar_PolicyVersion rate) now (now + ttl)) /\ save q = None /\
  quote_numerator intent rate <= rq_CryptoAmountAtomic q * quote_denominator rate /\
  (forall a, quote_numerator intent rate <= a * quote_denominator rate -> rq_CryptoAmountAtomic q <= a).
Proof.
  intros [Ha _] [Hn _] [Hd _] Hb. unfold Issue.
  destruct ((ttl <? Minute) || (ttl >? Hour)) eqn:Et.
  { split; [done|]. intros ([? ?] & _). rewrite Z.gtb_ltb in Et. apply orb_true_iff in Et as [Et|Et]; apply Z.ltb_lt in Et; lia. }
  apply orb_false_iff in Et as [Et1 Et2]. rewrite Z.gtb_ltb in Et2. apply Z.ltb_ge in Et1, Et2.
  pose proof (rate_guards now rate) as Hg. unfold mbind at 1, result_bind at 1.
  destruct (_ || (ar_PolicyVersion rate <? 1)); [split; [done|]; intros (_ & Hu & _); apply Hg in Hu as (? & _); done|].
  destruct (ar_SpreadBPS rate >? 10000); [split; [done|]; intros (_ & Hu & _); apply Hg in Hu as (_ & ? & _); done|].
  destruct (_ || After _ _); [split; [done|]; intros (_ & Hu & _); apply Hg in Hu as (_ & _ & ?); done|].
  assert (Hu : rate_usable now rate) by (by apply Hg). assert (Hd0 : 0 < ar_Denominator rate) by (destruct Hu; lia).
  pose proof (quote_amount intent rate Ha Hn Hd0 Hb) as Hq.
  set (N := quote_numerator intent rate) in *. set (D := quote_denominator rate) in *.
  assert (HN : 0 <= N) by (unfold N, quote_numerator; apply Z.mul_nonneg_nonneg; nia).
  assert (HD : 0 < D) by (unfold D, quote_denominator; lia).
  rewrite Hq. unfold mbind, result_bind. destruct ((N <? amount_limit) && (D <? amount_limit)) eqn:El.
  2:{ split; [done|]. intros (_ & _ & HNl & HDl & _). apply andb_false_iff in El as [El|El]; apply Z.ltb_ge in El; lia. }
  apply andb_true_iff in El as [HNl%Z.ltb_lt HDl%Z.ltb_lt].
  pose proof (quo_ceil_spec N D _ HN HD eq_refl) as Hc.
  destruct id as [i|]; [|split; [done|]; intros (_ & _ & _ & _ & (? & ? & _) & _); done].
  set (quote := mkRateQuote _ _ _ _ _ _ _ _ _ _ _ _ _ _ _ _).
  assert (Hquote : forall q, q = mkRateQuote i (p_TenantID p) (p_MerchantID p) (pi_ID intent) (pi_AmountMinor intent)
     (pi_Currency intent) (pi_CurrencyScale intent) assetID (rq_CryptoAmountAtomic q) (ar_Numerator rate) (ar_Denominator rate)
     (ar_SpreadBPS rate) (ar_Source rate) (ar_PolicyVersion rate) now (now + ttl) ->
     N <= rq_CryptoAmountAtomic q * D -> (forall a, N <= a * D -> rq_CryptoAmountAtomic q <= a) -> q = quote).
  { intros q' Hq' Hle Hmin. rewrite Hq', (quo_ceil_least N D (rq_CryptoAmountAtomic q')) by done. done. }
  destruct (save quote) as [e|] eqn:Esv; (split; [|intros (_ & _ & _ & _ & (? & [= <-] & Hqq) & Hsave & Hle & Hmin);
    rewrite (Hquote q Hqq Hle Hmin) in *; congruence]); [done|].
  intros [= <-]. do 4 (split; [done|]). split; [by exists i|]. split; [done|]. cbn [rq_CryptoAmountAtomic quote].
  split; [lia|]. intros a Hle. by apply (quo_ceil_le N D).
Qed.

Definition sample_rate : AtomicRate := mkAtomicRate 3 2 100 "feed" 1 1000 (60 * Second).
Definition sample_invoice : PaymentIntent :=
  mkPaymentIntent "intent" "" "" "" "" "" 100 "USD" 2 "" IntentUnset "" "" [] 0 0 0 0 None None [].
Definition sample_quote : RateQuote :=
  mkRateQuote "quote" "" "" "intent" 100 "USD" 2 "asset" 152 3 2 100 "feed" 1 1000 (1000 + Minute).

Lemma Issue_exact_witness :
  quote_numerator sample_invoice sample_rate <= 152 * quote_denominator sample_rate /\
  (forall a, quote_numerator sample_invoice sample_rate <= a * quote_denominator sample_rate -> 152 <= a).
Proof.
  destruct (proj1 (Issue_exact (mkPrincipal "" "" "" "" ∅) sample_invoice "asset" Minute sample_rate 1000 (Some "quote")
    (fun _ => None) sample_quote ltac:(split; [discriminate|reflexivity]) ltac:(split; [discriminate|reflexivity])
    ltac:(split; [discriminate|reflexivity]) ltac:(discriminate)) ltac:(vm_compute; reflexivity)) as (_ & _ & _ & _ & _ & _ & H1 & H2).
  exact (conj H1 H2).
Defined.

(** ** What the workers promise *)

Lemma square_delay_exact attempt : 0 <= attempt <= 96038 -> square_delay attempt = attempt * attempt * Second.
Proof.
  intros H. unfold square_delay. assert (0 <= attempt * attempt <= 96038 * 96038) by nia.
  rewrite (int64_id (attempt * attempt)) by (unfold is_int64, min_int64, max_int64; lia).
  apply int64_id. unfold is_int64, min_int64, max_int64. autounfold with gotime. lia.
Qed.

Definition is_proof_retry (c : proof_call) : bool := match c with ProofRetry _ _ _ _ => true | _ => false end.
Definition is_proof_complete (c : proof_call) : bool := match c with ProofComplete _ _ _ => true | _ => false end.
Definition count {A} (f : A -> bool) (l : list A) : nat := length (List.filter f l).

Section worker_facts.
Context (sha256 : string -> string) (clock : Time).

Lemma process_events_calls ingest events calls out : process_events sha256 clock ingest events = (calls, out) ->
  Forall (fun c => exists e, c = ProofIngest e /\ e ∈ events) calls /\
  (forall ids, out = Ok ids -> ids = te_ID <$> events /\ calls = ProofIngest <$> events /\
     Forall (fun e => ProcessGuards sha256 clock e = Ok tt /\ is_ok (ingest e) = true) events).
Proof.
  revert calls out. induction events as [|e events IH]; intros calls out H; cbn [process_events] in H.
  { injection H as <- <-. split; [constructor|]. intros ids [= <-]. repeat split. constructor. }
  unfold Process in H. destruct (ProcessGuards sha256 clock e) as [[]|] eqn:Eg.
  2:{ injection H as <- <-. split; [constructor|done]. }
  destruct (ingest e) as [res|] eqn:Ei.
  2:{ injection H as <- <-. split; [|done]. constructor; [|constructor]. exists e. split; [done|by left]. }
  destruct (process_events _ _ _ events) as [more ids] eqn:Er. injection H as <- <-.
  destruct (IH _ _ eq_refl) as [Hf Hok]. split.
  - constructor; [exists e; split; [done|by left]|]. eapply Forall_impl; [exact Hf|]. intros c (e' & -> & Hin). exists e'.
    split; [done|by right].
  - intros l. destruct ids as [ids|]; [|done]. intros [= <-]. destruct (Hok _ eq_refl) as (-> & -> & Hall).
    split; [done|]. split; [done|]. constructor; [by rewrite Ei|done].
Qed.

(** The end of a job is in what follows the settlements. *)
Definition only_ingests (pc : list proof_call) : Prop := Forall (fun c => exists e, c = ProofIngest e) pc.

Lemma run_tail chain tx pc tail : only_ingests pc ->
  let calls := ProofLookup chain tx :: pc ++ tail in
  count is_proof_retry calls = count is_proof_retry tail /\
  existsb is_proof_complete calls = existsb is_proof_complete tail /\
  (forall c, c ∈ calls -> is_proof_retry c || is_proof_complete c = true -> c ∈ tail).
Proof.
  intros Hpc calls. unfold calls. clear calls. induction Hpc as [|c pc [e ->] _ (IH1 & IH2 & IH3)].
  - split; [done|]. split; [done|]. intros c Hin Hc. apply elem_of_cons in Hin as [->|Hin]; done.
  - split; [exact IH1|]. split; [exact IH2|]. intros c Hin Hc. apply IH3; [|done].
    apply elem_of_cons in Hin as [->|Hin]; [done|]. cbn [app] in Hin. apply elem_of_cons in Hin as [->|Hin]; [done|]. by right.
Qed.

(** How one proof ends: what [tail] of calls follows the settlements. *)
Lemma proof_job_shape now maxAttempts job a calls failure :
  proof_job sha256 clock now maxAttempts job a = (calls, failure) ->
  exists pc tail, calls = ProofLookup (pp_ChainID (pj_Proof job)) (pp_TransactionID (pj_Proof job)) :: pc ++ tail /\
    only_ingests pc /\
    ((exists reason st, tail = [ProofRetry job (now + square_delay (pj_Attempt job)) reason
        (if pj_Attempt job >=? maxAttempts then st else ProofQueued)] /\ st <> ProofQueued) \/
     (exists events, pa_lookup a = Ok events /\ events <> [] /\ pc = ProofIngest <$> events /\
        Forall (fun e => ProcessGuards sha256 clock e = Ok tt /\ is_ok (pa_ingest a e) = true) events /\
        tail = ProofComplete job (te_ID <$> events) now ::
          match pa_complete a with
          | None => []
          | Some e => [ProofRetry job (now + square_delay (pj_Attempt job)) (reason_of e)
                         (if pj_Attempt job >=? maxAttempts then ProofInvalid else ProofQueued)]
          end)).
Proof.
  unfold proof_job. cbv zeta. intros H. destruct (pa_lookup a) as [[|e0 events]|e] eqn:El.
  - injection H as <- <-. eexists [], _. split; [reflexivity|]. split; [constructor|]. left. eexists _, ProofNotFound. done.
  - destruct (process_events _ _ _ _) as [pc out] eqn:Ep. destruct (process_events_calls _ _ _ _ Ep) as [Hf Hok].
    assert (Hpc : only_ingests pc) by (eapply Forall_impl; [exact Hf|]; naive_solver).
    destruct out as [ids|e].
    + destruct (Hok ids eq_refl) as (-> & Hpce & Hall). exists pc.
      destruct (pa_complete a) as [e|] eqn:Ec; injection H as <- <-; (eexists; split; [|split; [done|right; by exists (e0 :: events)]]);
        [|done]. cbn. by rewrite <- app_assoc.
    + injection H as <- <-. eexists pc, _. split; [reflexivity|]. split; [done|]. left. by eexists _, ProofInvalid.
  - injection H as <- <-. eexists [], _. split; [reflexivity|]. split; [constructor|]. left. by eexists _, ProofInvalid.
Qed.

Lemma attempts_left attempt maxAttempts st : st <> ProofQueued ->
  (if attempt >=? maxAttempts then st else ProofQueued) = ProofQueued <-> attempt < maxAttempts.
Proof. intros Hst. rewrite Z.geb_leb. destruct (maxAttempts <=? attempt) eqn:E; bool_hyp; split; try done; lia. Qed.

(** Every claimed proof is answered exactly once: it is either completed, or
    given back once for a retry after the square of the attempt in seconds,
    finally only when its attempts are used up. It is completed only with the
    transfers the verifier found, at least one, all of which passed the checks of
    a normalized transfer and were taken by the settlement store. *)
Theorem proof_answered_once now maxAttempts job a calls failure :
  proof_job sha256 clock now maxAttempts job a = (calls, failure) ->
  count is_proof_retry calls = (if existsb is_proof_complete calls && bool_decide (pa_complete a = None) then 0 else 1)%nat /\
  (forall j ids t, ProofComplete j ids t ∈ calls -> j = job /\ t = now /\
     exists events, pa_lookup a = Ok events /\ events <> [] /\ ids = te_ID <$> events /\
       Forall (fun e => ProcessGuards sha256 clock e = Ok tt /\ is_ok (pa_ingest a e) = true /\ ProofIngest e ∈ calls) events) /\
  (forall j next reason status, ProofRetry j next reason status ∈ calls -> j = job /\
     (0 <= pj_Attempt job <= 96038 -> next = now + pj_Attempt job * pj_Attempt job * Second) /\
     (status = ProofQueued <-> pj_Attempt job < maxAttempts)).
Proof.
  intros (pc & tail & -> & Hpc & Htail)%proof_job_shape.
  destruct (run_tail (pp_ChainID (pj_Proof job)) (pp_TransactionID (pj_Proof job)) pc tail Hpc) as (Hc & He & Hm).
  rewrite Hc, He. destruct Htail as [(reason & st & -> & Hst)|(events & Hl & Hne & -> & Hall & ->)].
  - split; [done|]. split; [intros j ids t Hin; apply Hm in Hin; [set_solver|done]|].
    intros j next reason' status Hin. apply Hm in Hin; [|done]. apply list_elem_of_singleton in Hin. injection Hin as -> -> -> ->.
    split; [done|]. split; [intros; by rewrite square_delay_exact|by apply attempts_left].
  - split; [by destruct (pa_complete a)|]. split.
    + intros j ids t Hin. apply Hm in Hin; [|done]. apply elem_of_cons in Hin as [Hin|Hin]; [|destruct (pa_complete a); set_solver].
      injection Hin as -> -> ->. do 2 (split; [done|]). exists events. do 3 (split; [done|]). rewrite Forall_forall in Hall |- *.
      intros e Hin. destruct (Hall e Hin). do 2 (split; [done|]). right. apply elem_of_app. left. by apply list_elem_of_fmap_2.
    + intros j next reason status Hin. apply Hm in Hin; [|done]. apply elem_of_cons in Hin as [|Hin]; [done|].
      destruct (pa_complete a); [|set_solver]. apply list_elem_of_singleton in Hin. injection Hin as -> -> -> ->.
      split; [done|]. split; [intros; by rewrite square_delay_exact|by apply attempts_left].
Qed.
End worker_facts.

Definition sample_proof : ProofJob := mkProofJob (mkPaymentProof "proof" "" "" "" "chain" "tx" ProofQueued [] 0 0 0) "token" 3.
Definition sample_answers : proof_answers := mkProofAnswers (Ok []) (fun _ => Err (Plain "")) None None.

Lemma proof_answered_once_witness :
  count is_proof_retry (fst (proof_job id 0 1000 20 sample_proof sample_answers)) = 1%nat /\
  (forall j next reason status, ProofRetry j next reason status ∈ fst (proof_job id 0 1000 20 sample_proof sample_answers) ->
     next = 1000 + 9 * Second /\ status = ProofQueued).
Proof.
  destruct (proof_answered_once id 0 1000 20 sample_proof sample_answers _ _ eq_refl) as (H1 & _ & H3).
  split; [exact H1|]. intros j next reason status Hin. destruct (H3 j next reason status Hin) as (_ & Hn & Hs).
  split; [apply Hn; cbn; lia|]. apply Hs. cbn. lia.
Defined.

Definition resolution_end (c : resolution_call) : bool :=
  match c with ResolutionReject _ _ | ResolutionRetry _ _ _ _ => true | _ => false end.

(** A claimed decision of an operator is applied only to a finalized, non-empty
    transfer with a valid identity and for a stated reason; whatever does not
    succeed is answered once: rejected for good exactly when the failure is one of
    validation, and otherwise given back for a retry after the square of the
    attempt in seconds, dead when its attempts are used up. *)
Theorem resolution_answered_once sha256 now maxAttempts job a calls failure :
  resolution_job sha256 now maxAttempts job a = (calls, failure) ->
  (forall r e, ResolutionApply r e ∈ calls -> r = rj_Resolution job /\ e = rj_Expected job /\ mr_Reason r <> "" /\
     te_ID e <> "" /\ te_Amount e <> 0 /\ te_Status e = TransferFinalized /\ is_ok (IdentityKey sha256 (te_Identity e)) = true) /\
  ((exists err, snd (Resolve sha256 (rj_Resolution job) (rj_Expected job) (ra_apply a)) = Some err /\
     count resolution_end calls = 1%nat /\
     (if errors_Is err ErrValidation then ResolutionReject (rj_Resolution job) (reason_of err) ∈ calls
      else ResolutionRetry (rj_Resolution job) (now + square_delay (mr_Attempt (rj_Resolution job))) (reason_of err)
             (mr_Attempt (rj_Resolution job) >=? maxAttempts) ∈ calls)) \/
   snd (Resolve sha256 (rj_Resolution job) (rj_Expected job) (ra_apply a)) = None /\
     calls = [ResolutionApply (rj_Resolution job) (rj_Expected job)] /\ failure = None).
Proof.
  unfold resolution_job. cbv zeta. intros H. destruct (Resolve _ _ _ _) as [rc out] eqn:Er. cbn [snd].
  assert (Hrc : rc = [] /\ out <> None \/ rc = [ResolutionApply (rj_Resolution job) (rj_Expected job)] /\
    mr_Reason (rj_Resolution job) <> "" /\ te_ID (rj_Expected job) <> "" /\ te_Amount (rj_Expected job) <> 0 /\
    te_Status (rj_Expected job) = TransferFinalized /\ is_ok (IdentityKey sha256 (te_Identity (rj_Expected job))) = true).
  { unfold Resolve in Er. destruct (_ == "") eqn:E1; [injection Er as <- <-; by left|].
    destruct (_ || negb _) eqn:E2; [injection Er as <- <-; by left|]. injection Er as <- <-. right. bool_hyp.
    unfold IsZero in *. bool_hyp. destruct (IdentityKey _ _); done. }
  assert (Hap : forall l, Forall (fun c => resolution_end c = true) l -> forall r e, ResolutionApply r e ∈ rc ++ l ->
    r = rj_Resolution job /\ e = rj_Expected job /\ mr_Reason r <> "" /\ te_ID e <> "" /\ te_Amount e <> 0 /\
    te_Status e = TransferFinalized /\ is_ok (IdentityKey sha256 (te_Identity e)) = true).
  { intros l Hl r e [Hin|Hin]%elem_of_app; [|rewrite Forall_forall in Hl; by apply Hl in Hin].
    destruct Hrc as [[-> _]|[-> Hrest]]; [by apply elem_of_nil in Hin|]. apply list_elem_of_singleton in Hin.
    injection Hin as -> ->. done. }
  destruct out as [err|].
  - assert (Hcount : count resolution_end rc = 0%nat) by (by destruct Hrc as [[-> _]|[-> _]]).
    unfold count in *. destruct (errors_Is err ErrValidation) eqn:Ei; injection H as <- <-;
      (split; [apply Hap; by apply Forall_singleton|left; exists err; rewrite List.filter_app, length_app, Hcount, Ei]); set_solver.
  - injection H as <- <-. split; [rewrite <- (app_nil_r rc); by apply Hap|]. right. by destruct Hrc as [[_ ?]|[-> _]].
Qed.

Definition sample_resolution : ManualResolution :=
  mkManualResolution "resolution" "" "" "" 0 "" "" "" false false false "" UnmatchedNew "" 0 None 0 "" 1.
Definition sample_transfer_event : TransferEvent :=
  mkTransferEvent "event" (mkIdentity "" "" "" "" "") "" "" 0 0 0 "" 0 0 TransferObserved "" "" "".

Lemma resolution_answered_once_witness :
  ResolutionReject sample_resolution (reason_of (Wrapped ErrValidation "a valid operator reason is required")) ∈
    fst (resolution_job id 0 20 (mkResolutionJob sample_resolution sample_transfer_event) (mkResolutionAnswers None None None)).
Proof.
  destruct (resolution_answered_once id 0 20 (mkResolutionJob sample_resolution sample_transfer_event)
    (mkResolutionAnswers None None None) _ _ eq_refl) as [_ [(err & He & _ & Hin)|(He & _)]].
  - injection He as <-. exact Hin.
  - discriminate He.
Defined.
