(* ===== verification/Retention.v ===== *)
(** * Retention: internal/retentionadmin (model.go, service.go, memory.go, scheduler.go)

    The retention control plane: effective retention policies that only change
    through a proposal, an independent approval and a scheduled activation, and
    legal holds that only end through an independent release or a recorded
    expiry. The service checks authority and shape; it is modelled against the
    interface [Repository], which the in-memory repository implements. *)

From Stdlib Require Import ZArith Lia Ascii String Permutation Sorted.
From stdpp Require Import base gmap list strings.
From S2P Require Import Prelude Text Encoding Rates.

(** ** Data (model.go) *)

Inductive retention_error :=
| RtErrUnauthenticated | RtErrForbidden | RtErrStepUpRequired | RtErrInvalid | RtErrNotFound | RtErrConflict
| RtErrIdempotencyConflict | RtErrGenerator.

Definition CallbackEventBody : string := "callback_event_body".
Definition EventHistoryPayload : string := "event_history_payload".
Definition PublishedOutbox : string := "published_outbox_payload".

Definition DataClass_Valid (c : string) : bool := (c == CallbackEventBody) || (c == EventHistoryPayload) || (c == PublishedOutbox).
Definition Prunable (c : string) : bool := c == PublishedOutbox.

(** [Scope] is its tenant. *)
Record RetentionGrant := mkRetentionGrant { rg_Permission : string; rg_TenantID : string }.
Record Operator := mkOperator {
  op_ActorID : string; op_SessionID : string; op_StepUpAt : Time; op_Grants : list RetentionGrant }.

Definition Operator_authorize (p : Operator) (permission scope : string) : result retention_error unit :=
  if existsb (fun g => (rg_Permission g == permission) && ((rg_TenantID g == "") || (rg_TenantID g == scope))) (op_Grants p)
  then Ok tt else Err RtErrForbidden.

Record RetentionIdempotency := mkIdempotency { ik_Key : string; ik_Fingerprint : string }.

Record PolicyProposal := mkPolicyProposal {
  pr_ArchiveAfterDays : Z; pr_PruneGraceDays : Z; pr_ObjectLockDays : Z; pr_PruneEnabled : bool }.

(** [PolicyDigest] is never set by the code modelled here. *)
Record EffectivePolicy := mkEffectivePolicy {
  ep_ID : string; ep_TenantID : string; ep_DataClass : string; ep_Version : Z; ep_ArchiveAfterDays : Z;
  ep_PruneGraceDays : Z; ep_ObjectLockDays : Z; ep_PruneEnabled : bool; ep_EffectiveAt : Time; ep_PolicyDigest : string;
  ep_HeadFence : Z; ep_LastActivatedAt : option Time }.

Inductive PolicyStatus :=
  PolicyPending | PolicyScheduled | PolicyActive | PolicyRejected | PolicyConflict | PolicyExpired.
#[export] Instance PolicyStatus_eq_dec : EqDecision PolicyStatus.
Proof. solve_decision. Defined.

Record PolicyChange := mkPolicyChange {
  pc_ID : string; pc_TenantID : string; pc_DataClass : string; pc_ExpectedEffectiveVersion : Z; pc_ExpectedHeadFence : Z;
  pc_Proposal : PolicyProposal; pc_Status : PolicyStatus; pc_Reason : string; pc_RequestedBy : string;
  pc_ApprovedBy : string; pc_RejectedBy : string; pc_DecisionReason : string; pc_ScheduledFor : Time; pc_ExpiresAt : Time;
  pc_ApprovedAt : option Time; pc_DecidedAt : option Time; pc_ActivatedAt : option Time; pc_CreatedAt : Time;
  pc_UpdatedAt : Time; pc_RowVersion : Z }.

Definition HoldTenant : string := "tenant".
Definition HoldMerchant : string := "merchant".
Definition HoldRecord : string := "record".

Record LegalHold := mkLegalHold {
  lh_ID : string; lh_TenantID : string; lh_DataClass : string; lh_ScopeType : string; lh_MerchantID : string;
  lh_SourceTable : string; lh_SourceRecordID : string; lh_CaseReference : string; lh_Reason : string; lh_CreatedBy : string;
  lh_CreatedAt : Time; lh_ExpiresAt : option Time; lh_ReleasedAt : option Time; lh_ReleasedBy : string;
  lh_ExpiredAt : option Time; lh_Version : Z }.

Definition State (h : LegalHold) : string :=
  match lh_ReleasedAt h with
  | Some _ => "released"
  | None => match lh_ExpiredAt h with Some _ => "expired" | None => "active" end
  end.

Inductive ReleaseStatus := ReleasePending | ReleaseCompleted | ReleaseRejected | ReleaseConflict | ReleaseExpired.
#[export] Instance ReleaseStatus_eq_dec : EqDecision ReleaseStatus.
Proof. solve_decision. Defined.

Record HoldReleaseRequest := mkHoldReleaseRequest {
  hr_ID : string; hr_TenantID : string; hr_HoldID : string; hr_ExpectedVersion : Z; hr_Status : ReleaseStatus;
  hr_Reason : string; hr_RequestedBy : string; hr_ApprovedBy : string; hr_RejectedBy : string; hr_DecisionReason : string;
  hr_CreatedAt : Time; hr_ExpiresAt : Time; hr_DecidedAt : option Time; hr_RowVersion : Z }.

Record RetentionPage (T : Type) := mkRetentionPage { pg_Items : list T; pg_NextCursor : string }.
Arguments mkRetentionPage {T}.
Arguments pg_Items {T}.
Arguments pg_NextCursor {T}.

Record RequestPolicyInput := mkRequestPolicyInput {
  rp_TenantID : string; rp_DataClass : string; rp_ExpectedEffectiveVersion : Z; rp_ExpectedHeadFence : Z;
  rp_Proposal : PolicyProposal; rp_ScheduledFor : Time; rp_Reason : string }.
Record RetentionDecision := mkDecisionInput { di_ExpectedRowVersion : Z; di_Reason : string }.
Record CreateHoldInput := mkCreateHoldInput {
  ch_TenantID : string; ch_DataClass : string; ch_ScopeType : string; ch_MerchantID : string; ch_SourceTable : string;
  ch_SourceRecordID : string; ch_CaseReference : string; ch_Reason : string; ch_ExpiresAt : option Time }.
Record RequestReleaseInput := mkRequestReleaseInput {
  rr_TenantID : string; rr_HoldID : string; rr_ExpectedHoldVersion : Z; rr_Reason : string }.

(** ** The repository interface (model.go [Repository])

    What a repository over states [S] offers the service: the operations that
    change it and the lists. The [option] is the answer of [ids.New] and the
    [Time] the reading of the repository's clock; [visit] fixes the order in which
    a repository that iterates over maps visits them and the ids it draws there. *)

Record visit := mkVisit {
  vi_changes : list string; vi_releases : list string; vi_due : list string; vi_holds : list string;
  vi_policy_ids : string -> string }.

Class Repository (S : Type) := {
  repo_ListPolicies : S -> string -> list EffectivePolicy;
  repo_ListPolicyChanges : S -> string -> string -> Z -> RetentionPage PolicyChange;
  repo_ListHolds : S -> Operator -> string -> string -> Z -> RetentionPage LegalHold;
  repo_ListReleaseRequests : S -> string -> string -> Z -> RetentionPage HoldReleaseRequest;
  repo_RequestPolicy : S -> Operator -> RequestPolicyInput -> RetentionIdempotency -> option string -> Time ->
    S * result retention_error PolicyChange;
  repo_DecidePolicy : S -> Operator -> string -> string -> bool -> RetentionDecision -> RetentionIdempotency -> Time ->
    S * result retention_error PolicyChange;
  repo_CreateHold : S -> Operator -> CreateHoldInput -> RetentionIdempotency -> option string -> Time ->
    S * result retention_error LegalHold;
  repo_RequestHoldRelease : S -> Operator -> RequestReleaseInput -> RetentionIdempotency -> option string -> Time ->
    S * result retention_error HoldReleaseRequest;
  repo_DecideHoldRelease : S -> Operator -> string -> string -> bool -> RetentionDecision -> RetentionIdempotency -> Time ->
    S * result retention_error HoldReleaseRequest;
  repo_AdvanceDue : S -> visit -> Z -> Time -> S * Z }.

(** ** The service (service.go) *)

Definition caseReferencePattern (s : string) : bool :=
  first_is alnum s && str_forall (fun c => alnum c || one_of [46; 95; 58; 47; 45] c) s && (len s <=? 128).

(** [Operator_authorize] first, [StepUpAt] against the reading [now] of the service's clock. *)
Definition Service_require (p : Operator) (permission scope : string) (stepUp : bool) (now : Time) : result retention_error unit :=
  if negb (ValidID (op_ActorID p)) || (TrimSpace (op_SessionID p) == "") then Err RtErrUnauthenticated
  else
    Operator_authorize p permission scope ≫= fun _ =>
    if stepUp && (IsZeroTime (op_StepUpAt p) || After (op_StepUpAt p) (AddTime now (10 * Second))
                  || Before (op_StepUpAt p) (AddTime now (- (10 * Minute))))
    then Err RtErrStepUpRequired
    else Ok tt.

Definition RetentionKey (value : RetentionIdempotency) : bool :=
  (8 <=? len (ik_Key value)) && (len (ik_Key value) <=? 255) && (TrimSpace (ik_Key value) == ik_Key value).

Definition RetentionReason (value : string) : bool :=
  let trimmed := TrimSpace value in
  (8 <=? len trimmed) && (len trimmed <=? 2048) && str_no (chr 0) trimmed.

Definition validProposal (class : string) (value : PolicyProposal) : bool :=
  DataClass_Valid class && (1 <=? pr_ArchiveAfterDays value) && (pr_ArchiveAfterDays value <=? 3650)
  && (1 <=? pr_PruneGraceDays value) && (pr_PruneGraceDays value <=? 90) && (30 <=? pr_ObjectLockDays value)
  && (pr_ObjectLockDays value <=? 3650) && (pr_PruneGraceDays value <? pr_ObjectLockDays value)
  && (Prunable class || negb (pr_PruneEnabled value)).

Definition validPage (scope cursor : string) (limit : Z) : bool :=
  ValidID scope && ((cursor == "") || ValidID cursor) && (1 <=? limit) && (limit <=? 200).

Definition sourceTable (c : string) : string :=
  if c == CallbackEventBody then "callback_events"
  else if c == EventHistoryPayload then "event_history"
  else if c == PublishedOutbox then "outbox_events"
  else "".

(** The readings of the clock during a call: by [require], by the checks after it
    and by the repository. *)
Record readings := mkReadings { rd_auth : Time; rd_check : Time; rd_store : Time }.

Section service.
Context {S : Type} `{!Repository S}.
Implicit Types (r : S) (p : Operator) (idem : RetentionIdempotency) (t : readings).

Definition Service_ListPolicies r p (scope : string) t : result retention_error (list EffectivePolicy) :=
  Service_require p "retention:read" scope false (rd_auth t) ≫= fun _ =>
  if negb (ValidID scope) then Err RtErrInvalid else Ok (repo_ListPolicies r scope).

Definition Service_ListPolicyChanges r p (scope cursor : string) (limit : Z) t
    : result retention_error (RetentionPage PolicyChange) :=
  Service_require p "retention:read" scope false (rd_auth t) ≫= fun _ =>
  if negb (validPage scope cursor limit) then Err RtErrInvalid else Ok (repo_ListPolicyChanges r scope cursor limit).

Definition Service_ListHolds r p (scope cursor : string) (limit : Z) t : result retention_error (RetentionPage LegalHold) :=
  Service_require p "retention:read" scope false (rd_auth t) ≫= fun _ =>
  if negb (validPage scope cursor limit) then Err RtErrInvalid else Ok (repo_ListHolds r p scope cursor limit).

Definition Service_ListReleaseRequests r p (scope cursor : string) (limit : Z) t
    : result retention_error (RetentionPage HoldReleaseRequest) :=
  Service_require p "retention:read" scope false (rd_auth t) ≫= fun _ =>
  if negb (validPage scope cursor limit) then Err RtErrInvalid else Ok (repo_ListReleaseRequests r scope cursor limit).

(** The guards of an operation that changes the repository: [Err] is the answer. *)
Definition guarded {A} r (guard : result retention_error unit) (call : S * result retention_error A)
    : S * result retention_error A :=
  match guard with Err e => (r, Err e) | Ok _ => call end.

Definition policy_request_guard p (input : RequestPolicyInput) idem t : result retention_error unit :=
  Service_require p "retention:policy_request" (rp_TenantID input) true (rd_auth t) ≫= fun _ =>
  if negb (ValidID (rp_TenantID input)) || (rp_ExpectedEffectiveVersion input <? 0) || (rp_ExpectedHeadFence input <? 0)
     || negb (validProposal (rp_DataClass input) (rp_Proposal input)) || Before (rp_ScheduledFor input) (rd_check t)
     || After (rp_ScheduledFor input) (AddTime (rd_check t) (365 * 24 * Hour)) || negb (RetentionReason (rp_Reason input))
     || negb (RetentionKey idem)
  then Err RtErrInvalid else Ok tt.

Definition Service_RequestPolicy r p (input : RequestPolicyInput) idem (id : option string) t
    : S * result retention_error PolicyChange :=
  guarded r (policy_request_guard p input idem t) (repo_RequestPolicy r p input idem id (rd_store t)).

Definition decision_guard p (permission scope id : string) (input : RetentionDecision) idem t : result retention_error unit :=
  Service_require p permission scope true (rd_auth t) ≫= fun _ =>
  if negb (ValidID scope) || negb (ValidID id) || (di_ExpectedRowVersion input <? 1) || negb (RetentionReason (di_Reason input))
     || negb (RetentionKey idem)
  then Err RtErrInvalid else Ok tt.

Definition Service_DecidePolicy r p (scope id : string) (approve : bool) (input : RetentionDecision) idem t
    : S * result retention_error PolicyChange :=
  guarded r (decision_guard p "retention:policy_approve" scope id input idem t)
    (repo_DecidePolicy r p scope id approve input idem (rd_store t)).

Definition hold_shape (input : CreateHoldInput) : bool :=
  ((ch_ScopeType input == HoldTenant) && (ch_MerchantID input == "") && (ch_SourceTable input == "") && (ch_SourceRecordID input == ""))
  || ((ch_ScopeType input == HoldMerchant) && ValidID (ch_MerchantID input) && (ch_SourceTable input == "")
      && (ch_SourceRecordID input == ""))
  || ((ch_ScopeType input == HoldRecord) && ValidID (ch_MerchantID input) && ValidID (ch_SourceRecordID input)
      && (ch_SourceTable input == sourceTable (ch_DataClass input))).

Definition hold_guard p (input : CreateHoldInput) idem t : result retention_error unit :=
  Service_require p "retention:hold_create" (ch_TenantID input) true (rd_auth t) ≫= fun _ =>
  if negb (ValidID (ch_TenantID input)) || negb (DataClass_Valid (ch_DataClass input)) || negb (hold_shape input)
     || negb (caseReferencePattern (ch_CaseReference input)) || negb (RetentionReason (ch_Reason input))
     || negb (RetentionKey idem)
  then Err RtErrInvalid
  else
    match ch_ExpiresAt input with
    | Some e => if Before e (AddTime (rd_check t) Hour) || After e (AddTime (rd_check t) (10 * 365 * 24 * Hour))
                then Err RtErrInvalid else Ok tt
    | None => Ok tt
    end.

Definition Service_CreateHold r p (input : CreateHoldInput) idem (id : option string) t
    : S * result retention_error LegalHold :=
  guarded r (hold_guard p input idem t) (repo_CreateHold r p input idem id (rd_store t)).

Definition release_guard p (input : RequestReleaseInput) idem t : result retention_error unit :=
  Service_require p "retention:hold_release" (rr_TenantID input) true (rd_auth t) ≫= fun _ =>
  if negb (ValidID (rr_TenantID input)) || negb (ValidID (rr_HoldID input)) || (rr_ExpectedHoldVersion input <? 1)
     || negb (RetentionReason (rr_Reason input)) || negb (RetentionKey idem)
  then Err RtErrInvalid else Ok tt.

Definition Service_RequestHoldRelease r p (input : RequestReleaseInput) idem (id : option string) t
    : S * result retention_error HoldReleaseRequest :=
  guarded r (release_guard p input idem t) (repo_RequestHoldRelease r p input idem id (rd_store t)).

Definition Service_DecideHoldRelease r p (scope id : string) (approve : bool) (input : RetentionDecision) idem t
    : S * result retention_error HoldReleaseRequest :=
  guarded r (decision_guard p "retention:hold_release" scope id input idem t)
    (repo_DecideHoldRelease r p scope id approve input idem (rd_store t)).

Definition Service_AdvanceDue r (worker : string) (v : visit) (limit : Z) t : S * result retention_error Z :=
  if negb (caseReferencePattern worker) || (limit <? 1) || (100 <? limit) then (r, Err RtErrInvalid)
  else let '(r', n) := repo_AdvanceDue r v limit (rd_store t) in (r', Ok n).

(** scheduler.go: [NewScheduler] keeps a worker id of the same pattern. *)
Definition NewScheduler (workerID : string) : result retention_error string :=
  if negb (caseReferencePattern workerID) then Err RtErrInvalid else Ok workerID.

Definition Scheduler_RunOnce r (v : visit) (limit : Z) t : S * result retention_error Z :=
  if (limit <? 1) || (100 <? limit) then (r, Err RtErrInvalid)
  else let '(r', n) := repo_AdvanceDue r v limit (rd_store t) in (r', Ok n).
End service.

(** ** The in-memory repository (memory.go) *)

Record memoryIdempotency := mkMemoryIdempotency { mi_hash : string; mi_resource : string }.

Record RetentionMemory := mkRetentionMemory {
  rm_policies : gmap string EffectivePolicy; rm_changes : gmap string PolicyChange; rm_holds : gmap string LegalHold;
  rm_releases : gmap string HoldReleaseRequest; rm_idem : gmap string memoryIdempotency }.

Definition NewRetentionMemory : RetentionMemory := mkRetentionMemory ∅ ∅ ∅ ∅ ∅.

Definition with_policies m x := mkRetentionMemory x (rm_changes m) (rm_holds m) (rm_releases m) (rm_idem m).
Definition with_changes m x := mkRetentionMemory (rm_policies m) x (rm_holds m) (rm_releases m) (rm_idem m).
Definition with_holds m x := mkRetentionMemory (rm_policies m) (rm_changes m) x (rm_releases m) (rm_idem m).
Definition with_releases m x := mkRetentionMemory (rm_policies m) (rm_changes m) (rm_holds m) x (rm_idem m).
Definition with_idem m x := mkRetentionMemory (rm_policies m) (rm_changes m) (rm_holds m) (rm_releases m) x.

(** The separator ["\x1f"]. *)
Definition unit_separator : string := String "031" "".

Definition idempotency_key (p : Operator) (tenant operation : string) (idem : RetentionIdempotency) : string :=
  Join [tenant; op_ActorID p; operation; ik_Key idem] unit_separator.

Definition reserve (m : RetentionMemory) (p : Operator) (tenant operation : string) (idem : RetentionIdempotency) (id : string)
    : RetentionMemory * result retention_error string :=
  let key := idempotency_key p tenant operation idem in
  match rm_idem m !! key with
  | Some prior => if mi_hash prior != ik_Fingerprint idem then (m, Err RtErrIdempotencyConflict) else (m, Ok (mi_resource prior))
  | None => (with_idem m (<[key := mkMemoryIdempotency (ik_Fingerprint idem) id]> (rm_idem m)), Ok id)
  end.

Definition policyKey (tenant class : string) : string := tenant +:+ unit_separator +:+ class.

(** *** Lists *)

Definition ListPolicies (m : RetentionMemory) (scope : string) : list EffectivePolicy :=
  sort_by (fun a b => str_less (ep_DataClass a) (ep_DataClass b))
    (List.filter (fun v => ep_TenantID v == scope) (snd <$> map_to_list (rm_policies m))).

Definition memoryPage {T} (id : T -> string) (values : list T) (cursor : string) (limit : Z) : RetentionPage T :=
  let filtered := List.filter (fun v => (cursor == "") || str_less cursor (id v))
                    (sort_by (fun a b => str_less (id a) (id b)) values) in
  if Z.of_nat (length filtered) >? limit then
    let shown := take (Z.to_nat limit) filtered in
    mkRetentionPage shown (match last shown with Some x => id x | None => "" end)
  else mkRetentionPage filtered "".

Definition ListPolicyChanges (m : RetentionMemory) (scope cursor : string) (limit : Z) : RetentionPage PolicyChange :=
  memoryPage pc_ID (List.filter (fun v => pc_TenantID v == scope) (snd <$> map_to_list (rm_changes m))) cursor limit.

Definition hide_case (h : LegalHold) : LegalHold :=
  mkLegalHold (lh_ID h) (lh_TenantID h) (lh_DataClass h) (lh_ScopeType h) (lh_MerchantID h) (lh_SourceTable h)
    (lh_SourceRecordID h) "" (lh_Reason h) (lh_CreatedBy h) (lh_CreatedAt h) (lh_ExpiresAt h) (lh_ReleasedAt h)
    (lh_ReleasedBy h) (lh_ExpiredAt h) (lh_Version h).

Definition ListHolds (m : RetentionMemory) (p : Operator) (scope cursor : string) (limit : Z) : RetentionPage LegalHold :=
  let showCaseReference := is_ok (Operator_authorize p "retention:hold_create" scope) || is_ok (Operator_authorize p "retention:hold_release" scope) in
  memoryPage lh_ID
    ((fun h => if showCaseReference then h else hide_case h) <$>
       List.filter (fun v => lh_TenantID v == scope) (snd <$> map_to_list (rm_holds m))) cursor limit.

Definition ListReleaseRequests (m : RetentionMemory) (scope cursor : string) (limit : Z) : RetentionPage HoldReleaseRequest :=
  memoryPage hr_ID (List.filter (fun v => hr_TenantID v == scope) (snd <$> map_to_list (rm_releases m))) cursor limit.

(** *** Policy changes *)

(** The head is not the one the request expects. *)
Definition stale_head (head : option EffectivePolicy) (version fence : Z) : bool :=
  match head with
  | Some h => negb (ep_Version h =? version) || negb (ep_HeadFence h =? fence)
  | None => negb (version =? 0) || negb (fence =? 0)
  end.

Definition RequestPolicy (m : RetentionMemory) (p : Operator) (input : RequestPolicyInput) (idem : RetentionIdempotency)
    (new : option string) (now : Time) : RetentionMemory * result retention_error PolicyChange :=
  match new with
  | None => (m, Err RtErrGenerator)
  | Some new =>
      match reserve m p (rp_TenantID input) "retention.policy.request" idem new with
      | (m, Err e) => (m, Err e)
      | (m, Ok id) =>
          match rm_changes m !! id with
          | Some prior => (m, Ok prior)
          | None =>
              if stale_head (rm_policies m !! policyKey (rp_TenantID input) (rp_DataClass input))
                   (rp_ExpectedEffectiveVersion input) (rp_ExpectedHeadFence input)
              then (m, Err RtErrConflict)
              else
                let out := mkPolicyChange id (rp_TenantID input) (rp_DataClass input) (rp_ExpectedEffectiveVersion input)
                  (rp_ExpectedHeadFence input) (rp_Proposal input) PolicyPending (rp_Reason input) (op_ActorID p) "" "" ""
                  (rp_ScheduledFor input) (AddTime now (30 * Minute)) None None None now now 1 in
                (with_changes m (<[id := out]> (rm_changes m)), Ok out)
          end
      end
  end.

(** A change with a new status and decision, its row version increased. *)
Definition change_moved (c : PolicyChange) (status : PolicyStatus) (approvedBy rejectedBy decisionReason : string)
    (approvedAt decidedAt activatedAt : option Time) (now : Time) : PolicyChange :=
  mkPolicyChange (pc_ID c) (pc_TenantID c) (pc_DataClass c) (pc_ExpectedEffectiveVersion c) (pc_ExpectedHeadFence c)
    (pc_Proposal c) status (pc_Reason c) (pc_RequestedBy c) approvedBy rejectedBy decisionReason (pc_ScheduledFor c)
    (pc_ExpiresAt c) approvedAt decidedAt activatedAt (pc_CreatedAt c) now (int64 (pc_RowVersion c + 1)).

Definition change_lapsed (now : Time) (c : PolicyChange) : bool :=
  bool_decide (pc_Status c = PolicyPending) && negb (After (pc_ExpiresAt c) now).

Definition change_expired (now : Time) (c : PolicyChange) : PolicyChange :=
  change_moved c PolicyExpired (pc_ApprovedBy c) (pc_RejectedBy c) "approval_window_expired" (pc_ApprovedAt c) (Some now)
    (pc_ActivatedAt c) now.

Definition DecidePolicy (m : RetentionMemory) (p : Operator) (scope id : string) (approve : bool) (input : RetentionDecision)
    (idem : RetentionIdempotency) (now : Time) : RetentionMemory * result retention_error PolicyChange :=
  match reserve m p scope (if approve then "retention.policy.approve" else "retention.policy.reject") idem id with
  | (m, Err e) => (m, Err e)
  | (m, Ok replay) =>
      match rm_changes m !! replay with
      | None => (m, Err RtErrNotFound)
      | Some change =>
          if pc_TenantID change != scope then (m, Err RtErrNotFound)
          else if change_lapsed now change then
            (with_changes m (<[id := change_expired now change]> (rm_changes m)), Ok (change_expired now change))
          else if negb (bool_decide (pc_Status change = PolicyPending))
                  || negb (pc_RowVersion change =? di_ExpectedRowVersion input) || (pc_RequestedBy change == op_ActorID p)
          then (m, Err RtErrConflict)
          else
            let change :=
              if approve
              then change_moved change PolicyScheduled (op_ActorID p) (pc_RejectedBy change) (di_Reason input) (Some now)
                     (Some now) (pc_ActivatedAt change) now
              else change_moved change PolicyRejected (pc_ApprovedBy change) (op_ActorID p) (di_Reason input)
                     (pc_ApprovedAt change) (Some now) (pc_ActivatedAt change) now in
            (with_changes m (<[id := change]> (rm_changes m)), Ok change)
      end
  end.

(** *** Legal holds *)

Definition CreateHold (m : RetentionMemory) (p : Operator) (input : CreateHoldInput) (idem : RetentionIdempotency)
    (new : option string) (now : Time) : RetentionMemory * result retention_error LegalHold :=
  match new with
  | None => (m, Err RtErrGenerator)
  | Some new =>
      match reserve m p (ch_TenantID input) "retention.hold.create" idem new with
      | (m, Err e) => (m, Err e)
      | (m, Ok id) =>
          match rm_holds m !! id with
          | Some prior => (m, Ok prior)
          | None =>
              let out := mkLegalHold id (ch_TenantID input) (ch_DataClass input) (ch_ScopeType input) (ch_MerchantID input)
                (ch_SourceTable input) (ch_SourceRecordID input) (ch_CaseReference input) (ch_Reason input) (op_ActorID p) now
                (ch_ExpiresAt input) None "" None 1 in
              (with_holds m (<[id := out]> (rm_holds m)), Ok out)
          end
      end
  end.

Definition release_pending_for (hold : string) (r : HoldReleaseRequest) : bool :=
  (hr_HoldID r == hold) && bool_decide (hr_Status r = ReleasePending).

Definition RequestHoldRelease (m : RetentionMemory) (p : Operator) (input : RequestReleaseInput) (idem : RetentionIdempotency)
    (new : option string) (now : Time) : RetentionMemory * result retention_error HoldReleaseRequest :=
  match new with
  | None => (m, Err RtErrGenerator)
  | Some new =>
      match reserve m p (rr_TenantID input) "retention.hold_release.request" idem new with
      | (m, Err e) => (m, Err e)
      | (m, Ok id) =>
          match rm_releases m !! id with
          | Some prior => (m, Ok prior)
          | None =>
              match rm_holds m !! rr_HoldID input with
              | None => (m, Err RtErrNotFound)
              | Some hold =>
                  if lh_TenantID hold != rr_TenantID input then (m, Err RtErrNotFound)
                  else if (State hold != "active") || negb (lh_Version hold =? rr_ExpectedHoldVersion input)
                  then (m, Err RtErrConflict)
                  else if existsb (release_pending_for (rr_HoldID input)) (snd <$> map_to_list (rm_releases m))
                  then (m, Err RtErrConflict)
                  else
                    let out := mkHoldReleaseRequest id (rr_TenantID input) (rr_HoldID input) (rr_ExpectedHoldVersion input)
                      ReleasePending (rr_Reason input) (op_ActorID p) "" "" "" now (AddTime now (30 * Minute)) None 1 in
                    (with_releases m (<[id := out]> (rm_releases m)), Ok out)
              end
          end
      end
  end.

Definition release_moved (r : HoldReleaseRequest) (status : ReleaseStatus) (approvedBy rejectedBy decisionReason : string)
    (now : Time) : HoldReleaseRequest :=
  mkHoldReleaseRequest (hr_ID r) (hr_TenantID r) (hr_HoldID r) (hr_ExpectedVersion r) status (hr_Reason r) (hr_RequestedBy r)
    approvedBy rejectedBy decisionReason (hr_CreatedAt r) (hr_ExpiresAt r) (Some now) (int64 (hr_RowVersion r + 1)).

Definition release_lapsed (now : Time) (r : HoldReleaseRequest) : bool :=
  bool_decide (hr_Status r = ReleasePending) && negb (After (hr_ExpiresAt r) now).

Definition release_expired (now : Time) (r : HoldReleaseRequest) : HoldReleaseRequest :=
  release_moved r ReleaseExpired (hr_ApprovedBy r) (hr_RejectedBy r) "approval_window_expired" now.

(** The zero value of [LegalHold], read when the map has no entry. *)
Definition zero_hold : LegalHold := mkLegalHold "" "" "" "" "" "" "" "" "" "" 0 None None "" None 0.

Definition hold_ended (h : LegalHold) (releasedAt : option Time) (releasedBy : string) (expiredAt : option Time) : LegalHold :=
  mkLegalHold (lh_ID h) (lh_TenantID h) (lh_DataClass h) (lh_ScopeType h) (lh_MerchantID h) (lh_SourceTable h)
    (lh_SourceRecordID h) (lh_CaseReference h) (lh_Reason h) (lh_CreatedBy h) (lh_CreatedAt h) (lh_ExpiresAt h) releasedAt
    releasedBy expiredAt (int64 (lh_Version h + 1)).

Definition hold_released (now : Time) (by_ : string) (h : LegalHold) : LegalHold :=
  hold_ended h (Some now) by_ (lh_ExpiredAt h).
Definition hold_expired (now : Time) (h : LegalHold) : LegalHold :=
  hold_ended h (lh_ReleasedAt h) (lh_ReleasedBy h) (Some now).

Definition DecideHoldRelease (m : RetentionMemory) (p : Operator) (scope id : string) (approve : bool) (input : RetentionDecision)
    (idem : RetentionIdempotency) (now : Time) : RetentionMemory * result retention_error HoldReleaseRequest :=
  match reserve m p scope (if approve then "retention.hold_release.approve" else "retention.hold_release.reject") idem id with
  | (m, Err e) => (m, Err e)
  | (m, Ok replay) =>
      match rm_releases m !! replay with
      | None => (m, Err RtErrNotFound)
      | Some release =>
          let hold := default zero_hold (rm_holds m !! hr_HoldID release) in
          let moved status approvedBy rejectedBy := release_moved release status approvedBy rejectedBy (di_Reason input) now in
          let store m release := (with_releases m (<[id := release]> (rm_releases m)), Ok release) in
          if hr_TenantID release != scope then (m, Err RtErrNotFound)
          else if release_lapsed now release then store m (release_expired now release)
          else if negb (bool_decide (hr_Status release = ReleasePending))
                  || negb (hr_RowVersion release =? di_ExpectedRowVersion input)
                  || (hr_RequestedBy release == op_ActorID p) || (lh_CreatedBy hold == op_ActorID p)
          then (m, Err RtErrConflict)
          else if negb approve then store m (moved ReleaseRejected (hr_ApprovedBy release) (op_ActorID p))
          else if (State hold != "active") || negb (lh_Version hold =? hr_ExpectedVersion release)
          then store m (moved ReleaseConflict (op_ActorID p) (hr_RejectedBy release))
          else store (with_holds m (<[lh_ID hold := hold_released now (op_ActorID p) hold]> (rm_holds m)))
                 (moved ReleaseCompleted (op_ActorID p) (hr_RejectedBy release))
      end
  end.

(** *** The scheduler's sweep *)

(** One [range] loop of [AdvanceDue]: [step] answers the repository with the entry
    of the key processed, or [None] when the entry is not due; the loop stops as
    soon as [limit] entries are processed. *)
Fixpoint range_due (step : RetentionMemory -> string -> option RetentionMemory) (keys : list string) (limit processed : Z)
    (m : RetentionMemory) : RetentionMemory * Z :=
  match keys with
  | [] => (m, processed)
  | id :: rest =>
      if limit <=? processed then (m, processed)
      else match step m id with
           | Some m' => range_due step rest limit (processed + 1) m'
           | None => range_due step rest limit processed m
           end
  end.

Definition expire_change (now : Time) (m : RetentionMemory) (id : string) : option RetentionMemory :=
  change ← rm_changes m !! id;
  if change_lapsed now change then Some (with_changes m (<[id := change_expired now change]> (rm_changes m))) else None.

Definition expire_release (now : Time) (m : RetentionMemory) (id : string) : option RetentionMemory :=
  release ← rm_releases m !! id;
  if release_lapsed now release then Some (with_releases m (<[id := release_expired now release]> (rm_releases m))) else None.

Definition change_due (now : Time) (c : PolicyChange) : bool :=
  bool_decide (pc_Status c = PolicyScheduled)
  && match pc_ApprovedAt c with Some t => negb (After t now) | None => false end
  && negb (After (pc_ScheduledFor c) now).

(** The policy that a change puts in force over [head]. *)
Definition activated_policy (now : Time) (policyID : string) (head : option EffectivePolicy) (c : PolicyChange)
    : EffectivePolicy :=
  let '(version, fence) :=
    match head with Some h => (int64 (ep_Version h + 1), int64 (ep_HeadFence h + 1)) | None => (1, 1) end in
  mkEffectivePolicy policyID (pc_TenantID c) (pc_DataClass c) version (pr_ArchiveAfterDays (pc_Proposal c))
    (pr_PruneGraceDays (pc_Proposal c)) (pr_ObjectLockDays (pc_Proposal c)) (pr_PruneEnabled (pc_Proposal c)) now "" fence
    (Some now).

Definition activate_change (now : Time) (policy_ids : string -> string) (m : RetentionMemory) (id : string)
    : option RetentionMemory :=
  change ← rm_changes m !! id;
  if negb (change_due now change) then None
  else
    let key := policyKey (pc_TenantID change) (pc_DataClass change) in
    let head := rm_policies m !! key in
    if stale_head head (pc_ExpectedEffectiveVersion change) (pc_ExpectedHeadFence change) then
      Some (with_changes m (<[id := change_moved change PolicyConflict (pc_ApprovedBy change) (pc_RejectedBy change)
                                      "stale_policy_head" (pc_ApprovedAt change) (pc_DecidedAt change) (pc_ActivatedAt change)
                                      now]> (rm_changes m)))
    else
      let m := with_policies m (<[key := activated_policy now (policy_ids id) head change]> (rm_policies m)) in
      Some (with_changes m (<[id := change_moved change PolicyActive (pc_ApprovedBy change) (pc_RejectedBy change)
                                      (pc_DecisionReason change) (pc_ApprovedAt change) (pc_DecidedAt change) (Some now)
                                      now]> (rm_changes m))).

Definition hold_lapsed (now : Time) (h : LegalHold) : bool :=
  (State h == "active") && match lh_ExpiresAt h with Some e => negb (After e now) | None => false end.

Definition expire_hold (now : Time) (m : RetentionMemory) (id : string) : option RetentionMemory :=
  hold ← rm_holds m !! id;
  if hold_lapsed now hold then Some (with_holds m (<[id := hold_expired now hold]> (rm_holds m))) else None.

Definition AdvanceDue (m : RetentionMemory) (v : visit) (limit : Z) (now : Time) : RetentionMemory * Z :=
  let '(m, processed) := range_due (expire_change now) (vi_changes v) limit 0 m in
  let '(m, processed) := range_due (expire_release now) (vi_releases v) limit processed m in
  let '(m, processed) := range_due (activate_change now (vi_policy_ids v)) (vi_due v) limit processed m in
  range_due (expire_hold now) (vi_holds v) limit processed m.

#[export] Instance memory_repository : Repository RetentionMemory := {|
  repo_ListPolicies := ListPolicies;
  repo_ListPolicyChanges := ListPolicyChanges;
  repo_ListHolds := ListHolds;
  repo_ListReleaseRequests := ListReleaseRequests;
  repo_RequestPolicy := RequestPolicy;
  repo_DecidePolicy := DecidePolicy;
  repo_CreateHold := CreateHold;
  repo_RequestHoldRelease := RequestHoldRelease;
  repo_DecideHoldRelease := DecideHoldRelease;
  repo_AdvanceDue := AdvanceDue |}.
