(* ===== verification/RetentionFacts.v ===== *)
(** * RetentionFacts: what the retention control plane guarantees

    The invariant of the repository behind the service, the life of a legal hold
    and of a policy head, the scheduler's sweep, pagination and authority. *)

From Stdlib Require Import ZArith Lia Ascii String Permutation Sorted.
From stdpp Require Import base gmap list strings.
From S2P Require Import Prelude Text Encoding Rates Retention.

(** ** Runs *)

(** One call of the service or of the scheduler on the in-memory repository, with
    every answer of the clock, of [ids.New] and of the iteration order. *)
Inductive retention_step (m : RetentionMemory) : RetentionMemory -> Prop :=
| rs_request p input idem id t : retention_step m (Service_RequestPolicy m p input idem id t).1
| rs_decide p scope id approve input idem t : retention_step m (Service_DecidePolicy m p scope id approve input idem t).1
| rs_hold p input idem id t : retention_step m (Service_CreateHold m p input idem id t).1
| rs_release p input idem id t : retention_step m (Service_RequestHoldRelease m p input idem id t).1
| rs_decide_release p scope id approve input idem t :
    retention_step m (Service_DecideHoldRelease m p scope id approve input idem t).1
| rs_advance worker v limit t : retention_step m (Service_AdvanceDue m worker v limit t).1
| rs_run v limit t : retention_step m (Scheduler_RunOnce m v limit t).1.

Definition retention_reachable (m : RetentionMemory) : Prop := rtc retention_step NewRetentionMemory m.

(** ** The invariant *)

Definition approved_status (s : PolicyStatus) : bool :=
  match s with PolicyScheduled | PolicyActive | PolicyConflict => true | _ => false end.

Record change_ok (c : PolicyChange) : Prop := {
  co_proposal : validProposal (pc_DataClass c) (pc_Proposal c) = true;
  co_expected : 0 <= pc_ExpectedEffectiveVersion c;
  co_approved : approved_status (pc_Status c) = true -> pc_ApprovedBy c <> pc_RequestedBy c;
  co_rejected : pc_Status c = PolicyRejected -> pc_RejectedBy c <> pc_RequestedBy c;
  co_active : pc_Status c = PolicyActive ->
    exists at_ approved, pc_ActivatedAt c = Some at_ /\ pc_ApprovedAt c = Some approved /\
      approved <= at_ /\ pc_ScheduledFor c <= at_ }.

Definition policy_proposal (e : EffectivePolicy) : PolicyProposal :=
  mkPolicyProposal (ep_ArchiveAfterDays e) (ep_PruneGraceDays e) (ep_ObjectLockDays e) (ep_PruneEnabled e).

(** The version of a head; after the largest [int64] it wraps to the smallest one,
    which no change can expect. *)
Record policy_ok (key : string) (e : EffectivePolicy) : Prop := {
  po_key : key = policyKey (ep_TenantID e) (ep_DataClass e);
  po_proposal : validProposal (ep_DataClass e) (policy_proposal e) = true;
  po_version : 1 <= ep_Version e <= max_int64 \/ ep_Version e = min_int64;
  po_fence : ep_HeadFence e = ep_Version e }.

Record hold_ok (key : string) (h : LegalHold) : Prop := {
  ho_key : lh_ID h = key;
  ho_end : lh_ReleasedAt h = None \/ lh_ExpiredAt h = None;
  ho_released : lh_ReleasedAt h <> None -> lh_ReleasedBy h <> lh_CreatedBy h }.

Record release_ok (holds : gmap string LegalHold) (r : HoldReleaseRequest) (h : LegalHold) : Prop := {
  ro_hold : holds !! hr_HoldID r = Some h;
  ro_tenant : lh_TenantID h = hr_TenantID r;
  ro_rejected : hr_Status r = ReleaseRejected -> hr_RejectedBy r <> hr_RequestedBy r /\ hr_RejectedBy r <> lh_CreatedBy h;
  ro_completed : hr_Status r = ReleaseCompleted ->
    hr_ApprovedBy r <> hr_RequestedBy r /\ hr_ApprovedBy r <> lh_CreatedBy h /\
    lh_ReleasedAt h = hr_DecidedAt r /\ lh_ReleasedAt h <> None /\ lh_ReleasedBy h = hr_ApprovedBy r }.

(** A change put in force expected a version below that of the head. *)
Definition superseded (policies : gmap string EffectivePolicy) (c : PolicyChange) : Prop :=
  exists e, policies !! policyKey (pc_TenantID c) (pc_DataClass c) = Some e /\
    (pc_ExpectedEffectiveVersion c < ep_Version e \/ ep_Version e = min_int64).

Record retention_ok (m : RetentionMemory) : Prop := {
  ri_changes : map_Forall (fun _ => change_ok) (rm_changes m);
  ri_policies : map_Forall policy_ok (rm_policies m);
  ri_holds : map_Forall hold_ok (rm_holds m);
  ri_releases : map_Forall (fun _ r => exists h, release_ok (rm_holds m) r h) (rm_releases m);
  ri_pending : forall k1 k2 r1 r2, rm_releases m !! k1 = Some r1 -> rm_releases m !! k2 = Some r2 ->
    hr_Status r1 = ReleasePending -> hr_Status r2 = ReleasePending -> hr_HoldID r1 = hr_HoldID r2 -> k1 = k2;
  ri_superseded : map_Forall (fun _ c => pc_Status c = PolicyActive -> superseded (rm_policies m) c) (rm_changes m);
  ri_once : forall k1 k2 c1 c2, rm_changes m !! k1 = Some c1 -> rm_changes m !! k2 = Some c2 ->
    pc_Status c1 = PolicyActive -> pc_Status c2 = PolicyActive ->
    policyKey (pc_TenantID c1) (pc_DataClass c1) = policyKey (pc_TenantID c2) (pc_DataClass c2) ->
    pc_ExpectedEffectiveVersion c1 = pc_ExpectedEffectiveVersion c2 -> k1 = k2 }.

Lemma initial_ok : retention_ok NewRetentionMemory.
Proof. split; try apply map_Forall_empty; cbn; intros *; by rewrite lookup_empty. Qed.

(** ** Writing one entry *)

(** Storing a change that is not in force. *)
Lemma put_change m k c :
  retention_ok m -> change_ok c -> pc_Status c <> PolicyActive ->
  retention_ok (with_changes m (<[k := c]> (rm_changes m))).
Proof.
  intros Hm Hc Hs. destruct Hm. split; try done; cbn.
  - by apply map_Forall_insert_2.
  - by apply map_Forall_insert_2.
  - intros k1 k2 c1 c2 [[<- <-]|[Hk1 H1]]%lookup_insert_Some [[<- <-]|[Hk2 H2]]%lookup_insert_Some; eauto; done.
Qed.

Lemma put_idem m x : retention_ok m -> retention_ok (with_idem m x).
Proof. by intros []. Qed.

(** Storing a request that is no longer pending. *)
Lemma put_release m k r h :
  retention_ok m -> release_ok (rm_holds m) r h -> hr_Status r <> ReleasePending ->
  retention_ok (with_releases m (<[k := r]> (rm_releases m))).
Proof.
  intros Hm Hr Hs. destruct Hm. split; try done; cbn.
  - apply map_Forall_insert_2; eauto.
  - intros k1 k2 r1 r2 [[<- <-]|[Hk1 H1]]%lookup_insert_Some [[<- <-]|[Hk2 H2]]%lookup_insert_Some; eauto; done.
Qed.

Lemma reserve_ok m p tenant operation idem id m' x :
  reserve m p tenant operation idem id = (m', x) ->
  rm_policies m' = rm_policies m /\ rm_changes m' = rm_changes m /\ rm_holds m' = rm_holds m /\
  rm_releases m' = rm_releases m /\ (retention_ok m -> retention_ok m').
Proof.
  unfold reserve. intros H. repeat case_match; simplify_eq/=; repeat (split; [done|]); try done.
  apply put_idem.
Qed.

Lemma State_active h : State h = "active" <-> lh_ReleasedAt h = None /\ lh_ExpiredAt h = None.
Proof. unfold State. destruct (lh_ReleasedAt h), (lh_ExpiredAt h); by split; [|intros []]. Qed.

(** Ending an active hold keeps every request about it sound: none was completed. *)
Lemma put_hold m h releasedAt releasedBy expiredAt :
  retention_ok m -> rm_holds m !! lh_ID h = Some h -> State h = "active" ->
  (releasedAt = None \/ expiredAt = None) -> (releasedAt <> None -> releasedBy <> lh_CreatedBy h) ->
  retention_ok (with_holds m (<[lh_ID h := hold_ended h releasedAt releasedBy expiredAt]> (rm_holds m))).
Proof.
  intros Hm Hh [Ha _]%State_active He Hb. destruct Hm. split; try done; cbn.
  - by apply map_Forall_insert_2.
  - intros k r Hk. destruct (ri_releases0 k r Hk) as [h0 [Hl Ht Hrej Hc]].
    destruct (decide (hr_HoldID r = lh_ID h)) as [E|E]; [|exists h0; by split; try rewrite lookup_insert_ne].
    rewrite E, Hh in Hl. injection Hl as <-. eexists. split; [by rewrite E, lookup_insert_eq|done|done|].
    intros Hs. by destruct (Hc Hs) as (_ & _ & _ & Hn & _).
Qed.

Lemma put_new_hold m k h :
  retention_ok m -> rm_holds m !! k = None -> hold_ok k h ->
  retention_ok (with_holds m (<[k := h]> (rm_holds m))).
Proof.
  intros Hm Hk Hh. destruct Hm. split; try done; cbn.
  - by apply map_Forall_insert_2.
  - intros k' r Hr. destruct (ri_releases0 k' r Hr) as [h0 [Hl Ht Hrej Hc]]. exists h0. split; try done.
    rewrite lookup_insert_ne; [done|]. by intros ->; rewrite Hk in Hl.
Qed.

Lemma put_new_release m k r h :
  retention_ok m -> release_ok (rm_holds m) r h ->
  (forall k' r', rm_releases m !! k' = Some r' -> hr_Status r' = ReleasePending -> hr_HoldID r' <> hr_HoldID r) ->
  retention_ok (with_releases m (<[k := r]> (rm_releases m))).
Proof.
  intros Hm Hr Hn. destruct Hm. split; try done; cbn.
  - apply map_Forall_insert_2; eauto.
  - intros k1 k2 r1 r2 [[<- <-]|[Hk1 H1]]%lookup_insert_Some [[<- <-]|[Hk2 H2]]%lookup_insert_Some Hs1 Hs2 E; eauto.
    + by destruct (Hn _ _ H2 Hs2).
    + by destruct (Hn _ _ H1 Hs1).
Qed.

(** ** The operations keep the invariant *)

Lemma RequestPolicy_ok m p input idem new now :
  retention_ok m -> validProposal (rp_DataClass input) (rp_Proposal input) = true -> 0 <= rp_ExpectedEffectiveVersion input ->
  retention_ok (RequestPolicy m p input idem new now).1.
Proof.
  intros Hm Hv He. unfold RequestPolicy. destruct new as [new|]; [|done].
  destruct (reserve _ _ _ _ _ _) as [m' [id|e]] eqn:Er; apply reserve_ok in Er as (_ & _ & _ & _ & Hok); [|auto].
  specialize (Hok Hm). repeat case_match; try done. cbn. by apply put_change.
Qed.

(** Moving a pending change keeps it sound when the decision is another person's. *)
Lemma change_moved_ok c status approvedBy rejectedBy reason approvedAt decidedAt activatedAt now :
  change_ok c -> status <> PolicyActive ->
  (approved_status status = true -> approvedBy <> pc_RequestedBy c) ->
  (status = PolicyRejected -> rejectedBy <> pc_RequestedBy c) ->
  change_ok (change_moved c status approvedBy rejectedBy reason approvedAt decidedAt activatedAt now).
Proof. by intros [] Hs Ha Hr; split. Qed.

Lemma DecidePolicy_ok m p scope id approve input idem now :
  retention_ok m -> retention_ok (DecidePolicy m p scope id approve input idem now).1.
Proof.
  intros Hm. unfold DecidePolicy.
  destruct (reserve _ _ _ _ _ _) as [m' [r|e]] eqn:Er; apply reserve_ok in Er as (_ & _ & _ & _ & Hok); [|auto].
  specialize (Hok Hm). destruct (rm_changes m' !! r) as [c|] eqn:Ec; [|done].
  pose proof (ri_changes _ Hok _ _ Ec) as Hc. repeat case_match; try done; bool_hyp; cbn;
    (apply put_change; [done| |done]; apply change_moved_ok; cbn; first [done | congruence]).
Qed.

Lemma CreateHold_ok m p input idem new now : retention_ok m -> retention_ok (CreateHold m p input idem new now).1.
Proof.
  intros Hm. unfold CreateHold. destruct new as [new|]; [|done].
  destruct (reserve _ _ _ _ _ _) as [m' [id|e]] eqn:Er; apply reserve_ok in Er as (_ & _ & _ & _ & Hok); [|auto].
  specialize (Hok Hm). case_match; [done|]. cbn. apply put_new_hold; try done. split; cbn; auto.
Qed.

Lemma no_pending_release (releases : gmap string HoldReleaseRequest) hold :
  existsb (release_pending_for hold) (snd <$> map_to_list releases) = false ->
  forall k r, releases !! k = Some r -> hr_Status r = ReleasePending -> hr_HoldID r <> hold.
Proof.
  intros H k r Hk Hs E. assert (Ht : existsb (release_pending_for hold) (snd <$> map_to_list releases) = true); [|congruence].
  apply existsb_exists. exists r. split.
  - apply list_elem_of_In, list_elem_of_fmap. exists (k, r). split; [done|]. by apply elem_of_map_to_list.
  - unfold release_pending_for. rewrite E, String.eqb_refl. by apply bool_decide_eq_true.
Qed.

Lemma RequestHoldRelease_ok m p input idem new now :
  retention_ok m -> retention_ok (RequestHoldRelease m p input idem new now).1.
Proof.
  intros Hm. unfold RequestHoldRelease. destruct new as [new|]; [|done].
  destruct (reserve _ _ _ _ _ _) as [m' [id|e]] eqn:Er; apply reserve_ok in Er as (_ & _ & _ & _ & Hok); [|auto].
  specialize (Hok Hm). destruct (rm_releases m' !! id); [done|].
  destruct (rm_holds m' !! rr_HoldID input) as [h|] eqn:Eh; [|done]. repeat case_match; try done. bool_hyp. cbn.
  eapply (put_new_release _ _ _ h); try done. by apply no_pending_release.
Qed.

Lemma hold_at m k h : retention_ok m -> rm_holds m !! k = Some h -> rm_holds m !! lh_ID h = Some h /\ lh_ID h = k.
Proof. intros Hm Hk. pose proof (ho_key _ _ (ri_holds _ Hm _ _ Hk)) as <-. done. Qed.

Lemma release_moved_ok m r h status approvedBy rejectedBy reason now :
  release_ok (rm_holds m) r h -> status <> ReleaseCompleted ->
  (status = ReleaseRejected -> rejectedBy <> hr_RequestedBy r /\ rejectedBy <> lh_CreatedBy h) ->
  release_ok (rm_holds m) (release_moved r status approvedBy rejectedBy reason now) h.
Proof. by intros [] Hs Hr; split. Qed.

(** The completed request and the hold it releases, written together. *)
Lemma put_completed m id r h by_ reason now :
  retention_ok m -> release_ok (rm_holds m) r h -> State h = "active" ->
  by_ <> hr_RequestedBy r -> by_ <> lh_CreatedBy h ->
  let m' := with_holds m (<[lh_ID h := hold_released now by_ h]> (rm_holds m)) in
  retention_ok (with_releases m' (<[id := release_moved r ReleaseCompleted by_ (hr_RejectedBy r) reason now]> (rm_releases m'))).
Proof.
  intros Hm [Hl Ht Hr Hc] Ha Hq Hcr m'. destruct (hold_at _ _ _ Hm Hl) as [Hl' Hk].
  assert (Hm' : retention_ok m').
  { apply put_hold; auto. right. by apply State_active in Ha as []. }
  apply (put_release _ _ _ (hold_released now by_ h)); [done| |done].
  split; cbn; [by rewrite <- Hk, lookup_insert_eq|done|done|]. intros _. by repeat split.
Qed.

Lemma DecideHoldRelease_ok m p scope id approve input idem now :
  retention_ok m -> retention_ok (DecideHoldRelease m p scope id approve input idem now).1.
Proof.
  intros Hm. unfold DecideHoldRelease.
  destruct (reserve _ _ _ _ _ _) as [m' [r|e]] eqn:Er; apply reserve_ok in Er as (_ & _ & _ & _ & Hok); [|auto].
  specialize (Hok Hm). destruct (rm_releases m' !! r) as [c|] eqn:Ec; [|done].
  destruct (ri_releases _ Hok _ _ Ec) as [h Hr]. rewrite (ro_hold _ _ _ Hr). cbn [default from_option Datatypes.id].
  repeat case_match; try done; bool_hyp; cbn [fst].
  - eapply put_release; [done|by apply release_moved_ok|done].
  - eapply put_release; [done|apply release_moved_ok; [done..|]|done]. intros _. split; congruence.
  - eapply put_release; [done|by apply release_moved_ok|done].
  - apply put_completed; try done; congruence.
Qed.

(** ** The sweep keeps the invariant *)

Lemma range_due_inv (I : RetentionMemory -> Prop) step keys limit n m :
  (forall m id m', step m id = Some m' -> I m -> I m') -> I m -> I (range_due step keys limit n m).1.
Proof.
  intros Hs. revert n m. induction keys as [|k keys IH]; intros n m Hm; [done|]. cbn.
  case_match; [done|]. case_match; eauto.
Qed.

Lemma AdvanceDue_inv (I : RetentionMemory -> Prop) m v limit now :
  (forall m id m', expire_change now m id = Some m' -> I m -> I m') ->
  (forall m id m', expire_release now m id = Some m' -> I m -> I m') ->
  (forall m id m', activate_change now (vi_policy_ids v) m id = Some m' -> I m -> I m') ->
  (forall m id m', expire_hold now m id = Some m' -> I m -> I m') ->
  I m -> I (AdvanceDue m v limit now).1.
Proof.
  intros H1 H2 H3 H4 Hm. unfold AdvanceDue.
  pose proof (range_due_inv I _ (vi_changes v) limit 0 m H1 Hm) as I1. destruct (range_due _ _ _ _ m) as [m1 n1].
  pose proof (range_due_inv I _ (vi_releases v) limit n1 m1 H2 I1) as I2. destruct (range_due _ _ _ _ m1) as [m2 n2].
  pose proof (range_due_inv I _ (vi_due v) limit n2 m2 H3 I2) as I3. destruct (range_due _ _ _ _ m2) as [m3 n3].
  exact (range_due_inv I _ (vi_holds v) limit n3 m3 H4 I3).
Qed.

Lemma expire_change_ok now m id m' : expire_change now m id = Some m' -> retention_ok m -> retention_ok m'.
Proof.
  unfold expire_change. intros (c & Hc & H)%bind_Some Hm. destruct (change_lapsed now c); [|done]. injection H as <-.
  apply put_change; [done| |done]. by apply change_moved_ok; [apply (ri_changes _ Hm _ _ Hc)|..].
Qed.

Lemma expire_release_ok now m id m' : expire_release now m id = Some m' -> retention_ok m -> retention_ok m'.
Proof.
  unfold expire_release. intros (r & Hr & H)%bind_Some Hm. destruct (release_lapsed now r); [|done]. injection H as <-.
  destruct (ri_releases _ Hm _ _ Hr) as [h Hh]. eapply put_release; [done|by apply release_moved_ok|done].
Qed.

Lemma hold_lapsed_iff now h :
  hold_lapsed now h = true <-> State h = "active" /\ exists e, lh_ExpiresAt h = Some e /\ e <= now.
Proof.
  unfold hold_lapsed, After. rewrite andb_true_iff, String.eqb_eq. destruct (lh_ExpiresAt h) as [e|].
  - rewrite negb_true_iff, Z.ltb_ge. split; intros [H1 H2]; [eauto|]. destruct H2 as (e' & [= ->] & He). auto.
  - by split; [intros []|intros [? (? & ? & ?)]].
Qed.

Lemma expire_hold_ok now m id m' : expire_hold now m id = Some m' -> retention_ok m -> retention_ok m'.
Proof.
  unfold expire_hold. intros (h & Hh & H)%bind_Some Hm. destruct (hold_lapsed now h) eqn:E; [|done]. injection H as <-.
  apply hold_lapsed_iff in E as [Ha _]. destruct (hold_at _ _ _ Hm Hh) as [Hl Hk]. rewrite <- Hk.
  assert (lh_ReleasedAt h = None) as Hn by (by apply State_active in Ha as []).
  by apply put_hold; [..|left|rewrite Hn].
Qed.

Lemma next_version v : 1 <= v <= max_int64 -> int64 (v + 1) = v + 1 /\ int64 (v + 1) <= max_int64 \/ int64 (v + 1) = min_int64.
Proof.
  unfold max_int64, min_int64. intros H. destruct (Z.eq_dec v (2 ^ 63 - 1)) as [->|Hn]; [by right|left].
  rewrite int64_id by (unfold is_int64, max_int64, min_int64; lia). lia.
Qed.

Lemma stale_head_false head v f :
  stale_head head v f = false <->
  match head with Some h => ep_Version h = v /\ ep_HeadFence h = f | None => v = 0 /\ f = 0 end.
Proof. unfold stale_head. destruct head; rewrite orb_false_iff, !negb_false_iff, !Z.eqb_eq; done. Qed.

(** The version a change puts in force, over the head it expects. *)
Lemma activated_version (policies : gmap string EffectivePolicy) key now id c :
  (forall h, policies !! key = Some h -> policy_ok key h) -> change_ok c ->
  stale_head (policies !! key) (pc_ExpectedEffectiveVersion c) (pc_ExpectedHeadFence c) = false ->
  let e := activated_policy now id (policies !! key) c in
  ep_HeadFence e = ep_Version e /\
  (ep_Version e = pc_ExpectedEffectiveVersion c + 1 /\ ep_Version e <= max_int64 \/ ep_Version e = min_int64).
Proof.
  intros Hp Hc Hs e. apply stale_head_false in Hs. pose proof (co_expected _ Hc) as H0. subst e. unfold activated_policy.
  destruct (policies !! key) as [h|]; cbn.
  - destruct (Hp h eq_refl) as [_ _ Hv Hf]. destruct Hs as [Hv' _]. rewrite Hf. split; [done|]. rewrite <- Hv'.
    apply next_version. unfold min_int64 in *. lia.
  - destruct Hs as [-> _]. split; [done|]. left. by vm_compute.
Qed.

Lemma superseded_mono (policies : gmap string EffectivePolicy) key e c c' now id :
  e = activated_policy now id (policies !! key) c ->
  (forall h, policies !! key = Some h -> policy_ok key h) -> change_ok c ->
  stale_head (policies !! key) (pc_ExpectedEffectiveVersion c) (pc_ExpectedHeadFence c) = false ->
  superseded policies c' ->
  superseded (<[key := e]> policies) c' /\
  (policyKey (pc_TenantID c') (pc_DataClass c') = key -> pc_ExpectedEffectiveVersion c' < pc_ExpectedEffectiveVersion c).
Proof.
  intros He Hp Hc Hs (e0 & Hl & Hv). unfold superseded.
  destruct (decide (policyKey (pc_TenantID c') (pc_DataClass c') = key)) as [E|E];
    [|rewrite lookup_insert_ne by done; split; [eauto|done]].
  rewrite E in *. rewrite lookup_insert_eq. pose proof (activated_version _ _ now id _ Hp Hc Hs) as [_ Hn].
  rewrite <- He in Hn. rewrite Hl in Hs. apply stale_head_false in Hs as [Hs _]. pose proof (co_expected _ Hc).
  assert (pc_ExpectedEffectiveVersion c' < pc_ExpectedEffectiveVersion c) by (unfold min_int64 in *; lia).
  split; [|done]. exists e. split; [done|]. destruct Hn as [[-> _]| ->]; [left; lia|by right].
Qed.

Lemma activate_change_ok now ids m id m' : activate_change now ids m id = Some m' -> retention_ok m -> retention_ok m'.
Proof.
  unfold activate_change. intros (c & Hc & H)%bind_Some Hm. destruct (change_due now c) eqn:Ed; [|done]. cbn in H.
  pose proof (ri_changes _ Hm _ _ Hc) as Hok. unfold change_due in Ed. bool_hyp.
  set (key := policyKey (pc_TenantID c) (pc_DataClass c)) in *.
  destruct (stale_head _ _ _) eqn:Es; injection H as <-.
  { apply put_change; [done| |done]. apply change_moved_ok; try done. intros _. apply (co_approved _ Hok).
    match goal with E : pc_Status c = _ |- _ => by rewrite E end. }
  assert (Hp : forall h, rm_policies m !! key = Some h -> policy_ok key h) by (intros h; apply (ri_policies _ Hm)).
  pose proof (activated_version (rm_policies m) key now (ids id) c Hp Hok Es) as [Hf Hv].
  assert (Hmono := fun c' => superseded_mono (rm_policies m) key _ c c' now (ids id) eq_refl Hp Hok Es).
  set (e := activated_policy now (ids id) (rm_policies m !! key) c) in *.
  pose proof (co_expected _ Hok) as Hex.
  assert (Hnew : superseded (<[key := e]> (rm_policies m)) c).
  { exists e. split; [apply lookup_insert_eq|]. destruct Hv as [[-> _]| ->]; [left; lia|by right]. }
  destruct Hm. split; try done; cbn.
  - apply map_Forall_insert_2; [|done]. destruct Hok. split; try done; cbn.
    + intros _. apply co_approved0. match goal with E : pc_Status c = _ |- _ => by rewrite E end.
    + intros _. destruct (pc_ApprovedAt c) as [ap|] eqn:Ea; [|done]. unfold After in *. bool_hyp. by exists now, ap.
  - apply map_Forall_insert_2; [|done]. split; [| |lia|done]; subst e; unfold activated_policy; repeat case_match; try done;
      simplify_eq/=; unfold policy_proposal; cbn; destruct (pc_Proposal c) eqn:Epr; rewrite <- Epr; cbn;
      pose proof (co_proposal _ Hok) as Hpr; by rewrite Epr in *.
  - intros k c' [[<- <-]|[_ Hc']]%lookup_insert_Some Hs; [done|]. by apply Hmono, (ri_superseded0 k c').
  - intros k1 k2 c1 c2 [[<- <-]|[Hk1 L1]]%lookup_insert_Some [[<- <-]|[Hk2 L2]]%lookup_insert_Some S1 S2 E Ev; eauto.
    + destruct (Hmono c2) as [_ Hlt]; [by apply (ri_superseded0 k2)|]. cbn in *. specialize (Hlt (eq_sym E)). lia.
    + destruct (Hmono c1) as [_ Hlt]; [by apply (ri_superseded0 k1)|]. cbn in *. specialize (Hlt E). lia.
Qed.

Lemma AdvanceDue_ok m v limit now : retention_ok m -> retention_ok (AdvanceDue m v limit now).1.
Proof.
  apply AdvanceDue_inv; intros *;
    [apply expire_change_ok|apply expire_release_ok|apply activate_change_ok|apply expire_hold_ok].
Qed.

(** The call that a service method or the scheduler makes, if any. *)
Lemma guarded_inv {A} (I : RetentionMemory -> Prop) m guard (call : RetentionMemory * result retention_error A) :
  I m -> (guard = Ok tt -> I call.1) -> I (guarded m guard call).1.
Proof. unfold guarded. intros Hm Hc. destruct guard as [[]|]; auto. Qed.

Lemma advance_inv (I : RetentionMemory -> Prop) (b : bool) (m : RetentionMemory) (e : retention_error) (x : RetentionMemory * Z) :
  I m -> I x.1 -> I (if b then (m, Err e) else let '(m', n) := x in (m', Ok n)).1.
Proof. intros Hm Hx. by destruct b, x. Qed.

Lemma policy_request_guard_ok p input idem t : policy_request_guard p input idem t = Ok tt ->
  validProposal (rp_DataClass input) (rp_Proposal input) = true /\ 0 <= rp_ExpectedEffectiveVersion input.
Proof.
  unfold policy_request_guard, mbind, result_bind. destruct (Service_require _ _ _ _ _); [|done]. case_match; [done|].
  bool_hyp. auto.
Qed.

Lemma retention_step_ok m m' : retention_step m m' -> retention_ok m -> retention_ok m'.
Proof.
  intros Hs Hm.
  destruct Hs; [..|by apply (advance_inv retention_ok), AdvanceDue_ok|by apply (advance_inv retention_ok), AdvanceDue_ok];
    (apply (guarded_inv retention_ok); [done|intros Hg]).
  - apply policy_request_guard_ok in Hg as []. by apply RequestPolicy_ok.
  - by apply DecidePolicy_ok.
  - by apply CreateHold_ok.
  - by apply RequestHoldRelease_ok.
  - by apply DecideHoldRelease_ok.
Qed.

Lemma retention_reachable_ok m : retention_reachable m -> retention_ok m.
Proof.
  unfold retention_reachable. generalize initial_ok. intros Hok Hr. induction Hr as [|m0 m1 m2 Hs _ IH]; [done|].
  by eapply IH, retention_step_ok.
Qed.

(** ** The life of a legal hold *)

(** The only two ways a hold ends: another person releases it, or the scheduler
    records that its expiry has passed. *)
Inductive hold_next (h : LegalHold) : LegalHold -> Prop :=
| hn_released now by_ : State h = "active" -> by_ <> lh_CreatedBy h -> hold_next h (hold_released now by_ h)
| hn_expired now e : State h = "active" -> lh_ExpiresAt h = Some e -> e <= now -> hold_next h (hold_expired now h).

Lemma hold_next_ended h h' : hold_next h h' -> State h = "active" /\ State h' <> "active".
Proof.
  intros []; (split; [done|]); rewrite State_active; cbn; [by intros []|by intros []].
Qed.

Lemma hold_next_once h h' : rtc hold_next h h' -> h' = h \/ hold_next h h'.
Proof.
  intros H. destruct H as [|h h1 h2 H1 H2]; [by left|right]. destruct H2 as [|h1 h2 h3 H2 _]; [done|].
  by destruct (hold_next_ended _ _ H1) as [_ []], (hold_next_ended _ _ H2).
Qed.

Definition holds_follow (m m' : RetentionMemory) : Prop :=
  forall k h, rm_holds m !! k = Some h -> exists h', rm_holds m' !! k = Some h' /\ rtc hold_next h h'.

#[export] Instance holds_follow_preorder : PreOrder holds_follow.
Proof.
  split; [by intros m k h Hk; eauto using rtc_refl|]. intros m1 m2 m3 H12 H23 k h Hk.
  destruct (H12 _ _ Hk) as (h2 & H2 & Hr). destruct (H23 _ _ H2) as (h3 & H3 & Hr'). exists h3. by split; [|etrans].
Qed.

Lemma same_holds m m' : rm_holds m' = rm_holds m -> holds_follow m m'.
Proof. intros E k h Hk. rewrite E. eauto using rtc_refl. Qed.

Lemma follow_insert m k h h' :
  rm_holds m !! k = Some h -> hold_next h h' -> holds_follow m (with_holds m (<[k := h']> (rm_holds m))).
Proof.
  intros Hk Hn k' h0 Hk'. cbn. destruct (decide (k' = k)) as [->|Hne].
  - rewrite lookup_insert_eq. assert (h0 = h) as -> by congruence. eauto using rtc_once.
  - rewrite lookup_insert_ne by done. eauto using rtc_refl.
Qed.

Lemma follow_new m k h : rm_holds m !! k = None -> holds_follow m (with_holds m (<[k := h]> (rm_holds m))).
Proof. intros Hk k' h0 Hk'. cbn. rewrite lookup_insert_ne by congruence. eauto using rtc_refl. Qed.

Lemma reserve_follow m p tenant operation idem id m' x :
  reserve m p tenant operation idem id = (m', x) -> holds_follow m m'.
Proof. intros (_ & _ & E & _)%reserve_ok. by apply same_holds. Qed.

Lemma retention_step_holds m m' : retention_ok m -> retention_step m m' -> holds_follow m m'.
Proof.
  intros Hm Hs.
  assert (Hadv : forall v limit now, holds_follow m (AdvanceDue m v limit now).1).
  { intros v limit now. apply AdvanceDue_inv; [..|done]; intros m0 id m1 H Hf; (etrans; [exact Hf|]).
    - unfold expire_change in H. apply bind_Some in H as (c & _ & H). case_match; simplify_eq. by apply same_holds.
    - unfold expire_release in H. apply bind_Some in H as (c & _ & H). case_match; simplify_eq. by apply same_holds.
    - unfold activate_change in H. apply bind_Some in H as (c & _ & H). repeat case_match; simplify_eq; by apply same_holds.
    - unfold expire_hold in H. apply bind_Some in H as (h & Hh & H). destruct (hold_lapsed now h) eqn:E; simplify_eq.
      apply hold_lapsed_iff in E as (Ha & e & He & Hle). eapply follow_insert; [done|]. by econstructor 2. }
  destruct Hs; [..|by apply (advance_inv (holds_follow m))|by apply (advance_inv (holds_follow m))];
    (apply (guarded_inv (holds_follow m)); [done|intros _]); cbn.
  - unfold RequestPolicy. destruct id as [new|]; [|done]. destruct (reserve _ _ _ _ _ _) as [m' [id|e]] eqn:Er;
      apply reserve_follow in Er; [|done]. repeat case_match; try done.
  - unfold DecidePolicy. destruct (reserve _ _ _ _ _ _) as [m' [r|e]] eqn:Er; apply reserve_follow in Er; [|done].
    repeat case_match; try done.
  - unfold CreateHold. destruct id as [new|]; [|done]. destruct (reserve _ _ _ _ _ _) as [m' [id|e]] eqn:Er;
      apply reserve_follow in Er; [|done]. case_match; [done|]. etrans; [exact Er|]. by apply follow_new.
  - unfold RequestHoldRelease. destruct id as [new|]; [|done]. destruct (reserve _ _ _ _ _ _) as [m' [id|e]] eqn:Er;
      apply reserve_follow in Er; [|done]. repeat case_match; try done.
  - unfold DecideHoldRelease. destruct (reserve _ _ _ _ _ _) as [m' [r|e]] eqn:Er; [|by apply reserve_follow in Er].
    pose proof (reserve_follow _ _ _ _ _ _ _ _ Er) as Hf. apply reserve_ok in Er as (_ & _ & _ & _ & Hok). specialize (Hok Hm).
    destruct (rm_releases m' !! r) as [c|] eqn:Ec; [|done]. destruct (ri_releases _ Hok _ _ Ec) as [h Hr].
    rewrite (ro_hold _ _ _ Hr). cbn [default from_option Datatypes.id]. repeat case_match; try done. bool_hyp. cbn.
    destruct (hold_at _ _ _ Hok (ro_hold _ _ _ Hr)) as [Hl _]. etrans; [exact Hf|].
    apply (follow_insert m' _ h); [done|]. by constructor; [|congruence].
Qed.

(** ** The sweep leaves nothing due behind *)

Section sweep.
Context {A : Type} (proj : RetentionMemory -> gmap string A) (due : A -> bool)
  (step : RetentionMemory -> string -> option RetentionMemory).

(** A loop over the map [proj] that rewrites the due entries, one at a time, into
    entries that are not. *)
Record sweeps : Prop := {
  sw_none : forall m id, step m id = None <-> (forall x, proj m !! id = Some x -> due x = false);
  sw_some : forall m id m', step m id = Some m' ->
    exists x x', proj m !! id = Some x /\ due x = true /\ due x' = false /\ proj m' = <[id := x']> (proj m) }.

Hypothesis Hsw : sweeps.

Definition swept (m : RetentionMemory) (keys : list string) : Prop :=
  forall k x, In k keys -> proj m !! k = Some x -> due x = false.

(** The loop stops at [limit], or leaves no due entry under a key it visits; an
    entry that is not due is kept as it is, and no entry appears or is lost. *)
Lemma range_due_spec keys limit n m m' n' :
  range_due step keys limit n m = (m', n') -> n <= limit ->
  n <= n' <= limit /\ (n' < limit -> swept m' keys) /\
  (forall k x, proj m !! k = Some x -> due x = false -> proj m' !! k = Some x) /\ dom (proj m') = dom (proj m).
Proof.
  revert n m. induction keys as [|k keys IH]; intros n m H Hn; cbn in H; [by simplify_eq; split; [lia|]; split; [intros _ k x []|]|].
  destruct (limit <=? n) eqn:El; bool_hyp.
  { simplify_eq. split; [lia|]. by split; [lia|]. }
  destruct (step m k) as [m1|] eqn:Es.
  - destruct (sw_some Hsw _ _ _ Es) as (x & x' & Hx & Hd & Hd' & Hp).
    apply IH in H as (Hb & Hs & Hk & Hdom); [|lia]. split; [lia|]. split; [|split].
    + intros Hlt k0 x0 [<-|Hin] Hl; [|by eapply Hs]. rewrite (Hk k x') in Hl; [congruence| |done].
      by rewrite Hp, lookup_insert_eq.
    + intros k0 x0 Hl Hf. apply Hk; [|done]. rewrite Hp, lookup_insert_ne; [done|]. intros ->. congruence.
    + rewrite Hdom, Hp, dom_insert_lookup_L; [done|by eexists].
  - pose proof (proj1 (sw_none Hsw _ _) Es) as Hx.
    apply IH in H as (Hb & Hs & Hk & Hdom); [|lia]. split; [lia|]. split; [|by split].
    intros Hlt k0 x0 [<-|Hin] Hl; [|by eapply Hs].
    assert (is_Some (proj m !! k)) as [x1 H1].
    { apply elem_of_dom. rewrite <- Hdom. apply elem_of_dom. by eexists. }
    pose proof (Hx _ H1) as Hf. rewrite (Hk _ _ H1 Hf) in Hl. congruence.
Qed.
End sweep.

Lemma due_bind {A B} (o : option A) (due : A -> bool) (g : A -> option B) :
  (forall x, o = Some x -> g x = None <-> due x = false) ->
  (o ≫= g = None <-> (forall x, o = Some x -> due x = false)).
Proof.
  intros Hg. destruct o as [x|]; cbn.
  - rewrite (Hg x eq_refl). split; [by intros H ? [= <-]|auto].
  - split; [intros _ x H; discriminate H|done].
Qed.

Lemma expire_change_sweeps now : sweeps rm_changes (change_lapsed now) (expire_change now).
Proof.
  split.
  - intros m id. apply due_bind. intros x _. by destruct (change_lapsed now x).
  - intros m id m' (c & Hc & H)%bind_Some. destruct (change_lapsed now c) eqn:E; simplify_eq. by exists c, (change_expired now c).
Qed.

Lemma expire_release_sweeps now : sweeps rm_releases (release_lapsed now) (expire_release now).
Proof.
  split.
  - intros m id. apply due_bind. intros x _. by destruct (release_lapsed now x).
  - intros m id m' (c & Hc & H)%bind_Some. destruct (release_lapsed now c) eqn:E; simplify_eq.
    by exists c, (release_expired now c).
Qed.

Lemma activate_change_sweeps now ids : sweeps rm_changes (change_due now) (activate_change now ids).
Proof.
  split.
  - intros m id. apply due_bind. intros x _. destruct (change_due now x); cbn; [|done]. by case_match.
  - intros m id m' (c & Hc & H)%bind_Some. destruct (change_due now c) eqn:E; cbn in H; [|done].
    destruct (stale_head _ _ _); simplify_eq; eexists c, _; by repeat split.
Qed.

Lemma expire_hold_sweeps now : sweeps rm_holds (hold_lapsed now) (expire_hold now).
Proof.
  split.
  - intros m id. apply due_bind. intros x _. by destruct (hold_lapsed now x).
  - intros m id m' (h & Hc & H)%bind_Some. destruct (hold_lapsed now h) eqn:E; simplify_eq.
    exists h, (hold_expired now h). repeat split; try done.
    destruct (hold_lapsed now (hold_expired now h)) eqn:E'; [|done].
    apply hold_lapsed_iff in E' as [[_ E']%State_active _]. done.
Qed.
