(* ===== verification/RetentionRuns.v ===== *)
(** * RetentionRuns: theorems on runs of the retention control plane

    The invariant on every reachable repository, the end of a legal hold, the
    compare-and-set on policy heads, the completeness of the scheduler's sweep,
    pagination, authority and idempotency. *)

From Stdlib Require Import ZArith Lia Ascii String Permutation Sorted.
From stdpp Require Import base gmap list strings.
From S2P Require Import Prelude Text Encoding Rates Retention RetentionFacts.

(** ** The sweep as a whole *)

(** The keys visited include every key of the maps. *)
Definition covers (v : visit) (m : RetentionMemory) : Prop :=
  (forall k, k ∈ dom (rm_changes m) -> In k (vi_changes v) /\ In k (vi_due v)) /\
  (forall k, k ∈ dom (rm_releases m) -> In k (vi_releases v)) /\
  (forall k, k ∈ dom (rm_holds m) -> In k (vi_holds v)).

Record nothing_due (now : Time) (m : RetentionMemory) : Prop := {
  nd_changes : forall k c, rm_changes m !! k = Some c -> change_lapsed now c = false /\ change_due now c = false;
  nd_releases : forall k r, rm_releases m !! k = Some r -> release_lapsed now r = false;
  nd_holds : forall k h, rm_holds m !! k = Some h -> hold_lapsed now h = false }.

(** What a loop over one map leaves alone in another. *)
Lemma expire_change_frame now m id m' :
  expire_change now m id = Some m' -> rm_releases m' = rm_releases m /\ rm_holds m' = rm_holds m.
Proof. unfold expire_change. intros (c & _ & H)%bind_Some. by case_match; simplify_eq. Qed.

Lemma expire_release_frame now m id m' :
  expire_release now m id = Some m' -> rm_changes m' = rm_changes m /\ rm_holds m' = rm_holds m.
Proof. unfold expire_release. intros (c & _ & H)%bind_Some. by case_match; simplify_eq. Qed.

Lemma activate_change_frame now ids m id m' :
  activate_change now ids m id = Some m' -> rm_releases m' = rm_releases m /\ rm_holds m' = rm_holds m.
Proof. unfold activate_change. intros (c & _ & H)%bind_Some. by repeat case_match; simplify_eq. Qed.

Lemma expire_hold_frame now m id m' :
  expire_hold now m id = Some m' -> rm_changes m' = rm_changes m /\ rm_releases m' = rm_releases m.
Proof. unfold expire_hold. intros (c & _ & H)%bind_Some. by case_match; simplify_eq. Qed.

(** An activation leaves no change pending that was not. *)
Lemma activate_change_lapsed now ids m id m' :
  activate_change now ids m id = Some m' ->
  map_Forall (fun _ c => change_lapsed now c = false) (rm_changes m) ->
  map_Forall (fun _ c => change_lapsed now c = false) (rm_changes m').
Proof.
  unfold activate_change. intros (c & _ & H)%bind_Some Hm. repeat case_match; simplify_eq; cbn; by apply map_Forall_insert_2.
Qed.

Lemma range_due_frame {B} (f : RetentionMemory -> B) step keys limit n m m' n' :
  (forall m id m', step m id = Some m' -> f m' = f m) -> range_due step keys limit n m = (m', n') -> f m' = f m.
Proof.
  intros Hf H. change m' with (m', n').1. rewrite <- H.
  apply (range_due_inv (fun x => f x = f m)); [|done]. intros m0 id m1 Hs <-. eauto.
Qed.

Lemma swept_all {A} (proj : RetentionMemory -> gmap string A) due m m' keys :
  dom (proj m') = dom (proj m) -> (forall k, k ∈ dom (proj m) -> In k keys) -> swept proj due m' keys ->
  forall k x, proj m' !! k = Some x -> due x = false.
Proof.
  intros Hd Hc Hs k x Hk. apply (Hs k); [|done]. apply Hc. rewrite <- Hd. apply elem_of_dom. by eexists.
Qed.

(** A loop of the sweep over [proj]: what [range_due_spec] says of it, and two
    other maps it leaves alone. *)
Definition stage {A B C} (proj : RetentionMemory -> gmap string A) (due : A -> bool) (f : RetentionMemory -> B)
    (g : RetentionMemory -> C) keys limit n (m m' : RetentionMemory) n' : Prop :=
  n <= n' <= limit /\ (n' < limit -> swept proj due m' keys) /\
  (forall k x, proj m !! k = Some x -> due x = false -> proj m' !! k = Some x) /\ dom (proj m') = dom (proj m) /\
  f m' = f m /\ g m' = g m.

Lemma range_due_stage {A B C} proj (due : A -> bool) step (f : RetentionMemory -> B) (g : RetentionMemory -> C) keys limit n m m' n' :
  sweeps proj due step -> (forall m id m', step m id = Some m' -> f m' = f m /\ g m' = g m) ->
  range_due step keys limit n m = (m', n') -> n <= limit -> stage proj due f g keys limit n m m' n'.
Proof.
  intros Hs Hf H Hn. destruct (range_due_spec _ _ _ Hs _ _ _ _ _ _ H Hn) as (? & ? & ? & ?). repeat (split; [done|]).
  split; (eapply range_due_frame; [|exact H]); intros m0 id m1 Hst; by apply Hf in Hst as [].
Qed.

Lemma AdvanceDue_stages m v limit now m' n :
  AdvanceDue m v limit now = (m', n) -> 0 <= limit ->
  exists m1 n1 m2 n2 m3 n3,
    stage rm_changes (change_lapsed now) rm_releases rm_holds (vi_changes v) limit 0 m m1 n1 /\
    stage rm_releases (release_lapsed now) rm_changes rm_holds (vi_releases v) limit n1 m1 m2 n2 /\
    stage rm_changes (change_due now) rm_releases rm_holds (vi_due v) limit n2 m2 m3 n3 /\
    (map_Forall (fun _ c => change_lapsed now c = false) (rm_changes m2) ->
     map_Forall (fun _ c => change_lapsed now c = false) (rm_changes m3)) /\
    stage rm_holds (hold_lapsed now) rm_changes rm_releases (vi_holds v) limit n3 m3 m' n.
Proof.
  unfold AdvanceDue. intros H Hl.
  destruct (range_due _ _ _ _ m) as [m1 n1] eqn:E1. destruct (range_due _ _ _ _ m1) as [m2 n2] eqn:E2.
  destruct (range_due _ _ _ _ m2) as [m3 n3] eqn:E3. exists m1, n1, m2, n2, m3, n3.
  pose proof (range_due_stage _ _ _ _ _ _ _ _ _ _ _ (expire_change_sweeps now) (expire_change_frame now) E1 Hl) as S1.
  pose proof (range_due_stage _ _ _ _ _ _ _ _ _ _ _ (expire_release_sweeps now) (expire_release_frame now) E2
                (proj2 (proj1 S1))) as S2.
  pose proof (range_due_stage _ _ _ _ _ _ _ _ _ _ _ (activate_change_sweeps now _) (activate_change_frame now _) E3
                (proj2 (proj1 S2))) as S3.
  pose proof (range_due_stage _ _ _ _ _ _ _ _ _ _ _ (expire_hold_sweeps now) (expire_hold_frame now) H
                (proj2 (proj1 S3))) as S4.
  repeat (split; [done|]). split; [|done]. intros Hm.
  change m3 with (m3, n3).1. rewrite <- E3. apply range_due_inv; [|done]. intros *. apply activate_change_lapsed.
Qed.

(** A run of the scheduler answers how many entries it moved, at most the limit;
    when it answers less than the limit, then, whatever order the maps are visited
    in, nothing is left to do at that time: no approval window has lapsed, no
    approved change is due, no hold has passed its expiry. Entries that are not due
    are left as they are, and none is added or lost. *)
Theorem AdvanceDue_complete m v limit now m' n :
  AdvanceDue m v limit now = (m', n) -> 0 <= limit -> covers v m ->
  0 <= n <= limit /\ (n < limit -> nothing_due now m') /\
  (forall k c, rm_changes m !! k = Some c -> change_lapsed now c = false -> change_due now c = false ->
     rm_changes m' !! k = Some c) /\
  (forall k r, rm_releases m !! k = Some r -> release_lapsed now r = false -> rm_releases m' !! k = Some r) /\
  (forall k h, rm_holds m !! k = Some h -> hold_lapsed now h = false -> rm_holds m' !! k = Some h) /\
  dom (rm_changes m') = dom (rm_changes m) /\ dom (rm_releases m') = dom (rm_releases m) /\
  dom (rm_holds m') = dom (rm_holds m).
Proof.
  intros H Hl (Hcc & Hcr & Hch).
  destruct (AdvanceDue_stages _ _ _ _ _ _ H Hl) as (m1 & n1 & m2 & n2 & m3 & n3 & (B1 & S1 & K1 & D1 & F1r & F1h) &
    (B2 & S2 & K2 & D2 & F2c & F2h) & (B3 & S3 & K3 & D3 & F3r & F3h) & L3 & (B4 & S4 & K4 & D4 & F4c & F4r)).
  rewrite F4c, F4r, F3r, F2c in *. rewrite F3h, F2h, F1h in *. rewrite F1r in *.
  split; [lia|]. split; [intros Hlt; split|].
  - intros k c Hk. rewrite F4c in Hk. split.
    + eapply L3, Hk. intros k' c' Hk'. eapply (swept_all rm_changes _ m m1 (vi_changes v)); [exact D1|by intros; apply Hcc|apply S1; lia|exact Hk'].
    + eapply (swept_all rm_changes (change_due now) m m3 (vi_due v)); [congruence|by intros; apply Hcc|apply S3; lia|exact Hk].
  - intros k r Hk. rewrite F4r in Hk. revert k r Hk. eapply (swept_all rm_releases _ m m2); [congruence|done|apply S2; lia].
  - eapply (swept_all rm_holds _ m m'); [congruence|done|apply S4; lia].
  - repeat split; eauto; congruence.
Qed.

Lemma NoDup_fmap_filter {A B} (f : A -> B) p (l : list A) : NoDup (f <$> l) -> NoDup (f <$> List.filter p l).
Proof.
  induction l as [|x l IH]; [done|]. cbn. intros [Hx Hn]%NoDup_cons. case_match; [|by apply IH].
  cbn. constructor; [|by apply IH]. intros (y & E & Hy)%list_elem_of_fmap. destruct Hx. rewrite E.
  apply list_elem_of_fmap_2. by apply list_elem_of_In, filter_In in Hy as [?%list_elem_of_In].
Qed.

(** ** Pagination *)

Section pages.
Context {T : Type} (id : T -> string).

(** A client that follows [NextCursor] from [cursor] until it is empty. *)
Fixpoint follow (fuel : nat) (page : string -> RetentionPage T) (cursor : string) : list T :=
  match fuel with
  | O => []
  | S fuel =>
      let p := page cursor in
      pg_Items p ++ (if pg_NextCursor p == "" then [] else follow fuel page (pg_NextCursor p))
  end.

Let by_id (a b : T) : bool := str_less (id a) (id b).
Let from (cursor : string) (v : T) : bool := (cursor == "") || str_less cursor (id v).

Lemma sorted_strict values :
  NoDup (id <$> values) -> StronglySorted (fun a b => str_less (id a) (id b) = true) (sort_by by_id values).
Proof.
  intros Hnd. assert (Hs : StronglySorted (not_after by_id) (sort_by by_id values)).
  { apply sort_by_sorted; [intros *; apply str_less_asym|intros *; apply str_less_cotrans]. }
  assert (Hnd' : NoDup (id <$> sort_by by_id values)) by (by rewrite <- (sort_by_perm by_id values)).
  clear Hnd. induction Hs as [|x l Hs IH Hall]; [constructor|]. apply NoDup_cons in Hnd' as [Hx Hnd].
  constructor; [by apply IH|]. rewrite Forall_forall in Hall |- *. intros y Hy.
  destruct (str_less_total (id x) (id y)) as [?|[E|E]]; [done|..].
  - pose proof (Hall y Hy) as Hn. unfold not_after, by_id in Hn. congruence.
  - destruct Hx. rewrite E. by apply list_elem_of_fmap_2.
Qed.

Lemma filter_after l1 x l2 :
  StronglySorted (fun a b => str_less (id a) (id b) = true) (l1 ++ x :: l2) -> id x <> "" ->
  List.filter (from (id x)) (l1 ++ x :: l2) = l2.
Proof.
  intros Hs Hx. assert (Hf : forall v, from (id x) v = str_less (id x) (id v)).
  { intros v. unfold from. by rewrite (proj2 (String.eqb_neq _ _) Hx). }
  induction l1 as [|y l1 IH]; cbn in *; rewrite Hf; apply StronglySorted_inv in Hs as [Hs Hall].
  - rewrite str_less_irrefl. clear Hs. induction Hall as [|z l2 Hz Hall IH2]; [done|]. cbn. by rewrite Hf, Hz, IH2.
  - apply Forall_app in Hall as [_ [Hy _]%Forall_cons]. rewrite (str_less_asym _ _ Hy). by apply IH.
Qed.

Lemma split_page (l : list T) limit :
  0 < limit -> Z.of_nat (length l) > limit ->
  exists l1 x, take (Z.to_nat limit) l = l1 ++ [x] /\ l = l1 ++ x :: drop (Z.to_nat limit) l.
Proof.
  intros Hl Hn. set (n := Z.to_nat limit). assert (take n l <> []) as (l1 & x & E)%exists_last.
  { intros E. apply (f_equal length) in E. rewrite length_take in E. cbn in E. lia. }
  exists l1, x. split; [done|]. change (x :: drop n l) with ([x] ++ drop n l). by rewrite app_assoc, <- E, take_drop.
Qed.

Lemma follow_pages values limit fuel :
  NoDup (id <$> values) -> Forall (fun v => id v <> "") values -> 1 <= limit -> (length values < fuel)%nat ->
  follow fuel (fun cursor => memoryPage id values cursor limit) "" = sort_by by_id values.
Proof.
  intros Hnd Hne Hl Hf. pose proof (sorted_strict _ Hnd) as Hs. set (L := sort_by by_id values) in *.
  assert (HneL : Forall (fun v => id v <> "") L) by (unfold L; by rewrite <- sort_by_perm).
  set (page := fun cursor => memoryPage id values cursor limit).
  assert (Hpage : forall c, page c =
    let filtered := List.filter (from c) L in
    if Z.of_nat (length filtered) >? limit then
      mkRetentionPage (take (Z.to_nat limit) filtered)
        (match last (take (Z.to_nat limit) filtered) with Some x => id x | None => "" end)
    else mkRetentionPage filtered "") by done.
  clearbody page.
  enough (Hgen : forall fuel l1 l2 cursor, L = l1 ++ l2 -> List.filter (from cursor) L = l2 -> (length l2 < fuel)%nat ->
    follow fuel page cursor = l2).
  { apply (Hgen fuel [] L); [done| |by unfold L; rewrite sort_by_length]. clear. induction L as [|v l IH]; [done|].
    cbn in *. by rewrite IH. }
  clear fuel Hf. induction fuel as [|fuel IH]; intros l1 l2 cursor E Hfl Hn; [lia|]. cbn. rewrite (Hpage cursor), Hfl. cbn zeta.
  destruct (Z.of_nat (length l2) >? limit) eqn:Eg; [|cbn; by rewrite app_nil_r]. bool_hyp.
  destruct (split_page l2 limit) as (p & x & Et & Ed); [lia..|]. cbn. rewrite Et, last_snoc.
  assert (Hx : id x <> "").
  { rewrite Forall_forall in HneL. apply HneL. rewrite E, Ed. set_solver. }
  rewrite (proj2 (String.eqb_neq _ _) Hx). rewrite (IH (l1 ++ p ++ [x]) (drop (Z.to_nat limit) l2) (id x)).
  - by rewrite <- Et, take_drop.
  - rewrite <- Et, <- app_assoc, take_drop. done.
  - rewrite E, Ed at 1. rewrite app_assoc. apply filter_after; [|done]. by rewrite <- app_assoc, <- Ed, <- E.
  - rewrite length_drop. lia.
Qed.
End pages.

(** ** Theorems *)

(** C22: Every repository that calls of the service and of the scheduler can reach is
    sound: each proposal and each policy in force passes the validation of its data
    class, so only published outbox payloads are ever pruned; every change approved
    or rejected was decided by somebody other than its requester; one put in force
    was approved and due by then; every hold released was released by somebody other
    than its creator, and every completed request by somebody other than requester
    and creator; a hold never has two pending requests. *)
Theorem retention_invariant m : retention_reachable m -> retention_ok m.
Proof. apply retention_reachable_ok. Qed.

(** A legal hold never disappears and ends at most once: whatever calls follow,
    it is unchanged, or it was active and another person released it, or it was
    active and its own expiry had passed. *)
Theorem legal_hold_final m m' k h :
  retention_reachable m -> rtc retention_step m m' -> rm_holds m !! k = Some h ->
  exists h', rm_holds m' !! k = Some h' /\ (h' = h \/ hold_next h h').
Proof.
  intros Hm Hr Hk. apply retention_reachable_ok in Hm.
  assert (Hf : holds_follow m m').
  { clear Hk. induction Hr as [|m0 m1 m2 Hs _ IH]; [done|]. etrans; [by apply retention_step_holds|].
    apply IH. by eapply retention_step_ok. }
  destruct (Hf _ _ Hk) as (h' & Hk' & Hn). exists h'. split; [done|]. by apply hold_next_once.
Qed.

(** Two changes of the same tenant and data class that expected the same version
    are never both put in force: the head is compared and set, and its version only
    grows, up to the largest [int64], after which no change can be put in force. *)
Theorem activation_once m k1 k2 c1 c2 :
  retention_reachable m -> rm_changes m !! k1 = Some c1 -> rm_changes m !! k2 = Some c2 ->
  pc_Status c1 = PolicyActive -> pc_Status c2 = PolicyActive ->
  pc_TenantID c1 = pc_TenantID c2 -> pc_DataClass c1 = pc_DataClass c2 ->
  pc_ExpectedEffectiveVersion c1 = pc_ExpectedEffectiveVersion c2 -> k1 = k2.
Proof.
  intros Hm H1 H2 S1 S2 Et Ed. apply (ri_once _ (retention_reachable_ok _ Hm) k1 k2 c1 c2); try done. by rewrite Et, Ed.
Qed.

(** A client that follows the cursors of [ListHolds] sees every hold of the
    tenant exactly once, in the order of their ids, whatever the page size, and
    without the case reference when it may neither create nor release holds. *)
Theorem ListHolds_pages m p scope limit fuel :
  retention_reachable m -> rm_holds m !! "" = None -> 1 <= limit -> (size (rm_holds m) < fuel)%nat ->
  let shown := follow fuel (fun cursor => ListHolds m p scope cursor limit) "" in
  let may := is_ok (Operator_authorize p "retention:hold_create" scope) || is_ok (Operator_authorize p "retention:hold_release" scope) in
  StronglySorted (fun a b => str_less (lh_ID a) (lh_ID b) = true) shown /\
  forall h, In h shown <-> exists h0, rm_holds m !! lh_ID h0 = Some h0 /\ lh_TenantID h0 = scope /\
                                      h = (if may then h0 else hide_case h0).
Proof.
  intros Hm Hne Hl Hf shown may. apply retention_reachable_ok in Hm.
  set (view := fun h => if may then h else hide_case h).
  set (mine := List.filter (fun v => lh_TenantID v == scope) (snd <$> map_to_list (rm_holds m))).
  assert (Hin : forall h, h ∈ mine <-> rm_holds m !! lh_ID h = Some h /\ lh_TenantID h = scope).
  { intros h. unfold mine. rewrite list_elem_of_In, filter_In, <- list_elem_of_In, String.eqb_eq, list_elem_of_fmap.
    split; intros [H ?]; (split; [|done]).
    - destruct H as ([k h'] & -> & H%elem_of_map_to_list). cbn. by apply (hold_at _ _ _ Hm) in H as [].
    - exists (lh_ID h, h). split; [done|]. by apply elem_of_map_to_list. }
  assert (Hid : forall h, lh_ID (view h) = lh_ID h) by (intros h; unfold view; by destruct may).
  assert (Hnd : NoDup (lh_ID <$> mine)).
  { unfold mine. assert (Hfst : lh_ID <$> (snd <$> map_to_list (rm_holds m)) = fst <$> map_to_list (rm_holds m)).
    { rewrite <- list_fmap_compose. apply list_fmap_ext. intros _ [k h] Hk%list_elem_of_lookup_2%elem_of_map_to_list. cbn.
      by apply (hold_at _ _ _ Hm) in Hk as []. }
    apply NoDup_fmap_filter. rewrite Hfst. apply NoDup_fst_map_to_list. }
  assert (E : shown = sort_by (fun a b => str_less (lh_ID a) (lh_ID b)) (view <$> mine)).
  { apply follow_pages; [| |done|].
    - rewrite <- list_fmap_compose. erewrite list_fmap_ext; [exact Hnd|]. intros _ h _. apply Hid.
    - rewrite Forall_fmap, Forall_forall. intros h Hh. cbn. rewrite Hid. apply Hin in Hh as [Hh _].
      intros E. rewrite E in Hh. congruence.
    - rewrite length_fmap. eapply Nat.le_lt_trans; [apply filter_length_le|]. by rewrite length_fmap, length_map_to_list. }
  rewrite E. split.
  - apply sorted_strict. rewrite <- list_fmap_compose. erewrite list_fmap_ext; [exact Hnd|]. intros _ h _. apply Hid.
  - intros h. rewrite sort_by_In, <- list_elem_of_In, list_elem_of_fmap. split; intros (h0 & H1 & H2).
    + exists h0. apply Hin in H2 as []. done.
    + exists h0. split; [apply H2|]. apply Hin. by destruct H2.
Qed.

Lemma Operator_authorize_ok p permission scope : Operator_authorize p permission scope = Ok tt ->
  exists g, In g (op_Grants p) /\ rg_Permission g = permission /\ (rg_TenantID g = "" \/ rg_TenantID g = scope).
Proof.
  unfold Operator_authorize. destruct (existsb _ _) eqn:E; [|done]. intros _. apply existsb_exists in E as (g & Hg & [Hp Ht]%andb_true_iff).
  apply String.eqb_eq in Hp. rewrite orb_true_iff, !String.eqb_eq in Ht. eauto.
Qed.

Lemma Service_require_ok p permission scope now : Service_require p permission scope true now = Ok tt ->
  ValidID (op_ActorID p) = true /\ op_StepUpAt p <> 0 /\ now - 10 * Minute <= op_StepUpAt p <= now + 10 * Second /\
  exists g, In g (op_Grants p) /\ rg_Permission g = permission /\ (rg_TenantID g = "" \/ rg_TenantID g = scope).
Proof.
  unfold Service_require, mbind, result_bind, IsZeroTime, After, Before, AddTime. intros H.
  destruct (_ || _) eqn:E1; [done|]. destruct (Operator_authorize p permission scope) as [[]|] eqn:E2; [|done].
  rewrite andb_true_l in H. destruct (_ || _) eqn:E3 in H; [done|]. bool_hyp. split; [done|]. split; [done|]. split; [lia|]. by apply Operator_authorize_ok.
Qed.

(** A call of the service that is accepted, or that changes the repository, came
    from an authenticated operator with a grant for that permission on the whole
    installation or on that tenant, whose MFA step-up is at most ten minutes old;
    otherwise the repository, whatever it is, is not called. *)
Theorem service_authority {S} `{!Repository S} (r r' : S) p t :
  let authorized permission scope :=
    ValidID (op_ActorID p) = true /\ op_StepUpAt p <> 0 /\
    rd_auth t - 10 * Minute <= op_StepUpAt p <= rd_auth t + 10 * Second /\
    exists g, In g (op_Grants p) /\ rg_Permission g = permission /\ (rg_TenantID g = "" \/ rg_TenantID g = scope) in
  (forall input idem id x, Service_RequestPolicy r p input idem id t = (r', x) -> (is_ok x = true \/ r' <> r) ->
     authorized "retention:policy_request" (rp_TenantID input)) /\
  (forall scope id approve input idem x, Service_DecidePolicy r p scope id approve input idem t = (r', x) ->
     (is_ok x = true \/ r' <> r) -> authorized "retention:policy_approve" scope) /\
  (forall input idem id x, Service_CreateHold r p input idem id t = (r', x) -> (is_ok x = true \/ r' <> r) ->
     authorized "retention:hold_create" (ch_TenantID input)) /\
  (forall input idem id x, Service_RequestHoldRelease r p input idem id t = (r', x) -> (is_ok x = true \/ r' <> r) ->
     authorized "retention:hold_release" (rr_TenantID input)) /\
  (forall scope id approve input idem x, Service_DecideHoldRelease r p scope id approve input idem t = (r', x) ->
     (is_ok x = true \/ r' <> r) -> authorized "retention:hold_release" scope).
Proof.
  intros authorized.
  assert (Hg : forall A permission scope (x : result retention_error A) (k : unit -> result retention_error unit) call,
    guarded r (Service_require p permission scope true (rd_auth t) ≫= k) call = (r', x) -> (is_ok x = true \/ r' <> r) ->
    authorized permission scope).
  { intros A permission scope x k call H Hx. apply Service_require_ok. unfold guarded, mbind, result_bind in H.
    destruct (Service_require _ _ _ _ _) as [[]|]; [done|]. simplify_eq. by destruct Hx. }
  do 4 (split; [intros *; apply Hg|]). intros *. apply Hg.
Qed.

Definition with_fingerprint (idem : RetentionIdempotency) (fp : string) : RetentionIdempotency := mkIdempotency (ik_Key idem) fp.

Lemma eqb_sym (a b : string) : (a == b) = (b == a).
Proof. apply String.eqb_sym. Qed.

Lemma reserve_remembers m p tenant operation idem id m' x m'' fp id' :
  reserve m p tenant operation idem id = (m', Ok x) -> rm_idem m'' = rm_idem m' ->
  reserve m'' p tenant operation (with_fingerprint idem fp) id' =
    (m'', if fp == ik_Fingerprint idem then Ok x else Err RtErrIdempotencyConflict).
Proof.
  unfold reserve. change (idempotency_key p tenant operation (with_fingerprint idem fp))
    with (idempotency_key p tenant operation idem). change (ik_Fingerprint (with_fingerprint idem fp)) with fp.
  generalize (idempotency_key p tenant operation idem). intros key H E. rewrite E, (eqb_sym fp).
  destruct (rm_idem m !! key) as [prior|] eqn:Ek.
  - destruct (mi_hash prior == ik_Fingerprint idem) eqn:Eh; cbn in H; simplify_eq. rewrite Ek. bool_hyp. rewrite Eh.
    by destruct (_ == fp).
  - simplify_eq. cbn [rm_idem with_idem]. rewrite lookup_insert_eq. cbn [mi_hash mi_resource]. by destruct (_ == fp).
Qed.

(** A request for a policy change, a hold or a release that was accepted is
    idempotent: the same operator repeating it under its key gets the same answer
    and nothing changes; under another fingerprint it is refused and nothing
    changes. *)
Theorem requests_replay m m' p idem new now fp new' now' :
  let same {A} (x : A) := if fp == ik_Fingerprint idem then Ok x else Err RtErrIdempotencyConflict in
  (forall input c, RequestPolicy m p input idem new now = (m', Ok c) ->
     RequestPolicy m' p input (with_fingerprint idem fp) (Some new') now' = (m', same c)) /\
  (forall input h, CreateHold m p input idem new now = (m', Ok h) ->
     CreateHold m' p input (with_fingerprint idem fp) (Some new') now' = (m', same h)) /\
  (forall input r, RequestHoldRelease m p input idem new now = (m', Ok r) ->
     RequestHoldRelease m' p input (with_fingerprint idem fp) (Some new') now' = (m', same r)).
Proof.
  intros same. split; [|split]; intros input c H.
  - unfold RequestPolicy in H |- *. destruct new as [new|]; [|done].
    destruct (reserve _ _ _ _ _ _) as [m1 [id|e]] eqn:Er in H; [|done].
    assert (rm_changes m' !! id = Some c /\ rm_idem m' = rm_idem m1) as [Hc Hi]
      by (repeat case_match; simplify_eq/=; split; auto; apply lookup_insert_eq).
    rewrite (reserve_remembers _ _ _ _ _ _ _ _ _ fp new' Er Hi). unfold same. destruct (fp == _); by rewrite ?Hc.
  - unfold CreateHold in H |- *. destruct new as [new|]; [|done].
    destruct (reserve _ _ _ _ _ _) as [m1 [id|e]] eqn:Er in H; [|done].
    assert (rm_holds m' !! id = Some c /\ rm_idem m' = rm_idem m1) as [Hc Hi]
      by (repeat case_match; simplify_eq/=; split; auto; apply lookup_insert_eq).
    rewrite (reserve_remembers _ _ _ _ _ _ _ _ _ fp new' Er Hi). unfold same. destruct (fp == _); by rewrite ?Hc.
  - unfold RequestHoldRelease in H |- *. destruct new as [new|]; [|done].
    destruct (reserve _ _ _ _ _ _) as [m1 [id|e]] eqn:Er in H; [|done].
    assert (rm_releases m' !! id = Some c /\ rm_idem m' = rm_idem m1) as [Hc Hi]
      by (repeat case_match; simplify_eq/=; split; auto; apply lookup_insert_eq).
    rewrite (reserve_remembers _ _ _ _ _ _ _ _ _ fp new' Er Hi). unfold same. destruct (fp == _); by rewrite ?Hc.
Qed.

(** A decision is not: once an operator's approval or rejection of a change was
    carried out under a new key, repeating the very same call is answered as a
    conflict, because the change is no longer pending. *)
Theorem decision_not_replayed (m m' : RetentionMemory) p scope id (approve : bool) input idem now now' c :
  rm_idem m !! idempotency_key p scope (if approve then "retention.policy.approve" else "retention.policy.reject") idem = None ->
  DecidePolicy m p scope id approve input idem now = (m', Ok c) ->
  DecidePolicy m' p scope id approve input idem now' = (m', Err RtErrConflict).
Proof.
  intros Hk H. unfold DecidePolicy in H |- *. destruct (reserve m _ _ _ _ _) as [m1 [r|e]] eqn:Er; [|done].
  assert (r = id) as -> by (unfold reserve in Er; rewrite Hk in Er; by injection Er).
  assert (rm_changes m' !! id = Some c /\ rm_idem m' = rm_idem m1 /\ pc_Status c <> PolicyPending /\ pc_TenantID c = scope)
    as (Hc & Hi & Hs & Ht).
  { repeat case_match; simplify_eq/=; bool_hyp; (split; [apply lookup_insert_eq|done]). }
  pose proof (reserve_remembers _ _ _ _ _ _ _ _ _ (ik_Fingerprint idem) id Er Hi) as Hr. destruct idem as [k f].
  unfold with_fingerprint in Hr. cbn in Hr. rewrite Hr, String.eqb_refl, Hc, Ht, String.eqb_refl. cbn.
  unfold change_lapsed. by rewrite (bool_decide_eq_false_2 _ Hs).
Qed.

(** ** A run: a policy is proposed, approved and put in force, and a hold is created and released *)

Definition s_tenant : string := "10000000-0000-7000-8000-000000000001".
Definition s_change : string := "30000000-0000-7000-8000-000000000001".
Definition s_policy : string := "30000000-0000-7000-8000-000000000002".
Definition s_hold : string := "30000000-0000-7000-8000-000000000003".
Definition s_request : string := "30000000-0000-7000-8000-000000000004".
Definition s_now : Time := UnixTime 1785542400.

Definition s_operator (actor : string) : Operator :=
  mkOperator actor "session" s_now
    ((fun permission => mkRetentionGrant permission s_tenant) <$>
       ["retention:policy_request"; "retention:policy_approve"; "retention:hold_create"; "retention:hold_release"]).
Definition s_alice : Operator := s_operator "20000000-0000-7000-8000-000000000001".
Definition s_bob : Operator := s_operator "20000000-0000-7000-8000-000000000002".
Definition s_carol : Operator := s_operator "20000000-0000-7000-8000-000000000003".

Definition s_readings (t : Time) : readings := mkReadings s_now s_now t.
Definition s_key (k : string) : RetentionIdempotency := mkIdempotency k k.
Definition s_later : Time := AddTime s_now (2 * Hour).
Definition s_visit : visit := mkVisit [s_change] [s_request] [s_change] [s_hold] (fun _ => s_policy).

Definition s_input : RequestPolicyInput :=
  mkRequestPolicyInput s_tenant PublishedOutbox 0 0 (mkPolicyProposal 30 7 90 true) (AddTime s_now Hour) "approved retention policy".
Definition s_hold_input : CreateHoldInput :=
  mkCreateHoldInput s_tenant CallbackEventBody HoldTenant "" "" "" "CASE-1" "preserve callback evidence" None.
Definition s_release_input : RequestReleaseInput :=
  mkRequestReleaseInput s_tenant s_hold 1 "the legal matter is closed".
Definition s_decision : RetentionDecision := mkDecisionInput 1 "independently reviewed".

Definition s1 : RetentionMemory :=
  (Service_RequestPolicy NewRetentionMemory s_alice s_input (s_key "request-1") (Some s_change) (s_readings s_now)).1.
Definition s2 : RetentionMemory :=
  (Service_DecidePolicy s1 s_bob s_tenant s_change true s_decision (s_key "approve-1") (s_readings s_now)).1.
Definition s3 : RetentionMemory := (Scheduler_RunOnce s2 s_visit 10 (s_readings s_later)).1.
Definition s4 : RetentionMemory :=
  (Service_CreateHold s3 s_alice s_hold_input (s_key "hold-0001") (Some s_hold) (s_readings s_now)).1.
Definition s5 : RetentionMemory :=
  (Service_RequestHoldRelease s4 s_bob s_release_input (s_key "release-1") (Some s_request) (s_readings s_now)).1.
Definition s6 : RetentionMemory :=
  (Service_DecideHoldRelease s5 s_carol s_tenant s_request true s_decision (s_key "decide-01") (s_readings s_now)).1.

Lemma s4_reachable : retention_reachable s4.
Proof.
  eapply rtc_l; [apply rs_request|]. eapply rtc_l; [apply rs_decide|]. eapply rtc_l; [apply rs_run|].
  eapply rtc_l; [apply rs_hold|]. apply rtc_refl.
Qed.

Lemma s46_steps : rtc retention_step s4 s6.
Proof. eapply rtc_l; [apply rs_release|]. eapply rtc_l; [apply rs_decide_release|]. apply rtc_refl. Qed.

Lemma s6_reachable : retention_reachable s6.
Proof. unfold retention_reachable. etrans; [apply s4_reachable|apply s46_steps]. Qed.

Lemma s4_change :
  match rm_changes s4 !! s_change with Some c => bool_decide (pc_Status c = PolicyActive) | None => false end = true.
Proof. by vm_compute. Qed.

Lemma s4_hold : match rm_holds s4 !! s_hold with Some _ => true | None => false end = true.
Proof. vm_compute. reflexivity. Qed.

Lemma retention_invariant_witness :
  (match rm_holds s6 !! s_hold with Some h => State h | None => "" end) = "released" /\ retention_ok s6.
Proof. split; [vm_compute; reflexivity|]. apply (retention_invariant s6 s6_reachable). Defined.

Lemma legal_hold_final_witness :
  exists h h', rm_holds s4 !! s_hold = Some h /\ rm_holds s6 !! s_hold = Some h' /\ (h' = h \/ hold_next h h').
Proof.
  pose proof s4_hold as Hh. destruct (rm_holds s4 !! s_hold) as [h|] eqn:E; [|discriminate Hh].
  destruct (legal_hold_final s4 s6 s_hold h s4_reachable s46_steps E) as (h' & H1 & H2). exists h, h'.
  exact (conj eq_refl (conj H1 H2)).
Defined.

Lemma activation_once_witness :
  exists c, rm_changes s4 !! s_change = Some c /\ pc_Status c = PolicyActive /\ s_change = s_change.
Proof.
  pose proof s4_change as Hc. destruct (rm_changes s4 !! s_change) as [c|] eqn:E; [|discriminate Hc].
  apply bool_decide_eq_true in Hc. exists c. split; [exact eq_refl|]. split; [exact Hc|].
  exact (activation_once s4 s_change s_change c c s4_reachable E E Hc Hc eq_refl eq_refl eq_refl).
Defined.

Lemma s_visit_covers m :
  dom (rm_changes m) = {[s_change]} -> dom (rm_releases m) = ∅ -> dom (rm_holds m) = ∅ -> covers s_visit m.
Proof.
  intros D1 D2 D3. split; [|split]; intros k; [rewrite D1|rewrite D2|rewrite D3]; [|set_solver..].
  rewrite elem_of_singleton. intros ->. by split; left.
Qed.

Lemma s2_covered : covers s_visit s2.
Proof. apply s_visit_covers; vm_compute; reflexivity. Qed.

Lemma s2_moves_one : (AdvanceDue s2 s_visit 10 s_later).2 = 1.
Proof. vm_compute. reflexivity. Qed.

Lemma AdvanceDue_complete_witness :
  (AdvanceDue s2 s_visit 10 s_later).2 = 1 /\ nothing_due s_later (AdvanceDue s2 s_visit 10 s_later).1.
Proof.
  pose proof s2_moves_one as Hn. destruct (AdvanceDue s2 s_visit 10 s_later) as [m n] eqn:E. cbn in Hn. subst n.
  split; [exact eq_refl|]. apply (AdvanceDue_complete s2 s_visit 10 s_later m 1 E ltac:(lia) s2_covered). lia.
Defined.

Lemma ListHolds_pages_witness :
  StronglySorted (fun a b => str_less (lh_ID a) (lh_ID b) = true)
    (follow 2 (fun cursor => ListHolds s4 s_alice s_tenant cursor 10) "").
Proof.
  refine (proj1 (ListHolds_pages s4 s_alice s_tenant 10 2 s4_reachable _ ltac:(lia) _)).
  - vm_compute. reflexivity.
  - vm_compute. lia.
Defined.

Lemma service_authority_witness :
  ValidID (op_ActorID s_alice) = true /\
  exists g, In g (op_Grants s_alice) /\ rg_Permission g = "retention:policy_request".
Proof.
  destruct (Service_RequestPolicy NewRetentionMemory s_alice s_input (s_key "request-1") (Some s_change) (s_readings s_now))
    as [r x] eqn:E.
  destruct (proj1 (service_authority NewRetentionMemory r s_alice (s_readings s_now)) _ _ _ _ E) as (H & _ & _ & g & Hg & Hp & _).
  - left. change x with (r, x).2. rewrite <- E. vm_compute. reflexivity.
  - split; [exact H|]. exists g. exact (conj Hg Hp).
Defined.

Lemma s4_created : is_ok (CreateHold s3 s_alice s_hold_input (s_key "hold-0001") (Some s_hold) s_now).2 = true.
Proof. vm_compute. reflexivity. Qed.

Lemma requests_replay_witness :
  exists h, CreateHold s4 s_alice s_hold_input (with_fingerprint (s_key "hold-0001") "other") (Some s_request) s_later =
              (s4, Err RtErrIdempotencyConflict) /\
            CreateHold s4 s_alice s_hold_input (with_fingerprint (s_key "hold-0001") "hold-0001") (Some s_request) s_later =
              (s4, Ok h).
Proof.
  destruct (CreateHold s3 s_alice s_hold_input (s_key "hold-0001") (Some s_hold) s_now) as [m x] eqn:E.
  assert (m = s4) as -> by (change m with (m, x).1; rewrite <- E; vm_compute; reflexivity).
  pose proof s4_created as Hx. rewrite E in Hx. destruct x as [h|e]; [|discriminate Hx].
  exists h. split.
  - exact (proj1 (proj2 (requests_replay s3 s4 s_alice (s_key "hold-0001") (Some s_hold) s_now "other" s_request s_later)) _ _ E).
  - exact (proj1 (proj2 (requests_replay s3 s4 s_alice (s_key "hold-0001") (Some s_hold) s_now "hold-0001" s_request s_later)) _ _ E).
Defined.

(** A key reserved by a refused decision on one change and reused for another with
    the same fingerprint: the approval is recorded under the second change's key
    with the contents of the first, and the second change is lost. The callers
    under src/ put the path, hence the id, into the fingerprint. *)
Definition s_other : string := "30000000-0000-7000-8000-000000000005".
Definition s_two : RetentionMemory :=
  (Service_RequestPolicy s1 s_alice (mkRequestPolicyInput s_tenant EventHistoryPayload 0 0 (mkPolicyProposal 60 7 90 false)
     (AddTime s_now Hour) "approved history policy") (s_key "request-2") (Some s_other) (s_readings s_now)).1.
Definition s_refused : RetentionMemory :=
  (DecidePolicy s_two s_bob s_tenant s_change true (mkDecisionInput 2 "independently reviewed") (s_key "approve-1") s_now).1.
Definition s_confused : RetentionMemory :=
  (DecidePolicy s_refused s_bob s_tenant s_other true s_decision (s_key "approve-1") s_now).1.

Example decision_on_reused_key :
  ((fun c => (pc_ID c, pc_Status c)) <$> rm_changes s_two !! s_other) = Some (s_other, PolicyPending) /\
  ((fun c => (pc_ID c, pc_Status c)) <$> rm_changes s_confused !! s_other) = Some (s_change, PolicyScheduled) /\
  ((fun c => (pc_ID c, pc_Status c)) <$> rm_changes s_confused !! s_change) = Some (s_change, PolicyPending).
Proof. split; [vm_compute; reflexivity|]. split; vm_compute; reflexivity. Qed.
