(* ===== verification/MerchantSettings.v ===== *)
(** * MerchantSettings: internal/merchantsettings (model.go, validation.go, token.go, service.go, memory.go)

    The team of a merchant: members and their roles, invitations, the security
    actions by which a high-risk change waits for a second person, and the project
    settings. The service checks authority and shape; it is modelled against the
    interface [SettingsRepository], which the in-memory repository implements. *)

From Stdlib Require Import ZArith Lia Ascii String Permutation Sorted.
From stdpp Require Import base gmap list strings.
From S2P Require Import Prelude Text Encoding Rates.

(** ** Data (model.go) *)

Inductive settings_error :=
| MsErrInvalid | MsErrUnauthenticated | MsErrForbidden | MsErrNotFound | MsErrConflict | MsErrIdempotencyConflict
| MsErrApprovalRequired | MsErrDependency.

Definition PermissionTeamRead : string := "team:read".
Definition PermissionTeamInvite : string := "team:invite".
Definition PermissionTeamManage : string := "team:manage".
Definition PermissionSecurityRequest : string := "team:security_request".
Definition PermissionSecurityApprove : string := "team:security_approve".
Definition PermissionSettingsRead : string := "settings:read".
Definition PermissionSettingsWrite : string := "settings:write".

Record TeamPrincipal := mkTeamPrincipal {
  tp_TenantID : string; tp_MerchantID : string; tp_UserID : string; tp_SessionID : string; tp_OIDCIssuer : string;
  tp_OIDCSubject : string; tp_Email : string; tp_EmailVerified : bool; tp_MFAAt : Time }.

Record SettingsIdempotency := mkSettingsIdempotency { sy_Key : string; sy_Fingerprint : string }.

Record Role := mkRole { ro_Key : string; ro_HighRisk : bool; ro_Permissions : list string }.

Record Member := mkMember {
  mb_ID : string; mb_Email : string; mb_DisplayName : string; mb_Status : string; mb_RoleKeys : list string;
  mb_JoinedAt : Time; mb_UpdatedAt : Time; mb_Version : Z; mb_AdminUserID : string }.

Record Invitation := mkInvitation {
  iv_ID : string; iv_Email : string; iv_RoleKeys : list string; iv_DeliveryMode : string; iv_Status : string;
  iv_InviteToken : string; iv_CreatedAt : Time; iv_ExpiresAt : Time; iv_Version : Z; iv_TokenKeyID : string }.

Record CreateInvitationInput := mkCreateInvitationInput {
  ci_Email : string; ci_RoleKeys : list string; ci_DeliveryMode : string; ci_TTLSeconds : Z; ci_Reason : string;
  ci_GeneratedID : string; ci_TokenKeyID : string }.
(** [InvitationDecision], [MemberMutationInput] and [SecurityDecisionInput] have the same fields. *)
Record VersionedReason := mkVersionedReason { vr_Version : Z; vr_Reason : string }.
Record RoleChangeInput := mkRoleChangeInput { rc_Version : Z; rc_RoleKeys : list string; rc_Reason : string }.

Record SecurityAction := mkSecurityAction {
  sc_ID : string; sc_Operation : string; sc_TargetMemberID : string; sc_TargetVersion : Z; sc_DesiredRoleKeys : list string;
  sc_Status : string; sc_RequestedBy : string; sc_ApprovedBy : string; sc_RequestReason : string; sc_ApprovalReason : string;
  sc_CreatedAt : Time; sc_ExpiresAt : Time; sc_UpdatedAt : Time; sc_Version : Z }.
Record CreateSecurityActionInput := mkCreateSecurityActionInput {
  si_Operation : string; si_TargetMemberID : string; si_TargetVersion : Z; si_DesiredRoleKeys : list string; si_Reason : string }.

Record NotificationPreferences := mkNotificationPreferences {
  np_PaymentSucceeded : bool; np_PaymentFailed : bool; np_WeeklySummary : bool }.
Record ProjectSettings := mkProjectSettings {
  ps_DisplayName : string; ps_Locale : string; ps_Timezone : string; ps_SupportEmail : string;
  ps_Notifications : NotificationPreferences; ps_AllowedEmbedOrigins : list string; ps_UpdatedAt : Time; ps_Version : Z }.
Record UpdateSettingsInput := mkUpdateSettingsInput {
  us_Version : Z; us_DisplayName : string; us_Locale : string; us_Timezone : string; us_SupportEmail : string;
  us_Notifications : NotificationPreferences; us_AllowedEmbedOrigins : list string; us_Reason : string }.

Record TeamPage (T : Type) := mkTeamPage { tg_Data : list T; tg_NextCursor : string }.
Arguments mkTeamPage {T}.
Arguments tg_Data {T}.
Arguments tg_NextCursor {T}.

(** ** Validation (validation.go) *)

Definition ordinaryRoles : list string := ["admin"; "developer"; "support"; "viewer"].
Definition allRoles : list string := ["owner"; "security_admin"; "admin"; "developer"; "support"; "viewer"].
Definition highRiskRoles : list string := ["owner"; "security_admin"].

(** No two neighbours of a sorted list are equal, and each is allowed. *)
Fixpoint roles_ok (allowed : list string) (prior : option string) (roles : list string) : bool :=
  match roles with
  | [] => true
  | role :: rest =>
      existsb_str role allowed
      && match prior with Some q => role != q | None => true end
      && roles_ok allowed (Some role) rest
  end.

Definition normalizeRoles (values : list string) (allowed : list string) : option (list string) :=
  if (Z.of_nat (length values) <? 1) || (Z.of_nat (length allRoles) <? Z.of_nat (length values)) then None
  else
    let roles := sort_by str_less values in
    if roles_ok allowed None roles then Some roles else None.

Definition highRiskChange (before after : list string) : bool :=
  existsb (fun role => negb (eqb (existsb_str role before) (existsb_str role after))) highRiskRoles.

Definition hasHighRiskRole (roles : list string) : bool := existsb (fun r => (r == "owner") || (r == "security_admin")) roles.

Definition settingsReason (value : string) : bool :=
  let value := TrimSpace value in (8 <=? len value) && (len value <=? 1000).

Definition recentMFA (p : TeamPrincipal) (now : Time) : bool :=
  negb (IsZeroTime (tp_MFAAt p)) && negb (After (tp_MFAAt p) (AddTime now (15 * Second)))
  && (SubTime now (tp_MFAAt p) <=? 10 * Minute).

Definition decodeInviteToken (raw : string) : option string :=
  match b64_decode raw with
  | None => None
  | Some decoded => if negb (len decoded =? 32) || (b64_encode decoded != raw) then None else Some decoded
  end.

(** What [url.Parse] says of an issuer or an origin. *)
Record OriginURL := mkOriginURL {
  ou_Scheme : string; ou_Host : string; ou_HasUser : bool; ou_Path : string; ou_RawPath : string; ou_RawQuery : string;
  ou_Fragment : string }.

Definition ends_with (s suffix : string) : bool := HasPrefix (reversed s) (reversed suffix).
Definition TrimSuffix (s suffix : string) : string := reversed (TrimPrefix (reversed s) (reversed suffix)).

Section validation.
(** [url.Parse], [strings.ToLower], the address of [mail.ParseAddress] and whether
    [time.LoadLocation] knows a zone. *)
Context (parse : string -> option OriginURL) (ToLower : string -> string) (ParseAddress : string -> option string)
  (LoadLocation : string -> bool).

Definition normalizeEmail (value : string) : string :=
  let value := ToLower (TrimSpace value) in
  match ParseAddress value with
  | Some address => if (address != value) || (320 <? len value) then "" else value
  | None => ""
  end.

Definition validOIDCIssuer (raw : string) : bool :=
  match parse raw with
  | Some u => (ou_Scheme u == "https") && (ou_Host u != "") && negb (ou_HasUser u) && (ou_RawQuery u == "")
              && (ou_Fragment u == "") && ((ou_Path u == "") || (ou_Path u == "/")) && negb (ends_with raw "/")
  | None => false
  end.

Definition validPrincipal (p : TeamPrincipal) : bool :=
  if negb (ValidID (tp_TenantID p)) || negb (ValidID (tp_MerchantID p)) || negb (ValidID (tp_UserID p))
     || negb (ValidID (tp_SessionID p))
  then false
  else if negb (tp_EmailVerified p) || (normalizeEmail (tp_Email p) == "") || negb (validOIDCIssuer (tp_OIDCIssuer p))
          || (TrimSpace (tp_OIDCSubject p) == "") || (255 <? len (tp_OIDCSubject p))
  then false
  else true.

Definition normalizeOrigin (raw : string) : option string :=
  match parse raw with
  | None => None
  | Some u =>
      if (ou_Scheme u != "https") || (ou_Host u == "") || ou_HasUser u || (ou_Path u != "") || (ou_RawPath u != "")
         || (ou_RawQuery u != "") || (ou_Fragment u != "")
      then None
      else
        let host := ToLower (ou_Host u) in
        let host := if ends_with host ":443" then TrimSuffix host ":443" else host in
        if negb (str_forall (fun c => negb (one_of [32; 9; 13; 10] c)) host) || (host == "") then None
        else Some ("https://" +:+ host)
  end.

Definition settingsLocales : list string := ["en"; "zh-CN"; "es"; "fr"; "de"; "ru"].

Fixpoint no_neighbours (l : list string) : bool :=
  match l with
  | a :: ((b :: _) as rest) => (b != a) && no_neighbours rest
  | _ => true
  end.

Definition normalizeSettings (input : UpdateSettingsInput) : option UpdateSettingsInput :=
  let displayName := TrimSpace (us_DisplayName input) in
  let rawSupportEmail := TrimSpace (us_SupportEmail input) in
  let supportEmail := normalizeEmail rawSupportEmail in
  let reason := TrimSpace (us_Reason input) in
  if ((rawSupportEmail != "") && (supportEmail == "")) || (us_Version input <? 1) || (len displayName <? 1)
     || (120 <? len displayName) || negb (settingsReason reason)
  then None
  else if negb (existsb_str (us_Locale input) settingsLocales) then None
  else if negb (LoadLocation (us_Timezone input)) then None
  else if 100 <? Z.of_nat (length (us_AllowedEmbedOrigins input)) then None
  else
    origins ← mapM normalizeOrigin (us_AllowedEmbedOrigins input);
    let origins := sort_by str_less origins in
    if no_neighbours origins then
      Some (mkUpdateSettingsInput (us_Version input) displayName (us_Locale input) (us_Timezone input) supportEmail
              (us_Notifications input) origins reason)
    else None.
End validation.

(** ** Invitation tokens (token.go) *)

Definition inviteTokenDomain : string := "merchant-invite-v1" +:+ String (chr 0) "".

Definition tokenKeyIDPattern (s : string) : bool :=
  first_is alnum s && str_forall (fun c => alnum c || one_of [46; 95; 45] c) s && (len s <=? 64).

Record HMACTokenKeyRing := mkHMACTokenKeyRing { kr_current : string; kr_keys : gmap string string }.

Definition NewHMACTokenKeyRing (current : string) (keys : gmap string string) : option HMACTokenKeyRing :=
  if (current == "") || bool_decide (keys = ∅) then None
  else if negb (forallb (fun '(id, key) => tokenKeyIDPattern id && (len key =? 32)) (map_to_list keys)) then None
  else match keys !! current with
       | None => None
       | Some _ => Some (mkHMACTokenKeyRing current keys)
       end.

Section keyring.
(** [hmac.New(sha256.New, key)] over its input and [sha256.Sum256]. *)
Context (hmac : string -> string -> string) (sha256 : string -> string).

Definition derive (k : HMACTokenKeyRing) (tenant merchant invitation keyID domain : string) : option (string * string) :=
  match kr_keys k !! keyID with
  | None => None
  | Some key =>
      let raw := hmac key (domain +:+ tenant +:+ merchant +:+ invitation) in
      Some (b64_encode raw, sha256 raw)
  end.

Definition IssueToken (k : HMACTokenKeyRing) (t m i : string) : option (string * string * string) :=
  '(token, digest) ← derive k t m i (kr_current k) inviteTokenDomain; Some (token, digest, kr_current k).

Definition DeriveToken (k : HMACTokenKeyRing) (t m i keyID : string) : option (string * string) :=
  derive k t m i keyID inviteTokenDomain.

Definition KeyIDs (k : HMACTokenKeyRing) : list string := sort_by str_less (fst <$> map_to_list (kr_keys k)).
End keyring.

(** ** The in-memory repository (memory.go) *)

(** What is remembered of an answer: its JSON text, written here as the value that
    text decodes to. The user id of a member is not part of its JSON. *)
Inductive ReplayBody :=
| BodyInvitation (i : Invitation)
| BodyMember (m : Member)
| BodyAction (a : SecurityAction)
| BodySettings (s : ProjectSettings).

Definition member_json (m : Member) : Member :=
  mkMember (mb_ID m) (mb_Email m) (mb_DisplayName m) (mb_Status m) (mb_RoleKeys m) (mb_JoinedAt m) (mb_UpdatedAt m)
    (mb_Version m) "".

Record settingsReplay := mkSettingsReplay { sp_Hash : string; sp_Body : ReplayBody }.
Record memoryInvite := mkMemoryInvite { mv_Invitation : Invitation; mv_Hash : string }.

Record SettingsMemory := mkSettingsMemory {
  ms_permissions : gmap string (list string); ms_members : gmap string Member; ms_invites : gmap string memoryInvite;
  ms_actions : gmap string SecurityAction; ms_settings : gmap string ProjectSettings; ms_idem : gmap string settingsReplay;
  ms_RevocationSignals : list string; ms_EmailReady : bool }.

Definition NewSettingsMemory : SettingsMemory := mkSettingsMemory ∅ ∅ ∅ ∅ ∅ ∅ [] true.

Definition with_members s x :=
  mkSettingsMemory (ms_permissions s) x (ms_invites s) (ms_actions s) (ms_settings s) (ms_idem s) (ms_RevocationSignals s) (ms_EmailReady s).
Definition with_invites s x :=
  mkSettingsMemory (ms_permissions s) (ms_members s) x (ms_actions s) (ms_settings s) (ms_idem s) (ms_RevocationSignals s) (ms_EmailReady s).
Definition with_actions s x :=
  mkSettingsMemory (ms_permissions s) (ms_members s) (ms_invites s) x (ms_settings s) (ms_idem s) (ms_RevocationSignals s) (ms_EmailReady s).
Definition with_settings s x :=
  mkSettingsMemory (ms_permissions s) (ms_members s) (ms_invites s) (ms_actions s) x (ms_idem s) (ms_RevocationSignals s) (ms_EmailReady s).
Definition with_replays s x :=
  mkSettingsMemory (ms_permissions s) (ms_members s) (ms_invites s) (ms_actions s) (ms_settings s) x (ms_RevocationSignals s) (ms_EmailReady s).
Definition revoke_sessions s user :=
  mkSettingsMemory (ms_permissions s) (ms_members s) (ms_invites s) (ms_actions s) (ms_settings s) (ms_idem s)
    (ms_RevocationSignals s ++ [user]) (ms_EmailReady s).

Definition team_separator : string := String "031" "".
Definition team_scope (p : TeamPrincipal) : string := tp_TenantID p +:+ team_separator +:+ tp_MerchantID p.

Definition Grant_permissions (s : SettingsMemory) (p : TeamPrincipal) (perms : list string) : SettingsMemory :=
  mkSettingsMemory (<[tp_UserID p := default [] (ms_permissions s !! tp_UserID p) ++ perms]> (ms_permissions s)) (ms_members s)
    (ms_invites s) (ms_actions s) (ms_settings s) (ms_idem s) (ms_RevocationSignals s) (ms_EmailReady s).

Definition SeedMember (s : SettingsMemory) (m : Member) : SettingsMemory := with_members s (<[mb_ID m := m]> (ms_members s)).

Definition Memory_Authorize (s : SettingsMemory) (p : TeamPrincipal) (permission : string) : bool :=
  match ms_permissions s !! tp_UserID p with Some perms => existsb_str permission perms | None => false end.

Definition ListRoles : list Role :=
  [mkRole "owner" true [PermissionTeamRead; PermissionSecurityApprove];
   mkRole "security_admin" true [PermissionTeamRead; PermissionSecurityApprove];
   mkRole "admin" false [PermissionTeamRead; PermissionTeamManage; PermissionSettingsWrite];
   mkRole "developer" false [PermissionTeamRead; PermissionSettingsWrite];
   mkRole "support" false [PermissionTeamRead]; mkRole "viewer" false [PermissionTeamRead]].

(** [ListMembers], [ListInvitations] and [ListSecurityActions]: by descending id, from below the cursor. *)
Definition team_page {T} (id : T -> string) (values : list T) (cursor : string) (limit : Z) : TeamPage T :=
  let list := sort_by (fun a b => str_less (id b) (id a))
                (List.filter (fun v => (cursor == "") || str_less (id v) cursor) values) in
  if Z.of_nat (length list) >? limit then
    mkTeamPage (take (Z.to_nat limit) list) (match last (take (Z.to_nat limit) list) with Some x => id x | None => "" end)
  else mkTeamPage list "".

Definition ListMembers (s : SettingsMemory) (cursor : string) (limit : Z) : TeamPage Member :=
  team_page mb_ID (snd <$> map_to_list (ms_members s)) cursor limit.
Definition ListInvitations (s : SettingsMemory) (cursor : string) (limit : Z) : TeamPage Invitation :=
  team_page iv_ID (mv_Invitation <$> (snd <$> map_to_list (ms_invites s))) cursor limit.
Definition ListSecurityActions (s : SettingsMemory) (cursor : string) (limit : Z) : TeamPage SecurityAction :=
  team_page sc_ID (snd <$> map_to_list (ms_actions s)) cursor limit.

Definition GetMember (s : SettingsMemory) (id : string) : result settings_error Member :=
  match ms_members s !! id with Some v => Ok v | None => Err MsErrNotFound end.

Definition settings_idemKey (p : TeamPrincipal) (op key : string) : string :=
  Join [team_scope p; tp_UserID p; op; key] team_separator.

(** [replay] answers what is remembered under the key, if anything; [remember] records an answer. *)
Definition replay_settings (s : SettingsMemory) (p : TeamPrincipal) (op : string) (idem : SettingsIdempotency)
    : result settings_error (option ReplayBody) :=
  match ms_idem s !! settings_idemKey p op (sy_Key idem) with
  | None => Ok None
  | Some prior => if sp_Hash prior != sy_Fingerprint idem then Err MsErrIdempotencyConflict else Ok (Some (sp_Body prior))
  end.

Definition remember (s : SettingsMemory) (p : TeamPrincipal) (op : string) (idem : SettingsIdempotency) (body : ReplayBody)
    : SettingsMemory :=
  with_replays s (<[settings_idemKey p op (sy_Key idem) := mkSettingsReplay (sy_Fingerprint idem) body]> (ms_idem s)).

(** An operation under its key: a remembered answer is decoded by [decode] and
    replayed, otherwise the operation runs and its answer is remembered. One
    operation name always stores one type, so decoding only fails for the type of
    another operation. *)
Definition idempotent {A} (s : SettingsMemory) (p : TeamPrincipal) (op : string) (idem : SettingsIdempotency)
    (decode : ReplayBody -> option A) (encode : A -> ReplayBody) (run : result settings_error (SettingsMemory * A))
    : SettingsMemory * result settings_error (A * bool) :=
  match replay_settings s p op idem with
  | Err e => (s, Err e)
  | Ok (Some body) =>
      match decode body with Some out => (s, Ok (out, true)) | None => (s, Err MsErrDependency) end
  | Ok None =>
      match run with
      | Err e => (s, Err e)
      | Ok (s', out) => (remember s' p op idem (encode out), Ok (out, false))
      end
  end.

Definition decode_invitation (b : ReplayBody) : option Invitation := match b with BodyInvitation i => Some i | _ => None end.
Definition decode_member (b : ReplayBody) : option Member := match b with BodyMember m => Some m | _ => None end.
Definition decode_action (b : ReplayBody) : option SecurityAction := match b with BodyAction a => Some a | _ => None end.
Definition decode_settings (b : ReplayBody) : option ProjectSettings := match b with BodySettings x => Some x | _ => None end.

(** *** Invitations *)

Definition invite_open (status : string) : bool := (status == "active") || (status == "pending_delivery").

Definition new_invitation (input : CreateInvitationInput) (now : Time) : Invitation :=
  mkInvitation (ci_GeneratedID input) (ci_Email input) (ci_RoleKeys input) (ci_DeliveryMode input)
    (if ci_DeliveryMode input == "copy_once" then "active" else "pending_delivery") "" now
    (AddTime now (int64 (ci_TTLSeconds input * Second))) 1 (ci_TokenKeyID input).

Definition create_invitation (s : SettingsMemory) (input : CreateInvitationInput) (hash : string) (now : Time)
    : result settings_error (SettingsMemory * Invitation) :=
  if existsb (fun v => (iv_Email (mv_Invitation v) == ci_Email input) && invite_open (iv_Status (mv_Invitation v)))
       (snd <$> map_to_list (ms_invites s))
  then Err MsErrConflict
  else if negb (ValidID (ci_GeneratedID input)) || (ci_TokenKeyID input == "") then Err MsErrInvalid
  else
    let out := new_invitation input now in
    Ok (with_invites s (<[ci_GeneratedID input := mkMemoryInvite out hash]> (ms_invites s)), out).

(** A replay answers the invitation as it is now. *)
Definition CreateInvitation (s : SettingsMemory) (p : TeamPrincipal) (input : CreateInvitationInput) (hash : string)
    (idem : SettingsIdempotency) (now : Time) : SettingsMemory * result settings_error (Invitation * bool) :=
  match idempotent s p "invite.create" idem decode_invitation BodyInvitation (create_invitation s input hash now) with
  | (s', Ok (out, true)) =>
      (s', Ok (match ms_invites s !! iv_ID out with Some current => mv_Invitation current | None => out end, true))
  | answer => answer
  end.

Definition invite_moved (v : memoryInvite) (status : string) : memoryInvite :=
  let i := mv_Invitation v in
  mkMemoryInvite (mkInvitation (iv_ID i) (iv_Email i) (iv_RoleKeys i) (iv_DeliveryMode i) status (iv_InviteToken i)
    (iv_CreatedAt i) (iv_ExpiresAt i) (int64 (iv_Version i + 1)) (iv_TokenKeyID i)) (mv_Hash v).

Definition ActivateInvitation (s : SettingsMemory) (id : string) (version : Z) : SettingsMemory * result settings_error Invitation :=
  match ms_invites s !! id with
  | None => (s, Err MsErrNotFound)
  | Some v =>
      if negb (iv_Version (mv_Invitation v) =? version) || (iv_Status (mv_Invitation v) != "pending_delivery")
      then (s, Err MsErrConflict)
      else let v := invite_moved v "active" in (with_invites s (<[id := v]> (ms_invites s)), Ok (mv_Invitation v))
  end.

Definition FailInvitationDelivery (s : SettingsMemory) (id : string) (version : Z) : SettingsMemory * result settings_error unit :=
  match ms_invites s !! id with
  | None => (s, Err MsErrConflict)
  | Some v =>
      if negb (iv_Version (mv_Invitation v) =? version) || (iv_Status (mv_Invitation v) != "pending_delivery")
      then (s, Err MsErrConflict)
      else (with_invites s (<[id := invite_moved v "revoked"]> (ms_invites s)), Ok tt)
  end.

Definition revoke_invitation (s : SettingsMemory) (id : string) (input : VersionedReason)
    : result settings_error (SettingsMemory * Invitation) :=
  match ms_invites s !! id with
  | None => Err MsErrNotFound
  | Some v =>
      if negb (iv_Version (mv_Invitation v) =? vr_Version input) || negb (invite_open (iv_Status (mv_Invitation v)))
      then Err MsErrConflict
      else let v := invite_moved v "revoked" in Ok (with_invites s (<[id := v]> (ms_invites s)), mv_Invitation v)
  end.

Definition RevokeInvitation (s : SettingsMemory) (p : TeamPrincipal) (id : string) (input : VersionedReason)
    (idem : SettingsIdempotency) : SettingsMemory * result settings_error (Invitation * bool) :=
  idempotent s p "invite.revoke" idem decode_invitation BodyInvitation (revoke_invitation s id input).

(** The first invitation with the hash, in the order the map is visited. *)
Fixpoint find_invite (s : SettingsMemory) (hash : string) (order : list string) : option (string * memoryInvite) :=
  match order with
  | [] => None
  | id :: rest =>
      match ms_invites s !! id with
      | Some v => if mv_Hash v == hash then Some (id, v) else find_invite s hash rest
      | None => find_invite s hash rest
      end
  end.

(** [email] is the normalized address of the principal, [id] the answer of
    [ids.New], whose error is ignored, [expiry] and [now] the two readings of the clock. *)
Definition accept_invitation (s : SettingsMemory) (user email hash : string) (order : list string) (id : option string)
    (expiry now : Time) : result settings_error (SettingsMemory * Member) :=
  match find_invite s hash order with
  | None => Err MsErrNotFound
  | Some (found, invitation) =>
      let i := mv_Invitation invitation in
      if (found == "") then Err MsErrNotFound
      else if (iv_Status i != "active") || negb (After (iv_ExpiresAt i) expiry) || (iv_Email i != email) then Err MsErrConflict
      else if existsb (fun m => mb_AdminUserID m == user) (snd <$> map_to_list (ms_members s)) then Err MsErrConflict
      else
        let id := default "" id in
        let out := mkMember id email email "active" (iv_RoleKeys i) now now 1 user in
        let s := with_members s (<[id := out]> (ms_members s)) in
        Ok (with_invites s (<[found := invite_moved invitation "accepted"]> (ms_invites s)), out)
  end.

(** *** Members *)

Definition member_moved (m : Member) (status : string) (roles : list string) (now : Time) : Member :=
  mkMember (mb_ID m) (mb_Email m) (mb_DisplayName m) status roles (mb_JoinedAt m) now (int64 (mb_Version m + 1)) (mb_AdminUserID m).

Definition replace_roles (s : SettingsMemory) (id : string) (input : RoleChangeInput) (now : Time)
    : result settings_error (SettingsMemory * Member) :=
  match ms_members s !! id with
  | None => Err MsErrNotFound
  | Some v =>
      if negb (mb_Version v =? rc_Version input) || (mb_Status v != "active") then Err MsErrConflict
      else
        let v := member_moved v (mb_Status v) (rc_RoleKeys input) now in
        Ok (with_members s (<[id := v]> (ms_members s)), v)
  end.

Definition ReplaceOrdinaryRoles (s : SettingsMemory) (p : TeamPrincipal) (id : string) (input : RoleChangeInput)
    (idem : SettingsIdempotency) (now : Time) : SettingsMemory * result settings_error (Member * bool) :=
  idempotent s p "member.roles" idem decode_member (fun m => BodyMember (member_json m)) (replace_roles s id input now).

Definition mutate_member (s : SettingsMemory) (id operation : string) (input : VersionedReason) (now : Time)
    : result settings_error (SettingsMemory * Member) :=
  match ms_members s !! id with
  | None => Err MsErrNotFound
  | Some v =>
      if negb (mb_Version v =? vr_Version input) || (mb_Status v != "active") then Err MsErrConflict
      else
        let v := member_moved v (if operation == "disable" then "disabled" else "removed") (mb_RoleKeys v) now in
        Ok (revoke_sessions (with_members s (<[id := v]> (ms_members s))) (mb_AdminUserID v), v)
  end.

Definition MutateOrdinaryMember (s : SettingsMemory) (p : TeamPrincipal) (id operation : string) (input : VersionedReason)
    (idem : SettingsIdempotency) (now : Time) : SettingsMemory * result settings_error (Member * bool) :=
  idempotent s p ("member." +:+ operation) idem decode_member (fun m => BodyMember (member_json m))
    (mutate_member s id operation input now).

(** *** Security actions *)

Definition new_action (id user : string) (input : CreateSecurityActionInput) (now : Time) : SecurityAction :=
  mkSecurityAction id (si_Operation input) (si_TargetMemberID input) (si_TargetVersion input) (si_DesiredRoleKeys input)
    "pending_approval" user "" (si_Reason input) "" now (AddTime now (24 * Hour)) now 1.

Definition CreateSecurityAction (s : SettingsMemory) (p : TeamPrincipal) (input : CreateSecurityActionInput)
    (idem : SettingsIdempotency) (id : option string) (now : Time) : SettingsMemory * result settings_error (SecurityAction * bool) :=
  let out := new_action (default "" id) (tp_UserID p) input now in
  idempotent s p "security.create" idem decode_action BodyAction
    (Ok (with_actions s (<[sc_ID out := out]> (ms_actions s)), out)).

Definition is_owner (m : Member) : bool := (mb_Status m == "active") && existsb_str "owner" (mb_RoleKeys m).

Definition ownerCount (members : gmap string Member) : Z :=
  Z.of_nat (length (List.filter is_owner (snd <$> map_to_list members))).

Definition removesLastOwner (members : gmap string Member) (target : Member) (desired : list string) : bool :=
  existsb_str "owner" (mb_RoleKeys target) && negb (existsb_str "owner" desired) && (ownerCount members <=? 1).

Definition action_moved (a : SecurityAction) (status approvedBy reason : string) (now : Time) : SecurityAction :=
  mkSecurityAction (sc_ID a) (sc_Operation a) (sc_TargetMemberID a) (sc_TargetVersion a) (sc_DesiredRoleKeys a) status
    (sc_RequestedBy a) approvedBy (sc_RequestReason a) reason (sc_CreatedAt a) (sc_ExpiresAt a) now (int64 (sc_Version a + 1)).

(** The approved change carried out on its target. *)
Definition carry_out (s : SettingsMemory) (a : SecurityAction) (target : Member) (now : Time) : result settings_error SettingsMemory :=
  if sc_Operation a == "member.roles.replace" then
    if removesLastOwner (ms_members s) target (sc_DesiredRoleKeys a) then Err MsErrConflict
    else
      let target := member_moved target (mb_Status target) (sc_DesiredRoleKeys a) now in
      Ok (with_members s (<[mb_ID target := target]> (ms_members s)))
  else if hasHighRiskRole (mb_RoleKeys target) && (ownerCount (ms_members s) =? 1) && existsb_str "owner" (mb_RoleKeys target)
  then Err MsErrConflict
  else
    let target := member_moved target (if sc_Operation a == "member.disable" then "disabled" else "removed") (mb_RoleKeys target) now in
    let s := revoke_sessions s (mb_AdminUserID target) in
    Ok (with_members s (<[mb_ID target := target]> (ms_members s))).

(** [now], [moved] and [updated] are the readings of the clock. *)
Definition decide_action (s : SettingsMemory) (p : TeamPrincipal) (id : string) (approve : bool) (input : VersionedReason)
    (now moved updated : Time) : result settings_error (SettingsMemory * SecurityAction) :=
  match ms_actions s !! id with
  | None => Err MsErrNotFound
  | Some a =>
      if (sc_Status a != "pending_approval") || negb (sc_Version a =? vr_Version input) || (sc_RequestedBy a == tp_UserID p)
         || negb (After (sc_ExpiresAt a) now)
      then Err MsErrConflict
      else
        match ms_members s !! sc_TargetMemberID a with
        | None => Err MsErrConflict
        | Some target =>
            if negb (mb_Version target =? sc_TargetVersion a) || (mb_Status target != "active") then Err MsErrConflict
            else
              s' ← (if approve then carry_out s a target moved else Ok s);
              let a := if approve then action_moved a "completed" (tp_UserID p) (vr_Reason input) updated
                       else action_moved a "rejected" (sc_ApprovedBy a) (vr_Reason input) updated in
              Ok (with_actions s' (<[id := a]> (ms_actions s')), a)
        end
  end.

Definition DecideSecurityAction (s : SettingsMemory) (p : TeamPrincipal) (id : string) (approve : bool) (input : VersionedReason)
    (idem : SettingsIdempotency) (now moved updated : Time) : SettingsMemory * result settings_error (SecurityAction * bool) :=
  idempotent s p (if approve then "security.approve" else "security.reject") idem decode_action BodyAction
    (decide_action s p id approve input now moved updated).

(** *** Project settings *)

Definition GetSettings (s : SettingsMemory) (p : TeamPrincipal) : result settings_error ProjectSettings :=
  match ms_settings s !! team_scope p with Some v => Ok v | None => Err MsErrNotFound end.

Definition update_settings (s : SettingsMemory) (p : TeamPrincipal) (input : UpdateSettingsInput) (now : Time)
    : result settings_error (SettingsMemory * ProjectSettings) :=
  let prior := ms_settings s !! team_scope p in
  if match prior with Some x => negb (ps_Version x =? us_Version input) | None => negb (us_Version input =? 1) end
  then Err MsErrConflict
  else
    let next := match prior with Some x => int64 (ps_Version x + 1) | None => 1 end in
    let out := mkProjectSettings (us_DisplayName input) (us_Locale input) (us_Timezone input) (us_SupportEmail input)
      (us_Notifications input) (us_AllowedEmbedOrigins input) now next in
    Ok (with_settings s (<[team_scope p := out]> (ms_settings s)), out).

Definition UpdateSettings (s : SettingsMemory) (p : TeamPrincipal) (input : UpdateSettingsInput) (idem : SettingsIdempotency)
    (now : Time) : SettingsMemory * result settings_error (ProjectSettings * bool) :=
  idempotent s p "settings.update" idem decode_settings BodySettings (update_settings s p input now).

(** ** The repository interface (model.go [Repository]) *)

(** The answers of the environment during a call: the service's clock and
    [ids.New], the readings of the repository's clock in the order they are taken,
    the repository's [ids.New] and the order in which it visits a map. *)
Record team_env := mkTeamEnv {
  en_mfa : Time; en_generated : option string; en_now : Time; en_moved : Time; en_updated : Time; en_id : option string;
  en_order : list string }.

Class SettingsRepository (S : Type) := {
  sr_Authorize : S -> TeamPrincipal -> string -> result settings_error bool;
  sr_EmailDeliveryReady : S -> list string -> Duration -> result settings_error bool;
  sr_ListMembers : S -> TeamPrincipal -> string -> Z -> result settings_error (TeamPage Member);
  sr_ListInvitations : S -> TeamPrincipal -> string -> Z -> result settings_error (TeamPage Invitation);
  sr_ListSecurityActions : S -> TeamPrincipal -> string -> Z -> result settings_error (TeamPage SecurityAction);
  sr_ListRoles : S -> TeamPrincipal -> result settings_error (list Role);
  sr_GetMember : S -> TeamPrincipal -> string -> result settings_error Member;
  sr_CreateInvitation : S -> TeamPrincipal -> CreateInvitationInput -> string -> SettingsIdempotency -> team_env ->
    S * result settings_error (Invitation * bool);
  sr_RevokeInvitation : S -> TeamPrincipal -> string -> VersionedReason -> SettingsIdempotency -> team_env ->
    S * result settings_error (Invitation * bool);
  sr_AcceptInvitation : S -> TeamPrincipal -> string -> SettingsIdempotency -> team_env ->
    S * result settings_error (Member * bool);
  sr_ReplaceOrdinaryRoles : S -> TeamPrincipal -> string -> RoleChangeInput -> SettingsIdempotency -> team_env ->
    S * result settings_error (Member * bool);
  sr_MutateOrdinaryMember : S -> TeamPrincipal -> string -> string -> VersionedReason -> SettingsIdempotency -> team_env ->
    S * result settings_error (Member * bool);
  sr_CreateSecurityAction : S -> TeamPrincipal -> CreateSecurityActionInput -> SettingsIdempotency -> team_env ->
    S * result settings_error (SecurityAction * bool);
  sr_DecideSecurityAction : S -> TeamPrincipal -> string -> bool -> VersionedReason -> SettingsIdempotency -> team_env ->
    S * result settings_error (SecurityAction * bool);
  sr_GetSettings : S -> TeamPrincipal -> result settings_error ProjectSettings;
  sr_UpdateSettings : S -> TeamPrincipal -> UpdateSettingsInput -> SettingsIdempotency -> team_env ->
    S * result settings_error (ProjectSettings * bool) }.

Section memory_repository.
Context (ToLower : string -> string) (ParseAddress : string -> option string).

Definition AcceptInvitation (s : SettingsMemory) (p : TeamPrincipal) (hash : string) (idem : SettingsIdempotency) (e : team_env)
    : SettingsMemory * result settings_error (Member * bool) :=
  idempotent s p "invite.accept" idem decode_member (fun m => BodyMember (member_json m))
    (accept_invitation s (tp_UserID p) (normalizeEmail ToLower ParseAddress (tp_Email p)) hash (en_order e) (en_id e) (en_now e)
       (en_moved e)).

#[local] Instance settings_memory_repository : SettingsRepository SettingsMemory := {|
  sr_Authorize s p permission := Ok (Memory_Authorize s p permission);
  sr_EmailDeliveryReady s _ _ := Ok (ms_EmailReady s);
  sr_ListMembers s _ cursor limit := Ok (ListMembers s cursor limit);
  sr_ListInvitations s _ cursor limit := Ok (ListInvitations s cursor limit);
  sr_ListSecurityActions s _ cursor limit := Ok (ListSecurityActions s cursor limit);
  sr_ListRoles _ _ := Ok ListRoles;
  sr_GetMember s _ id := GetMember s id;
  sr_CreateInvitation s p input hash idem e := CreateInvitation s p input hash idem (en_now e);
  sr_RevokeInvitation s p id input idem _ := RevokeInvitation s p id input idem;
  sr_AcceptInvitation := AcceptInvitation;
  sr_ReplaceOrdinaryRoles s p id input idem e := ReplaceOrdinaryRoles s p id input idem (en_now e);
  sr_MutateOrdinaryMember s p id operation input idem e := MutateOrdinaryMember s p id operation input idem (en_now e);
  sr_CreateSecurityAction s p input idem e := CreateSecurityAction s p input idem (en_id e) (en_now e);
  sr_DecideSecurityAction s p id approve input idem e :=
    DecideSecurityAction s p id approve input idem (en_now e) (en_moved e) (en_updated e);
  sr_GetSettings := GetSettings;
  sr_UpdateSettings s p input idem e := UpdateSettings s p input idem (en_now e) |}.
End memory_repository.

(** ** The service (service.go) *)

(** [TokenIssuer] *)
Class TokenIssuer := {
  ti_Issue : string -> string -> string -> option (string * string * string);
  ti_KeyIDs : list string }.

Section service.
Context {S : Type} `{!SettingsRepository S} `{!TokenIssuer} (emailEnabled : bool).
Context (parse : string -> option OriginURL) (ToLower : string -> string) (ParseAddress : string -> option string)
  (LoadLocation : string -> bool) (sha256 : string -> string).
Implicit Types (s : S) (p : TeamPrincipal) (idem : SettingsIdempotency) (e : team_env).

Definition team_authorize s p (permission : string) : result settings_error unit :=
  if negb (validPrincipal parse ToLower ParseAddress p) then Err MsErrUnauthenticated
  else
    allowed ← sr_Authorize s p permission;
    if negb allowed then Err MsErrForbidden else Ok tt.

Definition valid_page (cursor : string) (limit : Z) : bool :=
  negb (((cursor != "") && negb (ValidID cursor)) || (limit <? 1) || (100 <? limit)).

Definition Team_ListRoles s p : result settings_error (list Role) :=
  team_authorize s p PermissionTeamRead ≫= fun _ => sr_ListRoles s p.
Definition Team_ListMembers s p (cursor : string) (limit : Z) : result settings_error (TeamPage Member) :=
  team_authorize s p PermissionTeamRead ≫= fun _ =>
  if negb (valid_page cursor limit) then Err MsErrInvalid else sr_ListMembers s p cursor limit.
Definition Team_ListInvitations s p (cursor : string) (limit : Z) : result settings_error (TeamPage Invitation) :=
  team_authorize s p PermissionTeamRead ≫= fun _ =>
  if negb (valid_page cursor limit) then Err MsErrInvalid else sr_ListInvitations s p cursor limit.
Definition Team_ListSecurityActions s p (cursor : string) (limit : Z) : result settings_error (TeamPage SecurityAction) :=
  team_authorize s p PermissionTeamRead ≫= fun _ =>
  if negb (valid_page cursor limit) then Err MsErrInvalid else sr_ListSecurityActions s p cursor limit.

(** A call of the repository behind the checks that prepare it. *)
Definition checked {I A} s (check : result settings_error I) (call : I -> S * result settings_error A)
    : S * result settings_error A :=
  match check with Err err => (s, Err err) | Ok input => call input end.

Definition invitation_with_token (i : Invitation) (token : string) : Invitation :=
  mkInvitation (iv_ID i) (iv_Email i) (iv_RoleKeys i) (iv_DeliveryMode i) (iv_Status i) token (iv_CreatedAt i) (iv_ExpiresAt i)
    (iv_Version i) (iv_TokenKeyID i).

(** The prepared input, the token and its digest. *)
Definition invitation_check s p (input : CreateInvitationInput) e
    : result settings_error (CreateInvitationInput * string * string) :=
  team_authorize s p PermissionTeamInvite ≫= fun _ =>
  let email := normalizeEmail ToLower ParseAddress (ci_Email input) in
  let reason := TrimSpace (ci_Reason input) in
  match normalizeRoles (ci_RoleKeys input) ordinaryRoles with
  | None => Err MsErrInvalid
  | Some roles =>
      if (email == "") || negb (settingsReason reason) || (ci_TTLSeconds input <? 300) || (30 * 24 * 3600 <? ci_TTLSeconds input)
         || ((ci_DeliveryMode input != "copy_once") && (ci_DeliveryMode input != "email"))
      then Err MsErrInvalid
      else if (ci_DeliveryMode input == "email")
              && (negb emailEnabled || match sr_EmailDeliveryReady s ti_KeyIDs (30 * Second) with Ok true => false | _ => true end)
      then Err MsErrDependency
      else
        match en_generated e with
        | None => Err MsErrDependency
        | Some generatedID =>
            match ti_Issue (tp_TenantID p) (tp_MerchantID p) generatedID with
            | None => Err MsErrDependency
            | Some (token, digest, keyID) =>
                Ok (mkCreateInvitationInput email roles (ci_DeliveryMode input) (ci_TTLSeconds input) reason generatedID keyID,
                    token, digest)
            end
        end
  end.

Definition Team_CreateInvitation s p (input : CreateInvitationInput) idem e : S * result settings_error (Invitation * bool) :=
  checked s (invitation_check s p input e) (fun '(input, token, digest) =>
    match sr_CreateInvitation s p input digest idem e with
    | (s', Ok (i, true)) => (s', Ok (invitation_with_token i "", true))
    | (s', Ok (i, false)) => (s', Ok (invitation_with_token i token, false))
    | answer => answer
    end).

Definition Team_RevokeInvitation s p (id : string) (input : VersionedReason) idem e
    : S * result settings_error (Invitation * bool) :=
  checked s
    (team_authorize s p PermissionTeamInvite ≫= fun _ =>
     let reason := TrimSpace (vr_Reason input) in
     if negb (ValidID id) || (vr_Version input <? 1) || negb (settingsReason reason) then Err MsErrInvalid
     else Ok (mkVersionedReason (vr_Version input) reason))
    (fun input => sr_RevokeInvitation s p id input idem e).

Definition Team_AcceptInvitation s p (token : string) idem e : S * result settings_error (Member * bool) :=
  checked s
    (if negb (validPrincipal parse ToLower ParseAddress p) then Err MsErrUnauthenticated
     else match decodeInviteToken token with None => Err MsErrInvalid | Some raw => Ok (sha256 raw) end)
    (fun digest => sr_AcceptInvitation s p digest idem e).

Definition roles_check s p (id : string) (input : RoleChangeInput) : result settings_error RoleChangeInput :=
  team_authorize s p PermissionTeamManage ≫= fun _ =>
  let reason := TrimSpace (rc_Reason input) in
  match normalizeRoles (rc_RoleKeys input) allRoles with
  | None => Err MsErrInvalid
  | Some roles =>
      if negb (ValidID id) || (rc_Version input <? 1) || negb (settingsReason reason) then Err MsErrInvalid
      else
        current ← sr_GetMember s p id;
        if mb_AdminUserID current == tp_UserID p then Err MsErrForbidden
        else if highRiskChange (mb_RoleKeys current) roles then Err MsErrApprovalRequired
        else Ok (mkRoleChangeInput (rc_Version input) roles reason)
  end.

Definition ReplaceRoles s p (id : string) (input : RoleChangeInput) idem e : S * result settings_error (Member * bool) :=
  checked s (roles_check s p id input) (fun input => sr_ReplaceOrdinaryRoles s p id input idem e).

Definition member_check s p (id operation : string) (input : VersionedReason) : result settings_error VersionedReason :=
  team_authorize s p PermissionTeamManage ≫= fun _ =>
  let reason := TrimSpace (vr_Reason input) in
  if negb (ValidID id) || (vr_Version input <? 1) || negb (settingsReason reason)
     || ((operation != "disable") && (operation != "remove"))
  then Err MsErrInvalid
  else
    current ← sr_GetMember s p id;
    if mb_AdminUserID current == tp_UserID p then Err MsErrForbidden
    else if hasHighRiskRole (mb_RoleKeys current) then Err MsErrApprovalRequired
    else Ok (mkVersionedReason (vr_Version input) reason).

Definition MutateMember s p (id operation : string) (input : VersionedReason) idem e
    : S * result settings_error (Member * bool) :=
  checked s (member_check s p id operation input) (fun input => sr_MutateOrdinaryMember s p id operation input idem e).

Definition action_check s p (input : CreateSecurityActionInput) e : result settings_error CreateSecurityActionInput :=
  team_authorize s p PermissionSecurityRequest ≫= fun _ =>
  if negb (recentMFA p (en_mfa e)) then Err MsErrForbidden
  else
    let reason := TrimSpace (si_Reason input) in
    if negb (ValidID (si_TargetMemberID input)) || (si_TargetVersion input <? 1) || negb (settingsReason reason)
    then Err MsErrInvalid
    else
      target ← sr_GetMember s p (si_TargetMemberID input);
      let prepared roles :=
        mkCreateSecurityActionInput (si_Operation input) (si_TargetMemberID input) (si_TargetVersion input) roles reason in
      if mb_AdminUserID target == tp_UserID p then Err MsErrForbidden
      else if si_Operation input == "member.roles.replace" then
        match normalizeRoles (si_DesiredRoleKeys input) allRoles with
        | None => Err MsErrInvalid
        | Some roles => if negb (highRiskChange (mb_RoleKeys target) roles) then Err MsErrInvalid else Ok (prepared roles)
        end
      else if (si_Operation input == "member.disable") || (si_Operation input == "member.remove") then
        if negb (Z.of_nat (length (si_DesiredRoleKeys input)) =? 0) || negb (hasHighRiskRole (mb_RoleKeys target))
        then Err MsErrInvalid else Ok (prepared (si_DesiredRoleKeys input))
      else Err MsErrInvalid.

Definition Team_CreateSecurityAction s p (input : CreateSecurityActionInput) idem e
    : S * result settings_error (SecurityAction * bool) :=
  checked s (action_check s p input e) (fun input => sr_CreateSecurityAction s p input idem e).

Definition decision_check s p (id : string) (input : VersionedReason) e : result settings_error VersionedReason :=
  team_authorize s p PermissionSecurityApprove ≫= fun _ =>
  let reason := TrimSpace (vr_Reason input) in
  if negb (recentMFA p (en_mfa e)) || negb (ValidID id) || (vr_Version input <? 1) || negb (settingsReason reason)
  then Err MsErrForbidden
  else Ok (mkVersionedReason (vr_Version input) reason).

Definition Team_DecideSecurityAction s p (id : string) (approve : bool) (input : VersionedReason) idem e
    : S * result settings_error (SecurityAction * bool) :=
  checked s (decision_check s p id input e) (fun input => sr_DecideSecurityAction s p id approve input idem e).

Definition Team_GetSettings s p : result settings_error ProjectSettings :=
  team_authorize s p PermissionSettingsRead ≫= fun _ => sr_GetSettings s p.

Definition Team_UpdateSettings s p (input : UpdateSettingsInput) idem e : S * result settings_error (ProjectSettings * bool) :=
  checked s
    (team_authorize s p PermissionSettingsWrite ≫= fun _ =>
     match normalizeSettings parse ToLower ParseAddress LoadLocation input with None => Err MsErrInvalid | Some input => Ok input end)
    (fun input => sr_UpdateSettings s p input idem e).
End service.
