(* ===== verification/MerchantFacts.v ===== *)
(** * MerchantFacts: what the team and settings operations guarantee

    Owners are never lost, a high-risk change takes a second person, invitations
    are used once, answers are replayed, tokens are bound to their invitation. *)

From Stdlib Require Import ZArith Lia Ascii String Permutation Sorted.
From stdpp Require Import base gmap list strings.
From S2P Require Import Prelude Text Encoding Rates MerchantSettings.

(** ** Operations under a key *)

Section idempotency.
Context {A : Type} (decode : ReplayBody -> option A) (encode : A -> ReplayBody).

(** A call changes nothing, or runs the operation and remembers its answer. *)
Lemma idempotent_effect s p op idem (run : result settings_error (SettingsMemory * A)) :
  (idempotent s p op idem decode encode run).1 = s \/
  exists s' x, run = Ok (s', x) /\ idempotent s p op idem decode encode run = (remember s' p op idem (encode x), Ok (x, false)).
Proof.
  unfold idempotent. destruct (replay_settings s p op idem) as [[body|]|err]; [|destruct run as [[s' x]|err]|]; cbn; auto.
  - left. by destruct (decode body).
  - right. eauto.
Qed.

Lemma idempotent_ok s p op idem (run : result settings_error (SettingsMemory * A)) s' x :
  idempotent s p op idem decode encode run = (s', Ok (x, false)) ->
  exists s1, run = Ok (s1, x) /\ s' = remember s1 p op idem (encode x).
Proof.
  unfold idempotent. intros H. destruct (replay_settings s p op idem) as [[body|]|err]; [|destruct run as [[s1 y]|err]|];
    try (destruct (decode body)); simplify_eq; eauto.
Qed.

Lemma idempotent_replays s p op idem (run : result settings_error (SettingsMemory * A)) s' x fp run' :
  idempotent s p op idem decode encode run = (s', Ok (x, false)) ->
  idempotent s' p op (mkSettingsIdempotency (sy_Key idem) fp) decode encode run' =
    (s', if fp == sy_Fingerprint idem
         then match decode (encode x) with Some y => Ok (y, true) | None => Err MsErrDependency end
         else Err MsErrIdempotencyConflict).
Proof.
  intros (s1 & _ & ->)%idempotent_ok. unfold idempotent, replay_settings, remember. cbn [ms_idem with_replays sy_Key].
  rewrite lookup_insert_eq. cbn [sp_Hash sp_Body sy_Fingerprint]. rewrite String.eqb_sym. destruct (fp == _); [|done].
  cbn. by destruct (decode (encode x)).
Qed.
End idempotency.

(** ** Owners *)

Definition is_security_admin (m : Member) : bool := (mb_Status m == "active") && existsb_str "security_admin" (mb_RoleKeys m).
(** The high-risk roles a member holds while active. *)
Definition standing (m : Member) : bool * bool := (is_owner m, is_security_admin m).

Definition has_owner (members : gmap string Member) : Prop := exists k m, members !! k = Some m /\ is_owner m = true.

Lemma filter_perm_length {A} (p : A -> bool) l l' :
  Permutation l l' -> length (List.filter p l) = length (List.filter p l').
Proof. induction 1; cbn; repeat case_match; cbn; lia. Qed.

Lemma no_owner_filter (members : gmap string Member) :
  (forall k m, members !! k = Some m -> is_owner m = false) -> ownerCount members = 0.
Proof.
  intros Hn. unfold ownerCount. destruct (List.filter is_owner _) as [|m l] eqn:E; [done|].
  assert (In m (List.filter is_owner (snd <$> map_to_list members))) as [Hin Ho]%filter_In by (rewrite E; by left).
  apply list_elem_of_In, list_elem_of_fmap in Hin as ([k m'] & -> & Hk%elem_of_map_to_list). cbn [snd] in Ho. by rewrite (Hn k m' Hk) in Ho.
Qed.

Lemma ownerCount_insert (members : gmap string Member) k m :
  members !! k = None -> ownerCount (<[k := m]> members) = ownerCount members + (if is_owner m then 1 else 0).
Proof.
  intros Hk. unfold ownerCount. rewrite (filter_perm_length is_owner _ (m :: (snd <$> map_to_list members))).
  - cbn. destruct (is_owner m); cbn; lia.
  - by rewrite (map_to_list_insert members k m Hk).
Qed.

(** With two owners, there is one beside any given member. *)
Lemma another_owner (members : gmap string Member) k :
  2 <= ownerCount members -> exists k' m, k' <> k /\ members !! k' = Some m /\ is_owner m = true.
Proof.
  intros H. destruct (decide (map_Exists (fun k' m => k' <> k /\ is_owner m = true) members)) as [(k' & m & Hk & Hne & Ho)|Hn];
    [by exists k', m|].
  exfalso. assert (Hd : ownerCount (delete k members) = 0).
  { apply no_owner_filter. intros k' m [Hne Hk]%lookup_delete_Some. destruct (is_owner m) eqn:E; [|done].
    destruct Hn. by exists k', m. }
  destruct (members !! k) as [x|] eqn:Ex.
  - rewrite <- (insert_delete_id members k x Ex), ownerCount_insert, Hd in H by apply lookup_delete_eq.
    destruct (is_owner x); lia.
  - rewrite delete_id in Hd by done. lia.
Qed.

Lemma ownerCount_pos (members : gmap string Member) k m :
  members !! k = Some m -> is_owner m = true -> 1 <= ownerCount members.
Proof.
  intros Hk Ho. rewrite <- (insert_delete_id members k m Hk), ownerCount_insert, Ho by apply lookup_delete_eq.
  unfold ownerCount. lia.
Qed.

(** ** The checks of the service *)

Ltac guard_ok H :=
  unfold mbind, result_bind in H;
  repeat match type of H with
  | (match ?x with _ => _ end) = Ok _ => destruct x eqn:?; try discriminate H
  end.

Section checks.
Context (emailEnabled : bool) {issuer : TokenIssuer}.
Context (parse : string -> option OriginURL) (ToLower : string -> string) (ParseAddress : string -> option string)
  (LoadLocation : string -> bool) (sha256 : string -> string).
#[local] Instance memory_team : SettingsRepository SettingsMemory := settings_memory_repository ToLower ParseAddress.
Implicit Types (s : SettingsMemory) (p : TeamPrincipal).

Lemma team_authorize_ok s p permission :
  team_authorize parse ToLower ParseAddress s p permission = Ok tt ->
  validPrincipal parse ToLower ParseAddress p = true /\ Memory_Authorize s p permission = true.
Proof.
  unfold team_authorize. cbn. intros H. destruct (validPrincipal _ _ _ p); [|done]. by destruct (Memory_Authorize s p permission).
Qed.

(** The sequel of a successful authorization. *)
Lemma authorized_then {A} s p permission (k : unit -> result settings_error A) x :
  (team_authorize parse ToLower ParseAddress s p permission ≫= k) = Ok x ->
  Memory_Authorize s p permission = true /\ validPrincipal parse ToLower ParseAddress p = true /\ k tt = Ok x.
Proof.
  unfold mbind, result_bind. destruct (team_authorize _ _ _ _ _ _) as [[]|] eqn:E; [|done]. by apply team_authorize_ok in E as [].
Qed.

Lemma roles_check_ok s p id input input' :
  roles_check parse ToLower ParseAddress s p id input = Ok input' ->
  exists m, ms_members s !! id = Some m /\ mb_AdminUserID m <> tp_UserID p /\
            highRiskChange (mb_RoleKeys m) (rc_RoleKeys input') = false.
Proof.
  unfold roles_check. intros (_ & _ & H)%authorized_then. destruct (normalizeRoles _ _) as [roles|]; [|done].
  destruct (_ || _); [done|]. change (sr_GetMember s p) with (GetMember s) in H. unfold GetMember, mbind, result_bind in H. destruct (ms_members s !! id) as [m|] eqn:E; [|done].
  destruct (mb_AdminUserID m == tp_UserID p) eqn:Eu; [done|]. destruct (highRiskChange _ roles) eqn:Eh; [done|].
  simplify_eq. bool_hyp. eauto.
Qed.

Lemma member_check_ok s p id operation input input' :
  member_check parse ToLower ParseAddress s p id operation input = Ok input' ->
  exists m, ms_members s !! id = Some m /\ mb_AdminUserID m <> tp_UserID p /\ hasHighRiskRole (mb_RoleKeys m) = false.
Proof.
  unfold member_check. intros (_ & _ & H)%authorized_then. destruct (_ || _); [done|]. change (sr_GetMember s p) with (GetMember s) in H. unfold GetMember, mbind, result_bind in H.
  destruct (ms_members s !! id) as [m|] eqn:E; [|done].
  destruct (mb_AdminUserID m == tp_UserID p) eqn:Eu; [done|]. destruct (hasHighRiskRole _) eqn:Eh; [done|]. bool_hyp. eauto.
Qed.

Lemma action_check_ok s p input e input' :
  action_check parse ToLower ParseAddress s p input e = Ok input' ->
  exists t, ms_members s !! si_TargetMemberID input' = Some t /\ mb_AdminUserID t <> tp_UserID p.
Proof.
  unfold action_check. intros (_ & _ & H)%authorized_then. destruct (negb (recentMFA _ _)); [done|]. destruct (_ || _); [done|].
  change (sr_GetMember s p) with (GetMember s) in H. unfold GetMember, mbind, result_bind in H. destruct (ms_members s !! _) as [t|] eqn:E; [|done].
  destruct (mb_AdminUserID t == tp_UserID p) eqn:Eu; [done|]. bool_hyp. exists t. repeat case_match; by simplify_eq.
Qed.

Lemma decision_check_ok s p id input e input' :
  decision_check parse ToLower ParseAddress s p id input e = Ok input' ->
  Memory_Authorize s p PermissionSecurityApprove = true /\ recentMFA p (en_mfa e) = true.
Proof.
  unfold decision_check. intros (Ha & _ & H)%authorized_then. destruct (recentMFA p (en_mfa e)); [done|]. done.
Qed.

Lemma roles_ok_allowed allowed prior roles r : roles_ok allowed prior roles = true -> In r roles -> In r allowed.
Proof.
  revert prior. induction roles as [|q roles IH]; intros prior H; [done|]. cbn in H. bool_hyp.
  intros [<-|Hin]; [by apply existsb_str_In|by eapply IH].
Qed.

Lemma normalizeRoles_allowed values allowed roles r : normalizeRoles values allowed = Some roles -> In r roles -> In r allowed.
Proof. unfold normalizeRoles. intros H. repeat case_match; simplify_eq. by eapply roles_ok_allowed. Qed.

Lemma invitation_check_ok s p input e input' token digest :
  invitation_check emailEnabled parse ToLower ParseAddress s p input e = Ok (input', token, digest) ->
  (forall r, In r (ci_RoleKeys input') -> In r ordinaryRoles) /\ en_generated e = Some (ci_GeneratedID input') /\
  ti_Issue (tp_TenantID p) (tp_MerchantID p) (ci_GeneratedID input') = Some (token, digest, ci_TokenKeyID input').
Proof.
  unfold invitation_check. intros (_ & _ & H)%authorized_then. destruct (normalizeRoles _ _) as [roles|] eqn:Er; [|done].
  destruct (_ || _); [done|]. destruct (_ && _); [done|]. destruct (en_generated e) as [g|]; [|done].
  destruct (ti_Issue _ _ g) as [[[tk dg] kid]|] eqn:Et; [|done]. simplify_eq. split; [|done]. intros r Hr. exact (normalizeRoles_allowed _ _ _ _ Er Hr).
Qed.

(** ** Runs *)

(** The ids that [ids.New] answers during a call are not in use. *)
Definition fresh_ids s (e : team_env) : Prop :=
  (exists id, en_id e = Some id /\ ms_members s !! id = None) /\
  (forall id, en_generated e = Some id -> ms_invites s !! id = None).

(** One call of the service, or a step of the delivery worker. *)
Inductive team_step s : SettingsMemory -> Prop :=
| ts_invite p input idem e : fresh_ids s e ->
    team_step s (Team_CreateInvitation emailEnabled parse ToLower ParseAddress s p input idem e).1
| ts_revoke p id input idem e : team_step s (Team_RevokeInvitation parse ToLower ParseAddress s p id input idem e).1
| ts_accept p token idem e : fresh_ids s e ->
    team_step s (Team_AcceptInvitation parse ToLower ParseAddress sha256 s p token idem e).1
| ts_roles p id input idem e : team_step s (ReplaceRoles parse ToLower ParseAddress s p id input idem e).1
| ts_member p id operation input idem e : team_step s (MutateMember parse ToLower ParseAddress s p id operation input idem e).1
| ts_request p input idem e : team_step s (Team_CreateSecurityAction parse ToLower ParseAddress s p input idem e).1
| ts_decide p id approve input idem e :
    team_step s (Team_DecideSecurityAction parse ToLower ParseAddress s p id approve input idem e).1
| ts_settings p input idem e :
    team_step s (Team_UpdateSettings parse ToLower ParseAddress LoadLocation s p input idem e).1
| ts_activate id version : team_step s (ActivateInvitation s id version).1
| ts_fail id version : team_step s (FailInvitationDelivery s id version).1.

Record team_ok s : Prop := {
  tk_id : map_Forall (fun k m => mb_ID m = k) (ms_members s);
  tk_owner : has_owner (ms_members s);
  tk_one : forall k1 k2 m1 m2, ms_members s !! k1 = Some m1 -> ms_members s !! k2 = Some m2 ->
    mb_AdminUserID m1 = mb_AdminUserID m2 -> k1 = k2;
  tk_invites : map_Forall (fun _ v => forall r, In r (iv_RoleKeys (mv_Invitation v)) -> In r ordinaryRoles) (ms_invites s);
  tk_actions : map_Forall (fun _ a => exists t, ms_members s !! sc_TargetMemberID a = Some t /\
    mb_AdminUserID t <> sc_RequestedBy a) (ms_actions s) }.

(** An approval of the pending action [aid] by a principal other than its requester,
    neither being the member whose standing it changes on request. *)
Definition second_person s s' (k : string) (m : Member) : Prop :=
  exists aid a a' p, ms_actions s !! aid = Some a /\ sc_Status a = "pending_approval" /\ sc_TargetMemberID a = k /\
    sc_TargetVersion a = mb_Version m /\ ms_actions s' !! aid = Some a' /\ sc_Status a' = "completed" /\
    sc_ApprovedBy a' = tp_UserID p /\ sc_RequestedBy a <> tp_UserID p /\ sc_RequestedBy a <> mb_AdminUserID m /\
    Memory_Authorize s p PermissionSecurityApprove = true /\ exists now, recentMFA p now = true.

(** What a step does to the members: none is lost, the standing of one changes only
    with a second person, and a new one has no high-risk role. *)
Definition members_follow s s' : Prop :=
  (forall k m, ms_members s !! k = Some m -> exists m', ms_members s' !! k = Some m' /\
     mb_ID m' = mb_ID m /\ mb_AdminUserID m' = mb_AdminUserID m /\ (standing m' = standing m \/ second_person s s' k m)) /\
  (forall k m', ms_members s !! k = None -> ms_members s' !! k = Some m' -> standing m' = (false, false)).

Lemma members_same s s' : ms_members s' = ms_members s -> members_follow s s'.
Proof. intros E. unfold members_follow. rewrite E. split; [eauto 10|congruence]. Qed.

Lemma members_update s s' k m m' :
  ms_members s !! k = Some m -> ms_members s' = <[k := m']> (ms_members s) -> mb_ID m' = mb_ID m ->
  mb_AdminUserID m' = mb_AdminUserID m -> (standing m' = standing m \/ second_person s s' k m) -> members_follow s s'.
Proof.
  intros Hk E Hid Hu Hs. split; intros k' x; rewrite E.
  - intros Hx. destruct (decide (k' = k)) as [->|Hne].
    + rewrite lookup_insert_eq. assert (x = m) as -> by congruence. eauto.
    + rewrite lookup_insert_ne by done. eauto 10.
  - intros Hn [[-> <-]|[Hne Hx]]%lookup_insert_Some; congruence.
Qed.

(** ** The invariant after a change of the members *)

Lemma actions_kept s (members' : gmap string Member) :
  map_Forall (fun _ a => exists t, ms_members s !! sc_TargetMemberID a = Some t /\ mb_AdminUserID t <> sc_RequestedBy a) (ms_actions s) ->
  (forall k m, ms_members s !! k = Some m -> exists m', members' !! k = Some m' /\ mb_AdminUserID m' = mb_AdminUserID m) ->
  map_Forall (fun _ a => exists t, members' !! sc_TargetMemberID a = Some t /\ mb_AdminUserID t <> sc_RequestedBy a) (ms_actions s).
Proof.
  intros Ha Hm k a Hk. destruct (Ha k a Hk) as (t & Ht & Hu). destruct (Hm _ _ Ht) as (t' & Ht' & Hu'). exists t'. by rewrite Hu'.
Qed.

Lemma put_member s k m m' :
  team_ok s -> ms_members s !! k = Some m -> mb_ID m' = mb_ID m -> mb_AdminUserID m' = mb_AdminUserID m ->
  has_owner (<[k := m']> (ms_members s)) -> team_ok (with_members s (<[k := m']> (ms_members s))).
Proof.
  intros [] Hk Hid Hu Ho. split; cbn; try done.
  - apply map_Forall_insert_2; [|done]. rewrite Hid. by apply tk_id0.
  - intros k1 k2 m1 m2 [[<- <-]|[Hk1 L1]]%lookup_insert_Some [[<- <-]|[Hk2 L2]]%lookup_insert_Some E; eauto.
    + apply (tk_one0 k k2 m m2); congruence.
    + apply (tk_one0 k1 k m1 m); congruence.
  - apply actions_kept; [done|]. intros k' x Hx. destruct (decide (k' = k)) as [->|Hne].
    + rewrite lookup_insert_eq. exists m'. split; [done|]. congruence.
    + rewrite lookup_insert_ne by done. eauto.
Qed.

Lemma has_owner_update (members : gmap string Member) k m m' :
  has_owner members -> members !! k = Some m -> (is_owner m = true -> is_owner m' = true \/ 2 <= ownerCount members) ->
  has_owner (<[k := m']> members).
Proof.
  intros (k0 & m0 & H0 & Ho) Hk Hm. destruct (decide (k0 = k)) as [->|Hne].
  - assert (m0 = m) as -> by congruence. destruct (Hm Ho) as [H'|H2].
    + exists k, m'. by rewrite lookup_insert_eq.
    + destruct (another_owner _ k H2) as (k' & x & Hne & Hx & Hox). exists k', x. by rewrite lookup_insert_ne.
  - exists k0, m0. by rewrite lookup_insert_ne.
Qed.

Lemma replayed_ok s p op idem body : team_ok s -> team_ok (remember s p op idem body).
Proof. by intros []. Qed.

Lemma moved_standing m status roles now :
  status = mb_Status m -> highRiskChange (mb_RoleKeys m) roles = false -> standing (member_moved m status roles now) = standing m.
Proof.
  intros -> H. unfold highRiskChange in H. cbn in H. rewrite orb_false_r in H. apply orb_false_iff in H as [H1 H2].
  apply negb_false_iff, eqb_prop in H1, H2. unfold standing, is_owner, is_security_admin. cbn [mb_Status mb_RoleKeys member_moved].
  by rewrite H1, H2.
Qed.

Lemma no_high_risk roles : hasHighRiskRole roles = false <-> existsb_str "owner" roles = false /\ existsb_str "security_admin" roles = false.
Proof.
  unfold hasHighRiskRole, existsb_str. induction roles as [|r roles IH]; [done|]. cbn. rewrite !orb_false_iff, IH.
  tauto.
Qed.

Lemma low_standing m : hasHighRiskRole (mb_RoleKeys m) = false -> standing m = (false, false).
Proof. intros [H1 H2]%no_high_risk. unfold standing, is_owner, is_security_admin. by rewrite H1, H2, !andb_false_r. Qed.

(** ** Each step *)

Definition good s s' : Prop := team_ok s' /\ members_follow s s'.

Lemma good_refl s : team_ok s -> good s s.
Proof. intros H. split; [done|]. by apply members_same. Qed.

Lemma idempotent_good {A} s p op idem (decode : ReplayBody -> option A) encode run :
  team_ok s -> (forall s1 x, run = Ok (s1, x) -> good s s1) -> good s (idempotent s p op idem decode encode run).1.
Proof.
  intros Hs Hr. destruct (idempotent_effect decode encode s p op idem run) as [->|(s1 & x & E & ->)]; [by apply good_refl|].
  destruct (Hr _ _ E) as [Hok Hf]. split; [by apply replayed_ok|exact Hf].
Qed.

Lemma checked_good {I A} s (check : result settings_error I) (call : I -> SettingsMemory * result settings_error A) :
  team_ok s -> (forall i, check = Ok i -> good s (call i).1) -> good s (checked s check call).1.
Proof. intros Hs Hc. unfold checked. destruct check; [auto|by apply good_refl]. Qed.

(** Steps that leave the members alone. *)
Lemma invites_good s k v :
  team_ok s -> (forall r, In r (iv_RoleKeys (mv_Invitation v)) -> In r ordinaryRoles) ->
  good s (with_invites s (<[k := v]> (ms_invites s))).
Proof. intros [] Hv. split; [|by apply members_same]. split; cbn; try done. by apply map_Forall_insert_2. Qed.

Lemma invite_moved_good s k v status :
  team_ok s -> ms_invites s !! k = Some v -> good s (with_invites s (<[k := invite_moved v status]> (ms_invites s))).
Proof. intros Hs Hk. apply invites_good; [done|]. apply (tk_invites _ Hs _ _ Hk). Qed.

Lemma actions_good s k a t :
  team_ok s -> ms_members s !! sc_TargetMemberID a = Some t -> mb_AdminUserID t <> sc_RequestedBy a ->
  good s (with_actions s (<[k := a]> (ms_actions s))).
Proof. intros [] Ht Hu. split; [|by apply members_same]. split; cbn; try done. apply map_Forall_insert_2; eauto. Qed.

(** A member moved with the same standing. *)
Lemma same_standing_good s k m m' :
  team_ok s -> ms_members s !! k = Some m -> mb_ID m' = mb_ID m -> mb_AdminUserID m' = mb_AdminUserID m ->
  standing m' = standing m -> good s (with_members s (<[k := m']> (ms_members s))).
Proof.
  intros Hs Hk Hid Hu He. split.
  - apply (put_member _ _ m); try done. apply (has_owner_update _ _ m); [apply Hs|done|]. intros Ho. left.
    unfold standing in He. congruence.
  - by apply (members_update _ _ k m m'); [..|left].
Qed.

Lemma revoked_good s s' user : good s s' -> good s (revoke_sessions s' user).
Proof. intros [[] Hf]. by split. Qed.

(** A new member with ordinary roles. *)
Lemma new_member_good s k m :
  team_ok s -> ms_members s !! k = None -> mb_ID m = k -> standing m = (false, false) ->
  (forall k' m', ms_members s !! k' = Some m' -> mb_AdminUserID m' <> mb_AdminUserID m) ->
  good s (with_members s (<[k := m]> (ms_members s))).
Proof.
  intros [] Hk Hid Hst Hu. split; [split; cbn; try done|split; cbn].
  - by apply map_Forall_insert_2.
  - destruct tk_owner0 as (k0 & m0 & H0 & Ho). exists k0, m0. by rewrite lookup_insert_ne by congruence.
  - intros k1 k2 m1 m2 [[<- <-]|[Hk1 L1]]%lookup_insert_Some [[<- <-]|[Hk2 L2]]%lookup_insert_Some E; eauto.
    + by destruct (Hu _ _ L2).
    + by destruct (Hu _ _ L1).
  - apply actions_kept; [done|]. intros k' x Hx. rewrite lookup_insert_ne by congruence. eauto.
  - intros k' x Hx. rewrite lookup_insert_ne by congruence. eauto 10.
  - intros k' x Hn [[-> <-]|[Hne Hx]]%lookup_insert_Some; [done|congruence].
Qed.

Lemma good_invites s s1 k v :
  good s s1 -> (forall r, In r (iv_RoleKeys (mv_Invitation v)) -> In r ordinaryRoles) ->
  good s (with_invites s1 (<[k := v]> (ms_invites s1))).
Proof. intros [H1 H2] Hv. destruct (invites_good s1 k v H1 Hv) as [Hok _]. by split. Qed.

Lemma find_invite_In s hash order k v : find_invite s hash order = Some (k, v) -> ms_invites s !! k = Some v /\ mv_Hash v = hash.
Proof.
  induction order as [|id order IH]; [done|]. cbn. destruct (ms_invites s !! id) as [w|] eqn:E; [|done].
  destruct (mv_Hash w == hash) eqn:Eh; [|done]. intros ?. simplify_eq. by bool_hyp.
Qed.

Lemma ordinary_standing roles :
  (forall r, In r roles -> In r ordinaryRoles) -> hasHighRiskRole roles = false.
Proof.
  intros H. apply no_high_risk. split; (destruct (existsb_str _ roles) eqn:E; [|done]);
    apply existsb_str_In, H in E; cbn in E; intuition discriminate.
Qed.

Lemma accept_good s user email hash order e expiry now s1 x :
  team_ok s -> fresh_ids s e -> accept_invitation s user email hash order (en_id e) expiry now = Ok (s1, x) -> good s s1.
Proof.
  intros Hs ((id & Hid & Hn) & _) H. unfold accept_invitation in H. rewrite Hid in H.
  destruct (find_invite s hash order) as [[k v]|] eqn:Ef; [|done]. apply find_invite_In in Ef as [Hv _].
  destruct (k == ""); [done|]. destruct (_ || _); [done|]. destruct (existsb _ _) eqn:Ex; [done|]. simplify_eq. cbn [default from_option Datatypes.id].
  pose proof (tk_invites _ Hs _ _ Hv) as Hr.
  refine (good_invites s (with_members s _) k (invite_moved v "accepted") _ Hr).
  apply new_member_good; try done; cbn [mb_AdminUserID].
  - apply low_standing. by apply ordinary_standing.
  - intros k' m' Hk' E. enough (existsb (fun m => mb_AdminUserID m == user) (snd <$> map_to_list (ms_members s)) = true) by congruence.
    apply existsb_exists. exists m'. split; [|by apply String.eqb_eq]. apply list_elem_of_In, list_elem_of_fmap.
    exists (k', m'). split; [done|]. by apply elem_of_map_to_list.
Qed.

(** An approved change keeps an owner: it moves its target only, and refuses to take
    the last owner's role or access. *)
Lemma carry_out_ok s a target now s' :
  team_ok s -> ms_members s !! sc_TargetMemberID a = Some target -> carry_out s a target now = Ok s' ->
  exists target', ms_members s' = <[sc_TargetMemberID a := target']> (ms_members s) /\ ms_actions s' = ms_actions s /\
    ms_invites s' = ms_invites s /\ mb_ID target' = mb_ID target /\ mb_AdminUserID target' = mb_AdminUserID target /\
    has_owner (<[sc_TargetMemberID a := target']> (ms_members s)).
Proof.
  intros Hs Ht H. pose proof (tk_id _ Hs _ _ Ht) as Hid. cbn in Hid. unfold carry_out in H.
  assert (Hcount : is_owner target = true -> 1 <= ownerCount (ms_members s)) by (intros Ho; by eapply ownerCount_pos).
  assert (Howner : is_owner target = true -> existsb_str "owner" (mb_RoleKeys target) = true).
  { unfold is_owner. intros ?. by bool_hyp. }
  destruct (sc_Operation a == "member.roles.replace").
  - destruct (removesLastOwner _ _ _) eqn:El; [done|]. simplify_eq.
    exists (member_moved target (mb_Status target) (sc_DesiredRoleKeys a) now).
    split; [by cbn; rewrite Hid|]. do 4 (split; [done|]). apply (has_owner_update _ _ target); [apply Hs|done|]. intros Ho.
    unfold removesLastOwner in El. rewrite (Howner Ho) in El. cbn [andb] in El.
    unfold is_owner in Ho |- *. cbn [mb_Status mb_RoleKeys member_moved]. bool_hyp.
    destruct (existsb_str "owner" (sc_DesiredRoleKeys a)); [left|right].
    + by rewrite andb_true_r, String.eqb_eq.
    + cbn in El. bool_hyp. lia.
  - destruct (_ && _ && _) eqn:El; [done|]. simplify_eq. eexists.
    split; [by cbn; rewrite Hid|]. do 4 (split; [done|]). apply (has_owner_update _ _ target); [apply Hs|done|]. intros Ho. right.
    rewrite (Howner Ho), andb_true_r in El. specialize (Hcount Ho).
    assert (Hr : hasHighRiskRole (mb_RoleKeys target) = true).
    { destruct (hasHighRiskRole _) eqn:E; [done|]. apply no_high_risk in E as [E _]. rewrite (Howner Ho) in E. discriminate E. }
    rewrite Hr in El. cbn [andb] in El. bool_hyp. lia.
Qed.

Lemma decide_good s p id approve input now moved updated mfa s1 x :
  team_ok s -> Memory_Authorize s p PermissionSecurityApprove = true -> recentMFA p mfa = true ->
  decide_action s p id approve input now moved updated = Ok (s1, x) -> good s s1.
Proof.
  intros Hs Hauth Hmfa H. unfold decide_action in H. destruct (ms_actions s !! id) as [a|] eqn:Ea; [|done].
  destruct (_ || _) eqn:Eg; [done|]. bool_hyp. destruct (ms_members s !! sc_TargetMemberID a) as [target|] eqn:Et; [|done].
  destruct (_ || _) eqn:Ev; [done|]. bool_hyp. destruct (tk_actions _ Hs _ _ Ea) as (t & Ht & Hu).
  assert (t = target) as -> by congruence. unfold mbind, result_bind in H. destruct approve.
  - destruct (carry_out s a target moved) as [s'|] eqn:Ec; [|done]. simplify_eq.
    destruct (carry_out_ok _ _ _ _ _ Hs Et Ec) as (target' & Em & Eact & Einv & Hid & Hadm & Ho).
    destruct (put_member s _ target target' Hs Et Hid Hadm Ho) as [I1 I2 I3 I4 I5]. cbn in *. split.
    + split; cbn; rewrite ?Em, ?Einv, ?Eact; try done. apply map_Forall_insert_2; [|done].
      exists target'. cbn. rewrite lookup_insert_eq. split; [done|]. congruence.
    + apply (members_update _ _ (sc_TargetMemberID a) target target'); try done. right.
      exists id, a. eexists. exists p. cbn. rewrite lookup_insert_eq. repeat (split; [done || congruence|]). by exists mfa.
  - simplify_eq. by apply (actions_good s id _ target).
Qed.

Lemma team_step_good s s' : team_ok s -> team_step s s' -> good s s'.
Proof.
  intros Hs Hst. destruct Hst; try (apply checked_good; [done|intros i Hi]).
  - destruct i as [[input' token] digest]. apply invitation_check_ok in Hi as (Hr & _).
    assert (Hg : good s (sr_CreateInvitation s p input' digest idem e).1).
    { change (good s (CreateInvitation s p input' digest idem (en_now e)).1). unfold CreateInvitation.
      pose proof (idempotent_good s p "invite.create" idem decode_invitation BodyInvitation
                    (create_invitation s input' digest (en_now e)) Hs) as Hg.
      destruct (idempotent _ _ _ _ _ _ _) as [s1 [[out [|]]|err]]; apply Hg; unfold create_invitation; intros s2 y Hy;
        (destruct (existsb _ _); [done|]); (destruct (_ || _); [done|]); simplify_eq; by apply invites_good. }
    by destruct (sr_CreateInvitation s p input' digest idem e) as [s1 [[out [|]]|err]].
  - apply idempotent_good; [done|]. unfold revoke_invitation. intros s1 x Hx. destruct (ms_invites s !! id) as [v|] eqn:E; [|done].
    destruct (negb _ || negb _); [done|]. simplify_eq. by apply invite_moved_good.
  - apply idempotent_good; [done|]. intros s1 x Hx. by eapply accept_good.
  - apply roles_check_ok in Hi as (m & Hm & _ & Hh). apply idempotent_good; [done|]. unfold replace_roles. rewrite Hm.
    intros s1 x Hx. destruct (_ || _) eqn:Ev; [done|]. simplify_eq. apply (same_standing_good _ _ m); try done. by apply moved_standing.
  - apply member_check_ok in Hi as (m & Hm & _ & Hh). apply idempotent_good; [done|]. unfold mutate_member. rewrite Hm.
    intros s1 x Hx. destruct (_ || _) eqn:Ev; [done|]. simplify_eq. apply revoked_good, (same_standing_good _ _ m); try done.
    by rewrite !low_standing.
  - apply action_check_ok in Hi as (t & Ht & Hu). apply idempotent_good; [done|]. intros s1 x Hx. simplify_eq.
    by apply (actions_good s _ _ t).
  - apply decision_check_ok in Hi as [Ha Hm]. apply idempotent_good; [done|]. intros s1 x Hx. by eapply decide_good.
  - apply idempotent_good; [done|]. unfold update_settings. intros s1 x Hx.
    destruct (ms_settings s !! team_scope p); (case_match; [done|]); simplify_eq;
      (split; [by destruct Hs|by apply members_same]).
  - unfold ActivateInvitation. destruct (ms_invites s !! id) eqn:E; [|by apply good_refl].
    destruct (_ || _); [by apply good_refl|]. by apply invite_moved_good.
  - unfold FailInvitationDelivery. destruct (ms_invites s !! id) eqn:E; [|by apply good_refl].
    destruct (_ || _); [by apply good_refl|]. by apply invite_moved_good.
Qed.
End checks.
