(* ===== verification/MerchantRuns.v ===== *)
(** * MerchantRuns: theorems on runs of the team and settings operations

    The invariant of every reachable team, the life of an invitation, the path of a
    token from its issue to its acceptance, replays, and two ways in which an update
    is lost. *)

From Stdlib Require Import ZArith Lia Ascii String Permutation Sorted.
From stdpp Require Import base gmap list strings.
From S2P Require Import Prelude Text Encoding Rates MerchantSettings MerchantFacts.

(** ** Tokens *)

#[local] Instance keyring_issuer (hmac : string -> string -> string) (sha256 : string -> string) (k : HMACTokenKeyRing) : TokenIssuer := {|
  ti_Issue := IssueToken hmac sha256 k;
  ti_KeyIDs := KeyIDs k |}.

Lemma decode_issued raw : len raw = 32 -> decodeInviteToken (b64_encode raw) = Some raw.
Proof. intros H. unfold decodeInviteToken. by rewrite b64_roundtrip, H, String.eqb_refl. Qed.

Lemma str_app_len_inj s1 s2 t1 t2 : len s1 = len s2 -> s1 +:+ t1 = s2 +:+ t2 -> s1 = s2 /\ t1 = t2.
Proof.
  unfold len. revert s2. induction s1 as [|c s1 IH]; intros [|d s2] Hl; cbn in *; try lia; [done|].
  intros [= -> E]. destruct (IH s2) as [-> ->]; [lia|done|done].
Qed.

Lemma ValidID_len s : ValidID s = true -> len s = 36.
Proof. unfold ValidID. destruct (len s =? 36) eqn:E; [by intros _; bool_hyp|done]. Qed.

(** A token stands for one invitation of one merchant: two derivations under the
    same key that give the same token were made for the same tenant, merchant and
    invitation, provided the two authentication codes do not collide. *)
Theorem invite_token_bound hmac sha256 k t1 m1 i1 t2 m2 i2 keyID token d1 d2 :
  (forall id, In id [t1; m1; i1; t2; m2; i2] -> ValidID id = true) ->
  (forall key, let msg t m i := inviteTokenDomain +:+ t +:+ m +:+ i in
     hmac key (msg t1 m1 i1) = hmac key (msg t2 m2 i2) -> msg t1 m1 i1 = msg t2 m2 i2) ->
  DeriveToken hmac sha256 k t1 m1 i1 keyID = Some (token, d1) -> DeriveToken hmac sha256 k t2 m2 i2 keyID = Some (token, d2) ->
  t1 = t2 /\ m1 = m2 /\ i1 = i2.
Proof.
  intros Hv Hc H1 H2. unfold DeriveToken, derive in *. destruct (kr_keys k !! keyID) as [key|]; [|done].
  injection H1 as E1 _. injection H2 as E2 _. rewrite <- E2 in E1. apply (f_equal b64_decode) in E1. rewrite !b64_roundtrip in E1.
  injection E1 as E1. apply Hc in E1. cbn in Hv.
  assert (Hlen : forall a b, ValidID a = true -> ValidID b = true -> len a = len b) by (intros; by rewrite !ValidID_len).
  apply str_app_len_inj in E1 as [_ E1]; [|done]. apply str_app_len_inj in E1 as [-> E1]; [|by apply Hlen; auto 10].
  apply str_app_len_inj in E1 as [-> ->]; [done|by apply Hlen; auto 10].
Qed.

Section runs.
Context (emailEnabled : bool) (hmac : string -> string -> string) (sha256 : string -> string) (ring : HMACTokenKeyRing).
Context (parse : string -> option OriginURL) (ToLower : string -> string) (ParseAddress : string -> option string)
  (LoadLocation : string -> bool).
#[local] Instance memory_team : SettingsRepository SettingsMemory := settings_memory_repository ToLower ParseAddress.
Implicit Types (s : SettingsMemory) (p : TeamPrincipal).

Abbreviation step :=
  (@team_step emailEnabled (keyring_issuer hmac sha256 ring) parse ToLower ParseAddress LoadLocation sha256).
Abbreviation email_of p := (normalizeEmail ToLower ParseAddress (tp_Email p)).

(** ** The life of an invitation *)

Inductive invite_next (v : memoryInvite) : memoryInvite -> Prop :=
| in_activated : iv_Status (mv_Invitation v) = "pending_delivery" -> invite_next v (invite_moved v "active")
| in_revoked : invite_open (iv_Status (mv_Invitation v)) = true -> invite_next v (invite_moved v "revoked")
| in_accepted p now : validPrincipal parse ToLower ParseAddress p = true -> iv_Status (mv_Invitation v) = "active" ->
    now < iv_ExpiresAt (mv_Invitation v) -> iv_Email (mv_Invitation v) = email_of p -> invite_next v (invite_moved v "accepted").

Definition invites_follow s s' : Prop :=
  forall k v, ms_invites s !! k = Some v -> exists v', ms_invites s' !! k = Some v' /\ rtc invite_next v v'.

Lemma invites_same s s' : ms_invites s' = ms_invites s -> invites_follow s s'.
Proof. intros E k v Hk. rewrite E. eauto using rtc_refl. Qed.

Lemma invites_move s s' k v v' :
  ms_invites s !! k = Some v -> invite_next v v' -> ms_invites s' = <[k := v']> (ms_invites s) -> invites_follow s s'.
Proof.
  intros Hk Hn E k' w Hw. rewrite E. destruct (decide (k' = k)) as [->|Hne].
  - rewrite lookup_insert_eq. assert (w = v) as -> by congruence. eauto using rtc_once.
  - rewrite lookup_insert_ne by done. eauto using rtc_refl.
Qed.

Lemma invites_add s s' k v :
  ms_invites s !! k = None -> ms_invites s' = <[k := v]> (ms_invites s) -> invites_follow s s'.
Proof. intros Hk E k' w Hw. rewrite E, lookup_insert_ne by congruence. eauto using rtc_refl. Qed.

Lemma idempotent_invites {A} s p op idem (decode : ReplayBody -> option A) encode run :
  (forall s1 x, run = Ok (s1, x) -> invites_follow s s1) -> invites_follow s (idempotent s p op idem decode encode run).1.
Proof.
  intros Hr. destruct (idempotent_effect decode encode s p op idem run) as [->|(s1 & x & E & ->)]; [by apply invites_same|].
  exact (Hr _ _ E).
Qed.

Lemma checked_invites {I A} s (check : result settings_error I) (call : I -> SettingsMemory * result settings_error A) :
  (forall i, check = Ok i -> invites_follow s (call i).1) -> invites_follow s (checked s check call).1.
Proof. intros Hc. unfold checked. destruct check; [auto|by apply invites_same]. Qed.

Lemma carry_out_invites s a target now s' : carry_out s a target now = Ok s' -> ms_invites s' = ms_invites s.
Proof. unfold carry_out. intros H. repeat case_match; by simplify_eq. Qed.

Lemma step_invites s s' : step s s' -> invites_follow s s'.
Proof.
  intros Hst. destruct Hst as [p input idem e [_ Hf]|p id input idem e|p token idem e _| | | | | |id version|id version];
    try (apply checked_invites; intros i Hi).
  - destruct i as [[input' token] digest]. apply invitation_check_ok in Hi as (_ & Hg & _). specialize (Hf _ Hg).
    assert (Hc : invites_follow s (sr_CreateInvitation s p input' digest idem e).1).
    { change (invites_follow s (CreateInvitation s p input' digest idem (en_now e)).1). unfold CreateInvitation.
      pose proof (idempotent_invites s p "invite.create" idem decode_invitation BodyInvitation
                    (create_invitation s input' digest (en_now e))) as Hc.
      destruct (idempotent _ _ _ _ _ _ _) as [s1 [[out [|]]|err]]; apply Hc; unfold create_invitation; intros s2 y Hy;
        (destruct (existsb _ _); [done|]); (destruct (_ || _); [done|]); simplify_eq; by eapply invites_add. }
    by destruct (sr_CreateInvitation s p input' digest idem e) as [s1 [[out [|]]|err]].
  - apply idempotent_invites. unfold revoke_invitation. intros s1 x Hx. destruct (ms_invites s !! id) as [v|] eqn:E; [|done].
    destruct (negb _ || negb _) eqn:Eo; [done|]. simplify_eq. bool_hyp. eapply invites_move; [done| |done]. by apply in_revoked.
  - destruct (validPrincipal parse ToLower ParseAddress p) eqn:Ev; [|done]. cbn in Hi.
    apply idempotent_invites. unfold accept_invitation. intros s1 x Hx.
    destruct (find_invite s i (en_order e)) as [[k v]|] eqn:Ef; [|done]. apply find_invite_In in Ef as [Hv _].
    destruct (k == ""); [done|]. destruct (_ || _) eqn:Eg; [done|]. bool_hyp. destruct (existsb _ _); [done|]. simplify_eq.
    eapply invites_move; [exact Hv| |done]. unfold After in *. bool_hyp. by eapply in_accepted.
  - apply idempotent_invites. unfold replace_roles. intros s1 x Hx. repeat case_match; try done. simplify_eq. by apply invites_same.
  - apply idempotent_invites. unfold mutate_member. intros s1 x Hx. repeat case_match; try done; simplify_eq; by apply invites_same.
  - apply idempotent_invites. intros s1 x Hx. simplify_eq. by apply invites_same.
  - apply idempotent_invites. unfold decide_action. intros s1 x Hx. unfold mbind, result_bind in Hx.
    repeat case_match; try done; simplify_eq; apply invites_same; cbn; try done; by eapply carry_out_invites.
  - apply idempotent_invites. unfold update_settings. intros s1 x Hx.
    destruct (ms_settings s !! team_scope p); (case_match; [done|]); simplify_eq; by apply invites_same.
  - unfold ActivateInvitation. destruct (ms_invites s !! id) as [v|] eqn:E; [|by apply invites_same].
    destruct (_ || _) eqn:Eg; [by apply invites_same|]. bool_hyp. eapply invites_move; [done| |done]. by apply in_activated.
  - unfold FailInvitationDelivery. destruct (ms_invites s !! id) as [v|] eqn:E; [|by apply invites_same].
    destruct (_ || _) eqn:Eg; [by apply invites_same|]. bool_hyp. eapply invites_move; [done| |done]. apply in_revoked.
    by match goal with H : iv_Status _ = _ |- _ => rewrite H end.
Qed.

(** ** Theorems *)

(** C23: However a team is run from a sound one, an active owner remains, a user is a
    member once, invitations carry ordinary roles only, and a pending security
    action targets somebody other than its requester: no sequence of service calls,
    each carried out as a whole, takes the last owner's role or access. *)
Theorem team_always_owned s s' :
  team_ok s -> rtc (@team_step emailEnabled (keyring_issuer hmac sha256 ring) parse ToLower ParseAddress LoadLocation sha256) s s' ->
  team_ok s'.
Proof.
  intros Hs Hr. induction Hr as [|s s1 s2 Hst _ IH]; [done|]. apply IH. by eapply team_step_good.
Qed.

(** Who holds an owner's or a security administrator's role while active changes
    only by the approval of a pending security action about that member in that
    version, requested by somebody other than the member and other than the
    approver, who is authorized to approve and has a recent second factor; nobody
    joins with such a role, and nobody disappears. *)
Theorem high_risk_needs_second_person s s' :
  team_ok s -> team_step emailEnabled (issuer := keyring_issuer hmac sha256 ring) parse ToLower ParseAddress LoadLocation sha256 s s' ->
  (forall k m, ms_members s !! k = Some m -> exists m', ms_members s' !! k = Some m' /\ mb_AdminUserID m' = mb_AdminUserID m /\
     (standing m' = standing m \/ second_person s s' k m)) /\
  (forall k m', ms_members s !! k = None -> ms_members s' !! k = Some m' -> standing m' = (false, false)).
Proof.
  intros Hs Hst. destruct (team_step_good _ _ _ _ _ _ _ _ Hs Hst) as [_ [Hf Hn]]. split; [|done].
  intros k m Hk. destruct (Hf k m Hk) as (m' & H1 & _ & H2 & H3). by exists m'.
Qed.

Lemma closed_invite v v' :
  (iv_Status (mv_Invitation v) = "accepted" \/ iv_Status (mv_Invitation v) = "revoked") -> rtc invite_next v v' -> v' = v.
Proof.
  intros Hs Hr. destruct Hr as [|v v1 v2 Hn _]; [done|].
  destruct Hn as [E|E|p now _ E]; destruct Hs as [Hs|Hs]; rewrite Hs in E; discriminate E.
Qed.

(** An invitation keeps its address, roles and token and only moves forward: it
    is activated after delivery, revoked while open, or accepted while active,
    before it expires and by the holder of the invited address; once accepted or
    revoked it never changes again, so it brings in at most one member. *)
Theorem invitation_single_use s s' k v :
  rtc (@team_step emailEnabled (keyring_issuer hmac sha256 ring) parse ToLower ParseAddress LoadLocation sha256) s s' ->
  ms_invites s !! k = Some v ->
  exists v', ms_invites s' !! k = Some v' /\ rtc invite_next v v' /\
    ((iv_Status (mv_Invitation v) = "accepted" \/ iv_Status (mv_Invitation v) = "revoked") -> v' = v).
Proof.
  intros Hr. revert v. induction Hr as [s|s s1 s2 Hst _ IH]; intros v Hk; [by exists v|].
  destruct (step_invites _ _ Hst k v Hk) as (v1 & H1 & Hn1). destruct (IH v1 H1) as (v2 & H2 & Hn2 & _).
  assert (Hn : rtc invite_next v v2) by (by etrans). exists v2. split; [done|]. split; [done|]. intros Hc. by apply closed_invite.
Qed.

Lemma find_invite_unique s hash order k v :
  ms_invites s !! k = Some v -> mv_Hash v = hash -> In k order ->
  (forall k' v', ms_invites s !! k' = Some v' -> mv_Hash v' = hash -> k' = k) -> find_invite s hash order = Some (k, v).
Proof.
  intros Hk Hh. induction order as [|id order IH]; [done|]. intros Hin Hu. cbn.
  destruct (ms_invites s !! id) as [w|] eqn:E.
  - destruct (mv_Hash w == hash) eqn:Eh; bool_hyp.
    + assert (id = k) as -> by eauto. congruence.
    + apply IH; [|done]. destruct Hin as [->|?]; [congruence|done].
  - apply IH; [|done]. destruct Hin as [->|?]; [congruence|done].
Qed.

(** What the service creates, and the token it hands out. *)
Lemma created_invitation s p input idem e s1 i :
  Team_CreateInvitation emailEnabled (H := keyring_issuer hmac sha256 ring) parse ToLower ParseAddress s p input idem e = (s1, Ok (i, false)) ->
  exists key input', kr_keys ring !! kr_current ring = Some key /\
    let raw := hmac key (inviteTokenDomain +:+ tp_TenantID p +:+ tp_MerchantID p +:+ ci_GeneratedID input') in
    i = invitation_with_token (new_invitation input' (en_now e)) (b64_encode raw) /\ ci_DeliveryMode input' = ci_DeliveryMode input /\
    ms_members s1 = ms_members s /\ ValidID (ci_GeneratedID input') = true /\
    ms_invites s1 = <[ci_GeneratedID input' := mkMemoryInvite (new_invitation input' (en_now e)) (sha256 raw)]> (ms_invites s).
Proof.
  unfold Team_CreateInvitation, checked. intros H.
  destruct (invitation_check _ _ _ _ _ _ _ _) as [[[input' token] digest]|] eqn:Ec; [|done].
  assert (Hmode : ci_DeliveryMode input' = ci_DeliveryMode input).
  { unfold invitation_check in Ec. apply authorized_then in Ec as (_ & _ & Ec). repeat case_match; by simplify_eq. }
  apply invitation_check_ok in Ec as (_ & _ & Ht). cbn in Ht. unfold IssueToken, derive in Ht.
  destruct (kr_keys ring !! kr_current ring) as [key|] eqn:Ek; [|done]. cbn in Ht. simplify_eq.
  exists key, input'. split; [done|].
  change (sr_CreateInvitation s p input') with (fun digest idem e => CreateInvitation s p input' digest idem (en_now e)) in H.
  cbn beta in H. unfold CreateInvitation in H.
  destruct (idempotent _ _ _ _ _ _ _) as [s2 [[out [|]]|err]] eqn:Ei; simplify_eq.
  apply idempotent_ok in Ei as (s3 & Hc & ->). unfold create_invitation in Hc.
  destruct (existsb _ _); [done|]. destruct (_ || _) eqn:Ev; [done|]. bool_hyp. simplify_eq. done.
Qed.

(** The token handed out for an invitation is worth it: while the invitation is
    active and not expired, the holder of the invited address who presents that token
    joins with exactly the invited roles, and the invitation is accepted; nobody else
    is affected. The member's id and the digest are assumed not to be in use. *)
Theorem issued_token_accepted s p input idem e s1 i q idem' e' mid :
  Team_CreateInvitation emailEnabled (H := keyring_issuer hmac sha256 ring) parse ToLower ParseAddress s p input idem e =
    (s1, Ok (i, false)) ->
  ci_DeliveryMode input = "copy_once" -> (forall key m, len (hmac key m) = 32) ->
  (forall k v raw, ms_invites s !! k = Some v -> decodeInviteToken (iv_InviteToken i) = Some raw -> mv_Hash v <> sha256 raw) ->
  validPrincipal parse ToLower ParseAddress q = true -> normalizeEmail ToLower ParseAddress (tp_Email q) = iv_Email i ->
  (forall k m, ms_members s !! k = Some m -> mb_AdminUserID m <> tp_UserID q) ->
  ms_idem s1 !! settings_idemKey q "invite.accept" (sy_Key idem') = None ->
  In (iv_ID i) (en_order e') -> en_now e' < iv_ExpiresAt i -> en_id e' = Some mid ->
  exists s2 m, Team_AcceptInvitation parse ToLower ParseAddress sha256 s1 q (iv_InviteToken i) idem' e' = (s2, Ok (m, false)) /\
    ms_members s2 = <[mid := m]> (ms_members s) /\ mb_RoleKeys m = iv_RoleKeys i /\ mb_Email m = iv_Email i /\
    mb_AdminUserID m = tp_UserID q /\ mb_Status m = "active" /\
    (iv_Status ∘ mv_Invitation <$> ms_invites s2 !! iv_ID i) = Some "accepted".
Proof.
  intros (key & input' & Hkey & -> & Hmode & Hm1 & Hv1 & Hi1)%created_invitation Hcopy Hlen Hhash Hq Hemail Huser Hidem Hin Hexp Hmid.
  set (raw := hmac key _) in *. set (new := new_invitation input' (en_now e)) in *.
  assert (Hdec : decodeInviteToken (b64_encode raw) = Some raw) by (by apply decode_issued, Hlen).
  cbn [iv_InviteToken invitation_with_token iv_ID iv_RoleKeys iv_Email iv_ExpiresAt] in *.
  unfold Team_AcceptInvitation, checked. rewrite Hq, Hdec. cbn [negb].
  change (sr_AcceptInvitation s1 q (sha256 raw) idem' e') with (AcceptInvitation ToLower ParseAddress s1 q (sha256 raw) idem' e').
  unfold AcceptInvitation, idempotent, replay_settings. rewrite Hidem.
  unfold accept_invitation. rewrite Hmid, Hemail.
  rewrite (find_invite_unique s1 (sha256 raw) (en_order e') (ci_GeneratedID input') (mkMemoryInvite new (sha256 raw)));
    [|by rewrite Hi1, lookup_insert_eq|done|done|].
  2:{ rewrite Hi1. intros k' v' [[<- _]|[_ Hk]]%lookup_insert_Some Hh; [done|]. by destruct (Hhash _ _ _ Hk Hdec). }
  assert (Hne : (ci_GeneratedID input' == "") = false).
  { apply String.eqb_neq. intros E. rewrite E in Hv1. discriminate Hv1. }
  assert (Hst : iv_Status new = "active") by (unfold new; cbn; by rewrite Hmode, Hcopy).
  rewrite Hne. cbn [mv_Invitation]. rewrite Hst. cbn [negb orb String.eqb].
  change (("active" != "active")) with false. cbn [orb].
  assert (Hafter : After (iv_ExpiresAt new) (en_now e') = true) by (by apply Z.ltb_lt). rewrite Hafter, String.eqb_refl. cbn [negb orb].
  assert (Hnone : existsb (fun m => mb_AdminUserID m == tp_UserID q) (snd <$> map_to_list (ms_members s1)) = false).
  { destruct (existsb _ _) eqn:E; [|done]. apply existsb_exists in E as (m & Hm & E%String.eqb_eq).
    apply list_elem_of_In, list_elem_of_fmap in Hm as ([k x] & -> & Hk%elem_of_map_to_list). rewrite Hm1 in Hk. by destruct (Huser _ _ Hk). }
  rewrite Hnone. eexists _, _. split; [reflexivity|]. cbn. rewrite Hm1. repeat (split; [done|]). by rewrite lookup_insert_eq.
Qed.
End runs.

(** The operations are idempotent under their key: once one was carried out, the
    same principal repeating it gets the recorded answer, marked as a replay, and
    nothing changes; under another fingerprint it is refused and nothing changes. A
    recorded member is answered without its user id. *)
Theorem team_replays ToLower ParseAddress s s' p idem fp :
  let again := mkSettingsIdempotency (sy_Key idem) fp in
  let same {A} (x : A) := if fp == sy_Fingerprint idem then Ok (x, true) else Err MsErrIdempotencyConflict in
  (forall input hash now x, CreateInvitation s p input hash idem now = (s', Ok (x, false)) ->
     forall input' hash' now', CreateInvitation s' p input' hash' again now' = (s', same x)) /\
  (forall id input x, RevokeInvitation s p id input idem = (s', Ok (x, false)) ->
     forall id' input', RevokeInvitation s' p id' input' again = (s', same x)) /\
  (forall hash e x, AcceptInvitation ToLower ParseAddress s p hash idem e = (s', Ok (x, false)) ->
     forall hash' e', AcceptInvitation ToLower ParseAddress s' p hash' again e' = (s', same (member_json x))) /\
  (forall id input now x, ReplaceOrdinaryRoles s p id input idem now = (s', Ok (x, false)) ->
     forall id' input' now', ReplaceOrdinaryRoles s' p id' input' again now' = (s', same (member_json x))) /\
  (forall id operation input now x, MutateOrdinaryMember s p id operation input idem now = (s', Ok (x, false)) ->
     forall id' input' now', MutateOrdinaryMember s' p id' operation input' again now' = (s', same (member_json x))) /\
  (forall input id now x, CreateSecurityAction s p input idem id now = (s', Ok (x, false)) ->
     forall input' id' now', CreateSecurityAction s' p input' again id' now' = (s', same x)) /\
  (forall id approve input t1 t2 t3 x, DecideSecurityAction s p id approve input idem t1 t2 t3 = (s', Ok (x, false)) ->
     forall id' input' t1' t2' t3', DecideSecurityAction s' p id' approve input' again t1' t2' t3' = (s', same x)) /\
  (forall input now x, UpdateSettings s p input idem now = (s', Ok (x, false)) ->
     forall input' now', UpdateSettings s' p input' again now' = (s', same x)).
Proof.
  intros again same. unfold again, same. split; [|do 6 (split; [intros *; intros H *; apply (idempotent_replays _ _ _ _ _ _ _ _ _ fp _ H)|]);
    intros *; intros H *; apply (idempotent_replays _ _ _ _ _ _ _ _ _ fp _ H)].
  intros input hash now x H input' hash' now'. unfold CreateInvitation in H |- *.
  destruct (idempotent s _ _ _ _ _ _) as [s1 [[out [|]]|err]] eqn:E; simplify_eq.
  rewrite (idempotent_replays _ _ _ _ _ _ _ _ _ fp (create_invitation s' input' hash' now') E). destruct (fp == _); [|done]. cbn.
  apply idempotent_ok in E as (s1 & Hc & ->). unfold create_invitation in Hc.
  destruct (existsb _ _); [done|]. destruct (_ || _); [done|]. simplify_eq. cbn. by rewrite lookup_insert_eq.
Qed.

(** The first update of a merchant's settings must name version 1 and yields
    version 1, so a second writer that also starts from nothing is not refused: it
    replaces what the first wrote, and only the third writer meets a conflict. *)
Theorem first_settings_update_lost s p input1 input2 idem1 idem2 idem3 input3 t1 t2 t3 :
  ms_settings s !! team_scope p = None -> us_Version input1 = 1 -> us_Version input2 = 1 -> us_Version input3 = 1 ->
  NoDup (sy_Key <$> [idem1; idem2; idem3]) ->
  (forall idem, In idem [idem1; idem2; idem3] -> ms_idem s !! settings_idemKey p "settings.update" (sy_Key idem) = None) ->
  exists s1 s2 x1 x2, UpdateSettings s p input1 idem1 t1 = (s1, Ok (x1, false)) /\ ps_Version x1 = 1 /\
    UpdateSettings s1 p input2 idem2 t2 = (s2, Ok (x2, false)) /\ ps_Version x2 = 2 /\
    GetSettings s2 p = Ok x2 /\ ps_DisplayName x2 = us_DisplayName input2 /\
    UpdateSettings s2 p input3 idem3 t3 = (s2, Err MsErrConflict).
Proof.
  intros Hs H1 H2 H3 Hnd Hi.
  assert (Hkey : forall i j, sy_Key i <> sy_Key j -> settings_idemKey p "settings.update" (sy_Key i) <> settings_idemKey p "settings.update" (sy_Key j)).
  { intros i j Hne E. apply Hne. unfold settings_idemKey in E. cbn [Join] in E.
    repeat (apply str_app_len_inj in E as [_ E]; [|done]). done. }
  cbn in Hnd. apply NoDup_cons in Hnd as [Hn1 [Hn2 _]%NoDup_cons].
  assert (N12 : sy_Key idem1 <> sy_Key idem2) by set_solver. assert (N13 : sy_Key idem1 <> sy_Key idem3) by set_solver.
  assert (N23 : sy_Key idem2 <> sy_Key idem3) by set_solver.
  unfold UpdateSettings, idempotent, replay_settings. rewrite (Hi idem1) by (cbn; auto). unfold update_settings at 1. rewrite Hs, H1.
  eexists _, _, _, _. split; [reflexivity|]. split; [reflexivity|].
  cbn [ms_idem remember with_replays with_settings].
  rewrite lookup_insert_ne, (Hi idem2) by (try apply Hkey; cbn; auto). unfold update_settings at 1.
  cbn [ms_settings remember with_replays with_settings]. rewrite lookup_insert_eq, H2. split; [reflexivity|]. split; [reflexivity|].
  unfold GetSettings. cbn [ms_settings remember with_replays with_settings]. rewrite lookup_insert_eq.
  split; [reflexivity|]. split; [reflexivity|]. cbn [ms_idem remember with_replays with_settings].
  rewrite !lookup_insert_ne, (Hi idem3) by (try apply Hkey; cbn; auto). unfold update_settings.
  cbn [ms_settings remember with_replays with_settings]. rewrite lookup_insert_eq. cbn [ps_Version]. by rewrite H3.
Qed.

(** ** A team of two *)

Definition sample_parse (raw : string) : option OriginURL := Some (mkOriginURL "https" "id.example" false "" "" "" "").
Definition sample_mac (key m : string) : string := str_take 32 (m +:+ Repeat "0" 32).
Definition sample_ring : HMACTokenKeyRing := mkHMACTokenKeyRing "k1" {[ "k1" := "secret" ]}.
Definition uuid_n (n : string) : string := "10000000-0000-7000-8000-00000000000" +:+ n.
Definition sample_time : Time := UnixTime 1785542400.

Definition person (n : string) : TeamPrincipal :=
  mkTeamPrincipal (uuid_n "a") (uuid_n "b") (uuid_n n) (uuid_n "c") "https://id.example" "subject" (n +:+ "@shop.example") true
    sample_time.
Definition alice : TeamPrincipal := person "1".
Definition bob : TeamPrincipal := person "2".
Definition carol : TeamPrincipal := person "3".

Definition member_of (id : string) (p : TeamPrincipal) (roles : list string) : Member :=
  mkMember (uuid_n id) (tp_Email p) (tp_Email p) "active" roles sample_time sample_time 1 (tp_UserID p).
Definition team : SettingsMemory :=
  let s := SeedMember NewSettingsMemory (member_of "4" alice ["owner"]) in
  let s := SeedMember s (member_of "5" bob ["viewer"]) in
  foldr (fun p s => Grant_permissions s p [PermissionTeamInvite; PermissionTeamManage; PermissionSecurityRequest;
                                          PermissionSecurityApprove; PermissionSettingsWrite]) s [alice; bob; carol].

Definition sample_env (id : string) : team_env :=
  mkTeamEnv sample_time (Some (uuid_n id)) sample_time sample_time sample_time (Some (uuid_n id)) [uuid_n "6"].
Definition sample_idem (k : string) : SettingsIdempotency := mkSettingsIdempotency k k.
#[local] Instance sample_issuer : TokenIssuer := keyring_issuer sample_mac (fun x => x) sample_ring.
#[local] Instance sample_repository : SettingsRepository SettingsMemory := settings_memory_repository (fun x => x) Some.

Lemma team_sound : team_ok team.
Proof.
  assert (Hm : ms_members team = <[uuid_n "5" := member_of "5" bob ["viewer"]]> {[uuid_n "4" := member_of "4" alice ["owner"]]}) by done.
  split; rewrite ?Hm; [| | |apply map_Forall_empty|apply map_Forall_empty].
  - apply map_Forall_insert_2; [done|]. by apply map_Forall_singleton.
  - exists (uuid_n "4"), (member_of "4" alice ["owner"]). split; [vm_compute; reflexivity|done].
  - intros k1 k2 m1 m2 H1 H2 E. rewrite !lookup_insert_Some, !lookup_singleton_Some in H1, H2.
    destruct H1 as [[<- <-]|[_ [<- <-]]], H2 as [[<- <-]|[_ [<- <-]]]; done.
Qed.

(** *** An invitation is issued, its token accepted *)

Definition sample_invite : CreateInvitationInput :=
  mkCreateInvitationInput "3@shop.example" ["viewer"; "developer"] "copy_once" 3600 "join the project" "" "".
Definition invited : SettingsMemory * result settings_error (Invitation * bool) :=
  Team_CreateInvitation false sample_parse (fun x => x) Some team alice sample_invite (sample_idem "invite-1") (sample_env "6").
Definition sample_invitation : Invitation :=
  match invited.2 with Ok (i, _) => i | Err _ => mkInvitation "" "" [] "" "" "" 0 0 0 "" end.

Lemma invited_ok : invited = (invited.1, Ok (sample_invitation, false)).
Proof. vm_compute. reflexivity. Qed.

Lemma sample_mac_len key m : len (sample_mac key m) = 32.
Proof.
  unfold len, sample_mac. rewrite str_take_length; [done|]. pose proof (len_app m (Repeat "0" 32)) as H. unfold len in H.
  change (String.length (Repeat "0" 32)) with 32%nat in H. lia.
Qed.

Lemma issued_token_accepted_witness :
  exists s2 m, Team_AcceptInvitation sample_parse (fun x => x) Some (fun x => x) invited.1 carol (iv_InviteToken sample_invitation)
                 (sample_idem "accept-1") (sample_env "6") = (s2, Ok (m, false)) /\ mb_RoleKeys m = iv_RoleKeys sample_invitation.
Proof.
  destruct (issued_token_accepted false sample_mac (fun x => x) sample_ring sample_parse (fun x => x) Some team alice sample_invite
              (sample_idem "invite-1") (sample_env "6") invited.1 sample_invitation carol (sample_idem "accept-1") (sample_env "6")
              (uuid_n "6") invited_ok eq_refl sample_mac_len) as (s2 & m & H & _ & Hr & _).
  - intros k v raw Hk. exfalso. revert Hk. change (ms_invites team) with (∅ : gmap string memoryInvite). rewrite lookup_empty. discriminate.
  - vm_compute. reflexivity.
  - vm_compute. reflexivity.
  - intros k m Hk.
    change (ms_members team) with (<[uuid_n "5" := member_of "5" bob ["viewer"]]> {[uuid_n "4" := member_of "4" alice ["owner"]]} : gmap string Member) in Hk.
    apply lookup_insert_Some in Hk as [[_ <-]|[_ [_ <-]%lookup_singleton_Some]]; vm_compute; discriminate.
  - vm_compute. reflexivity.
  - vm_compute. by left.
  - vm_compute. reflexivity.
  - reflexivity.
  - exists s2, m. exact (conj H Hr).
Defined.

Abbreviation sample_step := (team_step false sample_parse (fun x : string => x) Some (fun _ => true) (fun x : string => x)).

Definition requested (s : SettingsMemory) (p : TeamPrincipal) (target : string) (version : Z) (roles : list string) (k : string) : SettingsMemory :=
  (Team_CreateSecurityAction sample_parse (fun x => x) Some s p
     (mkCreateSecurityActionInput "member.roles.replace" (uuid_n target) version roles "change of duties") (sample_idem k) (sample_env k)).1.
Definition approved (s : SettingsMemory) (p : TeamPrincipal) (action k : string) : SettingsMemory :=
  (Team_DecideSecurityAction sample_parse (fun x => x) Some s p (uuid_n action) true (mkVersionedReason 1 "reviewed by carol")
     (sample_idem k) (sample_env "0")).1.

(** Bob is made an owner, then Alice ceases to be one. *)
Definition team1 : SettingsMemory := requested team alice "5" 1 ["owner"] "7".
Definition team2 : SettingsMemory := approved team1 carol "7" "a1".
Definition team3 : SettingsMemory := requested team2 bob "4" 1 ["viewer"] "8".
Definition team4 : SettingsMemory := approved team3 carol "8" "a2".

Lemma team_to_team4 : rtc sample_step team team4.
Proof.
  eapply rtc_l; [apply ts_request|]. eapply rtc_l; [apply ts_decide|]. eapply rtc_l; [apply ts_request|].
  eapply rtc_l; [apply ts_decide|]. apply rtc_refl.
Qed.

Lemma team_to_team1 : rtc sample_step team team1.
Proof. eapply rtc_l; [apply ts_request|]. apply rtc_refl. Qed.

Lemma team_always_owned_witness :
  ((fun m => (is_owner m, mb_Version m)) <$> ms_members team4 !! uuid_n "4") = Some (false, 2) /\ team_ok team4.
Proof.
  split; [vm_compute; reflexivity|].
  exact (team_always_owned false sample_mac (fun x => x) sample_ring sample_parse (fun x => x) Some (fun _ => true) team team4
           team_sound team_to_team4).
Defined.

Lemma team1_sound : team_ok team1.
Proof.
  refine (proj1 (team_step_good false sample_parse (fun x => x) Some (fun _ => true) (fun x => x) team team1 team_sound _)).
  apply ts_request.
Qed.

Lemma bob_promoted :
  ((fun m => standing m) <$> ms_members team1 !! uuid_n "5") = Some (false, false) /\
  ((fun m => standing m) <$> ms_members team2 !! uuid_n "5") = Some (true, false).
Proof. split; vm_compute; reflexivity. Qed.

Lemma high_risk_needs_second_person_witness : exists m, second_person team1 team2 (uuid_n "5") m.
Proof.
  pose proof bob_promoted as [H1 H2]. destruct (ms_members team1 !! uuid_n "5") as [m|] eqn:E1; [|discriminate H1].
  destruct (ms_members team2 !! uuid_n "5") as [m2|] eqn:E2; [|discriminate H2]. exists m.
  destruct (proj1 (high_risk_needs_second_person false sample_mac (fun x => x) sample_ring sample_parse (fun x => x) Some (fun _ => true)
    team1 team2 team1_sound (ts_decide _ _ _ _ _ _ _ _ _ _ _ _ _)) _ _ E1) as (m' & Hm' & _ & [He|Hp]); [exfalso|exact Hp].
  assert (m2 = m') as -> by congruence. cbn [fmap option_fmap option_map] in H1, H2. congruence.
Defined.

Definition revoked : SettingsMemory :=
  (Team_RevokeInvitation sample_parse (fun x => x) Some invited.1 alice (uuid_n "6") (mkVersionedReason 1 "sent by mistake")
     (sample_idem "revoke-1") (sample_env "0")).1.

Lemma invited_once : match ms_invites invited.1 !! uuid_n "6" with Some _ => true | None => false end = true.
Proof. vm_compute. reflexivity. Qed.

Lemma invitation_single_use_witness :
  exists v v', ms_invites invited.1 !! uuid_n "6" = Some v /\ ms_invites revoked !! uuid_n "6" = Some v' /\
               rtc (invite_next sample_parse (fun x => x) Some) v v'.
Proof.
  pose proof invited_once as Hv. destruct (ms_invites invited.1 !! uuid_n "6") as [v|] eqn:E; [|discriminate Hv].
  destruct (invitation_single_use false sample_mac (fun x => x) sample_ring sample_parse (fun x => x) Some (fun _ => true) invited.1
    revoked (uuid_n "6") v (rtc_once _ _ (ts_revoke _ _ _ _ _ _ _ _ _ _ _ _)) E) as (v' & Hv' & Hn & _).
  exists v, v'. exact (conj eq_refl (conj Hv' Hn)).
Defined.

Lemma invite_token_bound_witness :
  exists token d, DeriveToken sample_mac (fun x => x) sample_ring (uuid_n "a") (uuid_n "b") (uuid_n "6") "k1" = Some (token, d) /\
    uuid_n "6" = uuid_n "6".
Proof.
  assert (E : exists token d, DeriveToken sample_mac (fun x => x) sample_ring (uuid_n "a") (uuid_n "b") (uuid_n "6") "k1" = Some (token, d))
    by (eexists _, _; reflexivity).
  destruct E as (token & d & E). exists token, d. split; [exact E|].
  refine (proj2 (proj2 (invite_token_bound sample_mac (fun x => x) sample_ring (uuid_n "a") (uuid_n "b") (uuid_n "6") (uuid_n "a")
    (uuid_n "b") (uuid_n "6") "k1" token d d _ _ E E))).
  - intros id Hin. cbn [In] in Hin. repeat destruct Hin as [<-|Hin]; try (vm_compute; reflexivity). destruct Hin.
  - intros key msg _. reflexivity.
Defined.

Lemma team_replays_witness :
  exists s x, CreateSecurityAction team alice (mkCreateSecurityActionInput "member.disable" (uuid_n "5") 1 [] "left the shop")
                (sample_idem "k") (Some (uuid_n "9")) sample_time = (s, Ok (x, false)) /\
              CreateSecurityAction s alice (mkCreateSecurityActionInput "member.remove" (uuid_n "4") 1 [] "another request")
                (mkSettingsIdempotency "k" "k") (Some (uuid_n "8")) sample_time = (s, Ok (x, true)).
Proof.
  eexists _, _. split; [reflexivity|].
  destruct (team_replays (fun x => x) Some team
    (CreateSecurityAction team alice (mkCreateSecurityActionInput "member.disable" (uuid_n "5") 1 [] "left the shop")
       (sample_idem "k") (Some (uuid_n "9")) sample_time).1 alice (sample_idem "k") "k") as (_ & _ & _ & _ & _ & H & _).
  exact (H _ _ _ _ eq_refl _ _ _).
Defined.

Definition sample_settings (name : string) : UpdateSettingsInput :=
  mkUpdateSettingsInput 1 name "en" "UTC" "" (mkNotificationPreferences true true false) [] "first setup of it".

Lemma first_settings_update_lost_witness :
  exists s2 x2, GetSettings s2 alice = Ok x2 /\ ps_DisplayName x2 = "second".
Proof.
  destruct (first_settings_update_lost NewSettingsMemory alice (sample_settings "first") (sample_settings "second") (sample_idem "k1")
    (sample_idem "k2") (sample_idem "k3") (sample_settings "third") 0 0 0) as (s1 & s2 & x1 & x2 & _ & _ & _ & _ & H1 & H2 & _).
  - reflexivity.
  - reflexivity.
  - reflexivity.
  - reflexivity.
  - cbn. repeat constructor; set_solver.
  - intros idem _. apply lookup_empty.
  - exists s2, x2. exact (conj H1 H2).
Defined.

(** *** A check and a write that are not one step *)

(** [ReplaceRoles] reads the member, checks that the change is not a high-risk one and
    only then writes; the write compares the version the caller named, not the one
    that was checked. *)
Definition bob_stays_viewer : RoleChangeInput := mkRoleChangeInput 2 ["viewer"] "no change intended".

(** When a role change that names the next version is checked, and two approved
    security actions are carried out before it is written, the write removes the last
    owner without any approval. *)
Theorem interleaved_role_change_loses_owner :
  exists checked_input,
    roles_check sample_parse (fun x => x) Some team carol (uuid_n "5") bob_stays_viewer = Ok checked_input /\
    rtc sample_step team team4 /\ ownerCount (ms_members team4) = 1 /\
    let s := (ReplaceOrdinaryRoles team4 carol (uuid_n "5") checked_input (sample_idem "roles-1") sample_time).1 in
    ownerCount (ms_members s) = 0.
Proof.
  exists bob_stays_viewer. split; [vm_compute; reflexivity|]. split; [exact team_to_team4|].
  split; vm_compute; reflexivity.
Qed.
