(* ===== verification/ProviderOps.v ===== *)
(** * ProviderOps: internal/providerops (model.go, ports.go, service.go, worker.go)

    The operation of upstream providers: who may pause or admit one, which
    candidates take traffic, the circuit breaker of a binding, and the health
    worker that probes every binding and lets independent peers adjudicate what
    each reports. The repository is SQL; the service is modelled over the
    interface [OpsRepository], and the probers, the clock and the order in which
    results arrive are the environment of a run. *)

From Stdlib Require Import ZArith Lia Ascii String Permutation Sorted.
From stdpp Require Import base gmap list strings.
From S2P Require Import Prelude Text Encoding Rates.

(** ** Data (model.go) *)

Inductive ops_error :=
| OpsErrUnauthenticated | OpsErrForbidden | OpsErrStepUpRequired | OpsErrInvalid | OpsErrNotFound | OpsErrConflict
| OpsErrIdempotencyConflict | OpsErrDependency | OpsErrQuorumUnavailable | OpsErrLeaseLost | OpsErrOther (msg : string).

Definition ProviderOnChain : string := "on_chain".
Definition ProviderHosted : string := "hosted".
Definition BindingActive : string := "active".
Definition BindingPaused : string := "paused".

Definition OperationHead : string := "head".
Definition OperationRange : string := "range".
Definition OperationStatus : string := "status".

(** The map [operations]: the names it holds. *)
Definition probe_operations : list string :=
  ["health"; "head"; "range"; "transaction_lookup"; "transfer_verify"; "create"; "status"; "cancel"; "refund";
   "reconciliation"].

Definition hostedPolicyOperations : list string :=
  ["health"; "create"; "status"; "cancel"; "refund"; "reconciliation"].

Inductive CircuitState := CircuitClosed | CircuitOpen | CircuitHalfOpen.
#[export] Instance CircuitState_eq_dec : EqDecision CircuitState.
Proof. solve_decision. Defined.

Definition ErrorNone : string := "none".
Definition ErrorStaleHead : string := "stale_head".
Definition ErrorDivergentResponse : string := "divergent_response".
Definition ErrorPolicyDenied : string := "policy_denied".

Definition errorCategories : list string :=
  [ErrorNone; "timeout"; "dns"; "tls"; "connect"; "rate_limited"; "auth_rejected"; "upstream_4xx"; "upstream_5xx";
   "invalid_response"; "chain_mismatch"; "genesis_mismatch"; ErrorStaleHead; ErrorDivergentResponse;
   ErrorPolicyDenied].

Record OpsGrant := mkOpsGrant { og_Permission : string; og_TenantID : string }.
Record OpsPrincipal := mkOpsPrincipal {
  op_ActorID : string; op_SessionID : string; op_StepUpAt : Time; op_Grants : list OpsGrant }.

(** A [Scope] is its tenant, empty for the platform. *)
Definition authorize_ops (p : OpsPrincipal) (permission tenant : string) : option ops_error :=
  if existsb (fun g => (og_Permission g == permission) && ((og_TenantID g == "") || (og_TenantID g == tenant)))
       (op_Grants p)
  then None else Some OpsErrForbidden.

Record ProviderPolicy := mkProviderPolicy {
  pp_BindingID : string; pp_TenantID : string; pp_Operation : string; pp_Timeout : Duration; pp_MaxAttempts : Z;
  pp_Backoff : Duration; pp_RateLimit : Z; pp_RateWindow : Duration; pp_MaxHealthAge : Duration; pp_MaxLagBlocks : Z;
  pp_FailureThreshold : Z; pp_OpenFor : Duration; pp_HalfOpenSuccesses : Z; pp_Priority : Z; pp_FailureDomain : string;
  pp_Version : Z }.

Record Circuit := mkCircuit {
  ct_State : CircuitState; ct_ConsecutiveFailures : Z; ct_HalfOpenSuccesses : Z; ct_OpenedUntil : option Time;
  ct_LeaseOwner : string; ct_LeaseToken : Z; ct_LeaseUntil : option Time; ct_LastSuccessAt : option Time;
  ct_LastObservedAt : option Time; ct_FenceToken : Z; ct_Version : Z }.

Record OpsCandidate := mkOpsCandidate {
  cd_BindingID : string; cd_ProviderID : string; cd_ProviderKind : string; cd_TenantID : string; cd_MerchantID : string;
  cd_ChainID : string; cd_ConfigLogicalKey : string; cd_PlatformSnapshotID : string; cd_ProbeReference : string;
  cd_Status : string; cd_Policy : ProviderPolicy; cd_Circuit : Circuit }.

Record AdmissionRequest := mkAdmissionRequest {
  ar_TenantID : string; ar_Kind : string; ar_ProviderIDs : list string; ar_Operation : string; ar_Quorum : Z;
  ar_Now : Time }.
Record Admission := mkAdmission { ad_Candidates : list OpsCandidate; ad_Quorum : Z }.

(** The durations of a hosted policy are still counts of milliseconds or seconds. *)
Record PolicyParameters := mkPolicyParameters {
  pr_TimeoutMS : Z; pr_MaxAttempts : Z; pr_BackoffMS : Z; pr_RateLimit : Z; pr_RateWindowSeconds : Z;
  pr_MaxHealthAgeSeconds : Z; pr_FailureThreshold : Z; pr_OpenSeconds : Z; pr_HalfOpenSuccesses : Z; pr_Priority : Z;
  pr_MaxLagBlocks : Z; pr_FailureDomain : string }.

Record OpsIdempotency := mkOpsIdempotency { oi_Key : string; oi_Fingerprint : string }.
Record RequestChangeInput := mkRequestChangeInput {
  qc_TenantID : string; qc_BindingID : string; qc_RequestedStatus : string; qc_ExpectedBindingVersion : Z;
  qc_Reason : string }.
Record DecideInput := mkDecideInput { di_ExpectedRequestVersion : Z; di_Reason : string }.
Record RequestHostedPolicyInput := mkRequestHostedPolicyInput {
  qh_TenantID : string; qh_BindingID : string; qh_ExpectedBindingVersion : Z; qh_Policies : gmap string PolicyParameters;
  qh_BootstrapProbeReference : string; qh_Reason : string }.

Record HealthProbe := mkHealthProbe {
  hp_Candidate : OpsCandidate; hp_LeaseOwner : string; hp_LeaseToken : Z; hp_FenceToken : Z }.
Record ProbeObservation := mkProbeObservation {
  ob_BindingID : string; ob_TenantID : string; ob_Operation : string; ob_LeaseOwner : string; ob_LeaseToken : Z;
  ob_FenceToken : Z; ob_Success : bool; ob_Error : string; ob_Latency : Duration; ob_LagBlocks : option Z;
  ob_ObservedAt : Time; ob_HeadHeight : option Z; ob_HeadObservedAt : option Time }.

(** [NewIdempotency]: the fingerprint is the SHA-256 of the JSON of the input. *)
Definition NewIdempotency (sha256 : string -> string) (encoded : option string) (key : string) : option OpsIdempotency :=
  match encoded with Some e => Some (mkOpsIdempotency key (sha256 e)) | None => None end.

(** ** Patterns *)

Definition id_pattern (extra : list Z) (max : Z) (s : string) : bool :=
  first_is alnum s && str_forall (fun c => alnum c || one_of extra c) s && (len s <=? max).
Definition opsProviderIDPattern : string -> bool := id_pattern [46; 95; 47; 45] 128.
Definition hostedProviderIDPattern : string -> bool := id_pattern [46; 95; 45] 128.
Definition failureDomainPattern : string -> bool := id_pattern [46; 95; 45] 128.
Definition bootstrapReferencePattern : string -> bool := id_pattern [46; 95; 58; 45] 255.

(** ** The repository (ports.go) *)

(** One Go method per field; a call may change the repository's state [R]. The
    pages, requests and policies it answers with are opaque to the service. *)
Class OpsRepository (R Binding Change HostedPolicy : Type) := {
  repo_ListBindings : string -> string -> Z -> R -> R * result ops_error Binding;
  repo_GetBinding : string -> string -> R -> R * result ops_error Binding;
  repo_ListChanges : string -> string -> Z -> R -> R * result ops_error Change;
  repo_ListHostedPolicies : string -> string -> Z -> R -> R * result ops_error HostedPolicy;
  repo_RequestChange : OpsPrincipal -> RequestChangeInput -> OpsIdempotency -> R -> R * result ops_error Change;
  repo_DecideChange : OpsPrincipal -> string -> string -> bool -> DecideInput -> OpsIdempotency -> R ->
    R * result ops_error Change;
  repo_RequestHostedPolicy : OpsPrincipal -> RequestHostedPolicyInput -> OpsIdempotency -> R ->
    R * result ops_error HostedPolicy;
  repo_DecideHostedPolicy : OpsPrincipal -> string -> string -> bool -> DecideInput -> OpsIdempotency -> R ->
    R * result ops_error HostedPolicy;
  repo_AdmissionCandidates : AdmissionRequest -> R -> R * result ops_error (list OpsCandidate);
  repo_ClaimProbes : string -> Z -> R -> R * result ops_error (list HealthProbe);
  repo_CompleteProbe : ProbeObservation -> R -> R * option ops_error }.

(** ** Guards of the service (service.go) *)

Definition ops_require (now : Time) (p : OpsPrincipal) (permission tenant : string) (stepUp : bool) : option ops_error :=
  if negb (ValidID (op_ActorID p)) || (op_SessionID p == "") then Some OpsErrUnauthenticated
  else match authorize_ops p permission tenant with
  | Some e => Some e
  | None =>
      if stepUp && (IsZeroTime (op_StepUpAt p) || After (op_StepUpAt p) (AddTime now (10 * Second))
                    || Before (op_StepUpAt p) (AddTime now (- (10 * Minute))))
      then Some OpsErrStepUpRequired else None
  end.

Definition validOpsIdempotency (value : OpsIdempotency) : bool :=
  (8 <=? len (oi_Key value)) && (len (oi_Key value) <=? 255) && (TrimSpace (oi_Key value) == oi_Key value).

Definition validOpsReason (value : string) : bool :=
  let trimmed := TrimSpace value in
  (8 <=? len trimmed) && (len trimmed <=? 1000) && str_forall (fun c => negb (code c =? 0)) trimmed.

Definition within (lo hi x : Z) : bool := (lo <=? x) && (x <=? hi).

Definition validPolicyParameters (v : PolicyParameters) : bool :=
  within 100 30000 (pr_TimeoutMS v) && within 1 5 (pr_MaxAttempts v) && within 0 30000 (pr_BackoffMS v)
  && within 1 10000 (pr_RateLimit v) && within 1 3600 (pr_RateWindowSeconds v)
  && within 5 3600 (pr_MaxHealthAgeSeconds v) && within 1 20 (pr_FailureThreshold v) && within 1 3600 (pr_OpenSeconds v)
  && within 1 20 (pr_HalfOpenSuccesses v) && within 0 1000 (pr_Priority v) && (pr_MaxLagBlocks v <=? 1000000000)
  && failureDomainPattern (pr_FailureDomain v).

Definition validHostedPolicy (values : gmap string PolicyParameters) : bool :=
  if negb (Nat.eqb (size values) (length hostedPolicyOperations)) then false
  else forallb (fun operation =>
    match values !! operation with Some value => validPolicyParameters value | None => false end) hostedPolicyOperations.

Definition page_ok (cursor : string) (limit : Z) : bool :=
  negb (((cursor != "") && negb (ValidID cursor)) || (limit <? 1) || (200 <? limit)).

(** ** The circuit breaker *)

Definition NextCircuit (current : Circuit) (policy : ProviderPolicy) (success : bool) (observedAt : Time) : Circuit :=
  let version := int64 (ct_Version current + 1) in
  if success then
    if bool_decide (ct_State current = CircuitHalfOpen) then
      let half := int64 (ct_HalfOpenSuccesses current + 1) in
      if pp_HalfOpenSuccesses policy <=? half then
        mkCircuit CircuitClosed 0 0 None "" (ct_LeaseToken current) None (Some observedAt) (Some observedAt)
          (int64 (ct_FenceToken current + 1)) version
      else
        mkCircuit CircuitHalfOpen 0 half (ct_OpenedUntil current) "" (ct_LeaseToken current) None (Some observedAt)
          (Some observedAt) (ct_FenceToken current) version
    else
      mkCircuit CircuitClosed 0 0 None "" (ct_LeaseToken current) None (Some observedAt) (Some observedAt)
        (ct_FenceToken current) version
  else
    let failures := int64 (ct_ConsecutiveFailures current + 1) in
    if bool_decide (ct_State current = CircuitHalfOpen) || (pp_FailureThreshold policy <=? failures) then
      mkCircuit CircuitOpen failures 0 (Some (AddTime observedAt (pp_OpenFor policy))) "" (ct_LeaseToken current) None
        (ct_LastSuccessAt current) (Some observedAt) (int64 (ct_FenceToken current + 1)) version
    else
      mkCircuit (ct_State current) failures 0 (ct_OpenedUntil current) "" (ct_LeaseToken current) None
        (ct_LastSuccessAt current) (Some observedAt) (ct_FenceToken current) version.

(** ** Admission *)

(** The loop over [input.ProviderIDs] with its set [seen]. *)
Fixpoint provider_ids_ok (hosted : bool) (seen : list string) (provider_ids : list string) : bool :=
  match provider_ids with
  | [] => true
  | id :: rest =>
      if negb (opsProviderIDPattern id) || (hosted && negb (hostedProviderIDPattern id)) then false
      else if existsb_str id seen then false
      else provider_ids_ok hosted (id :: seen) rest
  end.

Definition ops_admissible (input : AdmissionRequest) (c : OpsCandidate) : bool :=
  existsb_str (cd_ProviderID c) (ar_ProviderIDs input) && (cd_ProviderKind c == ar_Kind input)
  && (cd_Status c == BindingActive) && (pp_Operation (cd_Policy c) == ar_Operation input)
  && bool_decide (ct_State (cd_Circuit c) = CircuitClosed)
  && match ct_LastSuccessAt (cd_Circuit c) with
     | None => false
     | Some last => negb (pp_MaxHealthAge (cd_Policy c) <? SubTime (ar_Now input) last)
                    && negb (Before (ar_Now input) last)
     end.

Definition failover_less (i j : OpsCandidate) : bool :=
  if negb (pp_Priority (cd_Policy i) =? pp_Priority (cd_Policy j))
  then pp_Priority (cd_Policy i) <? pp_Priority (cd_Policy j)
  else if pp_FailureDomain (cd_Policy i) != pp_FailureDomain (cd_Policy j)
  then str_less (pp_FailureDomain (cd_Policy i)) (pp_FailureDomain (cd_Policy j))
  else str_less (cd_ProviderID i) (cd_ProviderID j).

Definition admission_shape (input : AdmissionRequest) : bool :=
  existsb_str (ar_Operation input) probe_operations
  && ((ar_Kind input == ProviderOnChain) || (ar_Kind input == ProviderHosted))
  && (1 <=? ar_Quorum input) && (ar_Quorum input <=? 16)
  && (ar_Quorum input <=? Z.of_nat (length (ar_ProviderIDs input)))
  && (Z.of_nat (length (ar_ProviderIDs input)) <=? 16).

Definition admission_now (now : Time) (input : AdmissionRequest) : AdmissionRequest :=
  if IsZeroTime (ar_Now input)
  then mkAdmissionRequest (ar_TenantID input) (ar_Kind input) (ar_ProviderIDs input) (ar_Operation input)
         (ar_Quorum input) now
  else input.

(** What [Admit] makes of the candidates the repository returned. *)
Definition admit_candidates (input : AdmissionRequest) (candidates : list OpsCandidate) : result ops_error Admission :=
  let admitted := sort_by failover_less (List.filter (ops_admissible input) candidates) in
  if Z.of_nat (length admitted) <? ar_Quorum input then Err OpsErrQuorumUnavailable
  else Ok (mkAdmission admitted (ar_Quorum input)).

Definition observation_valid (o : ProbeObservation) : bool :=
  ValidID (ob_BindingID o) && existsb_str (ob_Operation o) probe_operations && opsProviderIDPattern (ob_LeaseOwner o)
  && (1 <=? ob_LeaseToken o) && (1 <=? ob_FenceToken o) && negb (IsZeroTime (ob_ObservedAt o)) && (0 <=? ob_Latency o)
  && (ob_Latency o <=? 30 * Second) && existsb_str (ob_Error o) errorCategories
  && Bool.eqb (ob_Success o) (ob_Error o == ErrorNone).

(** ** The service *)
Section service.
Context {R Binding Change HostedPolicy : Type} {repo : OpsRepository R Binding Change HostedPolicy}.
(** [s.now()] *)
Context (now : Time).

Definition refuse {A} (e : ops_error) (r : R) : R * result ops_error A := (r, Err e).

(** A method is its guard, its check of the input and the repository's call. *)
Definition guarded {A} (guard : option ops_error) (valid : bool) (call : R -> R * result ops_error A) (r : R)
    : R * result ops_error A :=
  match guard with
  | Some e => refuse e r
  | None => if valid then call r else refuse OpsErrInvalid r
  end.

Definition ListBindings (p : OpsPrincipal) (scope cursor : string) (limit : Z) : R -> R * result ops_error Binding :=
  guarded (ops_require now p "provider_ops:read" scope false) (page_ok cursor limit) (repo_ListBindings scope cursor limit).

Definition GetBinding (p : OpsPrincipal) (scope id : string) : R -> R * result ops_error Binding :=
  guarded (ops_require now p "provider_ops:read" scope false) (ValidID id) (repo_GetBinding scope id).

Definition ListChanges (p : OpsPrincipal) (scope cursor : string) (limit : Z) : R -> R * result ops_error Change :=
  guarded (ops_require now p "provider_ops:read" scope false) (page_ok cursor limit) (repo_ListChanges scope cursor limit).

Definition ListHostedPolicies (p : OpsPrincipal) (scope cursor : string) (limit : Z)
    : R -> R * result ops_error HostedPolicy :=
  guarded (ops_require now p "provider_ops:read" scope false) (page_ok cursor limit)
    (repo_ListHostedPolicies scope cursor limit).

Definition RequestHostedPolicy (p : OpsPrincipal) (input : RequestHostedPolicyInput) (idem : OpsIdempotency)
    : R -> R * result ops_error HostedPolicy :=
  guarded (ops_require now p "provider_ops:request" (qh_TenantID input) true)
    (ValidID (qh_BindingID input) && ValidID (qh_TenantID input) && (1 <=? qh_ExpectedBindingVersion input)
     && validHostedPolicy (qh_Policies input) && bootstrapReferencePattern (qh_BootstrapProbeReference input)
     && validOpsReason (qh_Reason input) && validOpsIdempotency idem)
    (repo_RequestHostedPolicy p input idem).

Definition DecideHostedPolicy (p : OpsPrincipal) (scope id : string) (approve : bool) (input : DecideInput)
    (idem : OpsIdempotency) : R -> R * result ops_error HostedPolicy :=
  guarded (ops_require now p "provider_ops:approve" scope true)
    (ValidID scope && ValidID id && (1 <=? di_ExpectedRequestVersion input) && validOpsReason (di_Reason input)
     && validOpsIdempotency idem)
    (repo_DecideHostedPolicy p scope id approve input idem).

Definition RequestChange (p : OpsPrincipal) (input : RequestChangeInput) (idem : OpsIdempotency)
    : R -> R * result ops_error Change :=
  guarded (ops_require now p "provider_ops:request" (qc_TenantID input) true)
    (ValidID (qc_BindingID input) && (1 <=? qc_ExpectedBindingVersion input) && validOpsReason (qc_Reason input)
     && validOpsIdempotency idem
     && ((qc_RequestedStatus input == BindingActive) || (qc_RequestedStatus input == BindingPaused)))
    (repo_RequestChange p input idem).

Definition DecideChange (p : OpsPrincipal) (scope id : string) (approve : bool) (input : DecideInput)
    (idem : OpsIdempotency) : R -> R * result ops_error Change :=
  guarded (ops_require now p "provider_ops:approve" scope true)
    (ValidID id && (1 <=? di_ExpectedRequestVersion input) && validOpsReason (di_Reason input)
     && validOpsIdempotency idem)
    (repo_DecideChange p scope id approve input idem).

Definition Admit (input : AdmissionRequest) (r : R) : R * result ops_error Admission :=
  if negb (admission_shape input) then refuse OpsErrInvalid r
  else
    let input := admission_now now input in
    if negb (provider_ids_ok (ar_Kind input == ProviderHosted) [] (ar_ProviderIDs input)) then refuse OpsErrInvalid r
    else
      let (r', candidates) := repo_AdmissionCandidates input r in
      match candidates with
      | Err e => refuse e r'
      | Ok candidates => (r', admit_candidates input candidates)
      end.

Definition ClaimProbes (owner : string) (limit : Z) (r : R) : R * result ops_error (list HealthProbe) :=
  if negb (opsProviderIDPattern owner) || (limit <? 2) || (128 <? limit) then refuse OpsErrInvalid r
  else repo_ClaimProbes owner limit r.

Definition CompleteProbe (o : ProbeObservation) (r : R) : R * option ops_error :=
  if observation_valid o then repo_CompleteProbe o r else (r, Some OpsErrInvalid).
End service.

(** ** Probing with retries (worker.go) *)

Definition retryableProbeError (category : string) : bool :=
  existsb_str category ["timeout"; "dns"; "tls"; "connect"; "rate_limited"; "upstream_5xx"].

(** [Backoff * time.Duration(1<<attempt)] in 64 bits, at most 30 seconds. *)
Definition probe_delay (backoff : Duration) (attempt : nat) : Duration :=
  let delay := int64 (backoff * int64 (Z.shiftl 1 (Z.of_nat attempt))) in
  if 30 * Second <? delay then 30 * Second else delay.

(** [answers i] is what the prober returns to call [i]; [cancelled i] says that
    the context ended during the wait after it. The result is the observation,
    the calls made and the waits. *)
Fixpoint probe_loop (policy : ProviderPolicy) (answers : nat -> ProbeObservation) (cancelled : nat -> bool)
    (remaining attempt : nat) (last : ProbeObservation) (waits : list Duration) : ProbeObservation * nat * list Duration :=
  match remaining with
  | O => (last, attempt, waits)
  | S more =>
      let observation := answers attempt in
      if ob_Success observation || Nat.eqb more 0 || negb (retryableProbeError (ob_Error observation))
      then (observation, S attempt, waits)
      else
        let delay := probe_delay (pp_Backoff policy) attempt in
        if delay <=? 0 then probe_loop policy answers cancelled more (S attempt) observation waits
        else if cancelled attempt then (observation, S attempt, waits ++ [delay])
        else probe_loop policy answers cancelled more (S attempt) observation (waits ++ [delay])
  end.

Definition empty_observation : ProbeObservation := mkProbeObservation "" "" "" "" 0 0 false "" 0 None 0 None None.

Definition probe_attempts (policy : ProviderPolicy) : nat := Z.to_nat (Z.max 1 (pp_MaxAttempts policy)).

Definition probeWithRetry (probe : HealthProbe) (answers : nat -> ProbeObservation) (cancelled : nat -> bool)
    : ProbeObservation * nat * list Duration :=
  let policy := cd_Policy (hp_Candidate probe) in
  probe_loop policy answers cancelled (probe_attempts policy) 0 empty_observation [].

(** ** Adjudication *)

Definition markObservationFailure (o : ProbeObservation) (category : string) : ProbeObservation :=
  mkProbeObservation (ob_BindingID o) (ob_TenantID o) (ob_Operation o) (ob_LeaseOwner o) (ob_LeaseToken o) (ob_FenceToken o)
    false category (ob_Latency o) None (ob_ObservedAt o) (ob_HeadHeight o) (ob_HeadObservedAt o).

Definition with_lag (o : ProbeObservation) (lag : Z) : ProbeObservation :=
  mkProbeObservation (ob_BindingID o) (ob_TenantID o) (ob_Operation o) (ob_LeaseOwner o) (ob_LeaseToken o) (ob_FenceToken o)
    (ob_Success o) (ob_Error o) (ob_Latency o) (Some lag) (ob_ObservedAt o) (ob_HeadHeight o) (ob_HeadObservedAt o).

(** A probe with what its prober reported: the element the two slices share. *)
Abbreviation Evidence := (HealthProbe * ProbeObservation)%type (only parsing).
Definition ev_cand (e : Evidence) : OpsCandidate := hp_Candidate (fst e).
Definition ev_policy (e : Evidence) : ProviderPolicy := cd_Policy (ev_cand e).

(** The conditions a hosted peer has to meet. *)
Definition hosted_peer (mine peer : Evidence) : bool :=
  ob_Success (snd peer) && (cd_ProviderKind (ev_cand peer) == ProviderHosted)
  && (cd_TenantID (ev_cand peer) == cd_TenantID (ev_cand mine))
  && (cd_MerchantID (ev_cand peer) == cd_MerchantID (ev_cand mine))
  && (pp_Operation (ev_policy peer) == pp_Operation (ev_policy mine))
  && (pp_FailureDomain (ev_policy peer) != pp_FailureDomain (ev_policy mine)).

(** A head no older than the policy's age and at most ten seconds ahead. *)
Definition fresh_head (now : Time) (policy : ProviderPolicy) (observed : Time) : bool :=
  negb (After observed (AddTime now (10 * Second))) && negb (Before observed (AddTime now (- pp_MaxHealthAge policy))).

(** The height an on-chain peer contributes, when it counts. *)
Definition chain_peer (now : Time) (mine peer : Evidence) : option Z :=
  match ob_HeadHeight (snd peer), ob_HeadObservedAt (snd peer) with
  | Some height, Some observed =>
      if ob_Success (snd peer) && (cd_ChainID (ev_cand peer) == cd_ChainID (ev_cand mine))
         && (pp_Operation (ev_policy peer) == pp_Operation (ev_policy mine))
         && (pp_FailureDomain (ev_policy peer) != pp_FailureDomain (ev_policy mine))
         && fresh_head now (ev_policy peer) observed
      then Some height else None
  | _, _ => None
  end.

(** The inner loop: [maximum] and [independent] over the peers. *)
Fixpoint peer_scan (now : Time) (mine : Evidence) (peers : list Evidence) (maximum : Z) (independent : bool) : Z * bool :=
  match peers with
  | [] => (maximum, independent)
  | peer :: rest =>
      match chain_peer now mine peer with
      | Some height => peer_scan now mine rest (if maximum <? height then height else maximum) true
      | None => peer_scan now mine rest maximum independent
      end
  end.

(** The body of the outer loop: [peers] are the other indices of the slices. *)
Definition adjudicate_one (now : Time) (mine : Evidence) (peers : list Evidence) : ProbeObservation :=
  let current := snd mine in
  if negb (ob_Success current) then current
  else if cd_ProviderKind (ev_cand mine) == ProviderHosted then
    if existsb (hosted_peer mine) peers then current else markObservationFailure current ErrorDivergentResponse
  else if cd_ProviderKind (ev_cand mine) != ProviderOnChain then markObservationFailure current ErrorPolicyDenied
  else
    match ob_HeadHeight current, ob_HeadObservedAt current with
    | Some height, Some observed =>
        if fresh_head now (ev_policy mine) observed then
          let (maximum, independent) := peer_scan now mine peers height false in
          if negb independent then markObservationFailure current ErrorDivergentResponse
          else
            let lag := uint64 (maximum - height) in
            if pp_MaxLagBlocks (ev_policy mine) <? lag then markObservationFailure current ErrorStaleHead
            else with_lag current (int64 lag)
        else markObservationFailure current ErrorStaleHead
    | _, _ => markObservationFailure current ErrorStaleHead
    end.

Definition others {A} (index : nat) (l : list A) : list A := take index l ++ drop (S index) l.

(** Every observation is judged on [raw], the copy taken before the loop. *)
Definition adjudicate_pairs (now : Time) (raw : list Evidence) : list ProbeObservation :=
  imap (fun index mine => adjudicate_one now mine (others index raw)) raw.

Definition AdjudicateObservations (probes : list HealthProbe) (observations : list ProbeObservation) (now : Time)
    : list ProbeObservation :=
  if Nat.eqb (length probes) (length observations) then adjudicate_pairs now (zip probes observations) else observations.

(** ** One run of the health worker *)

Record HealthWorker := mkHealthWorker { hw_Owner : string; hw_BatchSize : Z; hw_Concurrency : Z }.

(** What a run meets: the answers of the probers, the contexts that end during
    a retry, an end of the context while probes are handed out, the order in
    which the goroutines deliver, the clock after each probe and at the end. *)
Record health_env := mkHealthEnv {
  he_answers : HealthProbe -> nat -> ProbeObservation;
  he_cancelled : HealthProbe -> nat -> bool;
  he_stopped : option ops_error;
  he_order : list Evidence -> list Evidence;
  he_clock : HealthProbe -> Time;
  he_now : Time }.

Inductive health_event :=
| ObserveProviderProbe (success : bool) (category : string)
| CompleteProbeCall (o : ProbeObservation).

Definition stamp (probe : HealthProbe) (now : Time) (o : ProbeObservation) : ProbeObservation :=
  mkProbeObservation (cd_BindingID (hp_Candidate probe)) (cd_TenantID (hp_Candidate probe))
    (pp_Operation (cd_Policy (hp_Candidate probe))) (hp_LeaseOwner probe) (hp_LeaseToken probe) (hp_FenceToken probe)
    (ob_Success o) (ob_Error o) (ob_Latency o) (ob_LagBlocks o)
    (if IsZeroTime (ob_ObservedAt o) then now else ob_ObservedAt o) (ob_HeadHeight o) (ob_HeadObservedAt o).

Section worker.
Context {R Binding Change HostedPolicy : Type} {repo : OpsRepository R Binding Change HostedPolicy}.

Definition run_probe (e : health_env) (probe : HealthProbe) : Evidence :=
  (probe, stamp probe (he_clock e probe) (fst (fst (probeWithRetry probe (he_answers e probe) (he_cancelled e probe))))).

(** The last loop: it stops at the first completion that fails. *)
Fixpoint complete_all (observations : list ProbeObservation) (r : R) (log : list health_event)
    : R * list health_event * option ops_error :=
  match observations with
  | [] => (r, log, None)
  | o :: rest =>
      let log := log ++ [ObserveProviderProbe (ob_Success o) (ob_Error o); CompleteProbeCall o] in
      match CompleteProbe o r with
      | (r', Some err) => (r', log, Some err)
      | (r', None) => complete_all rest r' log
      end
  end.

Definition health_RunOnce (w : HealthWorker) (e : health_env) (r : R) : R * list health_event * result ops_error Z :=
  if negb (opsProviderIDPattern (hw_Owner w)) || (hw_BatchSize w <? 2) || (128 <? hw_BatchSize w)
     || (hw_Concurrency w <? 1) || (32 <? hw_Concurrency w)
  then (r, [], Err OpsErrInvalid)
  else
    match ClaimProbes (hw_Owner w) (hw_BatchSize w) r with
    | (r, Err err) => (r, [], Err err)
    | (r, Ok probes) =>
        match he_stopped e with
        | Some err => (r, [], Err err)
        | None =>
            let completed := he_order e (map (run_probe e) probes) in
            let observations := AdjudicateObservations (map fst completed) (map snd completed) (he_now e) in
            match complete_all observations r [] with
            | (r, log, Some err) => (r, log, Err err)
            | (r, log, None) => (r, log, Ok (Z.of_nat (length probes)))
            end
        end
    end.
End worker.
