(* ===== verification/ProviderOpsFacts.v ===== *)
(** * ProviderOpsFacts: what the operation of providers guarantees

    Adjudication never lets a provider certify itself and does not depend on the
    order of the results; the circuit breaker opens exactly at its threshold;
    admission returns a fresh, ordered quorum; the service asks the repository
    only with authority; a run of the health worker completes each probe under
    its own lease. *)

From Stdlib Require Import ZArith Lia Ascii String Permutation Sorted.
From stdpp Require Import base gmap list strings.
From S2P Require Import Prelude Text Encoding Rates ProviderOps.

(** ** Selecting each element with the others *)
Section select.
Context {A B : Type} (g : A -> list A -> B).

Fixpoint select_map (before l : list A) : list B :=
  match l with [] => [] | x :: r => g x (before ++ r) :: select_map (before ++ [x]) r end.

Lemma imap_others_select before l :
  imap (fun i x => g x (others (length before + i) (before ++ l))) l = select_map before l.
Proof.
  revert before. induction l as [|x l IH]; intros before; [done|]. rewrite imap_cons. cbn [select_map]. f_equal.
  - unfold others. rewrite Nat.add_0_r, take_app_length, drop_app_ge by lia.
    by replace (S (length before) - length before)%nat with 1%nat by lia.
  - rewrite <- IH. apply imap_ext. intros i y _. cbn. rewrite length_app, <- app_assoc. cbn.
    by replace (length before + 1 + i)%nat with (length before + S i)%nat by lia.
Qed.

Hypothesis g_perm : forall x l l', Permutation l l' -> g x l = g x l'.

Lemma select_map_before before before' l : Permutation before before' -> select_map before l = select_map before' l.
Proof.
  revert before before'. induction l as [|z l IH]; intros b b' Hb; cbn [select_map]; [done|].
  rewrite (g_perm z (b ++ l) (b' ++ l)) by (by rewrite Hb). f_equal. apply IH. by rewrite Hb.
Qed.

Lemma select_map_perm l l' : Permutation l l' ->
  forall before, Permutation (select_map before l) (select_map before l').
Proof.
  induction 1 as [|x l l' Hp IH|x y l|l1 l2 l3 Hp1 IH1 Hp2 IH2]; intros before; cbn [select_map].
  - done.
  - rewrite (g_perm x (before ++ l) (before ++ l')) by (by rewrite Hp). apply perm_skip, IH.
  - rewrite <- !app_assoc. cbn. rewrite perm_swap.
    rewrite (select_map_before (before ++ [y; x]) (before ++ [x; y])) by (apply Permutation_app_head, perm_swap). done.
  - by etrans; [apply IH1|apply IH2].
Qed.
End select.

(** ** Peers *)

Definition peer_heights (now : Time) (mine : Evidence) (peers : list Evidence) : list Z :=
  omap (chain_peer now mine) peers.

Lemma peer_scan_spec now mine peers m b :
  peer_scan now mine peers m b =
    (foldr Z.max m (peer_heights now mine peers), b || negb (bool_decide (peer_heights now mine peers = []))).
Proof.
  revert m b. induction peers as [|p peers IH]; intros m b; cbn; [by rewrite orb_false_r|].
  unfold peer_heights in *. cbn. destruct (chain_peer now mine p) as [h|]; rewrite IH; [|done]. cbn.
  rewrite orb_true_r. f_equal. replace (if m <? h then h else m) with (Z.max h m) by (destruct (Z.ltb_spec m h); lia).
  generalize (omap (chain_peer now mine) peers). intros hs. induction hs as [|x hs IHh]; cbn; [done|]. rewrite IHh. lia.
Qed.

Lemma foldr_max_ge m hs : m <= foldr Z.max m hs /\ (forall h, h ∈ hs -> h <= foldr Z.max m hs).
Proof.
  induction hs as [|x hs [IH1 IH2]]; cbn; [split; [lia|by intros h Hh%not_elem_of_nil]|].
  split; [lia|]. intros h [->|Hh]%elem_of_cons; [lia|]. specialize (IH2 h Hh). lia.
Qed.

Lemma foldr_max_le m hs top : m <= top -> (forall h, h ∈ hs -> h <= top) -> foldr Z.max m hs <= top.
Proof.
  intros Hm Hh. induction hs as [|x hs IH]; cbn; [done|].
  pose proof (Hh x ltac:(left)). specialize (IH ltac:(intros h Hin; apply Hh; by right)). lia.
Qed.

#[export] Instance foldr_max_perm m : Proper (Permutation ==> eq) (foldr Z.max m).
Proof.
  intros l l' Hp. induction Hp as [|x l l' Hp IH|x y l|? ? ? ? IH1 ? IH2]; cbn; [done|by rewrite IH|lia|congruence].
Qed.

Lemma adjudicate_one_perm now mine peers peers' :
  Permutation peers peers' -> adjudicate_one now mine peers = adjudicate_one now mine peers'.
Proof.
  intros Hp.
  assert (Permutation (peer_heights now mine peers) (peer_heights now mine peers')) as Hh by (unfold peer_heights; by rewrite Hp).
  assert (existsb (hosted_peer mine) peers = existsb (hosted_peer mine) peers') as He.
  { apply eq_bool_prop_intro; rewrite !Is_true_true, !existsb_exists. split; intros (p & Hin & Hok); exists p;
      (split; [|done]); [by eapply Permutation_in|by eapply Permutation_in; [symmetry|]]. }
  assert (bool_decide (peer_heights now mine peers = []) = bool_decide (peer_heights now mine peers' = [])) as Hb.
  { apply bool_decide_ext. split; intros E; rewrite E in Hh;
      [by apply Permutation_nil|by apply Permutation_nil, Permutation_sym]. }
  unfold adjudicate_one. rewrite He. destruct (ob_HeadHeight (snd mine)) as [h|]; [|done].
  by rewrite !peer_scan_spec, Hb, (foldr_max_perm h _ _ Hh).
Qed.

Lemma adjudicate_select now raw : adjudicate_pairs now raw = select_map (adjudicate_one now) [] raw.
Proof. apply (imap_others_select (adjudicate_one now) []). Qed.

Lemma zip_maps {A B} (l : list (A * B)) : zip (map fst l) (map snd l) = l.
Proof. induction l as [|[a b] l IH]; cbn; [done|by rewrite IH]. Qed.

Lemma Adjudicate_completed now (completed : list Evidence) :
  AdjudicateObservations (map fst completed) (map snd completed) now = adjudicate_pairs now completed.
Proof. unfold AdjudicateObservations. by rewrite !length_map, Nat.eqb_refl, zip_maps. Qed.

(** The verdicts do not depend on the order in which the goroutines of a run
    deliver their results: another order gives the same observations, permuted. *)
Theorem adjudication_any_order now (completed completed' : list Evidence) :
  Permutation completed completed' ->
  Permutation (AdjudicateObservations (map fst completed) (map snd completed) now)
    (AdjudicateObservations (map fst completed') (map snd completed') now).
Proof.
  intros Hp. rewrite !Adjudicate_completed, !adjudicate_select. apply select_map_perm; [|done].
  apply adjudicate_one_perm.
Qed.

Lemma elem_others {A} (l : list A) i x : x ∈ others i l <-> exists j, j <> i /\ l !! j = Some x.
Proof.
  unfold others. rewrite elem_of_app, !list_elem_of_lookup. split.
  - intros [[j Hj]|[j Hj]].
    + apply lookup_take_Some in Hj as [Hj Hlt]. exists j. split; [lia|done].
    + rewrite lookup_drop in Hj. exists (S i + j)%nat. split; [lia|done].
  - intros (j & Hne & Hj). destruct (decide (j < i)%nat) as [Hlt|Hge].
    + left. exists j. by apply lookup_take_Some.
    + right. exists (j - S i)%nat. rewrite lookup_drop. by replace (S i + (j - S i))%nat with j by lia.
Qed.

Lemma adjudicated probes observations now i probe obs :
  length probes = length observations -> probes !! i = Some probe -> observations !! i = Some obs ->
  AdjudicateObservations probes observations now !! i =
    Some (adjudicate_one now (probe, obs) (others i (zip probes observations))).
Proof.
  intros Hlen Hp Ho. unfold AdjudicateObservations. rewrite Hlen, Nat.eqb_refl. unfold adjudicate_pairs.
  rewrite list_lookup_imap, (proj2 (lookup_zip_Some probes observations i probe obs)) by done. done.
Qed.

(** Evidence of the batch at another index. *)
Definition reported (probes : list HealthProbe) (observations : list ProbeObservation) (i : nat) (e : Evidence) : Prop :=
  probes !! i = Some (fst e) /\ observations !! i = Some (snd e).

Lemma elem_others_reported probes observations i e :
  e ∈ others i (zip probes observations) <-> exists j, j <> i /\ reported probes observations j e.
Proof.
  rewrite elem_others. unfold reported. destruct e as [p o]. split; intros (j & Hj & Hz); exists j; (split; [done|]);
    by apply lookup_zip_Some.
Qed.

(** A peer that stands in another failure domain for the same operation. *)
Definition independent_peer (mine peer : Evidence) : Prop :=
  ob_Success (snd peer) = true /\ pp_Operation (ev_policy peer) = pp_Operation (ev_policy mine) /\
  pp_FailureDomain (ev_policy peer) <> pp_FailureDomain (ev_policy mine).

Definition same_merchant (mine peer : Evidence) : Prop :=
  cd_ProviderKind (ev_cand peer) = ProviderHosted /\ cd_TenantID (ev_cand peer) = cd_TenantID (ev_cand mine) /\
  cd_MerchantID (ev_cand peer) = cd_MerchantID (ev_cand mine).

(** A peer of the same chain whose head of [height] is fresh. *)
Definition chain_witness (now : Time) (mine peer : Evidence) (height : Z) : Prop :=
  independent_peer mine peer /\ cd_ChainID (ev_cand peer) = cd_ChainID (ev_cand mine) /\
  ob_HeadHeight (snd peer) = Some height /\
  exists at_, ob_HeadObservedAt (snd peer) = Some at_ /\ fresh_head now (ev_policy peer) at_ = true.

Lemma hosted_peer_iff mine peer :
  hosted_peer mine peer = true <-> independent_peer mine peer /\ same_merchant mine peer.
Proof.
  unfold hosted_peer, independent_peer, same_merchant.
  rewrite !andb_true_iff, negb_true_iff, !String.eqb_eq, String.eqb_neq. tauto.
Qed.

Lemma chain_peer_iff now mine peer height :
  chain_peer now mine peer = Some height <-> chain_witness now mine peer height.
Proof.
  unfold chain_peer, chain_witness, independent_peer.
  destruct (ob_HeadHeight (snd peer)) as [h|]; [|split; [done|intros (_ & _ & ? & _); done]].
  destruct (ob_HeadObservedAt (snd peer)) as [t|]; [|split; [done|intros (_ & _ & _ & t & ? & _); done]].
  destruct (_ && _) eqn:E.
  - rewrite !andb_true_iff, negb_true_iff, !String.eqb_eq, String.eqb_neq in E. destruct E as [[[[? ?] ?] ?] ?].
    split; [intros [= <-]; split_and!; eauto|by intros (_ & _ & [= ->] & _)].
  - split; [done|]. intros ((Hs & Ho & Hd) & Hc & [= ->] & t' & [= <-] & Hf). exfalso.
    assert (ob_Success (snd peer) && (cd_ChainID (ev_cand peer) == cd_ChainID (ev_cand mine))
      && (pp_Operation (ev_policy peer) == pp_Operation (ev_policy mine))
      && (pp_FailureDomain (ev_policy peer) != pp_FailureDomain (ev_policy mine))
      && fresh_head now (ev_policy peer) t = true); [|congruence].
    rewrite !andb_true_iff, negb_true_iff, !String.eqb_eq, String.eqb_neq. tauto.
Qed.

Lemma elem_peer_heights now mine peers h :
  h ∈ peer_heights now mine peers <-> exists peer, peer ∈ peers /\ chain_witness now mine peer h.
Proof.
  unfold peer_heights. rewrite list_elem_of_omap. split; intros (p & Hp & Hc); exists p; (split; [done|]);
    by apply chain_peer_iff.
Qed.

(** The verdict on an on-chain success with a fresh head. *)
Lemma adjudicate_chain now mine peers height at_ :
  ob_Success (snd mine) = true -> cd_ProviderKind (ev_cand mine) = ProviderOnChain ->
  ob_HeadHeight (snd mine) = Some height -> ob_HeadObservedAt (snd mine) = Some at_ ->
  fresh_head now (ev_policy mine) at_ = true ->
  adjudicate_one now mine peers =
    if bool_decide (peer_heights now mine peers = []) then markObservationFailure (snd mine) ErrorDivergentResponse
    else if pp_MaxLagBlocks (ev_policy mine) <? uint64 (foldr Z.max height (peer_heights now mine peers) - height)
    then markObservationFailure (snd mine) ErrorStaleHead
    else with_lag (snd mine) (int64 (uint64 (foldr Z.max height (peer_heights now mine peers) - height))).
Proof.
  intros Hs Hk Hh Ha Hf. unfold adjudicate_one. rewrite Hs, Hk, Hh, Ha, Hf, peer_scan_spec. cbn.
  by destruct (bool_decide _).
Qed.

(** The heads are 64-bit heights and the policy bounds the lag as [int64] does. *)
Definition heights_typed (observations : list ProbeObservation) : Prop :=
  Forall (fun o => match ob_HeadHeight o with Some h => is_uint64 h | None => True end) observations.

Lemma lag_bounds now mine peers height :
  is_uint64 height -> (forall p h, p ∈ peers -> ob_HeadHeight (snd p) = Some h -> is_uint64 h) ->
  let top := foldr Z.max height (peer_heights now mine peers) in
  is_uint64 top /\ height <= top /\ uint64 (top - height) = top - height.
Proof.
  intros Hh Hp top. destruct (foldr_max_ge height (peer_heights now mine peers)) as [Hge _].
  assert (top <= max_uint64) as Hle.
  { apply foldr_max_le; [unfold is_uint64 in Hh; lia|]. intros h (p & Hin & _ & _ & Hph & _)%elem_peer_heights.
    specialize (Hp p h Hin Hph). unfold is_uint64 in Hp. lia. }
  unfold is_uint64 in *. split_and!; [subst top; lia|done|done|]. apply uint64_id. unfold is_uint64. subst top. lia.
Qed.

Lemma foldr_max_attained m hs : hs <> [] -> exists top, top ∈ hs /\ foldr Z.max m hs = Z.max m top.
Proof.
  induction hs as [|x hs IH]; [done|]. intros _. cbn. destruct hs as [|y hs].
  - exists x. cbn. split; [left|lia].
  - destruct IH as (top & Hin & ->); [done|]. destruct (Z.le_ge_cases top x).
    + exists x. split; [left|lia].
    + exists top. split; [by right|lia].
Qed.

(** What a verdict of success rests on. *)
Lemma adjudicate_success now mine peers :
  ob_Success (adjudicate_one now mine peers) = true ->
  ob_Success (snd mine) = true /\
  ((cd_ProviderKind (ev_cand mine) = ProviderHosted /\ existsb (hosted_peer mine) peers = true) \/
   (cd_ProviderKind (ev_cand mine) = ProviderOnChain /\ exists height at_,
      ob_HeadHeight (snd mine) = Some height /\ ob_HeadObservedAt (snd mine) = Some at_ /\
      fresh_head now (ev_policy mine) at_ = true /\ peer_heights now mine peers <> [] /\
      let lag := uint64 (foldr Z.max height (peer_heights now mine peers) - height) in
      lag <= pp_MaxLagBlocks (ev_policy mine) /\ adjudicate_one now mine peers = with_lag (snd mine) (int64 lag))).
Proof.
  unfold adjudicate_one. destruct (ob_Success (snd mine)) eqn:Es; cbn [negb]; [|congruence].
  intros Hs. split; [done|].
  destruct (String.eqb_spec (cd_ProviderKind (ev_cand mine)) ProviderHosted) as [Ek|Ek].
  { left. split; [done|]. by destruct (existsb _ _). }
  right. destruct (String.eqb_spec (cd_ProviderKind (ev_cand mine)) ProviderOnChain) as [Ec|Ec]; [|done].
  cbn [negb] in *. split; [done|].
  destruct (ob_HeadHeight (snd mine)) as [height|]; [|done]. destruct (ob_HeadObservedAt (snd mine)) as [at_|]; [|done].
  exists height, at_. do 2 (split; [done|]). destruct (fresh_head now (ev_policy mine) at_); [|done].
  split; [done|]. rewrite peer_scan_spec in *. cbn [orb] in *. case_bool_decide as Enil; [done|].
  split; [done|]. cbn [negb] in *. destruct (Z.ltb_spec (pp_MaxLagBlocks (ev_policy mine))
    (uint64 (foldr Z.max height (peer_heights now mine peers) - height))); [done|]. done.
Qed.

(** C24: No provider certifies itself. An observation that stays a success after
    the adjudication was reported as one, and another probe of the batch, of the
    same operation and in another failure domain, succeeded as well: for a
    hosted provider of the same merchant, for a chain on the same chain with a
    fresh head; then the recorded lag is what the head misses to the highest
    head of such a peer, and the policy allows it. *)
Theorem no_provider_certifies_itself probes observations now i mine out :
  length probes = length observations -> reported probes observations i mine -> heights_typed observations ->
  pp_MaxLagBlocks (ev_policy mine) <= max_int64 ->
  AdjudicateObservations probes observations now !! i = Some out -> ob_Success out = true ->
  ob_Success (snd mine) = true /\
  exists j peer, j <> i /\ reported probes observations j peer /\ independent_peer mine peer /\
    ((cd_ProviderKind (ev_cand mine) = ProviderHosted /\ same_merchant mine peer) \/
     (cd_ProviderKind (ev_cand mine) = ProviderOnChain /\
      exists height top, chain_witness now mine peer top /\ ob_HeadHeight (snd mine) = Some height /\
        let lag := Z.max 0 (top - height) in
        ob_LagBlocks out = Some lag /\ lag <= pp_MaxLagBlocks (ev_policy mine) /\
        forall k other h, k <> i -> reported probes observations k other -> chain_witness now mine other h ->
          h <= height + lag)).
Proof.
  intros Hlen Hmine Hty Hcap Hout Hs. destruct mine as [probe obs]. pose proof Hmine as [Hp Ho].
  rewrite (adjudicated probes observations now i probe obs) in Hout by done. injection Hout as <-.
  set (peers := others i (zip probes observations)) in *. set (mine := (probe, obs)) in *.
  apply adjudicate_success in Hs as [Hs [[Hk Hex]|(Hk & height & at_ & Hh & Ha & Hf & Hnil & Hlag & ->)]];
    (split; [done|]).
  - apply existsb_exists in Hex as (peer & Hin & [Hi Hm]%hosted_peer_iff).
    apply list_elem_of_In, elem_others_reported in Hin as (j & Hj & Hr).
    exists j, peer. do 3 (split; [done|]). by left.
  - destruct (foldr_max_attained height (peer_heights now mine peers) Hnil) as (top & Htop & Hmax).
    apply elem_peer_heights in Htop as (peer & Hin & Hw).
    assert (Hu : forall p h, p ∈ peers -> ob_HeadHeight (snd p) = Some h -> is_uint64 h).
    { intros p h (j & _ & _ & Hj)%elem_others_reported Heq.
      pose proof (Forall_lookup_1 _ _ _ _ Hty Hj) as Hx. cbn in Hx. by rewrite Heq in Hx. }
    assert (is_uint64 height) as Hu0.
    { pose proof (Forall_lookup_1 _ _ _ _ Hty Ho) as Hx. cbn in Hx, Hh. by rewrite Hh in Hx. }
    destruct (lag_bounds now mine peers height Hu0 Hu) as (Ht & Hge & Heq). rewrite Heq in *.
    rewrite Hmax in *. pose proof Hw as (Hind & _). pose proof Hin as (j & Hj & Hr)%elem_others_reported.
    exists j, peer. do 3 (split; [done|]). right. split; [done|]. exists height, top. do 2 (split; [done|]).
    replace (Z.max height top - height) with (Z.max 0 (top - height)) in * by lia. cbn zeta. cbn [with_lag ob_LagBlocks].
    rewrite int64_id by (unfold is_int64, min_int64; lia). do 2 (split; [done|]).
    intros k other h Hk' Hr' Hw'.
    assert (h ∈ peer_heights now mine peers) as Hin'.
    { apply elem_peer_heights. exists other. split; [|done]. apply elem_others_reported. by exists k. }
    pose proof (proj2 (foldr_max_ge height (peer_heights now mine peers)) h Hin'). lia.
Qed.

(** The largest reported head decides. A provider that reports a fresh head
    [h] no peer exceeds is certified with lag 0 as soon as one independent peer
    answers, however low; and every provider of the chain in another failure
    domain whose head is more than its allowed lag below [h] is failed as stale.
    One provider that reports a head of its own invention so passes, and fails
    every other. *)
Theorem highest_head_decides probes observations now i mine h at_ :
  length probes = length observations -> reported probes observations i mine -> heights_typed observations ->
  ob_Success (snd mine) = true -> cd_ProviderKind (ev_cand mine) = ProviderOnChain ->
  ob_HeadHeight (snd mine) = Some h -> ob_HeadObservedAt (snd mine) = Some at_ ->
  fresh_head now (ev_policy mine) at_ = true -> 0 <= pp_MaxLagBlocks (ev_policy mine) ->
  (forall k other g, k <> i -> reported probes observations k other -> chain_witness now mine other g -> g <= h) ->
  ((exists k other g, k <> i /\ reported probes observations k other /\ chain_witness now mine other g) ->
   AdjudicateObservations probes observations now !! i = Some (with_lag (snd mine) 0)) /\
  (forall k other g t, k <> i -> reported probes observations k other ->
     ob_Success (snd other) = true -> cd_ProviderKind (ev_cand other) = ProviderOnChain ->
     ob_HeadHeight (snd other) = Some g -> ob_HeadObservedAt (snd other) = Some t ->
     fresh_head now (ev_policy other) t = true -> chain_witness now other mine h ->
     pp_MaxLagBlocks (ev_policy other) < h - g ->
     AdjudicateObservations probes observations now !! k = Some (markObservationFailure (snd other) ErrorStaleHead)).
Proof.
  intros Hlen Hmine Hty Hs Hk Hh Ha Hf Hmax0 Htop.
  assert (Hu : forall j p x, reported probes observations j p -> ob_HeadHeight (snd p) = Some x -> is_uint64 x).
  { intros j p x [_ Hj] Heq. pose proof (Forall_lookup_1 _ _ _ _ Hty Hj) as Hx. cbn in Hx. by rewrite Heq in Hx. }
  assert (Hadj : forall j p, reported probes observations j p -> AdjudicateObservations probes observations now !! j =
    Some (adjudicate_one now p (others j (zip probes observations)))).
  { intros j [p o] [Hp Ho]. by apply adjudicated. }
  assert (Hpeers : forall j p x, p ∈ others j (zip probes observations) -> ob_HeadHeight (snd p) = Some x -> is_uint64 x).
  { intros j p x (j' & _ & Hr)%elem_others_reported. by apply (Hu j'). }
  split.
  - intros (k & other & g & Hki & Hr & Hw). rewrite (Hadj i mine Hmine). f_equal.
    rewrite (adjudicate_chain now mine _ h at_) by done.
    assert (foldr Z.max h (peer_heights now mine (others i (zip probes observations))) = h) as ->.
    { apply Z.le_antisymm; [|exact (proj1 (foldr_max_ge _ _))]. apply foldr_max_le; [done|].
      intros x (p & (j & Hj & Hrj)%elem_others_reported & Hwx)%elem_peer_heights. exact (Htop j p x Hj Hrj Hwx). }
    rewrite bool_decide_false.
    + rewrite Z.sub_diag. change (uint64 0) with 0. by destruct (Z.ltb_spec (pp_MaxLagBlocks (ev_policy mine)) 0); [lia|].
    + intros E. apply (not_elem_of_nil g). rewrite <- E. apply elem_peer_heights. exists other.
      split; [|done]. apply elem_others_reported. by exists k.
  - intros k other g t Hki Hr Hso Hko Hg Ht Hfo Hw Hlag. rewrite (Hadj k other Hr). f_equal.
    rewrite (adjudicate_chain now other _ g t) by done. set (peers := others k _).
    assert (h ∈ peer_heights now other peers) as Hin.
    { apply elem_peer_heights. exists mine. split; [|done]. apply elem_others_reported. by exists i. }
    rewrite bool_decide_false by (intros E; rewrite E in Hin; by apply not_elem_of_nil in Hin).
    destruct (lag_bounds now other peers g (Hu _ _ _ Hr Hg) (Hpeers k)) as (_ & _ & ->).
    pose proof (proj2 (foldr_max_ge g (peer_heights now other peers)) h Hin).
    destruct (Z.ltb_spec (pp_MaxLagBlocks (ev_policy other)) (foldr Z.max g (peer_heights now other peers) - g)); [done|lia].
Qed.

(** ** The circuit breaker *)

Definition circuit_run (policy : ProviderPolicy) (c : Circuit) (results : list (bool * Time)) : Circuit :=
  fold_left (fun c r => NextCircuit c policy (fst r) (snd r)) results c.

(** The failures since the last success, [n] before the first result. *)
Definition trailing_failures (n : Z) (results : list (bool * Time)) : Z :=
  fold_left (fun (n : Z) (r : bool * Time) => if fst r then 0 else n + 1) results n.

(** A breaker that is not half-open opens exactly when as many probes in a
    row have failed as the policy allows, counted from the last success, and a
    success closes it. *)
Theorem breaker_opens_at_threshold policy c results :
  ct_State c <> CircuitHalfOpen -> 1 <= pp_FailureThreshold policy -> 0 <= ct_ConsecutiveFailures c ->
  (ct_State c = CircuitOpen <-> pp_FailureThreshold policy <= ct_ConsecutiveFailures c) ->
  ct_ConsecutiveFailures c + Z.of_nat (length results) <= max_int64 ->
  let d := circuit_run policy c results in
  ct_State d <> CircuitHalfOpen /\ ct_ConsecutiveFailures d = trailing_failures (ct_ConsecutiveFailures c) results /\
  (ct_State d = CircuitOpen <-> pp_FailureThreshold policy <= trailing_failures (ct_ConsecutiveFailures c) results).
Proof.
  intros Hh Ht. revert c Hh. induction results as [|[[] t] results IH]; intros c Hh Hn Ho Hcap; [done|..];
    cbn [length] in Hcap; cbn [circuit_run trailing_failures fold_left fst snd].
  - assert (NextCircuit c policy true t = mkCircuit CircuitClosed 0 0 None "" (ct_LeaseToken c) None (Some t) (Some t)
      (ct_FenceToken c) (int64 (ct_Version c + 1))) as -> by (unfold NextCircuit; by rewrite bool_decide_false).
    apply (IH (mkCircuit CircuitClosed 0 0 None "" (ct_LeaseToken c) None (Some t) (Some t) (ct_FenceToken c)
      (int64 (ct_Version c + 1)))); cbn; [done|lia|split; [done|lia]|lia].
  - set (c' := NextCircuit c policy false t).
    assert (ct_ConsecutiveFailures c' = ct_ConsecutiveFailures c + 1 /\ ct_State c' <> CircuitHalfOpen /\
      (ct_State c' = CircuitOpen <-> pp_FailureThreshold policy <= ct_ConsecutiveFailures c + 1)) as (Hf & Hs & Hiff).
    { unfold c', NextCircuit. rewrite (bool_decide_false (ct_State c = CircuitHalfOpen)) by done.
      rewrite int64_id by (unfold is_int64, min_int64; lia). cbn [orb].
      destruct (Z.leb_spec (pp_FailureThreshold policy) (ct_ConsecutiveFailures c + 1)); cbn; [done|].
      split_and!; [done|done|]. rewrite Ho. lia. }
    rewrite <- Hf in Hiff |- *. apply (IH c'); [done|lia|done|lia].
Qed.

(** A half-open breaker closes after exactly the required number of
    successes in a row, with a new fence token, and no sooner; one failure
    before that opens it again for the policy's time. *)
Theorem half_open_gate policy c times t :
  ct_State c = CircuitHalfOpen -> 0 <= ct_HalfOpenSuccesses c -> pp_HalfOpenSuccesses policy <= max_int64 ->
  ct_HalfOpenSuccesses c + Z.of_nat (length times) < pp_HalfOpenSuccesses policy ->
  let d := circuit_run policy c (map (pair true) times) in
  ct_State d = CircuitHalfOpen /\
  ct_State (NextCircuit d policy true t) =
    (if ct_HalfOpenSuccesses c + Z.of_nat (length times) + 1 =? pp_HalfOpenSuccesses policy
     then CircuitClosed else CircuitHalfOpen) /\
  ct_FenceToken d = ct_FenceToken c /\
  let reopened := NextCircuit d policy false t in
  ct_State reopened = CircuitOpen /\ ct_OpenedUntil reopened = Some (t + pp_OpenFor policy) /\
  ct_HalfOpenSuccesses reopened = 0 /\ ct_FenceToken reopened = int64 (ct_FenceToken c + 1).
Proof.
  intros Hs Hn Hcap Hlt.
  assert (let d := circuit_run policy c (map (pair true) times) in ct_State d = CircuitHalfOpen /\
    ct_HalfOpenSuccesses d = ct_HalfOpenSuccesses c + Z.of_nat (length times) /\ ct_FenceToken d = ct_FenceToken c)
    as (Hd & Hk & Hf).
  { revert c Hs Hn Hlt. induction times as [|u times IH]; intros c Hs Hn Hlt; cbn [length] in Hlt |- *; [cbn; split_and!; [done|lia|done]|].
    cbn [map circuit_run fold_left fst snd]. unfold NextCircuit at 2 4 6. rewrite bool_decide_true by done.
    rewrite int64_id by (unfold is_int64, min_int64; lia).
    destruct (Z.leb_spec (pp_HalfOpenSuccesses policy) (ct_HalfOpenSuccesses c + 1)); [lia|].
    destruct (IH (mkCircuit CircuitHalfOpen 0 (ct_HalfOpenSuccesses c + 1) (ct_OpenedUntil c) "" (ct_LeaseToken c) None
      (Some u) (Some u) (ct_FenceToken c) (int64 (ct_Version c + 1)))) as (H1 & H2 & H3); cbn; [done|lia|lia|].
    unfold circuit_run in *. rewrite H1, H2, H3. cbn. split_and!; [done|lia|done]. }
  intros d. fold d in Hd, Hk, Hf. split; [done|]. split; [|split; [done|]].
  - unfold NextCircuit. rewrite bool_decide_true by done. rewrite Hk, int64_id by (unfold is_int64, min_int64; lia).
    destruct (Z.eqb_spec (ct_HalfOpenSuccesses c + Z.of_nat (length times) + 1) (pp_HalfOpenSuccesses policy)) as [E|E];
      destruct (Z.leb_spec (pp_HalfOpenSuccesses policy) (ct_HalfOpenSuccesses c + Z.of_nat (length times) + 1));
      [done|lia|lia|done].
  - intros reopened. unfold reopened, NextCircuit. rewrite (bool_decide_true (ct_State d = CircuitHalfOpen)) by done. cbn.
    by rewrite Hf.
Qed.

(** ** Admission *)

Lemma failover_less_asym x y : failover_less x y = true -> failover_less y x = false.
Proof.
  unfold failover_less. rewrite (Z.eqb_sym (pp_Priority (cd_Policy y))), (String.eqb_sym (pp_FailureDomain (cd_Policy y))).
  destruct (Z.eqb_spec (pp_Priority (cd_Policy x)) (pp_Priority (cd_Policy y))); cbn [negb].
  - destruct (_ != _); apply str_less_asym.
  - intros ?%Z.ltb_lt. apply Z.ltb_ge. lia.
Qed.

Lemma failover_less_cotrans x y z :
  failover_less x z = true -> failover_less x y = true \/ failover_less y z = true.
Proof.
  unfold failover_less.
  destruct (Z.eqb_spec (pp_Priority (cd_Policy x)) (pp_Priority (cd_Policy z))) as [Exz|Exz],
    (Z.eqb_spec (pp_Priority (cd_Policy x)) (pp_Priority (cd_Policy y))) as [Exy|Exy],
    (Z.eqb_spec (pp_Priority (cd_Policy y)) (pp_Priority (cd_Policy z))) as [Eyz|Eyz]; cbn [negb];
    rewrite ?Z.ltb_lt; try lia.
  destruct (String.eqb_spec (pp_FailureDomain (cd_Policy x)) (pp_FailureDomain (cd_Policy z))) as [Fxz|Fxz],
    (String.eqb_spec (pp_FailureDomain (cd_Policy x)) (pp_FailureDomain (cd_Policy y))) as [Fxy|Fxy],
    (String.eqb_spec (pp_FailureDomain (cd_Policy y)) (pp_FailureDomain (cd_Policy z))) as [Fyz|Fyz]; cbn [negb];
    try congruence; try apply str_less_cotrans.
  - intros _. rewrite Fxz in *. destruct (str_less_total (pp_FailureDomain (cd_Policy z)) (pp_FailureDomain (cd_Policy y)))
      as [?|[?|?]]; auto.
  - rewrite Fxy. auto.
  - rewrite <- Fyz. auto.
Qed.

Lemma failover_less_total x y :
  cd_ProviderID x <> cd_ProviderID y -> failover_less x y = true \/ failover_less y x = true.
Proof.
  intros Hne. unfold failover_less.
  rewrite (Z.eqb_sym (pp_Priority (cd_Policy y))), (String.eqb_sym (pp_FailureDomain (cd_Policy y))).
  destruct (Z.eqb_spec (pp_Priority (cd_Policy x)) (pp_Priority (cd_Policy y))); cbn [negb]; rewrite ?Z.ltb_lt; [|lia].
  destruct (String.eqb_spec (pp_FailureDomain (cd_Policy x)) (pp_FailureDomain (cd_Policy y))) as [E|E]; cbn [negb].
  - destruct (str_less_total (cd_ProviderID x) (cd_ProviderID y)) as [?|[?|?]]; auto; congruence.
  - destruct (str_less_total (pp_FailureDomain (cd_Policy x)) (pp_FailureDomain (cd_Policy y))) as [?|[?|?]]; auto; congruence.
Qed.

Lemma filter_perm {A} (p : A -> bool) l l' : Permutation l l' -> Permutation (List.filter p l) (List.filter p l').
Proof.
  induction 1 as [|x l l' Hp IH|x y l|? ? ? ? IH1 ? IH2]; cbn; [done|destruct (p x); [by apply perm_skip|done]| |by etrans].
  destruct (p x), (p y); [apply perm_swap|done..].
Qed.

Lemma NoDup_fmap_In {A B} (f : A -> B) (l : list A) x y : NoDup (map f l) -> In x l -> In y l -> f x = f y -> x = y.
Proof.
  intros Hnd Hx Hy. apply (NoDup_fmap_inj_on f l); [done|by apply list_elem_of_In..].
Qed.

(** What a candidate that takes traffic is. *)
Record admitted (input : AdmissionRequest) (c : OpsCandidate) : Prop := mk_admitted {
  ad_requested : In (cd_ProviderID c) (ar_ProviderIDs input);
  ad_active : cd_Status c = BindingActive;
  ad_operation : pp_Operation (cd_Policy c) = ar_Operation input;
  ad_closed : ct_State (cd_Circuit c) = CircuitClosed;
  ad_fresh : exists last, ct_LastSuccessAt (cd_Circuit c) = Some last /\ last <= ar_Now input /\
    SubTime (ar_Now input) last <= pp_MaxHealthAge (cd_Policy c) }.

Lemma ops_admissible_admitted input c : ops_admissible input c = true -> admitted input c.
Proof.
  unfold ops_admissible. intros H. rewrite !andb_true_iff in H. destruct H as [[[[[Hin Hk] Hs] Ho] Hc] Hl].
  apply existsb_str_In in Hin. apply String.eqb_eq in Hs, Ho. apply bool_decide_eq_true in Hc.
  destruct (ct_LastSuccessAt (cd_Circuit c)) as [last|] eqn:El; [|done]. unfold Before in Hl. bool_hyp.
  constructor; try done. exists last. split; [done|]. lia.
Qed.

(** An admission is exactly the requested, active candidates whose circuit is
    closed and whose last success is recent, in order of priority, failure domain
    and identity, and at least the quorum of them; the same for every order in
    which the repository returns them, when it returns a provider once. *)
Theorem admission_is_the_healthy_quorum input candidates adm :
  admit_candidates input candidates = Ok adm ->
  Permutation (ad_Candidates adm) (List.filter (ops_admissible input) candidates) /\
  Forall (admitted input) (ad_Candidates adm) /\
  StronglySorted (not_after failover_less) (ad_Candidates adm) /\
  ar_Quorum input <= Z.of_nat (length (ad_Candidates adm)) /\
  forall candidates', Permutation candidates candidates' ->
    NoDup (map cd_ProviderID (List.filter (ops_admissible input) candidates)) ->
    admit_candidates input candidates' = Ok adm.
Proof.
  unfold admit_candidates. destruct (Z.ltb_spec (Z.of_nat (length (sort_by failover_less (List.filter (ops_admissible input) candidates))))
    (ar_Quorum input)) as [|Hq]; [done|]. intros [= <-]. cbn [ad_Candidates ad_Quorum].
  split; [symmetry; apply sort_by_perm|]. split; [|split; [|split; [done|]]].
  - rewrite <- sort_by_perm. apply Forall_forall. intros c [_ Hc]%list_elem_of_In%filter_In. by apply ops_admissible_admitted.
  - apply sort_by_sorted; [apply failover_less_asym|apply failover_less_cotrans].
  - intros candidates' Hp Hnd.
    rewrite <- (sort_by_determined failover_less (List.filter (ops_admissible input) candidates)
      (List.filter (ops_admissible input) candidates')).
    + by destruct (Z.ltb_spec (Z.of_nat (length (sort_by failover_less (List.filter (ops_admissible input) candidates)))) (ar_Quorum input)); [lia|].
    + apply failover_less_asym.
    + apply failover_less_cotrans.
    + intros x y Hx Hy. destruct (String.eqb_spec (cd_ProviderID x) (cd_ProviderID y)) as [E|E].
      * right. right. by apply (NoDup_fmap_In cd_ProviderID _ x y Hnd).
      * destruct (failover_less_total x y E); auto.
    + by apply filter_perm.
Qed.

(** ** Retries *)

(** A probe is tried at least once and at most [MaxAttempts] times; every
    attempt but the last failed in a way that may pass, the last one is what is
    reported, and short of the limit it stops only at a success, at a failure
    that will not pass, or when the run is cancelled; a wait is positive and at
    most 30 seconds, and there is at most one between two attempts. *)
Theorem probe_retries_bounded probe answers cancelled o calls waits :
  probeWithRetry probe answers cancelled = (o, calls, waits) ->
  let limit := probe_attempts (cd_Policy (hp_Candidate probe)) in
  (1 <= calls <= limit)%nat /\ o = answers (calls - 1)%nat /\
  (forall k, (k < calls - 1)%nat -> ob_Success (answers k) = false /\ retryableProbeError (ob_Error (answers k)) = true) /\
  ((calls < limit)%nat -> ob_Success o = true \/ retryableProbeError (ob_Error o) = false \/ cancelled (calls - 1)%nat = true) /\
  (length waits <= calls)%nat /\ Forall (fun w => 0 < w <= 30 * Second) waits.
Proof.
  unfold probeWithRetry. set (policy := cd_Policy (hp_Candidate probe)). set (limit := probe_attempts policy).
  assert (1 <= limit)%nat as Hlim by (unfold limit, probe_attempts; lia).
  assert (Hgen : forall remaining attempt last waits0,
    (1 <= remaining)%nat -> (length waits0 <= attempt)%nat -> Forall (fun w => 0 < w <= 30 * Second) waits0 ->
    probe_loop policy answers cancelled remaining attempt last waits0 = (o, calls, waits) ->
    (attempt < calls <= attempt + remaining)%nat /\ o = answers (calls - 1)%nat /\
    (forall k, (attempt <= k < calls - 1)%nat -> ob_Success (answers k) = false /\ retryableProbeError (ob_Error (answers k)) = true) /\
    ((calls < attempt + remaining)%nat -> ob_Success o = true \/ retryableProbeError (ob_Error o) = false \/ cancelled (calls - 1)%nat = true) /\
    (length waits <= calls)%nat /\ Forall (fun w => 0 < w <= 30 * Second) waits).
  { induction remaining as [|more IH]; intros attempt last waits0 Hr Hl Hw; [lia|]. cbn [probe_loop].
    destruct (ob_Success (answers attempt) || Nat.eqb more 0 || negb (retryableProbeError (ob_Error (answers attempt)))) eqn:E.
    { intros [= <- <- <-]. replace (S attempt - 1)%nat with attempt by lia. split_and!; [lia|lia|done|lia| |lia|done].
      intros Hlt. rewrite !orb_true_iff, negb_true_iff, Nat.eqb_eq in E. destruct E as [[E|E]|E]; [auto|lia|auto]. }
    apply orb_false_iff in E as [[E1 E2%Nat.eqb_neq]%orb_false_iff E3%negb_false_iff].
    assert (Hnext : forall waits1, (length waits1 <= S attempt)%nat -> Forall (fun w => 0 < w <= 30 * Second) waits1 ->
      probe_loop policy answers cancelled more (S attempt) (answers attempt) waits1 = (o, calls, waits) -> _)
      by (intros waits1 H1 H2 H3; exact (IH (S attempt) (answers attempt) waits1 ltac:(lia) H1 H2 H3)).
    assert (Hgoal : forall waits1, (length waits1 <= S attempt)%nat -> Forall (fun w => 0 < w <= 30 * Second) waits1 ->
      probe_loop policy answers cancelled more (S attempt) (answers attempt) waits1 = (o, calls, waits) ->
      (attempt < calls <= attempt + S more)%nat /\ o = answers (calls - 1)%nat /\
      (forall k, (attempt <= k < calls - 1)%nat -> ob_Success (answers k) = false /\ retryableProbeError (ob_Error (answers k)) = true) /\
      ((calls < attempt + S more)%nat -> ob_Success o = true \/ retryableProbeError (ob_Error o) = false \/ cancelled (calls - 1)%nat = true) /\
      (length waits <= calls)%nat /\ Forall (fun w => 0 < w <= 30 * Second) waits).
    { intros waits1 H1 H2 H3. destruct (Hnext waits1 H1 H2 H3) as (Ha & Hb & Hc & Hd & He & Hf).
      split_and!; [lia|lia|done| |intros; apply Hd; lia|done|done].
      intros k Hk. destruct (decide (k = attempt)) as [->|]; [done|apply Hc; lia]. }
    clear IH Hnext. destruct (Z.leb_spec (probe_delay (pp_Backoff policy) attempt) 0) as [|Hpos]; [apply Hgoal; [lia|done]|].
    assert (Forall (fun w => 0 < w <= 30 * Second) (waits0 ++ [probe_delay (pp_Backoff policy) attempt])) as Hw'.
    { apply Forall_app. split; [done|]. constructor; [|done]. split; [done|]. unfold probe_delay.
      destruct (Z.ltb_spec (30 * Second) (int64 (pp_Backoff policy * int64 (Z.shiftl 1 (Z.of_nat attempt))))); lia. }
    assert (length (waits0 ++ [probe_delay (pp_Backoff policy) attempt]) <= S attempt)%nat as Hl'
      by (rewrite length_app; cbn; lia).
    destruct (cancelled attempt) eqn:Ec; [|by apply Hgoal].
    intros [= <- <- <-]. replace (S attempt - 1)%nat with attempt by lia. split_and!; [lia|lia|done|lia|auto|lia|done]. }
  intros Hrun. destruct (Hgen limit 0%nat empty_observation [] Hlim) as (Ha & Hb & Hc & Hd & He & Hf); [cbn; lia|done|done|].
  split_and!; [lia|lia|done| |done|done|done]. intros k Hk. apply Hc. lia.
Qed.

(** ** Authority *)

(** The grant and the recent second factor a change needs. *)
Definition ops_authority (now : Time) (p : OpsPrincipal) (permission tenant : string) : Prop :=
  ValidID (op_ActorID p) = true /\ op_SessionID p <> "" /\
  (exists g, In g (op_Grants p) /\ og_Permission g = permission /\ (og_TenantID g = "" \/ og_TenantID g = tenant)) /\
  op_StepUpAt p <> 0 /\ now - 10 * Minute <= op_StepUpAt p <= now + 10 * Second.

Lemma ops_require_stepup now p permission tenant :
  ops_require now p permission tenant true = None -> ops_authority now p permission tenant.
Proof.
  unfold ops_require, ops_authority, authorize_ops, IsZeroTime, After, Before, AddTime.
  destruct (negb (ValidID (op_ActorID p)) || (op_SessionID p == "")) eqn:E; [done|]. bool_hyp.
  destruct (existsb _ _) eqn:Eg; [|done]. cbn [andb].
  destruct (_ || _) eqn:Es; [done|]. intros _. bool_hyp.
  apply existsb_exists in Eg as (g & Hg & Hp). apply andb_true_iff in Hp as [Hp Ht]. apply String.eqb_eq in Hp.
  split_and!; [done|done| |done|lia|lia]. exists g. split_and!; [done|done|].
  apply orb_true_iff in Ht as [Ht|Ht]; apply String.eqb_eq in Ht; auto.
Qed.

Section service_facts.
Context {R Binding Change HostedPolicy : Type} {repo : OpsRepository R Binding Change HostedPolicy}.

(** A call is refused without touching the repository, or it is the
    repository's and its caller had the authority. *)
Definition refused_or {A} (authority : Prop) (own call : R -> R * result ops_error A) : Prop :=
  forall r, (exists e, own r = (r, Err e)) \/ (authority /\ own r = call r).

Lemma guarded_refused {A} guard valid (call : R -> R * result ops_error A) (authority : Prop) :
  (guard = None -> authority) -> refused_or authority (guarded guard valid call) call.
Proof.
  intros Ha r. unfold guarded, refuse. destruct guard as [e|]; [left; by exists e|].
  destruct valid; [right; auto|left; by exists OpsErrInvalid].
Qed.

(** Every change of a provider needs its own permission on the tenant it is
    for, and a second factor of the last ten minutes; what lacks them, or is
    malformed, leaves the repository as it was. *)
Theorem provider_changes_authorized now p :
  (forall input idem, refused_or (ops_authority now p "provider_ops:request" (qc_TenantID input))
     (RequestChange now p input idem) (repo_RequestChange p input idem)) /\
  (forall scope id approve input idem, refused_or (ops_authority now p "provider_ops:approve" scope)
     (DecideChange now p scope id approve input idem) (repo_DecideChange p scope id approve input idem)) /\
  (forall input idem, refused_or (ops_authority now p "provider_ops:request" (qh_TenantID input))
     (RequestHostedPolicy now p input idem) (repo_RequestHostedPolicy p input idem)) /\
  (forall scope id approve input idem, refused_or (ops_authority now p "provider_ops:approve" scope)
     (DecideHostedPolicy now p scope id approve input idem) (repo_DecideHostedPolicy p scope id approve input idem)).
Proof. split_and!; intros; apply guarded_refused, ops_require_stepup. Qed.

(** ** A run of the worker *)

(** What binds an observation to the lease of its probe. *)
Definition lease_of_observation (o : ProbeObservation) : string * string * string * Z * Z :=
  (ob_BindingID o, ob_Operation o, ob_LeaseOwner o, ob_LeaseToken o, ob_FenceToken o).
Definition lease_of_probe (p : HealthProbe) : string * string * string * Z * Z :=
  (cd_BindingID (hp_Candidate p), pp_Operation (cd_Policy (hp_Candidate p)), hp_LeaseOwner p, hp_LeaseToken p, hp_FenceToken p).

Definition completions (log : list health_event) : list ProbeObservation :=
  omap (fun ev => match ev with CompleteProbeCall o => Some o | _ => None end) log.

Lemma adjudicate_one_lease now mine peers :
  lease_of_observation (adjudicate_one now mine peers) = lease_of_observation (snd mine).
Proof.
  unfold adjudicate_one. destruct (negb _); [done|]. destruct (_ == _); [by destruct (existsb _ _)|].
  destruct (_ != _); [done|]. destruct (ob_HeadHeight (snd mine)), (ob_HeadObservedAt (snd mine)); try done.
  destruct (fresh_head _ _ _); [|done]. destruct (peer_scan _ _ _ _ _) as [m []]; [|done]. cbn [negb].
  by destruct (_ <? _).
Qed.

Lemma select_map_leases now before l :
  map lease_of_observation (select_map (adjudicate_one now) before l) = map (fun e => lease_of_observation (snd e)) l.
Proof.
  revert before. induction l as [|x l IH]; intros before; cbn; [done|]. by rewrite adjudicate_one_lease, IH.
Qed.

Lemma complete_all_prefix observations r log r' log' res :
  complete_all observations r log = (r', log', res) ->
  exists n, (n <= length observations)%nat /\ completions log' = completions log ++ take n observations /\
    (res = None -> n = length observations) /\
    forall k o, (k < n)%nat -> observations !! k = Some o -> (S k < n)%nat \/ res = None -> observation_valid o = true.
Proof.
  revert r log. induction observations as [|o rest IH]; intros r log; cbn [complete_all].
  - intros [= <- <- <-]. exists 0%nat. split_and!; [cbn; lia|cbn; by rewrite app_nil_r|done|intros; lia].
  - set (log1 := log ++ _). assert (completions log1 = completions log ++ [o]) as Hlog
      by (unfold completions, log1; by rewrite omap_app).
    destruct (CompleteProbe o r) as [r1 [e|]] eqn:Ec.
    + intros [= <- <- <-]. exists 1%nat. split_and!; [cbn; lia|by rewrite Hlog; cbn; rewrite take_0|done|].
      intros k o' Hk _ [?|?]; [lia|done].
    + intros (n & Hn & Hl & Hall & Hv)%IH. exists (S n). cbn [length take].
      split_and!; [lia|by rewrite Hl, Hlog, <- app_assoc|intros Hres; by rewrite Hall|].
      intros [|k] o' Hk Ho Hcase; cbn in Ho; [|apply (Hv k o'); [lia|done|destruct Hcase; [left; lia|by right]]].
      injection Ho as <-. unfold CompleteProbe in Ec. by destruct (observation_valid o).
Qed.

(** A run that ends well has completed every probe it claimed, once and under
    the lease and fence it was claimed with; what a run completes before it fails
    is always a part of that. An observation the service finds invalid ends the
    run: it is not recorded and neither is any that was delivered after it. *)
Theorem health_run_leases w e r r' log res :
  (forall l, Permutation (he_order e l) l) -> health_RunOnce w e r = (r', log, res) -> completions log <> [] ->
  exists r0 probes rest, ClaimProbes (hw_Owner w) (hw_BatchSize w) r = (r0, Ok probes) /\
    Permutation (map lease_of_observation (completions log ++ rest)) (map lease_of_probe probes) /\
    (forall n, res = Ok n -> rest = [] /\ n = Z.of_nat (length probes) /\ Forall (fun o => observation_valid o = true) (completions log)) /\
    (forall before o, completions log = before ++ [o] -> Forall (fun o => observation_valid o = true) before).
Proof.
  intros Hord. unfold health_RunOnce. destruct (_ || _) eqn:E; [by intros [= _ <- _]|].
  destruct (ClaimProbes (hw_Owner w) (hw_BatchSize w) r) as [r0 [probes|err]] eqn:Ec; [|by intros [= _ <- _]].
  destruct (he_stopped e) as [err|]; [by intros [= _ <- _]|].
  set (completed := he_order e (map (run_probe e) probes)). rewrite Adjudicate_completed.
  assert (Permutation (map lease_of_observation (adjudicate_pairs (he_now e) completed)) (map lease_of_probe probes)) as Hperm.
  { rewrite adjudicate_select, select_map_leases. unfold completed. rewrite Hord, map_map. done. }
  set (observations := adjudicate_pairs (he_now e) completed) in *.
  assert (length observations = length probes) as Hlen by (apply Permutation_length in Hperm; by rewrite !length_map in Hperm).
  destruct (complete_all observations r0 []) as [[r1 log1] res1] eqn:Ea.
  intros Hrun Hne. assert (log1 = log /\ (forall n, res = Ok n -> res1 = None /\ n = Z.of_nat (length probes))) as [-> Hres].
  { destruct res1; injection Hrun as _ <- <-; (split; [done|]); intros n; [done|by intros [= <-]]. }
  apply complete_all_prefix in Ea as (n & Hn & Hl & Hall & Hv). cbn in Hl.
  exists r0, probes, (drop n observations). split; [done|]. rewrite Hl, take_drop. split; [done|]. split.
  - intros m Hm. destruct (Hres m Hm) as [-> ->]. rewrite Hall by done. rewrite drop_all. split_and!; [done|done|].
    rewrite firstn_all. apply Forall_lookup. intros k o Hk. apply (Hv k o); [|done|by right].
    apply lookup_lt_Some in Hk. rewrite Hall by done. done.
  - intros before o Hb. apply Forall_lookup. intros k o' Hk.
    assert ((before ++ [o]) !! k = Some o') as Hk' by (apply lookup_app_l_Some; done).
    pose proof (lookup_lt_Some _ _ _ Hk) as Hlt. assert (length (take n observations) = S (length before)) as Hlb
      by (rewrite Hb, length_app; cbn; lia). rewrite <- Hb in Hk'.
    apply lookup_take_Some in Hk' as [Hk' Hkn]. rewrite length_take in Hlb. apply (Hv k o'); [done|done|left; lia].
Qed.
End service_facts.

(** ** Witnesses *)

Definition ops_now : Time := UnixTime 1786449600.

Definition sample_policy (operation domain : string) (maxLag : Z) : ProviderPolicy :=
  mkProviderPolicy "b" "" operation (5 * Second) 3 (100 * Millisecond) 60 Minute Minute maxLag 3 Minute 2 10 domain 1.

Definition sample_circuit (state : CircuitState) (failures half : Z) : Circuit :=
  mkCircuit state failures half None "" 1 None (Some (ops_now - Second)) None 5 2.

Definition sample_candidate (id kind domain : string) : OpsCandidate :=
  mkOpsCandidate "0198a000-0000-7000-8000-000000000001" id kind "" "" "eip155:1" "" "" "" BindingActive
    (sample_policy OperationHead domain 2) (sample_circuit CircuitClosed 0 0).

Definition chain_probe (domain : string) : HealthProbe :=
  mkHealthProbe (sample_candidate "rpc/a" ProviderOnChain domain) "worker-1" 7 5.

Definition head_report (height : Z) : ProbeObservation :=
  mkProbeObservation "" "" "" "" 0 0 true ErrorNone Second None ops_now (Some height) (Some (ops_now - Second)).

Lemma adjudication_any_order_witness :
  let batch := [(chain_probe "az-a", head_report 100); (chain_probe "az-b", head_report 101); (chain_probe "az-c", head_report 90)] in
  let permuted := [(chain_probe "az-c", head_report 90); (chain_probe "az-a", head_report 100); (chain_probe "az-b", head_report 101)] in
  map ob_LagBlocks (AdjudicateObservations (map fst batch) (map snd batch) ops_now) = [Some 1; Some 0; None] /\
  Permutation (AdjudicateObservations (map fst batch) (map snd batch) ops_now)
    (AdjudicateObservations (map fst permuted) (map snd permuted) ops_now).
Proof.
  split; [vm_compute; reflexivity|]. apply adjudication_any_order.
  apply Permutation_sym. apply (Permutation_cons_append [_; _]).
Defined.

Definition two_probes : list HealthProbe := [chain_probe "az-a"; chain_probe "az-b"].
Definition two_heads (a b : Z) : list ProbeObservation := [head_report a; head_report b].

Lemma two_heads_typed a b : is_uint64 a -> is_uint64 b -> heights_typed (two_heads a b).
Proof. intros Ha Hb. constructor; [exact Ha|]. constructor; [exact Hb|]. constructor. Qed.

Lemma no_provider_certifies_itself_witness :
  exists out, AdjudicateObservations two_probes (two_heads 100 101) ops_now !! 0%nat = Some out /\ ob_Success out = true /\
  exists j peer, j <> 0%nat /\ reported two_probes (two_heads 100 101) j peer /\
    independent_peer (chain_probe "az-a", head_report 100) peer.
Proof.
  eexists. split; [vm_compute; reflexivity|]. split; [vm_compute; reflexivity|].
  destruct (no_provider_certifies_itself two_probes (two_heads 100 101) ops_now 0 (chain_probe "az-a", head_report 100)
    (with_lag (head_report 100) 1)) as (_ & j & peer & Hj & Hr & Hi & _).
  - reflexivity.
  - split; reflexivity.
  - apply two_heads_typed; unfold is_uint64, max_uint64; lia.
  - vm_compute; discriminate.
  - vm_compute; reflexivity.
  - vm_compute; reflexivity.
  - exists j, peer. exact (conj Hj (conj Hr Hi)).
Defined.

(** An invented head: the liar passes with lag 0, the honest provider fails. *)
Lemma highest_head_decides_witness :
  AdjudicateObservations two_probes (two_heads 999999 101) ops_now !! 0%nat = Some (with_lag (head_report 999999) 0) /\
  AdjudicateObservations two_probes (two_heads 999999 101) ops_now !! 1%nat =
    Some (markObservationFailure (head_report 101) ErrorStaleHead).
Proof.
  assert (Hw : chain_witness ops_now (chain_probe "az-b", head_report 101) (chain_probe "az-a", head_report 999999) 999999)
    by (apply chain_peer_iff; vm_compute; reflexivity).
  assert (Hw' : chain_witness ops_now (chain_probe "az-a", head_report 999999) (chain_probe "az-b", head_report 101) 101)
    by (apply chain_peer_iff; vm_compute; reflexivity).
  assert (Hr0 : reported two_probes (two_heads 999999 101) 0 (chain_probe "az-a", head_report 999999)) by (split; reflexivity).
  assert (Hr1 : reported two_probes (two_heads 999999 101) 1 (chain_probe "az-b", head_report 101)) by (split; reflexivity).
  destruct (highest_head_decides two_probes (two_heads 999999 101) ops_now 0 (chain_probe "az-a", head_report 999999) 999999
    (ops_now - Second)) as [H1 H2].
  - reflexivity.
  - exact Hr0.
  - apply two_heads_typed; unfold is_uint64, max_uint64; lia.
  - reflexivity.
  - reflexivity.
  - reflexivity.
  - reflexivity.
  - vm_compute; reflexivity.
  - vm_compute; discriminate.
  - intros [|[|k]] other g Hk [Hp Ho] (_ & _ & Hg & _); [destruct (Hk eq_refl)| |discriminate Hp].
    cbn in Ho. injection Ho as Ho. rewrite <- Ho in Hg. injection Hg as <-. lia.
  - split.
    + apply H1. exists 1%nat, (chain_probe "az-b", head_report 101), 101.
      exact (conj (Nat.neq_succ_0 0) (conj Hr1 Hw')).
    + apply (H2 1%nat (chain_probe "az-b", head_report 101) 101 (ops_now - Second));
        [lia|exact Hr1|reflexivity|reflexivity|reflexivity|reflexivity|vm_compute; reflexivity|exact Hw|vm_compute; reflexivity].
Defined.

Definition three_failures : list (bool * Time) := [(false, ops_now); (false, ops_now); (false, ops_now)].

Lemma breaker_opens_at_threshold_witness :
  let c := sample_circuit CircuitClosed 0 0 in
  ct_State (circuit_run (sample_policy "head" "az-a" 2) c three_failures) = CircuitOpen.
Proof.
  cbv zeta. apply (breaker_opens_at_threshold (sample_policy "head" "az-a" 2) (sample_circuit CircuitClosed 0 0) three_failures);
    [discriminate|vm_compute; discriminate..|split; [discriminate|vm_compute; intros H; destruct (H eq_refl)]
    |vm_compute; discriminate|vm_compute; discriminate].
Defined.

Lemma half_open_gate_witness :
  let c := sample_circuit CircuitHalfOpen 0 0 in
  ct_State (NextCircuit (circuit_run (sample_policy "head" "az-a" 2) c [(true, ops_now)]) (sample_policy "head" "az-a" 2) true ops_now)
    = CircuitClosed.
Proof.
  cbv zeta. exact (proj1 (proj2 (half_open_gate (sample_policy "head" "az-a" 2) (sample_circuit CircuitHalfOpen 0 0) [ops_now] ops_now
    eq_refl (Z.le_refl 0) ltac:(vm_compute; discriminate) ltac:(vm_compute; reflexivity)))).
Defined.

Definition sample_request : AdmissionRequest :=
  mkAdmissionRequest "" ProviderOnChain ["rpc/a"; "rpc/b"] OperationHead 2 ops_now.
Definition healthy_pair : list OpsCandidate :=
  [sample_candidate "rpc/b" ProviderOnChain "az-b"; sample_candidate "rpc/a" ProviderOnChain "az-a"].

Lemma admission_is_the_healthy_quorum_witness :
  map cd_ProviderID (sort_by failover_less healthy_pair) = ["rpc/a"; "rpc/b"] /\
  admit_candidates sample_request (rev healthy_pair) = Ok (mkAdmission (sort_by failover_less healthy_pair) 2).
Proof.
  split; [vm_compute; reflexivity|].
  apply (admission_is_the_healthy_quorum sample_request healthy_pair); [vm_compute; reflexivity|apply Permutation_rev|].
  apply (bool_decide_unpack (NoDup _)). vm_compute. exact I.
Defined.

Definition flaky (k : nat) : ProbeObservation :=
  if Nat.eqb k 0 then markObservationFailure (head_report 100) "timeout" else head_report 100.

Lemma probe_retries_bounded_witness :
  probeWithRetry (chain_probe "az-a") flaky (fun _ => false) = (head_report 100, 2%nat, [100 * Millisecond]) /\
  (1 <= 2 <= probe_attempts (cd_Policy (hp_Candidate (chain_probe "az-a"))))%nat.
Proof.
  split; [vm_compute; reflexivity|].
  exact (proj1 (probe_retries_bounded (chain_probe "az-a") flaky (fun _ => false) (head_report 100) 2%nat [100 * Millisecond]
    ltac:(vm_compute; reflexivity))).
Defined.

(** A repository that hands out two probes and records what is completed. *)
#[local] Instance recording_repository : OpsRepository (list ProbeObservation) unit unit unit := {
  repo_ListBindings _ _ _ r := (r, Ok tt); repo_GetBinding _ _ r := (r, Ok tt); repo_ListChanges _ _ _ r := (r, Ok tt);
  repo_ListHostedPolicies _ _ _ r := (r, Ok tt); repo_RequestChange _ _ _ r := (r, Ok tt);
  repo_DecideChange _ _ _ _ _ _ r := (r, Ok tt); repo_RequestHostedPolicy _ _ _ r := (r, Ok tt);
  repo_DecideHostedPolicy _ _ _ _ _ _ r := (r, Ok tt); repo_AdmissionCandidates _ r := (r, Ok healthy_pair);
  repo_ClaimProbes _ _ r := (r, Ok two_probes); repo_CompleteProbe o r := (r ++ [o], None) }.

(** The first prober took more than 30 seconds: its observation is invalid. *)
Definition slow_head : ProbeObservation :=
  mkProbeObservation "" "" "" "" 0 0 true ErrorNone (31 * Second) None ops_now (Some 100) (Some (ops_now - Second)).
Definition slow_env : health_env :=
  mkHealthEnv (fun p _ => if pp_FailureDomain (cd_Policy (hp_Candidate p)) == "az-a" then slow_head else head_report 101)
    (fun _ _ => false) None (fun l => l) (fun _ => ops_now) ops_now.
Definition slow_run : list ProbeObservation * list health_event * result ops_error Z :=
  health_RunOnce (mkHealthWorker "worker-1" 2 2) slow_env [].

(** The invalid observation was delivered first: nothing at all is recorded. *)
Lemma health_run_leases_witness :
  fst (fst slow_run) = [] /\ snd slow_run = Err OpsErrInvalid /\ length (completions (snd (fst slow_run))) = 1%nat /\
  exists r0 probes rest, ClaimProbes "worker-1" 2 ([] : list ProbeObservation) = (r0, Ok probes) /\
    Permutation (map lease_of_observation (completions (snd (fst slow_run)) ++ rest)) (map lease_of_probe probes).
Proof.
  split; [vm_compute; reflexivity|]. split; [vm_compute; reflexivity|]. split; [vm_compute; reflexivity|].
  destruct (health_run_leases (mkHealthWorker "worker-1" 2 2) slow_env [] (fst (fst slow_run)) (snd (fst slow_run)) (snd slow_run))
    as (r0 & probes & rest & Hc & Hp & _).
  - reflexivity.
  - vm_compute; reflexivity.
  - vm_compute; discriminate.
  - exists r0, probes, rest. exact (conj Hc Hp).
Defined.
