(* ===== verification/Chains.v ===== *)
(** * Chains: internal/chains (common.go, evm.go, solana.go, ton.go, tron.go, aptos.go)

    The normalizers that turn what a node reports of one transaction into
    transfer events: one adapter per chain family over a common core that
    refuses incomplete facts and derives the identifier of an event from its
    public identity alone. The address display of ton.go is in Encoding.v. *)

From Stdlib Require Import ZArith Lia Ascii String.
From stdpp Require Import base list strings.
From S2P Require Import Prelude Text Money Domain Encoding.

(** ** common.go *)

Record Fact := mkFact {
  ft_TransactionID : string; ft_EventIndex : string; ft_Kind : string; ft_AssetID : string; ft_From : string;
  ft_To : string; ft_Amount : string; ft_Decimals : Z; ft_BlockHeight : Z; ft_BlockHash : string; ft_BlockTime : Time;
  ft_Status : TransferStatus; ft_Evidence : string; ft_Confirmations : Z }.

(** [strings.ToLower] on ASCII; the code applies it to text it then requires to
    be hexadecimal, where no other rune can survive. *)
Definition lower_byte (c : ascii) : ascii :=
  if (65 <=? code c) && (code c <=? 90) then chr (code c + 32) else c.
Fixpoint lower_ascii (s : string) : string :=
  match s with EmptyString => "" | String c r => String (lower_byte c) (lower_ascii r) end.

Definition hex_char (c : ascii) : bool :=
  ((48 <=? code c) && (code c <=? 57)) || ((97 <=? code c) && (code c <=? 102)) || ((65 <=? code c) && (code c <=? 70)).

(** The prefix "0x" or "0X", and the text after it. *)
Definition cut_hex_prefix (value : string) : option string :=
  if HasPrefix value "0x" || HasPrefix value "0X" then Some (str_drop 2 value) else None.

Definition canonicalHexIdentifier (value : string) : string :=
  let value := TrimSpace value in
  let '(prefix, payload) := match cut_hex_prefix value with Some rest => ("0x", rest) | None => ("", value) end in
  if payload == "" then value
  else if str_forall hex_char payload then prefix +:+ lower_ascii payload else value.

Definition finality (finalized : bool) : TransferStatus := if finalized then TransferFinalized else TransferObserved.

(** [time.Truncate(time.Microsecond)] *)
Definition truncate_micro (t : Time) : Time := t - t mod 1000.

Definition event_id_domain : string := "merchant-platform/transfer-event/v1" +:+ String (chr 0) "".

(** The version and variant bits written over bytes 6 and 8 of a digest. *)
Definition uuid_v8 (b : list ascii) : list ascii :=
  take 6 b ++ [chr (Z.lor (Z.land (code (nth 6 b (chr 0))) 15) 128)] ++ take 1 (drop 7 b)
  ++ [chr (Z.lor (Z.land (code (nth 8 b (chr 0))) 63) 128)] ++ take 7 (drop 9 b).

Section normalizers.
(** [sha256.Sum256] *)
Context (sha256 : string -> string).
(** An [EventFactory], when one is given: its answer to the n-th call. *)
Context (factory : option (nat -> result string string)).

Definition canonicalEventID (identity : EventIdentity) : result string string :=
  match IdentityKey sha256 identity with
  | Err _ => Err "all transfer identity fields are required"
  | Ok key => Ok (uuid_text (uuid_v8 (list_ascii_of_string (sha256 (event_id_domain +:+ key)))))
  end.

(** Each field without the space around it. *)
Definition trim_fact (f : Fact) : Fact :=
  mkFact (TrimSpace (ft_TransactionID f)) (TrimSpace (ft_EventIndex f)) (TrimSpace (ft_Kind f)) (TrimSpace (ft_AssetID f))
    (TrimSpace (ft_From f)) (TrimSpace (ft_To f)) (ft_Amount f) (ft_Decimals f) (ft_BlockHeight f)
    (TrimSpace (ft_BlockHash f)) (ft_BlockTime f) (ft_Status f) (ft_Evidence f) (ft_Confirmations f).

Definition fact_incomplete (chainID parser : string) (f : Fact) : bool :=
  (chainID == "") || (parser == "") || (ft_TransactionID f == "") || (ft_EventIndex f == "") || (ft_Kind f == "")
  || (ft_AssetID f == "") || (ft_To f == "") || (ft_BlockHash f == "") || IsZeroTime (ft_BlockTime f).

Definition fact_identity (chainID : string) (f : Fact) : EventIdentity :=
  mkIdentity chainID (ft_TransactionID f) (ft_EventIndex f) (ft_AssetID f) (ft_To f).

(** [n] facts were normalized before this one. *)
Definition normalize (chainID parser : string) (n : nat) (f : Fact) : result string TransferEvent :=
  let chainID := TrimSpace chainID in
  let parser := TrimSpace parser in
  let f := trim_fact f in
  match Parse (ft_Amount f) with
  | Err _ => Err "invalid transfer amount"
  | Ok amount =>
      if IsZero amount then Err "invalid transfer amount"
      else if fact_incomplete chainID parser f then Err "incomplete chain fact"
      else
        let identity := fact_identity chainID f in
        let id := match factory with Some NewID => NewID n | None => canonicalEventID identity end in
        match id with
        | Err e => Err e
        | Ok id =>
            Ok (mkTransferEvent id identity (ft_Kind f) (ft_From f) amount (ft_Decimals f) (ft_BlockHeight f)
                  (ft_BlockHash f) (truncate_micro (ft_BlockTime f)) (ft_Confirmations f) (ft_Status f) parser
                  (hex_encode (sha256 (ft_Evidence f))) "")
        end
  end.

Fixpoint normalize_from (chainID parser : string) (n : nat) (facts : list Fact) : result string (list TransferEvent) :=
  match facts with
  | [] => Ok []
  | fact :: rest =>
      event ← normalize chainID parser n fact;
      events ← normalize_from chainID parser (S n) rest;
      Ok (event :: events)
  end.

Definition normalizeFacts (chainID parser : string) (facts : list Fact) : result string (list TransferEvent) :=
  normalize_from chainID parser 0 facts.

(** ** evm.go *)

Record EVMNative := mkEVMNative { en_From : string; en_To : string; en_Amount : string; en_AssetID : string; en_Decimals : Z }.
Record EVMLog := mkEVMLog {
  el_Index : Z; el_From : string; el_To : string; el_Amount : string; el_AssetID : string; el_Decimals : Z;
  el_Transfer : bool }.
Record EVMTrace := mkEVMTrace {
  et_TraceAddress : list Z; et_From : string; et_To : string; et_Amount : string; et_AssetID : string; et_Decimals : Z;
  et_Success : bool }.
Record EVMReceipt := mkEVMReceipt {
  er_TransactionID : string; er_BlockHeight : Z; er_BlockHash : string; er_BlockTime : Time; er_Success : bool;
  er_Finalized : bool; er_Confirmations : Z; er_Native : option EVMNative; er_Logs : list EVMLog;
  er_Traces : list EVMTrace; er_RawEvidence : string }.

(** [canonicalEVMHex] is [canonicalHexIdentifier]. *)
Definition canonicalEVMHex (value : string) : string := canonicalHexIdentifier value.

Definition evm_fact (v : EVMReceipt) (index kind asset from to amount : string) (decimals : Z) : Fact :=
  mkFact (canonicalEVMHex (er_TransactionID v)) index kind asset (canonicalEVMHex from) (canonicalEVMHex to) amount decimals
    (er_BlockHeight v) (canonicalEVMHex (er_BlockHash v)) (er_BlockTime v) (finality (er_Finalized v)) (er_RawEvidence v)
    (er_Confirmations v).

Definition trace_index (path : list Z) : string := "trace:" +:+ Join (map dec_string path) ",".

Definition evm_facts (v : EVMReceipt) : list Fact :=
  match er_Native v with
  | Some n =>
      if en_Amount n != "0"
      then [evm_fact v "native:0" "native_top_level" (en_AssetID n) (en_From n) (en_To n) (en_Amount n) (en_Decimals n)]
      else []
  | None => []
  end
  ++ map (fun x => evm_fact v ("log:" +:+ dec_string (el_Index x)) "token_transfer" (el_AssetID x) (el_From x) (el_To x)
                     (el_Amount x) (el_Decimals x)) (List.filter el_Transfer (er_Logs v))
  ++ map (fun x => evm_fact v (trace_index (et_TraceAddress x)) "native_internal" (et_AssetID x) (et_From x) (et_To x)
                     (et_Amount x) (et_Decimals x))
       (List.filter (fun x => et_Success x && (et_Amount x != "0")) (er_Traces v)).

(** [source] is the answer of the adapter's source for [tx]. *)
Definition EVM_Normalize (chainID : string) (source : result string EVMReceipt) (tx : string)
    : result string (list TransferEvent) :=
  v ← source;
  if canonicalEVMHex (er_TransactionID v) != canonicalEVMHex tx then Err "EVM provider returned a different transaction"
  else if negb (er_Success v) then Ok []
  else normalizeFacts chainID "evm-v1" (evm_facts v).

(** ** solana.go *)

Record SolanaTransfer := mkSolanaTransfer {
  st_OuterIndex : Z; st_InnerIndex : option Z; st_Program : string; st_From : string; st_To : string; st_AssetID : string;
  st_Amount : string; st_Decimals : Z; st_Native : bool }.
Record SolanaTransaction := mkSolanaTransaction {
  sn_Signature : string; sn_Slot : Z; sn_BlockHash : string; sn_BlockTime : Time; sn_Success : bool; sn_Finalized : bool;
  sn_Confirmations : Z; sn_Transfers : list SolanaTransfer; sn_RawEvidence : string }.

Definition solana_index (x : SolanaTransfer) : string :=
  match st_InnerIndex x with
  | Some inner => "instruction:" +:+ dec_string (st_OuterIndex x) +:+ "/inner:" +:+ dec_string inner
  | None => "instruction:" +:+ dec_string (st_OuterIndex x)
  end.

Definition solana_kind (x : SolanaTransfer) : string :=
  if st_Native x then "native_top_level"
  else if st_Program x == "spl-token-2022" then "token2022_transfer" else "spl_transfer".

Definition solana_facts (v : SolanaTransaction) : list Fact :=
  map (fun x => mkFact (sn_Signature v) (solana_index x) (solana_kind x) (st_AssetID x) (st_From x) (st_To x) (st_Amount x)
                  (st_Decimals x) (sn_Slot v) (sn_BlockHash v) (sn_BlockTime v) (finality (sn_Finalized v)) (sn_RawEvidence v)
                  (sn_Confirmations v)) (sn_Transfers v).

Definition Solana_Normalize (chainID : string) (source : result string SolanaTransaction) (signature : string)
    : result string (list TransferEvent) :=
  v ← source;
  if TrimSpace (sn_Signature v) != TrimSpace signature then Err "Solana provider returned a different transaction"
  else if negb (sn_Success v) then Ok []
  else normalizeFacts chainID "solana-v1" (solana_facts v).

(** ** ton.go *)

Record TONMessage := mkTONMessage {
  tm_Index : Z; tm_From : string; tm_To : string; tm_AssetID : string; tm_Amount : string; tm_Decimals : Z;
  tm_Jetton : bool; tm_QueryID : string }.
Record TONTransaction := mkTONTransaction {
  tn_Hash : string; tn_LT : Z; tn_BlockHash : string; tn_BlockTime : Time; tn_Success : bool; tn_Finalized : bool;
  tn_Confirmations : Z; tn_Messages : list TONMessage; tn_RawEvidence : string }.

Definition ton_facts (v : TONTransaction) : list Fact :=
  map (fun x => mkFact (tn_Hash v) ("message:" +:+ dec_string (tm_Index x))
                  (if tm_Jetton x then "jetton_transfer" else "native_message") (tm_AssetID x) (tm_From x) (tm_To x)
                  (tm_Amount x) (tm_Decimals x) (tn_LT v) (tn_BlockHash v) (tn_BlockTime v) (finality (tn_Finalized v))
                  (tn_RawEvidence v +:+ tm_QueryID x) (tn_Confirmations v)) (tn_Messages v).

Definition TON_Normalize (chainID : string) (source : result string TONTransaction) (hash : string)
    : result string (list TransferEvent) :=
  v ← source;
  if TrimSpace (tn_Hash v) != TrimSpace hash then Err "TON provider returned a different transaction"
  else if negb (tn_Success v) then Ok []
  else normalizeFacts chainID "ton-v1" (ton_facts v).

(** ** tron.go *)

Record TRONTransfer := mkTRONTransfer {
  tt_Index : Z; tt_From : string; tt_To : string; tt_AssetID : string; tt_ReceivedAmount : string; tt_Decimals : Z;
  tt_Mechanism : string; tt_FeeDeductedAmount : string; tt_FeeCollector : string }.
Record TRONTransaction := mkTRONTransaction {
  tr_TransactionID : string; tr_BlockHeight : Z; tr_BlockHash : string; tr_BlockTime : Time; tr_Success : bool;
  tr_Finalized : bool; tr_Confirmations : Z; tr_Transfers : list TRONTransfer; tr_RawEvidence : string }.

Definition tron_fact (v : TRONTransaction) (index kind : string) (x : TRONTransfer) (to amount : string) : Fact :=
  mkFact (canonicalHexIdentifier (tr_TransactionID v)) index kind (tt_AssetID x) (tt_From x) to amount (tt_Decimals x)
    (tr_BlockHeight v) (canonicalHexIdentifier (tr_BlockHash v)) (tr_BlockTime v) (finality (tr_Finalized v))
    (tr_RawEvidence v) (tr_Confirmations v).

Definition tron_transfer_facts (v : TRONTransaction) (x : TRONTransfer) : list Fact :=
  tron_fact v ("transfer:" +:+ dec_string (tt_Index x))
    (if (tt_Mechanism x == "permit") || (tt_Mechanism x == "gasfree") then "gasfree_permit_transfer" else "token_transfer")
    x (tt_To x) (tt_ReceivedAmount x)
  :: if (tt_FeeDeductedAmount x != "") && (tt_FeeDeductedAmount x != "0")
     then [tron_fact v ("gasfree-fee:" +:+ dec_string (tt_Index x)) "gasfree_fee" x (tt_FeeCollector x) (tt_FeeDeductedAmount x)]
     else [].

Definition tron_facts (v : TRONTransaction) : list Fact := concat (map (tron_transfer_facts v) (tr_Transfers v)).

Definition TRON_Normalize (chainID : string) (source : result string TRONTransaction) (tx : string)
    : result string (list TransferEvent) :=
  v ← source;
  if canonicalHexIdentifier (tr_TransactionID v) != canonicalHexIdentifier tx
  then Err "TRON provider returned a different transaction"
  else if negb (tr_Success v) then Ok []
  else normalizeFacts chainID "tron-v1" (tron_facts v).

(** ** aptos.go *)

Record AptosTransfer := mkAptosTransfer {
  at_EventIndex : Z; at_From : string; at_To : string; at_AssetID : string; at_Amount : string; at_Decimals : Z;
  at_FungibleAsset : bool }.
Record AptosTransaction := mkAptosTransaction {
  ap_Hash : string; ap_Version : Z; ap_BlockHash : string; ap_BlockTime : Time; ap_Success : bool; ap_Finalized : bool;
  ap_Confirmations : Z; ap_Transfers : list AptosTransfer; ap_RawEvidence : string }.

Definition aptos_facts (v : AptosTransaction) : list Fact :=
  map (fun x => mkFact (canonicalHexIdentifier (ap_Hash v)) ("event:" +:+ dec_string (at_EventIndex x))
                  (if at_FungibleAsset x then "aptos_fungible_asset_transfer" else "aptos_native_transfer") (at_AssetID x)
                  (canonicalHexIdentifier (at_From x)) (canonicalHexIdentifier (at_To x)) (at_Amount x) (at_Decimals x)
                  (ap_Version v) (canonicalHexIdentifier (ap_BlockHash v)) (ap_BlockTime v) (finality (ap_Finalized v))
                  (ap_RawEvidence v) (ap_Confirmations v)) (ap_Transfers v).

Definition Aptos_Normalize (chainID : string) (source : result string AptosTransaction) (hash : string)
    : result string (list TransferEvent) :=
  v ← source;
  if canonicalHexIdentifier (ap_Hash v) != canonicalHexIdentifier hash
  then Err "Aptos provider returned a different transaction"
  else if negb (ap_Success v) then Ok []
  else normalizeFacts chainID "aptos-v1" (aptos_facts v).
End normalizers.
