(* ===== verification/ChainsFacts.v ===== *)
(** * ChainsFacts: what the chain normalizers guarantee

    Hexadecimal identifiers have one spelling; an event carries the requested
    transaction, a positive amount and an identifier that depends on nothing
    but its identity; and the events of a transaction have different identities
    when the node numbers what happened in it. *)

From Stdlib Require Import ZArith Lia Ascii String Permutation.
From stdpp Require Import base list strings.
From S2P Require Import Prelude Text Money Domain Encoding Chains.

(** ** Hexadecimal identifiers *)

Lemma lower_byte_hex c : hex_char c = true ->
  hex_char (lower_byte c) = true /\ plain_byte (lower_byte c) = true /\ lower_byte (lower_byte c) = lower_byte c /\
  lower_byte c <> "x"%char /\ lower_byte c <> "X"%char.
Proof. destruct c as [[] [] [] [] [] [] [] []]; cbv; intros; try discriminate; by split_and!. Qed.

Lemma hex_char_plain c : hex_char c = true -> plain_byte c = true.
Proof. unfold hex_char, plain_byte. intros H. lia. Qed.

Lemma lower_ascii_hex s : str_forall hex_char s = true ->
  str_forall hex_char (lower_ascii s) = true /\ lower_ascii (lower_ascii s) = lower_ascii s.
Proof.
  induction s as [|c s IH]; [done|]. cbn [str_forall lower_ascii]. intros [Hc Hs]%andb_true_iff.
  destruct (lower_byte_hex c Hc) as (H1 & _ & H2 & _). destruct (IH Hs) as [H3 H4]. by rewrite H1, H2, H3, H4.
Qed.

Lemma lower_ascii_empty s : (lower_ascii s == "") = (s == "").
Proof. by destruct s. Qed.

Lemma hex_plain s : str_forall hex_char s = true -> str_forall plain_byte s = true.
Proof. apply str_forall_impl, hex_char_plain. Qed.

(** The identifiers of which [canonicalHexIdentifier] may change the letters. *)
Definition hex_spelling (prefix payload : string) : Prop :=
  (prefix = "" \/ prefix = "0x" \/ prefix = "0X") /\ payload <> "" /\ str_forall hex_char payload = true.

Lemma hex_no_prefix payload : str_forall hex_char payload = true -> cut_hex_prefix payload = None.
Proof.
  unfold cut_hex_prefix. destruct payload as [|a [|b r]]; cbn; [done|by destruct (Ascii.eqb a "0")|].
  intros (_ & [Hb _]%andb_true_iff)%andb_true_iff.
  destruct (Ascii.eqb_spec b "x") as [->|]; [done|]. destruct (Ascii.eqb_spec b "X") as [->|]; [done|].
  by destruct (Ascii.eqb a "0").
Qed.

Lemma cut_prefixed prefix payload :
  prefix = "0x" \/ prefix = "0X" -> cut_hex_prefix (prefix +:+ payload) = Some payload.
Proof. by intros [-> | ->]; destruct payload. Qed.

Lemma canonical_hex prefix payload : hex_spelling prefix payload ->
  canonicalHexIdentifier (prefix +:+ payload) = (if prefix == "" then "" else "0x") +:+ lower_ascii payload.
Proof.
  intros (Hp & Hne & Hhex). unfold canonicalHexIdentifier.
  assert (str_forall plain_byte (prefix +:+ payload) = true) as Hplain.
  { rewrite str_forall_app, (hex_plain payload Hhex), andb_true_r. by destruct Hp as [->|[->| ->]]. }
  rewrite (TrimSpace_plain _ Hplain). apply String.eqb_neq in Hne.
  destruct Hp as [->|[->| ->]].
  - change ("" +:+ payload) with payload. rewrite hex_no_prefix by done. cbv beta iota zeta. by rewrite Hne, Hhex.
  - rewrite (cut_prefixed "0x") by auto. cbv beta iota zeta. by rewrite Hne, Hhex.
  - rewrite (cut_prefixed "0X") by auto. cbv beta iota zeta. by rewrite Hne, Hhex.
Qed.

Lemma canonical_hex_trimmed v : TrimSpace (canonicalHexIdentifier v) = canonicalHexIdentifier v.
Proof.
  unfold canonicalHexIdentifier. set (t := TrimSpace v).
  destruct (match cut_hex_prefix t with Some rest => ("0x", rest) | None => ("", t) end) as [prefix payload] eqn:E.
  assert (prefix = "" \/ prefix = "0x") as Hp by (destruct (cut_hex_prefix t); injection E as <- <-; auto).
  destruct (payload == ""); [apply TrimSpace_idem|]. destruct (str_forall hex_char payload) eqn:Eh; [|apply TrimSpace_idem].
  apply TrimSpace_plain. rewrite str_forall_app, (hex_plain _ (proj1 (lower_ascii_hex _ Eh))), andb_true_r.
  by destruct Hp as [->| ->].
Qed.

(** Two spellings of a hexadecimal identifier are one canonical identifier
    exactly when they have the same digits up to case and both or neither carry
    the prefix; the canonical identifier is its own canonical form. *)
Theorem canonicalHexIdentifier_case prefix1 payload1 prefix2 payload2 :
  hex_spelling prefix1 payload1 -> hex_spelling prefix2 payload2 ->
  (canonicalHexIdentifier (prefix1 +:+ payload1) = canonicalHexIdentifier (prefix2 +:+ payload2) <->
   lower_ascii payload1 = lower_ascii payload2 /\ (prefix1 = "" <-> prefix2 = "")) /\
  canonicalHexIdentifier (canonicalHexIdentifier (prefix1 +:+ payload1)) = canonicalHexIdentifier (prefix1 +:+ payload1).
Proof.
  intros H1 H2. rewrite !canonical_hex by done. pose proof H1 as (P1 & N1 & X1). pose proof H2 as (P2 & N2 & X2).
  destruct (lower_ascii_hex _ X1) as [L1 I1]. destruct (lower_ascii_hex _ X2) as [L2 I2]. split.
  - assert (forall p q, str_forall hex_char p = true -> p <> "0x" +:+ q) as Hx.
    { intros p q Hp ->. cbn in Hp. done. }
    destruct P1 as [->|[->| ->]], P2 as [->|[->| ->]]; cbn [String.append String.eqb];
      (split; [intros H|intros [-> H]]); try (split; [|by split]); try done;
      try (exfalso; exact (Hx _ _ L1 H)); try (exfalso; exact (Hx _ _ L2 (eq_sym H)));
      try (by injection H as ->); try (destruct H as [H H']; discriminate (H eq_refl)); try (discriminate (proj2 H eq_refl)).
  - assert (lower_ascii payload1 <> "") as Hn by (intros E; apply N1; by destruct payload1).
    pose proof (canonical_hex "" (lower_ascii payload1)) as E0. pose proof (canonical_hex "0x" (lower_ascii payload1)) as E1.
    unfold hex_spelling in E0, E1. cbn in E0, E1. rewrite I1 in E0, E1.
    destruct P1 as [->|[->| ->]]; cbn; [apply E0|apply E1|apply E1]; auto.
Qed.

Lemma canonicalHexIdentifier_case_witness :
  hex_spelling "0x" "aBcD01" /\ hex_spelling "0X" "ABCD01" /\
  canonicalHexIdentifier ("0x" +:+ "aBcD01") = canonicalHexIdentifier ("0X" +:+ "ABCD01").
Proof.
  assert (hex_spelling "0x" "aBcD01") as H1 by (split; [auto|split; [discriminate|reflexivity]]).
  assert (hex_spelling "0X" "ABCD01") as H2 by (split; [auto|split; [discriminate|reflexivity]]).
  split; [exact H1|]. split; [exact H2|].
  apply (proj2 (proj1 (canonicalHexIdentifier_case "0x" "aBcD01" "0X" "ABCD01" H1 H2))).
  split; [reflexivity|split; discriminate].
Defined.

(** ** Normalized events *)

Lemma version_nibble_8 c : hex_digit (code (chr (Z.lor (Z.land (code c) 15) 128)) / 16) = "8"%char.
Proof. by destruct c as [[] [] [] [] [] [] [] []]. Qed.

Section facts.
Context (sha256 : string -> string).

Lemma canonicalEventID_valid identity id :
  String.length (sha256 (event_id_domain +:+ hex_encode (sha256 (identity_payload identity)))) = 32%nat ->
  canonicalEventID sha256 identity = Ok id -> ValidID id = true.
Proof.
  intros Hlen. unfold canonicalEventID, IdentityKey. destruct (ValidateIdentity identity); [|done]. cbn. intros [= <-].
  set (digest := sha256 _) in *.
  assert (length (list_ascii_of_string digest) = 32%nat) as Hl.
  { rewrite <- Hlen. clear. generalize digest. intros s. induction s; simpl; congruence. }
  revert Hl. generalize (list_ascii_of_string digest). intros l Hl.
  do 17 (destruct l as [|? l]; [discriminate Hl|]). unfold uuid_v8. cbn [take drop nth app].
  apply uuid_text_valid; [rewrite version_nibble_8; vm_compute; split; discriminate|apply variant_nibble].
Qed.

(** What a normalized event says of its fact. *)
Record event_of_fact (chainID : string) (f : Fact) (e : TransferEvent) : Prop := mk_event_of_fact {
  ef_identity : te_Identity e = fact_identity (TrimSpace chainID) (trim_fact f);
  ef_complete : ValidateIdentity (te_Identity e) = Ok tt;
  ef_amount : Parse (ft_Amount f) = Ok (te_Amount e) /\ 0 < te_Amount e < amount_limit;
  ef_block : te_BlockHeight e = ft_BlockHeight f /\ te_BlockHash e = TrimSpace (ft_BlockHash f) /\ te_BlockHash e <> "";
  ef_time : te_OnChainTime e = truncate_micro (ft_BlockTime f);
  ef_status : te_Status e = ft_Status f /\ te_Confirmations e = ft_Confirmations f;
  ef_rest : te_Kind e = TrimSpace (ft_Kind f) /\ te_FromAddress e = TrimSpace (ft_From f) /\
            te_AssetDecimals e = ft_Decimals f /\ te_EvidenceHash e = hex_encode (sha256 (ft_Evidence f)) }.

Lemma Parse_range s a : Parse s = Ok a -> 0 <= a < amount_limit.
Proof. by intros [_ [_ ?]]%Parse_canonical. Qed.

Lemma normalize_sound factory chainID parser n f e :
  normalize sha256 factory chainID parser n f = Ok e ->
  event_of_fact chainID f e /\
  (factory = None -> canonicalEventID sha256 (te_Identity e) = Ok (te_ID e)).
Proof.
  unfold normalize. cbv zeta. change (ft_Amount (trim_fact f)) with (ft_Amount f).
  destruct (Parse (ft_Amount f)) as [a|] eqn:Ea; [|done]. destruct (IsZero a) eqn:Ez; [done|].
  destruct (fact_incomplete _ _ _) eqn:Ei; [done|]. unfold fact_incomplete in Ei. bool_hyp.
  destruct (match factory with Some NewID => NewID n | None => _ end) as [id|] eqn:Eid; [|done]. intros [= <-].
  apply Parse_range in Ea as Hr. apply IsZero_false in Ez. split.
  - constructor; cbn; try done.
    + unfold ValidateIdentity, fact_identity. cbn [ei_ChainID ei_TransactionID ei_EventIndex ei_AssetID ei_ToAddress].
      repeat match goal with H : ?x <> "" |- context [?x == ""] => rewrite (proj2 (String.eqb_neq _ _) H) end. done.
    + split; [done|lia].
  - intros ->. done.
Qed.

Lemma normalizeFacts_sound factory chainID parser facts events :
  normalizeFacts sha256 factory chainID parser facts = Ok events ->
  Forall2 (event_of_fact chainID) facts events /\
  (factory = None -> Forall (fun e => canonicalEventID sha256 (te_Identity e) = Ok (te_ID e)) events).
Proof.
  unfold normalizeFacts. generalize 0%nat. revert events. induction facts as [|f facts IH]; intros events n; cbn [normalize_from].
  - intros [= <-]. by split.
  - destruct (normalize sha256 factory chainID parser n f) as [e|] eqn:E; [|done]. cbn.
    destruct (normalize_from _ _ _ _ _ _) as [es|] eqn:Er; [|done]. cbn. intros [= <-].
    apply normalize_sound in E as [H1 H2]. apply IH in Er as [H3 H4]. split; [by constructor|]. intros Hf. constructor; auto.
Qed.
End facts.

(** ** The adapters share one shape *)

(** What the adapters read of a report of one transaction. *)
Class ChainReport (T : Type) := {
  rp_id : T -> string;
  rp_success : T -> bool;
  rp_facts : T -> list Fact;
  rp_spelling : string -> string;
  rp_parser : string;
  rp_refusal : string }.

Definition adapter_normalize {T} {R : ChainReport T} (sha256 : string -> string)
    (factory : option (nat -> result string string)) (chainID : string) (source : result string T) (tx : string)
    : result string (list TransferEvent) :=
  v ← source;
  if rp_spelling (rp_id v) != rp_spelling tx then Err rp_refusal
  else if negb (rp_success v) then Ok []
  else normalizeFacts sha256 factory chainID rp_parser (rp_facts v).

#[export] Instance evm_report : ChainReport EVMReceipt := {
  rp_id := er_TransactionID; rp_success := er_Success; rp_facts := evm_facts; rp_spelling := canonicalEVMHex;
  rp_parser := "evm-v1"; rp_refusal := "EVM provider returned a different transaction" }.
#[export] Instance solana_report : ChainReport SolanaTransaction := {
  rp_id := sn_Signature; rp_success := sn_Success; rp_facts := solana_facts; rp_spelling := TrimSpace;
  rp_parser := "solana-v1"; rp_refusal := "Solana provider returned a different transaction" }.
#[export] Instance ton_report : ChainReport TONTransaction := {
  rp_id := tn_Hash; rp_success := tn_Success; rp_facts := ton_facts; rp_spelling := TrimSpace;
  rp_parser := "ton-v1"; rp_refusal := "TON provider returned a different transaction" }.
#[export] Instance tron_report : ChainReport TRONTransaction := {
  rp_id := tr_TransactionID; rp_success := tr_Success; rp_facts := tron_facts; rp_spelling := canonicalHexIdentifier;
  rp_parser := "tron-v1"; rp_refusal := "TRON provider returned a different transaction" }.
#[export] Instance aptos_report : ChainReport AptosTransaction := {
  rp_id := ap_Hash; rp_success := ap_Success; rp_facts := aptos_facts; rp_spelling := canonicalHexIdentifier;
  rp_parser := "aptos-v1"; rp_refusal := "Aptos provider returned a different transaction" }.

Lemma adapters_normalize sha256 factory chainID tx :
  (forall source, EVM_Normalize sha256 factory chainID source tx = adapter_normalize sha256 factory chainID source tx) /\
  (forall source, Solana_Normalize sha256 factory chainID source tx = adapter_normalize sha256 factory chainID source tx) /\
  (forall source, TON_Normalize sha256 factory chainID source tx = adapter_normalize sha256 factory chainID source tx) /\
  (forall source, TRON_Normalize sha256 factory chainID source tx = adapter_normalize sha256 factory chainID source tx) /\
  (forall source, Aptos_Normalize sha256 factory chainID source tx = adapter_normalize sha256 factory chainID source tx).
Proof. split_and!; reflexivity. Qed.

(** The laws of a report whose indices are in range: a fact carries the canonical
    transaction, which a trim leaves alone, and a printable index; the indices
    are distinct when the node numbered what happened. *)
Class LawfulReport T {R : ChainReport T} := {
  rp_typed : T -> Prop;
  rp_numbered : T -> Prop;
  rp_spelled x : TrimSpace (rp_spelling x) = rp_spelling x;
  rp_facts_id v : Forall (fun f => TrimSpace (ft_TransactionID f) = rp_spelling (rp_id v)) (rp_facts v);
  rp_facts_index v : rp_typed v -> Forall (fun f => str_forall plain_byte (ft_EventIndex f) = true) (rp_facts v);
  rp_facts_distinct v : rp_typed v -> rp_numbered v -> NoDup (map ft_EventIndex (rp_facts v)) }.

Lemma dec_plain n : 0 <= n -> str_forall plain_byte (dec_string n) = true.
Proof. intros Hn. eapply str_forall_impl; [apply digit_plain|]. by apply canonical_digits, dec_string_canonical. Qed.

Lemma NoDup_map_inj_on {A B C} (f : A -> B) (g : A -> C) (l : list A) :
  (forall x y, In x l -> In y l -> f x = f y -> g x = g y) -> NoDup (map g l) -> NoDup (map f l).
Proof.
  intros Hinj Hnd. induction l as [|x l IH]; cbn in *; [constructor|]. apply NoDup_cons in Hnd as [Hx Hnd].
  constructor.
  - intros (y & Hf & Hy)%list_elem_of_In%in_map_iff. apply Hx, list_elem_of_In, in_map_iff. exists y.
    split; [|done]. symmetry. apply Hinj; [by left|by right|done].
  - apply IH; [|done]. intros a b Ha Hb. apply Hinj; by right.
Qed.

Lemma app_inj_l p s t : p +:+ s = p +:+ t -> s = t.
Proof. induction p as [|c p IH]; simpl; [done|]. intros [= H]. by apply IH. Qed.

Lemma Forall_filter_b {A} (P : A -> Prop) p l : Forall P l -> Forall P (List.filter p l).
Proof. rewrite !Forall_forall. intros H x Hx. apply H. apply list_elem_of_In in Hx. apply list_elem_of_In. by apply filter_In in Hx as [? _]. Qed.

Lemma Forall_In {A} (P : A -> Prop) l x : Forall P l -> In x l -> P x.
Proof. intros H Hx. rewrite Forall_forall in H. by apply H, list_elem_of_In. Qed.

(** *** EVM *)

Definition evm_typed (v : EVMReceipt) : Prop :=
  Forall (fun x => 0 <= el_Index x) (er_Logs v) /\ Forall (fun x => Forall (fun n => 0 <= n) (et_TraceAddress x)) (er_Traces v).
(** A node numbers the logs of a receipt and the calls of a trace. *)
Definition evm_numbered (v : EVMReceipt) : Prop :=
  NoDup (map el_Index (er_Logs v)) /\ NoDup (map et_TraceAddress (er_Traces v)).

Lemma NoDup_filter_map {A B} (f : A -> B) p l : NoDup (map f l) -> NoDup (map f (List.filter p l)).
Proof.
  induction l as [|x l IH]; cbn; [done|]. intros [Hx Hnd]%NoDup_cons. destruct (p x); [|by apply IH]. cbn. constructor; [|by apply IH].
  intros (y & Hf & Hy)%list_elem_of_In%in_map_iff. apply Hx, list_elem_of_In, in_map_iff. apply filter_In in Hy as [Hy _]. by exists y.
Qed.

Definition comma : ascii := ",".

Lemma dec_no_comma n : 0 <= n -> str_no comma (dec_string n) = true.
Proof.
  intros Hn. eapply str_forall_impl; [|by apply canonical_digits, dec_string_canonical]. intros c Hc.
  destruct (Ascii.eqb_spec c comma) as [->|]; done.
Qed.

Lemma map_dec_inj p q : Forall (fun n => 0 <= n) p -> Forall (fun n => 0 <= n) q -> map dec_string p = map dec_string q -> p = q.
Proof.
  intros Hp. revert q. induction Hp as [|x p Hx _ IH]; intros [|y q] Hq; cbn; try done. invc Hq.
  intros [= E1 E2]. f_equal; [by apply dec_string_inj|by apply IH].
Qed.

(** Cutting at the commas gives the path back. *)
Lemma trace_index_inj p q :
  Forall (fun n => 0 <= n) p -> Forall (fun n => 0 <= n) q -> trace_index p = trace_index q -> p = q.
Proof.
  intros Hp Hq H%app_inj_l. apply map_dec_inj; [done|done|].
  assert (Hno : forall l, Forall (fun n => 0 <= n) l -> Forall (fun s => str_no comma s = true) (map dec_string l)).
  { intros l. induction 1; constructor; [by apply dec_no_comma|done]. }
  assert (Hne : forall x l, 0 <= x -> Join (map dec_string (x :: l)) "," <> "").
  { intros x l Hx E. pose proof (canonical_nonempty (dec_string x) (dec_string_canonical x Hx)) as Hl.
    destruct l; cbn in E; [|destruct (dec_string x); [done|discriminate]]. by rewrite E in Hl. }
  destruct p as [|x p], q as [|y q]; [done|..].
  - invc Hq. by destruct (Hne y q).
  - invc Hp. by destruct (Hne x p).
  - rewrite <- (Join_nonempty_split comma (map dec_string (x :: p))), <- (Join_nonempty_split comma (map dec_string (y :: q))) by auto.
    by f_equal.
Qed.

Lemma Join_plain l : Forall (fun s => str_forall plain_byte s = true) l -> str_forall plain_byte (Join l ",") = true.
Proof.
  induction 1 as [|s [|t l] Hs _ IH]; [done|done|]. cbn [Join] in *. rewrite !str_forall_app, Hs, IH. done.
Qed.

Lemma trace_index_plain p : Forall (fun n => 0 <= n) p -> str_forall plain_byte (trace_index p) = true.
Proof.
  intros Hp. unfold trace_index. rewrite str_forall_app, Join_plain; [done|].
  induction Hp; constructor; [by apply dec_plain|done].
Qed.

Lemma Forall_map_iff {A B} (P : B -> Prop) (f : A -> B) l : Forall P (map f l) <-> Forall (fun x => P (f x)) l.
Proof. apply Forall_fmap. Qed.

#[export] Instance evm_lawful : LawfulReport EVMReceipt.
Proof.
  refine {| rp_typed := evm_typed; rp_numbered := evm_numbered |}.
  - apply canonical_hex_trimmed.
  - intros v. cbn. unfold evm_facts. rewrite !Forall_app, !Forall_map_iff. split_and!.
    + destruct (er_Native v) as [n|]; [|done]. destruct (_ != _); [|done]. constructor; [apply canonical_hex_trimmed|done].
    + apply Forall_true. intros x. apply canonical_hex_trimmed.
    + apply Forall_true. intros x. apply canonical_hex_trimmed.
  - intros v [Hl Ht]. cbn. unfold evm_facts. rewrite !Forall_app, !Forall_map_iff. split_and!.
    + destruct (er_Native v) as [n|]; [|done]. destruct (_ != _); [|done]. by constructor.
    + apply Forall_filter_b. eapply Forall_impl; [exact Hl|]. intros x Hx. cbn [evm_fact ft_EventIndex].
      rewrite str_forall_app, dec_plain by done. done.
    + apply Forall_filter_b. eapply Forall_impl; [exact Ht|]. intros x Hx. by apply trace_index_plain.
  - intros v [Hl Ht] [Nl Nt]. cbn. unfold evm_facts. rewrite !map_app, !map_map. cbn [evm_fact ft_EventIndex].
    apply (NoDup_filter_map _ el_Transfer) in Nl. apply (Forall_filter_b _ el_Transfer) in Hl.
    apply (NoDup_filter_map _ (fun x => et_Success x && (et_Amount x != "0"))) in Nt.
    apply (Forall_filter_b _ (fun x => et_Success x && (et_Amount x != "0"))) in Ht.
    apply NoDup_app. split; [|split; [|apply NoDup_app; split_and!]].
    + destruct (er_Native v) as [n|]; [|constructor]. destruct (_ != _); [|constructor]. apply NoDup_singleton.
    + intros i Hi [(x & <- & _)%list_elem_of_In%in_map_iff|(x & <- & _)%list_elem_of_In%in_map_iff]%elem_of_app;
        destruct (er_Native v) as [n|]; try (by apply not_elem_of_nil in Hi); destruct (_ != _);
        try (by apply not_elem_of_nil in Hi); apply list_elem_of_singleton in Hi; cbn in Hi; discriminate Hi.
    + apply (NoDup_map_inj_on _ el_Index); [|done]. intros x y Hx Hy H%app_inj_l.
      apply dec_string_inj; [exact (Forall_In _ _ _ Hl Hx)|exact (Forall_In _ _ _ Hl Hy)|done].
    + intros i (x & <- & _)%list_elem_of_In%in_map_iff (y & Hy & _)%list_elem_of_In%in_map_iff. discriminate Hy.
    + apply (NoDup_map_inj_on _ et_TraceAddress); [|done]. intros x y Hx Hy H.
      apply trace_index_inj; [exact (Forall_In _ _ _ Ht Hx)|exact (Forall_In _ _ _ Ht Hy)|exact H].
Defined.

(** *** The other families *)

Lemma NoDup_indexed {A} (index : A -> Z) (l : list A) prefix :
  Forall (fun x => 0 <= index x) l -> NoDup (map index l) -> NoDup (map (fun x => prefix +:+ dec_string (index x)) l).
Proof.
  intros Hl Hn. apply (NoDup_map_inj_on _ index); [|done]. intros x y Hx Hy H%app_inj_l.
  apply dec_string_inj; [exact (Forall_In _ _ _ Hl Hx)|exact (Forall_In _ _ _ Hl Hy)|done].
Qed.

Lemma indexed_plain {A} (index : A -> Z) (l : list A) prefix :
  str_forall plain_byte prefix = true -> Forall (fun x => 0 <= index x) l ->
  Forall (fun x => str_forall plain_byte (prefix +:+ dec_string (index x)) = true) l.
Proof. intros Hp Hl. eapply Forall_impl; [exact Hl|]. intros x Hx. cbn. by rewrite str_forall_app, Hp, dec_plain. Qed.

#[export] Instance aptos_lawful : LawfulReport AptosTransaction.
Proof.
  refine {| rp_typed v := Forall (fun x => 0 <= at_EventIndex x) (ap_Transfers v);
            rp_numbered v := NoDup (map at_EventIndex (ap_Transfers v)) |}.
  - apply canonical_hex_trimmed.
  - intros v. cbn. unfold aptos_facts. rewrite Forall_map_iff. apply Forall_true. intros x. apply canonical_hex_trimmed.
  - intros v Hv. cbn. unfold aptos_facts. rewrite Forall_map_iff. by apply (indexed_plain at_EventIndex).
  - intros v Hv Hn. cbn. unfold aptos_facts. rewrite map_map. by apply (NoDup_indexed at_EventIndex).
Defined.

#[export] Instance ton_lawful : LawfulReport TONTransaction.
Proof.
  refine {| rp_typed v := Forall (fun x => 0 <= tm_Index x) (tn_Messages v);
            rp_numbered v := NoDup (map tm_Index (tn_Messages v)) |}.
  - apply TrimSpace_idem.
  - intros v. cbn. unfold ton_facts. rewrite Forall_map_iff. by apply Forall_true.
  - intros v Hv. cbn. unfold ton_facts. rewrite Forall_map_iff. by apply (indexed_plain tm_Index).
  - intros v Hv Hn. cbn. unfold ton_facts. rewrite map_map. by apply (NoDup_indexed tm_Index).
Defined.

(** A transfer is numbered by its instruction and its place inside it. *)
Definition solana_place (x : SolanaTransfer) : Z * option Z := (st_OuterIndex x, st_InnerIndex x).
Definition place_typed (x : SolanaTransfer) : Prop :=
  0 <= st_OuterIndex x /\ match st_InnerIndex x with Some i => 0 <= i | None => True end.

Definition slash : ascii := "/".

Lemma dec_no_slash n : 0 <= n -> str_no slash (dec_string n) = true.
Proof.
  intros Hn. eapply str_forall_impl; [|by apply canonical_digits, dec_string_canonical]. intros c Hc.
  destruct (Ascii.eqb_spec c slash) as [->|]; done.
Qed.

Lemma str_no_app c s t : str_no c (s +:+ t) = str_no c s && str_no c t.
Proof. apply str_forall_app. Qed.

Lemma solana_index_inj x y : place_typed x -> place_typed y -> solana_index x = solana_index y -> solana_place x = solana_place y.
Proof.
  unfold solana_index, solana_place, place_typed. intros [Hox Hix] [Hoy Hiy].
  pose proof (dec_no_slash _ Hox) as Nx. pose proof (dec_no_slash _ Hoy) as Ny.
  destruct (st_InnerIndex x) as [i|], (st_InnerIndex y) as [j|]; intros H%app_inj_l.
  - change ("/inner:" +:+ dec_string i) with (String slash ("inner:" +:+ dec_string i)) in H.
    change ("/inner:" +:+ dec_string j) with (String slash ("inner:" +:+ dec_string j)) in H.
    apply str_app_sep_inj in H as [H1 H2]; [|done|done]. apply app_inj_l in H2.
    apply dec_string_inj in H1; [|done|done]. apply dec_string_inj in H2; [|done|done]. congruence.
  - rewrite <- H, str_no_app in Ny. by apply andb_true_iff in Ny as [_ ?].
  - rewrite H, str_no_app in Nx. by apply andb_true_iff in Nx as [_ ?].
  - apply dec_string_inj in H; [|done|done]. congruence.
Qed.

#[export] Instance solana_lawful : LawfulReport SolanaTransaction.
Proof.
  refine {| rp_typed v := Forall place_typed (sn_Transfers v); rp_numbered v := NoDup (map solana_place (sn_Transfers v)) |}.
  - apply TrimSpace_idem.
  - intros v. cbn. unfold solana_facts. rewrite Forall_map_iff. by apply Forall_true.
  - intros v Hv. cbn. unfold solana_facts. rewrite Forall_map_iff. eapply Forall_impl; [exact Hv|].
    intros x [Ho Hi]. cbn. unfold solana_index. destruct (st_InnerIndex x); rewrite !str_forall_app, !dec_plain by done; done.
  - intros v Hv Hn. cbn. unfold solana_facts. rewrite map_map. apply (NoDup_map_inj_on _ solana_place); [|done].
    intros x y Hx Hy H. apply solana_index_inj; [exact (Forall_In _ _ _ Hv Hx)|exact (Forall_In _ _ _ Hv Hy)|exact H].
Defined.

Lemma tron_index_cases v x i : In i (map ft_EventIndex (tron_transfer_facts v x)) ->
  i = "transfer:" +:+ dec_string (tt_Index x) \/ i = "gasfree-fee:" +:+ dec_string (tt_Index x).
Proof.
  unfold tron_transfer_facts. cbn [map In]. intros [<-|H]; [by left|right].
  destruct (_ && _); [|by destruct H]. by destruct H as [<-|[]].
Qed.

Lemma tron_cases_index x y i :
  0 <= tt_Index x -> 0 <= tt_Index y ->
  i = "transfer:" +:+ dec_string (tt_Index x) \/ i = "gasfree-fee:" +:+ dec_string (tt_Index x) ->
  i = "transfer:" +:+ dec_string (tt_Index y) \/ i = "gasfree-fee:" +:+ dec_string (tt_Index y) -> tt_Index x = tt_Index y.
Proof.
  intros Hx Hy [->| ->] [H|H]; try discriminate H; apply app_inj_l in H; by apply dec_string_inj.
Qed.

#[export] Instance tron_lawful : LawfulReport TRONTransaction.
Proof.
  refine {| rp_typed v := Forall (fun x => 0 <= tt_Index x) (tr_Transfers v);
            rp_numbered v := NoDup (map tt_Index (tr_Transfers v)) |}.
  - apply canonical_hex_trimmed.
  - intros v. cbn. unfold tron_facts. rewrite Forall_concat, Forall_map_iff. apply Forall_true. intros x.
    unfold tron_transfer_facts. constructor; [apply canonical_hex_trimmed|]. destruct (_ && _); [|done].
    constructor; [apply canonical_hex_trimmed|done].
  - intros v Hv. cbn. unfold tron_facts. rewrite Forall_concat, Forall_map_iff. eapply Forall_impl; [exact Hv|]. intros x Hx.
    unfold tron_transfer_facts. constructor; [cbn [tron_fact ft_EventIndex]; by rewrite str_forall_app, dec_plain|].
    destruct (_ && _); [|done]. constructor; [cbn [tron_fact ft_EventIndex]; by rewrite str_forall_app, dec_plain|done].
  - intros v Hv Hn. cbn in *. unfold tron_facts. revert Hv Hn. induction (tr_Transfers v) as [|x l IH]; cbn [map concat]; [constructor|].
    intros [Hx Hl]%Forall_cons [Hnx Hn]%NoDup_cons. rewrite map_app. apply NoDup_app. split; [|split; [|by apply IH]].
    + unfold tron_transfer_facts. destruct (_ && _); cbn [map tron_fact ft_EventIndex]; [|apply NoDup_singleton].
      apply NoDup_cons. split; [|apply NoDup_singleton]. intros H%list_elem_of_singleton. discriminate H.
    + intros i Hi%list_elem_of_In Hi'%list_elem_of_In. apply tron_index_cases in Hi.
      rewrite concat_map, map_map in Hi'. apply in_concat in Hi' as (is_ & Hin & Hi').
      apply in_map_iff in Hin as (y & <- & Hy). apply tron_index_cases in Hi'.
      apply Hnx, list_elem_of_In. rewrite (tron_cases_index x y i Hx (Forall_In _ _ _ Hl Hy) Hi Hi'). by apply in_map.
Defined.

(** ** Events of a report *)
Section events.
Context {T : Type} `{Law : LawfulReport T}.
Context (sha256 : string -> string).

(** What the events of [tx] on [chainID] say about the report [v]. *)
Record answers (chainID tx : string) (v : T) (events : list TransferEvent) : Prop := mk_answers {
  an_same : rp_spelling (rp_id v) = rp_spelling tx;
  an_failed : rp_success v = false -> events = [];
  an_facts : rp_success v = true -> Forall2 (event_of_fact sha256 chainID) (rp_facts v) events;
  an_transaction : Forall (fun e => ei_ChainID (te_Identity e) = TrimSpace chainID /\
    ei_TransactionID (te_Identity e) = rp_spelling tx /\ 0 < te_Amount e < amount_limit) events;
  an_id : Forall (fun e => canonicalEventID sha256 (te_Identity e) = Ok (te_ID e)) events }.

Lemma adapter_answers chainID source tx events :
  adapter_normalize sha256 None chainID source tx = Ok events -> exists v, source = Ok v /\ answers chainID tx v events.
Proof.
  unfold adapter_normalize. destruct source as [v|]; [|done]. cbn. intros H. exists v. split; [done|].
  destruct (String.eqb_spec (rp_spelling (rp_id v)) (rp_spelling tx)) as [Hs|]; [|done]. cbn [negb] in H.
  destruct (rp_success v) eqn:E; cbn [negb] in H.
  - apply normalizeFacts_sound in H as [H1 H2]. constructor; [done|congruence|done| |by apply H2].
    pose proof (rp_facts_id v) as Hid. revert Hid. clear -H1 Hs. induction H1 as [|f e fs es He _ IH]; intros Hid; constructor.
    + apply Forall_cons in Hid as [Hf _]. destruct He as [Hi _ Ha _ _ _ _]. rewrite Hi. cbn.
      rewrite Hf, Hs. split_and!; [done|done|apply Ha..].
    + apply IH. by apply Forall_cons in Hid as [_ ?].
  - injection H as <-. constructor; [done|done|congruence|done|done].
Qed.

Lemma distinct_identities chainID v events :
  rp_typed v -> rp_numbered v -> Forall2 (event_of_fact sha256 chainID) (rp_facts v) events -> NoDup (map te_Identity events).
Proof.
  intros Ht Hn H. pose proof (rp_facts_distinct v Ht Hn) as Hnd. pose proof (rp_facts_index v Ht) as Hpl.
  assert (map (fun e => ei_EventIndex (te_Identity e)) events = map ft_EventIndex (rp_facts v)) as Heq.
  { revert Hpl. clear -H. induction H as [|f e fs es He _ IH]; intros Hpl; cbn; [done|]. apply Forall_cons in Hpl as [Hf Hpl].
    rewrite IH by done. destruct He as [Hi _ _ _ _ _ _]. rewrite Hi. cbn. by rewrite TrimSpace_plain. }
  rewrite <- Heq in Hnd. apply (NoDup_map_inj_on _ (fun e => ei_EventIndex (te_Identity e))); [|done]. by intros x y _ _ ->.
Qed.
End events.

(** An adapter of any chain family answers only about the transaction asked
    for, and reports nothing of a failed one; otherwise each fact becomes one
    event, in order, on the chain of the adapter, with a positive amount of at
    most 256 bits and an identifier computed from its identity alone. *)
Theorem adapters_answer_the_request sha256 chainID tx events :
  (forall source, EVM_Normalize sha256 None chainID source tx = Ok events ->
     exists v, source = Ok v /\ answers sha256 chainID tx v events) /\
  (forall source, Solana_Normalize sha256 None chainID source tx = Ok events ->
     exists v, source = Ok v /\ answers sha256 chainID tx v events) /\
  (forall source, TON_Normalize sha256 None chainID source tx = Ok events ->
     exists v, source = Ok v /\ answers sha256 chainID tx v events) /\
  (forall source, TRON_Normalize sha256 None chainID source tx = Ok events ->
     exists v, source = Ok v /\ answers sha256 chainID tx v events) /\
  (forall source, Aptos_Normalize sha256 None chainID source tx = Ok events ->
     exists v, source = Ok v /\ answers sha256 chainID tx v events).
Proof.
  destruct (adapters_normalize sha256 None chainID tx) as (E1 & E2 & E3 & E4 & E5).
  split_and!; intros source; rewrite ?E1, ?E2, ?E3, ?E4, ?E5; apply adapter_answers.
Qed.

(** C25: Nothing that happened in a transaction is counted twice: when the node
    numbers the logs and calls (instructions, messages, transfers, events) of a
    transaction, no two of its events have the same identity, also across the
    native transfer, the logs and the internal calls of EVM and the transfers and
    fees of TRON. *)
Theorem transfers_counted_once sha256 chainID tx events :
  (forall v, evm_typed v -> evm_numbered v -> EVM_Normalize sha256 None chainID (Ok v) tx = Ok events ->
     NoDup (map te_Identity events)) /\
  (forall v, Forall place_typed (sn_Transfers v) -> NoDup (map solana_place (sn_Transfers v)) ->
     Solana_Normalize sha256 None chainID (Ok v) tx = Ok events -> NoDup (map te_Identity events)) /\
  (forall v, Forall (fun x => 0 <= tm_Index x) (tn_Messages v) -> NoDup (map tm_Index (tn_Messages v)) ->
     TON_Normalize sha256 None chainID (Ok v) tx = Ok events -> NoDup (map te_Identity events)) /\
  (forall v, Forall (fun x => 0 <= tt_Index x) (tr_Transfers v) -> NoDup (map tt_Index (tr_Transfers v)) ->
     TRON_Normalize sha256 None chainID (Ok v) tx = Ok events -> NoDup (map te_Identity events)) /\
  (forall v, Forall (fun x => 0 <= at_EventIndex x) (ap_Transfers v) -> NoDup (map at_EventIndex (ap_Transfers v)) ->
     Aptos_Normalize sha256 None chainID (Ok v) tx = Ok events -> NoDup (map te_Identity events)).
Proof.
  assert (Hgen : forall (T : Type) (R : ChainReport T) (L : LawfulReport T) (v : T), rp_typed v -> rp_numbered v ->
    adapter_normalize sha256 None chainID (Ok v) tx = Ok events -> NoDup (map te_Identity events)).
  { intros T R L v Ht Hn H. apply adapter_answers in H as (v' & [= <-] & Ha). destruct (rp_success v) eqn:E.
    - exact (distinct_identities sha256 chainID v events Ht Hn (an_facts _ _ _ _ _ Ha E)).
    - rewrite (an_failed _ _ _ _ _ Ha E). constructor. }
  destruct (adapters_normalize sha256 None chainID tx) as (E1 & E2 & E3 & E4 & E5).
  split_and!; intros v Ht Hn; rewrite ?E1, ?E2, ?E3, ?E4, ?E5;
    [apply (Hgen _ _ evm_lawful)|apply (Hgen _ _ solana_lawful)|apply (Hgen _ _ ton_lawful)|apply (Hgen _ _ tron_lawful)
    |apply (Hgen _ _ aptos_lawful)]; done.
Qed.

(** The identifier of an event is a valid UUID and the same on every replay. *)
Theorem event_id_is_a_uuid sha256 identity id :
  (forall s, String.length (sha256 s) = 32%nat) ->
  canonicalEventID sha256 identity = Ok id -> ValidID id = true.
Proof. intros Hlen. by apply canonicalEventID_valid. Qed.

(** ** Witnesses *)

Definition zero_digest (s : string) : string := Repeat "a" 32.
Definition sample_hash : string := "0xAB" +:+ Repeat "0" 62.
Definition sample_receipt : EVMReceipt :=
  mkEVMReceipt sample_hash 10 "0xBEEF" (UnixTime 1700000000) true true 3
    (Some (mkEVMNative "0xA1" "0xB2" "1" "eth" 18)) [mkEVMLog 2 "0xA1" "0xB2" "2" "usdc" 6 true]
    [mkEVMTrace [0; 2; 1] "0xA1" "0xB2" "3" "eth" 18 true] "evidence".

Definition sample_events : list TransferEvent :=
  match EVM_Normalize zero_digest None "eip155:1" (Ok sample_receipt) sample_hash with Ok events => events | Err _ => [] end.

Lemma adapters_answer_the_request_witness :
  map (fun e => ei_EventIndex (te_Identity e)) sample_events = ["native:0"; "log:2"; "trace:0,2,1"] /\
  exists v, Ok sample_receipt = @Ok string _ v /\ answers zero_digest "eip155:1" sample_hash v sample_events.
Proof.
  split; [vm_compute; reflexivity|].
  apply (proj1 (adapters_answer_the_request zero_digest "eip155:1" sample_hash sample_events) (Ok sample_receipt)).
  vm_compute; reflexivity.
Defined.

Lemma transfers_counted_once_witness : length sample_events = 3%nat /\ NoDup (map te_Identity sample_events).
Proof.
  split; [vm_compute; reflexivity|].
  apply (proj1 (transfers_counted_once zero_digest "eip155:1" sample_hash sample_events) sample_receipt).
  - split; repeat constructor; discriminate.
  - split; apply NoDup_singleton.
  - vm_compute; reflexivity.
Defined.

Lemma event_id_is_a_uuid_witness :
  exists id, canonicalEventID zero_digest sample_identity = Ok id /\ ValidID id = true.
Proof.
  eexists. split; [reflexivity|]. apply (event_id_is_a_uuid zero_digest sample_identity); [reflexivity|reflexivity].
Defined.
