(* ===== verification/Providers.v ===== *)
(** * Providers: internal/providers/provider.go, the rate policy of internal/platformruntime/scanner.go

    The layer between the scanner and the chain nodes: classified errors, the
    HTTP client with its request spacing and JSON-RPC envelopes, and the groups
    of sources: a quorum that returns only what enough sources agree on, a
    failover that keeps one source active, the destination filter and the rate
    policy. HTTP, URL and JSON codecs and SHA-256 are parameters; the order in
    which concurrent sources answer is the order of a list. *)

From Stdlib Require Import ZArith Lia Ascii String Permutation.
From stdpp Require Import base gmap list strings.
From S2P Require Import Prelude Text Numerals Money Domain Scanner ProviderOps.

(** ** Errors *)

Inductive ErrorKind := ErrorTransient | ErrorRateLimited | ErrorPermanent | ErrorMalformed | ErrorDisagreement.
#[export] Instance ErrorKind_eq_dec : EqDecision ErrorKind.
Proof. solve_decision. Defined.

Definition ErrorKind_text (k : ErrorKind) : string :=
  match k with
  | ErrorTransient => "transient" | ErrorRateLimited => "rate_limited" | ErrorPermanent => "permanent"
  | ErrorMalformed => "malformed_response" | ErrorDisagreement => "provider_disagreement"
  end.

(** The errors of the layer: a [ProviderError] with the error it wraps, the
    failure of a group with the failures of its members, or another error. *)
Inductive provider_error :=
| ProviderError (kind : ErrorKind) (operation : string) (status : Z) (retryAfter : Duration) (cause : option provider_error)
| GroupFailure (operation : string) (quorum matching : Z) (failures : list (nat * string * provider_error))
| OtherError (msg : string).

(** [errors.As] with a [*ProviderError]: the first one, depth first. *)
Fixpoint first_provider_error (e : provider_error) : option (ErrorKind * string * Z) :=
  match e with
  | ProviderError kind operation status _ _ => Some (kind, operation, status)
  | GroupFailure _ _ _ failures =>
      (fix search (l : list (nat * string * provider_error)) :=
         match l with
         | [] => None
         | (_, e') :: rest => match first_provider_error e' with Some found => Some found | None => search rest end
         end) failures
  | OtherError _ => None
  end.

Definition ErrorKindOf (e : provider_error) : ErrorKind :=
  match first_provider_error e with Some (kind, _, _) => kind | None => ErrorPermanent end.

(** [ProviderError.Retryable], [providerGroupFailure.Retryable] and, since every
    error of the layer but [OtherError] has the method, [scanner.Retryable]. *)
Fixpoint error_Retryable (e : provider_error) : bool :=
  match e with
  | ProviderError ErrorTransient _ _ _ _ | ProviderError ErrorRateLimited _ _ _ _ => true
  | ProviderError ErrorDisagreement _ _ _ (Some cause) => error_Retryable cause
  | ProviderError _ _ _ _ _ => false
  | GroupFailure _ quorum matching failures =>
      quorum <=? matching +
        (fix count (l : list (nat * string * provider_error)) :=
           match l with [] => 0 | (_, e') :: rest => (if error_Retryable e' then 1 else 0) + count rest end) failures
  | OtherError _ => false
  end.

Definition safe_id_byte (c : ascii) : bool :=
  ((97 <=? code c) && (code c <=? 122)) || ((65 <=? code c) && (code c <=? 90)) || is_digit c
  || (code c =? 45) || (code c =? 95) || (code c =? 46).

(** The label of a member: its identity when that is safe to log. *)
Definition failure_label (index : nat) (id : string) : string :=
  if (id == "") || (128 <? len id) || negb (str_forall safe_id_byte id)
  then "provider-" +:+ FormatInt (Z.of_nat index + 1) else id.

Definition failure_detail (e : provider_error) : string :=
  match first_provider_error e with
  | Some (kind, operation, status) =>
      operation +:+ " (" +:+ ErrorKind_text kind
      +:+ (if negb (status =? 0) then ", HTTP " +:+ FormatInt status else "") +:+ ")"
  | None => "request failed"
  end.

Definition failure_less (i j : nat * string * provider_error) : bool := Nat.ltb (fst (fst i)) (fst (fst j)).

(** [providerGroupFailure.Error] *)
Definition group_text (operation : string) (quorum matching : Z) (failures : list (nat * string * provider_error)) : string :=
  let parts := map (fun '(index, id, e) => failure_label index id +:+ ": " +:+ failure_detail e) (sort_by failure_less failures) in
  let parts := match parts with [] => ["providers returned different canonical responses"] | _ => parts end in
  operation +:+ " requires " +:+ FormatInt quorum +:+ " matching responses, received " +:+ FormatInt matching
  +:+ "; " +:+ Join parts "; ".

(** [ProviderError.Error] *)
Fixpoint provider_error_text (e : provider_error) : string :=
  match e with
  | ProviderError kind operation status _ cause =>
      let message :=
        if negb (status =? 0)
        then "chain provider " +:+ operation +:+ " failed (" +:+ ErrorKind_text kind +:+ ", status " +:+ FormatInt status +:+ ")"
        else "chain provider " +:+ operation +:+ " failed (" +:+ ErrorKind_text kind +:+ ")" in
      match cause with Some c => message +:+ ": " +:+ provider_error_text c | None => message end
  | GroupFailure operation quorum matching failures => group_text operation quorum matching failures
  | OtherError msg => msg
  end.

Definition malformed (operation : string) (cause : provider_error) : provider_error :=
  ProviderError ErrorMalformed operation 0 0 (Some cause).
Definition malformed_msg (operation msg : string) : provider_error := malformed operation (OtherError msg).
Definition permanent_msg (operation msg : string) : provider_error :=
  ProviderError ErrorPermanent operation 0 0 (Some (OtherError msg)).

(** ** The HTTP client *)

(** What [url.Parse] says of the endpoint. *)
Record EndpointURL := mkEndpointURL {
  eu_Scheme : string; eu_Host : string; eu_HasUser : bool; eu_RawQuery : string; eu_Fragment : string; eu_HostIsIP : bool }.

Record HTTPConfig := mkHTTPConfig {
  hc_Endpoint : string; hc_Headers : list (string * list string); hc_Timeout : Duration; hc_MinInterval : Duration }.

Definition no_line_break (s : string) : bool := str_forall (fun c => negb ((code c =? 13) || (code c =? 10))) s.

Record endpointClient := mkEndpointClient { xc_minWait : Duration; xc_timeout : Duration }.

Definition newEndpointClient (parse : string -> option EndpointURL) (EqualFold : string -> string -> bool)
    (config : HTTPConfig) : option endpointClient :=
  match parse (TrimSpace (hc_Endpoint config)) with
  | None => None
  | Some u =>
      if (eu_Scheme u != "https") || (eu_Host u == "") || eu_HasUser u || (eu_RawQuery u != "") || (eu_Fragment u != "")
      then None
      else if eu_HostIsIP u then None
      else
        let timeout := if (hc_Timeout config <=? 0) || (30 * Second <? hc_Timeout config) then 20 * Second else hc_Timeout config in
        if (hc_MinInterval config <? 0) || (30 * Second <? hc_MinInterval config) then None
        else if negb (forallb (fun '(name, values) => negb (EqualFold name "Host") && no_line_break name && forallb no_line_break values)
                        (hc_Headers config))
        then None
        else Some (mkEndpointClient (hc_MinInterval config) timeout)
  end.

(** The only state of the client is [nextRPC], the earliest time of the next
    request. A request that arrives at [now] wakes at [woke], the later of the
    two or after it, and moves [nextRPC]. *)
Definition wake_ok (nextRPC now woke : Time) : Prop := now <= woke /\ nextRPC <= woke.
Definition waitForRateLimit (c : endpointClient) (woke : Time) : Time := AddTime woke (xc_minWait c).

Definition postpone (nextRPC now : Time) (delay : Duration) : Time :=
  if delay <=? 0 then nextRPC
  else let deadline := AddTime now delay in if After deadline nextRPC then deadline else nextRPC.

(** [strconv.ParseUint(s, 10, 32)] *)
Definition ParseUint32 (s : string) : option Z :=
  if (s == "") || negb (str_forall is_digit s) then None
  else if 2 ^ 32 - 1 <? dec_value 0 s then None else Some (dec_value 0 s).

Definition parseRetryAfter (ParseTime : string -> option Time) (value : string) (now : Time) : Duration :=
  match ParseUint32 (TrimSpace value) with
  | Some seconds => seconds * Second
  | None =>
      match ParseTime value with
      | Some deadline => if After deadline now then SubTime deadline now else 0
      | None => 0
      end
  end.

(** What the network gives a request: no permission within the context, no
    response, or a response whose body may break off. *)
Record http_response := mkHTTPResponse { hr_Status : Z; hr_RetryAfter : string; hr_Body : option string }.
Inductive http_answer := NotAdmitted (e : provider_error) | NotSent (kind : ErrorKind) (e : provider_error) | Received (r : http_response).

Definition maxResponseBytes : Z := 67108864.

(** A failing status: its error and the delay it asks for. *)
Definition status_error (ParseTime : string -> option Time) (operation : string) (r : http_response) (now : Time)
    : provider_error * Duration :=
  if hr_Status r =? 429 then
    let retryAfter := parseRetryAfter ParseTime (hr_RetryAfter r) now in
    let retryAfter := if retryAfter <=? 0 then Second else retryAfter in
    (ProviderError ErrorRateLimited operation (hr_Status r) retryAfter None, retryAfter)
  else if (hr_Status r =? 408) || (500 <=? hr_Status r) then
    (ProviderError ErrorTransient operation (hr_Status r) 0 None, 250 * Millisecond)
  else (ProviderError ErrorPermanent operation (hr_Status r) 0 None, 0).

(** The JSON decoder on a body: the first value, read as the target, and whether
    the text ends after it. *)
Definition json_decoder (T : Type) : Type := string -> option (T * bool).

Definition decode_single {T} (decode : json_decoder T) (operation trailing : string) (text : string) : result provider_error T :=
  match decode text with
  | None => Err (malformed_msg operation "decode")
  | Some (value, true) => Ok value
  | Some (_, false) => Err (malformed_msg operation trailing)
  end.

(** [request] returns the value and the delay passed to [postpone]. *)
Definition request {T} (ParseTime : string -> option Time) (decode : json_decoder T) (operation : string)
    (answer : http_answer) (now : Time) : result provider_error T * Duration :=
  match answer with
  | NotAdmitted e => (Err (ProviderError ErrorTransient operation 0 0 (Some e)), 0)
  | NotSent kind e => (Err (ProviderError kind operation 0 0 (Some e)), 0)
  | Received r =>
      if (hr_Status r <? 200) || (300 <=? hr_Status r) then
        let (e, delay) := status_error ParseTime operation r now in (Err e, delay)
      else
        match hr_Body r with
        | None => (Err (ProviderError ErrorTransient operation 0 0 (Some (OtherError "read"))), 0)
        | Some data =>
            if maxResponseBytes <? len data then (Err (malformed_msg operation "response exceeds size limit"), 0)
            else (decode_single decode operation "multiple JSON values" data, 0)
        end
  end.

(** ** JSON-RPC *)

(** [ID] and [Result] are raw JSON texts, empty when absent. *)
Record rpcEnvelope := mkEnvelope { ne_JSONRPC : string; ne_ID : string; ne_Result : string; ne_Error : option Z }.

(** The error of an envelope and the delay passed to [postpone]. *)
Definition rpcEnvelopeError (operation : string) (code : Z) : provider_error * Duration :=
  let cause := Some (OtherError ("JSON-RPC error " +:+ FormatInt code)) in
  if code =? 429 then (ProviderError ErrorRateLimited operation 0 0 cause, 30 * Second)
  else if code =? -32005 then (ProviderError ErrorRateLimited operation 0 0 cause, Second)
  else if (code =? -32016) || (code =? -32603) then (ProviderError ErrorTransient operation 0 0 cause, 0)
  else (ProviderError ErrorPermanent operation 0 0 cause, 0).

Definition envelope_result {T} (decode : json_decoder T) (operation trailing : string) (e : rpcEnvelope) : result provider_error T :=
  match ne_Error e with
  | Some code => Err (fst (rpcEnvelopeError operation code))
  | None =>
      if (ne_Result e == "") || (ne_Result e == "null") then Err (malformed_msg operation "missing JSON-RPC result")
      else decode_single decode operation trailing (ne_Result e)
  end.

Definition rpc {T} (decode : json_decoder T) (operation : string) (answer : result provider_error rpcEnvelope)
    : result provider_error T :=
  envelope ← answer;
  if (ne_JSONRPC envelope != "2.0") || (ne_ID envelope == "") then Err (malformed_msg operation "invalid JSON-RPC envelope")
  else envelope_result decode operation "multiple JSON-RPC result values" envelope.

(** The calls of a batch by their operations; the loop over the envelopes fills
    the target of the call an envelope names. *)
Section batch.
Context {T : Type} (decode : json_decoder T) (operation : string) (calls : list string).

Definition call_operation (call : string) : string := if TrimSpace call == "" then operation else TrimSpace call.

Fixpoint envelope_loop (seen : list Z) (targets : gmap Z T) (envelopes : list rpcEnvelope) : result provider_error (gmap Z T) :=
  match envelopes with
  | [] => Ok targets
  | envelope :: rest =>
      if ne_JSONRPC envelope != "2.0" then Err (malformed_msg operation "invalid JSON-RPC batch envelope")
      else
        match ParseInt64 (TrimSpace (ne_ID envelope)) with
        | None => Err (malformed_msg operation "invalid JSON-RPC batch response ID")
        | Some id =>
            if (id <? 1) || (Z.of_nat (length calls) <? id) || existsb (Z.eqb id) seen
            then Err (malformed_msg operation "invalid JSON-RPC batch response ID")
            else
              let callOperation := call_operation (nth (Z.to_nat (id - 1)) calls "") in
              value ← envelope_result decode callOperation "multiple JSON-RPC result values" envelope;
              envelope_loop (id :: seen) (<[id := value]> targets) rest
        end
  end.

Definition rpcBatch (answer : result provider_error (list rpcEnvelope)) : result provider_error (gmap Z T) :=
  if Nat.eqb (length calls) 0 || (100 <? Z.of_nat (length calls))
  then Err (permanent_msg operation "JSON-RPC batch must contain 1..100 calls")
  else
    envelopes ← answer;
    if negb (Nat.eqb (length envelopes) (length calls)) then Err (malformed_msg operation "incomplete JSON-RPC batch")
    else envelope_loop [] ∅ envelopes.
End batch.

(** ** Quorum *)

Definition with_confirmations (e : TransferEvent) (n : Z) : TransferEvent :=
  mkTransferEvent (te_ID e) (te_Identity e) (te_Kind e) (te_FromAddress e) (te_Amount e) (te_AssetDecimals e) (te_BlockHeight e)
    (te_BlockHash e) (te_OnChainTime e) n (te_Status e) (te_ParserVersion e) (te_EvidenceHash e) (te_NativeEVMRawEvidence e).
Definition without_confirmations (e : TransferEvent) : TransferEvent := with_confirmations e 0.

Definition with_events (b : RangeBatch) (events : list TransferEvent) : RangeBatch :=
  mkBatch (rb_From b) (rb_To b) (rb_Blocks b) events (rb_RuntimeEvidence b) (rb_SparseBlocks b) (rb_IndexedCheckpoint b)
    (rb_IdleCheckpoint b).

(** What [json.Marshal] encodes of a batch: the fields not tagged "-". *)
Record BatchJSON := mkBatchJSON { bj_From : Z; bj_To : Z; bj_Blocks : list Block; bj_Events : list TransferEvent }.
Definition batch_json (b : RangeBatch) : BatchJSON :=
  mkBatchJSON (rb_From b) (rb_To b) (rb_Blocks b) (map without_confirmations (rb_Events b)).
Definition events_json (events : list TransferEvent) : list TransferEvent := map without_confirmations events.

(** The loop that lowers the confirmations; an index past the end panics. *)
Fixpoint lower_confirmations (mine other : list TransferEvent) : option (list TransferEvent) :=
  match mine, other with
  | [], _ => Some []
  | _ :: _, [] => None
  | m :: mine', o :: other' =>
      rest ← lower_confirmations mine' other';
      Some ((if te_Confirmations o <? te_Confirmations m then with_confirmations m (te_Confirmations o) else m) :: rest)
  end.

Definition merge_batch (mine other : RangeBatch) : option RangeBatch :=
  events ← lower_confirmations (rb_Events mine) (rb_Events other); Some (with_events mine events).
Definition merge_events (mine other : list TransferEvent) : option (list TransferEvent) :=
  if Nat.eqb (length mine) (length other) then lower_confirmations mine other else Some mine.

Inductive votes (A : Type) :=
| Agreed (value : A)
| Divided (matching : Z) (failures : list (nat * string * provider_error))
| Panicked.
Arguments Agreed {A} value.
Arguments Divided {A} matching failures.
Arguments Panicked {A}.

(** The loop over [results] of both quorum reads: [digest] is the hexadecimal
    SHA-256 of the JSON of what has to agree, or [None] when it has no JSON. *)
Section quorum.
Context {A : Type} (digest : A -> option string) (merge : A -> A -> option A) (quorum : Z).

Fixpoint quorum_loop (agreements : gmap string (Z * A)) (matching : Z) (failures : list (nat * string * provider_error))
    (results : list (nat * string * result provider_error A)) : votes A :=
  match results with
  | [] => Divided matching failures
  | (member, Err e) :: rest => quorum_loop agreements matching (failures ++ [(member, e)]) rest
  | (member, Ok value) :: rest =>
      match digest value with
      | None => quorum_loop agreements matching failures rest
      | Some key =>
          let merged :=
            match agreements !! key with
            | None => Some (1, value)
            | Some (count, agreed) => lowered ← merge agreed value; Some (count + 1, lowered)
            end in
          match merged with
          | None => Panicked
          | Some (count, agreed) =>
              if quorum <=? count then Agreed agreed
              else quorum_loop (<[key := (count, agreed)]> agreements) (Z.max matching count) failures rest
          end
      end
  end.

Definition quorum_read (operation : string) (results : list (nat * string * result provider_error A))
    : option (result provider_error A) :=
  match quorum_loop ∅ 0 [] results with
  | Agreed value => Some (Ok value)
  | Divided matching failures =>
      let group := GroupFailure operation quorum matching failures in
      Some (Err (if quorum =? 1 then group else ProviderError ErrorDisagreement operation 0 0 (Some group)))
  | Panicked => None
  end.
End quorum.

Section quorum_source.
(** [json.Marshal] of a batch and of events, and [sha256.Sum256]. *)
Context (marshal_batch : BatchJSON -> option string) (marshal_events : list TransferEvent -> option string)
  (sha256 : string -> string).

Definition json_digest {V} (marshal : V -> option string) (v : V) : option string :=
  match marshal v with Some canonical => Some (hex_encode (sha256 canonical)) | None => None end.

Definition batch_digest (b : RangeBatch) : option string := json_digest marshal_batch (batch_json b).
Definition events_digest (e : list TransferEvent) : option string := json_digest marshal_events (events_json e).

Definition NewQuorumSource (sources : nat) (quorum : Z) : bool := negb ((quorum <? 1) || (Z.of_nat sources <? quorum)).

(** [QuorumSource.ScanRange] on what the sources return, in the order they do. *)
Definition Quorum_ScanRange (quorum : Z) (results : list (nat * string * result provider_error RangeBatch))
    : option (result provider_error RangeBatch) :=
  quorum_read batch_digest merge_batch quorum "range quorum" results.

Definition Quorum_LookupTransaction (quorum : Z) (supported : bool)
    (results : list (nat * string * result provider_error (list TransferEvent)))
    : option (result provider_error (list TransferEvent)) :=
  if negb supported then Some (Err (permanent_msg "transaction quorum" "direct source does not support transaction lookup"))
  else quorum_read events_digest merge_events quorum "transaction quorum" results.

(** [QuorumSource.Heads]: the heads of every source that answered. *)
Fixpoint collect_heads (heads : list ProviderHead) (successful : Z) (failures : list (nat * string * provider_error))
    (results : list (nat * string * result provider_error (list ProviderHead)))
    : list ProviderHead * Z * list (nat * string * provider_error) :=
  match results with
  | [] => (heads, successful, failures)
  | (member, Err e) :: rest => collect_heads heads successful (failures ++ [(member, e)]) rest
  | (_, Ok values) :: rest => collect_heads (heads ++ values) (successful + 1) failures rest
  end.

Definition Quorum_Heads (quorum : Z) (results : list (nat * string * result provider_error (list ProviderHead)))
    : result provider_error (list ProviderHead) :=
  let '(heads, successful, failures) := collect_heads [] 0 [] results in
  if successful <? quorum
  then Err (ProviderError ErrorDisagreement "head quorum" 0 0 (Some (GroupFailure "head quorum" quorum successful failures)))
  else Ok heads.
End quorum_source.

(** ** Failover *)

Definition failoverPreferredProbeInterval : Duration := 5 * Minute.

Record FailoverSource := mkFailover { fo_active : nat; fo_retryPreferredAt : Time }.
Definition NewFailoverSource : FailoverSource := mkFailover 0 0.

(** [order] among [n] sources. *)
Definition failover_order (n : nat) (f : FailoverSource) (now : Time) : list nat :=
  let start := if negb (Nat.eqb (fo_active f) 0) && negb (Before now (fo_retryPreferredAt f)) then 0%nat else fo_active f in
  map (fun offset => (start + offset) mod n)%nat (seq 0 n).

Definition selectProvider (index : nat) (now : Time) : FailoverSource :=
  mkFailover index (if Nat.eqb index 0 then 0 else AddTime now failoverPreferredProbeInterval).

(** One call of any kind: the members are asked in order until one gives what
    [accept] takes; [refusal] is the error of an answer that is not taken. *)
Section failover.
Context {A : Type} (accept : A -> bool) (refusal : provider_error) (ids : nat -> string).

Fixpoint failover_loop (answers : nat -> result provider_error A) (order : list nat)
    (failures : list (nat * string * provider_error)) : (nat * A) + list (nat * string * provider_error) :=
  match order with
  | [] => inr failures
  | index :: rest =>
      match answers index with
      | Ok value =>
          if accept value then inl (index, value)
          else failover_loop answers rest (failures ++ [(index, ids index, refusal)])
      | Err e => failover_loop answers rest (failures ++ [(index, ids index, e)])
      end
  end.

Definition failover_call (n : nat) (operation : string) (answers : nat -> result provider_error A) (asked selected : Time)
    (f : FailoverSource) : FailoverSource * result provider_error A :=
  match failover_loop answers (failover_order n f asked) [] with
  | inl (index, value) => (selectProvider index selected, Ok value)
  | inr failures => (f, Err (GroupFailure operation 1 0 failures))
  end.
End failover.

Definition no_heads : provider_error := malformed_msg "failover heads" "provider returned no heads".
Definition lookup_unsupported : provider_error := ProviderError ErrorPermanent "transaction lookup unsupported" 0 0 None.

Definition Failover_Heads (ids : nat -> string) (n : nat) :=
  failover_call (fun heads : list ProviderHead => negb (bool_decide (heads = []))) no_heads ids n "head failover".
Definition Failover_ScanRange (ids : nat -> string) (n : nat) :=
  failover_call (fun _ : RangeBatch => true) (OtherError "") ids n "range failover".
(** A member that cannot look up answers [lookup_unsupported]. *)
Definition Failover_LookupTransaction (ids : nat -> string) (n : nat) :=
  failover_call (fun _ : list TransferEvent => true) (OtherError "") ids n "transaction failover".

(** ** Destination filter *)

Fixpoint NewDestinationFilterSource (addresses : list string) : option (list string) :=
  match addresses with
  | [] => Some []
  | address :: rest =>
      if TrimSpace address == "" then None
      else watched ← NewDestinationFilterSource rest; Some (TrimSpace address :: watched)
  end.

Definition watched_event (watched : list string) (e : TransferEvent) : bool :=
  existsb_str (ei_ToAddress (te_Identity e)) watched.

Definition filter_batch (watched : list string) (b : RangeBatch) : RangeBatch :=
  with_events b (List.filter (watched_event watched) (rb_Events b)).

Definition Filter_ScanRange (watched : list string) (answer : result provider_error RangeBatch) : result provider_error RangeBatch :=
  batch ← answer; Ok (filter_batch watched batch).
Definition Filter_LookupTransaction (watched : list string) (supported : bool) (answer : result provider_error (list TransferEvent))
    : result provider_error (list TransferEvent) :=
  if negb supported then Err (permanent_msg "filtered transaction lookup" "direct source does not support transaction lookup")
  else events ← answer; Ok (List.filter (watched_event watched) events).

(** ** Rate policy (platformruntime/scanner.go, policySource) *)

Record rate_window := mkWindow { rw_started : Time; rw_used : Z }.

Definition permit (policy : ProviderPolicy) (windows : gmap string rate_window) (now : Time) : gmap string rate_window * bool :=
  let window := default (mkWindow 0 0) (windows !! pp_Operation policy) in
  let window :=
    if IsZeroTime (rw_started window) || negb (Before now (AddTime (rw_started window) (pp_RateWindow policy)))
    then mkWindow now 0 else window in
  if pp_RateLimit policy <=? rw_used window then (windows, false)
  else (<[pp_Operation policy := mkWindow (rw_started window) (rw_used window + 1)]> windows, true).

(** The attempts of one permitted call: [answers i] is attempt [i], [ended i]
    says that the context ended in the wait after it; [last] starts as nil. *)
Fixpoint policy_attempts {A} (zero : A) (answers : nat -> result provider_error A) (ended : nat -> option provider_error)
    (remaining attempt : nat) (last : option provider_error) : result provider_error A :=
  match remaining with
  | O => match last with Some e => Err e | None => Ok zero end
  | S more =>
      match answers attempt with
      | Ok value => Ok value
      | Err e =>
          match more with
          | O => Err e
          | S _ =>
              match ended attempt with
              | Some cancelled => Err cancelled
              | None => policy_attempts zero answers ended more (S attempt) (Some e)
              end
          end
      end
  end.

Definition runWithPolicy {A} (zero : A) (policy : ProviderPolicy) (answers : nat -> result provider_error A)
    (ended : nat -> option provider_error) (now : Time) (windows : gmap string rate_window)
    : gmap string rate_window * result provider_error A :=
  let (windows', permitted) := permit policy windows now in
  if permitted then (windows', policy_attempts zero answers ended (Z.to_nat (pp_MaxAttempts policy)) 0 None)
  else (windows', Err (OtherError "provider operation rate policy denied")).
