(* ===== verification/ProvidersFacts.v ===== *)
(** * ProvidersFacts: what the groups of sources guarantee

    A quorum read returns exactly what enough members agree on, with the least
    confirmations among them; a failover asks every member at most once and
    settles on the first that answers; the filter keeps the watched transfers;
    the rate policy bounds the calls of every window; a batch gives each call its
    own answer; messages of a group carry no cause. *)

From Stdlib Require Import ZArith Lia Ascii String Permutation Sorted.
From stdpp Require Import base gmap list strings.
From S2P Require Import Prelude Text Numerals Money Domain Scanner ProviderOps Providers.

(** ** Quorum reads *)
Section quorum_facts.
Context {A : Type} (digest : A -> option string) (merge : A -> A -> option A) (quorum : Z).

Abbreviation Answers := (list (nat * string * result provider_error A)) (only parsing).

(** The members that gave an answer with digest [key], in order of arrival. *)
Definition votes_for (key : string) (results : Answers) : list (nat * string * A) :=
  omap (fun r : nat * string * result provider_error A =>
    match snd r with
    | Ok v => if bool_decide (digest v = Some key) then Some (fst r, v) else None
    | Err _ => None
    end) results.

Definition errors_of (results : Answers) : list (nat * string * provider_error) :=
  omap (fun r : nat * string * result provider_error A => match snd r with Err e => Some (fst r, e) | Ok _ => None end) results.

Fixpoint merge_all (a : A) (l : list A) : option A :=
  match l with [] => Some a | b :: r => match merge a b with Some m => merge_all m r | None => None end end.

Lemma merge_all_snoc a l b :
  merge_all a (l ++ [b]) = match merge_all a l with Some m => merge m b | None => None end.
Proof.
  revert a. induction l as [|c l IH]; intros a; cbn; [by destruct (merge a b)|]. by destruct (merge a c).
Qed.

(** [agreements] holds, for each digest, the number of its answers and their merge. *)
Definition tallied (results : Answers) (agreements : gmap string (Z * A)) : Prop :=
  forall key, match map snd (votes_for key results) with
    | [] => agreements !! key = None
    | a :: l => exists m, merge_all a l = Some m /\ agreements !! key = Some (Z.of_nat (length (a :: l)), m)
    end.

Lemma votes_for_app key l1 l2 : votes_for key (l1 ++ l2) = votes_for key l1 ++ votes_for key l2.
Proof. apply omap_app. Qed.

Lemma votes_for_error key member e : votes_for key [(member, Err e)] = [].
Proof. done. Qed.

Lemma votes_for_ok key member v : votes_for key [(member, Ok v)] = if bool_decide (digest v = Some key) then [(member, v)] else [].
Proof. unfold votes_for. cbn. by case_bool_decide. Qed.

(** What a loop over [rest] may return after the answers [before]. *)
Definition outcome (before : Answers) (failures : list (nat * string * provider_error)) (rest : Answers) (v : votes A) : Prop :=
  match v with
  | Agreed m => exists key pre post member a l, rest = pre ++ post /\ votes_for key (before ++ pre) = (member, a) :: l /\
      merge_all a (map snd l) = Some m /\ Z.of_nat (length ((member, a) :: l)) = quorum
  | Divided matching failures' => (forall key, Z.of_nat (length (votes_for key (before ++ rest))) < quorum) /\
      (forall key, Z.of_nat (length (votes_for key (before ++ rest))) <= matching) /\ failures' = failures ++ errors_of rest
  | Panicked => exists key pre post member a l, rest = pre ++ post /\ votes_for key (before ++ pre) = (member, a) :: l /\
      merge_all a (map snd l) = None
  end.

Lemma outcome_cons before failures r rest v :
  outcome (before ++ [r]) (failures ++ errors_of [r]) rest v -> outcome before failures (r :: rest) v.
Proof.
  unfold outcome. destruct v as [m|matching failures'|].
  - intros (key & pre & post & member & a & l & -> & H). exists key, (r :: pre), post, member, a, l.
    by rewrite <- app_assoc in H.
  - rewrite <- !app_assoc. intros (H1 & H2 & ->). split_and!; [done|done|]. unfold errors_of. by rewrite <- omap_app.
  - intros (key & pre & post & member & a & l & -> & H). exists key, (r :: pre), post, member, a, l.
    by rewrite <- app_assoc in H.
Qed.

(** The state of the loop after [before]. *)
Definition loop_state (before : Answers) (agreements : gmap string (Z * A)) (matching : Z) : Prop :=
  tallied before agreements /\ (forall key, Z.of_nat (length (votes_for key before)) < quorum) /\
  (forall key, Z.of_nat (length (votes_for key before)) <= matching).

(** An answer without a digest, or none at all, leaves the state as it is. *)
Lemma loop_state_skip before agreements matching r :
  (forall key, votes_for key [r] = []) -> loop_state before agreements matching -> loop_state (before ++ [r]) agreements matching.
Proof.
  intros Hr (H1 & H2 & H3). assert (Hskip : forall key, votes_for key (before ++ [r]) = votes_for key before)
    by (intros key; rewrite votes_for_app, Hr; apply app_nil_r).
  split_and!; intros key; rewrite Hskip; [apply H1|apply H2|apply H3].
Qed.

Lemma votes_for_other key key' member v : digest v = Some key -> key' <> key -> votes_for key' [(member, Ok v)] = [].
Proof. intros Hd Hne. rewrite votes_for_ok, bool_decide_false; [done|congruence]. Qed.

(** The new entry of the map: one more answer, merged into the others. *)
Lemma tallied_next before agreements key member v :
  tallied before agreements -> digest v = Some key ->
  exists mb a l, votes_for key (before ++ [(member, Ok v)]) = (mb, a) :: l /\ length l = length (votes_for key before) /\
    match agreements !! key with
    | None => Some (1, v)
    | Some (count, agreed) => lowered ← merge agreed v; Some (count + 1, lowered)
    end = match merge_all a (map snd l) with Some m => Some (Z.of_nat (S (length l)), m) | None => None end.
Proof.
  intros Ht Hd. specialize (Ht key). rewrite votes_for_app, votes_for_ok, bool_decide_true by done.
  destruct (votes_for key before) as [|[mb a] l]; cbn [map snd app] in *.
  - rewrite Ht. by exists member, v, [].
  - destruct Ht as (m & Hm & ->). exists mb, a, (l ++ [(member, v)]). split; [done|]. rewrite length_app. cbn [length].
    split; [lia|]. rewrite map_app. cbn [map snd]. rewrite merge_all_snoc, Hm. destruct (merge m v); cbn; [|done].
    rewrite ?length_map. do 2 f_equal. lia.
Qed.

Lemma loop_state_next before agreements matching key member v mb a l m :
  loop_state before agreements matching -> digest v = Some key ->
  votes_for key (before ++ [(member, Ok v)]) = (mb, a) :: l -> merge_all a (map snd l) = Some m ->
  Z.of_nat (S (length l)) < quorum ->
  loop_state (before ++ [(member, Ok v)]) (<[key := (Z.of_nat (S (length l)), m)]> agreements)
    (Z.max matching (Z.of_nat (S (length l)))).
Proof.
  intros (H1 & H2 & H3) Hd Ht Hm Hlt.
  assert (Hskip : forall key', key' <> key -> votes_for key' (before ++ [(member, Ok v)]) = votes_for key' before).
  { intros key' Hne. rewrite votes_for_app, (votes_for_other key) by done. apply app_nil_r. }
  split_and!; intros key'; destruct (decide (key' = key)) as [->|Hne].
  - rewrite Ht. cbn [map snd]. exists m. split; [done|]. rewrite lookup_insert_eq. cbn [length]. by rewrite length_map.
  - rewrite Hskip, lookup_insert_ne by done. apply H1.
  - by rewrite Ht.
  - rewrite Hskip by done. apply H2.
  - rewrite Ht. cbn [length]. lia.
  - rewrite Hskip by done. specialize (H3 key'). lia.
Qed.

Lemma quorum_loop_outcome before agreements matching failures rest :
  1 <= quorum -> loop_state before agreements matching ->
  outcome before failures rest (quorum_loop digest merge quorum agreements matching failures rest).
Proof.
  intros Hq. revert before agreements matching failures.
  induction rest as [|[member [v|e]] rest IH]; intros before agreements matching failures Hs; cbn [quorum_loop].
  - destruct Hs as (_ & H2 & H3). cbn. rewrite !app_nil_r. done.
  - destruct (digest v) as [key|] eqn:Ed.
    + destruct (tallied_next before agreements key member v (proj1 Hs) Ed) as (mb & a & l & Ht & Hl & Hm).
      rewrite Hm.
      destruct (merge_all a (map snd l)) as [m|] eqn:Eall.
      * destruct (Z.leb_spec quorum (Z.of_nat (S (length l)))) as [Hge|Hlt].
        -- exists key, [(member, Ok v)], rest, mb, a, l. split_and!; [done|done|done|].
           pose proof (proj1 (proj2 Hs) key). cbn [length]. lia.
        -- apply outcome_cons. unfold errors_of. cbn [omap list_omap snd]. rewrite app_nil_r. apply IH.
           by apply (loop_state_next _ _ _ key _ _ mb a).
      * by exists key, [(member, Ok v)], rest, mb, a, l.
    + apply outcome_cons. unfold errors_of. cbn [omap list_omap snd]. rewrite app_nil_r. apply IH, loop_state_skip; [|done].
      intros key. by rewrite votes_for_ok, bool_decide_false by congruence.
  - apply outcome_cons, IH, loop_state_skip; [done|done].
Qed.

Lemma quorum_loop_start rest : 1 <= quorum -> outcome [] [] rest (quorum_loop digest merge quorum ∅ 0 [] rest).
Proof.
  intros Hq. apply quorum_loop_outcome; [done|]. split_and!; intros key; cbn; [apply lookup_empty|lia|lia].
Qed.

(** ** Which answers have a quorum *)

Lemma votes_for_In key results member v :
  In (member, v) (votes_for key results) <-> In (member, Ok v) results /\ digest v = Some key.
Proof.
  unfold votes_for. rewrite <- list_elem_of_In, list_elem_of_omap. split.
  - intros ([mb [w|e]] & Hin & H); cbn in H; [|done]. case_bool_decide as E; [|done]. injection H as <- <-.
    split; [by apply list_elem_of_In|done].
  - intros [Hin Hd]. exists (member, Ok v). split; [by apply list_elem_of_In|]. cbn. by rewrite bool_decide_true.
Qed.

Lemma votes_for_perm key results results' : Permutation results results' -> Permutation (votes_for key results) (votes_for key results').
Proof. intros Hp. unfold votes_for. by rewrite Hp. Qed.

(** Two answers with a quorum each among fewer than twice as many members are one. *)
Lemma tallies_disjoint key key' results : key <> key' ->
  (length (votes_for key results) + length (votes_for key' results) <= length results)%nat.
Proof.
  intros Hne. induction results as [|[member [v|e]] results IH]; [done| |].
  - change ((member, Ok v) :: results) with ([(member, Ok v)] ++ results). rewrite !votes_for_app, !votes_for_ok, !length_app.
    cbn [length]. repeat case_bool_decide; cbn [length]; try lia. congruence.
  - cbn. fold (votes_for key results) (votes_for key' results). lia.
Qed.

Lemma read_decided operation rest :
  1 <= quorum -> (forall key a l, map snd (votes_for key rest) = a :: l -> forall l', l' `prefix_of` l -> merge_all a l' <> None) ->
  (exists key, quorum <= Z.of_nat (length (votes_for key rest))) <->
  (exists v, quorum_read digest merge quorum operation rest = Some (Ok v)).
Proof.
  intros Hq Htotal. pose proof (quorum_loop_start rest Hq) as Ho. unfold quorum_read.
  destruct (quorum_loop digest merge quorum ∅ 0 [] rest) as [m|matching failures|]; unfold outcome in Ho; cbn [app] in Ho.
  - destruct Ho as (key & pre & post & member & a & l & -> & Ht & _ & Hl). split; [intros _; by exists m|intros _].
    exists key. rewrite votes_for_app, Ht, length_app. cbn [length] in *. lia.
  - destruct Ho as (Hlt & _). split; [intros [key Hk]; specialize (Hlt key); lia|intros [v [=]]].
  - exfalso. destruct Ho as (key & pre & post & member & a & l & -> & Ht & Hm).
    refine (Htotal key a (map snd l ++ map snd (votes_for key post)) _ (map snd l) _ Hm).
    + rewrite votes_for_app, Ht, map_app. done.
    + by exists (map snd (votes_for key post)).
Qed.
End quorum_facts.

(** ** The least confirmations *)

Lemma lower_confirmations_spec mine other :
  events_json mine = events_json other ->
  exists m, lower_confirmations mine other = Some m /\ events_json m = events_json mine /\
    forall k e, m !! k = Some e -> exists a b, mine !! k = Some a /\ other !! k = Some b /\
      te_Confirmations e = Z.min (te_Confirmations a) (te_Confirmations b).
Proof.
  unfold events_json. revert other. induction mine as [|a mine IH]; intros [|b other] Heq; try done.
  - exists []. split_and!; [done|done|]. intros k e Hk. done.
  - apply (f_equal (@List.tl _)) in Heq. cbn [map List.tl] in Heq. destruct (IH other Heq) as (m & Hm & Hj & Hk).
    cbn [lower_confirmations]. rewrite Hm. cbn. eexists. split; [reflexivity|]. split.
    + cbn [map]. rewrite Hj. f_equal. by destruct (_ <? _).
    + intros [|k] e; [|apply Hk]. intros [= <-]. exists a, b. split_and!; [done|done|].
      destruct (Z.ltb_spec (te_Confirmations b) (te_Confirmations a)); cbn; lia.
Qed.

(** [m] agrees with every member of [group] and takes the least confirmations. *)
Definition least_of (group : list (list TransferEvent)) (m : list TransferEvent) : Prop :=
  (forall g, In g group -> events_json g = events_json m) /\
  forall k e, m !! k = Some e ->
    (forall g, In g group -> exists e', g !! k = Some e' /\ te_Confirmations e <= te_Confirmations e') /\
    exists g e', In g group /\ g !! k = Some e' /\ te_Confirmations e' = te_Confirmations e.

Lemma merge_all_lower_snoc group m b m' :
  least_of group m -> events_json m = events_json b -> lower_confirmations m b = Some m' -> least_of (group ++ [b]) m'.
Proof.
  intros [Hj Hl] Hb Hm. destruct (lower_confirmations_spec m b Hb) as (m0 & Hm0 & Hj0 & Hk0).
  rewrite Hm in Hm0. injection Hm0 as <-. split.
  - intros g [Hg|[<-|[]]]%in_app_iff; [by rewrite Hj0, Hj|by rewrite Hj0].
  - intros k e Hk. destruct (Hk0 k e Hk) as (x & y & Hx & Hy & He). destruct (Hl k x Hx) as [H1 (g & z & Hg & Hz & Hzx)]. split.
    + intros g' [Hg'|[<-|[]]]%in_app_iff; [destruct (H1 g' Hg') as (z' & Hz' & Hle); exists z'|exists y]; (split; [done|lia]).
    + destruct (Z.le_ge_cases (te_Confirmations x) (te_Confirmations y)).
      * exists g, z. split_and!; [apply in_app_iff; by left|done|lia].
      * exists b, y. split_and!; [apply in_app_iff; right; by left|done|lia].
Qed.

Lemma merge_all_lower a l :
  (forall b, In b l -> events_json b = events_json a) ->
  exists m, merge_all lower_confirmations a l = Some m /\ least_of (a :: l) m.
Proof.
  induction l as [|b l IH] using rev_ind; intros Hall.
  - exists a. split; [done|]. split; [by intros g [<-|[]]|]. intros k e Hk. split.
    + intros g [<-|[]]. exists e. split; [done|lia].
    + exists a, e. split_and!; [by left|done|done].
  - destruct IH as (m & Hm & Hl); [intros; apply Hall, in_app_iff; by left|].
    rewrite merge_all_snoc, Hm.
    assert (events_json m = events_json b) as Hmb.
    { rewrite <- (proj1 Hl a) by (by left). symmetry. apply Hall, in_app_iff. right. by left. }
    destruct (lower_confirmations_spec m b Hmb) as (m' & Hm' & _). exists m'. split; [done|].
    by apply (merge_all_lower_snoc (a :: l) m b).
Qed.

Lemma merge_all_batches a l :
  merge_all merge_batch a l =
    match merge_all lower_confirmations (rb_Events a) (map rb_Events l) with
    | Some events => Some (with_events a events)
    | None => None
    end.
Proof.
  induction l as [|b l IH] using rev_ind; [by destruct a|].
  rewrite map_app. cbn [map]. rewrite !merge_all_snoc, IH.
  destruct (merge_all lower_confirmations _ _) as [m|]; [|done]. unfold merge_batch. cbn.
  by destruct (lower_confirmations m (rb_Events b)).
Qed.

Lemma events_json_length a b : events_json a = events_json b -> length a = length b.
Proof. intros H. apply (f_equal length) in H. unfold events_json in H. by rewrite !length_map in H. Qed.

Lemma merge_all_events a l :
  (forall b, In b l -> events_json b = events_json a) -> merge_all merge_events a l = merge_all lower_confirmations a l.
Proof.
  induction l as [|b l IH] using rev_ind; intros Hall; [done|].
  rewrite !merge_all_snoc, IH by (intros; apply Hall, in_app_iff; by left).
  destruct (merge_all_lower a l) as (m & -> & Hm & _); [intros; apply Hall, in_app_iff; by left|].
  unfold merge_events. rewrite (events_json_length m b), Nat.eqb_refl; [done|].
  rewrite <- (Hm a) by (by left). symmetry. apply Hall, in_app_iff. right. by left.
Qed.

Lemma prefix_In {B} (l' l : list B) x : l' `prefix_of` l -> In x l' -> In x l.
Proof. intros [t ->] Hx. apply in_app_iff. by left. Qed.

(** ** The range quorum *)
Section range_quorum.
Context (marshal : BatchJSON -> option string) (sha256 : string -> string) (quorum : Z).
Abbreviation digest := (batch_digest marshal sha256) (only parsing).
Abbreviation Ranges := (list (nat * string * result provider_error RangeBatch)) (only parsing).

(** No two of the answers have one digest and different JSON: SHA-256 does not
    collide on them. *)
Definition no_collision (results : Ranges) : Prop :=
  forall m v m' v', In (m, Ok v) results -> In (m', Ok v') results -> digest v = digest v' -> digest v <> None ->
    batch_json v = batch_json v'.

Lemma no_collision_incl results results' : incl results' results -> no_collision results -> no_collision results'.
Proof. intros Hi Hc m v m' v' H1 H2. apply (Hc m v m' v'); by apply Hi. Qed.

Lemma group_same results key a l : no_collision results ->
  map snd (votes_for digest key results) = a :: l -> forall b, In b l -> batch_json b = batch_json a.
Proof.
  intros Hc Heq b Hb.
  assert (forall x, In x (a :: l) -> exists m, In (m, Ok x) results /\ digest x = Some key) as Hin.
  { intros x Hx. rewrite <- Heq in Hx. apply in_map_iff in Hx as ([m y] & <- & Hy). apply votes_for_In in Hy as [Hy Hd]. by exists m. }
  destruct (Hin a) as (ma & Ha & Hda); [by left|]. destruct (Hin b) as (mb & Hb' & Hdb); [by right|].
  apply (Hc mb b ma a); [done|done|congruence|congruence].
Qed.

Lemma events_same a b : batch_json a = batch_json b -> events_json (rb_Events a) = events_json (rb_Events b).
Proof. by intros [= _ _ _ H]. Qed.

Lemma merge_never_panics results : no_collision results ->
  forall key a l, map snd (votes_for digest key results) = a :: l -> forall l', l' `prefix_of` l -> merge_all merge_batch a l' <> None.
Proof.
  intros Hc key a l Heq l' Hl'. rewrite merge_all_batches.
  destruct (merge_all_lower (rb_Events a) (map rb_Events l')) as (m & -> & _); [|done].
  intros b (x & <- & Hx)%in_map_iff. apply events_same, (group_same results key a l Hc Heq). by apply (prefix_In l').
Qed.

(** C26: What a range quorum returns is agreed: there are as many different
    members as the quorum whose answers have the same JSON as the returned
    batch, up to confirmations; each event carries the least confirmations any
    of them reported; and the flags outside the JSON are those of one of them. *)
Theorem range_quorum_agrees results b :
  1 <= quorum -> no_collision results -> NoDup (map fst results) ->
  Quorum_ScanRange marshal sha256 quorum results = Some (Ok b) ->
  exists group, NoDup (map fst group) /\ Z.of_nat (length group) = quorum /\
    (forall m g, In (m, g) group -> In (m, Ok g) results /\ batch_json g = batch_json b) /\
    least_of (map (fun r => rb_Events (snd r)) group) (rb_Events b) /\
    exists m first, In (m, first) group /\ b = with_events first (rb_Events b).
Proof.
  intros Hq Hc Hnd H. unfold Quorum_ScanRange, quorum_read in H.
  pose proof (quorum_loop_start digest merge_batch quorum results Hq) as Ho.
  destruct (quorum_loop _ _ _ _ _ _ results) as [v|matching failures|]; [injection H as ->|destruct (quorum =? 1); discriminate|done].
  destruct Ho as (key & pre & post & member & a & l & -> & Ht & Hm & Hl). cbn [app] in Ht.
  pose proof (no_collision_incl _ pre (incl_appl post (incl_refl pre)) Hc) as Hcp.
  assert (Hsame : forall x, In x (map snd l) -> batch_json x = batch_json a)
    by (apply (group_same pre key a (map snd l) Hcp); by rewrite Ht).
  rewrite merge_all_batches in Hm.
  destruct (merge_all_lower (rb_Events a) (map rb_Events (map snd l))) as (m & Hm' & Hleast).
  { intros x (y & <- & Hy)%in_map_iff. by apply events_same, Hsame. }
  rewrite Hm' in Hm. injection Hm as <-.
  assert (Hb : batch_json (with_events a m) = batch_json a).
  { unfold batch_json. cbn. f_equal. symmetry. apply (proj1 Hleast). by left. }
  exists ((member, a) :: l). split; [|split; [done|split; [|split]]].
  - assert (map fst (votes_for digest key pre) `sublist_of` map fst pre) as Hsub.
    { clear. induction pre as [|[mb [v|e]] pre IH]; [constructor| |].
      - unfold votes_for. cbn. case_bool_decide; cbn; [by constructor|by constructor].
      - by constructor. }
    rewrite Ht in Hsub. eapply sublist_NoDup; [|exact Hsub]. rewrite map_app in Hnd. by apply NoDup_app in Hnd as [? _].
  - intros mb g Hg. rewrite Hb. assert (In (mb, g) (votes_for digest key pre)) as Hg' by (by rewrite Ht).
    apply votes_for_In in Hg' as [Hg' _]. split; [apply in_app_iff; by left|].
    destruct Hg as [[= <- <-]|Hg]; [done|]. apply Hsame. apply in_map_iff. by exists (mb, g).
  - cbn [map snd]. rewrite map_map in Hleast. exact Hleast.
  - exists member, a. split; [by left|done].
Qed.

(** The digest behind a returned batch. *)
Lemma range_quorum_key results b :
  1 <= quorum -> no_collision results -> Quorum_ScanRange marshal sha256 quorum results = Some (Ok b) ->
  exists key m g, In (m, Ok g) results /\ digest g = Some key /\ batch_json g = batch_json b /\
    quorum <= Z.of_nat (length (votes_for digest key results)).
Proof.
  intros Hq Hc H. unfold Quorum_ScanRange, quorum_read in H.
  pose proof (quorum_loop_start digest merge_batch quorum results Hq) as Ho.
  destruct (quorum_loop _ _ _ _ _ _ results) as [v|matching failures|]; [injection H as ->|destruct (quorum =? 1); discriminate|done].
  destruct Ho as (key & pre & post & member & a & l & -> & Ht & Hm & Hl). cbn [app] in Ht.
  assert (In (member, a) (votes_for digest key pre)) as Hin by (rewrite Ht; by left). apply votes_for_In in Hin as [Hin Hd].
  exists key, member, a. split_and!; [apply in_app_iff; by left|done| |rewrite votes_for_app, Ht, length_app; cbn [length] in *; lia].
  rewrite merge_all_batches in Hm. destruct (merge_all_lower (rb_Events a) (map rb_Events (map snd l))) as (m & Hm' & Hleast & _).
  { intros x (y & <- & Hy)%in_map_iff. apply events_same, (group_same pre key a (map snd l)); [|by rewrite Ht|done].
    exact (no_collision_incl _ pre (incl_appl post (incl_refl pre)) Hc). }
  rewrite Hm' in Hm. injection Hm as <-. unfold batch_json. cbn. f_equal. apply Hleast. by left.
Qed.

(** A range quorum succeeds exactly when some answer has a quorum of equal
    ones, in whatever order they arrive; and when the quorum is a majority, two
    orders of the same answers give the same batch up to confirmations. *)
Theorem range_quorum_decides results :
  1 <= quorum -> no_collision results ->
  ((exists b, Quorum_ScanRange marshal sha256 quorum results = Some (Ok b)) <->
   (exists key, quorum <= Z.of_nat (length (votes_for digest key results)))) /\
  (forall results' b b', Permutation results results' -> Z.of_nat (length results) < 2 * quorum ->
     Quorum_ScanRange marshal sha256 quorum results = Some (Ok b) ->
     Quorum_ScanRange marshal sha256 quorum results' = Some (Ok b') -> batch_json b = batch_json b').
Proof.
  intros Hq Hc. split; [symmetry; by apply read_decided, merge_never_panics|].
  intros results' b b' Hp Hmaj Hb Hb'.
  pose proof (no_collision_incl results results' (fun x => Permutation_in x (Permutation_sym Hp)) Hc) as Hc'.
  destruct (range_quorum_key results b Hq Hc Hb) as (key & m & g & Hg & Hd & <- & Hk).
  destruct (range_quorum_key results' b' Hq Hc' Hb') as (key' & m' & g' & Hg' & Hd' & <- & Hk').
  apply (Permutation_in _ (Permutation_sym Hp)) in Hg'.
  destruct (decide (key = key')) as [<-|Hne]; [apply (Hc m g m' g'); [done|done|congruence|congruence]|].
  rewrite (Permutation_length (votes_for_perm digest key' _ _ (Permutation_sym Hp))) in Hk'.
  pose proof (tallies_disjoint digest key key' results Hne). lia.
Qed.
End range_quorum.

(** ** Failover *)

Section failover_facts.
Context {A : Type} (accept : A -> bool) (refusal : provider_error) (ids : nat -> string).

(** A member gives what the call takes. *)
Definition gives (answers : nat -> result provider_error A) (i : nat) (v : A) : Prop :=
  answers i = Ok v /\ accept v = true.

Lemma failover_loop_spec answers order failures :
  match failover_loop accept refusal ids answers order failures with
  | inl (i, v) => exists before after, order = before ++ i :: after /\ gives answers i v /\
      forall j v', In j before -> ~ gives answers j v'
  | inr failures' => length failures' = (length failures + length order)%nat /\ forall j v', In j order -> ~ gives answers j v'
  end.
Proof.
  revert failures. induction order as [|i order IH]; intros failures; cbn [failover_loop]; [split; [cbn; lia|by intros]|].
  unfold gives in *. destruct (answers i) as [v|e] eqn:Ea.
  - destruct (accept v) eqn:Ev.
    + exists [], order. split_and!; [done|done|done|]. by intros j v' [].
    + specialize (IH (failures ++ [(i, ids i, refusal)])). destruct (failover_loop _ _ _ _ _ _) as [[j w]|failures'].
      * destruct IH as (before & after & -> & H1 & H2). exists (i :: before), after. split_and!; [done|apply H1..|].
        intros k v' [<-|Hk]; [intros [Hj Ha]; congruence|by apply H2].
      * destruct IH as [H1 H2]. split; [rewrite H1, length_app; cbn; lia|].
        intros k v' [<-|Hk]; [intros [Hj Ha]; congruence|by apply H2].
  - specialize (IH (failures ++ [(i, ids i, e)])). destruct (failover_loop _ _ _ _ _ _) as [[j w]|failures'].
    + destruct IH as (before & after & -> & H1 & H2). exists (i :: before), after. split_and!; [done|apply H1..|].
      intros k v' [<-|Hk]; [intros [Hj Ha]; congruence|by apply H2].
    + destruct IH as [H1 H2]. split; [rewrite H1, length_app; cbn; lia|].
      intros k v' [<-|Hk]; [intros [Hj Ha]; congruence|by apply H2].
Qed.

(** The member a call starts with. *)
Definition first_asked (f : FailoverSource) (now : Time) : nat :=
  if negb (Nat.eqb (fo_active f) 0) && negb (Before now (fo_retryPreferredAt f)) then 0%nat else fo_active f.

Lemma first_asked_lt n f now : (fo_active f < n)%nat -> (first_asked f now < n)%nat.
Proof.
  unfold first_asked. intros Hn.
  destruct (negb (Nat.eqb (fo_active f) 0) && negb (Before now (fo_retryPreferredAt f))); lia.
Qed.

Lemma mod_add_inj n s a b : (a < n)%nat -> (b < n)%nat -> ((s + a) mod n = (s + b) mod n)%nat -> a = b.
Proof.
  intros Ha Hb H. assert (forall x y, (x < n)%nat -> (y < n)%nat -> (x <= y)%nat -> ((s + x) mod n = (s + y) mod n)%nat -> x = y) as Hle.
  { intros x y Hx Hy Hxy Hm. pose proof (Nat.div_mod_eq (s + x) n) as D1. pose proof (Nat.div_mod_eq (s + y) n) as D2.
    rewrite Hm in D1. assert ((s + y) / n = (s + x) / n)%nat as E; [|lia].
    assert ((s + x) / n <= (s + y) / n)%nat by (apply Nat.Div0.div_le_mono; lia). nia. }
  destruct (Nat.le_ge_cases a b); [by apply Hle|symmetry; by apply Hle].
Qed.

(** Every member once, from the one the call starts with. *)
Lemma failover_order_spec n f now : (first_asked f now < n)%nat ->
  Permutation (failover_order n f now) (seq 0 n) /\ exists rest, failover_order n f now = first_asked f now :: rest.
Proof.
  intros Hn. unfold failover_order. fold (first_asked f now). set (s := first_asked f now) in *. split.
  - apply NoDup_Permutation_bis.
    + apply NoDup_ListNoDup, (NoDup_fmap_2_strong (fun offset => (s + offset) mod n)%nat); [|apply NoDup_seq].
      intros a b [_ Ha]%elem_of_seq [_ Hb]%elem_of_seq. by apply mod_add_inj.
    + by rewrite length_map.
    + intros x (o & <- & _)%in_map_iff. apply in_seq.
      pose proof (Nat.mod_upper_bound (s + o) n ltac:(lia)). lia.
  - destruct n as [|n]; [lia|]. cbn [seq map]. eexists. f_equal. rewrite Nat.add_0_r. by apply Nat.mod_small.
Qed.

(** A failover call succeeds exactly when some member gives an answer; it
    returns the first one in the order that starts at the active member, or at
    the preferred member once its time has come, keeps that member active, and
    asks nobody twice; when all fail, each failure is reported and the active
    member stays. *)
Theorem failover_first_answer n operation answers asked selected f f' r :
  (fo_active f < n)%nat ->
  failover_call accept refusal ids n operation answers asked selected f = (f', r) ->
  Permutation (failover_order n f asked) (seq 0 n) /\
  match r with
  | Ok v => exists before after, failover_order n f asked = before ++ fo_active f' :: after /\
      gives answers (fo_active f') v /\ (forall j v', In j before -> ~ gives answers j v') /\
      fo_retryPreferredAt f' = (if Nat.eqb (fo_active f') 0 then 0 else selected + 5 * Minute)
  | Err e => f' = f /\ (forall j v, (j < n)%nat -> ~ gives answers j v) /\
      exists failures, e = GroupFailure operation 1 0 failures /\ length failures = n
  end.
Proof.
  intros Hn. unfold failover_call.
  destruct (failover_order_spec n f asked (first_asked_lt n f asked Hn)) as [Hp _].
  pose proof (failover_loop_spec answers (failover_order n f asked) []) as Hs.
  destruct (failover_loop _ _ _ _ _ _) as [[i v]|failures]; intros [= <- <-]; (split; [done|]).
  - destruct Hs as (before & after & Ho & Hg & Hb). exists before, after. cbn. done.
  - destruct Hs as [Hl Hno]. split; [done|]. split.
    + intros j v Hj. apply Hno. apply (Permutation_in _ (Permutation_sym Hp)), in_seq. lia.
    + exists failures. split; [done|]. rewrite Hl, (Permutation_length Hp), length_seq. done.
Qed.

(** Calls one after the other: what the members would answer, when the order is
    taken and when the answer is selected. *)
Fixpoint failover_run (n : nat) (operation : string) (f : FailoverSource)
    (calls : list ((nat -> result provider_error A) * Time * Time)) : FailoverSource * list (result provider_error A) :=
  match calls with
  | [] => (f, [])
  | (answers, asked, selected) :: rest =>
      let (f', r) := failover_call accept refusal ids n operation answers asked selected f in
      let (f'', rs) := failover_run n operation f' rest in (f'', r :: rs)
  end.

(** Each call is made less than five minutes after the one before it was served. *)
Fixpoint busy (retryAt : Time) (calls : list ((nat -> result provider_error A) * Time * Time)) : Prop :=
  match calls with
  | [] => True
  | (_, asked, selected) :: rest => asked < retryAt /\ busy (selected + 5 * Minute) rest
  end.

(** The preferred member is tried again only after five idle minutes. As long
    as calls follow each other faster, and a fallback serves them, the preferred
    member is not asked once, however long this lasts and however healthy it is. *)
Theorem busy_failover_never_returns n operation f calls :
  (fo_active f < n)%nat -> fo_active f <> 0%nat -> busy (fo_retryPreferredAt f) calls ->
  Forall (fun c => exists v, gives (fst (fst c)) (fo_active f) v) calls ->
  fo_active (fst (failover_run n operation f calls)) = fo_active f /\
  Forall2 (fun c r => r = fst (fst c) (fo_active f)) calls (snd (failover_run n operation f calls)).
Proof.
  intros Hn H0. revert f Hn H0. induction calls as [|[[answers asked] selected] calls IH]; intros f Hn H0 Hb Hg; [by cbn|].
  cbn [failover_run]. destruct Hb as [Ha Hb]. apply Forall_cons in Hg as [[v [Hv Hacc]] Hg].
  assert (first_asked f asked = fo_active f) as Hf.
  { unfold first_asked, Before. rewrite (proj2 (Z.ltb_lt _ _) Ha). by rewrite andb_false_r. }
  destruct (failover_order_spec n f asked) as (_ & rest & Ho); [by rewrite Hf|]. rewrite Hf in Ho.
  unfold failover_call. rewrite Ho. cbn [failover_loop]. cbn [fst] in Hv. rewrite Hv, Hacc.
  unfold selectProvider. rewrite (proj2 (Nat.eqb_neq _ _) H0).
  specialize (IH (mkFailover (fo_active f) (AddTime selected failoverPreferredProbeInterval)) Hn H0 Hb Hg). cbn [fo_active] in IH.
  destruct (failover_run _ _ _ calls) as [f'' rs]. cbn [fst snd] in *. destruct IH as [IH1 IH2]. split; [done|].
  constructor; [cbn [fst]; by rewrite Hv|done].
Qed.
End failover_facts.

(** ** Destination filter *)

(** The filter passes exactly the transfers to watched addresses, in their
    order, and leaves the blocks and bounds of the range as they are, so two
    sources that differ only in other transfers agree behind it. *)
Theorem filter_keeps_watched watched b :
  let f := filter_batch watched b in
  (forall e, In e (rb_Events f) <-> In e (rb_Events b) /\ In (ei_ToAddress (te_Identity e)) watched) /\
  rb_Events f `sublist_of` rb_Events b /\ rb_Blocks f = rb_Blocks b /\ rb_From f = rb_From b /\ rb_To f = rb_To b /\
  forall c, rb_From b = rb_From c -> rb_To b = rb_To c -> rb_Blocks b = rb_Blocks c ->
    List.filter (watched_event watched) (rb_Events b) = List.filter (watched_event watched) (rb_Events c) ->
    batch_json (filter_batch watched b) = batch_json (filter_batch watched c).
Proof.
  cbv zeta. split_and!; [|..|done|done|done|].
  - intros e. cbn. rewrite filter_In. unfold watched_event. by rewrite existsb_str_In.
  - cbn. induction (rb_Events b) as [|e l IH]; cbn; [constructor|]. destruct (watched_event watched e); by constructor.
  - intros c H1 H2 H3 H4. unfold batch_json, filter_batch. cbn. by rewrite H1, H2, H3, H4.
Qed.

(** ** The rate policy *)

Fixpoint permits (policy : ProviderPolicy) (windows : gmap string rate_window) (times : list Time) : list (Time * bool) :=
  match times with
  | [] => []
  | now :: rest => let (windows', ok) := permit policy windows now in (now, ok) :: permits policy windows' rest
  end.

(** The calls permitted before [until]. *)
Definition permitted_before (until : Time) (l : list (Time * bool)) : Z :=
  Z.of_nat (length (List.filter (fun p : Time * bool => snd p && (fst p <? until)) l)).

Section rate.
Context (policy : ProviderPolicy).
Hypothesis limit_pos : 1 <= pp_RateLimit policy.
Hypothesis window_pos : 0 < pp_RateWindow policy.
Abbreviation W := (pp_RateWindow policy) (only parsing).
Abbreviation limit := (pp_RateLimit policy) (only parsing).

(** The window of the operation, when one is open. *)
Definition in_window (windows : gmap string rate_window) (s u : Z) : Prop :=
  windows !! pp_Operation policy = Some (mkWindow s u) /\ 0 < s /\ 0 <= u <= limit.

Lemma permit_in_window windows s u now : in_window windows s u ->
  if now <? s + W then
    if u <? limit then exists windows', permit policy windows now = (windows', true) /\ in_window windows' s (u + 1)
    else permit policy windows now = (windows, false)
  else 0 < now -> exists windows', permit policy windows now = (windows', true) /\ in_window windows' now 1.
Proof.
  intros (Hw & Hs & Hu). unfold permit. rewrite Hw. cbn [default rw_started rw_used from_option id]. unfold IsZeroTime, Before, AddTime.
  rewrite (proj2 (Z.eqb_neq s 0)) by lia. cbn [orb]. destruct (Z.ltb_spec now (s + W)); cbn [negb rw_started rw_used].
  - destruct (Z.ltb_spec u limit), (Z.leb_spec limit u); try lia; [|done].
    eexists. split; [reflexivity|]. split_and!; [by rewrite lookup_insert_eq|lia..].
  - intros Hn. destruct (Z.leb_spec limit 0); [lia|]. eexists. split; [reflexivity|]. split_and!; [by rewrite lookup_insert_eq|lia..].
Qed.

Lemma permitted_nil until windows : permitted_before until (permits policy windows []) = 0.
Proof. done. Qed.

Lemma permitted_cons until now ok l :
  permitted_before until ((now, ok) :: l) = (if ok && (now <? until) then 1 else 0) + permitted_before until l.
Proof. unfold permitted_before. cbn [List.filter fst snd]. destruct (ok && (now <? until)); cbn [length]; lia. Qed.

Lemma permitted_late until windows times : Forall (fun t => until <= t) times -> permitted_before until (permits policy windows times) = 0.
Proof.
  revert windows. induction times as [|t times IH]; intros windows Ht; [done|]. apply Forall_cons in Ht as [Ht Hts]. cbn [permits].
  destruct (permit policy windows t) as [w' ok]. rewrite permitted_cons, IH by done.
  rewrite (proj2 (Z.ltb_ge t until)) by lia. by rewrite andb_false_r.
Qed.

(** Within the open window, and within one window more. *)
Lemma permitted_one windows s u times until :
  in_window windows s u -> until <= s + W -> Forall (fun t => 0 < t) times -> StronglySorted Z.le times ->
  permitted_before until (permits policy windows times) <= limit - u.
Proof.
  intros Hw Hu Hpos Hs. revert windows u Hw. induction Hs as [|t times Hs IH Hall]; intros windows u Hw.
  { destruct Hw as (_ & _ & ?). rewrite permitted_nil. lia. }
  apply Forall_cons in Hpos as [Ht Hpos]. pose proof (permit_in_window windows s u t Hw) as Hp. cbn [permits].
  destruct (Z.ltb_spec t (s + W)) as [Hlt|Hge].
  - destruct (Z.ltb_spec u limit).
    + destruct Hp as (w' & -> & Hw'). rewrite permitted_cons. specialize (IH Hpos w' (u + 1) Hw'). destruct (true && (t <? until)); lia.
    + rewrite Hp, permitted_cons. cbn [andb]. specialize (IH Hpos windows u Hw). lia.
  - destruct (permit policy windows t) as [w' ok]. rewrite permitted_cons, permitted_late by (eapply Forall_impl; [exact Hall|cbn; lia]).
    rewrite (proj2 (Z.ltb_ge t until)) by lia. rewrite andb_false_r. destruct Hw as (_ & _ & ?). lia.
Qed.

Lemma permitted_two windows s u times until :
  in_window windows s u -> until <= s + 2 * W -> Forall (fun t => 0 < t) times -> StronglySorted Z.le times ->
  permitted_before until (permits policy windows times) <= 2 * limit - u.
Proof.
  intros Hw Hu Hpos Hs. revert windows u Hw. induction Hs as [|t times Hs IH Hall]; intros windows u Hw.
  { destruct Hw as (_ & _ & ?). rewrite permitted_nil. lia. }
  apply Forall_cons in Hpos as [Ht Hpos]. pose proof (permit_in_window windows s u t Hw) as Hp. cbn [permits].
  destruct (Z.ltb_spec t (s + W)) as [Hlt|Hge].
  - destruct (Z.ltb_spec u limit).
    + destruct Hp as (w' & -> & Hw'). rewrite permitted_cons. specialize (IH Hpos w' (u + 1) Hw'). destruct (true && (t <? until)); lia.
    + rewrite Hp, permitted_cons. cbn [andb]. specialize (IH Hpos windows u Hw). lia.
  - destruct (Hp Ht) as (w' & -> & Hw'). rewrite permitted_cons.
    pose proof (permitted_one w' t 1 times until Hw' ltac:(lia) Hpos Hs). destruct Hw as (_ & _ & ?).
    destruct (true && (t <? until)); lia.
Qed.

(** The operation has no window yet, or one. *)
Definition windowed (windows : gmap string rate_window) : Prop :=
  windows !! pp_Operation policy = None \/ exists s u, in_window windows s u.

Lemma permit_windowed windows now : windowed windows -> 0 < now -> windowed (fst (permit policy windows now)).
Proof.
  intros [Hn|(s & u & Hw)] Hnow.
  - unfold permit. rewrite Hn. cbn. destruct (Z.leb_spec limit 0); [lia|]. right. exists now, 1.
    split_and!; [cbn; by rewrite lookup_insert_eq|lia..].
  - pose proof (permit_in_window windows s u now Hw) as Hp. destruct (now <? s + W).
    + destruct (u <? limit); [destruct Hp as (w' & -> & Hw')|rewrite Hp]; right; cbn; eauto.
    + destruct (Hp Hnow) as (w' & -> & Hw'). right. cbn. eauto.
Qed.

Lemma permitted_from windows t times :
  windowed windows -> 0 < t -> Forall (fun t' => t <= t') times -> StronglySorted Z.le times ->
  permitted_before (t + W) (permits policy windows times) <= 2 * limit.
Proof.
  intros Hw Ht Hfrom Hs. destruct Hs as [|t1 times Hs Hall]; [rewrite permitted_nil; lia|].
  apply Forall_cons in Hfrom as [H1 Hfrom]. assert (Forall (fun t' => 0 < t') times) as Hpos by (eapply Forall_impl; [exact Hfrom|cbn; lia]).
  assert (Hfirst : forall w', permit policy windows t1 = (w', true) -> in_window w' t1 1 ->
    permitted_before (t + W) (permits policy windows (t1 :: times)) <= 2 * limit).
  { intros w' E Hw'. cbn [permits]. rewrite E, permitted_cons.
    pose proof (permitted_one w' t1 1 times (t + W) Hw' ltac:(lia) Hpos Hs). destruct (true && (t1 <? t + W)); lia. }
  destruct Hw as [Hn|(s & u & Hw)].
  - apply (Hfirst (<[pp_Operation policy := mkWindow t1 1]> windows)).
    + unfold permit. rewrite Hn. cbn. by destruct (Z.leb_spec limit 0); [lia|].
    + split_and!; [by rewrite lookup_insert_eq|lia..].
  - destruct (Z.lt_ge_cases t1 (s + W)) as [Hlt|Hge].
    + pose proof (permitted_two windows s u (t1 :: times) (t + W) Hw ltac:(lia)) as H2. destruct Hw as (_ & _ & ?).
      assert (permitted_before (t + W) (permits policy windows (t1 :: times)) <= 2 * limit - u); [|lia].
      apply H2; [constructor; [lia|done]|by constructor].
    + pose proof (permit_in_window windows s u t1 Hw) as Hp. rewrite (proj2 (Z.ltb_ge t1 (s + W))) in Hp by lia.
      destruct (Hp ltac:(lia)) as (w' & E & Hw'). by apply (Hfirst w').
Qed.
End rate.

(** The calls permitted at or after [t] and before [t + W]. *)
Definition permitted_between (from until : Time) (l : list (Time * bool)) : Z :=
  Z.of_nat (length (List.filter (fun p : Time * bool => snd p && (from <=? fst p) && (fst p <? until)) l)).

(** However calls are spaced, a source is called at most twice the rate limit
    in any stretch of time as long as the rate window: one window cannot be
    exceeded, and no stretch meets more than two. *)
Theorem rate_policy_bound policy times t :
  1 <= pp_RateLimit policy -> 0 < pp_RateWindow policy -> 0 < t ->
  Forall (fun t' => 0 < t') times -> StronglySorted Z.le times ->
  permitted_between t (t + pp_RateWindow policy) (permits policy ∅ times) <= 2 * pp_RateLimit policy.
Proof.
  intros Hl HW Ht Hpos Hs. assert (windowed policy ∅) as Hw by (left; apply lookup_empty).
  revert Hw. generalize (∅ : gmap string rate_window). induction Hs as [|t1 times Hs IH Hall]; intros windows Hw; [unfold permitted_between; cbn; lia|].
  apply Forall_cons in Hpos as [H1 Hpos]. destruct (Z.lt_ge_cases t1 t) as [Hlt|Hge].
  - cbn [permits]. pose proof (permit_windowed policy Hl windows t1 Hw H1) as Hw'.
    destruct (permit policy windows t1) as [w' ok]. specialize (IH Hpos w' Hw'). unfold permitted_between in *. cbn [List.filter fst snd].
    rewrite (proj2 (Z.leb_gt t t1)) by lia. rewrite andb_false_r. exact IH.
  - pose proof (permitted_from policy Hl windows t (t1 :: times) Hw Ht) as Hf.
    assert (permitted_before (t + pp_RateWindow policy) (permits policy windows (t1 :: times)) <= 2 * pp_RateLimit policy) as Hb.
    { apply Hf; [|by constructor]. constructor; [lia|]. eapply Forall_impl; [exact Hall|cbn; lia]. }
    assert (forall (l : list (Time * bool)), permitted_between t (t + pp_RateWindow policy) l <= permitted_before (t + pp_RateWindow policy) l) as Hle.
    { intros l. unfold permitted_between, permitted_before. induction l as [|[x ok] l IHl]; cbn [List.filter fst snd]; [lia|].
      destruct ok, (t <=? x), (x <? t + pp_RateWindow policy); cbn [andb length]; lia. }
    etrans; [apply Hle|exact Hb].
Qed.

(** ** JSON-RPC batches *)

Section batches.
Context {T : Type} (decode : json_decoder T) (operation : string) (calls : list string).
Abbreviation n := (Z.of_nat (length calls)) (only parsing).

(** [e] answers call [id] with [v]. *)
Definition answers_call (e : rpcEnvelope) (id : Z) (v : T) : Prop :=
  ne_JSONRPC e = "2.0" /\ ParseInt64 (TrimSpace (ne_ID e)) = Some id /\ ne_Error e = None /\
  envelope_result decode (call_operation operation (nth (Z.to_nat (id - 1)) calls "")) "multiple JSON-RPC result values" e = Ok v.

Lemma envelope_loop_spec seen targets envelopes t :
  envelope_loop decode operation calls seen targets envelopes = Ok t ->
  exists ids, Forall2 (fun e id => 1 <= id <= n /\ exists v, answers_call e id v /\ t !! id = Some v) envelopes ids /\
    NoDup ids /\ (forall id, In id ids -> ~ In id seen) /\ (forall id, ~ In id ids -> t !! id = targets !! id).
Proof.
  revert seen targets. induction envelopes as [|e rest IH]; intros seen targets H; cbn [envelope_loop] in H.
  { injection H as <-. exists []. split_and!; [constructor|constructor|by intros id []|done]. }
  destruct (String.eqb_spec (ne_JSONRPC e) "2.0") as [Hj|]; [|done]. cbn [negb] in H.
  destruct (ParseInt64 (TrimSpace (ne_ID e))) as [id|] eqn:Eid; [|done].
  destruct ((id <? 1) || (n <? id) || existsb (Z.eqb id) seen) eqn:Eg; [done|].
  apply orb_false_iff in Eg as [[E1%Z.ltb_ge E2%Z.ltb_ge]%orb_false_iff Hseen].
  destruct (envelope_result _ _ _ e) as [v|] eqn:Hv; [|done]. destruct (IH _ _ H) as (ids & Hall & Hnd & Hdis & Hout).
  assert (~ In id ids) as Hid by (intros Hin; apply (Hdis id Hin); by left).
  exists (id :: ids). split_and!.
  - constructor; [|done]. split; [lia|]. exists v. split.
    + split_and!; [done|done| |done]. unfold envelope_result in Hv. by destruct (ne_Error e).
    + rewrite Hout by done. by rewrite lookup_insert_eq.
  - constructor; [|done]. by rewrite list_elem_of_In.
  - intros j [<-|Hin]; [|intros Hs; apply (Hdis j Hin); by right].
    intros Hs. assert (existsb (Z.eqb id) seen = true) as Hx; [|congruence].
    apply existsb_exists. exists id. split; [done|apply Z.eqb_refl].
  - intros j Hout_j. rewrite Hout by (intros Hin; apply Hout_j; by right). apply lookup_insert_ne. intros ->. apply Hout_j. by left.
Qed.

(** A batch that succeeds has bound every call, from 1 to their number, to
    the result of one envelope that names it, whatever the order of the
    response; no envelope answers two calls, none is left over, and no other
    target is written. *)
Theorem rpcBatch_binds answer t :
  rpcBatch decode operation calls answer = Ok t ->
  exists envelopes, answer = Ok envelopes /\ length envelopes = length calls /\ 1 <= n <= 100 /\
    (forall id, 1 <= id <= n -> exists e v, In e envelopes /\ answers_call e id v /\ t !! id = Some v) /\
    (forall e, In e envelopes -> exists id v, 1 <= id <= n /\ answers_call e id v /\ t !! id = Some v) /\
    (forall id, is_Some (t !! id) -> 1 <= id <= n).
Proof.
  unfold rpcBatch. intros H. destruct (Nat.eqb_spec (length calls) 0) as [|Hn]; [done|]. cbn [orb] in H.
  destruct (Z.ltb_spec 100 n); [done|]. destruct answer as [envelopes|]; [|done]. cbn in H.
  destruct (Nat.eqb_spec (length envelopes) (length calls)) as [Hl|]; [|done]. cbn [negb] in H.
  destruct (envelope_loop_spec _ _ _ _ H) as (ids & Hall & Hnd & _ & Hout).
  pose proof (Forall2_length _ _ _ Hall) as Hlen.
  assert (Hin : forall e, In e envelopes -> exists id v, In id ids /\ 1 <= id <= n /\ answers_call e id v /\ t !! id = Some v).
  { intros e [k Hk]%list_elem_of_In%list_elem_of_lookup. destruct (Forall2_lookup_l _ _ _ _ _ Hall Hk) as (id & Hid & Hb & v & Hv).
    exists id, v. split; [|done]. apply list_elem_of_In, list_elem_of_lookup. by exists k. }
  assert (Hback : forall id, In id ids -> 1 <= id <= n /\ exists e v, In e envelopes /\ answers_call e id v /\ t !! id = Some v).
  { intros id [k Hk]%list_elem_of_In%list_elem_of_lookup. destruct (Forall2_lookup_r _ _ _ _ _ Hall Hk) as (e & He & Hb & v & Hv).
    split; [done|]. exists e, v. split; [|done]. apply list_elem_of_In, list_elem_of_lookup. by exists k. }
  exists envelopes. split_and!; [done|done|lia|lia| | |].
  - intros id Hid. apply (Hback id).
    apply (NoDup_length_incl (l := ids) (l' := map (fun k => Z.of_nat k + 1) (seq 0 (length calls)))).
    + by apply NoDup_ListNoDup.
    + rewrite length_map, length_seq. lia.
    + intros j Hj. destruct (Hback j Hj) as [Hb _]. apply in_map_iff. exists (Z.to_nat (j - 1)). split; [lia|apply in_seq; lia].
    + apply in_map_iff. exists (Z.to_nat (id - 1)). split; [lia|apply in_seq; lia].
  - intros e He. destruct (Hin e He) as (id & v & _ & Hv). by exists id, v.
  - intros id [v Hv]. destruct (in_dec Z.eq_dec id ids) as [Hi|Hi]; [by apply Hback|]. rewrite Hout in Hv by done. by rewrite lookup_empty in Hv.
Qed.
End batches.

(** ** What the errors say *)

(** What a failure adds to the message of its group. *)
Definition disclosed (f : nat * string * provider_error) : nat * string * string := (fst f, failure_detail (snd f)).

Lemma sort_by_map {X Y} (lessX : X -> X -> bool) (lessY : Y -> Y -> bool) (f : X -> Y) l :
  (forall x y, lessY (f x) (f y) = lessX x y) -> sort_by lessY (map f l) = map f (sort_by lessX l).
Proof.
  intros Hf. assert (forall x r, insert_by lessY (f x) (map f r) = map f (insert_by lessX x r)) as Hi.
  { intros x r. induction r as [|y r IH]; [done|]. cbn [map insert_by]. rewrite Hf. destruct (lessX y x); [|done]. cbn [map]. by rewrite IH. }
  induction l as [|x l IH]; [done|]. cbn [map sort_by]. by rewrite IH, Hi.
Qed.

Lemma group_text_disclosed operation quorum matching failures :
  group_text operation quorum matching failures =
    let parts := map (fun d : nat * string * string => failure_label (fst (fst d)) (snd (fst d)) +:+ ": " +:+ snd d)
      (sort_by (fun x y : nat * string * string => Nat.ltb (fst (fst x)) (fst (fst y))) (map disclosed failures)) in
    let parts := match parts with [] => ["providers returned different canonical responses"] | _ => parts end in
    operation +:+ " requires " +:+ FormatInt quorum +:+ " matching responses, received " +:+ FormatInt matching
    +:+ "; " +:+ Join parts "; ".
Proof.
  unfold group_text. cbv zeta. rewrite (sort_by_map failure_less _ disclosed) by done. rewrite map_map.
  by rewrite (map_ext (fun '(index, id, e) => failure_label index id +:+ ": " +:+ failure_detail e)
    (fun x => failure_label (fst (fst (disclosed x))) (snd (fst (disclosed x))) +:+ ": " +:+ snd (disclosed x))) by (by intros [[index id] e]).
Qed.

(** The message of a group speaks of its members by position, a safe label,
    and the operation, kind and status of their first classified error: it does
    not depend on anything else they report, nor on the order of arrival. *)
Theorem group_text_safe operation quorum matching failures failures' :
  NoDup (map (fun f : nat * string * provider_error => fst (fst f)) failures) ->
  Permutation (map disclosed failures) (map disclosed failures') ->
  group_text operation quorum matching failures = group_text operation quorum matching failures'.
Proof.
  intros Hnd Hp. rewrite !group_text_disclosed. cbv zeta. rewrite (sort_by_determined _ (map disclosed failures) (map disclosed failures')).
  - done.
  - intros x y. destruct (Nat.ltb_spec (fst (fst x)) (fst (fst y))); [|done]. intros _. apply Nat.ltb_ge. lia.
  - intros x y z. destruct (Nat.ltb_spec (fst (fst x)) (fst (fst z))); [|done]. intros _.
    destruct (Nat.ltb_spec (fst (fst x)) (fst (fst y))); [by left|right]. apply Nat.ltb_lt. lia.
  - intros x y (f & <- & Hx)%in_map_iff (g & <- & Hy)%in_map_iff. cbn [disclosed fst snd].
    destruct (Nat.lt_trichotomy (fst (fst f)) (fst (fst g))) as [?|[He|?]]; [left; by apply Nat.ltb_lt| |right; left; by apply Nat.ltb_lt].
    right. right. assert (f = g) as ->; [|done].
    apply list_elem_of_In, list_elem_of_lookup in Hx as [i Hi], Hy as [j Hj].
    assert (i = j) as ->; [|congruence]. apply (NoDup_lookup _ _ _ (fst (fst f)) Hnd); rewrite list_lookup_fmap; [by rewrite Hi|by rewrite Hj, He].
  - done.
Qed.

(** The requests of one client start at least its minimum interval apart,
    and not before a postponed time. *)
Fixpoint client_run (c : endpointClient) (nextRPC : Time) (steps : list ((Time * Time) + (Time * Duration))) (starts : list Time) : Prop :=
  match steps with
  | [] => starts = []
  | inl (now, woke) :: rest => wake_ok nextRPC now woke /\
      exists starts', starts = woke :: starts' /\ client_run c (waitForRateLimit c woke) rest starts'
  | inr (now, delay) :: rest => client_run c (postpone nextRPC now delay) rest starts
  end.

Lemma postpone_ge nextRPC now delay : nextRPC <= postpone nextRPC now delay.
Proof.
  unfold postpone. destruct (Z.leb_spec delay 0); [lia|]. unfold After. destruct (Z.ltb_spec nextRPC (AddTime now delay)); lia.
Qed.

Theorem requests_are_spaced c nextRPC steps starts :
  0 <= xc_minWait c -> client_run c nextRPC steps starts ->
  Forall (fun s => nextRPC <= s) starts /\ StronglySorted (fun a b => a + xc_minWait c <= b) starts.
Proof.
  intros Hm. revert nextRPC starts. induction steps as [|[[now woke]|[now delay]] steps IH]; intros nextRPC starts H; cbn in H.
  - subst. by repeat constructor.
  - destruct H as ([Hw1 Hw2] & starts' & -> & H). destruct (IH _ _ H) as [Hf Hs]. unfold waitForRateLimit, AddTime in Hf.
    split; [constructor; [done|]|by constructor]. eapply Forall_impl; [exact Hf|]. cbn. lia.
  - destruct (IH _ _ H) as [Hf Hs]. split; [|done]. eapply Forall_impl; [exact Hf|]. cbn. intros. pose proof (postpone_ge nextRPC now delay). lia.
Qed.

(** A permitted call makes at most [MaxAttempts] attempts and returns the
    first answer, or the error of the last attempt; a policy that allows no
    attempt at all reports success with the zero value. *)
Theorem policy_attempts_first {A} (zero : A) answers k :
  policy_attempts zero answers (fun _ => None) k 0 None =
    match List.find (fun i => match answers i with Ok _ => true | Err _ => false end) (seq 0 k) with
    | Some i => answers i
    | None => match k with O => Ok zero | S k' => answers k' end
    end.
Proof.
  assert (forall a last, policy_attempts zero answers (fun _ => None) k a last =
    match List.find (fun i => match answers i with Ok _ => true | Err _ => false end) (seq a k) with
    | Some i => answers i
    | None => match k with O => match last with Some e => Err e | None => Ok zero end | S k' => answers (a + k')%nat end
    end) as Hall; [|exact (Hall 0%nat None)].
  induction k as [|k IH]; intros a last; [done|]. cbn [policy_attempts seq List.find]. destruct (answers a) as [v|e] eqn:Ea; [done|].
  destruct k as [|k]; [cbn; by rewrite Nat.add_0_r, Ea|]. rewrite IH. destruct (List.find _ _); [done|].
  by replace (S a + k)%nat with (a + S k)%nat by lia.
Qed.

(** ** Concrete instances *)

Definition sample_event (confirmations : Z) : TransferEvent :=
  mkTransferEvent "tev_1" (mkIdentity "eip155:56" "0xaa" "0" "native" "0xbb") "native" "0xcc" 100 18 10 "0xh10" 1000 confirmations
    TransferObserved "parser" "hash" "".
Definition sample_batch (from confirmations : Z) (idle : bool) : RangeBatch :=
  mkBatch from 10 [mkBlock 10 "0xh10" "0xh9" 1000] [sample_event confirmations] [] false false idle.
Definition sample_marshal (b : BatchJSON) : option string := Some (FormatInt (bj_From b)).
Definition sample_results : list (nat * string * result provider_error RangeBatch) :=
  [((2%nat, "c"), Ok (sample_batch 10 9 true)); ((1%nat, "b"), Err (OtherError "down"));
   ((3%nat, "d"), Ok (sample_batch 9 4 false)); ((0%nat, "a"), Ok (sample_batch 10 7 false))].

Lemma sample_no_collision : no_collision sample_marshal (fun s => s) sample_results.
Proof.
  intros m v m' v' Hv Hv' Hd _. unfold sample_results in Hv, Hv'. cbn [In] in Hv, Hv'.
  destruct Hv as [[= <- <-]|[[=]|[[= <- <-]|[[= <- <-]|[]]]]], Hv' as [[= <- <-]|[[=]|[[= <- <-]|[[= <- <-]|[]]]]];
    first [reflexivity|vm_compute in Hd; discriminate].
Qed.

Lemma sample_members : NoDup (map fst sample_results).
Proof. apply NoDup_ListNoDup. cbn. repeat constructor; cbn; intuition discriminate. Qed.

Lemma range_quorum_agrees_witness :
  Quorum_ScanRange sample_marshal (fun s => s) 2 sample_results = Some (Ok (sample_batch 10 7 true)) /\
  exists group, NoDup (map fst group) /\ Z.of_nat (length group) = 2 /\
    (forall m g, In (m, g) group -> In (m, Ok g) sample_results /\ batch_json g = batch_json (sample_batch 10 7 true)) /\
    least_of (map (fun r => rb_Events (snd r)) group) (rb_Events (sample_batch 10 7 true)) /\
    exists m first, In (m, first) group /\ sample_batch 10 7 true = with_events first (rb_Events (sample_batch 10 7 true)).
Proof.
  split; [vm_compute; reflexivity|].
  exact (range_quorum_agrees sample_marshal (fun s => s) 2 sample_results (sample_batch 10 7 true) ltac:(lia) sample_no_collision
    sample_members ltac:(vm_compute; reflexivity)).
Defined.

Lemma range_quorum_decides_witness :
  exists b, Quorum_ScanRange sample_marshal (fun s => s) 2 sample_results = Some (Ok b).
Proof.
  apply (proj2 (proj1 (range_quorum_decides sample_marshal (fun s => s) 2 sample_results ltac:(lia) sample_no_collision))).
  exists (hex_encode "10"). vm_compute. discriminate.
Defined.

Definition sample_answers (i : nat) : result provider_error nat :=
  match i with 0%nat => Err (OtherError "down") | _ => Ok (i * 10)%nat end.

Lemma failover_first_answer_witness :
  failover_call (fun _ => true) (OtherError "") (fun _ => "node") 3 "range failover" sample_answers 100 101 NewFailoverSource =
    (mkFailover 1 (101 + 5 * Minute), Ok 10%nat) /\
  Permutation (failover_order 3 NewFailoverSource 100) (seq 0 3).
Proof.
  split; [vm_compute; reflexivity|].
  exact (proj1 (failover_first_answer (fun _ => true) (OtherError "") (fun _ => "node") 3 "range failover" sample_answers 100 101
    NewFailoverSource (mkFailover 1 (101 + 5 * Minute)) (Ok 10%nat) ltac:(cbn; lia) ltac:(vm_compute; reflexivity))).
Defined.

Definition healthy_answers (i : nat) : result provider_error nat := Ok (i * 10)%nat.
Definition minute_calls : list ((nat -> result provider_error nat) * Time * Time) :=
  map (fun k => (healthy_answers, 1000 + Z.of_nat k * Minute, 1000 + Z.of_nat k * Minute)) (seq 0 30).

Lemma busy_failover_never_returns_witness :
  fo_active (fst (failover_run (fun _ => true) (OtherError "") (fun _ => "node") 3 "range failover" (mkFailover 2 (1000 + 5 * Minute)) minute_calls)) = 2%nat /\
  Forall2 (fun c r => r = fst (fst c) 2%nat) minute_calls
    (snd (failover_run (fun _ => true) (OtherError "") (fun _ => "node") 3 "range failover" (mkFailover 2 (1000 + 5 * Minute)) minute_calls)).
Proof.
  apply (busy_failover_never_returns (fun _ => true) (OtherError "") (fun _ => "node") 3 "range failover"
    (mkFailover 2 (1000 + 5 * Minute)) minute_calls).
  - cbn. lia.
  - discriminate.
  - vm_compute. repeat split.
  - unfold minute_calls. apply Forall_map, Forall_true. intros k. by exists 20%nat.
Defined.

Definition hourly : ProviderPolicy := mkProviderPolicy "b" "t" "head" Second 3 Second 2 Minute Hour 10 3 Minute 2 1 "d" 1.

Lemma rate_policy_bound_witness :
  permits hourly ∅ [1; 2; 3; 1 + Minute] = [(1, true); (2, true); (3, false); (1 + Minute, true)] /\
  permitted_between 2 (2 + pp_RateWindow hourly) (permits hourly ∅ [1; 2; 3; 1 + Minute]) <= 2 * pp_RateLimit hourly.
Proof.
  split; [vm_compute; reflexivity|].
  apply (rate_policy_bound hourly [1; 2; 3; 1 + Minute] 2); [cbn; lia|vm_compute; reflexivity|lia| |].
  - repeat constructor; vm_compute; reflexivity.
  - repeat constructor; vm_compute; discriminate.
Defined.

Definition sample_decode (s : string) : option (string * bool) := Some (s, true).
Definition sample_envelopes : list rpcEnvelope := [mkEnvelope "2.0" "2" "beta" None; mkEnvelope "2.0" "1" "alpha" None].

Definition sample_targets : gmap Z string := <[1 := "alpha"]> (<[2 := "beta"]> ∅).

Lemma rpcBatch_binds_witness :
  rpcBatch sample_decode "blocks" ["block"; ""] (Ok sample_envelopes) = Ok sample_targets /\
  exists envelopes, Ok (E := provider_error) sample_envelopes = Ok envelopes /\ length envelopes = 2%nat.
Proof.
  split; [vm_compute; reflexivity|].
  destruct (rpcBatch_binds sample_decode "blocks" ["block"; ""] (Ok sample_envelopes) sample_targets
    ltac:(vm_compute; reflexivity)) as (envelopes & H & Hl & _).
  exists envelopes. exact (conj H Hl).
Defined.

Lemma group_text_safe_witness :
  group_text "range quorum" 2 1 [((1%nat, "node-b"), ProviderError ErrorTransient "head" 503 0 (Some (OtherError "key=secret"))); ((0%nat, "a b"), OtherError "x")]
  = group_text "range quorum" 2 1 [((0%nat, "a b"), OtherError "token"); ((1%nat, "node-b"), ProviderError ErrorTransient "head" 503 0 None)].
Proof.
  apply group_text_safe.
  - apply NoDup_ListNoDup. cbn. repeat constructor; cbn; intuition discriminate.
  - apply perm_swap.
Defined.

Lemma requests_are_spaced_witness :
  StronglySorted (fun a b => a + 5 <= b) [10; 15; 40].
Proof.
  apply (requests_are_spaced (mkEndpointClient 5 Second) 0 [inl (10, 10); inl (11, 15); inr (20, 20); inl (21, 40)] [10; 15; 40]).
  - cbn. lia.
  - split; [vm_compute; split; discriminate|]. eexists; split; [reflexivity|].
    split; [vm_compute; split; discriminate|]. eexists; split; [reflexivity|].
    split; [vm_compute; split; discriminate|]. eexists; split; [reflexivity|]. reflexivity.
Defined.
