(* ===== verification/Evm.v ===== *)
(** * Evm: internal/providers/evm.go

    The EVM source: strict parsers of quantities, hashes, addresses and amounts,
    the validation of blocks, the full scan of a range (receipts and traces of
    every block), the watched scan (native candidates by receipt, token
    transfers by log filter), the idle checkpoint, and the direct look-up of one
    transaction. What the node answers to each JSON-RPC call is a parameter
    (Providers.v models the calls); JSON encoding and SHA-256 are parameters. *)

From Stdlib Require Import ZArith Lia Ascii String.
From stdpp Require Import base gmap list strings.
From S2P Require Import Prelude Text Numerals Money Domain Scanner Chains Providers.

(** A loop that stops at the first error. *)
Fixpoint traverse {E A B} (f : A -> result E B) (l : list A) : result E (list B) :=
  match l with
  | [] => Ok []
  | a :: r => b ← f a; bs ← traverse f r; Ok (b :: bs)
  end.

(** An error that is not of the layer, wrapped by the caller. *)
Definition lift_err {E A B} (f : E -> B) (r : result E A) : result B A :=
  match r with Ok a => Ok a | Err e => Err (f e) end.

Definition of_option {E A} (e : E) (o : option A) : result E A := match o with Some a => Ok a | None => Err e end.

(** ** Parsers *)

(** [strings.ToLower] of text that must then be hexadecimal, [lower_ascii]; and
    [strings.EqualFold] with lower-case hexadecimal text. *)
Definition fold_eq (s canonical : string) : bool := lower_ascii s == canonical.

(** Lower case with one two-byte rune read as a letter: [strings.ToLower] takes
    U+0130 to "i" and [strings.ToUpper] takes U+017F to "S". No other rune has
    an ASCII image that matters to a comparison with the constants below. *)
Fixpoint lower_with (first second : Z) (letter : ascii) (s : string) : string :=
  match s with
  | EmptyString => ""
  | String a t =>
      match t with
      | String b r =>
          if (code a =? first) && (code b =? second) then String letter (lower_with first second letter r)
          else String (lower_byte a) (lower_with first second letter t)
      | EmptyString => String (lower_byte a) ""
      end
  end.

Definition hex_word (length : Z) (value : string) : option string :=
  let value := lower_ascii (TrimSpace value) in
  if negb (len value =? length) || negb (HasPrefix value "0x") then None
  else match hex_decode (str_drop 2 value) with Some _ => Some value | None => None end.

Definition canonicalEVMAddress (value : string) : option string := hex_word 42 value.
Definition canonicalEVMHash (value : string) : option string := hex_word 66 value.

Definition addressFromTopic (value : string) : option string :=
  match hex_word 66 value with
  | Some value =>
      if str_take 24 (str_drop 2 value) == Repeat "0" 24 then Some ("0x" +:+ str_drop 26 value) else None
  | None => None
  end.

Definition evmAddressTopic (address : string) : string := "0x" +:+ Repeat "0" 24 +:+ TrimPrefix address "0x".

(** The value of hexadecimal digits, [None] at any other byte. *)
Fixpoint hex_number (acc : Z) (s : string) : option Z :=
  match s with
  | EmptyString => Some acc
  | String c r => match hex_value c with Some d => hex_number (16 * acc + d) r | None => None end
  end.

(** [strconv.ParseUint(s, 16, 64)] *)
Definition ParseUint16_64 (s : string) : option Z :=
  if s == "" then None
  else match hex_number 0 s with Some n => if max_uint64 <? n then None else Some n | None => None end.

(** [new(big.Int).SetString(s, 16)]: an optional sign and digits. *)
Definition big_SetString16 (s : string) : option Z :=
  match s with
  | EmptyString => None
  | String c r =>
      if Ascii.eqb c plus_sign then if r == "" then None else hex_number 0 r
      else if Ascii.eqb c minus_sign then if r == "" then None else match hex_number 0 r with Some n => Some (- n) | None => None end
      else hex_number 0 s
  end.

Definition non_canonical (value : string) : bool :=
  negb (HasPrefix value "0x") || (len value <? 3) || ((3 <? len value) && (byte_at value 2 =? 48)).

Definition parseHexUint64 (value : string) : option Z :=
  if non_canonical value then None else ParseUint16_64 (str_drop 2 value).

(** [big.Int.String] *)
Definition parseHexAmount (value : string) : option string :=
  if non_canonical value then None
  else match big_SetString16 (str_drop 2 value) with
       | Some n => if (n <? 0) || (256 <? BitLen n) then None else Some (FormatInt n)
       | None => None
       end.

Definition parseEVMWordAmount (value : string) : option string :=
  let value := lower_ascii (TrimSpace value) in
  if negb (len value =? 66) || negb (HasPrefix value "0x") then None
  else match big_SetString16 (str_drop 2 value) with
       | Some n => if 256 <? BitLen n then None else Some (FormatInt n)
       | None => None
       end.

(** [fmt.Sprintf("0x%x", value)] *)
Fixpoint hex_print (fuel : nat) (n : Z) (acc : string) : string :=
  match fuel with
  | O => acc
  | S f => let acc' := String (hex_digit (n mod 16)) acc in if n / 16 =? 0 then acc' else hex_print f (n / 16) acc'
  end.
Definition hexQuantity (value : Z) : string := "0x" +:+ hex_print 16 value "".

(** [strconv.ParseUint(s, 10, 64)] *)
Definition ParseUint10_64 (s : string) : option Z :=
  if (s == "") || negb (str_forall is_digit s) then None
  else if max_uint64 <? dec_value 0 s then None else Some (dec_value 0 s).

Definition colon : ascii := chr 58.
Definition evmChainNumericID (chainID : string) : option Z :=
  match Split chainID colon with
  | [namespace; reference] => if namespace == "eip155" then ParseUint10_64 reference else None
  | _ => None
  end.

Definition erc20TransferTopic : string := "0xddf252ad1be2c89b69c2b068fc378daa952ba7f163c4a11628f55a4df523b3ef".

Definition evmTraceMovesValue (callType : string) : bool :=
  existsb_str (lower_with 197 191 "s" callType) ["call"; "callcode"; "create"; "create2"; "selfdestruct"].

(** ** What a node reports *)

(** The transactions of a block are raw JSON texts. *)
Record evmBlock := mkEvmBlock {
  eb_Number : string; eb_Hash : string; eb_ParentHash : string; eb_Timestamp : string; eb_Transactions : list string }.
Record evmTransaction := mkEvmTransaction {
  ex_Hash : string; ex_From : string; ex_To : string; ex_Value : string; ex_TransactionIndex : string }.
Record evmLog := mkEvmLog {
  eg_Address : string; eg_Topics : list string; eg_Data : string; eg_BlockHash : string; eg_BlockNumber : string;
  eg_TransactionHash : string; eg_TransactionIndex : string; eg_LogIndex : string; eg_Removed : bool }.
Record evmReceipt := mkEvmReceipt {
  ec_TransactionHash : string; ec_BlockHash : string; ec_BlockNumber : string; ec_Status : string;
  ec_TransactionIndex : string; ec_Logs : list evmLog }.
Inductive evmTraceCall :=
| mkTraceCall (Type_ From To Value Error : string) (Calls : list evmTraceCall).
Record evmTraceResult := mkTraceResult { ev_TxHash : string; ev_Result : evmTraceCall }.

(** The filter of [eth_getLogs]; the topics are the transfer topic, any sender
    and the destinations. *)
Record log_filter := mkLogFilter { lf_From : string; lf_To : string; lf_Contracts : list string; lf_Destinations : list string }.

(** The answers of the endpoint to the calls one operation makes, each the
    outcome of [endpointClient.rpc] or [rpcBatch]. *)
Record EvmNode := mkEvmNode {
  nd_chainId : result provider_error string;
  nd_getBlock : string -> bool -> result provider_error evmBlock;
  nd_blockBatch : list (string * bool) -> result provider_error (gmap Z evmBlock);
  nd_blockReceipts : string -> result provider_error (list evmReceipt);
  nd_blockTraces : string -> result provider_error (list evmTraceResult);
  nd_getTransaction : string -> result provider_error evmTransaction;
  nd_getReceipt : string -> result provider_error evmReceipt;
  nd_traceTransaction : string -> result provider_error evmTraceCall;
  nd_getLogs : log_filter -> result provider_error (list evmLog);
  nd_now : Time }.

(** ** The source *)

Record EVMToken := mkEVMToken { ek_AssetID : string; ek_Decimals : Z }.

Record EVMConfig := mkEVMConfig {
  ecf_HTTP : HTTPConfig; ecf_ProviderID : string; ecf_ChainID : string; ecf_GenesisHash : string; ecf_HeadTag : string;
  ecf_NativeAssetID : string; ecf_NativeDecimals : Z; ecf_Tokens : list (string * EVMToken); ecf_IncludeInternal : bool;
  ecf_WatchedAddresses : list string; ecf_AddressFiltered : bool; ecf_Overlap : Z; ecf_BlockBatchSize : Z }.

(** The configuration of a source; its only state is the genesis hash, once
    known ([identityReady]). *)
Record EVMSource := mkEVMSource {
  es_providerID : string; es_chainID : string; es_headTag : string; es_nativeAssetID : string; es_nativeDecimals : Z;
  es_tokens : gmap string EVMToken; es_includeInternal : bool; es_watched : gset string; es_addressFiltered : bool;
  es_overlap : Z; es_blockBatchSize : Z; es_configuredGenesisHash : string }.

(** The tokens in the order in which the map yields them. *)
Fixpoint canonical_tokens (tokens : list (string * EVMToken)) (acc : gmap string EVMToken) : option (gmap string EVMToken) :=
  match tokens with
  | [] => Some acc
  | (address, token) :: rest =>
      match canonicalEVMAddress address with
      | Some canonical =>
          if (TrimSpace (ek_AssetID token) == "") || (36 <? ek_Decimals token) then None
          else canonical_tokens rest (<[canonical := token]> acc)
      | None => None
      end
  end.

Fixpoint canonical_watched (addresses : list string) (acc : gset string) : option (gset string) :=
  match addresses with
  | [] => Some acc
  | address :: rest =>
      match canonicalEVMAddress address with Some canonical => canonical_watched rest ({[canonical]} ∪ acc) | None => None end
  end.

Definition NewEVMSource (parse : string -> option EndpointURL) (EqualFold : string -> string -> bool) (config : EVMConfig)
    : option EVMSource :=
  client ← newEndpointClient parse EqualFold (ecf_HTTP config);
  if (TrimSpace (ecf_ProviderID config) == "") || (TrimSpace (ecf_ChainID config) == "") || (36 <? ecf_NativeDecimals config)
     || ((TrimSpace (ecf_NativeAssetID config) == "") && Nat.eqb (length (ecf_Tokens config)) 0)
  then None
  else
    let genesis :=
      if TrimSpace (ecf_GenesisHash config) == "" then "" else default "" (canonicalEVMHash (ecf_GenesisHash config)) in
    let headTag := TrimSpace (lower_with 196 176 "i" (ecf_HeadTag config)) in
    let headTag := if headTag == "" then "finalized" else headTag in
    if (headTag != "finalized") && (headTag != "safe") then None
    else
      let size := if ecf_BlockBatchSize config =? 0 then 1 else ecf_BlockBatchSize config in
      if 4 <? size then None
      else
        tokens ← canonical_tokens (ecf_Tokens config) ∅;
        watched ← canonical_watched (ecf_WatchedAddresses config) ∅;
        Some (mkEVMSource (ecf_ProviderID config) (ecf_ChainID config) headTag (ecf_NativeAssetID config) (ecf_NativeDecimals config)
                tokens (ecf_IncludeInternal config) watched (ecf_AddressFiltered config)
                (if ecf_Overlap config =? 0 then 1 else ecf_Overlap config) size genesis).

Section source.
Context (s : EVMSource) (node : EvmNode).
(** [json.Unmarshal] of a transaction, [json.Marshal] of the evidence, [sha256.Sum256]. *)
Context (unmarshal_tx : string -> option evmTransaction)
  (native_evidence : evmTransaction -> evmReceipt -> string) (log_evidence : evmLog -> string)
  (receipt_evidence : evmReceipt -> option evmTraceCall -> string) (sha256 : string -> string).

Definition taggedBlock (tag : string) (transactions : bool) : result provider_error evmBlock := nd_getBlock node tag transactions.
Definition block_at (height : Z) (transactions : bool) : result provider_error evmBlock := taggedBlock (hexQuantity height) transactions.

Definition chain_mismatch : provider_error := permanent_msg "evm chain identity" "chain ID mismatch".

(** The genesis hash kept from now on, and the one returned. *)
Definition evm_identity (ready : option string) : option string * result provider_error string :=
  match ready with
  | Some genesis => (ready, Ok genesis)
  | None =>
      match nd_chainId node with
      | Err e => (None, Err e)
      | Ok reportedChain =>
          match evmChainNumericID (es_chainID s) with
          | None => (None, Err (OtherError "EVM chain ID must use eip155 namespace"))
          | Some expected =>
              if negb (bool_decide (parseHexUint64 reportedChain = Some expected)) then (None, Err chain_mismatch)
              else if es_configuredGenesisHash s != ""
              then (Some (es_configuredGenesisHash s), Ok (es_configuredGenesisHash s))
              else
                match block_at 0 false with
                | Err e => (None, Err e)
                | Ok genesis =>
                    match canonicalEVMHash (eb_Hash genesis) with
                    | None => (None, Err (malformed_msg "evm genesis" "invalid EVM hash"))
                    | Some hash => (Some hash, Ok hash)
                    end
                end
          end
      end
  end.

Definition EVM_Heads (ready : option string) : option string * result provider_error (list ProviderHead) :=
  let (ready', genesis) := evm_identity ready in
  (ready',
   genesisHash ← genesis;
   finalized ← taggedBlock (es_headTag s) false;
   height ← of_option (malformed_msg "evm finalized head" "quantity") (parseHexUint64 (eb_Number finalized));
   Ok [mkHead (es_providerID s) (es_chainID s) genesisHash height (nd_now node)]).

(** [time.Unix] of the checked timestamp; the header's clock is that of Prelude.v. *)
Definition validateEVMBlock (block : evmBlock) (expected : Z) : result provider_error (Z * Time) :=
  match parseHexUint64 (eb_Number block) with
  | None => Err (OtherError "block number mismatch")
  | Some height =>
      if negb (height =? expected) then Err (OtherError "block number mismatch")
      else
        match canonicalEVMHash (eb_Hash block) with
        | None => Err (OtherError "invalid EVM hash")
        | Some _ =>
            if (0 <? expected) && bool_decide (canonicalEVMHash (eb_ParentHash block) = None) then Err (OtherError "invalid EVM hash")
            else
              match parseHexUint64 (eb_Timestamp block) with
              | None => Err (OtherError "invalid block timestamp")
              | Some timestamp =>
                  if max_int64 <? timestamp then Err (OtherError "invalid block timestamp") else Ok (height, UnixTime timestamp)
              end
        end
  end.

Definition checked_block (label : string) (block : evmBlock) (height : Z) : result provider_error Block :=
  '(number, blockTime) ← lift_err (malformed label) (validateEVMBlock block height);
  Ok (mkBlock number (default "" (canonicalEVMHash (eb_Hash block))) (default "" (canonicalEVMHash (eb_ParentHash block))) blockTime).

Definition range_error (msg : string) : provider_error := permanent_msg "evm scan range" msg.
Definition beyond_head : provider_error :=
  ProviderError ErrorTransient "evm scan range" 0 0 (Some (OtherError "range exceeds finalized head")).

(** The finalized head, when it is not below [to]. *)
Definition safe_head (to : Z) : result provider_error Z :=
  head ← taggedBlock (es_headTag s) false;
  match parseHexUint64 (eb_Number head) with
  | Some safeHeight => if safeHeight <? to then Err beyond_head else Ok safeHeight
  | None => Err beyond_head
  end.

(** The loop [for height := from; height <= to; height++]. *)
Definition heights (from to : Z) : list Z := map (fun i => from + Z.of_nat i) (seq 0 (Z.to_nat (to - from + 1))).

Definition confirmations (safeHeight height : Z) : Z := uint64 (safeHeight - height + 1).

Definition normalize_receipt (parsed : EVMReceipt) : result provider_error (list TransferEvent) :=
  lift_err OtherError (EVM_Normalize sha256 None (es_chainID s) (Ok parsed) (er_TransactionID parsed)).

(** *** The full scan *)

Definition supported_transfer (log : evmLog) (contract : string) : option EVMToken :=
  match es_tokens s !! contract, eg_Topics log with
  | Some token, [topic; _; _] => if fold_eq topic erc20TransferTopic then Some token else None
  | _, _ => None
  end.

Definition topic_at (log : evmLog) (i : nat) : string := nth i (eg_Topics log) "".

(** What both paths read of a supported log: its index and addresses, its amount. *)
Definition transfer_place (log : evmLog) : result provider_error (Z * string * string) :=
  index ← match parseHexUint64 (eg_LogIndex log) with
          | Some index => if 2 ^ 32 - 1 <? index then Err (malformed_msg "evm token log" "invalid log index") else Ok index
          | None => Err (malformed_msg "evm token log" "invalid log index")
          end;
  from ← of_option (malformed_msg "evm token log" "invalid indexed EVM address") (addressFromTopic (topic_at log 1));
  to ← of_option (malformed_msg "evm token log" "invalid indexed EVM address") (addressFromTopic (topic_at log 2));
  Ok (index, from, to).

Definition transfer_amount (log : evmLog) : result provider_error string :=
  match parseEVMWordAmount (eg_Data log) with
  | Some amount => if amount == "0" then Err (malformed_msg "evm token log" "invalid transfer amount") else Ok amount
  | None => Err (malformed_msg "evm token log" "invalid transfer amount")
  end.

(** The body of the loop over the logs of a receipt. *)
Definition receipt_log (txHash blockHash : string) (log : evmLog) : result provider_error (option EVMLog) :=
  if eg_Removed log then Err (malformed_msg "evm token log" "finalized receipt contains removed log")
  else
    match canonicalEVMAddress (eg_Address log) with
    | None => Err (malformed_msg "evm token log" "invalid EVM address")
    | Some contract =>
        match supported_transfer log contract with
        | None => Ok None
        | Some token =>
            if negb (fold_eq (eg_TransactionHash log) txHash) || negb (fold_eq (eg_BlockHash log) blockHash)
            then Err (malformed_msg "evm token log" "log binding mismatch")
            else
              '(index, from, to) ← transfer_place log;
              amount ← transfer_amount log;
              Ok (Some (mkEVMLog index from to amount (ek_AssetID token) (ek_Decimals token) true))
        end
    end.

(** [appendEVMTraces]: the calls of a frame, each with its path. *)
Fixpoint call_traces (path : list Z) (call : evmTraceCall) : result provider_error (list EVMTrace) :=
  match call with
  | mkTraceCall callType from to value error calls =>
      if error != "" then Ok []
      else
        match parseHexAmount value with
        | None => Err (malformed_msg "evm trace" "amount")
        | Some amount =>
            own ← (if (amount != "0") && (to != "") && evmTraceMovesValue callType then
                     match canonicalEVMAddress from, canonicalEVMAddress to with
                     | Some f, Some t => Ok [mkEVMTrace path f t amount (es_nativeAssetID s) (es_nativeDecimals s) true]
                     | _, _ => Err (malformed_msg "evm trace" "invalid EVM address")
                     end
                   else Ok []);
            nested ← (fix frames (index : nat) (l : list evmTraceCall) : result provider_error (list EVMTrace) :=
                        match l with
                        | [] => Ok []
                        | c :: rest =>
                            here ← call_traces (path ++ [Z.of_nat index mod 2 ^ 32]) c;
                            more ← frames (S index) rest;
                            Ok (here ++ more)
                        end) 0%nat calls;
            Ok (own ++ nested)
        end
  end.

Fixpoint frame_traces (prefix : list Z) (index : nat) (calls : list evmTraceCall) : result provider_error (list EVMTrace) :=
  match calls with
  | [] => Ok []
  | c :: rest =>
      here ← call_traces (prefix ++ [Z.of_nat index mod 2 ^ 32]) c;
      more ← frame_traces prefix (S index) rest;
      Ok (here ++ more)
  end.

Definition appendEVMTraces (calls : list evmTraceCall) (prefix : list Z) : result provider_error (list EVMTrace) :=
  if es_nativeAssetID s == "" then Ok [] else frame_traces prefix 0 calls.

Definition root_calls (call : evmTraceCall) : list evmTraceCall := match call with mkTraceCall _ _ _ _ _ calls => calls end.

Definition tracePointer (traces : gmap string evmTraceCall) (hash : string) (enabled : bool) : option evmTraceCall :=
  if enabled then traces !! hash else None.

(** The status of a receipt: success, or none when it is not a status. *)
Definition receipt_success (receipt : evmReceipt) : result provider_error bool :=
  if ec_Status receipt == "0x1" then Ok true
  else if ec_Status receipt == "0x0" then Ok false
  else Err (malformed_msg "evm receipt" "invalid receipt status").

Definition full_native (transaction : evmTransaction) : result provider_error (option EVMNative) :=
  value ← of_option (malformed_msg "evm native transfer" "amount") (parseHexAmount (ex_Value transaction));
  if (es_nativeAssetID s != "") && (value != "0") && (ex_To transaction != "") then
    from ← of_option (malformed_msg "evm native transfer" "invalid EVM address") (canonicalEVMAddress (ex_From transaction));
    to ← of_option (malformed_msg "evm native transfer" "invalid EVM address") (canonicalEVMAddress (ex_To transaction));
    Ok (Some (mkEVMNative from to value (es_nativeAssetID s) (es_nativeDecimals s)))
  else Ok None.

Definition log_index_less (i j : EVMLog) : bool := el_Index i <? el_Index j.

Definition normalizeEVMTransaction (transaction : evmTransaction) (receipts : gmap string evmReceipt)
    (traces : gmap string evmTraceCall) (height : Z) (blockHash : string) (blockTime : Time) (safeHeight : Z)
    : result provider_error (list TransferEvent) :=
  txHash ← of_option (malformed_msg "evm transaction" "invalid EVM hash") (canonicalEVMHash (ex_Hash transaction));
  receipt ← of_option (malformed_msg "evm receipt" "receipt missing for transaction") (receipts !! txHash);
  if negb (bool_decide (parseHexUint64 (ec_BlockNumber receipt) = Some height)) || negb (fold_eq (ec_BlockHash receipt) blockHash)
  then Err (malformed_msg "evm receipt" "receipt block binding mismatch")
  else
    success ← receipt_success receipt;
    '(native, logs, internal) ←
      (if success then
         native ← full_native transaction;
         logs ← traverse (receipt_log txHash blockHash) (ec_Logs receipt);
         internal ← (if es_includeInternal s && (es_nativeAssetID s != "") then
                       match traces !! txHash with
                       | None => Err (malformed_msg "evm trace" "trace missing for transaction")
                       | Some root => appendEVMTraces (root_calls root) []
                       end
                     else Ok []);
         Ok (native, sort_by log_index_less (omap id logs), internal)
       else Ok (None, [], []));
    normalize_receipt (mkEVMReceipt txHash height blockHash blockTime success true (confirmations safeHeight height) native logs internal
      (receipt_evidence receipt (tracePointer traces txHash (es_includeInternal s)))).

Fixpoint receipts_by_hash (receipts : list evmReceipt) (acc : gmap string evmReceipt) : result provider_error (gmap string evmReceipt) :=
  match receipts with
  | [] => Ok acc
  | receipt :: rest =>
      match canonicalEVMHash (ec_TransactionHash receipt) with
      | None => Err (malformed_msg "evm receipt" "invalid EVM hash")
      | Some hash =>
          match acc !! hash with
          | Some _ => Err (malformed_msg "evm receipt" "duplicate receipt")
          | None => receipts_by_hash rest (<[hash := receipt]> acc)
          end
      end
  end.

Fixpoint traces_by_hash (traces : list evmTraceResult) (acc : gmap string evmTraceCall) : result provider_error (gmap string evmTraceCall) :=
  match traces with
  | [] => Ok acc
  | trace :: rest =>
      match canonicalEVMHash (ev_TxHash trace) with
      | None => Err (malformed_msg "evm trace" "invalid EVM hash")
      | Some hash => traces_by_hash rest (<[hash := ev_Result trace]> acc)
      end
  end.

Definition decode_transaction (raw : string) : result provider_error evmTransaction :=
  of_option (malformed_msg "evm transaction" "decode") (unmarshal_tx raw).

Definition ordered_transaction (raw : string) : result provider_error (Z * evmTransaction) :=
  transaction ← decode_transaction raw;
  index ← of_option (malformed_msg "evm transaction" "quantity") (parseHexUint64 (ex_TransactionIndex transaction));
  Ok (index, transaction).

Definition tx_less (i j : Z * evmTransaction) : bool := fst i <? fst j.

(** The loop over the ordered transactions, at [position]. *)
Fixpoint scan_ordered (normalize : evmTransaction -> result provider_error (list TransferEvent)) (position : Z)
    (ordered : list (Z * evmTransaction)) : result provider_error (list TransferEvent) :=
  match ordered with
  | [] => Ok []
  | (index, tx) :: rest =>
      if negb (index =? position) then Err (malformed_msg "evm transaction" "transaction index gap")
      else events ← normalize tx; more ← scan_ordered normalize (position + 1) rest; Ok (events ++ more)
  end.

Definition scan_block (safeHeight height : Z) : result provider_error (Block * list TransferEvent) :=
  block ← block_at height true;
  canonical ← checked_block "evm block" block height;
  receipts ← nd_blockReceipts node (hexQuantity height);
  if negb (Nat.eqb (length receipts) (length (eb_Transactions block)))
  then Err (malformed_msg "evm block receipts" "receipt count does not match transaction count")
  else
    receiptsByHash ← receipts_by_hash receipts ∅;
    traces ← (if es_includeInternal s then nd_blockTraces node (hexQuantity height) else Ok []);
    traceByHash ← traces_by_hash traces ∅;
    if es_includeInternal s && negb (Nat.eqb (length traces) (length (eb_Transactions block)))
    then Err (malformed_msg "evm block traces" "trace count does not match transaction count")
    else
      ordered ← traverse ordered_transaction (eb_Transactions block);
      events ← scan_ordered
        (fun tx => normalizeEVMTransaction tx receiptsByHash traceByHash height (bl_Hash canonical) (bl_Time canonical) safeHeight)
        0 (sort_by tx_less ordered);
      Ok (canonical, events).

Definition scan_full (from to : Z) : result provider_error RangeBatch :=
  safeHeight ← safe_head to;
  scanned ← traverse (scan_block safeHeight) (heights from to);
  Ok (mkBatch from to (map fst scanned) (concat (map snd scanned)) [] false false false).

(** *** The watched scan *)

(** The block a receipt or log must be bound to. *)
Definition receipt_bound (receipt : evmReceipt) (block : Block) (txHash : string) : bool :=
  bool_decide (parseHexUint64 (ec_BlockNumber receipt) = Some (bl_Height block))
  && fold_eq (ec_BlockHash receipt) (bl_Hash block) && fold_eq (ec_TransactionHash receipt) txHash.

Definition set_evidence (evidence : string) (e : TransferEvent) : TransferEvent :=
  mkTransferEvent (te_ID e) (te_Identity e) (te_Kind e) (te_FromAddress e) (te_Amount e) (te_AssetDecimals e) (te_BlockHeight e)
    (te_BlockHash e) (te_OnChainTime e) (te_Confirmations e) (te_Status e) (te_ParserVersion e) (te_EvidenceHash e) evidence.

Definition keep_evidence (evidence : string) (e : TransferEvent) : TransferEvent :=
  if (te_Kind e == "native_top_level") && (ei_EventIndex (te_Identity e) == "native:0") then set_evidence evidence e else e.

Definition normalizeWatchedNativeReceipt (transaction : evmTransaction) (receipt : evmReceipt) (block : Block) (safeHeight : Z)
    : result provider_error (list TransferEvent) :=
  txHash ← of_option (malformed_msg "evm transaction" "invalid EVM hash") (canonicalEVMHash (ex_Hash transaction));
  if negb (receipt_bound receipt block txHash) then Err (malformed_msg "evm receipt" "receipt block binding mismatch")
  else
    success ← receipt_success receipt;
    if negb success then Ok []
    else
      let amount := default "" (parseHexAmount (ex_Value transaction)) in
      from ← of_option (malformed_msg "evm native transfer" "invalid EVM address") (canonicalEVMAddress (ex_From transaction));
      let to := default "" (canonicalEVMAddress (ex_To transaction)) in
      let evidence := native_evidence transaction receipt in
      events ← normalize_receipt (mkEVMReceipt txHash (bl_Height block) (bl_Hash block) (bl_Time block) true true
        (confirmations safeHeight (bl_Height block)) (Some (mkEVMNative from to amount (es_nativeAssetID s) (es_nativeDecimals s))) [] []
        evidence);
      Ok (map (keep_evidence evidence) events).

Definition normalizeWatchedNative (transaction : evmTransaction) (block : Block) (safeHeight : Z) : result provider_error (list TransferEvent) :=
  if es_nativeAssetID s == "" then Ok []
  else
    txHash ← of_option (malformed_msg "evm transaction" "invalid EVM hash") (canonicalEVMHash (ex_Hash transaction));
    receipt ← nd_getReceipt node txHash;
    normalizeWatchedNativeReceipt transaction receipt block safeHeight.

(** The body of the loop over the transactions of a block. *)
Definition watched_native (block : Block) (safeHeight : Z) (raw : string) : result provider_error (list TransferEvent) :=
  transaction ← decode_transaction raw;
  match canonicalEVMAddress (ex_To transaction) with
  | None => if ex_To transaction == "" then Ok [] else Err (malformed_msg "evm native transfer" "invalid EVM address")
  | Some toAddress =>
      if negb (bool_decide (toAddress ∈ es_watched s)) then Ok []
      else
        amount ← of_option (malformed_msg "evm native transfer" "amount") (parseHexAmount (ex_Value transaction));
        if amount == "0" then Ok [] else normalizeWatchedNative transaction block safeHeight
  end.

Definition zero_block : evmBlock := mkEvmBlock "" "" "" "" [].

Definition watchedBlockWindow (from to : Z) : result provider_error (list evmBlock) :=
  if (to <? from) || (3 <? to - from) then Err (permanent_msg "evm block window" "block window must contain 1..4 blocks")
  else
    let transactions := es_nativeAssetID s != "" in
    if from =? to then block ← block_at from transactions; Ok [block]
    else
      targets ← nd_blockBatch node (map (fun height => (hexQuantity height, transactions)) (heights from to));
      Ok (map (fun index => default zero_block (targets !! (Z.of_nat index + 1))) (seq 0 (Z.to_nat (to - from + 1)))).

Definition window_last (to height : Z) : Z :=
  if 1 <? es_blockBatchSize s then Z.min to (uint64 (height + es_blockBatchSize s - 1)) else height.

(** The loop over the heights; [prefetched] are the blocks read ahead. *)
Fixpoint watched_blocks (to safeHeight : Z) (prefetched : list evmBlock) (range : list Z)
    : result provider_error (list (Block * list TransferEvent)) :=
  match range with
  | [] => Ok []
  | height :: rest =>
      window ← match prefetched with [] => watchedBlockWindow height (window_last to height) | _ => Ok prefetched end;
      match window with
      | [] => Err (OtherError "index out of range")
      | block :: ahead =>
          canonical ← checked_block "evm block" block height;
          events ← (if es_nativeAssetID s == "" then Ok []
                    else traverse (watched_native canonical safeHeight) (eb_Transactions block));
          more ← watched_blocks to safeHeight ahead rest;
          Ok ((canonical, concat events) :: more)
      end
  end.

(** Consecutive pieces of at most [n] elements. *)
Fixpoint chunks_of {A} (fuel n : nat) (l : list A) : list (list A) :=
  match fuel, l with
  | S f, _ :: _ => take n l :: chunks_of f n (drop n l)
  | _, _ => []
  end.
Definition chunks {A} (n : nat) (l : list A) : list (list A) := chunks_of (length l) n l.

Definition sorted_contracts : list string := sort_by str_less (map fst (map_to_list (es_tokens s))).
Definition sorted_destinations : list string := sort_by str_less (map evmAddressTopic (elements (es_watched s))).

Definition log_filters (from to : Z) : list log_filter :=
  concat (map (fun contracts => map (fun destinations => mkLogFilter (hexQuantity from) (hexQuantity to) contracts destinations)
                (chunks 100 sorted_destinations)) (chunks 50 sorted_contracts)).

Definition watchedTokenLogs (from to : Z) : result provider_error (list evmLog) :=
  if Nat.eqb (size (es_tokens s)) 0 then Ok []
  else pages ← traverse (nd_getLogs node) (log_filters from to); Ok (concat pages).

(** The events of a log and its transaction and index, which stand for the text
    "hash:index". *)
Definition normalizeWatchedTokenLog (log : evmLog) (blocks : gmap Z Block) (safeHeight : Z)
    : result provider_error (list TransferEvent * (string * Z)) :=
  if eg_Removed log || negb (Nat.eqb (length (eg_Topics log)) 3) || negb (fold_eq (topic_at log 0) erc20TransferTopic)
  then Err (malformed_msg "evm token log" "invalid finalized transfer log")
  else
    match canonicalEVMAddress (eg_Address log) with
    | None => Err (malformed_msg "evm token log" "invalid EVM address")
    | Some contract =>
        match es_tokens s !! contract with
        | None => Err (malformed_msg "evm token log" "provider returned an unrequested token contract")
        | Some token =>
            match parseHexUint64 (eg_BlockNumber log), canonicalEVMHash (eg_TransactionHash log) with
            | Some height, Some txHash =>
                match blocks !! height with
                | None => Err (malformed_msg "evm token log" "log block binding mismatch")
                | Some block =>
                    if negb (fold_eq (eg_BlockHash log) (bl_Hash block)) then Err (malformed_msg "evm token log" "log block binding mismatch")
                    else
                      '(index, from, to) ← transfer_place log;
                      if negb (bool_decide (to ∈ es_watched s))
                      then Err (malformed_msg "evm token log" "provider returned an unrequested destination")
                      else
                        amount ← transfer_amount log;
                        events ← normalize_receipt (mkEVMReceipt txHash height (bl_Hash block) (bl_Time block) true true
                          (confirmations safeHeight height) None
                          [mkEVMLog index from to amount (ek_AssetID token) (ek_Decimals token) true] [] (log_evidence log));
                        Ok (events, (txHash, index))
                end
            | _, _ => Err (malformed_msg "evm token log" "log block binding mismatch")
            end
        end
    end.

Fixpoint token_events (blocks : gmap Z Block) (safeHeight : Z) (seen : list (string * Z)) (logs : list evmLog)
    : result provider_error (list TransferEvent) :=
  match logs with
  | [] => Ok []
  | log :: rest =>
      '(events, id) ← normalizeWatchedTokenLog log blocks safeHeight;
      if existsb (fun other => bool_decide (other = id)) seen then Err (malformed_msg "evm token log" "duplicate transfer log")
      else more ← token_events blocks safeHeight (id :: seen) rest; Ok (events ++ more)
  end.

Definition event_order (left right : TransferEvent) : bool :=
  if negb (te_BlockHeight left =? te_BlockHeight right) then te_BlockHeight left <? te_BlockHeight right
  else if ei_TransactionID (te_Identity left) != ei_TransactionID (te_Identity right)
  then str_less (ei_TransactionID (te_Identity left)) (ei_TransactionID (te_Identity right))
  else if ei_EventIndex (te_Identity left) != ei_EventIndex (te_Identity right)
  then str_less (ei_EventIndex (te_Identity left)) (ei_EventIndex (te_Identity right))
  else str_less (ei_AssetID (te_Identity left)) (ei_AssetID (te_Identity right)).

Definition block_map (blocks : list Block) : gmap Z Block := fold_left (fun m b => <[bl_Height b := b]> m) blocks ∅.

(** Without a watched address: the overlap cursor and the destination. *)
Definition idle_heights (from to : Z) : list Z :=
  let cursorHeight := uint64 (from + es_overlap s - 1) in
  let cursorHeight := if to <? cursorHeight then to else cursorHeight in
  [from] ++ (if negb (cursorHeight =? from) then [cursorHeight] else []) ++ (if negb (to =? cursorHeight) then [to] else []).

Definition idle_block (height : Z) : result provider_error Block :=
  block ← block_at height false; checked_block "evm block" block height.

Definition scanWatchedRange (from to : Z) : result provider_error RangeBatch :=
  safeHeight ← safe_head to;
  if bool_decide (es_watched s = ∅) then
    blocks ← traverse idle_block (idle_heights from to);
    Ok (mkBatch from to blocks [] [] true false true)
  else
    scanned ← watched_blocks to safeHeight [] (heights from to);
    logs ← watchedTokenLogs from to;
    tokens ← token_events (block_map (map fst scanned)) safeHeight [] logs;
    Ok (mkBatch from to (map fst scanned) (sort_by event_order (concat (map snd scanned) ++ tokens)) [] false false false).

Definition EVM_ScanRange (from to : Z) : result provider_error RangeBatch :=
  if (to <? from) || (2047 <? to - from) then Err (range_error "range must contain 1..2048 blocks")
  else if es_addressFiltered s && negb (es_includeInternal s) then scanWatchedRange from to
  else scan_full from to.

(** *** Direct look-up *)

Definition index_order (left right : TransferEvent) : bool :=
  if ei_EventIndex (te_Identity left) != ei_EventIndex (te_Identity right)
  then str_less (ei_EventIndex (te_Identity left)) (ei_EventIndex (te_Identity right))
  else str_less (ei_AssetID (te_Identity left)) (ei_AssetID (te_Identity right)).

Definition lookup_native (transaction : evmTransaction) (receipt : evmReceipt) (block : Block) (safeHeight : Z)
    : result provider_error (list TransferEvent) :=
  if (es_nativeAssetID s != "") && (ex_To transaction != "") then
    to ← of_option (malformed_msg "evm native transfer" "invalid EVM address") (canonicalEVMAddress (ex_To transaction));
    if bool_decide (to ∈ es_watched s) then
      amount ← of_option (malformed_msg "evm native transfer" "amount") (parseHexAmount (ex_Value transaction));
      if amount != "0" then normalizeWatchedNativeReceipt transaction receipt block safeHeight else Ok []
    else Ok []
  else Ok [].

(** The logs of a receipt that the scanner's filters would select. *)
Fixpoint lookup_tokens (txHash : string) (blocks : gmap Z Block) (safeHeight : Z) (seen : list (string * Z)) (logs : list evmLog)
    : result provider_error (list TransferEvent) :=
  match logs with
  | [] => Ok []
  | log :: rest =>
      match canonicalEVMAddress (eg_Address log) with
      | None => Err (malformed_msg "evm token log" "invalid EVM address")
      | Some contract =>
          match supported_transfer log contract with
          | None => lookup_tokens txHash blocks safeHeight seen rest
          | Some _ =>
              to ← of_option (malformed_msg "evm token log" "invalid indexed EVM address") (addressFromTopic (topic_at log 2));
              if negb (bool_decide (to ∈ es_watched s)) then lookup_tokens txHash blocks safeHeight seen rest
              else if negb (fold_eq (eg_TransactionHash log) txHash)
              then Err (malformed_msg "evm token log" "log transaction binding mismatch")
              else
                '(events, id) ← normalizeWatchedTokenLog log blocks safeHeight;
                if existsb (fun other => bool_decide (other = id)) seen then Err (malformed_msg "evm token log" "duplicate transfer log")
                else more ← lookup_tokens txHash blocks safeHeight (id :: seen) rest; Ok (events ++ more)
          end
      end
  end.

Definition normalizeWatchedLookup (transaction : evmTransaction) (receipt : evmReceipt) (block : Block) (safeHeight : Z)
    : result provider_error (list TransferEvent) :=
  txHash ← of_option (malformed_msg "evm transaction" "invalid EVM hash") (canonicalEVMHash (ex_Hash transaction));
  if negb (receipt_bound receipt block txHash) then Err (malformed_msg "evm receipt" "receipt block binding mismatch")
  else
    success ← receipt_success receipt;
    if negb success then Ok []
    else
      native ← lookup_native transaction receipt block safeHeight;
      tokens ← lookup_tokens txHash {[bl_Height block := block]} safeHeight [] (ec_Logs receipt);
      Ok (sort_by index_order (native ++ tokens)).

Definition lookup_error (msg : string) : provider_error := permanent_msg "evm transaction lookup" msg.

Definition lookup_safe_head (height : Z) : result provider_error Z :=
  let late := ProviderError ErrorTransient "evm transaction lookup" 0 0 (Some (OtherError "transaction is not finalized")) in
  head ← taggedBlock (es_headTag s) false;
  match parseHexUint64 (eb_Number head) with
  | Some safeHeight => if safeHeight <? height then Err late else Ok safeHeight
  | None => Err late
  end.

Definition EVM_LookupTransaction (chainID transactionID : string) : result provider_error (list TransferEvent) :=
  if chainID != es_chainID s then Err (lookup_error "chain ID mismatch")
  else
    txHash ← of_option (lookup_error "invalid EVM hash") (canonicalEVMHash transactionID);
    transaction ← nd_getTransaction node txHash;
    if negb (bool_decide (canonicalEVMHash (ex_Hash transaction) = Some txHash))
    then Err (malformed_msg "evm transaction lookup" "transaction hash mismatch")
    else
      receipt ← nd_getReceipt node txHash;
      height ← of_option (malformed_msg "evm transaction receipt" "quantity") (parseHexUint64 (ec_BlockNumber receipt));
      safeHeight ← lookup_safe_head height;
      block ← block_at height false;
      '(_, blockTime) ← lift_err (malformed "evm transaction block") (validateEVMBlock block height);
      let blockHash := default "" (canonicalEVMHash (eb_Hash block)) in
      if es_addressFiltered s && negb (es_includeInternal s)
      then normalizeWatchedLookup transaction receipt (mkBlock height blockHash "" blockTime) safeHeight
      else
        traces ← (if es_includeInternal s
                  then trace ← nd_traceTransaction node txHash; Ok {[txHash := trace]}
                  else Ok ∅);
        normalizeEVMTransaction transaction {[txHash := receipt]} traces height blockHash blockTime safeHeight.
End source.
