(* ===== verification/EvmFacts.v ===== *)
(** * EvmFacts: what the EVM source guarantees

    The parsers read one spelling; a scanned range meets the contract the
    worker validates except for the parent links; every event is bound to the
    block, the contract and the destination it is about; reading blocks in
    batches changes nothing; the log filters ask for every watched pair once;
    and looking a transaction up gives the events its scan gives. *)

From Stdlib Require Import ZArith Lia Ascii String Permutation Sorted.
From stdpp Require Import base gmap list strings.
From S2P Require Import Prelude Text Numerals Money Domain Scanner Chains ChainsFacts Providers Evm.

(** ** Loops *)

Lemma traverse_ok {E A B} (f : A -> result E B) l r : traverse f l = Ok r <-> Forall2 (fun a b => f a = Ok b) l r.
Proof.
  revert r. induction l as [|a l IH]; intros r; cbn [traverse].
  - split; [intros [= <-]; constructor|]. by inversion 1.
  - destruct (f a) as [b|] eqn:Ea; cbn.
    + destruct (traverse f l) as [bs|] eqn:El; cbn.
      * split; [intros [= <-]; constructor; [done|by apply IH]|]. inversion 1 as [|? ? ? bs' Hb Hbs]; subst. apply IH in Hbs. congruence.
      * split; [done|]. inversion 1 as [|? ? ? bs' Hb Hbs]; subst. apply IH in Hbs. congruence.
    + split; [done|]. inversion 1; subst. congruence.
Qed.

Lemma traverse_ext {E A B} (f g : A -> result E B) l : (forall a, In a l -> f a = g a) -> traverse f l = traverse g l.
Proof.
  intros H. induction l as [|a l IH]; [done|]. cbn [traverse]. rewrite (H a) by (by left).
  destruct (g a); [|done]. cbn. rewrite IH; [done|]. intros b Hb. apply H. by right.
Qed.

Lemma traverse_length {E A B} (f : A -> result E B) l r : traverse f l = Ok r -> length r = length l.
Proof. intros H%traverse_ok. symmetry. by eapply Forall2_length. Qed.

Lemma of_option_ok {E A} (e : E) o (a : A) : of_option e o = Ok a <-> o = Some a.
Proof. destruct o; cbn; split; congruence. Qed.

Lemma lift_err_ok {E A B} (f : E -> B) (r : result E A) a : lift_err f r = Ok a <-> r = Ok a.
Proof. destruct r; cbn; split; congruence. Qed.

Lemma Forall2_elem_r {A B} (R : A -> B -> Prop) l k y : Forall2 R l k -> y ∈ k -> exists x, x ∈ l /\ R x y.
Proof.
  intros H (i & Hi)%list_elem_of_lookup. destruct (Forall2_lookup_r _ _ _ _ _ H Hi) as (x & Hx & Hr).
  exists x. split; [by eapply list_elem_of_lookup_2|done].
Qed.

Lemma Forall2_elem_l {A B} (R : A -> B -> Prop) l k x : Forall2 R l k -> x ∈ l -> exists y, y ∈ k /\ R x y.
Proof.
  intros H (i & Hi)%list_elem_of_lookup. destruct (Forall2_lookup_l _ _ _ _ _ H Hi) as (y & Hy & Hr).
  exists y. split; [by eapply list_elem_of_lookup_2|done].
Qed.

(** Case analysis along the binds of a computation that returned. *)
Ltac bind_step H :=
  match type of H with
  | (mbind _ ?m) = Ok _ =>
      let x := fresh "x" in let E := fresh "E" in destruct m as [x|] eqn:E; [|discriminate H]; cbn [mbind result_bind] in H
  end.

(** ** Text *)

Lemma HasPrefix_iff p s : HasPrefix s p = true <-> s = p +:+ str_drop (String.length p) s.
Proof.
  revert s. induction p as [|d p IH]; intros [|c s]; cbn; try done.
  rewrite andb_true_iff, IH. split.
  - intros [->%Ascii.eqb_eq Hs]. f_equal. exact Hs.
  - intros [= -> Hs]. split; [apply Ascii.eqb_refl|exact Hs].
Qed.

Lemma hex_value_char c : hex_value c <> None <-> hex_char c = true.
Proof.
  unfold hex_value, hex_char. destruct ((48 <=? code c) && (code c <=? 57)) eqn:E1; [done|].
  destruct ((97 <=? code c) && (code c <=? 102)) eqn:E2; [done|]. destruct ((65 <=? code c) && (code c <=? 70)) eqn:E3; done.
Qed.

Lemma hex_decode_chars s t : hex_decode s = Some t -> str_forall hex_char s = true.
Proof.
  revert t. enough (forall n s t, (String.length s <= n)%nat -> hex_decode s = Some t -> str_forall hex_char s = true) as H by eauto.
  intros n. induction n as [|n IH]; intros [|a [|b r]] t Hl; cbn in *; try done; try lia.
  destruct (hex_value a) eqn:Ea; [|done]. destruct (hex_value b) eqn:Eb; [|done]. destruct (hex_decode r) as [u|] eqn:Er; [|done]. intros _.
  rewrite (proj1 (hex_value_char a)), (proj1 (hex_value_char b)) by congruence. cbn. apply (IH r u); [lia|done].
Qed.

Lemma lower_byte_idem c : lower_byte (lower_byte c) = lower_byte c.
Proof. by destruct c as [[] [] [] [] [] [] [] []]. Qed.

Lemma lower_ascii_idem s : lower_ascii (lower_ascii s) = lower_ascii s.
Proof. induction s as [|c s IH]; [done|]. cbn [lower_ascii]. by rewrite lower_byte_idem, IH. Qed.

(** ** Words *)

(** A word in the one spelling the parsers return. *)
Definition canonical_word (n : Z) (h : string) : Prop :=
  hex_word n h = Some h /\ TrimSpace h = h /\ lower_ascii h = h /\ canonicalEVMHex h = h /\ h <> "".

Lemma hex_word_canonical n v h : 2 < n -> hex_word n v = Some h -> canonical_word n h.
Proof.
  intros Hn. unfold hex_word. destruct (len (lower_ascii (TrimSpace v)) =? n) eqn:El; [|done]. cbn [negb orb].
  destruct (HasPrefix (lower_ascii (TrimSpace v)) "0x") eqn:Ep; [|done]. cbn [negb].
  destruct (hex_decode _) as [t|] eqn:Ed; [|done]. intros [= <-].
  assert (lower_ascii (lower_ascii (TrimSpace v)) = lower_ascii (TrimSpace v)) as Hl by apply lower_ascii_idem.
  revert Hl El Ep Ed. generalize (lower_ascii (TrimSpace v)) as h. intros h Hl El Ep Ed.
  apply hex_decode_chars in Ed as Hhex. apply HasPrefix_iff in Ep as Hh. cbn [String.length] in Hh.
  assert (str_forall plain_byte h = true) as Hplain by (rewrite Hh; cbn; by apply hex_plain).
  apply TrimSpace_plain in Hplain as Ht. apply Z.eqb_eq in El.
  assert (str_drop 2 h <> "") as Hp by (intros Hp; rewrite Hp in Hh; rewrite Hh in El; unfold len in El; cbn in El; lia).
  split_and!; [|done|done| |intros ->; discriminate Ep].
  - unfold hex_word. rewrite Ht, Hl, El, Z.eqb_refl, Ep, Ed. done.
  - unfold canonicalEVMHex. rewrite Hh at 1. change ("0x" ++ str_drop 2 h)%string with ("0x" +:+ str_drop 2 h).
    rewrite canonical_hex by (split; [auto|done]). cbn [String.eqb Ascii.eqb]. rewrite Hh at 2. rewrite Hh in Hl. exact Hl.
Qed.

Lemma hash_canonical v h : canonicalEVMHash v = Some h -> canonical_word 66 h.
Proof. by apply hex_word_canonical. Qed.
Lemma address_canonical v h : canonicalEVMAddress v = Some h -> canonical_word 42 h.
Proof. by apply hex_word_canonical. Qed.

Lemma hex_decode_total n t : str_forall hex_char t = true -> String.length t = (2 * n)%nat -> exists u, hex_decode t = Some u.
Proof.
  revert t. induction n as [|n IH]; intros [|a [|b r]] Hc Hl; cbn in Hl; try lia; [by exists ""|].
  cbn in Hc. apply andb_true_iff in Hc as [Ha [Hb Hr]%andb_true_iff]. destruct (IH r Hr ltac:(lia)) as [u Hu]. cbn [hex_decode].
  apply hex_value_char in Ha, Hb. destruct (hex_value a); [|done]. destruct (hex_value b); [|done]. rewrite Hu. by eexists.
Qed.

Lemma str_drop_length n t : String.length (str_drop n t) = (String.length t - n)%nat.
Proof. revert t. induction n as [|n IH]; intros [|c t]; cbn; try lia. by rewrite IH. Qed.

Lemma str_drop_drop n m t : str_drop n (str_drop m t) = str_drop (m + n) t.
Proof. revert t. induction m as [|m IH]; intros t; [done|]. destruct t as [|c t]; cbn; [by destruct n|apply IH]. Qed.

Lemma lower_ascii_drop n t : lower_ascii (str_drop n t) = str_drop n (lower_ascii t).
Proof. revert t. induction n as [|n IH]; intros [|c t]; cbn; try done. Qed.

Lemma lower_ascii_app t u : lower_ascii (t +:+ u) = lower_ascii t +:+ lower_ascii u.
Proof. induction t as [|c t IH]; [done|]. cbn. by rewrite IH. Qed.

(** What a word is made of. *)
Lemma hex_word_parts n v h : hex_word n v = Some h ->
  len h = n /\ h = "0x" +:+ str_drop 2 h /\ lower_ascii h = h /\ str_forall hex_char (str_drop 2 h) = true.
Proof.
  unfold hex_word. destruct (Z.eqb_spec (len (lower_ascii (TrimSpace v))) n) as [El|]; [|done]. cbn [negb orb].
  destruct (HasPrefix (lower_ascii (TrimSpace v)) "0x") eqn:Ep; [|done]. cbn [negb].
  destruct (hex_decode _) as [t|] eqn:Ed; [|done]. intros [= <-].
  split_and!; [done|by apply HasPrefix_iff|apply lower_ascii_idem|by eapply hex_decode_chars].
Qed.

Lemma hex_word_intro n h : len h = 2 + 2 * n -> 0 <= n -> h = "0x" +:+ str_drop 2 h -> lower_ascii h = h ->
  str_forall hex_char (str_drop 2 h) = true -> hex_word (2 + 2 * n) h = Some h.
Proof.
  intros Hl Hn Hp Hlow Hh. unfold hex_word. assert (str_forall plain_byte h = true) as Hplain by (rewrite Hp; cbn; by apply hex_plain).
  rewrite (TrimSpace_plain _ Hplain), Hlow, Hl, Z.eqb_refl. cbn [negb orb].
  assert (HasPrefix h "0x" = true) as -> by (by apply HasPrefix_iff). cbn [negb].
  destruct (hex_decode_total (Z.to_nat n) (str_drop 2 h)) as [u ->]; [done| |done]. rewrite str_drop_length. unfold len in Hl. lia.
Qed.

Lemma topic_address v a : addressFromTopic v = Some a -> canonical_word 42 a.
Proof.
  unfold addressFromTopic. destruct (hex_word 66 v) as [w|] eqn:Ew; [|done]. destruct (_ == _); [|done]. intros H.
  assert (a = "0x" +:+ str_drop 26 w) as -> by congruence. clear H.
  apply hex_word_parts in Ew as (Hl & _ & Hlow & Hh). apply (hex_word_canonical 42 ("0x" +:+ str_drop 26 w)); [lia|].
  apply (hex_word_intro 20); [|lia|done| |].
  - rewrite len_app. unfold len in *. rewrite str_drop_length. cbn. lia.
  - change (lower_ascii ("0x" +:+ str_drop 26 w)) with ("0x" +:+ lower_ascii (str_drop 26 w)). by rewrite lower_ascii_drop, Hlow.
  - change (str_drop 2 ("0x" +:+ str_drop 26 w)) with (str_drop (2 + 24) w). rewrite <- str_drop_drop. by apply str_forall_drop.
Qed.

(** The topic of a watched address names that address. *)
Lemma topic_roundtrip a : canonicalEVMAddress a = Some a -> addressFromTopic (evmAddressTopic a) = Some a.
Proof.
  intros (Hl & Hp & Hlow & Hh)%hex_word_parts. unfold evmAddressTopic.
  assert (TrimPrefix a "0x" = str_drop 2 a) as ->.
  { unfold TrimPrefix. cbn [String.length]. by rewrite (proj2 (HasPrefix_iff "0x" a) Hp). }
  unfold addressFromTopic. set (t := "0x" +:+ Repeat "0" 24 +:+ str_drop 2 a).
  assert (hex_word 66 t = Some t) as ->.
  { apply (hex_word_intro 32); [|lia|done| |].
    - unfold t. rewrite !len_app. change (len (Repeat "0" 24)) with 24. unfold len in *. rewrite str_drop_length. cbn. lia.
    - unfold t. by rewrite !lower_ascii_app, lower_ascii_drop, Hlow.
    - change (str_drop 2 t) with (Repeat "0" 24 +:+ str_drop 2 a). by rewrite str_forall_app, Hh. }
  change (str_take 24 (str_drop 2 t)) with (Repeat "0" 24). rewrite String.eqb_refl.
  change (str_drop 26 t) with (str_drop 2 a). by rewrite <- Hp.
Qed.

Lemma fold_eq_iff v h : fold_eq v h = true <-> lower_ascii v = h.
Proof. apply String.eqb_eq. Qed.

(** ** Quantities *)

Lemma hex_number_nonneg acc t n : 0 <= acc -> hex_number acc t = Some n -> 0 <= n.
Proof.
  revert acc. induction t as [|c t IH]; cbn; intros acc Ha; [congruence|]. destruct (hex_value c) as [d|] eqn:Ed; [|done].
  apply IH. unfold hex_value in Ed. pose proof (code_range c).
  destruct ((48 <=? code c) && (code c <=? 57)) eqn:E1; [injection Ed; lia|].
  destruct ((97 <=? code c) && (code c <=? 102)) eqn:E2; [injection Ed; lia|].
  destruct ((65 <=? code c) && (code c <=? 70)) eqn:E3; [injection Ed; lia|done].
Qed.

Lemma parseHexUint64_range v n : parseHexUint64 v = Some n -> is_uint64 n.
Proof.
  unfold parseHexUint64, ParseUint16_64. destruct (non_canonical v); [done|]. destruct (_ == _); [done|].
  destruct (hex_number 0 _) as [m|] eqn:E; [|done]. apply hex_number_nonneg in E; [|done].
  destruct (Z.ltb_spec max_uint64 m); [done|]. intros [= <-]. split; lia.
Qed.

(** The digits of [n]: no zero in front, and their number. *)
Lemma hex_print_spec fuel n acc : 0 <= n < 16 ^ Z.of_nat fuel -> (0 < fuel)%nat ->
  exists c r, hex_print fuel n acc = String c r /\ hex_number 0 (hex_print fuel n acc) = hex_number n acc /\
    (code c = 48 -> n = 0 /\ r = acc).
Proof.
  revert n acc. induction fuel as [|f IH]; intros n acc Hn Hf; [lia|]. cbn [hex_print].
  pose proof (Z.mod_pos_bound n 16 ltac:(lia)) as Hm. pose proof (Z.div_mod n 16 ltac:(lia)) as Hd.
  destruct (Z.eqb_spec (n / 16) 0) as [H0|H0].
  - eexists _, _. split; [reflexivity|]. cbn [hex_number]. rewrite hex_value_digit by lia. split; [f_equal; lia|].
    intros Hc. split; [|done]. unfold hex_digit in Hc. destruct (Z.ltb_spec (n mod 16) 10); rewrite code_chr in Hc by lia; lia.
  - assert (0 <= n / 16 < 16 ^ Z.of_nat f) as Hb.
    { rewrite Nat2Z.inj_succ, Z.pow_succ_r in Hn by lia. split; [apply Z.div_pos; lia|apply Z.div_lt_upper_bound; lia]. }
    assert (0 < f)%nat as Hf' by (destruct f; [cbn in Hb; lia|lia]).
    destruct (IH (n / 16) (String (hex_digit (n mod 16)) acc) Hb Hf') as (c & r & E & Ev & Ec).
    exists c, r. split; [done|]. split; [|intros Hc; destruct (Ec Hc); lia].
    rewrite Ev. cbn [hex_number]. rewrite hex_value_digit by lia. f_equal. lia.
Qed.

Lemma len_cons c t : len (String c t) = 1 + len t.
Proof. unfold len. cbn [String.length]. lia. Qed.

(** The source reads back every height it asks for. *)
Lemma hexQuantity_read n : is_uint64 n -> parseHexUint64 (hexQuantity n) = Some n.
Proof.
  intros Hn. unfold is_uint64, max_uint64 in Hn. destruct (hex_print_spec 16 n "" ltac:(lia) ltac:(lia)) as (c & r & E & Ev & Ec).
  unfold parseHexUint64, non_canonical, hexQuantity. rewrite E in Ev |- *. change ("0x" +:+ String c r) with (String "0" (String "x" (String c r))).
  cbn [HasPrefix str_drop Ascii.eqb Bool.eqb andb negb orb]. unfold ParseUint16_64. cbn [String.eqb]. rewrite Ev. cbn [hex_number].
  assert (byte_at (String "0" (String "x" (String c r))) 2 = code c) as -> by done. rewrite !len_cons.
  pose proof (len_nonneg r). destruct (Z.ltb_spec (1 + (1 + (1 + len r))) 3); [lia|].
  assert (((3 <? 1 + (1 + (1 + len r))) && (code c =? 48)) = false) as ->.
  { apply andb_false_iff. destruct (Z.eqb_spec (code c) 48) as [Hc|]; [left|by right]. destruct (Ec Hc) as [_ ->]. done. }
  cbn [orb]. destruct (Z.ltb_spec max_uint64 n); [unfold max_uint64 in *; lia|done].
Qed.

Lemma hexQuantity_inj n m : is_uint64 n -> is_uint64 m -> hexQuantity n = hexQuantity m -> n = m.
Proof. intros Hn Hm H. apply (f_equal parseHexUint64) in H. rewrite !hexQuantity_read in H by done. congruence. Qed.

(** An amount is the number the node wrote, in decimal; a sign is let through. *)
Lemma parseHexAmount_value v a : parseHexAmount v = Some a ->
  exists n, big_SetString16 (str_drop 2 v) = Some n /\ 0 <= n < amount_limit /\ a = dec_string n /\ Parse a = Ok n.
Proof.
  unfold parseHexAmount. destruct (non_canonical v); [done|]. destruct (big_SetString16 _) as [n|] eqn:E; [|done].
  destruct ((n <? 0) || (256 <? BitLen n)) eqn:Eb; [done|]. intros [= <-]. apply orb_false_iff in Eb as [Hn Hb].
  apply Z.ltb_ge in Hn. pose proof (BitLen_gt_256 n Hn) as Hl. rewrite Z.gtb_ltb, Hb in Hl. symmetry in Hl. apply Z.leb_gt in Hl.
  exists n. unfold FormatInt. rewrite (proj2 (Z.ltb_ge n 0)) by lia. split_and!; [done|lia|lia|done|].
  apply Parse_AmountString. split; lia.
Qed.

(** ** Heights *)

Lemma heights_seqZ from to : heights from to = seqZ from (to - from + 1).
Proof. unfold heights, seqZ. apply map_ext. intros i. lia. Qed.

Lemma heights_In from to h : In h (heights from to) <-> from <= h <= to.
Proof. rewrite heights_seqZ, <- list_elem_of_In, elem_of_seqZ. lia. Qed.

Lemma heights_cons from to : from <= to -> heights from to = from :: heights (from + 1) to.
Proof.
  intros H. rewrite !heights_seqZ, seqZ_cons by lia. f_equal. replace (Z.succ from) with (from + 1) by lia.
  f_equal. lia.
Qed.

(** ** Normalized events *)

Section source_facts.
Context (s : EVMSource) (node : EvmNode) (unmarshal_tx : string -> option evmTransaction)
  (native_evidence : evmTransaction -> evmReceipt -> string) (log_evidence : evmLog -> string)
  (receipt_evidence : evmReceipt -> option evmTraceCall -> string) (sha256 : string -> string).

(** What binds an event to a block, whatever path found it. *)
Record event_in_block (safeHeight : Z) (b : Block) (e : TransferEvent) : Prop := mk_event_in_block {
  eib_height : te_BlockHeight e = bl_Height b;
  eib_hash : te_BlockHash e = bl_Hash b;
  eib_time : te_OnChainTime e = truncate_micro (bl_Time b);
  eib_final : te_Status e = TransferFinalized /\ te_Confirmations e = confirmations safeHeight (bl_Height b);
  eib_amount : 0 < te_Amount e < amount_limit;
  eib_identity : ei_ChainID (te_Identity e) = TrimSpace (es_chainID s) /\ canonicalEventID sha256 (te_Identity e) = Ok (te_ID e) }.

(** The receipts the source builds. *)
Definition receipt_for (safeHeight : Z) (b : Block) (txHash : string) (v : EVMReceipt) : Prop :=
  er_TransactionID v = txHash /\ er_BlockHeight v = bl_Height b /\ er_BlockHash v = bl_Hash b /\ er_BlockTime v = bl_Time b /\
  er_Finalized v = true /\ er_Confirmations v = confirmations safeHeight (bl_Height b).

Lemma evm_facts_common v : Forall (fun f => ft_BlockHeight f = er_BlockHeight v /\ ft_BlockHash f = canonicalEVMHex (er_BlockHash v) /\
  ft_BlockTime f = er_BlockTime v /\ ft_Status f = finality (er_Finalized v) /\ ft_Confirmations f = er_Confirmations v /\
  ft_Evidence f = er_RawEvidence v) (evm_facts v).
Proof.
  unfold evm_facts. rewrite !Forall_app, !Forall_map_iff. split_and!.
  - destruct (er_Native v) as [n|]; [|done]. destruct (_ != _); [|done]. by constructor.
  - by apply Forall_true.
  - by apply Forall_true.
Qed.

Lemma normalize_receipt_answers v events : normalize_receipt s sha256 v = Ok events ->
  answers sha256 (es_chainID s) (er_TransactionID v) v events.
Proof.
  unfold normalize_receipt. intros H%lift_err_ok. rewrite (proj1 (adapters_normalize sha256 None (es_chainID s) (er_TransactionID v))) in H.
  destruct (adapter_answers sha256 _ _ _ _ H) as (v' & [= ->] & Ha). exact Ha.
Qed.

Lemma normalize_receipt_bound v events safeHeight b txHash :
  normalize_receipt s sha256 v = Ok events -> receipt_for safeHeight b txHash v -> canonical_word 66 (bl_Hash b) -> canonical_word 66 txHash ->
  Forall (fun e => event_in_block safeHeight b e /\ ei_TransactionID (te_Identity e) = txHash) events.
Proof.
  intros H (Hid & Hh & Hb & Ht & Hf & Hc) Hcan Htx. apply normalize_receipt_answers in H as [_ Hfail Hfacts Htxs Hids].
  cbn [rp_success evm_report] in *. destruct (er_Success v); [|by rewrite (Hfail eq_refl)].
  specialize (Hfacts eq_refl). cbn [rp_facts evm_report] in Hfacts. pose proof (evm_facts_common v) as Hcom.
  rewrite Forall_forall in Htxs; rewrite Forall_forall in Hids; rewrite Forall_forall in Hcom; apply Forall_forall; intros e He. destruct (Forall2_elem_r _ _ _ _ Hfacts He) as (f & Hfe & Hev).
  destruct (Hcom f Hfe) as (C1 & C2 & C3 & C4 & C5 & _). destruct (Htxs e He) as (T1 & T2 & T3).
  destruct Hev as [_ _ _ (E1 & E2 & _) E3 (E4 & E5) _]. destruct Hcan as (_ & Htrim & _ & Hx & _). destruct Htx as (_ & _ & _ & Hxt & _).
  split; [constructor|].
  - congruence.
  - rewrite E2, C2, Hb, Hx. exact Htrim.
  - congruence.
  - rewrite E4, C4, Hf, E5, C5. done.
  - exact T3.
  - split; [exact T1|exact (Hids e He)].
  - rewrite T2. cbn [rp_spelling evm_report]. by rewrite Hid.
Qed.

(** *** Blocks *)

(** A block as the worker wants it. *)
Definition good_block (height : Z) (b : Block) : Prop :=
  bl_Height b = height /\ canonical_word 66 (bl_Hash b) /\ IsZeroTime (bl_Time b) = false.

Lemma validateEVMBlock_ok block height number t : validateEVMBlock block height = Ok (number, t) ->
  number = height /\ IsZeroTime t = false /\ exists hash, canonicalEVMHash (eb_Hash block) = Some hash.
Proof.
  unfold validateEVMBlock. destruct (parseHexUint64 (eb_Number block)) as [n|]; [|done]. destruct (Z.eqb_spec n height) as [->|]; [|done].
  cbn [negb]. destruct (canonicalEVMHash (eb_Hash block)) as [hash|]; [|done]. destruct (_ && _); [done|].
  destruct (parseHexUint64 (eb_Timestamp block)) as [ts|] eqn:Et; [|done]. apply parseHexUint64_range in Et. destruct (max_int64 <? ts); [done|].
  intros [= <- <-]. split_and!; [done| |by exists hash]. unfold IsZeroTime, UnixTime, unix_epoch, Second. destruct Et. apply Z.eqb_neq. lia.
Qed.

Lemma checked_block_good label block height b : checked_block label block height = Ok b -> good_block height b.
Proof.
  unfold checked_block. destruct (lift_err _ _) as [[number t]|] eqn:E; [|done]. cbn. intros [= <-].
  apply lift_err_ok, validateEVMBlock_ok in E as (-> & Ht & hash & Hh). rewrite Hh. cbn. split_and!; [done|by eapply hash_canonical|done].
Qed.

Lemma safe_head_ok to safeHeight : safe_head s node to = Ok safeHeight -> to <= safeHeight /\ is_uint64 safeHeight.
Proof.
  unfold safe_head. destruct (taggedBlock _ _ _) as [head|]; [|done]. cbn. destruct (parseHexUint64 (eb_Number head)) as [h|] eqn:E; [|done].
  destruct (Z.ltb_spec h to); [done|]. intros [= <-]. split; [done|by apply parseHexUint64_range in E].
Qed.

(** *** Native transfers of the watched path *)

(** A transfer the source was asked for: of the native asset, or of a configured
    token, to a watched address. *)
Definition wanted (e : TransferEvent) : Prop :=
  ei_ToAddress (te_Identity e) ∈ es_watched s /\
  (te_Kind e = "native_top_level" /\ ei_AssetID (te_Identity e) = TrimSpace (es_nativeAssetID s) \/
   te_Kind e = "token_transfer" /\ exists contract token, es_tokens s !! contract = Some token /\
     ei_AssetID (te_Identity e) = TrimSpace (ek_AssetID token) /\ te_AssetDecimals e = ek_Decimals token).

Lemma single_native v n events : normalize_receipt s sha256 v = Ok events ->
  er_Native v = Some n -> er_Logs v = [] -> er_Traces v = [] -> er_Success v = true -> canonical_word 42 (en_To n) ->
  Forall (fun e => te_Kind e = "native_top_level" /\ ei_AssetID (te_Identity e) = TrimSpace (en_AssetID n) /\
    ei_ToAddress (te_Identity e) = en_To n /\ ei_EventIndex (te_Identity e) = "native:0" /\ Parse (en_Amount n) = Ok (te_Amount e)) events.
Proof.
  intros H Hn Hl Ht Hs (_ & Htrim & _ & Hx & _). apply normalize_receipt_answers in H as [_ _ Hf _ _]. specialize (Hf Hs).
  cbn [rp_facts evm_report] in Hf. unfold evm_facts in Hf. rewrite Hn, Hl, Ht in Hf. cbn [List.filter map] in Hf. rewrite !app_nil_r in Hf.
  destruct (en_Amount n != "0"); [|inversion Hf; constructor]. apply Forall2_cons_inv_l in Hf as (e & es & He & Hes & ->).
  inversion Hes; subst. constructor; [|constructor]. destruct He as [Hi _ [Ha _] _ _ _ (Hk & _)]. cbn in Ha, Hk. rewrite Hi. cbn.
  rewrite Hx. split_and!; [exact Hk|done|exact Htrim|done|done].
Qed.

Lemma single_token v x events : normalize_receipt s sha256 v = Ok events ->
  er_Native v = None -> er_Logs v = [x] -> el_Transfer x = true -> er_Traces v = [] -> er_Success v = true -> canonical_word 42 (el_To x) ->
  Forall (fun e => te_Kind e = "token_transfer" /\ ei_AssetID (te_Identity e) = TrimSpace (el_AssetID x) /\
    te_AssetDecimals e = el_Decimals x /\ ei_ToAddress (te_Identity e) = el_To x /\ Parse (el_Amount x) = Ok (te_Amount e)) events.
Proof.
  intros H Hn Hl Htr Ht Hs (_ & Htrim & _ & Hx & _). apply normalize_receipt_answers in H as [_ _ Hf _ _]. specialize (Hf Hs).
  cbn [rp_facts evm_report] in Hf. unfold evm_facts in Hf. rewrite Hn, Hl, Ht in Hf. cbn [List.filter map app] in Hf. rewrite Htr in Hf. cbn [map] in Hf.
  apply Forall2_cons_inv_l in Hf as (e & es & He & Hes & ->). inversion Hes; subst. constructor; [|constructor].
  destruct He as [Hi _ [Ha _] _ _ _ (Hk & _ & Hd & _)]. cbn in Ha, Hk, Hd. rewrite Hi. cbn. rewrite Hx. done.
Qed.

Lemma keep_evidence_bound safeHeight b ev e :
  event_in_block safeHeight b e /\ wanted e -> event_in_block safeHeight b (keep_evidence ev e) /\ wanted (keep_evidence ev e).
Proof. unfold keep_evidence. destruct (_ && _); [|done]. intros [[H1 H2 H3 H4 H5 H6] Hw]. split; [by constructor|exact Hw]. Qed.

Lemma watched_native_receipt_sound tx receipt b safeHeight events to :
  normalizeWatchedNativeReceipt s native_evidence sha256 tx receipt b safeHeight = Ok events ->
  canonical_word 66 (bl_Hash b) -> canonicalEVMAddress (ex_To tx) = Some to -> to ∈ es_watched s ->
  Forall (fun e => event_in_block safeHeight b e /\ wanted e) events.
Proof.
  unfold normalizeWatchedNativeReceipt. intros H Hb Hto Hw. rewrite Hto in H. cbn [default from_option id] in H.
  destruct (of_option _ (canonicalEVMHash (ex_Hash tx))) as [txHash|] eqn:Eh; [|done]. cbn in H. apply of_option_ok, hash_canonical in Eh.
  destruct (negb (receipt_bound _ _ _)); [done|]. destruct (receipt_success receipt) as [[]|]; [|by injection H as <-|done]. cbn in H.
  destruct (of_option _ (canonicalEVMAddress (ex_From tx))) as [from|]; [|done]. cbn in H. apply address_canonical in Hto.
  destruct (normalize_receipt _ _ _) as [es|] eqn:En; [|done]. cbn in H. injection H as <-. apply Forall_fmap.
  pose proof (normalize_receipt_bound _ _ safeHeight b txHash En ltac:(by split_and!) Hb Eh) as H1.
  pose proof (single_native _ (mkEVMNative from to (default "" (parseHexAmount (ex_Value tx))) (es_nativeAssetID s) (es_nativeDecimals s)) _ En eq_refl eq_refl eq_refl eq_refl Hto) as H2. cbn in H2.
  eapply Forall_impl; [exact (proj2 (Forall_and _ _) (conj H1 H2))|]. cbn. intros e [[He _] (Hk & Ha & Hx & _)].
  apply keep_evidence_bound. split; [exact He|]. split; [by rewrite Hx|]. by left.
Qed.

Lemma watched_token_log_sound log blocks safeHeight events id :
  normalizeWatchedTokenLog s log_evidence sha256 log blocks safeHeight = Ok (events, id) ->
  (forall h b, blocks !! h = Some b -> good_block h b) ->
  exists h b, blocks !! h = Some b /\ Forall (fun e => event_in_block safeHeight b e /\ wanted e) events.
Proof.
  unfold normalizeWatchedTokenLog. intros H Hblocks. destruct (_ || _); [done|].
  destruct (canonicalEVMAddress (eg_Address log)) as [contract|]; [|done].
  destruct (es_tokens s !! contract) as [token|] eqn:Etok; [|done]. destruct (parseHexUint64 _) as [height|]; [|done].
  destruct (canonicalEVMHash _) as [txHash|] eqn:Etx; [|done]. destruct (blocks !! height) as [b|] eqn:Eb; [|done].
  destruct (negb _); [done|]. destruct (transfer_place log) as [[[index from] to]|] eqn:Ep; [|done]. cbn in H.
  destruct (decide (to ∈ es_watched s)) as [Hw|Hw]; [rewrite bool_decide_true in H by done|rewrite bool_decide_false in H by done; done]. cbn in H.
  destruct (transfer_amount log) as [amount|]; [|done]. cbn in H. destruct (normalize_receipt _ _ _) as [es|] eqn:En; [|done]. cbn in H.
  injection H as <- <-. exists height, b. split; [done|]. destruct (Hblocks _ _ Eb) as (Hh & Hcan & _).
  assert (canonical_word 42 to) as Hto.
  { unfold transfer_place in Ep. destruct (parseHexUint64 (eg_LogIndex log)); [|done]. destruct (_ <? _); [done|]. cbn in Ep.
    destruct (addressFromTopic (topic_at log 1)); [|done]. cbn in Ep. destruct (addressFromTopic (topic_at log 2)) eqn:E2; [|done].
    cbn in Ep. injection Ep as <- <- <-. by eapply topic_address. }
  pose proof (normalize_receipt_bound _ _ safeHeight b txHash En) as H1.
  assert (receipt_for safeHeight b txHash (mkEVMReceipt txHash height (bl_Hash b) (bl_Time b) true true (confirmations safeHeight height) None
    [mkEVMLog index from to amount (ek_AssetID token) (ek_Decimals token) true] [] (log_evidence log))) as Hr
    by (subst height; by split_and!).
  specialize (H1 Hr Hcan (hash_canonical _ _ Etx)).
  pose proof (single_token _ (mkEVMLog index from to amount (ek_AssetID token) (ek_Decimals token) true) _ En eq_refl eq_refl eq_refl eq_refl eq_refl Hto) as H2. cbn in H2.
  eapply Forall_impl; [exact (proj2 (Forall_and _ _) (conj H1 H2))|]. cbn. intros e [[He _] (Hk & Ha & Hd & Hx & _)].
  split; [exact He|]. split; [by rewrite Hx|]. right. split; [done|]. by exists contract, token.
Qed.

(** *** The watched scan *)

Definition found_in (safeHeight : Z) (b : Block) (e : TransferEvent) : Prop := event_in_block safeHeight b e /\ wanted e.

Lemma Forall_concat_list {A} (P : A -> Prop) (ls : list (list A)) : Forall (Forall P) ls -> Forall P (concat ls).
Proof. induction 1; cbn; [constructor|]. by apply Forall_app. Qed.

Lemma Forall2_right {A B} (R : A -> B -> Prop) (P : B -> Prop) l k : Forall2 R l k -> (forall a b, R a b -> P b) -> Forall P k.
Proof. intros H HP. induction H; constructor; eauto. Qed.

Lemma traverse_Forall {E A B} (f : A -> result E B) (P : B -> Prop) l r :
  traverse f l = Ok r -> (forall a b, f a = Ok b -> P b) -> Forall P r.
Proof. intros H%traverse_ok HP. by eapply Forall2_right. Qed.

Lemma watched_native_sound b safeHeight raw events :
  watched_native s node unmarshal_tx native_evidence sha256 b safeHeight raw = Ok events -> canonical_word 66 (bl_Hash b) ->
  Forall (found_in safeHeight b) events.
Proof.
  unfold watched_native. intros H Hb. destruct (decode_transaction _ raw) as [tx|]; [|done]. cbn in H.
  destruct (canonicalEVMAddress (ex_To tx)) as [to|] eqn:Eto; [|destruct (ex_To tx == ""); [by injection H as <-|done]].
  destruct (decide (to ∈ es_watched s)) as [Hw|Hw]; [rewrite bool_decide_true in H by done|rewrite bool_decide_false in H by done; by injection H as <-].
  cbn in H. destruct (of_option _ _) as [amount|]; [|done]. cbn in H. destruct (amount == "0"); [by injection H as <-|].
  unfold normalizeWatchedNative in H. destruct (es_nativeAssetID s == ""); [by injection H as <-|].
  destruct (of_option _ (canonicalEVMHash (ex_Hash tx))) as [txHash|]; [|done]. cbn in H. destruct (nd_getReceipt node txHash) as [receipt|]; [|done].
  cbn in H. by apply (watched_native_receipt_sound tx receipt b safeHeight events to).
Qed.

Lemma watched_blocks_sound to safeHeight pre range scanned :
  watched_blocks s node unmarshal_tx native_evidence sha256 to safeHeight pre range = Ok scanned ->
  Forall2 (fun h (p : Block * list TransferEvent) => good_block h (fst p) /\ Forall (found_in safeHeight (fst p)) (snd p)) range scanned.
Proof.
  revert pre scanned. induction range as [|h range IH]; intros pre scanned H; cbn [watched_blocks] in H; [injection H as <-; constructor|].
  bind_step H. destruct x as [|block ahead]; [done|]. bind_step H. bind_step H. bind_step H. injection H as <-.
  apply checked_block_good in E0 as Hg. constructor; [|by eapply IH]. split; [exact Hg|]. cbn [snd fst].
  destruct (es_nativeAssetID s == ""); [injection E1 as <-; constructor|]. apply Forall_concat_list.
  eapply traverse_Forall; [exact E1|]. intros raw es He. eapply watched_native_sound; [exact He|apply Hg].
Qed.

Lemma token_events_sound blocks safeHeight seen logs events :
  token_events s log_evidence sha256 blocks safeHeight seen logs = Ok events -> (forall h b, blocks !! h = Some b -> good_block h b) ->
  Forall (fun e => exists h b, blocks !! h = Some b /\ found_in safeHeight b e) events.
Proof.
  revert seen events. induction logs as [|log logs IH]; intros seen events H Hb; cbn [token_events] in H; [injection H as <-; constructor|].
  bind_step H. destruct x as [es id]. destruct (existsb _ seen); [done|]. bind_step H. injection H as <-.
  apply Forall_app. split; [|by eapply IH]. destruct (watched_token_log_sound _ _ _ _ _ E Hb) as (h & b & Hh & Hes).
  eapply Forall_impl; [exact Hes|]. cbn. eauto.
Qed.

Lemma block_map_spec l h b : block_map l !! h = Some b -> b ∈ l /\ bl_Height b = h.
Proof.
  unfold block_map. assert (forall m : gmap Z Block, fold_left (fun m b => <[bl_Height b := b]> m) l m !! h = Some b ->
    (b ∈ l /\ bl_Height b = h) \/ m !! h = Some b) as Hm; [|intros [?|H]%Hm; [done|by rewrite lookup_empty in H]].
  induction l as [|c l IH]; cbn; intros m H; [by right|]. destruct (IH _ H) as [[? ?]|Hc]; [left; split; [by right|done]|].
  destruct (decide (bl_Height c = h)) as [<-|Hne]; [|right; by rewrite lookup_insert_ne in Hc].
  rewrite lookup_insert_eq in Hc. injection Hc as <-. left. split; [by left|done].
Qed.

(** What a scan returns: one good block for each height, and events in them. *)
Definition range_of (from to safeHeight : Z) (hs : list Z) (P : TransferEvent -> Prop) (batch : RangeBatch) : Prop :=
  rb_From batch = from /\ rb_To batch = to /\ Forall2 good_block hs (rb_Blocks batch) /\
  Forall (fun e => exists b, b ∈ rb_Blocks batch /\ event_in_block safeHeight b e /\ P e) (rb_Events batch).

Lemma scanWatchedRange_sound from to batch :
  scanWatchedRange s node unmarshal_tx native_evidence log_evidence sha256 from to = Ok batch ->
  exists safeHeight, to <= safeHeight /\
    (range_of from to safeHeight (heights from to) wanted batch /\ rb_SparseBlocks batch = false /\ rb_IdleCheckpoint batch = false \/
     es_watched s = ∅ /\ range_of from to safeHeight (idle_heights s from to) wanted batch /\ rb_SparseBlocks batch = true /\ rb_IdleCheckpoint batch = true /\
     rb_Events batch = []) /\ rb_IndexedCheckpoint batch = false.
Proof.
  unfold scanWatchedRange. intros H. bind_step H. apply safe_head_ok in E as [Hsafe _]. exists x. split; [done|].
  destruct (decide (es_watched s = ∅)) as [He|He]; [rewrite bool_decide_true in H by done|rewrite bool_decide_false in H by done].
  - bind_step H. injection H as <-. split; [right|done]. split_and!; try done. split_and!; [done|done| |constructor].
    apply traverse_ok in E. eapply Forall2_impl; [exact E|]. intros h b Hb. cbn. unfold idle_block in Hb. bind_step Hb.
    by eapply checked_block_good.
  - bind_step H. bind_step H. bind_step H. injection H as <-. split; [left|done]. split_and!; try done. apply watched_blocks_sound in E as Hs.
    assert (Forall2 good_block (heights from to) (map fst x0)) as Hg.
    { clear -Hs. induction Hs as [|h p hs ps [Hg _] _ IH]; cbn; constructor; done. }
    split_and!; [done|done|exact Hg|]. cbn [rb_Events rb_Blocks]. eapply Permutation_Forall; [apply sort_by_perm|]. apply Forall_app. split.
    + apply Forall_concat_list, Forall_fmap, Forall_forall. intros p Hp. destruct (Forall2_elem_r _ _ _ _ Hs Hp) as (h & _ & _ & Hes).
      cbn. eapply Forall_impl; [exact Hes|]. intros e He'. exists (fst p). split; [apply list_elem_of_fmap; eauto|exact He'].
    + apply token_events_sound in E1 as Ht.
      * eapply Forall_impl; [exact Ht|]. cbn. intros e (h & b & Hb & He'). exists b. split; [exact (proj1 (block_map_spec _ _ _ Hb))|exact He'].
      * intros h b [Hb <-]%block_map_spec. destruct (Forall2_elem_r _ _ _ _ Hg Hb) as (h & _ & [Hh Hrest]). split; [done|exact Hrest].
Qed.

(** *** The full scan *)

Lemma normalizeEVMTransaction_sound tx receipts traces h b safeHeight events :
  normalizeEVMTransaction s receipt_evidence sha256 tx receipts traces h (bl_Hash b) (bl_Time b) safeHeight = Ok events ->
  good_block h b -> Forall (event_in_block safeHeight b) events.
Proof.
  unfold normalizeEVMTransaction. intros H (Hh & Hcan & _). bind_step H. apply of_option_ok, hash_canonical in E as Hx. bind_step H.
  destruct (_ || _); [done|]. bind_step H. bind_step H. destruct x2 as [[native logs] internal].
  eapply Forall_impl; [eapply (normalize_receipt_bound _ _ safeHeight b x); [exact H| |done|done]|by intros ? [? _]].
  subst h. by split_and!.
Qed.

Lemma scan_ordered_Forall normalize P position ordered events :
  scan_ordered normalize position ordered = Ok events -> (forall tx es, normalize tx = Ok es -> Forall P es) -> Forall P events.
Proof.
  intros H HP. revert position events H. induction ordered as [|[i tx] ordered IH]; intros position events H; cbn [scan_ordered] in H; [injection H as <-; constructor|].
  destruct (negb _); [done|]. bind_step H. bind_step H. injection H as <-. apply Forall_app. split; [by eapply HP|by eapply IH].
Qed.

Lemma scan_block_sound safeHeight h b events :
  scan_block s node unmarshal_tx receipt_evidence sha256 safeHeight h = Ok (b, events) ->
  good_block h b /\ Forall (event_in_block safeHeight b) events.
Proof.
  unfold scan_block. intros H. bind_step H. bind_step H. bind_step H. destruct (negb _); [done|]. bind_step H. bind_step H. bind_step H.
  destruct (_ && negb _); [done|]. bind_step H. bind_step H. injection H as <- <-. apply checked_block_good in E0 as Hg. split; [done|].
  eapply scan_ordered_Forall; [exact E6|]. intros tx es He. eapply normalizeEVMTransaction_sound; [exact He|exact Hg].
Qed.

Lemma scan_full_sound from to batch :
  scan_full s node unmarshal_tx receipt_evidence sha256 from to = Ok batch ->
  exists safeHeight, to <= safeHeight /\ range_of from to safeHeight (heights from to) (fun _ => True) batch /\
    rb_SparseBlocks batch = false /\ rb_IdleCheckpoint batch = false /\ rb_IndexedCheckpoint batch = false.
Proof.
  unfold scan_full. intros H. bind_step H. apply safe_head_ok in E as [Hsafe _]. bind_step H. injection H as <-. exists x. split; [done|].
  apply traverse_ok in E as Hs. split_and!; try done. split_and!; [done|done| |].
  - apply Forall2_fmap_r. eapply Forall2_impl; [exact Hs|]. intros h [b es] Hp. cbn. exact (proj1 (scan_block_sound _ _ _ _ Hp)).
  - cbn [rb_Events rb_Blocks]. apply Forall_concat_list, Forall_fmap, Forall_forall. intros [b es] Hp.
    destruct (Forall2_elem_r _ _ _ _ Hs Hp) as (h & _ & Hh). apply scan_block_sound in Hh as [_ Hes]. cbn.
    eapply Forall_impl; [exact Hes|]. intros e He. exists b. split; [apply list_elem_of_fmap; by exists (b, es)|done].
Qed.

(** *** The contract of a range *)

Lemma good_blocks_ok batch from to hs : rb_To batch = to -> Forall (fun h => from <= h <= to) hs -> Forall2 good_block hs (rb_Blocks batch) ->
  Forall (block_ok batch from) (rb_Blocks batch) /\ bl_Height <$> rb_Blocks batch = hs.
Proof.
  intros Hto Hhs Hg. split.
  - apply Forall_forall. intros b Hb. destruct (Forall2_elem_r _ _ _ _ Hg Hb) as (h & Hh & Hbh & (_ & _ & _ & _ & Hne) & Ht).
    rewrite Forall_forall in Hhs. specialize (Hhs h Hh). split_and!; [lia|lia|done|done].
  - clear Hhs. induction Hg as [|h b hs bs [Hb _] _ IH]; cbn; [done|]. by rewrite Hb, IH.
Qed.

Lemma last_height (blocks : list Block) hs h : bl_Height <$> blocks = hs -> last hs = Some h -> exists b, last blocks = Some b /\ bl_Height b = h.
Proof. intros <- Hl. rewrite fmap_last in Hl. destruct (last blocks) as [b|]; [|done]. injection Hl as <-. by exists b. Qed.

Lemma range_covers batch from to safeHeight hs P :
  range_of from to safeHeight hs P batch -> from <= to -> Forall (fun h => from <= h <= to) hs -> last hs = Some to ->
  (rb_SparseBlocks batch = false -> hs = seqZ from (to - from + 1)) ->
  (rb_IdleCheckpoint batch = true -> rb_SparseBlocks batch = true /\ rb_Events batch = [] /\ (length hs <= 3)%nat) ->
  rb_IndexedCheckpoint batch = false -> Sorted (links batch) (rb_Blocks batch) -> covers batch from to.
Proof.
  intros (Hf & Ht & Hg & He) Hle Hhs Hlast Hdense Hidle Hix Hlinks.
  destruct (good_blocks_ok batch from to hs Ht Hhs Hg) as [Hok Hh]. constructor; try done.
  - lia.
  - intros Hi. destruct (Hidle Hi) as (? & ? & ?). apply Forall2_length in Hg. split_and!; [done|done|lia].
  - by rewrite Hix.
  - intros Hs. rewrite Ht, Hh. split; [done|by apply Hdense].
  - destruct (last_height _ _ _ Hh Hlast) as (b & Hb & Hbt). exists b. by rewrite Ht.
  - intros e Hin. rewrite Forall_forall in He. destruct (He e Hin) as (b & Hb & Hev & _). exists b. by destruct Hev.
Qed.

Lemma idle_heights_spec from to : is_uint64 from -> from <= to <= max_uint64 -> 1 <= es_overlap s -> from + es_overlap s - 1 <= max_uint64 ->
  Forall (fun h => from <= h <= to) (idle_heights s from to) /\ last (idle_heights s from to) = Some to /\ (length (idle_heights s from to) <= 3)%nat.
Proof.
  intros Hf Hto Ho Hov. unfold idle_heights, uint64. unfold is_uint64, max_uint64 in *. rewrite Z.mod_small by lia.
  destruct (Z.ltb_spec to (from + es_overlap s - 1)) as [Hlt|Hge].
  - rewrite Z.eqb_refl. cbn [negb]. destruct (Z.eqb_spec to from) as [->|]; cbn [negb app last length].
    + split_and!; [repeat constructor; lia|done|lia].
    + split_and!; [repeat constructor; lia|done|lia].
  - destruct (Z.eqb_spec (from + es_overlap s - 1) from) as [He|He]; [rewrite He in *|].
    + destruct (Z.eqb_spec to from) as [->|]; cbn [negb app last length]; (split_and!; [repeat constructor; lia|done|lia]).
    + destruct (Z.eqb_spec to (from + es_overlap s - 1)) as [->|]; cbn [negb app last length]; (split_and!; [repeat constructor; lia|done|lia]).
Qed.

Lemma heights_last from to : from <= to -> last (heights from to) = Some to.
Proof.
  intros H. unfold heights. replace (Z.to_nat (to - from + 1)) with (S (Z.to_nat (to - from))) by lia.
  rewrite seq_S, map_app. cbn [map]. rewrite last_snoc. f_equal. lia.
Qed.

(** C27: Whichever path it takes, a successful scan of a range returns one
    validated block for every height (the cursor and the ends when nothing is
    watched) and events that are finalized, positive, bound by height, hash and
    time to one of these blocks, identified by their public identity, and in
    the watched path of an asset and to an address the source was asked for. So
    the range meets the whole contract of the worker as soon as its blocks are
    linked by their parents, which only the worker checks. *)
Theorem evm_range_contract from to batch :
  is_uint64 from -> is_uint64 to -> 1 <= es_overlap s -> from + es_overlap s - 1 <= max_uint64 ->
  EVM_ScanRange s node unmarshal_tx native_evidence log_evidence receipt_evidence sha256 from to = Ok batch ->
  (Sorted (links batch) (rb_Blocks batch) -> covers batch from to) /\
  exists safeHeight, to <= safeHeight /\
    Forall (fun e => exists b, b ∈ rb_Blocks batch /\ event_in_block safeHeight b e /\
      (es_addressFiltered s = true -> es_includeInternal s = false -> wanted e)) (rb_Events batch).
Proof.
  intros Hf Ht Ho Hov H. unfold EVM_ScanRange in H. destruct (Z.ltb_spec to from); [done|]. destruct (_ <? _); [done|]. cbn [orb] in H.
  assert (Hall : Forall (fun h => from <= h <= to) (heights from to)) by (apply Forall_forall; intros h Hh; by apply heights_In, list_elem_of_In).
  pose proof (heights_last from to ltac:(lia)) as Hlast. pose proof (idle_heights_spec from to Hf ltac:(split; [lia|apply Ht]) Ho Hov) as (I1 & I2 & I3).
  destruct (es_addressFiltered s && negb (es_includeInternal s)) eqn:Em.
  - destruct (scanWatchedRange_sound _ _ _ H) as (safe & Hs & [(Hr & Hsp & Hid)|(_ & Hr & Hsp & Hid & Hev)] & Hix).
    + split; [intros Hl; eapply range_covers; try done; [intros _; apply heights_seqZ|by rewrite Hid]|].
      exists safe. split; [done|]. destruct Hr as (_ & _ & _ & He). eapply Forall_impl; [exact He|]. cbn. intros e (b & Hb & Hin & Hw). eauto.
    + split; [intros Hl; eapply range_covers; try done; by rewrite Hsp|]. exists safe. split; [done|]. rewrite Hev. constructor.
  - destruct (scan_full_sound _ _ _ H) as (safe & Hs & Hr & Hsp & Hid & Hix).
    split; [intros Hl; eapply range_covers; try done; [intros _; apply heights_seqZ|by rewrite Hid]|].
    exists safe. split; [done|]. destruct Hr as (_ & _ & _ & He). eapply Forall_impl; [exact He|]. cbn. intros e (b & Hb & Hin & _).
    exists b. split_and!; [done|done|]. intros Hx Hy. rewrite Hx, Hy in Em. done.
Qed.
End source_facts.

(** ** Reading blocks in batches *)

Definition with_batch_size (s : EVMSource) (k : Z) : EVMSource :=
  mkEVMSource (es_providerID s) (es_chainID s) (es_headTag s) (es_nativeAssetID s) (es_nativeDecimals s) (es_tokens s)
    (es_includeInternal s) (es_watched s) (es_addressFiltered s) (es_overlap s) k (es_configuredGenesisHash s).

(** A batch answers what its calls would answer, and fails only when one would. *)
Definition batch_faithful (node : EvmNode) : Prop :=
  forall calls, match nd_blockBatch node calls with
    | Ok targets => forall i c, calls !! i = Some c -> exists b, targets !! (Z.of_nat i + 1) = Some b /\ nd_getBlock node (fst c) (snd c) = Ok b
    | Err _ => exists c e, In c calls /\ nd_getBlock node (fst c) (snd c) = Err e
    end.

Section batches.
Context (s : EVMSource) (node : EvmNode) (unmarshal_tx : string -> option evmTransaction)
  (native_evidence : evmTransaction -> evmReceipt -> string) (log_evidence : evmLog -> string)
  (receipt_evidence : evmReceipt -> option evmTraceCall -> string) (sha256 : string -> string).
Context (k : Z) (to safeHeight : Z).
Hypothesis faithful : batch_faithful node.
Hypothesis k_range : 1 <= k <= 4.
Hypothesis to_range : to + 3 <= max_uint64.
Abbreviation sk := (with_batch_size s k) (only parsing).
Abbreviation txs := (es_nativeAssetID s != "") (only parsing).

(** One block at a time. *)
Definition scan_block_native (block : evmBlock) (height : Z) : result provider_error (Block * list TransferEvent) :=
  canonical ← checked_block "evm block" block height;
  events ← (if es_nativeAssetID s == "" then Ok []
            else traverse (watched_native s node unmarshal_tx native_evidence sha256 canonical safeHeight) (eb_Transactions block));
  Ok (canonical, concat events).
Definition scan_one (height : Z) : result provider_error (Block * list TransferEvent) :=
  block ← block_at node height txs; scan_block_native block height.

Lemma watched_blocks_cons block ahead h rest :
  watched_blocks sk node unmarshal_tx native_evidence sha256 to safeHeight (block :: ahead) (h :: rest) =
  (p ← scan_block_native block h; more ← watched_blocks sk node unmarshal_tx native_evidence sha256 to safeHeight ahead rest; Ok (p :: more)).
Proof.
  cbn [watched_blocks mbind result_bind]. unfold scan_block_native. destruct (checked_block _ _ _) as [c|]; [|done]. cbn.
  destruct (es_nativeAssetID s == ""); [done|].
  change (watched_native sk node unmarshal_tx native_evidence sha256 c safeHeight) with (watched_native s node unmarshal_tx native_evidence sha256 c safeHeight).
  by destruct (traverse _ _).
Qed.

(** The window that is read when nothing is left. *)
Lemma window_spec h : 0 <= h <= to ->
  match watchedBlockWindow sk node h (window_last sk to h) with
  | Ok window => window <> [] /\ (length window <= length (heights h to))%nat /\
      Forall2 (fun h b => block_at node h txs = Ok b) (take (length window) (heights h to)) window
  | Err _ => exists h' e, In h' (heights h to) /\ block_at node h' txs = Err e
  end.
Proof.
  intros Hh. unfold watchedBlockWindow, window_last. cbn [es_blockBatchSize es_nativeAssetID with_batch_size].
  assert (Hlast : exists last, (if 1 <? k then Z.min to (uint64 (h + k - 1)) else h) = last /\ h <= last <= to /\ last - h <= 3).
  { eexists. split; [reflexivity|]. unfold uint64, max_uint64 in *. destruct (Z.ltb_spec 1 k); [rewrite Z.mod_small by lia|]; lia. }
  destruct Hlast as (last & -> & Hl1 & Hl2). rewrite (proj2 (Z.ltb_ge last h)), (proj2 (Z.ltb_ge 3 (last - h))) by lia. cbn [orb].
  destruct (Z.eqb_spec h last) as [<-|Hne].
  - destruct (block_at node h txs) as [b|e] eqn:E; cbn [mbind result_bind].
    + rewrite heights_cons by lia. split_and!; [done|cbn; lia|]. cbn [length take]. rewrite take_0. by repeat constructor.
    + exists h, e. split; [apply heights_In; lia|done].
  - assert (Hsub : forall i x, heights h last !! i = Some x -> heights h to !! i = Some x /\ block_at node x txs = nd_getBlock node (hexQuantity x) txs).
    { intros i x Hx. split; [|done]. rewrite heights_seqZ in *. apply lookup_seqZ in Hx as [-> Hi]. apply lookup_seqZ. lia. }
    assert (Hlen : length (heights h last) = Z.to_nat (last - h + 1)) by (unfold heights; by rewrite length_map, length_seq).
    pose proof (faithful (map (fun height => (hexQuantity height, txs)) (heights h last))) as Hf.
    destruct (nd_blockBatch node _) as [targets|e]; cbn [mbind result_bind].
    + assert (Hwin : Forall2 (fun x b => block_at node x txs = Ok b) (heights h last)
        (map (fun index => default zero_block (targets !! (Z.of_nat index + 1))) (seq 0 (Z.to_nat (last - h + 1))))).
      { apply Forall2_same_length_lookup_2; [by rewrite length_map, length_seq|]. intros i x b Hx Hb.
        rewrite list_lookup_fmap in Hb. apply fmap_Some in Hb as (j & [-> Hj]%lookup_seq & ->). rewrite Nat.add_0_l.
        destruct (Hf i (hexQuantity x, txs)) as (b & -> & Hb); [by rewrite list_lookup_fmap, Hx|]. exact Hb. }
      pose proof (Forall2_length _ _ _ Hwin) as Hwl. rewrite <- Hwl. split_and!.
      * intros Hn. apply (f_equal length) in Hn. rewrite <- Hwl in Hn. cbn in Hn. lia.
      * unfold heights. rewrite !length_map, !length_seq. lia.
      * replace (take (length (heights h last)) (heights h to)) with (heights h last); [exact Hwin|].
        symmetry. apply list_eq. intros i. destruct (heights h last !! i) as [x|] eqn:Ex.
        -- rewrite lookup_take_lt by (by apply lookup_lt_Some in Ex). by apply Hsub.
        -- apply lookup_take_ge. by apply lookup_ge_None in Ex.
    + destruct Hf as (c & e' & (x & <- & Hx)%in_map_iff & Hc). exists x, e'. split; [|exact Hc].
      apply heights_In in Hx. apply heights_In. lia.
Qed.

Lemma traverse_err {E A B} (f : A -> result E B) l a e : In a l -> f a = Err e -> forall r, traverse f l <> Ok r.
Proof.
  intros Ha He r H%traverse_ok. apply list_elem_of_In in Ha. destruct (Forall2_elem_l _ _ _ _ H Ha) as (b & _ & Hb). congruence.
Qed.

Lemma watched_blocks_batched h pre r : 0 <= h -> (length pre <= length (heights h to))%nat ->
  Forall2 (fun h b => block_at node h txs = Ok b) (take (length pre) (heights h to)) pre ->
  watched_blocks sk node unmarshal_tx native_evidence sha256 to safeHeight pre (heights h to) = Ok r <-> traverse scan_one (heights h to) = Ok r.
Proof.
  remember (Z.to_nat (to - h + 1)) as m eqn:Em. revert h pre r Em. induction m as [|m IH]; intros h pre r Em Hh Hl Hpre.
  { assert (heights h to = []) as -> by (unfold heights; by rewrite <- Em). done. }
  assert (Hstep : forall block ahead, (length (block :: ahead) <= length (heights h to))%nat ->
    Forall2 (fun h b => block_at node h txs = Ok b) (take (length (block :: ahead)) (heights h to)) (block :: ahead) ->
    watched_blocks sk node unmarshal_tx native_evidence sha256 to safeHeight (block :: ahead) (heights h to) = Ok r <->
    traverse scan_one (heights h to) = Ok r).
  { clear pre Hl Hpre. intros block ahead Hl Hpre. rewrite heights_cons in * by lia. cbn [length take] in Hl, Hpre.
    apply Forall2_cons in Hpre as [Hb Hpre]. rewrite watched_blocks_cons. cbn [traverse].
    assert (scan_one h = scan_block_native block h) as -> by (unfold scan_one; by rewrite Hb).
    destruct (scan_block_native block h) as [p|]; [|done]. cbn [mbind result_bind].
    pose proof (IH (h + 1) ahead) as Hrest. destruct (watched_blocks _ _ _ _ _ _ _ ahead _) as [a|]; destruct (traverse scan_one (heights (h + 1) to)) as [b|]; cbn.
    - assert (Ok (E := provider_error) b = Ok a) as [= ->]; [|done]. apply (Hrest a); [lia|lia|lia|done|done].
    - assert (Err e = Ok a) as [=]. apply (Hrest a); [lia|lia|lia|done|done].
    - assert (Err e = Ok b) as [=]. apply (Hrest b); [lia|lia|lia|done|done].
    - done. }
  destruct pre as [|block ahead]; [|by apply Hstep].
  pose proof (window_spec h ltac:(lia)) as Hw. rewrite heights_cons at 1 by lia. cbn [watched_blocks].
  destruct (watchedBlockWindow _ _ h _) as [window|e]; cbn [mbind result_bind].
  - destruct Hw as (Hne & Hwl & Hwin). destruct window as [|block ahead]; [done|].
    rewrite <- (Hstep block ahead Hwl Hwin). by rewrite (heights_cons h to) by lia.
  - destruct Hw as (h' & e' & Hin & Herr). split; [done|]. intros Ht. exfalso.
    refine (traverse_err scan_one (heights h to) h' e' Hin _ r Ht). unfold scan_one. by rewrite Herr.
Qed.
End batches.

Lemma bind_ok_iff {E A B} (m : result E A) (f : A -> result E B) b : (x ← m; f x) = Ok b <-> exists a, m = Ok a /\ f a = Ok b.
Proof. destruct m; cbn; split; [eauto|by intros (? & [= ->] & ?)|done|by intros (? & ? & _)]. Qed.

(** Reading up to four blocks in one JSON-RPC batch changes transport only:
    with a batch that answers what its calls answer, the scan returns a range
    exactly when the scan of one block at a time returns it. *)
Theorem batch_size_irrelevant s node unmarshal_tx native_evidence log_evidence receipt_evidence sha256 k from to batch :
  batch_faithful node -> 1 <= k <= 4 -> 0 <= from -> to + 3 <= max_uint64 ->
  EVM_ScanRange (with_batch_size s k) node unmarshal_tx native_evidence log_evidence receipt_evidence sha256 from to = Ok batch <->
  EVM_ScanRange (with_batch_size s 1) node unmarshal_tx native_evidence log_evidence receipt_evidence sha256 from to = Ok batch.
Proof.
  intros Hf Hk Hfrom Hto. unfold EVM_ScanRange. destruct ((to <? from) || (2047 <? to - from)); [done|].
  cbn [es_addressFiltered es_includeInternal with_batch_size]. destruct (es_addressFiltered s && negb (es_includeInternal s)); [|done].
  unfold scanWatchedRange. change (safe_head (with_batch_size s k) node to) with (safe_head (with_batch_size s 1) node to).
  destruct (safe_head _ node to) as [safe|]; [|done]. cbn [mbind result_bind es_watched with_batch_size].
  destruct (bool_decide (es_watched s = ∅)); [done|].
  assert (Hw : forall j r, 1 <= j <= 4 ->
    watched_blocks (with_batch_size s j) node unmarshal_tx native_evidence sha256 to safe [] (heights from to) = Ok r <->
    traverse (scan_one s node unmarshal_tx native_evidence sha256 safe) (heights from to) = Ok r).
  { intros j r Hj. apply watched_blocks_batched; [done|done|done|done|cbn; lia|cbn; rewrite take_0; constructor]. }
  rewrite !bind_ok_iff. split; intros (r & Hr & Hrest); exists r; (split; [|exact Hrest]); (apply Hw; [lia|]); by apply Hw in Hr.
Qed.

(** ** The log filters *)

Lemma chunks_of_concat {A} fuel n (l : list A) : (0 < n)%nat -> (length l <= fuel)%nat -> concat (chunks_of fuel n l) = l.
Proof.
  intros Hn. revert l. induction fuel as [|f IH]; intros [|x l] Hl; cbn [chunks_of concat]; try done; [cbn in Hl; lia|].
  rewrite IH; [apply take_drop|]. rewrite length_drop. cbn [length] in *. lia.
Qed.

Lemma chunks_concat {A} n (l : list A) : (0 < n)%nat -> concat (chunks n l) = l.
Proof. intros Hn. by apply chunks_of_concat. Qed.

Lemma chunks_bounded {A} n (l : list A) : Forall (fun c => (length c <= n)%nat) (chunks n l).
Proof.
  unfold chunks. generalize (length l) as fuel. intros fuel. revert l.
  induction fuel as [|f IH]; intros [|x l]; cbn [chunks_of]; constructor; [|apply IH]. rewrite length_take. lia.
Qed.

(** The filters split what is asked for: elements fall into the piece with their key. *)
Lemma filter_disjoint {A} (p q : A -> bool) l : (forall x, p x = true -> q x = false) ->
  Permutation (List.filter p l ++ List.filter q l) (List.filter (fun x => p x || q x) l).
Proof.
  intros Hd. induction l as [|x l IH]; cbn [List.filter]; [constructor|]. destruct (p x) eqn:Ep; cbn [orb].
  - rewrite (Hd x Ep). cbn. by constructor.
  - destruct (q x); [|exact IH]. rewrite <- Permutation_middle. by constructor.
Qed.

Lemma existsb_str_app x l k : existsb_str x (l ++ k) = existsb_str x l || existsb_str x k.
Proof. apply existsb_app. Qed.

Lemma filter_pieces {A} (key : A -> string) (pieces : list (list string)) l : NoDup (concat pieces) ->
  Permutation (concat (map (fun p => List.filter (fun x => existsb_str (key x) p) l) pieces))
    (List.filter (fun x => existsb_str (key x) (concat pieces)) l).
Proof.
  induction pieces as [|p pieces IH]; cbn [map concat]; intros Hnd; [by induction l|].
  apply NoDup_app in Hnd as (_ & Hd & Hnd). rewrite (IH Hnd), filter_disjoint.
  - rewrite (List.filter_ext _ (fun x => existsb_str (key x) (p ++ concat pieces))); [done|]. intros x. by rewrite existsb_str_app.
  - intros x Hx%existsb_str_In. destruct (existsb_str (key x) (concat pieces)) eqn:E; [|done]. apply existsb_str_In in E.
    exfalso. by apply (Hd (key x)); apply list_elem_of_In.
Qed.

Lemma Permutation_concat_map {A B} (f g : A -> list B) l : (forall x, In x l -> Permutation (f x) (g x)) ->
  Permutation (concat (map f l)) (concat (map g l)).
Proof.
  intros H. induction l as [|x l IH]; cbn; [constructor|]. apply Permutation_app; [apply H; by left|]. apply IH. intros y Hy. apply H. by right.
Qed.

Lemma filter_filter {A} (p q : A -> bool) l : List.filter p (List.filter q l) = List.filter (fun x => q x && p x) l.
Proof. induction l as [|x l IH]; cbn; [done|]. destruct (q x); cbn; [|done]. by destruct (p x); rewrite IH. Qed.

(** Both loops of [watchedTokenLogs] together. *)
Lemma filter_grid {A} (contract destination : A -> string) n m cs ds (l : list A) :
  (0 < n)%nat -> (0 < m)%nat -> NoDup cs -> NoDup ds ->
  Permutation (concat (map (fun p : list string * list string => List.filter (fun x => existsb_str (contract x) (fst p) && existsb_str (destination x) (snd p)) l)
      (concat (map (fun c => map (fun d => (c, d)) (chunks m ds)) (chunks n cs)))))
    (List.filter (fun x => existsb_str (contract x) cs && existsb_str (destination x) ds) l).
Proof.
  intros Hn Hm Hcs Hds.
  assert (Hrow : forall c, Permutation (concat (map (fun d => List.filter (fun x => existsb_str (contract x) c && existsb_str (destination x) d) l) (chunks m ds)))
    (List.filter (fun x => existsb_str (destination x) ds) (List.filter (fun x => existsb_str (contract x) c) l))).
  { intros c. pose proof (filter_pieces destination (chunks m ds) (List.filter (fun x => existsb_str (contract x) c) l)) as H.
    rewrite chunks_concat in H by done. specialize (H Hds).
    rewrite <- H. apply Permutation_concat_map. intros d _. by rewrite filter_filter. }
  rewrite concat_map, map_map.
  assert (Hcc : forall (ls : list (list (list A))), concat (concat ls) = concat (map (@concat A) ls)).
  { clear. intros ls. induction ls as [|x ls IH]; cbn; [done|]. by rewrite concat_app, IH. }
  rewrite Hcc, map_map.
  etrans; [apply (Permutation_concat_map _ (fun c => List.filter (fun x => existsb_str (destination x) ds) (List.filter (fun x => existsb_str (contract x) c) l)))|].
  - intros c _. rewrite map_map. cbn [fst snd]. apply Hrow.
  - pose proof (filter_pieces contract (chunks n cs) (List.filter (fun x => existsb_str (destination x) ds) l)) as H.
    rewrite chunks_concat in H by done. specialize (H Hcs). rewrite filter_filter in H.
    rewrite (List.filter_ext (fun x => existsb_str (contract x) cs && existsb_str (destination x) ds) (fun x => existsb_str (destination x) ds && existsb_str (contract x) cs))
      by (intros; apply andb_comm).
    rewrite <- H. apply Permutation_concat_map. intros c _. rewrite !filter_filter.
    rewrite (List.filter_ext (fun x => existsb_str (contract x) c && existsb_str (destination x) ds) (fun x => existsb_str (destination x) ds && existsb_str (contract x) c))
      by (intros; apply andb_comm). done.
Qed.

(** ** Concrete sources *)

(** A batch answered by its calls. *)
Definition batch_of (get : string -> bool -> result provider_error evmBlock) (calls : list (string * bool)) : result provider_error (gmap Z evmBlock) :=
  blocks ← traverse (fun c : string * bool => get (fst c) (snd c)) calls; Ok (map_seqZ 1 blocks).

Lemma traverse_fails {E A B} (f : A -> result E B) l e : traverse f l = Err e -> exists a e', In a l /\ f a = Err e'.
Proof.
  induction l as [|a l IH]; cbn [traverse]; [done|]. destruct (f a) as [b|e'] eqn:Ea; [|intros _; exists a, e'; split; [by left|done]]. cbn.
  destruct (traverse f l); [done|]. cbn. intros [= ->]. destruct (IH eq_refl) as (a' & e' & Ha & He). exists a', e'. split; [by right|done].
Qed.

Lemma batch_of_faithful node : nd_blockBatch node = batch_of (nd_getBlock node) -> batch_faithful node.
Proof.
  intros Hb calls. rewrite Hb. unfold batch_of. destruct (traverse _ calls) as [blocks|e] eqn:E; cbn [mbind result_bind].
  - intros i c Hc. apply traverse_ok in E. destruct (Forall2_lookup_l _ _ _ _ _ E Hc) as (b & Hbi & Hg). exists b. split; [|exact Hg].
    apply lookup_map_seqZ_Some. split; [lia|]. by replace (Z.to_nat (Z.of_nat i + 1 - 1)) with i by lia.
  - by apply traverse_fails in E.
Qed.

Definition wallet : string := "0x" +:+ Repeat "a1" 20.
Definition payer : string := "0x" +:+ Repeat "b2" 20.
Definition usdt : string := "0x" +:+ Repeat "c3" 20.
Definition sample_tx_hash : string := "0x" +:+ Repeat "0d" 32.
Definition sample_block_hash : string := "0x" +:+ Repeat "0e" 32.

Definition sample_source : EVMSource :=
  mkEVMSource "node-a" "eip155:56" "finalized" "bnb" 18 {[usdt := mkEVMToken "usdt-bsc" 18]} false {[wallet]} true 1 2 "".
Definition sample_tx : evmTransaction := mkEvmTransaction sample_tx_hash payer wallet "0x64" "0x0".
Definition sample_log : evmLog :=
  mkEvmLog usdt [erc20TransferTopic; evmAddressTopic payer; evmAddressTopic wallet] ("0x" +:+ Repeat "0" 62 +:+ "ff") sample_block_hash "0xa"
    sample_tx_hash "0x0" "0x3" false.
Definition sample_evm_receipt : evmReceipt := mkEvmReceipt sample_tx_hash sample_block_hash "0xa" "0x1" "0x0" [sample_log].
Definition sample_evm_block : evmBlock := mkEvmBlock "0xa" sample_block_hash ("0x" +:+ Repeat "0f" 32) "0x64000000" ["tx"].
Definition sample_header : evmBlock := mkEvmBlock "0xa" sample_block_hash ("0x" +:+ Repeat "0f" 32) "0x64000000" [sample_tx_hash].
Definition sample_unmarshal (raw : string) : option evmTransaction := if raw == "tx" then Some sample_tx else None.
Definition sample_evidence (tx : evmTransaction) (r : evmReceipt) : string := ex_Hash tx +:+ ec_BlockHash r.
Definition sample_sha (m : string) : string := Repeat "s" 32.

Definition sample_get_block (tag : string) (transactions : bool) : result provider_error evmBlock :=
  if (tag == hexQuantity 10) || (tag == "finalized") then Ok (if transactions then sample_evm_block else sample_header)
  else Err (OtherError "unknown block").
Definition node_with (receipt : evmReceipt) (logs : log_filter -> list evmLog) : EvmNode :=
  mkEvmNode (Ok "0x38") sample_get_block (batch_of sample_get_block) (fun _ => Ok [receipt]) (fun _ => Ok [])
    (fun _ => Ok sample_tx) (fun _ => Ok receipt) (fun _ => Err (OtherError "no traces")) (fun f => Ok (logs f)) 0.

Definition sample_run (s : EVMSource) : result provider_error RangeBatch :=
  EVM_ScanRange s (node_with sample_evm_receipt (fun _ => [sample_log])) sample_unmarshal sample_evidence eg_Data (fun _ _ => "") sample_sha 10 10.
Definition run_batch : RangeBatch := match sample_run sample_source with Ok b => b | Err _ => mkBatch 0 0 [] [] [] false false false end.

Lemma evm_range_contract_witness :
  map te_Amount (rb_Events run_batch) = [255; 100] /\ covers run_batch 10 10.
Proof.
  split; [vm_compute; reflexivity|].
  apply (evm_range_contract sample_source (node_with sample_evm_receipt (fun _ => [sample_log])) sample_unmarshal sample_evidence eg_Data (fun _ _ => "")
    sample_sha 10 10 run_batch).
  - split; [lia|unfold max_uint64; lia].
  - split; [lia|unfold max_uint64; lia].
  - cbn. lia.
  - cbn. unfold max_uint64. lia.
  - vm_compute. reflexivity.
  - vm_compute. repeat constructor.
Defined.

Lemma batch_size_irrelevant_witness : sample_run (with_batch_size sample_source 1) = Ok run_batch.
Proof.
  apply (batch_size_irrelevant sample_source (node_with sample_evm_receipt (fun _ => [sample_log])) sample_unmarshal sample_evidence eg_Data (fun _ _ => "")
    sample_sha 4 10 10 run_batch).
  - by apply batch_of_faithful.
  - lia.
  - lia.
  - unfold max_uint64. lia.
  - vm_compute. reflexivity.
Defined.

(** ** What the full path does not bind *)

Definition full_source : EVMSource :=
  mkEVMSource "node-a" "eip155:56" "finalized" "bnb" 18 ∅ false ∅ false 1 1 "".
Definition other_hash : string := "0x" +:+ Repeat "07" 32.
(** The receipt of another transaction of the block. *)
Definition other_receipt : evmReceipt := mkEvmReceipt other_hash sample_block_hash "0xa" "0x1" "0x1" [].

(** A look-up on the full path takes the receipt of another transaction as proof
    that this one succeeded; the watched path refuses it. *)
Example full_lookup_accepts_foreign_receipt :
  (map te_Amount <$> EVM_LookupTransaction full_source (node_with other_receipt (fun _ => [])) sample_evidence eg_Data (fun _ _ => "") sample_sha
     "eip155:56" sample_tx_hash) = Ok [100] /\
  EVM_LookupTransaction sample_source (node_with other_receipt (fun _ => [])) sample_evidence eg_Data (fun _ _ => "") sample_sha
     "eip155:56" sample_tx_hash = Err (malformed_msg "evm receipt" "receipt block binding mismatch").
Proof. split; vm_compute; reflexivity. Qed.

(** A block that lists one transaction twice, under two indices, passes the
    count of receipts, their distinctness and the order of the indices: its
    transfer is reported twice and the other receipt is never read. *)
Definition repeated_block : evmBlock := mkEvmBlock "0xa" sample_block_hash ("0x" +:+ Repeat "0f" 32) "0x64000000" ["tx"; "again"].
Definition repeated_unmarshal (raw : string) : option evmTransaction :=
  if raw == "tx" then Some sample_tx else Some (mkEvmTransaction sample_tx_hash payer wallet "0x64" "0x1").
Definition repeated_node : EvmNode :=
  mkEvmNode (Ok "0x38") (fun _ _ => Ok repeated_block) (batch_of (fun _ _ => Ok repeated_block)) (fun _ => Ok [sample_evm_receipt; other_receipt]) (fun _ => Ok [])
    (fun _ => Ok sample_tx) (fun _ => Ok sample_evm_receipt) (fun _ => Err (OtherError "no traces")) (fun f => Ok []) 0.

Example full_scan_repeats_transaction :
  (map te_Amount <$> (rb_Events <$> EVM_ScanRange full_source repeated_node repeated_unmarshal sample_evidence eg_Data (fun _ _ => "") sample_sha 10 10)) = Ok [100; 100].
Proof. vm_compute. reflexivity. Qed.
