(* ===== verification/EvmReplay.v ===== *)
(** * EvmReplay: looking a transaction up replays its scan

    [LookupTransaction] promises that the later canonical scan is an idempotent
    replay, not a second payment. With a node that answers from one chain, the
    events of a look-up are the events of the transaction in every scanned range
    that contains it: same identifiers, amounts and evidence, only the
    confirmations may differ. *)

From Stdlib Require Import ZArith Lia Ascii String Permutation Sorted.
From stdpp Require Import base gmap list strings.
From S2P Require Import Prelude Text Numerals Money Domain Scanner Chains ChainsFacts Providers Evm EvmFacts.

(** ** Confirmations do not enter anything else *)

Definition fact_with_conf (c : Z) (f : Fact) : Fact :=
  mkFact (ft_TransactionID f) (ft_EventIndex f) (ft_Kind f) (ft_AssetID f) (ft_From f) (ft_To f) (ft_Amount f) (ft_Decimals f)
    (ft_BlockHeight f) (ft_BlockHash f) (ft_BlockTime f) (ft_Status f) (ft_Evidence f) c.

Definition receipt_with_conf (c : Z) (v : EVMReceipt) : EVMReceipt :=
  mkEVMReceipt (er_TransactionID v) (er_BlockHeight v) (er_BlockHash v) (er_BlockTime v) (er_Success v) (er_Finalized v) c
    (er_Native v) (er_Logs v) (er_Traces v) (er_RawEvidence v).

Definition set_conf (c : Z) (e : TransferEvent) : TransferEvent := with_confirmations e c.

Lemma evm_facts_conf c v : evm_facts (receipt_with_conf c v) = map (fact_with_conf c) (evm_facts v).
Proof.
  unfold evm_facts. cbn [er_Native er_Logs er_Traces receipt_with_conf]. rewrite !map_app, !map_map. f_equal.
  destruct (er_Native v) as [n|]; [|done]. by destruct (_ != _).
Qed.

Lemma normalize_conf sha256 chainID parser n c f :
  normalize sha256 None chainID parser n (fact_with_conf c f) = set_conf c <$> normalize sha256 None chainID parser n f.
Proof.
  unfold normalize. cbv zeta. change (ft_Amount (trim_fact (fact_with_conf c f))) with (ft_Amount (trim_fact f)).
  destruct (Parse _) as [a|]; [|done]. destruct (IsZero a); [done|].
  change (fact_incomplete (TrimSpace chainID) (TrimSpace parser) (trim_fact (fact_with_conf c f)))
    with (fact_incomplete (TrimSpace chainID) (TrimSpace parser) (trim_fact f)). destruct (fact_incomplete _ _ _); [done|].
  change (fact_identity (TrimSpace chainID) (trim_fact (fact_with_conf c f))) with (fact_identity (TrimSpace chainID) (trim_fact f)).
  by destruct (canonicalEventID _ _).
Qed.

Lemma normalize_from_conf sha256 chainID parser n c facts :
  normalize_from sha256 None chainID parser n (map (fact_with_conf c) facts) =
  map (set_conf c) <$> normalize_from sha256 None chainID parser n facts.
Proof.
  revert n. induction facts as [|f facts IH]; intros n; [done|]. cbn [map normalize_from]. rewrite normalize_conf.
  destruct (normalize _ _ _ _ n f) as [e|]; [|done]. cbn. rewrite IH. by destruct (normalize_from _ _ _ _ (S n) facts).
Qed.

Lemma normalize_receipt_conf s sha256 c v :
  normalize_receipt s sha256 (receipt_with_conf c v) = map (set_conf c) <$> normalize_receipt s sha256 v.
Proof.
  unfold normalize_receipt, EVM_Normalize. cbn [mbind result_bind er_TransactionID er_Success receipt_with_conf].
  destruct (_ != _); [done|]. destruct (negb _); [done|]. unfold normalizeFacts. rewrite evm_facts_conf, normalize_from_conf.
  by destruct (normalize_from _ _ _ _ _ _).
Qed.

(** Events that differ in confirmations only. *)
Definition same_transfers (a b : list TransferEvent) : Prop := map without_confirmations a = map without_confirmations b.

Lemma set_conf_same c l : map without_confirmations (map (set_conf c) l) = map without_confirmations l.
Proof. rewrite map_map. by apply map_ext. Qed.

Lemma keep_evidence_conf c ev e : keep_evidence ev (set_conf c e) = set_conf c (keep_evidence ev e).
Proof. unfold keep_evidence. cbn. by destruct (_ && _). Qed.

(** The same block, read twice. *)
Definition same_header (b b' : Block) : Prop := bl_Height b = bl_Height b' /\ bl_Hash b = bl_Hash b' /\ bl_Time b = bl_Time b'.

Section replay.
Context (s : EVMSource) (native_evidence : evmTransaction -> evmReceipt -> string) (log_evidence : evmLog -> string) (sha256 : string -> string).

Lemma normalize_receipt_reconf v v' events :
  normalize_receipt s sha256 v = Ok events -> v' = receipt_with_conf (er_Confirmations v') v ->
  normalize_receipt s sha256 v' = Ok (map (set_conf (er_Confirmations v')) events).
Proof. intros H ->. rewrite normalize_receipt_conf, H. done. Qed.

Lemma native_receipt_replay tx receipt b b' safe safe' events :
  same_header b b' ->
  normalizeWatchedNativeReceipt s native_evidence sha256 tx receipt b safe = Ok events ->
  exists events', normalizeWatchedNativeReceipt s native_evidence sha256 tx receipt b' safe' = Ok events' /\ same_transfers events events'.
Proof.
  intros (H1 & H2 & H3). unfold normalizeWatchedNativeReceipt, receipt_bound. rewrite <- H1, <- H2, <- H3. intros H.
  bind_step H. cbn [mbind result_bind]. destruct (negb _); [done|]. bind_step H. cbn [mbind result_bind].
  destruct x0; cbn [negb] in *; [|injection H as <-; by exists []].
  bind_step H. cbn [mbind result_bind]. bind_step H. injection H as <-.
  rewrite (normalize_receipt_reconf _ _ _ E2 eq_refl). cbn [mbind result_bind er_Confirmations]. eexists. split; [reflexivity|].
  unfold same_transfers. rewrite !map_map. apply map_ext. intros e. rewrite keep_evidence_conf. by unfold keep_evidence; destruct (_ && _).
Qed.

(** Both readings of one log agree. *)
Lemma token_log_replay log blocks blocks' safe safe' r r' :
  (forall h b b', blocks !! h = Some b -> blocks' !! h = Some b' -> same_header b b') ->
  normalizeWatchedTokenLog s log_evidence sha256 log blocks safe = Ok r ->
  normalizeWatchedTokenLog s log_evidence sha256 log blocks' safe' = Ok r' -> same_transfers (fst r) (fst r') /\ snd r = snd r'.
Proof.
  intros Hsame. unfold normalizeWatchedTokenLog. destruct (_ || _); [done|]. destruct (canonicalEVMAddress _) as [contract|]; [|done].
  destruct (es_tokens s !! contract) as [token|]; [|done]. destruct (parseHexUint64 _) as [height|]; [|done].
  destruct (canonicalEVMHash _) as [txHash|]; [|done]. destruct (blocks !! height) as [b|] eqn:Eb; [|done].
  destruct (blocks' !! height) as [b'|] eqn:Eb'; [|by destruct (negb _)].
  destruct (Hsame height b b' Eb Eb') as (H1 & H2 & H3). rewrite <- H2, <- H3. destruct (negb _); [done|].
  destruct (transfer_place log) as [[[index from] to]|]; [|done]. cbn [mbind result_bind]. destruct (negb _); [done|].
  destruct (transfer_amount log) as [amount|]; [|done]. cbn [mbind result_bind]. intros H H'. bind_step H. injection H as <-.
  rewrite (normalize_receipt_reconf _ _ _ E eq_refl) in H'. cbn [mbind result_bind er_Confirmations] in H'. injection H' as <-.
  cbn [fst snd]. split; [|done]. unfold same_transfers. by rewrite set_conf_same.
Qed.

(** *** Where the events of a scan come from *)

Definition of_tx (txHash : string) (e : TransferEvent) : bool := ei_TransactionID (te_Identity e) == txHash.

Lemma native_receipt_tx tx receipt b safe events :
  normalizeWatchedNativeReceipt s native_evidence sha256 tx receipt b safe = Ok events -> canonical_word 66 (bl_Hash b) ->
  Forall (fun e => Some (ei_TransactionID (te_Identity e)) = canonicalEVMHash (ex_Hash tx)) events.
Proof.
  unfold normalizeWatchedNativeReceipt. intros H Hb. bind_step H. apply of_option_ok in E as Ex. destruct (negb _); [done|]. bind_step H.
  destruct x0; cbn [negb] in H; [|injection H as <-; constructor]. bind_step H. bind_step H. injection H as <-. apply Forall_fmap.
  pose proof (normalize_receipt_bound s sha256 _ _ safe b x E2 ltac:(by split_and!) Hb (hash_canonical _ _ Ex)) as Hall.
  eapply Forall_impl; [exact Hall|]. cbn. intros e [_ <-]. rewrite Ex. unfold keep_evidence. by destruct (_ && _).
Qed.

Lemma token_log_tx log blocks safe events id :
  normalizeWatchedTokenLog s log_evidence sha256 log blocks safe = Ok (events, id) -> (forall h b, blocks !! h = Some b -> good_block h b) ->
  Forall (fun e => Some (ei_TransactionID (te_Identity e)) = canonicalEVMHash (eg_TransactionHash log)) events.
Proof.
  unfold normalizeWatchedTokenLog. intros H Hblocks. destruct (_ || _); [done|]. destruct (canonicalEVMAddress _) as [contract|]; [|done].
  destruct (es_tokens s !! contract) as [token|]; [|done]. destruct (parseHexUint64 _) as [height|]; [|done].
  destruct (canonicalEVMHash _) as [txHash|] eqn:Etx; [|done]. destruct (blocks !! height) as [b|] eqn:Eb; [|done].
  destruct (Hblocks _ _ Eb) as (Hh & Hcan & _). destruct (negb _); [done|].
  destruct (transfer_place log) as [[[index from] to]|]; [|done]. cbn [mbind result_bind] in H. destruct (negb _); [done|].
  bind_step H. bind_step H. injection H as <- <-. subst height.
  pose proof (normalize_receipt_bound s sha256 _ _ safe b txHash E0 ltac:(by split_and!) Hcan (hash_canonical _ _ Etx)) as Hall.
  eapply Forall_impl; [exact Hall|]. cbn. by intros e [_ <-].
Qed.

(** The token events of a range, one list per log. *)
Lemma token_events_concat blocks safe seen logs events :
  token_events s log_evidence sha256 blocks safe seen logs = Ok events ->
  exists parts, Forall2 (fun log part => exists id, normalizeWatchedTokenLog s log_evidence sha256 log blocks safe = Ok (part, id)) logs parts /\
    events = concat parts.
Proof.
  revert seen events. induction logs as [|log logs IH]; intros seen events H; cbn [token_events] in H.
  { injection H as <-. exists []. split; [constructor|done]. }
  bind_step H. destruct x as [part id]. destruct (existsb _ seen); [done|]. bind_step H. injection H as <-.
  destruct (IH _ _ E0) as (parts & Hp & ->). exists (part :: parts). split; [|done]. constructor; [by exists id|done].
Qed.

(** The logs a look-up reads. *)
Definition asked_for (log : evmLog) : bool :=
  match canonicalEVMAddress (eg_Address log) with
  | Some contract =>
      match supported_transfer s log contract, addressFromTopic (topic_at log 2) with
      | Some _, Some to => bool_decide (to ∈ es_watched s)
      | _, _ => false
      end
  | None => false
  end.

Lemma lookup_tokens_concat txHash blocks safe seen logs events :
  lookup_tokens s log_evidence sha256 txHash blocks safe seen logs = Ok events ->
  exists parts, Forall2 (fun log part => exists id, normalizeWatchedTokenLog s log_evidence sha256 log blocks safe = Ok (part, id))
    (List.filter asked_for logs) parts /\ events = concat parts.
Proof.
  revert seen events. induction logs as [|log logs IH]; intros seen events H; cbn [lookup_tokens] in H.
  { injection H as <-. exists []. split; [constructor|done]. }
  cbn [List.filter]. unfold asked_for at 1. destruct (canonicalEVMAddress _) as [contract|]; [|done].
  destruct (supported_transfer s log contract) as [token|]; [|by eapply IH]. destruct (addressFromTopic _) as [to|]; [|done].
  cbn [of_option mbind result_bind] in H. destruct (bool_decide (to ∈ es_watched s)); cbn [negb] in H; [|by eapply IH].
  destruct (negb _); [done|]. bind_step H. destruct x as [part id]. destruct (existsb _ seen); [done|]. bind_step H. injection H as <-.
  destruct (IH _ _ E0) as (parts & Hp & ->). exists (part :: parts). split; [|done]. constructor; [by exists id|done].
Qed.
End replay.

(** ** A chain and a node that answers from it *)

Record evm_chain := mkEvmChain {
  ch_block : Z -> evmBlock; ch_hashes : Z -> list string; ch_txs : Z -> list evmTransaction; ch_receipt : string -> evmReceipt }.

Definition header_of (ch : evm_chain) (h : Z) : evmBlock :=
  mkEvmBlock (eb_Number (ch_block ch h)) (eb_Hash (ch_block ch h)) (eb_ParentHash (ch_block ch h)) (eb_Timestamp (ch_block ch h)) (ch_hashes ch h).

Definition tx_hash (tx : evmTransaction) : string := default "" (canonicalEVMHash (ex_Hash tx)).

(** The transactions of a range with their heights, and the logs of their receipts. *)
Definition range_txs (ch : evm_chain) (hs : list Z) : list (Z * evmTransaction) :=
  concat (map (fun h => map (fun tx => (h, tx)) (ch_txs ch h)) hs).
Definition chain_logs (ch : evm_chain) (hs : list Z) : list evmLog :=
  concat (map (fun p : Z * evmTransaction => ec_Logs (ch_receipt ch (tx_hash (snd p)))) (range_txs ch hs)).

(** What [eth_getLogs] selects: by contract, first topic and third topic. *)
Definition log_contract (log : evmLog) : string := default "" (canonicalEVMAddress (eg_Address log)).
Definition log_destination (log : evmLog) : string :=
  match addressFromTopic (topic_at log 2) with Some a => evmAddressTopic a | None => "" end.
Definition log_matches (f : log_filter) (log : evmLog) : bool :=
  fold_eq (topic_at log 0) erc20TransferTopic && (existsb_str (log_contract log) (lf_Contracts f) && existsb_str (log_destination log) (lf_Destinations f)).

Record honest (s : EVMSource) (unmarshal_tx : string -> option evmTransaction) (ch : evm_chain) (from to : Z) (node : EvmNode) : Prop := mk_honest {
  hn_full h : from <= h <= to -> nd_getBlock node (hexQuantity h) true = Ok (ch_block ch h);
  hn_header h : from <= h <= to -> nd_getBlock node (hexQuantity h) false = Ok (header_of ch h);
  hn_batch : batch_faithful node;
  hn_txs h : from <= h <= to -> map unmarshal_tx (eb_Transactions (ch_block ch h)) = map Some (ch_txs ch h);
  hn_hash h tx : from <= h <= to -> In tx (ch_txs ch h) -> canonicalEVMHash (ex_Hash tx) = Some (tx_hash tx);
  hn_distinct : NoDup (map (fun p : Z * evmTransaction => tx_hash (snd p)) (range_txs ch (heights from to)));
  hn_get h tx : from <= h <= to -> In tx (ch_txs ch h) ->
    nd_getTransaction node (tx_hash tx) = Ok tx /\ nd_getReceipt node (tx_hash tx) = Ok (ch_receipt ch (tx_hash tx));
  hn_receipt h tx : from <= h <= to -> In tx (ch_txs ch h) ->
    parseHexUint64 (ec_BlockNumber (ch_receipt ch (tx_hash tx))) = Some h /\
    (ec_Status (ch_receipt ch (tx_hash tx)) = "0x0" -> ec_Logs (ch_receipt ch (tx_hash tx)) = []) /\
    forall log, In log (ec_Logs (ch_receipt ch (tx_hash tx))) -> canonicalEVMHash (eg_TransactionHash log) = Some (tx_hash tx);
  hn_logs f : In f (log_filters s from to) ->
    exists page, nd_getLogs node f = Ok page /\ Permutation page (List.filter (log_matches f) (chain_logs ch (heights from to))) }.

(** ** Lists by key *)

Lemma filter_none {A} (p : A -> bool) l : (forall x, In x l -> p x = false) -> List.filter p l = [].
Proof. intros H. induction l as [|x l IH]; cbn; [done|]. rewrite (H x) by (by left). apply IH. intros y Hy. apply H. by right. Qed.

Lemma filter_all {A} (p : A -> bool) l : (forall x, In x l -> p x = true) -> List.filter p l = l.
Proof. intros H. induction l as [|x l IH]; cbn; [done|]. rewrite (H x) by (by left). f_equal. apply IH. intros y Hy. apply H. by right. Qed.

(** In a list with distinct keys, what carries the key of one item comes from it. *)
Lemma filter_concat_key {A B} (key : A -> string) (F : A -> list B) (p : string -> B -> bool) items a :
  NoDup (map key items) -> In a items ->
  (forall x b, In x items -> In b (F x) -> forall k, p k b = true <-> k = key x) ->
  List.filter (p (key a)) (concat (map F items)) = F a.
Proof.
  intros Hnd Ha Hp. induction items as [|x items IH]; [by destruct Ha|]. cbn [map concat]. rewrite List.filter_app.
  apply NoDup_cons in Hnd as [Hx Hnd]. destruct Ha as [->|Ha].
  - rewrite (filter_all _ (F a)), (filter_none _ (concat (map F items))); [apply app_nil_r| |].
    + intros b (fb & (y & <- & Hy)%in_map_iff & Hb)%in_concat. destruct (p (key a) b) eqn:E; [|done]. exfalso.
      apply (Hp y b ltac:(by right) Hb) in E. apply Hx. rewrite E. apply list_elem_of_In, in_map_iff. eauto.
    + intros b Hb. by apply (Hp a b ltac:(by left) Hb).
  - rewrite (filter_none _ (F x)); [apply IH; [done|done|]|].
    + intros y b Hy Hb. apply Hp; [by right|done].
    + intros b Hb. destruct (p (key a) b) eqn:E; [|done]. exfalso. apply (Hp x b ltac:(by left) Hb) in E.
      apply Hx. rewrite <- E. apply list_elem_of_In, in_map_iff. eauto.
Qed.

Lemma Permutation_filter_b {A} (p : A -> bool) l k : Permutation l k -> Permutation (List.filter p l) (List.filter p k).
Proof.
  induction 1 as [|x l k _ IH|x y l|l k m _ IH1 _ IH2]; cbn; [constructor| | |by rewrite IH1].
  - destruct (p x); [by constructor|done].
  - destruct (p x), (p y); try done. constructor.
Qed.

Lemma Permutation_flat {A B} (F : A -> list B) l k : Permutation l k -> Permutation (concat (map F l)) (concat (map F k)).
Proof. intros H. rewrite <- !flat_map_concat_map. by apply Permutation_flat_map. Qed.

Lemma map_concat_map {A B C} (g : B -> C) (F : A -> list B) l : map g (concat (map F l)) = concat (map (fun a => map g (F a)) l).
Proof. rewrite concat_map, map_map. done. Qed.

Lemma traverse_decoded {E X Y Z'} (f : X -> result E Z') (u : X -> option Y) (F : Y -> Z') raws txs ess :
  traverse f raws = Ok ess -> map u raws = map Some txs ->
  (forall raw tx es, In tx txs -> u raw = Some tx -> f raw = Ok es -> es = F tx) -> ess = map F txs.
Proof.
  intros H%traverse_ok. revert txs. induction H as [|raw es raws ess He _ IH]; intros [|tx txs] Hu HF; cbn in Hu; try done.
  pose proof (f_equal (hd None) Hu) as H1. pose proof (f_equal (@tl _) Hu) as H2. cbn in H1, H2. cbn. f_equal.
  - apply (HF raw); [by left|done|done].
  - apply IH; [done|]. intros r t e Ht. apply HF. by right.
Qed.

Lemma Forall2_concat_perm {A B} (R : A -> list B -> Prop) (G : A -> list B) l pages :
  Forall2 R l pages -> (forall f p, In f l -> R f p -> Permutation p (G f)) -> Permutation (concat pages) (concat (map G l)).
Proof.
  intros H. induction H as [|f p l pages Hfp _ IH]; intros HG; cbn; [constructor|]. apply Permutation_app; [apply HG; [by left|done]|].
  apply IH. intros g q Hg. apply HG. by right.
Qed.

Lemma filter_concat_by {A B} (F : A -> list B) (q : A -> bool) (p : B -> bool) l :
  (forall x b, In x l -> In b (F x) -> p b = q x) -> List.filter p (concat (map F l)) = concat (map F (List.filter q l)).
Proof.
  intros H. induction l as [|x l IH]; [done|]. cbn [map concat List.filter]. rewrite List.filter_app, IH by (intros y b Hy; apply H; by right).
  destruct (q x) eqn:E; cbn [map concat].
  - rewrite filter_all; [done|]. intros b Hb. rewrite <- E. apply H; [by left|done].
  - rewrite filter_none; [done|]. intros b Hb. rewrite <- E. apply H; [by left|done].
Qed.

Lemma In_Forall {A} (P : A -> Prop) l x : Forall P l -> In x l -> P x.
Proof. rewrite Forall_forall. intros H Hx. by apply H, list_elem_of_In. Qed.

(** ** Both readings *)
Section both.
Context (s : EVMSource) (unmarshal_tx : string -> option evmTransaction) (ch : evm_chain) (from to : Z) (node : EvmNode)
  (native_evidence : evmTransaction -> evmReceipt -> string) (log_evidence : evmLog -> string)
  (receipt_evidence : evmReceipt -> option evmTraceCall -> string) (sha256 : string -> string).
Hypothesis Hhonest : honest s unmarshal_tx ch from to node.
Hypothesis Hwatched : forall a, a ∈ es_watched s -> canonicalEVMAddress a = Some a.

Abbreviation native_rcpt := (normalizeWatchedNativeReceipt s native_evidence sha256) (only parsing).
Abbreviation token_log := (normalizeWatchedTokenLog s log_evidence sha256) (only parsing).

(** What a scan reads of one transaction; the block is the canonical one. *)
Definition native_of (b : Block) (safe : Z) (tx : evmTransaction) : list TransferEvent :=
  if es_nativeAssetID s == "" then []
  else match canonicalEVMAddress (ex_To tx) with
       | Some toAddress =>
           if bool_decide (toAddress ∈ es_watched s) && negb (bool_decide (parseHexAmount (ex_Value tx) = Some "0"))
           then match native_rcpt tx (ch_receipt ch (tx_hash tx)) b safe with Ok es => es | Err _ => [] end
           else []
       | None => []
       end.

Definition tokens_of (blocks : gmap Z Block) (safe : Z) (log : evmLog) : list TransferEvent :=
  match token_log log blocks safe with Ok (es, _) => es | Err _ => [] end.

Definition canon (h : Z) : Block := match checked_block "evm block" (ch_block ch h) h with Ok b => b | Err _ => mkBlock 0 "" "" 0 end.

Lemma header_checked label h : checked_block label (header_of ch h) h = checked_block label (ch_block ch h) h.
Proof. done. Qed.

Lemma watched_native_of b safe raw tx h events : from <= h <= to -> In tx (ch_txs ch h) -> unmarshal_tx raw = Some tx ->
  (es_nativeAssetID s == "") = false ->
  watched_native s node unmarshal_tx native_evidence sha256 b safe raw = Ok events -> events = native_of b safe tx.
Proof.
  intros Hh Htx Hraw Hn. unfold watched_native, decode_transaction, native_of. rewrite Hraw, Hn. cbn [of_option mbind result_bind].
  destruct (canonicalEVMAddress (ex_To tx)) as [toAddress|]; [|destruct (ex_To tx == ""); [by intros [= <-]|done]].
  destruct (bool_decide (toAddress ∈ es_watched s)); cbn [negb andb]; [|by intros [= <-]].
  destruct (parseHexAmount (ex_Value tx)) as [amount|]; cbn [of_option mbind result_bind]; [|done].
  destruct (String.eqb_spec amount "0") as [->|Hne]; [by intros [= <-]|]. rewrite bool_decide_false by congruence. cbn [negb].
  unfold normalizeWatchedNative. rewrite Hn. rewrite (hn_hash _ _ _ _ _ _ Hhonest h tx Hh Htx). cbn [of_option mbind result_bind].
  rewrite (proj2 (hn_get _ _ _ _ _ _ Hhonest h tx Hh Htx)). cbn [mbind result_bind]. by intros ->.
Qed.

Lemma scan_one_of safe h b events : from <= h <= to ->
  scan_one s node unmarshal_tx native_evidence sha256 safe h = Ok (b, events) ->
  b = canon h /\ good_block h b /\ checked_block "evm block" (ch_block ch h) h = Ok b /\ events = concat (map (native_of b safe) (ch_txs ch h)).
Proof.
  intros Hh H. unfold scan_one, block_at, taggedBlock in H.
  assert (exists block, nd_getBlock node (hexQuantity h) (es_nativeAssetID s != "") = Ok block /\
    checked_block "evm block" block h = checked_block "evm block" (ch_block ch h) h /\
    ((es_nativeAssetID s == "") = false -> block = ch_block ch h)) as (block & Hb & Hc & Hfull).
  { destruct (es_nativeAssetID s == ""); cbn [negb].
    - exists (header_of ch h). split; [by apply (hn_header _ _ _ _ _ _ Hhonest)|done].
    - exists (ch_block ch h). split; [by apply (hn_full _ _ _ _ _ _ Hhonest)|done]. }
  rewrite Hb in H. cbn [mbind result_bind] in H. unfold scan_block_native in H. rewrite Hc in H. bind_step H. bind_step H. injection H as <- <-.
  split; [unfold canon; by rewrite E|]. split; [by eapply checked_block_good|]. split; [done|].
  destruct (es_nativeAssetID s == "") eqn:En.
  - injection E0 as <-. symmetry. cbn. rewrite (map_ext _ (fun _ => [])); [|intros tx; unfold native_of; by rewrite En].
    clear. induction (ch_txs ch h); [done|exact IHl].
  - rewrite (Hfull eq_refl) in E0. f_equal. eapply traverse_decoded; [exact E0|by apply (hn_txs _ _ _ _ _ _ Hhonest)|].
    intros raw tx es Htx Hraw He. by eapply (watched_native_of x safe raw tx h).
Qed.

(** The native events of a scan, by transaction. *)
Lemma scan_natives safe scanned :
  traverse (scan_one s node unmarshal_tx native_evidence sha256 safe) (heights from to) = Ok scanned ->
  map fst scanned = map canon (heights from to) /\ Forall (fun h => good_block h (canon h)) (heights from to) /\
  concat (map snd scanned) = concat (map (fun p : Z * evmTransaction => native_of (canon (fst p)) safe (snd p)) (range_txs ch (heights from to))).
Proof.
  intros H%traverse_ok. assert (Hin : forall h, In h (heights from to) -> from <= h <= to) by (intros h; apply heights_In).
  revert H Hin. generalize (heights from to) as hs. intros hs H. induction H as [|h [b es] hs scanned Hb _ IH]; intros Hin; [split_and!; done|].
  destruct IH as (IH1 & IH2 & IH3); [intros h' Hh'; apply Hin; by right|].
  destruct (scan_one_of safe h b es) as (-> & Hg & _ & ->); [apply Hin; by left|exact Hb|].
  split_and!; [cbn; by rewrite IH1|by constructor|]. unfold range_txs in *. cbn [map concat snd]. rewrite IH3, map_app, concat_app, map_map. done.
Qed.

(** *** The logs of a scan *)

Lemma contracts_NoDup : NoDup (sorted_contracts s).
Proof. unfold sorted_contracts. rewrite <- sort_by_perm. apply NoDup_fst_map_to_list. Qed.

Lemma destinations_NoDup : NoDup (sorted_destinations s).
Proof.
  unfold sorted_destinations. rewrite <- sort_by_perm. apply (NoDup_fmap_2_strong evmAddressTopic); [|apply NoDup_elements].
  intros a b Ha Hb Heq. apply elem_of_elements in Ha, Hb. apply (f_equal addressFromTopic) in Heq.
  rewrite !topic_roundtrip in Heq by (by apply Hwatched). congruence.
Qed.

(** The contract and the destination are ones the source asks for. *)
Definition selected (log : evmLog) : bool :=
  fold_eq (topic_at log 0) erc20TransferTopic && (existsb_str (log_contract log) (sorted_contracts s) && existsb_str (log_destination log) (sorted_destinations s)).

Lemma pages_selected logs : watchedTokenLogs s node from to = Ok logs ->
  Permutation logs (List.filter selected (chain_logs ch (heights from to))).
Proof.
  unfold watchedTokenLogs. intros H.
  assert (Hgrid : Permutation (concat (map (fun f => List.filter (log_matches f) (chain_logs ch (heights from to))) (log_filters s from to)))
    (List.filter selected (chain_logs ch (heights from to)))).
  { pose proof (filter_grid log_contract log_destination 50 100 (sorted_contracts s) (sorted_destinations s)
      (List.filter (fun log => fold_eq (topic_at log 0) erc20TransferTopic) (chain_logs ch (heights from to)))
      ltac:(lia) ltac:(lia) contracts_NoDup destinations_NoDup) as Hg.
    rewrite filter_filter in Hg. rewrite <- Hg. unfold log_filters. clear Hg H.
    generalize (chunks 50 (sorted_contracts s)) as cs. intros cs. induction cs as [|c cs IH]; [done|]. cbn [map concat].
    rewrite !map_app, !concat_app. apply Permutation_app; [|exact IH]. rewrite !map_map. apply Permutation_concat_map. intros d _.
    cbn [fst snd]. rewrite filter_filter. done. }
  destruct (Nat.eqb_spec (size (es_tokens s)) 0) as [H0|H0].
  - injection H as <-. apply Permutation_sym. apply map_size_empty_iff in H0. etrans; [symmetry; exact Hgrid|].
    unfold log_filters, sorted_contracts. rewrite H0, map_to_list_empty. cbn. done.
  - bind_step H. injection H as <-. etrans; [|exact Hgrid]. apply traverse_ok in E.
    eapply Forall2_concat_perm; [exact E|]. cbn. intros f p Hf Hp. destruct (hn_logs _ _ _ _ _ _ Hhonest f Hf) as (page & Hpage & Hperm). congruence.
Qed.

(** A selected log that the scan accepts is one a look-up asks for, and a log a
    look-up asks for is selected. *)
Lemma accepted_asked log blocks safe r : token_log log blocks safe = Ok r -> asked_for s log = true.
Proof.
  unfold normalizeWatchedTokenLog, asked_for, supported_transfer. intros H.
  destruct (eg_Removed log || negb (Nat.eqb (length (eg_Topics log)) 3) || negb (fold_eq (topic_at log 0) erc20TransferTopic)) eqn:Eg; [done|].
  apply orb_false_iff in Eg as [[_ Hlen]%orb_false_iff Hfold]. apply negb_false_iff in Hlen, Hfold.
  destruct (canonicalEVMAddress _) as [contract|]; [|done]. destruct (es_tokens s !! contract) as [token|]; [|done].
  destruct (eg_Topics log) as [|t0 [|t1 [|t2 [|]]]] eqn:Et; try done. unfold topic_at in Hfold. rewrite Et in Hfold. cbn [nth] in Hfold. rewrite Hfold.
  destruct (parseHexUint64 _) as [height|]; [|done]. destruct (canonicalEVMHash _) as [txHash|]; [|done]. destruct (blocks !! height) as [b|]; [|done].
  destruct (negb _); [done|]. bind_step H. destruct x as [[index f] t]. unfold transfer_place in E. bind_step E. bind_step E. bind_step E.
  injection E as -> -> ->. apply of_option_ok in E2. rewrite E2. by destruct (bool_decide _).
Qed.

Lemma asked_selected log : asked_for s log = true -> selected log = true.
Proof.
  unfold asked_for, selected, supported_transfer, log_contract, log_destination. destruct (canonicalEVMAddress _) as [contract|]; [|done].
  destruct (es_tokens s !! contract) as [token|] eqn:Et; [|done]. destruct (eg_Topics log) as [|t0 [|t1 [|t2 [|]]]] eqn:Eg; try done.
  destruct (fold_eq t0 erc20TransferTopic) eqn:Ef; [|done]. destruct (addressFromTopic _) as [a|]; [|done]. intros Hw%bool_decide_eq_true.
  assert (topic_at log 0 = t0) as -> by (unfold topic_at; by rewrite Eg). rewrite Ef. cbn [andb default from_option id]. apply andb_true_iff. split.
  - apply existsb_str_In. unfold sorted_contracts. apply sort_by_In, in_map_iff. exists (contract, token). split; [done|].
    apply list_elem_of_In. by apply elem_of_map_to_list.
  - apply existsb_str_In. unfold sorted_destinations. apply sort_by_In, in_map_iff. exists a. split; [done|].
    apply list_elem_of_In. by apply elem_of_elements.
Qed.

Definition hash_is (k : string) (log : evmLog) : bool := bool_decide (canonicalEVMHash (eg_TransactionHash log) = Some k).

Lemma range_txs_In hs h tx : In (h, tx) (range_txs ch hs) <-> In h hs /\ In tx (ch_txs ch h).
Proof.
  unfold range_txs. rewrite in_concat. split.
  - intros (l & (h' & <- & Hh)%in_map_iff & (t & [= <- <-] & Ht)%in_map_iff). done.
  - intros [Hh Ht]. exists (map (fun t => (h, t)) (ch_txs ch h)). split; apply in_map_iff; eauto.
Qed.

(** The logs of one transaction among those of the range. *)
Lemma logs_of_tx h tx : from <= h <= to -> In tx (ch_txs ch h) ->
  List.filter (hash_is (tx_hash tx)) (chain_logs ch (heights from to)) = ec_Logs (ch_receipt ch (tx_hash tx)).
Proof.
  intros Hh Htx. unfold chain_logs.
  apply (filter_concat_key (fun p : Z * evmTransaction => tx_hash (snd p)) (fun p => ec_Logs (ch_receipt ch (tx_hash (snd p)))) hash_is
    (range_txs ch (heights from to)) (h, tx)).
  - apply (hn_distinct _ _ _ _ _ _ Hhonest).
  - apply range_txs_In. by rewrite heights_In.
  - intros [h' tx'] log [Hh'%heights_In Htx']%range_txs_In Hlog k. cbn [snd] in *.
    destruct (hn_receipt _ _ _ _ _ _ Hhonest h' tx' Hh' Htx') as (_ & _ & Hl). unfold hash_is. rewrite bool_decide_eq_true, (Hl log Hlog).
    split; congruence.
Qed.

(** The native events of one transaction among those of the range. *)
Lemma natives_of_tx safe h tx : from <= h <= to -> In tx (ch_txs ch h) -> Forall (fun h => good_block h (canon h)) (heights from to) ->
  List.filter (of_tx (tx_hash tx))
    (concat (map (fun p : Z * evmTransaction => native_of (canon (fst p)) safe (snd p)) (range_txs ch (heights from to)))) = native_of (canon h) safe tx.
Proof.
  intros Hh Htx Hg.
  apply (filter_concat_key (fun p : Z * evmTransaction => tx_hash (snd p)) (fun p => native_of (canon (fst p)) safe (snd p)) of_tx
    (range_txs ch (heights from to)) (h, tx)).
  - apply (hn_distinct _ _ _ _ _ _ Hhonest).
  - apply range_txs_In. by rewrite heights_In.
  - intros [h' tx'] e [Hh' Htx']%range_txs_In He k. cbn [fst snd] in *. pose proof (In_Forall _ _ _ Hg Hh') as (_ & Hcan & _).
    apply heights_In in Hh'. unfold native_of in He. destruct (_ == _); [done|]. destruct (canonicalEVMAddress _); [|done]. destruct (_ && _); [|done].
    destruct (normalizeWatchedNativeReceipt _ _ _ _ _ _ _) as [es|] eqn:En; [|done].
    pose proof (In_Forall _ _ _ (native_receipt_tx s native_evidence sha256 _ _ _ _ _ En Hcan) He) as Hid. cbn in Hid.
    rewrite (hn_hash _ _ _ _ _ _ Hhonest h' tx' Hh' Htx') in Hid. injection Hid as Hid. unfold of_tx. rewrite Hid, String.eqb_eq. split; congruence.
Qed.

(** What a look-up returns. *)
Lemma lookup_inv chainID txid h tx events :
  es_addressFiltered s = true -> es_includeInternal s = false -> from <= h <= to -> In tx (ch_txs ch h) -> canonicalEVMHash txid = Some (tx_hash tx) ->
  EVM_LookupTransaction s node native_evidence log_evidence receipt_evidence sha256 chainID txid = Ok events ->
  exists b' safe', same_header (canon h) b' /\ good_block h b' /\
    normalizeWatchedLookup s native_evidence log_evidence sha256 tx (ch_receipt ch (tx_hash tx)) b' safe' = Ok events.
Proof.
  intros Hf Hi Hh Htx Hid H. unfold EVM_LookupTransaction in H. destruct (_ != _); [done|]. rewrite Hid in H. cbn [of_option mbind result_bind] in H.
  destruct (hn_get _ _ _ _ _ _ Hhonest h tx Hh Htx) as [Hgt Hgr]. rewrite Hgt in H. cbn [mbind result_bind] in H.
  destruct (negb _); [done|]. rewrite Hgr in H. cbn [mbind result_bind] in H. destruct (hn_receipt _ _ _ _ _ _ Hhonest h tx Hh Htx) as (Hn & _).
  rewrite Hn in H. cbn [of_option mbind result_bind] in H. bind_step H. unfold block_at, taggedBlock in H.
  rewrite (hn_header _ _ _ _ _ _ Hhonest h Hh) in H. cbn [mbind result_bind] in H. bind_step H. destruct x0 as [number t]. rewrite Hf, Hi in H. cbn [andb negb] in H.
  eexists _, x. split; [|split; [|exact H]].
  - apply lift_err_ok in E0. unfold canon, checked_block. change (validateEVMBlock (ch_block ch h) h) with (validateEVMBlock (header_of ch h) h).
    rewrite E0. cbn. apply validateEVMBlock_ok in E0 as (-> & _ & _). done.
  - apply lift_err_ok, validateEVMBlock_ok in E0 as (-> & Ht & hash & Hhash). cbn. cbn in Hhash. rewrite Hhash. split_and!; [done|by eapply hash_canonical|done].
Qed.

(** The native part of both readings. *)
Lemma lookup_native_same h tx b' safe safe' native :
  from <= h <= to -> In tx (ch_txs ch h) -> same_header (canon h) b' ->
  lookup_native s native_evidence sha256 tx (ch_receipt ch (tx_hash tx)) b' safe' = Ok native -> same_transfers (native_of (canon h) safe tx) native.
Proof.
  intros Hh Htx Hsame. unfold lookup_native, native_of. destruct (es_nativeAssetID s == ""); cbn [negb andb]; [by intros [= <-]|].
  destruct (String.eqb_spec (ex_To tx) "") as [He|He]; cbn [negb].
  { rewrite He. intros [= <-]. done. }
  destruct (canonicalEVMAddress (ex_To tx)) as [toAddress|]; cbn [of_option mbind result_bind]; [|done].
  destruct (bool_decide (toAddress ∈ es_watched s)); cbn [andb]; [|by intros [= <-]].
  destruct (parseHexAmount (ex_Value tx)) as [amount|]; cbn [of_option mbind result_bind]; [|done].
  destruct (String.eqb_spec amount "0") as [->|Hne]; cbn [negb]; [by intros [= <-]|]. rewrite bool_decide_false by congruence. cbn [negb]. intros H.
  destruct (native_receipt_replay s native_evidence sha256 tx (ch_receipt ch (tx_hash tx)) b' (canon h) safe' safe native) as (es & -> & Hes); [|exact H|].
  - destruct Hsame as (? & ? & ?). by split_and!.
  - by symmetry.
Qed.

(** Without success there is nothing native. *)
Lemma native_failed b safe tx : ec_Status (ch_receipt ch (tx_hash tx)) = "0x0" -> native_of b safe tx = [].
Proof.
  intros Hs. unfold native_of. destruct (es_nativeAssetID s == ""); [done|]. destruct (canonicalEVMAddress (ex_To tx)) as [t|]; [|done].
  destruct (bool_decide (t ∈ es_watched s) && _); [|done].
  unfold normalizeWatchedNativeReceipt, receipt_success. rewrite Hs. destruct (of_option _ (canonicalEVMHash (ex_Hash tx))); [|done]. cbn [mbind result_bind].
  by destruct (negb _).
Qed.

(** The token part, log by log. *)
Lemma tokens_same blocks safe blocks' safe' logs parts' :
  (forall h b b', blocks !! h = Some b -> blocks' !! h = Some b' -> same_header b b') ->
  (forall log, In log logs -> exists r, token_log log blocks safe = Ok r) ->
  Forall2 (fun log part => exists id, token_log log blocks' safe' = Ok (part, id)) logs parts' ->
  same_transfers (concat (map (tokens_of blocks safe) logs)) (concat parts').
Proof.
  intros Hsame Hok H. unfold same_transfers. induction H as [|log part logs parts' [id Hp] _ IH]; [done|]. cbn [map concat]. rewrite !map_app. f_equal.
  - destruct (Hok log ltac:(by left)) as [r Hr]. destruct (token_log_replay s log_evidence sha256 log blocks blocks' safe safe' r (part, id) Hsame Hr Hp) as [Ht _].
    unfold tokens_of. rewrite Hr. by destruct r.
  - apply IH. intros l Hl. apply Hok. by right.
Qed.

(** The token events of a scan that carry the transaction. *)
Lemma scan_tokens_of_tx safe blocks logs tokens h tx :
  from <= h <= to -> In tx (ch_txs ch h) -> (forall h b, blocks !! h = Some b -> good_block h b) ->
  watchedTokenLogs s node from to = Ok logs -> token_events s log_evidence sha256 blocks safe [] logs = Ok tokens ->
  let mine := List.filter (asked_for s) (ec_Logs (ch_receipt ch (tx_hash tx))) in
  Permutation (List.filter (of_tx (tx_hash tx)) tokens) (concat (map (tokens_of blocks safe) mine)) /\
  (forall log, In log mine -> exists r, token_log log blocks safe = Ok r).
Proof.
  intros Hh Htx Hgood Hlogs Htok. cbv zeta. destruct (token_events_concat _ _ _ _ _ _ _ _ Htok) as (parts & Hparts & ->).
  assert (Hacc : forall log, In log logs -> exists r, token_log log blocks safe = Ok r).
  { intros log Hl%list_elem_of_In. destruct (Forall2_elem_l _ _ _ _ Hparts Hl) as (part & _ & id & Hp). eauto. }
  assert (parts = map (tokens_of blocks safe) logs) as ->.
  { clear -Hparts. induction Hparts as [|log part logs parts [id Hp] _ IH]; [done|]. cbn. unfold tokens_of at 1. by rewrite Hp, IH. }
  pose proof (pages_selected logs Hlogs) as Hperm.
  assert (Hmine : Permutation (List.filter (hash_is (tx_hash tx)) logs) (List.filter (asked_for s) (ec_Logs (ch_receipt ch (tx_hash tx))))).
  { assert (Hsel : Permutation (List.filter (hash_is (tx_hash tx)) logs) (List.filter selected (ec_Logs (ch_receipt ch (tx_hash tx))))).
    { rewrite (Permutation_filter_b _ _ _ Hperm), filter_filter. rewrite <- (logs_of_tx h tx Hh Htx), filter_filter.
      rewrite (List.filter_ext _ (fun x => hash_is (tx_hash tx) x && selected x)); [done|]. intros x. apply andb_comm. }
    rewrite Hsel. rewrite (List.filter_ext_in selected (asked_for s)); [done|]. intros log Hlog.
    destruct (asked_for s log) eqn:Ea; [by apply asked_selected|]. destruct (selected log) eqn:Es; [|done].
    assert (In log (List.filter (hash_is (tx_hash tx)) logs)) as [Hl _]%filter_In.
    { eapply Permutation_in; [symmetry; exact Hsel|]. by apply filter_In. }
    destruct (Hacc log Hl) as [r Hr]. apply accepted_asked in Hr. congruence. }
  split.
  - rewrite (filter_concat_by _ (hash_is (tx_hash tx))); [by apply Permutation_flat|]. intros log e Hlog He.
    destruct (Hacc log Hlog) as [[es id] Hr]. unfold tokens_of in He. rewrite Hr in He.
    pose proof (In_Forall _ _ _ (token_log_tx s log_evidence sha256 _ _ _ _ _ Hr Hgood) He) as Hid. cbn in Hid. unfold of_tx, hash_is. rewrite <- Hid.
    destruct (String.eqb_spec (ei_TransactionID (te_Identity e)) (tx_hash tx)) as [->|Hne]; [by rewrite bool_decide_true|]. rewrite bool_decide_false; congruence.
  - intros log Hl. apply Hacc. apply (Permutation_in _ (Permutation_sym Hmine)) in Hl. by apply filter_In in Hl as [? _].
Qed.

(** What a look-up finds is what the scan of any range around the
    transaction finds: the same transfers with the same identifiers, amounts,
    block and evidence, up to the number of confirmations. *)
Theorem lookup_replays_scan chainID txid h tx batch events :
  es_addressFiltered s = true -> es_includeInternal s = false -> 1 <= es_blockBatchSize s <= 4 -> es_watched s <> ∅ ->
  0 <= from -> to + 3 <= max_uint64 -> from <= h <= to -> In tx (ch_txs ch h) -> canonicalEVMHash txid = Some (tx_hash tx) ->
  EVM_ScanRange s node unmarshal_tx native_evidence log_evidence receipt_evidence sha256 from to = Ok batch ->
  EVM_LookupTransaction s node native_evidence log_evidence receipt_evidence sha256 chainID txid = Ok events ->
  Permutation (map without_confirmations events) (map without_confirmations (List.filter (of_tx (tx_hash tx)) (rb_Events batch))).
Proof.
  intros Hf Hi Hk Hne Hfrom Hto Hh Htx Hid Hscan Hlook.
  destruct (lookup_inv chainID txid h tx events Hf Hi Hh Htx Hid Hlook) as (b' & safe' & Hsame & [Hb' _] & Hev).
  unfold EVM_ScanRange in Hscan. destruct (_ || _); [done|]. rewrite Hf, Hi in Hscan. cbn [andb negb] in Hscan. unfold scanWatchedRange in Hscan.
  bind_step Hscan. rewrite bool_decide_false in Hscan by done. bind_step Hscan. bind_step Hscan. bind_step Hscan. injection Hscan as <-.
  assert (Hone : traverse (scan_one s node unmarshal_tx native_evidence sha256 x) (heights from to) = Ok x0).
  { apply (watched_blocks_batched s node unmarshal_tx native_evidence sha256 (es_blockBatchSize s) to x (hn_batch _ _ _ _ _ _ Hhonest) Hk Hto from []);
      [done|cbn; lia|cbn; rewrite take_0; constructor|]. by destruct s. }
  destruct (scan_natives x x0 Hone) as (Hfst & Hgood & Hnat).
  assert (Hblocks : forall h b, block_map (map fst x0) !! h = Some b -> good_block h b /\ b = canon h).
  { intros h' b [Hb <-]%block_map_spec. rewrite Hfst in Hb. apply list_elem_of_In, in_map_iff in Hb as (h1 & <- & H1).
    pose proof (In_Forall _ _ _ Hgood H1) as Hg. destruct Hg as [Hg1 Hg2] eqn:?. rewrite Hg1. done. }
  destruct (scan_tokens_of_tx x (block_map (map fst x0)) x1 x2 h tx Hh Htx ltac:(intros; by apply Hblocks) E1 E2) as [Htp Hacc].
  cbn [rb_Events]. rewrite (Permutation_filter_b _ _ _ (Permutation_sym (sort_by_perm event_order _))), List.filter_app, Hnat, (natives_of_tx x h tx Hh Htx Hgood).
  rewrite Htp, map_app. clear Htp Hnat.
  unfold normalizeWatchedLookup in Hev. bind_step Hev. destruct (negb _); [done|]. bind_step Hev. unfold receipt_success in E4.
  destruct (String.eqb_spec (ec_Status (ch_receipt ch (tx_hash tx))) "0x1") as [Hs|_].
  - injection E4 as <-. cbn [negb] in Hev. bind_step Hev. bind_step Hev. injection Hev as <-. rewrite <- (sort_by_perm index_order), map_app.
    rewrite <- (lookup_native_same h tx b' x safe' x4 Hh Htx Hsame E4). apply Permutation_app_head.
    destruct (lookup_tokens_concat _ _ _ _ _ _ _ _ _ E5) as (parts' & Hparts' & ->).
    assert (Hheaders : forall h' c c', block_map (map fst x0) !! h' = Some c -> ({[bl_Height b' := b']} : gmap Z Block) !! h' = Some c' -> same_header c c').
    { intros h' c c' Hc Hc'. apply lookup_singleton_Some in Hc' as [<- <-]. apply Hblocks in Hc as [_ ->]. rewrite Hb'. exact Hsame. }
    by rewrite <- (tokens_same (block_map (map fst x0)) x _ safe' _ _ Hheaders Hacc Hparts').
  - destruct (String.eqb_spec (ec_Status (ch_receipt ch (tx_hash tx))) "0x0") as [Hs|_]; [|done]. injection E4 as <-. cbn [negb] in Hev.
    injection Hev as <-. rewrite native_failed by done. destruct (hn_receipt _ _ _ _ _ _ Hhonest h tx Hh Htx) as (_ & Hl & _). by rewrite (Hl Hs).
Qed.
End both.

(** ** A concrete chain *)

Definition sample_chain : evm_chain :=
  mkEvmChain (fun _ => sample_evm_block) (fun _ => [sample_tx_hash]) (fun _ => [sample_tx]) (fun _ => sample_evm_receipt).

Definition sample_node : EvmNode :=
  node_with sample_evm_receipt (fun f => List.filter (log_matches f) (chain_logs sample_chain (heights 10 10))).

Lemma sample_honest : honest sample_source sample_unmarshal sample_chain 10 10 sample_node.
Proof.
  constructor.
  - intros h Hh. assert (h = 10) as -> by lia. reflexivity.
  - intros h Hh. assert (h = 10) as -> by lia. reflexivity.
  - by apply batch_of_faithful.
  - done.
  - intros h tx _ [<-|[]]. vm_compute. reflexivity.
  - vm_compute. apply NoDup_singleton.
  - intros h tx _ [<-|[]]. done.
  - intros h tx Hh [<-|[]]. assert (h = 10) as -> by lia. split; [vm_compute; reflexivity|]. split; [discriminate|].
    intros log [<-|[]]. vm_compute. reflexivity.
  - intros f _. eexists. split; [reflexivity|]. done.
Qed.


Lemma sample_watched a : a ∈ es_watched sample_source -> canonicalEVMAddress a = Some a.
Proof. cbn [es_watched sample_source]. intros ->%elem_of_singleton. vm_compute. reflexivity. Qed.

Definition sample_scan_result : result provider_error RangeBatch :=
  EVM_ScanRange sample_source sample_node sample_unmarshal sample_evidence eg_Data (fun _ _ => "") sample_sha 10 10.
Definition sample_lookup_result : result provider_error (list TransferEvent) :=
  EVM_LookupTransaction sample_source sample_node sample_evidence eg_Data (fun _ _ => "") sample_sha "eip155:56" sample_tx_hash.
Definition scanned_batch : RangeBatch := match sample_scan_result with Ok b => b | Err _ => mkBatch 0 0 [] [] [] false false false end.
Definition looked_up : list TransferEvent := match sample_lookup_result with Ok es => es | Err _ => [] end.

Lemma lookup_replays_scan_witness :
  sample_scan_result = Ok scanned_batch /\ sample_lookup_result = Ok looked_up /\ map te_Amount looked_up = [255; 100] /\
  Permutation (map without_confirmations looked_up) (map without_confirmations (List.filter (of_tx (tx_hash sample_tx)) (rb_Events scanned_batch))).
Proof.
  assert (Hs : sample_scan_result = Ok scanned_batch) by (vm_compute; reflexivity).
  assert (Hl : sample_lookup_result = Ok looked_up) by (vm_compute; reflexivity).
  split; [exact Hs|]. split; [exact Hl|]. split; [vm_compute; reflexivity|].
  apply (lookup_replays_scan sample_source sample_unmarshal sample_chain 10 10 sample_node sample_evidence eg_Data (fun _ _ => "") sample_sha
    sample_honest sample_watched "eip155:56" sample_tx_hash 10 sample_tx scanned_batch looked_up).
  - reflexivity.
  - reflexivity.
  - split; discriminate.
  - cbn [es_watched sample_source]. apply non_empty_singleton_L.
  - lia.
  - unfold max_uint64. lia.
  - lia.
  - left. reflexivity.
  - vm_compute. reflexivity.
  - exact Hs.
  - exact Hl.
Defined.
