(* ===== verification/EvmInternal.v ===== *)
(** * EvmInternal: internal/providers/evm_internal_filter.go

    Internal native transfers of watched addresses, without tracing every
    block: two independent probes compare the balance change of every watched
    account with the inflows the ordinary scan found, a bisection locates the
    blocks with unexplained movement, two independent tracers must agree on the
    traces of those blocks, and each trace needs a successful receipt from both
    probes. The answers of the nodes are parameters; each is fixed during one
    operation, so the cache of account states only saves calls. *)

From Stdlib Require Import ZArith Lia Ascii String.
From stdpp Require Import base gmap list strings.
From S2P Require Import Prelude Text Numerals Money Domain Scanner Chains Providers Evm.

(** ** What the nodes report *)

Record evmAccountState := mkAccountState { as_balance : Z; as_nonce : Z; as_code : string }.
Record evmBalanceWindow := mkBalanceWindow { bw_delta : Z; bw_nonceUnchanged : bool; bw_eoa : bool }.

Record internalTraceCandidate := mkTraceCandidate {
  tc_Height : Z; tc_BlockHash : string; tc_TransactionHash : string; tc_EventIndex : string; tc_From : string; tc_To : string;
  tc_Amount : string }.
#[export] Instance internalTraceCandidate_eq_dec : EqDecision internalTraceCandidate.
Proof. solve_decision. Defined.

Record filteredEVMTrace := mkFilteredTrace {
  fl_From : string; fl_To : string; fl_Value : string; fl_CallType : string; fl_BlockHash : string; fl_BlockNumber : Z;
  fl_Error : string; fl_TraceAddress : list Z; fl_TransactionHash : string; fl_Type : string }.

(** A probe answers for an account at a height, and for receipts. *)
Record ProbeNode := mkProbeNode {
  pb_getBalance : string -> string -> result provider_error string;
  pb_getTransactionCount : string -> string -> result provider_error string;
  pb_getCode : string -> string -> result provider_error string;
  pb_getReceipt : string -> result provider_error evmReceipt }.

(** A tracer reports its head and the page of [trace_filter] from an offset. *)
Record TracerNode := mkTracerNode {
  tn_Heads : result provider_error (list ProviderHead);
  tn_traceFilter : string -> string -> list string -> Z -> result provider_error (list filteredEVMTrace) }.

(** ** The filter *)

Record EVMInternalFilter := mkInternalFilter {
  fi_nativeAssetID : string; fi_nativeDecimals : Z; fi_watched : gset string; fi_chainID : string; fi_genesis : string;
  fi_traceProviders : string * string; fi_receiptProviders : string * string }.

(** A source and the host of its endpoint; [shared] says the two are one object. *)
Definition independent (shared : bool) (first second : EVMSource * string) (chainID : string) : bool :=
  negb (shared || (snd first == snd second) || (es_chainID (fst first) != chainID) || (es_chainID (fst second) != chainID)).

Definition NewEVMInternalFilter (shared : bool) (first second : EVMSource * string) (chainID genesis : string) (addresses : list string)
    : option EVMInternalFilter :=
  let a := fst first in
  let b := fst second in
  if negb (independent shared first second chainID) || negb (es_includeInternal a) || negb (es_includeInternal b)
     || (es_nativeAssetID a == "") || (es_nativeAssetID a != es_nativeAssetID b) || negb (es_nativeDecimals a =? es_nativeDecimals b)
  then None
  else
    watched ← canonical_watched addresses ∅;
    if bool_decide (watched = ∅) then None
    else
      let ids := (es_providerID a, es_providerID b) in
      Some (mkInternalFilter (es_nativeAssetID a) (es_nativeDecimals a) watched chainID genesis ids ids).

Definition WithBalanceProbes (f : EVMInternalFilter) (shared : bool) (first second : EVMSource * string) : option EVMInternalFilter :=
  if negb (independent shared first second (fi_chainID f)) then None
  else Some (mkInternalFilter (fi_nativeAssetID f) (fi_nativeDecimals f) (fi_watched f) (fi_chainID f) (fi_genesis f) (fi_traceProviders f)
               (es_providerID (fst first), es_providerID (fst second))).

(** ** Account states *)

(** The text of the code in lower case (ASCII). *)
Definition accountState (probe : ProbeNode) (address : string) (height : Z) : result provider_error evmAccountState :=
  balanceHex ← pb_getBalance probe address (hexQuantity height);
  nonceHex ← pb_getTransactionCount probe address (hexQuantity height);
  code ← pb_getCode probe address (hexQuantity height);
  match parseHexAmount balanceHex with
  | None => Err (malformed_msg "evm watched balance" "amount")
  | Some balance =>
      match parseHexUint64 nonceHex with
      | Some nonce =>
          if negb (HasPrefix code "0x") || negb (len code mod 2 =? 0)
          then Err (malformed_msg "evm watched account" "invalid nonce or code")
          else Ok (mkAccountState (dec_value 0 balance) nonce (lower_ascii code))
      | None => Err (malformed_msg "evm watched account" "invalid nonce or code")
      end
  end.

Definition is_inflow (address nativeAsset : string) (from to : Z) (e : TransferEvent) : bool :=
  negb ((te_BlockHeight e <? from) || (to <? te_BlockHeight e) || (ei_ToAddress (te_Identity e) != address)
        || (ei_AssetID (te_Identity e) != nativeAsset) || ((te_Kind e != "native_top_level") && (te_Kind e != "native_internal"))).

Definition nativeInflows (events : list TransferEvent) (address nativeAsset : string) (from to : Z) : Z :=
  sumZ (map te_Amount (List.filter (is_inflow address nativeAsset from to) events)).

Section filter.
Context (f : EVMInternalFilter) (probes : ProbeNode * ProbeNode) (tracers : TracerNode * TracerNode).
(** [fmt.Errorf("...: %w")] of an error of the layer; [json.Marshal] of the evidence; [sha256.Sum256]. *)
Context (annotate : string -> provider_error -> provider_error) (trace_evidence : internalTraceCandidate -> string) (sha256 : string -> string).

Definition state_eq (a b : evmAccountState) : bool :=
  (as_balance a =? as_balance b) && (as_nonce a =? as_nonce b) && (as_code a == as_code b).

(** The states of one account at both edges, from one probe. *)
Definition edges (index : string) (probe : ProbeNode) (address : string) (from to : Z) : result provider_error (evmAccountState * evmAccountState) :=
  start ← lift_err (annotate ("balance provider " +:+ index +:+ " start")) (accountState probe address (from - 1));
  end_ ← lift_err (annotate ("balance provider " +:+ index +:+ " end")) (accountState probe address to);
  Ok (start, end_).

Definition balance_window (address : string) (from to : Z) : result provider_error evmBalanceWindow :=
  first ← edges "1" (fst probes) address from to;
  second ← edges "2" (snd probes) address from to;
  if negb (state_eq (fst first) (fst second)) || negb (state_eq (snd first) (snd second))
  then Err (OtherError "independent providers disagree on watched account state")
  else
    let start := fst first in
    let end_ := snd first in
    Ok (mkBalanceWindow (as_balance end_ - as_balance start) (as_nonce start =? as_nonce end_) ((as_code start == "0x") && (as_code end_ == "0x"))).

Definition window_unexplained (events : list TransferEvent) (from to : Z) (w : string * evmBalanceWindow) : bool :=
  negb (bw_eoa (snd w)) || negb (bw_nonceUnchanged (snd w))
  || negb (bw_delta (snd w) =? nativeInflows events (fst w) (fi_nativeAssetID f) from to).

(** The windows of the watched accounts in the order of their addresses, and
    whether a trace is needed; at genesis there is no state before the range. *)
Definition balanceWindows (from to : Z) (events : list TransferEvent) : result provider_error (list (string * evmBalanceWindow) * bool) :=
  if from =? 0 then Ok ([], true)
  else
    windows ← traverse (fun address => window ← balance_window address from to; Ok (address, window))
                (sort_by str_less (elements (fi_watched f)));
    Ok (windows, existsb (window_unexplained events from to) windows).

(** The bisection; [fuel] bounds its depth. *)
Fixpoint locate (fuel : nat) (events : list TransferEvent) (first last : Z) : result provider_error (list Z) :=
  match fuel with
  | O => Err (OtherError "out of fuel")
  | S n =>
      '(_, unexplained) ← balanceWindows first last events;
      if negb unexplained then Ok []
      else if first =? last then Ok [first]
      else
        let middle := first + (last - first) / 2 in
        left ← locate n events first middle;
        right ← locate n events (middle + 1) last;
        Ok (left ++ right)
  end.

Definition traceBlocks (from to : Z) (events : list TransferEvent) : result provider_error (list (string * evmBalanceWindow) * list Z) :=
  '(full, needed) ← balanceWindows from to events;
  if negb needed then Ok (full, [])
  else heights ← locate (S (Z.to_nat (Z.log2_up (to - from + 1)))) events from to; Ok (full, heights).

(** ** Traces *)



Definition traceAddressPath (index : string) : option (list Z) :=
  if negb (HasPrefix index "trace:") || (len index <=? 6) then None
  else
    (fix parts (l : list string) : option (list Z) :=
       match l with
       | [] => Some []
       | part :: rest => match ParseUint32 part, parts rest with Some value, Some path => Some (value :: path) | _, _ => None end
       end) (Split (TrimPrefix index "trace:") (chr 44)).

(** The body of the loop over a page. *)
Definition trace_candidate (watched : gset string) (start end_ : Z) (trace : filteredEVMTrace) : result provider_error (option internalTraceCandidate) :=
  if (fl_Error trace != "") || Nat.eqb (length (fl_TraceAddress trace)) 0 || negb (evmTraceMovesValue (fl_Type trace)) then Ok None
  else if (fl_BlockNumber trace <? start) || (end_ <? fl_BlockNumber trace)
  then Err (malformed_msg "evm internal trace" "trace outside requested block range")
  else
    toAddress ← of_option (malformed_msg "evm internal trace" "invalid EVM address") (canonicalEVMAddress (fl_To trace));
    if negb (bool_decide (toAddress ∈ watched)) then Err (malformed_msg "evm internal trace" "trace recipient is not watched")
    else
      fromAddress ← of_option (malformed_msg "evm internal trace" "invalid EVM address") (canonicalEVMAddress (fl_From trace));
      value ← of_option (malformed_msg "evm internal trace" "amount") (parseHexAmount (fl_Value trace));
      if value == "0" then Ok None
      else
        txHash ← of_option (malformed_msg "evm internal trace" "invalid EVM hash") (canonicalEVMHash (fl_TransactionHash trace));
        blockHash ← of_option (malformed_msg "evm internal trace" "invalid EVM hash") (canonicalEVMHash (fl_BlockHash trace));
        Ok (Some (mkTraceCandidate (fl_BlockNumber trace) blockHash txHash (trace_index (fl_TraceAddress trace)) fromAddress toAddress value)).

(** The pages of one window from [offset]; twelve of them pass the limit. *)
Fixpoint trace_pages (fuel : nat) (tracer : TracerNode) (watched : gset string) (start end_ offset : Z) : result provider_error (list internalTraceCandidate) :=
  match fuel with
  | O => Err (OtherError "internal trace pagination limit exceeded")
  | S n =>
      page ← tn_traceFilter tracer (hexQuantity start) (hexQuantity end_) (sort_by str_less (elements watched)) offset;
      candidates ← traverse (trace_candidate watched start end_) page;
      if Nat.ltb (length page) 1000 then Ok (omap id candidates)
      else if 10000 <? offset + Z.of_nat (length page) then Err (OtherError "internal trace pagination limit exceeded")
      else more ← trace_pages n tracer watched start end_ (offset + Z.of_nat (length page)); Ok (omap id candidates ++ more)
  end.

(** Windows of four blocks. *)
Fixpoint trace_windows (fuel : nat) (tracer : TracerNode) (watched : gset string) (start to : Z) : result provider_error (list internalTraceCandidate) :=
  match fuel with
  | O => Ok []
  | S n =>
      let end_ := Z.min (start + 3) to in
      here ← trace_pages 12 tracer watched start end_ 0;
      if end_ =? to then Ok here
      else more ← trace_windows n tracer watched (end_ + 1) to; Ok (here ++ more)
  end.

Definition trace_candidate_less (a b : internalTraceCandidate) : bool :=
  if negb (tc_Height a =? tc_Height b) then tc_Height a <? tc_Height b
  else if tc_TransactionHash a != tc_TransactionHash b then str_less (tc_TransactionHash a) (tc_TransactionHash b)
  else str_less (tc_EventIndex a) (tc_EventIndex b).

Definition filteredInternalTraces (tracer : TracerNode) (from to : Z) (watched : gset string) : result provider_error (list internalTraceCandidate) :=
  if (to <? from) || bool_decide (watched = ∅) then Err (OtherError "invalid internal trace range")
  else candidates ← trace_windows (S (Z.to_nat (to - from))) tracer watched from to; Ok (sort_by trace_candidate_less candidates).

(** ** The scan *)

(** One tracer: its safe height and the candidates of the located blocks. *)
Definition observe_traces (index : string) (tracer : TracerNode) (to : Z) (traceBlocks : list Z) : result provider_error (Z * list internalTraceCandidate) :=
  heads ← lift_err (annotate ("internal trace provider " +:+ index +:+ " identity")) (tn_Heads tracer);
  match heads with
  | [head] =>
      if (ph_ChainID head != fi_chainID f) || (ph_GenesisHash head != fi_genesis f) || (ph_SafeHeight head <? to)
      then Err (OtherError "internal trace provider is on a different or stale chain")
      else
        pages ← traverse (fun height => lift_err (annotate ("internal trace provider " +:+ index)) (filteredInternalTraces tracer height height (fi_watched f)))
                  traceBlocks;
        Ok (ph_SafeHeight head, concat pages)
  | _ => Err (OtherError "internal trace provider is on a different or stale chain")
  end.

Definition receipt_confirms (candidate : internalTraceCandidate) (block : Block) (receipt : evmReceipt) : bool :=
  bool_decide (parseHexUint64 (ec_BlockNumber receipt) = Some (tc_Height candidate)) && (ec_Status receipt == "0x1")
  && fold_eq (ec_TransactionHash receipt) (tc_TransactionHash candidate) && fold_eq (ec_BlockHash receipt) (bl_Hash block).

Definition confirmed_by (index : string) (probe : ProbeNode) (candidate : internalTraceCandidate) (block : Block) : result provider_error unit :=
  receipt ← lift_err (annotate ("internal receipt provider " +:+ index)) (pb_getReceipt probe (tc_TransactionHash candidate));
  if receipt_confirms candidate block receipt then Ok tt
  else Err (OtherError "internal trace does not match independently verified successful transaction receipt").

(** The scanned block of a candidate. *)
Definition bound_block (blocks : gmap Z Block) (candidate : internalTraceCandidate) : result provider_error Block :=
  match blocks !! tc_Height candidate with
  | Some block =>
      if bl_Hash block == tc_BlockHash candidate then Ok block else Err (OtherError "internal trace does not bind to the canonical scanned block")
  | None => Err (OtherError "internal trace does not bind to the canonical scanned block")
  end.

(** What the adapter reads of a candidate. *)
Definition trace_receipt (block : Block) (safeHeight : Z) (path : list Z) (candidate : internalTraceCandidate) : EVMReceipt :=
  mkEVMReceipt (tc_TransactionHash candidate) (tc_Height candidate) (bl_Hash block) (bl_Time block) true true
    (confirmations safeHeight (tc_Height candidate)) None []
    [mkEVMTrace path (tc_From candidate) (tc_To candidate) (tc_Amount candidate) (fi_nativeAssetID f) (fi_nativeDecimals f) true]
    (trace_evidence candidate).

Definition internal_event (block : Block) (safeHeight : Z) (candidate : internalTraceCandidate) : result provider_error TransferEvent :=
  _ ← confirmed_by "1" (fst probes) candidate block;
  _ ← confirmed_by "2" (snd probes) candidate block;
  path ← of_option (OtherError "invalid internal trace path") (traceAddressPath (tc_EventIndex candidate));
  match EVM_Normalize sha256 None (fi_chainID f) (Ok (trace_receipt block safeHeight path candidate)) (tc_TransactionHash candidate) with
  | Ok [event] =>
      if (te_Kind event != "native_internal") || (ei_EventIndex (te_Identity event) != tc_EventIndex candidate)
      then Err (OtherError "internal transfer normalization failed") else Ok event
  | _ => Err (OtherError "internal transfer normalization failed")
  end.

(** The loop over the agreed candidates, with the keys seen so far. *)
Fixpoint internal_events (blocks : gmap Z Block) (safeHeight : Z) (seen : list (string * string)) (candidates : list internalTraceCandidate)
    : result provider_error (list TransferEvent) :=
  match candidates with
  | [] => Ok []
  | candidate :: rest =>
      block ← bound_block blocks candidate;
      let key := (tc_TransactionHash candidate, tc_EventIndex candidate) in
      if existsb (fun other => bool_decide (other = key)) seen then Err (OtherError "duplicate internal trace")
      else event ← internal_event block safeHeight candidate; more ← internal_events blocks safeHeight (key :: seen) rest; Ok (event :: more)
  end.

Definition window_explained (events : list TransferEvent) (from to : Z) (w : string * evmBalanceWindow) : bool :=
  negb (bw_eoa (snd w)) || negb (bw_nonceUnchanged (snd w))
  || (bw_delta (snd w) =? nativeInflows events (fst w) (fi_nativeAssetID f) from to).

Definition internal_order (left right : TransferEvent) : bool :=
  if negb (te_BlockHeight left =? te_BlockHeight right) then te_BlockHeight left <? te_BlockHeight right
  else if ei_TransactionID (te_Identity left) != ei_TransactionID (te_Identity right)
  then str_less (ei_TransactionID (te_Identity left)) (ei_TransactionID (te_Identity right))
  else str_less (ei_EventIndex (te_Identity left)) (ei_EventIndex (te_Identity right)).

(** [base] is what the ordinary scan of the range returned. *)
Definition Internal_ScanRange (base : result provider_error RangeBatch) (from to : Z) : result provider_error RangeBatch :=
  batch ← base;
  if Nat.eqb (length (rb_Blocks batch)) 0 then Ok batch
  else
    '(windows, heights) ← traceBlocks from to (rb_Events batch);
    match heights with
    | [] => Ok batch
    | _ =>
        first ← observe_traces "1" (fst tracers) to heights;
        second ← observe_traces "2" (snd tracers) to heights;
        if negb (bool_decide (snd first = snd second)) then Err (OtherError "independent internal trace providers disagree")
        else
          internal ← internal_events (block_map (rb_Blocks batch)) (Z.min (fst first) (fst second)) [] (snd first);
          let events := rb_Events batch ++ internal in
          if negb (forallb (window_explained events from to) windows)
          then Err (OtherError "internal transfer trace does not explain balance change")
          else Ok (with_events batch (sort_by internal_order events))
    end.
End filter.
