(* ===== verification/EvmInternalFacts.v ===== *)
(** * EvmInternalFacts: internal transfers explain the balances

    The bisection locates exactly the blocks in which a watched account moved
    without explanation; a range that is returned explains the balance change
    of every watched account that only received; each internal transfer was
    seen by two tracers and confirmed by two receipts; and the kind of a call
    is never read. *)

From Stdlib Require Import ZArith Lia Ascii String Permutation.
From stdpp Require Import base gmap list strings.
From S2P Require Import Prelude Text Numerals Money Domain Scanner Chains ChainsFacts Providers Evm EvmFacts EvmInternal.

(** ** Inflows *)

Lemma inflow_split address asset first mid last e : first <= mid + 1 -> mid <= last ->
  is_inflow address asset first last e = is_inflow address asset first mid e || is_inflow address asset (mid + 1) last e /\
  is_inflow address asset first mid e && is_inflow address asset (mid + 1) last e = false.
Proof.
  intros H1 H2. unfold is_inflow. destruct (ei_ToAddress (te_Identity e) != address); [by rewrite !orb_true_r|].
  destruct (ei_AssetID (te_Identity e) != asset); [by rewrite !orb_true_r|].
  destruct ((te_Kind e != "native_top_level") && (te_Kind e != "native_internal")); [by rewrite !orb_true_r|]. rewrite !orb_false_r.
  destruct (Z.ltb_spec (te_BlockHeight e) first), (Z.ltb_spec last (te_BlockHeight e)), (Z.ltb_spec mid (te_BlockHeight e)),
    (Z.ltb_spec (te_BlockHeight e) (mid + 1)); try lia; done.
Qed.

Lemma inflows_add events address asset first mid last : first <= mid + 1 -> mid <= last ->
  nativeInflows events address asset first last = nativeInflows events address asset first mid + nativeInflows events address asset (mid + 1) last.
Proof.
  intros H1 H2. unfold nativeInflows. induction events as [|e events IH]; [done|]. cbn [List.filter].
  destruct (inflow_split address asset first mid last e H1 H2) as [E1 E2]. rewrite E1.
  destruct (is_inflow address asset first mid e), (is_inflow address asset (mid + 1) last e); try done; cbn [orb map sumZ]; lia.
Qed.

Lemma inflows_none events address asset first last : last < first -> nativeInflows events address asset first last = 0.
Proof.
  intros H. unfold nativeInflows. induction events as [|e events IH]; [done|]. cbn [List.filter]. unfold is_inflow at 1.
  destruct (Z.ltb_spec (te_BlockHeight e) first), (Z.ltb_spec last (te_BlockHeight e)); cbn [orb negb]; try lia; exact IH.
Qed.

Lemma inflows_perm events events' address asset from to : Permutation events events' ->
  nativeInflows events address asset from to = nativeInflows events' address asset from to.
Proof.
  intros H. unfold nativeInflows. induction H as [|e l k _ IH|x y l|l k m _ IH1 _ IH2]; [done| | |by rewrite IH1].
  - cbn [List.filter]. destruct (is_inflow _ _ _ _ e); cbn [map sumZ]; lia.
  - cbn [List.filter]. destruct (is_inflow _ _ _ _ x), (is_inflow _ _ _ _ y); cbn [map sumZ]; lia.
Qed.

(** ** Windows *)

Section windows.
Context (f : EVMInternalFilter) (probes : ProbeNode * ProbeNode) (annotate : string -> provider_error -> provider_error) (events : list TransferEvent).
Abbreviation asset := (fi_nativeAssetID f) (only parsing).
Abbreviation addresses := (sort_by str_less (elements (fi_watched f))) (only parsing).

Lemma address_watched a : In a addresses <-> a ∈ fi_watched f.
Proof. rewrite sort_by_In, <- list_elem_of_In. apply elem_of_elements. Qed.

Lemma balance_window_ok a from to w : balance_window probes annotate a from to = Ok w ->
  exists st en, accountState (fst probes) a (from - 1) = Ok st /\ accountState (fst probes) a to = Ok en /\
    w = mkBalanceWindow (as_balance en - as_balance st) (as_nonce st =? as_nonce en) ((as_code st == "0x") && (as_code en == "0x")).
Proof.
  unfold balance_window, edges. intros H. bind_step H. bind_step E. bind_step E. injection E as <-. apply lift_err_ok in E0, E1. bind_step H.
  destruct (_ || _); [done|]. injection H as <-. by exists x0, x1.
Qed.

Lemma balanceWindows_ok from to ws needed : from <> 0 -> balanceWindows f probes annotate from to events = Ok (ws, needed) ->
  Forall2 (fun a w => fst w = a /\ balance_window probes annotate a from to = Ok (snd w)) addresses ws /\
  needed = existsb (window_unexplained f events from to) ws.
Proof.
  intros H0. unfold balanceWindows. rewrite (proj2 (Z.eqb_neq from 0)) by done. intros H. bind_step H. injection H as <- <-. split; [|done].
  apply traverse_ok in E. eapply Forall2_impl; [exact E|]. cbn. intros a w Hw. bind_step Hw. injection Hw as <-. done.
Qed.

(** Two explained halves explain the whole. *)
Lemma window_glue a first mid last w1 w2 w : first <= mid < last ->
  balance_window probes annotate a first mid = Ok w1 -> balance_window probes annotate a (mid + 1) last = Ok w2 ->
  balance_window probes annotate a first last = Ok w ->
  window_unexplained f events first mid (a, w1) = false -> window_unexplained f events (mid + 1) last (a, w2) = false ->
  window_unexplained f events first last (a, w) = false.
Proof.
  intros Hm H1 H2 H. destruct (balance_window_ok _ _ _ _ H1) as (s1 & e1 & Hs1 & He1 & ->).
  destruct (balance_window_ok _ _ _ _ H2) as (s2 & e2 & Hs2 & He2 & ->). destruct (balance_window_ok _ _ _ _ H) as (st & en & Hst & Hen & ->).
  replace (mid + 1 - 1) with mid in Hs2 by lia. rewrite He1 in Hs2. injection Hs2 as <-. rewrite Hst in Hs1. injection Hs1 as <-.
  rewrite Hen in He2. injection He2 as <-. unfold window_unexplained. cbn [fst snd bw_eoa bw_nonceUnchanged bw_delta].
  rewrite !orb_false_iff, !negb_false_iff, !andb_true_iff, !Z.eqb_eq. intros ((C1 & N1) & D1) ((C2 & N2) & D2).
  rewrite (inflows_add events a (fi_nativeAssetID f) first mid last) by lia. split; [split; [split; [apply C1|apply C2]|lia]|lia].
Qed.

(** Where something is unexplained, the bisection finds a block. *)
Lemma locate_finds fuel first last hs : 0 < first -> first <= last ->
  locate f probes annotate fuel events first last = Ok hs -> hs = [] ->
  exists ws, balanceWindows f probes annotate first last events = Ok (ws, false).
Proof.
  revert first last hs. induction fuel as [|n IH]; intros first last hs Hf Hle H ->; cbn [locate] in H; [done|]. bind_step H. destruct x as [ws needed].
  destruct needed; cbn [negb] in H; [|by exists ws]. exfalso. destruct (Z.eqb_spec first last) as [|Hne]; [done|].
  set (mid := first + (last - first) / 2) in *. assert (first <= mid < last) as Hm.
  { unfold mid. pose proof (Z.div_pos (last - first) 2 ltac:(lia) ltac:(lia)). pose proof (Z.div_lt (last - first) 2 ltac:(lia) ltac:(lia)). lia. }
  bind_step H. bind_step H. injection H as H. apply app_eq_nil in H as [-> ->].
  destruct (IH _ _ _ Hf (proj1 Hm) E0 eq_refl) as [w1 Hw1]. destruct (IH (mid + 1) last _ ltac:(lia) ltac:(lia) E1 eq_refl) as [w2 Hw2].
  apply balanceWindows_ok in Hw1 as [F1 N1]; [|lia]. apply balanceWindows_ok in Hw2 as [F2 N2]; [|lia]. apply balanceWindows_ok in E as [F0 N0]; [|lia].
  symmetry in N0. apply existsb_exists in N0 as ([a w] & Hin%list_elem_of_In & Hun). destruct (Forall2_elem_r _ _ _ _ F0 Hin) as (a' & Ha & <- & Hw). cbn in Hw.
  destruct (Forall2_elem_l _ _ _ _ F1 Ha) as ([b1 v1] & Hv1 & Hb1 & G1). destruct (Forall2_elem_l _ _ _ _ F2 Ha) as ([b2 v2] & Hv2 & Hb2 & G2). cbn in Hb1, Hb2, G1, G2. subst b1 b2.
  assert (forall ws' fr t b v, false = existsb (window_unexplained f events fr t) ws' -> (b, v) ∈ ws' -> window_unexplained f events fr t (b, v) = false) as Hno.
  { intros ws' fr t b v Hn Hv. destruct (window_unexplained f events fr t (b, v)) eqn:E'; [|done]. symmetry in Hn.
    assert (existsb (window_unexplained f events fr t) ws' = true) as Hy; [|congruence]. apply existsb_exists. exists (b, v). split; [by apply list_elem_of_In|done]. }
  pose proof (window_glue _ first mid last v1 v2 w Hm G1 G2 Hw (Hno _ _ _ _ _ N1 Hv1) (Hno _ _ _ _ _ N2 Hv2)). cbn in Hun. congruence.
Qed.
End windows.

(** ** The books of a returned range *)

Section scan.
Context (f : EVMInternalFilter) (probes : ProbeNode * ProbeNode) (tracers : TracerNode * TracerNode)
  (annotate : string -> provider_error -> provider_error) (trace_evidence : internalTraceCandidate -> string) (sha256 : string -> string).

(** The outcomes of a scan over a base that has blocks. *)
Lemma internal_scan_inv base from to batch' : rb_Blocks base <> [] -> 0 < from -> from <= to ->
  Internal_ScanRange f probes tracers annotate trace_evidence sha256 (Ok base) from to = Ok batch' ->
  exists ws needed internal, balanceWindows f probes annotate from to (rb_Events base) = Ok (ws, needed) /\
    Permutation (rb_Events batch') (rb_Events base ++ internal) /\ batch' = with_events base (rb_Events batch') /\
    forallb (window_explained f (rb_Events batch') from to) ws = true /\
    (internal = [] \/ exists hs safe1 safe2 candidates,
      observe_traces f annotate "1" (fst tracers) to hs = Ok (safe1, candidates) /\ observe_traces f annotate "2" (snd tracers) to hs = Ok (safe2, candidates) /\
      internal_events f probes annotate trace_evidence sha256 (block_map (rb_Blocks base)) (Z.min safe1 safe2) [] candidates = Ok internal).
Proof.
  intros Hne Hf Hle H. unfold Internal_ScanRange in H. cbn [mbind result_bind] in H.
  destruct (Nat.eqb_spec (length (rb_Blocks base)) 0) as [H0|_]; [by apply length_zero_iff_nil in H0|]. bind_step H. destruct x as [ws hs].
  unfold traceBlocks in E. bind_step E. destruct x as [ws' needed]. exists ws', needed.
  assert (Hquiet : existsb (window_unexplained f (rb_Events base) from to) ws' = false -> forallb (window_explained f (rb_Events base) from to) ws' = true).
  { clear. induction ws' as [|w l IH]; [done|]. cbn. intros [H1 H2]%orb_false_iff. rewrite IH by done. rewrite andb_true_r.
    unfold window_unexplained in H1. unfold window_explained. destruct (bw_eoa (snd w)), (bw_nonceUnchanged (snd w)); cbn in *; try done. by destruct (_ =? _). }
  assert (Hsame : base = with_events base (rb_Events base)) by (by destruct base).
  destruct needed; cbn [negb] in E.
  - bind_step E. injection E as <- <-. destruct x as [|h hs'].
    + injection H as <-. exists []. destruct (locate_finds f probes annotate (rb_Events base) _ from to [] Hf Hle E1 eq_refl) as [w Hw].
      rewrite E0 in Hw. discriminate Hw.
    + bind_step H. bind_step H. destruct x as [safe1 c1], x0 as [safe2 c2]. cbn [fst snd] in H.
      destruct (decide (c1 = c2)) as [->|Hd]; [rewrite bool_decide_true in H by done|rewrite bool_decide_false in H by done; done]. cbn [negb] in H.
      bind_step H. destruct (forallb _ ws') eqn:Ef; [|done]. cbn [negb] in H. injection H as <-. exists x. cbn [rb_Events with_events].
      split_and!; [done|symmetry; apply sort_by_perm|done| |].
      * rewrite forallb_forall in Ef |- *. intros w Hw. specialize (Ef w Hw). unfold window_explained in *.
        by rewrite (inflows_perm _ _ _ _ _ _ (Permutation_sym (sort_by_perm internal_order _))).
      * right. by exists (h :: hs'), safe1, safe2, c2.
  - injection E as <- <-. injection H as <-. exists []. rewrite app_nil_r. split_and!; [done|done|done| |by left].
    apply Hquiet. symmetry. eapply balanceWindows_ok; [|exact E0]. lia.
Qed.

(** C28: The books of a returned range balance: for every watched account that is
    no contract and sent nothing in the range, the change of its balance is
    exactly the sum of the native transfers the range reports to it. *)
Theorem internal_scan_balances base from to batch' address st en :
  rb_Blocks base <> [] -> 0 < from -> from <= to ->
  Internal_ScanRange f probes tracers annotate trace_evidence sha256 (Ok base) from to = Ok batch' ->
  address ∈ fi_watched f -> accountState (fst probes) address (from - 1) = Ok st -> accountState (fst probes) address to = Ok en ->
  as_code st = "0x" -> as_code en = "0x" -> as_nonce st = as_nonce en ->
  as_balance en - as_balance st = nativeInflows (rb_Events batch') address (fi_nativeAssetID f) from to.
Proof.
  intros Hne Hf Hle H Ha Hst Hen Hc1 Hc2 Hn. destruct (internal_scan_inv base from to batch' Hne Hf Hle H) as (ws & needed & internal & Hw & _ & _ & Hex & _).
  apply balanceWindows_ok in Hw as [Hall _]; [|lia]. apply address_watched, list_elem_of_In in Ha.
  destruct (Forall2_elem_l _ _ _ _ Hall Ha) as ([a w] & Hin & Hfst & Hbw). cbn in Hfst, Hbw. subst a.
  rewrite forallb_forall in Hex. apply list_elem_of_In in Hin. specialize (Hex _ Hin).
  destruct (balance_window_ok _ _ _ _ _ _ Hbw) as (st' & en' & Hst' & Hen' & ->). rewrite Hst in Hst'. injection Hst' as <-. rewrite Hen in Hen'. injection Hen' as <-.
  unfold window_explained in Hex. cbn [fst snd bw_eoa bw_nonceUnchanged bw_delta] in Hex. rewrite Hc1, Hc2, Hn, Z.eqb_refl in Hex. cbn in Hex. by apply Z.eqb_eq in Hex.
Qed.
End scan.

(** ** Provenance *)

Section provenance.
Context (f : EVMInternalFilter) (probes : ProbeNode * ProbeNode) (tracers : TracerNode * TracerNode)
  (annotate : string -> provider_error -> provider_error) (trace_evidence : internalTraceCandidate -> string) (sha256 : string -> string).

(** A successful receipt of the candidate's transaction in the candidate's block. *)
Definition confirmed (probe : ProbeNode) (c : internalTraceCandidate) (b : Block) : Prop :=
  exists receipt, pb_getReceipt probe (tc_TransactionHash c) = Ok receipt /\ ec_Status receipt = "0x1" /\
    parseHexUint64 (ec_BlockNumber receipt) = Some (tc_Height c) /\ lower_ascii (ec_TransactionHash receipt) = tc_TransactionHash c /\
    lower_ascii (ec_BlockHash receipt) = bl_Hash b.

Lemma confirmed_by_ok index probe c b u : confirmed_by annotate index probe c b = Ok u -> confirmed probe c b.
Proof.
  unfold confirmed_by. intros H. bind_step H. apply lift_err_ok in E. destruct (receipt_confirms c b x) eqn:Er; [|done].
  unfold receipt_confirms in Er. rewrite !andb_true_iff, bool_decide_eq_true in Er. destruct Er as (((H1 & H2%String.eqb_eq) & H3%fold_eq_iff) & H4%fold_eq_iff).
  exists x. split_and!; done.
Qed.

(** A candidate comes from a page of its tracer, filtered by the watched set. *)
Lemma trace_candidate_ok watched start end_ t c : trace_candidate watched start end_ t = Ok (Some c) ->
  tc_To c ∈ watched /\ canonical_word 42 (tc_To c) /\ canonical_word 66 (tc_BlockHash c) /\ canonical_word 66 (tc_TransactionHash c) /\ start <= tc_Height c <= end_.
Proof.
  unfold trace_candidate. destruct (_ || _); [done|]. destruct ((fl_BlockNumber t <? start) || (end_ <? fl_BlockNumber t)) eqn:Eb; [done|].
  apply orb_false_iff in Eb as [B1%Z.ltb_ge B2%Z.ltb_ge]. intros H. bind_step H.
  destruct (decide (x ∈ watched)) as [Hw|Hw]; [rewrite bool_decide_true in H by done|rewrite bool_decide_false in H by done; done]. cbn [negb] in H.
  bind_step H. bind_step H. destruct (x1 == "0"); [done|]. bind_step H. bind_step H. injection H as <-. apply of_option_ok in E, E2, E3. cbn.
  split_and!; [done|by eapply address_canonical|by eapply hash_canonical|by eapply hash_canonical|lia|lia].
Qed.

Lemma omap_id_elem {A} (l : list (option A)) x : x ∈ omap id l -> Some x ∈ l.
Proof. rewrite list_elem_of_omap. intros (o & Ho & Hx). cbn in Hx. by subst o. Qed.

Lemma trace_pages_ok fuel tracer watched start end_ offset cs c : trace_pages fuel tracer watched start end_ offset = Ok cs -> c ∈ cs ->
  exists t, trace_candidate watched start end_ t = Ok (Some c).
Proof.
  revert offset cs. induction fuel as [|n IH]; intros offset cs H Hc; cbn [trace_pages] in H; [done|]. bind_step H. bind_step H.
  assert (Hpage : c ∈ omap id x0 -> exists t, trace_candidate watched start end_ t = Ok (Some c)).
  { intros Hin%omap_id_elem. apply traverse_ok in E0. destruct (Forall2_elem_r _ _ _ _ E0 Hin) as (t & _ & Ht). by exists t. }
  destruct (Nat.ltb _ _); [injection H as <-; by apply Hpage|]. destruct (_ <? _); [done|]. bind_step H. injection H as <-.
  apply elem_of_app in Hc as [Hc|Hc]; [by apply Hpage|by eapply IH].
Qed.

Lemma trace_windows_ok fuel tracer watched start to cs c : trace_windows fuel tracer watched start to = Ok cs -> c ∈ cs ->
  exists t start' end_, start <= start' /\ end_ <= to /\ trace_candidate watched start' end_ t = Ok (Some c).
Proof.
  revert start cs. induction fuel as [|n IH]; intros start cs H Hc; cbn [trace_windows] in H; [injection H as <-; by apply not_elem_of_nil in Hc|].
  bind_step H.
  assert (Hhere : c ∈ x -> exists t start' end_, start <= start' /\ end_ <= to /\ trace_candidate watched start' end_ t = Ok (Some c)).
  { intros Hin. destruct (trace_pages_ok _ _ _ _ _ _ _ _ E Hin) as [t Ht]. exists t, start, (Z.min (start + 3) to). split_and!; [lia|lia|done]. }
  destruct (Z.eqb_spec (Z.min (start + 3) to) to); [injection H as <-; by apply Hhere|]. bind_step H. injection H as <-.
  apply elem_of_app in Hc as [Hc|Hc]; [by apply Hhere|]. destruct (IH _ _ E0 Hc) as (t & s' & e' & H1 & H2 & H3). exists t, s', e'. split_and!; [lia|lia|done].
Qed.

Lemma observe_ok index tracer to hs safe cs c : observe_traces f annotate index tracer to hs = Ok (safe, cs) -> c ∈ cs ->
  to <= safe /\ tc_To c ∈ fi_watched f /\ tc_Height c ∈ hs /\ canonical_word 42 (tc_To c) /\ canonical_word 66 (tc_BlockHash c) /\ canonical_word 66 (tc_TransactionHash c).
Proof.
  unfold observe_traces. intros H Hc. bind_step H. destruct x as [|head [|]]; try done.
  destruct ((ph_ChainID head != fi_chainID f) || (ph_GenesisHash head != fi_genesis f) || (ph_SafeHeight head <? to)) eqn:Eh; [done|].
  apply orb_false_iff in Eh as [_ Hsafe%Z.ltb_ge]. bind_step H. injection H as <- <-. split; [done|].
  apply list_elem_of_In, in_concat in Hc as (page & Hp%list_elem_of_In & Hc%list_elem_of_In). apply traverse_ok in E0.
  destruct (Forall2_elem_r _ _ _ _ E0 Hp) as (h & Hh & Hpg). apply lift_err_ok in Hpg. unfold filteredInternalTraces in Hpg. destruct (_ || _); [done|].
  bind_step Hpg. injection Hpg as <-. apply list_elem_of_In, sort_by_In, list_elem_of_In in Hc.
  destruct (trace_windows_ok _ _ _ _ _ _ _ E1 Hc) as (t & s' & e' & H1 & H2 & Ht). apply trace_candidate_ok in Ht as (T1 & T2 & T3 & T4 & T5).
  split_and!; try done. by assert (tc_Height c = h) as -> by lia.
Qed.

(** What an internal event says. *)
Record internal_of (b : Block) (safe : Z) (c : internalTraceCandidate) (e : TransferEvent) : Prop := mk_internal_of {
  io_kind : te_Kind e = "native_internal";
  io_block : te_BlockHeight e = bl_Height b /\ te_BlockHash e = bl_Hash b /\ te_Status e = TransferFinalized;
  io_to : ei_ToAddress (te_Identity e) = tc_To c /\ ei_AssetID (te_Identity e) = TrimSpace (fi_nativeAssetID f);
  io_tx : ei_TransactionID (te_Identity e) = tc_TransactionHash c /\ ei_EventIndex (te_Identity e) = tc_EventIndex c;
  io_amount : Parse (tc_Amount c) = Ok (te_Amount e) /\ 0 < te_Amount e < amount_limit }.

Lemma internal_event_ok b safe c e : internal_event f probes annotate trace_evidence sha256 b safe c = Ok e ->
  bl_Height b = tc_Height c -> canonical_word 66 (bl_Hash b) -> canonical_word 42 (tc_To c) -> canonical_word 66 (tc_TransactionHash c) ->
  confirmed (fst probes) c b /\ confirmed (snd probes) c b /\ internal_of b safe c e.
Proof.
  unfold internal_event. intros H Hh (_ & Hb1 & _ & Hb2 & _) (_ & Ht1 & _ & Ht2 & _) (_ & _ & _ & Hx & _). bind_step H. bind_step H. bind_step H.
  destruct (EVM_Normalize _ _ _ _ _) as [[|ev [|]]|] eqn:En; try done. destruct ((te_Kind ev != "native_internal") || (ei_EventIndex (te_Identity ev) != tc_EventIndex c)) eqn:Ek; [done|].
  injection H as <-. apply orb_false_iff in Ek as [K1 K2]. apply negb_false_iff, String.eqb_eq in K1, K2.
  split; [by eapply confirmed_by_ok|]. split; [by eapply confirmed_by_ok|].
  rewrite (proj1 (adapters_normalize sha256 None (fi_chainID f) (tc_TransactionHash c))) in En.
  destruct (adapter_answers sha256 _ _ _ _ En) as (v & [= <-] & [_ _ Hfacts Htx _]). specialize (Hfacts eq_refl). cbn [rp_facts evm_report] in Hfacts.
  apply Forall_cons in Htx as [(_ & Ht & Ham) _]. cbn [rp_spelling evm_report] in Ht. rewrite Hx in Ht.
  unfold evm_facts, trace_receipt in Hfacts. cbn [er_Native er_Logs er_Traces List.filter map app et_Success et_Amount andb] in Hfacts.
  destruct (tc_Amount c != "0"); [|by inversion Hfacts]. cbn [map] in Hfacts. apply Forall2_cons in Hfacts as [Hf _].
  destruct Hf as [Hid _ [Hp _] (B1 & B2 & _) _ (S1 & _) _]. cbn in Hp, B1, B2, S1. constructor.
  - exact K1.
  - rewrite B1, B2, S1, Hb2. split_and!; [done|exact Hb1|done].
  - rewrite Hid. cbn. rewrite Ht2. done.
  - done.
  - done.
Qed.

Lemma internal_events_ok blocks safe seen cs es e : internal_events f probes annotate trace_evidence sha256 blocks safe seen cs = Ok es -> e ∈ es ->
  exists c b, c ∈ cs /\ blocks !! tc_Height c = Some b /\ bl_Hash b = tc_BlockHash c /\ internal_event f probes annotate trace_evidence sha256 b safe c = Ok e.
Proof.
  revert seen es. induction cs as [|c cs IH]; intros seen es H He; cbn [internal_events] in H; [injection H as <-; by apply not_elem_of_nil in He|].
  bind_step H. destruct (existsb _ seen); [done|]. bind_step H. bind_step H. injection H as <-. apply elem_of_cons in He as [->|He].
  - unfold bound_block in E. destruct (blocks !! tc_Height c) as [b|] eqn:Eb; [|done]. destruct (String.eqb_spec (bl_Hash b) (tc_BlockHash c)); [|done].
    injection E as <-. exists c, b. split_and!; [by left|done|done|done].
  - destruct (IH _ _ E1 He) as (c' & b & Hc & Hrest). exists c', b. split; [by right|exact Hrest].
Qed.

(** A returned range holds what the ordinary scan found, and otherwise only
    internal transfers to watched addresses that both tracers reported alike for
    a located block, in a block of the range with that very hash, and for which
    both probes hold a successful receipt of the transaction in that block. *)
Theorem internal_transfers_confirmed base from to batch' :
  rb_Blocks base <> [] -> 0 < from -> from <= to ->
  Internal_ScanRange f probes tracers annotate trace_evidence sha256 (Ok base) from to = Ok batch' ->
  rb_Blocks batch' = rb_Blocks base /\ (forall e, e ∈ rb_Events base -> e ∈ rb_Events batch') /\
  forall e, e ∈ rb_Events batch' -> e ∈ rb_Events base \/
    exists c b hs safe safe1 safe2 cs, b ∈ rb_Blocks base /\ bl_Height b = tc_Height c /\ bl_Hash b = tc_BlockHash c /\ tc_To c ∈ fi_watched f /\
      c ∈ cs /\ observe_traces f annotate "1" (fst tracers) to hs = Ok (safe1, cs) /\ observe_traces f annotate "2" (snd tracers) to hs = Ok (safe2, cs) /\
      confirmed (fst probes) c b /\ confirmed (snd probes) c b /\ internal_of b safe c e.
Proof.
  intros Hne Hf Hle H. destruct (internal_scan_inv f probes tracers annotate trace_evidence sha256 base from to batch' Hne Hf Hle H)
    as (ws & needed & internal & _ & Hperm & Hb & _ & Hint). split; [by rewrite Hb|]. split; [intros e He; rewrite Hperm; apply elem_of_app; by left|].
  intros e He. rewrite Hperm in He. apply elem_of_app in He as [He|He]; [by left|right].
  destruct Hint as [->|(hs & safe1 & safe2 & cs & O1 & O2 & Hev)]; [by apply not_elem_of_nil in He|].
  destruct (internal_events_ok _ _ _ _ _ _ Hev He) as (c & b & Hc & [Hbin Hbh]%block_map_spec & Hhash & Hie).
  destruct (observe_ok _ _ _ _ _ _ _ O1 Hc) as (_ & Hw & _ & C1 & C2 & C3). rewrite <- Hhash in C2.
  destruct (internal_event_ok _ _ _ _ Hie Hbh C2 C1 C3) as (Q1 & Q2 & Q3).
  exists c, b, hs, (Z.min safe1 safe2), safe1, safe2, cs. by split_and!.
Qed.
End provenance.

(** ** The bisection is complete *)

Section bisection.
Context (f : EVMInternalFilter) (probes : ProbeNode * ProbeNode) (annotate : string -> provider_error -> provider_error)
  (events : list TransferEvent) (from to : Z) (acct : string -> Z -> evmAccountState).
Hypothesis from_pos : 0 < from.
(** Both probes answer with the state of the account. *)
Hypothesis probed : forall a h, a ∈ fi_watched f -> from - 1 <= h <= to ->
  accountState (fst probes) a h = Ok (acct a h) /\ accountState (snd probes) a h = Ok (acct a h).
(** The rules of the chain for an account: the nonce grows, without it no code
    appears, and an account that is no contract and sends nothing receives at
    least what the scan saw. *)
Hypothesis nonce_grows : forall a h, a ∈ fi_watched f -> from <= h <= to -> as_nonce (acct a (h - 1)) <= as_nonce (acct a h).
Hypothesis code_stays : forall a h, a ∈ fi_watched f -> from <= h <= to ->
  as_nonce (acct a (h - 1)) = as_nonce (acct a h) -> as_code (acct a (h - 1)) = "0x" -> as_code (acct a h) = "0x".
Hypothesis only_receives : forall a h, a ∈ fi_watched f -> from <= h <= to ->
  as_code (acct a (h - 1)) = "0x" -> as_code (acct a h) = "0x" -> as_nonce (acct a (h - 1)) = as_nonce (acct a h) ->
  nativeInflows events a (fi_nativeAssetID f) h h <= as_balance (acct a h) - as_balance (acct a (h - 1)).

Definition window_of (a : string) (first last : Z) : evmBalanceWindow :=
  mkBalanceWindow (as_balance (acct a last) - as_balance (acct a (first - 1))) (as_nonce (acct a (first - 1)) =? as_nonce (acct a last))
    ((as_code (acct a (first - 1)) == "0x") && (as_code (acct a last) == "0x")).
Definition moved (a : string) (first last : Z) : bool := window_unexplained f events first last (a, window_of a first last).
Abbreviation addresses := (sort_by str_less (elements (fi_watched f))) (only parsing).

Lemma state_eq_refl x : state_eq x x = true.
Proof. unfold state_eq. by rewrite !Z.eqb_refl, String.eqb_refl. Qed.

Lemma windows_truth first last : from <= first -> first <= last <= to ->
  balanceWindows f probes annotate first last events =
    Ok (map (fun a => (a, window_of a first last)) addresses, existsb (fun a => moved a first last) addresses).
Proof.
  intros H1 H2. unfold balanceWindows. rewrite (proj2 (Z.eqb_neq first 0)) by lia.
  assert (Ht : traverse (fun address => window ← balance_window probes annotate address first last; Ok (address, window)) addresses =
    Ok (map (fun a => (a, window_of a first last)) addresses)).
  { apply traverse_ok. apply Forall2_fmap_r, Forall_Forall2_diag, Forall_forall. intros a Ha%list_elem_of_In%address_watched. cbn.
    unfold balance_window, edges. destruct (probed a (first - 1) Ha ltac:(lia)) as [-> ->]. destruct (probed a last Ha ltac:(lia)) as [-> ->]. cbn.
    by rewrite !state_eq_refl. }
  rewrite Ht. cbn [mbind result_bind]. f_equal. f_equal. unfold moved. generalize addresses as l. intros l. induction l as [|a l IH]; [done|]. cbn [map existsb]. by rewrite IH.
Qed.

Lemma moved_false a first last : moved a first last = false <->
  as_code (acct a (first - 1)) = "0x" /\ as_code (acct a last) = "0x" /\ as_nonce (acct a (first - 1)) = as_nonce (acct a last) /\
  as_balance (acct a last) - as_balance (acct a (first - 1)) = nativeInflows events a (fi_nativeAssetID f) first last.
Proof.
  unfold moved, window_unexplained. cbn [fst snd window_of bw_eoa bw_nonceUnchanged bw_delta].
  rewrite !orb_false_iff, !negb_false_iff, andb_true_iff, !String.eqb_eq, !Z.eqb_eq. tauto.
Qed.

(** An account that is quiet over a window is quiet in each of its blocks. *)
Lemma quiet_inside a first last : a ∈ fi_watched f -> from <= first -> last <= to -> moved a first last = false ->
  forall h, first <= h <= last -> moved a h h = false.
Proof.
  intros Ha Hfirst Hlast (C1 & C2 & N & B)%moved_false.
  assert (Hmono : forall k m, first - 1 <= m -> m + Z.of_nat k <= last -> as_nonce (acct a m) <= as_nonce (acct a (m + Z.of_nat k))).
  { induction k as [|k IH]; intros m Hm1 Hm2; [by rewrite Z.add_0_r|]. etrans; [apply IH; lia|].
    pose proof (nonce_grows a (m + Z.of_nat (S k)) Ha ltac:(lia)) as Hg. by replace (m + Z.of_nat (S k) - 1) with (m + Z.of_nat k) in Hg by lia. }
  assert (Hnonce : forall m, first - 1 <= m <= last -> as_nonce (acct a m) = as_nonce (acct a (first - 1))).
  { intros m Hm. pose proof (Hmono (Z.to_nat (m - (first - 1))) (first - 1) ltac:(lia) ltac:(lia)) as H1. pose proof (Hmono (Z.to_nat (last - m)) m ltac:(lia) ltac:(lia)) as H2.
    replace (first - 1 + Z.of_nat (Z.to_nat (m - (first - 1)))) with m in H1 by lia. replace (m + Z.of_nat (Z.to_nat (last - m))) with last in H2 by lia. lia. }
  assert (Hcode : forall k, first - 1 + Z.of_nat k <= last -> as_code (acct a (first - 1 + Z.of_nat k)) = "0x").
  { induction k as [|k IH]; intros Hk; [by rewrite Z.add_0_r|]. pose proof (code_stays a (first - 1 + Z.of_nat (S k)) Ha ltac:(lia)) as Hc.
    replace (first - 1 + Z.of_nat (S k) - 1) with (first - 1 + Z.of_nat k) in Hc by lia. apply Hc; [|apply IH; lia].
    rewrite (Hnonce (first - 1 + Z.of_nat k)), (Hnonce (first - 1 + Z.of_nat (S k))) by lia. done. }
  assert (Hcode' : forall m, first - 1 <= m <= last -> as_code (acct a m) = "0x").
  { intros m Hm. pose proof (Hcode (Z.to_nat (m - (first - 1))) ltac:(lia)) as Hc. by replace (first - 1 + Z.of_nat (Z.to_nat (m - (first - 1)))) with m in Hc by lia. }
  set (gain := fun m => as_balance (acct a m) - as_balance (acct a (first - 1)) - nativeInflows events a (fi_nativeAssetID f) first m).
  assert (Hstep : forall m, first <= m <= last -> gain m - gain (m - 1) = as_balance (acct a m) - as_balance (acct a (m - 1)) - nativeInflows events a (fi_nativeAssetID f) m m).
  { intros m Hm. unfold gain. rewrite (inflows_add events a (fi_nativeAssetID f) first (m - 1) m) by lia. replace (m - 1 + 1) with m by lia. lia. }
  assert (Hup : forall m, first <= m <= last -> gain (m - 1) <= gain m).
  { intros m Hm. pose proof (Hstep m Hm). pose proof (only_receives a m Ha ltac:(lia) (Hcode' (m - 1) ltac:(lia)) (Hcode' m ltac:(lia))) as Hr.
    rewrite (Hnonce (m - 1)), (Hnonce m) in Hr by lia. specialize (Hr eq_refl). lia. }
  assert (Hchain : forall k m, first - 1 <= m -> m + Z.of_nat k <= last -> gain m <= gain (m + Z.of_nat k)).
  { induction k as [|k IH]; intros m Hm1 Hm2; [by rewrite Z.add_0_r|]. etrans; [apply IH; lia|]. pose proof (Hup (m + Z.of_nat (S k)) ltac:(lia)) as Hu.
    by replace (m + Z.of_nat (S k) - 1) with (m + Z.of_nat k) in Hu by lia. }
  assert (H0 : gain (first - 1) = 0) by (unfold gain; rewrite inflows_none by lia; lia). assert (H9 : gain last = 0) by (unfold gain; lia).
  assert (Hzero : forall m, first - 1 <= m <= last -> gain m = 0).
  { intros m Hm. pose proof (Hchain (Z.to_nat (m - (first - 1))) (first - 1) ltac:(lia) ltac:(lia)) as G1. pose proof (Hchain (Z.to_nat (last - m)) m ltac:(lia) ltac:(lia)) as G2.
    replace (first - 1 + Z.of_nat (Z.to_nat (m - (first - 1)))) with m in G1 by lia. replace (m + Z.of_nat (Z.to_nat (last - m))) with last in G2 by lia. lia. }
  intros h Hh. apply moved_false. split_and!; [apply Hcode'; lia|apply Hcode'; lia|by rewrite (Hnonce (h - 1)), (Hnonce h) by lia|].
  pose proof (Hstep h Hh). rewrite (Hzero h), (Hzero (h - 1)) in H by lia. lia.
Qed.

Definition unexplained_block (h : Z) : bool := existsb (fun a => moved a h h) addresses.

Lemma heights_app first mid last : first <= mid < last -> heights first last = heights first mid ++ heights (mid + 1) last.
Proof.
  intros H. rewrite !heights_seqZ. replace (last - first + 1) with ((mid - first + 1) + (last - (mid + 1) + 1)) by lia. rewrite seqZ_app by lia.
  f_equal. f_equal. lia.
Qed.

Lemma quiet_blocks first last : from <= first -> last <= to -> existsb (fun a => moved a first last) addresses = false ->
  List.filter unexplained_block (heights first last) = [].
Proof.
  intros H1 H2 Hq. assert (Hall : forall h, In h (heights first last) -> unexplained_block h = false).
  { intros h Hh%heights_In. unfold unexplained_block. destruct (existsb (fun a => moved a h h) addresses) eqn:E; [|done].
    apply existsb_exists in E as (a & Ha & Hm). assert (moved a first last = false) as Hf.
    { destruct (moved a first last) eqn:Em; [|done]. rewrite <- Hq. symmetry. apply existsb_exists. by exists a. }
    rewrite (quiet_inside a first last (proj1 (address_watched f a) Ha) H1 H2 Hf h Hh) in Hm. done. }
  revert Hall. generalize (heights first last) as l. intros l Hl. induction l as [|h l IH]; [done|]. cbn. rewrite Hl by (by left). apply IH. intros k Hk. apply Hl. by right.
Qed.

Lemma locate_spec fuel first last : from <= first -> first <= last <= to -> last - first + 1 <= 2 ^ Z.of_nat fuel ->
  locate f probes annotate (S fuel) events first last = Ok (List.filter unexplained_block (heights first last)).
Proof.
  revert first last. induction fuel as [|n IH]; intros first last H1 H2 Hfuel.
  - cbn in Hfuel. assert (last = first) as -> by lia. cbn [locate]. rewrite windows_truth by lia. cbn [mbind result_bind].
    destruct (existsb (fun a => moved a first first) addresses) eqn:Ex; cbn [negb]; [|by rewrite quiet_blocks by (done || lia)].
    rewrite Z.eqb_refl, heights_cons by lia. assert (heights (first + 1) first = []) as -> by (rewrite heights_seqZ; apply seqZ_nil; lia).
    cbn [List.filter]. unfold unexplained_block. by rewrite Ex.
  - remember (S n) as m eqn:Em. cbn [locate]. rewrite windows_truth by lia. cbn [mbind result_bind].
    destruct (existsb (fun a => moved a first last) addresses) eqn:Ex; cbn [negb]; [|by rewrite quiet_blocks by (done || lia)].
    destruct (Z.eqb_spec first last) as [<-|Hne].
    + rewrite heights_cons by lia. assert (heights (first + 1) first = []) as -> by (rewrite heights_seqZ; apply seqZ_nil; lia).
      cbn [List.filter]. unfold unexplained_block. by rewrite Ex.
    + set (mid := first + (last - first) / 2). pose proof (Z.div_mod (last - first) 2 ltac:(lia)) as Hd. pose proof (Z.mod_pos_bound (last - first) 2 ltac:(lia)) as Hm.
      rewrite Em, Nat2Z.inj_succ, Z.pow_succ_r in Hfuel by lia. subst m.
      assert (first <= mid < last) as Hmid by (unfold mid; lia). rewrite (heights_app first mid last Hmid), List.filter_app.
      rewrite (IH first mid), (IH (mid + 1) last) by (unfold mid; lia). done.
Qed.

(** With probes that report the accounts and the chain's rules for accounts
    that only receive, the bisection ends and locates exactly the blocks in
    which some watched account changed without explanation, in order: an account
    whose window is explained is explained in every block of it, so that no
    internal transfer hides behind another movement. *)
Theorem locates_every_movement : from <= to ->
  exists windows, traceBlocks f probes annotate from to events = Ok (windows, List.filter unexplained_block (heights from to)).
Proof.
  intros Hle. unfold traceBlocks. rewrite windows_truth by lia. cbn [mbind result_bind].
  destruct (existsb (fun a => moved a from to) addresses) eqn:Ex; cbn [negb].
  - rewrite locate_spec; [cbn [mbind result_bind]; by eexists|lia|lia|].
    rewrite Z2Nat.id by apply Z.log2_up_nonneg. destruct (Z.eq_dec (to - from + 1) 1) as [->|Hne]; [done|]. apply Z.log2_up_spec. lia.
  - rewrite quiet_blocks by (done || lia). by eexists.
Qed.
End bisection.

(** ** Concrete filters *)

Definition sample_filter : EVMInternalFilter :=
  mkInternalFilter "bnb" 18 {[wallet]} "eip155:56" other_hash ("trace-a", "trace-b") ("rpc-a", "rpc-b").
(** The wallet holds 7 from block 10 on; [code] is what the account carries. *)
Definition sample_probe (code : string) (balance : string -> string) : ProbeNode :=
  mkProbeNode (fun _ tag => Ok (balance tag)) (fun _ _ => Ok "0x0") (fun _ _ => Ok code) (fun _ => Ok sample_evm_receipt).
Definition sample_trace (callType : string) : filteredEVMTrace :=
  mkFilteredTrace payer wallet "0x7" callType sample_block_hash 10 "" [0; 1] sample_tx_hash "call".
Definition sample_tracer (callType : string) : TracerNode :=
  mkTracerNode (Ok [mkHead "trace" "eip155:56" other_hash 20 0])
    (fun start _ _ _ => Ok (if start == hexQuantity 10 then [sample_trace callType] else [])).
Definition quiet_base : RangeBatch :=
  mkBatch 9 10 [mkBlock 9 other_hash "0x" (UnixTime 1700000000); mkBlock 10 sample_block_hash other_hash (UnixTime 1700000003)] [] [] false false false.

Definition seven_at_ten (tag : string) : string := if tag == hexQuantity 10 then "0x7" else "0x0".
Definition eoa_probe : ProbeNode := sample_probe "0x" seven_at_ten.
Definition internal_run (probe : ProbeNode) (callType : string) : result provider_error RangeBatch :=
  Internal_ScanRange sample_filter (probe, probe) (sample_tracer callType, sample_tracer callType) (fun _ e => e) tc_Amount sample_sha (Ok quiet_base) 9 10.
Definition internal_batch : RangeBatch := match internal_run eoa_probe "call" with Ok b => b | Err _ => quiet_base end.

Lemma internal_scan_balances_witness :
  internal_run eoa_probe "call" = Ok internal_batch /\ map te_Amount (rb_Events internal_batch) = [7] /\
  as_balance (mkAccountState 7 0 "0x") - as_balance (mkAccountState 0 0 "0x") = nativeInflows (rb_Events internal_batch) wallet "bnb" 9 10.
Proof.
  assert (Hr : internal_run eoa_probe "call" = Ok internal_batch) by (vm_compute; reflexivity).
  split; [exact Hr|]. split; [vm_compute; reflexivity|].
  apply (internal_scan_balances sample_filter (eoa_probe, eoa_probe) (sample_tracer "call", sample_tracer "call") (fun _ e => e) tc_Amount sample_sha
    quiet_base 9 10 internal_batch wallet (mkAccountState 0 0 "0x") (mkAccountState 7 0 "0x")).
  - discriminate.
  - lia.
  - lia.
  - exact Hr.
  - cbn [fi_watched sample_filter]. by apply elem_of_singleton.
  - vm_compute. reflexivity.
  - vm_compute. reflexivity.
  - reflexivity.
  - reflexivity.
  - reflexivity.
Defined.

Lemma internal_transfers_confirmed_witness :
  internal_run eoa_probe "call" = Ok internal_batch /\ rb_Blocks internal_batch = rb_Blocks quiet_base.
Proof.
  assert (Hr : internal_run eoa_probe "call" = Ok internal_batch) by (vm_compute; reflexivity). split; [exact Hr|].
  apply (internal_transfers_confirmed sample_filter (eoa_probe, eoa_probe) (sample_tracer "call", sample_tracer "call") (fun _ e => e) tc_Amount sample_sha
    quiet_base 9 10 internal_batch); [discriminate|lia|lia|exact Hr].
Defined.

Definition sample_acct (a : string) (h : Z) : evmAccountState := mkAccountState (if h =? 10 then 7 else 0) 0 "0x".

Lemma locates_every_movement_witness :
  List.filter (unexplained_block sample_filter [] sample_acct) (heights 9 10) = [10] /\
  exists windows, traceBlocks sample_filter (eoa_probe, eoa_probe) (fun _ e => e) 9 10 [] =
    Ok (windows, List.filter (unexplained_block sample_filter [] sample_acct) (heights 9 10)).
Proof.
  split; [vm_compute; reflexivity|].
  apply (locates_every_movement sample_filter (eoa_probe, eoa_probe) (fun _ e => e) [] 9 10 sample_acct); [lia| | | | |lia].
  - intros a h _ Hh. assert (h = 8 \/ h = 9 \/ h = 10) as [->|[->| ->]] by lia; split; vm_compute; reflexivity.
  - intros a h _ _. done.
  - done.
  - intros a h _ Hh _ _ _. assert (h = 9 \/ h = 10) as [->| ->] by lia; vm_compute; discriminate.
Defined.

(** A delegated call moves no value, but the traces only tell by the kind of the
    call, which is not read: a watched contract whose balance does not change is
    credited with the value of the frame that delegated to it. *)
Example delegatecall_is_credited :
  (map te_Amount <$> (rb_Events <$> internal_run (sample_probe "0x6000" (fun _ => "0x0")) "delegatecall")) = Ok [7].
Proof. vm_compute. reflexivity. Qed.
