(* ===== verification/Legacy.v ===== *)
(** * Legacy: internal/legacycompat (types.go, canonical.go)

    The boundary for merchants that still speak an older protocol. A request
    arrives as JSON or as a form; its fields are read strictly, the signed ones
    are put in one canonical text, and an MD5 of the text and the merchant's
    secret is compared with the signature. The exact conversion of decimal
    amounts is here too; the gateway itself is in LegacyGateway.v. *)

From Stdlib Require Import ZArith Lia Ascii String.
From stdpp Require Import base gmap list strings.
From S2P Require Import Prelude Text Numerals Encoding Money Chains Webhook.

(** ** Data (types.go) *)

Inductive legacy_error := LgErrInvalid | LgErrUnauthorized | LgErrNotFound | LgErrUnavailable | LgErrConflict.
#[export] Instance legacy_error_eq_dec : EqDecision legacy_error.
Proof. solve_decision. Defined.
Abbreviation lerr := (goerr legacy_error).

Definition ProtocolJSONMD5 : string := "json_md5".
Definition ProtocolFormMD5 : string := "form_md5".

Record LegacyCredential := mkLegacyCredential {
  lc_ConfigID : string; lc_CredentialVersionID : string; lc_CredentialVersion : Z; lc_Protocol : string; lc_PID : string;
  lc_TenantID : string; lc_MerchantID : string; lc_LegacySecretRef : string; lc_CallbackKeyID : string;
  lc_CoreKeyID : string; lc_CoreSecretRef : string; lc_Currency : string; lc_CurrencyScale : Z; lc_ChainID : string;
  lc_AssetID : string; lc_LegacyToken : string; lc_LegacyNetwork : string; lc_LegacyPaymentType : string;
  lc_IPAllowlist : list (option (IP * Z)); lc_Approved : bool; lc_Enabled : bool; lc_SunsetAt : Time }.

Record CreateRequest := mkCreateRequest {
  lr_Protocol : string; lr_PID : string; lr_OrderID : string; lr_Amount : string; lr_Currency : string;
  lr_Token : string; lr_Network : string; lr_PaymentType : string; lr_Name : string; lr_NotifyURL : string;
  lr_ReturnURL : string; lr_Signature : string; lr_Canonical : string; lr_CanonicalHash : string }.

Record LegacyMapping := mkLegacyMapping {
  lm_ConfigID : string; lm_CredentialVersionID : string; lm_Protocol : string; lm_TradeID : string;
  lm_OrderID : string; lm_IntentID : string; lm_RouteID : string; lm_RequestHash : string; lm_NotifyURL : string;
  lm_ReturnURL : string; lm_Name : string; lm_PaymentType : string; lm_Amount : string; lm_Currency : string;
  lm_Token : string; lm_Network : string; lm_CreatedAt : Time }.

Record CoreRoute := mkCoreRoute {
  kr_ID : string; kr_IntentID : string; kr_ChainID : string; kr_AssetID : string; kr_DisplayAmount : string;
  kr_Address : string; kr_Status : string; kr_ExpiresAt : Time; kr_PaymentURL : string; kr_Provider : string;
  kr_ExpectedAtomic : string }.

Record CoreIntent := mkCoreIntent {
  ki_ID : string; ki_CheckoutToken : string; ki_MerchantOrderID : string; ki_AmountMinor : string;
  ki_Currency : string; ki_CurrencyScale : Z; ki_Status : string; ki_ExpiresAt : Time; ki_Routes : list CoreRoute;
  ki_Metadata : string }.

Record CoreEvent := mkCoreEvent { ke_EventID : string; ke_EventType : string; ke_Sequence : Z; ke_Payload : string }.

Record CallbackJob := mkCallbackJob {
  kj_DeliveryID : string; kj_LeaseToken : string; kj_Fence : Z; kj_Protocol : string; kj_EventID : string;
  kj_TargetURL : string; kj_HTTPMethod : string; kj_ContentType : string; kj_FrozenBody : string;
  kj_CredentialVersionID : string; kj_CallbackKeyID : string; kj_AttemptCount : Z }.

Record EventSource := mkEventSource {
  ls_ConfigID : string; ls_Protocol : string; ls_PID : string; ls_CoreKeyID : string; ls_CoreSecretRef : string;
  ls_AfterSequence : Z }.

Record FrozenCallback := mkFrozenCallback {
  fz_HTTPMethod : string; fz_ContentType : string; fz_TargetURL : string; fz_Body : string;
  fz_CredentialVersionID : string; fz_CallbackKeyID : string }.

(** ** Text *)

Definition invalid {A} : result lerr A := Err (Sentinel LgErrInvalid).
Definition invalid_msg {A} (msg : string) : result lerr A := Err (Wrapped LgErrInvalid msg).

(** [strings.ContainsAny(s, chars)] for single bytes, given by their codes. *)
Definition ContainsAny (s : string) (chars : list Z) : bool :=
  negb (str_forall (fun c => negb (existsb (Z.eqb (code c)) chars)) s).

Definition cont_byte (c : ascii) : bool := Z.shiftr (code c) 6 =? 2.

(** [utf8.Valid]: shortest encodings only, no surrogates, nothing above U+10FFFF. *)
Fixpoint utf8_valid (s : string) : bool :=
  match s with
  | EmptyString => true
  | String a r =>
      let x := code a in
      if x <? 128 then utf8_valid r
      else match r with
           | String b r1 =>
               if (194 <=? x) && (x <=? 223) then cont_byte b && utf8_valid r1
               else match r1 with
                    | String c r2 =>
                        if (224 <=? x) && (x <=? 239) then
                          cont_byte b && cont_byte c && negb ((x =? 224) && (code b <? 160))
                          && negb ((x =? 237) && (159 <? code b)) && utf8_valid r2
                        else match r2 with
                             | String d r3 =>
                                 (240 <=? x) && (x <=? 244) && cont_byte b && cont_byte c && cont_byte d
                                 && negb ((x =? 240) && (code b <? 144)) && negb ((x =? 244) && (143 <? code b))
                                 && utf8_valid r3
                             | EmptyString => false
                             end
                    | EmptyString => false
                    end
           | EmptyString => false
           end
  end.

(** ** Query text (net/url and canonical.go) *)

Definition percent : ascii := chr 37.
Definition ampersand : ascii := chr 38.
Definition plus_byte : ascii := chr 43.
Definition space_byte : ascii := chr 32.

(** [url.QueryUnescape] *)
Fixpoint QueryUnescape (s : string) : option string :=
  match s with
  | EmptyString => Some ""
  | String c r =>
      if Ascii.eqb c percent then
        match r with
        | String h (String l r') =>
            match hex_value h, hex_value l, QueryUnescape r' with
            | Some x, Some y, Some t => Some (String (chr (16 * x + y)) t)
            | _, _, _ => None
            end
        | _ => None
        end
      else match QueryUnescape r with
           | Some t => Some (String (if Ascii.eqb c plus_byte then space_byte else c) t)
           | None => None
           end
  end.

(** One piece of a query between ampersands: nothing, an entry, or an error. *)
Definition query_piece (piece : string) : option (list (string * string)) :=
  if negb (str_no (chr 59) piece) then None
  else if piece == "" then Some []
  else
    let '(key, rest) := cut_at (Ascii.eqb equals_sign) piece in
    match QueryUnescape key, QueryUnescape (default "" rest) with
    | Some k, Some v => Some [(k, v)]
    | _, _ => None
    end.

Fixpoint query_pieces (pieces : list string) : option (list (string * string)) :=
  match pieces with
  | [] => Some []
  | p :: rest =>
      match query_piece p, query_pieces rest with
      | Some a, Some b => Some (a ++ b)
      | _, _ => None
      end
  end.

(** [url.ParseQuery]: the entries in the order of the text. *)
Definition ParseQuery (raw : string) : option (list (string * string)) := query_pieces (Split raw ampersand).

Definition isUpperHex (c : ascii) : bool := is_digit c || ((65 <=? code c) && (code c <=? 70)).
Definition isUnreserved (value : Z) : bool :=
  ((97 <=? value) && (value <=? 122)) || ((65 <=? value) && (value <=? 90)) || ((48 <=? value) && (value <=? 57))
  || existsb (Z.eqb value) [45; 46; 95; 126].

(** The loop of [validateEncoded]. *)
Fixpoint percent_ok (raw : string) : result lerr unit :=
  match raw with
  | EmptyString => Ok tt
  | String c r =>
      if negb (Ascii.eqb c percent) then percent_ok r
      else match r with
           | String h (String l r') =>
               if negb (isUpperHex h) || negb (isUpperHex l) then invalid_msg "malformed percent encoding"
               else if isUnreserved (16 * default 0 (hex_value h) + default 0 (hex_value l))
                    then invalid_msg "overencoded unreserved byte"
                    else percent_ok r'
           | _ => invalid_msg "malformed percent encoding"
           end
  end.

Definition validateEncoded (raw : string) : result lerr unit :=
  if ContainsAny raw [0; 13; 10; 35] then invalid else percent_ok raw.

Definition MaxLegacyBodyBytes : Z := 65536.

(** Whether every key of the parsed query has one value. *)
Definition single_keys (entries : list (string * string)) : bool :=
  forallb (fun e => (e.1 != "") && (length (filter (fun e' => e'.1 = e.1) entries) =? 1)%nat) entries.

Definition parseEncoded (raw : string) : result lerr (gmap string string) :=
  if (len raw >? MaxLegacyBodyBytes) || negb (utf8_valid raw) then invalid
  else if len raw =? 0 then Ok ∅
  else
    _ ← validateEncoded raw;
    match ParseQuery raw with
    | None => invalid
    | Some parsed => if single_keys parsed then Ok (list_to_map parsed) else invalid_msg "duplicate field"
    end.

(** ** JSON objects *)

(** A scalar as [decoder.Decode] gives it with [UseNumber], and the tokens of a
    decoder up to the end of the input ([JFault] where it fails). *)
Inductive jscalar := JText (s : string) | JNumber (literal : string) | JOther.
Inductive jtoken := JOpenBrace | JCloseBrace | JKey (s : string) | JValue (v : jscalar) | JFault.

Section requests.
(** The tokens of a JSON text; [strconv.ParseFloat] of a literal with a finite
    result, printed back by [FormatFloat(f, 'f', -1, 64)]; the hashes; and the
    Unicode case mappings of the strings package. *)
Context (tokenize : string -> list jtoken) (float_text : string -> option string)
  (sha256 md5 : string -> string) (ToUpper ToLower : string -> string).

Fixpoint object_loop (tokens : list jtoken) (values : gmap string string) : result lerr (gmap string string) :=
  match tokens with
  | [JCloseBrace] => Ok values
  | JKey key :: rest =>
      if key == "" then invalid
      else match values !! key with
           | Some _ => invalid_msg "duplicate field"
           | None =>
               match rest with
               | JValue (JText s) :: rest' => object_loop rest' (<[key := s]> values)
               | JValue (JNumber literal) :: rest' =>
                   match float_text literal with
                   | None => invalid
                   | Some canonical =>
                       if literal != canonical then invalid_msg "noncanonical JSON number"
                       else object_loop rest' (<[key := canonical]> values)
                   end
               | JValue JOther :: _ => invalid_msg "scalar strings/numbers only"
               | _ => invalid
               end
           end
  | _ => invalid
  end.

Definition parseJSONObject (raw : string) : result lerr (gmap string string) :=
  if (len raw =? 0) || (len raw >? MaxLegacyBodyBytes) || negb (utf8_valid raw) then invalid
  else match tokenize raw with
       | JOpenBrace :: rest => object_loop rest ∅
       | _ => invalid
       end.

(** ** Requests (canonical.go) *)

Definition jsonMD5Fields : list string :=
  ["pid"; "order_id"; "currency"; "token"; "network"; "amount"; "notify_url"; "redirect_url"; "name"; "payment_type";
   "signature"].
Definition formMD5Fields : list string :=
  ["pid"; "money"; "out_trade_no"; "notify_url"; "return_url"; "name"; "type"; "token"; "network"; "currency"; "sign";
   "sign_type"].

(** The error names one of the unknown fields, whichever the map gives first. *)
Definition exactFields (values : gmap string string) (allowed : list string) : result lerr unit :=
  if forallb (fun e => existsb_str e.1 allowed) (map_to_list values) then Ok tt else invalid_msg "unknown field".

Definition value_of (values : gmap string string) (key : string) : string := default "" (values !! key).

(** Whether an entry is part of the signed text. *)
Definition signed_entry (protocol : string) (e : string * string) : bool :=
  negb ((e.2 == "") || ((protocol == ProtocolJSONMD5) && (e.1 == "signature"))
        || ((protocol == ProtocolFormMD5) && ((e.1 == "sign") || (e.1 == "sign_type")))).

Definition Canonical (values : gmap string string) (protocol : string) : result lerr string :=
  let entries := List.filter (signed_entry protocol) (map_to_list values) in
  if existsb (fun e => ContainsAny (e.1 +:+ e.2) [0; 13; 10]) entries then invalid
  else
    let keys := sort_by str_less (map fst entries) in
    Ok (Join (map (fun key => key +:+ "=" +:+ value_of values key) keys) "&").

(** The first of the required fields that is missing. *)
Definition missing_field (values : gmap string string) (keys : list string) : option string :=
  List.find (fun key => value_of values key == "") keys.

Definition buildRequest (protocol : string) (values : gmap string string) : result lerr CreateRequest :=
  let v := value_of values in
  let form := protocol == ProtocolFormMD5 in
  let signatureKey := if form then "sign" else "signature" in
  let amountKey := if form then "money" else "amount" in
  let orderKey := if form then "out_trade_no" else "order_id" in
  if form && (v "sign_type" != "") && (v "sign_type" != "MD5") then invalid_msg "sign_type"
  else match missing_field values ["pid"; orderKey; amountKey; "notify_url"; signatureKey] with
       | Some key => invalid_msg ("missing " +:+ key)
       | None =>
           if (len (v orderKey) >? 128) || (len (v "pid") >? 128) || (len (v "name") >? 2048) then invalid
           else
             canonical ← Canonical values protocol;
             let returnURL := if form then v "return_url" else v "redirect_url" in
             if negb (utf8_valid (v orderKey +:+ v "name" +:+ v "notify_url" +:+ returnURL)) then invalid
             else Ok (mkCreateRequest protocol (v "pid") (v orderKey) (v amountKey) (ToUpper (v "currency"))
                        (ToUpper (v "token")) (ToLower (v "network")) (v "type") (v "name") (v "notify_url") returnURL
                        (v signatureKey) canonical (sha256 canonical))
       end.

(** [strings.TrimSpace(strings.Split(contentType, ";")[0])] *)
Definition media_type (contentType : string) : string := TrimSpace (default "" (head (Split contentType (chr 59)))).

Definition ParseJSONMD5 (contentType raw : string) : result lerr CreateRequest :=
  values ← (if media_type contentType == "application/json" then parseJSONObject raw
            else if media_type contentType == "application/x-www-form-urlencoded" then parseEncoded raw
            else invalid_msg "unsupported content type");
  _ ← exactFields values jsonMD5Fields;
  buildRequest ProtocolJSONMD5 values.

Definition ParseFormMD5 (query contentType raw : string) : result lerr CreateRequest :=
  queryValues ← parseEncoded query;
  values ← (if len raw >? 0 then
              if media_type contentType != "application/x-www-form-urlencoded" then invalid_msg "unsupported content type"
              else
                form ← parseEncoded raw;
                if existsb (fun e => match queryValues !! e.1 with Some _ => true | None => false end) (map_to_list form)
                then invalid_msg "query/body collision"
                else Ok (form ∪ queryValues)
            else Ok queryValues);
  _ ← exactFields values formMD5Fields;
  buildRequest ProtocolFormMD5 values.

(** The comparison is with lower-case hexadecimal text, for which
    [strings.ToLower] is [lower_ascii]. *)
Definition VerifyMD5 (canonical received secret : string) : bool :=
  if negb (len received =? 32) || (received != lower_ascii received) then false
  else match hex_decode received with
       | None => false
       | Some decoded => decoded == md5 (canonical +:+ secret)
       end.

Definition SignMD5 (canonical secret : string) : string := hex_encode (md5 (canonical +:+ secret)).

End requests.

(** ** Decimals (service.go, callback.go) *)

(** [^[0-9]+([.][0-9]+)?$] *)
Definition decimalPattern (value : string) : bool :=
  match Split value dot with
  | [whole] => (whole != "") && str_forall is_digit whole
  | [whole; fraction] => (whole != "") && str_forall is_digit whole && (fraction != "") && str_forall is_digit fraction
  | _ => false
  end.

(** [strings.TrimRight(s, c)] *)
Fixpoint TrimRightByte (c : ascii) (s : string) : string :=
  match s with
  | EmptyString => ""
  | String d r => let t := TrimRightByte c r in if Ascii.eqb d c && (t == "") then "" else String d t
  end.

Section decimals.
(** [big.Rat.SetString]: numerator and positive denominator in lowest terms. *)
Context (SetString : string -> option (Z * Z)).

Definition DecimalToMinor (value : string) (scale : Z) : result lerr string :=
  if negb (decimalPattern value) then invalid
  else match SetString value with
       | None => invalid
       | Some (num, denom) =>
           if num <=? 0 then invalid
           else
             let factor := 10 ^ scale in
             let numerator := num * factor in
             let quotient := Z.quot numerator denom in
             let remainder := Z.rem numerator denom in
             if negb (remainder =? 0) || (BitLen quotient >? 256) then invalid else Ok (dec_string quotient)
       end.

Definition normalizedDecimal (value : string) : result lerr string :=
  match SetString value with
  | None => invalid
  | Some (num, _) =>
      if num <? 0 then invalid
      else
        let value := if negb (str_no dot value) then TrimRightByte dot (TrimRightZeros value) else value in
        let value := if value == "" then "0" else value in
        match SetString value with None => invalid | Some _ => Ok value end
  end.

(** [for len(digits) <= scale { digits = "0" + digits }] *)
Fixpoint pad_zeros (rounds : nat) (scale : Z) (digits : string) : string :=
  match rounds with
  | O => digits
  | S r => if len digits <=? scale then pad_zeros r scale ("0" +:+ digits) else digits
  end.

Definition fixedDecimal (value : string) (scale : Z) : result lerr string :=
  match SetString value with
  | None => invalid
  | Some (num, denom) =>
      if num <? 0 then invalid
      else
        let n := num * 10 ^ scale in
        if negb (Z.rem n denom =? 0) then invalid
        else
          let digits := pad_zeros (S (Z.to_nat scale)) scale (dec_string (Z.quot n denom)) in
          let cut := Z.to_nat (len digits - scale) in
          Ok (str_take cut digits +:+ "." +:+ str_drop cut digits)
  end.
End decimals.
