(* ===== verification/LegacyGateway.v ===== *)
(** * LegacyGateway: internal/legacycompat (service.go, callback.go, http.go)

    The gateway of the older protocols. [Create] admits a signed request and
    creates an intent and a route in the core under stable keys; the worker polls
    the core's events, freezes one signed callback per paid order and delivers
    it with leases; the HTTP server answers the old status codes and limits how
    often an order is looked up. Repository, core, secrets and transport are
    interfaces. *)

From Stdlib Require Import ZArith Lia Ascii String.
From stdpp Require Import base gmap list strings.
From S2P Require Import Prelude Text Numerals Encoding Money Auth Chains Webhook Legacy.

(** ** Interfaces (types.go) *)

Class LegacyRepository (R : Type) := {
  LookupCredential : R -> string -> string -> Time -> result lerr LegacyCredential;
  LookupCredentialVersion : R -> string -> result lerr LegacyCredential;
  RecordMapping : R -> LegacyMapping -> R * result lerr (LegacyMapping * bool);
  LookupMapping : R -> string -> result lerr LegacyMapping;
  LookupMappingByIntent : R -> string -> string -> result lerr LegacyMapping;
  ListEventSources : R -> Time -> result lerr (list EventSource);
  ClassifyEvent : R -> string -> Z -> string -> string -> Time -> R * option lerr;
  EnqueueCallbackAndAdvance : R -> EventSource -> CoreEvent -> LegacyMapping -> FrozenCallback -> Time -> R * option lerr;
  ClaimCallbacks : R -> string -> Z -> Duration -> Time -> R * result lerr (list CallbackJob);
  AcknowledgeCallback : R -> string -> string -> Z -> Z -> string -> Time -> R * result lerr bool;
  FailCallback : R -> string -> string -> Z -> string -> Z -> Time -> R * result lerr bool;
  RepositoryReady : R -> Time -> option lerr }.

Class LegacyCore (C : Type) := {
  CoreCreateIntent : C -> LegacyCredential -> string -> string -> CreateRequest -> C * result lerr CoreIntent;
  CoreCreateRoute : C -> LegacyCredential -> string -> string -> string -> C * result lerr CoreRoute;
  CoreGetIntent : C -> LegacyCredential -> string -> result lerr CoreIntent;
  CoreListEvents : C -> EventSource -> Z -> result lerr (list CoreEvent) }.

(** ** Data *)

Record LegacyMetrics := mkLegacyMetrics {
  mt_CreateRequests : Z; mt_StatusRequests : Z; mt_Rejected : Z; mt_CallbacksAcked : Z; mt_CallbacksFailed : Z;
  mt_LastWorkerOK : Z }.

(** The configuration of [Service]; [gs_Wired] says that repository, core and
    secret source are set. *)
Record GatewayService := mkGatewayService {
  gs_Wired : bool; gs_Metrics : option LegacyMetrics; gs_WorkerStaleAfter : Duration; gs_SunsetAt : Time }.

Record CreateResult := mkCreateResult {
  cz_Mapping : LegacyMapping; cz_Intent : CoreIntent; cz_Route : CoreRoute; cz_Replayed : bool }.

(** The values of a JSON object: text, raw JSON, an integer. *)
Inductive jfield := FText (s : string) | FRaw (s : string) | FInt (z : Z).

(** ** Rules (service.go) *)

Definition LegacyStatus (status : string) : option Z :=
  if existsb_str status ["created"; "awaiting_route_selection"; "pending"; "observed"; "partially_paid"; "confirmed"]
  then Some 1
  else if status == "settled" then Some 2
  else if status == "overpaid" then Some 2
  else if existsb_str status ["expired"; "cancelled"] then Some 3
  else None.

Definition normalizeBinding (request : CreateRequest) (credential : LegacyCredential) : CreateRequest :=
  let or_else (s d : string) := if s == "" then d else s in
  mkCreateRequest (lr_Protocol request) (lr_PID request) (lr_OrderID request) (lr_Amount request)
    (or_else (lr_Currency request) (lc_Currency credential)) (or_else (lr_Token request) (lc_LegacyToken credential))
    (or_else (lr_Network request) (lc_LegacyNetwork credential))
    (or_else (lr_PaymentType request) (lc_LegacyPaymentType credential)) (lr_Name request) (lr_NotifyURL request)
    (lr_ReturnURL request) (lr_Signature request) (lr_Canonical request) (lr_CanonicalHash request).

Definition allowedPeer (peer : IP) (allowlist : list (option (IP * Z))) : bool :=
  match peer, allowlist with
  | IPNil, _ | _, [] => false
  | _, _ => existsb (fun network => match network with Some n => Contains n (To4 peer) | None => false end) allowlist
  end.

Definition intent_route (routes : list CoreRoute) (id : string) : option CoreRoute :=
  List.find (fun candidate => kr_ID candidate == id) routes.

(** The route that is left when the loop ends: the zero route when none was found. *)
Definition route_found (routes : list CoreRoute) (id : string) : option CoreRoute :=
  match intent_route routes id with
  | Some route => if kr_ID route == "" then None else Some route
  | None => None
  end.

Definition worker_stale (service : GatewayService) (now : Time) : bool :=
  match gs_Metrics service with
  | None => true
  | Some m => (gs_WorkerStaleAfter service <=? 0)
              || (SubTime now (time_Unix (mt_LastWorkerOK m)) >? gs_WorkerStaleAfter service)
  end.

(** ** Callback rules (callback.go) *)

Definition legacyPaidEvent (envelopeType payloadType : string) : bool :=
  (envelopeType == payloadType) && ((payloadType == "payment.settled") || (payloadType == "payment.overpaid")).

Definition legacyPaidState (eventType intentStatus : string) : bool :=
  ((eventType == "payment.settled") && (intentStatus == "settled"))
  || ((eventType == "payment.overpaid") && (intentStatus == "overpaid")).

Definition isLegacyAck (body : string) : bool :=
  let ack := TrimSpace body in (ack == "ok") || (ack == "success").

Definition callbackBackoff (attempt : Z) : Duration :=
  let attempt := if attempt <? 1 then 1 else attempt in
  let delay := Second * Z.shiftl 1 (Z.min (attempt - 1) 8) in
  if delay >? 5 * Minute then 5 * Minute else delay.

(** [url.QueryEscape] *)
Definition upper_hex_digit (d : Z) : ascii := chr (if d <? 10 then 48 + d else 55 + d).
Fixpoint QueryEscape (s : string) : string :=
  match s with
  | EmptyString => ""
  | String c r =>
      if isUnreserved (code c) then String c (QueryEscape r)
      else if Ascii.eqb c space_byte then String plus_byte (QueryEscape r)
      else String percent (String (upper_hex_digit (code c / 16)) (String (upper_hex_digit (code c mod 16)) (QueryEscape r)))
  end.

(** [url.Values.Encode] for one value per key *)
Definition EncodeValues (values : gmap string string) : string :=
  Join (map (fun key => QueryEscape key +:+ "=" +:+ QueryEscape (value_of values key))
          (sort_by str_less (map fst (map_to_list values)))) "&".

Definition advance_source (source : EventSource) (sequence : Z) : EventSource :=
  mkEventSource (ls_ConfigID source) (ls_Protocol source) (ls_PID source) (ls_CoreKeyID source)
    (ls_CoreSecretRef source) sequence.

Section gateway.
Context {R C : Type} `{!LegacyRepository R} `{!LegacyCore C}.
(** The hashes, [strings.EqualFold], [big.Rat.SetString], the secret files, what
    [url.Parse], [strings.ToLower] and the resolver say, the JSON encoder of the
    callback body and the JSON decoder of an event. *)
Context (sha256 md5 : string -> string) (EqualFold : string -> string -> bool) (SetString : string -> option (Z * Z))
  (ReadSecret : string -> option string) (parse : string -> option URL) (ToLower : string -> string)
  (LookupIP : string -> result string (list IP)) (Marshal : list (string * jfield) -> option string)
  (Unmarshal : string -> option Event).

Definition validateBinding (request : CreateRequest) (credential : LegacyCredential) : result lerr unit :=
  let currency := if lr_Currency request == "" then lc_Currency credential else lr_Currency request in
  if currency != lc_Currency credential then invalid_msg "currency"
  else if lr_Protocol request == ProtocolJSONMD5 then
    if (lr_Token request != lc_LegacyToken credential) || (lr_Network request != lc_LegacyNetwork credential)
    then invalid_msg "asset route" else Ok tt
  else
    let paymentType := if lr_PaymentType request == "" then lc_LegacyPaymentType credential else lr_PaymentType request in
    if negb (EqualFold paymentType (lc_LegacyPaymentType credential)) then invalid_msg "form_md5 type"
    else if ((lr_Token request != "") && (lr_Token request != lc_LegacyToken credential))
            || ((lr_Network request != "") && (lr_Network request != lc_LegacyNetwork credential))
    then invalid_msg "asset route" else Ok tt.

Definition unit_byte : ascii := chr 31.

(** What [stableKey] writes to the hash. *)
Fixpoint key_material (parts : list string) : string :=
  match parts with [] => "" | part :: rest => part +:+ String unit_byte (key_material rest) end.

Definition stableKey (prefix : string) (parts : list string) : string :=
  prefix +:+ "-" +:+ b64_encode (sha256 (key_material parts)).

(** The guards of [Create], up to the first call that changes anything: the
    credential, the completed request and the amount in minor units. *)
Definition admit_create (service : GatewayService) (now : Time) (r : R) (request : CreateRequest) (peer : IP)
    : result lerr (LegacyCredential * CreateRequest * string) :=
  if worker_stale service now then Err (Sentinel LgErrUnavailable)
  else if negb (gs_Wired service) || IsZeroTime (gs_SunsetAt service) || negb (Before now (gs_SunsetAt service))
  then Err (Sentinel LgErrUnavailable)
  else match LookupCredential r (lr_Protocol request) (lr_PID request) now with
       | Err _ => Err (Sentinel LgErrUnauthorized)
       | Ok credential =>
           if negb (lc_Approved credential) || negb (lc_Enabled credential) || IsZeroTime (lc_SunsetAt credential)
              || negb (Before now (lc_SunsetAt credential)) || After (lc_SunsetAt credential) (gs_SunsetAt service)
           then Err (Sentinel LgErrUnauthorized)
           else if negb (allowedPeer peer (lc_IPAllowlist credential)) then Err (Sentinel LgErrUnauthorized)
           else match ReadSecret (lc_LegacySecretRef credential) with
                | None => Err (Sentinel LgErrUnauthorized)
                | Some secret =>
                    if negb (VerifyMD5 md5 (lr_Canonical request) (lr_Signature request) secret)
                    then Err (Sentinel LgErrUnauthorized)
                    else
                      _ ← validateBinding request credential;
                      let request := normalizeBinding request credential in
                      if negb (is_ok (ValidateEndpoint parse ToLower LookupIP (lr_NotifyURL request)))
                      then invalid_msg "notify URL"
                      else if (lr_ReturnURL request != "")
                              && negb (is_ok (ValidateEndpoint parse ToLower LookupIP (lr_ReturnURL request)))
                      then invalid_msg "return URL"
                      else match DecimalToMinor SetString (lr_Amount request) (lc_CurrencyScale credential) with
                           | Err _ => invalid_msg "amount"
                           | Ok amountMinor => Ok (credential, request, amountMinor)
                           end
                end
       end.

Definition new_mapping (credential : LegacyCredential) (request : CreateRequest) (tradeID intentID routeID : string)
    (now : Time) : LegacyMapping :=
  mkLegacyMapping (lc_ConfigID credential) (lc_CredentialVersionID credential) (lr_Protocol request) tradeID
    (lr_OrderID request) intentID routeID (lr_CanonicalHash request) (lr_NotifyURL request) (lr_ReturnURL request)
    (lr_Name request) (lr_PaymentType request) (lr_Amount request) (lc_Currency credential)
    (lc_LegacyToken credential) (lc_LegacyNetwork credential) now.

(** [random]: the sixteen bytes of [capabilityID], or a failing source. *)
Definition Create (service : GatewayService) (now : Time) (random : option string) (r : R) (c : C)
    (request : CreateRequest) (peer : IP) : R * C * result lerr CreateResult :=
  match admit_create service now r request peer with
  | Err e => (r, c, Err e)
  | Ok (credential, request, amountMinor) =>
      let intentKey := stableKey "legacy-intent" [lc_ConfigID credential; lr_Protocol request; lr_OrderID request] in
      let routeKey := stableKey "legacy-route" [lc_ConfigID credential; lr_Protocol request; lr_OrderID request] in
      match CoreCreateIntent c credential intentKey amountMinor request with
      | (c, Err e) => (r, c, Err e)
      | (c, Ok intent) =>
          match CoreCreateRoute c credential (ki_ID intent) routeKey amountMinor with
          | (c, Err e) => (r, c, Err e)
          | (c, Ok route) =>
              match random with
              | None => (r, c, Err (Plain "random"))
              | Some bytes =>
                  let mapping := new_mapping credential request (b64_encode bytes) (ki_ID intent) (kr_ID route) now in
                  match RecordMapping r mapping with
                  | (r, Err e) => (r, c, Err e)
                  | (r, Ok (stored, replay)) =>
                      if (lm_IntentID stored != ki_ID intent) || (lm_RouteID stored != kr_ID route)
                         || (lm_RequestHash stored != lr_CanonicalHash request)
                      then (r, c, Err (Sentinel LgErrConflict))
                      else (r, c, Ok (mkCreateResult stored intent route replay))
                  end
              end
          end
      end
  end.

Definition OrderStatus (r : R) (c : C) (tradeID : string) : result lerr (LegacyMapping * CoreIntent * CoreRoute * Z) :=
  let missing : result lerr (LegacyMapping * CoreIntent * CoreRoute * Z) := Err (Sentinel LgErrNotFound) in
  if negb (len tradeID =? 22) then missing
  else match LookupMapping r tradeID with
       | Err _ => missing
       | Ok mapping =>
           match LookupCredentialVersion r (lm_CredentialVersionID mapping) with
           | Err _ => missing
           | Ok credential =>
               match CoreGetIntent c credential (lm_IntentID mapping) with
               | Err _ => missing
               | Ok intent =>
                   match route_found (ki_Routes intent) (lm_RouteID mapping), LegacyStatus (ki_Status intent) with
                   | Some route, Some status => Ok (mapping, intent, route, status)
                   | _, _ => missing
                   end
               end
           end
       end.

(** One source of [Ready]. *)
Definition source_ready (r : R) (now : Time) (source : EventSource) : bool :=
  match LookupCredential r (ls_Protocol source) (ls_PID source) now with
  | Err _ => false
  | Ok credential =>
      lc_Approved credential && lc_Enabled credential && negb (is_nil (ReadSecret (lc_LegacySecretRef credential)))
      && negb (is_nil (ReadSecret (lc_CoreSecretRef credential)))
  end.

(** The clock is read twice. *)
Definition Ready (service : GatewayService) (first now : Time) (r : R) : option lerr :=
  if negb (gs_Wired service) || IsZeroTime (gs_SunsetAt service) || negb (Before first (gs_SunsetAt service))
  then Some (Sentinel LgErrUnavailable)
  else if worker_stale service now then Some (Sentinel LgErrUnavailable)
  else match RepositoryReady r now with
       | Some e => Some e
       | None =>
           match ListEventSources r now with
           | Err _ | Ok [] => Some (Sentinel LgErrUnavailable)
           | Ok sources => if forallb (source_ready r now) sources then None else Some (Sentinel LgErrUnavailable)
           end
       end.

(** ** Callbacks (callback.go) *)

Definition canonical_or_empty (values : gmap string string) (protocol : string) : string :=
  match Canonical values protocol with Ok text => text | Err _ => "" end.

Definition form_callback_values (mapping : LegacyMapping) (credential : LegacyCredential) (money : string)
    : gmap string string :=
  list_to_map [("pid", lc_PID credential); ("trade_no", lm_TradeID mapping); ("out_trade_no", lm_OrderID mapping);
               ("type", lm_PaymentType mapping); ("name", lm_Name mapping); ("money", money);
               ("trade_status", "TRADE_SUCCESS")].

Definition json_callback_values (mapping : LegacyMapping) (credential : LegacyCredential) (route : CoreRoute)
    (hash amount actual : string) : gmap string string :=
  list_to_map [("pid", lc_PID credential); ("trade_id", lm_TradeID mapping); ("order_id", lm_OrderID mapping);
               ("amount", amount); ("actual_amount", actual); ("receive_address", kr_Address route);
               ("token", lc_LegacyToken credential); ("block_transaction_id", hash); ("status", "2")].

Definition json_callback_body (mapping : LegacyMapping) (credential : LegacyCredential) (route : CoreRoute)
    (hash amount actual signature : string) : list (string * jfield) :=
  [("pid", FText (lc_PID credential)); ("trade_id", FText (lm_TradeID mapping)); ("order_id", FText (lm_OrderID mapping));
   ("amount", FRaw amount); ("actual_amount", FRaw actual); ("receive_address", FText (kr_Address route));
   ("token", FText (lc_LegacyToken credential)); ("block_transaction_id", FText hash);
   ("signature", FText signature); ("status", FInt 2)].

Definition FreezeCallback (mapping : LegacyMapping) (credential : LegacyCredential) (route : CoreRoute) (event : Event)
    (secret : string) : result lerr FrozenCallback :=
  match ev_Settlement event with
  | None => invalid
  | Some settlement =>
      if ((ev_EventType event != "payment.settled") && (ev_EventType event != "payment.overpaid"))
         || (lm_NotifyURL mapping == "")
      then invalid
      else if lm_Protocol mapping == ProtocolFormMD5 then
        money ← fixedDecimal SetString (lm_Amount mapping) 4;
        let values := form_callback_values mapping credential money in
        let sign := SignMD5 md5 (canonical_or_empty values ProtocolFormMD5) secret in
        let body := EncodeValues (<["sign_type" := "MD5"]> (<["sign" := sign]> values)) in
        Ok (mkFrozenCallback "GET" "application/x-www-form-urlencoded" (lm_NotifyURL mapping) body
              (lc_CredentialVersionID credential) (lc_CallbackKeyID credential))
      else
        amount ← normalizedDecimal SetString (lm_Amount mapping);
        actual ← normalizedDecimal SetString (kr_DisplayAmount route);
        let hash := es_TransactionHash settlement in
        let values := json_callback_values mapping credential route hash amount actual in
        let signature := SignMD5 md5 (canonical_or_empty values ProtocolJSONMD5) secret in
        match Marshal (json_callback_body mapping credential route hash amount actual signature) with
        | None => Err (Plain "json")
        | Some body =>
            Ok (mkFrozenCallback "POST" "application/json" (lm_NotifyURL mapping) body
                  (lc_CredentialVersionID credential) (lc_CallbackKeyID credential))
        end
  end.

(** What becomes of an event: refused, recorded with a class, or a callback. *)
Inductive event_outcome :=
| EventError (e : lerr)
| Classified (class : string)
| Callback (mapping : LegacyMapping) (frozen : FrozenCallback).

Definition event_decision (r : R) (c : C) (source : EventSource) (event : CoreEvent) : event_outcome :=
  if (ke_Sequence event <=? ls_AfterSequence source) || (ke_EventID event == "") then EventError (Sentinel LgErrInvalid)
  else match Unmarshal (ke_Payload event) with
       | None => Classified "invalid_payload"
       | Some payload =>
           if (ev_EventID payload != ke_EventID event) || negb (ev_Sequence payload =? ke_Sequence event)
           then Classified "invalid_payload"
           else if negb (legacyPaidEvent (ke_EventType event) (ev_EventType payload)) || is_nil (ev_Settlement payload)
           then Classified "no_legacy_callback"
           else match LookupMappingByIntent r (ls_ConfigID source) (ps_ID (ev_PaymentIntent payload)) with
                | Err _ => Classified "unmapped_intent"
                | Ok mapping =>
                    match LookupCredentialVersion r (lm_CredentialVersionID mapping) with
                    | Err e => EventError e
                    | Ok credential =>
                        match CoreGetIntent c credential (lm_IntentID mapping) with
                        | Err e => EventError e
                        | Ok intent =>
                            match route_found (ki_Routes intent) (lm_RouteID mapping) with
                            | None => Classified "state_mismatch"
                            | Some route =>
                                if negb (legacyPaidState (ke_EventType event) (ki_Status intent))
                                then Classified "state_mismatch"
                                else match ReadSecret (lc_LegacySecretRef credential) with
                                     | None => EventError (Sentinel LgErrUnavailable)
                                     | Some secret =>
                                         match FreezeCallback mapping credential route payload secret with
                                         | Err e => EventError e
                                         | Ok frozen => Callback mapping frozen
                                         end
                                     end
                            end
                        end
                    end
                end
       end.

Definition processEvent (now : Time) (r : R) (c : C) (source : EventSource) (event : CoreEvent) : R * option lerr :=
  match event_decision r c source event with
  | EventError e => (r, Some e)
  | Classified class => ClassifyEvent r (ls_ConfigID source) (ke_Sequence event) (ke_EventID event) class now
  | Callback mapping frozen => EnqueueCallbackAndAdvance r source event mapping frozen now
  end.

(** The events of one page. *)
Fixpoint process_page (clock : nat -> Time) (k : nat) (r : R) (c : C) (source : EventSource) (events : list CoreEvent)
    : R * option lerr :=
  match events with
  | [] => (r, None)
  | event :: rest =>
      match processEvent (clock k) r c source event with
      | (r, Some e) => (r, Some e)
      | (r, None) => process_page clock (S k) r c (advance_source source (ke_Sequence event)) rest
      end
  end.

Fixpoint poll_sources (clock : nat -> nat -> Time) (i : nat) (r : R) (c : C) (pageSize : Z) (sources : list EventSource)
    : R * option lerr :=
  match sources with
  | [] => (r, None)
  | source :: rest =>
      match CoreListEvents c source pageSize with
      | Err e => (r, Some e)
      | Ok events =>
          match process_page (clock i) 0 r c source events with
          | (r, Some e) => (r, Some e)
          | (r, None) => poll_sources clock (S i) r c pageSize rest
          end
      end
  end.

(** [clock i k]: the time at event [k] of source [i]. *)
Definition PollEvents (now : Time) (clock : nat -> nat -> Time) (r : R) (c : C) (pageSize : Z) : R * option lerr :=
  match ListEventSources r now with
  | Err e => (r, Some e)
  | Ok sources => poll_sources clock 0 r c pageSize sources
  end.

(** The transport: status code, digest of the answer, and whether it failed. *)
Context (Send : nat -> CallbackJob -> Z * string * bool).

Definition count_acked (m : LegacyMetrics) : LegacyMetrics :=
  mkLegacyMetrics (mt_CreateRequests m) (mt_StatusRequests m) (mt_Rejected m) (uint64 (mt_CallbacksAcked m + 1))
    (mt_CallbacksFailed m) (mt_LastWorkerOK m).
Definition count_failed (m : LegacyMetrics) : LegacyMetrics :=
  mkLegacyMetrics (mt_CreateRequests m) (mt_StatusRequests m) (mt_Rejected m) (mt_CallbacksAcked m)
    (uint64 (mt_CallbacksFailed m + 1)) (mt_LastWorkerOK m).

Definition callback_fence : lerr := Wrapped LgErrConflict "callback fence".

(** One job of [Deliver], with the counters. *)
Definition deliver_job (now : Time) (r : R) (m : option LegacyMetrics) (i : nat) (job : CallbackJob)
    : R * option LegacyMetrics * option lerr :=
  let '(status, digest, failed) := Send i job in
  if negb failed then
    match AcknowledgeCallback r (kj_DeliveryID job) (kj_LeaseToken job) (kj_Fence job) status digest now with
    | (r, Err e) => (r, m, Some e)
    | (r, Ok false) => (r, m, Some callback_fence)
    | (r, Ok true) => (r, option_map count_acked m, None)
    end
  else
    let next := AddTime now (callbackBackoff (int64 (kj_AttemptCount job + 1))) in
    match FailCallback r (kj_DeliveryID job) (kj_LeaseToken job) (kj_Fence job) "delivery_failed" status next with
    | (r, Err e) => (r, m, Some e)
    | (r, Ok false) => (r, m, Some callback_fence)
    | (r, Ok true) => (r, option_map count_failed m, None)
    end.

Fixpoint deliver_jobs (clock : nat -> Time) (r : R) (m : option LegacyMetrics) (i : nat) (jobs : list CallbackJob)
    : R * option LegacyMetrics * option lerr :=
  match jobs with
  | [] => (r, m, None)
  | job :: rest =>
      match deliver_job (clock i) r m i job with
      | (r, m, Some e) => (r, m, Some e)
      | (r, m, None) => deliver_jobs clock r m (S i) rest
      end
  end.

Definition Deliver (now : Time) (clock : nat -> Time) (r : R) (m : option LegacyMetrics) (workerID : string) (limit : Z)
    (lease : Duration) : R * option LegacyMetrics * option lerr :=
  match ClaimCallbacks r workerID limit lease now with
  | (r, Err e) => (r, m, Some e)
  | (r, Ok jobs) => deliver_jobs clock r m 0 jobs
  end.

Definition worker_ok (now : Time) (m : LegacyMetrics) : LegacyMetrics :=
  mkLegacyMetrics (mt_CreateRequests m) (mt_StatusRequests m) (mt_Rejected m) (mt_CallbacksAcked m)
    (mt_CallbacksFailed m) (unix_of now).

(** One round of [runWorker]: deliver only after a clean poll, and note the
    time only after both. *)
Definition worker_cycle (now : Time) (pollClock : nat -> nat -> Time) (clock : nat -> Time) (r : R) (c : C)
    (m : option LegacyMetrics) (workerID : string) (batchSize : Z) (lease : Duration)
    : R * option LegacyMetrics * option lerr :=
  match PollEvents now pollClock r c batchSize with
  | (r, Some e) => (r, m, Some e)
  | (r, None) =>
      match Deliver now clock r m workerID batchSize lease with
      | (r, m, Some e) => (r, m, Some e)
      | (r, m, None) => (r, option_map (worker_ok now) m, None)
      end
  end.

End gateway.

(** ** The look-up limiter and answers (http.go) *)

Record limitWindow := mkLimitWindow { lw_start : Time; lw_count : Z }.
Record capabilityLimiter := mkCapabilityLimiter {
  cl_limit : Z; cl_window : Duration; cl_items : gmap string limitWindow }.

Definition newCapabilityLimiter (limit : Z) (window : Duration) : capabilityLimiter :=
  mkCapabilityLimiter limit window ∅.

Definition expired_window (l : capabilityLimiter) (now : Time) (item : limitWindow) : bool :=
  SubTime now (lw_start item) >=? cl_window l.

Definition Allow (l : capabilityLimiter) (key : string) (now : Time) : capabilityLimiter * bool :=
  let item := default (mkLimitWindow 0 0) (cl_items l !! key) in
  let item := if IsZeroTime (lw_start item) || expired_window l now item then mkLimitWindow now 0 else item in
  if lw_count item >=? cl_limit l then (l, false)
  else
    let items := <[key := mkLimitWindow (lw_start item) (lw_count item + 1)]> (cl_items l) in
    let items := if (10000 <? Z.of_nat (size items))
                 then filter (fun e => expired_window l now e.2 = false) items else items in
    (mkCapabilityLimiter (cl_limit l) (cl_window l) items, true).

Definition checkoutURL (CheckoutBaseURL token : string) : option string :=
  if (token == "") || (len token >? 256) || ContainsAny token [13; 10] then None
  else Some (CheckoutBaseURL +:+ "/checkout?token=" +:+ QueryEscape token).

(** The status code of a refused creation. *)
Definition createError (e : lerr) : Z :=
  if errors_Is e LgErrInvalid then 400
  else if errors_Is e LgErrUnauthorized then 401
  else if errors_Is e LgErrConflict then 409
  else 503.

(** [limiter.Allow(ip) && limiter.Allow(trade)] of the look-up handlers. *)
Definition lookup_allowed (l : capabilityLimiter) (peer tradeID : string) (now : Time) : capabilityLimiter * bool :=
  match Allow l ("ip" +:+ String unit_byte peer) now with
  | (l, true) => Allow l ("trade" +:+ String unit_byte tradeID) now
  | (l, false) => (l, false)
  end.

(** What an answer carries: an error, the status of an order, or a redirection. *)
Inductive legacy_answer := AnswerError (code : Z) | AnswerStatus (tradeID : string) (status : Z) | AnswerFound (location : string).

Section lookups.
Context {R C : Type} `{!LegacyRepository R} `{!LegacyCore C}.

(** [peer]: the caller's address as text, when the request has no query and a
    readable peer. *)
Definition status_handler (l : capabilityLimiter) (now : Time) (r : R) (c : C) (peer : option string) (tradeID : string)
    : capabilityLimiter * legacy_answer :=
  match peer with
  | None => (l, AnswerError 404)
  | Some peer =>
      match lookup_allowed l peer tradeID now with
      | (l, false) => (l, AnswerError 404)
      | (l, true) =>
          match OrderStatus r c tradeID with
          | Err _ => (l, AnswerError 404)
          | Ok (_, _, _, status) => (l, AnswerStatus tradeID status)
          end
      end
  end.

Definition checkout_handler (CheckoutBaseURL : string) (l : capabilityLimiter) (now : Time) (r : R) (c : C)
    (peer : option string) (tradeID : string) : capabilityLimiter * legacy_answer :=
  match peer with
  | None => (l, AnswerError 404)
  | Some peer =>
      match lookup_allowed l peer tradeID now with
      | (l, false) => (l, AnswerError 404)
      | (l, true) =>
          match OrderStatus r c tradeID with
          | Err _ => (l, AnswerError 404)
          | Ok (_, intent, _, _) =>
              if ki_CheckoutToken intent == "" then (l, AnswerError 404)
              else match checkoutURL CheckoutBaseURL (ki_CheckoutToken intent) with
                   | None => (l, AnswerError 404)
                   | Some url => (l, AnswerFound url)
                   end
          end
      end
  end.
End lookups.
