(* ===== verification/LegacyFacts.v ===== *)
(** * LegacyFacts: what the older protocols sign and say

    The signed text determines the order when no field contains an ampersand,
    and does not otherwise; a signature is accepted exactly when it is the one
    the secret gives; what the gateway encodes it reads back; and decimals are
    converted exactly. *)

From Stdlib Require Import ZArith Lia Ascii String Permutation Sorted.
From stdpp Require Import base gmap list strings.
From S2P Require Import Prelude Text Numerals Encoding Money Chains ChainsFacts Webhook Legacy LegacyGateway.

(** ** The signed text *)

(** The signed fields of a request. *)
Definition signed_fields (protocol : string) (v : gmap string string) : gmap string string :=
  filter (fun e => signed_entry protocol e = true) v.

(** No key or value of a signed field can be taken for a separator. *)
Definition plain_fields (protocol : string) (v : gmap string string) : Prop :=
  forall k x, signed_fields protocol v !! k = Some x ->
    str_no ampersand k = true /\ str_no equals_sign k = true /\ str_no ampersand x = true.

Definition field_text (e : string * string) : string := e.1 +:+ String equals_sign e.2.

Definition signed_keys (protocol : string) (v : gmap string string) : list string :=
  sort_by str_less (map fst (List.filter (signed_entry protocol) (map_to_list v))).

Lemma signed_keys_spec protocol v k :
  In k (signed_keys protocol v) <-> exists x, signed_fields protocol v !! k = Some x.
Proof.
  unfold signed_keys, signed_fields. rewrite sort_by_In, in_map_iff. split.
  - intros ([k' x] & <- & [H Hs]%filter_In). exists x. apply map_lookup_filter_Some.
    split; [|done]. by apply elem_of_map_to_list, list_elem_of_In.
  - intros (x & [H Hs]%map_lookup_filter_Some). exists (k, x). split; [done|]. apply filter_In.
    split; [|done]. by apply list_elem_of_In, elem_of_map_to_list.
Qed.

Lemma signed_value protocol v k x : signed_fields protocol v !! k = Some x -> value_of v k = x.
Proof. unfold signed_fields, value_of. intros [-> _]%map_lookup_filter_Some. done. Qed.

Lemma Canonical_ok protocol v t : Canonical v protocol = Ok t ->
  t = Join (map (fun k => field_text (k, value_of v k)) (signed_keys protocol v)) (String ampersand "").
Proof. unfold Canonical. destruct (existsb _ _); [done|]. intros [= <-]. reflexivity. Qed.

Lemma plain_texts protocol v : plain_fields protocol v ->
  Forall (fun s => str_no ampersand s = true) (map (fun k => field_text (k, value_of v k)) (signed_keys protocol v)).
Proof.
  intros Hp. apply Forall_forall. intros s (k & <- & Hk)%list_elem_of_In%in_map_iff.
  apply signed_keys_spec in Hk as (x & Hx). rewrite (signed_value _ _ _ _ Hx).
  destruct (Hp k x Hx) as (H1 & _ & H3). unfold field_text, str_no in *. cbn [fst snd].
  rewrite str_forall_app, H1. cbn [str_forall]. by rewrite H3.
Qed.

(** A list of fields is determined by its joined text. *)
Lemma Join_determines (l1 l2 : list string) :
  Forall (fun s => str_no ampersand s = true) l1 -> Forall (fun s => str_no ampersand s = true) l2 ->
  Forall (fun s => s <> "") l1 -> Forall (fun s => s <> "") l2 ->
  Join l1 (String ampersand "") = Join l2 (String ampersand "") -> l1 = l2.
Proof.
  assert (Hnil : forall l, Forall (fun s => s <> "") l -> l <> [] ->
            Forall (fun s => str_no ampersand s = true) l -> Join l (String ampersand "") = "" -> False).
  { intros l Hne Hl Hf HJ. apply Join_nonempty_split in Hf; [|done]. rewrite HJ in Hf. cbn in Hf.
    rewrite <- Hf in Hne. by invc Hne. }
  intros F1 F2 N1 N2 HJ. destruct l1 as [|a l1], l2 as [|b l2].
  - done.
  - exfalso. by eapply (Hnil (b :: l2)).
  - exfalso. by eapply (Hnil (a :: l1)).
  - rewrite <- (Join_nonempty_split ampersand (a :: l1)), HJ by done. by apply Join_nonempty_split.
Qed.

Lemma field_text_nonempty e : field_text e <> "".
Proof. destruct e as [[|c k] x]; done. Qed.

Lemma field_text_inj k1 x1 k2 x2 : str_no equals_sign k1 = true -> str_no equals_sign k2 = true ->
  field_text (k1, x1) = field_text (k2, x2) -> k1 = k2 /\ x1 = x2.
Proof. intros H1 H2 H. by apply str_app_sep_inj in H. Qed.

Lemma map_eq_In {A B} (f g : A -> B) l1 l2 x : map f l1 = map g l2 -> In x l1 -> exists y, In y l2 /\ f x = g y.
Proof. intros H Hx. apply (in_map f) in Hx. rewrite H in Hx. apply in_map_iff in Hx as (y & Hy & Hin). eauto. Qed.

Lemma same_text_included protocol v1 v2 t : plain_fields protocol v1 -> plain_fields protocol v2 ->
  Canonical v1 protocol = Ok t -> Canonical v2 protocol = Ok t ->
  forall k x, signed_fields protocol v1 !! k = Some x -> signed_fields protocol v2 !! k = Some x.
Proof.
  intros P1 P2 C1%Canonical_ok C2%Canonical_ok k x Hx. rewrite C1 in C2.
  apply Join_determines in C2; [|by apply plain_texts..| |];
    [|apply Forall_forall; intros s (? & <- & ?)%list_elem_of_In%in_map_iff; apply field_text_nonempty..].
  destruct (map_eq_In _ _ _ _ k C2) as (k' & Hk' & He); [by apply signed_keys_spec; eauto|].
  apply signed_keys_spec in Hk' as (x' & Hx').
  rewrite (signed_value _ _ _ _ Hx), (signed_value _ _ _ _ Hx') in He.
  apply field_text_inj in He as [<- <-]; [done|by apply P1 in Hx as (_ & ? & _)|by apply P2 in Hx' as (_ & ? & _)].
Qed.

Lemma same_text_same_fields protocol v1 v2 t : plain_fields protocol v1 -> plain_fields protocol v2 ->
  Canonical v1 protocol = Ok t -> Canonical v2 protocol = Ok t ->
  signed_fields protocol v1 = signed_fields protocol v2.
Proof.
  intros P1 P2 C1 C2. apply map_eq. intros k.
  destruct (signed_fields protocol v1 !! k) as [x|] eqn:E1.
  - symmetry. by eapply (same_text_included _ v1 v2).
  - destruct (signed_fields protocol v2 !! k) as [x|] eqn:E2; [|done].
    eapply (same_text_included _ v2 v1) in E2; [|done..]. congruence.
Qed.

(** A field that is always signed reads the same in both. *)
Lemma same_fields_value protocol v1 v2 k : signed_fields protocol v1 = signed_fields protocol v2 ->
  (forall x, x <> "" -> signed_entry protocol (k, x) = true) -> value_of v1 k = value_of v2 k.
Proof.
  assert (Hone : forall u w x, signed_fields protocol u = signed_fields protocol w ->
            (forall y, y <> "" -> signed_entry protocol (k, y) = true) -> u !! k = Some x -> x <> "" -> value_of w k = x).
  { intros u w x He Hs Hx Hne. apply (signed_value protocol). rewrite <- He. apply map_lookup_filter_Some. auto. }
  intros He Hs. destruct (value_of v1 k) as [|c r] eqn:E1.
  - unfold value_of at 1. destruct (v2 !! k) as [y|] eqn:E2; [|done]. cbn. destruct (decide (y = "")) as [->|Hy]; [done|].
    rewrite (Hone v2 v1 y) in E1 by done. congruence.
  - unfold value_of in E1. destruct (v1 !! k) as [y|] eqn:E2; [|done]. cbn in E1. subst.
    symmetry. by eapply (Hone v1 v2).
Qed.

Section signed_requests.
Context (sha256 : string -> string) (ToUpper ToLower : string -> string).

(** What a request says apart from its signature. *)
Definition unsigned (r : CreateRequest) : CreateRequest :=
  mkCreateRequest (lr_Protocol r) (lr_PID r) (lr_OrderID r) (lr_Amount r) (lr_Currency r) (lr_Token r) (lr_Network r)
    (lr_PaymentType r) (lr_Name r) (lr_NotifyURL r) (lr_ReturnURL r) "" (lr_Canonical r) (lr_CanonicalHash r).

Lemma always_signed protocol k x : k <> "signature" -> k <> "sign" -> k <> "sign_type" -> x <> "" ->
  signed_entry protocol (k, x) = true.
Proof.
  intros H1%String.eqb_neq H2%String.eqb_neq H3%String.eqb_neq H4%String.eqb_neq. unfold signed_entry. cbn [fst snd].
  by rewrite H1, H2, H3, H4, !andb_false_r.
Qed.

(** What [buildRequest] returns, field by field. *)
Lemma buildRequest_ok protocol v r : buildRequest sha256 ToUpper ToLower protocol v = Ok r ->
  let form := protocol == ProtocolFormMD5 in
  exists canonical, Canonical v protocol = Ok canonical /\
    r = mkCreateRequest protocol (value_of v "pid") (value_of v (if form then "out_trade_no" else "order_id"))
          (value_of v (if form then "money" else "amount")) (ToUpper (value_of v "currency")) (ToUpper (value_of v "token"))
          (ToLower (value_of v "network")) (value_of v "type") (value_of v "name") (value_of v "notify_url")
          (value_of v (if form then "return_url" else "redirect_url")) (value_of v (if form then "sign" else "signature"))
          canonical (sha256 canonical).
Proof.
  unfold buildRequest. cbv zeta. intros H. destruct (_ && _ && _) in H; [done|]. destruct (missing_field _ _) in H; [done|].
  destruct (_ || _ || _) in H; [done|]. destruct (Canonical v protocol) as [canonical|]; [|done]. cbn [mbind result_bind] in H.
  destruct (negb _) in H; [done|]. injection H as <-. exists canonical. split; [done|]. by destruct (protocol == ProtocolFormMD5).
Qed.

(** Two requests that sign the same text say the same in every field but the
    signature, provided that no signed field of either contains an ampersand:
    an accepted signature then binds order, amount, asset and addresses. *)
Theorem signed_text_binds_order protocol v1 v2 r1 r2 :
  plain_fields protocol v1 -> plain_fields protocol v2 ->
  buildRequest sha256 ToUpper ToLower protocol v1 = Ok r1 -> buildRequest sha256 ToUpper ToLower protocol v2 = Ok r2 ->
  lr_Canonical r1 = lr_Canonical r2 -> unsigned r1 = unsigned r2.
Proof.
  intros P1 P2 (t1 & C1 & ->)%buildRequest_ok (t2 & C2 & ->)%buildRequest_ok. cbn [lr_Canonical]. intros <-.
  pose proof (same_text_same_fields _ _ _ _ P1 P2 C1 C2) as He.
  assert (Hv : forall k, k <> "signature" -> k <> "sign" -> k <> "sign_type" -> value_of v1 k = value_of v2 k).
  { intros k H1 H2 H3. eapply same_fields_value; [done|]. intros x. by apply always_signed. }
  unfold unsigned. cbn. rewrite !(Hv _) by (by destruct (protocol == ProtocolFormMD5)). done.
Qed.
End signed_requests.

Definition sample_fields (sign : string) : gmap string string :=
  list_to_map [("pid", "7"); ("out_trade_no", "A-1"); ("money", "1.50"); ("notify_url", "https://shop.example/cb"); ("sign", sign)].

Definition no_ampersand (v : gmap string string) : bool :=
  forallb (fun e => str_no ampersand e.1 && str_no equals_sign e.1 && str_no ampersand e.2) (map_to_list v).

Lemma no_ampersand_plain protocol v : no_ampersand v = true -> plain_fields protocol v.
Proof.
  unfold no_ampersand. rewrite forallb_forall. intros H k x [Hx _]%map_lookup_filter_Some.
  specialize (H (k, x) ltac:(by apply list_elem_of_In, elem_of_map_to_list)). cbn in H. by bool_hyp.
Qed.

Lemma signed_text_binds_order_witness : exists r1 r2,
  buildRequest (fun s => s) (fun s => s) (fun s => s) ProtocolFormMD5 (sample_fields "s1") = Ok r1 /\
  buildRequest (fun s => s) (fun s => s) (fun s => s) ProtocolFormMD5 (sample_fields "s2") = Ok r2 /\
  r1 <> r2 /\ unsigned r1 = unsigned r2.
Proof.
  eexists _, _. split; [vm_compute; reflexivity|]. split; [vm_compute; reflexivity|]. split; [discriminate|].
  eapply (signed_text_binds_order (fun s => s) (fun s => s) (fun s => s) ProtocolFormMD5 (sample_fields "s1") (sample_fields "s2")).
  - apply no_ampersand_plain. vm_compute. reflexivity.
  - apply no_ampersand_plain. vm_compute. reflexivity.
  - vm_compute. reflexivity.
  - vm_compute. reflexivity.
  - reflexivity.
Defined.

(** The same order as a merchant signs it, with a name its customer chose, and as
    it can be sent again. *)
Definition merchant_query : string :=
  "pid=7&out_trade_no=A-1&money=1.50&name=Tea%26notify_url%3Dhttps%3A%2F%2Fevil.example%2Fcb&notify_url=https%3A%2F%2Fshop.example%2Fcb&sign=0123456789abcdef0123456789abcdef".
Definition forged_query : string :=
  "pid=7&out_trade_no=A-1&money=1.50&name=Tea&notify_url=https%3A%2F%2Fevil.example%2Fcb%26notify_url%3Dhttps%3A%2F%2Fshop.example%2Fcb&sign=0123456789abcdef0123456789abcdef".

(** Fields are joined without escaping, so the text does not determine them:
    these two requests are both read, sign the same text under the same
    signature and digest, and send the callback to different hosts. *)
Theorem signed_text_ambiguous (sha256 ToUpper ToLower : string -> string) : exists r1 r2,
  ParseFormMD5 sha256 ToUpper ToLower merchant_query "" "" = Ok r1 /\
  ParseFormMD5 sha256 ToUpper ToLower forged_query "" "" = Ok r2 /\
  lr_Canonical r1 = lr_Canonical r2 /\ lr_CanonicalHash r1 = lr_CanonicalHash r2 /\ lr_Signature r1 = lr_Signature r2 /\
  lr_NotifyURL r1 = "https://shop.example/cb" /\
  lr_NotifyURL r2 = "https://evil.example/cb&notify_url=https://shop.example/cb".
Proof.
  do 2 eexists. split; [vm_compute; reflexivity|]. split; [vm_compute; reflexivity|]. split_and!; reflexivity.
Qed.

(** ** Signatures *)

Ltac div_lia := Z.to_euclidean_division_equations; lia.

Lemma hex_lower_digit c x : hex_value c = Some x -> lower_byte c = c -> hex_digit x = c /\ 0 <= x < 16.
Proof.
  unfold hex_value, lower_byte, hex_digit. pose proof (code_range c) as Hr. intros H Hl.
  destruct (_ && _) eqn:E1 in H; bool_hyp.
  - injection H as <-. split; [|lia]. rewrite (proj2 (Z.ltb_lt _ _)) by lia. replace (48 + (code c - 48)) with (code c) by lia. apply chr_code.
  - destruct (_ && _) eqn:E2 in H; bool_hyp.
    + injection H as <-. split; [|lia]. rewrite (proj2 (Z.ltb_ge _ _)) by lia. replace (87 + (code c - 87)) with (code c) by lia. apply chr_code.
    + destruct (_ && _) eqn:E3 in H; [|done]. bool_hyp. exfalso.
      destruct (_ && _) eqn:E4 in Hl; [|bool_hyp; apply andb_false_iff in E4 as [?|?]; bool_hyp; lia].
      apply (f_equal code) in Hl. rewrite code_chr in Hl by lia. lia.
Qed.

(** Lower-case hexadecimal text is the encoding of what it decodes to. *)
Lemma hex_decode_encode s t : hex_decode s = Some t -> lower_ascii s = s -> hex_encode t = s.
Proof.
  revert t. enough (forall n s t, (String.length s <= n)%nat -> hex_decode s = Some t -> lower_ascii s = s -> hex_encode t = s) as H
    by (intros; by eapply H).
  intros n. induction n as [|n IH]; intros [|a [|b r]] t Hl H Hlow; cbn in Hl; try lia; try discriminate H;
    try (by injection H as <-).
  cbn [hex_decode] in H. cbn [lower_ascii] in Hlow.
  destruct (hex_value a) as [x|] eqn:Ea; [|done]. destruct (hex_value b) as [y|] eqn:Eb; [|done].
  destruct (hex_decode r) as [u|] eqn:Er; [|done]. injection H as <-. injection Hlow as Ha Hb Hr.
  apply hex_lower_digit in Ea as [Ea Hx]; [|done]. apply hex_lower_digit in Eb as [Eb Hy]; [|done].
  cbn [hex_encode]. rewrite code_chr by lia. replace ((16 * x + y) / 16) with x by div_lia. replace ((16 * x + y) mod 16) with y by div_lia.
  rewrite Ea, Eb. f_equal. f_equal. apply IH; [lia|done|done].
Qed.

Lemma hex_digit_lower d : 0 <= d < 16 -> lower_byte (hex_digit d) = hex_digit d.
Proof.
  intros Hd. unfold lower_byte, hex_digit.
  destruct (d <? 10) eqn:E; bool_hyp; rewrite code_chr by lia.
  - by rewrite (proj2 (andb_false_iff _ _)) by (left; lia).
  - by rewrite (proj2 (andb_false_iff _ _)) by (right; lia).
Qed.

Lemma hex_encode_lower s : lower_ascii (hex_encode s) = hex_encode s.
Proof.
  induction s as [|c s IH]; [done|]. pose proof (code_range c). cbn [hex_encode lower_ascii].
  rewrite IH, !hex_digit_lower by div_lia. done.
Qed.

(** The verifier accepts exactly the signature the signer makes. *)
Lemma VerifyMD5_iff md5 canonical received secret :
  String.length (md5 (canonical +:+ secret)) = 16%nat ->
  VerifyMD5 md5 canonical received secret = true <-> received = SignMD5 md5 canonical secret.
Proof.
  intros Hlen. unfold VerifyMD5, SignMD5. set (d := md5 _) in *. split.
  - intros H. destruct (_ || _) eqn:Eg in H; [done|]. bool_hyp.
    destruct (hex_decode received) as [u|] eqn:Eu; [|done]. apply String.eqb_eq in H as ->.
    symmetry. apply hex_decode_encode; [done|]. done.
  - intros ->. unfold len. rewrite hex_encode_length, Hlen, hex_encode_lower, hex_roundtrip, !String.eqb_refl. done.
Qed.

(** ** Query text *)

(** The bytes of escaped text. *)
Definition escaped_byte (c : ascii) : bool :=
  isUnreserved (code c) || (code c =? 43) || (code c =? 37).

Lemma upper_hex_value d : 0 <= d < 16 -> hex_value (upper_hex_digit d) = Some d /\ isUpperHex (upper_hex_digit d) = true
  /\ escaped_byte (upper_hex_digit d) = true.
Proof.
  intros Hd. unfold hex_value, upper_hex_digit, isUpperHex, is_digit, escaped_byte, isUnreserved.
  destruct (d <? 10) eqn:E; bool_hyp; rewrite code_chr by lia.
  - replace ((48 <=? 48 + d) && (48 + d <=? 57)) with true by lia. rewrite !orb_true_r. split_and!; [f_equal; lia|done|done].
  - replace ((48 <=? 55 + d) && (55 + d <=? 57)) with false by lia.
    replace ((97 <=? 55 + d) && (55 + d <=? 102)) with false by lia.
    replace ((65 <=? 55 + d) && (55 + d <=? 70)) with true by lia.
    replace ((65 <=? 55 + d) && (55 + d <=? 90)) with true by lia. rewrite !orb_true_r. split_and!; [f_equal; lia|done|done].
Qed.

Lemma byte_split c : 16 * (code c / 16) + code c mod 16 = code c.
Proof. pose proof (code_range c). div_lia. Qed.

Lemma nibbles c : 0 <= code c / 16 < 16 /\ 0 <= code c mod 16 < 16.
Proof. pose proof (code_range c). div_lia. Qed.

Lemma QueryUnescape_escape s : QueryUnescape (QueryEscape s) = Some s.
Proof.
  induction s as [|c s IH]; [done|]. cbn [QueryEscape].
  destruct (isUnreserved (code c)) eqn:Eu.
  - cbn [QueryUnescape]. rewrite IH. destruct (Ascii.eqb_spec c percent) as [->|]; [done|]. by destruct (Ascii.eqb_spec c plus_byte) as [->|].
  - destruct (Ascii.eqb_spec c space_byte) as [->|]; cbn [QueryUnescape].
    + by rewrite IH.
    + destruct (nibbles c) as [H1 H2]. rewrite Ascii.eqb_refl, IH.
      destruct (upper_hex_value _ H1) as [-> _]. destruct (upper_hex_value _ H2) as [-> _]. by rewrite byte_split, chr_code.
Qed.

Lemma QueryEscape_bytes s : str_forall escaped_byte (QueryEscape s) = true.
Proof.
  induction s as [|c s IH]; [done|]. cbn [QueryEscape]. destruct (isUnreserved (code c)) eqn:Eu.
  - cbn. rewrite IH. unfold escaped_byte. by rewrite Eu.
  - destruct (Ascii.eqb_spec c space_byte) as [->|]; cbn [str_forall]; rewrite IH; [done|].
    destruct (nibbles c) as [H1 H2]. destruct (upper_hex_value _ H1) as (_ & _ & ->).
    destruct (upper_hex_value _ H2) as (_ & _ & ->). done.
Qed.

Lemma percent_ok_escape s t : percent_ok (QueryEscape s +:+ t) = percent_ok t.
Proof.
  induction s as [|c s IH]; [done|]. cbn [QueryEscape]. destruct (isUnreserved (code c)) eqn:Eu.
  - cbn [String.append percent_ok]. destruct (Ascii.eqb_spec c percent) as [->|]; [discriminate Eu|exact IH].
  - destruct (Ascii.eqb_spec c space_byte) as [->|]; cbn [String.append percent_ok].
    + by rewrite IH.
    + destruct (nibbles c) as [H1 H2]. rewrite Ascii.eqb_refl. cbn [negb].
      destruct (upper_hex_value _ H1) as (-> & -> & _). destruct (upper_hex_value _ H2) as (-> & -> & _).
      cbn [negb orb from_option id]. by rewrite byte_split, Eu, IH.
Qed.

Lemma utf8_ascii s : str_forall (fun c => code c <? 128) s = true -> utf8_valid s = true.
Proof. induction s as [|c s IH]; [done|]. cbn. intros [-> H]%andb_true_iff. by apply IH. Qed.

(** The bytes of an encoded query. *)
Definition query_byte (c : ascii) : bool := escaped_byte c || (code c =? 61) || (code c =? 38).

Lemma escaped_is_byte s (p : ascii -> bool) : (forall c, escaped_byte c = true -> p c = true) -> str_forall p (QueryEscape s) = true.
Proof. intros H. eapply str_forall_impl; [|apply QueryEscape_bytes]. done. Qed.

Lemma escaped_not c d : escaped_byte c = true -> escaped_byte d = false -> Ascii.eqb c d = false.
Proof. intros Hc Hd. destruct (Ascii.eqb_spec c d) as [->|]; [congruence|done]. Qed.

Lemma escaped_no d s : escaped_byte d = false -> str_no d (QueryEscape s) = true.
Proof. intros Hd. apply escaped_is_byte. intros c Hc. by rewrite (escaped_not c d). Qed.

Lemma query_byte_small c : query_byte c = true -> (code c <? 128) = true /\ existsb (Z.eqb (code c)) [0; 13; 10; 35] = false.
Proof.
  unfold query_byte, escaped_byte, isUnreserved. cbn [existsb]. rewrite orb_false_r. intros H.
  split; [lia|]. rewrite !orb_false_iff. lia.
Qed.

Definition pair_text (e : string * string) : string := QueryEscape e.1 +:+ String equals_sign (QueryEscape e.2).

Lemma pair_text_bytes e : str_forall query_byte (pair_text e) = true.
Proof.
  unfold pair_text. rewrite str_forall_app. cbn [str_forall].
  assert (Hq : forall s, str_forall query_byte (QueryEscape s) = true).
  { intros s. apply escaped_is_byte. intros c Hc. unfold query_byte. by rewrite Hc. }
  by rewrite !Hq.
Qed.

Lemma pair_text_no_ampersand e : str_no ampersand (pair_text e) = true.
Proof.
  unfold pair_text, str_no. rewrite str_forall_app. cbn [str_forall].
  pose proof (escaped_no ampersand e.1 eq_refl) as H1. pose proof (escaped_no ampersand e.2 eq_refl) as H2.
  unfold str_no in *. by rewrite H1, H2.
Qed.

Lemma pair_text_len e : 1 <= len (pair_text e).
Proof. unfold pair_text. rewrite len_app. pose proof (len_nonneg (QueryEscape e.1)). unfold len at 2. cbn [String.length]. lia. Qed.

Lemma query_piece_pair e : query_piece (pair_text e) = Some [e].
Proof.
  unfold query_piece. assert (str_no (chr 59) (pair_text e) = true) as ->.
  { unfold pair_text, str_no. rewrite str_forall_app. cbn [str_forall].
    pose proof (escaped_no (chr 59) e.1 eq_refl) as H1. pose proof (escaped_no (chr 59) e.2 eq_refl) as H2.
    unfold str_no in *. by rewrite H1, H2. }
  cbn [negb]. assert (pair_text e == "" = false) as ->.
  { apply String.eqb_neq. unfold pair_text. by destruct (QueryEscape e.1). }
  unfold pair_text. rewrite cut_at_app.
  - cbn [from_option id]. rewrite !QueryUnescape_escape. by destruct e.
  - apply escaped_is_byte. intros c Hc. apply negb_true_iff. rewrite Ascii.eqb_sym. by apply escaped_not.
  - apply Ascii.eqb_refl.
Qed.

Lemma query_pieces_pairs l : query_pieces (map pair_text l) = Some l.
Proof. induction l as [|e l IH]; [done|]. cbn [map query_pieces]. by rewrite query_piece_pair, IH. Qed.

Lemma percent_ok_pairs l : percent_ok (Join (map pair_text l) (String ampersand "")) = Ok tt.
Proof.
  assert (Hp : forall e t, percent_ok (pair_text e +:+ t) = percent_ok t).
  { intros e t. unfold pair_text. rewrite str_app_assoc, percent_ok_escape. cbn [String.append percent_ok].
    change (Ascii.eqb equals_sign percent) with false. cbn [negb]. apply percent_ok_escape. }
  induction l as [|e l IH]; [done|]. destruct l as [|e' l]; cbn [map Join].
  - rewrite <- (str_app_nil_r (pair_text e)). apply Hp.
  - rewrite Hp. exact IH.
Qed.

Lemma Join_bytes l : str_forall query_byte (Join (map pair_text l) (String ampersand "")) = true.
Proof.
  induction l as [|e l IH]; [done|]. destruct l as [|e' l]; cbn [map Join]; [apply pair_text_bytes|].
  rewrite str_forall_app, pair_text_bytes. exact IH.
Qed.

(** The entries of a map in the order of their keys. *)
Definition sorted_entries (v : gmap string string) : list (string * string) :=
  map (fun key => (key, value_of v key)) (sort_by str_less (map fst (map_to_list v))).

Lemma sorted_entries_keys v : map fst (sorted_entries v) = sort_by str_less (map fst (map_to_list v)).
Proof. unfold sorted_entries. rewrite map_map. cbn. apply map_id. Qed.

Lemma sorted_keys_NoDup v : NoDup (map fst (sorted_entries v)).
Proof. rewrite sorted_entries_keys, <- sort_by_perm. apply NoDup_fst_map_to_list. Qed.

Lemma sorted_entries_spec v k x : (k, x) ∈ sorted_entries v <-> v !! k = Some x.
Proof.
  unfold sorted_entries. rewrite list_elem_of_In, in_map_iff. split.
  - intros (k' & [= -> <-] & Hk). apply sort_by_In, in_map_iff in Hk as ([k'' y] & E & Hy). cbn in E. subst.
    apply list_elem_of_In, elem_of_map_to_list in Hy. unfold value_of. by rewrite Hy.
  - intros Hx. exists k. unfold value_of. rewrite Hx. split; [done|]. apply sort_by_In, in_map_iff. exists (k, x).
    split; [done|]. by apply list_elem_of_In, elem_of_map_to_list.
Qed.

Lemma sorted_entries_map v : list_to_map (sorted_entries v) = v.
Proof.
  apply map_eq. intros k. destruct (v !! k) as [x|] eqn:Ex.
  - apply elem_of_list_to_map_1; [apply sorted_keys_NoDup|]. by apply sorted_entries_spec.
  - apply not_elem_of_list_to_map_1. intros ([k' x] & -> & Hx)%list_elem_of_fmap. apply sorted_entries_spec in Hx. cbn in Ex. congruence.
Qed.

Lemma EncodeValues_pairs v : EncodeValues v = Join (map pair_text (sorted_entries v)) (String ampersand "").
Proof. unfold EncodeValues, sorted_entries. rewrite map_map. reflexivity. Qed.

(** In a list of entries with distinct keys every key has one entry. *)
Lemma filter_one (l : list (string * string)) e : NoDup (map fst l) -> e ∈ l ->
  length (filter (fun e' => e'.1 = e.1) l) = 1%nat.
Proof.
  assert (Hnone : forall l', e.1 ∉ map fst l' -> filter (fun e' : string * string => e'.1 = e.1) l' = []).
  { intros l'. induction l' as [|a l' IH]; [done|]. cbn [map]. intros [Ha Hl]%not_elem_of_cons. rewrite filter_cons_False by congruence. by apply IH. }
  induction l as [|a l IH]; cbn [map]; intros Hd He; [by apply elem_of_nil in He|]. apply NoDup_cons in Hd as [Ha Hd].
  apply elem_of_cons in He as [->|He].
  - rewrite filter_cons_True by done. by rewrite Hnone.
  - rewrite filter_cons_False; [by apply IH|]. intros E. apply Ha. rewrite E. apply list_elem_of_In, in_map, list_elem_of_In. done.
Qed.

Lemma single_keys_sorted v : v !! "" = None -> single_keys (sorted_entries v) = true.
Proof.
  intros He. apply forallb_forall. intros [k x] Hin%list_elem_of_In. apply andb_true_iff. split.
  - apply negb_true_iff, String.eqb_neq. cbn. intros ->. apply sorted_entries_spec in Hin. congruence.
  - apply Nat.eqb_eq, filter_one; [apply sorted_keys_NoDup|done].
Qed.

(** The gateway reads back what it encodes: a form of any fields with names,
    within the size limit, is parsed to these fields, through the strict check
    of the percent encoding and of duplicates. *)
Theorem encoded_form_roundtrip v :
  v !! "" = None -> len (EncodeValues v) <= MaxLegacyBodyBytes -> parseEncoded (EncodeValues v) = Ok v.
Proof.
  intros Hk Hlen. unfold parseEncoded. pose proof (Join_bytes (sorted_entries v)) as Hb. rewrite <- EncodeValues_pairs in Hb.
  rewrite utf8_ascii by (eapply str_forall_impl; [|exact Hb]; by intros c [? _]%query_byte_small).
  assert ((len (EncodeValues v) >? MaxLegacyBodyBytes) = false) as -> by (rewrite Z.gtb_ltb; lia). cbn [negb orb].
  destruct (len (EncodeValues v) =? 0) eqn:E0.
  - apply Z.eqb_eq in E0. rewrite <- (sorted_entries_map v). rewrite EncodeValues_pairs in E0.
    destruct (sorted_entries v) as [|e l]; [done|]. exfalso. revert E0.
    destruct l; cbn [map Join]; rewrite ?len_app; pose proof (pair_text_len e); [lia|].
    pose proof (len_nonneg (Join (pair_text p :: map pair_text l) (String ampersand ""))).
    pose proof (len_nonneg (String ampersand "")). cbn [Join] in *. lia.
  - unfold validateEncoded, ContainsAny. rewrite (str_forall_impl query_byte); [|by intros c [_ ->]%query_byte_small|done].
    cbn [negb]. rewrite EncodeValues_pairs, percent_ok_pairs. cbn [mbind result_bind]. unfold ParseQuery.
    rewrite Join_nonempty_split.
    + by rewrite query_pieces_pairs, single_keys_sorted, sorted_entries_map.
    + intros Hnil%map_eq_nil. rewrite EncodeValues_pairs, Hnil in E0. done.
    + apply Forall_forall. intros s (? & -> & ?)%list_elem_of_fmap. apply pair_text_no_ampersand.
Qed.

Lemma encoded_form_roundtrip_witness :
  parseEncoded (EncodeValues (<["name" := "Tea & cake"]> (sample_fields "s1"))) = Ok (<["name" := "Tea & cake"]> (sample_fields "s1")).
Proof. apply encoded_form_roundtrip; [reflexivity|vm_compute; discriminate]. Defined.

(** ** Decimals *)

(** The number a plain decimal denotes, in lowest terms. *)
Definition plain_rat (value : string) : Z * Z :=
  match Split value dot with
  | [] => (0, 1)
  | whole :: rest =>
      let fraction := default "" (head rest) in
      let n := dec_value 0 (whole +:+ fraction) in
      let d := 10 ^ len fraction in
      (n / Z.gcd n d, d / Z.gcd n d)
  end.

Definition digits (s : string) : Prop := str_forall is_digit s = true.

Lemma Split_decimal w f : digits w -> digits f ->
  Split (decimal_text w f) dot = if f == "" then [w] else [w; f].
Proof.
  intros Hw%digits_no_dot Hf%digits_no_dot. unfold decimal_text. destruct (f == "") eqn:E.
  - by apply (Join_nonempty_split dot [w]); [|repeat constructor].
  - by apply (Join_nonempty_split dot [w; f]); [|repeat constructor].
Qed.

Lemma decimalPattern_iff value : decimalPattern value = true <->
  exists w f, value = decimal_text w f /\ w <> "" /\ digits w /\ digits f.
Proof.
  unfold decimalPattern. split.
  - pose proof (Split_Join dot value) as HJ. destruct (Split value dot) as [|w [|f [|]]]; try done; intros H; bool_hyp.
    + exists w, "". by rewrite <- HJ.
    + exists w, f. rewrite <- HJ. unfold decimal_text. assert (f == "" = false) as -> by (by apply String.eqb_neq). done.
  - intros (w & f & -> & Hne & Hw & Hf). rewrite Split_decimal by done. apply String.eqb_neq in Hne.
    destruct (f == "") eqn:E; rewrite ?E, Hne; cbn [negb andb]; by rewrite ?Hw, ?Hf.
Qed.

Lemma plain_rat_decimal w f : digits w -> digits f ->
  plain_rat (decimal_text w f) =
  (let n := dec_value 0 (w +:+ f) in let d := 10 ^ len f in (n / Z.gcd n d, d / Z.gcd n d)).
Proof.
  intros Hw Hf. unfold plain_rat. rewrite Split_decimal by done. destruct (String.eqb_spec f "") as [->|]; done.
Qed.

(** Scaling in lowest terms is exact when scaling the text's digits is. *)
Lemma lowest_terms n d num den F : 0 <= n -> 0 < d -> 0 <= F -> num = n / Z.gcd n d -> den = d / Z.gcd n d ->
  0 <= num /\ 0 < den /\ (num = 0 <-> n = 0) /\ (forall q, num * F = q * den <-> n * F = q * d).
Proof.
  intros Hn Hd HF -> ->. set (g := Z.gcd n d).
  assert (Hg : 0 < g) by (pose proof (Z.gcd_nonneg n d); destruct (Z.eq_dec g 0) as [E|]; [apply Z.gcd_eq_0_r in E; lia|unfold g in *; lia]).
  destruct (Z.gcd_divide_l n d) as [a Ha]. destruct (Z.gcd_divide_r n d) as [b Hb]. fold g in Ha, Hb.
  rewrite Ha, Hb, !Z.div_mul by lia. split_and!; [nia|nia|nia|]. intros q. split; intros H; [nia|].
  apply (Z.mul_reg_r _ _ g); [lia|]. nia.
Qed.

Section decimals.
Context (SetString : string -> option (Z * Z)).
(** [big.Rat.SetString] reads plain decimals. *)
Hypothesis SetString_plain : forall value, decimalPattern value = true -> SetString value = Some (plain_rat value).

Lemma SetString_decimal w f : w <> "" -> digits w -> digits f ->
  exists num den, SetString (decimal_text w f) = Some (num, den) /\ 0 <= num /\ 0 < den /\
    (num = 0 <-> dec_value 0 (w +:+ f) = 0) /\
    forall F q, 0 <= F -> num * F = q * den <-> dec_value 0 (w +:+ f) * F = q * 10 ^ len f.
Proof.
  intros Hne Hw Hf. rewrite SetString_plain by (apply decimalPattern_iff; by exists w, f). rewrite plain_rat_decimal by done.
  cbv zeta. do 2 eexists. split; [done|].
  assert (0 <= dec_value 0 (w +:+ f)) as Hn.
  { unfold digits in *. pose proof (dec_value_bound (w +:+ f)) as H. rewrite str_forall_app, Hw, Hf in H. specialize (H eq_refl). lia. }
  assert (0 < 10 ^ len f) as Hd by (apply Z.pow_pos_nonneg; [lia|apply len_nonneg]).
  pose proof (fun F HF => lowest_terms _ _ _ _ F Hn Hd HF eq_refl eq_refl) as H.
  destruct (H 0) as (H1 & H2 & H3 & _); [lia|]. split_and!; [done|done|done|]. intros F q HF. by apply H.
Qed.

(** A quotient without remainder. *)
Lemma exact_quotient a b : 0 <= a -> 0 < b -> Z.rem a b = 0 <-> a = Z.quot a b * b.
Proof. intros Ha Hb. pose proof (Z.quot_rem' a b). lia. Qed.

(** The text of the amount in minor units, and which amounts there are. *)
Definition minor_units (value : string) (scale : Z) (a : Z) : Prop :=
  exists w f, value = decimal_text w f /\ w <> "" /\ digits w /\ digits f /\
    dec_value 0 (w +:+ f) * 10 ^ scale = a * 10 ^ len f.

Lemma DecimalToMinor_iff value scale m : 0 <= scale ->
  DecimalToMinor SetString value scale = Ok m <->
  exists a, 0 < a < amount_limit /\ m = dec_string a /\ minor_units value scale a.
Proof.
  intros Hs. unfold DecimalToMinor. assert (0 < 10 ^ scale) as HF by (apply Z.pow_pos_nonneg; lia). split.
  - destruct (decimalPattern value) eqn:Ep; [|done]. apply decimalPattern_iff in Ep as (w & f & -> & Hne & Hw & Hf).
    destruct (SetString_decimal w f Hne Hw Hf) as (num & den & -> & Hn & Hd & Hz & Hq). cbn [negb].
    destruct (num <=? 0) eqn:E0; [done|]. cbv zeta. destruct (_ || _) eqn:Eg; [done|]. intros [= <-]. apply orb_false_iff in Eg as [H%negb_false_iff%Z.eqb_eq Eb].
    apply Z.leb_gt in E0. apply exact_quotient in H; [|nia|done]. set (q := Z.quot _ _) in *.
    assert (0 <= q) by (subst q; apply Z.quot_pos; nia).
    exists q. split; [|split; [done|]].
    + split; [destruct (Z.eq_dec q 0) as [Eq|]; [rewrite Eq in H; nia|lia]|].
      rewrite BitLen_gt_256 in Eb by done. apply Z.leb_gt in Eb. lia.
    + exists w, f. split_and!; try done. apply Hq; [lia|done].
  - intros (a & [Ha Hlim] & -> & w & f & -> & Hne & Hw & Hf & He).
    assert (decimalPattern (decimal_text w f) = true) as -> by (apply decimalPattern_iff; by exists w, f).
    destruct (SetString_decimal w f Hne Hw Hf) as (num & den & -> & Hn & Hd & Hz & Hq). cbn [negb].
    apply Hq in He; [|lia]. assert (num <> 0) by nia. assert ((num <=? 0) = false) as -> by lia. cbv zeta. rewrite He.
    rewrite Z.quot_mul, Z.rem_mul by lia. rewrite BitLen_gt_256 by lia. assert ((amount_limit <=? a) = false) as -> by lia. done.
Qed.

Lemma TrimRightByte_digits c s : is_digit c = false -> digits s -> TrimRightByte c s = s.
Proof.
  intros Hc. unfold digits. induction s as [|d s IH]; [done|]. cbn. intros [Hd Hs]%andb_true_iff. rewrite IH by done.
  destruct (Ascii.eqb_spec d c) as [->|]; [congruence|done].
Qed.

Lemma TrimRightByte_tail c s t : TrimRightByte c t <> "" -> TrimRightByte c (s +:+ t) = s +:+ TrimRightByte c t.
Proof.
  intros Ht. induction s as [|d s IH]; [done|]. cbn. rewrite IH. destruct (Ascii.eqb d c); [|done].
  destruct (String.eqb_spec (s +:+ TrimRightByte c t) "") as [E|]; [|done]. by destruct s.
Qed.

Lemma TrimRightByte_drop c s : TrimRightByte c (s +:+ String c "") = TrimRightByte c s.
Proof. induction s as [|d s IH]; cbn; [by rewrite Ascii.eqb_refl|]. by rewrite IH. Qed.

(** The fraction without its trailing zeros; everything else is kept. *)
Lemma normalizedDecimal_text w f : w <> "" -> digits w -> digits f ->
  normalizedDecimal SetString (decimal_text w f) = Ok (decimal_text w (TrimRightZeros f)).
Proof.
  intros Hne Hw Hf. unfold normalizedDecimal.
  destruct (SetString_decimal w f Hne Hw Hf) as (num & den & -> & Hn & _). assert ((num <? 0) = false) as -> by lia. cbv zeta.
  assert (digits (TrimRightZeros f)) as Ht.
  { unfold digits in *. destruct (TrimRightZeros_split f) as (n & _ & E). rewrite E, str_forall_app in Hf. by bool_hyp. }
  assert (Hval : (if negb (str_no dot (decimal_text w f))
                  then TrimRightByte dot (TrimRightZeros (decimal_text w f)) else decimal_text w f) = decimal_text w (TrimRightZeros f)).
  { unfold decimal_text. destruct (String.eqb_spec f "") as [->|Hf0]; [by rewrite digits_no_dot|].
    assert (str_no dot (w +:+ String dot f) = false) as ->.
    { unfold str_no. rewrite str_forall_app. cbn [str_forall]. rewrite Ascii.eqb_refl. by rewrite andb_false_r. }
    cbn [negb]. rewrite TrimRightZeros_app by (by apply TrimRightZeros_byte).
    assert (TrimRightZeros (String dot f) = String dot (TrimRightZeros f)) as -> by done.
    destruct (String.eqb_spec (TrimRightZeros f) "") as [->|Hf1].
    - rewrite TrimRightByte_drop. by apply TrimRightByte_digits.
    - assert (TrimRightByte dot (String dot (TrimRightZeros f)) = String dot (TrimRightZeros f)) as E.
      { cbn. rewrite TrimRightByte_digits by done. apply String.eqb_neq in Hf1. by rewrite Hf1. }
      rewrite TrimRightByte_tail; by rewrite E. }
  rewrite Hval. assert (decimal_text w (TrimRightZeros f) == "" = false) as ->.
  { apply String.eqb_neq. unfold decimal_text. destruct (_ == _); [done|]. by destruct w. }
  by destruct (SetString_decimal w (TrimRightZeros f) Hne Hw Ht) as (? & ? & -> & _).
Qed.

Lemma pad_zeros_spec rounds scale s : 0 <= scale -> Z.of_nat rounds >= scale + 1 - len s -> digits s ->
  exists k, 0 <= k /\ pad_zeros rounds scale s = zeros k +:+ s /\
    (k = 0 /\ scale < len s \/ k + len s = scale + 1).
Proof.
  revert s. induction rounds as [|n IH]; intros s Hs Hr Hd; cbn [pad_zeros].
  - exists 0. split; [lia|]. split; [done|]. left. lia.
  - destruct (len s <=? scale) eqn:E; bool_hyp; [|exists 0; split; [lia|]; split; [done|left; lia]].
    destruct (IH ("0" +:+ s)) as (k & Hk & -> & Hcase); [done| | |].
    + rewrite len_app. change (len "0") with 1. lia.
    + done.
    + exists (k + 1). split; [lia|]. rewrite zeros_add, str_app_assoc by lia. split; [done|].
      rewrite len_app in Hcase. change (len "0") with 1 in Hcase. lia.
Qed.

Lemma cut_digits n s : digits s -> 0 <= n <= len s ->
  let w := str_take (Z.to_nat n) s in let f := str_drop (Z.to_nat n) s in
  digits w /\ digits f /\ len w = n /\ len f = len s - n /\ s = w +:+ f.
Proof.
  intros Hd Hn. cbv zeta. assert (s = str_take (Z.to_nat n) s +:+ str_drop (Z.to_nat n) s) as E by (symmetry; apply str_take_drop).
  assert (len (str_take (Z.to_nat n) s) = n) as Hl by (unfold len in *; rewrite length_str_take; lia).
  split_and!; [by apply str_forall_take|by apply str_forall_drop|done| |done].
  rewrite E at 2. rewrite len_app. lia.
Qed.

(** A fixed number of places, or a refusal when they are too few. *)
Lemma fixedDecimal_text w f scale t : w <> "" -> digits w -> digits f -> 0 < scale ->
  fixedDecimal SetString (decimal_text w f) scale = Ok t ->
  exists w' f', t = decimal_text w' f' /\ w' <> "" /\ digits w' /\ digits f' /\ len f' = scale /\
    dec_value 0 (w' +:+ f') * 10 ^ len f = dec_value 0 (w +:+ f) * 10 ^ scale.
Proof.
  intros Hne Hw Hf Hs. unfold fixedDecimal.
  destruct (SetString_decimal w f Hne Hw Hf) as (num & den & -> & Hn & Hd & _ & Hq). assert ((num <? 0) = false) as -> by lia.
  assert (0 < 10 ^ scale) as HF by (apply Z.pow_pos_nonneg; lia).
  cbv zeta. destruct (negb _) eqn:Er; [done|]. apply negb_false_iff, Z.eqb_eq, exact_quotient in Er; [|nia|done].
  set (q := Z.quot _ _) in *. apply Hq in Er; [|lia].
  assert (0 <= q) as H0 by (subst q; apply Z.quot_pos; nia).
  pose proof (canonical_digits _ (dec_string_canonical q H0)) as Hdig.
  destruct (pad_zeros_spec (S (Z.to_nat scale)) scale (dec_string q)) as (k & Hk & -> & Hcase); [lia| |done|].
  { pose proof (len_nonneg (dec_string q)). lia. }
  intros [= <-]. set (s := zeros k +:+ dec_string q).
  assert (digits s) as Hsd by (unfold digits, s in *; by rewrite str_forall_app, zeros_digits, Hdig).
  assert (len s = k + len (dec_string q)) as Hls by (unfold s; by rewrite len_app, len_zeros).
  destruct (cut_digits (len s - scale) s) as (C1 & C2 & C3 & C4 & C5); [done|lia|]. cbv zeta in *.
  set (w' := str_take _ s) in *. set (f' := str_drop _ s) in *. exists w', f'.
  assert (f' <> "") as Hf' by (intros E; rewrite E in C4; unfold len at 1 in C4; cbn in C4; lia).
  split_and!; [|intros E; rewrite E in C3; unfold len at 1 in C3; cbn in C3; lia|done|done|lia|].
  - unfold decimal_text. apply String.eqb_neq in Hf'. by rewrite Hf'.
  - rewrite <- C5. unfold s. rewrite dec_value_app, zeros_value, dec_string_value by done. lia.
Qed.
End decimals.

(** Equal values in different texts are the same number of minor units. *)
Lemma minor_units_transfer w f w' f' scale a : w' <> "" -> digits w' -> digits f' ->
  dec_value 0 (w' +:+ f') * 10 ^ len f = dec_value 0 (w +:+ f) * 10 ^ len f' ->
  dec_value 0 (w +:+ f) * 10 ^ scale = a * 10 ^ len f -> minor_units (decimal_text w' f') scale a.
Proof.
  intros Hne Hw Hf He Ha. exists w', f'. split_and!; try done.
  assert (0 < 10 ^ len f) by (apply Z.pow_pos_nonneg; [lia|apply len_nonneg]). apply (Z.mul_reg_r _ _ (10 ^ len f)); [lia|]. nia.
Qed.

(** The amount an order is charged is the one its callback reports: when the
    text is accepted, the core is asked for a positive amount below 2^256 that
    is exactly the text's value, the JSON callback always has a text of that
    value, and so has the form callback when four places are enough. *)
Theorem reported_amount_is_charged SetString value scale m :
  (forall text, decimalPattern text = true -> SetString text = Some (plain_rat text)) -> 0 <= scale ->
  DecimalToMinor SetString value scale = Ok m ->
  exists a, m = dec_string a /\ 0 < a < amount_limit /\ minor_units value scale a /\
    (exists t, normalizedDecimal SetString value = Ok t /\ minor_units t scale a) /\
    (forall t, fixedDecimal SetString value 4 = Ok t -> minor_units t scale a).
Proof.
  intros HS Hs (a & [Ha Hl] & -> & Hm)%(DecimalToMinor_iff SetString HS); [|done]. exists a. split_and!; try done.
  - destruct Hm as (w & f & -> & Hne & Hw & Hf & He). eexists. split; [by apply normalizedDecimal_text|].
    destruct (TrimRightZeros_split f) as (n & Hn & E). set (f0 := TrimRightZeros f) in *.
    assert (digits f0) by (unfold digits in *; rewrite E, str_forall_app in Hf; by bool_hyp).
    eapply (minor_units_transfer w f); try done. rewrite E, <- str_app_assoc, (dec_value_app (w +:+ f0)), len_app, zeros_value, len_zeros by done.
    rewrite Z.pow_add_r by (done || apply len_nonneg). lia.
  - intros t Ht. destruct Hm as (w & f & -> & Hne & Hw & Hf & He).
    destruct (fixedDecimal_text SetString HS w f 4 t) as (w' & f' & -> & Hne' & Hw' & Hf' & Hlen & Hv); [done..|lia|done|].
    eapply (minor_units_transfer w f); try done. by rewrite Hlen.
Qed.

Definition sample_rat (value : string) : option (Z * Z) := if decimalPattern value then Some (plain_rat value) else None.

Lemma sample_rat_plain value : decimalPattern value = true -> sample_rat value = Some (plain_rat value).
Proof. unfold sample_rat. by intros ->. Qed.

Lemma reported_amount_is_charged_witness :
  DecimalToMinor sample_rat "012.50" 2 = Ok "1250" /\ fixedDecimal sample_rat "012.50" 4 = Ok "12.5000" /\
  exists a, "1250" = dec_string a /\ minor_units "12.5000" 2 a.
Proof.
  split; [vm_compute; reflexivity|]. split; [vm_compute; reflexivity|].
  destruct (reported_amount_is_charged sample_rat "012.50" 2 "1250" sample_rat_plain ltac:(lia) ltac:(vm_compute; reflexivity))
    as (a & Ea & _ & _ & _ & Hf).
  exists a. split; [exact Ea|]. apply Hf. vm_compute. reflexivity.
Defined.
