(* ===== verification/LegacyRuns.v ===== *)
(** * LegacyRuns: the gateway of the older protocols at work

    What an accepted creation means, that repeating it changes nothing, that a
    callback passes the merchant's own check, how often an order can be looked
    up, and how one order with a leading zero in its amount stops the gateway. *)

From Stdlib Require Import ZArith Lia Ascii String Permutation Sorted.
From stdpp Require Import base gmap list strings.
From S2P Require Import Prelude Text Numerals Encoding Money Auth Chains Webhook Legacy LegacyGateway LegacyFacts.

(** ** Creation *)

Section creation.
Context {R C : Type} `{!LegacyRepository R} `{!LegacyCore C}.
Context (sha256 md5 : string -> string) (EqualFold : string -> string -> bool) (SetString : string -> option (Z * Z))
  (ReadSecret : string -> option string) (parse : string -> option URL) (ToLower : string -> string)
  (LookupIP : string -> result string (list IP)).

Abbreviation admission := (admit_create (R := R) md5 EqualFold SetString ReadSecret parse ToLower LookupIP).
Abbreviation create := (Create (R := R) (C := C) sha256 md5 EqualFold SetString ReadSecret parse ToLower LookupIP).
Abbreviation valid_url := (fun u => is_ok (ValidateEndpoint parse ToLower LookupIP u) = true).

(** Whether a credential may be used at a time by a service that ends. *)
Definition usable (service : GatewayService) (credential : LegacyCredential) (now : Time) : Prop :=
  lc_Approved credential = true /\ lc_Enabled credential = true /\
  now < lc_SunsetAt credential <= gs_SunsetAt service.

(** The request is for the merchant's one currency, asset and network. *)
Definition bound_to (request : CreateRequest) (credential : LegacyCredential) : Prop :=
  lr_Currency request = lc_Currency credential /\ lr_Token request = lc_LegacyToken credential /\
  lr_Network request = lc_LegacyNetwork credential.

Lemma binding_ok request credential : validateBinding EqualFold request credential = Ok tt ->
  bound_to (normalizeBinding request credential) credential.
Proof.
  unfold validateBinding, normalizeBinding, bound_to. cbn. intros H.
  destruct (_ != _) eqn:E0 in H; [done|]. bool_hyp.
  assert (Hpick : forall s d : string, (s != "") && (s != d) = false -> (if s == "" then d else s) = d).
  { intros s d. destruct (String.eqb_spec s "") as [->|]; [done|]. cbn. intros Hd. bool_hyp. done. }
  assert (Hsame : forall s d : string, (s != d) = false -> (if s == "" then d else s) = d).
  { intros s d Hd. bool_hyp. subst. by destruct (d == ""). }
  destruct (lr_Protocol request == ProtocolJSONMD5).
  - destruct (_ || _) eqn:E1 in H; [done|]. apply orb_false_iff in E1 as [E1 E2].
    rewrite (Hsame _ _ E1), (Hsame _ _ E2). auto.
  - destruct (negb _) in H; [done|]. destruct (_ || _) eqn:E1 in H; [done|]. apply orb_false_iff in E1 as [E1 E2].
    rewrite (Hpick _ _ E1), (Hpick _ _ E2). auto.
Qed.

(** Everything an admitted request has passed. *)
Record admitted_request (service : GatewayService) (now : Time) (r : R) (request : CreateRequest) (peer : IP)
    (credential : LegacyCredential) (amountMinor : string) : Prop := {
  ad_worker : worker_stale service now = false;
  ad_open : now < gs_SunsetAt service;
  ad_credential : LookupCredential r (lr_Protocol request) (lr_PID request) now = Ok credential;
  ad_usable : usable service credential now;
  ad_peer : allowedPeer peer (lc_IPAllowlist credential) = true;
  ad_signed : exists secret, ReadSecret (lc_LegacySecretRef credential) = Some secret /\
    VerifyMD5 md5 (lr_Canonical request) (lr_Signature request) secret = true;
  ad_bound : bound_to (normalizeBinding request credential) credential;
  ad_notify : valid_url (lr_NotifyURL request);
  ad_return : lr_ReturnURL request <> "" -> valid_url (lr_ReturnURL request);
  ad_amount : DecimalToMinor SetString (lr_Amount request) (lc_CurrencyScale credential) = Ok amountMinor }.

Lemma admit_ok service now r request peer credential request' amountMinor :
  admission service now r request peer = Ok (credential, request', amountMinor) ->
  request' = normalizeBinding request credential /\
  admitted_request service now r request peer credential amountMinor.
Proof.
  unfold admit_create. destruct (worker_stale service now) eqn:Ew; [done|]. intros H.
  destruct (_ || _ || _) eqn:E1 in H; [done|]. apply orb_false_iff in E1 as [_ E1%negb_false_iff%Z.ltb_lt].
  destruct (LookupCredential _ _ _ _) as [cr|] eqn:Ec; [|done].
  destruct (_ || _ || _ || _ || _) eqn:E2 in H; [done|]. unfold Before, After in E2. bool_hyp.
  destruct (allowedPeer _ _) eqn:Ep; [|done]. cbn [negb] in H.
  destruct (ReadSecret _) as [secret|] eqn:Es; [|done]. destruct (VerifyMD5 _ _ _ _) eqn:Ev; [|done]. cbn [negb] in H.
  destruct (validateBinding EqualFold request cr) as [[]|] eqn:Eb; [|done]. cbn [mbind result_bind] in H. cbv zeta in H.
  destruct (negb _) eqn:En in H; [done|]. apply negb_false_iff in En.
  destruct (_ && _) eqn:Er in H; [done|].
  destruct (DecimalToMinor _ _ _) as [m|] eqn:Em; [|done]. injection H as <- <- <-.
  split; [done|]. constructor; try done.
  - eauto.
  - by apply binding_ok.
  - intros Hne. apply andb_false_iff in Er as [Er|Er]; bool_hyp; [|done]. cbn in Er. congruence.
Qed.

(** A creation is answered only while the worker is alive and before both
    sunsets, for an approved credential, from an allowed address, with the
    signature the merchant's secret gives to the signed text; the order is in the
    merchant's one currency, asset and network, its URLs are public HTTPS
    endpoints and its amount is an exact positive number of minor units; and the
    mapping it returns is for this signed text and the intent and route that the
    core returned. *)
Theorem creation_is_authorized service now random r c request peer r' c' res :
  (forall t, String.length (md5 t) = 16%nat) ->
  (forall text, decimalPattern text = true -> SetString text = Some (plain_rat text)) ->
  create service now random r c request peer = (r', c', Ok res) ->
  exists credential secret a,
    worker_stale service now = false /\ now < gs_SunsetAt service /\
    LookupCredential r (lr_Protocol request) (lr_PID request) now = Ok credential /\ usable service credential now /\
    allowedPeer peer (lc_IPAllowlist credential) = true /\
    ReadSecret (lc_LegacySecretRef credential) = Some secret /\
    lr_Signature request = SignMD5 md5 (lr_Canonical request) secret /\
    bound_to (normalizeBinding request credential) credential /\ valid_url (lr_NotifyURL request) /\
    (0 <= lc_CurrencyScale credential -> 0 < a < amount_limit /\ minor_units (lr_Amount request) (lc_CurrencyScale credential) a) /\
    lm_RequestHash (cz_Mapping res) = lr_CanonicalHash request /\
    lm_IntentID (cz_Mapping res) = ki_ID (cz_Intent res) /\ lm_RouteID (cz_Mapping res) = kr_ID (cz_Route res).
Proof.
  intros Hmd5 HS. unfold Create. destruct (admission _ _ _ _ _) as [[[credential request'] m]|] eqn:Ea; [|done].
  apply admit_ok in Ea as [-> []]. destruct ad_signed0 as (secret & Hr & Hv). apply VerifyMD5_iff in Hv; [|apply Hmd5].
  cbv zeta. destruct (CoreCreateIntent _ _ _ _ _) as [c1 [intent|]]; [|done].
  destruct (CoreCreateRoute _ _ _ _ _) as [c2 [route|]]; [|done]. destruct random as [bytes|]; [|done].
  destruct (RecordMapping _ _) as [r1 [[stored replay]|]]; [|done].
  destruct (_ || _) eqn:Eg; [done|]. intros [= <- <- <-]. cbn [cz_Mapping cz_Intent cz_Route]. bool_hyp.
  exists credential, secret, (dec_value 0 m). split_and!; try done.
  intros Hsc. apply (DecimalToMinor_iff SetString HS) in ad_amount0 as (a & Ha & -> & Hm); [|done].
  rewrite dec_string_value by lia. done.
Qed.

(** The core answers a repeated idempotency key with the first answer. *)
Definition core_replays : Prop := forall c credential key amount request intentID routeKey c1 c2 intent route,
  CoreCreateIntent c credential key amount request = (c1, Ok intent) ->
  CoreCreateRoute c1 credential intentID routeKey amount = (c2, Ok route) ->
  CoreCreateIntent c2 credential key amount request = (c2, Ok intent) /\
  CoreCreateRoute c2 credential intentID routeKey amount = (c2, Ok route).

(** The repository keeps the first mapping of an order
    ([ON CONFLICT (config_id, legacy_order_id) DO NOTHING]). *)
Definition mapping_kept : Prop := forall r m r1 stored replay m2,
  RecordMapping r m = (r1, Ok (stored, replay)) -> lm_ConfigID m2 = lm_ConfigID m -> lm_OrderID m2 = lm_OrderID m ->
  RecordMapping r1 m2 = (r1, Ok (stored, lm_TradeID stored != lm_TradeID m2)).

(** The steps of an accepted creation. *)
Lemma create_ok service now random r c request peer r1 c1 res :
  create service now random r c request peer = (r1, c1, Ok res) ->
  exists credential request' amount bytes c0,
    admission service now r request peer = Ok (credential, request', amount) /\ random = Some bytes /\
    let key prefix := stableKey sha256 prefix [lc_ConfigID credential; lr_Protocol request'; lr_OrderID request'] in
    let mapping := new_mapping credential request' (b64_encode bytes) (ki_ID (cz_Intent res)) (kr_ID (cz_Route res)) now in
    CoreCreateIntent c credential (key "legacy-intent") amount request' = (c0, Ok (cz_Intent res)) /\
    CoreCreateRoute c0 credential (ki_ID (cz_Intent res)) (key "legacy-route") amount = (c1, Ok (cz_Route res)) /\
    RecordMapping r mapping = (r1, Ok (cz_Mapping res, cz_Replayed res)) /\
    lm_IntentID (cz_Mapping res) = ki_ID (cz_Intent res) /\ lm_RouteID (cz_Mapping res) = kr_ID (cz_Route res) /\
    lm_RequestHash (cz_Mapping res) = lr_CanonicalHash request'.
Proof.
  unfold Create. destruct (admission _ _ _ _ _) as [[[credential request'] amount]|] eqn:Ea; [|done]. cbv zeta.
  destruct (CoreCreateIntent _ _ _ _ _) as [c0 [intent|]] eqn:Ei; [|done].
  destruct (CoreCreateRoute _ _ _ _ _) as [c2 [route|]] eqn:Er; [|done]. destruct random as [bytes|]; [|done].
  destruct (RecordMapping _ _) as [r2 [[stored replay]|]] eqn:Em; [|done].
  destruct (_ || _) eqn:Eg; [done|]. intros [= <- <- <-]. cbn [cz_Mapping cz_Intent cz_Route cz_Replayed]. bool_hyp.
  exists credential, request', amount, bytes, c0. split_and!; done.
Qed.

(** C29: Repeating an accepted creation, from any address and at any later time at
    which it is still admitted, returns the same order, intent and route and
    changes neither core nor repository; and a request that is accepted for the
    same order of the same merchant is the same signed text, and is answered
    with the order that was created first. *)
Theorem creation_is_idempotent service now random r c request peer r1 c1 res :
  core_replays -> mapping_kept ->
  create service now random r c request peer = (r1, c1, Ok res) ->
  (forall service2 now2 bytes2 peer2,
     admission service2 now2 r1 request peer2 = admission service now r request peer ->
     create service2 now2 (Some bytes2) r1 c1 request peer2 =
       (r1, c1, Ok (mkCreateResult (cz_Mapping res) (cz_Intent res) (cz_Route res)
                      (lm_TradeID (cz_Mapping res) != b64_encode bytes2)))) /\
  (forall service2 now2 random2 c2 request2 peer2 r3 c3 res2,
     lr_OrderID request2 = lr_OrderID request ->
     (forall x y, admission service now r request peer = Ok x -> admission service2 now2 r1 request2 peer2 = Ok y ->
        lc_ConfigID x.1.1 = lc_ConfigID y.1.1) ->
     create service2 now2 random2 r1 c2 request2 peer2 = (r3, c3, Ok res2) ->
     cz_Mapping res2 = cz_Mapping res /\ lr_CanonicalHash request2 = lr_CanonicalHash request).
Proof.
  intros Hcore Hmap (cr & rq & am & bytes & c0 & Ha & -> & Hi & Hr & Hm & Hid & Hrt & Hh)%create_ok. cbv zeta in *. split.
  - intros service2 now2 bytes2 peer2 Ha2. unfold Create. rewrite Ha2, Ha. cbv zeta.
    destruct (Hcore _ _ _ _ _ _ _ _ _ _ _ Hi Hr) as [-> ->]. erewrite Hmap by done. cbn [lm_TradeID new_mapping].
    by rewrite Hid, Hrt, Hh, !String.eqb_refl.
  - intros service2 now2 random2 c2 request2 peer2 r3 c3 res2 Ho Hc
      (cr2 & rq2 & am2 & bytes2 & c4 & Ha2 & -> & _ & _ & Hm2 & _ & _ & Hh2)%create_ok. cbv zeta in *.
    specialize (Hc _ _ Ha Ha2). apply admit_ok in Ha as [-> _]. apply admit_ok in Ha2 as [-> _]. cbn in Hc.
    erewrite Hmap in Hm2; [|exact Hm|by symmetry|done]. injection Hm2 as <- Hst _.
    split; [done|]. rewrite <- Hst in Hh2. cbn in Hh, Hh2. congruence.
Qed.
End creation.

(** ** A small world *)

Record small_repository := mkSmallRepository {
  sm_credential : LegacyCredential; sm_mappings : list LegacyMapping; sm_source : EventSource; sm_written : list (Z * string) }.

Definition same_order (a b : LegacyMapping) : bool := (lm_ConfigID a == lm_ConfigID b) && (lm_OrderID a == lm_OrderID b).
Definition small_written (r : small_repository) (sequence : Z) (what : string) : small_repository :=
  mkSmallRepository (sm_credential r) (sm_mappings r) (advance_source (sm_source r) sequence) ((sequence, what) :: sm_written r).
Definition missing_mapping : lerr := Sentinel LgErrNotFound.
Definition small_find (r : small_repository) (p : LegacyMapping -> bool) : result lerr LegacyMapping :=
  match List.find p (sm_mappings r) with Some m => Ok m | None => Err missing_mapping end.

#[export] Instance small_is_repository : LegacyRepository small_repository := {
  LookupCredential r protocol pid _ :=
    if (protocol == lc_Protocol (sm_credential r)) && (pid == lc_PID (sm_credential r)) then Ok (sm_credential r)
    else Err missing_mapping;
  LookupCredentialVersion r id :=
    if id == lc_CredentialVersionID (sm_credential r) then Ok (sm_credential r) else Err missing_mapping;
  RecordMapping r m :=
    match List.find (same_order m) (sm_mappings r) with
    | Some stored => (r, Ok (stored, lm_TradeID stored != lm_TradeID m))
    | None => (mkSmallRepository (sm_credential r) (m :: sm_mappings r) (sm_source r) (sm_written r), Ok (m, false))
    end;
  LookupMapping r id := small_find r (fun m => lm_TradeID m == id);
  LookupMappingByIntent r config id := small_find r (fun m => (lm_ConfigID m == config) && (lm_IntentID m == id));
  ListEventSources r _ := Ok [sm_source r];
  ClassifyEvent r _ sequence _ class _ := (small_written r sequence class, None);
  EnqueueCallbackAndAdvance r _ event _ frozen _ := (small_written r (ke_Sequence event) (fz_Body frozen), None);
  ClaimCallbacks r _ _ _ _ := (r, Ok []);
  AcknowledgeCallback r _ _ _ _ _ _ := (r, Ok true);
  FailCallback r _ _ _ _ _ _ := (r, Ok true);
  RepositoryReady r _ := None }.

(** A core whose intents and routes are named by their keys; its state is the
    events it reports. *)
Definition small_route (id : string) : CoreRoute :=
  mkCoreRoute ("route " +:+ id) id "tron" "usdt" "1.50" "TAddress" "active" 0 "" "on_chain" "1500000".
Definition small_intent (id status : string) : CoreIntent :=
  mkCoreIntent id "token" "A-1" "150" "USD" 2 status 0 [small_route id] "".

#[export] Instance small_is_core : LegacyCore (list CoreEvent) := {
  CoreCreateIntent c _ key _ _ := (c, Ok (small_intent key "pending"));
  CoreCreateRoute c _ id _ _ := (c, Ok (small_route id));
  CoreGetIntent c _ id := Ok (small_intent id "settled");
  CoreListEvents c source _ := Ok (List.filter (fun e => ls_AfterSequence source <? ke_Sequence e) c) }.

Definition small_credential : LegacyCredential :=
  mkLegacyCredential "config" "version" 1 ProtocolJSONMD5 "7" "t" "m" "legacy" "callback" "core" "core-secret" "USD" 2 "tron" "usdt"
    "USDT" "tron" "usdt.trc20" [Some (IP4 0x0a000000, 8)] true true (unix_epoch + 9 * Hour).
Definition small_world : small_repository :=
  mkSmallRepository small_credential [] (mkEventSource "config" ProtocolJSONMD5 "7" "core" "core-secret" 0) [].
Definition small_metrics : LegacyMetrics := mkLegacyMetrics 0 0 0 0 0 3600.
Definition small_service : GatewayService :=
  mkGatewayService true (Some small_metrics) (10 * Minute) (unix_epoch + 9 * Hour).
Definition small_md5 (s : string) : string := str_take 16 (s +:+ Repeat "0" 16).
Definition small_secret (ref : string) : option string := if ref == "legacy" then Some "s" else None.
Definition small_parse (url : string) : option URL := Some (mkURL "https" "shop.example" "shop.example" "" false "" "").
Definition small_lookup (host : string) : result string (list IP) := Ok [IP4 0x08080808].
Definition small_request (amount : string) : CreateRequest :=
  let text := "amount=" +:+ amount +:+ "&order_id=A-1&pid=7" in
  mkCreateRequest ProtocolJSONMD5 "7" "A-1" amount "" "USDT" "tron" "" "" "https://shop.example/cb" ""
    (SignMD5 small_md5 text "s") text text.
Definition small_peer : IP := IP4 0x0a000001.
Definition small_now : Time := unix_epoch + Hour + Minute.
Abbreviation small_create := (Create (R := small_repository) (C := list CoreEvent) (fun s => s) small_md5 String.eqb sample_rat small_secret small_parse
  (fun s => s) small_lookup).

Lemma small_md5_length t : String.length (small_md5 t) = 16%nat.
Proof.
  unfold small_md5. apply length_str_take. pose proof (len_app t (Repeat "0" 16)) as H. pose proof (len_nonneg t).
  change (len (Repeat "0" 16)) with 16 in H. unfold len in *. lia.
Qed.

Lemma small_core_replays : core_replays (C := list CoreEvent).
Proof. intros c credential key amount request intentID routeKey c1 c2 intent route [= <- <-] [= <- <-]. done. Qed.

Lemma small_mapping_kept : mapping_kept (R := small_repository).
Proof.
  intros r m r1 stored replay m2 H Hc Ho.
  assert (same_order m2 = same_order m) as Hs by (unfold same_order; by rewrite Hc, Ho). cbn in H |- *. rewrite Hs.
  destruct (List.find (same_order m) (sm_mappings r)) as [s|] eqn:Ef.
  - injection H as <- <- _. by rewrite Ef.
  - injection H as <- <- _. cbn. unfold same_order at 1. by rewrite !String.eqb_refl.
Qed.

Definition small_created : small_repository * list CoreEvent * result lerr CreateResult :=
  small_create small_service small_now (Some "0123456789abcdef") small_world [] (small_request "1.50") small_peer.
Definition small_result : CreateResult :=
  Eval vm_compute in
    match small_created.2 with
    | Ok res => res
    | Err _ => mkCreateResult (new_mapping small_credential (small_request "") "" "" "" 0) (small_intent "" "") (small_route "") false
    end.

Lemma small_created_ok : small_created = (small_created.1.1, [], Ok small_result).
Proof. vm_compute. reflexivity. Qed.

Lemma creation_is_authorized_witness : small_created.2 = Ok small_result /\
  lm_IntentID (cz_Mapping small_result) = ki_ID (cz_Intent small_result).
Proof.
  split; [vm_compute; reflexivity|].
  destruct (creation_is_authorized (fun s => s) small_md5 String.eqb sample_rat small_secret small_parse (fun s => s) small_lookup
    small_service small_now (Some "0123456789abcdef") small_world [] (small_request "1.50") small_peer small_created.1.1 [] small_result
    small_md5_length sample_rat_plain small_created_ok) as (cr & secret & a & _ & _ & _ & _ & _ & _ & _ & _ & _ & _ & _ & H & _).
  exact H.
Defined.

Lemma creation_is_idempotent_witness :
  small_create small_service (small_now + Minute) (Some "fedcba9876543210") small_created.1.1 [] (small_request "1.50") small_peer =
  (small_created.1.1, [], Ok (mkCreateResult (cz_Mapping small_result) (cz_Intent small_result) (cz_Route small_result) true)).
Proof.
  apply (creation_is_idempotent (fun s => s) small_md5 String.eqb sample_rat small_secret small_parse (fun s => s) small_lookup
    small_service small_now (Some "0123456789abcdef") small_world [] (small_request "1.50") small_peer small_created.1.1 [] small_result
    small_core_replays small_mapping_kept small_created_ok).
  vm_compute. reflexivity.
Defined.

(** ** The worker *)

(** Whether a plain decimal is a JSON number: no leading zero. *)
Definition json_number (text : string) : bool :=
  match Split text dot with w :: _ => canonical_uint w | [] => false end.

Section worker.
Context {R C : Type} `{!LegacyRepository R} `{!LegacyCore C}.
Context (sha256 md5 : string -> string) (EqualFold : string -> string -> bool) (SetString : string -> option (Z * Z))
  (ReadSecret : string -> option string) (parse : string -> option URL) (ToLower : string -> string)
  (LookupIP : string -> result string (list IP)) (Marshal : list (string * jfield) -> option string)
  (Unmarshal : string -> option Event) (Send : nat -> CallbackJob -> Z * string * bool).

Abbreviation decide_event := (event_decision (R := R) (C := C) md5 SetString ReadSecret Marshal Unmarshal).
Abbreviation cycle := (worker_cycle (R := R) (C := C) md5 SetString ReadSecret Marshal Unmarshal Send).

(** [event] is the payment of a JSON order whose amount starts with a zero, as
    in "01.50". *)
Definition paid_with_leading_zero (r : R) (c : C) (source : EventSource) (event : CoreEvent) : Prop :=
  exists payload mapping credential intent route w f,
    ls_AfterSequence source < ke_Sequence event /\ ke_EventID event <> "" /\
    Unmarshal (ke_Payload event) = Some payload /\ ev_EventID payload = ke_EventID event /\
    ev_Sequence payload = ke_Sequence event /\ legacyPaidEvent (ke_EventType event) (ev_EventType payload) = true /\
    ev_Settlement payload <> None /\
    LookupMappingByIntent r (ls_ConfigID source) (ps_ID (ev_PaymentIntent payload)) = Ok mapping /\
    LookupCredentialVersion r (lm_CredentialVersionID mapping) = Ok credential /\
    CoreGetIntent c credential (lm_IntentID mapping) = Ok intent /\
    route_found (ki_Routes intent) (lm_RouteID mapping) = Some route /\
    legacyPaidState (ke_EventType event) (ki_Status intent) = true /\
    lm_Protocol mapping = ProtocolJSONMD5 /\ lm_Amount mapping = decimal_text w f /\
    w <> "" /\ digits w /\ digits f /\ canonical_uint w = false.

Section json.
Hypothesis SetString_plain : forall text, decimalPattern text = true -> SetString text = Some (plain_rat text).
(** [json.Marshal] refuses raw text that is not JSON. *)
Hypothesis Marshal_valid : forall fields key raw, In (key, FRaw raw) fields ->
  decimalPattern raw = true -> json_number raw = false -> Marshal fields = None.

Lemma freeze_leading_zero mapping credential route event secret w f :
  lm_Protocol mapping = ProtocolJSONMD5 -> lm_Amount mapping = decimal_text w f ->
  w <> "" -> digits w -> digits f -> canonical_uint w = false ->
  exists e, FreezeCallback md5 SetString Marshal mapping credential route event secret = Err e.
Proof.
  intros Hp Ha Hne Hw Hf Hc. unfold FreezeCallback. destruct (ev_Settlement event) as [s|]; [|by eexists].
  destruct (_ || _); [by eexists|]. rewrite Hp. change (ProtocolJSONMD5 == ProtocolFormMD5) with false. cbn [mbind].
  rewrite Ha, (normalizedDecimal_text SetString SetString_plain w f Hne Hw Hf). cbn [mbind result_bind].
  destruct (normalizedDecimal SetString (kr_DisplayAmount route)) as [actual|e]; [|by eexists]. cbn [mbind result_bind]. cbv zeta.
  assert (digits (TrimRightZeros f)) as Ht.
  { unfold digits in *. destruct (TrimRightZeros_split f) as (n & _ & E). rewrite E, str_forall_app in Hf. by bool_hyp. }
  rewrite (Marshal_valid _ "amount" (decimal_text w (TrimRightZeros f))); [by eexists|do 3 right; by left| |].
  - apply decimalPattern_iff. by exists w, (TrimRightZeros f).
  - unfold json_number. rewrite Split_decimal by done. by destruct (_ == _).
Qed.

Lemma leading_zero_refused r c source event : paid_with_leading_zero r c source event ->
  exists e, decide_event r c source event = EventError e.
Proof.
  intros (payload & mapping & credential & intent & route & w & f & H1 & H2 & H3 & H4 & H5 & H6 & H7 & H8 & H9 & H10 & H11 & H12 & Hz).
  unfold event_decision. assert ((ke_Sequence event <=? ls_AfterSequence source) = false) as -> by lia.
  apply String.eqb_neq in H2. rewrite H2, H3, H4, H5, H6, String.eqb_refl, Z.eqb_refl. cbn [negb orb].
  destruct (ev_Settlement payload) eqn:Es; [|done]. cbn [is_nil orb]. rewrite H8, H9, H10, H11, H12. cbn [negb].
  destruct (ReadSecret _) as [secret|]; [|by eexists].
  destruct (freeze_leading_zero mapping credential route payload secret w f) as [err ->]; [naive_solver..|]. by eexists.
Qed.

(** Rounds of the worker, each at a time and with the core's state then. *)
Fixpoint run_cycles (r : R) (m : option LegacyMetrics) (workerID : string) (batchSize : Z) (lease : Duration)
    (rounds : list (Time * C)) : R * option LegacyMetrics :=
  match rounds with
  | [] => (r, m)
  | (now, c) :: rest =>
      let '(r, m, _) := cycle now (fun _ _ => now) (fun _ => now) r c m workerID batchSize lease in
      run_cycles r m workerID batchSize lease rest
  end.

(** One paid JSON order whose amount has a leading zero, which creation
    accepts, stops the gateway for every merchant: as long as its event is the
    next one, no round of the worker records anything, delivers any callback or
    notes that it succeeded, and once the worker counts as stale every creation
    is refused as unavailable. *)
Theorem leading_zero_stops_gateway r m source event workerID batchSize lease rounds :
  (forall now c, In (now, c) rounds -> exists sources more,
     ListEventSources r now = Ok (source :: sources) /\ CoreListEvents c source batchSize = Ok (event :: more) /\
     paid_with_leading_zero r c source event) ->
  run_cycles r (Some m) workerID batchSize lease rounds = (r, Some m) /\
  (forall service now random c request peer,
     gs_Metrics service = Some m -> gs_WorkerStaleAfter service < SubTime now (time_Unix (mt_LastWorkerOK m)) ->
     Create sha256 md5 EqualFold SetString ReadSecret parse ToLower LookupIP service now random r c request peer =
       (r, c, Err (Sentinel LgErrUnavailable))).
Proof.
  intros H. split.
  - induction rounds as [|[now c] rest IH]; [done|]. cbn [run_cycles].
    destruct (H now c) as (sources & more & Hs & He & Hz); [by left|].
    apply leading_zero_refused in Hz as [e Hz].
    unfold worker_cycle, PollEvents. rewrite Hs. cbn [poll_sources]. rewrite He. cbn [process_page]. unfold processEvent. rewrite Hz.
    apply IH. intros now' c' Hin. apply H. by right.
  - intros service now random c request peer Hm Hst. unfold Create, admit_create, worker_stale. rewrite Hm.
    assert ((SubTime now (time_Unix (mt_LastWorkerOK m)) >? gs_WorkerStaleAfter service) = true) as -> by (rewrite Z.gtb_ltb; lia).
    by rewrite orb_true_r.
Qed.
End json.
End worker.

Definition small_marshal (fields : list (string * jfield)) : option string :=
  if forallb (fun e => match e.2 with FRaw raw => negb (decimalPattern raw) || json_number raw | _ => true end) fields
  then Some "{}" else None.

Lemma small_marshal_valid fields key raw : In (key, FRaw raw) fields ->
  decimalPattern raw = true -> json_number raw = false -> small_marshal fields = None.
Proof.
  intros Hin Hp Hj. unfold small_marshal. destruct (forallb _ _) eqn:E; [|done]. rewrite forallb_forall in E.
  specialize (E _ Hin). cbn in E. by rewrite Hp, Hj in E.
Qed.

(** The order "A-1" for "01.50", created and then paid. *)
Definition zero_created : small_repository * list CoreEvent * result lerr CreateResult :=
  small_create small_service small_now (Some "0123456789abcdef") small_world [] (small_request "01.50") small_peer.
Definition zero_world : small_repository := zero_created.1.1.
Definition zero_mapping : LegacyMapping :=
  default (new_mapping small_credential (small_request "") "" "" "" 0) (head (sm_mappings zero_world)).
Definition zero_settlement : EventSettlement :=
  mkEventSettlement "s1" "usdt" "tron" 1500000 1500000 1500000 "hash" "0" "1" 0 "" "" "" "" "finalized" false 1 "" None [].
Definition zero_payload : Event :=
  mkEvent "e1" "payment.settled" "1" 1 0 "m" true (mkSnapshot (lm_IntentID zero_mapping) "A-1" "settled" 150 "USD")
    (Some zero_settlement) None None.
Definition zero_event : CoreEvent := mkCoreEvent "e1" "payment.settled" 1 "payload".
Definition zero_cycles := run_cycles (R := small_repository) (C := list CoreEvent) small_md5 sample_rat small_secret small_marshal
  (fun _ => Some zero_payload) (fun _ _ => (200, "", false)).

Lemma leading_zero_stops_gateway_witness : is_ok zero_created.2 = true /\
  zero_cycles zero_world (Some small_metrics) "worker" 10 Minute
    [(small_now, [zero_event]); (small_now + Minute, [zero_event])] = (zero_world, Some small_metrics).
Proof.
  split; [vm_compute; reflexivity|].
  apply (leading_zero_stops_gateway (fun s => s) small_md5 String.eqb sample_rat small_secret small_parse (fun s => s) small_lookup
    small_marshal (fun _ => Some zero_payload) (fun _ _ => (200, "", false)) sample_rat_plain small_marshal_valid
    zero_world small_metrics (sm_source small_world) zero_event "worker" 10 Minute
    [(small_now, [zero_event]); (small_now + Minute, [zero_event])]).
  intros now c Hin. assert (c = [zero_event]) as -> by (destruct Hin as [[= _ <-]|[[= _ <-]|[]]]; done).
  exists [], []. split; [reflexivity|]. split; [reflexivity|].
  exists zero_payload, zero_mapping, small_credential, (small_intent (lm_IntentID zero_mapping) "settled"),
    (small_route (lm_IntentID zero_mapping)), "01", "50".
  split_and!; try (vm_compute; reflexivity); try discriminate.
Defined.

(** ** Callbacks *)

Lemma entries_perm protocol v :
  Permutation (List.filter (signed_entry protocol) (map_to_list v)) (map_to_list (signed_fields protocol v)).
Proof.
  apply NoDup_Permutation.
  - apply NoDup_ListNoDup, List.NoDup_filter, NoDup_ListNoDup, NoDup_map_to_list.
  - apply NoDup_map_to_list.
  - intros [k x]. rewrite list_elem_of_In, filter_In, <- list_elem_of_In, !elem_of_map_to_list.
    unfold signed_fields. by rewrite map_lookup_filter_Some.
Qed.

Lemma existsb_perm {A} (p : A -> bool) l1 l2 : Permutation l1 l2 -> existsb p l1 = existsb p l2.
Proof.
  intros H. apply eq_true_iff_eq. rewrite !existsb_exists. split; intros (x & Hx & Hp); exists x; (split; [|done]);
    [by rewrite <- H|by rewrite H].
Qed.

Lemma sort_keys_perm l1 l2 : Permutation l1 l2 -> sort_by str_less l1 = sort_by str_less l2.
Proof.
  apply sort_by_determined; [apply str_less_asym|apply str_less_cotrans|]. intros x y _ _. apply str_less_total.
Qed.

(** The text depends on the signed fields only. *)
Lemma Canonical_signed protocol v1 v2 : signed_fields protocol v1 = signed_fields protocol v2 ->
  Canonical v1 protocol = Canonical v2 protocol.
Proof.
  intros He. assert (Permutation (List.filter (signed_entry protocol) (map_to_list v1)) (List.filter (signed_entry protocol) (map_to_list v2))) as Hp
    by (by rewrite !entries_perm, He).
  unfold Canonical. rewrite (existsb_perm _ _ _ Hp), (sort_keys_perm _ _ (Permutation_map fst Hp)).
  destruct (existsb _ _); [done|]. do 2 f_equal. apply map_ext_in. intros k Hk.
  apply (signed_keys_spec protocol v2) in Hk as (x & Hx). rewrite (signed_value protocol v2 k x Hx).
  rewrite <- He in Hx. by rewrite (signed_value protocol v1 k x Hx).
Qed.

Lemma signed_fields_insert v k x : k = "sign" \/ k = "sign_type" ->
  signed_fields ProtocolFormMD5 (<[k := x]> v) = signed_fields ProtocolFormMD5 v \/ is_Some (v !! k).
Proof.
  intros Hk. destruct (v !! k) as [y|] eqn:Ey; [right; eauto|left]. apply map_filter_insert_not'; [|by rewrite Ey].
  unfold signed_entry. cbn [fst snd]. destruct Hk as [-> | ->]; by rewrite !orb_true_r.
Qed.

Section callbacks.
Context (md5 : string -> string) (SetString : string -> option (Z * Z)) (Marshal : list (string * jfield) -> option string).

(** A form callback passes the merchant's own check: its body is read back,
    strictly, to fields whose signature is the one the merchant's secret gives
    to their signed text, and which name the merchant, the order and the trade
    and report success, in a GET to the order's notify address, provided that
    no field has a control byte that the signed text refuses. *)
Theorem form_callback_verifies mapping credential route event secret frozen :
  (forall t, String.length (md5 t) = 16%nat) -> lm_Protocol mapping = ProtocolFormMD5 ->
  FreezeCallback md5 SetString Marshal mapping credential route event secret = Ok frozen ->
  len (fz_Body frozen) <= MaxLegacyBodyBytes ->
  (forall money, fixedDecimal SetString (lm_Amount mapping) 4 = Ok money ->
     is_ok (Canonical (form_callback_values mapping credential money) ProtocolFormMD5) = true) ->
  exists fields text, parseEncoded (fz_Body frozen) = Ok fields /\ Canonical fields ProtocolFormMD5 = Ok text /\
    VerifyMD5 md5 text (value_of fields "sign") secret = true /\
    value_of fields "pid" = lc_PID credential /\ value_of fields "out_trade_no" = lm_OrderID mapping /\
    value_of fields "trade_no" = lm_TradeID mapping /\ value_of fields "trade_status" = "TRADE_SUCCESS" /\
    fixedDecimal SetString (lm_Amount mapping) 4 = Ok (value_of fields "money") /\
    fz_HTTPMethod frozen = "GET" /\ fz_TargetURL frozen = lm_NotifyURL mapping.
Proof.
  intros Hmd5 Hp. unfold FreezeCallback. destruct (ev_Settlement event) as [s|]; [|done].
  destruct (_ || _); [done|]. rewrite Hp, String.eqb_refl.
  destruct (fixedDecimal SetString (lm_Amount mapping) 4) as [money|]; [|done]. cbn [mbind result_bind]. cbv zeta.
  intros [= <-] Hlen Hok. cbn [fz_Body fz_HTTPMethod fz_TargetURL] in *. specialize (Hok money eq_refl).
  set (v := form_callback_values mapping credential money) in *.
  remember (SignMD5 md5 (canonical_or_empty v ProtocolFormMD5) secret) as sign eqn:Esign.
  set (fields := <["sign_type" := "MD5"]> (<["sign" := sign]> v)) in *.
  assert (signed_fields ProtocolFormMD5 fields = signed_fields ProtocolFormMD5 v) as Hs.
  { unfold fields. destruct (signed_fields_insert (<["sign" := sign]> v) "sign_type" "MD5") as [->|[? H]]; [by right| |discriminate H].
    destruct (signed_fields_insert v "sign" sign) as [->|[? H]]; [by left|done|discriminate H]. }
  assert (fields !! "" = None) as Hnone by (vm_compute; reflexivity).
  assert (Hv : value_of fields "sign" = sign /\ value_of fields "pid" = lc_PID credential /\
    value_of fields "out_trade_no" = lm_OrderID mapping /\ value_of fields "trade_no" = lm_TradeID mapping /\
    value_of fields "trade_status" = "TRADE_SUCCESS" /\ value_of fields "money" = money)
    by (split_and!; vm_compute; reflexivity).
  destruct Hv as (Hsign & H1 & H2 & H3 & H4 & H5).
  clearbody fields. clearbody v. destruct (Canonical v ProtocolFormMD5) as [text|] eqn:Ec; [|discriminate Hok]. exists fields, text.
  rewrite (Canonical_signed _ _ _ Hs), Ec, Hsign, H1, H2, H3, H4, H5. split; [by apply encoded_form_roundtrip|].
  split_and!; try reflexivity. apply VerifyMD5_iff; [apply Hmd5|]. rewrite Esign. unfold canonical_or_empty. by rewrite Ec.
Qed.
End callbacks.

Definition form_mapping : LegacyMapping :=
  mkLegacyMapping "config" "version" ProtocolFormMD5 "trade" "A-1" "intent" "route" "" "https://shop.example/cb" "" "Tea & cake"
    "usdt" "1.50" "USD" "USDT" "tron" 0.
Definition form_frozen : FrozenCallback :=
  Eval vm_compute in
    match FreezeCallback small_md5 sample_rat small_marshal form_mapping small_credential (small_route "intent") zero_payload "s" with
    | Ok frozen => frozen
    | Err _ => mkFrozenCallback "" "" "" "" "" ""
    end.

Lemma form_callback_verifies_witness : exists fields text,
  parseEncoded (fz_Body form_frozen) = Ok fields /\ VerifyMD5 small_md5 text (value_of fields "sign") "s" = true /\
  value_of fields "out_trade_no" = "A-1".
Proof.
  destruct (form_callback_verifies small_md5 sample_rat small_marshal form_mapping small_credential (small_route "intent") zero_payload "s"
    form_frozen small_md5_length eq_refl ltac:(vm_compute; reflexivity) ltac:(vm_compute; discriminate)
    ltac:(intros money H; vm_compute in H; injection H as <-; vm_compute; reflexivity)) as (fields & text & Hf & _ & Hv & _ & Ho & _).
  exists fields, text. split; [exact Hf|]. split; [exact Hv|]. rewrite Ho. reflexivity.
Defined.

(** ** Keys and delays *)

(** The parts of a key are separated by a byte that configuration and protocol
    do not contain, so the hashed text determines the order. *)
Lemma key_material_inj config1 protocol1 order1 config2 protocol2 order2 :
  str_no unit_byte config1 = true -> str_no unit_byte config2 = true ->
  str_no unit_byte protocol1 = true -> str_no unit_byte protocol2 = true ->
  key_material [config1; protocol1; order1] = key_material [config2; protocol2; order2] ->
  config1 = config2 /\ protocol1 = protocol2 /\ order1 = order2.
Proof.
  intros Hc1 Hc2 Hp1 Hp2 H. cbn [key_material] in H.
  apply str_app_sep_inj in H as [-> H]; [|done..]. apply str_app_sep_inj in H as [-> H]; [|done..].
  split_and!; try done. apply (f_equal reversed) in H. rewrite !reversed_app in H. cbn in H. injection H as H.
  rewrite <- (reversed_involutive order1), <- (reversed_involutive order2). by rewrite H.
Qed.

(** Two orders share an idempotency key only if they are the same order of the
    same configuration, or the hash collides on them. *)
Theorem stable_keys_distinguish sha256 prefix config1 protocol1 order1 config2 protocol2 order2 :
  str_no unit_byte config1 = true -> str_no unit_byte config2 = true ->
  str_no unit_byte protocol1 = true -> str_no unit_byte protocol2 = true ->
  stableKey sha256 prefix [config1; protocol1; order1] = stableKey sha256 prefix [config2; protocol2; order2] ->
  (config1 = config2 /\ protocol1 = protocol2 /\ order1 = order2) \/
  (exists t1 t2 : string, t1 <> t2 /\ sha256 t1 = sha256 t2).
Proof.
  intros Hc1 Hc2 Hp1 Hp2 H. unfold stableKey in H.
  set (t1 := key_material [config1; protocol1; order1]) in *. set (t2 := key_material [config2; protocol2; order2]) in *.
  assert (sha256 t1 = sha256 t2) as Hs.
  { apply (f_equal (str_drop (String.length prefix))) in H. rewrite !str_drop_app in H. injection H as H.
    apply (f_equal b64_decode) in H. rewrite !b64_roundtrip in H. congruence. }
  destruct (decide (t1 = t2)) as [E|]; [left; by apply key_material_inj|right; eauto].
Qed.

Lemma stable_keys_distinguish_witness :
  stableKey (fun s => s) "legacy-intent" ["c"; "json_md5"; "A-1"] = stableKey (fun s => s) "legacy-intent" ["c"; "json_md5"; "A-1"] /\
  (("c" = "c" /\ "json_md5" = "json_md5" /\ "A-1" = "A-1") \/ (exists t1 t2 : string, t1 <> t2 /\ t1 = t2)).
Proof.
  split; [reflexivity|].
  apply (stable_keys_distinguish (fun s => s) "legacy-intent" "c" "json_md5" "A-1" "c" "json_md5" "A-1"); reflexivity.
Defined.

(** The delays double up to 256 seconds, so the limit of five minutes is never
    reached. *)
Theorem backoff_exact attempt : callbackBackoff attempt = Second * 2 ^ Z.max 0 (Z.min (attempt - 1) 8) /\
  Second <= callbackBackoff attempt <= 256 * Second /\ callbackBackoff attempt < 5 * Minute.
Proof.
  assert (Hk : forall n, 0 <= n <= 8 -> 1 <= 2 ^ n <= 256).
  { intros n Hn. split; [apply (Z.pow_le_mono_r 2 0 n); lia|apply (Z.pow_le_mono_r 2 n 8); lia]. }
  unfold callbackBackoff. cbv zeta. set (a := if attempt <? 1 then 1 else attempt).
  assert (Z.min (a - 1) 8 = Z.max 0 (Z.min (attempt - 1) 8)) as -> by (subst a; destruct (attempt <? 1) eqn:E; lia).
  set (n := Z.max 0 _). specialize (Hk n ltac:(lia)). rewrite Z.shiftl_mul_pow2, Z.mul_1_l by lia.
  assert ((Second * 2 ^ n >? 5 * Minute) = false) as -> by (rewrite Z.gtb_ltb; unfold Minute, Second; lia).
  unfold Minute, Second. lia.
Qed.
