(* ===== verification/LegacyLimits.v ===== *)
(** * LegacyLimits: how often an order can be looked up

    The limiter counts accepted calls in windows that start with a call. Two
    neighbouring windows can meet, so the bound for an arbitrary interval of the
    window's length is twice the limit; dropping expired windows from the table
    never forgets one that still counts. *)

From Stdlib Require Import ZArith Lia Ascii String Sorted.
From stdpp Require Import base gmap list strings.
From S2P Require Import Prelude Text Webhook Legacy LegacyGateway.

(** ** Counting *)

Definition cnt (p : Z -> bool) (l : list Z) : Z := Z.of_nat (length (List.filter p l)).

Definition from (s : Z) (a : Z) : bool := s <=? a.
Definition within (s e : Z) (a : Z) : bool := (s <=? a) && (a <? e).

Lemma cnt_cons p a l : cnt p (a :: l) = (if p a then 1 else 0) + cnt p l.
Proof. unfold cnt. cbn. destruct (p a); cbn [length]; lia. Qed.

Lemma cnt_nonneg p l : 0 <= cnt p l.
Proof. unfold cnt. lia. Qed.

Lemma cnt_mono p q l : (forall a, In a l -> p a = true -> q a = true) -> cnt p l <= cnt q l.
Proof.
  induction l as [|a l IH]; intros H; [done|]. rewrite !cnt_cons. specialize (IH (fun b Hb => H b (or_intror Hb))).
  pose proof (H a (or_introl eq_refl)) as Ha. destruct (p a), (q a); lia.
Qed.

Lemma cnt_split p q r l : (forall a, In a l -> p a = true -> q a = true \/ r a = true) -> cnt p l <= cnt q l + cnt r l.
Proof.
  induction l as [|a l IH]; intros H; [done|]. rewrite !cnt_cons. specialize (IH (fun b Hb => H b (or_intror Hb))).
  pose proof (H a (or_introl eq_refl)) as Ha. destruct (p a); [|destruct (q a), (r a); lia].
  destruct (Ha eq_refl) as [-> | ->]; destruct (q a), (r a); lia.
Qed.

Lemma cnt_none p l : (forall a, In a l -> p a = false) -> cnt p l = 0.
Proof.
  induction l as [|a l IH]; intros H; [done|]. rewrite cnt_cons, (H a (or_introl eq_refl)), IH; [done|].
  intros b Hb. apply H. by right.
Qed.

(** ** The limiter *)

(** The calls of a list that are accepted, with their keys. *)
Fixpoint accepted (l : capabilityLimiter) (calls : list (string * Time)) : list (string * Time) :=
  match calls with
  | [] => []
  | (key, now) :: rest =>
      let '(l', ok) := Allow l key now in
      if ok then (key, now) :: accepted l' rest else accepted l' rest
  end.

Section limiter.
Context (limit : Z) (window : Duration) (k : string).
Hypothesis window_range : 0 < window <= max_int64.

(** The state of a key after the calls accepted at the times [past]: [s] is the
    start of its last window. *)
Definition window_inv (l : capabilityLimiter) (past : list Z) (last : Time) : Prop :=
  cl_limit l = limit /\ cl_window l = window /\
  exists s, (forall a, In a past -> a < s + window) /\ (forall a, In a past -> a <= last) /\
    cnt (from s) past <= limit /\ cnt (within (s - window) s) past <= limit /\
    (forall t, cnt (within t (t + window)) past <= 2 * limit) /\
    match cl_items l !! k with
    | Some w => lw_start w = s /\ 0 < s <= last /\ cnt (from s) past = lw_count w
    | None => past = [] \/ s + window <= last
    end.

Lemma expired_iff l now w : cl_window l = window -> expired_window l now w = true <-> lw_start w + window <= now.
Proof.
  intros Hw. unfold expired_window, SubTime, min_int64, max_int64 in *. rewrite Hw, Z.geb_leb, Z.leb_le. lia.
Qed.

(** What a call leaves in the table for the key: its own entry, which is never
    the one dropped, or what was there unless it expired. *)
Lemma Allow_table l key now : cl_window l = window ->
  let w := default (mkLimitWindow 0 0) (cl_items l !! key) in
  let w := if IsZeroTime (lw_start w) || expired_window l now w then mkLimitWindow now 0 else w in
  let l' := (Allow l key now).1 in
  cl_limit l' = cl_limit l /\ cl_window l' = window /\ (Allow l key now).2 = (lw_count w <? cl_limit l) /\
  (if lw_count w <? cl_limit l
   then cl_items l' !! key = Some (mkLimitWindow (lw_start w) (lw_count w + 1))
   else l' = l) /\
  (forall key', key' <> key -> cl_items l' !! key' = cl_items l !! key' \/
     (cl_items l' !! key' = None /\ exists v, cl_items l !! key' = Some v /\ lw_start v + window <= now)).
Proof.
  intros Hw. cbv zeta. unfold Allow. cbv zeta. set (w0 := default (mkLimitWindow 0 0) (cl_items l !! key)).
  set (w := if IsZeroTime (lw_start w0) || expired_window l now w0 then mkLimitWindow now 0 else w0).
  assert (Hfresh : expired_window l now (mkLimitWindow (lw_start w) (lw_count w + 1)) = false).
  { apply not_true_iff_false. rewrite expired_iff by done. cbn. subst w. destruct (_ || _) eqn:E; cbn [lw_start]; [lia|].
    apply orb_false_iff in E as [_ E]. apply not_true_iff_false in E. by rewrite expired_iff in E. }
  rewrite Z.geb_leb. destruct (cl_limit l <=? lw_count w) eqn:El.
  - assert ((lw_count w <? cl_limit l) = false) as -> by lia. cbn. split_and!; try done. by left.
  - assert ((lw_count w <? cl_limit l) = true) as -> by lia. cbn [fst snd cl_limit cl_window cl_items]. split_and!; try done.
    + destruct (10000 <? _); [|by rewrite lookup_insert_eq]. apply map_lookup_filter_Some. by rewrite lookup_insert_eq.
    + intros key' Hne. destruct (10000 <? _); [|left; by rewrite lookup_insert_ne].
      destruct (cl_items l !! key') as [v|] eqn:Ev.
      * destruct (expired_window l now v) eqn:Ex.
        -- right. split; [|exists v; split; [done|]; by apply (expired_iff l)].
           apply map_lookup_filter_None. right. intros v' Hv'. rewrite lookup_insert_ne in Hv' by done. cbn. congruence.
        -- left. apply map_lookup_filter_Some. rewrite lookup_insert_ne by done. done.
      * left. apply map_lookup_filter_None. left. by rewrite lookup_insert_ne.
Qed.

Lemma from_iff s a : from s a = true <-> s <= a.
Proof. apply Z.leb_le. Qed.
Lemma within_iff s e a : within s e a = true <-> s <= a < e.
Proof. unfold within. lia. Qed.

(** A call for another key. *)
Lemma step_other l past last key now : key <> k -> last <= now ->
  window_inv l past last -> window_inv (Allow l key now).1 past now.
Proof.
  intros Hk Hn (Hl & Hw & s & Hlt & Hle & Ha & Hb & Hd & Hi).
  destruct (Allow_table l key now Hw) as (Hl' & Hw' & _ & _ & Ho). destruct (Ho k) as [E|[E (v & Ev & Hv)]]; [done| |].
  - split; [congruence|]. split; [done|]. exists s. split_and!; try done; [intros a Hin; specialize (Hle a Hin); lia|].
    rewrite E. destruct (cl_items l !! k) as [w|]; [|intuition lia]. destruct Hi as (-> & Hs & Hc). split_and!; try done; lia.
  - split; [congruence|]. split; [done|]. exists s. split_and!; try done; [intros a Hin; specialize (Hle a Hin); lia|].
    rewrite E. rewrite Ev in Hi. destruct Hi as (<- & _). by right.
Qed.

(** A window that starts now: everything accepted before is over. *)
Lemma counts_restart past s now : 0 < limit -> (forall a, In a past -> a < s + window) ->
  past = [] \/ s + window <= now -> cnt (from s) past <= limit -> (forall t, cnt (within t (t + window)) past <= 2 * limit) ->
  cnt (from now) (now :: past) = 1 /\ cnt (within (now - window) now) (now :: past) <= limit /\
  (forall t, cnt (within t (t + window)) (now :: past) <= 2 * limit) /\ (forall a, In a (now :: past) -> a < now + window).
Proof.
  intros H0 Hlt Hover Ha Hd.
  assert (Hpast : forall a, In a past -> a < now) by (intros a Hin; destruct Hover as [->|?]; [done|specialize (Hlt a Hin); lia]).
  assert (Hold : forall t, now - window <= t -> cnt (within t (t + window)) past <= limit).
  { intros t Ht. etransitivity; [|exact Ha]. apply cnt_mono. intros a Hin. rewrite within_iff, from_iff.
    destruct Hover as [->|?]; [done|lia]. }
  rewrite cnt_cons, cnt_none by (intros a Hin; specialize (Hpast a Hin); apply not_true_iff_false; rewrite from_iff; lia).
  split_and!.
  - unfold from. rewrite Z.leb_refl. done.
  - rewrite cnt_cons. assert (within (now - window) now now = false) as -> by (unfold within; lia).
    specialize (Hold (now - window) ltac:(lia)). replace (now - window + window) with now in Hold by lia. lia.
  - intros t. rewrite cnt_cons. destruct (within t (t + window) now) eqn:E.
    + apply within_iff in E. specialize (Hold t ltac:(lia)). lia.
    + specialize (Hd t). lia.
  - intros a [<-|Hin]; [lia|]. specialize (Hpast a Hin). lia.
Qed.

(** One more call in a window that is not full. *)
Lemma counts_more past s now : s <= now < s + window -> cnt (from s) past < limit ->
  cnt (within (s - window) s) past <= limit -> (forall t, cnt (within t (t + window)) past <= 2 * limit) ->
  cnt (from s) (now :: past) = cnt (from s) past + 1 /\ cnt (within (s - window) s) (now :: past) <= limit /\
  (forall t, cnt (within t (t + window)) (now :: past) <= 2 * limit).
Proof.
  intros Hn Ha Hb Hd. split_and!.
  - rewrite cnt_cons. assert (from s now = true) as -> by (apply from_iff; lia). lia.
  - rewrite cnt_cons. assert (within (s - window) s now = false) as -> by (unfold within; lia). lia.
  - intros t. rewrite cnt_cons. destruct (within t (t + window) now) eqn:E; [|specialize (Hd t); lia]. apply within_iff in E.
    pose proof (cnt_split (within t (t + window)) (within (s - window) s) (from s) past) as Hs.
    assert (cnt (within t (t + window)) past <= cnt (within (s - window) s) past + cnt (from s) past); [|lia].
    apply Hs. intros a _. rewrite !within_iff, from_iff. lia.
Qed.

(** A call for the key. *)
Lemma step_same l past last now : 0 < now -> last <= now -> window_inv l past last ->
  window_inv (Allow l k now).1 (if (Allow l k now).2 then now :: past else past) now.
Proof.
  intros Hpos Hn (Hl & Hw & s & Hlt & Hle & Ha & Hb & Hd & Hi).
  destruct (Allow_table l k now Hw) as (Hl' & Hw' & -> & Ht & _). cbv zeta in Ht. rewrite Hl in Ht, Hl'.
  set (w0 := default (mkLimitWindow 0 0) (cl_items l !! k)) in *. rewrite Hl.
  assert (Hle' : forall a, In a past -> a <= now) by (intros a Hin; specialize (Hle a Hin); lia).
  assert (Hrefuse : window_inv l past now).
  { split; [done|]. split; [done|]. exists s. split_and!; try done. destruct (cl_items l !! k) as [w|]; [|intuition lia].
    destruct Hi as (Hi1 & Hi2 & Hi3). split_and!; try done; lia. }
  destruct (IsZeroTime (lw_start w0) || expired_window l now w0) eqn:Er.
  - assert (past = [] \/ s + window <= now) as Hover.
    { destruct (cl_items l !! k) as [w|] eqn:Ew; [|intuition lia]. destruct Hi as (Hi1 & Hi2 & _). cbn in w0. subst w0.
      unfold IsZeroTime in Er. apply orb_true_iff in Er as [Er|Er]; [lia|]. apply (expired_iff l) in Er; [|done]. right. lia. }
    cbn [lw_count lw_start] in Ht |- *. destruct (0 <? limit) eqn:E0; [|by rewrite Ht]. apply Z.ltb_lt in E0.
    destruct (counts_restart past s now E0 Hlt Hover Ha Hd) as (C1 & C2 & C3 & C4).
    split; [done|]. split; [done|]. exists now. split_and!; try done; [intros a [<-|Hin]; [lia|by apply Hle']|lia|]. rewrite Ht. cbn. split_and!; try done; lia.
  - apply orb_false_iff in Er as [Ez Ex]. destruct (cl_items l !! k) as [w|] eqn:Ew; [|done]. cbn in w0. subst w0.
    destruct Hi as (<- & Hi2 & Hi3). apply not_true_iff_false in Ex. rewrite (expired_iff l) in Ex by done.
    destruct (lw_count w <? limit) eqn:E0; [|by rewrite Ht]. apply Z.ltb_lt in E0. rewrite <- Hi3 in E0.
    destruct (counts_more past (lw_start w) now ltac:(lia) E0 Hb Hd) as (C1 & C2 & C3).
    split; [done|]. split; [done|]. exists (lw_start w). split_and!; try done;
      [intros a [<-|Hin]; [lia|by apply Hlt]|intros a [<-|Hin]; [lia|by apply Hle']|lia|].
    rewrite Ht. cbn [lw_start lw_count]. split_and!; [done|lia|lia|lia].
Qed.

(** The times at which calls for the key were accepted. *)
Definition times_of (calls : list (string * Time)) : list Z := map snd (List.filter (fun e => e.1 == k) calls).

Lemma accepted_bound calls : forall l past last t, window_inv l past last ->
  Forall (fun e => 0 < e.2) calls -> Sorted Z.le (last :: map snd calls) ->
  cnt (within t (t + window)) past + cnt (within t (t + window)) (times_of (accepted l calls)) <= 2 * limit.
Proof.
  induction calls as [|[key now] calls IH]; intros l past last t Hinv Hpos Hsort; cbn [accepted].
  - destruct Hinv as (_ & _ & s & _ & _ & _ & _ & Hd & _). specialize (Hd t). unfold cnt at 2. cbn. lia.
  - invc Hpos. apply Sorted_inv in Hsort as [Hsort Hrel]. cbn [map snd] in *. apply HdRel_inv in Hrel. cbn in H1.
    destruct (decide (key = k)) as [->|Hne].
    + pose proof (step_same l past last now H1 Hrel Hinv) as Hstep. destruct (Allow l k now) as [l' ok]. cbn [fst snd] in Hstep.
      specialize (IH l' _ now t Hstep H2 Hsort). destruct ok; [|done].
      unfold times_of in *. cbn [List.filter fst]. rewrite String.eqb_refl. cbn [map snd].
      rewrite cnt_cons in IH |- *. lia.
    + pose proof (step_other l past last key now Hne Hrel Hinv) as Hstep. destruct (Allow l key now) as [l' ok]. cbn [fst snd] in Hstep.
      specialize (IH l' _ now t Hstep H2 Hsort). destruct ok; [|done].
      unfold times_of in *. cbn [List.filter fst]. apply String.eqb_neq in Hne. by rewrite Hne.
Qed.
End limiter.

(** Within any interval as long as the window, whatever calls are made for
    whatever keys, the limiter accepts at most twice the limit for one key, also
    when the table is pruned in between. *)
Theorem lookups_bounded limit window calls k t :
  0 <= limit -> 0 < window <= max_int64 -> Forall (fun e => 0 < e.2) calls -> Sorted Z.le (map snd calls) ->
  cnt (within t (t + window)) (times_of k (accepted (newCapabilityLimiter limit window) calls)) <= 2 * limit.
Proof.
  intros Hl Hw Hpos Hsort.
  pose (last := match calls with [] => 0 | e :: _ => e.2 end).
  pose proof (accepted_bound limit window k Hw calls (newCapabilityLimiter limit window) [] last t) as H.
  change (cnt (within t (t + window)) []) with 0 in H. apply H; [|done|].
  - split; [done|]. split; [done|]. exists 0. split_and!; try done; unfold cnt; cbn; try lia. by left.
  - constructor; [done|]. destruct calls as [|e calls]; constructor. cbn. lia.
Qed.

(** Three calls a minute: the fourth within the minute is refused, the next
    minute starts anew. *)
Definition sample_calls : list (string * Time) :=
  map (fun s => ("ip", unix_epoch + s * Second)) [50; 55; 59; 59; 110; 111; 112; 113].

Lemma lookups_bounded_witness :
  cnt (within (unix_epoch + 55 * Second) (unix_epoch + 115 * Second))
    (times_of "ip" (accepted (newCapabilityLimiter 3 Minute) sample_calls)) <= 6 /\
  cnt (within (unix_epoch + 55 * Second) (unix_epoch + 115 * Second))
    (times_of "ip" (accepted (newCapabilityLimiter 3 Minute) sample_calls)) = 5.
Proof.
  split; [|vm_compute; reflexivity].
  replace (unix_epoch + 115 * Second) with (unix_epoch + 55 * Second + Minute) by (vm_compute; reflexivity).
  apply (lookups_bounded 3 Minute sample_calls "ip" (unix_epoch + 55 * Second)).
  - lia.
  - unfold max_int64, Minute, Second. lia.
  - repeat constructor.
  - repeat constructor; vm_compute; discriminate.
Defined.
