(* ===== verification/Hosted.v ===== *)
(** * Hosted: internal/hostedproviders (adapter.go, runtime.go, worker.go) and domain/hosted_provider.go

    Payments through a hosted gateway. The adapter signs its requests, reads
    answers strictly and accepts only what keeps the admitted facts; callbacks are
    verified before anything is read from them; the runtime claims a durable
    fence before it calls a provider; the recovery worker finishes what was left
    open. The state behind the repository is a parameter: what it answers is an
    argument and the calls made are the result. *)

From Stdlib Require Import ZArith Lia Ascii String.
From stdpp Require Import base gmap list strings.
From S2P Require Import Prelude Text Numerals Money Domain Commands Auth Chains Webhook Legacy.
From S2P Require Outbox.

(** ** Data (domain/hosted_provider.go, adapter.go) *)

Record HostedProviderConfig := mkHostedProviderConfig {
  hc_ID : string; hc_TenantID : string; hc_MerchantID : string; hc_AdapterKind : string; hc_APIOrigin : string;
  hc_CreatePath : string; hc_CancelPath : string; hc_StatusPath : string; hc_RefundPath : string;
  hc_ReconcilePath : string; hc_PaymentURLOrigins : list string; hc_CredentialRef : string; hc_APIKeyID : string;
  hc_CallbackSecretRef : string; hc_CallbackKeyID : string; hc_CallbackSignatureKind : string; hc_AssetID : string;
  hc_AssetDecimals : Z; hc_Currency : string; hc_Status : string; hc_ConfigManifestID : string; hc_ConfigVersion : Z }.

Record HostedCreateRequest := mkHostedCreateRequest {
  hq_ProviderID : string; hq_IntentID : string; hq_IdempotencyKey : string; hq_RequestHash : string;
  hq_AssetID : string; hq_FiatAmountMinor : Amount; hq_Currency : string; hq_CurrencyScale : Z; hq_ExpiresAt : Time }.

Record HostedCreateResult := mkHostedCreateResult {
  hr_ProviderOrderID : string; hr_ProviderReference : string; hr_PaymentURL : string; hr_AssetID : string;
  hr_Amount : Amount; hr_AssetDecimals : Z; hr_QuoteID : string; hr_RateNumerator : Amount;
  hr_RateDenominator : Amount; hr_QuoteIssuedAt : Time; hr_RawResponse : string; hr_ResponseDigest : string;
  hr_ResponseReceivedAt : Time; hr_ExpiresAt : Time }.

Record HostedCreateFence := mkHostedCreateFence {
  hf_Claimed : bool; hf_Completed : bool; hf_Result : HostedCreateResult }.

Record VerifiedProviderPayment := mkVerifiedProviderPayment {
  vp_TenantID : string; vp_MerchantID : string; vp_ProviderID : string; vp_ProviderOrderID : string;
  vp_ProviderReference : string; vp_ProviderEventID : string; vp_ProviderStatus : string; vp_AssetID : string;
  vp_Amount : Amount; vp_AssetDecimals : Z; vp_OccurredAt : Time; vp_ReceivedAt : Time; vp_RawBody : string;
  vp_RawDigest : string; vp_SignatureScheme : string; vp_SignatureKeyID : string; vp_ConfigManifestID : string;
  vp_ConfigVersion : Z; vp_SignatureDigest : string; vp_ProviderPaused : bool }.

Record HostedSettlementResult := mkHostedSettlementResult {
  hs_Duplicate : bool; hs_OutOfOrder : bool; hs_Quarantined : bool; hs_Settled : bool; hs_ProviderInboxID : string;
  hs_PrebindEvidenceID : string; hs_IntentID : string; hs_RouteID : string; hs_SettlementID : string;
  hs_WebhookEventID : string }.

Record ProviderState := mkProviderState {
  px_ProviderReference : string; px_Status : string; px_AssetID : string; px_Amount : Amount; px_AssetDecimals : Z;
  px_OccurredAt : Time; px_RawResponse : string; px_ResponseDigest : string; px_ResponseReceivedAt : Time }.

Record createResponse := mkCreateResponse {
  rs_ProviderReference : string; rs_PaymentURL : string; rs_AssetID : string; rs_AmountAtomic : string;
  rs_AssetDecimals : Z; rs_QuoteID : string; rs_RateNumerator : string; rs_RateDenominator : string;
  rs_QuoteIssuedAt : Time; rs_ExpiresAt : Time }.

Record callbackBody := mkCallbackBody {
  cb_EventID : string; cb_ProviderReference : string; cb_Status : string; cb_AssetID : string;
  cb_AmountAtomic : string; cb_AssetDecimals : Z; cb_OccurredAt : Time }.

Record stateResponse := mkStateResponse {
  st_ProviderReference : string; st_Status : string; st_AssetID : string; st_AmountAtomic : string;
  st_AssetDecimals : Z; st_OccurredAt : Time }.

Record providerEvidence := mkProviderEvidence { pe_Body : string; pe_Digest : string; pe_ReceivedAt : Time }.

Definition MaxCallbackBody : Z := 1048576.
Definition MaxProviderBody : Z := 262144.

(** ** Rules (adapter.go) *)

Definition validProviderStatus (status : string) : bool :=
  existsb_str status ["pending"; "authorized"; "paid"; "cancelled"; "failed"; "refunded"].

(** The addresses of a host; [IPNil] stands for an invalid address and
    [Unmap] is [To4]. *)
Definition validateResolvedProviderIPs (addresses : list IP) : bool :=
  negb (bool_decide (addresses = []))
  && forallb (fun a => negb (bool_decide (a = IPNil)) && IsGlobalUnicast a && negb (IsPrivate a) && negb (IsLoopback a)
                       && negb (IsLinkLocalUnicast a) && negb (IsLinkLocalMulticast a) && negb (IsUnspecified a)) addresses.

(** What [url.Parse] says of a text, and its [String]. *)
Record HostedURL := mkHostedURL {
  hu_Scheme : string; hu_Host : string; hu_Hostname : string; hu_Port : string; hu_HasUser : bool; hu_Path : string;
  hu_RawQuery : string; hu_Fragment : string; hu_String : string }.

Definition slash : ascii := chr 47.

(** [json.Decoder.Token] reads the value and its nested values in order; an object
    with a key twice is refused. *)
Fixpoint unique_keys (v : Outbox.JSON) : bool :=
  match v with
  | Outbox.JObject fields =>
      (fix walk (seen : list string) (fs : list (string * Outbox.JSON)) : bool :=
         match fs with
         | [] => true
         | (key, x) :: rest => negb (existsb_str key seen) && unique_keys x && walk (key :: seen) rest
         end) [] fields
  | Outbox.JArray items => (fix each (l : list Outbox.JSON) : bool := match l with [] => true | x :: r => unique_keys x && each r end) items
  | _ => true
  end.

(** [headers.Values(name)] *)
Definition Headers := list (string * string).
Definition header_values (headers : Headers) (name : string) : list string :=
  map snd (List.filter (fun h => h.1 == name) headers).

Definition exactHeader (headers : Headers) (name : string) : result error string :=
  match header_values headers name with
  | [v] => if (TrimSpace v == "") || negb (str_no comma v) then Err (Wrapped ErrValidation (name +:+ " must appear exactly once"))
           else Ok v
  | _ => Err (Wrapped ErrValidation (name +:+ " must appear exactly once"))
  end.

(** A request as it is sent. *)
Record HostedHTTP := mkHostedHTTP {
  hh_Method : string; hh_URL : string; hh_Timestamp : string; hh_KeyID : string; hh_Signature : string;
  hh_IdempotencyKey : string; hh_Body : string }.

Section adapter.
(** [url.Parse], [netip.ParseAddr], SHA-256, HMAC-SHA256, the secrets, the JSON
    value of a text that is one JSON value, and the transport: the status and, when
    it could be read, the body. *)
Context (parse : string -> option HostedURL) (ParseAddr : string -> option IP) (sha256 : string -> string)
  (hmac : string -> string -> string) (Resolve : string -> option string) (json_tree : string -> option Outbox.JSON)
  (Do : HostedHTTP -> option (Z * option string)).

Definition parseHTTPSOrigin (value : string) : result error HostedURL :=
  let refused := Err (Wrapped ErrValidation "provider origin must be an exact HTTPS origin") in
  match parse value with
  | None => refused
  | Some u =>
      if (hu_Scheme u != "https") || (hu_Host u == "") || hu_HasUser u || (hu_Path u != "") || (hu_RawQuery u != "")
         || (hu_Fragment u != "") || (hu_String u != value)
      then refused else Ok u
  end.

Definition endpointURL (origin path : string) : result error string :=
  base ← parseHTTPSOrigin origin;
  if (path == "") || negb (HasPrefix path "/") || HasPrefix path "//" || negb (str_no (chr 63) path) || negb (str_no (chr 35) path)
  then Err (Wrapped ErrValidation "provider endpoint path must be an absolute query-free path")
  else Ok (hu_String base +:+ path).

Definition validatePaymentURL (value : string) (allowed : list string) : result error unit :=
  match parse value with
  | None => Err (Wrapped ErrInvariantViolation "provider payment_url must be HTTPS")
  | Some u =>
      if (hu_Scheme u != "https") || (hu_Host u == "") || hu_HasUser u || (hu_Fragment u != "")
      then Err (Wrapped ErrInvariantViolation "provider payment_url must be HTTPS")
      else if existsb_str (hu_Scheme u +:+ "://" +:+ hu_Host u) allowed then Ok tt
      else Err (Wrapped ErrInvariantViolation "provider payment_url origin is not admitted")
  end.

Fixpoint origins_ok (origins : list string) : result error unit :=
  match origins with [] => Ok tt | o :: rest => _ ← parseHTTPSOrigin o; origins_ok rest end.

Definition validateConfig (cfg : HostedProviderConfig) (callback : bool) : result error unit :=
  let statusValid := (hc_Status cfg == "active") || (callback && (hc_Status cfg == "paused")) in
  if (hc_ID cfg == "") || (len (hc_ID cfg) >? 128) || (hc_AdapterKind cfg != "hmac_json_v1") || negb statusValid
     || (hc_CallbackSignatureKind cfg != "hmac-sha256") || (hc_APIKeyID cfg == "") || (hc_CallbackKeyID cfg == "")
     || (hc_AssetID cfg == "") || (hc_Currency cfg == "")
     || (callback && ((hc_ConfigManifestID cfg == "") || (hc_ConfigVersion cfg <? 1)))
  then Err (Wrapped ErrStateConflict "hosted provider is not admitted")
  else
    _ ← endpointURL (hc_APIOrigin cfg) (hc_CreatePath cfg);
    if bool_decide (hc_PaymentURLOrigins cfg = [])
    then Err (Wrapped ErrValidation "hosted provider payment URL allowlist is empty")
    else
      _ ← origins_ok (hc_PaymentURLOrigins cfg);
      if (hc_CredentialRef cfg == "") || (hc_CallbackSecretRef cfg == "")
         || ContainsAny (hc_CredentialRef cfg +:+ hc_CallbackSecretRef cfg) [47; 92; 0]
      then Err (Wrapped ErrValidation "provider secret references must be simple names")
      else Ok tt.

Definition ValidateConfig (cfg : HostedProviderConfig) : result error unit := validateConfig cfg false.
Definition ValidateCallbackConfig (cfg : HostedProviderConfig) : result error unit := validateConfig cfg true.

(** One JSON value without repeated keys, of the expected type and nothing more. *)
Definition decodeStrictJSON {A} (decode : string -> option A) (body : string) : result error A :=
  match json_tree body with
  | None => Err (Wrapped ErrValidation "invalid JSON")
  | Some v =>
      if negb (unique_keys v) then Err (Wrapped ErrValidation "invalid JSON")
      else match decode body with Some a => Ok a | None => Err (Wrapped ErrValidation "invalid strict JSON") end
  end.

(** The signed text of a request to the provider. *)
Definition request_text (method path timestamp payload : string) : string :=
  "hosted-provider-v1" +:+ newline +:+ method +:+ newline +:+ path +:+ newline +:+ timestamp +:+ newline +:+ payload.

(** [a.call] of a production adapter: [payload] is the marshalled input. *)
Definition call {A} (decode : string -> option A) (cfg : HostedProviderConfig) (method path idempotencyKey : string)
    (payload : option string) (now received : Time) : result error (A * providerEvidence) :=
  endpoint ← endpointURL (hc_APIOrigin cfg) path;
  origin ← parseHTTPSOrigin (hc_APIOrigin cfg);
  if (hu_Port origin != "") && (hu_Port origin != "443")
  then Err (Wrapped ErrValidation "provider API origin must use the HTTPS default port")
  else if match ParseAddr (hu_Hostname origin) with Some literal => negb (validateResolvedProviderIPs [literal]) | None => false end
  then Err (Wrapped ErrValidation "provider API origin must be public")
  else match payload with
       | None => Err (Plain "json")
       | Some payload =>
           match Resolve (hc_CredentialRef cfg) with
           | None => Err (Wrapped ErrDependency "provider API credential unavailable")
           | Some secret =>
               if len secret <? 32 then Err (Wrapped ErrDependency "provider API credential unavailable")
               else
                 let timestamp := FormatInt (unix_of now) in
                 let signature := hex_encode (hmac secret (request_text method path timestamp payload)) in
                 match Do (mkHostedHTTP method endpoint timestamp (hc_APIKeyID cfg) signature idempotencyKey payload) with
                 | None => Err (Wrapped ErrDependency "provider request failed")
                 | Some (_, None) => Err (Wrapped ErrDependency "provider response exceeds safe bounds")
                 | Some (status, Some body) =>
                     if len body >? MaxProviderBody then Err (Wrapped ErrDependency "provider response exceeds safe bounds")
                     else if (status <? 200) || (status >=? 300) then Err (Wrapped ErrDependency "provider returned HTTP")
                     else match decodeStrictJSON decode body with
                          | Err _ => Err (Wrapped ErrDependency "invalid provider response")
                          | Ok output => Ok (output, mkProviderEvidence body (sha256 body) received)
                          end
                 end
           end
       end.

(** The checks of a creation's answer against what was admitted. *)
Definition create_result (cfg : HostedProviderConfig) (req : HostedCreateRequest) (response : createResponse)
    (evidence : providerEvidence) (now : Time) : result error HostedCreateResult :=
  let changed := Err (Wrapped ErrInvariantViolation "provider create response changed admitted payment facts") in
  match Parse (rs_AmountAtomic response), Parse (rs_RateNumerator response), Parse (rs_RateDenominator response) with
  | Ok amount, Ok numerator, Ok denominator =>
      match MulDivCeil (hq_FiatAmountMinor req) numerator denominator with
      | Err _ => changed
      | Ok expected =>
          if IsZero amount || IsZero numerator || IsZero denominator || (rs_ProviderReference response == "")
             || (len (rs_ProviderReference response) >? 255) || (rs_AssetID response != hq_AssetID req)
             || negb (Cmp amount expected =? 0) || (rs_QuoteID response == "") || IsZeroTime (rs_QuoteIssuedAt response)
          then changed
          else
            _ ← validatePaymentURL (rs_PaymentURL response) (hc_PaymentURLOrigins cfg);
            if Before (rs_ExpiresAt response) (AddTime now (- Minute)) || After (rs_ExpiresAt response) (AddTime (hq_ExpiresAt req) Minute)
            then Err (Wrapped ErrInvariantViolation "provider expiry is outside the admitted window")
            else if After (rs_QuoteIssuedAt response) (AddTime now Minute)
                    || Before (rs_QuoteIssuedAt response) (AddTime now (-5 * Minute))
            then Err (Wrapped ErrInvariantViolation "provider quote is stale")
            else Ok (mkHostedCreateResult "" (rs_ProviderReference response) (rs_PaymentURL response) (rs_AssetID response)
                       amount (rs_AssetDecimals response) (rs_QuoteID response) numerator denominator
                       (rs_QuoteIssuedAt response) (pe_Body evidence) (pe_Digest evidence) (pe_ReceivedAt evidence)
                       (rs_ExpiresAt response))
      end
  | _, _, _ => changed
  end.

(** [clock]: the times of the request, of the answer and of the checks. *)
Definition HostedCreate (decode : string -> option createResponse) (marshal : HostedCreateRequest -> option string)
    (clock : Time * Time * Time) (cfg : HostedProviderConfig) (req : HostedCreateRequest) : result error HostedCreateResult :=
  let '(sent, received, now) := clock in
  _ ← ValidateConfig cfg;
  answer ← call decode cfg "POST" (hc_CreatePath cfg) (hq_IdempotencyKey req) (marshal req) sent received;
  create_result cfg req (fst answer) (snd answer) now.

Definition state_of (r : stateResponse) : result error ProviderState :=
  match Parse (st_AmountAtomic r) with
  | Err _ => Err (Wrapped ErrValidation "invalid provider status response")
  | Ok amount =>
      if (st_ProviderReference r == "") || negb (validProviderStatus (st_Status r))
      then Err (Wrapped ErrValidation "invalid provider status response")
      else Ok (mkProviderState (st_ProviderReference r) (st_Status r) (st_AssetID r) amount (st_AssetDecimals r) (st_OccurredAt r)
                 "" "" 0)
  end.

(** [marshal_reference]: the JSON object that names a payment. *)
Definition Reconcile (decode : string -> option stateResponse) (marshal_reference : string -> option string)
    (sent received : Time) (cfg : HostedProviderConfig) (providerReference : string) : result error ProviderState :=
  answer ← call decode cfg "POST" (hc_ReconcilePath cfg) "" (marshal_reference providerReference) sent received;
  state ← state_of (fst answer);
  Ok (mkProviderState (px_ProviderReference state) (px_Status state) (px_AssetID state) (px_Amount state) (px_AssetDecimals state)
        (px_OccurredAt state) (pe_Body (snd answer)) (pe_Digest (snd answer)) (pe_ReceivedAt (snd answer))).

Definition HostedStatus (decode : string -> option stateResponse) (marshal_reference : string -> option string)
    (sent received : Time) (cfg : HostedProviderConfig) (providerReference : string) : result error ProviderState :=
  answer ← call decode cfg "POST" (hc_StatusPath cfg) "" (marshal_reference providerReference) sent received;
  state_of (fst answer).

Definition HostedCancel (decode : string -> option unit) (marshal_reference : string -> option string)
    (sent received : Time) (cfg : HostedProviderConfig) (providerReference idempotencyKey : string) : result error unit :=
  _ ← call decode cfg "POST" (hc_CancelPath cfg) idempotencyKey (marshal_reference providerReference) sent received; Ok tt.

Record HostedRefundRequest := mkHostedRefundRequest {
  hx_ProviderReference : string; hx_IdempotencyKey : string; hx_Amount : Amount; hx_Reason : string }.
Record HostedRefundResult := mkHostedRefundResult { hx_ProviderRefundReference : string; hx_Status : string }.

(** [marshal_refund]: the JSON object of reference, amount as text, and reason. *)
Definition HostedRefund (decode : string -> option HostedRefundResult) (marshal_refund : string -> string -> string -> option string)
    (sent received : Time) (cfg : HostedProviderConfig) (req : HostedRefundRequest) : result error HostedRefundResult :=
  answer ← call decode cfg "POST" (hc_RefundPath cfg) (hx_IdempotencyKey req)
             (marshal_refund (hx_ProviderReference req) (AmountString (hx_Amount req)) (hx_Reason req)) sent received;
  Ok (fst answer).

(** The address the production transport connects to: [split] is
    [net.SplitHostPort], [LookupNetIP] the resolver. *)
Definition safeProviderDialContext (split : string -> option (string * string)) (LookupNetIP : string -> option (list IP))
    (address : string) : result error IP :=
  let unavailable := Err (Plain "provider endpoint is unavailable") in
  match split address with
  | None => unavailable
  | Some (host, port) =>
      if port != "443" then unavailable
      else match ParseAddr host with
           | Some literal => if validateResolvedProviderIPs [literal] then Ok literal else unavailable
           | None =>
               match LookupNetIP host with
               | Some (first :: rest) => if validateResolvedProviderIPs (first :: rest) then Ok (To4 first) else unavailable
               | _ => unavailable
               end
           end
  end.

(** The signed text of a callback. *)
Definition callback_text (id timestamp body : string) : string :=
  "hosted-callback-v1" +:+ newline +:+ id +:+ newline +:+ timestamp +:+ newline +:+ body.

Definition VerifyCallback (decode : string -> option callbackBody) (cfg : HostedProviderConfig) (headers : Headers)
    (body : string) (now : Time) : result error VerifiedProviderPayment :=
  _ ← ValidateCallbackConfig cfg;
  if (len body =? 0) || (len body >? MaxCallbackBody)
  then Err (Wrapped ErrValidation "provider callback body must be 1..1048576 bytes")
  else
    timestampText ← exactHeader headers "Hosted-Timestamp";
    match exactHeader headers "Hosted-Key-Id" with
    | Err _ => Err (Wrapped ErrValidation "invalid provider callback key id")
    | Ok keyID =>
        if keyID != hc_CallbackKeyID cfg then Err (Wrapped ErrValidation "invalid provider callback key id")
        else
          signatureText ← exactHeader headers "Hosted-Signature";
          match ParseInt64 timestampText with
          | None => Err (Wrapped ErrValidation "invalid provider callback timestamp")
          | Some seconds =>
              let timestamp := time_Unix seconds in
              if Before timestamp (AddTime now (-5 * Minute)) || After timestamp (AddTime now (5 * Minute))
              then Err (Wrapped ErrStateConflict "provider callback timestamp is outside the replay window")
              else match hex_decode signatureText with
                   | None => Err (Wrapped ErrValidation "invalid provider callback signature encoding")
                   | Some provided =>
                       if negb (len provided =? 32) || (hex_encode provided != signatureText)
                       then Err (Wrapped ErrValidation "invalid provider callback signature encoding")
                       else match Resolve (hc_CallbackSecretRef cfg) with
                            | None => Err (Wrapped ErrDependency "provider callback secret unavailable")
                            | Some secret =>
                                if len secret <? 32 then Err (Wrapped ErrDependency "provider callback secret unavailable")
                                else if hmac secret (callback_text (hc_ID cfg) timestampText body) != provided
                                then Err (Wrapped ErrValidation "provider callback signature mismatch")
                                else
                                  decoded ← decodeStrictJSON decode body;
                                  match Parse (cb_AmountAtomic decoded) with
                                  | Err _ => Err (Wrapped ErrValidation "incomplete provider callback")
                                  | Ok amount =>
                                      if IsZero amount || (cb_EventID decoded == "") || (cb_ProviderReference decoded == "")
                                         || (cb_AssetID decoded == "") || IsZeroTime (cb_OccurredAt decoded)
                                         || negb (validProviderStatus (cb_Status decoded))
                                      then Err (Wrapped ErrValidation "incomplete provider callback")
                                      else Ok (mkVerifiedProviderPayment "" "" (hc_ID cfg) "" (cb_ProviderReference decoded)
                                                 (cb_EventID decoded) (cb_Status decoded) (cb_AssetID decoded) amount
                                                 (cb_AssetDecimals decoded) (cb_OccurredAt decoded) now body (sha256 body)
                                                 (hc_CallbackSignatureKind cfg) (hc_CallbackKeyID cfg) (hc_ConfigManifestID cfg)
                                                 (hc_ConfigVersion cfg) (sha256 provided) false)
                                  end
                            end
                   end
          end
    end.
End adapter.

(** ** The runtime (runtime.go) *)

Definition formatAtomic (value : string) (decimals : Z) : string :=
  if decimals =? 0 then value
  else
    let value := pad_zeros (S (Z.to_nat decimals)) decimals value in
    let cut := Z.to_nat (len value - decimals) in
    str_take cut value +:+ "." +:+ str_drop cut value.

Definition RouteProviderHostedGateway : string := "hosted_gateway".

Definition routeCommand (principal : Principal) (intent : PaymentIntent) (idempotencyKey requestHash : string)
    (cfg : HostedProviderConfig) (result : HostedCreateResult) : CreateRouteCmd :=
  mkCreateRoute principal (pi_ID intent) idempotencyKey RouteProviderHostedGateway (hc_ID cfg) (hr_ProviderOrderID result)
    (hr_ProviderReference result) (hr_PaymentURL result) "" "" false "" (hr_AssetID result) (hr_Amount result)
    (hr_AssetDecimals result) (formatAtomic (AmountString (hr_Amount result)) (hr_AssetDecimals result)) "" "" 0
    (hr_ExpiresAt result) (hr_ExpiresAt result) "" requestHash.

(** The calls of the runtime, in order. *)
Inductive plan_call :=
| PGetConfig (providerID : string)
| PClaim (request : HostedCreateRequest) (lease : Duration)
| PAdmit (providerID operation : string)
| PProvider (cfg : HostedProviderConfig) (request : HostedCreateRequest)
| PRelease (request : HostedCreateRequest) (reason : string)
| PComplete (request : HostedCreateRequest) (result : HostedCreateResult).

(** What repository and adapter answer to them. *)
Record plan_env := mkPlanEnv {
  ev_Config : result error HostedProviderConfig; ev_Claim : result error HostedCreateFence; ev_Admit : option error;
  ev_Provider : result error HostedCreateResult; ev_Complete : HostedCreateResult -> result error HostedCreateResult }.

Section runtime.
Context (parse : string -> option HostedURL).

Definition hosted_request (intent : PaymentIntent) (providerID assetID idempotencyKey requestHash : string) (expiresAt : Time)
    : HostedCreateRequest :=
  mkHostedCreateRequest providerID (pi_ID intent) idempotencyKey requestHash assetID (pi_AmountMinor intent)
    (pi_Currency intent) (pi_CurrencyScale intent) expiresAt.

Definition PlanHosted (ClaimLease : Duration) (e : plan_env) (principal : Principal) (intent : PaymentIntent)
    (providerID assetID idempotencyKey requestHash : string) (expiresAt : Time) : list plan_call * result error CreateRouteCmd :=
  let request := hosted_request intent providerID assetID idempotencyKey requestHash expiresAt in
  match ev_Config e with
  | Err err => ([PGetConfig providerID], Err err)
  | Ok cfg =>
      match ValidateConfig parse cfg with
      | Err err => ([PGetConfig providerID], Err err)
      | Ok _ =>
          if (hc_AssetID cfg != assetID) || (hc_Currency cfg != pi_Currency intent)
          then ([PGetConfig providerID], Err (Wrapped ErrValidation "hosted provider does not admit this asset/currency"))
          else
            let lease := if ClaimLease =? 0 then 30 * Second else ClaimLease in
            let claimed := [PGetConfig providerID; PClaim request lease] in
            let route := routeCommand principal intent idempotencyKey requestHash cfg in
            match ev_Claim e with
            | Err err => (claimed, Err err)
            | Ok fence =>
                if hf_Completed fence then (claimed, Ok (route (hf_Result fence)))
                else if negb (hf_Claimed fence)
                then (claimed, Err (Wrapped ErrStateConflict "hosted provider create is already in progress"))
                else
                  let admitted := claimed ++ [PAdmit (hc_ID cfg) "create"] in
                  match ev_Admit e with
                  | Some err => (admitted ++ [PRelease request "provider_create_not_admitted"], Err err)
                  | None =>
                      let called := admitted ++ [PProvider cfg request] in
                      match ev_Provider e with
                      | Err err => (called ++ [PRelease request "provider_create_failed"], Err err)
                      | Ok res =>
                          match ev_Complete e res with
                          | Err err => (called ++ [PComplete request res], Err err)
                          | Ok res' => (called ++ [PComplete request res], Ok (route res'))
                          end
                      end
                  end
            end
      end
  end.
End runtime.

Definition with_owner (cfg : HostedProviderConfig) (v : VerifiedProviderPayment) : VerifiedProviderPayment :=
  mkVerifiedProviderPayment (hc_TenantID cfg) (hc_MerchantID cfg) (vp_ProviderID v) (vp_ProviderOrderID v)
    (vp_ProviderReference v) (vp_ProviderEventID v) (vp_ProviderStatus v) (vp_AssetID v) (vp_Amount v)
    (vp_AssetDecimals v) (vp_OccurredAt v) (vp_ReceivedAt v) (vp_RawBody v) (vp_RawDigest v) (vp_SignatureScheme v)
    (vp_SignatureKeyID v) (hc_ConfigManifestID cfg) (hc_ConfigVersion cfg) (vp_SignatureDigest v)
    (hc_Status cfg == "paused").

Section callbacks.
Context (parse : string -> option HostedURL) (sha256 : string -> string) (hmac : string -> string -> string)
  (Resolve : string -> option string) (json_tree : string -> option Outbox.JSON) (decode : string -> option callbackBody).

(** The payment handed to [IngestVerifiedProviderPayment], or the error. *)
Definition HandleCallback (GetCallbackConfig : string -> string -> result error HostedProviderConfig) (providerID : string)
    (headers : Headers) (body : string) (now : Time) : result error VerifiedProviderPayment :=
  keyID ← exactHeader headers "Hosted-Key-Id";
  cfg ← GetCallbackConfig providerID keyID;
  verified ← VerifyCallback parse sha256 hmac Resolve json_tree decode cfg headers body now;
  Ok (with_owner cfg verified).
End callbacks.

(** ** Recovery (worker.go) *)

Inductive RecoveryKind := RecoveryCreate | RecoveryStatus | RecoveryPrebind | RecoveryUnknown.

Record RecoveryJob := mkRecoveryJob {
  rj_Kind : RecoveryKind; rj_ID : string; rj_ClaimToken : string; rj_Attempt : Z; rj_Config : HostedProviderConfig;
  rj_CreateRequest : HostedCreateRequest; rj_CreateResult : HostedCreateResult; rj_RouteID : string;
  rj_IntentStatus : string; rj_Payment : VerifiedProviderPayment }.

(** The errors of the worker: those of the domain, and a bind that came too late. *)
Inductive recovery_error := DomainError (e : error) | ErrRecoveryIntentIneligible.

Inductive recovery_call :=
| MarkHostedCreateExpired (job : RecoveryJob)
| AdmitHostedOperation (job : RecoveryJob) (operation : string)
| AdapterCreate (cfg : HostedProviderConfig) (request : HostedCreateRequest)
| CompleteHostedCreateRecovery (job : RecoveryJob) (result : HostedCreateResult)
| BindHostedCreateRecovery (job : RecoveryJob)
| AdapterCancel (cfg : HostedProviderConfig) (reference key : string)
| MarkHostedCreateCancelled (job : RecoveryJob) (reason : string)
| AdapterReconcile (cfg : HostedProviderConfig) (reference : string)
| RecordHostedReconcileObservation (job : RecoveryJob) (state : ProviderState)
| ExpireHostedPrebind (job : RecoveryJob)
| ReplayHostedPrebind (job : RecoveryJob)
| RetryHostedRecovery (job : RecoveryJob) (next : Time) (code : string) (dead : bool).

(** What is answered to each of them; [None] is success. *)
Record recovery_env := mkRecoveryEnv {
  re_expire : RecoveryJob -> option recovery_error; re_admission : RecoveryJob -> string -> option recovery_error;
  re_create : RecoveryJob -> result recovery_error HostedCreateResult;
  re_complete : RecoveryJob -> HostedCreateResult -> result recovery_error RecoveryJob;
  re_bind : RecoveryJob -> option recovery_error; re_cancel : RecoveryJob -> option recovery_error;
  re_cancelled : RecoveryJob -> option recovery_error; re_reconcile : RecoveryJob -> result recovery_error ProviderState;
  re_record : RecoveryJob -> option recovery_error; re_prebind_expire : RecoveryJob -> option recovery_error;
  re_replay : RecoveryJob -> option recovery_error }.

(** Binding a created order to its route, or cancelling it at the provider. *)
Definition bind_or_cancel (e : recovery_env) (job : RecoveryJob) : list recovery_call * option recovery_error :=
  match re_bind e job with
  | None => ([BindHostedCreateRecovery job], None)
  | Some (DomainError err) => ([BindHostedCreateRecovery job], Some (DomainError err))
  | Some ErrRecoveryIntentIneligible =>
      let before := [BindHostedCreateRecovery job; AdmitHostedOperation job "cancel"] in
      match re_admission e job "cancel" with
      | Some err => (before, Some err)
      | None =>
          let called := before ++ [AdapterCancel (rj_Config job) (hr_ProviderReference (rj_CreateResult job)) ("hosted-cancel-" +:+ rj_ID job)] in
          match re_cancel e job with
          | Some err => (called, Some err)
          | None => (called ++ [MarkHostedCreateCancelled job "intent_ineligible"], re_cancelled e job)
          end
      end
  end.

Definition process_recovery (e : recovery_env) (now : Time) (job : RecoveryJob) : list recovery_call * option recovery_error :=
  match rj_Kind job with
  | RecoveryCreate =>
      if hr_ProviderReference (rj_CreateResult job) == "" then
        if negb (After (hq_ExpiresAt (rj_CreateRequest job)) now) then ([MarkHostedCreateExpired job], re_expire e job)
        else match re_admission e job "create" with
             | Some err => ([AdmitHostedOperation job "create"], Some err)
             | None =>
                 let called := [AdmitHostedOperation job "create"; AdapterCreate (rj_Config job) (rj_CreateRequest job)] in
                 match re_create e job with
                 | Err err => (called, Some err)
                 | Ok result =>
                     let completed := called ++ [CompleteHostedCreateRecovery job result] in
                     match re_complete e job result with
                     | Err err => (completed, Some err)
                     | Ok job' => let '(calls, err) := bind_or_cancel e job' in (completed ++ calls, err)
                     end
                 end
             end
      else bind_or_cancel e job
  | RecoveryStatus =>
      match re_admission e job "reconciliation" with
      | Some err => ([AdmitHostedOperation job "reconciliation"], Some err)
      | None =>
          let called := [AdmitHostedOperation job "reconciliation";
                         AdapterReconcile (rj_Config job) (hr_ProviderReference (rj_CreateResult job))] in
          match re_reconcile e job with
          | Err err => (called, Some err)
          | Ok state => (called ++ [RecordHostedReconcileObservation job state], re_record e job)
          end
      end
  | RecoveryPrebind =>
      if rj_RouteID job == "" then ([ExpireHostedPrebind job], re_prebind_expire e job)
      else ([ReplayHostedPrebind job], re_replay e job)
  | RecoveryUnknown => ([], Some (DomainError (Plain "unknown hosted recovery job kind")))
  end.

Definition recoveryErrorCode (err : recovery_error) : string :=
  match err with
  | ErrRecoveryIntentIneligible => "state_conflict"
  | DomainError e =>
      if errors_Is e ErrDependency then "provider_dependency"
      else if errors_Is e ErrIdempotencyConflict then "idempotency_conflict"
      else if errors_Is e ErrStateConflict then "state_conflict"
      else "recovery_failed"
  end.

(** [time.Duration(job.Attempt*job.Attempt) * time.Second], at most 15 minutes. *)
Definition recovery_delay (attempt : Z) : Duration :=
  let delay := int64 (int64 (attempt * attempt) * Second) in
  if delay >? 15 * Minute then 15 * Minute else delay.

(** One job: its calls and whether it failed. *)
Definition recover_job (e : recovery_env) (now : Time) (maximum : Z) (job : RecoveryJob) : list recovery_call * bool :=
  let '(calls, err) := process_recovery e now job in
  match err with
  | None => (calls, false)
  | Some err =>
      (calls ++ [RetryHostedRecovery job (AddTime now (recovery_delay (rj_Attempt job))) (recoveryErrorCode err)
                   (maximum <=? rj_Attempt job)], true)
  end.

Fixpoint recover_jobs (e : recovery_env) (now : Time) (maximum : Z) (jobs : list RecoveryJob) : list recovery_call * nat :=
  match jobs with
  | [] => ([], O)
  | job :: rest =>
      let '(calls, failed) := recover_job e now maximum job in
      let '(more, n) := recover_jobs e now maximum rest in
      (calls ++ more, if failed then S n else n)
  end.

(** [claim]: the jobs claimed with the lease. The result is the number of jobs
    and of failures. *)
Definition RunRecovery (Lease : Duration) (MaxAttempts : Z) (e : recovery_env)
    (claim : Duration -> result recovery_error (list RecoveryJob)) (now : Time) (workerID : string) (limit : Z)
    : list recovery_call * result recovery_error (nat * nat) :=
  if (workerID == "") || (limit <? 1) || (limit >? 100)
  then ([], Err (DomainError (Plain "invalid hosted provider recovery worker configuration")))
  else
    let lease := if Lease <=? 0 then 30 * Second else Lease in
    let maximum := if MaxAttempts <=? 0 then 20 else MaxAttempts in
    match claim lease with
    | Err err => ([], Err err)
    | Ok jobs => let '(calls, failures) := recover_jobs e now maximum jobs in (calls, Ok (length jobs, failures))
    end.
