(* ===== verification/HostedFacts.v ===== *)
(** * HostedFacts: what the hosted-gateway code guarantees

    A created payment has the price that was admitted; a callback is read only
    under a signature that belongs to one provider, time and body; a provider is
    called only behind a claimed fence and an admission; a recovery job ends
    either done or scheduled once; and the displayed amount reads back exactly. *)

From Stdlib Require Import ZArith Lia Ascii String.
From stdpp Require Import base gmap list strings.
From S2P Require Import Prelude Text Numerals Money Domain Commands Auth Chains Webhook Legacy LegacyGateway LegacyFacts Hosted.

(** Case analysis along the binds of a computation that returned. *)
Ltac bind_ok H :=
  match type of H with
  | (mbind _ ?m) = Ok _ =>
      let x := fresh "x" in let E := fresh "E" in destruct m as [x|] eqn:E; [|discriminate H]; cbn [mbind result_bind] in H
  end.

(** The next guard of a computation that returned was passed. *)
Ltac guard_ok H :=
  match type of H with
  | (if ?b then _ else _) = Ok _ => let E := fresh "E" in destruct b eqn:E; [discriminate H|]
  end.

(** ** Creation *)

Section creation.
Context (parse : string -> option HostedURL) (ParseAddr : string -> option IP) (sha256 : string -> string)
  (hmac : string -> string -> string) (Resolve : string -> option string) (json_tree : string -> option Outbox.JSON)
  (Do : HostedHTTP -> option (Z * option string)).

(** The payment page is on an admitted origin. *)
Definition admitted_page (cfg : HostedProviderConfig) (url : string) : Prop :=
  exists u, parse url = Some u /\ hu_Scheme u = "https" /\ hu_HasUser u = false /\ hu_Fragment u = "" /\
    In ("https://" +:+ hu_Host u) (hc_PaymentURLOrigins cfg).

Lemma validatePaymentURL_ok url cfg : validatePaymentURL parse url (hc_PaymentURLOrigins cfg) = Ok tt -> admitted_page cfg url.
Proof.
  unfold validatePaymentURL. destruct (parse url) as [u|] eqn:Eu; [|done]. intros H.
  destruct (_ || _) eqn:E in H; [done|]. bool_hyp. destruct (existsb_str _ _) eqn:Ex in H; [|done].
  apply existsb_str_In in Ex. match goal with E : hu_Scheme u = _ |- _ => rewrite E in Ex end. by exists u.
Qed.

Lemma create_result_ok cfg req response evidence now res : create_result parse cfg req response evidence now = Ok res ->
  0 <= hq_FiatAmountMinor req ->
  0 < hr_Amount res < amount_limit /\ 0 < hr_RateDenominator res /\
  hq_FiatAmountMinor req * hr_RateNumerator res <= hr_Amount res * hr_RateDenominator res
    < hq_FiatAmountMinor req * hr_RateNumerator res + hr_RateDenominator res /\
  hr_AssetID res = hq_AssetID req /\ admitted_page cfg (hr_PaymentURL res) /\
  now - Minute <= hr_ExpiresAt res <= hq_ExpiresAt req + Minute /\
  now - 5 * Minute <= hr_QuoteIssuedAt res <= now + Minute /\
  hr_ResponseDigest res = pe_Digest evidence /\ hr_RawResponse res = pe_Body evidence.
Proof.
  unfold create_result. destruct (Parse (rs_AmountAtomic response)) as [amount|] eqn:E1; [|done].
  destruct (Parse (rs_RateNumerator response)) as [num|] eqn:E2; [|done].
  destruct (Parse (rs_RateDenominator response)) as [den|] eqn:E3; [|done]. intros H Hf.
  destruct (MulDivCeil _ _ _) as [expected|] eqn:E4; [|done]. cbv zeta in H.
  destruct (_ || _) eqn:Eg in H; [done|]. bind_ok H. destruct x.
  destruct (_ || _) eqn:Ee in H; [done|]. destruct (_ || _) eqn:Eq in H; [done|]. injection H as <-.
  apply validatePaymentURL_ok in E. unfold IsZero, Before, After, AddTime in *. bool_hyp.
  apply Parse_iff_String in E1 as [V1 _], E2 as [V2 _], E3 as [V3 _]. unfold valid_amount in *.
  assert (amount = expected) as ->.
  { match goal with Hc : Cmp amount expected = 0 |- _ => apply Z.eqb_eq in Hc; rewrite Cmp_eq in Hc; by apply Z.eqb_eq in Hc end. }
  unfold MulDivCeil, IsZero in E4. destruct (den =? 0) eqn:Ed; [done|]. bool_hyp.
  apply checked_spec in E4 as [-> Hv]; [|apply quo_ceil_nonneg; nia].
  cbn. pose proof (quo_ceil_spec (hq_FiatAmountMinor req * num) den _ ltac:(nia) ltac:(lia) eq_refl) as Hq.
  split_and!; try done; try lia.
Qed.

(** A payment created at a hosted provider has the price that was admitted:
    its amount is the least whole number of atomic units that covers the fiat
    amount at the quoted rate, in the asked asset, payable on an admitted HTTPS
    origin, within a minute of the admitted expiry, at a quote at most five
    minutes old; and the evidence kept is the body that was read, with its
    digest. *)
Theorem hosted_create_keeps_facts decode marshal clock cfg req res :
  0 <= hq_FiatAmountMinor req ->
  HostedCreate parse ParseAddr sha256 hmac Resolve json_tree Do decode marshal clock cfg req = Ok res ->
  0 < hr_Amount res < amount_limit /\
  hq_FiatAmountMinor req * hr_RateNumerator res <= hr_Amount res * hr_RateDenominator res
    < hq_FiatAmountMinor req * hr_RateNumerator res + hr_RateDenominator res /\
  hr_AssetID res = hq_AssetID req /\ admitted_page cfg (hr_PaymentURL res) /\
  clock.2 - Minute <= hr_ExpiresAt res <= hq_ExpiresAt req + Minute /\
  clock.2 - 5 * Minute <= hr_QuoteIssuedAt res <= clock.2 + Minute /\
  hr_ResponseDigest res = sha256 (hr_RawResponse res) /\ len (hr_RawResponse res) <= MaxProviderBody.
Proof.
  intros Hf. destruct clock as [[sent received] now]. unfold HostedCreate. intros H. bind_ok H. bind_ok H.
  destruct x0 as [response evidence]. apply create_result_ok in H as (H1 & _ & H3 & H4 & H5 & H6 & H7 & H8 & H9); [|done].
  assert (pe_Digest evidence = sha256 (pe_Body evidence) /\ len (pe_Body evidence) <= MaxProviderBody) as [Hd Hl].
  { clear -E0. unfold call in E0. bind_ok E0. bind_ok E0. do 2 guard_ok E0.
    destruct (marshal req) as [payload|]; [|done]. destruct (Resolve _) as [secret|]; [|done]. destruct (len secret <? 32); [done|].
    cbv zeta in E0. destruct (Do _) as [[status [body|]]|]; try done. destruct (len body >? MaxProviderBody) eqn:El; [done|].
    destruct (_ || _) in E0; [done|]. destruct (decodeStrictJSON _ _ _) as [out|]; [|done]. injection E0 as _ <-. cbn. bool_hyp. done. }
  cbn [snd]. split_and!; try done; try lia; [by rewrite H8, H9|by rewrite H9].
Qed.

(** The number of decimals is not among the facts that are compared: whatever an
    accepted answer says in its place is accepted too, and decides how the
    amount is shown. *)
Theorem hosted_decimals_unchecked cfg req r evidence now res decimals :
  create_result parse cfg req r evidence now = Ok res ->
  exists res', hr_AssetDecimals res' = decimals /\ hr_Amount res' = hr_Amount res /\
    create_result parse cfg req
      (mkCreateResponse (rs_ProviderReference r) (rs_PaymentURL r) (rs_AssetID r) (rs_AmountAtomic r) decimals (rs_QuoteID r)
         (rs_RateNumerator r) (rs_RateDenominator r) (rs_QuoteIssuedAt r) (rs_ExpiresAt r)) evidence now = Ok res'.
Proof.
  unfold create_result. cbn.
  destruct (Parse (rs_AmountAtomic r)); [|done]. destruct (Parse (rs_RateNumerator r)); [|done]. destruct (Parse (rs_RateDenominator r)); [|done].
  destruct (MulDivCeil _ _ _); [|done]. destruct (_ || _); [done|]. destruct (validatePaymentURL _ _ _); [|done]. cbn.
  destruct (_ || _); [done|]. destruct (_ || _); [done|]. intros [= <-]. eexists. split_and!; [| |reflexivity]; done.
Qed.
End creation.

(** ** Callbacks *)

Lemma ParseInt64_no_newline t z : ParseInt64 t = Some z -> str_no (chr 10) t = true.
Proof.
  assert (Hd : forall s, str_forall is_digit s = true -> str_no (chr 10) s = true).
  { intros s. apply str_forall_impl. intros c Hc. by destruct (Ascii.eqb_spec c (chr 10)) as [->|]. }
  unfold ParseInt64. destruct t as [|c r]; [done|]. destruct (Ascii.eqb_spec c minus_sign) as [->|].
  - destruct (_ || _) eqn:E; [done|]. intros _. bool_hyp. by apply (Hd r).
  - destruct (Ascii.eqb_spec c plus_sign) as [->|]; (destruct (_ || _) eqn:E; [done|]); intros _; bool_hyp;
      [by apply (Hd r)|by apply (Hd (String c r))].
Qed.

Lemma exactHeader_ok headers name v : exactHeader headers name = Ok v -> header_values headers name = [v].
Proof.
  unfold exactHeader. destruct (header_values headers name) as [|w [|]]; try done. destruct (_ || _); [done|]. by intros [= ->].
Qed.

(** The text that is signed determines provider, time and body. *)
Lemma callback_text_inj id1 t1 b1 id2 t2 b2 : str_no (chr 10) id1 = true -> str_no (chr 10) id2 = true ->
  str_no (chr 10) t1 = true -> str_no (chr 10) t2 = true ->
  callback_text id1 t1 b1 = callback_text id2 t2 b2 -> id1 = id2 /\ t1 = t2 /\ b1 = b2.
Proof.
  intros I1 I2 T1 T2 H. unfold callback_text in H. injection H as H.
  apply str_app_sep_inj in H as [-> H]; [|done..]. by apply str_app_sep_inj in H as [-> ->].
Qed.

Section callbacks.
Context (parse : string -> option HostedURL) (sha256 : string -> string) (hmac : string -> string -> string)
  (Resolve : string -> option string) (json_tree : string -> option Outbox.JSON) (decode : string -> option callbackBody).

Abbreviation verify := (VerifyCallback parse sha256 hmac Resolve json_tree decode).
Abbreviation header h name := (header_values h name).

(** Everything an accepted callback has passed. *)
Record accepted_callback (cfg : HostedProviderConfig) (headers : Headers) (body : string) (now : Time)
    (v : VerifiedProviderPayment) (timestamp secret : string) : Prop := {
  ac_config : ValidateCallbackConfig parse cfg = Ok tt;
  ac_size : 0 < len body <= MaxCallbackBody;
  ac_key : header headers "Hosted-Key-Id" = [hc_CallbackKeyID cfg];
  ac_timestamp : header headers "Hosted-Timestamp" = [timestamp];
  ac_recent : exists seconds, ParseInt64 timestamp = Some seconds /\ now - 5 * Minute <= time_Unix seconds <= now + 5 * Minute;
  ac_secret : Resolve (hc_CallbackSecretRef cfg) = Some secret /\ 32 <= len secret;
  ac_signature : header headers "Hosted-Signature" = [hex_encode (hmac secret (callback_text (hc_ID cfg) timestamp body))];
  ac_facts : exists d, json_tree body <> None /\ decode body = Some d /\ vp_ProviderReference v = cb_ProviderReference d /\
    vp_ProviderEventID v = cb_EventID d /\ vp_ProviderStatus v = cb_Status d /\ vp_AssetID v = cb_AssetID d /\
    AmountString (vp_Amount v) = cb_AmountAtomic d /\ 0 < vp_Amount v < amount_limit /\ validProviderStatus (cb_Status d) = true;
  ac_owner : vp_ProviderID v = hc_ID cfg /\ vp_RawBody v = body /\ vp_RawDigest v = sha256 body }.

Lemma verify_ok cfg headers body now v : verify cfg headers body now = Ok v ->
  exists timestamp secret, accepted_callback cfg headers body now v timestamp secret.
Proof.
  unfold VerifyCallback. intros H. bind_ok H. destruct x. guard_ok H. bind_ok H.
  destruct (exactHeader headers "Hosted-Key-Id") as [keyID|] eqn:Ek; [|done]. guard_ok H. bind_ok H.
  destruct (ParseInt64 x) as [seconds|] eqn:Es; [|done]. cbv zeta in H. guard_ok H.
  destruct (hex_decode x0) as [provided|] eqn:Ed; [|done]. guard_ok H.
  destruct (Resolve _) as [secret|] eqn:Er; [|done]. guard_ok H. guard_ok H. bind_ok H.
  destruct (Parse (cb_AmountAtomic x1)) as [amount|] eqn:Ea; [|done]. guard_ok H. injection H as <-.
  unfold decodeStrictJSON in E8. destruct (json_tree body) as [tree|] eqn:Ej; [|done]. destruct (negb (unique_keys tree)); [done|].
  destruct (decode body) as [d|] eqn:Edec; [|done]. injection E8 as <-.
  apply exactHeader_ok in E1, Ek, E3. unfold IsZero, Before, After, AddTime in *. bool_hyp. subst.
  apply Parse_iff_String in Ea as [Va Ha]. unfold valid_amount in Va. pose proof (len_nonneg body).
  exists x, secret. constructor; try done; try lia.
  - exists seconds. split; [done|]. lia.
  - exists d. cbn. split_and!; try done. all: first [lia|congruence].
Qed.

(** C30: A callback is accepted only with one timestamp within five minutes of the
    clock, one key that is the configured one, and one signature: the HMAC under
    the provider's secret of the provider, that timestamp and this very body; the
    payment it reports is what the body says, read strictly, with a positive
    amount below 2^256. *)
Theorem callback_is_authentic cfg headers body now v :
  verify cfg headers body now = Ok v ->
  exists timestamp secret, accepted_callback cfg headers body now v timestamp secret.
Proof. apply verify_ok. Qed.

(** An accepted signature belongs to one provider, time and body: when one
    signature is accepted in two callbacks, also of different configurations that
    share a secret, and HMAC does not collide on them, they are for the same
    provider and timestamp and have the same body, so they report the same event. *)
Theorem callback_signature_binds cfg1 cfg2 headers1 headers2 body1 body2 now1 now2 v1 v2 secret :
  verify cfg1 headers1 body1 now1 = Ok v1 -> verify cfg2 headers2 body2 now2 = Ok v2 ->
  header headers1 "Hosted-Signature" = header headers2 "Hosted-Signature" ->
  Resolve (hc_CallbackSecretRef cfg1) = Some secret -> Resolve (hc_CallbackSecretRef cfg2) = Some secret ->
  str_no (chr 10) (hc_ID cfg1) = true -> str_no (chr 10) (hc_ID cfg2) = true ->
  (forall t1 t2, header headers1 "Hosted-Timestamp" = [t1] -> header headers2 "Hosted-Timestamp" = [t2] ->
     hmac secret (callback_text (hc_ID cfg1) t1 body1) = hmac secret (callback_text (hc_ID cfg2) t2 body2) ->
     callback_text (hc_ID cfg1) t1 body1 = callback_text (hc_ID cfg2) t2 body2) ->
  hc_ID cfg1 = hc_ID cfg2 /\ header headers1 "Hosted-Timestamp" = header headers2 "Hosted-Timestamp" /\ body1 = body2 /\
  vp_ProviderEventID v1 = vp_ProviderEventID v2 /\ vp_Amount v1 = vp_Amount v2.
Proof.
  intros (t1 & s1 & A1)%verify_ok (t2 & s2 & A2)%verify_ok Hs R1 R2 I1 I2 Hmac. destruct A1, A2.
  destruct ac_secret0 as [S1 _], ac_secret1 as [S2 _]. rewrite R1 in S1. rewrite R2 in S2. injection S1 as <-. injection S2 as <-.
  rewrite ac_signature0, ac_signature1 in Hs. injection Hs as Hs. apply hex_encode_inj, Hmac in Hs; [|done..].
  destruct ac_recent0 as (z1 & P1 & _), ac_recent1 as (z2 & P2 & _). rewrite ac_timestamp0, ac_timestamp1.
  apply callback_text_inj in Hs as (-> & -> & ->); [|done|done|by eapply ParseInt64_no_newline..].
  destruct ac_facts0 as (d1 & _ & D1 & _ & F1 & _ & _ & M1 & ? & _), ac_facts1 as (d2 & _ & D2 & _ & F2 & _ & _ & M2 & ? & _).
  rewrite D1 in D2. injection D2 as <-. split_and!; try congruence.
  rewrite <- M2 in M1. apply dec_string_inj in M1; lia.
Qed.
End callbacks.

(** ** Amounts as shown *)

Lemma canonical_prefix n s : canonical_uint s = true -> (1 <= n)%nat -> canonical_uint (str_take n s) = true.
Proof.
  destruct s as [|c r], n as [|n]; try done; [lia|]. cbn. intros H _. destruct (code c =? 48).
  - apply String.eqb_eq in H as ->. by destruct n.
  - bool_hyp. by apply andb_true_iff; split; [|apply str_forall_take].
Qed.

Lemma canonical_one s : str_forall is_digit s = true -> len s = 1 -> canonical_uint s = true.
Proof.
  destruct s as [|c [|d r]]; unfold len; cbn; intros Hd Hl; try lia. rewrite andb_true_r in Hd.
  destruct (code c =? 48); [done|]. by rewrite Hd.
Qed.

(** Digits padded to a scale and cut there: a canonical number and its fraction. *)
Lemma cut_amount k amount decimals : 0 <= amount -> 0 < decimals -> 0 <= k ->
  (k = 0 /\ decimals < len (dec_string amount) \/ k + len (dec_string amount) = decimals + 1) ->
  let s := zeros k +:+ dec_string amount in
  let w := str_take (Z.to_nat (len s - decimals)) s in
  let f := str_drop (Z.to_nat (len s - decimals)) s in
  canonical_uint w = true /\ str_forall is_digit f = true /\ len f = decimals /\ dec_value 0 (w +:+ f) = amount.
Proof.
  intros Ha Hd Hk Hcase s w f. pose proof (dec_string_canonical amount Ha) as Hc. pose proof (canonical_digits _ Hc) as Hdig.
  assert (digits s) as Hsd by (unfold digits, s in *; by rewrite str_forall_app, zeros_digits, Hdig).
  assert (len s = k + len (dec_string amount)) as Hls by (unfold s; by rewrite len_app, len_zeros).
  destruct (cut_digits (len s - decimals) s) as (C1 & C2 & C3 & C4 & C5); [done|lia|]. cbv zeta in *. fold w f in C1, C2, C3, C4, C5.
  assert (canonical_uint w = true) as Hcan.
  { destruct Hcase as [[-> Hl]|Hl]; [|apply canonical_one; [done|lia]].
    subst w s. change (zeros 0) with "". cbn [append]. apply canonical_prefix; [done|]. cbn [append] in *. lia. }
  split_and!; [done..|lia|]. rewrite <- C5. unfold s. by rewrite dec_value_app, zeros_value, dec_string_value.
Qed.

Lemma formatAtomic_text amount decimals : 0 <= amount -> 0 <= decimals ->
  exists w f, formatAtomic (AmountString amount) decimals = decimal_text w f /\ canonical_uint w = true /\
    str_forall is_digit f = true /\ len f = decimals /\ dec_value 0 (w +:+ f) = amount.
Proof.
  intros Ha Hd. unfold formatAtomic, AmountString. pose proof (dec_string_canonical amount Ha) as Hc.
  pose proof (canonical_digits _ Hc) as Hdig. destruct (decimals =? 0) eqn:E0; bool_hyp.
  { subst. exists (dec_string amount), "". rewrite str_app_nil_r, dec_string_value by done. by split_and!. }
  destruct (pad_zeros_spec (S (Z.to_nat decimals)) decimals (dec_string amount)) as (k & Hk & -> & Hcase); [lia| |done|].
  { pose proof (len_nonneg (dec_string amount)). lia. }
  destruct (cut_amount k amount decimals) as (Hw & Hf & Hl & Hv); [done|lia|done|done|]. cbv zeta in *.
  set (s := zeros k +:+ dec_string amount) in *. set (w := str_take _ s) in *. set (f := str_drop _ s) in *. exists w, f. split_and!; [|done..].
  unfold decimal_text. destruct (String.eqb_spec f "") as [E|]; [|done]. rewrite E in Hl. unfold len in Hl. cbn in Hl. lia.
Qed.

(** The amount shown to the payer reads back as the amount that is settled:
    for every positive amount below 2^256 and every number of decimals of a byte,
    parsing the displayed text with those decimals gives the amount. *)
Theorem displayed_amount_roundtrip amount decimals : 0 < amount < amount_limit -> 0 <= decimals <= 255 ->
  ParseDecimal (formatAtomic (AmountString amount) decimals) decimals = Ok amount.
Proof.
  intros Ha Hd. apply ParseDecimal_iff; [done|]. split; [|done].
  destruct (formatAtomic_text amount decimals) as (w & f & -> & Hw & Hf & Hl & Hv); [lia..|].
  exists w, f. rewrite Hl, Z.sub_diag, Hv. split_and!; try done; lia.
Qed.

Lemma displayed_amount_roundtrip_witness :
  formatAtomic (AmountString 1250) 6 = "0.001250" /\ ParseDecimal (formatAtomic (AmountString 1250) 6) 6 = Ok 1250.
Proof. split; [vm_compute; reflexivity|]. apply (displayed_amount_roundtrip 1250 6); [unfold amount_limit|]; lia. Defined.

(** ** A concrete provider *)

Definition demo_origin : HostedURL :=
  mkHostedURL "https" "pay.example" "pay.example" "" false "" "" "" "https://pay.example".

Definition demo_parse (text : string) : option HostedURL :=
  if text == "https://pay.example" then Some demo_origin
  else if text == "https://pay.example/p/7" then
    Some (mkHostedURL "https" "pay.example" "pay.example" "" false "/p/7" "" "" "https://pay.example/p/7")
  else None.

Definition demo_config : HostedProviderConfig :=
  mkHostedProviderConfig "prov-1" "tenant" "merchant" "hmac_json_v1" "https://pay.example" "/create" "/cancel" "/status" "/refund" "/reconcile"
    ["https://pay.example"] "credential" "key-1" "callback" "key-2" "hmac-sha256" "usdt" 6 "EUR" "active" "manifest" 1.

Definition demo_secret : string := "0123456789abcdef0123456789abcdef".
Definition demo_resolve (name : string) : option string := Some demo_secret.

(** A keyed digest of 32 bytes, for the examples. *)
Definition demo_hmac (key text : string) : string := str_take 32 (text +:+ key).

Definition demo_now : Time := time_Unix 1700000000.

Definition demo_request : HostedCreateRequest :=
  mkHostedCreateRequest "prov-1" "intent-1" "idem-1" "hash" "usdt" 1050 "EUR" 2 (demo_now + 10 * Minute).

Definition demo_response : createResponse :=
  mkCreateResponse "ref-7" "https://pay.example/p/7" "usdt" "11550000" 6 "quote-1" "11000" "1" demo_now (demo_now + 10 * Minute).

Definition demo_create : result error HostedCreateResult :=
  HostedCreate demo_parse (fun _ => None) id demo_hmac demo_resolve (fun _ => Some Outbox.JNull) (fun _ => Some (200, Some "body"))
    (fun _ => Some demo_response) (fun _ => Some "request") (demo_now, demo_now, demo_now) demo_config demo_request.

Lemma hosted_create_keeps_facts_witness : exists res, demo_create = Ok res /\ hr_Amount res = 11550000 /\
  1050 * hr_RateNumerator res <= hr_Amount res * hr_RateDenominator res.
Proof.
  eexists. split; [vm_compute; reflexivity|]. split; [reflexivity|].
  destruct (hosted_create_keeps_facts demo_parse (fun _ => None) id demo_hmac demo_resolve (fun _ => Some Outbox.JNull)
    (fun _ => Some (200, Some "body")) (fun _ => Some demo_response) (fun _ => Some "request") (demo_now, demo_now, demo_now)
    demo_config demo_request _ ltac:(cbn; lia) ltac:(vm_compute; reflexivity)) as (_ & [H _] & _). exact H.
Defined.

Definition demo_body : string := "{}".
Definition demo_signature : string := hex_encode (demo_hmac demo_secret (callback_text "prov-1" "1700000000" demo_body)).
Definition demo_headers : Headers :=
  [("Hosted-Key-Id", "key-2"); ("Hosted-Timestamp", "1700000000"); ("Hosted-Signature", demo_signature)].
Definition demo_event : callbackBody := mkCallbackBody "event-1" "ref-7" "paid" "usdt" "11550000" 6 demo_now.
Definition demo_verify (headers : Headers) (now : Time) : result error VerifiedProviderPayment :=
  VerifyCallback demo_parse id demo_hmac demo_resolve (fun _ => Some Outbox.JNull) (fun _ => Some demo_event) demo_config headers demo_body now.

Lemma callback_is_authentic_witness : exists v timestamp secret, demo_verify demo_headers demo_now = Ok v /\ vp_Amount v = 11550000 /\
  accepted_callback demo_parse id demo_hmac demo_resolve (fun _ => Some Outbox.JNull) (fun _ => Some demo_event) demo_config demo_headers
    demo_body demo_now v timestamp secret.
Proof.
  destruct (demo_verify demo_headers demo_now) as [v|] eqn:E; [|vm_compute in E; discriminate E].
  destruct (callback_is_authentic demo_parse id demo_hmac demo_resolve (fun _ => Some Outbox.JNull) (fun _ => Some demo_event)
    demo_config demo_headers demo_body demo_now v E) as (timestamp & secret & H). exists v, timestamp, secret.
  split_and!; [done| |exact H]. vm_compute in E. injection E as <-. reflexivity.
Defined.

(** The same callback delivered again, a minute later and with one more header. *)
Lemma callback_signature_binds_witness : exists v1 v2, demo_verify demo_headers demo_now = Ok v1 /\
  demo_verify (("X-Retry", "1") :: demo_headers) (demo_now + Minute) = Ok v2 /\ vp_ProviderEventID v1 = vp_ProviderEventID v2.
Proof.
  eexists. eexists. split; [vm_compute; reflexivity|]. split; [vm_compute; reflexivity|].
  apply (callback_signature_binds demo_parse id demo_hmac demo_resolve (fun _ => Some Outbox.JNull) (fun _ => Some demo_event)
    demo_config demo_config demo_headers (("X-Retry", "1") :: demo_headers) demo_body demo_body demo_now (demo_now + Minute) _ _ demo_secret);
    try (vm_compute; reflexivity).
  intros t1 t2 H1 H2 _. vm_compute in H1, H2. congruence.
Defined.

(** An address that webhook delivery refuses but a provider origin may have:
    the shared space 100.64.0.0/10. *)
Lemma provider_addresses_weaker : validateResolvedProviderIPs [IP4 1681915905] = true /\ safePublicIP (IP4 1681915905) = false.
Proof. by vm_compute. Qed.
