(* ===== verification/HostedRuns.v ===== *)
(** * HostedRuns: the order of calls in the hosted-gateway runtime and its recovery

    A provider is asked to create a payment only behind a claimed fence and an
    admission, and a claimed fence is always released or completed; the recovery
    worker admits every provider operation right before it makes it, and each job
    is done or scheduled once more. *)

From Stdlib Require Import ZArith Lia Ascii String.
From stdpp Require Import base gmap list strings.
From S2P Require Import Prelude Text Numerals Money Domain Commands Auth Chains Webhook Legacy Hosted.

(** ** Planning *)

Section planning.
Context (parse : string -> option HostedURL).

(** What ends a claimed fence: its release with a reason, or its completion. *)
Definition ends_fence (request : HostedCreateRequest) (c : plan_call) : Prop :=
  (exists reason, c = PRelease request reason) \/ (exists res, c = PComplete request res).

(** The outcome of one plan, by what the fence said. *)
Inductive planned (e : plan_env) (principal : Principal) (intent : PaymentIntent) (request : HostedCreateRequest) (cfg : HostedProviderConfig)
    (before : list plan_call) : list plan_call -> result error CreateRouteCmd -> Prop :=
| planned_refused err : ev_Claim e = Err err -> planned e principal intent request cfg before before (Err err)
| planned_replay fence : ev_Claim e = Ok fence -> hf_Completed fence = true ->
    planned e principal intent request cfg before before
      (Ok (routeCommand principal intent (hq_IdempotencyKey request) (hq_RequestHash request) cfg (hf_Result fence)))
| planned_busy fence err : ev_Claim e = Ok fence -> hf_Completed fence = false -> hf_Claimed fence = false ->
    errors_Is err ErrStateConflict = true -> planned e principal intent request cfg before before (Err err)
| planned_stopped fence err reason : ev_Claim e = Ok fence -> hf_Completed fence = false -> hf_Claimed fence = true ->
    ev_Admit e = Some err ->
    planned e principal intent request cfg before (before ++ [PAdmit (hc_ID cfg) "create"; PRelease request reason]) (Err err)
| planned_failed fence err reason : ev_Claim e = Ok fence -> hf_Completed fence = false -> hf_Claimed fence = true ->
    ev_Admit e = None -> ev_Provider e = Err err ->
    planned e principal intent request cfg before
      (before ++ [PAdmit (hc_ID cfg) "create"; PProvider cfg request; PRelease request reason]) (Err err)
| planned_created fence res r : ev_Claim e = Ok fence -> hf_Completed fence = false -> hf_Claimed fence = true ->
    ev_Admit e = None -> ev_Provider e = Ok res ->
    r = (res' ← ev_Complete e res; Ok (routeCommand principal intent (hq_IdempotencyKey request) (hq_RequestHash request) cfg res')) ->
    planned e principal intent request cfg before
      (before ++ [PAdmit (hc_ID cfg) "create"; PProvider cfg request; PComplete request res]) r.

Lemma PlanHosted_cases lease e principal intent providerID assetID key hash expires calls r :
  PlanHosted parse lease e principal intent providerID assetID key hash expires = (calls, r) ->
  let request := hosted_request intent providerID assetID key hash expires in
  (calls = [PGetConfig providerID] /\ exists err, r = Err err) \/
  exists cfg term, ev_Config e = Ok cfg /\ ValidateConfig parse cfg = Ok tt /\ hc_AssetID cfg = assetID /\ hc_Currency cfg = pi_Currency intent /\
    planned e principal intent request cfg [PGetConfig providerID; PClaim request term] calls r.
Proof.
  unfold PlanHosted. cbv zeta. set (request := hosted_request _ _ _ _ _ _). set (term := if lease =? 0 then _ else _).
  destruct (ev_Config e) as [cfg|err]; [|intros [= <- <-]; left; split; [done|by eexists]].
  destruct (ValidateConfig parse cfg) as [[]|err] eqn:Ev; [|intros [= <- <-]; left; split; [done|by eexists]].
  destruct (_ || _) eqn:Ea; [intros [= <- <-]; left; split; [done|by eexists]|]. bool_hyp. intros Hc. right.
  exists cfg, term. split_and!; try done. pose (before := [PGetConfig providerID; PClaim request term]).
  change (planned e principal intent request cfg before calls r).
  destruct (ev_Claim e) as [fence|err] eqn:Ec; [|injection Hc as <- <-; by apply planned_refused].
  destruct (hf_Completed fence) eqn:Ef; [injection Hc as <- <-; by apply (planned_replay e principal intent request cfg before fence)|].
  destruct (hf_Claimed fence) eqn:Eb; cbn [negb] in Hc; [|injection Hc as <- <-; by apply (planned_busy e principal intent request cfg before fence)].
  destruct (ev_Admit e) as [err|] eqn:Em;
    [injection Hc as <- <-; by apply (planned_stopped e principal intent request cfg before fence err "provider_create_not_admitted")|].
  destruct (ev_Provider e) as [res|err] eqn:Ep;
    [|injection Hc as <- <-; by apply (planned_failed e principal intent request cfg before fence err "provider_create_failed")].
  pose proof (planned_created e principal intent request cfg before fence res _ Ec Ef Eb Em Ep eq_refl) as Hd.
  destruct (ev_Complete e res); injection Hc as <- <-; exact Hd.
Qed.

Definition provider_calls (calls : list plan_call) : list (HostedProviderConfig * HostedCreateRequest) :=
  omap (fun c => match c with PProvider cfg req => Some (cfg, req) | _ => None end) calls.

(** C31: A hosted payment is asked of its provider at most once per request, and
    only after the durable fence was claimed by this very request and the operation
    admitted, with a configuration that is valid and admits the asset and the
    currency. A completed fence replays its result without a call; a fence claimed
    by another gives a state conflict; and a fence this request claimed is ended
    exactly once, as the last call. *)
Theorem provider_called_behind_fence lease e principal intent providerID assetID key hash expires calls r :
  PlanHosted parse lease e principal intent providerID assetID key hash expires = (calls, r) ->
  let request := hosted_request intent providerID assetID key hash expires in
  (forall cfg req, In (cfg, req) (provider_calls calls) ->
     req = request /\ provider_calls calls = [(cfg, req)] /\ ev_Config e = Ok cfg /\ ValidateConfig parse cfg = Ok tt /\
     hc_AssetID cfg = assetID /\ hc_Currency cfg = pi_Currency intent /\ ev_Admit e = None /\
     exists fence, ev_Claim e = Ok fence /\ hf_Claimed fence = true /\ hf_Completed fence = false) /\
  (forall fence term, In (PClaim request term) calls -> ev_Claim e = Ok fence ->
     (hf_Completed fence = true -> exists cfg, r = Ok (routeCommand principal intent key hash cfg (hf_Result fence)) /\ provider_calls calls = []) /\
     (hf_Completed fence = false -> hf_Claimed fence = false -> exists err, r = Err err /\ errors_Is err ErrStateConflict = true /\ provider_calls calls = []) /\
     (hf_Completed fence = false -> hf_Claimed fence = true ->
        exists pre last, calls = pre ++ [last] /\ ends_fence request last /\ forall c, In c pre -> ~ ends_fence request c)).
Proof.
  intros Hp. cbv zeta. apply PlanHosted_cases in Hp. cbv zeta in Hp. set (request := hosted_request _ _ _ _ _ _) in *.
  destruct Hp as [[-> [err ->]]|(cfg & term & Hc & Hv & Ha & Hu & Hp)]; [split; [done|]; intros fence term [H|[]]; discriminate H|].
  assert (Hpre : forall pre c, In c pre -> Forall (fun c => match c with PRelease _ _ | PComplete _ _ => False | _ => True end) pre -> ~ ends_fence request c).
  { intros pre c Hin Hall. rewrite Forall_forall in Hall. specialize (Hall c (proj2 (list_elem_of_In _ _) Hin)).
    intros [[? ->]|[? ->]]; done. }
  destruct Hp as [err Hf|fence Hf H1|fence err Hf H1 H2 H3|fence err reason Hf H1 H2 H3|fence err reason Hf H1 H2 H3 H4|fence res r Hf H1 H2 H3 H4 ->];
    (split; [intros cfg' req' Hin; cbn in Hin; try done;
             destruct Hin as [[= <- <-]|[]]; split_and!; try done; by exists fence
            |intros fence' term' _ Hf'; rewrite Hf in Hf'; try discriminate Hf'; injection Hf' as <-]); rewrite ?H1, ?H2.
  - split_and!; try done. intros _. by exists cfg.
  - split_and!; try done. intros _ _. by exists err.
  - split_and!; try done. intros _ _.
    exists [PGetConfig providerID; PClaim request term; PAdmit (hc_ID cfg) "create"], (PRelease request reason).
    split_and!; [done|left; by exists reason|]. intros c Hin. eapply Hpre; [done|by repeat constructor].
  - split_and!; try done. intros _ _.
    exists [PGetConfig providerID; PClaim request term; PAdmit (hc_ID cfg) "create"; PProvider cfg request], (PRelease request reason).
    split_and!; [done|left; by exists reason|]. intros c Hin. eapply Hpre; [done|by repeat constructor].
  - split_and!; try done. intros _ _.
    exists [PGetConfig providerID; PClaim request term; PAdmit (hc_ID cfg) "create"; PProvider cfg request], (PComplete request res).
    split_and!; [done|right; by exists res|]. intros c Hin. eapply Hpre; [done|by repeat constructor].
Qed.
End planning.

(** ** Recovery *)

(** The operation a call asks of the provider. *)
Definition provider_operation (c : recovery_call) : option (HostedProviderConfig * string) :=
  match c with
  | AdapterCreate cfg _ => Some (cfg, "create")
  | AdapterCancel cfg _ _ => Some (cfg, "cancel")
  | AdapterReconcile cfg _ => Some (cfg, "reconciliation")
  | _ => None
  end.

(** Each provider call comes right after the admission of its operation. *)
Fixpoint admitted_calls (e : recovery_env) (prev : option recovery_call) (calls : list recovery_call) : Prop :=
  match calls with
  | [] => True
  | c :: rest =>
      match provider_operation c with
      | None => True
      | Some (cfg, op) => exists job, prev = Some (AdmitHostedOperation job op) /\ re_admission e job op = None /\ rj_Config job = cfg
      end /\ admitted_calls e (Some c) rest
  end.

Lemma admitted_calls_app e prev l1 l2 : admitted_calls e prev l1 -> (forall p, admitted_calls e p l2) -> admitted_calls e prev (l1 ++ l2).
Proof. revert prev. induction l1 as [|c l1 IH]; intros prev; cbn; [by intros _ H|]. intros [Hc Hl] H. split; [done|by apply IH]. Qed.

Lemma admitted_calls_before e prev pre c post cfg op : admitted_calls e prev (pre ++ c :: post) -> provider_operation c = Some (cfg, op) ->
  exists job, match pre with [] => prev | _ => last pre end = Some (AdmitHostedOperation job op) /\ re_admission e job op = None /\ rj_Config job = cfg.
Proof.
  revert prev. induction pre as [|d pre IH]; intros prev; cbn [app admitted_calls]; intros [Hc Hl] Ho; [by rewrite Ho in Hc|].
  destruct (IH _ Hl Ho) as (job & Hj & ?). exists job. split; [|done]. by destruct pre.
Qed.

Lemma bind_or_cancel_admitted e job : forall p, admitted_calls e p (bind_or_cancel e job).1.
Proof.
  intros p. unfold bind_or_cancel. destruct (re_bind e job) as [[err|]|]; [done| |done].
  destruct (re_admission e job "cancel") eqn:Ea; [done|].
  destruct (re_cancel e job); cbn; (split_and!; try done; by exists job).
Qed.

Lemma process_recovery_admitted e now job : forall p, admitted_calls e p (process_recovery e now job).1.
Proof.
  intros p. unfold process_recovery. destruct (rj_Kind job); [| |by destruct (_ == "")|done].
  - destruct (_ == ""); [|apply bind_or_cancel_admitted]. destruct (negb _); [done|].
    destruct (re_admission e job "create") eqn:Ea; [done|]. destruct (re_create e job) as [res|]; [|cbn; split_and!; try done; by exists job].
    cbv zeta. destruct (re_complete e job res) as [job'|]; [|cbn; split_and!; try done; by exists job].
    pose proof (bind_or_cancel_admitted e job') as Hb. destruct (bind_or_cancel e job') as [more err]. cbn [fst] in *.
    apply admitted_calls_app; [|done]. cbn. split_and!; try done. by exists job.
  - destruct (re_admission e job "reconciliation") eqn:Ea; [done|].
    destruct (re_reconcile e job); cbn; (split_and!; try done; by exists job).
Qed.

Lemma recover_jobs_admitted e now maximum jobs : forall p, admitted_calls e p (recover_jobs e now maximum jobs).1.
Proof.
  induction jobs as [|job jobs IH]; intros p; [done|]. cbn [recover_jobs]. destruct (recover_jobs e now maximum jobs) as [more n].
  unfold recover_job. pose proof (process_recovery_admitted e now job p) as Hp.
  destruct (process_recovery e now job) as [calls [err|]]; cbn [fst] in *; apply admitted_calls_app; try done.
  by apply admitted_calls_app.
Qed.

(** The retries scheduled by a run: the job, when, under which code, and
    whether it is given up. *)
Definition retries (calls : list recovery_call) : list (RecoveryJob * Time * string * bool) :=
  omap (fun c => match c with RetryHostedRecovery job next code dead => Some (job, next, code, dead) | _ => None end) calls.

Lemma retries_app l1 l2 : retries (l1 ++ l2) = retries l1 ++ retries l2.
Proof. apply omap_app. Qed.

Lemma bind_or_cancel_retries e job : retries (bind_or_cancel e job).1 = [].
Proof. unfold bind_or_cancel. destruct (re_bind e job) as [[]|]; try done. destruct (re_admission _ _ _); [done|]. by destruct (re_cancel e job). Qed.

Lemma process_recovery_retries e now job : retries (process_recovery e now job).1 = [].
Proof.
  unfold process_recovery. destruct (rj_Kind job); [| |by destruct (_ == "")|done].
  - destruct (_ == ""); [|apply bind_or_cancel_retries]. destruct (negb _); [done|]. destruct (re_admission _ _ _); [done|].
    destruct (re_create e job) as [res|]; [|done]. cbv zeta. destruct (re_complete e job res) as [job'|]; [|done].
    pose proof (bind_or_cancel_retries e job') as Hb. destruct (bind_or_cancel e job'). cbn [fst] in *. by rewrite retries_app, Hb.
  - destruct (re_admission _ _ _); [done|]. by destruct (re_reconcile e job).
Qed.

(** What is scheduled for the jobs that failed. *)
Definition scheduled (e : recovery_env) (now : Time) (maximum : Z) (job : RecoveryJob) : option (RecoveryJob * Time * string * bool) :=
  match (process_recovery e now job).2 with
  | None => None
  | Some err => Some (job, now + recovery_delay (rj_Attempt job), recoveryErrorCode err, maximum <=? rj_Attempt job)
  end.

Lemma recover_jobs_retries e now maximum jobs :
  retries (recover_jobs e now maximum jobs).1 = omap (scheduled e now maximum) jobs /\
  (recover_jobs e now maximum jobs).2 = length (omap (scheduled e now maximum) jobs).
Proof.
  induction jobs as [|job jobs [IH1 IH2]]; [done|]. cbn [recover_jobs].
  change (omap (scheduled e now maximum) (job :: jobs)) with
    (match scheduled e now maximum job with Some y => y :: omap (scheduled e now maximum) jobs | None => omap (scheduled e now maximum) jobs end).
  destruct (recover_jobs e now maximum jobs) as [more n]. cbn [fst snd] in *.
  remember (scheduled e now maximum job) as this eqn:Et. unfold scheduled in Et.
  unfold recover_job. pose proof (process_recovery_retries e now job) as Hr.
  destruct (process_recovery e now job) as [calls [err|]]; cbn [fst snd] in *; rewrite !retries_app, Hr, IH1; by subst.
Qed.

(** The delay is the square of the attempts in seconds, at most a quarter of an
    hour, as long as the product stays in 64 bits. *)
Lemma recovery_delay_spec attempt : 0 <= attempt <= 96038 -> recovery_delay attempt = Z.min (attempt * attempt * Second) (15 * Minute).
Proof.
  intros Ha. unfold recovery_delay. assert (0 <= attempt * attempt <= 96038 * 96038) as Hsq by nia.
  rewrite (int64_id (attempt * attempt)) by (unfold is_int64, min_int64, max_int64; lia).
  rewrite int64_id by (unfold is_int64, min_int64, max_int64, Second; lia). cbv zeta. destruct (_ >? _) eqn:E; bool_hyp; lia.
Qed.

Lemma RunRecovery_ok Lease MaxAttempts e claim now workerID limit calls n failures :
  RunRecovery Lease MaxAttempts e claim now workerID limit = (calls, Ok (n, failures)) ->
  exists jobs maximum, claim (if Lease <=? 0 then 30 * Second else Lease) = Ok jobs /\ n = length jobs /\
    maximum = (if MaxAttempts <=? 0 then 20 else MaxAttempts) /\ (calls, failures) = recover_jobs e now maximum jobs /\
    workerID <> "" /\ 1 <= limit <= 100.
Proof.
  unfold RunRecovery. destruct (_ || _) eqn:E; [done|]. bool_hyp. cbv zeta. destruct (claim _) as [jobs|] eqn:Ec; [|done].
  destruct (recover_jobs _ _ _ _) as [calls' n'] eqn:Er. intros [= <- <- <-]. exists jobs. eexists. split_and!; [done..|by rewrite Er|done|lia|lia].
Qed.

(** The recovery worker never touches a provider unadmitted: in every run,
    right before each creation, cancellation or reconciliation at a provider the
    store admitted that very operation, for a job with that configuration. *)
Theorem recovery_admits_each_operation Lease MaxAttempts e claim now workerID limit calls n failures pre c post cfg op :
  RunRecovery Lease MaxAttempts e claim now workerID limit = (calls, Ok (n, failures)) ->
  calls = pre ++ c :: post -> provider_operation c = Some (cfg, op) ->
  exists pre' job, pre = pre' ++ [AdmitHostedOperation job op] /\ re_admission e job op = None /\ rj_Config job = cfg.
Proof.
  intros (jobs & maximum & _ & _ & _ & Hr & _)%RunRecovery_ok -> Ho.
  pose proof (recover_jobs_admitted e now maximum jobs None) as Ha. rewrite <- Hr in Ha. cbn [fst] in Ha.
  destruct (admitted_calls_before _ _ _ _ _ _ _ Ha Ho) as (job & Hj & Hrest). destruct pre as [|d pre]; [done|].
  apply last_Some in Hj as [pre' Hj]. by exists pre', job.
Qed.

(** C32: No recovery job is lost and none is scheduled twice: a run over the
    claimed jobs asks for a retry of exactly those that failed, in their order,
    counts them, marks as given up exactly those at the attempt limit, and puts the
    next try at the square of the attempts in seconds from now, never more than
    fifteen minutes. *)
Theorem recovery_schedules_failures Lease MaxAttempts e claim now workerID limit calls n failures jobs :
  RunRecovery Lease MaxAttempts e claim now workerID limit = (calls, Ok (n, failures)) ->
  claim (if Lease <=? 0 then 30 * Second else Lease) = Ok jobs ->
  Forall (fun job => 0 <= rj_Attempt job <= 96038) jobs ->
  let failed := List.filter (fun job => match (process_recovery e now job).2 with Some _ => true | None => false end) jobs in
  n = length jobs /\ failures = length failed /\ map (fun r => r.1.1.1) (retries calls) = failed /\
  Forall (fun r => let '(job, next, code, dead) := r in
    next = now + Z.min (rj_Attempt job * rj_Attempt job * Second) (15 * Minute) /\
    dead = ((if MaxAttempts <=? 0 then 20 else MaxAttempts) <=? rj_Attempt job)) (retries calls).
Proof.
  intros (jobs' & maximum & Hc & -> & -> & Hr & _)%RunRecovery_ok Hj Hall failed. rewrite Hc in Hj. injection Hj as ->.
  set (maximum := if MaxAttempts <=? 0 then 20 else MaxAttempts) in *.
  destruct (recover_jobs_retries e now maximum jobs) as [H1 H2]. rewrite <- Hr in H1, H2. cbn [fst snd] in H1, H2. rewrite H1, H2.
  assert (Hm : map (fun r => r.1.1.1) (omap (scheduled e now maximum) jobs) = failed).
  { subst failed. clear. induction jobs as [|job jobs IH]; [done|]. cbn [List.filter].
    change (omap (scheduled e now maximum) (job :: jobs)) with
      (match scheduled e now maximum job with Some y => y :: omap (scheduled e now maximum) jobs | None => omap (scheduled e now maximum) jobs end).
    unfold scheduled at 1. destruct (process_recovery e now job).2; cbn [map fst]; by rewrite IH. }
  split_and!; [done| |done|].
  - by rewrite <- Hm, length_map.
  - apply Forall_forall. intros [[[job next] code] dead] (job' & Hin & Hs)%list_elem_of_omap. unfold scheduled in Hs.
    destruct (process_recovery e now job').2; [|done]. injection Hs as <- <- <- <-.
    rewrite Forall_forall in Hall. rewrite recovery_delay_spec by (by apply Hall). done.
Qed.

(** ** A concrete run *)

Definition run_origin (text : string) : option HostedURL :=
  if text == "https://pay.example" then Some (mkHostedURL "https" "pay.example" "pay.example" "" false "" "" "" "https://pay.example") else None.

Definition run_config : HostedProviderConfig :=
  mkHostedProviderConfig "prov-1" "tenant" "merchant" "hmac_json_v1" "https://pay.example" "/create" "/cancel" "/status" "/refund" "/reconcile"
    ["https://pay.example"] "credential" "key-1" "callback" "key-2" "hmac-sha256" "usdt" 6 "EUR" "active" "manifest" 1.

Definition run_result : HostedCreateResult :=
  mkHostedCreateResult "order-1" "ref-7" "https://pay.example/p/7" "usdt" 11550000 6 "quote-1" 11000 1 1000 "body" "digest" 1000 2000.

Definition run_intent : PaymentIntent :=
  mkPaymentIntent "intent-1" "" "tenant" "merchant" "order" "" 1050 "EUR" 2 "" IntentPending "" "" [] 1 0 0 2000 None None [].

Definition run_principal : Principal := mkPrincipal "tenant" "merchant" "actor" "key" ∅.
Definition run_env : plan_env :=
  mkPlanEnv (Ok run_config) (Ok (mkHostedCreateFence true false run_result)) None (Ok run_result) Ok.

Lemma provider_called_behind_fence_witness :
  let plan := PlanHosted run_origin 0 run_env run_principal run_intent "prov-1" "usdt" "idem-1" "hash" 2000 in
  provider_calls plan.1 = [(run_config, hosted_request run_intent "prov-1" "usdt" "idem-1" "hash" 2000)] /\
  exists pre last, plan.1 = pre ++ [last] /\ ends_fence (hosted_request run_intent "prov-1" "usdt" "idem-1" "hash" 2000) last.
Proof.
  intros plan. destruct plan as [calls r] eqn:E.
  destruct (provider_called_behind_fence run_origin 0 run_env run_principal run_intent "prov-1" "usdt" "idem-1" "hash" 2000 calls r E) as [H1 H2].
  subst plan. vm_compute in E. injection E as <- <-. split; [reflexivity|].
  destruct (H2 (mkHostedCreateFence true false run_result) (30 * Second)) as (_ & _ & H); [vm_compute; tauto|reflexivity|].
  destruct (H eq_refl eq_refl) as (pre & last & Hc & He & _). by exists pre, last.
Defined.

(** Two jobs: an order that was created too late, whose cancellation fails, and an
    event for a route that is not bound. *)
Definition run_job (kind : RecoveryKind) (id : string) (attempt : Z) : RecoveryJob :=
  mkRecoveryJob kind id "claim" attempt run_config (hosted_request run_intent "prov-1" "usdt" "idem-1" "hash" 2000) run_result ""
    "expired" (mkVerifiedProviderPayment "" "" "prov-1" "" "ref-7" "event-1" "paid" "usdt" 11550000 6 0 0 "" "" "" "" "" 0 "" false).

Definition run_jobs : list RecoveryJob := [run_job RecoveryCreate "job-1" 20; run_job RecoveryPrebind "job-2" 3].

Definition run_recovery_env : recovery_env :=
  mkRecoveryEnv (fun _ => None) (fun _ _ => None) (fun _ => Ok run_result) (fun job _ => Ok job) (fun _ => Some ErrRecoveryIntentIneligible)
    (fun _ => Some (DomainError (Wrapped ErrDependency "provider returned HTTP"))) (fun _ => None)
    (fun _ => Err (DomainError (Plain "unused"))) (fun _ => None) (fun _ => None) (fun _ => None).

Definition run_recovery : list recovery_call * result recovery_error (nat * nat) :=
  RunRecovery 0 0 run_recovery_env (fun _ => Ok run_jobs) 1000 "worker" 10.

Lemma recovery_admits_each_operation_witness : exists pre post job,
  run_recovery.1 = (pre ++ [AdmitHostedOperation job "cancel"]) ++ AdapterCancel run_config "ref-7" "hosted-cancel-job-1" :: post /\
  re_admission run_recovery_env job "cancel" = None.
Proof.
  destruct run_recovery as [calls r] eqn:E. pose proof E as E'. vm_compute in E'. injection E' as Ec Er.
  destruct (recovery_admits_each_operation 0 0 run_recovery_env (fun _ => Ok run_jobs) 1000 "worker" 10 calls 2 1 (take 2 calls)
    (AdapterCancel run_config "ref-7" "hosted-cancel-job-1") (drop 3 calls) run_config "cancel") as (pre & job & Hp & Ha & _).
  - transitivity run_recovery; [reflexivity|]. by rewrite E, <- Er.
  - by subst calls.
  - reflexivity.
  - exists pre, (drop 3 calls), job. split; [|done]. rewrite <- Hp. by subst calls.
Defined.

Lemma recovery_schedules_failures_witness :
  run_recovery.2 = Ok (2%nat, 1%nat) /\ map (fun r => r.1.1.1) (retries run_recovery.1) = [run_job RecoveryCreate "job-1" 20].
Proof.
  split; [vm_compute; reflexivity|].
  destruct run_recovery as [calls r] eqn:E. pose proof E as E'. vm_compute in E'. injection E' as Ec Er.
  destruct (recovery_schedules_failures 0 0 run_recovery_env (fun _ => Ok run_jobs) 1000 "worker" 10 calls 2 1 run_jobs) as (_ & _ & H & _).
  - transitivity run_recovery; [reflexivity|]. by rewrite E, <- Er.
  - reflexivity.
  - repeat constructor; cbn; lia.
  - cbn [fst]. rewrite H. vm_compute. reflexivity.
Defined.
