(* ===== verification/Management.v ===== *)
(** * Management: internal/management (model.go, ports.go, service.go)

    The merchant's own administration: payment links, checkout sessions, webhook
    endpoints, API clients, receipts and the audit trail. The service checks who
    asks and what they ask, and hands the rest to its repository, its endpoint
    verifier and its receipt analyzer. These are effects: an operation extends the
    history of effects, and what an effect answers may depend on all that
    happened before it. *)

From Stdlib Require Import ZArith Lia Ascii String.
From stdpp Require Import base gmap list strings.
From S2P Require Import Prelude Text Numerals Money Domain Encoding Auth Webhook Legacy LegacyGateway Hosted.
From S2P Require Outbox.

(** ** Data (model.go) *)

Inductive mg_sentinel :=
| MgErrInvalid | MgErrUnauthenticated | MgErrForbidden | MgErrNotFound | MgErrConflict | MgErrIdempotencyConflict | MgErrDependency.

#[export] Instance mg_sentinel_eq_dec : EqDecision mg_sentinel.
Proof. solve_decision. Defined.

Abbreviation merr := (goerr mg_sentinel).

Record MgPrincipal := mkMgPrincipal {
  gp_TenantID : string; gp_MerchantID : string; gp_ActorID : string; gp_SessionID : string; gp_AuthMethod : string;
  gp_Scopes : gmap string bool; gp_StepUpAt : Time; gp_ApprovalActor : string; gp_ApprovalReason : string }.

(** [Principal.Has] *)
Definition Has (p : MgPrincipal) (scope : string) : bool :=
  default false (gp_Scopes p !! scope) || default false (gp_Scopes p !! "management:*").

Record MgIdempotency := mkMgIdempotency { gi_Key : string; gi_Fingerprint : string }.

Record PaymentLink := mkPaymentLink {
  pl_ID : string; pl_Name : string; pl_PublicURL : string; pl_AmountMinor : string; pl_Currency : string;
  pl_CurrencyScale : Z; pl_Description : string; pl_AllowedRoutes : string; pl_Metadata : string;
  pl_AllowedOrigin : string; pl_SuccessURL : string; pl_CancelURL : string; pl_MaxUses : Z; pl_UseCount : Z;
  pl_SettledCount : Z; pl_SettledMinor : string; pl_Status : string; pl_ExpiresAt : option Time; pl_CreatedAt : Time;
  pl_UpdatedAt : Time; pl_Version : Z; pl_PublicTokenHash : string }.

Record PaymentLinkInput := mkPaymentLinkInput {
  li_Name : string; li_AmountMinor : string; li_Currency : string; li_CurrencyScale : Z; li_Description : string;
  li_AllowedRoutes : string; li_Metadata : string; li_AllowedOrigin : string; li_SuccessURL : string;
  li_CancelURL : string; li_MaxUses : Z; li_ExpiresAt : option Time }.

Record PaymentLinkRoute := mkPaymentLinkRoute {
  lr_Provider : string; lr_ChainID : string; lr_ProviderID : string; lr_AssetID : string }.

Record PublicPaymentLink := mkPublicPaymentLink {
  pp_Name : string; pp_AmountMinor : string; pp_Currency : string; pp_CurrencyScale : Z; pp_Description : string;
  pp_AllowedRoutes : string; pp_ExpiresAt : option Time }.

Record RedeemPaymentLinkInput := mkRedeemPaymentLinkInput { ri_CustomerReference : string; ri_Metadata : string }.

Record CheckoutIssueInput := mkCheckoutIssueInput {
  ci_IntentID : string; ci_Audience : string; ci_AllowedOrigin : string; ci_TTLSeconds : Z; ci_AllowedActions : list string }.

Record CheckoutIssue := mkCheckoutIssue { cx_Token : string; cx_URL : string; cx_ExpiresAt : Time }.

Record PayerRoute := mkPayerRoute {
  ct_ID : string; ct_Provider : string; ct_ProviderID : string; ct_Network : string; ct_NetworkName : string;
  ct_Asset : string; ct_AssetSymbol : string; ct_Amount : string; ct_ReceivedAmount : string;
  ct_RemainingAmount : string; ct_PaymentCount : Z; ct_TopUpAllowed : option bool; ct_Address : string;
  ct_PaymentURL : string; ct_PaymentURI : string; ct_TransactionHash : string; ct_ExplorerURL : string;
  ct_ExpiresAt : option Time }.

Record PayerSession := mkPayerSession {
  ss_IntentID : string; ss_OrderID : string; ss_MerchantName : string; ss_AmountMinor : string; ss_Currency : string;
  ss_CurrencyScale : Z; ss_Description : string; ss_Status : string; ss_ExpiresAt : Time; ss_SelectedRouteID : string;
  ss_Routes : list PayerRoute; ss_DirectToMerchant : bool; ss_Version : Z }.

Record PaymentLinkRedemption := mkPaymentLinkRedemption {
  rd_IntentID : string; rd_Checkout : CheckoutIssue; rd_Session : PayerSession; rd_SuccessURL : string; rd_CancelURL : string }.

Record ReceiptTarget := mkReceiptTarget {
  rt_TenantID : string; rt_MerchantID : string; rt_IntentID : string; rt_RouteID : string; rt_ChainID : string;
  rt_AssetID : string; rt_Address : string; rt_ExpectedAmount : string; rt_AssetDecimals : Z; rt_StartsAt : Time;
  rt_GraceEndsAt : Time }.

Record ReceiptAnalysis := mkReceiptAnalysis {
  ra_TransactionID : string; ra_NetworkHint : string; ra_AssetHint : string; ra_Amount : string;
  ra_Destination : string; ra_OccurredAt : string; ra_Confidence : Z; ra_ReasonCodes : list string }.

Record ReceiptTransferCandidate := mkReceiptTransferCandidate { rc_TransferEventID : string; rc_TransactionID : string }.

Record ReceiptSubmission := mkReceiptSubmission {
  rb_ID : string; rb_PaymentID : string; rb_Status : string; rb_ProofID : string; rb_ChainID : string;
  rb_TransactionID : string; rb_CorrelationMethod : string; rb_MatchedTransferEventID : string;
  rb_Analysis : ReceiptAnalysis; rb_Message : string; rb_CreatedAt : Time }.

Record WebhookEndpoint := mkWebhookEndpoint {
  we_ID : string; we_URL : string; we_EventTypes : list string; we_TimeoutMS : Z; we_MaxConcurrency : Z;
  we_Status : string; we_SigningKeyID : string; we_OverlapEndsAt : option Time; we_CreatedAt : Time;
  we_UpdatedAt : Time; we_Version : Z }.

Record WebhookEndpointInput := mkWebhookEndpointInput {
  wi_URL : string; wi_EventTypes : list string; wi_TimeoutMS : Z; wi_MaxConcurrency : Z }.

Record SecretResult := mkSecretResult { sr_KeyID : string; sr_Secret : string; sr_ValidFrom : Time; sr_ValidUntil : option Time }.

Record WebhookEndpointSecret := mkWebhookEndpointSecret { ws_Endpoint : WebhookEndpoint; ws_KeyID : string; ws_Secret : string }.

Record WebhookVerificationTarget := mkWebhookVerificationTarget { wv_Endpoint : WebhookEndpoint; wv_Challenge : string }.

Record WebhookDelivery := mkWebhookDelivery {
  wd_ID : string; wd_EventID : string; wd_EventType : string; wd_Status : string; wd_AttemptCount : Z;
  wd_LastHTTPStatus : option Z; wd_LastErrorCategory : string; wd_ResponseSnippet : string; wd_NextAttemptAt : Time;
  wd_AcknowledgedAt : option Time; wd_CreatedAt : Time; wd_UpdatedAt : Time; wd_Version : Z }.

Record APIKeyVersion := mkAPIKeyVersion {
  kv_ID : string; kv_KeyID : string; kv_Number : Z; kv_Status : string; kv_ValidFrom : Time; kv_ValidUntil : option Time;
  kv_RevokedAt : option Time }.

Record APIClient := mkAPIClient {
  ac_ID : string; ac_Name : string; ac_Managed : bool; ac_Status : string; ac_Scopes : list string;
  ac_Versions : list APIKeyVersion; ac_CreatedAt : Time; ac_UpdatedAt : Time; ac_Version : Z }.

Record APIClientInput := mkAPIClientInput { ai_Name : string; ai_Scopes : list string; ai_ValidUntil : option Time }.

Record APIClientSecret := mkAPIClientSecret { as_Client : APIClient; as_KeyID : string; as_Secret : string }.

Record MgAuditEvent := mkMgAuditEvent {
  ae_ID : string; ae_Sequence : Z; ae_ActorID : string; ae_SessionID : string; ae_Action : string;
  ae_ResourceType : string; ae_ResourceID : string; ae_Reason : string; ae_Details : string; ae_PreviousHash : string;
  ae_EntryHash : string; ae_OccurredAt : Time }.

Record ManagementActionRequest := mkManagementActionRequest {
  ma_ID : string; ma_Operation : string; ma_ResourceType : string; ma_ResourceID : string; ma_ResourceVersion : Z;
  ma_RequestReason : string; ma_RequestedBy : string; ma_ApprovedBy : string; ma_ApprovalReason : string;
  ma_Status : string; ma_FailureCode : string; ma_MutationIdempotencyKey : string; ma_RequestBody : string;
  ma_RequestHash : string; ma_ApprovalHash : string; ma_RequestedSession : string; ma_RequestedStepUpAt : Time;
  ma_LeaseToken : string; ma_LeaseUntil : option Time; ma_CreatedAt : Time; ma_ExpiresAt : Time;
  ma_ApprovedAt : option Time; ma_CompletedAt : option Time; ma_UpdatedAt : Time; ma_Version : Z }.

Record MgPage (T : Type) := mkMgPage { gg_Data : list T; gg_NextCursor : string }.

(** ** Effects (ports.go)

    One constructor per method of [Repository], [EndpointVerifier] and
    [ReceiptAnalyzer], indexed by what it answers. *)
Inductive Effect : Type -> Type :=
| CreatePaymentLinkE (p : MgPrincipal) (input : PaymentLinkInput) (publicURL hash : string) (idem : MgIdempotency) : Effect (PaymentLink * bool)
| GetPaymentLinkE (p : MgPrincipal) (id : string) : Effect PaymentLink
| ListPaymentLinksE (p : MgPrincipal) (cursor : string) (limit : Z) : Effect (MgPage PaymentLink)
| DisablePaymentLinkE (p : MgPrincipal) (id : string) (version : Z) (idem : MgIdempotency) : Effect (PaymentLink * bool)
| PublicPaymentLinkE (hash : string) : Effect PublicPaymentLink
| RedeemPaymentLinkE (hash token url checkoutHash : string) (input : RedeemPaymentLinkInput) (idem : MgIdempotency) : Effect (PaymentLinkRedemption * bool)
| IssueCheckoutE (p : MgPrincipal) (input : CheckoutIssueInput) (publicURL hash : string) (idem : MgIdempotency) : Effect (CheckoutIssue * bool)
| PublicCheckoutE (hash origin : string) : Effect PayerSession
| SelectCheckoutRouteE (hash origin routeID : string) (idem : MgIdempotency) : Effect (PayerSession * bool)
| ResolveReceiptTargetE (hash origin : string) : Effect ReceiptTarget
| FindReceiptTransferCandidateE (target : ReceiptTarget) (amount : string) (occurredAt : Time) (window : Duration) : Effect ReceiptTransferCandidate
| RecordReceiptAnalysisE (target : ReceiptTarget) (analysis : ReceiptAnalysis) (candidate : ReceiptTransferCandidate)
    (model mediaType : string) (size : Z) (digest : string) (idem : MgIdempotency) : Effect (ReceiptSubmission * bool)
| CreateWebhookEndpointE (p : MgPrincipal) (input : WebhookEndpointInput) (secret : SecretResult) (sealed challenge : string)
    (idem : MgIdempotency) : Effect (WebhookEndpointSecret * bool)
| GetWebhookEndpointE (p : MgPrincipal) (id : string) : Effect WebhookEndpoint
| ListWebhookEndpointsE (p : MgPrincipal) (cursor : string) (limit : Z) : Effect (MgPage WebhookEndpoint)
| UpdateWebhookEndpointE (p : MgPrincipal) (id : string) (version : Z) (input : WebhookEndpointInput) (idem : MgIdempotency) : Effect (WebhookEndpoint * bool)
| WebhookVerificationTargetE (p : MgPrincipal) (id : string) : Effect WebhookVerificationTarget
| ActivateWebhookEndpointE (p : MgPrincipal) (id : string) (version : Z) (idem : MgIdempotency) : Effect (WebhookEndpoint * bool)
| RotateWebhookSecretE (p : MgPrincipal) (id : string) (version : Z) (secret : SecretResult) (sealed : string) (overlap : Duration)
    (idem : MgIdempotency) : Effect (WebhookEndpointSecret * bool)
| DisableWebhookEndpointE (p : MgPrincipal) (id : string) (version : Z) (reason : string) (idem : MgIdempotency) : Effect (WebhookEndpoint * bool)
| ListWebhookDeliveriesE (p : MgPrincipal) (endpointID cursor : string) (limit : Z) : Effect (MgPage WebhookDelivery)
| RetryWebhookDeliveryE (p : MgPrincipal) (id : string) (version : Z) (reason : string) (idem : MgIdempotency) : Effect (WebhookDelivery * bool)
| CreateAPIClientE (p : MgPrincipal) (input : APIClientInput) (keyID secret sealed : string) (idem : MgIdempotency) : Effect (APIClientSecret * bool)
| ListAPIClientsE (p : MgPrincipal) (cursor : string) (limit : Z) : Effect (MgPage APIClient)
| RotateAPIClientE (p : MgPrincipal) (id : string) (version : Z) (keyID secret sealed : string) (overlap : Duration)
    (idem : MgIdempotency) : Effect (APIClientSecret * bool)
| RevokeAPIClientE (p : MgPrincipal) (id : string) (version : Z) (reason : string) (idem : MgIdempotency) : Effect (APIClient * bool)
| CreateManagementActionE (p : MgPrincipal) (action : ManagementActionRequest) : Effect (ManagementActionRequest * bool)
| GetManagementActionE (p : MgPrincipal) (operation id : string) : Effect ManagementActionRequest
| ListManagementActionsE (p : MgPrincipal) (operation cursor : string) (limit : Z) : Effect (MgPage ManagementActionRequest)
| ClaimManagementActionE (p : MgPrincipal) (operation id lease reason hash : string) (now : Time) : Effect (ManagementActionRequest * bool)
| RejectManagementActionE (p : MgPrincipal) (operation id reason hash : string) (now : Time) : Effect (ManagementActionRequest * bool)
| CompleteManagementActionE (p : MgPrincipal) (id lease : string) (success : bool) (code : string) (now : Time) : Effect ManagementActionRequest
| ListAuditE (p : MgPrincipal) (cursor : string) (limit : Z) : Effect (MgPage MgAuditEvent)
| VerifyEndpointE (url challenge : string) : Effect unit
| AnalyzeE (mediaType image : string) (target : ReceiptTarget) : Effect ReceiptAnalysis.

Inductive any_effect : Type :=
| AnyEffect (A : Type) (e : Effect A).
Arguments AnyEffect {A} e.
Abbreviation history := (list any_effect).

(** A computation of the service: it extends the history and answers or fails. *)
Definition Mgmt (A : Type) : Type := history -> history * result merr A.

#[export] Instance Mgmt_ret : MRet Mgmt := fun A a h => (h, Ok a).
#[export] Instance Mgmt_bind : MBind Mgmt := fun A B f m h => match m h with (h', Ok a) => f a h' | (h', Err e) => (h', Err e) end.

Definition lift {A} (r : result merr A) : Mgmt A := fun h => (h, r).
Definition refuse {A} (s : mg_sentinel) : Mgmt A := fun h => (h, Err (Sentinel s)).
(** [if bad { return err }] *)
Definition unless (bad : bool) (s : mg_sentinel) : Mgmt unit := if bad then refuse s else mret tt.
(** An error replaced by another. *)
Definition on_error {A} (s : mg_sentinel) (m : Mgmt A) : Mgmt A :=
  fun h => match m h with (h', Ok a) => (h', Ok a) | (h', Err _) => (h', Err (Sentinel s)) end.

(** ** Rules (service.go) *)

Definition maxPageSize : Z := 100.

Definition normalizePage (limit : Z) : Z :=
  if limit <? 1 then 50 else if limit >? maxPageSize then maxPageSize else limit.

(** ^[1-9][0-9]{0,77}$ and ^[A-Z]{3}$ *)
Definition decimalAmount (s : string) : bool :=
  match s with
  | EmptyString => false
  | String c r => (49 <=? code c) && (code c <=? 57) && str_forall is_digit r && (len r <=? 77)
  end.
Definition currencyCode (s : string) : bool := (len s =? 3) && str_forall (fun c => (65 <=? code c) && (code c <=? 90)) s.

Definition authenticated (p : MgPrincipal) : bool :=
  negb ((gp_TenantID p == "") || (gp_MerchantID p == "") || (gp_ActorID p == "")
        || negb (ValidID (gp_TenantID p)) || negb (ValidID (gp_MerchantID p)) || negb (ValidID (gp_ActorID p))).

(** [s.require] *)
Definition mg_require (p : MgPrincipal) (scope : string) : result merr unit :=
  if negb (authenticated p) then Err (Sentinel MgErrUnauthenticated)
  else if negb (Has p scope) then Err (Sentinel MgErrForbidden)
  else Ok tt.

Definition requireStepUp (now : Time) (p : MgPrincipal) (scope : string) : result merr unit :=
  _ ← mg_require p scope;
  if gp_AuthMethod p == "management_key" then Ok tt
  else if (gp_AuthMethod p != "admin_assertion") || IsZeroTime (gp_StepUpAt p) || After (gp_StepUpAt p) (AddTime now Minute)
          || (SubTime now (gp_StepUpAt p) >? 10 * Minute)
  then Err (Sentinel MgErrForbidden)
  else Ok tt.

Definition requireFourEyes (now : Time) (p : MgPrincipal) (scope reason : string) : result merr unit :=
  _ ← requireStepUp now p scope;
  if (gp_AuthMethod p != "admin_assertion") || negb (ValidID (gp_ApprovalActor p)) || (gp_ApprovalActor p == gp_ActorID p)
     || (TrimSpace reason == "") || (TrimSpace (gp_ApprovalReason p) == "")
  then Err (Sentinel MgErrForbidden)
  else Ok tt.

(** [uniqueSorted] and [canonicalArray] *)
Fixpoint unique_trimmed (seen : list string) (values : list string) : list string :=
  match values with
  | [] => []
  | v :: rest =>
      let v := TrimSpace v in
      if (v == "") || existsb_str v seen then unique_trimmed seen rest else v :: unique_trimmed (v :: seen) rest
  end.
Definition uniqueSorted (values : list string) : list string := sort_by str_less (unique_trimmed [] values).

Fixpoint canonical_values (seen : list string) (values : list string) : bool :=
  match values with
  | [] => true
  | v :: rest => negb ((v == "") || (TrimSpace v != v) || existsb_str v seen) && canonical_values (v :: seen) rest
  end.
Definition canonicalArray (values : list string) : option (list string) :=
  if canonical_values [] values then Some (sort_by str_less values) else None.

(** [randomString(prefix, n)]: [raw] are the [n] random bytes, if they could be read. *)
Definition randomString (prefix : string) (raw : option string) : result merr string :=
  match raw with None => Err (Plain "rand") | Some raw => Ok (prefix +:+ b64_encode raw) end.

Definition randomOpaque (sha256 : string -> string) (prefix : string) (raw : option string) : result merr (string * string) :=
  value ← randomString prefix raw; Ok (value, sha256 value).

Definition parseOpaque (sha256 : string -> string) (prefix value : string) : result merr (string * string) :=
  let invalid := Err (Sentinel MgErrInvalid) in
  if negb (HasPrefix value prefix) then invalid
  else match b64_decode (TrimPrefix value prefix) with
       | None => invalid
       | Some raw => if negb (len raw =? 32) || (prefix +:+ b64_encode raw != value) then invalid else Ok (value, sha256 value)
       end.

Definition publicIP (ip : IP) : bool :=
  negb (bool_decide (ip = IPNil)) && negb (IsLoopback ip) && negb (IsPrivate ip) && negb (IsUnspecified ip)
  && negb (IsLinkLocalUnicast ip) && negb (IsLinkLocalMulticast ip) && negb (IsMulticast ip).

Definition knownWebhookEvent (value : string) : bool := (value == "*") || existsb_str value SupportedEventTypes.

Definition knownDelegableScope (value : string) : bool :=
  existsb_str value ["payments:read"; "payments:write"; "events:read"; "reconciliation:read"; "checkout:write"; "payment-links:read";
    "payment-links:write"; "webhooks:read"; "webhooks:write"; "webhooks:rotate"; "credentials:read"; "credentials:write";
    "credentials:rotate"; "audit:read"; "operations:read"; "operations:write"; "operations:approve"].

(** ** Receipts *)

(** [strings.LastIndex(s, c)], [-1] when there is none. *)
Fixpoint last_index (c : ascii) (i found : Z) (s : string) : Z :=
  match s with EmptyString => found | String d r => last_index c (i + 1) (if Ascii.eqb d c then i else found) r end.
Definition LastIndex (s : string) (c : ascii) : Z := last_index c 0 (-1) s.

(** [strings.ReplaceAll(s, c, "")] *)
Fixpoint remove_all (c : ascii) (s : string) : string :=
  match s with EmptyString => "" | String d r => if Ascii.eqb d c then remove_all c r else String d (remove_all c r) end.
(** [strings.Replace(s, c, d, 1)] *)
Fixpoint replace_first (c d : ascii) (s : string) : string :=
  match s with EmptyString => "" | String x r => if Ascii.eqb x c then String d r else String x (replace_first c d r) end.
(** [strings.Count(s, c)] *)
Fixpoint count_byte (c : ascii) (s : string) : Z :=
  match s with EmptyString => 0 | String d r => (if Ascii.eqb d c then 1 else 0) + count_byte c r end.

Definition receiptAmountAtomic (value : string) (decimals : Z) : result merr Amount :=
  let value := TrimSpace value in
  let parsed v := match ParseDecimal v decimals with Ok a => Ok a | Err e => Err (Plain e) end in
  if (value == "") || ContainsAny value [43; 45; 101; 69] then Err (Sentinel MgErrInvalid)
  else if negb (str_no comma value) && negb (str_no dot value) then
    if LastIndex value dot >? LastIndex value comma then parsed (remove_all comma value)
    else parsed (replace_first comma dot (remove_all dot value))
  else if count_byte comma value =? 1 then parsed (replace_first comma dot value)
  else if negb (str_no comma value) then Err (Sentinel MgErrInvalid)
  else parsed value.

Definition receipt_reasons : list string :=
  ["transaction_visible"; "transaction_missing"; "network_match"; "network_mismatch"; "asset_match"; "asset_mismatch";
   "destination_match"; "destination_mismatch"; "amount_visible"; "image_unclear"].

Fixpoint reasons_ok (seen : list string) (reasons : list string) : bool :=
  match reasons with
  | [] => true
  | r :: rest => negb ((TrimSpace r != r) || negb (existsb_str r receipt_reasons) || existsb_str r seen) && reasons_ok (r :: seen) rest
  end.

(** An ASCII letter, a digit or one of -_:./+= *)
Definition transaction_char (c : ascii) : bool :=
  let z := code c in
  ((65 <=? z) && (z <=? 90)) || ((97 <=? z) && (z <=? 122)) || is_digit c || existsb (Z.eqb z) [45; 95; 58; 46; 47; 43; 61].

(** [ParseTime] is [time.Parse] with RFC 3339. *)
Definition validateReceiptAnalysis (ParseTime : string -> option Time) (a : ReceiptAnalysis) : result merr unit :=
  let bad := Err (Sentinel MgErrDependency) in
  if (ra_Confidence a <? 0) || (ra_Confidence a >? 100) || (Z.of_nat (length (ra_ReasonCodes a)) >? 16) || (len (ra_Amount a) >? 128)
     || (len (ra_Destination a) >? 512) || (len (ra_NetworkHint a) >? 128) || (len (ra_AssetHint a) >? 128)
  then bad
  else if negb (reasons_ok [] (ra_ReasonCodes a)) then bad
  else if (ra_TransactionID a != "")
          && ((len (ra_TransactionID a) <? 6) || (len (ra_TransactionID a) >? 256) || (TrimSpace (ra_TransactionID a) != ra_TransactionID a)
              || negb (str_forall transaction_char (ra_TransactionID a)))
  then bad
  else if (ra_OccurredAt a != "") && match ParseTime (ra_OccurredAt a) with None => true | Some _ => false end then bad
  else Ok tt.

(** ** The service *)

Section service.
(** What an effect answers, given all before it. *)
Context (answer : history -> forall A, Effect A -> result merr A).
(** [url.Parse], [strings.ToLower], [strings.EqualFold], [net.ParseIP], SHA-256, the value of a JSON text, the routes it
    decodes to, [time.Parse], the secret boxes, the analyzer's name and whether there is one. *)
Context (parse : string -> option HostedURL) (ToLower : string -> string) (EqualFold : string -> string -> bool)
  (ParseIP : string -> option IP) (sha256 : string -> string) (json_tree : string -> option Outbox.JSON)
  (decode_routes : string -> option (list PaymentLinkRoute)) (ParseTime : string -> option Time)
  (webhookSeal credentialSeal : string -> option string) (analyzer : option string).
(** The public base URL, the build edition, and the readings of the clock in one call. *)
Context (publicBase : HostedURL) (NonCustodial : bool) (now : nat -> Time).

Definition invoke {A} (e : Effect A) : Mgmt A := fun h => (h ++ [AnyEffect e], answer h A e).

(** *** Checks *)

Definition validateHTTPSURL (raw : string) : bool :=
  match parse raw with
  | None => false
  | Some u =>
      if (hu_Scheme u != "https") || (hu_Hostname u == "") || hu_HasUser u || (hu_Fragment u != "") || (len raw >? 2048) then false
      else
        let host := ToLower (TrimSuffixByte (chr 46) (hu_Hostname u)) in
        if (host == "localhost") || HasSuffix host ".localhost" || HasSuffix host ".local" then false
        else match ParseIP host with Some ip => publicIP ip | None => true end
  end.

Definition validOrigin (raw : string) : bool :=
  (raw == "")
  || match parse raw with
     | None => false
     | Some u => (hu_Scheme u == "https") && (hu_Host u != "") && negb (hu_HasUser u) && (hu_Path u == "") && (hu_RawQuery u == "")
                 && (hu_Fragment u == "")
     end.

Definition allowedReturnURL (raw allowedOrigin : string) : bool :=
  if raw == "" then false
  else match parse raw with
       | None => false
       | Some u =>
           if (hu_Scheme u != "https") || (hu_Host u == "") || hu_HasUser u || (hu_Fragment u != "") then false
           else if allowedOrigin == "" then true
           else match parse allowedOrigin with
                | None => false
                | Some o => EqualFold (hu_Scheme u) (hu_Scheme o) && EqualFold (hu_Host u) (hu_Host o)
                end
       end.

(** [json.Unmarshal] into a map takes objects and null, into a slice arrays and null. *)
Definition validJSONObject (raw : string) (max : Z) : bool :=
  (len raw =? 0)
  || (negb (len raw >? max) && match json_tree raw with Some (Outbox.JObject _) | Some Outbox.JNull => true | _ => false end).

Definition validJSONArray (raw : string) (max : Z) : bool :=
  (len raw =? 0)
  || (negb (len raw >? max) && match json_tree raw with Some (Outbox.JArray _) | Some Outbox.JNull => true | _ => false end).

Definition validOnChain (r : PaymentLinkRoute) : bool :=
  (lr_Provider r == "on_chain") && (lr_ChainID r != "") && (lr_ProviderID r == "") && (lr_AssetID r != "")
  && (len (lr_ChainID r) <=? 128) && (len (lr_AssetID r) <=? 128).
Definition validHosted (r : PaymentLinkRoute) : bool :=
  (lr_Provider r == "hosted_gateway") && (lr_ProviderID r != "") && (lr_ChainID r == "") && (lr_AssetID r != "")
  && (len (lr_ProviderID r) <=? 128) && (len (lr_AssetID r) <=? 128).

Definition validPaymentLinkRoutes (raw : string) : bool :=
  validJSONArray raw 16384
  && match decode_routes raw with Some [r] => validOnChain r || validHosted r | _ => false end.

Definition validateWebhookInput (input : WebhookEndpointInput) : bool :=
  let n := Z.of_nat (length (wi_EventTypes input)) in
  negb ((n <? 1) || (n >? 32) || (wi_TimeoutMS input <? 100) || (wi_TimeoutMS input >? 30000) || (wi_MaxConcurrency input <? 1)
        || (wi_MaxConcurrency input >? 100))
  && validateHTTPSURL (wi_URL input) && forallb knownWebhookEvent (uniqueSorted (wi_EventTypes input)).

Definition validateClientInput (i : nat) (p : MgPrincipal) (input : APIClientInput) : result merr unit :=
  let n := Z.of_nat (length (ai_Scopes input)) in
  if (len (TrimSpace (ai_Name input)) <? 1) || (len (ai_Name input) >? 120) || (n <? 1) || (n >? 32)
     || match ai_ValidUntil input with Some t => negb (After t (now i)) | None => false end
  then Err (Sentinel MgErrInvalid)
  else if forallb (fun s => knownDelegableScope s && (Has p "credentials:delegate" || Has p s)) (ai_Scopes input) then Ok tt
  else Err (Sentinel MgErrForbidden).

Definition platformOrigin : string := hu_Scheme publicBase +:+ "://" +:+ hu_Host publicBase.
Definition sameHostedOrigin (origin : string) : bool := (origin != "") && (origin == platformOrigin).
Definition base_text : string := TrimRightByte slash (hu_String publicBase).

Definition with_direct (s : PayerSession) : PayerSession :=
  mkPayerSession (ss_IntentID s) (ss_OrderID s) (ss_MerchantName s) (ss_AmountMinor s) (ss_Currency s) (ss_CurrencyScale s)
    (ss_Description s) (ss_Status s) (ss_ExpiresAt s) (ss_SelectedRouteID s) (ss_Routes s) NonCustodial (ss_Version s).

(** *** Receipts *)

Definition resolveReceiptTarget (hash origin : string) : Mgmt ReceiptTarget := fun h =>
  match invoke (ResolveReceiptTargetE hash origin) h with
  | (h', Err e) =>
      if negb (errors_Is e MgErrNotFound) || negb (sameHostedOrigin origin) then (h', Err e)
      else invoke (ResolveReceiptTargetE hash "") h'
  | r => r
  end.

(** The transfer an amount on the image points at. *)
Definition receipt_candidate (target : ReceiptTarget) (a : ReceiptAnalysis) : Mgmt ReceiptTransferCandidate :=
  let none := mret (mkReceiptTransferCandidate "" "") in
  if (ra_TransactionID a == "") && (ra_Amount a != "") then
    match receiptAmountAtomic (ra_Amount a) (rt_AssetDecimals target) with
    | Err _ => none
    | Ok amount =>
        let '(occurred, window) :=
          if ra_OccurredAt a != "" then (default 0 (ParseTime (ra_OccurredAt a)), 10 * Minute) else (0, 0) in
        on_error MgErrDependency (invoke (FindReceiptTransferCandidateE target (AmountString amount) occurred window))
    end
  else none.

Definition SubmitReceipt (token origin mediaType image : string) (idem : MgIdempotency) : Mgmt (ReceiptSubmission * bool) :=
  match analyzer with
  | None => refuse MgErrDependency
  | Some model =>
      match parseOpaque sha256 "cs_" token with
      | Err _ => refuse MgErrNotFound
      | Ok (_, hash) =>
          _ ← unless (((mediaType != "image/jpeg") && (mediaType != "image/png") && (mediaType != "image/webp")) || (len image <? 128)
                      || (len image >? 5 * 1048576) || (len (gi_Key idem) <? 8) || (len (gi_Key idem) >? 255)) MgErrInvalid;
          target ← resolveReceiptTarget hash origin;
          analysis ← on_error MgErrDependency (invoke (AnalyzeE mediaType image target));
          _ ← lift (validateReceiptAnalysis ParseTime analysis);
          candidate ← receipt_candidate target analysis;
          invoke (RecordReceiptAnalysisE target analysis candidate model mediaType (len image) (sha256 image) idem)
      end
  end.

(** *** Payment links *)

Definition payment_link_ok (input : PaymentLinkInput) : bool :=
  negb ((len (TrimSpace (li_Name input)) <? 1) || (len (li_Name input) >? 120) || negb (decimalAmount (li_AmountMinor input))
        || negb (currencyCode (li_Currency input)) || (li_CurrencyScale input <? 0) || (li_CurrencyScale input >? 9)
        || (len (li_Description input) >? 1000) || (li_MaxUses input <? 1) || (li_MaxUses input >? 1000000)
        || match li_ExpiresAt input with Some t => negb (After t (now 0)) | None => false end
        || negb (validJSONObject (li_Metadata input) 16384) || negb (validPaymentLinkRoutes (li_AllowedRoutes input))
        || negb (validOrigin (li_AllowedOrigin input)) || negb (allowedReturnURL (li_SuccessURL input) (li_AllowedOrigin input))
        || negb (allowedReturnURL (li_CancelURL input) (li_AllowedOrigin input))).

Definition CreatePaymentLink (raw : option string) (p : MgPrincipal) (input : PaymentLinkInput) (idem : MgIdempotency) : Mgmt (PaymentLink * bool) :=
  _ ← lift (mg_require p "payment-links:write");
  _ ← unless (negb (payment_link_ok input)) MgErrInvalid;
  opaque ← lift (randomOpaque sha256 "pl_" raw);
  invoke (CreatePaymentLinkE p input (base_text +:+ "/pay?token=" +:+ QueryEscape (fst opaque)) (snd opaque) idem).

Definition Mg_PublicPaymentLink (token : string) : Mgmt PublicPaymentLink :=
  match parseOpaque sha256 "pl_" token with
  | Err _ => refuse MgErrNotFound
  | Ok (_, hash) => invoke (PublicPaymentLinkE hash)
  end.

Definition RedeemPaymentLink (raw : option string) (token origin : string) (input : RedeemPaymentLinkInput) (idem : MgIdempotency)
    : Mgmt (PaymentLinkRedemption * bool) :=
  match parseOpaque sha256 "pl_" token with
  | Err _ => refuse MgErrNotFound
  | Ok (_, hash) =>
      _ ← unless ((len (ri_CustomerReference input) >? 128) || negb (validJSONObject (ri_Metadata input) 4096)) MgErrInvalid;
      _ ← unless ((origin != "") && (origin != platformOrigin)) MgErrNotFound;
      match NewToken sha256 raw with
      | None => lift (Err (Plain "rand"))
      | Some (checkoutToken, checkoutHash) =>
          let checkoutURL := base_text +:+ "/checkout?token=" +:+ QueryEscape checkoutToken in
          answered ← invoke (RedeemPaymentLinkE hash checkoutToken checkoutURL checkoutHash input idem);
          let r := fst answered in
          mret (mkPaymentLinkRedemption (rd_IntentID r) (rd_Checkout r) (with_direct (rd_Session r)) (rd_SuccessURL r) (rd_CancelURL r), snd answered)
      end
  end.

Definition GetPaymentLink (p : MgPrincipal) (id : string) : Mgmt PaymentLink :=
  _ ← lift (mg_require p "payment-links:read"); _ ← unless (negb (ValidID id)) MgErrInvalid; invoke (GetPaymentLinkE p id).

Definition ListPaymentLinks (p : MgPrincipal) (cursor : string) (limit : Z) : Mgmt (MgPage PaymentLink) :=
  _ ← lift (mg_require p "payment-links:read"); _ ← unless ((cursor != "") && negb (ValidID cursor)) MgErrInvalid;
  invoke (ListPaymentLinksE p cursor (normalizePage limit)).

Definition DisablePaymentLink (p : MgPrincipal) (id : string) (version : Z) (idem : MgIdempotency) : Mgmt (PaymentLink * bool) :=
  _ ← lift (mg_require p "payment-links:write"); _ ← unless (negb (ValidID id) || (version <? 1)) MgErrInvalid;
  invoke (DisablePaymentLinkE p id version idem).

(** *** Checkout sessions *)

(** Audience and origin: the hosted page is the platform's own, an embedded one
    the merchant's. *)
Definition checkout_origin (input : CheckoutIssueInput) : result merr (string * string) :=
  let audience := if ci_Audience input == "" then "hosted_checkout" else ci_Audience input in
  if audience == "hosted_checkout" then
    if ci_AllowedOrigin input != "" then Err (Sentinel MgErrInvalid) else Ok (audience, platformOrigin)
  else if audience == "embedded_checkout" then
    if (ci_AllowedOrigin input == "") || negb (validOrigin (ci_AllowedOrigin input)) then Err (Sentinel MgErrInvalid)
    else Ok (audience, ci_AllowedOrigin input)
  else Err (Sentinel MgErrInvalid).

Definition checkout_actions (values : list string) : result merr (list string) :=
  match canonicalArray values with
  | None => Ok ["read"; "select_route"]
  | Some [] => Ok ["read"; "select_route"]
  | Some actions => if forallb (fun a => (a == "read") || (a == "select_route")) actions then Ok actions else Err (Sentinel MgErrInvalid)
  end.

Definition IssueCheckout (raw : option string) (p : MgPrincipal) (input : CheckoutIssueInput) (idem : MgIdempotency) : Mgmt (CheckoutIssue * bool) :=
  _ ← lift (mg_require p "checkout:write");
  bound ← lift (checkout_origin input);
  _ ← unless (negb (ValidID (ci_IntentID input)) || (ci_TTLSeconds input <? 60) || (ci_TTLSeconds input >? 1800)) MgErrInvalid;
  actions ← lift (checkout_actions (ci_AllowedActions input));
  match NewToken sha256 raw with
  | None => lift (Err (Plain "rand"))
  | Some (token, hash) =>
      invoke (IssueCheckoutE p (mkCheckoutIssueInput (ci_IntentID input) (fst bound) (snd bound) (ci_TTLSeconds input) actions)
                (base_text +:+ "/checkout?token=" +:+ QueryEscape token) hash idem)
  end.

Definition PublicCheckout (token origin : string) : Mgmt PayerSession :=
  match HashToken sha256 token with
  | None => refuse MgErrNotFound
  | Some hash => session ← invoke (PublicCheckoutE hash origin); mret (with_direct session)
  end.

Definition SelectCheckoutRoute (token origin routeID : string) (idem : MgIdempotency) : Mgmt (PayerSession * bool) :=
  match HashToken sha256 token with
  | None => refuse MgErrNotFound
  | Some hash =>
      _ ← unless (negb (ValidID routeID)) MgErrNotFound;
      answered ← invoke (SelectCheckoutRouteE hash origin routeID idem); mret (with_direct (fst answered), snd answered)
  end.

(** *** Webhook endpoints *)

Definition seal (box : string -> option string) (plain : string) : result merr string :=
  match box plain with Some sealed => Ok sealed | None => Err (Sentinel MgErrDependency) end.

Definition endpoint_with_events (input : WebhookEndpointInput) (events : list string) : WebhookEndpointInput :=
  mkWebhookEndpointInput (wi_URL input) events (wi_TimeoutMS input) (wi_MaxConcurrency input).

(** The events in canonical form, and the checks of the rest. *)
Definition webhook_input (input : WebhookEndpointInput) : result merr WebhookEndpointInput :=
  match canonicalArray (wi_EventTypes input) with
  | None => Err (Sentinel MgErrInvalid)
  | Some events => if validateWebhookInput (endpoint_with_events input events) then Ok (endpoint_with_events input events) else Err (Sentinel MgErrInvalid)
  end.

Definition CreateWebhookEndpoint (raw1 raw2 raw3 : option string) (p : MgPrincipal) (input : WebhookEndpointInput) (idem : MgIdempotency)
    : Mgmt (WebhookEndpointSecret * bool) :=
  _ ← lift (requireStepUp (now 0) p "webhooks:write");
  input ← lift (webhook_input input);
  secret ← lift (randomString "whsec_" raw1);
  keyID ← lift (randomString "whk_" raw2);
  challenge ← lift (randomString "whc_" raw3);
  encryptedSecret ← lift (seal webhookSeal secret);
  encryptedChallenge ← lift (seal webhookSeal challenge);
  invoke (CreateWebhookEndpointE p input (mkSecretResult keyID secret (now 1) None) encryptedSecret encryptedChallenge idem).

Definition GetWebhookEndpoint (p : MgPrincipal) (id : string) : Mgmt WebhookEndpoint :=
  _ ← lift (mg_require p "webhooks:read"); _ ← unless (negb (ValidID id)) MgErrInvalid; invoke (GetWebhookEndpointE p id).

Definition ListWebhookEndpoints (p : MgPrincipal) (cursor : string) (limit : Z) : Mgmt (MgPage WebhookEndpoint) :=
  _ ← lift (mg_require p "webhooks:read"); _ ← unless ((cursor != "") && negb (ValidID cursor)) MgErrInvalid;
  invoke (ListWebhookEndpointsE p cursor (normalizePage limit)).

Definition UpdateWebhookEndpoint (p : MgPrincipal) (id : string) (version : Z) (input : WebhookEndpointInput) (idem : MgIdempotency)
    : Mgmt (WebhookEndpoint * bool) :=
  _ ← lift (requireStepUp (now 0) p "webhooks:write");
  _ ← unless (negb (ValidID id) || (version <? 1)) MgErrInvalid;
  input ← lift (webhook_input input);
  invoke (UpdateWebhookEndpointE p id version input idem).

Definition VerifyWebhookEndpoint (p : MgPrincipal) (id : string) (idem : MgIdempotency) : Mgmt (WebhookEndpoint * bool) :=
  _ ← lift (requireStepUp (now 0) p "webhooks:write");
  _ ← unless (negb (ValidID id)) MgErrInvalid;
  target ← invoke (WebhookVerificationTargetE p id);
  _ ← on_error MgErrDependency (invoke (VerifyEndpointE (we_URL (wv_Endpoint target)) (wv_Challenge target)));
  invoke (ActivateWebhookEndpointE p id (we_Version (wv_Endpoint target)) idem).

Definition overlap_ok (overlap : Duration) : bool := negb ((overlap <? 5 * Minute) || (overlap >? 7 * 24 * Hour)).

Definition RotateWebhookSecret (raw1 raw2 : option string) (p : MgPrincipal) (id : string) (version : Z) (overlap : Duration)
    (idem : MgIdempotency) : Mgmt (WebhookEndpointSecret * bool) :=
  _ ← lift (requireStepUp (now 0) p "webhooks:rotate");
  _ ← unless (negb (ValidID id) || (version <? 1) || negb (overlap_ok overlap)) MgErrInvalid;
  secret ← lift (randomString "whsec_" raw1);
  keyID ← lift (randomString "whk_" raw2);
  encrypted ← lift (seal webhookSeal secret);
  invoke (RotateWebhookSecretE p id version (mkSecretResult keyID secret (now 1) None) encrypted overlap idem).

Definition DisableWebhookEndpoint (i : nat) (p : MgPrincipal) (id : string) (version : Z) (reason : string) (idem : MgIdempotency)
    : Mgmt (WebhookEndpoint * bool) :=
  _ ← lift (requireFourEyes (now i) p "webhooks:disable" reason);
  _ ← unless (negb (ValidID id) || (version <? 1) || (len (TrimSpace reason) >? 1000)) MgErrInvalid;
  invoke (DisableWebhookEndpointE p id version reason idem).

Definition ListWebhookDeliveries (p : MgPrincipal) (endpointID cursor : string) (limit : Z) : Mgmt (MgPage WebhookDelivery) :=
  _ ← lift (mg_require p "webhooks:read");
  _ ← unless (negb (ValidID endpointID) || (cursor != "") && negb (ValidID cursor)) MgErrInvalid;
  invoke (ListWebhookDeliveriesE p endpointID cursor (normalizePage limit)).

Definition RetryWebhookDelivery (p : MgPrincipal) (id : string) (version : Z) (reason : string) (idem : MgIdempotency) : Mgmt (WebhookDelivery * bool) :=
  _ ← lift (requireStepUp (now 0) p "webhooks:write");
  _ ← unless (negb (ValidID id) || (version <? 1) || (TrimSpace reason == "") || (len reason >? 1000)) MgErrInvalid;
  invoke (RetryWebhookDeliveryE p id version reason idem).

(** *** API clients and the audit trail *)

Definition newCredential (raw1 raw2 : option string) : result merr (string * string * string) :=
  keyID ← randomString "mk_live_" raw1;
  secret ← randomString "msk_" raw2;
  encrypted ← seal credentialSeal secret;
  Ok (keyID, secret, encrypted).

Definition CreateAPIClient (raw1 raw2 : option string) (p : MgPrincipal) (input : APIClientInput) (idem : MgIdempotency) : Mgmt (APIClientSecret * bool) :=
  _ ← lift (requireStepUp (now 0) p "credentials:write");
  match canonicalArray (ai_Scopes input) with
  | None => refuse MgErrInvalid
  | Some scopes =>
      let input := mkAPIClientInput (ai_Name input) scopes (ai_ValidUntil input) in
      _ ← lift (validateClientInput 1 p input);
      credential ← lift (newCredential raw1 raw2);
      invoke (CreateAPIClientE p input credential.1.1 credential.1.2 credential.2 idem)
  end.

Definition ListAPIClients (p : MgPrincipal) (cursor : string) (limit : Z) : Mgmt (MgPage APIClient) :=
  _ ← lift (mg_require p "credentials:read"); _ ← unless ((cursor != "") && negb (ValidID cursor)) MgErrInvalid;
  invoke (ListAPIClientsE p cursor (normalizePage limit)).

Definition RotateAPIClient (raw1 raw2 : option string) (p : MgPrincipal) (id : string) (version : Z) (overlap : Duration)
    (idem : MgIdempotency) : Mgmt (APIClientSecret * bool) :=
  _ ← lift (requireStepUp (now 0) p "credentials:rotate");
  _ ← unless (negb (ValidID id) || (version <? 1) || negb (overlap_ok overlap)) MgErrInvalid;
  credential ← lift (newCredential raw1 raw2);
  invoke (RotateAPIClientE p id version credential.1.1 credential.1.2 credential.2 overlap idem).

Definition RevokeAPIClient (i : nat) (p : MgPrincipal) (id : string) (version : Z) (reason : string) (idem : MgIdempotency)
    : Mgmt (APIClient * bool) :=
  _ ← lift (requireFourEyes (now i) p "credentials:revoke" reason);
  _ ← unless (negb (ValidID id) || (version <? 1) || (len (TrimSpace reason) >? 1000)) MgErrInvalid;
  invoke (RevokeAPIClientE p id version reason idem).

Definition ListAudit (p : MgPrincipal) (cursor : string) (limit : Z) : Mgmt (MgPage MgAuditEvent) :=
  _ ← lift (mg_require p "audit:read"); _ ← unless ((cursor != "") && negb (ValidID cursor)) MgErrInvalid;
  invoke (ListAuditE p cursor (normalizePage limit)).

(** ** Actions under four eyes (actions.go) *)

Definition actionDisableWebhook : string := "webhook.disable".
Definition actionRevokeClient : string := "api_client.revoke".

Definition actionScope (operation : string) : option (string * string) :=
  if operation == actionDisableWebhook then Some ("webhooks:disable", "webhook_endpoint")
  else if operation == actionRevokeClient then Some ("credentials:revoke", "api_client")
  else None.

(** [marshal_action]: the JSON object of version and reason. *)
Definition new_action_request (marshal_action : Z -> string -> string) (p : MgPrincipal) (id operation resourceType resourceID : string)
    (version : Z) (reason : string) (idem : MgIdempotency) (t : Time) : ManagementActionRequest :=
  mkManagementActionRequest id operation resourceType resourceID version reason (gp_ActorID p) "" "" "pending_approval" "" (gi_Key idem)
    (marshal_action version reason) (gi_Fingerprint idem) "" (gp_SessionID p) (gp_StepUpAt p) "" None t (AddTime t (10 * Minute)) None None t 1.

Definition RequestManagementAction (marshal_action : Z -> string -> string) (newID : option string) (p : MgPrincipal)
    (operation resourceID : string) (version : Z) (reason : string) (idem : MgIdempotency) : Mgmt (ManagementActionRequest * bool) :=
  match actionScope operation with
  | None => refuse MgErrInvalid
  | Some (scope, resourceType) =>
      _ ← lift (requireStepUp (now 0) p scope);
      let reason := TrimSpace reason in
      _ ← unless (negb (ValidID resourceID) || (version <? 1) || (reason == "") || (len reason >? 1000) || (len (gi_Key idem) <? 8)
                  || (gp_AuthMethod p != "admin_assertion")) MgErrInvalid;
      match newID with
      | None => lift (Err (Plain "rand"))
      | Some id => invoke (CreateManagementActionE p (new_action_request marshal_action p id operation resourceType resourceID version reason idem (now 1)))
      end
  end.

Definition GetManagementAction (p : MgPrincipal) (operation id : string) : Mgmt ManagementActionRequest :=
  match actionScope operation with
  | None => refuse MgErrInvalid
  | Some (scope, _) =>
      _ ← unless (negb (ValidID id)) MgErrInvalid; _ ← lift (mg_require p scope); invoke (GetManagementActionE p operation id)
  end.

Definition ListManagementActions (p : MgPrincipal) (operation cursor : string) (limit : Z) : Mgmt (MgPage ManagementActionRequest) :=
  match actionScope operation with
  | None => refuse MgErrInvalid
  | Some (scope, _) =>
      _ ← unless ((cursor != "") && negb (ValidID cursor)) MgErrInvalid; _ ← lift (mg_require p scope);
      invoke (ListManagementActionsE p operation cursor (normalizePage limit))
  end.

Definition actionMutationIdempotency (operation : string) (action : ManagementActionRequest) : MgIdempotency :=
  let target := "/v1/management/" +:+
    (if operation == actionDisableWebhook then "webhook-endpoints/" +:+ ma_ResourceID action +:+ "/disable"
     else "api-clients/" +:+ ma_ResourceID action +:+ "/revoke") in
  mkMgIdempotency (ma_MutationIdempotencyKey action) (sha256 ("POST" +:+ newline +:+ target +:+ newline +:+ ma_RequestBody action)).

Definition actionFailureCode (e : merr) : string :=
  if errors_Is e MgErrConflict then "stale_resource_version"
  else if errors_Is e MgErrNotFound then "resource_not_found"
  else if errors_Is e MgErrForbidden then "authorization_changed"
  else "invalid_action".

(** The requester, acting with the approver's consent. *)
Definition execution_principal (approver : MgPrincipal) (scope reason : string) (action : ManagementActionRequest) : MgPrincipal :=
  mkMgPrincipal (gp_TenantID approver) (gp_MerchantID approver) (ma_RequestedBy action) (ma_RequestedSession action) "admin_assertion"
    {[scope := true]} (ma_RequestedStepUpAt action) (gp_ActorID approver) reason.

Definition void {A} (m : Mgmt A) : Mgmt unit := _ ← m; mret tt.

Definition execute_action (operation : string) (execution : MgPrincipal) (action : ManagementActionRequest) : Mgmt unit :=
  let idem := actionMutationIdempotency operation action in
  if operation == actionDisableWebhook
  then void (DisableWebhookEndpoint 2 execution (ma_ResourceID action) (ma_ResourceVersion action) (ma_RequestReason action) idem)
  else if operation == actionRevokeClient
  then void (RevokeAPIClient 2 execution (ma_ResourceID action) (ma_ResourceVersion action) (ma_RequestReason action) idem)
  else mret tt.

Definition final_failure (e : merr) : bool :=
  errors_Is e MgErrConflict || errors_Is e MgErrInvalid || errors_Is e MgErrNotFound || errors_Is e MgErrForbidden.

Definition ApproveManagementAction (newID : option string) (approver : MgPrincipal) (operation id reason approvalHash : string)
    : Mgmt (ManagementActionRequest * bool) :=
  match actionScope operation with
  | None => refuse MgErrInvalid
  | Some (scope, _) =>
      _ ← unless (negb (ValidID id)) MgErrInvalid;
      _ ← lift (requireStepUp (now 0) approver scope);
      let reason := TrimSpace reason in
      _ ← unless ((reason == "") || (len reason >? 1000) || (gp_AuthMethod approver != "admin_assertion")) MgErrInvalid;
      match newID with
      | None => lift (Err (Plain "rand"))
      | Some lease =>
          claimed ← invoke (ClaimManagementActionE approver operation id lease reason approvalHash (now 1));
          let '(action, replay) := claimed in
          if replay && (ma_Status action == "completed") then mret (action, replay)
          else if ma_ApprovalReason action != reason then refuse MgErrConflict
          else fun h =>
            match execute_action operation (execution_principal approver scope reason action) action h with
            | (h', Err e) =>
                if final_failure e then
                  match invoke (CompleteManagementActionE approver (ma_ID action) lease false (actionFailureCode e) (now 3)) h' with
                  | (h'', Err finishErr) => (h'', Err finishErr)
                  | (h'', Ok _) => (h'', Err e)
                  end
                else (h', Err e)
            | (h', Ok _) =>
                (completed ← invoke (CompleteManagementActionE approver (ma_ID action) lease true "" (now 3)); mret (completed, replay)) h'
            end
      end
  end.

Definition RejectManagementAction (p : MgPrincipal) (operation id reason decisionHash : string) : Mgmt (ManagementActionRequest * bool) :=
  match actionScope operation with
  | None => refuse MgErrInvalid
  | Some (scope, _) =>
      _ ← unless (negb (ValidID id)) MgErrInvalid;
      _ ← lift (requireStepUp (now 0) p scope);
      let reason := TrimSpace reason in
      _ ← unless ((reason == "") || (len reason >? 1000) || (gp_AuthMethod p != "admin_assertion")) MgErrInvalid;
      invoke (RejectManagementActionE p operation id reason decisionHash (now 1))
  end.
End service.
