(* ===== verification/ManagementFacts.v ===== *)
(** * ManagementFacts: what merchant management guarantees

    Whatever is asked, only effects on behalf of the asker happen that they are
    entitled to, with checked arguments, or those of the action they approve; a destructive change takes two people; an endpoint is activated
    after it answered its challenge. *)

From Stdlib Require Import ZArith Lia Ascii String.
From stdpp Require Import base gmap list strings.
From S2P Require Import Prelude Text Numerals Money Domain Encoding Auth Webhook Legacy LegacyGateway Hosted Management.
From S2P Require Outbox.

(** ** Computations and the effects they have *)

(** Every effect of a trail satisfies [P], given what happened before it. *)
Fixpoint granted (P : history -> any_effect -> Prop) (before trail : history) : Prop :=
  match trail with
  | [] => True
  | e :: rest => P before e /\ granted P (before ++ [e]) rest
  end.

(** Every effect [m] has after [h] satisfies [P]. *)
Definition only (P : history -> any_effect -> Prop) (h : history) {A} (m : Mgmt A) : Prop :=
  exists t, (m h).1 = h ++ t /\ granted P h t.

Section only.
Context (P : history -> any_effect -> Prop).

Lemma granted_app t u : forall h, granted P h t -> granted P (h ++ t) u -> granted P h (t ++ u).
Proof.
  induction t as [|e t IH]; intros h Ht Hu; [by rewrite app_nil_r in Hu|]. destruct Ht as [He Ht]. split; [done|].
  apply IH; [done|]. by rewrite <- app_assoc.
Qed.

Lemma granted_at t1 e t2 : forall h, granted P h (t1 ++ e :: t2) -> P (h ++ t1) e.
Proof.
  induction t1 as [|x t1 IH]; intros h H; [rewrite app_nil_r; by destruct H|]. destruct H as [_ H].
  specialize (IH _ H). by rewrite <- app_assoc in IH.
Qed.

Lemma only_ret {A} (a : A) h : only P h (mret a).
Proof. exists []. by rewrite app_nil_r. Qed.

Lemma only_lift {A} (r : result merr A) h : only P h (lift r).
Proof. exists []. by rewrite app_nil_r. Qed.

Lemma only_refuse {A} s h : only P h (refuse (A := A) s).
Proof. exists []. by rewrite app_nil_r. Qed.

Lemma only_bind {A B} (m : Mgmt A) (f : A -> Mgmt B) h :
  only P h m -> (forall h' a, m h = (h', Ok a) -> only P h' (f a)) -> only P h (m ≫= f).
Proof.
  intros (t & Ht & Hp) Hf. unfold only, mbind, Mgmt_bind. destruct (m h) as [h' [a|e]]; cbn [fst] in *; subst; [|by exists t].
  destruct (Hf _ a eq_refl) as (u & Hu & Hq). exists (t ++ u). rewrite Hu, app_assoc. split; [done|by apply granted_app].
Qed.

Lemma only_bind_lift {A B} (r : result merr A) (f : A -> Mgmt B) h : (forall a, r = Ok a -> only P h (f a)) -> only P h (lift r ≫= f).
Proof. intros Hf. apply only_bind; [apply only_lift|]. intros h' a [= <- ->]. by apply Hf. Qed.

Lemma only_bind_unless {A} bad s (f : unit -> Mgmt A) h : (bad = false -> only P h (f tt)) -> only P h (unless bad s ≫= f).
Proof.
  intros Hf. unfold unless. destruct bad; (apply only_bind; [apply only_refuse || apply only_ret|]); intros h' [] H; [done|].
  injection H as <-. by apply Hf.
Qed.

Lemma only_on_error {A} s (m : Mgmt A) h : only P h m -> only P h (on_error s m).
Proof. intros (t & Ht & Hp). exists t. unfold on_error. by destruct (m h) as [h' []]. Qed.

Lemma only_void {A} (m : Mgmt A) h : only P h m -> only P h (void m).
Proof. intros Hm. apply only_bind; [done|]. intros. apply only_ret. Qed.

Lemma only_invoke answer {A} (e : Effect A) h : P h (AnyEffect e) -> only P h (invoke answer e).
Proof. intros Hp. by exists [AnyEffect e]. Qed.

(** The continuation of an effect knows what it answered. *)
Lemma only_bind_invoke answer {A B} (e : Effect A) (f : A -> Mgmt B) h :
  P h (AnyEffect e) -> (forall a, answer h A e = Ok a -> only P (h ++ [AnyEffect e]) (f a)) -> only P h (invoke answer e ≫= f).
Proof. intros He Hf. apply only_bind; [by apply only_invoke|]. intros h' a [= <- Ha]. by apply Hf. Qed.

Lemma only_bind_on_error answer {A B} (e : Effect A) s (f : A -> Mgmt B) h :
  P h (AnyEffect e) -> (forall a, answer h A e = Ok a -> only P (h ++ [AnyEffect e]) (f a)) ->
  only P h (on_error s (invoke answer e) ≫= f).
Proof.
  intros He Hf. apply only_bind; [by apply only_on_error, only_invoke|]. intros h' a H. unfold on_error, invoke in H.
  destruct (answer h A e) as [x|] eqn:Ha; [|done]. injection H as <- <-. by apply Hf.
Qed.
End only.

(** ** Requests *)

(** Everything a caller can ask, with the random bytes each call draws. *)
Inductive mgmt_request :=
| RqSubmitReceipt (token origin mediaType image : string) (idem : MgIdempotency)
| RqCreatePaymentLink (raw : option string) (p : MgPrincipal) (input : PaymentLinkInput) (idem : MgIdempotency)
| RqPublicPaymentLink (token : string)
| RqRedeemPaymentLink (raw : option string) (token origin : string) (input : RedeemPaymentLinkInput) (idem : MgIdempotency)
| RqGetPaymentLink (p : MgPrincipal) (id : string)
| RqListPaymentLinks (p : MgPrincipal) (cursor : string) (limit : Z)
| RqDisablePaymentLink (p : MgPrincipal) (id : string) (version : Z) (idem : MgIdempotency)
| RqIssueCheckout (raw : option string) (p : MgPrincipal) (input : CheckoutIssueInput) (idem : MgIdempotency)
| RqPublicCheckout (token origin : string)
| RqSelectCheckoutRoute (token origin routeID : string) (idem : MgIdempotency)
| RqCreateWebhookEndpoint (raw1 raw2 raw3 : option string) (p : MgPrincipal) (input : WebhookEndpointInput) (idem : MgIdempotency)
| RqGetWebhookEndpoint (p : MgPrincipal) (id : string)
| RqListWebhookEndpoints (p : MgPrincipal) (cursor : string) (limit : Z)
| RqUpdateWebhookEndpoint (p : MgPrincipal) (id : string) (version : Z) (input : WebhookEndpointInput) (idem : MgIdempotency)
| RqVerifyWebhookEndpoint (p : MgPrincipal) (id : string) (idem : MgIdempotency)
| RqRotateWebhookSecret (raw1 raw2 : option string) (p : MgPrincipal) (id : string) (version : Z) (overlap : Duration) (idem : MgIdempotency)
| RqDisableWebhookEndpoint (p : MgPrincipal) (id : string) (version : Z) (reason : string) (idem : MgIdempotency)
| RqListWebhookDeliveries (p : MgPrincipal) (endpointID cursor : string) (limit : Z)
| RqRetryWebhookDelivery (p : MgPrincipal) (id : string) (version : Z) (reason : string) (idem : MgIdempotency)
| RqCreateAPIClient (raw1 raw2 : option string) (p : MgPrincipal) (input : APIClientInput) (idem : MgIdempotency)
| RqListAPIClients (p : MgPrincipal) (cursor : string) (limit : Z)
| RqRotateAPIClient (raw1 raw2 : option string) (p : MgPrincipal) (id : string) (version : Z) (overlap : Duration) (idem : MgIdempotency)
| RqRevokeAPIClient (p : MgPrincipal) (id : string) (version : Z) (reason : string) (idem : MgIdempotency)
| RqListAudit (p : MgPrincipal) (cursor : string) (limit : Z)
| RqRequestAction (newID : option string) (p : MgPrincipal) (operation resourceID : string) (version : Z) (reason : string) (idem : MgIdempotency)
| RqGetAction (p : MgPrincipal) (operation id : string)
| RqListActions (p : MgPrincipal) (operation cursor : string) (limit : Z)
| RqApproveAction (newID : option string) (p : MgPrincipal) (operation id reason hash : string)
| RqRejectAction (p : MgPrincipal) (operation id reason hash : string).

Section service.
Context (answer : history -> forall A, Effect A -> result merr A).
Context (parse : string -> option HostedURL) (ToLower : string -> string) (EqualFold : string -> string -> bool)
  (ParseIP : string -> option IP) (sha256 : string -> string) (json_tree : string -> option Outbox.JSON)
  (decode_routes : string -> option (list PaymentLinkRoute)) (ParseTime : string -> option Time)
  (webhookSeal credentialSeal : string -> option string) (analyzer : option string) (marshal_action : Z -> string -> string).
Context (publicBase : HostedURL) (NonCustodial : bool) (now : nat -> Time).

(** The service answering a request; the answer itself is dropped. *)
Definition serve (r : mgmt_request) : Mgmt unit :=
  match r with
  | RqSubmitReceipt token origin mediaType image idem => void (SubmitReceipt answer sha256 ParseTime analyzer publicBase token origin mediaType image idem)
  | RqCreatePaymentLink raw p input idem =>
      void (CreatePaymentLink answer parse EqualFold sha256 json_tree decode_routes publicBase now raw p input idem)
  | RqPublicPaymentLink token => void (Mg_PublicPaymentLink answer sha256 token)
  | RqRedeemPaymentLink raw token origin input idem => void (RedeemPaymentLink answer sha256 json_tree publicBase NonCustodial raw token origin input idem)
  | RqGetPaymentLink p id => void (GetPaymentLink answer p id)
  | RqListPaymentLinks p cursor limit => void (ListPaymentLinks answer p cursor limit)
  | RqDisablePaymentLink p id version idem => void (DisablePaymentLink answer p id version idem)
  | RqIssueCheckout raw p input idem => void (IssueCheckout answer parse sha256 publicBase raw p input idem)
  | RqPublicCheckout token origin => void (PublicCheckout answer sha256 NonCustodial token origin)
  | RqSelectCheckoutRoute token origin routeID idem => void (SelectCheckoutRoute answer sha256 NonCustodial token origin routeID idem)
  | RqCreateWebhookEndpoint raw1 raw2 raw3 p input idem =>
      void (CreateWebhookEndpoint answer parse ToLower ParseIP webhookSeal now raw1 raw2 raw3 p input idem)
  | RqGetWebhookEndpoint p id => void (GetWebhookEndpoint answer p id)
  | RqListWebhookEndpoints p cursor limit => void (ListWebhookEndpoints answer p cursor limit)
  | RqUpdateWebhookEndpoint p id version input idem => void (UpdateWebhookEndpoint answer parse ToLower ParseIP now p id version input idem)
  | RqVerifyWebhookEndpoint p id idem => void (VerifyWebhookEndpoint answer now p id idem)
  | RqRotateWebhookSecret raw1 raw2 p id version overlap idem => void (RotateWebhookSecret answer webhookSeal now raw1 raw2 p id version overlap idem)
  | RqDisableWebhookEndpoint p id version reason idem => void (DisableWebhookEndpoint answer now 0 p id version reason idem)
  | RqListWebhookDeliveries p endpointID cursor limit => void (ListWebhookDeliveries answer p endpointID cursor limit)
  | RqRetryWebhookDelivery p id version reason idem => void (RetryWebhookDelivery answer now p id version reason idem)
  | RqCreateAPIClient raw1 raw2 p input idem => void (CreateAPIClient answer credentialSeal now raw1 raw2 p input idem)
  | RqListAPIClients p cursor limit => void (ListAPIClients answer p cursor limit)
  | RqRotateAPIClient raw1 raw2 p id version overlap idem => void (RotateAPIClient answer credentialSeal now raw1 raw2 p id version overlap idem)
  | RqRevokeAPIClient p id version reason idem => void (RevokeAPIClient answer now 0 p id version reason idem)
  | RqListAudit p cursor limit => void (ListAudit answer p cursor limit)
  | RqRequestAction newID p operation resourceID version reason idem =>
      void (RequestManagementAction answer now marshal_action newID p operation resourceID version reason idem)
  | RqGetAction p operation id => void (GetManagementAction answer p operation id)
  | RqListActions p operation cursor limit => void (ListManagementActions answer p operation cursor limit)
  | RqApproveAction newID p operation id reason hash => void (ApproveManagementAction answer sha256 now newID p operation id reason hash)
  | RqRejectAction p operation id reason hash => void (RejectManagementAction answer now p operation id reason hash)
  end.

(** ** Entitlement *)

Definition entitled (p : MgPrincipal) (scope : string) : Prop := authenticated p = true /\ Has p scope = true.

(** A machine credential, or a person who confirmed themselves within ten minutes
    of the call (a minute ahead is tolerated). *)
Definition confirmed (p : MgPrincipal) (scope : string) : Prop :=
  entitled p scope /\
  (gp_AuthMethod p = "management_key" \/
   gp_AuthMethod p = "admin_assertion" /\ IsZeroTime (gp_StepUpAt p) = false /\
   exists i, gp_StepUpAt p <= now i + Minute /\ SubTime (now i) (gp_StepUpAt p) <= 10 * Minute).

(** Such a person, and a second one who agreed, each with a reason. *)
Definition two_people (p : MgPrincipal) (scope reason : string) : Prop :=
  confirmed p scope /\ gp_AuthMethod p = "admin_assertion" /\ ValidID (gp_ApprovalActor p) = true /\
  gp_ApprovalActor p <> gp_ActorID p /\ TrimSpace reason <> "" /\ TrimSpace (gp_ApprovalReason p) <> "".

(** A well-formed capability the caller presented, by its digest. *)
Definition presented (prefix token hash : string) : Prop :=
  exists raw, len raw = 32 /\ token = prefix +:+ b64_encode raw /\ hash = sha256 token.

(** An effect among those before, and its answer. *)
Definition answered (before : history) {A} (e : Effect A) (a : A) : Prop :=
  exists h, h ++ [AnyEffect e] `prefix_of` before /\ answer h A e = Ok a.

Definition target_ok (id : string) (version : Z) : Prop := ValidID id = true /\ 1 <= version.

Definition mg_page_ok (cursor : string) (limit : Z) : Prop := (cursor = "" \/ ValidID cursor = true) /\ 1 <= limit <= 100.

(** The session a receipt is submitted in: the caller's, found for their origin or,
    from the platform's own page, without one. *)
Definition receipt_target (before : history) (hash origin : string) (target : ReceiptTarget) : Prop :=
  answered before (ResolveReceiptTargetE hash origin) target \/
  sameHostedOrigin publicBase origin = true /\ answered before (ResolveReceiptTargetE hash "") target.

(** What may be done for whom: the effects a request may have, each on behalf of
    the principal or the capability of that very request, given what happened
    before. The only other principal is the requester of an action that the caller
    approves: someone else of the caller's tenant and merchant, for the caller's
    claim of that action, with its resource, version and reason. *)
Definition effect_allowed (r : mgmt_request) (before : history) (e : any_effect) : Prop :=
  match r with
  | RqSubmitReceipt token origin mediaType image idem =>
      exists hash, presented "cs_" token hash /\ In mediaType ["image/jpeg"; "image/png"; "image/webp"] /\
      128 <= len image <= 5 * 1048576 /\ 8 <= len (gi_Key idem) <= 255 /\
      (e = AnyEffect (ResolveReceiptTargetE hash origin) \/
       e = AnyEffect (ResolveReceiptTargetE hash "") /\ sameHostedOrigin publicBase origin = true \/
       exists target, receipt_target before hash origin target /\
         (e = AnyEffect (AnalyzeE mediaType image target) \/
          exists analysis, answered before (AnalyzeE mediaType image target) analysis /\
            validateReceiptAnalysis ParseTime analysis = Ok tt /\
            ((exists amount occurred window, e = AnyEffect (FindReceiptTransferCandidateE target amount occurred window) /\
                (0 <= rt_AssetDecimals target <= 255 -> exists a, 0 < a < amount_limit /\ amount = AmountString a) /\
                0 <= window <= 10 * Minute) \/
             exists candidate model, analyzer = Some model /\
               e = AnyEffect (RecordReceiptAnalysisE target analysis candidate model mediaType (len image) (sha256 image) idem))))
  | RqCreatePaymentLink raw p input idem =>
      entitled p "payment-links:write" /\ payment_link_ok parse EqualFold json_tree decode_routes now input = true /\
      exists bytes, raw = Some bytes /\ let token := "pl_" +:+ b64_encode bytes in
        e = AnyEffect (CreatePaymentLinkE p input (base_text publicBase +:+ "/pay?token=" +:+ QueryEscape token) (sha256 token) idem)
  | RqPublicPaymentLink token => exists hash, presented "pl_" token hash /\ e = AnyEffect (PublicPaymentLinkE hash)
  | RqRedeemPaymentLink raw token origin input idem =>
      exists hash checkout, presented "pl_" token hash /\ (origin = "" \/ origin = platformOrigin publicBase) /\
        NewToken sha256 raw = Some (checkout, sha256 checkout) /\
        e = AnyEffect (RedeemPaymentLinkE hash checkout (base_text publicBase +:+ "/checkout?token=" +:+ QueryEscape checkout)
              (sha256 checkout) input idem)
  | RqGetPaymentLink p id => entitled p "payment-links:read" /\ ValidID id = true /\ e = AnyEffect (GetPaymentLinkE p id)
  | RqListPaymentLinks p cursor limit => entitled p "payment-links:read" /\ mg_page_ok cursor (normalizePage limit) /\
      e = AnyEffect (ListPaymentLinksE p cursor (normalizePage limit))
  | RqDisablePaymentLink p id version idem => entitled p "payment-links:write" /\ target_ok id version /\
      e = AnyEffect (DisablePaymentLinkE p id version idem)
  | RqIssueCheckout raw p input idem => entitled p "checkout:write" /\
      exists input' token, NewToken sha256 raw = Some (token, sha256 token) /\
        e = AnyEffect (IssueCheckoutE p input' (base_text publicBase +:+ "/checkout?token=" +:+ QueryEscape token) (sha256 token) idem) /\
        ci_IntentID input' = ci_IntentID input /\ ValidID (ci_IntentID input) = true /\
        ci_TTLSeconds input' = ci_TTLSeconds input /\ 60 <= ci_TTLSeconds input <= 1800 /\
        Forall (fun a => a = "read" \/ a = "select_route") (ci_AllowedActions input') /\ ci_AllowedActions input' <> [] /\
        (ci_Audience input' = "hosted_checkout" /\ ci_AllowedOrigin input' = platformOrigin publicBase \/
         ci_Audience input' = "embedded_checkout" /\ ci_AllowedOrigin input' = ci_AllowedOrigin input /\ ci_AllowedOrigin input <> "" /\
         validOrigin parse (ci_AllowedOrigin input) = true)
  | RqPublicCheckout token origin => exists hash, presented "cs_" token hash /\ e = AnyEffect (PublicCheckoutE hash origin)
  | RqSelectCheckoutRoute token origin routeID idem => exists hash, presented "cs_" token hash /\ ValidID routeID = true /\
      e = AnyEffect (SelectCheckoutRouteE hash origin routeID idem)
  | RqCreateWebhookEndpoint _ _ _ p input idem => confirmed p "webhooks:write" /\
      exists input' secret sealed challenge, webhook_input parse ToLower ParseIP input = Ok input' /\
        validateWebhookInput parse ToLower ParseIP input' = true /\ e = AnyEffect (CreateWebhookEndpointE p input' secret sealed challenge idem)
  | RqGetWebhookEndpoint p id => entitled p "webhooks:read" /\ ValidID id = true /\ e = AnyEffect (GetWebhookEndpointE p id)
  | RqListWebhookEndpoints p cursor limit => entitled p "webhooks:read" /\ mg_page_ok cursor (normalizePage limit) /\
      e = AnyEffect (ListWebhookEndpointsE p cursor (normalizePage limit))
  | RqUpdateWebhookEndpoint p id version input idem => confirmed p "webhooks:write" /\ target_ok id version /\
      exists input', webhook_input parse ToLower ParseIP input = Ok input' /\ validateWebhookInput parse ToLower ParseIP input' = true /\
        e = AnyEffect (UpdateWebhookEndpointE p id version input' idem)
  | RqVerifyWebhookEndpoint p id idem => confirmed p "webhooks:write" /\ ValidID id = true /\
      (e = AnyEffect (WebhookVerificationTargetE p id) \/
       exists target, answered before (WebhookVerificationTargetE p id) target /\
         let challenge := VerifyEndpointE (we_URL (wv_Endpoint target)) (wv_Challenge target) in
         (e = AnyEffect challenge \/
          answered before challenge tt /\ e = AnyEffect (ActivateWebhookEndpointE p id (we_Version (wv_Endpoint target)) idem)))
  | RqRotateWebhookSecret _ _ p id version overlap idem => confirmed p "webhooks:rotate" /\ target_ok id version /\ overlap_ok overlap = true /\
      exists secret sealed, e = AnyEffect (RotateWebhookSecretE p id version secret sealed overlap idem)
  | RqDisableWebhookEndpoint p id version reason idem => two_people p "webhooks:disable" reason /\ target_ok id version /\
      e = AnyEffect (DisableWebhookEndpointE p id version reason idem)
  | RqListWebhookDeliveries p id cursor limit => entitled p "webhooks:read" /\ ValidID id = true /\ mg_page_ok cursor (normalizePage limit) /\
      e = AnyEffect (ListWebhookDeliveriesE p id cursor (normalizePage limit))
  | RqRetryWebhookDelivery p id version reason idem => confirmed p "webhooks:write" /\ target_ok id version /\ TrimSpace reason <> "" /\
      e = AnyEffect (RetryWebhookDeliveryE p id version reason idem)
  | RqCreateAPIClient _ _ p input idem => confirmed p "credentials:write" /\
      exists input' keyID secret sealed, e = AnyEffect (CreateAPIClientE p input' keyID secret sealed idem) /\
        validateClientInput now 1 p input' = Ok tt /\ ai_Name input' = ai_Name input /\ ai_ValidUntil input' = ai_ValidUntil input /\
        Permutation (ai_Scopes input') (ai_Scopes input)
  | RqListAPIClients p cursor limit => entitled p "credentials:read" /\ mg_page_ok cursor (normalizePage limit) /\
      e = AnyEffect (ListAPIClientsE p cursor (normalizePage limit))
  | RqRotateAPIClient _ _ p id version overlap idem => confirmed p "credentials:rotate" /\ target_ok id version /\ overlap_ok overlap = true /\
      exists keyID secret sealed, e = AnyEffect (RotateAPIClientE p id version keyID secret sealed overlap idem)
  | RqRevokeAPIClient p id version reason idem => two_people p "credentials:revoke" reason /\ target_ok id version /\
      e = AnyEffect (RevokeAPIClientE p id version reason idem)
  | RqListAudit p cursor limit => entitled p "audit:read" /\ mg_page_ok cursor (normalizePage limit) /\
      e = AnyEffect (ListAuditE p cursor (normalizePage limit))
  | RqRequestAction newID p operation resourceID version reason idem =>
      exists scope action, e = AnyEffect (CreateManagementActionE p action) /\ actionScope operation = Some (scope, ma_ResourceType action) /\
        confirmed p scope /\ gp_AuthMethod p = "admin_assertion" /\ target_ok resourceID version /\
        newID = Some (ma_ID action) /\ ma_Operation action = operation /\ ma_ResourceID action = resourceID /\ ma_ResourceVersion action = version /\
        ma_RequestedBy action = gp_ActorID p /\ ma_RequestReason action = TrimSpace reason /\ TrimSpace reason <> "" /\
        ma_ExpiresAt action = ma_CreatedAt action + 10 * Minute
  | RqGetAction p operation id => ValidID id = true /\ e = AnyEffect (GetManagementActionE p operation id) /\
      exists scope kind, actionScope operation = Some (scope, kind) /\ entitled p scope
  | RqListActions p operation cursor limit => mg_page_ok cursor (normalizePage limit) /\
      e = AnyEffect (ListManagementActionsE p operation cursor (normalizePage limit)) /\
      exists scope kind, actionScope operation = Some (scope, kind) /\ entitled p scope
  | RqRejectAction p operation id reason hash => ValidID id = true /\ TrimSpace reason <> "" /\ gp_AuthMethod p = "admin_assertion" /\
      e = AnyEffect (RejectManagementActionE p operation id (TrimSpace reason) hash (now 1)) /\
      exists scope kind, actionScope operation = Some (scope, kind) /\ confirmed p scope
  | RqApproveAction newID approver operation id reason hash =>
      exists scope kind lease, actionScope operation = Some (scope, kind) /\ confirmed approver scope /\
      gp_AuthMethod approver = "admin_assertion" /\ ValidID id = true /\ TrimSpace reason <> "" /\ newID = Some lease /\
      let claim := ClaimManagementActionE approver operation id lease (TrimSpace reason) hash (now 1) in
      (e = AnyEffect claim \/
       exists action replay, answered before claim (action, replay) /\ ma_ApprovalReason action = TrimSpace reason /\
         ((exists executor, gp_TenantID executor = gp_TenantID approver /\ gp_MerchantID executor = gp_MerchantID approver /\
             gp_ActorID executor = ma_RequestedBy action /\ gp_ActorID executor <> gp_ActorID approver /\
             gp_ApprovalActor executor = gp_ActorID approver /\ gp_ApprovalReason executor = TrimSpace reason /\
             gp_StepUpAt executor = ma_RequestedStepUpAt action /\
             two_people executor scope (ma_RequestReason action) /\ target_ok (ma_ResourceID action) (ma_ResourceVersion action) /\
             let idem := actionMutationIdempotency sha256 operation action in
             (operation = actionDisableWebhook /\
              e = AnyEffect (DisableWebhookEndpointE executor (ma_ResourceID action) (ma_ResourceVersion action) (ma_RequestReason action) idem) \/
              operation = actionRevokeClient /\
              e = AnyEffect (RevokeAPIClientE executor (ma_ResourceID action) (ma_ResourceVersion action) (ma_RequestReason action) idem))) \/
          exists success code, e = AnyEffect (CompleteManagementActionE approver (ma_ID action) lease success code (now 3))))
  end.

Lemma mg_require_ok p scope u : mg_require p scope = Ok u -> entitled p scope.
Proof. unfold mg_require. destruct (authenticated p) eqn:Ea; [|done]. by destruct (Has p scope) eqn:Eh. Qed.

Lemma requireStepUp_ok i p scope u : requireStepUp (now i) p scope = Ok u -> confirmed p scope.
Proof.
  unfold requireStepUp. destruct (mg_require p scope) eqn:Er; [|done]. apply mg_require_ok in Er. cbn [mbind result_bind].
  destruct (String.eqb_spec (gp_AuthMethod p) "management_key"); [by split; [|left]|].
  destruct (_ || _) eqn:Eb; [done|]. intros _. bool_hyp. unfold After, AddTime in *. bool_hyp. split; [done|right].
  split_and!; try done. exists i. lia.
Qed.

Lemma requireFourEyes_ok i p scope reason u : requireFourEyes (now i) p scope reason = Ok u -> two_people p scope reason.
Proof.
  unfold requireFourEyes. destruct (requireStepUp (now i) p scope) eqn:Er; [|done]. apply requireStepUp_ok in Er. cbn [mbind result_bind].
  destruct (_ || _) eqn:Eb; [done|]. intros _. bool_hyp. by split_and!.
Qed.

Lemma parseOpaque_ok prefix value r : parseOpaque sha256 prefix value = Ok r -> presented prefix value (snd r).
Proof.
  unfold parseOpaque. destruct (negb _); [done|]. destruct (b64_decode _) as [raw|]; [|done]. destruct (_ || _) eqn:E; [done|].
  intros [= <-]. bool_hyp. by exists raw.
Qed.

Lemma HashToken_presented token h : HashToken sha256 token = Some h -> presented "cs_" token h.
Proof.
  unfold HashToken. cbv zeta. intros H. destruct (negb (HasPrefix token Prefix)) eqn:Ep; [discriminate H|].
  destruct (b64_decode _) as [raw|]; [|discriminate H]. destruct (negb (len raw =? 32)) eqn:El; [discriminate H|].
  destruct (b64_encode raw != _) eqn:Ee in H; [discriminate H|]. injection H as <-. bool_hyp. exists raw. split; [done|].
  apply HasPrefix_split in Ep. split; [|done]. rewrite Ep at 1. unfold Prefix in *. by rewrite Ee.
Qed.

Lemma normalizePage_ok limit : 1 <= normalizePage limit <= 100.
Proof. unfold normalizePage, maxPageSize. destruct (limit <? 1) eqn:E1; [lia|]. destruct (limit >? 100) eqn:E2; bool_hyp; lia. Qed.

Lemma page_checked cursor : (cursor != "") && negb (ValidID cursor) = false -> forall limit, mg_page_ok cursor (normalizePage limit).
Proof.
  intros H limit. split; [|apply normalizePage_ok]. destruct (String.eqb_spec cursor ""); [by left|right]. by destruct (ValidID cursor).
Qed.

(** Walk along a computation to its effects, keeping what its checks established
    and what the effects before answered. *)
Ltac effects :=
  cbv zeta;
  lazymatch goal with
  | |- only _ _ (void _) => apply only_void; effects
  | |- only _ _ (refuse _) => apply only_refuse
  | |- only _ _ (lift _ ≫= _) => apply only_bind_lift; let a := fresh "a" in let H := fresh "Hc" in intros a H; effects
  | |- only _ _ (unless _ _ ≫= _) => apply only_bind_unless; let H := fresh "Hc" in intros H; effects
  | |- only _ _ (on_error _ (invoke _ _) ≫= _) => apply only_bind_on_error; [|let a := fresh "a" in let H := fresh "Ha" in intros a H; effects]
  | |- only _ _ (invoke _ _ ≫= _) => apply only_bind_invoke; [|let a := fresh "a" in let H := fresh "Ha" in intros a H; effects]
  | |- only _ _ (_ ≫= _) => apply only_bind; [effects|let h' := fresh "h'" in let a := fresh "a" in let H := fresh "Hm" in intros h' a H; effects]
  | |- only _ _ (lift _) => apply only_lift
  | |- only _ _ (mret _) => apply only_ret
  | |- only _ _ (on_error _ _) => apply only_on_error; effects
  | |- only _ _ (invoke _ _) => apply only_invoke
  | |- only _ _ (match ?x with _ => _ end) => let E := fresh "E" in destruct x eqn:E; effects
  | _ => idtac
  end.

(** What the checks established, in terms of entitlement. *)
Ltac checked_facts :=
  repeat match goal with
  | H : requireFourEyes _ _ _ _ = Ok _ |- _ => apply requireFourEyes_ok in H
  | H : requireStepUp _ _ _ = Ok _ |- _ => apply requireStepUp_ok in H
  | H : mg_require _ _ = Ok _ |- _ => apply mg_require_ok in H
  | H : parseOpaque _ _ _ = Ok _ |- _ => apply parseOpaque_ok in H; cbn [snd] in H
  | H : HashToken _ _ = Some _ |- _ => apply HashToken_presented in H
  | H : (?c != "") && negb (ValidID ?c) = false |- _ => pose proof (page_checked c H); clear H
  | H : _ || _ = false |- _ => apply orb_false_iff in H as []
  end; bool_hyp; unfold target_ok.

(** Split a conjunction and find its parts among the established facts. *)
Ltac established :=
  lazymatch goal with
  | |- _ /\ _ => split; [established|established]
  | |- exists _, _ => eexists; established
  | |- mg_page_ok _ _ => match goal with H : forall l, mg_page_ok _ _ |- _ => apply H end
  | |- entitled _ _ => eassumption
  | |- confirmed _ _ => eassumption
  | |- two_people _ _ _ => eassumption
  | |- presented _ _ _ => eassumption
  | |- _ <= _ => lia
  | |- AnyEffect _ = AnyEffect _ => reflexivity
  | |- ?x = ?y => try eassumption
  | |- ?x <> ?y => try match goal with H : x <> y |- _ => exact H end
  | _ => idtac
  end.

Lemma answered_last before {A} (e : Effect A) a : answer before A e = Ok a -> answered (before ++ [AnyEffect e]) e a.
Proof. intros Ha. by exists before. Qed.

Lemma answered_later before more {A} (e : Effect A) a : answered before e a -> answered (before ++ more) e a.
Proof. intros (h & Hp & Ha). exists h. split; [|done]. by apply prefix_app_r. Qed.

(** What the requests of one effect each may have. *)
Abbreviation grants r m := (forall h, only (effect_allowed r) h m).

Lemma reads_allowed :
  (forall p id, grants (RqGetPaymentLink p id) (GetPaymentLink answer p id)) /\
  (forall p c l, grants (RqListPaymentLinks p c l) (ListPaymentLinks answer p c l)) /\
  (forall p id, grants (RqGetWebhookEndpoint p id) (GetWebhookEndpoint answer p id)) /\
  (forall p c l, grants (RqListWebhookEndpoints p c l) (ListWebhookEndpoints answer p c l)) /\
  (forall p e c l, grants (RqListWebhookDeliveries p e c l) (ListWebhookDeliveries answer p e c l)) /\
  (forall p c l, grants (RqListAPIClients p c l) (ListAPIClients answer p c l)) /\
  (forall p c l, grants (RqListAudit p c l) (ListAudit answer p c l)).
Proof.
  split_and!; intros; [unfold GetPaymentLink|unfold ListPaymentLinks|unfold GetWebhookEndpoint|unfold ListWebhookEndpoints
    |unfold ListWebhookDeliveries|unfold ListAPIClients|unfold ListAudit]; effects.
  all: cbn [effect_allowed]; checked_facts; established.
Qed.

Lemma links_allowed :
  (forall raw p input idem, grants (RqCreatePaymentLink raw p input idem)
     (CreatePaymentLink answer parse EqualFold sha256 json_tree decode_routes publicBase now raw p input idem)) /\
  (forall token, grants (RqPublicPaymentLink token) (Mg_PublicPaymentLink answer sha256 token)) /\
  (forall raw token origin input idem, grants (RqRedeemPaymentLink raw token origin input idem)
     (RedeemPaymentLink answer sha256 json_tree publicBase NonCustodial raw token origin input idem)) /\
  (forall p id version idem, grants (RqDisablePaymentLink p id version idem) (DisablePaymentLink answer p id version idem)) /\
  (forall token origin, grants (RqPublicCheckout token origin) (PublicCheckout answer sha256 NonCustodial token origin)) /\
  (forall token origin routeID idem, grants (RqSelectCheckoutRoute token origin routeID idem)
     (SelectCheckoutRoute answer sha256 NonCustodial token origin routeID idem)).
Proof.
  split_and!; intros; [unfold CreatePaymentLink|unfold Mg_PublicPaymentLink|unfold RedeemPaymentLink|unfold DisablePaymentLink
    |unfold PublicCheckout|unfold SelectCheckoutRoute]; effects.
  all: cbn [effect_allowed]; checked_facts.
  - unfold randomOpaque, randomString in *. destruct raw as [bytes|]; [|done]. cbn [mbind result_bind] in *. simplify_eq.
    split_and!; [done..|]. by exists bytes.
  - established.
  - unfold NewToken in *. destruct raw as [bytes|]; [|done]. simplify_eq. exists s0, (Prefix +:+ b64_encode bytes).
    split; [done|]. split; [|done].
    match goal with H : _ && _ = false |- _ => apply andb_false_iff in H as [H|H]; bool_hyp; [by left|by right] end.
  - established.
  - established.
  - established.
Qed.

Lemma checkout_origin_ok input audience origin : checkout_origin parse publicBase input = Ok (audience, origin) ->
  audience = "hosted_checkout" /\ origin = platformOrigin publicBase \/
  audience = "embedded_checkout" /\ origin <> "" /\ validOrigin parse origin = true.
Proof.
  unfold checkout_origin. cbv zeta. set (a := if ci_Audience input == "" then _ else _). destruct (String.eqb_spec a "hosted_checkout") as [->|].
  - destruct (_ != _); [done|]. intros [= <- <-]. by left.
  - destruct (String.eqb_spec a "embedded_checkout") as [->|]; [|done]. destruct (_ || _) eqn:E; [done|]. intros [= <- <-]. bool_hyp. by right.
Qed.

Lemma checkout_actions_ok values actions : checkout_actions values = Ok actions ->
  Forall (fun a => a = "read" \/ a = "select_route") actions /\ actions <> [].
Proof.
  assert (Hdef : Forall (fun a => a = "read" \/ a = "select_route") ["read"; "select_route"]).
  { constructor; [by left|]. constructor; [by right|done]. }
  unfold checkout_actions. destruct (canonicalArray values) as [[|a l]|]; try (intros [= <-]; by split).
  destruct (forallb _ _) eqn:E; [|done]. intros [= <-]. split; [|done]. apply Forall_forall. intros x Hx%list_elem_of_In.
  rewrite forallb_forall in E. specialize (E x Hx). cbv beta in E. apply orb_true_iff in E as [E|E]; apply String.eqb_eq in E; [by left|by right].
Qed.

Lemma checkout_origin_own input bound : checkout_origin parse publicBase input = Ok bound ->
  bound.1 = "embedded_checkout" -> bound.2 = ci_AllowedOrigin input.
Proof.
  unfold checkout_origin. cbv zeta. set (a := if ci_Audience input == "" then _ else _). destruct (String.eqb_spec a "hosted_checkout") as [->|].
  - destruct (_ != _); [done|]. by intros [= <-].
  - destruct (a == "embedded_checkout"); [|done]. destruct (_ || _); [done|]. by intros [= <-].
Qed.

Lemma issue_checkout_allowed raw p input idem :
  grants (RqIssueCheckout raw p input idem) (IssueCheckout answer parse sha256 publicBase raw p input idem).
Proof.
  intros h. unfold IssueCheckout. effects. cbn [effect_allowed]. checked_facts.
  match goal with H : checkout_origin _ _ _ = Ok ?b |- _ => pose proof (checkout_origin_own _ _ H) as Hown; destruct b as [audience origin];
    apply checkout_origin_ok in H as Hor end.
  match goal with H : checkout_actions _ = _ |- _ => apply checkout_actions_ok in H as [] end.
  unfold NewToken in *. destruct raw as [bytes|]; [|done]. simplify_eq. cbn [fst snd] in *.
  split; [done|]. do 2 eexists. split; [reflexivity|]. split; [reflexivity|].
  cbn [ci_IntentID ci_Audience ci_AllowedOrigin ci_TTLSeconds ci_AllowedActions].
  split_and!; try done; try lia. destruct Hor as [?|(Haud & ? & ?)]; [by left|right].
  rewrite (Hown Haud) in *. by split_and!.
Qed.

Lemma webhook_input_ok input input' : webhook_input parse ToLower ParseIP input = Ok input' -> validateWebhookInput parse ToLower ParseIP input' = true.
Proof. unfold webhook_input. destruct (canonicalArray _); [|done]. destruct (validateWebhookInput _ _ _ _) eqn:E; [|done]. by intros [= <-]. Qed.

Lemma disable_allowed i p id v reason idem h :
  only (fun _ e => e = AnyEffect (DisableWebhookEndpointE p id v reason idem) /\ two_people p "webhooks:disable" reason /\ target_ok id v)
    h (DisableWebhookEndpoint answer now i p id v reason idem).
Proof. unfold DisableWebhookEndpoint. effects. checked_facts. established. Qed.

Lemma revoke_allowed i p id v reason idem h :
  only (fun _ e => e = AnyEffect (RevokeAPIClientE p id v reason idem) /\ two_people p "credentials:revoke" reason /\ target_ok id v)
    h (RevokeAPIClient answer now i p id v reason idem).
Proof. unfold RevokeAPIClient. effects. checked_facts. established. Qed.

Lemma webhooks_allowed :
  (forall r1 r2 r3 p input idem, grants (RqCreateWebhookEndpoint r1 r2 r3 p input idem)
     (CreateWebhookEndpoint answer parse ToLower ParseIP webhookSeal now r1 r2 r3 p input idem)) /\
  (forall p id v input idem, grants (RqUpdateWebhookEndpoint p id v input idem)
     (UpdateWebhookEndpoint answer parse ToLower ParseIP now p id v input idem)) /\
  (forall r1 r2 p id v o idem, grants (RqRotateWebhookSecret r1 r2 p id v o idem) (RotateWebhookSecret answer webhookSeal now r1 r2 p id v o idem)) /\
  (forall p id v reason idem, grants (RqRetryWebhookDelivery p id v reason idem) (RetryWebhookDelivery answer now p id v reason idem)).
Proof.
  split_and!; intros; [unfold CreateWebhookEndpoint|unfold UpdateWebhookEndpoint|unfold RotateWebhookSecret|unfold RetryWebhookDelivery]; effects.
  all: cbn [effect_allowed]; repeat match goal with H : webhook_input _ _ _ _ = Ok _ |- _ => pose proof (webhook_input_ok _ _ H); revert H end.
  all: checked_facts; intros; established.
Qed.

Lemma verify_endpoint_allowed p id idem : grants (RqVerifyWebhookEndpoint p id idem) (VerifyWebhookEndpoint answer now p id idem).
Proof.
  intros h. unfold VerifyWebhookEndpoint. effects; cbn [effect_allowed]; checked_facts; (split; [done|]); (split; [done|]).
  - by left.
  - right. exists a0. split; [by apply answered_last|]. by left.
  - right. exists a0. split; [by apply answered_later, answered_last|]. cbv zeta. right. split; [|done].
    destruct a1. by apply answered_last.
Qed.

Lemma canonicalArray_perm l l' : canonicalArray l = Some l' -> Permutation l' l.
Proof. unfold canonicalArray. destruct (canonical_values _ _); [|done]. intros [= <-]. symmetry. apply sort_by_perm. Qed.

Lemma clients_allowed :
  (forall r1 r2 p input idem, grants (RqCreateAPIClient r1 r2 p input idem) (CreateAPIClient answer credentialSeal now r1 r2 p input idem)) /\
  (forall r1 r2 p id v o idem, grants (RqRotateAPIClient r1 r2 p id v o idem) (RotateAPIClient answer credentialSeal now r1 r2 p id v o idem)).
Proof.
  split_and!; intros; [unfold CreateAPIClient|unfold RotateAPIClient]; effects; cbn [effect_allowed]; checked_facts; [|established].
  split; [done|]. do 4 eexists. split; [reflexivity|]. destruct a0. split_and!; try done. cbn [ai_Scopes]. by apply canonicalArray_perm.
Qed.

Lemma actions_allowed :
  (forall newID p o id v reason idem, grants (RqRequestAction newID p o id v reason idem)
     (RequestManagementAction answer now marshal_action newID p o id v reason idem)) /\
  (forall p o id, grants (RqGetAction p o id) (GetManagementAction answer p o id)) /\
  (forall p o c l, grants (RqListActions p o c l) (ListManagementActions answer p o c l)) /\
  (forall p o id reason hash, grants (RqRejectAction p o id reason hash) (RejectManagementAction answer now p o id reason hash)).
Proof.
  split_and!; intros; [unfold RequestManagementAction|unfold GetManagementAction|unfold ListManagementActions|unfold RejectManagementAction]; effects.
  all: cbn [effect_allowed]; subst; checked_facts.
  - do 2 eexists. split; [reflexivity|]. cbn. by established.
  - by established.
  - by established.
  - by established.
Qed.

(** A weaker reading of a trail. *)
Lemma granted_weaken (P Q : history -> any_effect -> Prop) t : forall h,
  (forall h' e, h `prefix_of` h' -> P h' e -> Q h' e) -> granted P h t -> granted Q h t.
Proof using Type.
  induction t as [|e t IH]; intros h Hpq; [done|]. intros [He Ht]. split; [by apply Hpq|].
  apply IH; [|done]. intros h' e' Hp. apply Hpq. etrans; [|exact Hp]. by apply prefix_app_r.
Qed.

Lemma answered_prefix before before' {A} (e : Effect A) a : before `prefix_of` before' -> answered before e a -> answered before' e a.
Proof. intros [more ->]. apply answered_later. Qed.

Lemma only_weaken (P Q : history -> any_effect -> Prop) h {A} (m : Mgmt A) :
  (forall h' e, h `prefix_of` h' -> P h' e -> Q h' e) -> only P h m -> only Q h m.
Proof using Type. intros Hpq (t & Ht & Hp). exists t. split; [done|]. by eapply granted_weaken. Qed.

Lemma execute_allowed executor operation action h :
  only (fun _ e => target_ok (ma_ResourceID action) (ma_ResourceVersion action) /\
      let idem := actionMutationIdempotency sha256 operation action in
      (operation = actionDisableWebhook /\ two_people executor "webhooks:disable" (ma_RequestReason action) /\
       e = AnyEffect (DisableWebhookEndpointE executor (ma_ResourceID action) (ma_ResourceVersion action) (ma_RequestReason action) idem) \/
       operation = actionRevokeClient /\ two_people executor "credentials:revoke" (ma_RequestReason action) /\
       e = AnyEffect (RevokeAPIClientE executor (ma_ResourceID action) (ma_ResourceVersion action) (ma_RequestReason action) idem)))
    h (execute_action answer sha256 now operation executor action).
Proof.
  unfold execute_action. cbv zeta. destruct (String.eqb_spec operation actionDisableWebhook) as [->|];
    [|destruct (String.eqb_spec operation actionRevokeClient) as [->|]; [|apply only_ret]]; apply only_void.
  - eapply only_weaken, disable_allowed. cbv beta. intros h' e _ (-> & ? & ?). split; [done|]. by left.
  - eapply only_weaken, revoke_allowed. cbv beta. intros h' e _ (-> & ? & ?). split; [done|]. by right.
Qed.

(** The end of an approval: the mutation, then its outcome. *)
Lemma approve_allowed newID approver operation id reason hash :
  grants (RqApproveAction newID approver operation id reason hash) (ApproveManagementAction answer sha256 now newID approver operation id reason hash).
Proof.
  intros h. unfold ApproveManagementAction. effects.
  all: subst; checked_facts; set (claim := ClaimManagementActionE _ _ _ _ _ _ _) in *.
  { cbn [effect_allowed]. exists s, s0, s1. split_and!; try done. by left. }
  set (before := h ++ _). set (executor := execution_principal _ _ _ _).
  assert (Hclaim : forall before', before `prefix_of` before' -> answered before' claim (m, b)).
  { intros before' Hp. eapply answered_prefix; [exact Hp|]. by apply answered_last. }
  assert (Hcomplete : forall before' success code t, before `prefix_of` before' ->
    effect_allowed (RqApproveAction (Some s1) approver operation id reason hash) before' (AnyEffect (CompleteManagementActionE approver (ma_ID m) s1 success code t)) \/ t <> now 3).
  { intros before' success code t Hp. destruct (decide (t = now 3)) as [->|]; [left|by right]. cbn [effect_allowed]. exists s, s0, s1.
    split_and!; try done. right. exists m, b. split; [by apply Hclaim|]. split; [done|]. right. by exists success, code. }
  assert (Hexecute : only (effect_allowed (RqApproveAction (Some s1) approver operation id reason hash)) before
    (execute_action answer sha256 now operation executor m)).
  { eapply only_weaken; [|apply execute_allowed]. cbv beta. intros h' e Hp (Hok & He). cbn [effect_allowed]. exists s, s0, s1.
    split_and!; try done. right. exists m, b. split; [by apply Hclaim|]. split; [done|]. left. exists executor.
    assert (Hs : operation = actionDisableWebhook /\ s = "webhooks:disable" \/ operation = actionRevokeClient /\ s = "credentials:revoke").
    { destruct He as [(-> & _)|(-> & _)]; [left|right]; (split; [done|]); by match goal with H : actionScope _ = Some _ |- _ => injection H end. }
    assert (Htwo : two_people executor s (ma_RequestReason m)).
    { destruct Hs as [(? & ->)|(? & ->)], He as [(? & ? & _)|(? & ? & _)]; try done; subst; done. }
    split_and!; try done; [by destruct Htwo as (_ & _ & _ & Hne & _); apply not_eq_sym in Hne|]. cbv zeta.
    destruct He as [(? & _ & ?)|(? & _ & ?)]; [by left|by right]. }
  unfold only. destruct Hexecute as (t & Ht & Hg).
  destruct (execute_action answer sha256 now operation executor m before) as [h' [u|e]]; cbn [fst] in Ht; subst h'.
  - destruct (only_bind (effect_allowed (RqApproveAction (Some s1) approver operation id reason hash))
      (invoke answer (CompleteManagementActionE approver (ma_ID m) s1 true "" (now 3))) (fun completed => mret (completed, b)) (before ++ t))
      as (t' & Ht' & Hg'); [apply only_invoke| |].
    { destruct (Hcomplete (before ++ t) true "" (now 3)) as [?|?]; [by apply prefix_app_r|done|done]. }
    { intros. apply only_ret. }
    exists (t ++ t'). rewrite app_assoc. split; [exact Ht'|by apply granted_app].
  - destruct (final_failure e); [|by exists t].
    destruct (invoke _ _ _) as [h2 r2] eqn:Ei. unfold invoke in Ei. injection Ei as Ei _. subst h2.
    exists (t ++ [AnyEffect (CompleteManagementActionE approver (ma_ID m) s1 false (actionFailureCode e) (now 3))]). split.
    + destruct r2; cbn [fst]; by rewrite app_assoc.
    + apply granted_app; [done|]. split; [|done].
      destruct (Hcomplete (before ++ t) false (actionFailureCode e) (now 3)) as [?|?]; [by apply prefix_app_r|done|done].
Qed.

Lemma receiptAmountAtomic_ok value decimals a : receiptAmountAtomic value decimals = Ok a -> 0 <= decimals <= 255 -> 0 < a < amount_limit.
Proof.
  intros H Hd. unfold receiptAmountAtomic in H. cbv zeta in H.
  assert (Hp : forall v, match ParseDecimal v decimals with Ok a => Ok a | Err e => Err (Plain e) end = (Ok a : result merr Amount) -> 0 < a < amount_limit).
  { intros v Hv. destruct (ParseDecimal v decimals) as [b|] eqn:E; [|done]. injection Hv as ->. by apply ParseDecimal_iff in E as [_ E]. }
  repeat match type of H with (if ?b then _ else _) = _ => destruct b end; try discriminate H; by eapply Hp.
Qed.

(** The target a receipt belongs to, and how it was found. *)
Lemma resolve_allowed (P : history -> any_effect -> Prop) hash origin {B} (f : ReceiptTarget -> Mgmt B) h :
  (forall before, P before (AnyEffect (ResolveReceiptTargetE hash origin))) ->
  (sameHostedOrigin publicBase origin = true -> forall before, P before (AnyEffect (ResolveReceiptTargetE hash ""))) ->
  (forall before target, receipt_target before hash origin target -> only P before (f target)) ->
  only P h (resolveReceiptTarget answer publicBase hash origin ≫= f).
Proof.
  intros Hown Hplain Hf. apply only_bind.
  - unfold only, resolveReceiptTarget, invoke. destruct (answer h _ _) as [target|e]; [by exists [AnyEffect (ResolveReceiptTargetE hash origin)]|].
    destruct (sameHostedOrigin publicBase origin) eqn:Es; [|rewrite orb_true_r; by exists [AnyEffect (ResolveReceiptTargetE hash origin)]].
    destruct (negb (errors_Is e MgErrNotFound)); [by exists [AnyEffect (ResolveReceiptTargetE hash origin)]|].
    exists [AnyEffect (ResolveReceiptTargetE hash origin); AnyEffect (ResolveReceiptTargetE hash "")]. cbn. rewrite <- app_assoc.
    split; [done|]. split_and!; [done|by apply Hplain|done].
  - intros h' target. unfold resolveReceiptTarget. destruct (invoke answer (ResolveReceiptTargetE hash origin) h) as [h1 [x|e]] eqn:Ei;
      unfold invoke in Ei; injection Ei as <- Ha.
    + intros [= <- ->]. apply Hf. left. by apply answered_last.
    + destruct (_ || _) eqn:Eb; [done|]. unfold invoke. intros [= <- Ha2]. apply Hf. right. bool_hyp. split; [done|]. by apply answered_last.
Qed.

Lemma receipt_candidate_trail target analysis h :
  exists more, (receipt_candidate answer ParseTime target analysis h).1 = h ++ more.
Proof.
  assert (only (fun _ _ => True) h (receipt_candidate answer ParseTime target analysis)) as (t & Ht & _).
  { unfold receipt_candidate. effects. done. }
  by exists t.
Qed.

Lemma receipts_allowed token origin mediaType image idem :
  grants (RqSubmitReceipt token origin mediaType image idem)
    (SubmitReceipt answer sha256 ParseTime analyzer publicBase token origin mediaType image idem).
Proof.
  intros h. unfold SubmitReceipt. destruct analyzer as [model|] eqn:Emodel; [|apply only_refuse].
  destruct (parseOpaque sha256 "cs_" token) as [[t hash]|] eqn:Ep; [|apply only_refuse]. apply parseOpaque_ok in Ep. cbn [snd] in Ep.
  apply only_bind_unless. intros Hc.
  assert (Hargs : In mediaType ["image/jpeg"; "image/png"; "image/webp"] /\ 128 <= len image <= 5 * 1048576 /\ 8 <= len (gi_Key idem) <= 255).
  { apply orb_false_iff in Hc as [Hc ?]. apply orb_false_iff in Hc as [Hc ?]. apply orb_false_iff in Hc as [Hc ?].
    apply orb_false_iff in Hc as [Hc ?]. bool_hyp. split; [|lia]. cbn [In].
    destruct (String.eqb_spec mediaType "image/jpeg"); [by left|]. destruct (String.eqb_spec mediaType "image/png"); [by right; left|].
    destruct (String.eqb_spec mediaType "image/webp"); [by right; right; left|done]. }
  destruct Hargs as (Hmedia & Hsize & Hkey).
  assert (Hstep : forall before e, (e = AnyEffect (ResolveReceiptTargetE hash origin) \/
       e = AnyEffect (ResolveReceiptTargetE hash "") /\ sameHostedOrigin publicBase origin = true \/ _) ->
       effect_allowed (RqSubmitReceipt token origin mediaType image idem) before e)
    by (intros before e He; exists hash; split_and!; (done || lia || exact He)).
  apply resolve_allowed; [intros; apply Hstep; by left|intros; apply Hstep; right; by left|].
  intros before target Htarget.
  assert (Hlater : forall more, receipt_target (before ++ more) hash origin target).
  { intros more. destruct Htarget as [?|(? & ?)]; [left|right; split; [done|]]; by apply answered_later. }
  apply only_bind_on_error; [apply Hstep; right; right; exists target; split; [done|by left]|]. intros analysis Ha.
  apply only_bind_lift. intros [] Hv.
  assert (Hseen : forall more, answered ((before ++ [AnyEffect (AnalyzeE mediaType image target)]) ++ more) (AnalyzeE mediaType image target) analysis)
    by (intros; by apply answered_later, answered_last).
  apply only_bind.
  - unfold receipt_candidate. effects. apply Hstep. right. right. exists target. split; [apply Hlater|]. right. exists analysis.
    split; [by apply answered_last|]. split; [done|]. left. do 3 eexists. split; [reflexivity|]. split.
    { intros Hd. eexists. split; [by eapply receiptAmountAtomic_ok|done]. }
    match goal with H : (if _ then _ else _) = (_, _) |- _ => destruct (ra_OccurredAt analysis != ""); injection H as _ <- end;
      unfold Minute, Second; lia.
  - intros h' candidate Hm. apply only_invoke, Hstep. right. right. exists target.
    assert (exists more, h' = (before ++ [AnyEffect (AnalyzeE mediaType image target)]) ++ more) as (more & ->).
    { destruct (receipt_candidate_trail target analysis (before ++ [AnyEffect (AnalyzeE mediaType image target)])) as (more & Hmore).
      exists more. by rewrite Hm in Hmore. }
    split; [rewrite <- app_assoc; apply Hlater|]. right. exists analysis. split; [apply Hseen|]. split; [done|]. right. by exists candidate, model.
Qed.


(** No client gets more than its creator may give: every scope of a client
    that is created is one that can be delegated at all, and the creator has it
    themselves or the right to delegate; none lets a client disable endpoints,
    revoke clients, delegate further, or is the wildcard. *)
Theorem delegation_is_bounded raw1 raw2 p input idem h e scope :
  (e : any_effect) ∈ (CreateAPIClient answer credentialSeal now raw1 raw2 p input idem h).1 -> e ∉ h ->
  match e with AnyEffect (CreateAPIClientE p' input' _ _ _ _) =>
    In scope (ai_Scopes input') ->
    p' = p /\ In scope (ai_Scopes input) /\ (Has p scope = true \/ Has p "credentials:delegate" = true) /\ knownDelegableScope scope = true /\
    ~ In scope ["webhooks:disable"; "credentials:revoke"; "credentials:delegate"; "management:*"] /\
    1 <= Z.of_nat (length (ai_Scopes input')) <= 32
  | _ => False end.
Proof using Type.
  clear - answer credentialSeal now.
  unfold CreateAPIClient. intros Hin Hout.
  destruct (requireStepUp (now 0) p "credentials:write") as [[]|]; [|done]. unfold mbind, Mgmt_bind, lift in Hin.
  destruct (canonicalArray (ai_Scopes input)) as [scopes|] eqn:Ec; [|done]. cbv zeta in Hin.
  destruct (validateClientInput now 1 p _) as [[]|] eqn:Ev; [|done]. destruct (newCredential credentialSeal raw1 raw2) as [c|]; [|done].
  unfold invoke in Hin. cbn [fst] in Hin. apply elem_of_app in Hin as [|Hin]; [done|]. apply list_elem_of_singleton in Hin as ->.
  cbn [ai_Scopes]. intros Hs. unfold validateClientInput in Ev. cbv zeta in Ev. cbn [ai_Scopes ai_Name ai_ValidUntil] in Ev.
  destruct (_ || _) eqn:Eb in Ev; [done|]. destruct (forallb _ _) eqn:Ef in Ev; [|done]. rewrite forallb_forall in Ef. specialize (Ef scope Hs). cbv beta in Ef.
  apply andb_true_iff in Ef as [Hk Hp]. apply orb_true_iff in Hp. bool_hyp. split_and!; try done; try lia.
  - unfold canonicalArray in Ec. destruct (canonical_values _ _); [|done]. injection Ec as <-. by apply sort_by_In in Hs.
  - tauto.
  - intros Hbad. repeat destruct Hbad as [<-|Hbad]; try done; vm_compute in Hk; discriminate Hk.
Qed.

(** An endpoint is activated only after it answered its own challenge: the
    last three effects are reading the endpoint, the challenge at its address
    answered with success, and the activation at the version that was read. *)
Theorem endpoint_activated_after_challenge p id idem h h' r :
  VerifyWebhookEndpoint answer now p id idem h = (h', r) ->
  (exists e, e ∈ h' /\ e ∉ h /\ match e with AnyEffect (ActivateWebhookEndpointE _ _ _ _) => True | _ => False end) ->
  exists target, answer h _ (WebhookVerificationTargetE p id) = Ok target /\
    let read := h ++ [AnyEffect (WebhookVerificationTargetE p id)] in
    let challenge := VerifyEndpointE (we_URL (wv_Endpoint target)) (wv_Challenge target) in
    answer read _ challenge = Ok tt /\
    h' = read ++ [AnyEffect challenge] ++ [AnyEffect (ActivateWebhookEndpointE p id (we_Version (wv_Endpoint target)) idem)].
Proof using Type.
  unfold VerifyWebhookEndpoint, mbind, Mgmt_bind, lift, unless, on_error, refuse, mret, Mgmt_ret, invoke. intros H (e & Hin & Hout & He).
  destruct (requireStepUp (now 0) p "webhooks:write"); [|by injection H as <- _].
  destruct (negb (ValidID id)); [by injection H as <- _|].
  assert (Hnot : forall l, (forall x, x ∈ l -> match x with AnyEffect (ActivateWebhookEndpointE _ _ _ _) => False | _ => True end) -> e ∈ h ++ l -> False).
  { intros l Hl [?|Hx]%elem_of_app; [done|]. specialize (Hl e Hx). destruct e as [A e]. by destruct e. }
  destruct (answer h _ (WebhookVerificationTargetE p id)) as [target|] eqn:Et.
  2:{ injection H as <- _. exfalso. apply (Hnot _) in Hin; [done|]. by intros x ->%list_elem_of_singleton. }
  exists target. split; [done|]. cbv zeta. destruct (answer _ _ (VerifyEndpointE _ _)) as [[]|] eqn:Ev.
  - injection H as <- _. rewrite <- !app_assoc. done.
  - injection H as <- _. exfalso. rewrite <- app_assoc in Hin. apply (Hnot _) in Hin; [done|].
    intros x. rewrite elem_of_app, !list_elem_of_singleton. by intros [->| ->].
Qed.
End service.

(** ** Concrete requests *)

Definition owner : MgPrincipal :=
  mkMgPrincipal "0198a6d7-42b5-7a10-8000-000000000002" "0198a6d7-42b5-7a10-8000-000000000003" "0198a6d7-42b5-7a10-8000-000000000004" "" "management_key"
    {["credentials:write" := true; "payments:read" := true; "webhooks:write" := true]} 0 "" "".
Definition some_idem : MgIdempotency := mkMgIdempotency "idem-key" "".
Definition one_scope : APIClientInput := mkAPIClientInput "shop" ["payments:read"] None.
Definition deny_all (h : history) (A : Type) (e : Effect A) : result merr A := Err (Sentinel MgErrConflict).

Lemma delegation_is_bounded_witness :
  let h' := (CreateAPIClient deny_all (fun s => Some s) (fun _ => 0) (Some "k") (Some "s") owner one_scope some_idem []).1 in
  length h' = 1%nat /\ forall e, e ∈ h' -> match e with AnyEffect (CreateAPIClientE p' input' _ _ _ _) => p' = owner | _ => False end.
Proof.
  intros h'. split; [vm_compute; reflexivity|]. intros e He.
  pose proof (delegation_is_bounded deny_all (fun s => Some s) (fun _ => 0) (Some "k") (Some "s") owner one_scope some_idem [] e "payments:read" He
    ltac:(apply not_elem_of_nil)) as Hd.
  vm_compute in He. apply list_elem_of_singleton in He. subst e. cbn in Hd |- *. by apply Hd; left.
Defined.

Definition one_endpoint : WebhookEndpoint := mkWebhookEndpoint "e" "https://shop.example/hook" ["*"] 1000 1 "pending" "whk" None 0 0 4.
Definition all_well (h : history) (A : Type) (e : Effect A) : result merr A :=
  match e in Effect A return result merr A with
  | WebhookVerificationTargetE _ _ => Ok (mkWebhookVerificationTarget one_endpoint "whc")
  | VerifyEndpointE _ _ => Ok tt
  | ActivateWebhookEndpointE _ _ _ _ => Ok (one_endpoint, false)
  | _ => Err (Sentinel MgErrConflict)
  end.

Lemma endpoint_activated_after_challenge_witness : exists target,
  all_well [] _ (WebhookVerificationTargetE owner "0198a6d7-42b5-7a10-8000-000000000004") = Ok target /\
  length (VerifyWebhookEndpoint all_well (fun _ => 0) owner "0198a6d7-42b5-7a10-8000-000000000004" some_idem []).1 = 3%nat.
Proof.
  destruct (VerifyWebhookEndpoint all_well (fun _ => 0) owner "0198a6d7-42b5-7a10-8000-000000000004" some_idem []) as [h' r] eqn:E.
  destruct (endpoint_activated_after_challenge all_well (fun _ => 0) owner "0198a6d7-42b5-7a10-8000-000000000004" some_idem [] h' r E) as (target & Ht & _ & Hh).
  - pose proof E as E'. vm_compute in E'. injection E' as Eh _.
    exists (AnyEffect (ActivateWebhookEndpointE owner "0198a6d7-42b5-7a10-8000-000000000004" 4 some_idem)). split; [|split; [apply not_elem_of_nil|done]].
    rewrite <- Eh. apply list_elem_of_further, list_elem_of_further, list_elem_of_singleton. reflexivity.
  - exists target. split; [exact Ht|]. cbn [fst]. rewrite Hh. reflexivity.
Defined.
