(* ===== verification/ManagementEdges.v ===== *)
(** * ManagementEdges: internal/management (auth.go, crypto.go, verifier.go, payment_uri.go and the
    presentation functions of postgres_links_checkout.go)

    How a caller of the management API is authenticated, how secrets are sealed,
    how an endpoint proves itself, and what a payer is shown. *)

From Stdlib Require Import ZArith Lia Ascii String.
From stdpp Require Import base gmap list strings.
From S2P Require Import Prelude Text Numerals Money Domain Commands Encoding Auth Webhook Legacy LegacyGateway Hosted Management.
From S2P Require Outbox.

(** ** Admin assertions (auth.go) *)

Record adminClaims := mkAdminClaims {
  cl_Audience : string; cl_Method : string; cl_Target : string; cl_BodySHA256 : string; cl_JTI : string; cl_TenantID : string;
  cl_MerchantID : string; cl_ActorID : string; cl_SessionID : string; cl_Scopes : list string; cl_IssuedAt : Z; cl_ExpiresAt : Z;
  cl_StepUpAt : Z; cl_ApprovalActor : string; cl_ApprovalReason : string }.

(** The parts of a request that are read: its Authorization headers, its escaped
    path, and its query, raw and encoded again. *)
Record MgHTTP := mkMgHTTP {
  mh_Authorization : list string; mh_Method : string; mh_EscapedPath : string; mh_RawQuery : string; mh_Query : string }.

Definition canonicalRequestTarget (r : MgHTTP) : string :=
  if mh_RawQuery r == "" then mh_EscapedPath r else mh_EscapedPath r +:+ "?" +:+ mh_Query r.

Definition management_scope (scope : string) : bool :=
  (scope == "management:*") || existsb (HasPrefix scope)
    ["payment-links:"; "checkout:"; "webhooks:"; "credentials:"; "audit:"; "matching-policies:"].

Definition hasManagementScope (scopes : gmap string bool) : bool :=
  existsb (fun kv => kv.2 && management_scope kv.1) (map_to_list scopes).

Fixpoint scopes_ok (seen : list string) (scopes : list string) : bool :=
  match scopes with
  | [] => true
  | s :: rest => negb ((s == "") || (TrimSpace s != s) || existsb_str s seen) && scopes_ok (s :: seen) rest
  end.

Definition scope_set (scopes : list string) : gmap string bool := list_to_map (map (fun s => (s, true)) scopes).

Definition claims_ok (c : adminClaims) : bool :=
  let n := Z.of_nat (length (cl_Scopes c)) in
  negb (negb (ValidID (cl_JTI c)) || negb (ValidID (cl_TenantID c)) || negb (ValidID (cl_MerchantID c)) || negb (ValidID (cl_ActorID c))
        || (cl_SessionID c == "") || (len (cl_SessionID c) >? 255) || (n =? 0) || (n >? 32)).

Definition approval_ok (c : adminClaims) : bool :=
  if cl_ApprovalActor c != ""
  then negb (negb (ValidID (cl_ApprovalActor c)) || (cl_ApprovalActor c == cl_ActorID c) || (TrimSpace (cl_ApprovalReason c) == "")
             || (len (cl_ApprovalReason c) >? 1000))
  else cl_ApprovalReason c == "".

Section assertions.
(** SHA-256, HMAC-SHA256, the value of a JSON text, and the claims it decodes to
    when it has those fields and no others. *)
Context (sha256 : string -> string) (hmac : string -> string -> string) (json_tree : string -> option Outbox.JSON)
  (decode_claims : string -> option adminClaims).

Definition assertion_domain : string := "merchant-management-admin-v1.".

(** [validateUniqueJSON] *)
Definition validateUniqueJSON (raw : string) : bool := match json_tree raw with Some v => unique_keys v | None => false end.

(** [hasReplay]: a replay store is configured; [consume]: what it answers. *)
Definition authenticateAssertion (AssertionKey : string) (hasReplay : bool) (consume : string -> string -> Time -> result merr bool) (now : Time)
    (request : MgHTTP) (body compact : string) : result merr MgPrincipal :=
  let refused := Err (Sentinel MgErrUnauthenticated) in
  if negb (len AssertionKey =? 32) || negb hasReplay then Err (Sentinel MgErrDependency)
  else match Split compact dot with
  | [first; second] =>
      match b64_decode first with
      | None => refused
      | Some payload =>
          if (b64_encode payload != first) || (len payload >? 8192) then refused
          else match b64_decode second with
          | None => refused
          | Some provided =>
              if provided != hmac AssertionKey (assertion_domain +:+ payload) then refused
              else if negb (validateUniqueJSON payload) then refused
              else match decode_claims payload with
              | None => refused
              | Some c =>
                  if negb (claims_ok c) then refused
                  else if (cl_Audience c != "merchant-management-api") || (cl_Method c != mh_Method request)
                          || (cl_Target c != canonicalRequestTarget request) || (cl_BodySHA256 c != hex_encode (sha256 body))
                  then refused
                  else if negb (scopes_ok [] (cl_Scopes c)) then refused
                  else if negb (approval_ok c) then refused
                  else
                    let issued := time_Unix (cl_IssuedAt c) in
                    let expires := time_Unix (cl_ExpiresAt c) in
                    if After issued (AddTime now (15 * Second)) || Before now (AddTime issued (-15 * Second)) || negb (After expires now)
                       || (SubTime expires issued >? Minute)
                    then refused
                    else match consume (cl_JTI c) (cl_TenantID c) expires with
                         | Err _ => Err (Sentinel MgErrDependency)
                         | Ok false => refused
                         | Ok true =>
                             let scopes := scope_set (cl_Scopes c) in
                             if negb (hasManagementScope scopes) then Err (Sentinel MgErrForbidden)
                             else
                               let stepUp := if cl_StepUpAt c >? 0 then time_Unix (cl_StepUpAt c) else 0 in
                               if (cl_StepUpAt c >? 0) && After stepUp (AddTime now (15 * Second)) then refused
                               else Ok (mkMgPrincipal (cl_TenantID c) (cl_MerchantID c) (cl_ActorID c) (cl_SessionID c) "admin_assertion" scopes
                                          stepUp (cl_ApprovalActor c) (cl_ApprovalReason c))
                         end
              end
          end
      end
  | _ => refused
  end.

(** [Authenticate]: an assertion, or else a merchant key that has a scope of the
    management API. [merchant] is what the merchant authenticator says. *)
Definition MgAuthenticate (AssertionKey : string) (hasReplay : bool) (consume : string -> string -> Time -> result merr bool) (now : Time)
    (merchant : option Principal) (request : MgHTTP) (body : string) : result merr MgPrincipal :=
  let by_key :=
    match merchant with
    | None => Err (Sentinel MgErrUnauthenticated)
    | Some principal =>
        let scopes := filter (fun kv => kv.2 = true) (p_Scopes principal) in
        if negb (hasManagementScope scopes) then Err (Sentinel MgErrForbidden)
        else Ok (mkMgPrincipal (p_TenantID principal) (p_MerchantID principal) (p_ActorID principal) "" "management_key" scopes 0 "" "")
    end in
  match mh_Authorization request with
  | [] => by_key
  | [value] =>
      if HasPrefix value "ManagementAdmin "
      then authenticateAssertion AssertionKey hasReplay consume now request body (TrimPrefix value "ManagementAdmin ")
      else by_key
  | _ => Err (Sentinel MgErrUnauthenticated)
  end.

(** [payload]: the marshalled claims. *)
Definition SignAdminAssertion (payload : option string) (key : string) : result merr string :=
  if negb (len key =? 32) then Err (Plain "assertion key must be 32 bytes")
  else match payload with
       | None => Err (Plain "json")
       | Some payload => Ok (b64_encode payload +:+ "." +:+ b64_encode (hmac key (assertion_domain +:+ payload)))
       end.
End assertions.

(** ** Sealed secrets (crypto.go) *)

(** AES-256-GCM under a key: sealing with a nonce and associated data, and opening. *)
Record AEAD := mkAEAD {
  aead_NonceSize : Z; aead_Overhead : Z; aead_Seal : string -> string -> string -> string;
  aead_Open : string -> string -> string -> option string }.

Record AESGCMBox := mkAESGCMBox { bx_aead : AEAD; bx_prefix : string; bx_aad : string }.

(** [gcm]: the cipher of a key. *)
Definition newAESGCMBox (gcm : string -> AEAD) (key prefix purpose : string) : result string AESGCMBox :=
  if negb (len key =? 32) then Err "management envelope key must be exactly 32 bytes"
  else if (prefix == "") || (purpose == "") then Err "management envelope purpose is required"
  else Ok (mkAESGCMBox (gcm key) (prefix +:+ ":") purpose).

Definition NewWebhookSecretBox (gcm : string -> AEAD) (key : string) := newAESGCMBox gcm key "v2w" "merchant-platform/webhook-secret/v2".
Definition NewAPICredentialBox (gcm : string -> AEAD) (key : string) := newAESGCMBox gcm key "v2a" "merchant-platform/api-credential/v2".
Definition NewResponseBox (gcm : string -> AEAD) (key : string) := newAESGCMBox gcm key "v2r" "merchant-platform/management-response/v2".

Definition SealSecret (b : AESGCMBox) (nonce : option string) (plaintext : string) : result string string :=
  if len plaintext =? 0 then Err "management secret box unavailable"
  else match nonce with
       | None => Err "rand"
       | Some nonce => Ok (bx_prefix b +:+ b64_encode (nonce +:+ aead_Seal (bx_aead b) nonce plaintext (bx_aad b)))
       end.

Definition OpenSecret (b : AESGCMBox) (encoded : string) : result string string :=
  let invalid := Err "invalid management secret envelope" in
  if negb (HasPrefix encoded (bx_prefix b)) then invalid
  else match b64_decode (TrimPrefix encoded (bx_prefix b)) with
       | None => invalid
       | Some payload =>
           let n := aead_NonceSize (bx_aead b) in
           if len payload <=? n + aead_Overhead (bx_aead b) then invalid
           else match aead_Open (bx_aead b) (str_take (Z.to_nat n) payload) (str_drop (Z.to_nat n) payload) (bx_aad b) with
                | None => Err "management secret authentication failed"
                | Some plain => Ok plain
                end
       end.

(** ** Endpoint verification (verifier.go) *)

Section verifier.
Context (parse : string -> option HostedURL) (ToLower : string -> string) (ParseIP : string -> option IP)
  (LookupIPAddr : string -> option (list IP)) (decode_challenge : string -> option string).

Definition verifyChallengeResponse (status : Z) (body challenge : string) : result merr unit :=
  if (status <? 200) || (status >? 299) then Err (Plain "webhook challenge returned HTTP")
  else match decode_challenge body with
       | Some answered => if answered == challenge then Ok tt else Err (Plain "webhook challenge response mismatch")
       | None => Err (Plain "webhook challenge response mismatch")
       end.

(** [post]: the answer of the URL when connected to an address and a port, its
    body read up to 4097 bytes. *)
Definition VerifyEndpoint (post : IP -> string -> string -> string -> option (Z * option string)) (rawURL challenge : string) : result merr unit :=
  if negb (validateHTTPSURL parse ToLower ParseIP rawURL) || (len challenge <? 32) then Err (Sentinel MgErrInvalid)
  else match parse rawURL with
  | None => Err (Sentinel MgErrInvalid)
  | Some u =>
      match LookupIPAddr (hu_Hostname u) with
      | None | Some [] => Err (Wrapped MgErrDependency "resolve webhook endpoint")
      | Some (pinned :: rest) =>
          if negb (forallb publicIP (pinned :: rest)) then Err (Plain "webhook endpoint resolved to non-public address")
          else
            let port := if hu_Port u == "" then "443" else hu_Port u in
            match post pinned port rawURL challenge with
            | None => Err (Plain "verify webhook endpoint")
            | Some (_, None) => Err (Plain "webhook challenge response too large")
            | Some (status, Some body) =>
                if len body >? 4096 then Err (Plain "webhook challenge response too large") else verifyChallengeResponse status body challenge
            end
      end
  end.
End verifier.

(** ** What a payer is shown (payment_uri.go, postgres_links_checkout.go) *)

Definition hex_letter (c : ascii) : bool :=
  let z := code c in is_digit c || ((97 <=? z) && (z <=? 102)) || ((65 <=? z) && (z <=? 70)).
Definition base58_char (c : ascii) : bool :=
  let z := code c in
  ((49 <=? z) && (z <=? 57)) || ((65 <=? z) && (z <=? 72)) || ((74 <=? z) && (z <=? 78)) || ((80 <=? z) && (z <=? 90))
  || ((97 <=? z) && (z <=? 107)) || ((109 <=? z) && (z <=? 122)).
Definition base64url_char (c : ascii) : bool :=
  let z := code c in is_digit c || ((65 <=? z) && (z <=? 90)) || ((97 <=? z) && (z <=? 122)) || (z =? 95) || (z =? 45).

(** ^0x[0-9a-fA-F]{40}$ *)
Definition evmAddressPattern (s : string) : bool := HasPrefix s "0x" && (len s =? 42) && str_forall hex_letter (str_drop 2 s).
(** ^eip155:([1-9][0-9]{0,17})$: the group, when it matches *)
Definition evmChainPattern (s : string) : option string :=
  let number := TrimPrefix s "eip155:" in
  if HasPrefix s "eip155:" && (1 <=? len number) && (len number <=? 18) && canonical_uint number && (number != "0") then Some number else None.
(** ^[1-9A-HJ-NP-Za-km-z]{32,44}$ *)
Definition solanaAddressPattern (s : string) : bool := (32 <=? len s) && (len s <=? 44) && str_forall base58_char s.
(** ^(?:[A-Za-z0-9_-]{48}|-?[0-9]:[0-9a-fA-F]{64})$ *)
Definition tonAddressPattern (s : string) : bool :=
  (len s =? 48) && str_forall base64url_char s
  || match TrimPrefix s "-" with
     | String d (String c rest) => is_digit d && Ascii.eqb c (chr 58) && (len rest =? 64) && str_forall hex_letter rest
     | _ => false
     end.

(** [url.PathEscape] *)
Fixpoint PathEscape (s : string) : string :=
  match s with
  | EmptyString => ""
  | String c r =>
      if isUnreserved (code c) || existsb (Z.eqb (code c)) [36; 38; 43; 58; 61; 64] then String c (PathEscape r)
      else String percent (String (upper_hex_digit (code c / 16)) (String (upper_hex_digit (code c mod 16)) (PathEscape r)))
  end.

(** The payer's amount: no trailing zeros. *)
Definition formatAtomicCheckoutAmount (value : Z) (decimals : Z) : string :=
  let digits := dec_string value in
  if decimals =? 0 then digits
  else
    let digits := if len digits <=? decimals then Repeat "0" (Z.to_nat (decimals - len digits + 1)) +:+ digits else digits in
    let cut := Z.to_nat (len digits - decimals) in
    let whole := str_take cut digits in
    let fraction := TrimRightZeros (str_drop cut digits) in
    if fraction == "" then whole else whole +:+ "." +:+ fraction.

Definition paymentURI (family chainID assetKind contract recipient : string) (amount : option Z) (decimals : Z) : string :=
  match amount with
  | None => ""
  | Some amount =>
      if (amount <=? 0) || (decimals <? 0) then ""
      else if family == "evm" then
        match evmChainPattern chainID with
        | None => ""
        | Some chain =>
            if negb (evmAddressPattern recipient) then ""
            else if assetKind == "native" then "ethereum:" +:+ recipient +:+ "@" +:+ chain +:+ "?value=" +:+ dec_string amount
            else if assetKind == "fungible_token" then
              if negb (evmAddressPattern contract) then ""
              else "ethereum:" +:+ contract +:+ "@" +:+ chain +:+ "/transfer?address=" +:+ recipient +:+ "&uint256=" +:+ dec_string amount
            else ""
        end
      else if family == "solana" then
        if (chainID != "solana:mainnet") || negb (solanaAddressPattern recipient) then ""
        else
          let link := "solana:" +:+ recipient +:+ "?amount=" +:+ formatAtomicCheckoutAmount amount decimals in
          if assetKind == "native" then link
          else if assetKind == "fungible_token" then if negb (solanaAddressPattern contract) then "" else link +:+ "&spl-token=" +:+ contract
          else ""
      else if family == "ton" then
        if (chainID != "ton:mainnet") || (assetKind != "native") || negb (tonAddressPattern recipient) then ""
        else "ton://transfer/" +:+ PathEscape recipient +:+ "?amount=" +:+ dec_string amount
      else ""
  end.

Definition routeAcceptsTransfer (routeStatus publicStatus : string) (received topUpAllowed : bool) (deadline now : Time) : bool :=
  if (routeStatus != "active") || negb (After deadline now) then false
  else topUpAllowed || ((publicStatus == "pending") && negb received).

Definition paymentURIAmount (expectedRaw receivedRaw : string) : option Z :=
  match big_SetString10 (TrimSpace expectedRaw) with
  | None => None
  | Some expected =>
      if expected <=? 0 then None
      else match big_SetString10 (TrimSpace receivedRaw) with
           | None => Some expected
           | Some received =>
               if received <=? 0 then Some expected
               else let remainder := expected - received in if remainder <=? 0 then None else Some remainder
           end
  end.

Definition checkoutPaymentProgress (expectedRaw receivedRaw : string) (decimals : Z) : string * string * bool :=
  if decimals <? 0 then ("", "", false)
  else match big_SetString10 expectedRaw, big_SetString10 receivedRaw with
  | Some expected, Some received =>
      if (expected <=? 0) || (received <=? 0) then ("", "", false)
      else
        let remainder := if expected - received <? 0 then 0 else expected - received in
        (formatAtomicCheckoutAmount received decimals, formatAtomicCheckoutAmount remainder decimals, remainder >? 0)
  | _, _ => ("", "", false)
  end.

Definition publicCheckoutStatus (status : string) (expires now : Time) : string :=
  if negb (After expires now) && (status != "settled") && (status != "overpaid") && (status != "needs_review") && (status != "reorg_review")
  then "expired"
  else if existsb_str status ["settled"; "overpaid"] then "settled"
  else if status == "partially_paid" then "partially_paid"
  else if status == "observed" then "detected"
  else if status == "confirmed" then "confirming"
  else if existsb_str status ["needs_review"; "reorg_review"] then "needs_review"
  else if existsb_str status ["expired"; "cancelled"; "reversed"] then "expired"
  else "pending".

Definition admittedCheckoutPaymentURL (parse : string -> option HostedURL) (value : string) (origins : list string) : bool :=
  match parse value with
  | None => false
  | Some u =>
      if (hu_Scheme u != "https") || (hu_Host u == "") || hu_HasUser u || (hu_Fragment u != "") then false
      else existsb_str (hu_Scheme u +:+ "://" +:+ hu_Host u) origins
  end.

Definition checkoutOriginAllowed (audience allowed provided : string) : bool :=
  if audience == "embedded_checkout" then (provided != "") && (provided == allowed) else (provided == "") || (provided == allowed).

(** A row of the routes of an intent, as it is read. *)
Record route_row := mkRouteRow {
  rr_route : PayerRoute; rr_admittedOrigins : list string; rr_expectedAtomic : string; rr_assetDecimals : Z;
  rr_receivedAtomic : string; rr_accumulatesPartials : bool; rr_collectionDeadline : Time; rr_chainFamily : string;
  rr_assetKind : string; rr_assetContract : string; rr_routeStatus : string; rr_networkName : string; rr_assetSymbol : string }.

(** The route as the payer sees it. *)
Definition payer_route (parse : string -> option HostedURL) (status : string) (now : Time) (row : route_row) : result string PayerRoute :=
  let route := rr_route row in
  let address := DisplayAddress (ct_Network route) (ct_Address route) in
  let '(received, remaining, amountRemaining) := checkoutPaymentProgress (rr_expectedAtomic row) (rr_receivedAtomic row) (rr_assetDecimals row) in
  let topUp := (received != "") && ((status == "partially_paid") && (ct_Provider route == "on_chain") && rr_accumulatesPartials row
                                    && amountRemaining && After (rr_collectionDeadline row) now) in
  let onChain := ct_Provider route == "on_chain" in
  let uri :=
    if onChain && routeAcceptsTransfer (rr_routeStatus row) status (received != "") topUp (rr_collectionDeadline row) now
    then paymentURI (rr_chainFamily row) (ct_Network route) (rr_assetKind row) (rr_assetContract row) address
           (paymentURIAmount (rr_expectedAtomic row) (rr_receivedAtomic row)) (rr_assetDecimals row)
    else ct_PaymentURI route in
  if (ct_Provider route == "hosted_gateway") && negb (admittedCheckoutPaymentURL parse (ct_PaymentURL route) (rr_admittedOrigins row))
  then Err "hosted checkout payment URL is not admitted"
  else Ok (mkPayerRoute (ct_ID route) (ct_Provider route) (ct_ProviderID route) (ct_Network route)
             (if onChain then rr_networkName row else ct_NetworkName route) (ct_Asset route)
             (if onChain then rr_assetSymbol row else ct_AssetSymbol route) (ct_Amount route) received remaining (ct_PaymentCount route)
             (if received != "" then Some topUp else ct_TopUpAllowed route) address (ct_PaymentURL route) uri (ct_TransactionHash route)
             (if HasPrefix (ct_ExplorerURL route) "https://" then ct_ExplorerURL route else "")
             (if onChain then Some (rr_collectionDeadline row) else ct_ExpiresAt route)).

(** The state of a hosted link's preparation must agree with the routes; the
    result is the status shown. *)
Definition hosted_job_status (state status selected : string) (routes : list PayerRoute) : result string string :=
  let none := bool_decide (routes = []) && (selected == "") in
  if state == "preparing" then
    if none then Ok "preparing_payment_route" else Err "hosted payment-link preparation has an unexpected route"
  else if state == "terminal" then
    if none then Ok "payment_route_failed" else Err "terminal hosted payment-link preparation has an unexpected route"
  else if state == "bound" then
    match routes with
    | [r] => if (selected == "") || (selected != ct_ID r) then Err "bound hosted payment-link preparation is missing its selected route" else Ok status
    | _ => Err "bound hosted payment-link preparation is missing its selected route"
    end
  else if state == "" then Ok status
  else Err "invalid hosted payment-link preparation state".

Definition unmanagedAPIKeyStatus (validFrom : Time) (validUntil revokedAt : option Time) (now : Time) : string :=
  if (match revokedAt with Some _ => true | None => false end) || After validFrom now
     || match validUntil with Some t => negb (After t now) | None => false end
  then "revoked" else "current".
