(* ===== verification/ManagementRuns.v ===== *)
(** * ManagementRuns: runs of merchant management

    An approval carries out exactly the request it approves; capabilities, sealed
    secrets and assertions belong to what they were made for; a payer is asked for
    exactly what is missing; and three places where the service does not do what
    it means to. *)

From Stdlib Require Import ZArith Lia Ascii String.
From stdpp Require Import base gmap list strings.
From S2P Require Import Prelude Text Numerals Money Domain Encoding Auth Webhook Legacy LegacyGateway Hosted HostedFacts Management ManagementFacts ManagementEdges.
From S2P Require Outbox.

(** ** Approvals *)

Section approvals.
Context (answer : history -> forall A, Effect A -> result merr A) (sha256 : string -> string) (now : nat -> Time).

(** The change an action asks for, carried out by its requester with the
    approver's consent. *)
Definition mutation_of (operation : string) (execution : MgPrincipal) (action : ManagementActionRequest) : any_effect :=
  let idem := actionMutationIdempotency sha256 operation action in
  if operation == actionDisableWebhook
  then AnyEffect (DisableWebhookEndpointE execution (ma_ResourceID action) (ma_ResourceVersion action) (ma_RequestReason action) idem)
  else AnyEffect (RevokeAPIClientE execution (ma_ResourceID action) (ma_ResourceVersion action) (ma_RequestReason action) idem).

(** Whether an effect was answered with success after a history. *)
Definition succeeded (h : history) (e : any_effect) : Prop := match e with @AnyEffect A e => exists a, answer h A e = Ok a end.

Lemma execute_cases operation scope kind execution action h : actionScope operation = Some (scope, kind) ->
  let '(h', r) := execute_action answer sha256 now operation execution action h in
  (h' = h /\ exists e, r = Err e) \/
  (h' = h ++ [mutation_of operation execution action] /\ (r = Ok tt <-> succeeded h (mutation_of operation execution action)) /\
   exists u, requireFourEyes (now 2) execution scope (ma_RequestReason action) = Ok u).
Proof.
  unfold actionScope, execute_action, mutation_of. intros Hs. cbv zeta.
  destruct (operation == actionDisableWebhook) eqn:E1; [injection Hs as <- <-|].
  - unfold void, DisableWebhookEndpoint, mbind, Mgmt_bind, lift, unless.
    destruct (requireFourEyes (now 2) execution "webhooks:disable" (ma_RequestReason action)) as [u|e] eqn:Ef; [|left; split; [done|by exists e]].
    destruct (_ || _); [left; split; [done|by eexists]|]. unfold mret, Mgmt_ret, invoke.
    destruct (answer h _ _) as [a|e] eqn:Ea; right; (split; [done|]; split; [|by exists u]); split; try done; [by exists a|intros [b Hb]; cbn in *; congruence].
  - destruct (operation == actionRevokeClient) eqn:E2; [injection Hs as <- <-|done].
    unfold void, RevokeAPIClient, mbind, Mgmt_bind, lift, unless.
    destruct (requireFourEyes (now 2) execution "credentials:revoke" (ma_RequestReason action)) as [u|e] eqn:Ef; [|left; split; [done|by exists e]].
    destruct (_ || _); [left; split; [done|by eexists]|]. unfold mret, Mgmt_ret, invoke.
    destruct (answer h _ _) as [a|e] eqn:Ea; right; (split; [done|]; split; [|by exists u]); split; try done; [by exists a|intros [b Hb]; cbn in *; congruence].
Qed.

(** What can have happened once an approval claimed its action. *)
Inductive approval_run (approver : MgPrincipal) (operation scope reason lease : string) (action : ManagementActionRequest) (before : history)
    : history -> bool -> Prop :=
| run_refused : approval_run approver operation scope reason lease action before [] false
| run_recorded code t : approval_run approver operation scope reason lease action before
    [AnyEffect (CompleteManagementActionE approver (ma_ID action) lease false code t)] false
| run_interrupted (mutation := mutation_of operation (execution_principal approver scope reason action) action) :
    ma_RequestedBy action <> gp_ActorID approver -> ~ succeeded before mutation ->
    approval_run approver operation scope reason lease action before [mutation] false
| run_failed code t (mutation := mutation_of operation (execution_principal approver scope reason action) action) :
    ma_RequestedBy action <> gp_ActorID approver -> ~ succeeded before mutation ->
    approval_run approver operation scope reason lease action before
      [mutation; AnyEffect (CompleteManagementActionE approver (ma_ID action) lease false code t)] false
| run_done t ok (mutation := mutation_of operation (execution_principal approver scope reason action) action) :
    ma_RequestedBy action <> gp_ActorID approver -> succeeded before mutation ->
    approval_run approver operation scope reason lease action before
      [mutation; AnyEffect (CompleteManagementActionE approver (ma_ID action) lease true "" t)] ok.

(** C34: An approval carries out the request it approves and nothing else: after
    the claim there is at most one change, of the resource and at the version
    the request named, in the name of its requester, who is not the approver; it
    is recorded as done exactly when it was answered with success, and the
    approval succeeds only then or when the action was completed before. *)
Theorem approval_carries_out_request newID approver operation id reason hash h h' r :
  ApproveManagementAction answer sha256 now newID approver operation id reason hash h = (h', r) ->
  h' = h \/
  exists lease scope kind, actionScope operation = Some (scope, kind) /\ newID = Some lease /\
    let claim := ClaimManagementActionE approver operation id lease (TrimSpace reason) hash (now 1) in
    let claimed := h ++ [AnyEffect claim] in
    (h' = claimed /\ forall a, r = Ok a -> answer h _ claim = Ok a /\ a.2 = true /\ ma_Status a.1 = "completed") \/
    exists action replay t ok, answer h _ claim = Ok (action, replay) /\ ma_ApprovalReason action = TrimSpace reason /\ h' = claimed ++ t /\
      approval_run approver operation scope (TrimSpace reason) lease action claimed t ok /\ (forall a, r = Ok a -> ok = true).
Proof.
  unfold ApproveManagementAction. destruct (actionScope operation) as [[scope kind]|] eqn:Es; [|intros [= <- _]; by left].
  unfold mbind, Mgmt_bind, lift, unless, refuse, mret, Mgmt_ret. destruct (negb (ValidID id)); [intros [= <- _]; by left|].
  destruct (requireStepUp (now 0) approver scope) as [u|]; [|intros [= <- _]; by left]. cbv zeta.
  destruct (_ || _) ; [intros [= <- _]; by left|]. destruct newID as [lease|]; [|intros [= <- _]; by left].
  unfold invoke at 1. destruct (answer h _ _) as [[action replay]|e] eqn:Ec.
  2:{ intros [= <- <-]. right. exists lease, scope, kind. split_and!; try done. by left. }
  intros H. right. exists lease, scope, kind. split; [done|]. split; [done|]. cbv zeta.
  destruct (replay && (ma_Status action == "completed")) eqn:Er.
  { injection H as <- <-. bool_hyp. left. split; [done|]. intros a [= <-]. by subst. }
  destruct (ma_ApprovalReason action != TrimSpace reason) eqn:Ea; [injection H as <- <-; by left|].
  right. apply negb_false_iff, String.eqb_eq in Ea. set (claimed := h ++ _) in *. set (execution := execution_principal _ _ _ _) in *.
  pose proof (execute_cases operation scope kind execution action claimed Es) as Hx.
  destruct (execute_action answer sha256 now operation execution action claimed) as [h1 [[]|e]] eqn:Ee.
  - destruct Hx as [[_ [? ?]]|(-> & Hok & u' & Hfour)]; [done|]. apply requireFourEyes_ok in Hfour as (_ & _ & _ & Hne & _ & _).
    assert (ma_RequestedBy action <> gp_ActorID approver) as Hp by (intros E; apply Hne; symmetry; exact E).
    pose proof (run_done approver operation scope (TrimSpace reason) lease action claimed (now 3) true Hp (proj1 Hok eq_refl)) as Hrun.
    unfold invoke in H. exists action, replay. eexists. exists true. split; [done|]. split; [done|].
    destruct (answer _ _ _) in H; injection H as <- <-; rewrite <- app_assoc; by split_and!.
  - destruct Hx as [[-> _]|(-> & Hok & u' & Hfour)].
    + unfold invoke in H. destruct (final_failure e).
      * exists action, replay, [AnyEffect (CompleteManagementActionE approver (ma_ID action) lease false (actionFailureCode e) (now 3))], false.
        split; [done|]. split; [done|]. destruct (answer _ _ _) in H; injection H as <- <-; (split_and!; [done|constructor|done]).
      * injection H as <- <-. exists action, replay, [], false. rewrite app_nil_r. split_and!; try done. constructor.
    + apply requireFourEyes_ok in Hfour as (_ & _ & _ & Hne & _ & _).
      assert (ma_RequestedBy action <> gp_ActorID approver) as Hp by (intros E; apply Hne; symmetry; exact E).
      assert (~ succeeded claimed (mutation_of operation execution action)) as Hno by (intros Hs%Hok; done).
      unfold invoke in H. destruct (final_failure e).
      * pose proof (run_failed approver operation scope (TrimSpace reason) lease action claimed (actionFailureCode e) (now 3) Hp Hno) as Hrun.
        exists action, replay. eexists. exists false. split; [done|]. split; [done|].
        destruct (answer _ _ _) in H; injection H as <- <-; rewrite <- app_assoc; by split_and!.
      * pose proof (run_interrupted approver operation scope (TrimSpace reason) lease action claimed Hp Hno) as Hrun.
        injection H as <- <-. exists action, replay. eexists. exists false. by split_and!.
Qed.

(** An approval in time can still destroy the request: when the requester's
    own confirmation is more than ten minutes old by then, which a request that
    lives ten minutes allows, the approved change is not made and the action is
    closed as failed for good. *)
Theorem late_approval_fails lease approver operation scope kind id reason hash h action :
  actionScope operation = Some (scope, kind) -> ValidID id = true -> requireStepUp (now 0) approver scope = Ok tt ->
  TrimSpace reason <> "" -> len (TrimSpace reason) <= 1000 -> gp_AuthMethod approver = "admin_assertion" ->
  let claim := ClaimManagementActionE approver operation id lease (TrimSpace reason) hash (now 1) in
  answer h _ claim = Ok (action, false) -> ma_ApprovalReason action = TrimSpace reason -> ValidID (ma_RequestedBy action) = true ->
  10 * Minute < SubTime (now 2) (ma_RequestedStepUpAt action) ->
  exists e, ApproveManagementAction answer sha256 now (Some lease) approver operation id reason hash h =
    (h ++ [AnyEffect claim] ++ [AnyEffect (CompleteManagementActionE approver (ma_ID action) lease false "authorization_changed" (now 3))], Err e).
Proof.
  intros Hs Hid Hstep Hr Hl Ham claim Hc Ha Hby Hold. set (execution := execution_principal approver scope (TrimSpace reason) action).
  assert (Hfour : forall why, requireFourEyes (now 2) execution scope why = Err (Sentinel MgErrForbidden)).
  { intros why. apply requireStepUp_ok in Hstep as [[Hauth _] _].
    assert (authenticated execution = true) as He.
    { unfold authenticated in *. cbn [gp_TenantID gp_MerchantID gp_ActorID execution execution_principal]. apply negb_true_iff in Hauth. bool_hyp.
      assert (ma_RequestedBy action <> "") as Hne by (intros E; rewrite E in Hby; vm_compute in Hby; discriminate Hby).
      apply negb_true_iff. repeat (apply orb_false_iff; split); try (by apply String.eqb_neq); by apply negb_false_iff. }
    assert (Has execution scope = true) as Hh by (unfold Has; cbn; by rewrite lookup_singleton_eq).
    unfold requireFourEyes, requireStepUp, mg_require. rewrite He, Hh. cbn [negb mbind result_bind].
    assert (SubTime (now 2) (gp_StepUpAt execution) >? 10 * Minute = true) as -> by (apply Z.gtb_lt; exact Hold).
    by rewrite !orb_true_r. }
  assert (Hex : execute_action answer sha256 now operation execution action (h ++ [AnyEffect claim]) = (h ++ [AnyEffect claim], Err (Sentinel MgErrForbidden))).
  { unfold execute_action. cbv zeta. unfold actionScope in Hs. unfold void, DisableWebhookEndpoint, RevokeAPIClient, mbind, Mgmt_bind, lift.
    destruct (operation == actionDisableWebhook); [injection Hs as <- <-; by rewrite Hfour|].
    destruct (operation == actionRevokeClient); [injection Hs as <- <-; by rewrite Hfour|done]. }
  unfold ApproveManagementAction. rewrite Hs. unfold mbind, Mgmt_bind, lift, unless, refuse, mret, Mgmt_ret. rewrite Hid. cbn [negb]. rewrite Hstep. cbv zeta.
  assert ((TrimSpace reason == "") || (len (TrimSpace reason) >? 1000) || (gp_AuthMethod approver != "admin_assertion") = false) as ->.
  { apply String.eqb_neq in Hr. rewrite Hr, Ham, String.eqb_refl, Z.gtb_ltb. cbn [orb negb]. rewrite orb_false_r. by apply Z.ltb_ge. }
  unfold invoke at 1. fold claim. rewrite Hc. cbn [andb]. rewrite Ha, String.eqb_refl. cbn [negb]. fold execution. rewrite Hex.
  change (final_failure (Sentinel MgErrForbidden)) with true. change (actionFailureCode (Sentinel MgErrForbidden)) with "authorization_changed". unfold invoke.
  rewrite <- app_assoc. match goal with |- context [match ?x with Ok _ => _ | Err _ => _ end] => destruct x end; by eexists.
Qed.
End approvals.

(** ** Capabilities, secrets and assertions *)

(** A public token has one text and opens one thing: it is accepted exactly
    when it is what was issued for some 32 random bytes, under the digest that was
    stored, and never under another prefix. *)
Theorem opaque_token_canonical sha256 prefix value r :
  parseOpaque sha256 prefix value = Ok r <-> exists raw, len raw = 32 /\ randomOpaque sha256 prefix (Some raw) = Ok r /\ fst r = value.
Proof.
  unfold parseOpaque, randomOpaque, randomString. cbn [mbind result_bind]. split.
  - destruct (negb _); [done|]. destruct (b64_decode _) as [raw|]; [|done]. destruct (_ || _) eqn:E; [done|]. intros [= <-]. bool_hyp.
    subst. exists raw. by split_and!.
  - intros (raw & Hl & [= <-] & Hv). cbn [fst] in Hv. subst value.
    by rewrite HasPrefix_app, TrimPrefix_app, b64_roundtrip, Hl, String.eqb_refl.
Qed.

Section secrets.
Context (gcm : string -> AEAD).

(** What AES-GCM promises: a nonce of its size opens what it sealed, and sealing
    adds the overhead. *)
Definition aead_laws (a : AEAD) : Prop :=
  0 <= aead_NonceSize a /\ 0 <= aead_Overhead a /\
  forall nonce plain aad, len nonce = aead_NonceSize a ->
    aead_Open a nonce (aead_Seal a nonce plain aad) aad = Some plain /\ len (aead_Seal a nonce plain aad) = len plain + aead_Overhead a.

(** A sealed secret is opened again by the box that sealed it, and by no box
    for another purpose, whatever its key. *)
Theorem sealed_secret_opens_once key key' nonce plain box other sealed :
  NewWebhookSecretBox gcm key = Ok box -> NewAPICredentialBox gcm key' = Ok other -> aead_laws (gcm key) ->
  len nonce = aead_NonceSize (gcm key) -> SealSecret box (Some nonce) plain = Ok sealed ->
  OpenSecret box sealed = Ok plain /\ is_ok (OpenSecret other sealed) = false.
Proof.
  unfold NewWebhookSecretBox, NewAPICredentialBox, newAESGCMBox. intros Hb Ho (Hn0 & Hv0 & Hlaw) Hn Hs.
  destruct (negb (len key =? 32)); [done|]. destruct (negb (len key' =? 32)); [done|]. cbn in Hb, Ho. injection Hb as <-. injection Ho as <-.
  unfold SealSecret in Hs. cbn [bx_prefix bx_aead bx_aad] in Hs. destruct (len plain =? 0) eqn:Ep; [done|]. bool_hyp.
  assert (sealed = "v2w:" +:+ b64_encode (nonce +:+ aead_Seal (gcm key) nonce plain "merchant-platform/webhook-secret/v2")) as -> by congruence.
  destruct (Hlaw nonce plain "merchant-platform/webhook-secret/v2" Hn) as [Hopen Hlen]. pose proof (len_nonneg plain). split.
  - unfold OpenSecret. cbn [bx_prefix bx_aead bx_aad]. rewrite HasPrefix_app, TrimPrefix_app, b64_roundtrip. cbn [negb]. cbv zeta. rewrite len_app, Hlen, Hn.
    assert (_ <=? _ = false) as ->; [apply Z.leb_gt; lia|].
    assert (Z.to_nat (aead_NonceSize (gcm key)) = String.length nonce) as -> by (rewrite <- Hn; unfold len; lia).
    rewrite str_take_app, str_drop_app. by rewrite Hopen.
  - unfold OpenSecret. cbn [bx_prefix]. done.
Qed.
End secrets.

Section assertions.
Context (sha256 : string -> string) (hmac : string -> string -> string) (json_tree : string -> option Outbox.JSON)
  (decode_claims : string -> option adminClaims) (AssertionKey : string) (consume : string -> string -> Time -> result merr bool) (now : Time).

Lemma scope_set_lookup scopes s : scope_set scopes !! s = Some true <-> In s scopes.
Proof.
  unfold scope_set. rewrite <- elem_of_list_to_map'.
  - rewrite list_elem_of_In, in_map_iff. split; [intros (x & [= ->] & H); exact H|intros H; by exists s].
  - intros x _ Hx%list_elem_of_In. apply in_map_iff in Hx as (? & Hp & _). congruence.
Qed.

(** Everything an accepted assertion has passed. *)
Record asserted (request : MgHTTP) (body compact : string) (p : MgPrincipal) (payload : string) (c : adminClaims) : Prop := {
  as_signed : exists second, Split compact dot = [b64_encode payload; second] /\ b64_decode second = Some (hmac AssertionKey (assertion_domain +:+ payload));
  as_claims : decode_claims payload = Some c;
  as_request : cl_Method c = mh_Method request /\ cl_Target c = canonicalRequestTarget request /\ cl_BodySHA256 c = hex_encode (sha256 body);
  as_time : time_Unix (cl_IssuedAt c) <= now + 15 * Second /\ now < time_Unix (cl_ExpiresAt c) /\
            SubTime (time_Unix (cl_ExpiresAt c)) (time_Unix (cl_IssuedAt c)) <= Minute;
  as_fresh : consume (cl_JTI c) (cl_TenantID c) (time_Unix (cl_ExpiresAt c)) = Ok true;
  as_principal : gp_TenantID p = cl_TenantID c /\ gp_MerchantID p = cl_MerchantID c /\ gp_ActorID p = cl_ActorID c /\
                 gp_AuthMethod p = "admin_assertion" /\ gp_ApprovalActor p = cl_ApprovalActor c /\
                 (gp_StepUpAt p = 0 \/ gp_StepUpAt p <= now + 15 * Second);
  as_scopes : (forall s, gp_Scopes p !! s = Some true <-> In s (cl_Scopes c)) /\ NoDup (cl_Scopes c);
  as_approval : gp_ApprovalActor p <> "" -> gp_ApprovalActor p <> gp_ActorID p /\ TrimSpace (gp_ApprovalReason p) <> "" }.

Lemma scopes_ok_NoDup seen scopes : scopes_ok seen scopes = true -> NoDup scopes /\ forall s, In s scopes -> ~ In s seen.
Proof.
  revert seen. induction scopes as [|s scopes IH]; intros seen; cbn [scopes_ok]; [intros _; split; [constructor|intros ? []]|].
  intros [Hs Hr]%andb_true_iff. apply negb_true_iff in Hs. bool_hyp. destruct (IH _ Hr) as [Hn Hd]. split.
  - constructor; [|done]. intros Hin%list_elem_of_In. by apply (Hd s Hin); left.
  - intros x [<-|Hx] Hseen; [|by apply (Hd x Hx); right]. match goal with H : existsb_str _ _ = false |- _ => by rewrite (proj2 (existsb_str_In _ _) Hseen) in H end.
Qed.

(** C35: An assertion is accepted only for the request it was signed for: under the
    shared key, for this method, target and body, within a minute of its making
    and once by the replay store; the principal is the one it names, with exactly
    the scopes it lists, and an approval in it is by someone else. *)
Theorem assertion_binds_request request body compact p :
  authenticateAssertion sha256 hmac json_tree decode_claims AssertionKey true consume now request body compact = Ok p ->
  exists payload c, asserted request body compact p payload c.
Proof.
  unfold authenticateAssertion. cbv zeta. intros H.
  destruct (_ || _) in H; [done|]. destruct (Split compact dot) as [|first [|second [|]]] eqn:Es; try done.
  destruct (b64_decode first) as [payload|] eqn:E1; [|done]. destruct (_ || _) eqn:E2 in H; [done|].
  destruct (b64_decode second) as [provided|] eqn:E3; [|done]. destruct (provided != _) eqn:E4 in H; [done|]. destruct (negb (validateUniqueJSON _ _)) in H; [done|].
  destruct (decode_claims payload) as [c|] eqn:Ec; [|done]. destruct (negb (claims_ok c)) eqn:E5 in H; [done|]. destruct (_ || _) eqn:E6 in H; [done|].
  destruct (negb (scopes_ok _ _)) eqn:E7 in H; [done|]. destruct (negb (approval_ok c)) eqn:E8 in H; [done|]. destruct (_ || _) eqn:E9 in H; [done|].
  destruct (consume _ _ _) as [[]|] eqn:E10; try done. destruct (negb (hasManagementScope _)) in H; [done|].
  destruct (_ && _) eqn:E11 in H; [done|]. injection H as <-. exists payload, c.
  unfold After, Before, AddTime in *. apply negb_false_iff in E7, E8. apply scopes_ok_NoDup in E7 as [Hn _]. bool_hyp. subst.
  constructor; cbn [gp_TenantID gp_MerchantID gp_ActorID gp_AuthMethod gp_ApprovalActor gp_StepUpAt gp_Scopes gp_ApprovalReason]; try done.
  - exists second. by rewrite E3.
  - split_and!; try done. destruct (cl_StepUpAt c >? 0) eqn:Eu; [right; cbn [andb] in E11; bool_hyp; lia|by left].
  - split; [apply scope_set_lookup|done].
  - intros Ha. unfold approval_ok in E8. apply String.eqb_neq in Ha. rewrite Ha in E8. cbn [negb] in E8. apply negb_true_iff in E8. by bool_hyp.
Qed.
End assertions.

(** ** What the payer is asked for *)

Lemma checkout_amount_reads_back value decimals : 0 < value < amount_limit -> 0 <= decimals <= 255 ->
  ParseDecimal (formatAtomicCheckoutAmount value decimals) decimals = Ok value.
Proof.
  intros Ha Hd. apply ParseDecimal_iff; [done|]. split; [|done]. unfold formatAtomicCheckoutAmount. cbv zeta.
  pose proof (dec_string_canonical value ltac:(lia)) as Hc. destruct (decimals =? 0) eqn:E0; bool_hyp.
  { subst. exists (dec_string value), "". rewrite str_app_nil_r, dec_string_value by lia. split_and!; try done. change (10 ^ (0 - len "")) with 1. lia. }
  set (k := if len (dec_string value) <=? decimals then decimals - len (dec_string value) + 1 else 0).
  assert ((if len (dec_string value) <=? decimals then Repeat "0" (Z.to_nat (decimals - len (dec_string value) + 1)) +:+ dec_string value
           else dec_string value) = zeros k +:+ dec_string value) as ->.
  { unfold k. by destruct (_ <=? _). }
  assert (0 <= k /\ (k = 0 /\ decimals < len (dec_string value) \/ k + len (dec_string value) = decimals + 1)) as [Hk Hcase].
  { unfold k. destruct (_ <=? _) eqn:E; bool_hyp; lia. }
  destruct (cut_amount k value decimals) as (Hw & Hf & Hl & Hv); [lia|lia|done|done|]. cbv zeta in *.
  set (s := zeros k +:+ dec_string value) in *. set (w := str_take _ s) in *. set (f := str_drop _ s) in *.
  destruct (TrimRightZeros_split f) as (n & Hn & E). set (f0 := TrimRightZeros f) in *.
  assert (str_forall is_digit f0 = true) as Hf0 by (rewrite E, str_forall_app in Hf; by bool_hyp).
  assert (len f0 + n = decimals) as Hlen by (rewrite <- Hl, E, len_app, len_zeros by done; lia).
  exists w, f0. split; [done|]. split; [done|]. split; [lia|]. split; [unfold decimal_text; by destruct (f0 == "")|].
  rewrite <- Hv, E, <- str_app_assoc, dec_value_app, zeros_value, len_zeros by done. rewrite <- Hlen. replace (len f0 + n - len f0) with n by lia. lia.
Qed.

(** What was received of a route, as far as it is a positive number. *)
Definition received_so_far (receivedRaw : string) : Z := Z.max 0 (default 0 (big_SetString10 (TrimSpace receivedRaw))).

Lemma paymentURIAmount_ok expectedRaw receivedRaw amount : paymentURIAmount expectedRaw receivedRaw = Some amount ->
  exists expected, big_SetString10 (TrimSpace expectedRaw) = Some expected /\ 0 < expected /\
    amount = expected - received_so_far receivedRaw /\ 0 < amount.
Proof.
  unfold paymentURIAmount, received_so_far. destruct (big_SetString10 (TrimSpace expectedRaw)) as [expected|]; [|done].
  destruct (expected <=? 0) eqn:E1; [done|]. bool_hyp. destruct (big_SetString10 (TrimSpace receivedRaw)) as [received|]; cbn [default from_option id].
  - destruct (received <=? 0) eqn:E2; bool_hyp; [intros [= <-]; exists expected; split_and!; (done || lia)|].
    cbv zeta. destruct (expected - received <=? 0) eqn:E3; [done|]. intros [= <-]. bool_hyp. exists expected. split_and!; (done || lia).
  - intros [= <-]. exists expected. split_and!; (done || lia).
Qed.

(** C36: A payer is asked for exactly what is missing, and only while it can be
    paid: a wallet link is shown only for an on-chain route that is active and
    before its deadline, either untouched or open to a top-up. It asks for the whole
    expected amount when nothing was received (no positive number is recorded), and
    otherwise for the expected amount less what was received, which is positive. *)
Theorem payer_asked_for_remainder parse status now row route :
  payer_route parse status now row = Ok route -> ct_PaymentURI (rr_route row) = "" -> ct_PaymentURI route <> "" ->
  exists amount expected,
    ct_PaymentURI route = paymentURI (rr_chainFamily row) (ct_Network route) (rr_assetKind row) (rr_assetContract row) (ct_Address route)
                            (Some amount) (rr_assetDecimals row) /\
    big_SetString10 (TrimSpace (rr_expectedAtomic row)) = Some expected /\ 0 < expected /\
    amount = expected - received_so_far (rr_receivedAtomic row) /\ 0 < amount /\
    (forall received, big_SetString10 (TrimSpace (rr_receivedAtomic row)) = Some received ->
       received <= 0 /\ amount = expected \/ 0 < received < expected /\ amount = expected - received) /\
    (big_SetString10 (TrimSpace (rr_receivedAtomic row)) = None -> amount = expected) /\
    ct_Provider route = "on_chain" /\ rr_routeStatus row = "active" /\ now < rr_collectionDeadline row /\ ct_ExpiresAt route = Some (rr_collectionDeadline row) /\
    (status = "pending" /\ ct_ReceivedAmount route = "" \/
     status = "partially_paid" /\ rr_accumulatesPartials row = true /\ ct_ReceivedAmount route <> "" /\ ct_TopUpAllowed route = Some true).
Proof.
  unfold payer_route. destruct (checkoutPaymentProgress _ _ _) as [[received remaining] left] eqn:Ep. cbv zeta.
  destruct ((_ == "hosted_gateway") && _); [done|]. intros [= <-]. cbn [ct_PaymentURI ct_Network ct_Address ct_Provider ct_ExpiresAt ct_ReceivedAmount ct_TopUpAllowed].
  intros H0. rewrite H0. destruct (ct_Provider (rr_route row) == "on_chain") eqn:Eo; cbn [andb]; [|done].
  destruct (routeAcceptsTransfer _ _ _ _ _ _) eqn:Ea; [|done]. intros Hu.
  destruct (paymentURIAmount (rr_expectedAtomic row) (rr_receivedAtomic row)) as [amount|] eqn:Em; [|done].
  destruct (paymentURIAmount_ok _ _ _ Em) as (expected & He & Hexp & Hamount & Hpos). exists amount, expected.
  unfold routeAcceptsTransfer in Ea. destruct (_ || _) eqn:Eb in Ea; [done|]. bool_hyp. unfold After in *. bool_hyp.
  split_and!; try done; try lia.
  { unfold received_so_far in *. intros r Hr. rewrite Hr in *. cbn [default from_option id] in *. lia. }
  { unfold received_so_far in *. intros Hr. rewrite Hr in *. cbn [default from_option id] in *. lia. }
  apply orb_true_iff in Ea as [Et|Et]; bool_hyp.
  - right. assert ((received == "") = false) as Hr by (by apply String.eqb_neq). rewrite Hr. split_and!; try done. cbn [negb]. f_equal.
    repeat match goal with H : ?b = true |- _ => rewrite H end. subst. cbn. by apply Z.ltb_lt.
  - left. by split.
Qed.

(** ** Where the service does not do what it means to *)

(** A list of actions that is not acceptable grants everything: whatever is
    repeated, empty or padded in the asked list, the session is issued with both
    actions instead of being refused. *)
Theorem refused_actions_grant_all values : canonicalArray values = None -> checkout_actions values = Ok ["read"; "select_route"].
Proof. intros H. unfold checkout_actions. by rewrite H. Qed.

(** Asking twice for reading only. *)
Lemma refused_actions_grant_all_witness :
  canonicalArray ["read"; "read"] = None /\ checkout_actions ["read"; "read"] = Ok ["read"; "select_route"] /\
  checkout_actions ["read"] = Ok ["read"].
Proof.
  split; [reflexivity|]. split; [|reflexivity]. apply (refused_actions_grant_all ["read"; "read"]). reflexivity.
Defined.

(** What delivery sees of an address that management parsed. *)
Definition delivered_url (parse : string -> option HostedURL) (raw : string) : option URL :=
  u ← parse raw; Some (mkURL (hu_Scheme u) (hu_Host u) (hu_Hostname u) (hu_Port u) (hu_HasUser u) (hu_Fragment u) "").

(** An endpoint on another port than 443 can be created, is challenged on that
    port and activated, and then nothing is ever delivered to it: delivery refuses
    every other port, wherever the name leads. *)
Theorem odd_port_never_delivered parse ToLower LookupIP raw u :
  parse raw = Some u -> hu_Port u <> "" -> hu_Port u <> "443" -> is_ok (ValidateEndpoint (delivered_url parse) ToLower LookupIP raw) = false.
Proof.
  intros Hp H1 H2. unfold ValidateEndpoint, delivered_url. rewrite Hp. cbn [mbind option_bind u_Scheme u_Host u_Hostname u_Port u_HasUser u_Fragment u_Opaque].
  destruct (_ || _); [done|]. cbv zeta. apply String.eqb_neq in H1, H2. by rewrite H1, H2.
Qed.

Definition odd_url (text : string) : option HostedURL :=
  if text == "https://shop.example:8443/hook"
  then Some (mkHostedURL "https" "shop.example:8443" "shop.example" "8443" false "/hook" "" "" "https://shop.example:8443/hook") else None.

Lemma odd_port_never_delivered_witness :
  VerifyEndpoint odd_url id (fun _ => None) (fun _ => Some [IP4 134744072]) (fun body => Some body)
    (fun _ port _ challenge => if port == "8443" then Some (200, Some challenge) else None)
    "https://shop.example:8443/hook" "whc_0123456789abcdef0123456789abcdef" = Ok tt /\
  is_ok (ValidateEndpoint (delivered_url odd_url) id (fun _ => Ok [IP4 134744072]) "https://shop.example:8443/hook") = false.
Proof.
  split; [vm_compute; reflexivity|]. eapply odd_port_never_delivered; [reflexivity|discriminate|discriminate].
Defined.

(** Within the grace period of an expired intent the payer is told that the
    payment is over although its route still takes it: no wallet link is shown,
    while the deadline that is shown lies ahead. *)
Theorem grace_payment_hidden parse status expires now row route :
  payer_route parse (publicCheckoutStatus status expires now) now row = Ok route ->
  ct_PaymentURI (rr_route row) = "" -> ct_Provider (rr_route row) = "on_chain" -> expires <= now < rr_collectionDeadline row ->
  existsb_str status ["settled"; "overpaid"; "needs_review"; "reorg_review"] = false ->
  publicCheckoutStatus status expires now = "expired" /\ ct_PaymentURI route = "" /\ ct_ExpiresAt route = Some (rr_collectionDeadline row).
Proof.
  intros H H0 Ho [He Hd] Hs. assert (publicCheckoutStatus status expires now = "expired") as Hx.
  { unfold publicCheckoutStatus. assert (After expires now = false) as -> by (unfold After; apply Z.ltb_ge; lia). cbn [negb andb].
    unfold existsb_str in Hs. cbn [existsb] in Hs. repeat (apply orb_false_iff in Hs as [?Hs Hs]).
    rewrite !(String.eqb_sym status). by rewrite Hs0, Hs1, Hs2, Hs3. }
  rewrite Hx in H. split; [done|]. unfold payer_route in H. destruct (checkoutPaymentProgress _ _ _) as [[received remaining] more]. cbv zeta in H.
  rewrite Ho, String.eqb_refl in H. cbn [andb] in H. change ("on_chain" == "hosted_gateway") with false in H. cbn [andb] in H.
  change ("expired" == "partially_paid") with false in H. cbn [andb] in H. rewrite andb_false_r in H.
  assert (routeAcceptsTransfer (rr_routeStatus row) "expired" (received != "") false (rr_collectionDeadline row) now = false) as Hn.
  { unfold routeAcceptsTransfer. by destruct (_ || _). }
  rewrite Hn in H. injection H as <-. by split.
Qed.

Definition grace_row : route_row :=
  mkRouteRow (mkPayerRoute "r" "on_chain" "" "eip155:1" "" "eth" "" "1" "" "" 0 None "0x0000000000000000000000000000000000000001" "" "" "" "" None)
    [] "1000" 3 "0" false 200 "evm" "native" "" "active" "Ethereum" "ETH".

Lemma grace_payment_hidden_witness : exists route,
  payer_route (fun _ => None) (publicCheckoutStatus "pending" 100 150) 150 grace_row = Ok route /\ ct_PaymentURI route = "" /\ ct_ExpiresAt route = Some 200.
Proof.
  eexists. split; [vm_compute; reflexivity|].
  destruct (grace_payment_hidden (fun _ => None) "pending" 100 150 grace_row _ ltac:(vm_compute; reflexivity) eq_refl eq_refl ltac:(cbn; lia) eq_refl) as (_ & H1 & H2).
  split; [exact H1|exact H2].
Defined.

(** Before its expiry the same row has its link. *)
Lemma payer_asked_for_remainder_witness : exists route amount,
  payer_route (fun _ => None) "pending" 50 grace_row = Ok route /\
  ct_PaymentURI route = "ethereum:0x0000000000000000000000000000000000000001@1?value=1000" /\
  amount = 1000 - received_so_far "0" /\ amount = 1000.
Proof.
  destruct (payer_route (fun _ => None) "pending" 50 grace_row) as [route|] eqn:E; [|vm_compute in E; discriminate E].
  assert (ct_PaymentURI route = "ethereum:0x0000000000000000000000000000000000000001@1?value=1000") as Hu by (vm_compute in E; injection E as <-; reflexivity).
  destruct (payer_asked_for_remainder (fun _ => None) "pending" 50 grace_row route E eq_refl ltac:(rewrite Hu; discriminate))
    as (amount & expected & _ & Hx & _ & Ha & _). exists route, amount. split; [done|]. split; [exact Hu|].
  vm_compute in Hx. injection Hx as <-. split; [exact Ha|]. rewrite Ha. vm_compute. reflexivity.
Defined.

(** ** Concrete runs *)

Definition tenant_id : string := "0198a6d7-42b5-7a10-8000-000000000002".
Definition merchant_id : string := "0198a6d7-42b5-7a10-8000-000000000003".
Definition requester_id : string := "0198a6d7-42b5-7a10-8000-000000000004".
Definition approver_id : string := "0198a6d7-42b5-7a10-8000-000000000005".
Definition endpoint_id : string := "0198a6d7-42b5-7a10-8000-000000000006".
Definition action_id : string := "0198a6d7-42b5-7a10-8000-000000000007".

(** An approver who confirmed themselves a minute before. *)
Definition run_approver : MgPrincipal :=
  mkMgPrincipal tenant_id merchant_id approver_id "session" "admin_assertion" {["webhooks:disable" := true]} (59 * Minute) "" "".

(** Asked for at 50 minutes, by someone who had confirmed themselves at [stepUp]. *)
Definition run_action (stepUp : Time) : ManagementActionRequest :=
  mkManagementActionRequest action_id actionDisableWebhook "webhook_endpoint" endpoint_id 3 "retired" requester_id "" "agreed" "executing" ""
    "idem-key" "{}" "" "" "session" stepUp "" None (51 * Minute) (61 * Minute) None None (51 * Minute) 1.

Definition run_endpoint : WebhookEndpoint := mkWebhookEndpoint endpoint_id "https://shop.example/hook" ["*"] 1000 1 "disabled" "whk" None 0 0 4.

(** A repository that knows the action and answers everything about it. *)
Definition run_answer (stepUp : Time) (h : history) (A : Type) (e : Effect A) : result merr A :=
  match e in Effect A return result merr A with
  | ClaimManagementActionE _ _ _ _ _ _ _ => Ok (run_action stepUp, false)
  | DisableWebhookEndpointE _ _ _ _ _ => Ok (run_endpoint, false)
  | CompleteManagementActionE _ _ _ _ _ _ => Ok (run_action stepUp)
  | _ => Err (Sentinel MgErrNotFound)
  end.

(** All of it at one hour. *)
Definition run_clock (_ : nat) : Time := 60 * Minute.

Definition run_approval (stepUp : Time) : history * result merr (ManagementActionRequest * bool) :=
  ApproveManagementAction (run_answer stepUp) id run_clock (Some "lease") run_approver actionDisableWebhook action_id "agreed" "hash" [].

Lemma approval_carries_out_request_witness : length (run_approval (51 * Minute)).1 = 3%nat /\ is_ok (run_approval (51 * Minute)).2 = true /\
  exists lease scope kind action replay t ok,
    actionScope actionDisableWebhook = Some (scope, kind) /\
    run_answer (51 * Minute) [] _ (ClaimManagementActionE run_approver actionDisableWebhook action_id lease "agreed" "hash" (60 * Minute)) = Ok (action, replay) /\
    approval_run (run_answer (51 * Minute)) id run_approver actionDisableWebhook scope "agreed" lease action
      [AnyEffect (ClaimManagementActionE run_approver actionDisableWebhook action_id lease "agreed" "hash" (60 * Minute))] t ok.
Proof.
  destruct (run_approval (51 * Minute)) as [h' r] eqn:E. pose proof E as E'. vm_compute in E'. injection E' as Eh Er.
  split; [by subst h'|]. split; [by subst r|].
  destruct (approval_carries_out_request (run_answer (51 * Minute)) id run_clock (Some "lease") run_approver actionDisableWebhook action_id "agreed" "hash" [] h' r E)
    as [Hn|(lease & scope & kind & Hs & Hl & [[Hc _]|(action & replay & t & ok & Ha & _ & _ & Hrun & _)])].
  - subst h'. discriminate Hn.
  - subst h'. discriminate Hc.
  - injection Hl as <-. exists "lease", scope, kind, action, replay, t, ok. split; [exact Hs|]. split; [exact Ha|exact Hrun].
Defined.

(** Confirmed at 49 minutes, asked at 51, approved at 60: the request would live
    until 61 minutes. *)
Lemma late_approval_fails_witness : exists e, is_ok (requireStepUp (51 * Minute)
    (mkMgPrincipal tenant_id merchant_id requester_id "session" "admin_assertion" {["webhooks:disable" := true]} (49 * Minute) "" "") "webhooks:disable") = true /\
  60 * Minute < ma_ExpiresAt (run_action (49 * Minute)) /\
  run_approval (49 * Minute) =
    ([AnyEffect (ClaimManagementActionE run_approver actionDisableWebhook action_id "lease" "agreed" "hash" (60 * Minute));
      AnyEffect (CompleteManagementActionE run_approver action_id "lease" false "authorization_changed" (60 * Minute))], Err e).
Proof.
  destruct (late_approval_fails (run_answer (49 * Minute)) id run_clock "lease" run_approver actionDisableWebhook "webhooks:disable" "webhook_endpoint"
    action_id "agreed" "hash" [] (run_action (49 * Minute))) as [e He]; try (vm_compute; reflexivity).
  - discriminate.
  - vm_compute. discriminate.
  - exists e. split; [vm_compute; reflexivity|]. split; [vm_compute; reflexivity|]. exact He.
Defined.

(** A box whose cipher only appends a mark, for the example. *)
Definition marking_cipher (_ : string) : AEAD :=
  mkAEAD 4 1 (fun _ plain _ => plain +:+ "#") (fun _ sealed _ => Some (str_take (String.length sealed - 1) sealed)).
Definition demo_key : string := "0123456789abcdef0123456789abcdef".

Lemma sealed_secret_opens_once_witness : exists box other sealed,
  NewWebhookSecretBox marking_cipher demo_key = Ok box /\ NewAPICredentialBox marking_cipher demo_key = Ok other /\
  SealSecret box (Some "nnce") "secret" = Ok sealed /\ OpenSecret box sealed = Ok "secret" /\ is_ok (OpenSecret other sealed) = false.
Proof.
  eexists. eexists. eexists. split; [reflexivity|]. split; [reflexivity|]. split; [reflexivity|].
  apply (sealed_secret_opens_once marking_cipher demo_key demo_key "nnce" "secret"); try reflexivity.
  split; [cbn; lia|]. split; [cbn; lia|]. intros nonce plain aad Hn. cbn. split.
  - assert (String.length (plain +:+ "#") - 1 = String.length plain)%nat as -> by (pose proof (len_app plain "#"); unfold len in *; cbn in *; lia).
    f_equal. apply str_take_app.
  - rewrite len_app. reflexivity.
Defined.

Definition demo_claims : adminClaims :=
  mkAdminClaims "merchant-management-api" "POST" "/v1/management/payment-links" (hex_encode "body") action_id tenant_id merchant_id requester_id "session"
    ["payment-links:write"] 1700000000 1700000060 0 "" "".
Definition demo_http (compact : string) : MgHTTP := mkMgHTTP ["ManagementAdmin " +:+ compact] "POST" "/v1/management/payment-links" "" "".
Definition demo_mac (key text : string) : string := key.

Lemma assertion_binds_request_witness : exists compact p payload c,
  SignAdminAssertion demo_mac (Some "{}") demo_key = Ok compact /\
  authenticateAssertion id demo_mac (fun _ => Some Outbox.JNull) (fun _ => Some demo_claims) demo_key true (fun _ _ _ => Ok true) (time_Unix 1700000030)
    (demo_http compact) "body" compact = Ok p /\
  asserted id demo_mac (fun _ => Some demo_claims) demo_key (fun _ _ _ => Ok true) (time_Unix 1700000030) (demo_http compact) "body" compact p payload c.
Proof.
  eexists. destruct (authenticateAssertion id demo_mac (fun _ => Some Outbox.JNull) (fun _ => Some demo_claims) demo_key true (fun _ _ _ => Ok true)
    (time_Unix 1700000030) (demo_http (b64_encode "{}" +:+ "." +:+ b64_encode demo_key)) "body" (b64_encode "{}" +:+ "." +:+ b64_encode demo_key)) as [p|] eqn:E;
    [|vm_compute in E; discriminate E].
  destruct (assertion_binds_request id demo_mac (fun _ => Some Outbox.JNull) (fun _ => Some demo_claims) demo_key (fun _ _ _ => Ok true) (time_Unix 1700000030)
    _ _ _ p E) as (payload & c & H).
  exists p, payload, c. split; [reflexivity|]. split; [exact E|exact H].
Defined.
