(* ===== verification/Tron.v ===== *)
(** * Tron: internal/providers/tron.go

    The TRON source: addresses and hashes in their one spelling (Base58Check and
    hexadecimal), heads, the scan of a range, the look-up of one transaction, and
    the reading of a transaction: native transfers, direct token calls from their
    calldata, and GasFree payments from receipt logs. The node's answers, JSON
    encoding and SHA-256 are parameters. *)

From Stdlib Require Import ZArith Lia Ascii String.
From stdpp Require Import base gmap list strings.
From S2P Require Import Prelude Text Numerals Money Domain Scanner Chains Providers Evm.
From S2P Require Outbox.

(** ** Base58 *)

Definition base58_alphabet : string := "123456789ABCDEFGHJKLMNPQRSTUVWXYZabcdefghijkmnopqrstuvwxyz".

Fixpoint index_of (c : ascii) (i : Z) (s : string) : option Z :=
  match s with EmptyString => None | String d r => if Ascii.eqb d c then Some i else index_of c (i + 1) r end.

Definition base58_char_of (d : Z) : ascii := default "1"%char (String.get (Z.to_nat d) base58_alphabet).
Definition base58_digit (c : ascii) : option Z := index_of c 0 base58_alphabet.

(** [big.Int.SetBytes] and [big.Int.Bytes] *)
Fixpoint bytes_value (acc : Z) (s : string) : Z :=
  match s with EmptyString => acc | String c r => bytes_value (256 * acc + code c) r end.
Fixpoint value_bytes (fuel : nat) (n : Z) (acc : string) : string :=
  match fuel with O => acc | S f => if n <=? 0 then acc else value_bytes f (n / 256) (String (chr (n mod 256)) acc) end.

(** The digits of [n], the last one first in the loop and reversed at the end. *)
Fixpoint base58_digits (fuel : nat) (n : Z) (acc : string) : string :=
  match fuel with O => acc | S f => if n <=? 0 then acc else base58_digits f (n / 58) (String (base58_char_of (n mod 58)) acc) end.

Fixpoint leading (c : ascii) (s : string) : nat :=
  match s with EmptyString => O | String d r => if Ascii.eqb d c then S (leading c r) else O end.

(** A byte gives less than two digits, and a digit less than a byte. *)
Definition encodeBase58 (data : string) : string :=
  Repeat "1" (leading (chr 0) data) +:+ base58_digits (2 * String.length data) (bytes_value 0 data) "".

Fixpoint base58_value (acc : Z) (s : string) : option Z :=
  match s with
  | EmptyString => Some acc
  | String c r => match base58_digit c with Some d => base58_value (58 * acc + d) r | None => None end
  end.

Definition decodeBase58 (value : string) : option string :=
  match base58_value 0 value with
  | None => None
  | Some n => Some (Repeat (String (chr 0) "") (leading "1"%char value) +:+ value_bytes (String.length value) n "")
  end.

Section checks.
Context (sha256 : string -> string).

Definition checksum (payload : string) : string := str_take 4 (sha256 (sha256 payload)).

Definition encodeBase58Check (payload : string) : string := encodeBase58 (payload +:+ checksum payload).

Definition decodeBase58Check (value : string) : option string :=
  match decodeBase58 value with
  | None => None
  | Some data =>
      if len data <? 5 then None
      else
        let cut := Z.to_nat (len data - 4) in
        let payload := str_take cut data in
        if str_drop cut data != checksum payload then None else Some payload
  end.

(** ** Addresses, hashes and numbers *)

Definition canonicalTRONAddress (value : string) : option string :=
  let value := TrimSpace value in
  if HasPrefix value "T" then
    match decodeBase58Check value with
    | Some payload => if negb (len payload =? 21) || negb (byte_at payload 0 =? 65) then None else Some (encodeBase58Check payload)
    | None => None
    end
  else
    let raw := TrimPrefix (lower_ascii value) "0x" in
    let raw := if len raw =? 40 then "41" +:+ raw else raw in
    if negb (len raw =? 42) || negb (HasPrefix raw "41") then None
    else match hex_decode raw with Some payload => Some (encodeBase58Check payload) | None => None end.

Definition canonicalTRONHash (value : string) : option string :=
  let value := lower_ascii (TrimPrefix (TrimSpace value) "0x") in
  if negb (len value =? 64) then None else match hex_decode value with Some _ => Some value | None => None end.

Definition normalizeHex64 (value : string) : string := default "" (canonicalTRONHash value).

Definition tronAddressFromTopic (value : string) : option string :=
  let raw := normalizeHex64 value in
  if negb (len raw =? 64) || (str_take 24 raw != Repeat "0" 24) then None else canonicalTRONAddress (str_drop 24 raw).

Definition canonicalTRONABIAddress (value : string) : option string :=
  let value := lower_ascii (TrimPrefix (TrimSpace value) "0x") in
  if len value =? 64 then
    if str_take 24 value == Repeat "0" 24 then canonicalTRONAddress (str_drop 24 value)
    else if (str_take 22 value == Repeat "0" 22) && (str_take 2 (str_drop 22 value) == "41") then canonicalTRONAddress (str_drop 22 value)
    else None
  else canonicalTRONAddress value.

(** The range of the map decides nothing: a later duplicate is the same key. *)
Fixpoint canonicalTRONSet (values : list string) (acc : gset string) : option (gset string) :=
  match values with
  | [] => Some acc
  | v :: rest => match canonicalTRONAddress v with Some c => canonicalTRONSet rest ({[c]} ∪ acc) | None => None end
  end.

Definition parseRawHexAmount (value : string) : option string :=
  let value := TrimPrefix (lower_ascii (TrimSpace value)) "0x" in
  if (value == "") || (64 <? len value) then None
  else match big_SetString16 value with
       | Some n => if 256 <? BitLen n then None else Some (FormatInt n)
       | None => None
       end.

Definition parseUintNumber (value : string) : option Z :=
  n ← big_SetString10 value; if (n <? 0) || (64 <? BitLen n) then None else Some n.

(** A [json.Number] without sign, point or exponent. *)
Definition unsigned_text (value : string) : bool :=
  str_forall (fun c => negb (existsb (Z.eqb (code c)) [46; 101; 69; 45])) value.

Definition numberUint64 (value : string) : option Z :=
  if (value == "") || negb (unsigned_text value) then None else parseUintNumber value.

(** solana.go: the text of a JSON value, and a JSON integer as written. *)
Definition stringValue (v : option Outbox.JSON) : option string :=
  match v with Some (Outbox.JString s) => if s == "" then None else Some s | _ => None end.

Definition integerString (v : option Outbox.JSON) : option string :=
  match v with
  | Some (Outbox.JString raw) | Some (Outbox.JNumber raw) =>
      if (raw == "") || ((1 <? len raw) && (byte_at raw 0 =? 48)) || HasPrefix raw "-" then None
      else
        let digits := if HasPrefix raw "+" then str_drop 1 raw else raw in
        if (digits == "") || negb (str_forall is_digit digits) || (256 <? BitLen (dec_value 0 digits)) then None else Some raw
  | _ => None
  end.

(** ** What a node reports *)

Record tronContract := mkTronContract { tc_Type : string; tc_Value : gmap string Outbox.JSON }.
Record tronTransaction := mkTronTransaction { tx_TxID : string; tx_Contracts : list tronContract; tx_Ret : list string }.
Record tronBlock := mkTronBlock {
  tb_BlockID : string; tb_Number : string; tb_ParentHash : string; tb_Timestamp : string; tb_Transactions : list tronTransaction }.
Record tronLog := mkTronLog { tl_Address : string; tl_Topics : list string; tl_Data : string }.
Record tronTransactionInfo := mkTronTransactionInfo {
  ti_ID : string; ti_BlockNumber : string; ti_BlockTimeStamp : string; ti_Result : string; ti_ReceiptResult : string; ti_Logs : list tronLog }.

(** The answers of the endpoint, each the outcome of [endpointClient.request],
    and the clock. *)
Record TronNode := mkTronNode {
  td_nowBlock : result provider_error tronBlock; td_blockByNum : Z -> result provider_error tronBlock;
  td_transaction : string -> result provider_error tronTransaction; td_info : string -> result provider_error tronTransactionInfo;
  td_now : Time }.

(** ** The source *)

Record TRONAsset := mkTRONAsset { ta_AssetID : string; ta_Decimals : Z }.

Record TRONConfig := mkTRONConfig {
  tcf_HTTP : HTTPConfig; tcf_ProviderID : string; tcf_ChainID : string; tcf_NativeAssetID : string; tcf_NativeDecimals : Z;
  tcf_Assets : list (string * TRONAsset); tcf_GasFreeContracts : list string; tcf_GasFreeFeeCollectors : list string }.

Record TRONSource := mkTRONSource {
  tn_providerID : string; tn_chainID : string; tn_nativeAssetID : string; tn_nativeDecimals : Z; tn_assets : gmap string TRONAsset;
  tn_gasFreeContracts : gset string; tn_gasFreeFeeCollectors : gset string }.

(** What it remembers: the genesis hash, the last head and when it was seen. *)
Record TRONState := mkTRONState { ts_genesisHash : string; ts_safeHeight : Z; ts_headObservedAt : Time }.

(** The assets in the order in which the map yields them. *)
Fixpoint canonical_assets (assets : list (string * TRONAsset)) (acc : gmap string TRONAsset) : option (gmap string TRONAsset) :=
  match assets with
  | [] => Some acc
  | (address, asset) :: rest =>
      match canonicalTRONAddress address with
      | None => None
      | Some canonical => if (ta_AssetID asset == "") || (36 <? ta_Decimals asset) then None else canonical_assets rest (<[canonical := asset]> acc)
      end
  end.

Definition NewTRONSource (parse : string -> option EndpointURL) (EqualFold : string -> string -> bool) (config : TRONConfig) : option TRONSource :=
  client ← newEndpointClient parse EqualFold (tcf_HTTP config);
  if (tcf_ProviderID config == "") || (tcf_ChainID config == "") || (tcf_NativeAssetID config == "") || (36 <? tcf_NativeDecimals config) then None
  else
    assets ← canonical_assets (tcf_Assets config) ∅;
    contracts ← canonicalTRONSet (tcf_GasFreeContracts config) ∅;
    collectors ← canonicalTRONSet (tcf_GasFreeFeeCollectors config) ∅;
    Some (mkTRONSource (tcf_ProviderID config) (tcf_ChainID config) (tcf_NativeAssetID config) (tcf_NativeDecimals config) assets contracts collectors).

(** [time.UnixMilli] of the checked timestamp. *)
Definition validateTRONBlock (block : tronBlock) : option (Z * Time) :=
  _ ← canonicalTRONHash (tb_BlockID block);
  height ← numberUint64 (tb_Number block);
  milliseconds ← numberUint64 (tb_Timestamp block);
  if max_int64 <? milliseconds then None else Some (height, unix_epoch + milliseconds * Millisecond).

(** ** Reading a transaction *)

Section source.
Context (s : TRONSource) (node : TronNode).
(** [json.Marshal] of the evidence. *)
Context (evidence : tronTransaction -> option tronTransactionInfo -> string).

Definition transfer_of (index : Z) (from to : string) (asset : TRONAsset) (amount : string) : TRONTransfer :=
  mkTRONTransfer index from to (ta_AssetID asset) amount (ta_Decimals asset) "" "" "".

(** A direct [transfer] or [transferFrom] call, read from its calldata. *)
Definition parseTRONDirectTokenTransfer (value : gmap string Outbox.JSON) (asset : TRONAsset) (index : Z) : option TRONTransfer :=
  ownerRaw ← stringValue (value !! "owner_address");
  data ← stringValue (value !! "data");
  let data := lower_ascii (TrimPrefix (TrimSpace data) "0x") in
  '(fromRaw, toRaw, amountRaw) ←
    if HasPrefix data "a9059cbb" && (len data =? 136) then Some (ownerRaw, str_take 64 (str_drop 8 data), str_drop 72 data)
    else if HasPrefix data "23b872dd" && (len data =? 200) then Some (str_take 64 (str_drop 8 data), str_take 64 (str_drop 72 data), str_drop 136 data)
    else None;
  from ← canonicalTRONABIAddress fromRaw;
  to ← canonicalTRONABIAddress toRaw;
  amount ← parseRawHexAmount amountRaw;
  if amount == "0" then None else Some (transfer_of index from to asset amount).

(** The contract a smart contract call addresses. *)
Definition trigger_address (c : tronContract) : result provider_error string :=
  of_option (malformed_msg "tron smart contract call" "invalid TRON address")
    (canonicalTRONAddress (default "" (stringValue (tc_Value c !! "contract_address")))).

(** The first pass: is anything relevant, is the receipt needed, which direct
    transfers are there. *)
Fixpoint survey (i : Z) (contracts : list tronContract) : result provider_error (bool * bool * list TRONTransfer) :=
  match contracts with
  | [] => Ok (false, false, [])
  | c :: rest =>
      if tc_Type c == "TransferContract" then
        '(_, info, direct) ← survey (i + 1) rest; Ok (true, info, direct)
      else if tc_Type c == "TriggerSmartContract" then
        trigger ← trigger_address c;
        '(relevant, info, direct) ← survey (i + 1) rest;
        if bool_decide (trigger ∈ tn_gasFreeContracts s) then Ok (true, true, direct)
        else match tn_assets s !! trigger with
             | None => Ok (relevant, info, direct)
             | Some asset =>
                 Ok (true, info, match parseTRONDirectTokenTransfer (tc_Value c) asset i with Some t => t :: direct | None => direct end)
             end
      else survey (i + 1) rest
  end.

Fixpoint native_transfers (i : Z) (contracts : list tronContract) : result provider_error (list TRONTransfer) :=
  match contracts with
  | [] => Ok []
  | c :: rest =>
      if tc_Type c != "TransferContract" then native_transfers (i + 1) rest
      else
        let invalid := malformed_msg "tron native transfer" "invalid TransferContract" in
        match stringValue (tc_Value c !! "owner_address") ≫= canonicalTRONAddress, stringValue (tc_Value c !! "to_address") ≫= canonicalTRONAddress,
              integerString (tc_Value c !! "amount") with
        | Some from, Some to, Some amount =>
            if amount == "0" then Err invalid
            else more ← native_transfers (i + 1) rest;
                 Ok (transfer_of i from to (mkTRONAsset (tn_nativeAssetID s) (tn_nativeDecimals s)) amount :: more)
        | _, _, _ => Err invalid
        end
  end.

(** The address of the first smart contract call, empty when there is none. *)
Fixpoint first_trigger (contracts : list tronContract) : result provider_error string :=
  match contracts with
  | [] => Ok ""
  | c :: rest => if tc_Type c == "TriggerSmartContract" then trigger_address c else first_trigger rest
  end.

(** A log as a transfer of a configured asset, or nothing. *)
Definition log_transfer (i : Z) (log : tronLog) : result provider_error (option TRONTransfer) :=
  match tl_Topics log with
  | [topic; fromTopic; toTopic] =>
      if normalizeHex64 topic != TrimPrefix erc20TransferTopic "0x" then Ok None
      else match canonicalTRONAddress (tl_Address log) with
      | None => Ok None
      | Some contract =>
          match tn_assets s !! contract with
          | None => Ok None
          | Some asset =>
              from ← of_option (malformed_msg "tron TRC-20 log" "invalid TRON indexed address") (tronAddressFromTopic fromTopic);
              to ← of_option (malformed_msg "tron TRC-20 log" "invalid TRON indexed address") (tronAddressFromTopic toTopic);
              match parseRawHexAmount (tl_Data log) with
              | Some amount => if amount == "0" then Err (malformed_msg "tron TRC-20 log" "invalid transfer amount") else Ok (Some (transfer_of i from to asset amount))
              | None => Err (malformed_msg "tron TRC-20 log" "invalid transfer amount")
              end
          end
      end
  | _ => Ok None
  end.

Fixpoint log_transfers (i : Z) (logs : list tronLog) : result provider_error (list TRONTransfer) :=
  match logs with
  | [] => Ok []
  | log :: rest =>
      found ← log_transfer i log; more ← log_transfers (i + 1) rest;
      Ok (match found with Some t => t :: more | None => more end)
  end.

(** ** GasFree payments *)

Definition is_fee (t : TRONTransfer) : bool := bool_decide (tt_To t ∈ tn_gasFreeFeeCollectors s).

(** Payer and asset, joined by a zero byte. *)
Definition fee_key (t : TRONTransfer) : string := tt_From t +:+ String (chr 0) (tt_AssetID t).

(** The fees by payer and asset; two for one are refused. *)
Fixpoint collect_fees (fees : gmap string TRONTransfer) (l : list TRONTransfer) : result provider_error (gmap string TRONTransfer) :=
  match l with
  | [] => Ok fees
  | t :: rest =>
      if is_fee t then
        match fees !! fee_key t with
        | Some _ => Err (malformed_msg "tron GasFree evidence" "multiple fee transfers for one payment")
        | None => collect_fees (<[fee_key t := t]> fees) rest
        end
      else collect_fees fees rest
  end.

Definition recipients (key : string) (l : list TRONTransfer) : nat :=
  length (List.filter (fun t => negb (is_fee t) && (fee_key t == key)) l).

Definition with_fee (fees : gmap string TRONTransfer) (t : TRONTransfer) : TRONTransfer :=
  match fees !! fee_key t with
  | Some fee => mkTRONTransfer (tt_Index t) (tt_From t) (tt_To t) (tt_AssetID t) (tt_ReceivedAmount t) (tt_Decimals t) "gasfree" (tt_ReceivedAmount fee) (tt_To fee)
  | None => mkTRONTransfer (tt_Index t) (tt_From t) (tt_To t) (tt_AssetID t) (tt_ReceivedAmount t) (tt_Decimals t) "gasfree" (tt_FeeDeductedAmount t) (tt_FeeCollector t)
  end.

Fixpoint gasfree_payments (all : list TRONTransfer) (fees : gmap string TRONTransfer) (l : list TRONTransfer) : result provider_error (list TRONTransfer) :=
  match l with
  | [] => Ok []
  | t :: rest =>
      if is_fee t then gasfree_payments all fees rest
      else if negb (Nat.eqb (recipients (fee_key t) all) 1)
      then Err (malformed_msg "tron GasFree evidence" "ambiguous recipient transfers for one payment")
      else more ← gasfree_payments all fees rest; Ok (with_fee fees t :: more)
  end.

(** ** A transaction *)

(** The receipt of a transaction, bound to it and to its block. *)
Definition bound_info (txHash : string) (height : Z) : result provider_error tronTransactionInfo :=
  info ← td_info node txHash;
  if negb (bool_decide (canonicalTRONHash (ti_ID info) = Some txHash)) then Err (malformed_msg "tron transaction info" "transaction ID mismatch")
  else if negb (bool_decide (numberUint64 (ti_BlockNumber info) = Some height)) then Err (malformed_msg "tron transaction info" "block binding mismatch")
  else Ok info.

Definition tron_success (tx : tronTransaction) (info : option tronTransactionInfo) : bool :=
  negb (bool_decide (tx_Ret tx = []))
  && match info with Some i => (ti_Result i != "FAILED") && (ti_ReceiptResult i != "FAILED") | None => true end
  && forallb (fun r => r == "SUCCESS") (tx_Ret tx).

(** The transfers of a successful transaction. *)
Definition tron_transfers (tx : tronTransaction) (info : option tronTransactionInfo) (direct : list TRONTransfer)
    : result provider_error (list TRONTransfer) :=
  native ← native_transfers 0 (tx_Contracts tx);
  trigger ← first_trigger (tx_Contracts tx);
  token ← match info with Some i => log_transfers 0 (ti_Logs i) | None => Ok direct end;
  if bool_decide (trigger ∈ tn_gasFreeContracts s) then
    fees ← collect_fees ∅ token;
    paid ← gasfree_payments token fees token;
    Ok (native ++ paid)
  else Ok (native ++ token).

Definition normalizeTRONTransaction (tx : tronTransaction) (height : Z) (blockHash : string) (blockTime : Time) (safe : Z)
    : result provider_error (list TransferEvent) :=
  txHash ← of_option (malformed_msg "tron transaction" "invalid TRON hash") (canonicalTRONHash (tx_TxID tx));
  '(relevant, requiresInfo, direct) ← survey 0 (tx_Contracts tx);
  if negb relevant then Ok []
  else
    info ← (if requiresInfo : bool then i ← bound_info txHash height; Ok (Some i) else Ok None);
    let success := tron_success tx info in
    transfers ← (if success then tron_transfers tx info direct else Ok []);
    lift_err OtherError
      (TRON_Normalize sha256 None (tn_chainID s)
         (Ok (mkTRONTransaction txHash height blockHash blockTime success true (confirmations safe height) transfers (evidence tx info))) txHash).

(** ** Heads, ranges and look-ups *)

Definition TRON_Heads (st : TRONState) : TRONState * result provider_error (list ProviderHead) :=
  match td_nowBlock node with
  | Err e => (st, Err e)
  | Ok head =>
      match validateTRONBlock head with
      | None => (st, Err (malformed_msg "tron finalized head" "invalid block"))
      | Some (height, _) =>
          let genesis :=
            if ts_genesisHash st == "" then
              block ← td_blockByNum node 0;
              of_option (malformed_msg "tron genesis" "invalid TRON hash") (canonicalTRONHash (tb_BlockID block))
            else Ok (ts_genesisHash st) in
          match genesis with
          | Err e => (st, Err e)
          | Ok hash => (mkTRONState hash height (td_now node), Ok [mkHead (tn_providerID s) (tn_chainID s) hash height (td_now node)])
          end
      end
  end.

(** One block of a range and its events. *)
Definition tron_block (safe height : Z) : result provider_error (Block * list TransferEvent) :=
  block ← td_blockByNum node height;
  match validateTRONBlock block with
  | None => Err (malformed_msg "tron block" "block height mismatch")
  | Some (number, blockTime) =>
      if negb (number =? height) then Err (malformed_msg "tron block" "block height mismatch")
      else
        let blockHash := default "" (canonicalTRONHash (tb_BlockID block)) in
        if bool_decide (canonicalTRONHash (tb_ParentHash block) = None) && negb (height =? 0) then Err (malformed_msg "tron block" "invalid TRON hash")
        else
          events ← traverse (fun tx => normalizeTRONTransaction tx height blockHash blockTime safe) (tb_Transactions block);
          Ok (mkBlock height blockHash (default "" (canonicalTRONHash (tb_ParentHash block))) blockTime, concat events)
  end.

(** The head to scan under: the remembered one for thirty seconds, else a new
    one. [time.Since] and the source's clock are one clock here. *)
Definition tron_safe (st : TRONState) : TRONState * result provider_error Z :=
  if IsZeroTime (ts_headObservedAt st) || (SubTime (td_now node) (ts_headObservedAt st) >? 30 * Second) then
    match td_nowBlock node with
    | Err e => (st, Err e)
    | Ok head =>
        match validateTRONBlock head with
        | None => (st, Err (permanent_msg "tron scan range" "range exceeds finalized head"))
        | Some (height, _) => (mkTRONState (ts_genesisHash st) height (td_now node), Ok height)
        end
    end
  else (st, Ok (ts_safeHeight st)).

Definition TRON_ScanRange (st : TRONState) (from to : Z) : TRONState * result provider_error RangeBatch :=
  if (to <? from) || (511 <? to - from) then (st, Err (permanent_msg "tron scan range" "range must contain 1..512 blocks"))
  else
    let (st', head) := tron_safe st in
    (st', safe ← head;
          if safe <? to then Err (permanent_msg "tron scan range" "range exceeds finalized head")
          else
            blocks ← traverse (tron_block safe) (heights from to);
            Ok (mkBatch from to (map fst blocks) (concat (map snd blocks)) [] false false false)).

Definition TRON_LookupTransaction (chainID transactionID : string) : result provider_error (list TransferEvent) :=
  if chainID != tn_chainID s then Err (permanent_msg "tron transaction lookup" "chain ID mismatch")
  else
    txHash ← of_option (permanent_msg "tron transaction lookup" "invalid TRON hash") (canonicalTRONHash transactionID);
    transaction ← td_transaction node txHash;
    if negb (bool_decide (canonicalTRONHash (tx_TxID transaction) = Some txHash)) then Err (malformed_msg "tron transaction lookup" "transaction ID mismatch")
    else
      info ← td_info node txHash;
      height ← of_option (malformed_msg "tron transaction info" "missing block binding") (numberUint64 (ti_BlockNumber info));
      head ← td_nowBlock node;
      let late := ProviderError ErrorTransient "tron transaction lookup" 0 0 (Some (OtherError "transaction is not finalized")) in
      match validateTRONBlock head with
      | None => Err late
      | Some (safe, _) =>
          if safe <? height then Err late
          else
            block ← td_blockByNum node height;
            match validateTRONBlock block with
            | None => Err (malformed_msg "tron transaction block" "block height mismatch")
            | Some (blockHeight, blockTime) =>
                if negb (blockHeight =? height) then Err (malformed_msg "tron transaction block" "block height mismatch")
                else
                  match List.find (fun c => bool_decide (canonicalTRONHash (tx_TxID c) = Some txHash)) (tb_Transactions block) with
                  | None => Err (malformed_msg "tron transaction block" "transaction is not included in finalized block")
                  | Some candidate =>
                      normalizeTRONTransaction candidate height (default "" (canonicalTRONHash (tb_BlockID block))) blockTime safe
                  end
            end
      end.
End source.
End checks.
