(* ===== verification/TronFacts.v ===== *)
(** * TronFacts: what the TRON source guarantees

    Base58 is read back exactly in both directions and an account has one address;
    a scanned range meets the worker's contract up to the parent links; GasFree
    payments are attributed without loss and without doubt, or the range is refused,
    and what happens without a listed fee collector is shown; looking a
    transaction up gives the events of its scan. *)

From Stdlib Require Import ZArith Lia Ascii String Permutation Sorted.
From stdpp Require Import base gmap list strings.
From S2P Require Import Prelude Text Numerals Money Domain Scanner Chains ChainsFacts Providers Evm EvmFacts Tron.
From S2P Require Outbox Encoding LegacyFacts.

(** ** Base58 *)

Lemma base58_char_digit d : 0 <= d < 58 -> base58_digit (base58_char_of d) = Some d.
Proof.
  intros Hd. assert (forallb (fun i => bool_decide (base58_digit (base58_char_of (Z.of_nat i)) = Some (Z.of_nat i))) (seq 0 58) = true) as Hall by (vm_compute; reflexivity).
  rewrite forallb_forall in Hall. specialize (Hall (Z.to_nat d) ltac:(apply in_seq; lia)). apply bool_decide_eq_true in Hall. by rewrite Z2Nat.id in Hall by lia.
Qed.

Lemma base58_digits_acc fuel n acc : base58_digits fuel n acc = base58_digits fuel n "" +:+ acc.
Proof.
  revert n acc. induction fuel as [|f IH]; intros n acc; [done|]. cbn [base58_digits]. destruct (n <=? 0); [done|].
  rewrite IH, (IH _ (String _ "")), str_app_assoc. done.
Qed.

Lemma base58_value_app a s t : base58_value a (s +:+ t) = match base58_value a s with Some b => base58_value b t | None => None end.
Proof. revert a. induction s as [|c s IH]; intros a; [done|]. cbn [append base58_value]. destruct (base58_digit c); [apply IH|done]. Qed.

Lemma base58_digits_value fuel n a : 0 <= n < 58 ^ Z.of_nat fuel ->
  base58_value a (base58_digits fuel n "") = Some (a * 58 ^ len (base58_digits fuel n "") + n).
Proof.
  revert n a. induction fuel as [|f IH]; intros n a Hn.
  { cbn. change (58 ^ Z.of_nat 0) with 1 in Hn. f_equal. unfold len. cbn. lia. }
  cbn [base58_digits]. destruct (Z.leb_spec n 0) as [|Hp]; [cbn; unfold len; cbn; f_equal; lia|].
  rewrite base58_digits_acc, base58_value_app, len_app. replace (58 ^ Z.of_nat (S f)) with (58 * 58 ^ Z.of_nat f) in Hn by (rewrite Nat2Z.inj_succ, Z.pow_succ_r by lia; done).
  rewrite IH by (split; [apply Z.div_pos; lia|apply Z.div_lt_upper_bound; lia]). cbn [base58_value].
  rewrite base58_char_digit by (apply Z.mod_pos_bound; lia). f_equal. rewrite Z.pow_add_r by (try apply len_nonneg; done).
  change (len (String (base58_char_of (n mod 58)) "")) with 1. pose proof (Z.div_mod n 58 ltac:(lia)). lia.
Qed.

Lemma base58_digits_first fuel n : 0 < n < 58 ^ Z.of_nat fuel ->
  exists d r, base58_digits fuel n "" = String (base58_char_of d) r /\ 0 < d < 58.
Proof.
  revert n. induction fuel as [|f IH]; intros n Hn; [change (58 ^ Z.of_nat 0) with 1 in Hn; lia|].
  cbn [base58_digits]. destruct (Z.leb_spec n 0) as [|Hp]; [lia|]. rewrite base58_digits_acc.
  replace (58 ^ Z.of_nat (S f)) with (58 * 58 ^ Z.of_nat f) in Hn by (rewrite Nat2Z.inj_succ, Z.pow_succ_r by lia; done).
  destruct (Z.leb_spec (n / 58) 0) as [Hz|Hz].
  - assert (n < 58) by (apply Z.div_small_iff in Hz || (pose proof (Z.div_mod n 58 ltac:(lia)); pose proof (Z.mod_pos_bound n 58 ltac:(lia)); lia); lia).
    assert (base58_digits f (n / 58) "" = "") as -> by (destruct f; [done|]; cbn [base58_digits]; by rewrite (proj2 (Z.leb_le _ _) Hz)).
    exists (n mod 58), "". rewrite Z.mod_small by lia. split; [done|lia].
  - destruct (IH (n / 58)) as (d & r & -> & Hd); [split; [lia|apply Z.div_lt_upper_bound; lia]|].
    exists d. eexists. split; [reflexivity|done].
Qed.

Lemma base58_digit_range c d : base58_digit c = Some d -> 0 <= d < 58.
Proof.
  unfold base58_digit. assert (forall s i, 0 <= i -> index_of c i s = Some d -> i <= d < i + len s) as H.
  { induction s as [|x s IH]; intros i Hi Hc; [discriminate|]. cbn [index_of] in Hc. rewrite len_cons. pose proof (len_nonneg s).
    destruct (Ascii.eqb x c); [injection Hc as <-; lia|]. apply IH in Hc; lia. }
  intros Hd. apply H in Hd; [|lia]. change (len base58_alphabet) with 58 in Hd. lia.
Qed.

Lemma base58_value_bound a s v : 0 <= a -> base58_value a s = Some v -> a * 58 ^ len s <= v < (a + 1) * 58 ^ len s.
Proof.
  revert a. induction s as [|c s IH]; intros a Ha Hv; [injection Hv as <-; change (58 ^ len "") with 1; lia|].
  cbn [base58_value] in Hv. destruct (base58_digit c) as [d|] eqn:Hd; [|discriminate]. apply base58_digit_range in Hd.
  apply IH in Hv; [|lia]. rewrite len_cons, Z.pow_add_r by (try apply len_nonneg; lia). change (58 ^ 1) with 58.
  pose proof (Z.pow_pos_nonneg 58 (len s) ltac:(lia) (len_nonneg s)). nia.
Qed.

(** The bytes of a number, read back to front, are the string it was read from. *)
Lemma value_bytes_run t f a acc : 0 < a -> value_bytes (String.length t + f) (bytes_value a t) acc = value_bytes f a (t +:+ acc).
Proof.
  revert f a acc. induction t as [|c t IH]; intros f a acc Ha; [done|]. cbn [bytes_value String.length]. pose proof (code_range c).
  replace (S (String.length t) + f)%nat with (String.length t + S f)%nat by lia. rewrite IH by lia. cbn [value_bytes].
  destruct (Z.leb_spec (256 * a + code c) 0); [lia|].
  replace ((256 * a + code c) / 256) with a by (Z.to_euclidean_division_equations; lia).
  replace ((256 * a + code c) mod 256) with (code c) by (Z.to_euclidean_division_equations; lia). by rewrite chr_code.
Qed.

Lemma bytes_value_bound a t : 0 <= a -> a * 256 ^ len t <= bytes_value a t < (a + 1) * 256 ^ len t.
Proof.
  revert a. induction t as [|c t IH]; intros a Ha; [cbn [bytes_value]; change (256 ^ len "") with 1; lia|].
  cbn [bytes_value]. pose proof (code_range c). specialize (IH (256 * a + code c) ltac:(lia)).
  rewrite len_cons, Z.pow_add_r by (try apply len_nonneg; lia). change (256 ^ 1) with 256.
  pose proof (Z.pow_pos_nonneg 256 (len t) ltac:(lia) (len_nonneg t)). nia.
Qed.

Lemma leading_split c s : exists t, s = Repeat (String c "") (leading c s) +:+ t /\ leading c t = O.
Proof.
  induction s as [|d s (t & Hs & Ht)]; [by exists ""|]. cbn [leading]. destruct (Ascii.eqb_spec d c) as [->|Hd].
  - exists t. cbn [Repeat append]. by rewrite <- Hs.
  - exists (String d s). cbn [leading]. apply Ascii.eqb_neq in Hd. by rewrite Hd.
Qed.

Lemma leading_Repeat c n t : leading c t = O -> leading c (Repeat (String c "") n +:+ t) = n.
Proof. intros Ht. induction n as [|n IH]; [done|]. cbn [Repeat append leading]. by rewrite Ascii.eqb_refl, IH. Qed.

Lemma bytes_value_zeros n t : bytes_value 0 (Repeat (String (chr 0) "") n +:+ t) = bytes_value 0 t.
Proof. induction n as [|n IH]; [done|]. cbn [Repeat append bytes_value]. done. Qed.

Lemma base58_value_ones n t : base58_value 0 (Repeat "1" n +:+ t) = base58_value 0 t.
Proof. induction n as [|n IH]; [done|]. cbn [Repeat append base58_value]. done. Qed.

Lemma base58_digits_zero f : base58_digits f 0 "" = "".
Proof. by destruct f. Qed.

(** Digits never start with the zero digit, which pads leading zero bytes. *)
Lemma base58_digits_leading fuel n : 0 <= n < 58 ^ Z.of_nat fuel -> leading "1"%char (base58_digits fuel n "") = O.
Proof.
  intros Hn. destruct (Z.eq_dec n 0) as [->|Hz]; [by rewrite base58_digits_zero|].
  destruct (base58_digits_first fuel n ltac:(lia)) as (d & r & -> & Hd). cbn [leading].
  destruct (Ascii.eqb_spec (base58_char_of d) "1") as [He|]; [|done]. pose proof (base58_char_digit d ltac:(lia)) as Hc. rewrite He in Hc.
  vm_compute in Hc. injection Hc as <-. lia.
Qed.

Lemma encode_fuel s : 0 <= bytes_value 0 s < 58 ^ Z.of_nat (2 * String.length s).
Proof.
  pose proof (bytes_value_bound 0 s ltac:(lia)) as [H1 H2]. split; [lia|]. rewrite Z.mul_1_l in H2. eapply Z.lt_le_trans; [exact H2|].
  replace (Z.of_nat (2 * String.length s)) with (2 * len s) by (unfold len; lia). rewrite Z.pow_mul_r by (try apply len_nonneg; lia).
  apply Z.pow_le_mono_l. lia.
Qed.

Lemma code_positive c : c <> chr 0 -> 0 < code c.
Proof. intros Hc. pose proof (code_range c). destruct (Z.eq_dec (code c) 0) as [H0|]; [|lia]. destruct Hc. by rewrite <- H0, chr_code. Qed.

Lemma value_bytes_nozero t fuel : leading (chr 0) t = O -> (String.length t <= fuel)%nat -> value_bytes fuel (bytes_value 0 t) "" = t.
Proof.
  intros Hl Hf. destruct t as [|c t]; [by destruct fuel|]. cbn [leading] in Hl. destruct (Ascii.eqb_spec c (chr 0)) as [|Hc]; [discriminate|].
  pose proof (code_positive c Hc) as Hp.
  cbn [bytes_value String.length] in *. rewrite Z.mul_0_r, Z.add_0_l.
  replace fuel with (String.length t + S (fuel - S (String.length t)))%nat by lia. rewrite value_bytes_run by done. cbn [value_bytes].
  destruct (Z.leb_spec (code c) 0); [lia|]. pose proof (code_range c). rewrite Z.div_small, Z.mod_small, chr_code, str_app_nil_r by lia.
  by destruct (fuel - S (String.length t))%nat.
Qed.

Lemma base58_roundtrip s : decodeBase58 (encodeBase58 s) = Some s.
Proof.
  unfold decodeBase58, encodeBase58. pose proof (encode_fuel s) as Hf. set (fuel := (2 * String.length s)%nat) in *.
  destruct (leading_split (chr 0) s) as (t & Hs & Ht). set (k := leading (chr 0) s) in *.
  rewrite base58_value_ones, (base58_digits_value fuel _ 0 Hf), Z.mul_0_l, Z.add_0_l.
  rewrite (leading_Repeat "1"%char) by by apply base58_digits_leading.
  assert (bytes_value 0 s = bytes_value 0 t) as Hv by (rewrite Hs; apply bytes_value_zeros).
  rewrite Hv in *. rewrite value_bytes_nozero; [by rewrite <- Hs|done|].
  destruct t as [|c t]; [cbn; lia|]. cbn [leading] in Ht. destruct (Ascii.eqb_spec c (chr 0)) as [|Hc]; [discriminate|].
  pose proof (code_positive c Hc) as Hp.
  pose proof (base58_digits_value fuel _ 0 Hf) as Hb. apply base58_value_bound in Hb; [|lia]. cbn [bytes_value] in Hb.
  pose proof (bytes_value_bound (256 * 0 + code c) t ltac:(lia)) as [Hl _]. set (ds := base58_digits _ _ _) in *.
  assert (256 ^ len t < 58 ^ len ds) as Hlt by (pose proof (Z.pow_pos_nonneg 256 (len t) ltac:(lia) (len_nonneg t)); cbn [bytes_value] in *; nia).
  assert (len t < len ds) as Hn.
  { destruct (Z.lt_ge_cases (len t) (len ds)) as [|Hge]; [done|]. exfalso.
    assert (58 ^ len ds <= 58 ^ len t) by (apply Z.pow_le_mono_r; lia). assert (58 ^ len t <= 256 ^ len t) by (apply Z.pow_le_mono_l; lia). lia. }
  cbn [String.length].
  assert (len (Repeat "1" k +:+ ds) = len (Repeat "1" k) + len ds) as Hlen by apply len_app. pose proof (len_nonneg (Repeat "1" k)).
  unfold len in *. lia.
Qed.

(** A number has one spelling in digits that does not start with the zero digit. *)
Lemma base58_char_of_digit c d : base58_digit c = Some d -> base58_char_of d = c.
Proof.
  unfold base58_digit, base58_char_of. assert (forall s i, index_of c i s = Some d -> exists k, d = i + Z.of_nat k /\ String.get k s = Some c) as H.
  { induction s as [|x s IH]; intros i Hc; [discriminate|]. cbn [index_of] in Hc. destruct (Ascii.eqb_spec x c) as [->|].
    - injection Hc as <-. exists O. split; [lia|done].
    - destruct (IH _ Hc) as (k & -> & Hk). exists (S k). split; [lia|done]. }
  intros Hd. destruct (H _ _ Hd) as (k & -> & Hk). replace (Z.to_nat (0 + Z.of_nat k)) with k by lia. by rewrite Hk.
Qed.

Lemma base58_value_inj s : forall t a v, 0 <= a -> len s = len t -> base58_value a s = Some v -> base58_value a t = Some v -> s = t.
Proof.
  induction s as [|c s IH]; intros [|d t] a v Ha Hl Hs Ht; [done|discriminate Hl|discriminate Hl|].
  rewrite !len_cons in Hl. cbn [base58_value] in Hs, Ht. destruct (base58_digit c) as [x|] eqn:Hx; [|discriminate Hs].
  destruct (base58_digit d) as [y|] eqn:Hy; [|discriminate Ht]. pose proof (base58_digit_range _ _ Hx). pose proof (base58_digit_range _ _ Hy).
  pose proof (base58_value_bound (58 * a + x) s v ltac:(lia) Hs) as Bs. pose proof (base58_value_bound (58 * a + y) t v ltac:(lia) Ht) as Bt.
  replace (len t) with (len s) in Bt by lia. pose proof (Z.pow_pos_nonneg 58 (len s) ltac:(lia) (len_nonneg s)).
  assert (x = y) as -> by nia. f_equal; [|apply (IH t (58 * a + y) v); (lia || done)].
  rewrite <- (base58_char_of_digit _ _ Hx). by apply base58_char_of_digit.
Qed.

Lemma base58_value_length s v : leading "1"%char s = O -> base58_value 0 s = Some v ->
  s = "" /\ v = 0 \/ 58 ^ (len s - 1) <= v < 58 ^ len s /\ 1 <= len s.
Proof.
  destruct s as [|c s]; intros Hl Hv; [left; by injection Hv as <-|right]. cbn [leading] in Hl.
  destruct (Ascii.eqb_spec c "1"%char) as [|Hc]; [discriminate Hl|]. cbn [base58_value] in Hv.
  destruct (base58_digit c) as [d|] eqn:Hd; [|discriminate Hv]. pose proof (base58_digit_range _ _ Hd).
  assert (d <> 0) as Hd0. { intros ->. apply base58_char_of_digit in Hd. by destruct Hc. }
  pose proof (base58_value_bound (58 * 0 + d) s v ltac:(lia) Hv) as Hb. rewrite len_cons. pose proof (len_nonneg s).
  pose proof (Z.pow_pos_nonneg 58 (len s) ltac:(lia) (len_nonneg s)). replace (1 + len s - 1) with (len s) by lia.
  rewrite Z.pow_add_r by lia. change (58 ^ 1) with 58. split; [nia|lia].
Qed.

Lemma base58_value_unique s t v : leading "1"%char s = O -> leading "1"%char t = O ->
  base58_value 0 s = Some v -> base58_value 0 t = Some v -> s = t.
Proof.
  intros Ls Lt Hs Ht. apply (base58_value_inj s t 0 v); [done| |done|done].
  destruct (base58_value_length s v Ls Hs) as [(-> & ->)|(Bs & Ns)], (base58_value_length t _ Lt Ht) as [(-> & Hv)|(Bt & Nt)]; try done.
  - pose proof (Z.pow_pos_nonneg 58 (len t - 1) ltac:(lia) ltac:(lia)). lia.
  - pose proof (Z.pow_pos_nonneg 58 (len s - 1) ltac:(lia) ltac:(lia)). lia.
  - destruct (Z.lt_trichotomy (len s) (len t)) as [Hl|[Hl|Hl]]; [|done|]; exfalso.
    + pose proof (Z.pow_le_mono_r 58 (len s) (len t - 1) ltac:(lia) ltac:(lia)). lia.
    + pose proof (Z.pow_le_mono_r 58 (len t) (len s - 1) ltac:(lia) ltac:(lia)). lia.
Qed.

(** The bytes of a number give it back, and do not start with a zero byte. *)
Lemma value_bytes_spec fuel : forall n acc, 0 <= n < 256 ^ Z.of_nat fuel ->
  exists t, value_bytes fuel n acc = t +:+ acc /\ bytes_value 0 t = n /\ leading (chr 0) t = O.
Proof.
  induction fuel as [|f IH]; intros n acc Hn.
  { change (256 ^ Z.of_nat 0) with 1 in Hn. exists "". split; [done|]. split; [cbn; lia|done]. }
  cbn [value_bytes]. destruct (Z.leb_spec n 0); [exists ""; split; [done|]; split; [cbn; lia|done]|].
  rewrite Nat2Z.inj_succ, Z.pow_succ_r in Hn by lia.
  destruct (IH (n / 256) (String (chr (n mod 256)) acc)) as (t & Ht & Hv & Hl).
  { split; [apply Z.div_pos; lia|apply Z.div_lt_upper_bound; lia]. }
  exists (t +:+ String (chr (n mod 256)) ""). rewrite Ht, str_app_assoc. split; [done|].
  assert (forall u a, bytes_value a (u +:+ String (chr (n mod 256)) "") = 256 * bytes_value a u + n mod 256) as Happ.
  { induction u as [|c u IHu]; intros a; cbn [append bytes_value]; [rewrite code_chr by (apply Z.mod_pos_bound; lia); done|apply IHu]. }
  rewrite Happ, Hv. split; [pose proof (Z.div_mod n 256 ltac:(lia)); lia|].
  destruct t as [|c t]; [|cbn [append leading] in *; by destruct (Ascii.eqb c (chr 0))].
  cbn [append leading]. destruct (Ascii.eqb_spec (chr (n mod 256)) (chr 0)) as [Hc|]; [|done]. exfalso.
  cbn [bytes_value] in Hv. apply (f_equal code) in Hc. rewrite !code_chr in Hc by (try apply Z.mod_pos_bound; lia).
  pose proof (Z.div_mod n 256 ltac:(lia)). lia.
Qed.

(** A Base58 text is the spelling of what it decodes to. *)
Lemma base58_one_spelling v data : decodeBase58 v = Some data -> encodeBase58 data = v.
Proof.
  unfold decodeBase58. destruct (base58_value 0 v) as [n|] eqn:Hv; [|done]. intros [= <-].
  destruct (leading_split "1"%char v) as (v' & Hs & Hl'). set (k := leading "1"%char v) in *.
  pose proof (base58_value_bound 0 v n ltac:(lia) Hv) as Hb. rewrite Z.mul_0_l, Z.mul_1_l in Hb.
  destruct (value_bytes_spec (String.length v) n "") as (t & Ht & Hn & Hl).
  { split; [lia|]. eapply Z.lt_le_trans; [apply Hb|]. unfold len. apply Z.pow_le_mono_l. lia. }
  rewrite Ht, str_app_nil_r. set (data := Repeat (String (chr 0) "") k +:+ t). unfold encodeBase58.
  assert (bytes_value 0 data = n) as Hd by (unfold data; by rewrite bytes_value_zeros).
  assert (leading (chr 0) data = k) as -> by (by apply leading_Repeat).
  pose proof (encode_fuel data) as Hf. rewrite Hd in Hf |- *. rewrite Hs at 1. f_equal.
  apply (base58_value_unique _ _ n); [by apply base58_digits_leading|done| |].
  - by rewrite (base58_digits_value _ n 0 Hf), Z.mul_0_l, Z.add_0_l.
  - rewrite Hs, base58_value_ones in Hv. done.
Qed.

(** The first digit, from the magnitude of the number. *)
Lemma base58_digits_top k fuel n d : (k < fuel)%nat -> 0 < d < 58 -> d * 58 ^ Z.of_nat k <= n < (d + 1) * 58 ^ Z.of_nat k ->
  exists r, base58_digits fuel n "" = String (base58_char_of d) r /\ String.length r = k.
Proof.
  revert fuel n. induction k as [|k IH]; intros [|f] n Hk Hd Hn; try lia.
  - change (58 ^ Z.of_nat 0) with 1 in Hn. assert (n = d) as -> by lia. cbn [base58_digits]. destruct (Z.leb_spec d 0); [lia|].
    rewrite Z.div_small, Z.mod_small by lia. exists "". by destruct f.
  - rewrite Nat2Z.inj_succ, Z.pow_succ_r in Hn by lia. pose proof (Z.pow_pos_nonneg 58 (Z.of_nat k) ltac:(lia) ltac:(lia)).
    cbn [base58_digits]. destruct (Z.leb_spec n 0); [nia|]. rewrite base58_digits_acc.
    destruct (IH f (n / 58)) as (r & -> & Hr); [lia|done| |].
    { split; [apply Z.div_le_lower_bound|apply Z.div_lt_upper_bound]; lia. }
    exists (r +:+ String (base58_char_of (n mod 58)) ""). split; [done|]. pose proof (len_app r (String (base58_char_of (n mod 58)) "")) as Hl. unfold len in Hl. cbn [String.length] in Hl. lia.
Qed.

Lemma base58_char_plain d : 0 <= d < 58 -> plain_byte (base58_char_of d) = true.
Proof.
  intros Hd. assert (forallb (fun i => plain_byte (base58_char_of (Z.of_nat i))) (seq 0 58) = true) as Hall by (vm_compute; reflexivity).
  rewrite forallb_forall in Hall. specialize (Hall (Z.to_nat d) ltac:(apply in_seq; lia)). by rewrite Z2Nat.id in Hall by lia.
Qed.

Lemma base58_digits_plain fuel n acc : str_forall plain_byte acc = true -> str_forall plain_byte (base58_digits fuel n acc) = true.
Proof.
  revert n acc. induction fuel as [|f IH]; intros n acc Ha; [done|]. cbn [base58_digits]. destruct (n <=? 0); [done|].
  apply IH. cbn [str_forall]. by rewrite base58_char_plain, Ha by (apply Z.mod_pos_bound; lia).
Qed.

Lemma encodeBase58_plain s : str_forall plain_byte (encodeBase58 s) = true.
Proof.
  unfold encodeBase58. rewrite str_forall_app, base58_digits_plain, andb_true_r by done. induction (leading (chr 0) s) as [|n IH]; [done|]. exact IH.
Qed.

Section addresses.
Context (sha256 : string -> string).
(** SHA-256 gives 32 bytes. *)
Context (sha_len : forall m, String.length (sha256 m) = 32%nat).

Lemma checksum_length p : String.length (checksum sha256 p) = 4%nat.
Proof using sha_len. unfold checksum. apply str_take_length. rewrite sha_len. lia. Qed.

Lemma base58check_roundtrip p : p <> "" -> decodeBase58Check sha256 (encodeBase58Check sha256 p) = Some p.
Proof using sha_len.
  intros Hp. unfold decodeBase58Check, encodeBase58Check. rewrite base58_roundtrip, len_app. pose proof (checksum_length p) as Hc.
  assert (len (checksum sha256 p) = 4) as -> by (unfold len; lia). assert (0 < len p) by (destruct p; [done|]; unfold len; cbn; lia).
  destruct (Z.ltb_spec (len p + 4) 5); [lia|]. replace (Z.to_nat (len p + 4 - 4)) with (String.length p) by (unfold len; lia).
  cbv zeta. rewrite str_take_app, str_drop_exact. by rewrite String.eqb_refl.
Qed.

(** What an account is: a payload of twenty-one bytes, the first one 0x41. *)
Definition tron_payload (p : string) : Prop := len p = 21 /\ byte_at p 0 = 65.

Lemma address_shape p : tron_payload p ->
  exists r, encodeBase58Check sha256 p = String "T" r /\ String.length r = 33%nat.
Proof using sha_len.
  intros [Hl Hb]. unfold encodeBase58Check, encodeBase58. destruct p as [|c p]; [discriminate|]. cbn in Hb.
  pose proof (checksum_length (String c p)) as Hc. set (k := checksum _ _) in *.
  assert (leading (chr 0) (String c p +:+ k) = O) as ->.
  { cbn [append leading]. destruct (Ascii.eqb_spec c (chr 0)) as [->|]; [|done]. cbn in Hb. discriminate. }
  cbn [Repeat append]. change (String "T" ?r) with (String (base58_char_of 26) r). rewrite len_cons in Hl.
  apply base58_digits_top; [| lia |].
  - cbn [String.length]. assert (len (p +:+ k) = 24) by (rewrite len_app; unfold len in *; lia). unfold len in *. lia.
  - cbn [bytes_value]. rewrite Hb. pose proof (bytes_value_bound (256 * 0 + 65) (p +:+ k) ltac:(lia)) as [H1 H2].
    assert (len (p +:+ k) = 24) as Hn by (rewrite len_app; unfold len in *; lia). rewrite Hn in *.
    assert (26 * 58 ^ Z.of_nat 33 <= (256 * 0 + 65) * 256 ^ 24) by (vm_compute; discriminate).
    assert ((256 * 0 + 65 + 1) * 256 ^ 24 <= (26 + 1) * 58 ^ Z.of_nat 33) by (vm_compute; discriminate). lia.
Qed.

Lemma encoded_canonical p : tron_payload p -> canonicalTRONAddress sha256 (encodeBase58Check sha256 p) = Some (encodeBase58Check sha256 p).
Proof using sha_len.
  intros Hp. unfold canonicalTRONAddress. rewrite TrimSpace_plain by apply encodeBase58_plain.
  destruct (address_shape p Hp) as (r & Hr & _). 
  assert (HasPrefix (encodeBase58Check sha256 p) "T" = true) as -> by (rewrite Hr; by destruct r).
  destruct Hp as [Hl Hb]. assert (p <> "") as Hne by (intros ->; vm_compute in Hl; congruence).
  rewrite (base58check_roundtrip p Hne). by rewrite Hl, Hb.
Qed.

Lemma hex_encode_chars s : str_forall hex_char (hex_encode s) = true.
Proof using Type. apply (hex_decode_chars _ s), hex_roundtrip. Qed.

(** Hexadecimal text without the prefix is left as it is by the readers. *)
Lemma hex_untouched h : str_forall hex_char h = true -> lower_ascii h = h ->
  TrimSpace h = h /\ TrimPrefix (lower_ascii h) "0x" = h /\ TrimPrefix h "0x" = h /\ HasPrefix h "T" = false.
Proof using Type.
  intros Hh Hlow. rewrite Hlow, TrimSpace_plain by by apply hex_plain. unfold TrimPrefix.
  assert (HasPrefix h "0x" = false) as ->.
  { destruct h as [|a [|b h]]; [done|cbn; by rewrite andb_false_r|]. cbn [HasPrefix str_forall] in *. apply andb_true_iff in Hh as [_ Hh]. apply andb_true_iff in Hh as [Hb _].
    destruct (Ascii.eqb_spec b "x") as [->|]; [discriminate Hb|]. by rewrite !andb_false_r. }
  repeat split; try done. destruct h as [|a h]; [done|]. cbn [HasPrefix str_forall] in *. apply andb_true_iff in Hh as [Ha _].
  destruct (Ascii.eqb_spec a "T") as [->|]; [discriminate Ha|done].
Qed.

Lemma payload_hex p : tron_payload p -> exists h, hex_encode p = "41" +:+ h /\ len h = 40 /\ str_forall hex_char h = true /\ lower_ascii h = h.
Proof using Type.
  intros [Hl Hb]. destruct p as [|c p]; [discriminate Hl|]. cbn in Hb. exists (hex_encode p). rewrite len_cons in Hl.
  cbn [hex_encode]. rewrite Hb, hex_encode_chars, LegacyFacts.hex_encode_lower. split; [done|]. split; [|done]. unfold len in *. rewrite hex_encode_length. lia.
Qed.

(** Without a "T" in front, the twenty bytes or the twenty-one are read in hexadecimal. *)
Lemma canonical_of_hex h p : str_forall hex_char h = true -> lower_ascii h = h -> len h = 40 -> hex_decode ("41" +:+ h) = Some p ->
  canonicalTRONAddress sha256 h = Some (encodeBase58Check sha256 p) /\
  canonicalTRONAddress sha256 ("41" +:+ h) = Some (encodeBase58Check sha256 p) /\
  canonicalTRONAddress sha256 ("0x41" +:+ h) = Some (encodeBase58Check sha256 p).
Proof using Type.
  intros Hh Hlow Hl Hd. pose proof (len_app "41" h) as Hla. rewrite Hl in Hla. change (len "41" + 40) with 42 in Hla.
  assert (str_forall hex_char ("41" +:+ h) = true) as Hh' by by rewrite str_forall_app, Hh.
  assert (lower_ascii ("41" +:+ h) = "41" +:+ h) as Hlow' by by rewrite lower_ascii_app, Hlow.
  assert (str_forall plain_byte ("0x41" +:+ h) = true) as Hpl by (rewrite str_forall_app; by rewrite (hex_plain h Hh)).
  destruct (hex_untouched h Hh Hlow) as (Ht & Hp & _ & HT). destruct (hex_untouched _ Hh' Hlow') as (Ht' & Hp' & _ & HT').
  unfold canonicalTRONAddress. rewrite Ht, HT, Hp, Ht', HT', Hp', Hl, Hla. rewrite (TrimSpace_plain _ Hpl).
  change (HasPrefix ("0x41" +:+ h) "T") with false. cbv zeta iota. change ("0x41" +:+ h) with ("0x" +:+ ("41" +:+ h)).
  rewrite lower_ascii_app, Hlow'. change (lower_ascii "0x") with "0x". rewrite (Encoding.TrimPrefix_app "0x" ("41" +:+ h)), Hla.
  change (40 =? 40) with true. change (42 =? 40) with false. cbv iota. rewrite Hla. rewrite (Encoding.HasPrefix_app "41" h), Hd. done.
Qed.

Lemma canonical_of_prefixed h p : str_forall hex_char h = true -> lower_ascii h = h -> len h = 40 -> hex_decode ("41" +:+ h) = Some p ->
  canonicalTRONAddress sha256 ("0x" +:+ h) = Some (encodeBase58Check sha256 p).
Proof using Type.
  intros Hh Hlow Hl Hd. assert (str_forall plain_byte ("0x" +:+ h) = true) as Hpx by (rewrite str_forall_app; by rewrite (hex_plain h Hh)).
  unfold canonicalTRONAddress. rewrite (TrimSpace_plain _ Hpx), lower_ascii_app, Hlow. change (lower_ascii "0x") with "0x".
  rewrite (Encoding.TrimPrefix_app "0x" h). change (HasPrefix ("0x" +:+ h) "T") with false. cbv zeta iota. rewrite Hl.
  change (40 =? 40) with true. cbv iota. rewrite len_app, Hl, (Encoding.HasPrefix_app "41" h), Hd. done.
Qed.

Lemma abi_words h a : str_forall hex_char h = true -> lower_ascii h = h -> len h = 40 ->
  canonicalTRONAddress sha256 h = Some a -> canonicalTRONAddress sha256 ("41" +:+ h) = Some a ->
  canonicalTRONABIAddress sha256 (Repeat "0" 24 +:+ h) = Some a /\ canonicalTRONABIAddress sha256 (Repeat "0" 22 +:+ "41" +:+ h) = Some a.
Proof using Type.
  intros Hh Hlow Hl Ha Ha'.
  assert (forall z, str_forall hex_char z = true -> lower_ascii z = z -> lower_ascii (TrimPrefix (TrimSpace (z +:+ h)) "0x") = z +:+ h) as Hw.
  { intros z Hz Hzl. destruct (hex_untouched (z +:+ h)) as (Ht & _ & Hp & _); [by rewrite str_forall_app, Hz, Hh|by rewrite lower_ascii_app, Hzl, Hlow|].
    by rewrite Ht, Hp, lower_ascii_app, Hzl, Hlow. }
  unfold canonicalTRONABIAddress. split.
  - rewrite (Hw (Repeat "0" 24)) by done. rewrite len_app, Hl. exact Ha.
  - change (Repeat "0" 22 +:+ "41" +:+ h) with ((Repeat "0" 22 +:+ "41") +:+ h). rewrite (Hw (Repeat "0" 22 +:+ "41")) by done.
    rewrite len_app, Hl. exact Ha'.
Qed.

Lemma hex_decode_length s t : hex_decode s = Some t -> len s = 2 * len t.
Proof using Type.
  revert t. enough (forall n s t, (String.length s <= n)%nat -> hex_decode s = Some t -> len s = 2 * len t) as H by (intros; by eapply H).
  intros n. induction n as [|n IH]; intros [|a [|b r]] t Hl H; cbn in Hl; try lia; try discriminate H; try (by injection H as <-).
  cbn [hex_decode] in H. destruct (hex_value a); [|done]. destruct (hex_value b); [|done]. destruct (hex_decode r) as [u|] eqn:Er; [|done].
  injection H as <-. rewrite !len_cons, (IH r u) by (done || lia). lia.
Qed.

(** The hexadecimal spellings of an account, in either case: with or without the
    network byte, each with or without the prefix. *)
Definition hex_text (p v : string) : Prop :=
  In (lower_ascii (TrimSpace v)) [hex_encode p; "0x" +:+ hex_encode p; str_drop 2 (hex_encode p); "0x" +:+ str_drop 2 (hex_encode p)].

(** The spellings of an account: its Base58Check text, and the hexadecimal ones. *)
Definition address_text (p v : string) : Prop := TrimSpace v = encodeBase58Check sha256 p \/ hex_text p v.

Lemma decoded_check v p : decodeBase58Check sha256 v = Some p -> v = encodeBase58Check sha256 p.
Proof using Type.
  unfold decodeBase58Check, encodeBase58Check. destruct (decodeBase58 v) as [data|] eqn:Ed; [|done]. destruct (len data <? 5); [done|].
  cbv zeta. destruct (_ != _) eqn:Ec; [done|]. intros [= <-]. apply negb_false_iff, String.eqb_eq in Ec. rewrite <- Ec, str_take_drop.
  symmetry. by apply base58_one_spelling.
Qed.

Lemma payload_of_hex raw p : len raw = 42 -> HasPrefix raw "41" = true -> lower_ascii raw = raw -> hex_decode raw = Some p ->
  tron_payload p /\ raw = hex_encode p.
Proof using Type.
  intros El E2 Hlow Ed. split; [|symmetry; by eapply LegacyFacts.hex_decode_encode]. apply HasPrefix_iff in E2.
  pose proof (hex_decode_length _ _ Ed). split; [lia|]. rewrite E2 in Ed. cbn [append hex_decode] in Ed.
  destruct (hex_value "4") as [x|] eqn:Hx; [|discriminate]. destruct (hex_value "1") as [y|] eqn:Hy; [|discriminate].
  destruct (hex_decode _) as [u|] in Ed; [|discriminate]. injection Ed as <-. vm_compute in Hx, Hy. injection Hx as <-. injection Hy as <-. reflexivity.
Qed.

Lemma lower_suffix u v : lower_ascii (u +:+ v) = u +:+ v -> lower_ascii v = v.
Proof using Type. intros H. rewrite lower_ascii_app in H. induction u as [|c u IH]; [done|]. cbn [lower_ascii append] in H. injection H as _ H. by apply IH. Qed.

Lemma lower_prefix u v : lower_ascii (u +:+ v) = u +:+ v -> lower_ascii u = u.
Proof using Type.
  induction u as [|c u IH]; [done|]. cbn [lower_ascii append]. intros H. injection H as Hc H. rewrite Hc. f_equal. by apply IH.
Qed.

(** Whatever is accepted is a spelling of the account it is read as. *)
Lemma canonical_is_account v a : canonicalTRONAddress sha256 v = Some a ->
  exists p, tron_payload p /\ a = encodeBase58Check sha256 p /\ address_text p v.
Proof using Type.
  unfold canonicalTRONAddress, address_text, hex_text. set (t := TrimSpace v). destruct (HasPrefix t "T").
  - destruct (decodeBase58Check sha256 t) as [p|] eqn:Ed; [|discriminate]. intros H. destruct (_ || _) eqn:Eg in H; [discriminate|].
    injection H as <-. exists p. apply orb_false_iff in Eg as [E1 E2]. apply negb_false_iff, Z.eqb_eq in E1, E2.
    split; [done|]. split; [done|]. left. by apply decoded_check.
  - cbv zeta. set (l := lower_ascii t). set (w := TrimPrefix l "0x"). intros H.
    assert (Hw : lower_ascii w = w /\ (l = w \/ l = "0x" +:+ w)).
    { pose proof (lower_ascii_idem t) as Hl. fold l in Hl. unfold w. destruct (HasPrefix l "0x") eqn:Ex.
      - apply Encoding.HasPrefix_split in Ex. split; [|by right]. apply (lower_suffix "0x"). by rewrite <- Ex.
      - unfold TrimPrefix. rewrite Ex. split; [done|by left]. }
    destruct Hw as [Hlow Hsp]. remember (if len w =? 40 then "41" +:+ w else w) as raw eqn:Hraw.
    assert (Hrl : lower_ascii raw = raw) by (subst raw; destruct (len w =? 40); [by rewrite lower_ascii_app, Hlow|done]).
    destruct (_ || _) eqn:Eg in H; [discriminate|].
    apply orb_false_iff in Eg as [E1 E2]. apply negb_false_iff in E1, E2. apply Z.eqb_eq in E1.
    destruct (hex_decode raw) as [p|] eqn:Ed; [|discriminate]. injection H as <-. exists p.
    destruct (payload_of_hex raw p E1 E2 Hrl Ed) as [Hp Hh]. split; [done|]. split; [done|]. right. rewrite <- Hh. cbn [In].
    destruct (len w =? 40); subst raw; [change (str_drop 2 ("41" +:+ w)) with w|]; destruct Hsp as [Hsp|Hsp]; rewrite Hsp; tauto.
Qed.

Lemma canonical_trimmed v w : TrimSpace v = TrimSpace w -> canonicalTRONAddress sha256 v = canonicalTRONAddress sha256 w.
Proof using Type. unfold canonicalTRONAddress. by intros ->. Qed.

(** The case of hexadecimal digits does not matter. *)
Lemma canonical_lowered v l : lower_ascii (TrimSpace v) = l -> str_forall plain_byte l = true -> HasPrefix l "t" = false ->
  canonicalTRONAddress sha256 v = canonicalTRONAddress sha256 l.
Proof using Type.
  intros Hl Hp Ht. unfold canonicalTRONAddress. rewrite (TrimSpace_plain l Hp).
  assert (HasPrefix (TrimSpace v) "T" = false) as ->.
  { destruct (TrimSpace v) as [|c r]; [done|]. cbn [lower_ascii] in Hl. subst l. cbn [HasPrefix] in *.
    destruct (Ascii.eqb_spec c "T") as [->|]; [exfalso; revert Ht; cbn; by destruct (lower_ascii r)|done]. }
  assert (HasPrefix l "T" = false /\ lower_ascii l = l) as [-> Hll].
  { subst l. split; [|apply lower_ascii_idem]. destruct (TrimSpace v) as [|c r]; [done|]. cbn [lower_ascii HasPrefix].
    destruct (Ascii.eqb_spec (lower_byte c) "T") as [E|]; [|done]. exfalso. clear - E. destruct c as [[][][][][][][][]]; discriminate E. }
  by rewrite Hl, Hll.
Qed.

Lemma spelling_accepted p v : tron_payload p -> address_text p v -> canonicalTRONAddress sha256 v = Some (encodeBase58Check sha256 p).
Proof using sha_len.
  intros Hp Hv. destruct (payload_hex p Hp) as (w & Hw & Hl & Hc & Hlow). destruct Hv as [Ht|Hv].
  - rewrite (canonical_trimmed v (encodeBase58Check sha256 p)); [by apply encoded_canonical|]. rewrite Ht; symmetry; apply TrimSpace_plain, encodeBase58_plain.
  - unfold hex_text in Hv. rewrite Hw in Hv. change (str_drop 2 ("41" +:+ w)) with w in Hv.
    assert (hex_decode ("41" +:+ w) = Some p) as Hd by (rewrite <- Hw; apply hex_roundtrip).
    destruct (canonical_of_hex w p Hc Hlow Hl Hd) as (C1 & C2 & C3). pose proof (canonical_of_prefixed w p Hc Hlow Hl Hd) as C4.
    assert (HasPrefix w "t" = false) as Hwt.
    { destruct w as [|c r]; [done|]. cbn [str_forall HasPrefix] in *. apply andb_true_iff in Hc as [Hc _].
      destruct (Ascii.eqb_spec c "t") as [->|]; [discriminate Hc|done]. }
    assert (forall z, str_forall plain_byte z = true -> str_forall plain_byte (z +:+ w) = true) as Hpz
      by (intros z Hz; by rewrite str_forall_app, Hz, (hex_plain w Hc)).
    cbn [In] in Hv. destruct Hv as [Hv|[Hv|[Hv|[Hv|[]]]]]; symmetry in Hv;
      (rewrite (canonical_lowered v _ Hv); [done| |done || exact Hwt]); [by apply (Hpz "41")|by apply (Hpz "0x41")|by apply (Hpz "")|by apply (Hpz "0x")].
Qed.

Lemma trimmed_part u : len (TrimSpace u) <= len u /\ (len (TrimSpace u) = len u -> TrimSpace u = u) /\ (lower_ascii u = u -> lower_ascii (TrimSpace u) = TrimSpace u).
Proof using Type.
  destruct (TrimSpace_split u) as (x & y & Hu). set (t := TrimSpace u) in *. clearbody t. pose proof (f_equal len Hu) as Hl. rewrite !len_app in Hl.
  pose proof (len_nonneg x). pose proof (len_nonneg y). split; [lia|]. split.
  - intros He. destruct x; [|rewrite len_cons in Hl; pose proof (len_nonneg x); lia]. destruct y; [by rewrite str_app_nil_r in Hu|].
    rewrite len_cons in Hl. pose proof (len_nonneg y). change (len "") with 0 in *. lia.
  - intros Hlow. rewrite Hu in Hlow. apply lower_suffix, lower_prefix in Hlow. exact Hlow.
Qed.

(** Text in lower case is no Base58 address. *)
Lemma lower_is_hex w a : lower_ascii w = w -> canonicalTRONAddress sha256 w = Some a ->
  exists p, tron_payload p /\ a = encodeBase58Check sha256 p /\ hex_text p w.
Proof using sha_len.
  intros Hlow Ha. destruct (canonical_is_account w a Ha) as (p & Hp & He & [Ht|Ht]); [|by exists p]. exfalso.
  destruct (trimmed_part w) as (_ & _ & Hl). specialize (Hl Hlow). destruct (address_shape p Hp) as (r & Hr & _). rewrite Ht, Hr in Hl. discriminate Hl.
Qed.

(** What the ABI reader accepts: an address in hexadecimal, or a word of 64 digits
    that pads one with zeros. *)
Lemma abi_is_account v a : canonicalTRONABIAddress sha256 v = Some a ->
  exists p n, tron_payload p /\ a = encodeBase58Check sha256 p /\
    let w := lower_ascii (TrimPrefix (TrimSpace v) "0x") in
    (n = O \/ len w = 64 /\ (n = 22%nat \/ n = 24%nat)) /\ w = Repeat "0" n +:+ str_drop n w /\ hex_text p (str_drop n w).
Proof using sha_len.
  unfold canonicalTRONABIAddress. cbv zeta. set (w := lower_ascii _). assert (Hlow : lower_ascii w = w) by apply lower_ascii_idem. clearbody w.
  assert (Hdrop : forall n, str_take n w = Repeat "0" n -> canonicalTRONAddress sha256 (str_drop n w) = Some a ->
    exists p, tron_payload p /\ a = encodeBase58Check sha256 p /\ w = Repeat "0" n +:+ str_drop n w /\ hex_text p (str_drop n w)).
  { intros n Hn Ha. pose proof (str_take_drop n w) as Hw. rewrite Hn in Hw. rewrite <- Hw in Hlow. apply lower_suffix in Hlow.
    destruct (lower_is_hex _ _ Hlow Ha) as (p & ? & ? & ?). by exists p. }
  destruct (Z.eqb_spec (len w) 64) as [H64|].
  - destruct (String.eqb_spec (str_take 24 w) (Repeat "0" 24)) as [H24|].
    + intros Ha. destruct (Hdrop 24%nat H24 Ha) as (p & ? & ? & ? & ?). exists p, 24%nat. split_and!; try done. right. by split; [|right].
    + destruct (String.eqb_spec (str_take 22 w) (Repeat "0" 22)) as [H22|]; [|done]. destruct (_ == "41"); [|done].
      intros Ha. destruct (Hdrop 22%nat H22 Ha) as (p & ? & ? & ? & ?). exists p, 22%nat. split_and!; try done. right. by split; [|left].
  - intros Ha. destruct (Hdrop O eq_refl Ha) as (p & ? & ? & ? & ?). exists p, O. split_and!; try done. by left.
Qed.

(** Digits in either case are read as they are. *)
Lemma digits_kept v w : str_forall hex_char w = true -> lower_ascii v = w ->
  TrimSpace v = v /\ TrimPrefix v "0x" = v /\ str_forall plain_byte v = true.
Proof using Type.
  intros Hw <-. assert (forall c, hex_char (lower_byte c) = true -> plain_byte c = true /\ c <> "x"%char) as Hc.
  { intros c. destruct c as [[][][][][][][][]]; vm_compute; intros H; (discriminate H || (split; [reflexivity|discriminate])). }
  assert (str_forall plain_byte v = true) as Hp.
  { induction v as [|c v IH]; [done|]. cbn [str_forall lower_ascii] in *. apply andb_true_iff in Hw as [H1 H2]. apply Hc in H1 as [-> _]. by apply IH. }
  split; [by apply TrimSpace_plain|]. split; [|done]. clear Hp. unfold TrimPrefix. destruct v as [|c [|d v]]; [done|cbn; by rewrite andb_false_r|].
  cbn [str_forall lower_ascii] in Hw. apply andb_true_iff in Hw as [_ Hw]. apply andb_true_iff in Hw as [Hd _]. apply Hc in Hd as [_ Hd].
  cbn [HasPrefix]. apply Ascii.eqb_neq in Hd. by rewrite Hd, andb_false_r.
Qed.
End addresses.

(** ** GasFree payments *)

Section gasfree.
Context (s : TRONSource).

Definition payments (l : list TRONTransfer) : list TRONTransfer := List.filter (fun t => negb (is_fee s t)) l.
Definition fee_transfers (l : list TRONTransfer) : list TRONTransfer := List.filter (is_fee s) l.
Definition payer_of (t : TRONTransfer) : string * string := (tt_From t, tt_AssetID t).

(** The reference: the fee of a payment is the transfer of the same payer in the
    same asset to a collector. *)
Definition fee_for (token : list TRONTransfer) (t : TRONTransfer) : option TRONTransfer :=
  List.find (fun f => bool_decide (payer_of f = payer_of t)) (fee_transfers token).
Definition attributed (token : list TRONTransfer) (t : TRONTransfer) : TRONTransfer :=
  mkTRONTransfer (tt_Index t) (tt_From t) (tt_To t) (tt_AssetID t) (tt_ReceivedAmount t) (tt_Decimals t) "gasfree"
    (from_option tt_ReceivedAmount (tt_FeeDeductedAmount t) (fee_for token t)) (from_option tt_To (tt_FeeCollector t) (fee_for token t)).

Lemma collect_fees_ok fees l m : collect_fees s fees l = Ok m <->
  NoDup (map fee_key (fee_transfers l)) /\ (forall t, In t (fee_transfers l) -> fees !! fee_key t = None) /\
  m = fold_left (fun acc t => <[fee_key t := t]> acc) (fee_transfers l) fees.
Proof using Type.
  revert fees. induction l as [|t l IH]; intros fees; cbn [collect_fees fee_transfers List.filter].
  { split; [intros [= <-]; split_and!; [constructor|done|done]|by intros (_ & _ & ->)]. }
  destruct (is_fee s t); [|apply IH]. cbn [map fold_left]. fold (fee_transfers l). destruct (fees !! fee_key t) as [x|] eqn:Ef.
  - split; [discriminate|]. intros (_ & H & _). specialize (H t ltac:(by left)). congruence.
  - rewrite IH. split.
    + intros (Hn & Hf & Hm). split_and!; [|intros u [->|Hu]; [done|]|done].
      * apply NoDup_cons. split; [|done]. intros (u & Hk & Hu%list_elem_of_In)%list_elem_of_fmap. specialize (Hf u Hu). rewrite Hk, lookup_insert_eq in Hf. done.
      * specialize (Hf u Hu). by apply lookup_insert_None in Hf as [? _].
    + intros ([Hk Hn]%NoDup_cons & Hf & Hm). split_and!; [done| |done]. intros u Hu. apply lookup_insert_None. split; [apply Hf; by right|].
      intros He. apply Hk. rewrite He. by apply list_elem_of_In, in_map.
Qed.

Lemma collected_lookup l (fees : gmap string TRONTransfer) k : NoDup (map fee_key l) -> (forall t, In t l -> fees !! fee_key t = None) ->
  fold_left (fun acc t => <[fee_key t := t]> acc) l fees !! k = match List.find (fun f => bool_decide (fee_key f = k)) l with Some f => Some f | None => fees !! k end.
Proof using Type.
  revert fees. induction l as [|t l IH]; intros fees Hn Hf; [done|]. cbn [fold_left List.find]. apply NoDup_cons in Hn as [Ht Hn].
  assert (forall u, In u l -> fee_key u <> fee_key t) as Hne by (intros u Hu He; apply Ht; rewrite <- He; by apply list_elem_of_In, in_map).
  rewrite IH; [|done|].
  - case_bool_decide as Hk.
    + subst k. destruct (List.find _ l) as [f|] eqn:Efi; [|by rewrite lookup_insert_eq]. exfalso. apply find_some in Efi as [Hin Hb].
      apply bool_decide_eq_true in Hb. by apply (Hne f).
    + destruct (List.find _ l); [done|]. by rewrite lookup_insert_ne.
  - intros u Hu. rewrite lookup_insert_ne by (intros He; by apply (Hne u)). apply Hf. by right.
Qed.

Lemma recipients_count key l : recipients s key l = count_occ String.string_dec (map fee_key (payments l)) key.
Proof using Type.
  unfold recipients, payments. induction l as [|t l IH]; [done|]. cbn [List.filter]. destruct (is_fee s t); cbn [negb andb]; [exact IH|].
  cbn [map count_occ]. destruct (String.eqb_spec (fee_key t) key), (String.string_dec (fee_key t) key); try congruence; cbn [length]; by rewrite IH.
Qed.

Lemma gasfree_payments_ok all fees l r : gasfree_payments s all fees l = Ok r <->
  (forall t, In t (payments l) -> recipients s (fee_key t) all = 1%nat) /\ r = map (with_fee fees) (payments l).
Proof using Type.
  revert r. induction l as [|t l IH]; intros r; cbn [gasfree_payments payments List.filter].
  { split; [by intros [= <-]|by intros [_ ->]]. }
  destruct (is_fee s t); cbn [negb]; [apply IH|]. fold (payments l). cbn [map]. destruct (Nat.eqb_spec (recipients s (fee_key t) all) 1) as [H1|H1]; cbn [negb].
  - rewrite bind_ok_iff. split.
    + intros (more & Hm & [= <-]). apply IH in Hm as [Hall ->]. split; [|done]. intros u [->|Hu]; [done|by apply Hall].
    + intros [Hall ->]. eexists. split; [|reflexivity]. apply IH. split; [|done]. intros u Hu. apply Hall. by right.
  - split; [discriminate|]. intros [Hall _]. destruct H1. apply Hall. by left.
Qed.

(** Two transfers have one key exactly when payer and asset agree. *)
Definition no_nul (x : string) : Prop := str_no (chr 0) x = true.

Lemma fee_key_iff t u : no_nul (tt_From t) -> no_nul (tt_From u) -> fee_key t = fee_key u <-> payer_of t = payer_of u.
Proof using Type.
  intros Ht Hu. unfold fee_key, payer_of. split; [|congruence]. intros H. apply str_app_sep_inj in H as [-> ->]; done.
Qed.

Definition plain_payers (l : list TRONTransfer) : Prop := forall t, In t l -> no_nul (tt_From t).

Lemma plain_payers_filter p l : plain_payers l -> plain_payers (List.filter p l).
Proof using Type. intros H t [Ht _]%filter_In. by apply H. Qed.

Lemma fee_keys_distinct l : plain_payers l -> NoDup (map fee_key l) <-> NoDup (map payer_of l).
Proof using Type.
  intros Hl. split; apply NoDup_map_inj_on; intros x y Hx Hy; apply (fee_key_iff x y (Hl x Hx) (Hl y Hy)).
Qed.

Lemma gasfree_reference token r : plain_payers token ->
  (fees ← collect_fees s ∅ token; gasfree_payments s token fees token) = Ok r <->
  NoDup (map payer_of (fee_transfers token)) /\ NoDup (map payer_of (payments token)) /\ r = map (attributed token) (payments token).
Proof using Type.
  intros Hp. assert (plain_payers (fee_transfers token)) as Hpf by by apply plain_payers_filter.
  assert (plain_payers (payments token)) as Hpp by by apply plain_payers_filter.
  rewrite bind_ok_iff, <- (fee_keys_distinct _ Hpf), <- (fee_keys_distinct _ Hpp).
  set (m := fold_left (fun (acc : gmap string TRONTransfer) t => <[fee_key t := t]> acc) (fee_transfers token) ∅).
  assert (NoDup (map fee_key (fee_transfers token)) -> map (with_fee m) (payments token) = map (attributed token) (payments token)) as Hmap.
  { intros Hn. apply map_ext_in. intros t Ht. unfold with_fee, attributed, m. rewrite collected_lookup by (done || intros; apply lookup_empty).
    assert (List.find (fun f => bool_decide (fee_key f = fee_key t)) (fee_transfers token) = fee_for token t) as ->.
    { unfold fee_for. specialize (Hpp t Ht). clear Hp Hn m. induction (fee_transfers token) as [|f l IH]; [done|]. cbn [List.find].
      rewrite (bool_decide_ext (fee_key f = fee_key t) (payer_of f = payer_of t)); [|apply fee_key_iff; [apply Hpf; by left|done]].
      destruct (bool_decide _); [done|]. apply IH. intros u Hu. apply Hpf. by right. }
    destruct (fee_for token t); [done|]. cbn. by rewrite lookup_empty. }
  assert ((forall t, In t (payments token) -> recipients s (fee_key t) token = 1%nat) <-> NoDup (map fee_key (payments token))) as Hone.
  { rewrite NoDup_ListNoDup, (NoDup_count_occ' String.string_dec). split.
    - intros H k Hk. apply in_map_iff in Hk as (t & <- & Ht). rewrite <- recipients_count. by apply H.
    - intros H t Ht. rewrite recipients_count. apply H, in_map_iff. by exists t. }
  split.
  - intros (fees & Hf & Hg). apply collect_fees_ok in Hf as (Hn & _ & ->). apply gasfree_payments_ok in Hg as [H1 ->].
    split_and!; [done|by apply Hone|by apply Hmap].
  - intros (Hn & H1 & ->). exists m. split; [apply collect_fees_ok; split_and!; [done|intros; apply lookup_empty|done]|].
    apply gasfree_payments_ok. split; [by apply Hone|by rewrite Hmap].
Qed.
End gasfree.

(** ** Numbers *)

Lemma parseUintNumber_range v n : parseUintNumber v = Some n -> is_uint64 n.
Proof.
  unfold parseUintNumber. destruct (big_SetString10 v) as [m|]; [|discriminate]. cbn [mbind option_bind]. destruct (Z.ltb_spec m 0); [discriminate|].
  destruct (Z.ltb_spec 64 (BitLen m)) as [|Hb]; [discriminate|]. intros [= <-]. unfold is_uint64, max_uint64. split; [done|].
  unfold BitLen in Hb. destruct (Z.eqb_spec m 0) as [->|Hm]; [lia|]. rewrite Z.abs_eq in Hb by done.
  assert (m < 2 ^ 64) by (apply Z.log2_lt_pow2; lia). lia.
Qed.

Lemma numberUint64_range v n : numberUint64 v = Some n -> is_uint64 n.
Proof. unfold numberUint64. destruct (_ || _); [discriminate|]. apply parseUintNumber_range. Qed.

(** ** Ranges with a block for every height *)

(** What binds an event to the block it was read from. *)
Definition bound_to (sha256 : string -> string) (chainID : string) (safe : Z) (b : Block) (e : TransferEvent) : Prop :=
  te_BlockHeight e = bl_Height b /\ te_BlockHash e = bl_Hash b /\ te_OnChainTime e = truncate_micro (bl_Time b) /\
  te_Status e = TransferFinalized /\ te_Confirmations e = confirmations safe (bl_Height b) /\ 0 < te_Amount e < amount_limit /\
  ei_ChainID (te_Identity e) = TrimSpace chainID /\ canonicalEventID sha256 (te_Identity e) = Ok (te_ID e).

Definition dense_batch (from to : Z) (blocks : list Block) (events : list TransferEvent) : RangeBatch :=
  mkBatch from to blocks events [] false false false.

(** Such a range meets the contract of the worker when its blocks are linked. *)
Lemma dense_covers sha256 chainID safe from to blocks events : from <= to ->
  Forall2 (fun h b => bl_Height b = h /\ bl_Hash b <> "" /\ IsZeroTime (bl_Time b) = false) (heights from to) blocks ->
  Forall (fun e => exists b, b ∈ blocks /\ bound_to sha256 chainID safe b e) events ->
  Sorted (links (dense_batch from to blocks events)) blocks -> covers (dense_batch from to blocks events) from to.
Proof.
  intros Hle Hg He Hl. assert (bl_Height <$> blocks = heights from to) as Hh.
  { clear -Hg. induction Hg as [|h b hs bs [Hb _] _ IH]; cbn; [done|]. by rewrite Hb, IH. }
  constructor; cbn; try done.
  - intros _. split; [done|]. rewrite <- heights_seqZ. exact Hh.
  - apply Forall_forall. intros b Hb. destruct (Forall2_elem_r _ _ _ _ Hg Hb) as (h & Hin & Hbh & Hhash & Ht0).
    apply list_elem_of_In, heights_In in Hin. split_and!; cbn; [lia|lia|done|done].
  - exact (last_height _ _ _ Hh (heights_last from to Hle)).
  - intros e Hin. rewrite Forall_forall in He. destruct (He e Hin) as (b & Hb & B1 & B2 & _). by exists b.
Qed.

(** ** Transactions *)

Section source.
Context (sha256 : string -> string) (s : TRONSource) (node : TronNode) (evidence : tronTransaction -> option tronTransactionInfo -> string).

Lemma account_no_nul v a : canonicalTRONAddress sha256 v = Some a -> no_nul a.
Proof using Type.
  intros (p & _ & -> & _)%canonical_is_account. unfold no_nul, encodeBase58Check. eapply str_forall_impl; [|apply encodeBase58_plain].
  intros c Hc. destruct (Ascii.eqb_spec c (chr 0)) as [->|]; [discriminate Hc|done].
Qed.

(** A log that counts names a configured asset and two accounts. *)
Lemma log_transfer_sound i log t : log_transfer sha256 s i log = Ok (Some t) ->
  exists contract asset from to, canonicalTRONAddress sha256 (tl_Address log) = Some contract /\ tn_assets s !! contract = Some asset /\
    canonicalTRONAddress sha256 from = Some (tt_From t) /\ canonicalTRONAddress sha256 to = Some (tt_To t) /\
    tt_AssetID t = ta_AssetID asset /\ tt_Decimals t = ta_Decimals asset /\ parseRawHexAmount (tl_Data log) = Some (tt_ReceivedAmount t).
Proof using Type.
  unfold log_transfer. destruct (tl_Topics log) as [|topic [|f [|u [|? ?]]]]; try discriminate. destruct (_ != _); [discriminate|].
  destruct (canonicalTRONAddress sha256 (tl_Address log)) as [contract|]; [|discriminate]. destruct (tn_assets s !! contract) as [asset|] eqn:Ea; [|discriminate].
  intros H. bind_step H. bind_step H. apply of_option_ok in E, E0. destruct (parseRawHexAmount (tl_Data log)) as [amount|]; [|discriminate].
  destruct (amount == "0"); [discriminate|]. injection H as <-. unfold tronAddressFromTopic in E, E0.
  destruct (_ || _) in E; [discriminate|]. destruct (_ || _) in E0; [discriminate|]. by exists contract, asset, (str_drop 24 (normalizeHex64 f)), (str_drop 24 (normalizeHex64 u)).
Qed.

Lemma log_transfers_In i logs l t : log_transfers sha256 s i logs = Ok l -> In t l -> exists j log, In log logs /\ log_transfer sha256 s j log = Ok (Some t).
Proof using Type.
  revert i l. induction logs as [|log logs IH]; intros i l H Ht; cbn [log_transfers] in H; [injection H as <-; done|].
  bind_step H. bind_step H. injection H as <-. destruct x as [u|].
  - destruct Ht as [->|Ht]; [exists i, log; split; [by left|done]|]. destruct (IH _ _ E0 Ht) as (j & g & Hg & Hj). exists j, g. split; [by right|done].
  - destruct (IH _ _ E0 Ht) as (j & g & Hg & Hj). exists j, g. split; [by right|done].
Qed.

Lemma log_transfers_plain i logs l : log_transfers sha256 s i logs = Ok l -> plain_payers l.
Proof using Type.
  intros H t Ht. destruct (log_transfers_In _ _ _ _ H Ht) as (j & log & _ & Hj). apply log_transfer_sound in Hj as (? & ? & from & ? & _ & _ & Hf & _).
  by eapply account_no_nul.
Qed.

Lemma hash_word v h : canonicalTRONHash v = Some h -> str_forall hex_char h = true /\ lower_ascii h = h /\ len h = 64 /\ canonicalHexIdentifier h = h /\ canonicalTRONHash h = Some h.
Proof using Type.
  unfold canonicalTRONHash at 1. cbv zeta. destruct (negb _) eqn:El; [discriminate|]. destruct (hex_decode _) as [u|] eqn:Ed; [|discriminate]. intros H.
  assert (h = lower_ascii (TrimPrefix (TrimSpace v) "0x")) as Hh by congruence. rewrite <- Hh in *. apply negb_false_iff, Z.eqb_eq in El.
  pose proof (hex_decode_chars _ _ Ed) as Hc. assert (lower_ascii h = h) as Hlow by (rewrite Hh; apply lower_ascii_idem).
  destruct (hex_untouched h Hc Hlow) as (Ht & _ & Hp & _). split_and!; [done|done|done| |].
  - pose proof (canonical_hex "" h) as Hx. cbn [append] in Hx. rewrite Hx; [cbn; exact Hlow|]. split; [by left|]. split; [|done]. intros ->. discriminate El.
  - unfold canonicalTRONHash. rewrite Ht, Hp, Hlow. cbv zeta. by rewrite El, Ed.
Qed.

Lemma tron_facts_common v : Forall (fun f => ft_BlockHeight f = tr_BlockHeight v /\ ft_BlockHash f = canonicalHexIdentifier (tr_BlockHash v) /\
  ft_BlockTime f = tr_BlockTime v /\ ft_Status f = finality (tr_Finalized v) /\ ft_Confirmations f = tr_Confirmations v) (tron_facts v).
Proof using Type.
  unfold tron_facts. apply Forall_concat_list, Forall_map_iff, Forall_true. intros x. unfold tron_transfer_facts.
  constructor; [done|]. destruct (_ && _); [by constructor|constructor].
Qed.

Lemma normalizeTRONTransaction_sound tx b safe events : canonicalTRONHash (bl_Hash b) = Some (bl_Hash b) ->
  normalizeTRONTransaction sha256 s node evidence tx (bl_Height b) (bl_Hash b) (bl_Time b) safe = Ok events -> Forall (bound_to sha256 (tn_chainID s) safe b) events.
Proof using Type.
  intros Hb H. unfold normalizeTRONTransaction in H. bind_step H. apply of_option_ok in E. bind_step H. destruct x0 as [[relevant requiresInfo] direct].
  destruct (negb relevant); [injection H as <-; constructor|]. bind_step H. bind_step H. apply lift_err_ok in H.
  pose proof (adapters_normalize sha256 None (tn_chainID s) x) as (_ & _ & _ & Had & _). rewrite Had in H. clear Had.
  apply adapter_answers in H as (v & Hv & [_ Hfail Hfacts Htx Hid]). set (w := mkTRONTransaction _ _ _ _ _ _ _ _ _) in Hv. assert (v = w) as -> by congruence. clear Hv.
  cbn [rp_success tron_report] in Hfail, Hfacts. destruct (tr_Success w); [|rewrite (Hfail eq_refl); constructor]. specialize (Hfacts eq_refl).
  pose proof (tron_facts_common w) as Hcom. rewrite Forall_forall in Hcom; rewrite Forall_forall in Htx; rewrite Forall_forall in Hid; apply Forall_forall. intros e He.
  destruct (Forall2_elem_r _ _ _ _ Hfacts He) as (f & Hf & [_ _ _ (E3 & E4 & _) E5 (E6 & E7) _]). destruct (Hcom f Hf) as (C1 & C2 & C3 & C4 & C5).
  destruct (Htx e He) as (T1 & _ & T2). apply hash_word in Hb as (Hhex & Hlow & _ & Hcan & _). unfold bound_to, w in *. cbn [tr_BlockHeight tr_BlockHash tr_BlockTime tr_Finalized tr_Confirmations] in *.
  rewrite E3, E4, E5, E6, E7, C1, C2, C3, C4, C5, Hcan, TrimSpace_plain by by apply hex_plain. split_and!; try done; try apply T2. exact (Hid e He).
Qed.

Definition tron_good_block (height : Z) (b : Block) : Prop :=
  bl_Height b = height /\ canonicalTRONHash (bl_Hash b) = Some (bl_Hash b) /\ IsZeroTime (bl_Time b) = false.

Lemma tron_block_sound safe height b events : tron_block sha256 s node evidence safe height = Ok (b, events) ->
  tron_good_block height b /\ Forall (bound_to sha256 (tn_chainID s) safe b) events.
Proof using Type.
  unfold tron_block. intros H. bind_step H. unfold validateTRONBlock in H. destruct (canonicalTRONHash (tb_BlockID x)) as [hash|] eqn:Eh; [|discriminate H]. cbn [mbind option_bind] in H.
  destruct (numberUint64 (tb_Number x)) as [n|]; [|discriminate H]. cbn [mbind option_bind] in H.
  destruct (numberUint64 (tb_Timestamp x)) as [ms|] eqn:Em; [|discriminate H]. cbn [mbind option_bind] in H. destruct (max_int64 <? ms); [discriminate H|].
  destruct (Z.eqb_spec n height) as [->|]; [|discriminate H]. cbn [negb] in H. destruct (_ && _); [discriminate H|]. cbn [default from_option] in H. unfold id in H. bind_step H.
  injection H as Hb He. apply hash_word in Eh as (_ & _ & _ & _ & Hcan).
  split; [subst b; split_and!; [done|done|]|].
  - cbn [bl_Time]. apply numberUint64_range in Em. unfold IsZeroTime, unix_epoch, Millisecond, Second in *. apply Z.eqb_neq. destruct Em. lia.
  - rewrite <- He. apply Forall_concat_list. eapply traverse_Forall; [exact E0|]. intros tx es Hes. apply (normalizeTRONTransaction_sound tx b safe es); by subst b.
Qed.

Lemma tron_scan_ok st from to st' batch : TRON_ScanRange sha256 s node evidence st from to = (st', Ok batch) ->
  from <= to /\ exists safe blocks, tron_safe node st = (st', Ok safe) /\ to <= safe /\
    traverse (tron_block sha256 s node evidence safe) (heights from to) = Ok blocks /\
    batch = mkBatch from to (map fst blocks) (concat (map snd blocks)) [] false false false.
Proof using Type.
  unfold TRON_ScanRange. destruct (Z.ltb_spec to from); [discriminate|]. destruct (_ <? _); [discriminate|]. cbn [orb].
  destruct (tron_safe node st) as [st1 [safe|]] eqn:Es; [|discriminate]. cbn [mbind result_bind]. intros Hr. injection Hr as <- Hr. split; [done|].
  exists safe. destruct (Z.ltb_spec safe to); [discriminate Hr|]. bind_step Hr. exists x. split_and!; congruence.
Qed.

(** A scan of a TRON range returns one validated block for every height and
    events that are finalized, positive, counted under a head that reaches the
    end of the range and bound by height, hash and time to one of its blocks,
    each identified by its public identity. So the range meets the contract of
    the worker as soon as its blocks are linked by their parents, which only the
    worker checks. *)
Theorem tron_range_contract st from to st' batch :
  TRON_ScanRange sha256 s node evidence st from to = (st', Ok batch) ->
  (Sorted (links batch) (rb_Blocks batch) -> covers batch from to) /\
  exists safe, to <= safe /\ tron_safe node st = (st', Ok safe) /\
    Forall (fun e => exists b, b ∈ rb_Blocks batch /\ bound_to sha256 (tn_chainID s) safe b e) (rb_Events batch).
Proof using Type.
  intros H. apply tron_scan_ok in H as (Hle & safe & blocks & Hs & Hsafe & Ht & ->). apply traverse_ok in Ht.
  cbn [rb_Events rb_Blocks].
  assert (Forall2 tron_good_block (heights from to) (map fst blocks)) as Hg.
  { apply Forall2_fmap_r. eapply Forall2_impl; [exact Ht|]. intros h [b es] Hp. exact (proj1 (tron_block_sound _ _ _ _ Hp)). }
  assert (Forall (fun e => exists b, b ∈ map fst blocks /\ bound_to sha256 (tn_chainID s) safe b e) (concat (map snd blocks))) as He.
  { apply Forall_concat_list, Forall_fmap, Forall_forall. intros [b es] Hp. destruct (Forall2_elem_r _ _ _ _ Ht Hp) as (h & _ & Hh).
    apply tron_block_sound in Hh as [_ Hes]. cbn. eapply Forall_impl; [exact Hes|]. intros e Hb. exists b. split; [apply list_elem_of_fmap; by exists (b, es)|done]. }
  split; [|by exists safe]. apply (dense_covers sha256 (tn_chainID s) safe from to _ _ Hle); [|exact He].
  eapply Forall2_impl; [exact Hg|]. intros h b (Hb & Hhash & Ht0). split_and!; [done| |done]. intros Hempty. rewrite Hempty in Hhash. discriminate Hhash.
Qed.

(** Looking a transaction up gives exactly the events its block gives when
    it is scanned under the same head: they are a contiguous part of the range. *)
Theorem tron_lookup_agrees chainID id events :
  TRON_LookupTransaction sha256 s node evidence chainID id = Ok events ->
  exists height, forall st st' batch, IsZeroTime (ts_headObservedAt st) = true ->
    TRON_ScanRange sha256 s node evidence st height height = (st', Ok batch) ->
    exists before after, rb_Events batch = before ++ events ++ after.
Proof using Type.
  unfold TRON_LookupTransaction. destruct (_ != _); [discriminate|]. intros H. bind_step H. bind_step H. destruct (negb _); [discriminate H|].
  bind_step H. bind_step H. bind_step H. destruct (validateTRONBlock x3) as [[safe ?]|] eqn:Ev; [|discriminate H]. destruct (_ <? _); [discriminate H|].
  bind_step H. destruct (validateTRONBlock x4) as [[number time]|] eqn:Eb; [|discriminate H]. destruct (Z.eqb_spec number x2) as [->|]; [|discriminate H].
  cbn [negb] in H. destruct (List.find _ _) as [candidate|] eqn:Ef; [|discriminate H]. apply find_some in Ef as [Hin _].
  exists x2. intros st st' batch Hz Hscan. apply tron_scan_ok in Hscan as (_ & safe' & blocks & Hs & _ & Ht & ->).
  unfold tron_safe in Hs. rewrite Hz, E3, Ev in Hs. cbn [orb] in Hs. assert (safe' = safe) as -> by congruence. clear Hs.
  unfold heights in Ht. replace (Z.to_nat (x2 - x2 + 1)) with 1%nat in Ht by lia. cbn [seq map] in Ht.
  replace (x2 + Z.of_nat 0) with x2 in Ht by lia. apply traverse_ok in Ht. apply Forall2_cons_inv_l in Ht as ([b es] & rest & Ht & Hrest & ->).
  apply Forall2_nil_inv_l in Hrest as ->. cbn [rb_Events map snd concat]. rewrite app_nil_r. unfold tron_block in Ht. rewrite E4 in Ht. cbn [mbind result_bind] in Ht.
  rewrite Eb, Z.eqb_refl in Ht. cbn [negb] in Ht. destruct (_ && _); [discriminate Ht|]. bind_step Ht. injection Ht as _ <-.
  apply traverse_ok in E5. apply list_elem_of_In in Hin. apply list_elem_of_split in Hin as (l1 & l2 & Hl). rewrite Hl in E5.
  apply Forall2_app_inv_l in E5 as (k1 & k2 & _ & Hk & ->). apply Forall2_cons_inv_l in Hk as (ev & k3 & Hev & _ & ->).
  assert (ev = events) as -> by congruence. exists (concat k1), (concat k3). by rewrite concat_app.
Qed.

(** C37: The transfers of a transaction that calls a listed GasFree contract are the
    native ones followed by each token payment, marked "gasfree", with the fee of
    the same payer in the same asset if a listed collector received one and without
    a fee otherwise; they are reported exactly when no payer has two payments or two
    fees in one asset. A listed collector's own receipts are never reported as
    payments. (The README asks for both the contract and the collector to be listed
    and would leave payments without a listed fee ordinary evidence; see
    [gasfree_without_listed_fee].) *)
Theorem gasfree_attribution tx info direct trigger r :
  first_trigger sha256 (tx_Contracts tx) = Ok trigger -> trigger ∈ tn_gasFreeContracts s ->
  tron_transfers sha256 s tx (Some info) direct = Ok r <->
  exists native token, native_transfers sha256 s 0 (tx_Contracts tx) = Ok native /\ log_transfers sha256 s 0 (ti_Logs info) = Ok token /\
    NoDup (map payer_of (fee_transfers s token)) /\ NoDup (map payer_of (payments s token)) /\
    r = native ++ map (attributed s token) (payments s token).
Proof using Type.
  intros Ht Hg. unfold tron_transfers. rewrite Ht. cbn [mbind result_bind]. rewrite bool_decide_true by done. split.
  - intros H. bind_step H. bind_step H. exists x, x0. pose proof (log_transfers_plain _ _ _ E0) as Hp.
    assert (exists paid, (fees ← collect_fees s ∅ x0; gasfree_payments s x0 fees x0) = Ok paid /\ r = x ++ paid) as (paid & Hpaid & ->).
    { bind_step H. bind_step H. exists x2. cbn [mbind result_bind]. split; [done|congruence]. }
    apply (gasfree_reference s x0 paid Hp) in Hpaid as (H1 & H2 & ->). done.
  - intros (native & token & Hn & Hl & H1 & H2 & ->). rewrite Hn, Hl. cbn [mbind result_bind].
    pose proof (proj2 (gasfree_reference s token _ (log_transfers_plain _ _ _ Hl)) (conj H1 (conj H2 eq_refl))) as Hr.
    bind_step Hr. cbn [mbind result_bind]. by rewrite Hr.
Qed.

(** A payment by GasFree. *)
Definition gasfree_marked (t : TRONTransfer) : TRONTransfer :=
  mkTRONTransfer (tt_Index t) (tt_From t) (tt_To t) (tt_AssetID t) (tt_ReceivedAmount t) (tt_Decimals t) "gasfree" (tt_FeeDeductedAmount t) (tt_FeeCollector t).

(** When only the contract is listed and no collector received anything, the
    transfers are not left as ordinary evidence: they are all marked "gasfree"
    unless a payer has two of them in one asset, such as a payment and the fee of
    a collector that is not listed, and then nothing of the block is reported. *)
Theorem gasfree_without_listed_fee tx info direct trigger native token :
  first_trigger sha256 (tx_Contracts tx) = Ok trigger -> trigger ∈ tn_gasFreeContracts s ->
  native_transfers sha256 s 0 (tx_Contracts tx) = Ok native -> log_transfers sha256 s 0 (ti_Logs info) = Ok token ->
  (forall t, In t token -> tt_To t ∉ tn_gasFreeFeeCollectors s) ->
  (NoDup (map payer_of token) -> tron_transfers sha256 s tx (Some info) direct = Ok (native ++ map gasfree_marked token)) /\
  (~ NoDup (map payer_of token) -> exists e, tron_transfers sha256 s tx (Some info) direct = Err e).
Proof using Type.
  intros Ht Hg Hn Hl Hno.
  assert (forall l, (forall t, In t l -> tt_To t ∉ tn_gasFreeFeeCollectors s) -> payments s l = l /\ fee_transfers s l = []) as Hall.
  { intros l. induction l as [|t l IH]; intros H; [done|]. unfold payments, fee_transfers in *. cbn [List.filter].
    assert (is_fee s t = false) as -> by (apply bool_decide_eq_false, H; by left). cbn [negb].
    destruct IH as [-> ->]; [intros u Hu; apply H; by right|done]. }
  destruct (Hall token Hno) as [Hpay Hfee]. pose proof (gasfree_reference s token) as Href. pose proof (log_transfers_plain _ _ _ Hl) as Hplain.
  assert (map (attributed s token) token = map gasfree_marked token) as Hmark.
  { apply map_ext. intros t. unfold attributed, gasfree_marked, fee_for. by rewrite Hfee. }
  unfold tron_transfers. rewrite Hn, Ht, Hl. cbn [mbind result_bind]. rewrite bool_decide_true by done. split.
  - intros Hnd. specialize (Href (map gasfree_marked token) Hplain). rewrite Hpay, Hfee, Hmark in Href.
    pose proof (proj2 Href (conj (NoDup_nil_2) (conj Hnd eq_refl))) as Hr. bind_step Hr. cbn [mbind result_bind]. by rewrite Hr.
  - intros Hnd. destruct (collect_fees s ∅ token) as [fees|e] eqn:Ec; cbn [mbind result_bind]; [|by exists e].
    destruct (gasfree_payments s token fees token) as [paid|e] eqn:Ep; cbn [mbind result_bind]; [|by exists e]. exfalso. apply Hnd.
    apply (Href paid Hplain) in Ep as (_ & H & _). by rewrite Hpay in H.
Qed.

(** A transaction that cannot be read stops every range that contains its
    block: the scan fails, whatever else the range holds. *)
Theorem unreadable_transaction_stops_range st from to height block tx e :
  td_blockByNum node height = Ok block -> In tx (tb_Transactions block) -> from <= height <= to ->
  (forall blockHash blockTime safe, normalizeTRONTransaction sha256 s node evidence tx height blockHash blockTime safe = Err e) ->
  forall st' batch, TRON_ScanRange sha256 s node evidence st from to <> (st', Ok batch).
Proof using Type.
  intros Hb Htx Hh Herr st' batch H. apply tron_scan_ok in H as (_ & safe & blocks & _ & _ & Ht & _). apply traverse_ok in Ht.
  assert (height ∈ heights from to) as Hin by (by apply list_elem_of_In, heights_In).
  destruct (Forall2_elem_l _ _ _ _ Ht Hin) as ([b es] & _ & Hblock). unfold tron_block in Hblock. rewrite Hb in Hblock. cbn [mbind result_bind] in Hblock.
  destruct (validateTRONBlock block) as [[number time]|]; [|discriminate Hblock]. destruct (negb _); [discriminate Hblock|]. destruct (_ && _); [discriminate Hblock|].
  bind_step Hblock. exact (traverse_err _ _ _ _ Htx (Herr _ _ _) _ E).
Qed.
End source.

(** ** Addresses have one spelling *)

Lemma lower_plain t : str_forall plain_byte t = true -> str_forall plain_byte (lower_ascii t) = true.
Proof.
  induction t as [|c t IH]; [done|]. cbn [str_forall lower_ascii]. intros [Hc Ht]%andb_true_iff. rewrite IH, andb_true_r by done.
  clear IH Ht. destruct c as [[][][][][][][][]]; done.
Qed.

Lemma lower_length t : len (lower_ascii t) = len t.
Proof. induction t as [|c t IH]; [done|]. cbn [lower_ascii]. rewrite !len_cons. lia. Qed.

(** An address in lower case is no address. *)
Lemma lowered_address sha256 r : String.length r = 33%nat -> str_forall plain_byte (String "T" r) = true ->
  canonicalTRONABIAddress sha256 (String "T" r) = None.
Proof.
  intros Hl Hp. unfold canonicalTRONABIAddress. rewrite TrimSpace_plain by done. change (TrimPrefix (String "T" r) "0x") with (String "T" r). cbv zeta.
  assert (len (lower_ascii (String "T" r)) = 34) as Hn by (rewrite lower_length; unfold len; cbn [String.length]; lia). rewrite Hn.
  change (34 =? 64) with false. cbv iota. unfold canonicalTRONAddress. rewrite TrimSpace_plain by by apply lower_plain.
  change (HasPrefix (lower_ascii (String "T" r)) "T") with false. cbv iota zeta. rewrite lower_ascii_idem.
  change (TrimPrefix (lower_ascii (String "T" r)) "0x") with (lower_ascii (String "T" r)). rewrite Hn. change (34 =? 40) with false. cbv iota. by rewrite Hn.
Qed.

(** The words and the digits the ABI reader takes, in either case. *)
Lemma abi_digits sha256 p v : tron_payload p ->
  In (lower_ascii v) [Repeat "0" 24 +:+ str_drop 2 (hex_encode p); Repeat "0" 22 +:+ hex_encode p; hex_encode p; str_drop 2 (hex_encode p)] ->
  canonicalTRONABIAddress sha256 v = Some (encodeBase58Check sha256 p) /\
  canonicalTRONABIAddress sha256 ("0x" +:+ v) = Some (encodeBase58Check sha256 p).
Proof.
  intros Hp Hv. destruct (payload_hex p Hp) as (w & Hw & Hl & Hc & Hlow). rewrite Hw in Hv. change (str_drop 2 ("41" +:+ w)) with w in Hv.
  assert (hex_decode ("41" +:+ w) = Some p) as Hd by (rewrite <- Hw; apply hex_roundtrip).
  destruct (canonical_of_hex sha256 w p Hc Hlow Hl Hd) as (C1 & C2 & _). destruct (abi_words sha256 w _ Hc Hlow Hl C1 C2) as [A1 A2].
  assert (Hlow' : forall z, lower_ascii z = z -> lower_ascii (z +:+ w) = z +:+ w) by (intros z Hz; by rewrite lower_ascii_app, Hz, Hlow).
  assert (Hhex : forall z, str_forall hex_char z = true -> str_forall hex_char (z +:+ w) = true) by (intros z Hz; by rewrite str_forall_app, Hz, Hc).
  assert (Hshort : forall l, str_forall hex_char l = true -> lower_ascii l = l -> len l <> 64 ->
    canonicalTRONAddress sha256 l = Some (encodeBase58Check sha256 p) -> canonicalTRONABIAddress sha256 l = Some (encodeBase58Check sha256 p)).
  { intros l Hh Hll Hn Ha. destruct (digits_kept l l Hh Hll) as (H1 & H2 & _). unfold canonicalTRONABIAddress. rewrite H1, H2, Hll.
    destruct (Z.eqb_spec (len l) 64); done. }
  assert (exists l, lower_ascii v = l /\ str_forall hex_char l = true /\ lower_ascii l = l /\ canonicalTRONABIAddress sha256 l = Some (encodeBase58Check sha256 p))
    as (l & Hvl & Hlh & Hll & Hla).
  { exists (lower_ascii v). split; [done|]. cbn [In] in Hv. destruct Hv as [Hv|[Hv|[Hv|[Hv|[]]]]]; rewrite <- Hv.
    - split_and!; [by apply Hhex|by apply Hlow'|done].
    - split_and!; [by apply (Hhex (Repeat "0" 22 +:+ "41"))|by apply (Hlow' (Repeat "0" 22 +:+ "41"))|done].
    - split_and!; [by apply (Hhex "41")|by apply (Hlow' "41")|]. apply Hshort; [by apply (Hhex "41")|by apply (Hlow' "41")| |done].
      rewrite len_app, Hl. discriminate.
    - split_and!; [done..|]. apply Hshort; [done..|lia|done]. }
  destruct (digits_kept l l Hlh Hll) as (Hl1 & Hl2 & _). destruct (digits_kept v l Hlh Hvl) as (Hv1 & Hv2 & Hv3).
  assert (Hsame : forall u, lower_ascii (TrimPrefix (TrimSpace u) "0x") = l -> canonicalTRONABIAddress sha256 u = canonicalTRONABIAddress sha256 l).
  { intros u Hu. unfold canonicalTRONABIAddress. by rewrite Hu, Hl1, Hl2, Hll. }
  rewrite <- Hla. split; apply Hsame; [by rewrite Hv1, Hv2|].
  assert (str_forall plain_byte ("0x" +:+ v) = true) as Hpl.
  { rewrite str_forall_app. by rewrite Hv3. }
  rewrite (TrimSpace_plain _ Hpl). by rewrite (Encoding.TrimPrefix_app "0x" v).
Qed.

(** C38: An account has one address. The reader accepts a text exactly when it is a
    spelling of a payload of twenty-one bytes starting with 0x41 - after trimming, the
    Base58Check text itself, with its right checksum, or the hexadecimal digits in
    either case, with or without the network byte and the 0x prefix - and gives the
    Base58Check text of that payload, which has 34 characters, starts with T, decodes
    to the payload again and to no other. The reader of ABI words gives the same
    address for the hexadecimal spellings and for both forms of a zero-padded word,
    and accepts nothing else: in particular no Base58 text, not even an address. *)
Theorem tron_address_one_spelling sha256 : (forall m, String.length (sha256 m) = 32%nat) ->
  (forall v a, canonicalTRONAddress sha256 v = Some a <->
     exists p, tron_payload p /\ a = encodeBase58Check sha256 p /\
       (TrimSpace v = encodeBase58Check sha256 p \/
        In (lower_ascii (TrimSpace v)) [hex_encode p; "0x" +:+ hex_encode p; str_drop 2 (hex_encode p); "0x" +:+ str_drop 2 (hex_encode p)])) /\
  (forall v a, canonicalTRONABIAddress sha256 v = Some a -> exists p n, tron_payload p /\ a = encodeBase58Check sha256 p /\
     let w := lower_ascii (TrimPrefix (TrimSpace v) "0x") in
     (n = O \/ len w = 64 /\ (n = 22%nat \/ n = 24%nat)) /\ w = Repeat "0" n +:+ str_drop n w /\ hex_text p (str_drop n w)) /\
  forall p, tron_payload p ->
    let a := encodeBase58Check sha256 p in let h := hex_encode p in let h20 := str_drop 2 h in
    (forall v, In (lower_ascii v) [Repeat "0" 24 +:+ h20; Repeat "0" 22 +:+ h; h; h20] ->
       canonicalTRONABIAddress sha256 v = Some a /\ canonicalTRONABIAddress sha256 ("0x" +:+ v) = Some a) /\
    canonicalTRONABIAddress sha256 a = None /\
    len a = 34 /\ HasPrefix a "T" = true /\ decodeBase58Check sha256 a = Some p /\
    (forall q, tron_payload q -> encodeBase58Check sha256 q = a -> q = p).
Proof.
  intros Hsha.
  assert (Hback : forall p, tron_payload p -> decodeBase58Check sha256 (encodeBase58Check sha256 p) = Some p).
  { intros p [Hl _]. apply base58check_roundtrip; [done|]. intros ->. discriminate Hl. }
  split; [|split; [by apply abi_is_account|]].
  - intros v a. split; [apply canonical_is_account|]. intros (p & Hp & -> & Hv). by apply spelling_accepted.
  - intros p Hp a h h20. destruct (address_shape sha256 Hsha p Hp) as (r & Hr & Hlen). split; [intros v Hv; by apply abi_digits|].
    split_and!; [| | |by apply Hback|].
    + unfold a. rewrite Hr. apply lowered_address; [done|]. rewrite <- Hr. apply encodeBase58_plain.
    + unfold a. rewrite Hr. unfold len. cbn [String.length]. lia.
    + unfold a. rewrite Hr. by destruct r.
    + intros q Hq He. pose proof (Hback q Hq) as Hd. unfold a in He. rewrite He, (Hback p Hp) in Hd. congruence.
Qed.

Lemma selectors_differ d : HasPrefix d "a9059cbb" = true -> HasPrefix d "23b872dd" = false.
Proof. intros ->%HasPrefix_iff. done. Qed.

(** A direct [transfer] whose owner is written as an address in Base58, which
    every other reader of the source accepts, is never read: the ABI reader
    lower-cases the text first, and an address in lower case is none. *)
Theorem base58_owner_skipped sha256 (value : gmap string Outbox.JSON) a data asset index :
  (forall m, String.length (sha256 m) = 32%nat) -> canonicalTRONAddress sha256 a = Some a ->
  value !! "owner_address" = Some (Outbox.JString a) -> value !! "data" = Some (Outbox.JString data) ->
  HasPrefix (lower_ascii (TrimPrefix (TrimSpace data) "0x")) "a9059cbb" = true ->
  canonicalTRONABIAddress sha256 a = None /\ parseTRONDirectTokenTransfer sha256 value asset index = None.
Proof.
  intros Hsha Ha Ho Hd Hsel. destruct (canonical_is_account sha256 a a Ha) as (p & Hp & He & _).
  destruct (address_shape sha256 Hsha p Hp) as (r & Hr & Hl). assert (str_forall plain_byte (String "T" r) = true) as Hpl.
  { rewrite <- Hr. apply encodeBase58_plain. }
  rewrite Hr in He. clear Ha Hr. subst a. pose proof (lowered_address sha256 r Hl Hpl) as Hn. split; [exact Hn|].
  unfold parseTRONDirectTokenTransfer. rewrite Ho, Hd. unfold stringValue. cbn [String.eqb]. cbv iota. cbn [mbind option_bind].
  destruct (data == ""); [done|]. cbn [mbind option_bind]. cbv zeta. rewrite Hsel, (selectors_differ _ Hsel). cbn [andb].
  destruct (_ =? _); cbn [mbind option_bind]; [by rewrite Hn|done].
Qed.

(** ** A run *)

Definition account (i : Z) : string := String (chr 65) (Repeat (String (chr i) "") 20).
Definition hex_account (i : Z) : string := hex_encode (account i).
Definition address (i : Z) : string := encodeBase58Check sample_sha (account i).

Definition sample_tron : TRONSource :=
  mkTRONSource "p1" "tron:mainnet" "trx" 6 {[ address 4 := mkTRONAsset "usdt" 6 ]} {[ address 5 ]} {[ address 6 ]}.

Definition hash_of (digit : string) : string := Repeat digit 64.

Definition native_call : tronTransaction :=
  mkTronTransaction (hash_of "c") [mkTronContract "TransferContract"
    {[ "owner_address" := Outbox.JString (hex_account 1); "to_address" := Outbox.JString (hex_account 2); "amount" := Outbox.JNumber "700" ]}] ["SUCCESS"].
Definition gasfree_call : tronTransaction :=
  mkTronTransaction (hash_of "d") [mkTronContract "TriggerSmartContract"
    {[ "owner_address" := Outbox.JString (hex_account 9); "contract_address" := Outbox.JString (hex_account 5) ]}] ["SUCCESS"].

Definition topic_of (i : Z) : string := Repeat "0" 24 +:+ str_drop 2 (hex_account i).
Definition token_log (from to : Z) (amount : string) : tronLog :=
  mkTronLog (str_drop 2 (hex_account 4)) [TrimPrefix erc20TransferTopic "0x"; topic_of from; topic_of to] amount.
Definition gasfree_info (logs : list tronLog) : tronTransactionInfo := mkTronTransactionInfo (hash_of "d") "10" "1000" "" "SUCCESS" logs.
Definition paid_logs : list tronLog := [token_log 1 2 "64"; token_log 1 6 "0a"].

Definition sample_tron_block : tronBlock := mkTronBlock (hash_of "b") "10" (hash_of "a") "1000" [native_call; gasfree_call].
Definition tron_node (logs : list tronLog) : TronNode :=
  mkTronNode (Ok sample_tron_block) (fun _ => Ok sample_tron_block) (fun _ => Ok gasfree_call) (fun _ => Ok (gasfree_info logs)) (unix_epoch + 5 * Second).

Definition tron_evidence (tx : tronTransaction) (info : option tronTransactionInfo) : string := tx_TxID tx.
Definition fresh_state : TRONState := mkTRONState "" 0 0.
Definition tron_run : TRONState * result provider_error RangeBatch := TRON_ScanRange sample_sha sample_tron (tron_node paid_logs) tron_evidence fresh_state 10 10.
Definition tron_batch : RangeBatch := match tron_run.2 with Ok b => b | Err _ => mkBatch 0 0 [] [] [] false false false end.
Definition tron_lookup : result provider_error (list TransferEvent) :=
  TRON_LookupTransaction sample_sha sample_tron (tron_node paid_logs) tron_evidence "tron:mainnet" ("0x" +:+ hash_of "D").
Definition looked_up : list TransferEvent := match tron_lookup with Ok l => l | Err _ => [] end.

Lemma tron_run_ok : TRON_ScanRange sample_sha sample_tron (tron_node paid_logs) tron_evidence fresh_state 10 10 = (fst tron_run, Ok tron_batch).
Proof. vm_compute. reflexivity. Qed.

(** Native payment, GasFree payment and its fee. *)
Lemma tron_range_contract_witness :
  map te_Amount (rb_Events tron_batch) = [700; 100; 10] /\ covers tron_batch 10 10 /\
  exists safe, 10 <= safe /\ Forall (fun e => exists b, b ∈ rb_Blocks tron_batch /\ bound_to sample_sha (tn_chainID sample_tron) safe b e) (rb_Events tron_batch).
Proof.
  split; [vm_compute; reflexivity|].
  destruct (tron_range_contract sample_sha sample_tron (tron_node paid_logs) tron_evidence fresh_state 10 10 _ _ tron_run_ok) as [Hc (safe & Hs & _ & He)].
  split; [apply Hc|by exists safe]. set (b := rb_Blocks tron_batch). vm_compute in b. subst b. repeat constructor.
Defined.

Lemma tron_lookup_agrees_witness : length looked_up = 2%nat /\ exists height, forall st st' batch, IsZeroTime (ts_headObservedAt st) = true ->
  TRON_ScanRange sample_sha sample_tron (tron_node paid_logs) tron_evidence st height height = (st', Ok batch) ->
  exists before after, rb_Events batch = before ++ looked_up ++ after.
Proof.
  split; [vm_compute; reflexivity|]. apply (tron_lookup_agrees sample_sha sample_tron (tron_node paid_logs) tron_evidence "tron:mainnet" ("0x" +:+ hash_of "D")).
  vm_compute. reflexivity.
Defined.

Definition gasfree_result : list TRONTransfer := [mkTRONTransfer 0 (address 1) (address 2) "usdt" "100" 6 "gasfree" "10" (address 6)].

Lemma gasfree_attribution_witness : exists native token,
  native_transfers sample_sha sample_tron 0 (tx_Contracts gasfree_call) = Ok native /\ log_transfers sample_sha sample_tron 0 paid_logs = Ok token /\
  NoDup (map payer_of (fee_transfers sample_tron token)) /\ NoDup (map payer_of (payments sample_tron token)) /\
  gasfree_result = native ++ map (attributed sample_tron token) (payments sample_tron token).
Proof.
  apply (gasfree_attribution sample_sha sample_tron gasfree_call (gasfree_info paid_logs) [] (address 5)).
  - vm_compute. reflexivity.
  - cbn [tn_gasFreeContracts sample_tron]. by apply elem_of_singleton_2.
  - vm_compute. reflexivity.
Defined.

Definition unlisted_tokens (i : Z) : list TRONTransfer :=
  [mkTRONTransfer 0 (address 1) (address 2) "usdt" "100" 6 "" "" ""; mkTRONTransfer 1 (address i) (address 3) "usdt" "10" 6 "" "" ""].

(** A payment whose fee went to a collector that is not listed is refused; one
    without a fee is marked all the same. *)
Lemma gasfree_without_listed_fee_witness :
  (exists e, tron_transfers sample_sha sample_tron gasfree_call (Some (gasfree_info [token_log 1 2 "64"; token_log 1 3 "0a"])) [] = Err e) /\
  tron_transfers sample_sha sample_tron gasfree_call (Some (gasfree_info [token_log 1 2 "64"; token_log 7 3 "0a"])) [] =
    Ok (map gasfree_marked (unlisted_tokens 7)).
Proof.
  assert (address 2 ∉ tn_gasFreeFeeCollectors sample_tron /\ address 3 ∉ tn_gasFreeFeeCollectors sample_tron) as [H2 H3]
    by (split; vm_compute; discriminate).
  assert (first_trigger sample_sha (tx_Contracts gasfree_call) = Ok (address 5)) as Ht by (vm_compute; reflexivity).
  assert (address 5 ∈ tn_gasFreeContracts sample_tron) as Hg by (cbn [tn_gasFreeContracts sample_tron]; by apply elem_of_singleton_2).
  split.
  - destruct (gasfree_without_listed_fee sample_sha sample_tron gasfree_call (gasfree_info [token_log 1 2 "64"; token_log 1 3 "0a"]) [] (address 5)
      [] (unlisted_tokens 1) Ht Hg) as [_ H]; [vm_compute; reflexivity|vm_compute; reflexivity|by intros t [<-|[<-|[]]]|].
    apply H. intros [Hn _]%NoDup_cons. apply Hn. by left.
  - destruct (gasfree_without_listed_fee sample_sha sample_tron gasfree_call (gasfree_info [token_log 1 2 "64"; token_log 7 3 "0a"]) [] (address 5)
      [] (unlisted_tokens 7) Ht Hg) as [H _]; [vm_compute; reflexivity|vm_compute; reflexivity|by intros t [<-|[<-|[]]]|].
    apply H. apply (bool_decide_unpack _). vm_compute. exact I.
Defined.

(** One payer, two recipients. *)
Definition split_node : TronNode := tron_node [token_log 1 2 "64"; token_log 1 3 "64"].

Lemma unreadable_transaction_stops_range_witness :
  forall st' batch, TRON_ScanRange sample_sha sample_tron split_node tron_evidence fresh_state 10 10 <> (st', Ok batch).
Proof.
  apply (unreadable_transaction_stops_range sample_sha sample_tron split_node tron_evidence fresh_state 10 10 10 sample_tron_block gasfree_call
    (malformed_msg "tron GasFree evidence" "ambiguous recipient transfers for one payment")).
  - reflexivity.
  - right. left. reflexivity.
  - lia.
  - intros h t safe. vm_compute. reflexivity.
Defined.

(** The hexadecimal spelling in capitals. *)
Definition mixed_account : string := "0X41" +:+ Repeat "aB" 20.
Definition mixed_payload : string := String (chr 65) (Repeat (String (chr 171) "") 20).

Lemma tron_address_one_spelling_witness :
  canonicalTRONAddress sample_sha mixed_account = Some (encodeBase58Check sample_sha mixed_payload) /\
  canonicalTRONABIAddress sample_sha (Repeat "0" 24 +:+ Repeat "Ab" 20) = Some (encodeBase58Check sample_sha mixed_payload) /\
  canonicalTRONABIAddress sample_sha (address 1) = None /\
  canonicalTRONAddress sample_sha (str_take 33 (address 1) +:+ "z") = None.
Proof.
  destruct (tron_address_one_spelling sample_sha) as (Hiff & _ & H); [intros m; reflexivity|].
  assert (tron_payload mixed_payload) as Hm by (split; reflexivity). split; [|split; [|split]].
  - apply Hiff. exists mixed_payload. split; [exact Hm|]. split; [reflexivity|]. right. right. left. vm_compute. reflexivity.
  - destruct (H mixed_payload Hm) as (Hw & _). refine (proj1 (Hw (Repeat "0" 24 +:+ Repeat "Ab" 20) _)). left. vm_compute. reflexivity.
  - assert (tron_payload (account 1)) as Hp by (split; reflexivity). destruct (H (account 1) Hp) as (_ & Hn & _). exact Hn.
  - vm_compute. reflexivity.
Defined.

Definition visible_call : gmap string Outbox.JSON :=
  {[ "owner_address" := Outbox.JString (address 1); "contract_address" := Outbox.JString (hex_account 4);
     "data" := Outbox.JString ("a9059cbb" +:+ topic_of 2 +:+ Repeat "0" 62 +:+ "64") ]}.

Lemma base58_owner_skipped_witness :
  canonicalTRONABIAddress sample_sha (address 1) = None /\ parseTRONDirectTokenTransfer sample_sha visible_call (mkTRONAsset "usdt" 6) 0 = None /\
  parseTRONDirectTokenTransfer sample_sha (<["owner_address" := Outbox.JString (hex_account 1)]> visible_call) (mkTRONAsset "usdt" 6) 0 =
    Some (mkTRONTransfer 0 (address 1) (address 2) "usdt" "100" 6 "" "" "").
Proof.
  destruct (base58_owner_skipped sample_sha visible_call (address 1) ("a9059cbb" +:+ topic_of 2 +:+ Repeat "0" 62 +:+ "64") (mkTRONAsset "usdt" 6) 0) as [H1 H2].
  - intros m. reflexivity.
  - vm_compute. reflexivity.
  - vm_compute. reflexivity.
  - vm_compute. reflexivity.
  - vm_compute. reflexivity.
  - split; [exact H1|]. split; [exact H2|]. vm_compute. reflexivity.
Defined.
