(* ===== verification/Ton.v ===== *)
(** * Ton: internal/providers/ton.go

    The TON source: hashes and addresses in their one spelling, heads, masterchain
    ranges block by block or, for watched accounts, in one window bounded by the
    logical time of the previous shard frontier, the pages of actions, their
    reading as transfers, and the look-up of one transaction. The node's answers,
    JSON encoding and SHA-256 are parameters. *)

From Stdlib Require Import ZArith Lia Ascii String.
From stdpp Require Import base gmap list strings.
From S2P Require Import Prelude Text Numerals Money Domain Encoding Scanner Chains Providers Evm.
From S2P Require Outbox Migration Tron.

(** ** Hashes, addresses and numbers *)

Definition quote_mark : ascii := chr 34.

Fixpoint trim_left_byte (c : ascii) (s : string) : string :=
  match s with String d r => if Ascii.eqb d c then trim_left_byte c r else s | EmptyString => "" end.

(** [strings.TrimRight] with one byte *)
Definition trim_right_byte (c : ascii) (s : string) : string := reversed (trim_left_byte c (reversed s)).

Definition jsonInt64 (raw : string) : option Z := ParseInt64 (trim_right_byte quote_mark (trim_left_byte quote_mark raw)).

(** [strconv.ParseInt(s, 10, 32)] *)
Definition ParseInt32 (s : string) : option Z :=
  v ← ParseInt64 s; if (v <? -2147483648) || (2147483647 <? v) then None else Some v.

(** [base64.RawURLEncoding], then [base64.RawStdEncoding], padding removed. *)
Definition decode_base64 (value : string) : option string :=
  match b64_decode (trim_right_byte "=" value) with
  | Some decoded => Some decoded
  | None => Migration.rawstd_decode (trim_right_byte "=" value)
  end.

Definition canonicalTONHash (value : string) : option string :=
  let value := TrimSpace value in
  let raw := TrimPrefix (lower_ascii value) "0x" in
  if (len raw =? 64) && bool_decide (is_Some (hex_decode raw)) then Some raw
  else
    decoded ← decode_base64 value;
    if negb (len decoded =? 32) then None else Some (hex_encode decoded).

(** A byte as an [int8] *)
Definition int8_of (b : Z) : Z := if b <? 128 then b else b - 256.

Definition crc16XMODEM (data : string) : Z := crc_loop 0 data.

Definition canonicalTONAddress (value : string) : option string :=
  let value := TrimSpace value in
  match Split value ":"%char with
  | [part0; part1] =>
      let hash := lower_ascii part1 in
      workchain ← ParseInt32 part0;
      if negb (len hash =? 64) then None
      else _ ← hex_decode hash; Some (FormatInt workchain +:+ ":" +:+ hash)
  | _ =>
      decoded ← decode_base64 value;
      if negb (len decoded =? 36) then None
      else if negb (crc16XMODEM (str_take 34 decoded) =? 256 * byte_at decoded 34 + byte_at decoded 35) then None
      else Some (FormatInt (int8_of (byte_at decoded 1)) +:+ ":" +:+ hex_encode (str_take 32 (str_drop 2 decoded)))
  end.

Fixpoint firstTONValue (values : list string) : string :=
  match values with [] => "" | v :: rest => if TrimSpace v != "" then v else firstTONValue rest end.

(** ** What a node reports *)

Record tonMasterchainInfo := mkTonInfo { ki_LastSeqno : Z; ki_LastRootHash : string; ki_FirstRootHash : string; ki_InitRootHash : string }.

Record tonBlock := mkTonBlock {
  kb_Workchain : Z; kb_Shard : string; kb_Seqno : Z; kb_RootHash : string; kb_GenUtime : Z; kb_StartLT : Z; kb_EndLT : Z;
  kb_PrevBlocks : list (Z * string) }.

Record tonActionData := mkTonData { kd_Sender : string; kd_Recipient : string; kd_Amount : string; kd_JettonMaster : string; kd_QueryID : string }.
Record tonActionDetails := mkTonDetails {
  kx_Source : string; kx_Destination : string; kx_Sender : string; kx_Receiver : string; kx_Value : string; kx_Amount : string;
  kx_JettonMaster : string; kx_Asset : string; kx_QueryID : string }.
Record tonAction := mkTonAction {
  ka_ActionID : string; ka_TraceID : string; ka_TransactionHash : string; ka_ActionIndex : Z; ka_Type : string; ka_Success : bool;
  ka_Utime : Z; ka_EndUtime : Z; ka_TraceMCSeqnoEnd : Z; ka_Transactions : list string; ka_Data : tonActionData; ka_Details : tonActionDetails }.

Record tonActionsResponse := mkTonActions { kr_Actions : list tonAction; kr_Total : option Z }.

Record tonBlockEvidence := mkTonEvidence { ke_Hash : string; ke_Time : Time }.

(** The part of a query that does not change from page to page. *)
Inductive TonQuery := ByBlock (seqno : Z) | ByTransaction (hash : string) | ByLogicalTime (start_lt end_lt : Z).

(** The answers of the endpoint: the head, the blocks of a sequence number and of
    a time span, the shard state after a block, a page of actions, the clock. *)
Record TonNode := mkTonNode {
  kn_info : result provider_error tonMasterchainInfo;
  kn_block : Z -> result provider_error (list tonBlock);
  kn_blocks : Z -> Z -> result provider_error (list tonBlock);
  kn_shards : Z -> result provider_error (list tonBlock);
  kn_actions : TonQuery -> string -> Z -> Z -> result provider_error tonActionsResponse;
  kn_now : Time }.

(** ** The source *)

Record TONAsset := mkTONAsset { oa_AssetID : string; oa_Decimals : Z }.

Record TONConfig := mkTONConfig {
  oc_HTTP : HTTPConfig; oc_ProviderID : string; oc_ChainID : string; oc_NativeAssetID : string; oc_NativeDecimals : Z;
  oc_Jettons : list (string * TONAsset); oc_WatchedAddresses : list string; oc_PageSize : Z }.

Record TONSource := mkTONSource {
  os_providerID : string; os_chainID : string; os_nativeAssetID : string; os_nativeDecimals : Z; os_jettons : gmap string TONAsset;
  os_watched : list string; os_pageSize : Z }.

(** The Jettons in the order in which the map yields them. *)
Fixpoint canonical_jettons (jettons : list (string * TONAsset)) (acc : gmap string TONAsset) : option (gmap string TONAsset) :=
  match jettons with
  | [] => Some acc
  | (address, asset) :: rest =>
      canonical ← canonicalTONAddress address;
      if (oa_AssetID asset == "") || (36 <? oa_Decimals asset) then None else canonical_jettons rest (<[canonical := asset]> acc)
  end.

Fixpoint watched_set (addresses : list string) (acc : gset string) : option (gset string) :=
  match addresses with
  | [] => Some acc
  | a :: rest => canonical ← canonicalTONAddress a; watched_set rest ({[canonical]} ∪ acc)
  end.

Definition NewTONSource (parse : string -> option EndpointURL) (EqualFold : string -> string -> bool) (config : TONConfig) : option TONSource :=
  client ← newEndpointClient parse EqualFold (oc_HTTP config);
  if (oc_ProviderID config == "") || (oc_ChainID config == "") || (oc_NativeAssetID config == "") || (36 <? oc_NativeDecimals config) then None
  else
    jettons ← canonical_jettons (oc_Jettons config) ∅;
    watched ← watched_set (oc_WatchedAddresses config) ∅;
    let pageSize := if oc_PageSize config =? 0 then 100 else oc_PageSize config in
    if 1000 <? pageSize then None
    else Some (mkTONSource (oc_ProviderID config) (oc_ChainID config) (oc_NativeAssetID config) (oc_NativeDecimals config) jettons
                 (sort_by str_less (elements watched)) pageSize).

(** ** Shard frontiers *)

(** [shard & -shard] on 64 bits *)
Definition shard_tag (shard : Z) : Z := Z.land shard (uint64 (- shard)).

Fixpoint tile_loop (next : Z) (shards : list Z) : bool :=
  match shards with
  | [] => next =? 0
  | shard :: rest =>
      let tag := shard_tag shard in
      if (tag =? 0) || negb (uint64 (shard - tag) =? next) then false
      else
        let next := uint64 (shard + tag) in
        if (next =? 0) && negb (bool_decide (rest = [])) then false else tile_loop next rest
  end.

Definition tonCompleteShardFrontier (shards : list Z) : bool :=
  if bool_decide (shards = []) then false else tile_loop 0 (sort_by Z.ltb shards).

(** What the walk over the frontier has gathered. *)
Record Frontier := mkFrontier {
  fr_startLT : Z; fr_masterEndLT : option Z; fr_shards : gmap Z (list Z); fr_seen : list (Z * string) }.

Definition frontier_error (msg : string) : provider_error := malformed_msg "ton previous shard frontier" msg.

(** The masterchain block of the frontier is the one before the range. *)
Definition master_block (from : Z) (first : tonBlock) (f : Frontier) (block : tonBlock) (hash : string) (shard : Z) : result provider_error unit :=
  if bool_decide (is_Some (fr_masterEndLT f)) || negb (kb_Seqno block =? uint64 (from - 1)) || negb (shard =? 2 ^ 63)
  then Err (frontier_error "previous masterchain sequence mismatch")
  else match kb_PrevBlocks first with
  | [(seqno, declared)] =>
      if negb (seqno =? 0) && negb (seqno =? uint64 (from - 1)) then Err (frontier_error "previous masterchain binding mismatch")
      else if (declared != "") && negb (bool_decide (canonicalTONHash declared = Some hash)) then Err (frontier_error "previous masterchain hash mismatch")
      else Ok tt
  | _ => Err (frontier_error "missing previous masterchain binding")
  end.

Definition frontier_step (from endLT : Z) (first : tonBlock) (f : Frontier) (block : tonBlock) : result provider_error Frontier :=
  let key := (kb_Workchain block, kb_Shard block) in
  hash ← of_option (frontier_error "invalid shard frontier block") (canonicalTONHash (kb_RootHash block));
  if (kb_Shard block == "") || bool_decide (key ∈ fr_seen f) || (kb_StartLT block <? 0) || (kb_EndLT block <=? kb_StartLT block) || (endLT <=? kb_EndLT block)
  then Err (frontier_error "invalid shard frontier block")
  else
    shard ← of_option (frontier_error "invalid shard identifier") (ParseUint16_64 (kb_Shard block));
    if shard =? 0 then Err (frontier_error "invalid shard identifier")
    else
      let shards := <[kb_Workchain block := default [] (fr_shards f !! kb_Workchain block) ++ [shard]]> (fr_shards f) in
      let f' master := mkFrontier (Z.min (kb_EndLT block) (fr_startLT f)) master shards (key :: fr_seen f) in
      if kb_Workchain block =? -1 then _ ← master_block from first f block hash shard; Ok (f' (Some (kb_EndLT block)))
      else Ok (f' (fr_masterEndLT f)).

Fixpoint frontier_walk (from endLT : Z) (first : tonBlock) (f : Frontier) (blocks : list tonBlock) : result provider_error Frontier :=
  match blocks with
  | [] => Ok f
  | block :: rest => f' ← frontier_step from endLT first f block; frontier_walk from endLT first f' rest
  end.

(** The workchain of an account. Accounts are canonical: the text parses. *)
Definition account_workchain (account : string) : Z := default 0 (ParseInt32 (default "" (head (Split account ":"%char)))).

Section source.
Context (s : TONSource) (node : TonNode) (sha256 : string -> string).
(** [json.Marshal] of an action. *)
Context (evidence : tonAction -> string).

(** The frontier of the watched workchains has no gap. *)
Fixpoint watched_frontiers (shards : gmap Z (list Z)) (accounts : list string) : result provider_error unit :=
  match accounts with
  | [] => Ok tt
  | account :: rest =>
      match shards !! account_workchain account with
      | None => Err (frontier_error "missing watched workchain frontier")
      | Some l => if negb (tonCompleteShardFrontier l) then Err (frontier_error "incomplete or overlapping watched shard frontier")
                  else watched_frontiers shards rest
      end
  end.

Definition tonActionsLTBounds (from : Z) (first last : tonBlock) : result provider_error (Z * Z) :=
  let endLT := kb_EndLT last in
  if (kb_StartLT last <=? 0) || (endLT <=? kb_StartLT last) then Err (malformed_msg "ton action logical time bounds" "missing masterchain logical time")
  else if from =? 0 then Ok (0, endLT)
  else
    blocks ← kn_shards node (from - 1);
    if bool_decide (blocks = []) || (1000 <? Z.of_nat (length blocks)) then Err (frontier_error "invalid shard frontier count")
    else
      f ← frontier_walk from endLT first (mkFrontier endLT None ∅ []) blocks;
      match fr_masterEndLT f with
      | None => Err (frontier_error "missing previous masterchain block")
      | Some masterEndLT =>
          if existsb (fun b => masterEndLT <? kb_EndLT b) blocks then Err (frontier_error "shard logical time exceeds masterchain frontier")
          else _ ← watched_frontiers (fr_shards f) (os_watched s); Ok (fr_startLT f, endLT)
      end.

(** ** Pages of actions *)

Definition actions_error (msg : string) : provider_error := malformed_msg "ton block actions" msg.

Fixpoint add_seen (seen : gset string) (actions : list tonAction) : option (gset string) :=
  match actions with
  | [] => Some seen
  | a :: rest => if bool_decide (ka_ActionID a ∈ seen) then None else add_seen ({[ka_ActionID a]} ∪ seen) rest
  end.

(** Is the page consistent with itself and with the pages before? *)
Definition page_error (offset : Z) (expected : option Z) (page : tonActionsResponse) : option provider_error :=
  if match kr_Total page with Some n => (100000 <? n) || (n <? offset) | None => false end || (os_pageSize s <? Z.of_nat (length (kr_Actions page)))
  then Some (actions_error "invalid pagination metadata")
  else match kr_Total page, expected with
  | Some n, Some m => if negb (m =? n) then Some (actions_error "action pagination total changed") else None
  | _, _ => None
  end.

(** The pages of one account from [offset] on. *)
Fixpoint page_loop (fuel : nat) (base : TonQuery) (account : string) (offset accountTotal : Z) (expected : option Z) (seen : gset string)
    : result provider_error (list tonAction) :=
  match fuel with
  | O => Err (actions_error "action pagination safety limit exceeded")
  | S f =>
      if 100000 <=? offset then Err (actions_error "action pagination safety limit exceeded")
      else
        page ← kn_actions node base account (os_pageSize s) offset;
        match page_error offset expected page with
        | Some e => Err e
        | None =>
            seen' ← of_option (actions_error "action pagination repeated a row") (add_seen seen (kr_Actions page));
            let total := accountTotal + Z.of_nat (length (kr_Actions page)) in
            let next expected' :=
              if bool_decide (kr_Actions page = []) then Err (actions_error "pagination stopped before total")
              else more ← page_loop f base account (offset + os_pageSize s) total expected' seen'; Ok (kr_Actions page ++ more) in
            match kr_Total page with
            | Some n =>
                if n <=? total then if negb (total =? n) then Err (actions_error "pagination count mismatch") else Ok (kr_Actions page)
                else next (Some n)
            | None => if Z.of_nat (length (kr_Actions page)) <? os_pageSize s then Ok (kr_Actions page) else next expected
            end
        end
  end.

Definition page_fuel : nat := Z.to_nat (100000 / os_pageSize s + 2).

Definition tonActionPages (base : TonQuery) : result provider_error (list tonAction) :=
  let accounts := if bool_decide (os_watched s = []) then [""] else os_watched s in
  pages ← traverse (fun account => page_loop page_fuel base account 0 0 None ∅) accounts;
  Ok (concat pages).

(** ** Reading actions *)

Definition tonActionTransactionHash (action : tonAction) : string :=
  if ka_TransactionHash action != "" then ka_TransactionHash action else ka_ActionID action.

Definition tonActionContainsTransaction (action : tonAction) (txHash : string) : bool :=
  existsb (fun hash => bool_decide (canonicalTONHash hash = Some txHash)) (ka_TransactionHash action :: ka_TraceID action :: ka_Transactions action).

(** By transaction, index and identifier; actions that agree in all three are
    one action. *)
Definition action_less (i j : tonAction) : bool :=
  if tonActionTransactionHash i != tonActionTransactionHash j then str_less (tonActionTransactionHash i) (tonActionTransactionHash j)
  else if negb (ka_ActionIndex i =? ka_ActionIndex j) then ka_ActionIndex i <? ka_ActionIndex j
  else str_less (ka_ActionID i) (ka_ActionID j).

Definition isNative (action : tonAction) : bool := (ka_Type action == "TonTransfer") || (ka_Type action == "ton_transfer").
Definition isJetton (action : tonAction) : bool := (ka_Type action == "JettonTransfer") || (ka_Type action == "jetton_transfer").

Definition transfer_error (msg : string) : provider_error := malformed_msg "ton transfer action" msg.

(** The masterchain block an action is bound to, and its transaction. *)
Definition action_place (blocks : gmap Z tonBlockEvidence) (defaultSeqno safe : Z) (action : tonAction) : result provider_error (Z * tonBlockEvidence * string) :=
  let bound := ka_TraceMCSeqnoEnd action in
  if negb (bound =? 0) && negb (defaultSeqno =? 0) && negb (bound =? defaultSeqno) then Err (transfer_error "action masterchain binding mismatch")
  else
    let seqno := if bound =? 0 then defaultSeqno else bound in
    match blocks !! seqno with
    | None => Err (transfer_error "action masterchain binding mismatch")
    | Some block =>
        if (seqno =? 0) || (safe <? seqno) then Err (transfer_error "action masterchain binding mismatch")
        else
          let utime := if ka_Utime action =? 0 then ka_EndUtime action else ka_Utime action in
          txHash ← of_option (transfer_error "invalid transaction evidence") (canonicalTONHash (tonActionTransactionHash action));
          if utime <=? 0 then Err (transfer_error "invalid transaction evidence") else Ok (seqno, block, txHash)
    end.

(** The message of an inbound transfer of a configured asset, or nothing. *)
Definition action_message (action : tonAction) : result provider_error (option TONMessage) :=
  let data := ka_Data action in
  let details := ka_Details action in
  to ← of_option (transfer_error "invalid TON address") (canonicalTONAddress (firstTONValue [kd_Recipient data; kx_Destination details; kx_Receiver details]));
  if negb (bool_decide (os_watched s = [])) && negb (existsb_str to (os_watched s)) then Ok None
  else
    from ← of_option (transfer_error "invalid TON address") (canonicalTONAddress (firstTONValue [kd_Sender data; kx_Source details; kx_Sender details]));
    amount ← of_option (transfer_error "invalid amount") (Tron.integerString (Some (Outbox.JString (firstTONValue [kd_Amount data; kx_Value details; kx_Amount details]))));
    if amount == "0" then Ok None
    else
      let queryID := firstTONValue [kd_QueryID data; kx_QueryID details] in
      if isJetton action then
        master ← of_option (malformed_msg "ton Jetton action" "invalid TON address") (canonicalTONAddress (firstTONValue [kd_JettonMaster data; kx_JettonMaster details; kx_Asset details]));
        match os_jettons s !! master with
        | None => Ok None
        | Some asset => Ok (Some (mkTONMessage (ka_ActionIndex action) from to (oa_AssetID asset) amount (oa_Decimals asset) true queryID))
        end
      else Ok (Some (mkTONMessage (ka_ActionIndex action) from to (os_nativeAssetID s) amount (os_nativeDecimals s) false queryID)).

Definition message_events (safe seqno : Z) (block : tonBlockEvidence) (txHash : string) (action : tonAction) (message : TONMessage)
    : result provider_error (list TransferEvent) :=
  lift_err OtherError
    (TON_Normalize sha256 None (os_chainID s)
       (Ok (mkTONTransaction txHash seqno (ke_Hash block) (ke_Time block) true true (confirmations safe seqno) [message] (evidence action))) txHash).

(** Transaction and index, joined by a zero byte. *)
Definition index_key (txHash : string) (action : tonAction) : string := txHash +:+ String (chr 0) (dec_string (ka_ActionIndex action)).

Fixpoint read_actions (blocks : gmap Z tonBlockEvidence) (defaultSeqno safe : Z) (seen indices : gset string) (all : list tonAction)
    : result provider_error (list TransferEvent) :=
  match all with
  | [] => Ok []
  | action :: rest =>
      if bool_decide (ka_ActionID action ∈ seen) then
        if negb (bool_decide (os_watched s = [])) then read_actions blocks defaultSeqno safe seen indices rest
        else Err (actions_error "duplicate action replay within page set")
      else
        let seen := {[ka_ActionID action]} ∪ seen in
        if negb (ka_Success action) || (negb (isNative action) && negb (isJetton action)) then read_actions blocks defaultSeqno safe seen indices rest
        else
          '(seqno, block, txHash) ← action_place blocks defaultSeqno safe action;
          if bool_decide (index_key txHash action ∈ indices) then Err (actions_error "duplicate transaction action index")
          else
            let indices := {[index_key txHash action]} ∪ indices in
            message ← action_message action;
            match message with
            | None => read_actions blocks defaultSeqno safe seen indices rest
            | Some m =>
                events ← message_events safe seqno block txHash action m;
                more ← read_actions blocks defaultSeqno safe seen indices rest;
                Ok (events ++ more)
            end
  end.

Definition normalizeTONActions (all : list tonAction) (blocks : gmap Z tonBlockEvidence) (defaultSeqno safe : Z) : result provider_error (list TransferEvent) :=
  read_actions blocks defaultSeqno safe ∅ ∅ (sort_by action_less all).

Definition tonActions (seqno : Z) (blockHash : string) (blockTime : Time) (safe : Z) : result provider_error (list TransferEvent) :=
  all ← tonActionPages (ByBlock seqno);
  normalizeTONActions all {[ seqno := mkTonEvidence blockHash blockTime ]} seqno safe.

Definition tonActionsWindow (from to startLT endLT : Z) (blocks : gmap Z tonBlockEvidence) (safe : Z) : result provider_error (list TransferEvent) :=
  all ← tonActionPages (ByLogicalTime startLT endLT);
  if existsb (fun a => ka_TraceMCSeqnoEnd a =? 0) all then Err (actions_error "missing action masterchain binding")
  else normalizeTONActions (List.filter (fun a => (from <=? ka_TraceMCSeqnoEnd a) && (ka_TraceMCSeqnoEnd a <=? to)) all) blocks 0 safe.

(** ** Heads and ranges *)

Definition ton_genesis (info : tonMasterchainInfo) : result provider_error string :=
  let ambiguous := malformed_msg "ton masterchain head" "ambiguous genesis root hash" in
  genesisRoot ←
    (if ki_FirstRootHash info == "" then Ok (ki_InitRootHash info)
     else if ki_InitRootHash info != "" then
       match canonicalTONHash (ki_FirstRootHash info), canonicalTONHash (ki_InitRootHash info) with
       | Some first, Some legacy => if first != legacy then Err ambiguous else Ok (ki_FirstRootHash info)
       | _, _ => Err ambiguous
       end
     else Ok (ki_FirstRootHash info));
  of_option (malformed_msg "ton masterchain head" "invalid genesis root hash") (canonicalTONHash genesisRoot).

Definition TON_Heads : result provider_error ProviderHead :=
  info ← kn_info node;
  genesis ← ton_genesis info;
  _ ← of_option (malformed_msg "ton masterchain head" "invalid last root hash") (canonicalTONHash (ki_LastRootHash info));
  Ok (mkHead (os_providerID s) (os_chainID s) genesis (ki_LastSeqno info) (kn_now node)).

Definition TON_block (seqno : Z) : result provider_error tonBlock :=
  blocks ← kn_block node seqno;
  match blocks with [block] => Ok block | _ => Err (malformed_msg "ton masterchain block" "ambiguous masterchain block response") end.

(** The parent of a block: declared, the block before in the batch, or fetched. *)
Definition ton_parent (seqno : Z) (block : tonBlock) (previous : option Block) : result provider_error string :=
  let invalid := malformed_msg "ton masterchain block" "invalid TON hash" in
  if seqno =? 0 then Ok ""
  else match kb_PrevBlocks block with
  | [(number, declared)] =>
      if negb (number =? 0) && negb (number =? seqno - 1) then Err (malformed_msg "ton masterchain block" "previous masterchain sequence mismatch")
      else if declared != "" then of_option invalid (canonicalTONHash declared)
      else match previous with
      | Some p => if bl_Height p =? seqno - 1 then Ok (bl_Hash p)
                  else fetched ← TON_block (seqno - 1); of_option invalid (canonicalTONHash (kb_RootHash fetched))
      | None => fetched ← TON_block (seqno - 1); of_option invalid (canonicalTONHash (kb_RootHash fetched))
      end
  | _ => Err (malformed_msg "ton masterchain block" "ambiguous or incomplete masterchain block")
  end.

(** One block of a range with its actions. *)
Definition ton_scan_block (safe seqno : Z) (previous : option Block) : result provider_error (Block * list TransferEvent) :=
  block ← TON_block seqno;
  if negb (kb_Seqno block =? seqno) || (kb_GenUtime block <=? 0) || ((0 <? seqno) && negb (Nat.eqb (length (kb_PrevBlocks block)) 1))
  then Err (malformed_msg "ton masterchain block" "ambiguous or incomplete masterchain block")
  else
    blockHash ← of_option (malformed_msg "ton masterchain block" "invalid TON hash") (canonicalTONHash (kb_RootHash block));
    parentHash ← ton_parent seqno block previous;
    let blockTime := UnixTime (kb_GenUtime block) in
    events ← tonActions seqno blockHash blockTime safe;
    Ok (mkBlock seqno blockHash parentHash blockTime, events).

Fixpoint ton_scan_blocks (safe : Z) (previous : option Block) (seqnos : list Z) : result provider_error (list (Block * list TransferEvent)) :=
  match seqnos with
  | [] => Ok []
  | seqno :: rest =>
      scanned ← ton_scan_block safe seqno previous;
      more ← ton_scan_blocks safe (Some (fst scanned)) rest;
      Ok (scanned :: more)
  end.

Definition window_error (msg : string) : provider_error := malformed_msg "ton masterchain block range" msg.

(** The blocks of the range by sequence number; one answered twice is refused. *)
Fixpoint by_seqno (from to : Z) (blocks : list tonBlock) (acc : gmap Z tonBlock) : result provider_error (gmap Z tonBlock) :=
  match blocks with
  | [] => Ok acc
  | block :: rest =>
      if (kb_Seqno block <? from) || (to <? kb_Seqno block) then by_seqno from to rest acc
      else match acc !! kb_Seqno block with
           | Some _ => Err (window_error "ambiguous block sequence")
           | None => by_seqno from to rest (<[kb_Seqno block := block]> acc)
           end
  end.

(** The parent of a block in a window: the block before, which a declared hash
    must agree with. *)
Definition window_parent (seqno : Z) (block : tonBlock) (previous : option Block) : result provider_error string :=
  match previous with
  | None => Ok ""
  | Some p =>
      match kb_PrevBlocks block with
      | (number, declared) :: _ =>
          if negb (number =? 0) && negb (number =? seqno - 1) then Err (window_error "previous masterchain sequence mismatch")
          else if (declared != "") && negb (bool_decide (canonicalTONHash declared = Some (bl_Hash p))) then Err (window_error "previous masterchain hash mismatch")
          else Ok (bl_Hash p)
      | [] => Err (window_error "non-contiguous block range")
      end
  end.

Fixpoint window_blocks (bySeqno : gmap Z tonBlock) (previous : option Block) (seqnos : list Z) : result provider_error (list Block) :=
  match seqnos with
  | [] => Ok []
  | seqno :: rest =>
      block ← of_option (window_error "non-contiguous block range") (bySeqno !! seqno);
      if (kb_GenUtime block <=? 0) || ((0 <? seqno) && negb (Nat.eqb (length (kb_PrevBlocks block)) 1)) then Err (window_error "non-contiguous block range")
      else
        hash ← of_option (window_error "invalid TON hash") (canonicalTONHash (kb_RootHash block));
        parentHash ← window_parent seqno block previous;
        let b := mkBlock seqno hash parentHash (UnixTime (kb_GenUtime block)) in
        more ← window_blocks bySeqno (Some b) rest;
        Ok (b :: more)
  end.

Definition block_evidence (blocks : list Block) : gmap Z tonBlockEvidence :=
  fold_left (fun m b => <[bl_Height b := mkTonEvidence (bl_Hash b) (bl_Time b)]> m) blocks ∅.

Definition TON_scanWatchedRange (from to safe : Z) : result provider_error RangeBatch :=
  first ← TON_block from;
  last ← TON_block to;
  if negb (kb_Seqno first =? from) || negb (kb_Seqno last =? to) || (kb_GenUtime first <=? 0) || (kb_GenUtime last <? kb_GenUtime first)
  then Err (window_error "invalid range boundary")
  else
    response ← kn_blocks node (kb_GenUtime first) (kb_GenUtime last);
    if bool_decide (response = []) || (1000 <? Z.of_nat (length response)) then Err (window_error "invalid block count")
    else
      bySeqno ← by_seqno from to response ∅;
      blocks ← window_blocks bySeqno None (heights from to);
      '(startLT, endLT) ← tonActionsLTBounds from first last;
      events ← tonActionsWindow from to startLT endLT (block_evidence blocks) safe;
      Ok (mkBatch from to blocks events [] false false false).

Definition TON_ScanRange (from to : Z) : result provider_error RangeBatch :=
  if (to <? from) || (255 <? to - from) then Err (permanent_msg "ton scan range" "range must contain 1..256 masterchain blocks")
  else
    head ← TON_Heads;
    let safe := ph_SafeHeight head in
    if safe <? to then Err (permanent_msg "ton scan range" "range exceeds finalized masterchain head")
    else if negb (bool_decide (os_watched s = [])) && (from <? to) then TON_scanWatchedRange from to safe
    else
      blocks ← ton_scan_blocks safe None (heights from to);
      Ok (mkBatch from to (map fst blocks) (concat (map snd blocks)) [] false false false).

(** ** Look-up *)

Definition lookup_seqnos (actions : list tonAction) : list Z := elements (list_to_set (map ka_TraceMCSeqnoEnd actions) : gset Z).

(** The block of one sequence number. The order in which the map yields them
    decides only which error is reported. *)
Definition lookup_block (safe seqno : Z) : result provider_error (Z * tonBlockEvidence) :=
  if safe <? seqno then Err (ProviderError ErrorTransient "ton transaction lookup" 0 0 (Some (OtherError "transaction is not finalized")))
  else
    block ← TON_block seqno;
    match canonicalTONHash (kb_RootHash block) with
    | Some hash =>
        if negb (kb_Seqno block =? seqno) || (kb_GenUtime block <=? 0) then Err (malformed_msg "ton transaction block" "invalid masterchain binding")
        else Ok (seqno, mkTonEvidence hash (UnixTime (kb_GenUtime block)))
    | None => Err (malformed_msg "ton transaction block" "invalid masterchain binding")
    end.

Definition TON_LookupTransaction (chainID transactionID : string) : result provider_error (list TransferEvent) :=
  if chainID != os_chainID s then Err (permanent_msg "ton transaction lookup" "chain ID mismatch")
  else
    txHash ← of_option (permanent_msg "ton transaction lookup" "invalid TON hash") (canonicalTONHash transactionID);
    actions ← tonActionPages (ByTransaction (TrimSpace transactionID));
    let filtered := List.filter (fun a => tonActionContainsTransaction a txHash) actions in
    if existsb (fun a => ka_TraceMCSeqnoEnd a =? 0) filtered then Err (malformed_msg "ton transaction lookup" "missing masterchain binding")
    else if bool_decide (filtered = []) then Ok []
    else
      head ← TON_Heads;
      blocks ← traverse (lookup_block (ph_SafeHeight head)) (lookup_seqnos filtered);
      normalizeTONActions filtered (list_to_map blocks) 0 (ph_SafeHeight head).
End source.
