(* ===== verification/TonFacts.v ===== *)
(** * TonFacts: what the TON source guarantees

    A shard frontier is accepted exactly when its shards tile the address space,
    so the logical-time window of a watched range misses no transaction of a
    watched account; pages of actions are complete and end; every action is
    counted once; a scanned range meets the worker's contract; and an address has
    one spelling, the displayed one included. *)

From Stdlib Require Import ZArith Lia Ascii String Permutation Sorted.
From stdpp Require Import base gmap list strings.
From S2P Require Import Prelude Text Numerals Money Domain Encoding Scanner Chains ChainsFacts Providers Evm EvmFacts Ton.
From S2P Require Outbox ProviderOpsFacts Tron LegacyFacts.
From S2P Require Import TronFacts.

(** ** The lowest bit of a shard *)

Lemma land_odd a b : Z.land (2 * a + 1) (2 * b + 1) = 2 * Z.land a b + 1.
Proof.
  apply Z.bits_inj'. intros n Hn. rewrite Z.land_spec. destruct (Z.eq_dec n 0) as [->|].
  - by rewrite !Z.testbit_odd_0.
  - replace n with (Z.succ (n - 1)) by lia. rewrite !Z.testbit_odd_succ, Z.land_spec by lia. done.
Qed.

Lemma land_even a b : Z.land (2 * a) (2 * b) = 2 * Z.land a b.
Proof.
  apply Z.bits_inj'. intros n Hn. rewrite Z.land_spec. destruct (Z.eq_dec n 0) as [->|].
  - by rewrite !Z.testbit_even_0.
  - replace n with (Z.succ (n - 1)) by lia. rewrite !Z.testbit_even_succ, Z.land_spec by lia. done.
Qed.

Lemma lowest_bit p : exists k m, 0 <= k /\ 0 <= m /\ Zpos p = (2 * m + 1) * 2 ^ k /\ Z.land (Zpos p) (- Zpos p) = 2 ^ k.
Proof.
  induction p as [q _|q (k & m & Hk & Hm & Hq & Hl)|].
  - exists 0, (Zpos q). split_and!; [lia|lia|lia|]. replace (- Zpos q~1) with (2 * (- Zpos q - 1) + 1) by lia.
    replace (Zpos q~1) with (2 * Zpos q + 1) by lia. rewrite land_odd. replace (- Zpos q - 1) with (Z.lnot (Zpos q)) by (unfold Z.lnot; lia).
    by rewrite Z.land_lnot_diag.
  - exists (k + 1), m. rewrite Z.pow_add_r by lia. change (2 ^ 1) with 2. split_and!; [lia|done|lia|].
    replace (- Zpos q~0) with (2 * - Zpos q) by lia. replace (Zpos q~0) with (2 * Zpos q) by lia. rewrite land_even, Hl. lia.
  - exists 0, 0. done.
Qed.

Lemma shard_tag_spec x : 0 < x < 2 ^ 64 -> exists k m, 0 <= k /\ 0 <= m /\ x = (2 * m + 1) * 2 ^ k /\ shard_tag x = 2 ^ k.
Proof.
  intros Hx. destruct x as [|p|p]; try lia. destruct (lowest_bit p) as (k & m & Hk & Hm & Hp & Hl). exists k, m. split_and!; try done.
  unfold shard_tag, uint64. rewrite <- Hl, <- Z.land_ones by lia. rewrite (Z.land_comm (- Zpos p)), Z.land_assoc.
  rewrite (Z.land_ones (Zpos p) 64), Z.mod_small by lia. done.
Qed.

(** A shard is the middle of its range, which lies in the address space. *)
Lemma shard_range x : 0 < x < 2 ^ 64 -> 0 < shard_tag x <= x /\ x + shard_tag x <= 2 ^ 64.
Proof.
  intros Hx. destruct (shard_tag_spec x Hx) as (k & m & Hk & Hm & He & ->).
  pose proof (Z.pow_pos_nonneg 2 k ltac:(lia) Hk) as Hp. assert (k < 64) as Hk64.
  { destruct (Z.lt_ge_cases k 64) as [|Hge]; [done|]. pose proof (Z.pow_le_mono_r 2 64 k ltac:(lia) Hge). nia. }
  assert (2 ^ 64 = 2 ^ (64 - k) * 2 ^ k) as H64 by (rewrite <- Z.pow_add_r by lia; f_equal; lia).
  rewrite H64 in *. split; [nia|]. assert (2 * m + 1 < 2 ^ (64 - k)) by nia. rewrite He. nia.
Qed.

(** ** Frontiers *)

(** The addresses of a shard, by their first 64 bits. *)
Definition in_shard (x shard : Z) : bool := (shard - shard_tag shard <=? x) && (x <? shard + shard_tag shard).
Definition shards_at (x : Z) (shards : list Z) : nat := length (List.filter (in_shard x) shards).
Definition shard_ok (shard : Z) : Prop := 0 < shard < 2 ^ 64.

(** The reference: each address is in exactly one shard. *)
Definition tiles (shards : list Z) : Prop := forall x, 0 <= x < 2 ^ 64 -> shards_at x shards = 1%nat.

(** The shards continue each other from [next] to the end. *)
Fixpoint tiled (next : Z) (shards : list Z) : Prop :=
  match shards with
  | [] => next = 2 ^ 64
  | s :: rest => s - shard_tag s = next /\ tiled (s + shard_tag s) rest
  end.

Lemma tile_loop_tiled next l : Forall shard_ok l -> 0 <= next < 2 ^ 64 -> l <> [] -> tile_loop next l = true <-> tiled next l.
Proof.
  intros Hl. revert next. induction Hl as [|s l Hs Hl IH]; intros next Hn Hne; [done|]. cbn [tile_loop tiled].
  destruct (shard_range s Hs) as [Ht Hh]. cbv zeta. rewrite (proj2 (Z.eqb_neq (shard_tag s) 0)) by lia. cbn [orb].
  replace (uint64 (s - shard_tag s)) with (s - shard_tag s) by (unfold uint64; symmetry; apply Z.mod_small; unfold shard_ok in Hs; lia).
  destruct (Z.eqb_spec (s - shard_tag s) next) as [He|He]; cbn [negb]; [|split; [done|by intros [? _]]].
  destruct (Z.eq_dec (s + shard_tag s) (2 ^ 64)) as [Hend|Hend].
  - rewrite Hend. change (uint64 (2 ^ 64)) with 0. cbn [Z.eqb andb]. destruct l as [|t l]; cbn [tiled].
    + rewrite bool_decide_true by done. done.
    + rewrite bool_decide_false by done. cbn [negb]. split; [done|]. intros (_ & Hbad & _). apply Forall_cons in Hl as [Ht' _].
      destruct (shard_range t Ht') as [? ?]. unfold shard_ok in *. lia.
  - replace (uint64 (s + shard_tag s)) with (s + shard_tag s) by (unfold uint64; symmetry; apply Z.mod_small; unfold shard_ok in Hs; lia).
    rewrite (proj2 (Z.eqb_neq (s + shard_tag s) 0)) by (unfold shard_ok in Hs; lia). cbn [andb]. destruct l as [|t l].
    + cbn [tile_loop tiled]. rewrite (proj2 (Z.eqb_neq (s + shard_tag s) 0)) by (unfold shard_ok in Hs; lia). split; [done|]. by intros [_ ?].
    + rewrite IH by (try done; unfold shard_ok in Hs; lia). by intuition.
Qed.

Lemma tiled_counts next l x : Forall shard_ok l -> tiled next l -> shards_at x l = if (next <=? x) && (x <? 2 ^ 64) then 1%nat else 0%nat.
Proof.
  intros Hl. revert next. induction Hl as [|s l Hs Hl IH]; intros next; cbn [tiled].
  - intros ->. change (shards_at x []) with 0%nat. destruct (Z.leb_spec (2 ^ 64) x), (Z.ltb_spec x (2 ^ 64)); try done; lia.
  - intros [He Ht]. specialize (IH _ Ht). unfold shards_at in *. cbn [List.filter]. destruct (shard_range s Hs) as [? ?]. unfold in_shard at 1.
    destruct (Z.leb_spec (s - shard_tag s) x), (Z.ltb_spec x (s + shard_tag s)), (Z.leb_spec (s + shard_tag s) x), (Z.leb_spec next x), (Z.ltb_spec x (2 ^ 64));
      cbn [andb length] in *; lia.
Qed.

Lemma in_own_shard s : shard_ok s -> in_shard s s = true.
Proof. intros Hs. destruct (shard_range s Hs). unfold in_shard. lia. Qed.

Lemma shards_at_In x s l : In s l -> in_shard x s = true -> (1 <= shards_at x l)%nat.
Proof. intros Hs Hx. unfold shards_at. assert (In s (List.filter (in_shard x) l)) as H by by apply filter_In. destruct (List.filter _ l); [done|]. cbn. lia. Qed.

Lemma counts_tiled l next : Forall shard_ok l -> StronglySorted Z.le l -> 0 <= next <= 2 ^ 64 ->
  (forall x, next <= x < 2 ^ 64 -> shards_at x l = 1%nat) -> (forall x, x < next -> shards_at x l = 0%nat) -> tiled next l.
Proof.
  intros Hl Hsort. revert next. induction Hsort as [|s l Hsort IH Hle]; intros next Hn Hone Hnone; cbn [tiled].
  - destruct (Z.eq_dec next (2 ^ 64)) as [|]; [done|]. specialize (Hone next ltac:(lia)). discriminate Hone.
  - apply Forall_cons in Hl as [Hs Hl]. destruct (shard_range s Hs) as [Ht Hh]. pose proof (in_own_shard s Hs) as Hself. unfold shard_ok in Hs.
    assert (forall x t, In t (s :: l) -> in_shard x t = true -> next <= x) as Hnext.
    { intros x t Hin Hx. destruct (Z.lt_ge_cases x next) as [Hlt|]; [|done]. specialize (Hnone x Hlt). pose proof (shards_at_In x t _ Hin Hx). lia. }
    assert (forall t, shard_ok t -> in_shard (t - shard_tag t) t = true) as Hlow by (intros t Hok; destruct (shard_range t Hok); unfold in_shard; lia).
    pose proof (Hnext s s ltac:(by left) Hself) as Hns. pose proof (Hnext _ s ltac:(by left) (Hlow s Hs)) as Hnl.
    assert (s - shard_tag s = next) as He.
    { assert (exists t, In t (s :: l) /\ in_shard next t = true) as (t & Hin & Hcov).
      { specialize (Hone next ltac:(lia)). unfold shards_at in Hone. destruct (List.filter (in_shard next) (s :: l)) as [|t r] eqn:Ef; [discriminate|].
        exists t. apply filter_In. rewrite Ef. by left. }
      destruct Hin as [->|Hin]; [unfold in_shard in Hcov; lia|]. exfalso. rewrite Forall_forall in Hl; rewrite Forall_forall in Hle.
      pose proof (Hl t ltac:(by apply list_elem_of_In)) as Hok. pose proof (Hle t ltac:(by apply list_elem_of_In)) as Hst.
      destruct (shard_range t Hok). unfold in_shard in Hcov. specialize (Hone s ltac:(lia)). unfold shards_at in Hone. cbn [List.filter] in Hone. rewrite Hself in Hone.
      cbn [length] in Hone. pose proof (shards_at_In s t l Hin ltac:(unfold in_shard; lia)) as H2. unfold shards_at in H2. lia. }
    split; [done|]. apply IH; [done|lia| |].
    + intros x Hx. specialize (Hone x ltac:(lia)). unfold shards_at in Hone |- *. cbn [List.filter] in Hone.
      replace (in_shard x s) with false in Hone; [done|]. unfold in_shard. symmetry. lia.
    + intros x Hx. destruct (Z.lt_ge_cases x next) as [Hlt|Hge].
      * specialize (Hnone x Hlt). unfold shards_at in Hnone |- *. cbn [List.filter] in Hnone. destruct (in_shard x s); [discriminate Hnone|done].
      * specialize (Hone x ltac:(lia)). unfold shards_at in Hone |- *. cbn [List.filter] in Hone. replace (in_shard x s) with true in Hone; [cbn in Hone; lia|].
        unfold in_shard. symmetry. lia.
Qed.

Lemma complete_frontier_iff shards : Forall shard_ok shards -> tonCompleteShardFrontier shards = true <-> tiles shards.
Proof.
  intros Hok. unfold tonCompleteShardFrontier. destruct shards as [|s0 l0] eqn:El.
  { rewrite bool_decide_true by done. split; [done|]. intros Ht. specialize (Ht 0 ltac:(lia)). discriminate Ht. }
  rewrite <- El in *. rewrite bool_decide_false by (subst; done). set (l := sort_by Z.ltb shards).
  assert (Permutation shards l) as Hp by apply sort_by_perm. assert (Forall shard_ok l) as Hl by by rewrite <- Hp.
  assert (StronglySorted Z.le l) as Hs.
  { assert (StronglySorted (not_after Z.ltb) l) as H by (apply (sort_by_sorted_on Z.ltb (fun _ => True)); [lia|lia|by apply Forall_true]).
    clear -H. induction H as [|x l _ IH Hx]; constructor; [done|]. eapply Forall_impl; [exact Hx|]. unfold not_after. lia. }
  assert (l <> []) as Hne by (intros He; rewrite He in Hp; symmetry in Hp; apply Permutation_nil in Hp; subst; done).
  assert (forall x, shards_at x shards = shards_at x l) as Hc by (intros x; apply Permutation_length, ProviderOpsFacts.filter_perm, Hp).
  rewrite tile_loop_tiled by (done || lia). split.
  - intros Ht x Hx. rewrite Hc, (tiled_counts 0 l x Hl Ht). destruct (Z.leb_spec 0 x), (Z.ltb_spec x (2 ^ 64)); try lia. done.
  - intros Ht. apply counts_tiled; [done|done|lia| |].
    + intros x Hx. rewrite <- Hc. by apply Ht.
    + intros x Hx. destruct (shards_at x l) eqn:E; [done|]. exfalso. unfold shards_at in E. destruct (List.filter (in_shard x) l) as [|t r] eqn:Ef; [discriminate|].
      assert (In t l /\ in_shard x t = true) as [Hin Hx'] by (apply filter_In; rewrite Ef; by left). rewrite Forall_forall in Hl.
      destruct (shard_range t (Hl t ltac:(by apply list_elem_of_In))). unfold in_shard in Hx'. lia.
Qed.

(** ** The logical-time window *)

Lemma ParseUint16_64_range t n : ParseUint16_64 t = Some n -> is_uint64 n.
Proof.
  unfold ParseUint16_64. destruct (t == ""); [discriminate|]. destruct (hex_number 0 t) as [m|] eqn:E; [|discriminate]. apply hex_number_nonneg in E; [|lia].
  destruct (Z.ltb_spec max_uint64 m); [discriminate|]. intros [= <-]. split; lia.
Qed.

Definition shard_of (b : tonBlock) : Z := default 0 (ParseUint16_64 (kb_Shard b)).
Definition of_workchain (w : Z) (blocks : list tonBlock) : list tonBlock := List.filter (fun b => kb_Workchain b =? w) blocks.

(** A frontier block: a shard of the address space, ended before the range. *)
Definition frontier_block (endLT : Z) (b : tonBlock) : Prop := shard_ok (shard_of b) /\ 0 <= kb_StartLT b < kb_EndLT b /\ kb_EndLT b < endLT.

(** The masterchain block before the range. *)
Definition previous_master (from : Z) (b : tonBlock) : Prop := kb_Workchain b = -1 /\ kb_Seqno b = uint64 (from - 1).

Lemma frontier_step_ok from endLT first f b f' : frontier_step from endLT first f b = Ok f' ->
  frontier_block endLT b /\ fr_startLT f' = Z.min (kb_EndLT b) (fr_startLT f) /\
  (forall w, default [] (fr_shards f' !! w) = default [] (fr_shards f !! w) ++ map shard_of (of_workchain w [b])) /\
  (fr_masterEndLT f' = fr_masterEndLT f \/ fr_masterEndLT f' = Some (kb_EndLT b) /\ previous_master from b).
Proof.
  unfold frontier_step. cbv zeta. intros H. bind_step H. destruct (_ || _) eqn:Eg in H; [discriminate H|]. bind_step H. apply of_option_ok in E0.
  destruct (Z.eqb_spec x0 0) as [|Hz]; [discriminate H|]. bool_hyp. apply ParseUint16_64_range in E0 as Hr.
  assert (shard_of b = x0) as Hs by (unfold shard_of; by rewrite E0).
  assert (frontier_block endLT b) as Hb by (unfold frontier_block, shard_ok; rewrite Hs; unfold is_uint64, max_uint64 in Hr; lia).
  assert (forall w, default [] (<[kb_Workchain b := default [] (fr_shards f !! kb_Workchain b) ++ [x0]]> (fr_shards f) !! w) =
    default [] (fr_shards f !! w) ++ map shard_of (of_workchain w [b])) as Hsh.
  { intros w. unfold of_workchain. cbn [List.filter]. destruct (Z.eqb_spec (kb_Workchain b) w) as [->|Hne]; cbn [map].
    - rewrite lookup_insert_eq. cbn. by rewrite Hs.
    - rewrite lookup_insert_ne by done. by rewrite app_nil_r. }
  destruct (Z.eqb_spec (kb_Workchain b) (-1)) as [Hw|]; [bind_step H|]; assert (Hf := f_equal (fun r => match r with Ok y => y | Err _ => f end) H); cbn in Hf; subst f'; cbn [fr_startLT fr_shards fr_masterEndLT].
  - split_and!; [done|done|exact Hsh|]. right. split; [done|]. split; [done|]. unfold master_block in E1. destruct (_ || _) eqn:Em in E1; [discriminate E1|]. bool_hyp. done.
  - split_and!; [done|done|exact Hsh|by left].
Qed.

Lemma frontier_walk_ok from endLT first blocks f f' : frontier_walk from endLT first f blocks = Ok f' ->
  Forall (frontier_block endLT) blocks /\ Forall (fun b => fr_startLT f' <= kb_EndLT b) blocks /\ fr_startLT f' <= fr_startLT f /\
  (forall w, default [] (fr_shards f' !! w) = default [] (fr_shards f !! w) ++ map shard_of (of_workchain w blocks)) /\
  (fr_masterEndLT f' = fr_masterEndLT f \/ exists b, In b blocks /\ fr_masterEndLT f' = Some (kb_EndLT b) /\ previous_master from b).
Proof.
  revert f. induction blocks as [|b blocks IH]; intros f H; cbn [frontier_walk] in H.
  { assert (f' = f) as -> by congruence. split_and!; [constructor|constructor|lia| |by left]. intros w. by rewrite app_nil_r. }
  bind_step H. apply frontier_step_ok in E as (Hb & Hs & Hsh & Hm). apply IH in H as (Hall & Hlt & Hle & Hsh' & Hm').
  split_and!; [by constructor|constructor; [lia|done]|lia| |].
  - intros w. rewrite Hsh', Hsh, <- app_assoc. f_equal. unfold of_workchain. cbn [List.filter]. by destruct (kb_Workchain b =? w).
  - destruct Hm' as [Hm'|(c & Hc & Hm')]; [|right; exists c; split; [by right|done]]. rewrite Hm'. destruct Hm as [->|Hm]; [by left|right; exists b; split; [by left|done]].
Qed.

Lemma watched_frontiers_ok shards accounts : watched_frontiers shards accounts = Ok () ->
  forall a, In a accounts -> exists l, shards !! account_workchain a = Some l /\ tonCompleteShardFrontier l = true.
Proof.
  induction accounts as [|a accounts IH]; intros H c Hc; [done|]. cbn [watched_frontiers] in H.
  destruct (shards !! account_workchain a) as [l|] eqn:E; [|discriminate H]. destruct (tonCompleteShardFrontier l) eqn:Et; [|discriminate H].
  destruct Hc as [<-|Hc]; [by exists l|by apply IH].
Qed.

(** The frontier block that holds an address of a workchain. *)
Definition holders (w x : Z) (blocks : list tonBlock) : list tonBlock := List.filter (fun b => (kb_Workchain b =? w) && in_shard x (shard_of b)) blocks.

Lemma holders_count w x blocks : length (holders w x blocks) = shards_at x (map shard_of (of_workchain w blocks)).
Proof.
  unfold holders, shards_at, of_workchain. induction blocks as [|b blocks IH]; [done|]. cbn [List.filter]. destruct (kb_Workchain b =? w); cbn [andb]; [|exact IH].
  cbn [map List.filter]. destruct (in_shard x (shard_of b)); cbn [length]; by rewrite IH.
Qed.

(** ** Identifiers of a page *)

Definition ids (l : list tonAction) : list string := map ka_ActionID l.

Lemma add_seen_ok seen l seen' : add_seen seen l = Some seen' <->
  NoDup (ids l) /\ (forall a, In a l -> ka_ActionID a ∉ seen) /\ seen' = list_to_set (ids l) ∪ seen.
Proof.
  revert seen. induction l as [|a l IH]; intros seen; cbn [add_seen ids map list_to_set].
  { split; [intros [= <-]; split_and!; [constructor|done|set_solver]|intros (_ & _ & ->); f_equal; set_solver]. }
  case_bool_decide as Ha.
  - split; [done|]. intros (_ & H & _). specialize (H a ltac:(by left)). done.
  - rewrite IH. unfold ids. split.
    + intros (Hn & Hd & ->). split_and!; [|intros b [->|Hb]; [done|]|set_solver].
      * apply NoDup_cons. split; [|done]. intros (b & Hk & Hb)%list_elem_of_fmap. apply list_elem_of_In in Hb. specialize (Hd b Hb). set_solver.
      * specialize (Hd b Hb). set_solver.
    + intros ([Hk Hn]%NoDup_cons & Hd & ->). split_and!; [done| |set_solver]. intros b Hb. specialize (Hd b ltac:(by right)).
      assert (ka_ActionID b <> ka_ActionID a) by (intros He; apply Hk; rewrite <- He; by apply list_elem_of_In, in_map). set_solver.
Qed.

Lemma NoDup_take_drop {A} n (l : list A) : NoDup l -> NoDup (take n l) /\ NoDup (drop n l) /\ forall x, x ∈ take n l -> x ∈ drop n l -> False.
Proof. intros H. rewrite <- (take_drop n l) in H. apply NoDup_app in H as (H1 & H2 & H3). split_and!; [done|done|]. intros x Hx Hd. by apply (H2 x). Qed.

Section source.
Context (s : TONSource) (node : TonNode).

Lemma lt_bounds_ok from first last startLT endLT : from <> 0 -> tonActionsLTBounds s node from first last = Ok (startLT, endLT) ->
  endLT = kb_EndLT last /\ exists blocks master, kn_shards node (from - 1) = Ok blocks /\ In master blocks /\ previous_master from master /\
    Forall (fun b => startLT <= kb_EndLT b <= kb_EndLT master /\ kb_EndLT b < endLT) blocks /\
    forall a x, In a (os_watched s) -> 0 <= x < 2 ^ 64 -> length (holders (account_workchain a) x blocks) = 1%nat.
Proof using Type.
  intros Hfrom. unfold tonActionsLTBounds. destruct (_ || _); [discriminate|]. rewrite (proj2 (Z.eqb_neq from 0)) by done. intros H. bind_step H.
  destruct (_ || _); [discriminate H|]. bind_step H. apply frontier_walk_ok in E0 as (Hall & Hlt & _ & Hsh & Hm).
  destruct (fr_masterEndLT x0) as [masterEnd|] eqn:Em; [|discriminate H]. destruct (existsb _ _) eqn:Ex; [discriminate H|]. bind_step H.
  assert (startLT = fr_startLT x0 /\ endLT = kb_EndLT last) as [-> ->] by (split; congruence). split; [done|].
  destruct Hm as [Hm|(master & Hin & Hm & Hprev)]; [cbn in Hm; congruence|]. exists x, master. split_and!; [done|done|done| |].
  - assert (masterEnd = kb_EndLT master) as He by congruence. rewrite Forall_forall in Hall; rewrite Forall_forall in Hlt; apply Forall_forall. intros b Hb.
    specialize (Hlt b Hb). destruct (Hall b Hb) as (_ & _ & Hend). split_and!; [done| |done]. rewrite <- He.
    assert ((masterEnd <? kb_EndLT b) = false) as Hf; [|lia]. destruct (masterEnd <? kb_EndLT b) eqn:Eb; [|done]. apply list_elem_of_In in Hb. exfalso.
    assert (existsb (fun b => masterEnd <? kb_EndLT b) x = true) by (apply existsb_exists; by exists b). congruence.
  - intros a y Ha Hy. destruct x1. destruct (watched_frontiers_ok _ _ E0 a Ha) as (l & Hl & Hc). specialize (Hsh (account_workchain a)).
    cbn [fr_shards] in Hsh. rewrite Hl, lookup_empty in Hsh. cbn in Hsh. rewrite holders_count, <- Hsh. apply complete_frontier_iff in Hc; [by apply Hc|].
    rewrite Hsh. apply Forall_map_iff. unfold of_workchain. apply Forall_filter_b. eapply Forall_impl; [exact Hall|]. by intros b [? _].
Qed.

(** *** Pages *)

(** A node that serves the actions [l] page by page, with their number or without. *)
Definition serves_pages (base : TonQuery) (account : string) (l : list tonAction) (total : option Z) : Prop :=
  forall offset, 0 <= offset -> kn_actions node base account (os_pageSize s) offset =
    Ok (mkTonActions (take (Z.to_nat (os_pageSize s)) (drop (Z.to_nat offset) l)) total).

Definition honest_total (l : list tonAction) (total : option Z) : Prop := total = None \/ total = Some (Z.of_nat (length l)).

Lemma page_loop_complete base account l total : 1 <= os_pageSize s -> Z.of_nat (length l) < 100000 -> NoDup (ids l) ->
  serves_pages base account l total -> honest_total l total ->
  forall fuel offset expected, 0 <= offset <= Z.of_nat (length l) -> Z.of_nat (length l) - offset < Z.of_nat fuel * os_pageSize s ->
    (expected = None \/ expected = total) ->
    page_loop s node fuel base account offset offset expected (list_to_set (take (Z.to_nat offset) (ids l))) = Ok (drop (Z.to_nat offset) l).
Proof using Type.
  intros Hps Hl Hnd Hserve Htot. induction fuel as [|f IH]; intros offset expected Ho Hf Hexp; [lia|]. cbn [page_loop].
  destruct (Z.leb_spec 100000 offset); [lia|]. rewrite (Hserve offset) by lia. cbn [mbind result_bind].
  set (ps := os_pageSize s) in *. set (rest := drop (Z.to_nat offset) l) in *. set (page := take (Z.to_nat ps) rest) in *.
  assert (length rest = (length l - Z.to_nat offset)%nat) as Hrest by apply length_drop.
  assert (length page = Nat.min (Z.to_nat ps) (length rest)) as Hpage by apply length_take.
  assert (page_error s offset expected (mkTonActions page total) = None) as ->.
  { unfold page_error. cbn [kr_Total kr_Actions]. fold ps. rewrite (proj2 (Z.ltb_ge ps _)) by lia. rewrite orb_false_r.
    destruct Htot as [->| ->]; cbn; [done|]. rewrite (proj2 (Z.ltb_ge 100000 _)), (proj2 (Z.ltb_ge _ offset)) by lia. cbn [orb].
    destruct Hexp as [->| ->]; [done|]. by rewrite Z.eqb_refl. }
  cbn [kr_Actions kr_Total].
  assert (ids page = take (Z.to_nat ps) (drop (Z.to_nat offset) (ids l))) as Hids by (unfold page, rest, ids; by rewrite skipn_map, firstn_map).
  assert (add_seen (list_to_set (take (Z.to_nat offset) (ids l))) page = Some (list_to_set (take (Z.to_nat (offset + ps)) (ids l)))) as ->.
  { destruct (NoDup_take_drop (Z.to_nat offset) (ids l) Hnd) as (_ & Hdrop & Hdisj). apply add_seen_ok. split_and!.
    - rewrite Hids. by apply NoDup_take_drop.
    - intros a Ha Hin. apply elem_of_list_to_set in Hin. apply (Hdisj _ Hin). apply (in_map ka_ActionID) in Ha. fold (ids page) in Ha. rewrite Hids in Ha.
      apply list_elem_of_In. rewrite <- (take_drop (Z.to_nat ps) (drop (Z.to_nat offset) (ids l))). apply in_or_app. by left.
    - rewrite Hids, Z2Nat.inj_add by lia. rewrite <- take_take_drop. rewrite list_to_set_app_L. set_solver. }
  cbn [of_option mbind result_bind].
  assert (offset + ps <= Z.of_nat (length l) -> page <> [] /\ offset + Z.of_nat (length page) = offset + ps /\ page ++ drop (Z.to_nat (offset + ps)) l = rest) as Hmore.
  { intros Hle. split_and!; [intros He; rewrite He in Hpage; cbn in Hpage; lia|lia|]. unfold page. rewrite Z2Nat.inj_add, Nat.add_comm, <- skipn_skipn by lia.
    apply take_drop. }
  assert (Z.of_nat (length l) <= offset + ps -> page = rest) as Hlast by (intros Hge; unfold page; apply take_ge; lia).
  assert (forall e, e = None \/ e = total -> offset + ps <= Z.of_nat (length l) -> (if bool_decide (page = []) then Err (actions_error "pagination stopped before total") else
     more ← page_loop s node f base account (offset + ps) (offset + Z.of_nat (length page)) e (list_to_set (take (Z.to_nat (offset + ps)) (ids l))); Ok (page ++ more)) = Ok rest) as Hstep.
  { intros e He Hle. destruct (Hmore Hle) as (Hne & Hlen & Happ). rewrite bool_decide_false by done. rewrite Hlen, IH by (done || lia). cbn [mbind result_bind]. by rewrite Happ. }
  destruct Htot as [Ht|Ht]; rewrite Ht in *.
  - destruct (Z.ltb_spec (Z.of_nat (length page)) ps); [by rewrite Hlast by lia|]. apply Hstep; [|lia]. by destruct Hexp as [->| ->]; auto.
  - destruct (Z.leb_spec (Z.of_nat (length l)) (offset + Z.of_nat (length page))).
    + rewrite (proj2 (Z.eqb_eq _ _)) by lia. cbn [negb]. by rewrite Hlast by lia.
    + apply Hstep; [by right|lia].
Qed.
End source.

(** ** Reading actions *)

Lemma ton_hash_word v h : canonicalTONHash v = Some h -> str_forall hex_char h = true /\ TrimSpace h = h /\ h <> "".
Proof.
  unfold canonicalTONHash. cbv zeta. destruct (_ && _) eqn:E.
  - intros H. apply andb_true_iff in E as [El Ed]. apply Z.eqb_eq in El. apply bool_decide_eq_true in Ed as [u Ed]. pose proof (hex_decode_chars _ _ Ed) as Hc.
    assert (h = TrimPrefix (lower_ascii (TrimSpace v)) "0x") as -> by congruence. split_and!; [done|by apply TrimSpace_plain, hex_plain|]. intros He. rewrite He in El. discriminate El.
  - destruct (decode_base64 (TrimSpace v)) as [d|]; [|discriminate]. cbn [mbind option_bind]. destruct (Z.eqb_spec (len d) 32) as [Hl|]; [|discriminate]. cbn [negb].
    intros [= <-]. assert (str_forall hex_char (hex_encode d) = true) as Hc by apply (hex_decode_chars _ d), hex_roundtrip.
    split_and!; [done|by apply TrimSpace_plain, hex_plain|]. intros He. pose proof (hex_encode_length d) as Hn. rewrite He in Hn. unfold len in Hl. cbn in Hn. lia.
Qed.

Section reading.
Context (s : TONSource) (sha256 : string -> string) (evidence : tonAction -> string).

(** The fact an action is normalized from. *)
Definition fact_of (safe seqno : Z) (block : tonBlockEvidence) (txHash : string) (a : tonAction) (m : TONMessage) : Fact :=
  mkFact txHash ("message:" +:+ dec_string (tm_Index m)) (if tm_Jetton m then "jetton_transfer" else "native_message") (tm_AssetID m) (tm_From m) (tm_To m)
    (tm_Amount m) (tm_Decimals m) seqno (ke_Hash block) (ke_Time block) TransferFinalized (evidence a +:+ tm_QueryID m) (confirmations safe seqno).

Lemma message_events_ok safe seqno block txHash a m es : message_events s sha256 evidence safe seqno block txHash a m = Ok es ->
  exists e, es = [e] /\ event_of_fact sha256 (os_chainID s) (fact_of safe seqno block txHash a m) e /\ canonicalEventID sha256 (te_Identity e) = Ok (te_ID e).
Proof using Type.
  unfold message_events. intros H%lift_err_ok. pose proof (adapters_normalize sha256 None (os_chainID s) txHash) as (_ & _ & Had & _). rewrite Had in H. clear Had.
  apply adapter_answers in H as (v & Hv & [_ _ Hfacts _ Hid]). set (w := mkTONTransaction _ _ _ _ _ _ _ _ _) in Hv. assert (v = w) as -> by congruence. clear Hv.
  specialize (Hfacts eq_refl). cbn in Hfacts. apply Forall2_cons_inv_l in Hfacts as (e & rest & He & Hrest & ->). apply Forall2_nil_inv_l in Hrest as ->.
  exists e. split_and!; [done|exact He|]. by apply Forall_cons in Hid as [? _].
Qed.

(** An action and the event it is reported as. *)
Definition reports (blocks : gmap Z tonBlockEvidence) (defaultSeqno safe : Z) (a : tonAction) (e : TransferEvent) : Prop :=
  exists seqno block txHash m, ka_Success a = true /\ (isNative a || isJetton a) = true /\
    action_place blocks defaultSeqno safe a = Ok (seqno, block, txHash) /\ action_message s a = Ok (Some m) /\
    message_events s sha256 evidence safe seqno block txHash a m = Ok [e].

Definition key_of (a : tonAction) : string := index_key (default "" (canonicalTONHash (tonActionTransactionHash a))) a.

Lemma action_place_ok blocks d safe a seqno block txHash : action_place blocks d safe a = Ok (seqno, block, txHash) ->
  canonicalTONHash (tonActionTransactionHash a) = Some txHash /\ blocks !! seqno = Some block /\ 0 <> seqno /\ seqno <= safe /\
  (ka_TraceMCSeqnoEnd a = 0 /\ seqno = d \/ seqno = ka_TraceMCSeqnoEnd a).
Proof using Type.
  unfold action_place. cbv zeta. destruct (_ && _); [discriminate|]. set (q := if ka_TraceMCSeqnoEnd a =? 0 then d else ka_TraceMCSeqnoEnd a).
  destruct (blocks !! q) as [b|] eqn:Eb; [|discriminate]. destruct (_ || _) eqn:Eg; [discriminate|]. intros H. bind_step H. apply of_option_ok in E.
  destruct (_ <=? _); [discriminate H|]. assert (seqno = q /\ block = b /\ txHash = x) as (-> & -> & ->) by (split_and!; congruence). bool_hyp.
  split_and!; [done|done|lia|lia|]. unfold q. destruct (Z.eqb_spec (ka_TraceMCSeqnoEnd a) 0); auto.
Qed.

Lemma read_actions_exact blocks d safe all seen indices events :
  read_actions s sha256 evidence blocks d safe seen indices all = Ok events ->
  exists used, Forall2 (reports blocks d safe) used events /\ (forall a, In a used -> In a all) /\ NoDup (map key_of used) /\
    (forall a, In a used -> key_of a ∉ indices) /\
    forall a m, In a all -> ka_ActionID a ∉ seen -> (forall b, In b all -> ka_ActionID b = ka_ActionID a -> b = a) ->
      ka_Success a = true -> (isNative a || isJetton a) = true -> action_message s a = Ok (Some m) -> In a used.
Proof using Type.
  revert seen indices events. induction all as [|c all IH]; intros seen indices events H; cbn [read_actions] in H.
  { assert (events = []) as -> by congruence. exists []. split_and!; [constructor|done|constructor|done|done]. }
  assert (forall seen' indices', read_actions s sha256 evidence blocks d safe seen' indices' all = Ok events -> (forall x, x ∈ indices -> x ∈ indices') ->
    (forall x, x ∈ seen' <-> x = ka_ActionID c \/ x ∈ seen) ->
    (ka_ActionID c ∈ seen \/ ka_Success c = false \/ (isNative c || isJetton c) = false \/ forall m, action_message s c <> Ok (Some m)) ->
    exists used, Forall2 (reports blocks d safe) used events /\ (forall a, In a used -> In a (c :: all)) /\ NoDup (map key_of used) /\
    (forall a, In a used -> key_of a ∉ indices) /\
    forall a m, In a (c :: all) -> ka_ActionID a ∉ seen -> (forall b, In b (c :: all) -> ka_ActionID b = ka_ActionID a -> b = a) ->
      ka_Success a = true -> (isNative a || isJetton a) = true -> action_message s a = Ok (Some m) -> In a used) as Hskip.
  { intros seen' indices' Hr Hi Hs Hc. destruct (IH _ _ _ Hr) as (used & H1 & H2 & H3 & H4 & H5). exists used. split_and!; try done.
    - intros a Ha. right. by apply H2.
    - intros a Ha Hin. by apply (H4 a Ha), Hi.
    - intros a m [->|Ha] Hns Huniq Hok Ht Hm; [destruct Hc as [?|[?|[?|Hc]]]; [done|congruence|congruence|by destruct (Hc m)]|].
      destruct (decide (ka_ActionID a = ka_ActionID c)) as [He|Hne].
      + assert (c = a) as <- by (apply Huniq; [by left|done]). destruct Hc as [?|[?|[?|Hc]]]; [done|congruence|congruence|by destruct (Hc m)].
      + apply (H5 a m); try done; [|intros b Hb; apply Huniq; by right]. rewrite Hs. tauto. }
  case_bool_decide as Hseen.
  { destruct (negb _); [|discriminate H]. apply (Hskip seen indices H); [done| |by left]. intros x. split; [auto|]. intros [->|?]; done. }
  assert (forall x, x ∈ ({[ka_ActionID c]} ∪ seen : gset string) <-> x = ka_ActionID c \/ x ∈ seen) as Hset by (intros x; rewrite elem_of_union, elem_of_singleton; done).
  destruct (negb (ka_Success c) || _) eqn:Eg.
  { apply (Hskip _ _ H); [done|done|]. right. apply orb_true_iff in Eg as [Eg|Eg]; [left; by apply negb_true_iff|right; left].
    rewrite <- negb_orb in Eg. by apply negb_true_iff. }
  apply orb_false_iff in Eg as [Ek Et]. apply negb_false_iff in Ek. rewrite <- negb_orb in Et. apply negb_false_iff in Et.
  bind_step H. destruct x as [[seqno block] txHash]. pose proof (action_place_ok _ _ _ _ _ _ _ E) as (Hh & _). case_bool_decide as Hidx; [discriminate H|]. bind_step H.
  assert (index_key txHash c = key_of c) as Hkey by (unfold key_of; by rewrite Hh). rewrite Hkey in *. destruct x as [m|].
  2: { apply (Hskip _ _ H); [intros x Hx; apply elem_of_union; by right|done|]. right. right. right. intros m Hm. congruence. }
  bind_step H. bind_step H. destruct (message_events_ok _ _ _ _ _ _ _ E1) as (e & -> & _). assert (events = e :: x0) as -> by (cbn in H; congruence).
  destruct (IH _ _ _ E2) as (used & H1 & H2 & H3 & H4 & H5). exists (c :: used). split_and!.
  - constructor; [|done]. exists seqno, block, txHash, m. done.
  - intros a [->|Ha]; [by left|right; by apply H2].
  - cbn [map]. apply NoDup_cons. split; [|done]. intros (a & Hk & Ha)%list_elem_of_fmap. apply list_elem_of_In in Ha. apply (H4 a Ha). rewrite <- Hk. apply elem_of_union. left. by apply elem_of_singleton.
  - intros a [<-|Ha]; [done|]. intros Hin. apply (H4 a Ha), elem_of_union. by right.
  - intros a m' [->|Ha] Hns Huniq Hok Ht Hm; [by left|]. destruct (decide (ka_ActionID a = ka_ActionID c)) as [He|Hne].
    + left. apply Huniq; [by left|done].
    + right. apply (H5 a m'); try done; [|intros b Hb; apply Huniq; by right]. rewrite Hset. tauto.
Qed.

Lemma action_message_ok a m : action_message s a = Ok (Some m) ->
  tm_Index m = ka_ActionIndex a /\ (os_watched s <> [] -> tm_To m ∈ os_watched s) /\ exists raw, canonicalTONAddress raw = Some (tm_To m).
Proof using Type.
  unfold action_message. cbv zeta. intros H. bind_step H. apply of_option_ok in E. destruct (_ && _) eqn:Ew; [discriminate H|]. bind_step H. bind_step H.
  destruct (x1 == "0"); [discriminate H|].
  assert (tm_Index m = ka_ActionIndex a /\ tm_To m = x) as [Hi Ht].
  { destruct (isJetton a); [bind_step H; destruct (os_jettons s !! x2); [|discriminate H]|]; injection H as <-; done. }
  split_and!; [done| |by exists (firstTONValue [kd_Recipient (ka_Data a); kx_Destination (ka_Details a); kx_Receiver (ka_Details a)]); rewrite Ht].
  intros Hne. rewrite bool_decide_false in Ew by done. cbn [negb andb] in Ew. apply negb_false_iff in Ew. rewrite Ht. unfold existsb_str in Ew.
  apply existsb_exists in Ew as (y & Hy & He). apply String.eqb_eq in He. subst y. by apply list_elem_of_In.
Qed.

(** Transaction and index of a reported action, from its identity. *)
Definition identity_key (i : EventIdentity) : string := ei_TransactionID i +:+ String (chr 0) (str_drop 8 (ei_EventIndex i)).

Lemma reports_identity blocks d safe a e : 0 <= ka_ActionIndex a -> reports blocks d safe a e -> key_of a = identity_key (te_Identity e).
Proof using Type.
  intros Hi (seqno & block & txHash & m & _ & _ & Hp & Hm & He). apply action_place_ok in Hp as (Hh & _). apply action_message_ok in Hm as (Hidx & _).
  apply message_events_ok in He as (e' & Heq & [Hid _ _ _ _ _ _] & _). assert (e' = e) as -> by congruence. unfold key_of, index_key, identity_key. rewrite Hh, Hid.
  cbn [default from_option fact_identity trim_fact fact_of ft_TransactionID ft_EventIndex ei_TransactionID ei_EventIndex].
  apply ton_hash_word in Hh as (_ & -> & _). rewrite TrimSpace_plain; [by rewrite Hidx|]. rewrite Hidx, str_forall_app, dec_plain by done. done.
Qed.

(** A reported event is bound to the masterchain block of its action. *)
Definition masterchain_block (seqno : Z) (b : tonBlockEvidence) : Block := mkBlock seqno (ke_Hash b) "" (ke_Time b).

Lemma reports_bound blocks d safe a e : (forall q b, blocks !! q = Some b -> TrimSpace (ke_Hash b) = ke_Hash b) -> reports blocks d safe a e ->
  exists seqno b, blocks !! seqno = Some b /\ seqno <= safe /\ (seqno = ka_TraceMCSeqnoEnd a \/ ka_TraceMCSeqnoEnd a = 0 /\ seqno = d) /\
    bound_to sha256 (os_chainID s) safe (masterchain_block seqno b) e /\ (os_watched s <> [] -> exists to, to ∈ os_watched s /\ ei_ToAddress (te_Identity e) = TrimSpace to).
Proof using Type.
  intros Htrim (seqno & block & txHash & m & _ & _ & Hp & Hm & He). apply action_place_ok in Hp as (_ & Hb & _ & Hs & Hq). apply action_message_ok in Hm as (_ & Hw & _).
  apply message_events_ok in He as (e' & Heq & [Hid _ (_ & Ha) (E3 & E4 & _) E5 (E6 & E7) _] & Hcid). assert (e' = e) as -> by congruence.
  exists seqno, block. split_and!; [done|done|tauto| |].
  - unfold bound_to, masterchain_block. cbn [bl_Height bl_Hash bl_Time]. rewrite E3, E4, E5, E6, E7, Hid. cbn [fact_of ft_BlockHeight ft_BlockHash ft_BlockTime ft_Status ft_Confirmations].
    rewrite (Htrim _ _ Hb). split_and!; try done; try apply Ha. by rewrite <- Hid.
  - intros Hne. exists (tm_To m). split; [by apply Hw|]. by rewrite Hid.
Qed.

Lemma used_identities blocks d safe used events : (forall a, In a used -> 0 <= ka_ActionIndex a) -> Forall2 (reports blocks d safe) used events ->
  NoDup (map key_of used) -> NoDup (map te_Identity events).
Proof using Type.
  intros Hi Hf Hn. assert (map key_of used = map identity_key (map te_Identity events)) as He.
  { clear Hn. induction Hf as [|a e used events Hr _ IH]; [done|]. cbn [map]. rewrite (reports_identity blocks d safe a e) by (try done; apply Hi; by left).
    f_equal. apply IH. intros b Hb. apply Hi. by right. }
  rewrite He in Hn. by apply NoDup_fmap_1 in Hn.
Qed.

(** Reading the actions of a window reports every payment once: each event
    is that of one action, no two events have one identity, and every successful
    transfer of a configured asset to an account that is asked for is among
    them, when records with one identifier are one action. *)
Theorem ton_payments_reported_once blocks d safe all events :
  (forall a, In a all -> 0 <= ka_ActionIndex a) -> (forall a b, In a all -> In b all -> ka_ActionID a = ka_ActionID b -> a = b) ->
  normalizeTONActions s sha256 evidence all blocks d safe = Ok events ->
  NoDup (map te_Identity events) /\ (forall e, In e events -> exists a, In a all /\ reports blocks d safe a e) /\
  forall a m, In a all -> ka_Success a = true -> (isNative a || isJetton a) = true -> action_message s a = Ok (Some m) -> exists e, In e events /\ reports blocks d safe a e.
Proof using Type.
  intros Hidx Huniq H. unfold normalizeTONActions in H. pose proof (fun a => proj1 (sort_by_In action_less a all)) as Hin.
  apply read_actions_exact in H as (used & Hf & Hsub & Hn & _ & Hall). split_and!.
  - eapply used_identities; [|exact Hf|exact Hn]. intros a Ha. apply Hidx. apply Hin. by apply Hsub.
  - intros e He. apply list_elem_of_In in He. destruct (Forall2_elem_r _ _ _ _ Hf He) as (a & Ha & Hr). exists a. split; [|done]. apply Hin, Hsub. by apply list_elem_of_In.
  - intros a m Ha Hok Ht Hm. assert (In a used) as Hu.
    { apply (Hall a m); try done; [by apply sort_by_In|]. intros b Hb Heq. apply Huniq; [exact (Hin b Hb)|done|done]. }
    apply list_elem_of_In in Hu. destruct (Forall2_elem_l _ _ _ _ Hf Hu) as (e & He & Hr). exists e. split; [by apply list_elem_of_In|done].
Qed.

Lemma normalized_bound blocks d safe all events : (forall q b, blocks !! q = Some b -> TrimSpace (ke_Hash b) = ke_Hash b) ->
  normalizeTONActions s sha256 evidence all blocks d safe = Ok events ->
  Forall (fun e => exists seqno b, blocks !! seqno = Some b /\ bound_to sha256 (os_chainID s) safe (masterchain_block seqno b) e /\
    (os_watched s <> [] -> exists to, to ∈ os_watched s /\ ei_ToAddress (te_Identity e) = TrimSpace to)) events.
Proof using Type.
  intros Htrim H. apply read_actions_exact in H as (used & Hf & _). apply Forall_forall. intros e He. destruct (Forall2_elem_r _ _ _ _ Hf He) as (a & _ & Hr).
  apply reports_bound in Hr as (seqno & b & Hb & _ & _ & Hbound & Hw); [|done]. by exists seqno, b.
Qed.
End reading.

(** ** Ranges *)

Section ranges.
Context (s : TONSource) (node : TonNode) (sha256 : string -> string) (evidence : tonAction -> string).

Definition ton_good_block (seqno : Z) (b : Block) : Prop :=
  bl_Height b = seqno /\ bl_Hash b <> "" /\ TrimSpace (bl_Hash b) = bl_Hash b /\ IsZeroTime (bl_Time b) = false.

Lemma unix_not_zero t : 0 < t -> IsZeroTime (UnixTime t) = false.
Proof using Type. intros Ht. unfold IsZeroTime, UnixTime, unix_epoch, Second. apply Z.eqb_neq. lia. Qed.

(** [b] follows [p] and names it as its parent. *)
Definition follows (p b : Block) : Prop := bl_Height p < bl_Height b /\ bl_ParentHash b = bl_Hash p.

Lemma window_parent_ok seqno block p parent : window_parent seqno block (Some p) = Ok parent -> parent = bl_Hash p.
Proof using Type.
  unfold window_parent. destruct (kb_PrevBlocks block) as [|[number declared] ?]; [discriminate|]. destruct (_ && _); [discriminate|]. destruct (_ && _); [discriminate|]. congruence.
Qed.

Lemma window_blocks_ok bySeqno seqnos prev bs : Sorted Z.lt seqnos -> (forall p, prev = Some p -> HdRel Z.lt (bl_Height p) seqnos) ->
  window_blocks bySeqno prev seqnos = Ok bs ->
  Forall2 ton_good_block seqnos bs /\ Sorted follows bs /\ forall p, prev = Some p -> HdRel follows p bs.
Proof using Type.
  intros Hs. revert prev bs. induction Hs as [|q qs Hs IH Hd]; intros prev bs Hp H; cbn [window_blocks] in H.
  { assert (bs = []) as -> by congruence. split_and!; constructor. }
  bind_step H. destruct (_ || _) eqn:Eg in H; [discriminate H|]. bind_step H. apply of_option_ok in E, E0. bind_step H. bind_step H. injection H as <-.
  set (b := mkBlock q x0 x1 (UnixTime (kb_GenUtime x))) in *. bool_hyp. apply IH in E2 as (Hg & Hsort & Hhd); [|intros p [= <-]; exact Hd].
  apply ton_hash_word in E0 as (_ & Ht & Hne). split_and!.
  - constructor; [|done]. split_and!; [done|done|done|]. apply unix_not_zero. lia.
  - constructor; [done|by apply Hhd].
  - intros p ->. constructor. split; [specialize (Hp p eq_refl); by apply HdRel_inv in Hp|]. by apply window_parent_ok in E1.
Qed.

Lemma block_evidence_spec l q b : block_evidence l !! q = Some b -> exists c, c ∈ l /\ bl_Height c = q /\ b = mkTonEvidence (bl_Hash c) (bl_Time c).
Proof using Type.
  unfold block_evidence. assert (forall l (m : gmap Z tonBlockEvidence), fold_left (fun m b => <[bl_Height b := mkTonEvidence (bl_Hash b) (bl_Time b)]> m) l m !! q = Some b ->
    m !! q = Some b \/ exists c, c ∈ l /\ bl_Height c = q /\ b = mkTonEvidence (bl_Hash c) (bl_Time c)) as H.
  { clear l. induction l as [|c l IH]; intros m Hm; [by left|]. cbn [fold_left] in Hm. apply IH in Hm as [Hm|(d & Hd & Hrest)]; [|right; exists d; split; [by right|done]].
    destruct (decide (bl_Height c = q)) as [He|Hne]; [|rewrite lookup_insert_ne in Hm by done; by left].
    rewrite He, lookup_insert_eq in Hm. right. exists c. split_and!; [by left|done|congruence]. }
  intros Hl. apply H in Hl as [Hl|?]; [|done]. by rewrite lookup_empty in Hl.
Qed.

(** Every event is in a block of the range, and to a watched account if there are any. *)
Definition in_range (safe : Z) (blocks : list Block) (e : TransferEvent) : Prop :=
  (exists b, b ∈ blocks /\ bound_to sha256 (os_chainID s) safe b e) /\
  (os_watched s <> [] -> exists to, to ∈ os_watched s /\ ei_ToAddress (te_Identity e) = TrimSpace to).

Lemma heights_sorted from to : Sorted Z.lt (heights from to).
Proof using Type.
  unfold heights. generalize (Z.to_nat (to - from + 1)). intros n. assert (forall k, Sorted Z.lt (map (fun i => from + Z.of_nat i) (seq k n))) as H; [|apply H].
  induction n as [|n IH]; intros k; [constructor|]. cbn [seq map]. constructor; [apply IH|]. destruct n; [constructor|]. cbn [seq map]. constructor. lia.
Qed.

Lemma follows_links batch bs : Sorted follows bs -> Sorted (links batch) bs.
Proof using Type.
  intros H. induction H as [|b bs _ IH Hd]; constructor; [done|]. destruct Hd as [|c l [H1 H2]]; constructor. split; [done|by left].
Qed.

Lemma watched_range_ok from to safe batch : TON_scanWatchedRange s node sha256 evidence from to safe = Ok batch ->
  exists blocks events, batch = dense_batch from to blocks events /\ Forall2 ton_good_block (heights from to) blocks /\ Sorted follows blocks /\
    Forall (in_range safe blocks) events.
Proof using Type.
  unfold TON_scanWatchedRange. intros H. bind_step H. bind_step H. destruct (_ || _); [discriminate H|]. bind_step H. destruct (_ || _); [discriminate H|].
  bind_step H. bind_step H. bind_step H. destruct x4 as [startLT endLT]. bind_step H. injection H as <-. exists x3, x4. split; [done|].
  apply window_blocks_ok in E3 as (Hg & Hs & _); [|apply heights_sorted|done]. split_and!; [done|done|].
  unfold tonActionsWindow in E5. bind_step E5. destruct (existsb _ _); [discriminate E5|]. apply normalized_bound in E5.
  - eapply Forall_impl; [exact E5|]. cbn. intros e (q & b & Hb & Hbound & Hw). split; [|exact Hw]. apply block_evidence_spec in Hb as (c & Hc & Hq & ->). exists c. split; [done|].
    rewrite <- Hq in Hbound. exact Hbound.
  - intros q b Hb. apply block_evidence_spec in Hb as (c & Hc & _ & ->). destruct (Forall2_elem_r _ _ _ _ Hg Hc) as (h & _ & _ & _ & Ht & _). exact Ht.
Qed.

Lemma ton_scan_block_ok safe seqno prev b events : ton_scan_block s node sha256 evidence safe seqno prev = Ok (b, events) ->
  ton_good_block seqno b /\ Forall (in_range safe [b]) events.
Proof using Type.
  unfold ton_scan_block. intros H. bind_step H. destruct (_ || _) eqn:Eg in H; [discriminate H|]. bind_step H. bind_step H. bind_step H. apply of_option_ok in E0.
  injection H as Hb He. subst events. bool_hyp. apply ton_hash_word in E0 as (_ & Ht & Hne). assert (ton_good_block seqno b) as Hg.
  { subst b. split_and!; [done|done|done|]. apply unix_not_zero. lia. }
  split; [done|]. unfold tonActions in E2. bind_step E2. apply normalized_bound in E2.
  - eapply Forall_impl; [exact E2|]. cbn. intros e (q & c & Hc & Hbound & Hw). split; [|exact Hw]. apply lookup_singleton_Some in Hc as [<- <-].
    exists b. split; [by left|]. subst b. exact Hbound.
  - intros q c Hc. apply lookup_singleton_Some in Hc as [_ <-]. done.
Qed.

Lemma ton_scan_blocks_ok safe seqnos prev scanned : ton_scan_blocks s node sha256 evidence safe prev seqnos = Ok scanned ->
  Forall2 (fun q p => ton_good_block q (fst p) /\ Forall (in_range safe [fst p]) (snd p)) seqnos scanned.
Proof using Type.
  revert prev scanned. induction seqnos as [|q qs IH]; intros prev scanned H; cbn [ton_scan_blocks] in H.
  { assert (scanned = []) as -> by congruence. constructor. }
  bind_step H. bind_step H. injection H as <-. destruct x as [b es]. constructor; [by eapply ton_scan_block_ok|by eapply IH].
Qed.

Lemma TON_Heads_ok h : TON_Heads s node = Ok h -> exists info, kn_info node = Ok info /\ ph_SafeHeight h = ki_LastSeqno info.
Proof using Type. unfold TON_Heads. intros H. bind_step H. bind_step H. bind_step H. injection H as <-. by exists x. Qed.

(** A scan of a TON range returns one validated masterchain block for every
    sequence number, and events that are finalized, positive, bound to one of
    these blocks and, when accounts are watched, paid to one of them. The window
    of a watched range also links every block to the one before, so it meets the
    whole contract of the worker; the scan block by block does so as soon as the
    declared parents agree, which the worker checks. *)
Theorem ton_range_contract from to batch : TON_ScanRange s node sha256 evidence from to = Ok batch ->
  (Sorted (links batch) (rb_Blocks batch) -> covers batch from to) /\
  (os_watched s <> [] -> from < to -> covers batch from to) /\
  exists info, kn_info node = Ok info /\ to <= ki_LastSeqno info /\ Forall (in_range (ki_LastSeqno info) (rb_Blocks batch)) (rb_Events batch).
Proof using Type.
  unfold TON_ScanRange. destruct (Z.ltb_spec to from); [discriminate|]. destruct (_ <? _); [discriminate|]. cbn [orb]. intros Hr. bind_step Hr. cbv zeta in Hr.
  apply TON_Heads_ok in E as (info & Hinfo & Hsafe). rewrite Hsafe in Hr. destruct (Z.ltb_spec (ki_LastSeqno info) to); [discriminate Hr|].
  assert (exists blocks events, batch = dense_batch from to blocks events /\ Forall2 ton_good_block (heights from to) blocks /\
    (os_watched s <> [] -> from < to -> Sorted follows blocks) /\ Forall (in_range (ki_LastSeqno info) blocks) events) as (blocks & events & -> & Hg & Hs & He).
  { destruct (_ && _) eqn:Ew in Hr.
    - apply watched_range_ok in Hr as (blocks & events & Hb & Hg & Hs & He). exists blocks, events. by split_and!.
    - bind_step Hr. injection Hr as <-. apply ton_scan_blocks_ok in E. exists (map fst x0), (concat (map snd x0)). split_and!; [done| | |].
      + apply Forall2_fmap_r. eapply Forall2_impl; [exact E|]. by intros q p [? _].
      + intros Hne Hlt. rewrite bool_decide_false in Ew by done. cbn [negb andb] in Ew. lia.
      + apply Forall_concat_list, Forall_fmap, Forall_forall. intros p Hp. destruct (Forall2_elem_r _ _ _ _ E Hp) as (q & _ & _ & Hes). cbn.
        eapply Forall_impl; [exact Hes|]. intros e [(b & Hb & Hbound) Hw]. apply list_elem_of_singleton in Hb as ->. split; [|done]. exists (fst p). split; [apply list_elem_of_fmap; by exists p|done]. }
  cbn [dense_batch rb_Blocks rb_Events].
  assert (Sorted (links (dense_batch from to blocks events)) blocks -> covers (dense_batch from to blocks events) from to) as Hc.
  { apply (dense_covers sha256 (os_chainID s) (ki_LastSeqno info)); [lia| |].
    - eapply Forall2_impl; [exact Hg|]. intros h b (? & ? & _ & ?). done.
    - eapply Forall_impl; [exact He|]. by intros e [? _]. }
  split_and!; [exact Hc|intros Hne Hlt; by apply Hc, follows_links, Hs|]. by exists info.
Qed.

(** *** Nothing is missed *)

Lemma pages_complete base (l : string -> list tonAction) : 1 <= os_pageSize s -> os_watched s <> [] ->
  (forall a, In a (os_watched s) -> Z.of_nat (length (l a)) < 100000 /\ NoDup (ids (l a)) /\ exists total, serves_pages s node base a (l a) total /\ honest_total (l a) total) ->
  tonActionPages s node base = Ok (concat (map l (os_watched s))).
Proof using Type.
  intros Hps Hw Hl. unfold tonActionPages. rewrite bool_decide_false by done. cbv zeta.
  assert (traverse (fun account => page_loop s node (page_fuel s) base account 0 0 None ∅) (os_watched s) = Ok (map l (os_watched s))) as ->; [|done].
  apply traverse_ok, Forall2_fmap_r, Forall_Forall2_diag, Forall_forall. intros a Ha. apply list_elem_of_In in Ha. destruct (Hl a Ha) as (Hlen & Hn & total & Hs & Ht).
  assert (0 < 100000 / os_pageSize s * os_pageSize s + 2 * os_pageSize s - 100000) by (pose proof (Z.mod_pos_bound 100000 (os_pageSize s) ltac:(lia)); pose proof (Z.div_mod 100000 (os_pageSize s) ltac:(lia)); lia).
  exact (page_loop_complete s node base a (l a) total Hps Hlen Hn Hs Ht (page_fuel s) 0 None ltac:(lia) ltac:(unfold page_fuel; pose proof (Z.div_pos 100000 (os_pageSize s)); lia) (or_introl eq_refl)).
Qed.

(** What a node knows of the watched accounts: their actions with the logical time
    at which each ended, and the place of each account in the address space. *)
Record Ledger := mkLedger { lg_history : string -> list tonAction; lg_lt : tonAction -> Z; lg_prefix : string -> Z }.

Definition lt_window (g : Ledger) (startLT endLT : Z) (account : string) : list tonAction :=
  List.filter (fun a => (startLT <=? lg_lt g a) && (lg_lt g a <=? endLT)) (lg_history g account).

(** The protocol: a transaction follows the frontier of its shard in logical time
    and does not follow the end of the masterchain block that includes it; the
    service answers by logical time, completely, page by page. *)
Record ledger_laws (g : Ledger) (from to : Z) : Prop := mk_ledger_laws {
  ll_small account : In account (os_watched s) -> Z.of_nat (length (lg_history g account)) < 100000;
  ll_ids account : NoDup (ids (lg_history g account));
  ll_same account account' a b : In a (lg_history g account) -> In b (lg_history g account') -> ka_ActionID a = ka_ActionID b -> a = b;
  ll_index account a : In a (lg_history g account) -> 0 <= ka_ActionIndex a /\ 0 <= lg_lt g a;
  ll_prefix account : 0 <= lg_prefix g account < 2 ^ 64;
  ll_served account startLT endLT : In account (os_watched s) -> exists total,
    serves_pages s node (ByLogicalTime startLT endLT) account (lt_window g startLT endLT account) total /\ honest_total (lt_window g startLT endLT account) total;
  ll_after account a blocks b : In account (os_watched s) -> In a (lg_history g account) -> from <= ka_TraceMCSeqnoEnd a -> kn_shards node (from - 1) = Ok blocks ->
    In b (holders (account_workchain account) (lg_prefix g account) blocks) -> kb_EndLT b < lg_lt g a;
  ll_before account a last : In account (os_watched s) -> In a (lg_history g account) -> ka_TraceMCSeqnoEnd a <= to -> TON_block node to = Ok last -> lg_lt g a <= kb_EndLT last }.

Lemma NoDup_ids_filter p l : NoDup (ids l) -> NoDup (ids (List.filter p l)).
Proof using Type. apply NoDup_filter_map. Qed.

Lemma window_holds g from to first last startLT endLT account a : ledger_laws g from to -> TON_block node to = Ok last ->
  tonActionsLTBounds s node from first last = Ok (startLT, endLT) -> In account (os_watched s) -> In a (lg_history g account) ->
  from <= ka_TraceMCSeqnoEnd a <= to -> In a (lt_window g startLT endLT account).
Proof using Type.
  intros Hg Hlast Hb Hacc Ha Hq. apply filter_In. split; [done|]. pose proof (ll_before _ _ _ Hg account a last Hacc Ha (proj2 Hq) Hlast) as Hend.
  destruct (ll_index _ _ _ Hg account a Ha) as [_ Hlt]. apply andb_true_iff. rewrite !Z.leb_le. destruct (Z.eq_dec from 0) as [->|Hne].
  - unfold tonActionsLTBounds in Hb. destruct (_ || _); [discriminate Hb|]. cbn [Z.eqb] in Hb. injection Hb as <- <-. done.
  - apply lt_bounds_ok in Hb as (-> & blocks & master & Hblocks & _ & _ & Hall & Hone); [|done]. split; [|done].
    specialize (Hone account (lg_prefix g account) Hacc (ll_prefix _ _ _ Hg account)).
    destruct (holders (account_workchain account) (lg_prefix g account) blocks) as [|b rest] eqn:Eh; [discriminate Hone|].
    pose proof (ll_after _ _ _ Hg account a blocks b Hacc Ha (proj1 Hq) Hblocks ltac:(rewrite Eh; by left)) as Hlt'.
    assert (In b blocks) as Hin by (assert (In b (holders (account_workchain account) (lg_prefix g account) blocks)) as H by (rewrite Eh; by left); by apply filter_In in H as [? _]).
    rewrite Forall_forall in Hall. destruct (Hall b ltac:(by apply list_elem_of_In)) as [[Hs _] _]. lia.
Qed.

(** C39: A scan of a watched range misses no payment: every successful transfer of
    a configured asset to a watched account that a block of the range includes is
    among its events, because the logical-time window starts before the frontier
    of every shard the accounts can be in and the pages are read to the end. *)
Theorem watched_scan_misses_nothing g from to batch account a m :
  1 <= os_pageSize s -> from < to -> ledger_laws g from to -> TON_ScanRange s node sha256 evidence from to = Ok batch ->
  In account (os_watched s) -> In a (lg_history g account) -> from <= ka_TraceMCSeqnoEnd a <= to ->
  ka_Success a = true -> (isNative a || isJetton a) = true -> action_message s a = Ok (Some m) ->
  exists info e, kn_info node = Ok info /\ In e (rb_Events batch) /\ reports s sha256 evidence (block_evidence (rb_Blocks batch)) 0 (ki_LastSeqno info) a e.
Proof using Type.
  intros Hps Hlt Hg H Hacc Ha Hq Hok Ht Hm. unfold TON_ScanRange in H. destruct (_ || _); [discriminate H|]. bind_step H. cbv zeta in H.
  apply TON_Heads_ok in E as (info & Hinfo & Hsafe). rewrite Hsafe in H. destruct (_ <? _); [discriminate H|]. exists info.
  assert (os_watched s <> []) as Hw by (intros He; rewrite He in Hacc; done). rewrite bool_decide_false, (proj2 (Z.ltb_lt from to) Hlt) in H by done. cbn [negb andb] in H.
  unfold TON_scanWatchedRange in H. bind_step H. bind_step H. destruct (_ || _); [discriminate H|]. bind_step H. destruct (_ || _); [discriminate H|].
  bind_step H. bind_step H. bind_step H. destruct x5 as [startLT endLT]. bind_step H. injection H as <-. cbn [rb_Events rb_Blocks].
  pose proof (window_holds g from to _ _ _ _ account a Hg E0 E4 Hacc Ha Hq) as Hin. unfold tonActionsWindow in E5.
  rewrite (pages_complete (ByLogicalTime startLT endLT) (lt_window g startLT endLT)) in E5; [|done|done|].
  2: { intros c Hc. split_and!; [|by apply NoDup_ids_filter, (ll_ids _ _ _ Hg)|by apply (ll_served _ _ _ Hg)].
       pose proof (ll_small _ _ _ Hg c Hc). pose proof (List.filter_length_le (fun a => (startLT <=? lg_lt g a) && (lg_lt g a <=? endLT)) (lg_history g c)). unfold lt_window. lia. }
  cbn [mbind result_bind] in E5. destruct (existsb _ _); [discriminate E5|]. set (all := List.filter _ _) in E5.
  assert (forall c, In c all -> exists k, In c (lg_history g k)) as Hall.
  { intros c Hc. apply filter_In in Hc as [Hc _]. apply in_concat in Hc as (l & Hl & Hc). apply in_map_iff in Hl as (k & <- & _). apply filter_In in Hc as [Hc _]. by exists k. }
  assert (In a all) as Haa.
  { apply filter_In. split; [|apply andb_true_iff; rewrite !Z.leb_le; exact Hq]. apply in_concat. exists (lt_window g startLT endLT account). split; [by apply in_map|done]. }
  unfold normalizeTONActions in E5. apply read_actions_exact in E5 as (used & Hf & _ & _ & _ & Hall').
  assert (In a used) as Hu.
  { apply (Hall' a m); try done; [by apply sort_by_In|]. intros b Hb Hid. apply sort_by_In in Hb. destruct (Hall b Hb) as (k & Hk). exact (ll_same _ _ _ Hg k account b a Hk Ha Hid). }
  apply list_elem_of_In in Hu. destruct (Forall2_elem_l _ _ _ _ Hf Hu) as (e & He & Hr). exists e. split_and!; [done|by apply list_elem_of_In|done].
Qed.
End ranges.

(** ** Addresses *)

(** What every accepted address is read as. *)
Definition raw_address (w : Z) (h : string) : string := FormatInt w +:+ ":" +:+ h.
Definition account_hash (h : string) : Prop := str_forall hex_char h = true /\ lower_ascii h = h /\ len h = 64.

Definition colon_free (c : ascii) : bool := plain_byte c && negb (Ascii.eqb c ":") && negb (Ascii.eqb c "=").

Lemma FormatInt_chars w : str_forall colon_free (FormatInt w) = true.
Proof.
  unfold FormatInt. assert (forall n, 0 <= n -> str_forall colon_free (dec_string n) = true) as Hd.
  { intros n Hn. eapply (str_forall_impl is_digit); [|by apply canonical_digits, dec_string_canonical]. clear. intros c. destruct c as [[][][][][][][][]]; try discriminate; done. }
  destruct (Z.ltb_spec w 0) as [Hw|Hw]; [|by apply Hd]. cbn [str_forall append]. rewrite Hd by lia. done.
Qed.

Lemma hex_colon_free h : str_forall hex_char h = true -> str_forall colon_free h = true.
Proof. apply str_forall_impl. intros c. destruct c as [[][][][][][][][]]; try discriminate; done. Qed.

Lemma colon_free_no_colon t : str_forall colon_free t = true -> str_no ":"%char t = true /\ str_no "="%char t = true /\ str_forall plain_byte t = true.
Proof.
  intros H. split_and!; (eapply str_forall_impl; [|exact H]); intros c [[Hp Hc]%andb_true_iff He]%andb_true_iff; done.
Qed.

Lemma raw_address_split w h : account_hash h -> TrimSpace (raw_address w h) = raw_address w h /\ Split (raw_address w h) ":"%char = [FormatInt w; h].
Proof.
  intros (Hh & _ & _). destruct (colon_free_no_colon _ (FormatInt_chars w)) as (N1 & _ & P1). destruct (colon_free_no_colon _ (hex_colon_free h Hh)) as (N2 & _ & P2). split.
  - apply TrimSpace_plain. unfold raw_address. rewrite !str_forall_app, P1, P2. done.
  - pose proof (Join_nonempty_split ":"%char [FormatInt w; h] ltac:(done) ltac:(repeat constructor; done)) as H. exact H.
Qed.

Lemma raw_address_canonical w h : -2147483648 <= w <= 2147483647 -> account_hash h -> canonicalTONAddress (raw_address w h) = Some (raw_address w h).
Proof.
  intros Hw Hh. destruct (raw_address_split w h Hh) as [Ht Hsp]. unfold canonicalTONAddress. cbv zeta. rewrite Ht, Hsp. destruct Hh as (Hhex & Hlow & Hlen).
  unfold ParseInt32. rewrite ParseInt64_FormatInt by (unfold is_int64, min_int64, max_int64; lia). cbn [mbind option_bind].
  rewrite (proj2 (Z.ltb_ge w _)), (proj2 (Z.ltb_ge _ w)) by lia. cbn [orb mbind option_bind]. rewrite Hlow, Hlen.
  destruct (hex_decode_total 32 h Hhex ltac:(unfold len in Hlen; lia)) as (u & ->). done.
Qed.

Lemma ton_account_hash d : len d = 32 -> account_hash (hex_encode d).
Proof.
  intros Hd. split_and!; [apply (hex_decode_chars _ d), hex_roundtrip|apply LegacyFacts.hex_encode_lower|]. unfold len in *. rewrite hex_encode_length. lia.
Qed.

Lemma canonical_is_raw v a : canonicalTONAddress v = Some a -> exists w h, -2147483648 <= w <= 2147483647 /\ account_hash h /\ a = raw_address w h.
Proof.
  unfold canonicalTONAddress. cbv zeta. assert (forall d, decode_base64 (TrimSpace v) = Some d -> len d = 36 -> account_hash (hex_encode (str_take 32 (str_drop 2 d))) /\
    -2147483648 <= int8_of (byte_at d 1) <= 2147483647) as Hf.
  { intros d _ Hd. split.
    - apply ton_account_hash. unfold len in *. rewrite str_take_length; [done|]. rewrite str_drop_length. lia.
    - unfold int8_of, byte_at. destruct (String.get 1 d) as [c|]; [pose proof (code_range c)|]; destruct (_ <? _); lia. }
  assert ((decoded ← decode_base64 (TrimSpace v); if negb (len decoded =? 36) then None else
      if negb (crc16XMODEM (str_take 34 decoded) =? 256 * byte_at decoded 34 + byte_at decoded 35) then None
      else Some (FormatInt (int8_of (byte_at decoded 1)) +:+ ":" +:+ hex_encode (str_take 32 (str_drop 2 decoded)))) = Some a ->
    exists w h, -2147483648 <= w <= 2147483647 /\ account_hash h /\ a = raw_address w h) as Hfriendly.
  { destruct (decode_base64 (TrimSpace v)) as [d|]; [|discriminate]. cbn [mbind option_bind]. destruct (Z.eqb_spec (len d) 36) as [Hd|]; [|discriminate]. cbn [negb].
    destruct (negb _); [discriminate|]. intros H. destruct (Hf d eq_refl Hd) as [Hh Hw]. eexists _, _. split_and!; [exact (proj1 Hw)|exact (proj2 Hw)|exact Hh|]. unfold raw_address. congruence. }
  destruct (Split (TrimSpace v) ":") as [|p0 [|p1 [|? ?]]]; [exact Hfriendly|exact Hfriendly| |exact Hfriendly].
  destruct (ParseInt32 p0) as [w|] eqn:Ew; [|discriminate]. cbn [mbind option_bind]. destruct (Z.eqb_spec (len (lower_ascii p1)) 64) as [Hl|]; [|discriminate]. cbn [negb].
  destruct (hex_decode (lower_ascii p1)) as [u|] eqn:Eh; [|discriminate]. cbn [mbind option_bind]. intros H. exists w, (lower_ascii p1). unfold ParseInt32 in Ew.
  destruct (ParseInt64 p0) as [x|]; [|discriminate]. cbn [mbind option_bind] in Ew. destruct (_ || _) eqn:Eg in Ew; [discriminate|]. injection Ew as ->. bool_hyp.
  split_and!; [lia|lia| |unfold raw_address; congruence]. split_and!; [by eapply hex_decode_chars|apply lower_ascii_idem|done].
Qed.

(** *** The displayed address *)

Lemma trim_no c t : str_no c t = true -> trim_left_byte c t = t.
Proof. destruct t as [|d t]; [done|]. cbn [str_no str_forall trim_left_byte]. intros [Hd _]%andb_true_iff. destruct (Ascii.eqb d c); done. Qed.

Lemma trim_right_no c t : str_no c t = true -> trim_right_byte c t = t.
Proof. intros H. unfold trim_right_byte. rewrite trim_no, reversed_involutive; [done|]. unfold str_no. by rewrite str_forall_reversed. Qed.

Lemma b64_char_free v : 0 <= v < 64 -> colon_free (b64_char v) = true.
Proof.
  intros Hv. assert (forallb (fun n => colon_free (b64_char (Z.of_nat n))) (seq 0 64) = true) as Hall by (vm_compute; reflexivity).
  rewrite forallb_forall in Hall. specialize (Hall (Z.to_nat v) ltac:(apply in_seq; lia)). by rewrite Z2Nat.id in Hall by lia.
Qed.

Lemma b64_encode_free t : str_forall colon_free (b64_encode t) = true.
Proof.
  induction t as [|a|a b|a b c r IH] using str_ind3; [done|..]; byte_ranges; cbn [b64_encode str_forall]; cbv zeta; cbn [str_forall];
    rewrite ?IH, !b64_char_free by (Z.to_euclidean_division_equations; lia); done.
Qed.

Lemma Split_single c t : str_no c t = true -> Split t c = [t].
Proof. intros H. exact (Join_nonempty_split c [t] ltac:(done) ltac:(by repeat constructor)). Qed.

Lemma parse_int8_32 p w : parse_int8 p = Some w -> ParseInt32 p = Some w /\ -128 <= w <= 127.
Proof.
  unfold parse_int8, ParseInt32, ParseInt64. cbv zeta. intros H.
  assert (forall x, (if (-128 <=? x) && (x <=? 127) then Some x else None) = Some w -> x = w /\ -128 <= w <= 127) as Hx.
  { intros x Hx. destruct (_ && _) eqn:E; [|discriminate Hx]. injection Hx as <-. bool_hyp. split; [done|lia]. }
  assert (-128 <= w <= 127 -> (v ← (if (w <? min_int64) || (w >? max_int64) then None else Some w); if (v <? -2147483648) || (2147483647 <? v) then None else Some v) = Some w) as Hr.
  { intros Hw. rewrite (proj2 (Z.ltb_ge w _)), Z.gtb_ltb, (proj2 (Z.ltb_ge _ w)) by (unfold min_int64, max_int64; lia). cbn [orb mbind option_bind].
    rewrite (proj2 (Z.ltb_ge w _)), (proj2 (Z.ltb_ge _ w)) by lia. done. }
  destruct p as [|c r]; [discriminate H|]. cbv beta iota in H |- *. change minus_sign with "-"%char. change plus_sign with "+"%char.
  destruct (Ascii.eqb c "-"); [|destruct (Ascii.eqb c "+")];
    match goal with |- context [(?d == "") || negb (str_forall is_digit ?d)] => destruct ((d == "") || negb (str_forall is_digit d)); [discriminate H|] end;
    cbn [fmap option_fmap option_map] in H; apply Hx in H as [He Hw]; rewrite He; (split; [by apply Hr|done]).
Qed.

Lemma hex_value_lower c : hex_value (lower_byte c) = hex_value c.
Proof. destruct c as [[][][][][][][][]]; reflexivity. Qed.

Lemma hex_decode_lower t : hex_decode (lower_ascii t) = hex_decode t.
Proof.
  assert (forall n t, (String.length t <= n)%nat -> hex_decode (lower_ascii t) = hex_decode t) as H; [|by eapply H].
  induction n as [|n IH]; intros [|a [|b r]] Hl; cbn in Hl; try lia; [done..|]. cbn [lower_ascii hex_decode]. rewrite !hex_value_lower, IH by lia. done.
Qed.

Lemma code_byte_low z : code (byte_of z) = z mod 256.
Proof. pose proof (code_byte_of z 0 ltac:(lia)) as H. by rewrite Z.shiftr_0_r, Z.div_1_r in H. Qed.

Lemma int8_byte w : -128 <= w <= 127 -> int8_of (code (byte_of w)) = w.
Proof.
  intros Hw. rewrite code_byte_low. unfold int8_of.
  destruct (Z.ltb_spec (w mod 256) 128); Z.to_euclidean_division_equations; lia.
Qed.

(** An account has one address: whatever is accepted is read as workchain and
    hash in lower case, reading that again changes nothing, and the text shown to
    a payer is read as the same address as the raw one it was made from. *)
Theorem ton_address_one_spelling :
  (forall v a, canonicalTONAddress v = Some a -> canonicalTONAddress a = Some a) /\
  forall raw friendly, TONFriendlyAddress raw = Some friendly -> exists a, canonicalTONAddress raw = Some a /\ canonicalTONAddress friendly = Some a.
Proof.
  split; [intros v a (w & h & Hw & Hh & ->)%canonical_is_raw; by apply raw_address_canonical|]. intros raw friendly H. unfold TONFriendlyAddress in H.
  destruct (Split (TrimSpace raw) ":") as [|p0 [|p1 [|? ?]]] eqn:Es; try discriminate H. destruct (parse_int8 p0) as [w|] eqn:Ew; [|discriminate H].
  destruct (hex_decode p1) as [account|] eqn:Eh; [|discriminate H]. destruct (Z.eqb_spec (len account) 32) as [Hl|]; [|discriminate H]. cbn [negb] in H. cbv zeta in H.
  apply parse_int8_32 in Ew as [Ew Hw]. exists (raw_address w (hex_encode account)). split.
  - unfold canonicalTONAddress. cbv zeta. rewrite Es, Ew. cbn [mbind option_bind]. pose proof (hex_decode_lower p1) as Hd. rewrite Eh in Hd.
    pose proof (hex_decode_length _ _ Hd) as Hlen. rewrite Hl in Hlen. change (2 * 32) with 64 in Hlen. rewrite Hlen, Hd. cbn.
    unfold raw_address. rewrite (LegacyFacts.hex_decode_encode _ _ Hd); [done|apply lower_ascii_idem].
  - set (payload := String (chr 81) (String (byte_of w) account)) in *. set (ck := tonCRC16XMODEM payload) in *.
    set (data := payload +:+ _) in H. assert (friendly = b64_encode data) as -> by congruence. clear H.
    destruct (colon_free_no_colon _ (b64_encode_free data)) as (Nc & Ne & Np). unfold canonicalTONAddress, decode_base64. cbv zeta. rewrite TrimSpace_plain by done.
    rewrite (Split_single _ _ Nc), (trim_right_no _ _ Ne), b64_roundtrip. cbn [mbind option_bind].
    assert (String.length payload = 34%nat) as Hp by (unfold payload, len in *; cbn [String.length]; lia).
    assert (len data = 36) as -> by (unfold data; rewrite len_app; unfold len in *; cbn [String.length]; lia). cbn [Z.eqb Pos.eqb negb].
    assert (0 <= ck < 65536) as Hck by by apply crc_loop_range.
    assert (str_take 34 data = payload) as -> by (rewrite <- Hp; apply str_take_app).
    assert (byte_at data 34 = ck / 256 /\ byte_at data 35 = ck mod 256) as [-> ->].
    { unfold data. do 2 (destruct account as [|? account]; [discriminate Hl|]). unfold len in Hl. cbn [String.length] in Hl.
      do 30 (destruct account as [|? account]; [cbn in Hl; lia|]). destruct account as [|? ?]; [|cbn [String.length] in Hl; lia].
      unfold byte_at, payload. cbn [append String.get]. rewrite code_byte_of by lia. change (2 ^ 8) with 256. rewrite code_byte_low.
      split; [|done]. apply Z.mod_small. Z.to_euclidean_division_equations; lia. }
    replace (256 * (ck / 256) + ck mod 256) with ck by (Z.to_euclidean_division_equations; lia). change (crc16XMODEM payload) with ck. rewrite Z.eqb_refl. cbn [negb].
    assert (byte_at data 1 = code (byte_of w)) as -> by done. rewrite int8_byte by done.
    assert (str_take 32 (str_drop 2 data) = account) as ->; [|done]. change (str_drop 2 data) with (account +:+ String (byte_of (Z.shiftr ck 8)) (String (byte_of ck) "")).
    replace 32%nat with (String.length account) by (unfold len in Hl; lia). apply str_take_app.
Qed.

(** ** Frontiers, exactly *)

(** C40: The shards of a frontier are accepted exactly when every address of the
    64-bit space is in one and only one of them. *)
Theorem frontier_accepted_iff_tiles shards : Forall shard_ok shards -> tonCompleteShardFrontier shards = true <-> tiles shards.
Proof. apply complete_frontier_iff. Qed.

Definition split_shards : list Z := [3 * 2 ^ 62; 2 ^ 62].

Lemma frontier_accepted_iff_tiles_witness : tiles split_shards /\ ~ tiles [2 ^ 62] /\ ~ tiles [2 ^ 63; 2 ^ 62].
Proof.
  assert (forall l, Forall shard_ok l -> tonCompleteShardFrontier l = false -> ~ tiles l) as Hno.
  { intros l Hl Hf Ht. apply (frontier_accepted_iff_tiles l Hl) in Ht. congruence. }
  assert (Forall shard_ok split_shards /\ Forall shard_ok [2 ^ 62] /\ Forall shard_ok [2 ^ 63; 2 ^ 62]) as (H1 & H2 & H3).
  { unfold split_shards. rewrite !Forall_cons, !Forall_nil. unfold shard_ok. lia. }
  split; [apply (frontier_accepted_iff_tiles split_shards H1); vm_compute; reflexivity|].
  split; apply Hno; [exact H2|vm_compute; reflexivity|exact H3|vm_compute; reflexivity].
Defined.

(** ** A run *)

Definition ton_hash (digit : string) : string := Repeat digit 64.
Definition shop : string := "0:" +:+ ton_hash "a".
Definition till : string := "0:" +:+ ton_hash "e".

Definition sample_ton : TONSource := mkTONSource "p1" "ton:mainnet" "ton" 9 ∅ [shop; till] 2.

(** The logical time of an action stands in its end time. *)
Definition pay (id : string) (seqno lt : Z) (to amount : string) : tonAction :=
  mkTonAction (ton_hash id) "" "" 0 "ton_transfer" true 1000 lt seqno [] (mkTonData ("0:" +:+ ton_hash "f") to amount "" "") (mkTonDetails "" "" "" "" "" "" "" "" "").
Definition shop_actions : list tonAction := [pay "1" 9 80 shop "7"; pay "2" 10 120 shop "5"; pay "3" 11 180 shop "6"; pay "4" 11 181 till "8"].
Definition sample_ledger : Ledger :=
  mkLedger (fun account => if account == shop then shop_actions else if account == till then [pay "4" 11 181 till "8"] else []) ka_EndUtime
    (fun account => if account == shop then 5 else 2 ^ 63 + 5).

Definition ton_block_at (q : Z) : tonBlock := mkTonBlock (-1) "8000000000000000" q (ton_hash (if q =? 10 then "b" else "c")) (1000 + q) (q * 10) (q * 20) [(0, "")].
Definition frontier_blocks : list tonBlock :=
  [mkTonBlock (-1) "8000000000000000" 9 (ton_hash "9") 999 50 100 []; mkTonBlock 0 "4000000000000000" 7 (ton_hash "7") 999 50 90 [];
   mkTonBlock 0 "c000000000000000" 8 (ton_hash "8") 999 50 95 []].
Definition ton_node : TonNode :=
  mkTonNode (Ok (mkTonInfo 12 (ton_hash "d") (ton_hash "0") "")) (fun q => Ok [ton_block_at q]) (fun _ _ => Ok [ton_block_at 10; ton_block_at 11]) (fun _ => Ok frontier_blocks)
    (fun base account limit offset => match base with
       | ByLogicalTime startLT endLT =>
           let l := lt_window sample_ledger startLT endLT account in Ok (mkTonActions (take (Z.to_nat limit) (drop (Z.to_nat offset) l)) (Some (Z.of_nat (length l))))
       | _ => Ok (mkTonActions [] (Some 0))
       end) 0.
Definition ton_evidence (a : tonAction) : string := ka_ActionID a.
Definition ton_run : result provider_error RangeBatch := TON_ScanRange sample_ton ton_node sample_sha ton_evidence 10 11.
Definition ton_batch : RangeBatch := match ton_run with Ok b => b | Err _ => dense_batch 0 0 [] [] end.

Lemma ton_run_ok : TON_ScanRange sample_ton ton_node sample_sha ton_evidence 10 11 = Ok ton_batch.
Proof. vm_compute. reflexivity. Qed.

Lemma ton_range_contract_witness :
  map te_Amount (rb_Events ton_batch) = [5; 6; 8] /\ covers ton_batch 10 11 /\ Forall (in_range sample_ton sample_sha 12 (rb_Blocks ton_batch)) (rb_Events ton_batch).
Proof.
  split; [vm_compute; reflexivity|].
  destruct (ton_range_contract sample_ton ton_node sample_sha ton_evidence 10 11 ton_batch ton_run_ok) as (_ & Hc & info & Hi & _ & He).
  split; [apply Hc; [discriminate|reflexivity]|]. injection Hi as <-. exact He.
Defined.

Lemma ton_payments_reported_once_witness : exists events,
  normalizeTONActions sample_ton sample_sha ton_evidence (pay "2" 10 120 shop "5" :: shop_actions) (block_evidence (rb_Blocks ton_batch)) 0 12 = Err (transfer_error "action masterchain binding mismatch") /\
  normalizeTONActions sample_ton sample_sha ton_evidence [pay "2" 10 120 shop "5"; pay "3" 11 180 shop "6"; pay "2" 10 120 shop "5"] (block_evidence (rb_Blocks ton_batch)) 0 12 = Ok events /\
  map te_Amount events = [5; 6] /\ NoDup (map te_Identity events).
Proof.
  eexists. split; [vm_compute; reflexivity|]. split; [vm_compute; reflexivity|]. split; [vm_compute; reflexivity|].
  refine (proj1 (ton_payments_reported_once sample_ton sample_sha ton_evidence (block_evidence (rb_Blocks ton_batch)) 0 12
    [pay "2" 10 120 shop "5"; pay "3" 11 180 shop "6"; pay "2" 10 120 shop "5"] _ _ _ _)).
  - intros a [<-|[<-|[<-|[]]]]; discriminate.
  - intros a b [<-|[<-|[<-|[]]]] [<-|[<-|[<-|[]]]] H; try reflexivity; discriminate H.
  - vm_compute. reflexivity.
Defined.

Lemma sample_laws : ledger_laws sample_ton ton_node sample_ledger 10 11.
Proof.
  assert (forall account, In account (os_watched sample_ton) -> account = shop \/ account = till) as Hw by (intros account [<-|[<-|[]]]; auto).
  assert (forall account a, In a (lg_history sample_ledger account) -> In a shop_actions) as Hh.
  { intros account a. cbn [sample_ledger lg_history]. destruct (account == shop); [done|]. destruct (account == till); [|done]. intros [<-|[]]. right. right. right. by left. }
  constructor.
  - intros account [->| ->]%Hw; vm_compute; reflexivity.
  - intros account. cbn [sample_ledger lg_history]. destruct (account == shop); [|destruct (account == till); [|constructor]].
    + assert (bool_decide (NoDup (ids shop_actions)) = true) as H by (vm_compute; reflexivity). by apply bool_decide_eq_true in H.
    + apply NoDup_singleton.
  - intros k k' a b Ha%Hh Hb%Hh. destruct Ha as [<-|[<-|[<-|[<-|[]]]]], Hb as [<-|[<-|[<-|[<-|[]]]]]; intros H; try reflexivity; discriminate H.
  - intros k a Ha%Hh. destruct Ha as [<-|[<-|[<-|[<-|[]]]]]; split; discriminate.
  - intros account. cbn [sample_ledger lg_prefix]. destruct (account == shop); lia.
  - intros account startLT endLT _. exists (Some (Z.of_nat (length (lt_window sample_ledger startLT endLT account)))). split; [intros offset _; reflexivity|by right].
  - intros account a blocks b Hacc Ha Hq Hb Hin. injection Hb as <-. assert (kb_EndLT b <= 100) as Hend.
    { apply filter_In in Hin as [Hin _]. destruct Hin as [<-|[<-|[<-|[]]]]; discriminate. }
    apply Hh in Ha. destruct Ha as [<-|[<-|[<-|[<-|[]]]]]; cbn in Hq |- *; lia.
  - intros account a last Hacc Ha%Hh _ Hlast. injection Hlast as <-. destruct Ha as [<-|[<-|[<-|[<-|[]]]]]; discriminate.
Qed.

Lemma watched_scan_misses_nothing_witness : exists info e, kn_info ton_node = Ok info /\ In e (rb_Events ton_batch) /\
  reports sample_ton sample_sha ton_evidence (block_evidence (rb_Blocks ton_batch)) 0 (ki_LastSeqno info) (pay "4" 11 181 till "8") e.
Proof.
  refine (watched_scan_misses_nothing sample_ton ton_node sample_sha ton_evidence sample_ledger 10 11 ton_batch till (pay "4" 11 181 till "8")
    (mkTONMessage 0 ("0:" +:+ ton_hash "f") till "ton" "8" 9 false "") _ _ sample_laws ton_run_ok _ _ _ _ _ _).
  - discriminate.
  - reflexivity.
  - right. left. reflexivity.
  - left. reflexivity.
  - split; discriminate.
  - reflexivity.
  - reflexivity.
  - vm_compute. reflexivity.
Defined.
